(* ===== verification/_CoqProject ===== *)
-Q . S2P
Prelude.v
PyStr.v
PyTime.v
PyFloat.v
ExecContracts.v
ExecLedger.v
ExecRisk.v
ExecJournal.v
KisTrading.v
ExecGateways.v
ExecRecovery.v
ExecOms.v
ExecService.v
ExecMachine.v
ExecRefine.v
ExecRestore.v
ExecSession.v
ExecDay.v
MarketClock.v
MarketPhase.v
WsLease.v
ShardPlan.v
Supervise.v
Handover.v
SeqSet.v
L0Decode.v
LossLedger.v
LossLedgerFacts.v
LossExact.v
L0Latency.v
L0LatencyFacts.v
L0Audit.v
L0AuditFacts.v
L0Replay.v
Layout.v
Calendar.v
Retention.v
RetentionFacts.v
Remote.v
RemoteFacts.v
Eod.v
EodFacts.v
EodProps.v
Repair.v
PyColl.v
Gapfill.v
GapfillFacts.v
GapfillProps.v
GapfillPeers.v
FillDay.v
RepairMerge.v
RepairMergeFacts.v
RepairTopup.v
RepairBuild.v
RepairJob.v
RepairJobFacts.v
RepairStore.v
Membership.v
MembershipFacts.v
Intraday.v
Discovery.v
DiscoveryFacts.v
DiscoveryInv.v
DiscoveryProps.v
Feeds.v
KiwoomPages.v
TapeWalk.v
TapeLedger.v
TapeBackfill.v
TapeRunFacts.v
TapeRunSound.v
TapeRunSafe.v
TapeNights.v
TapeRequests.v
TapeProps.v
TapePlan.v
TapePlanProps.v
RepairAlerts.v
Universe.v
UniverseProps.v
