(* ===== verification/Prelude.v ===== *)
(** * KRX-Alpha: a verification development

    KRX-Alpha collects the trades and quotes of the Korean exchange over
    WebSocket connections of several vendors, keeps them in a data lake, and
    sends orders through the KIS REST service. This library models the parts of
    it in which the program's own decisions lie, and proves what makes them
    correct. Definitions carry the names of the source; paths below are relative
    to [src/src/].

    ** The program and the files that model it

    - Shared vocabulary. This file: results and exceptions, the state-and-error
      monad [stx] whose effects survive an exception, Python dictionaries,
      integer and list lemmas, the tactics ([bprop], [inv_ok], ...) and hint
      databases. [PyStr]: decimal text. [PyTime], [Calendar]: dates and times.
      [PyFloat]: binary64. [PyColl]: counters, span merging, bisection.

    - Order execution ([execution/], [brokers/kis/trading.py],
      [brokers/kis/http.py]). A strategy's intents pass the risk gate
      ([ExecRisk]) into the order manager ([ExecOms]), which talks to a gateway
      ([ExecGateways], over [KisTrading] for live orders), books fills in the
      ledger ([ExecLedger]) and appends every event to the day's journal
      ([ExecJournal]). After a crash [ExecRecovery] rebuilds the session from
      that journal and [ExecService] assembles the manager.
      [ExecContracts] holds the data and the order status machine.
      [ExecMachine] is the abstract specification of a session as a step
      relation; [ExecRefine] proves that every operation of the manager is a run
      of it; [ExecRestore], [ExecSession] and [ExecDay] derive what holds of
      sessions and of days with restarts, of journals that stop being restorable, and of
      the cash a paper session offers to the gate.

    - Market time. [MarketClock] ([core/session_anchors.py],
      [core/calendar.py], [orchestration/deploy_gate.py]) and [MarketPhase]
      ([storage/market_phase.py]).

    - Collection. [WsLease] ([realtime/ws_lease.py]): the connection slots all
      processes of a host share through one file. [ShardPlan]
      ([realtime/kis_sharding.py], [ls_limits.py], [ls_sharding.py]): which
      symbols go to which connection. [Handover]
      ([realtime/connection_handover.py] and the receive loop of
      [realtime/streamer.py]): the replacement of a connection by a new one
      without a gap, driven by the swap requests that the lag monitor raises on
      the recorded frames ([lag_monitor.py], [streaming_child.py], [streamer.py]), over an
      interface of the slot ledger that [WsLease] implements; a release the ledger
      refuses leaves the lease out. [Supervise] ([orchestration/supervisor.py],
      [trading_day_gate.py], [shard_watchdog.py],
      [realtime/regular_open_watch.py]): child processes and their restarts.

    - Intraday discovery and its feeds. [Membership] with [MembershipFacts]
      ([universe/membership.py], [universe/status_policy.py],
      [core/symbols.py]): the ledger of the day's symbols, a file several
      processes append to. [Intraday] ([universe/intraday.py]): the admission
      rule and the admissions file. [Discovery] with [DiscoveryFacts],
      [DiscoveryInv] and [DiscoveryProps] ([cli/collect_intraday_discovery.py]):
      the process that polls the ranking and admits symbols. [Feeds]: the watcher
      of [realtime/session.py] that subscribes them on a running connection, the
      adapters' live subscription and the daemon's static rows. [KiwoomPages] and
      [TapeWalk] ([marketdata/kiwoom_ranking.py], [kiwoom_ticks.py]): the
      responses of the ranking and tick-chart calls and the walk over a symbol's
      tape, which feeds the repair.

    - Selection of the static universe. [Universe] with [UniverseProps]
      ([universe/policy.py]): the events of a day, the core panel, the follow-up
      and the tiered selection, over bars that carry their rolling features.

    - Session audit ([storage/l0_audit.py]). [SeqSet], [L0Decode], [LossLedger],
      [L0Latency] and [L0Audit] are the audit that finds, from the journals of a
      day, the trades that never arrived and the delivery latencies; their
      theorems are in [LossLedgerFacts], [LossExact], [L0LatencyFacts],
      [L0AuditFacts] and [L0Replay].

    - The lake. [Layout] ([storage/layout.py]), [Retention] with
      [RetentionFacts] ([storage/retention.py]), [Remote] with [RemoteFacts]
      ([storage/remote.py]) and their composition at the end of a day, [Eod] with
      [EodFacts] and [EodProps] ([orchestration/eod.py] and
      [_run_eod_housekeeping] of [orchestration/daemon.py]).

    - Repair. [Repair] ([storage/l0_repair.py]) decides whether a day is settled
      and holds its journals back from deletion until it is. [Gapfill]
      ([storage/l0_gapfill.py]; [GapfillFacts], [GapfillProps], [GapfillPeers])
      derives the missing trades from peer vendors and from a trade tape,
      [FillDay] is the two-stage fill of the repair job, [RepairMerge]
      ([storage/l0_repair_merge.py]; [RepairMergeFacts], [RepairTopup],
      [RepairBuild]) writes the repaired table, and [RepairJob]
      ([storage/l0_repair_job.py]; [RepairJobFacts]) runs them over the candidate
      days through the interface [RepairOps] with its laws [RepairLaws], which
      [RepairStore] implements by the modelled gap fill and merge over a store of
      files. [RepairAlerts] ([orchestration/daemon.py]) is the daemon's summary of
      unfinished days, its alerts and its pages before a deletion.

    - The tape backfill ([marketdata/tick_tape_backfill.py]). [TapePlan] with
      [TapePlanProps]: the days a night fetches. [TapeLedger]: the file of
      settled, given-up and failed days. [TapeBackfill]: a run, from the token
      and the retries of a request over the walk of [TapeWalk] to the
      checkpoints that publish partitions and append to the ledger, in a monad
      over the state of the run and its disk. [TapeRunFacts] classifies its steps
      by what they leave alone, [TapeRunSound] and [TapeRunSafe] carry its
      invariant through every step and every fault, [TapeNights] through many
      nights on one disk, [TapeRequests] counts requests and retries, and
      [TapeProps] states the results and gives an instance of the record codec.
      [load_tape_for_symbols] ([storage/l0_gapfill.py]) in [TapeNights] reads the
      partitions for the fill.

    ** What the theorems show

    - Orders: nothing is sent that the gate refuses; an order whose fate is
      unknown is not sent again; the books balance in every reachable state; the
      manager refines the abstract machine; with a broker whose amounts are fixed,
      crashes and restarts lose nothing.
    - Connections: in every interleaving of processes the vendor's connection cap
      holds; a handover accounts for every lease and records no frame from two
      connections; restarts
      of children are bounded.
    - Audit: the ledger books exactly the undelivered trades of a feed that
      delivers none twice and jumps no more often than intervals are kept; its
      figures fit together for any input; the report is delivered whatever the
      journals hold.
    - Lake: with enough disk no journal file disappears at the end of a day that is
      not archived, verified or quarantined, and none of an unrepaired day; on a low
      disk exactly the old partitions with a verified object go.
    - Repair: with a complete tape the fill recovers exactly the lost trades; the
      merged table is the live trades plus rows on free counters of their gaps; a
      run that reports success has settled its days, and a run without faults
      does settle them.
    - Discovery: a readable ledger returns every acknowledged row whatever torn
      appends left; one poll admits exactly the best candidates there is room
      for; over polls, failures, crashes and restarts the admissions file names
      no symbol twice and stays within every feed's capacity; the polling loop
      ends; a feed that considers a revision done holds its pairs, or the vendor
      refused them; a day the tape walk certifies has all of its trades.
    - Universe: the core panel is exactly the hysteresis rule; a tiered selection
      drops no core symbol and leaves no slot free while it drops one.
    - Tape backfill: the plan is exactly the uncovered days; over any nights with
      any faults and kills the ledger stays readable and truthful and published
      partitions keep their rows; requests stay within the page budget; no
      unfinished day escapes the alerts and no deletion comes without its page.
    - Findings: some theorems say when the code does what it does not mean to do:
      an amount revised without a fill makes every later journal of the order
      unrestorable, paper cash can be spent again until the next reconciliation, a
      late frame repeated often enough hides a loss, a low disk deletes journals newer
      than their archive and held days, a day published twice doubles the fill's tape,
      a confirmed gap is in no plan. An example of [RepairBuild] shows a lost trade
      dropped as the twin of a late one. They are stated on the code as it is.

    ** Modelling choices

    Integers are unbounded as Python's are. A computation that can raise returns
    [res], [option] (where only one exception matters) or runs in [stx]; the
    effects before the exception stay. What another process, the operating
    system, a vendor or a library (JSON text, SHA-256, md5, rclone, Parquet)
    answers is an argument; what the code relies on is a law of a class or a
    named hypothesis, with an instance that satisfies it. Asynchronous code is
    the sequence of its steps; calls under a file lock are atomic. Times are
    integers of one tick; where binary64 rounding decides a result ([ExecLedger],
    [KiwoomPages]) it is computed by [SpecFloat].

    Fuel: the order POST loop has one unit per attempt and four attempts suffice
    ([KisTrading]); [await_terminal] takes one per poll and its theorems hold for
    every amount; span searches and the evictions of the latency budget recurse
    on their lists; the later passes over a journal are bounded by its number of
    groups, which is proved to be enough ([L0LatencyFacts]); the fill of a gap
    recurses on its rows; the polling loop of the discovery has one unit per scheduled
    poll, proved to be enough ([DiscoveryProps]), and the tape walk one per page of
    the budget its code checks. The retries of a backfill request have
    [fetch_fuel] units, proved to be enough ([TapeRequests]). All other recursion is structural.

    ** Not modelled

    Logging, alerts, metrics, health checks and the command line (no decision of
    their own); configuration parsing and provisioning (settings are arguments);
    the vendor protocols of the stream adapters, the HTTP collectors and the
    columnar normalization (the logic is that of sockets, vendor services and
    dataframe libraries); the daemon's event loop, of which the supervisors,
    gates, deploy decision, housekeeping, repair hold, repair alerts and shard
    watchdog are modelled as components of their own; deployment and repository tools.

    Of modelled files, what is left out is named in the files' own headers; of
    the rest, these would be next: the rolling features of [universe/policy.py]
    (Polars window expressions over the whole bar history), the ranking universes
    ([aftermarket.py], [premarket.py], [ipc.py]), the gap budget at the end of a
    day ([orchestration/eod.py]), the pacing of REST calls over a shared file
    ([brokers/kis/rate.py], sums of binary64 times), and the daemon's loop.
*)

From stdpp Require Export base numbers list sorting strings gmap.
From Stdlib Require Export ZArith Lia.

#[global] Open Scope Z_scope.

(** ** Results and Python exceptions *)

(** A computation that returns a value or raises. *)
Inductive res (E A : Type) : Type :=
| Ok (a : A)
| Raise (e : E).
Arguments Ok {E A} a.
Arguments Raise {E A} e.

Definition res_bind {E A B} (c : res E A) (k : A -> res E B) : res E B :=
  match c with
  | Ok a => k a
  | Raise e => Raise e
  end.

(** A stateful computation whose effects survive a raised exception, as the
    mutations of a Python object do. *)
Definition stx (S E A : Type) : Type := S -> S * res E A.

Definition sret {S E A} (a : A) : stx S E A := fun s => (s, Ok a).
Definition sraise {S E A} (e : E) : stx S E A := fun s => (s, Raise e).
Definition sget {S E} : stx S E S := fun s => (s, Ok s).
Definition smod {S E} (f : S -> S) : stx S E unit := fun s => (f s, Ok tt).
Definition sbind {S E A B} (c : stx S E A) (k : A -> stx S E B) : stx S E B :=
  fun s =>
    match c s with
    | (s', Ok a) => k a s'
    | (s', Raise e) => (s', Raise e)
    end.
Definition slift {S E A} (c : res E A) : stx S E A := fun s => (s, c).

Declare Scope py_scope.
Delimit Scope py_scope with py.
Notation "x <~ c ;; k" := (res_bind c (fun x => k))
  (at level 100, c at next level, right associativity) : py_scope.
Notation "x <- c ;; k" := (sbind c (fun x => k))
  (at level 100, c at next level, right associativity) : py_scope.
Notation "c ;;; k" := (sbind c (fun _ => k))
  (at level 100, k at level 200, right associativity) : py_scope.

(** [for x in l: f(x)]. *)
Fixpoint each {S E A : Type} (f : A -> stx S E unit) (l : list A) : stx S E unit :=
  match l with
  | [] => sret tt
  | x :: l' => (f x;;; each f l')%py
  end.

(** ** Python dictionaries

    An insertion-ordered association list: assigning to an existing key keeps
    its position, a new key goes to the end. *)
Section Dict.
Context {K V : Type} `{EqDecision K}.

Fixpoint dget (d : list (K * V)) (k : K) : option V :=
  match d with
  | [] => None
  | (k', v) :: d' => if decide (k = k') then Some v else dget d' k
  end.

Fixpoint dset (d : list (K * V)) (k : K) (v : V) : list (K * V) :=
  match d with
  | [] => [(k, v)]
  | (k', v') :: d' =>
      if decide (k = k') then (k', v) :: d' else (k', v') :: dset d' k v
  end.

Fixpoint ddel (d : list (K * V)) (k : K) : list (K * V) :=
  match d with
  | [] => []
  | (k', v') :: d' =>
      if decide (k = k') then d' else (k', v') :: ddel d' k
  end.

Definition dmem (d : list (K * V)) (k : K) : bool :=
  match dget d k with Some _ => true | None => false end.
End Dict.

Definition dkeys {K V} (d : list (K * V)) : list K := map fst d.
Definition dvalues {K V} (d : list (K * V)) : list V := map snd d.

(** ** Sums and stable sorting *)

Definition zlen {A} (l : list A) : Z := Z.of_nat (length l).

(** [xs[a:b]] for bounds that are not negative. *)
Definition slice {A} (a b : Z) (l : list A) : list A := take (Z.to_nat (b - a)) (drop (Z.to_nat a) l).

(** [s.add(x)] of a set kept as a list. *)
Definition set_add {A} `{EqDecision A} (x : A) (l : list A) : list A := if decide (x ∈ l) then l else x :: l.

(** [dict.fromkeys(xs)]: the distinct elements in order of first occurrence. *)
Fixpoint fromkeys {A} `{EqDecision A} (l : list A) : list A :=
  match l with
  | [] => []
  | x :: l' => x :: List.filter (fun y => negb (bool_decide (y = x))) (fromkeys l')
  end.

Definition zsum (l : list Z) : Z := fold_right Z.add 0 l.

(** [sorted(l, key=...)]: insertion from the right keeps equal keys in their
    original order. [leb a b] is the comparison of the keys. *)
Section Sort.
Context {A : Type} (leb : A -> A -> bool).

Fixpoint sinsert (x : A) (l : list A) : list A :=
  match l with
  | [] => [x]
  | y :: l' => if leb x y then x :: y :: l' else y :: sinsert x l'
  end.

Definition py_sorted (l : list A) : list A := fold_right sinsert [] l.
End Sort.

(** ** Tactics *)

(** Destruct the scrutinee of a [match] or an [if] in the goal. *)
Ltac dmatch :=
  match goal with
  | |- context [match ?x with _ => _ end] =>
      lazymatch x with
      | context [match _ with _ => _ end] => fail
      | _ => let E := fresh "E" in destruct x eqn:E
      end
  end.

(** The same in a hypothesis. *)
Ltac hmatch H :=
  match type of H with
  | context [match ?x with _ => _ end] =>
      lazymatch x with
      | context [match _ with _ => _ end] => fail
      | _ => let E := fresh "E" in destruct x eqn:E
      end
  end.

(** Turn boolean comparisons of hypotheses into propositions. *)
Ltac bprop :=
  repeat match goal with
  | H : (_ && _)%bool = true |- _ => apply andb_true_iff in H; destruct H
  | H : (_ || _)%bool = false |- _ => apply orb_false_iff in H; destruct H
  | H : negb _ = true |- _ => apply negb_true_iff in H
  | H : negb _ = false |- _ => apply negb_false_iff in H
  | H : bool_decide _ = true |- _ => apply bool_decide_eq_true in H
  | H : bool_decide _ = false |- _ => apply bool_decide_eq_false in H
  | H : (_ <? _) = true |- _ => apply Z.ltb_lt in H
  | H : (_ <? _) = false |- _ => apply Z.ltb_ge in H
  | H : (_ <=? _) = true |- _ => apply Z.leb_le in H
  | H : (_ <=? _) = false |- _ => apply Z.leb_gt in H
  | H : (_ <? _)%nat = true |- _ => apply Nat.ltb_lt in H
  | H : (_ <? _)%nat = false |- _ => apply Nat.ltb_ge in H
  | H : (_ <=? _)%nat = true |- _ => apply Nat.leb_le in H
  | H : (_ <=? _)%nat = false |- _ => apply Nat.leb_gt in H
  | H : (_ =? _) = true |- _ => apply Z.eqb_eq in H
  | H : (_ =? _) = false |- _ => apply Z.eqb_neq in H
  end.

(** ** Generic lemmas *)

Create HintDb pydict.
Create HintDb exec.
Create Rewrite HintDb pydict.
Create HintDb loss.

(** A loop keeps an invariant indexed by the elements still to come, whether it
    ends or an iteration raises. *)
Lemma each_inv {S E A} (f : A -> stx S E unit) (I : list A -> S -> Prop) l : forall s,
  (forall x l s, I (x :: l) s -> I l (fst (f x s))) -> (forall l s, I l s -> I [] s) ->
  I l s -> I [] (fst (each f l s)).
Proof.
  induction l as [|x l IH]; intros s Hf Hw Hs; cbn; [done|]. unfold sbind.
  pose proof (Hf x l s Hs) as H. destruct (f x s) as [s' [u|e]]; cbn in *; [by apply IH|by eapply Hw].
Qed.

(** Triples: from a state with [P] a computation ends in [Q] with its value, or
    raises in a state with [R]. *)
Definition hoare {S E A} (P : S -> Prop) (c : stx S E A) (Q : A -> S -> Prop) (R : S -> Prop) : Prop :=
  forall s, P s -> match c s with (s', Ok a) => Q a s' | (s', Raise _) => R s' end.

Section Hoare.
Context {S E : Type}.
Implicit Types (P R : S -> Prop).

Lemma hoare_ret {A} P R (a : A) : hoare P (sret (E := E) a) (fun x s => x = a /\ P s) R.
Proof. by intros s Hs. Qed.

Lemma hoare_bind {A B} P R (c : stx S E A) (k : A -> stx S E B) Q Q' :
  hoare P c Q' R -> (forall a, hoare (Q' a) (k a) Q R) -> hoare P (sbind c k) Q R.
Proof.
  intros Hc Hk s Hs. unfold sbind. specialize (Hc s Hs). destruct (c s) as [s' [a|e]]; [by apply Hk|done].
Qed.

Lemma hoare_conseq {A} P P' R R' (c : stx S E A) Q Q' :
  hoare P' c Q' R' -> (forall s, P s -> P' s) -> (forall a s, Q' a s -> Q a s) -> (forall s, R' s -> R s) ->
  hoare P c Q R.
Proof.
  intros Hc Hp Hq Hr s Hs. specialize (Hc s (Hp s Hs)). destruct (c s) as [s' [a|e]]; auto.
Qed.

Lemma hoare_lift {A} P R (r : res E A) : (forall s, P s -> R s) -> hoare P (slift r) (fun a s => r = Ok a /\ P s) R.
Proof. intros Hr s Hs. unfold slift. destruct r; auto. Qed.

Lemma hoare_raise {A} P R (e : E) Q : (forall s, P s -> R s) -> hoare P (sraise (A := A) e) Q R.
Proof. intros Hr s Hs. by apply Hr. Qed.

Lemma hoare_if {A} P R (b : bool) (c d : stx S E A) Q :
  (b = true -> hoare P c Q R) -> (b = false -> hoare P d Q R) -> hoare P (if b then c else d) Q R.
Proof. destruct b; auto. Qed.

Lemma hoare_pure {A} P R (p : Prop) (c : stx S E A) Q : (p -> hoare P c Q R) -> hoare (fun s => p /\ P s) c Q R.
Proof. intros H s [Hp Hs]. by apply H. Qed.
End Hoare.

Section DictLemmas.
Context {K V : Type} `{EqDecision K}.
Implicit Types (d : list (K * V)) (k : K) (v : V).

Lemma dget_dset_eq d k v : dget (dset d k v) k = Some v.
Proof.
  induction d as [|[k' v'] d IH]; simpl; [by rewrite decide_True|].
  case_decide; simpl; [by rewrite decide_True|by rewrite decide_False].
Qed.

Lemma dget_dset_ne d k k' v : k <> k' -> dget (dset d k v) k' = dget d k'.
Proof.
  intros Hne; induction d as [|[k0 v0] d IH]; simpl; [by rewrite decide_False|].
  destruct (decide (k = k0)) as [->|]; simpl; [by rewrite !decide_False|].
  by rewrite IH.
Qed.

Lemma dset_dset d k v v' : dset (dset d k v) k v' = dset d k v'.
Proof.
  induction d as [|[k0 v0] d IH]; simpl; [by rewrite decide_True|].
  destruct (decide (k = k0)) as [->|]; simpl; [by rewrite decide_True|].
  rewrite decide_False by done. by rewrite IH.
Qed.

Lemma dget_elem d k v : dget d k = Some v -> (k, v) ∈ d.
Proof.
  induction d as [|[k' v'] d IH]; simpl; [done|].
  case_decide; intros; simplify_eq; [left|right; auto].
Qed.

Lemma dget_None_keys d k : dget d k = None <-> k ∉ dkeys d.
Proof.
  induction d as [|[k' v'] d IH]; simpl; [split; [intros _; apply not_elem_of_nil|done]|].
  rewrite not_elem_of_cons; case_decide; naive_solver.
Qed.

Lemma dset_fresh d k v : dget d k = None -> dset d k v = d ++ [(k, v)].
Proof.
  induction d as [|[k' v'] d IH]; simpl; [done|].
  case_decide; [done|]. intros; by rewrite IH.
Qed.

Lemma dkeys_dset_bound d k v v0 :
  dget d k = Some v0 -> dkeys (dset d k v) = dkeys d.
Proof.
  induction d as [|[k' v'] d IH]; simpl; [done|].
  case_decide; simpl; [done|]. intros; by rewrite IH.
Qed.

Lemma dkeys_dset_nodup d k v : NoDup (dkeys d) -> NoDup (dkeys (dset d k v)).
Proof.
  intros Hnd. destruct (dget d k) eqn:E; [by erewrite dkeys_dset_bound|].
  rewrite dset_fresh by done. unfold dkeys; rewrite map_app; simpl.
  apply NoDup_app; repeat split; [done| |apply NoDup_singleton].
  intros x Hx ->%list_elem_of_singleton. by apply dget_None_keys in E.
Qed.

Lemma elem_dget d k v : NoDup (dkeys d) -> (k, v) ∈ d -> dget d k = Some v.
Proof.
  induction d as [|[k' v'] d IH]; simpl; [intros _ []%elem_of_nil|].
  intros [Hn Hnd]%NoDup_cons [Heq|Hin]%elem_of_cons.
  - simplify_eq. by rewrite decide_True.
  - rewrite decide_False; [auto|]. intros ->. apply Hn.
    apply list_elem_of_fmap. by exists (k', v).
Qed.

Lemma dget_ddel_ne d k k' : k <> k' -> dget (ddel d k) k' = dget d k'.
Proof.
  intros Hne; induction d as [|[k0 v0] d IH]; simpl; [done|].
  destruct (decide (k = k0)) as [->|]; simpl; [by rewrite decide_False|].
  by rewrite IH.
Qed.

Lemma dkeys_ddel_sub d k : dkeys (ddel d k) `sublist_of` dkeys d.
Proof.
  induction d as [|[k0 v0] d IH]; simpl; [constructor|].
  case_decide; simpl; [by constructor|by constructor].
Qed.

Lemma dget_ddel_eq d k : NoDup (dkeys d) -> dget (ddel d k) k = None.
Proof.
  induction d as [|[k0 v0] d IH]; simpl; [done|].
  intros [Hn Hnd]%NoDup_cons. destruct (decide (k = k0)) as [->|]; simpl.
  - by apply dget_None_keys.
  - rewrite decide_False by done; auto.
Qed.
End DictLemmas.

#[export] Hint Rewrite @dget_dset_eq : pydict.
#[export] Hint Resolve dkeys_dset_nodup dget_elem : pydict.

Lemma zsum_app l1 l2 : zsum (l1 ++ l2) = zsum l1 + zsum l2.
Proof. induction l1; simpl; lia. Qed.

Lemma zsum_perm l1 l2 : l1 ≡ₚ l2 -> zsum l1 = zsum l2.
Proof. induction 1; simpl; lia. Qed.

Lemma zsum_nonneg l : Forall (fun x => 0 <= x) l -> 0 <= zsum l.
Proof. induction 1; simpl; lia. Qed.

Section SortLemmas.
Context {A : Type} (leb : A -> A -> bool).
Context (leb_total : forall a b, leb a b = true \/ leb b a = true).

Lemma sinsert_perm x l : sinsert leb x l ≡ₚ x :: l.
Proof.
  induction l as [|y l IH]; simpl; [done|].
  destruct (leb x y); [done|]. rewrite IH. constructor.
Qed.

Lemma py_sorted_perm l : py_sorted leb l ≡ₚ l.
Proof. induction l as [|x l IH]; simpl; [done|]. by rewrite sinsert_perm, IH. Qed.

Lemma py_sorted_length l : length (py_sorted leb l) = length l.
Proof. apply Permutation_length, py_sorted_perm. Qed.

Lemma sinsert_sorted x l :
  Sorted (fun a b => leb a b = true) l -> Sorted (fun a b => leb a b = true) (sinsert leb x l).
Proof using leb_total.
  induction 1 as [|y l Hs IH Hhd]; simpl; [repeat constructor|].
  destruct (leb x y) eqn:E; [by repeat constructor|].
  constructor; [done|].
  destruct (leb_total x y) as [?|Hyx]; [congruence|].
  destruct Hhd as [|z l Hyz]; simpl; [by constructor|].
  destruct (leb x z); by constructor.
Qed.

Lemma py_sorted_sorted l : Sorted (fun a b => leb a b = true) (py_sorted leb l).
Proof using leb_total. induction l; simpl; [constructor|by apply sinsert_sorted]. Qed.

Lemma py_sorted_elem x l : x ∈ py_sorted leb l <-> x ∈ l.
Proof. by rewrite py_sorted_perm. Qed.
End SortLemmas.

(** The bind of a computed option. Rewriting with it instead of reducing keeps the
    kernel from comparing the continuation's argument with the option it came from. *)
Lemma bind_some {A B} (x : A) (f : A -> option B) : (Some x ≫= f) = f x.
Proof. done. Qed.

(** ** Filters, slices and distinct elements *)

Lemma filter_sublist {A} (p : A -> bool) l : List.filter p l `sublist_of` l.
Proof. induction l as [|x l IH]; [done|]. cbn. destruct (p x); by constructor. Qed.

Lemma filter_sublist_mono {A} (p : A -> bool) l k : l `sublist_of` k -> List.filter p l `sublist_of` List.filter p k.
Proof. induction 1 as [|x l k Hs IH|x l k Hs IH]; cbn; [done|..]; destruct (p x); first [done|by constructor]. Qed.

Lemma sublist_map {A B} (f : A -> B) l k : l `sublist_of` k -> map f l `sublist_of` map f k.
Proof. induction 1; cbn; by constructor. Qed.

Lemma filter_elem {A} (p : A -> bool) x l : x ∈ List.filter p l <-> x ∈ l /\ p x = true.
Proof. rewrite !list_elem_of_In. apply List.filter_In. Qed.

Lemma filter_split_perm {A} (p : A -> bool) l :
  List.filter p l ++ List.filter (fun x => negb (p x)) l ≡ₚ l.
Proof.
  induction l as [|x l IH]; [done|]. cbn. destruct (p x); cbn.
  - by rewrite IH.
  - by rewrite <- Permutation_middle, IH.
Qed.

Lemma sublist_same_length {A} (l k : list A) : l `sublist_of` k -> length l = length k -> l = k.
Proof.
  induction 1 as [|x l k Hs IH|x l k Hs IH]; cbn; intros Hl; [done|f_equal; apply IH; lia|].
  apply sublist_length in Hs. lia.
Qed.

Section FromKeys.
Context {A : Type} `{EqDecision A}.
Implicit Types (l : list A).

Lemma fromkeys_elem x l : x ∈ fromkeys l <-> x ∈ l.
Proof.
  induction l as [|y l IH]; [done|]. cbn. rewrite !elem_of_cons, filter_elem, IH, negb_true_iff, bool_decide_eq_false.
  destruct (decide (x = y)); naive_solver.
Qed.

Lemma fromkeys_sublist l : fromkeys l `sublist_of` l.
Proof.
  induction l as [|y l IH]; [done|]. cbn. constructor. etransitivity; [apply filter_sublist|done].
Qed.

Lemma fromkeys_nodup l : NoDup (fromkeys l).
Proof.
  induction l as [|y l IH]; [constructor|]. cbn. constructor.
  - rewrite filter_elem, negb_true_iff, bool_decide_eq_false. naive_solver.
  - eapply sublist_NoDup; [done|apply filter_sublist].
Qed.

Lemma fromkeys_length_nodup l : zlen (fromkeys l) = zlen l -> NoDup l.
Proof.
  unfold zlen. intros H.
  assert (fromkeys l = l) as <-; [|apply fromkeys_nodup].
  apply sublist_same_length; [apply fromkeys_sublist|lia].
Qed.
End FromKeys.

Lemma slice_app {A} (l : list A) a b c :
  0 <= a <= b -> b <= c -> slice a b l ++ slice b c l = slice a c l.
Proof.
  intros Hab Hbc. unfold slice.
  replace (Z.to_nat b) with (Z.to_nat a + Z.to_nat (b - a))%nat by lia.
  rewrite <- drop_drop. replace (Z.to_nat (c - a)) with (Z.to_nat (b - a) + Z.to_nat (c - b))%nat by lia.
  by rewrite take_take_drop.
Qed.

Lemma slice_empty {A} (l : list A) a b : zlen l <= a \/ b <= a -> slice a b l = [].
Proof.
  unfold slice, zlen. intros [H|H].
  - rewrite drop_ge by lia. by rewrite take_nil.
  - by replace (Z.to_nat (b - a)) with 0%nat by lia.
Qed.

Lemma slice_all {A} (l : list A) b : zlen l <= b -> slice 0 b l = l.
Proof. unfold slice, zlen. intros H. cbn. rewrite drop_0. apply take_ge. lia. Qed.

Lemma slice_length {A} (l : list A) a b :
  0 <= a -> zlen (slice a b l) = Z.max 0 (Z.min (b - a) (zlen l - a)).
Proof. unfold slice, zlen. intros H. rewrite length_take, length_drop. lia. Qed.

Lemma strongly_sorted_map {A B} (R : A -> A -> Prop) (S : B -> B -> Prop) (f : A -> B) l :
  (forall a b, R a b -> S (f a) (f b)) -> StronglySorted R l -> StronglySorted S (map f l).
Proof.
  intros Hf. induction 1 as [|x l Hs IH HF]; [constructor|]. cbn. constructor; [done|].
  apply Forall_map. eapply Forall_impl; [exact HF|]. cbn. auto.
Qed.

Lemma strongly_sorted_sublist {A} (R : A -> A -> Prop) l k :
  l `sublist_of` k -> StronglySorted R k -> StronglySorted R l.
Proof.
  induction 1 as [|x l k Hs IH|x l k Hs IH]; intros HS; [done|..]; apply StronglySorted_inv in HS as [HS HF].
  - constructor; [auto|]. rewrite Forall_forall in HF |- *. intros y Hy. apply HF.
    by eapply elem_of_sublist.
  - auto.
Qed.

Lemma py_sorted_strong {A} (leb : A -> A -> bool) l :
  (forall a b, leb a b = true \/ leb b a = true) ->
  (forall a b c, leb a b = true -> leb b c = true -> leb a c = true) ->
  StronglySorted (fun a b => leb a b = true) (py_sorted leb l).
Proof.
  intros Ht Htr. apply Sorted_StronglySorted; [|by apply py_sorted_sorted].
  intros a b c. apply Htr.
Qed.

Lemma strongly_sorted_lookup {A} (R : A -> A -> Prop) l : forall i j a b,
  StronglySorted R l -> (i < j)%nat -> l !! i = Some a -> l !! j = Some b -> R a b.
Proof.
  induction l as [|x l IH]; intros i j a b HS Hij Ha Hb; [done|].
  apply StronglySorted_inv in HS as [HS HF]. destruct j as [|j]; [lia|]. cbn in Hb.
  destruct i as [|i]; cbn in Ha.
  - simplify_eq. rewrite Forall_forall in HF. apply HF. by eapply list_elem_of_lookup_2.
  - apply (IH i j); (done || lia).
Qed.

Lemma NoDup_map_inj {A B} (f : A -> B) l x y : NoDup (map f l) -> f x = f y -> x ∈ l -> y ∈ l -> x = y.
Proof.
  induction l as [|z l IH]; [set_solver|]. cbn. intros [Hz Hd]%NoDup_cons Hf Hx Hy.
  apply elem_of_cons in Hx as [->|Hx], Hy as [->|Hy]; [done| | |by apply IH].
  - destruct Hz. rewrite Hf. apply list_elem_of_fmap. eauto.
  - destruct Hz. rewrite <- Hf. apply list_elem_of_fmap. eauto.
Qed.
