(* ===== verification/PyStr.v ===== *)
(** * Decimal text

    The integer formatting and parsing the sources use: [str(n)], zero-padded
    formatting, [str.isdecimal], [int(text)] and [str.rsplit]. Text is
    a list of ASCII characters; [s2l] and [l2s] convert from and to strings. *)
From Stdlib Require Import Ascii.
From S2P Require Import Prelude.

Definition s2l (s : string) : list ascii := String.list_ascii_of_string s.
Definition l2s (l : list ascii) : string := String.string_of_list_ascii l.

Definition digit_char (d : Z) : ascii := ascii_of_nat (48 + Z.to_nat d).

Definition char_digit (c : ascii) : option Z :=
  let n := Z.of_nat (nat_of_ascii c) in
  if (48 <=? n) && (n <=? 57) then Some (n - 48) else None.

#[global] Arguments digit_char : simpl never.
#[global] Arguments char_digit : simpl never.

(** Digits of a natural number, most significant first. *)
Fixpoint digits_go (fuel : nat) (z : Z) (acc : list Z) : list Z :=
  match fuel with
  | O => acc
  | S f => if z <? 10 then z :: acc else digits_go f (z / 10) (z mod 10 :: acc)
  end.

Definition digits (z : Z) : list Z := digits_go (S (Z.to_nat (Z.log2 z))) z [].

Definition dec_val (l : list Z) : Z := fold_left (fun a d => a * 10 + d) l 0.

(** [str(z)]. *)
Definition nat_chars (z : Z) : list ascii := map digit_char (digits z).
Definition z_chars (z : Z) : list ascii :=
  if z <? 0 then "-"%char :: nat_chars (- z) else nat_chars z.
Definition str_of_Z (z : Z) : string := l2s (z_chars z).

(** [f"{z:0wd}"] for [z >= 0]. *)
Definition pad_chars (w : nat) (z : Z) : list ascii :=
  let l := nat_chars z in replicate (w - length l) "0"%char ++ l.
Definition str_pad (w : nat) (z : Z) : string := l2s (pad_chars w z).

(** A non-empty run of ASCII digits, as [isascii() and isdecimal()] accepts. *)
Definition all_digits (l : list ascii) : bool :=
  match l with
  | [] => false
  | _ => forallb (fun c => match char_digit c with Some _ => true | None => false end) l
  end.

Definition chars_val (l : list ascii) : Z :=
  dec_val (map (fun c => match char_digit c with Some d => d | None => 0 end) l).

Definition parse_nat (l : list ascii) : option Z :=
  if all_digits l then Some (chars_val l) else None.

(** ASCII whitespace stripped by [str.strip()]. *)
Definition is_space (c : ascii) : bool :=
  let n := nat_of_ascii c in
  bool_decide (n = 32%nat) || ((9 <=? n)%nat && (n <=? 13)%nat) || ((28 <=? n)%nat && (n <=? 31)%nat).

Fixpoint lstrip (l : list ascii) : list ascii :=
  match l with
  | [] => []
  | c :: l' => if is_space c then lstrip l' else l
  end.
Definition strip (l : list ascii) : list ascii := rev (lstrip (rev (lstrip l))).

(** Digits with single underscores between them, as [int()] accepts: an
    underscore is dropped only between two digits. *)
Fixpoint drop_underscores (prev_digit : bool) (l : list ascii) : option (list ascii) :=
  match l with
  | [] => if prev_digit then Some [] else None
  | c :: l' =>
      if decide (c = "_"%char)
      then if prev_digit then
             match l' with
             | [] => None
             | c' :: _ =>
                 match char_digit c' with
                 | Some _ => drop_underscores false l'
                 | None => None
                 end
             end
           else None
      else match char_digit c with
           | Some _ =>
               match drop_underscores true l' with
               | Some r => Some (c :: r)
               | None => None
               end
           | None => None
           end
  end.

(** [int(text)] on ASCII text; [None] is [ValueError]. *)
Definition py_int (l : list ascii) : option Z :=
  let unsigned l :=
    match drop_underscores false l with Some r => parse_nat r | None => None end in
  match strip l with
  | "-"%char :: r => option_map Z.opp (unsigned r)
  | "+"%char :: r => unsigned r
  | r => unsigned r
  end.

(** Text after the last occurrence of [c]; [rsplit(c, 1)[1]]. *)
Fixpoint after_last (c : ascii) (l : list ascii) : option (list ascii) :=
  match l with
  | [] => None
  | x :: l' =>
      match after_last c l' with
      | Some r => Some r
      | None => if decide (x = c) then Some l' else None
      end
  end.

(** [s.split(c)]: always at least one part. *)
Fixpoint split_on (c : ascii) (l : list ascii) : list (list ascii) :=
  match l with
  | [] => [[]]
  | x :: l' =>
      if decide (x = c) then [] :: split_on c l'
      else match split_on c l' with
           | [] => [[x]]
           | p :: ps => (x :: p) :: ps
           end
  end.
Definition str_strip (s : string) : string := l2s (strip (s2l s)).
Definition str_split (c : ascii) (s : string) : list string := map l2s (split_on c (s2l s)).

(** [s.lower()] of an ASCII string. *)
Definition lower_char (c : ascii) : ascii :=
  let n := nat_of_ascii c in
  if (65 <=? n)%nat && (n <=? 90)%nat then ascii_of_nat (n + 32) else c.
Definition str_lower (s : string) : string := l2s (map lower_char (s2l s)).

(** [part in whole]. *)
Definition str_in (part whole : string) : bool :=
  match String.index 0 part whole with Some _ => true | None => false end.

(** [l.startswith(p)] and [l[len(p):]]. *)
Fixpoint skip_prefix (p l : list ascii) : option (list ascii) :=
  match p, l with
  | [], _ => Some l
  | c :: p', x :: l' => if decide (c = x) then skip_prefix p' l' else None
  | _ :: _, [] => None
  end.

(** [s.startswith(p)], with the text behind the prefix. *)
Definition str_after (p s : string) : option string := option_map l2s (skip_prefix (s2l p) (s2l s)).

(** [l.rpartition(c)] where [c] occurs: the texts before and after its last occurrence. *)
Fixpoint rpartition (c : ascii) (l : list ascii) : option (list ascii * list ascii) :=
  match l with
  | [] => None
  | x :: l' =>
      match rpartition c l' with
      | Some (a, b) => Some (x :: a, b)
      | None => if decide (x = c) then Some ([], l') else None
      end
  end.

(** Lexicographic order on strings, as Python compares them. *)
Definition str_leb (a b : string) : bool := String.leb a b.
Definition str_ltb (a b : string) : bool := String.ltb a b.

(** ** Lemmas *)

Lemma s2l_l2s l : s2l (l2s l) = l.
Proof. apply String.list_ascii_of_string_of_list_ascii. Qed.

Lemma l2s_s2l s : l2s (s2l s) = s.
Proof. apply String.string_of_list_ascii_of_string. Qed.

Lemma s2l_app a b : s2l (String.append a b) = s2l a ++ s2l b.
Proof.
  induction a as [|c a IH]; [done|].
  change (c :: s2l (String.append a b) = c :: (s2l a ++ s2l b)). by rewrite IH.
Qed.

Lemma digits_go_val fuel z acc a :
  0 <= z < 10 ^ Z.of_nat fuel -> (0 < fuel)%nat -> 0 <= a ->
  exists p, 0 <= p /\
  fold_left (fun a d => a * 10 + d) (digits_go fuel z acc) a =
  fold_left (fun a d => a * 10 + d) acc (a * p + z).
Proof.
  revert z acc; induction fuel as [|fuel IH]; intros z acc Hz Hf Ha; [lia|].
  simpl. destruct (z <? 10) eqn:E; bprop.
  - exists 10. split; [lia|]. done.
  - assert (Hp : 10 ^ Z.of_nat (S fuel) = 10 * 10 ^ Z.of_nat fuel)
      by (rewrite Nat2Z.inj_succ, Z.pow_succ_r by lia; lia).
    destruct (IH (z / 10) (z mod 10 :: acc)) as (p & Hp0 & Hp1); [| |done|].
    + split; [apply Z.div_pos; lia|]. apply Z.div_lt_upper_bound; lia.
    + destruct fuel; [|lia]. simpl in Hz. lia.
    + exists (p * 10). split; [lia|]. rewrite Hp1; simpl. f_equal.
      pose proof (Z.div_mod z 10). lia.
Qed.

Lemma digits_fuel z : 0 <= z -> 0 <= z < 10 ^ Z.of_nat (S (Z.to_nat (Z.log2 z))).
Proof.
  intros Hz. pose proof (Z.log2_nonneg z). rewrite Nat2Z.inj_succ, Z2Nat.id by lia.
  split; [done|]. destruct (decide (z = 0)) as [->|]; [done|].
  pose proof (Z.log2_spec z ltac:(lia)).
  pose proof (Z.pow_le_mono_l 2 10 (Z.succ (Z.log2 z)) ltac:(lia)). lia.
Qed.

Lemma dec_val_digits z : 0 <= z -> dec_val (digits z) = z.
Proof.
  intros Hz. unfold dec_val, digits.
  destruct (digits_go_val (S (Z.to_nat (Z.log2 z))) z [] 0) as (p & _ & ->);
    [by apply digits_fuel|lia|lia|]. simpl. lia.
Qed.

Lemma digits_go_range fuel z acc :
  0 <= z -> Forall (fun d => 0 <= d < 10) acc ->
  z < 10 ^ Z.of_nat fuel -> Forall (fun d => 0 <= d < 10) (digits_go fuel z acc).
Proof.
  revert z acc; induction fuel as [|fuel IH]; intros z acc Hz Hacc Hb; [done|].
  cbn [digits_go]. destruct (z <? 10) eqn:E; bprop; [constructor; [lia|done]|].
  apply IH; [apply Z.div_pos; lia| |].
  - constructor; [apply Z.mod_pos_bound; lia|done].
  - rewrite Nat2Z.inj_succ, Z.pow_succ_r in Hb by lia.
    apply Z.div_lt_upper_bound; lia.
Qed.

Lemma digits_range z : 0 <= z -> Forall (fun d => 0 <= d < 10) (digits z).
Proof. intros Hz. apply digits_go_range; [done|constructor|by apply digits_fuel]. Qed.

Lemma digits_nonempty z : digits z <> [].
Proof.
  unfold digits. generalize (Z.to_nat (Z.log2 z)) as n. intros n.
  enough (forall f z acc, (0 < f)%nat \/ acc <> [] -> digits_go f z acc <> []) as H
    by (apply H; left; lia).
  induction f as [|f IH]; intros z' acc [Hf|Ha]; simpl; try lia; try done;
    (destruct (z' <? 10); [done|]; apply IH; by right).
Qed.

Lemma char_digit_char d : 0 <= d < 10 -> char_digit (digit_char d) = Some d.
Proof.
  intros Hd. unfold char_digit, digit_char. rewrite nat_ascii_embedding by lia.
  destruct (_ && _) eqn:E; [f_equal; lia|].
  apply andb_false_iff in E as [?|?]; bprop; lia.
Qed.

Lemma nat_chars_digits z :
  0 <= z -> Forall (fun c => is_Some (char_digit c)) (nat_chars z).
Proof.
  intros Hz. unfold nat_chars. apply Forall_fmap.
  eapply Forall_impl; [by apply digits_range|].
  intros d Hd; simpl. rewrite char_digit_char by done. eauto.
Qed.

Lemma dec_val_zeros n l : dec_val (replicate n 0 ++ l) = dec_val l.
Proof. induction n; [done|]. unfold dec_val in *. done. Qed.

Lemma pad_chars_digits w z :
  0 <= z -> Forall (fun c => is_Some (char_digit c)) (pad_chars w z).
Proof.
  intros Hz. unfold pad_chars. apply Forall_app; split; [|by apply nat_chars_digits].
  apply Forall_replicate. by exists 0.
Qed.

Lemma chars_val_pad w z : 0 <= z -> chars_val (pad_chars w z) = z.
Proof.
  intros Hz. unfold chars_val, pad_chars, nat_chars. cbv zeta. rewrite map_app, map_map.
  generalize (w - length (map digit_char (digits z)))%nat as n; intros n.
  assert (map (fun c => match char_digit c with Some d => d | None => 0 end)
              (replicate n "0"%char) = replicate n 0) as ->
    by (induction n; [done|]; simpl; by f_equal).
  rewrite dec_val_zeros. rewrite <- (dec_val_digits z Hz) at 2. f_equal.
  pose proof (digits_range z Hz) as Hr. induction Hr as [|d l Hd Hr IH]; [done|].
  cbn [map]. rewrite char_digit_char by done. f_equal. exact IH.
Qed.

Lemma all_digits_forall l :
  l <> [] -> Forall (fun c => is_Some (char_digit c)) l -> all_digits l = true.
Proof.
  intros Hne HF. destruct l as [|c l]; [done|]. unfold all_digits.
  apply forallb_forall. intros x Hx.
  rewrite List.Forall_forall in HF. destruct (HF x Hx) as [d ->]. done.
Qed.

(** A number below [10 ^ w] is padded to exactly [w] characters. *)
Lemma digits_go_length fuel z acc w : (0 < w)%nat -> 0 <= z < 10 ^ Z.of_nat w ->
  (length (digits_go fuel z acc) <= w + length acc)%nat.
Proof.
  revert fuel z acc. induction w as [|w IH]; intros fuel z acc Hw Hz; [lia|].
  destruct fuel as [|fuel]; cbn [digits_go]; [lia|]. destruct (z <? 10) eqn:E; bprop; [cbn; lia|].
  rewrite Nat2Z.inj_succ, Z.pow_succ_r in Hz by lia. destruct w as [|w]; [cbn in Hz; lia|].
  specialize (IH fuel (z / 10) (z mod 10 :: acc)). cbn [length] in IH.
  rewrite Nat.add_succ_r in IH. apply IH; [lia|]. split; [apply Z.div_pos; lia|apply Z.div_lt_upper_bound; lia].
Qed.

Lemma pad_chars_length w z : (0 < w)%nat -> 0 <= z < 10 ^ Z.of_nat w -> length (pad_chars w z) = w.
Proof.
  intros Hw Hz. unfold pad_chars, nat_chars. cbv zeta. rewrite length_app, length_replicate, length_map.
  pose proof (digits_go_length (S (Z.to_nat (Z.log2 z))) z [] w Hw Hz) as H. fold (digits z) in H. cbn [length] in H. lia.
Qed.

(** Zero-padded printing followed by decimal parsing is the identity. *)
Lemma parse_pad w z : 0 <= z -> parse_nat (pad_chars w z) = Some z.
Proof.
  intros Hz. unfold parse_nat.
  rewrite all_digits_forall, chars_val_pad by
    (done || (by apply pad_chars_digits) ||
     (unfold pad_chars, nat_chars; pose proof (digits_nonempty z);
      destruct (digits z); [done|]; intros [_ [=]]%app_eq_nil)).
  done.
Qed.

Lemma after_last_none c l : c ∉ l -> after_last c l = None.
Proof.
  induction l as [|x l IH]; simpl; [done|].
  intros [Hx Hl]%not_elem_of_cons. rewrite IH by done. by rewrite decide_False.
Qed.

Lemma after_last_app c p s : c ∉ s -> after_last c (p ++ c :: s) = Some s.
Proof.
  intros Hs. induction p as [|x p IH]; simpl.
  - rewrite after_last_none by done. by rewrite decide_True.
  - by rewrite IH.
Qed.

Lemma dash_not_digit l :
  Forall (fun c => is_Some (char_digit c)) l -> "-"%char ∉ l.
Proof.
  intros HF Hin. rewrite Forall_forall in HF. destruct (HF _ Hin) as [d Hd]. discriminate.
Qed.

(** ** Digit strings compare like numbers *)

Lemma fold_dec l : forall a,
  fold_left (fun a d => a * 10 + d) l a = a * 10 ^ Z.of_nat (length l) + dec_val l.
Proof.
  induction l as [|d l IH]; intros a; [simpl; unfold dec_val; simpl; lia|].
  unfold dec_val. cbn [fold_left length]. rewrite (IH (a * 10 + d)), (IH (0 * 10 + d)).
  rewrite Nat2Z.inj_succ, Z.pow_succ_r by lia. lia.
Qed.

Lemma dec_val_app a b : dec_val (a ++ b) = dec_val a * 10 ^ Z.of_nat (length b) + dec_val b.
Proof. unfold dec_val at 1. by rewrite fold_left_app, fold_dec. Qed.

Lemma chars_val_app a b :
  chars_val (a ++ b) = chars_val a * 10 ^ Z.of_nat (length b) + chars_val b.
Proof. unfold chars_val. by rewrite map_app, dec_val_app, length_map. Qed.

Definition is_digits (l : list ascii) : Prop := Forall (fun c => is_Some (char_digit c)) l.

Lemma char_digit_range c d : char_digit c = Some d -> 0 <= d <= 9.
Proof.
  unfold char_digit. destruct (_ && _) eqn:E; [|done]. intros [= <-]. bprop. lia.
Qed.

Lemma chars_val_cons c d l :
  char_digit c = Some d -> chars_val (c :: l) = d * 10 ^ Z.of_nat (length l) + chars_val l.
Proof.
  intros Hc. change (c :: l) with ([c] ++ l). rewrite chars_val_app. f_equal. f_equal.
  unfold chars_val. cbn [map]. rewrite Hc. unfold dec_val. simpl. lia.
Qed.

Lemma chars_val_range l : is_digits l -> 0 <= chars_val l < 10 ^ Z.of_nat (length l).
Proof.
  induction 1 as [|c l [d Hd] Hl IH]; [unfold chars_val; simpl; unfold dec_val; simpl; lia|].
  rewrite (chars_val_cons _ _ _ Hd). cbn [length]. rewrite Nat2Z.inj_succ, Z.pow_succ_r by lia.
  pose proof (char_digit_range _ _ Hd). nia.
Qed.

Lemma char_digit_value c d : char_digit c = Some d -> Z.of_N (N_of_ascii c) = d + 48.
Proof.
  unfold char_digit, nat_of_ascii. destruct (_ && _); [|done].
  intros [= <-]. rewrite N_nat_Z. lia.
Qed.

Lemma ascii_compare_digits a b x y :
  char_digit a = Some x -> char_digit b = Some y -> Ascii.compare a b = (x ?= y).
Proof.
  intros Ha%char_digit_value Hb%char_digit_value.
  unfold Ascii.compare. rewrite <- N2Z.inj_compare, Ha, Hb.
  destruct (Z.compare_spec x y);
    [apply Z.compare_eq_iff|apply Z.compare_lt_iff|apply Z.compare_gt_iff]; lia.
Qed.

Lemma digits_compare a : forall b,
  is_digits a -> is_digits b -> length a = length b ->
  String.compare (l2s a) (l2s b) = (chars_val a ?= chars_val b).
Proof.
  induction a as [|c a IH]; intros [|c' b] Ha Hb Hl; try done.
  apply Forall_cons in Ha as [[x Hx] Ha], Hb as [[y Hy] Hb]. injection Hl as Hl.
  rewrite (chars_val_cons _ _ _ Hx), (chars_val_cons _ _ _ Hy), Hl.
  pose proof (chars_val_range a Ha) as Ra. pose proof (chars_val_range b Hb) as Rb. rewrite Hl in Ra.
  cbn [l2s String.string_of_list_ascii String.compare].
  rewrite (ascii_compare_digits _ _ _ _ Hx Hy).
  set (p := 10 ^ Z.of_nat (length b)) in *.
  destruct (Z.compare_spec x y) as [->|Hlt|Hgt].
  - fold (l2s a) (l2s b). rewrite (IH b) by done.
    destruct (Z.compare_spec (chars_val a) (chars_val b)); symmetry;
      [apply Z.compare_eq_iff|apply Z.compare_lt_iff|apply Z.compare_gt_iff]; lia.
  - symmetry. apply Z.compare_lt_iff. nia.
  - symmetry. apply Z.compare_gt_iff. nia.
Qed.

Lemma str_leb_digits a b :
  is_digits a -> is_digits b -> length a = length b ->
  str_leb (l2s a) (l2s b) = (chars_val a <=? chars_val b).
Proof. intros. unfold str_leb, String.leb. by rewrite digits_compare. Qed.

Lemma str_ltb_digits a b :
  is_digits a -> is_digits b -> length a = length b ->
  str_ltb (l2s a) (l2s b) = (chars_val a <? chars_val b).
Proof. intros. unfold str_ltb, String.ltb. by rewrite digits_compare. Qed.

(** ** Prefixes and the last separator *)

Lemma skip_prefix_app p l : skip_prefix p (p ++ l) = Some l.
Proof. induction p as [|c p IH]; cbn; [done|]. by rewrite decide_True. Qed.

Lemma skip_prefix_some p : forall l r, skip_prefix p l = Some r -> l = p ++ r.
Proof.
  induction p as [|c p IH]; intros [|x l] r; cbn; try (intros; by simplify_eq).
  case_decide as Hc; [|done]. intros E. apply IH in E. by subst.
Qed.

Lemma str_after_app p s : str_after p (String.append p s) = Some s.
Proof. unfold str_after. rewrite s2l_app, skip_prefix_app. cbn. by rewrite l2s_s2l. Qed.

Lemma l2s_app a b : l2s (a ++ b) = String.append (l2s a) (l2s b).
Proof. rewrite <- (l2s_s2l (String.append (l2s a) (l2s b))). by rewrite s2l_app, !s2l_l2s. Qed.

Lemma str_after_some p s r : str_after p s = Some r -> s = String.append p r.
Proof.
  unfold str_after. destruct (skip_prefix _ _) as [l|] eqn:E; [|done]. cbn. intros [= <-].
  apply skip_prefix_some in E. by rewrite <- (l2s_s2l s), E, l2s_app, l2s_s2l.
Qed.

Lemma rpartition_none c l : c ∉ l -> rpartition c l = None.
Proof.
  induction l as [|x l IH]; cbn; [done|]. intros [? ?]%not_elem_of_cons.
  rewrite IH by done. by rewrite decide_False.
Qed.

Lemma rpartition_app c a b : c ∉ b -> rpartition c (a ++ c :: b) = Some (a, b).
Proof.
  intros Hb. induction a as [|x a IH]; cbn; [by rewrite rpartition_none, decide_True|].
  by rewrite IH.
Qed.

Lemma rpartition_some c l : forall a b, rpartition c l = Some (a, b) -> l = a ++ c :: b.
Proof.
  induction l as [|x l IH]; intros a b; cbn; [done|].
  destruct (rpartition c l) as [[a' b']|]; [intros [= <- <-]; cbn; f_equal; by apply IH|].
  case_decide; [|done]. intros [= <- <-]. by subst.
Qed.

Lemma split_on_parts c l : c ∉ l -> split_on c l = [l].
Proof.
  induction l as [|x l IH]; cbn; [done|]. intros [? ?]%not_elem_of_cons.
  rewrite decide_False by done. by rewrite IH.
Qed.

Lemma split_on_app c a l : c ∉ a -> split_on c (a ++ c :: l) = a :: split_on c l.
Proof.
  induction a as [|x a IH]; cbn; [by rewrite decide_True|]. intros [? ?]%not_elem_of_cons.
  rewrite decide_False by done. by rewrite IH.
Qed.
