(* ===== verification/PyTime.v ===== *)
(** * Dates and times

    [datetime.datetime], [datetime.date] and [datetime.time] as the sources use
    them. A datetime is its wall clock in microseconds since 1970-01-01T00:00
    with its UTC offset ([None] for a naive value); a date is the number of days
    since 1970-01-01; a time of day is the number of microseconds since
    midnight. [Asia/Seoul] is the fixed offset +09:00 it has been since 1988. *)
From S2P Require Import Prelude PyStr.

Definition us_per_s : Z := 1000000.
Definition day_us : Z := 86400 * us_per_s.
Definition kst_off : Z := 9 * 3600 * us_per_s.

Record datetime := DT { wall_us : Z; utcoff : option Z }.

#[global] Instance datetime_eq_dec : EqDecision datetime.
Proof. solve_decision. Defined.

Definition is_aware (d : datetime) : bool :=
  match utcoff d with Some _ => true | None => false end.

(** The instant of an aware datetime, on which Python compares and subtracts. *)
Definition instant (d : datetime) : Z := wall_us d - default 0 (utcoff d).

(** [d + timedelta(microseconds=us)]. *)
Definition dt_add (d : datetime) (us : Z) : datetime := DT (wall_us d + us) (utcoff d).

(** [d.astimezone(_KST)] of an aware datetime. *)
Definition astimezone_kst (d : datetime) : datetime := DT (instant d + kst_off) (Some kst_off).

Definition date_of (d : datetime) : Z := wall_us d / day_us.
Definition time_of (d : datetime) : Z := wall_us d mod day_us.
(** [date.weekday()]: Monday is 0; 1970-01-01 was a Thursday. *)
Definition weekday (date : Z) : Z := (date + 3) mod 7.
(** [dt.datetime.combine(date, time, tzinfo=_KST)]. *)
Definition combine_kst (date time : Z) : datetime := DT (date * day_us + time) (Some kst_off).

(** [dt.time(h, m, s)]. *)
Definition mktime (h m s : Z) : Z := (h * 3600 + m * 60 + s) * us_per_s.
Definition time_hour (t : Z) : Z := t / us_per_s / 3600.
Definition time_minute (t : Z) : Z := t / us_per_s / 60 mod 60.
Definition time_second (t : Z) : Z := t / us_per_s mod 60.

(** [time.strftime("%H%M%S")]. *)
Definition hhmmss_chars (t : Z) : list Ascii.ascii :=
  pad_chars 2 (time_hour t) ++ pad_chars 2 (time_minute t) ++ pad_chars 2 (time_second t).
Definition strftime_hhmmss (t : Z) : string := l2s (hhmmss_chars t).

(** Proleptic Gregorian year, month and day of a date. *)
Definition civil_of_days (date : Z) : Z * Z * Z :=
  let z := date + 719468 in
  let era := z / 146097 in
  let doe := z - era * 146097 in
  let yoe := (doe - doe / 1460 + doe / 36524 - doe / 146096) / 365 in
  let doy := doe - (365 * yoe + yoe / 4 - yoe / 100) in
  let mp := (5 * doy + 2) / 153 in
  let d := doy - (153 * mp + 2) / 5 + 1 in
  let m := if mp <? 10 then mp + 3 else mp - 9 in
  (yoe + era * 400 + (if m <=? 2 then 1 else 0), m, d).

Definition days_of_civil (y m d : Z) : Z :=
  let y' := if m <=? 2 then y - 1 else y in
  let era := y' / 400 in
  let yoe := y' - era * 400 in
  let doy := (153 * (if 2 <? m then m - 3 else m + 9) + 2) / 5 + d - 1 in
  let doe := yoe * 365 + yoe / 4 - yoe / 100 + doy in
  era * 146097 + doe - 719468.

(** [date.strftime("%Y%m%d")] and [date.isoformat()]. *)
Definition strftime_ymd (date : Z) : string :=
  let '(y, m, d) := civil_of_days date in
  String.append (str_pad 4 y) (String.append (str_pad 2 m) (str_pad 2 d)).
Definition date_isoformat (date : Z) : string :=
  let '(y, m, d) := civil_of_days date in
  String.append (str_pad 4 y)
    (String.append "-" (String.append (str_pad 2 m) (String.append "-" (str_pad 2 d)))).

(** ** Lemmas *)

Example civil_epoch : civil_of_days 0 = (1970, 1, 1).
Proof. reflexivity. Qed.

Example civil_session : strftime_ymd (days_of_civil 2026 11 2) = "20261102".
Proof. reflexivity. Qed.

Lemma time_of_range d : 0 <= time_of d < day_us.
Proof. apply Z.mod_pos_bound. reflexivity. Qed.

Lemma weekday_range date : 0 <= weekday date < 7.
Proof. apply Z.mod_pos_bound. lia. Qed.

Lemma astimezone_instant d : instant (astimezone_kst d) = instant d.
Proof.
  unfold instant at 1; unfold astimezone_kst; cbn [wall_us utcoff from_option].
  unfold id. lia.
Qed.

Lemma combine_time date t : 0 <= t < day_us -> time_of (combine_kst date t) = t.
Proof.
  intros Ht. unfold time_of, combine_kst; cbn [wall_us].
  rewrite Z.add_comm, Z.mod_add by (unfold day_us, us_per_s; lia). by apply Z.mod_small.
Qed.
