(* ===== verification/PyFloat.v ===== *)
(** * Python floats

    IEEE 754 binary64 arithmetic through the executable [SpecFloat] semantics of
    the standard library: conversion of integers, multiplication and the
    floor division of CPython's [float_floor_div]. *)
From Stdlib Require Import SpecFloat.
From S2P Require Import Prelude.

Definition prec : Z := 53.
Definition emax : Z := 1024.

Definition pyfloat : Type := spec_float.

Inductive float_exc := FOverflow | FNan.

Definition fneg (f : pyfloat) : pyfloat := SFopp f.
Definition fmul : pyfloat -> pyfloat -> pyfloat := SFmul prec emax.
Definition fadd : pyfloat -> pyfloat -> pyfloat := SFadd prec emax.
Definition fsub : pyfloat -> pyfloat -> pyfloat := SFsub prec emax.
Definition fdiv : pyfloat -> pyfloat -> pyfloat := SFdiv prec emax.

Definition round_z (z e : Z) (neg : bool) : pyfloat := binary_normalize prec emax z e neg.

Definition f_zero : pyfloat := S754_zero false.
Definition f_one : pyfloat := round_z 1 0 false.
Definition f_half : pyfloat := round_z 1 (-1) false.

Definition is_zero (f : pyfloat) : bool :=
  match f with S754_zero _ => true | _ => false end.

Definition fsign (f : pyfloat) : bool :=
  match f with
  | S754_zero s | S754_infinity s | S754_finite s _ _ => s
  | S754_nan => false
  end.

(** [float(z)] of an integer; too large an integer raises [OverflowError]. *)
Definition float_of_int (z : Z) : res float_exc pyfloat :=
  match round_z z 0 false with
  | S754_infinity _ => Raise FOverflow
  | f => Ok f
  end.

(** C [fmod], exact; the result has the sign of [x]. *)
Definition ffmod (x y : pyfloat) : pyfloat :=
  match x, y with
  | S754_nan, _ | _, S754_nan | S754_infinity _, _ | _, S754_zero _ => S754_nan
  | S754_zero s, _ => S754_zero s
  | S754_finite _ _ _, S754_infinity _ => x
  | S754_finite sx mx ex, S754_finite _ my ey =>
      let e := Z.min ex ey in
      let a := Zpos mx * 2 ^ (ex - e) in
      let b := Zpos my * 2 ^ (ey - e) in
      let r := a mod b in
      if r =? 0 then S754_zero sx
      else round_z (if sx then - r else r) e sx
  end.

(** C [floor]. *)
Definition ffloor (x : pyfloat) : pyfloat :=
  match x with
  | S754_finite s m e =>
      if 0 <=? e then x
      else round_z ((if s then - Zpos m else Zpos m) / 2 ^ (- e)) 0 s
  | _ => x
  end.

Definition with_sign (s : bool) : pyfloat := S754_zero s.

(** [vx // wx] for [wx] not zero, as CPython's [_float_div_mod] computes it. *)
Definition float_floor_div (vx wx : pyfloat) : pyfloat :=
  let md := ffmod vx wx in
  let div := fdiv (fsub vx md) wx in
  let div :=
    if is_zero md then div
    else if Bool.eqb (SFltb wx f_zero) (SFltb md f_zero) then div
         else fsub div f_one in
  if is_zero div then with_sign (fsign (fdiv vx wx))
  else
    let fd := ffloor div in
    if SFltb f_half (fsub div fd) then fadd fd f_one else fd.

(** [int(f)], truncation toward zero. *)
Definition int_of_float (f : pyfloat) : res float_exc Z :=
  match f with
  | S754_zero _ => Ok 0
  | S754_infinity _ => Raise FOverflow
  | S754_nan => Raise FNan
  | S754_finite s m e =>
      let a := if 0 <=? e then Zpos m * 2 ^ e else Zpos m / 2 ^ (- e) in
      Ok (if s then - a else a)
  end.

(** [int(n * f // k)] for integers [n] and [k]. *)
Definition int_mul_floordiv (n : Z) (f : pyfloat) (k : Z) : res float_exc Z :=
  (x <~ float_of_int n;;
   y <~ float_of_int k;;
   int_of_float (float_floor_div (fmul x f) y))%py.

(** Decimal literals of the configuration, rounded to nearest even: [num/10^k]. *)
Definition float_lit (num : Z) (k : Z) : pyfloat :=
  fdiv (round_z num 0 false) (round_z (10 ^ k) 0 false).

Example commission_literal : int_mul_floordiv 1000000 (float_lit 36396 5) 10000 = Ok 36.
Proof. vm_compute. reflexivity. Qed.

Example tax_literal : int_mul_floordiv 1000000 (float_lit 20 0) 10000 = Ok 2000.
Proof. vm_compute. reflexivity. Qed.

Example negative_floor : int_mul_floordiv (-1) (float_lit 20 0) 10000 = Ok (-1).
Proof. vm_compute. reflexivity. Qed.
