(* ===== verification/ExecContracts.v ===== *)
(** * Order-execution contracts

    The data, exceptions and order state machine of
    [src/execution/contracts.py], and the KRX tick table of
    [src/execution/ticks.py]. *)
From S2P Require Import Prelude PyStr PyTime.

(** ** Enumerations *)

Inductive ExecutionMode := PAPER | MOCK | LIVE.
Inductive KisVenue := VENUE_LIVE | VENUE_MOCK.
Inductive Side := BUY | SELL.
Inductive OrderType := LIMIT | MARKET.
Inductive OrderStatus :=
| PENDING_SUBMIT | ACCEPTED | PARTIALLY_FILLED | FILLED | CANCELLED | REJECTED | UNKNOWN.
Inductive OutcomeKind := OUT_ACCEPTED | OUT_REJECTED | OUT_UNKNOWN.
Inductive RejectCode :=
| KILL_SWITCH | UNKNOWN_PENDING | SYMBOL_NOT_ALLOWED | QTY_INVALID | PRICE_INVALID
| TRADING_HALTED | TICK_TABLE_MISMATCH | PRICE_OFF_TICK | PRICE_OUT_OF_BAND
| ORDER_RATE_LIMIT | DAILY_LOSS_LIMIT | NOTIONAL_LIMIT | POSITION_LIMIT
| INSUFFICIENT_CASH | INSUFFICIENT_POSITION | ACCOUNT_MISMATCH.

#[global] Instance ExecutionMode_eq_dec : EqDecision ExecutionMode.
Proof. solve_decision. Defined.
#[global] Instance KisVenue_eq_dec : EqDecision KisVenue.
Proof. solve_decision. Defined.
#[global] Instance Side_eq_dec : EqDecision Side.
Proof. solve_decision. Defined.
#[global] Instance OrderType_eq_dec : EqDecision OrderType.
Proof. solve_decision. Defined.
#[global] Instance OrderStatus_eq_dec : EqDecision OrderStatus.
Proof. solve_decision. Defined.
#[global] Instance OutcomeKind_eq_dec : EqDecision OutcomeKind.
Proof. solve_decision. Defined.
#[global] Instance RejectCode_eq_dec : EqDecision RejectCode.
Proof. solve_decision. Defined.

(** The string values of the [StrEnum] classes. *)
Definition mode_value (m : ExecutionMode) : string :=
  match m with PAPER => "paper" | MOCK => "mock" | LIVE => "live" end.
Definition venue_value (v : KisVenue) : string :=
  match v with VENUE_LIVE => "live" | VENUE_MOCK => "mock" end.
Definition side_value (s : Side) : string := match s with BUY => "buy" | SELL => "sell" end.
Definition order_type_value (t : OrderType) : string :=
  match t with LIMIT => "limit" | MARKET => "market" end.
Definition status_value (s : OrderStatus) : string :=
  match s with
  | PENDING_SUBMIT => "pending_submit"
  | ACCEPTED => "accepted"
  | PARTIALLY_FILLED => "partially_filled"
  | FILLED => "filled"
  | CANCELLED => "cancelled"
  | REJECTED => "rejected"
  | UNKNOWN => "unknown"
  end.
Definition outcome_value (k : OutcomeKind) : string :=
  match k with
  | OUT_ACCEPTED => "accepted" | OUT_REJECTED => "rejected" | OUT_UNKNOWN => "unknown"
  end.
Definition reject_value (c : RejectCode) : string :=
  match c with
  | KILL_SWITCH => "kill_switch"
  | UNKNOWN_PENDING => "unknown_pending"
  | SYMBOL_NOT_ALLOWED => "symbol_not_allowed"
  | QTY_INVALID => "qty_invalid"
  | PRICE_INVALID => "price_invalid"
  | TRADING_HALTED => "trading_halted"
  | TICK_TABLE_MISMATCH => "tick_table_mismatch"
  | PRICE_OFF_TICK => "price_off_tick"
  | PRICE_OUT_OF_BAND => "price_out_of_band"
  | ORDER_RATE_LIMIT => "order_rate_limit"
  | DAILY_LOSS_LIMIT => "daily_loss_limit"
  | NOTIONAL_LIMIT => "notional_limit"
  | POSITION_LIMIT => "position_limit"
  | INSUFFICIENT_CASH => "insufficient_cash"
  | INSUFFICIENT_POSITION => "insufficient_position"
  | ACCOUNT_MISMATCH => "account_mismatch"
  end.

(** [OrderStatus(text)], [Side(text)], [OrderType(text)]; [None] is [ValueError]. *)
Definition status_of_value (s : string) : option OrderStatus :=
  List.find (fun x => bool_decide (status_value x = s))
    [PENDING_SUBMIT; ACCEPTED; PARTIALLY_FILLED; FILLED; CANCELLED; REJECTED; UNKNOWN].
Definition side_of_value (s : string) : option Side :=
  List.find (fun x => bool_decide (side_value x = s)) [BUY; SELL].
Definition order_type_of_value (s : string) : option OrderType :=
  List.find (fun x => bool_decide (order_type_value x = s)) [LIMIT; MARKET].

(** ** Exceptions *)

Inductive exec_exc :=
| RiskRejectedError (code : RejectCode) (detail : string)
| IllegalTransitionError (msg : string)
| BrokerIntegrityError (msg : string)
| KisApiError (msg_cd message : string)
| AccountCheckError (msg : string)
| SessionLockError (msg : string)
| ExecutionError (msg : string)
| ValueError (msg : string)
| OverflowError
| ForeignError (name : string).

Abbreviation exec := (res exec_exc).

(** ** Data *)

Record OrderIntent := {
  symbol : string;
  side : Side;
  qty : Z;
  order_type : OrderType;
  limit_price : option Z;
  tag : string
}.

Record Quote := {
  q_symbol : string;
  last : Z;
  upper_limit : Z;
  lower_limit : Z;
  tick : Z;
  halted : bool;
  asks : list (Z * Z);
  bids : list (Z * Z)
}.

Record Order := mkOrder {
  client_id : string;
  intent : OrderIntent;
  status : OrderStatus;
  created_at : datetime;
  broker_order_no : option string;
  broker_org_no : option string;
  broker_order_time : option string;
  filled_qty : Z;
  filled_amount_krw : Z;
  reject_code : option string;
  reject_message : option string
}.

Definition remaining_qty (o : Order) : Z := qty (intent o) - filled_qty o.

Record BrokerOrderStatus := {
  b_order_no : string;
  original_order_no : string;
  org_no : string;
  b_symbol : string;
  b_side : Side;
  ordered_qty : Z;
  price : Z;
  b_filled_qty : Z;
  b_filled_amount_krw : Z;
  b_remaining_qty : Z;
  rejected_qty : Z;
  cancelled : bool;
  order_time : string
}.

Record BrokerOutcome := {
  kind : OutcomeKind;
  o_order_no : option string;
  o_org_no : option string;
  o_order_time : option string;
  code : string;
  message : string
}.

Record Holding := { h_symbol : string; h_qty : Z; h_cost_krw : Z }.

(** Attribute assignments on an [Order]. *)
Definition set_status (s : OrderStatus) (o : Order) : Order :=
  mkOrder (client_id o) (intent o) s (created_at o) (broker_order_no o) (broker_org_no o)
    (broker_order_time o) (filled_qty o) (filled_amount_krw o) (reject_code o) (reject_message o).
Definition set_broker (no org tm : option string) (o : Order) : Order :=
  mkOrder (client_id o) (intent o) (status o) (created_at o) no org tm
    (filled_qty o) (filled_amount_krw o) (reject_code o) (reject_message o).
Definition set_filled (q a : Z) (o : Order) : Order :=
  mkOrder (client_id o) (intent o) (status o) (created_at o) (broker_order_no o) (broker_org_no o)
    (broker_order_time o) q a (reject_code o) (reject_message o).
Definition set_reject (c m : option string) (o : Order) : Order :=
  mkOrder (client_id o) (intent o) (status o) (created_at o) (broker_order_no o) (broker_org_no o)
    (broker_order_time o) (filled_qty o) (filled_amount_krw o) c m.

(** ** The status machine *)

Definition TERMINAL_STATUSES : list OrderStatus := [FILLED; CANCELLED; REJECTED].

Definition is_terminal (s : OrderStatus) : bool := bool_decide (s ∈ TERMINAL_STATUSES).

Definition ALLOWED_TRANSITIONS (s : OrderStatus) : list OrderStatus :=
  match s with
  | PENDING_SUBMIT => [ACCEPTED; REJECTED; UNKNOWN]
  | UNKNOWN => [ACCEPTED; PARTIALLY_FILLED; FILLED; CANCELLED; REJECTED]
  | ACCEPTED => [PARTIALLY_FILLED; FILLED; CANCELLED; REJECTED]
  | PARTIALLY_FILLED => [FILLED; CANCELLED]
  | FILLED => []
  | CANCELLED => []
  | REJECTED => []
  end.

Definition transition (current new : OrderStatus) : exec OrderStatus :=
  if decide (new = current) then Ok current
  else if decide (new ∈ ALLOWED_TRANSITIONS current) then Ok new
  else Raise (IllegalTransitionError
                (String.append (status_value current) (String.append "->" (status_value new)))).

Definition derive_status (s : BrokerOrderStatus) (has_cancel_child : bool) : exec OrderStatus :=
  if (b_filled_qty s <? 0) || (ordered_qty s <? b_filled_qty s)
  then Raise (BrokerIntegrityError
                (String.append "invalid cumulative fill: "
                   (String.append (str_of_Z (b_filled_qty s))
                      (String.append "/" (str_of_Z (ordered_qty s))))))
  else if b_filled_qty s =? ordered_qty s then Ok FILLED
  else
    let cancel_evidence := cancelled s || has_cancel_child in
    if cancel_evidence || (0 <? rejected_qty s) || (b_remaining_qty s =? 0)
    then if (b_filled_qty s =? 0) && (0 <? rejected_qty s) && negb cancel_evidence
         then Ok REJECTED
         else Ok CANCELLED
    else if 0 <? b_filled_qty s then Ok PARTIALLY_FILLED
    else Ok ACCEPTED.

(** ** Tick table ([src/execution/ticks.py]) *)

Definition TICK_TABLE : list (Z * Z) :=
  [(500000, 1000); (200000, 500); (50000, 100); (20000, 50); (5000, 10); (2000, 5); (0, 1)].

Fixpoint tick_scan (price : Z) (table : list (Z * Z)) : option Z :=
  match table with
  | [] => None
  | (floor, tk) :: rest => if floor <=? price then Some tk else tick_scan price rest
  end.

Definition tick_of (price : Z) : exec Z :=
  let err := ValueError (String.append "price must be >= 1: " (str_of_Z price)) in
  if price <? 1 then Raise err
  else match tick_scan price TICK_TABLE with
       | Some tk => Ok tk
       | None => Raise err
       end.

Definition is_tick_aligned (price : Z) : bool :=
  if price <? 1 then false
  else match tick_of price with
       | Ok tk => price mod tk =? 0
       | Raise _ => false
       end.

(** ** Lemmas *)

Lemma is_terminal_spec s : is_terminal s = true <-> s = FILLED \/ s = CANCELLED \/ s = REJECTED.
Proof. destruct s; vm_compute; naive_solver. Qed.

Lemma transition_ok cur new s :
  transition cur new = Ok s -> s = new /\ (new = cur \/ new ∈ ALLOWED_TRANSITIONS cur).
Proof.
  unfold transition. case_decide; [naive_solver|]. case_decide; naive_solver.
Qed.

Lemma transition_terminal cur new s :
  is_terminal cur = true -> transition cur new = Ok s -> s = cur.
Proof.
  intros Ht [-> [->|Hin]]%transition_ok; [done|].
  apply is_terminal_spec in Ht as [->|[->| ->]]; by apply elem_of_nil in Hin.
Qed.

(** The longest path a status can still take. *)
Definition status_rank (s : OrderStatus) : nat :=
  match s with
  | PENDING_SUBMIT => 4
  | UNKNOWN => 3
  | ACCEPTED => 2
  | PARTIALLY_FILLED => 1
  | FILLED | CANCELLED | REJECTED => 0
  end.

Lemma transition_rank cur new s :
  transition cur new = Ok s -> s = cur \/ (status_rank s < status_rank cur)%nat.
Proof.
  intros [-> [->|Hin]]%transition_ok; [by left|right].
  destruct cur; simpl in Hin; repeat (apply elem_of_cons in Hin as [->|Hin]; [simpl; lia|]);
    by apply elem_of_nil in Hin.
Qed.

(** A chain of [n] effective (status-changing) transitions. *)
Inductive status_path : nat -> OrderStatus -> OrderStatus -> Prop :=
| sp_refl s : status_path 0 s s
| sp_step n a b c :
    transition a b = Ok b -> b <> a -> status_path n b c -> status_path (S n) a c.

Lemma status_path_rank n a b : status_path n a b -> (n + status_rank b <= status_rank a)%nat.
Proof.
  induction 1 as [|n a b c Ht Hne Hp IH]; [lia|].
  apply transition_rank in Ht as [?|?]; [congruence|lia].
Qed.

Lemma derive_status_ok s ch st :
  derive_status s ch = Ok st ->
  0 <= b_filled_qty s <= ordered_qty s /\
  (st = FILLED <-> b_filled_qty s = ordered_qty s) /\
  (st = PARTIALLY_FILLED -> 0 < b_filled_qty s) /\
  (st = ACCEPTED \/ st = REJECTED -> b_filled_qty s = 0) /\
  st <> UNKNOWN /\ st <> PENDING_SUBMIT.
Proof.
  unfold derive_status. intros H.
  repeat (hmatch H; bprop; simplify_eq); repeat split; try lia; naive_solver lia.
Qed.

Lemma derive_status_raises s ch e :
  derive_status s ch = Raise e -> b_filled_qty s < 0 \/ ordered_qty s < b_filled_qty s.
Proof.
  unfold derive_status. intros H. repeat (hmatch H; simplify_eq).
  apply orb_true_iff in E as [?|?]; bprop; lia.
Qed.

Lemma tick_of_total price : 1 <= price -> exists tk, tick_of price = Ok tk /\ 0 < tk.
Proof.
  intros Hp. unfold tick_of. destruct (price <? 1) eqn:E; bprop; [lia|].
  unfold TICK_TABLE; simpl.
  repeat match goal with |- context [if ?b then _ else _] => destruct b eqn:?; [eauto with lia|] end.
  bprop. lia.
Qed.

Lemma status_roundtrip s : status_of_value (status_value s) = Some s.
Proof. by destruct s. Qed.
Lemma side_roundtrip s : side_of_value (side_value s) = Some s.
Proof. by destruct s. Qed.
Lemma order_type_roundtrip t : order_type_of_value (order_type_value t) = Some t.
Proof. by destruct t. Qed.

(** ** Properties *)

(** An order changes status at most four times in its life, and never again
    once it is filled, cancelled or rejected: every chain of effective
    transitions accepted by [transition] is bounded, and empty from a terminal
    status. *)
Theorem order_status_progress n a b :
  status_path n a b -> (n <= 4)%nat /\ (is_terminal a = true -> n = 0%nat /\ b = a).
Proof.
  intros Hp. pose proof (status_path_rank _ _ _ Hp) as Hr. split.
  - destruct a; simpl in Hr; lia.
  - intros Ht. destruct Hp as [|n a c b Hs Hne Hp]; [done|].
    by apply (transition_terminal _ _ _ Ht) in Hs.
Qed.

Lemma order_status_progress_witness :
  status_path 4 PENDING_SUBMIT CANCELLED /\ (4 <= 4)%nat.
Proof.
  assert (H : status_path 4 PENDING_SUBMIT CANCELLED).
  { apply sp_step with UNKNOWN; [reflexivity|discriminate|].
    apply sp_step with ACCEPTED; [reflexivity|discriminate|].
    apply sp_step with PARTIALLY_FILLED; [reflexivity|discriminate|].
    apply sp_step with CANCELLED; [reflexivity|discriminate|constructor]. }
  split; [exact H|]. exact (proj1 (order_status_progress 4 PENDING_SUBMIT CANCELLED H)).
Defined.

Lemma tick_of_cases p :
  1 <= p ->
  (500000 <= p /\ tick_of p = Ok 1000) \/ (200000 <= p < 500000 /\ tick_of p = Ok 500) \/
  (50000 <= p < 200000 /\ tick_of p = Ok 100) \/ (20000 <= p < 50000 /\ tick_of p = Ok 50) \/
  (5000 <= p < 20000 /\ tick_of p = Ok 10) \/ (2000 <= p < 5000 /\ tick_of p = Ok 5) \/
  (1 <= p < 2000 /\ tick_of p = Ok 1).
Proof.
  intros Hp. unfold tick_of. destruct (p <? 1) eqn:E; bprop; [lia|]. unfold TICK_TABLE.
  cbn [tick_scan].
  repeat match goal with |- context [?a <=? p] => destruct (Z.leb_spec a p); [naive_solver lia|] end.
  lia.
Qed.

(** The tick table is a consistent price grid: from any price that is
    aligned to its band's tick, one tick up is again an aligned price, also
    across a band boundary, and no aligned price lies strictly between. *)
Theorem tick_grid_step p :
  is_tick_aligned p = true ->
  exists tk, tick_of p = Ok tk /\ is_tick_aligned (p + tk) = true /\
             forall q, p < q < p + tk -> is_tick_aligned q = false.
Proof.
  unfold is_tick_aligned at 1. destruct (p <? 1) eqn:E1; bprop; [done|]. intros Ha.
  assert (Hal : forall q, 1 <= q -> is_tick_aligned q =
                 match tick_of q with Ok tk => q mod tk =? 0 | Raise _ => false end).
  { intros q Hq. unfold is_tick_aligned. by destruct (Z.ltb_spec q 1); [lia|]. }
  assert (Hmod : forall a b, 0 < b -> (a mod b =? 0) = false <-> a mod b <> 0)
    by (intros; apply Z.eqb_neq).
  pose proof (tick_of_cases p E1) as Hc.
  destruct Hc as [[? Ht]|[[? Ht]|[[? Ht]|[[? Ht]|[[? Ht]|[[? Ht]|[? Ht]]]]]]];
    rewrite Ht in Ha |- *; bprop; eexists; (split; [reflexivity|]); split.
  all: try (intros q Hq; rewrite Hal by lia;
    destruct (tick_of_cases q ltac:(lia))
      as [[? ->]|[[? ->]|[[? ->]|[[? ->]|[[? ->]|[[? ->]|[? ->]]]]]]]; apply Z.eqb_neq;
    Z.to_euclidean_division_equations; lia).
  all: match goal with |- is_tick_aligned ?q = true =>
    rewrite (Hal q) by lia;
    destruct (tick_of_cases q ltac:(lia))
      as [[? ->]|[[? ->]|[[? ->]|[[? ->]|[[? ->]|[[? ->]|[? ->]]]]]]]; apply Z.eqb_eq;
    Z.to_euclidean_division_equations; lia end.
Qed.

Lemma tick_grid_step_witness :
  is_tick_aligned 49950 = true /\
  exists tk, tick_of 49950 = Ok tk /\ is_tick_aligned (49950 + tk) = true.
Proof.
  split; [reflexivity|].
  destruct (tick_grid_step 49950 eq_refl) as (tk & H1 & H2 & _). exists tk. split; assumption.
Defined.
