(* ===== verification/ExecLedger.v ===== *)
(** * Position ledger ([src/execution/ledger.py])

    Integer (KRW) accounting of cash, positions and realised profit. The cost
    model multiplies by binary64 rates exactly as the source does. *)
From S2P Require Import Prelude PyStr PyFloat ExecContracts.

Record CostModel := { commission_bps : pyfloat; sell_tax_bps : pyfloat }.

Definition float_result {A} (r : res float_exc A) : exec A :=
  match r with
  | Ok a => Ok a
  | Raise FOverflow => Raise OverflowError
  | Raise FNan => Raise (ValueError "cannot convert float NaN to integer")
  end.

Definition commission (c : CostModel) (amount_krw : Z) : exec Z :=
  float_result (int_mul_floordiv amount_krw (commission_bps c) 10000).
Definition sell_tax (c : CostModel) (amount_krw : Z) : exec Z :=
  float_result (int_mul_floordiv amount_krw (sell_tax_bps c) 10000).

Record Position := mkPos { p_qty : Z; p_cost : Z }.

Record Ledger := mkLedger {
  cash_krw : Z;
  costs : CostModel;
  realized_pnl_krw : Z;
  positions : list (string * Position)
}.

(** [Ledger.__init__]. *)
Definition new_ledger (cash : Z) (c : CostModel) (pos : list (string * Position)) : Ledger :=
  mkLedger cash c 0 pos.

(** [Ledger.qty]. *)
Definition ledger_qty (l : Ledger) (sym : string) : Z :=
  match dget (positions l) sym with Some p => p_qty p | None => 0 end.

(** [Ledger.apply_fill]: the updated ledger and the realised profit. Every
    raise happens before the first mutation. *)
Definition apply_fill (l : Ledger) (sym : string) (sd : Side) (q amount : Z)
    : exec (Ledger * Z) :=
  if (q <=? 0) || (amount <? 0)
  then Raise (BrokerIntegrityError
                (String.append "invalid fill: qty="
                   (String.append (str_of_Z q) (String.append " amount=" (str_of_Z amount)))))
  else
    match sd with
    | BUY =>
        (fee <~ commission (costs l) amount;;
         let pos := default (mkPos 0 0) (dget (positions l) sym) in
         let pos' := mkPos (p_qty pos + q) (p_cost pos + (amount + fee)) in
         Ok (mkLedger (cash_krw l - (amount + fee)) (costs l) (realized_pnl_krw l)
               (dset (positions l) sym pos'), 0))%py
    | SELL =>
        let oversell :=
          BrokerIntegrityError
            (String.append "oversell without position: "
               (String.append sym (String.append " qty=" (str_of_Z q)))) in
        match dget (positions l) sym with
        | None => Raise oversell
        | Some pos =>
            if p_qty pos <? q then Raise oversell
            else
              (fee <~ commission (costs l) amount;;
               tax <~ sell_tax (costs l) amount;;
               let removed := p_cost pos * q / p_qty pos in
               let pos' := mkPos (p_qty pos - q) (p_cost pos - removed) in
               let proceeds := amount - fee - tax in
               let pnl := proceeds - removed in
               let ps :=
                 if p_qty pos' =? 0 then ddel (positions l) sym
                 else dset (positions l) sym pos' in
               Ok (mkLedger (cash_krw l + proceeds) (costs l) (realized_pnl_krw l + pnl) ps,
                   pnl))%py
        end
    end.

(** A fill, and the fills of a session applied in order. *)
Record Fill := mkFill { f_symbol : string; f_side : Side; f_qty : Z; f_amount : Z }.

Fixpoint apply_fills (l : Ledger) (fs : list Fill) : exec Ledger :=
  match fs with
  | [] => Ok l
  | f :: fs' =>
      (r <~ apply_fill l (f_symbol f) (f_side f) (f_qty f) (f_amount f);;
       apply_fills (fst r) fs')%py
  end.

(** ** Invariants *)

(** Every symbol once, no negative quantity. *)
Definition ledger_wf (l : Ledger) : Prop :=
  NoDup (dkeys (positions l)) /\ Forall (fun kp => 0 <= p_qty (snd kp)) (positions l).

Definition total_cost (ps : list (string * Position)) : Z :=
  zsum (map (fun kp => p_cost (snd kp)) ps).

(** Money put in: cash plus the cost of what is held, less the profit realised. *)
Definition paid_in (l : Ledger) : Z :=
  cash_krw l + total_cost (positions l) - realized_pnl_krw l.

(** Signed quantity a fill adds to a symbol. *)
Definition signed_qty (sym : string) (f : Fill) : Z :=
  if decide (f_symbol f = sym)
  then match f_side f with BUY => f_qty f | SELL => - f_qty f end
  else 0.

(** ** Lemmas *)

Lemma total_cost_dset ps sym p :
  NoDup (dkeys ps) ->
  total_cost (dset ps sym p) =
  total_cost ps + p_cost p - p_cost (default (mkPos 0 0) (dget ps sym)).
Proof.
  unfold total_cost. induction ps as [|[k v] ps IH]; simpl; [lia|].
  intros [Hn Hnd]%NoDup_cons. destruct (decide (sym = k)) as [->|]; simpl; [lia|].
  rewrite IH by done. lia.
Qed.

Lemma total_cost_ddel ps sym :
  NoDup (dkeys ps) ->
  total_cost (ddel ps sym) = total_cost ps - p_cost (default (mkPos 0 0) (dget ps sym)).
Proof.
  unfold total_cost. induction ps as [|[k v] ps IH]; simpl; [lia|].
  intros [Hn Hnd]%NoDup_cons. destruct (decide (sym = k)) as [->|]; simpl; [lia|].
  rewrite IH by done. lia.
Qed.

Lemma positions_dset_nonneg ps sym p :
  Forall (fun kp : string * Position => 0 <= p_qty (snd kp)) ps -> 0 <= p_qty p ->
  Forall (fun kp : string * Position => 0 <= p_qty (snd kp)) (dset ps sym p).
Proof.
  intros HF Hp. induction HF as [|[k v] ps Hv HF IH]; simpl; [by repeat constructor|].
  destruct (decide (sym = k)); by constructor.
Qed.

Lemma positions_ddel_nonneg ps sym :
  Forall (fun kp : string * Position => 0 <= p_qty (snd kp)) ps ->
  Forall (fun kp : string * Position => 0 <= p_qty (snd kp)) (ddel ps sym).
Proof.
  induction 1 as [|[k v] ps Hv HF IH]; simpl; [constructor|].
  destruct (decide (sym = k)); [done|by constructor].
Qed.

Lemma position_lookup_nonneg l sym p :
  ledger_wf l -> dget (positions l) sym = Some p -> 0 <= p_qty p.
Proof.
  intros [_ HF] Hg%dget_elem. rewrite Forall_forall in HF. by apply (HF _ Hg).
Qed.

Lemma buy_inv l sym q a r :
  apply_fill l sym BUY q a = Ok r ->
  0 < q /\ 0 <= a /\ exists fee, commission (costs l) a = Ok fee /\
  r = (mkLedger (cash_krw l - (a + fee)) (costs l) (realized_pnl_krw l)
         (dset (positions l) sym
            (mkPos (p_qty (default (mkPos 0 0) (dget (positions l) sym)) + q)
                   (p_cost (default (mkPos 0 0) (dget (positions l) sym)) + (a + fee)))), 0).
Proof.
  unfold apply_fill. destruct (_ || _) eqn:E; [done|]. bprop.
  destruct (commission (costs l) a) as [fee|] eqn:Ef; simpl; [|done].
  intros [= <-]. eauto 6 with lia.
Qed.

Lemma sell_inv l sym q a r :
  apply_fill l sym SELL q a = Ok r ->
  0 < q /\ 0 <= a /\ exists pos fee tax,
  dget (positions l) sym = Some pos /\ q <= p_qty pos /\
  commission (costs l) a = Ok fee /\ sell_tax (costs l) a = Ok tax /\
  let removed := p_cost pos * q / p_qty pos in
  r = (mkLedger (cash_krw l + (a - fee - tax)) (costs l)
         (realized_pnl_krw l + (a - fee - tax - removed))
         (if p_qty pos - q =? 0 then ddel (positions l) sym
          else dset (positions l) sym (mkPos (p_qty pos - q) (p_cost pos - removed))),
       a - fee - tax - removed).
Proof.
  unfold apply_fill. destruct (_ || _) eqn:E; [done|]. bprop.
  destruct (dget (positions l) sym) as [pos|] eqn:Ep; [|done].
  destruct (p_qty pos <? q) eqn:Eq; [done|]. bprop.
  destruct (commission (costs l) a) as [fee|] eqn:Ef; simpl; [|done].
  destruct (sell_tax (costs l) a) as [tax|] eqn:Et; simpl; [|done].
  intros [= <-]. split; [lia|]. split; [lia|]. exists pos, fee, tax. auto 6.
Qed.

Lemma apply_fill_wf l sym sd q a r :
  ledger_wf l -> apply_fill l sym sd q a = Ok r -> ledger_wf (fst r).
Proof.
  intros Hwf Ha. pose proof Hwf as [Hnd HF]. destruct sd.
  - apply buy_inv in Ha as (Hq & _ & fee & _ & ->); simpl. split; simpl.
    + by apply dkeys_dset_nodup.
    + apply positions_dset_nonneg; [done|]; simpl.
      destruct (dget (positions l) sym) as [p|] eqn:Ep; simpl; [|lia].
      pose proof (position_lookup_nonneg _ _ _ Hwf Ep). lia.
  - apply sell_inv in Ha as (Hq & _ & pos & fee & tax & Ep & Hle & _ & _ & ->); simpl.
    split; simpl; destruct (p_qty pos - q =? 0).
    + eapply sublist_NoDup; [done|apply dkeys_ddel_sub].
    + by apply dkeys_dset_nodup.
    + by apply positions_ddel_nonneg.
    + apply positions_dset_nonneg; [done|simpl; lia].
Qed.

Lemma apply_fill_paid_in l sym sd q a r :
  ledger_wf l -> apply_fill l sym sd q a = Ok r ->
  paid_in (fst r) = paid_in l /\ costs (fst r) = costs l.
Proof.
  intros Hwf Ha. pose proof Hwf as [Hnd HF]. unfold paid_in. destruct sd.
  - apply buy_inv in Ha as (Hq & _ & fee & _ & ->); simpl.
    rewrite total_cost_dset by done; simpl. split; [lia|done].
  - apply sell_inv in Ha as (Hq & _ & pos & fee & tax & Ep & Hle & _ & _ & ->); simpl.
    destruct (p_qty pos - q =? 0) eqn:E0; bprop.
    + rewrite total_cost_ddel, Ep by done; simpl.
      assert (p_qty pos = q) as -> by lia. rewrite Z.div_mul by lia. split; [lia|done].
    + rewrite total_cost_dset, Ep by done; simpl. split; [lia|done].
Qed.

Lemma apply_fill_qty l sym sd q a r sym' :
  ledger_wf l -> apply_fill l sym sd q a = Ok r ->
  ledger_qty (fst r) sym' = ledger_qty l sym' + signed_qty sym' (mkFill sym sd q a).
Proof.
  intros Hwf Ha. pose proof Hwf as [Hnd HF]. unfold ledger_qty, signed_qty; simpl.
  destruct (decide (sym = sym')) as [<-|Hne]; destruct sd.
  - apply buy_inv in Ha as (Hq & _ & fee & _ & ->); simpl. rewrite dget_dset_eq; simpl.
    destruct (dget (positions l) sym); simpl; lia.
  - apply sell_inv in Ha as (Hq & _ & pos & fee & tax & Ep & Hle & _ & _ & ->); simpl.
    rewrite Ep. destruct (p_qty pos - q =? 0) eqn:E0; bprop.
    + rewrite dget_ddel_eq by done. lia.
    + rewrite dget_dset_eq; simpl. lia.
  - apply buy_inv in Ha as (Hq & _ & fee & _ & ->); simpl. rewrite dget_dset_ne by done. lia.
  - apply sell_inv in Ha as (Hq & _ & pos & fee & tax & Ep & Hle & _ & _ & ->); simpl.
    destruct (p_qty pos - q =? 0); [rewrite dget_ddel_ne by done|rewrite dget_dset_ne by done]; lia.
Qed.

#[export] Hint Resolve apply_fill_wf : exec.

(** ** Properties *)

(** Exact money conservation over any session: after any sequence of fills
    the ledger accepts, cash plus the cost of the open positions minus the
    realised profit is what it was before, for every fee and tax rate; and the
    symbols stay unique with no negative quantity. *)
Theorem ledger_conserves l fs l' :
  ledger_wf l -> apply_fills l fs = Ok l' -> paid_in l' = paid_in l /\ ledger_wf l'.
Proof.
  revert l; induction fs as [|f fs IH]; simpl; intros l Hwf Hf; [naive_solver|].
  destruct (apply_fill l _ _ _ _) as [r|] eqn:Ea; simpl in Hf; [|done].
  destruct (IH (fst r)) as [Hp Hw]; [by eapply apply_fill_wf|done|].
  destruct (apply_fill_paid_in _ _ _ _ _ _ Hwf Ea) as [<- _]. done.
Qed.

(** Quantities are the net of the fills: the quantity the ledger holds of any
    symbol after a session is the starting quantity plus everything bought less
    everything sold, and a sale larger than the holding is refused rather than
    driving it negative. *)
Theorem ledger_net_quantity l fs l' sym :
  ledger_wf l -> apply_fills l fs = Ok l' ->
  ledger_qty l' sym = ledger_qty l sym + zsum (map (signed_qty sym) fs) /\
  (forall q a, ledger_qty l' sym < q -> exists e, apply_fill l' sym SELL q a = Raise e).
Proof.
  intros Hwf Hf. split.
  - clear - Hwf Hf. revert l Hwf Hf; induction fs as [|f fs IH]; simpl; intros l Hwf Hf.
    { simplify_eq. lia. }
    destruct (apply_fill l _ _ _ _) as [r|] eqn:Ea; simpl in Hf; [|done].
    rewrite (IH (fst r)) by eauto using apply_fill_wf.
    rewrite (apply_fill_qty _ _ _ _ _ _ sym Hwf Ea). destruct f; simpl. lia.
  - intros q a Hq. destruct (apply_fill l' sym SELL q a) as [r|e] eqn:Ea; [|eauto].
    apply sell_inv in Ea as (_ & _ & pos & _ & _ & Hp & Hle & _).
    unfold ledger_qty in Hq. rewrite Hp in Hq. lia.
Qed.

(** A concrete session: the configured rates, a buy, a partial and a full sale. *)
Definition demo_costs : CostModel :=
  {| commission_bps := float_lit 36396 5; sell_tax_bps := float_lit 20 0 |}.
Definition demo_fills : list Fill :=
  [mkFill "005930" BUY 10 700000; mkFill "005930" SELL 4 300000; mkFill "005930" SELL 6 410000].

Lemma ledger_conserves_witness :
  exists l', apply_fills (new_ledger 10000000 demo_costs []) demo_fills = Ok l' /\
    paid_in l' = 10000000 /\ ledger_wf l'.
Proof.
  eexists; split; [vm_compute; reflexivity|].
  apply (ledger_conserves (new_ledger 10000000 demo_costs []) demo_fills).
  - split; constructor.
  - vm_compute; reflexivity.
Defined.

Lemma ledger_net_quantity_witness :
  exists l', apply_fills (new_ledger 10000000 demo_costs []) (take 2 demo_fills) = Ok l' /\
    ledger_qty l' "005930" = 0 + zsum (map (signed_qty "005930") (take 2 demo_fills)).
Proof.
  eexists; split; [vm_compute; reflexivity|].
  apply (ledger_net_quantity (new_ledger 10000000 demo_costs []) (take 2 demo_fills)).
  - split; constructor.
  - vm_compute; reflexivity.
Defined.
