(* ===== verification/ExecRisk.v ===== *)
(** * Pre-trade risk gate ([src/execution/risk.py]) *)
From S2P Require Import Prelude PyStr ExecContracts.

Record RiskLimits := {
  max_order_notional_krw : Z;
  max_position_notional_krw : Z;
  max_orders_per_minute : Z;
  max_daily_loss_krw : Z;
  symbol_whitelist : list string
}.

Record RiskContext := {
  kill_switch : bool;
  unknown_pending : bool;
  orders_last_minute : Z;
  ctx_realized_pnl_krw : Z;
  position_qty : Z;
  open_buy_qty : Z;
  open_sell_qty : Z;
  orderable_cash_krw : Z;
  est_commission_krw : Z;
  submit_block_reason : option string
}.

Definition reject {A} (c : RejectCode) (detail : string) : exec A :=
  Raise (RiskRejectedError c detail).

Definition reference_price (i : OrderIntent) (q : Quote) : exec Z :=
  match order_type i with
  | LIMIT =>
      match limit_price i with
      | None => reject PRICE_INVALID "limit order requires limit_price"
      | Some p => Ok p
      end
  | MARKET => match side i with BUY => Ok (upper_limit q) | SELL => Ok (last q) end
  end.

(** The order-type part of the gate: tick alignment and price band. *)
Definition check_limit_price (i : OrderIntent) (q : Quote) : exec unit :=
  match order_type i, limit_price i with
  | LIMIT, Some p =>
      if negb (is_tick_aligned p)
      then reject PRICE_OFF_TICK (String.append "price off tick: " (str_of_Z p))
      else if negb ((lower_limit q <=? p) && (p <=? upper_limit q))
      then reject PRICE_OUT_OF_BAND (String.append "price out of band: " (str_of_Z p))
      else Ok tt
  | _, _ => Ok tt
  end.

Definition tick_mismatch (q : Quote) : exec bool :=
  if 1 <=? last q
  then (tk <~ tick_of (last q);; Ok (negb (tk =? tick q)))%py
  else Ok false.

(** [check_intent]: the first violated rule raises, in the source's order. *)
Definition check_intent (i : OrderIntent) (q : Quote) (limits : RiskLimits) (ctx : RiskContext)
    : exec unit :=
  if kill_switch ctx then reject KILL_SWITCH "kill switch engaged"
  else match submit_block_reason ctx with
  | Some reason => reject ACCOUNT_MISMATCH reason
  | None =>
  if unknown_pending ctx then reject UNKNOWN_PENDING "unknown order pending for symbol side"
  else if negb (bool_decide (symbol_whitelist limits = []))
          && negb (bool_decide (symbol i ∈ symbol_whitelist limits))
  then reject SYMBOL_NOT_ALLOWED (String.append "symbol not allowed: " (symbol i))
  else if qty i <? 1
  then reject QTY_INVALID (String.append "qty must be >= 1: " (str_of_Z (qty i)))
  else if (bool_decide (order_type i = LIMIT) && bool_decide (limit_price i = None))
          || (bool_decide (order_type i = MARKET) && negb (bool_decide (limit_price i = None)))
  then reject PRICE_INVALID "limit/market price combination invalid"
  else if halted q then reject TRADING_HALTED "trading halted"
  else
    (mismatch <~ tick_mismatch q;;
     if (mismatch : bool) then reject TICK_TABLE_MISMATCH "broker tick unit mismatch"
     else
     _ <~ check_limit_price i q;;
     if max_orders_per_minute limits <=? orders_last_minute ctx
     then reject ORDER_RATE_LIMIT "order rate limit exceeded"
     else
     ref <~ reference_price i q;;
     let notional := qty i * ref in
     if bool_decide (side i = BUY) && (ctx_realized_pnl_krw ctx <=? - max_daily_loss_krw limits)
     then reject DAILY_LOSS_LIMIT "daily loss limit reached"
     else if max_order_notional_krw limits <? notional
     then reject NOTIONAL_LIMIT (String.append "notional too large: " (str_of_Z notional))
     else if bool_decide (side i = BUY)
             && (max_position_notional_krw limits
                   <? (position_qty ctx + open_buy_qty ctx + qty i) * ref)
     then reject POSITION_LIMIT "position limit exceeded"
     else if bool_decide (side i = BUY)
             && (orderable_cash_krw ctx <? notional + est_commission_krw ctx)
     then reject INSUFFICIENT_CASH "insufficient cash"
     else if bool_decide (side i = SELL)
             && (position_qty ctx - open_sell_qty ctx <? qty i)
     then reject INSUFFICIENT_POSITION "insufficient position"
     else Ok tt)%py
  end.

(** ** The promise of the gate *)

(** What an order that passed the gate satisfies, as one predicate. *)
Record safe_order (i : OrderIntent) (q : Quote) (limits : RiskLimits) (ctx : RiskContext)
    (ref : Z) : Prop := {
  so_switch : kill_switch ctx = false /\ submit_block_reason ctx = None
              /\ unknown_pending ctx = false;
  so_symbol : symbol_whitelist limits = [] \/ symbol i ∈ symbol_whitelist limits;
  so_qty : 1 <= qty i;
  so_shape : order_type i = LIMIT <-> is_Some (limit_price i);
  so_market : halted q = false /\ (1 <= last q -> tick_of (last q) = Ok (tick q));
  so_grid : forall p, limit_price i = Some p ->
            is_tick_aligned p = true /\ lower_limit q <= p <= upper_limit q;
  so_rate : orders_last_minute ctx < max_orders_per_minute limits;
  so_ref : reference_price i q = Ok ref;
  so_notional : qty i * ref <= max_order_notional_krw limits;
  so_buy : side i = BUY ->
           - max_daily_loss_krw limits < ctx_realized_pnl_krw ctx /\
           (position_qty ctx + open_buy_qty ctx + qty i) * ref
             <= max_position_notional_krw limits /\
           qty i * ref + est_commission_krw ctx <= orderable_cash_krw ctx;
  so_sell : side i = SELL -> qty i + open_sell_qty ctx <= position_qty ctx
}.

(** ** Lemmas *)

Lemma bool_decide_false_iff_true (P : Prop) `{Decision P} :
  negb (bool_decide P) = false <-> P.
Proof. rewrite negb_false_iff. apply bool_decide_eq_true. Qed.

Lemma tick_mismatch_ok q b :
  tick_mismatch q = Ok b -> b = false -> 1 <= last q -> tick_of (last q) = Ok (tick q).
Proof.
  unfold tick_mismatch. destruct (1 <=? last q) eqn:E; bprop; [|lia].
  destruct (tick_of (last q)) as [tk|]; simpl; [|done]. intros [= <-] Hb _. bprop. by subst.
Qed.

Lemma check_limit_price_ok i q :
  check_limit_price i q = Ok tt -> order_type i = LIMIT ->
  forall p, limit_price i = Some p ->
  is_tick_aligned p = true /\ lower_limit q <= p <= upper_limit q.
Proof.
  unfold check_limit_price. intros H Ht p Hp. rewrite Ht, Hp in H.
  destruct (is_tick_aligned p); simpl in H; [|done].
  destruct (_ && _) eqn:E; simpl in H; [|done]. bprop. split; [done|lia].
Qed.

Lemma shape_ok i :
  (bool_decide (order_type i = LIMIT) && bool_decide (limit_price i = None))
  || (bool_decide (order_type i = MARKET) && negb (bool_decide (limit_price i = None))) = false ->
  (order_type i = LIMIT <-> is_Some (limit_price i)).
Proof.
  intros [H1 H2]%orb_false_iff.
  destruct (order_type i), (limit_price i) as [p|] eqn:E; simpl in *; try done; split; try done; eauto.
Qed.

Lemma check_intent_sound i q limits ctx :
  check_intent i q limits ctx = Ok tt -> exists ref, safe_order i q limits ctx ref.
Proof.
  unfold check_intent. intros H.
  destruct (kill_switch ctx) eqn:Ek; [done|].
  destruct (submit_block_reason ctx) eqn:Eb; [done|].
  destruct (unknown_pending ctx) eqn:Eu; [done|].
  destruct (_ && _) eqn:Ew in H; [done|].
  destruct (qty i <? 1) eqn:Eq; [done|].
  destruct (_ || _) eqn:Es in H; [done|]. apply shape_ok in Es.
  destruct (halted q) eqn:Eh; [done|].
  destruct (tick_mismatch q) as [[]|] eqn:Em; simpl in H; [done| |done].
  destruct (check_limit_price i q) as [[]|] eqn:El; simpl in H; [|done].
  destruct (_ <=? _) eqn:Er in H; [done|].
  destruct (reference_price i q) as [ref|] eqn:Ep; simpl in H; [|done].
  destruct (_ && _) eqn:E1 in H; [done|]. destruct (_ <? _) eqn:E2 in H; [done|].
  destruct (_ && _) eqn:E3 in H; [done|]. destruct (_ && _) eqn:E4 in H; [done|].
  destruct (_ && _) eqn:E5 in H; [done|]. bprop.
  exists ref. split; auto; try lia.
  + apply andb_false_iff in Ew as [->%bool_decide_false_iff_true|?%bool_decide_false_iff_true]; auto.
  + split; [done|]. intros. by eapply tick_mismatch_ok.
  + intros p Hp. eapply check_limit_price_ok; eauto. apply Es. eauto.
  + intros Hs. rewrite Hs in E1, E3, E4. simpl in *. bprop. lia.
  + intros Hs. rewrite Hs in E5. simpl in *. bprop. lia.
Qed.

Lemma check_intent_complete i q limits ctx ref :
  safe_order i q limits ctx ref -> check_intent i q limits ctx = Ok tt.
Proof.
  intros []. unfold check_intent.
  destruct so_switch0 as (-> & -> & ->), so_market0 as [-> Htk].
  assert (negb (bool_decide (symbol_whitelist limits = []))
          && negb (bool_decide (symbol i ∈ symbol_whitelist limits)) = false) as ->.
  { apply andb_false_iff. destruct so_symbol0; [left|right]; by apply bool_decide_false_iff_true. }
  destruct (Z.ltb_spec (qty i) 1); [lia|].
  assert (tick_mismatch q = Ok false) as ->.
  { unfold tick_mismatch. destruct (Z.leb_spec 1 (last q)); [|done].
    rewrite Htk by done; simpl. by rewrite Z.eqb_refl. }
  assert (check_limit_price i q = Ok tt) as ->.
  { unfold check_limit_price. destruct (order_type i); [|done].
    destruct (limit_price i) as [p|]; [|done]. destruct (so_grid0 p eq_refl) as [-> [? ?]]; simpl.
    by destruct (Z.leb_spec (lower_limit q) p), (Z.leb_spec p (upper_limit q)); try lia. }
  rewrite so_ref0; simpl.
  destruct (Z.leb_spec (max_orders_per_minute limits) (orders_last_minute ctx)); [lia|].
  destruct (Z.ltb_spec (max_order_notional_krw limits) (qty i * ref)); [lia|].
  assert (Hsh : (bool_decide (order_type i = LIMIT) && bool_decide (limit_price i = None))
    || (bool_decide (order_type i = MARKET) && negb (bool_decide (limit_price i = None))) = false).
  { destruct (order_type i), (limit_price i); simpl; try done; exfalso; naive_solver. }
  rewrite Hsh. destruct (side i); simpl.
  + destruct so_buy0 as (? & ? & ?); [done|].
    destruct (Z.leb_spec (ctx_realized_pnl_krw ctx) (- max_daily_loss_krw limits)); [lia|].
    destruct (Z.ltb_spec (max_position_notional_krw limits)
                ((position_qty ctx + open_buy_qty ctx + qty i) * ref)); [lia|].
    by destruct (Z.ltb_spec (orderable_cash_krw ctx) (qty i * ref + est_commission_krw ctx)); [lia|].
  + specialize (so_sell0 eq_refl).
    by destruct (Z.ltb_spec (position_qty ctx - open_sell_qty ctx) (qty i)); [lia|].
Qed.

Lemma tick_mismatch_total q : exists b, tick_mismatch q = Ok b.
Proof.
  unfold tick_mismatch. destruct (1 <=? last q) eqn:E; [|eauto]. bprop.
  destruct (tick_of_total (last q) E) as (tk & -> & _); simpl; eauto.
Qed.

(** The computation raises nothing but risk rejections. *)
Definition only_rejects {A} (c : exec A) : Prop :=
  forall e, c = Raise e -> exists cd d, e = RiskRejectedError cd d.

Lemma only_rejects_ok {A} (a : A) : only_rejects (Ok a).
Proof. done. Qed.
Lemma only_rejects_reject {A} c d : only_rejects (@reject A c d).
Proof. intros e [= <-]. eauto. Qed.
Lemma only_rejects_bind {A B} (c : exec A) (k : A -> exec B) :
  only_rejects c -> (forall a, only_rejects (k a)) -> only_rejects (res_bind c k).
Proof. intros Hc Hk e. destruct c as [a|e']; simpl; [apply Hk|]. intros [= ->]. by apply Hc. Qed.
Lemma only_rejects_mismatch q : only_rejects (tick_mismatch q).
Proof. destruct (tick_mismatch_total q) as [b ->]. apply only_rejects_ok. Qed.

#[local] Hint Resolve only_rejects_ok only_rejects_reject only_rejects_mismatch : core.

Lemma check_intent_raises i q limits ctx : only_rejects (check_intent i q limits ctx).
Proof.
  unfold check_intent, check_limit_price, reference_price.
  repeat (auto; first [apply only_rejects_bind; [|intros ?]|case_match]).
Qed.

(** ** Properties *)

(** The gate is exactly the conjunction of its rules: an intent passes
    [check_intent] if and only if it satisfies [safe_order] at its reference
    price - kill switch and account block clear, symbol allowed, positive
    quantity, on-grid in-band price, order-rate, notional, loss, position and
    cash limits for a buy, and an uncommitted holding for a sale. *)
Theorem check_intent_exact i q limits ctx :
  check_intent i q limits ctx = Ok tt <-> exists ref, safe_order i q limits ctx ref.
Proof.
  split; [apply check_intent_sound|].
  intros [ref H]. by eapply check_intent_complete.
Qed.

(** Fail-closed errors: everything [check_intent] raises is a
    [RiskRejectedError] with a reject code, and an engaged kill switch rejects
    with [KILL_SWITCH] before any other rule is looked at. *)
Theorem check_intent_errors i q limits ctx :
  (forall e, check_intent i q limits ctx = Raise e -> exists c d, e = RiskRejectedError c d) /\
  (kill_switch ctx = true ->
   check_intent i q limits ctx = reject KILL_SWITCH "kill switch engaged").
Proof.
  split; [|by intros H; unfold check_intent; rewrite H].
  intros e H. eapply check_intent_raises. exact H.
Qed.
