(* ===== verification/ExecJournal.v ===== *)
(** * Audit journal ([src/execution/journal.py])

    JSON values, secret redaction, and the append-only JSONL day files. The JSON
    text codec ([json.dumps]/[json.loads]) is a parameter of the day-file
    operations; everything above it works on JSON values. *)
From Stdlib Require Import Ascii.
From S2P Require Import Prelude PyStr PyTime PyFloat ExecContracts.

(** ** JSON values *)

Inductive json :=
| JNull
| JBool (b : bool)
| JInt (z : Z)
| JFloat (f : pyfloat)
| JStr (s : string)
| JArr (l : list json)
| JObj (o : list (string * json)).

(** A journal record: a JSON object. *)
Abbreviation record := (list (string * json)).

Definition jopt (o : option string) : json := match o with Some s => JStr s | None => JNull end.
Definition jopt_int (o : option Z) : json := match o with Some z => JInt z | None => JNull end.

(** Comparison of a [record.get(...)] with a string constant. *)
Definition jis (o : option json) (s : string) : bool :=
  match o with Some (JStr x) => bool_decide (x = s) | _ => false end.

(** ** Redaction *)

Definition lower_char (c : ascii) : ascii :=
  let n := nat_of_ascii c in
  if (65 <=? n)%nat && (n <=? 90)%nat then ascii_of_nat (n + 32) else c.
Definition lower (s : string) : string := l2s (map lower_char (s2l s)).

Definition REDACT_KEYS : list string :=
  ["cano"; "appkey"; "appsecret"; "secretkey"; "authorization"; "access_token"; "approval_key"].

Definition is_secret_key (k : string) : bool := bool_decide (lower k ∈ REDACT_KEYS).

Fixpoint redact (v : json) : json :=
  match v with
  | JObj o =>
      JObj ((fix go (o : list (string * json)) :=
               match o with
               | [] => []
               | (k, x) :: o' =>
                   (k, if is_secret_key k then JStr "***" else redact x) :: go o'
               end) o)
  | JArr l => JArr (map redact l)
  | _ => v
  end.

(** ** Journal state and [append] *)

Record Journal := mkJournal {
  j_mode : ExecutionMode;
  j_torn : list Z;                 (** [_torn_days], as dates *)
  j_records : list (Z * record)    (** date of the day file, record; oldest first *)
}.

Definition journal_fields (fields : list (string * json)) : list (string * json) :=
  map (fun kv => (fst kv, redact (snd kv))) fields.

(** The record written for [event], with [ts] already rendered. *)
Definition mk_record (ts : string) (m : ExecutionMode) (event : string)
    (fields : list (string * json)) : record :=
  fold_left (fun d kv => dset d (fst kv) (snd kv)) (journal_fields fields)
    [("ts", JStr ts); ("mode", JStr (mode_value m)); ("event", JStr event)].

Section Append.
Variable isoformat : datetime -> string.

(** [OrderJournal.append] at time [ts]. *)
Definition journal_append (ts : datetime) (event : string) (fields : list (string * json))
    (j : Journal) : Journal * exec record :=
  if decide (date_of ts ∈ j_torn j)
  then (j, Raise (ExecutionError (String.append "cannot append to torn journal: "
                                    (date_isoformat (date_of ts)))))
  else
    let r := mk_record (isoformat ts) (j_mode j) event fields in
    (mkJournal (j_mode j) (j_torn j) (j_records j ++ [(date_of ts, r)]), Ok r).
End Append.

(** ** Day files *)

Definition nl : ascii := ascii_of_nat 10.
Definition cr : ascii := ascii_of_nat 13.

(** [bytes.splitlines()]: [\n], [\r] and [\r\n] end a line. *)
Fixpoint splitlines_go (cur : list ascii) (l : list ascii) : list (list ascii) :=
  match l with
  | [] => match cur with [] => [] | _ => [rev cur] end
  | c :: l' =>
      if decide (c = nl) then rev cur :: splitlines_go [] l'
      else if decide (c = cr)
      then match l' with
           | c' :: l'' =>
               if decide (c' = nl) then rev cur :: splitlines_go [] l''
               else rev cur :: splitlines_go [] l'
           | [] => [rev cur]
           end
      else splitlines_go (c :: cur) l'
  end.
Definition splitlines (l : list ascii) : list (list ascii) := splitlines_go [] l.

Definition ends_with_nl (l : list ascii) : bool := bool_decide (List.last l nl = nl).

Section DayFile.
Variable json_dumps : record -> list ascii.
Variable json_loads : list ascii -> option json.

(** The bytes [append] adds to the file. *)
Definition record_line (r : record) : list ascii := json_dumps r ++ [nl].

Definition corrupt_line (idx : nat) (day : Z) : exec_exc :=
  ExecutionError (String.append "corrupt journal line "
    (String.append (str_of_Z (Z.of_nat idx)) (String.append " for " (date_isoformat day)))).

(** The loop of [read_day] over the remaining lines, with the records read so
    far and whether the day was marked torn by an undecodable last line. *)
Fixpoint read_lines (m : ExecutionMode) (day : Z) (idx : nat) (lines : list (list ascii))
    (acc : list record) : exec (list record * bool) :=
  match lines with
  | [] => Ok (acc, false)
  | line :: rest =>
      if decide (strip line = []) then read_lines m day (S idx) rest acc
      else match json_loads line with
           | None =>
               match rest with
               | [] => Ok (acc, true)
               | _ => Raise (corrupt_line idx day)
               end
           | Some (JObj r) =>
               if jis (dget r "mode") (mode_value m)
               then read_lines m day (S idx) rest (acc ++ [r])
               else read_lines m day (S idx) rest acc
           | Some _ => Raise (corrupt_line idx day)
           end
  end.

(** [OrderJournal.read_day]: the records, and the day added to [_torn_days] or
    not. A missing file reads as no record. *)
Definition read_day (m : ExecutionMode) (day : Z) (file : option (list ascii))
    : exec (list record * bool) :=
  match file with
  | None => Ok ([], false)
  | Some raw =>
      let torn := negb (bool_decide (raw = [])) && negb (ends_with_nl raw) in
      (r <~ read_lines m day 0 (splitlines raw) [];;
       Ok (fst r, torn || snd r))%py
  end.
End DayFile.

(** ** Lemmas *)

(** Nested induction on JSON values. *)
Lemma json_rect_nested (P : json -> Prop) :
  P JNull -> (forall b, P (JBool b)) -> (forall z, P (JInt z)) -> (forall f, P (JFloat f)) ->
  (forall s, P (JStr s)) -> (forall l, Forall P l -> P (JArr l)) ->
  (forall o, Forall (fun kv => P (snd kv)) o -> P (JObj o)) -> forall v, P v.
Proof.
  intros H1 H2 H3 H4 H5 H6 H7. fix IH 1. intros [|b|z|f|s|l|o].
  1-5: clear IH; auto.
  - apply H6. induction l as [|x l IHl]; constructor; [apply IH|exact IHl].
  - apply H7. induction o as [|[k x] o IHo]; constructor; [apply IH|exact IHo].
Qed.

(** No value under a secret key is left readable, at any depth. *)
Fixpoint no_secret (v : json) : Prop :=
  match v with
  | JObj o =>
      (fix go (o : list (string * json)) :=
         match o with
         | [] => True
         | (k, x) :: o' => (is_secret_key k = true -> x = JStr "***") /\ no_secret x /\ go o'
         end) o
  | JArr l =>
      (fix go (l : list json) := match l with [] => True | x :: l' => no_secret x /\ go l' end) l
  | _ => True
  end.

Lemma redact_no_secret v : no_secret (redact v).
Proof.
  induction v as [| | | | |l IH|o IH] using json_rect_nested; simpl; auto.
  - induction IH as [|x l Hx IH IHl]; simpl; auto.
  - induction IH as [|[k x] o Hx IH IHo]; simpl; auto.
    destruct (is_secret_key k) eqn:E; simpl; naive_solver.
Qed.

Lemma redact_idem v : redact (redact v) = redact v.
Proof.
  induction v as [| | | | |l IH|o IH] using json_rect_nested; simpl; auto; f_equal.
  - induction IH as [|x l Hx IH IHl]; simpl; [done|]. by rewrite Hx, IHl.
  - induction IH as [|[k x] o Hx IH IHo]; simpl; [done|].
    destruct (is_secret_key k) eqn:E; simpl in *; by rewrite ?Hx, IHo.
Qed.

(** A line: no line break inside. *)
Definition one_line (l : list ascii) : Prop := nl ∉ l /\ cr ∉ l.

Lemma splitlines_go_one_line l : forall cur rest,
  one_line l ->
  splitlines_go cur (l ++ nl :: rest) = (rev cur ++ l) :: splitlines_go [] rest.
Proof.
  induction l as [|c l IH]; intros cur rest [Hn Hc].
  - cbn. by rewrite app_nil_r.
  - apply not_elem_of_cons in Hn as [Hn1 Hn2], Hc as [Hc1 Hc2].
    cbn [app splitlines_go]. rewrite decide_False, decide_False by congruence.
    rewrite IH by done. simpl. by rewrite <- app_assoc.
Qed.

Lemma splitlines_line l rest :
  one_line l -> splitlines (l ++ nl :: rest) = l :: splitlines rest.
Proof. apply (splitlines_go_one_line l []). Qed.

Lemma splitlines_go_tail l : forall cur,
  one_line l -> (cur <> [] \/ l <> []) -> splitlines_go cur l = [rev cur ++ l].
Proof.
  induction l as [|c l IH]; intros cur [Hn Hc] Hne.
  - simpl. destruct cur; [naive_solver|]. by rewrite app_nil_r.
  - apply not_elem_of_cons in Hn as [Hn1 Hn2], Hc as [Hc1 Hc2].
    cbn [splitlines_go]. rewrite decide_False, decide_False by congruence.
    rewrite IH by (done || by left). simpl. by rewrite <- app_assoc.
Qed.

Section ReadBack.
Variable json_dumps : record -> list ascii.
Variable json_loads : list ascii -> option json.

(** What the journal relies on of the JSON codec for one record: the text is a
    single non-blank line and loads back to the same object. *)
Definition codec_ok (r : record) : Prop :=
  one_line (json_dumps r) /\ strip (json_dumps r) <> [] /\
  json_loads (json_dumps r) = Some (JObj r).

(** The day file after appending [rs] to an empty file. *)
Definition day_bytes (rs : list record) : list ascii :=
  concat (map (record_line json_dumps) rs).

Definition of_mode (m : ExecutionMode) (r : record) : bool :=
  jis (dget r "mode") (mode_value m).

Lemma splitlines_day rs tl :
  Forall codec_ok rs ->
  splitlines (day_bytes rs ++ tl) = map json_dumps rs ++ splitlines tl.
Proof.
  induction 1 as [|r rs [H1 _] HF IH]; [done|].
  unfold day_bytes, record_line. cbn [map concat]. rewrite <- !app_assoc; simpl.
  rewrite splitlines_line by done. f_equal. apply IH.
Qed.

Lemma read_lines_ok m day rs rest : forall idx acc,
  Forall codec_ok rs ->
  read_lines json_loads m day idx (map json_dumps rs ++ rest) acc =
  read_lines json_loads m day (idx + length rs) rest (acc ++ List.filter (of_mode m) rs).
Proof.
  induction rs as [|r rs IH]; intros idx acc HF; simpl.
  - by rewrite Nat.add_0_r, app_nil_r.
  - apply Forall_cons in HF as [(H1 & H2 & H3) HF].
    rewrite decide_False by done. rewrite H3. unfold of_mode at 1.
    destruct (jis _ _); rewrite IH by done; simpl; rewrite Nat.add_succ_r; [|done].
    by rewrite <- app_assoc.
Qed.

Lemma ends_with_nl_day rs : ends_with_nl (day_bytes rs) = true.
Proof.
  unfold ends_with_nl. apply bool_decide_eq_true. destruct rs as [|r rs] using rev_ind; [done|].
  unfold day_bytes, record_line. rewrite map_app, concat_app. cbn [map concat].
  by rewrite app_nil_r, app_assoc, last_last.
Qed.
End ReadBack.

(** ** Reading fields back from a record *)

Lemma dget_fold_dset (fs : list (string * json)) : forall (d : record) k,
  NoDup (dkeys fs) ->
  dget (fold_left (fun d kv => dset d (fst kv) (snd kv)) fs d) k =
  match dget fs k with Some v => Some v | None => dget d k end.
Proof.
  induction fs as [|[k0 v0] fs IH]; intros d k Hnd; [done|].
  apply NoDup_cons in Hnd as [Hn Hnd]. cbn [fold_left fst snd dget]. rewrite IH by done.
  destruct (decide (k = k0)) as [->|Hne].
  - destruct (dget fs k0) eqn:E; [|apply dget_dset_eq].
    exfalso. apply Hn. apply list_elem_of_fmap. exists (k0, j). split; [done|by apply dget_elem].
  - destruct (dget fs k); [done|]. by apply dget_dset_ne.
Qed.

Lemma dget_journal_fields fs k : dget (journal_fields fs) k = redact <$> dget fs k.
Proof.
  induction fs as [|[k0 v0] fs IH]; [done|]. simpl. by destruct (decide (k = k0)).
Qed.

Lemma dkeys_journal_fields fs : dkeys (journal_fields fs) = dkeys fs.
Proof. induction fs as [|[k v] fs IH]; simpl; [done|]. by f_equal. Qed.

(** A field of a written record is the redaction of the value passed. *)
Lemma mk_record_get ts m ev fs k :
  NoDup (dkeys fs) -> k ∉ ["ts"; "mode"; "event"] ->
  dget (mk_record ts m ev fs) k = redact <$> dget fs k.
Proof.
  intros Hnd Hk. unfold mk_record. rewrite dget_fold_dset by (by rewrite dkeys_journal_fields).
  rewrite dget_journal_fields. destruct (dget fs k); [done|]. simpl.
  rewrite !decide_False by set_solver. done.
Qed.

Lemma mk_record_head ts m ev fs :
  NoDup (dkeys fs) -> "ts" ∉ dkeys fs -> "mode" ∉ dkeys fs -> "event" ∉ dkeys fs ->
  dget (mk_record ts m ev fs) "ts" = Some (JStr ts) /\
  dget (mk_record ts m ev fs) "mode" = Some (JStr (mode_value m)) /\
  dget (mk_record ts m ev fs) "event" = Some (JStr ev).
Proof.
  intros Hnd H1 H2 H3. unfold mk_record.
  rewrite !dget_fold_dset by (by rewrite dkeys_journal_fields).
  rewrite !dget_journal_fields.
  apply dget_None_keys in H1, H2, H3. by rewrite H1, H2, H3.
Qed.

Lemma mk_record_event ts m ev fs :
  NoDup (dkeys fs) -> "ts" ∉ dkeys fs -> "mode" ∉ dkeys fs -> "event" ∉ dkeys fs ->
  dget (mk_record ts m ev fs) "event" = Some (JStr ev).
Proof. intros. by apply mk_record_head. Qed.

(** ** Properties *)

(** Redaction: whatever is journalled, no field named like a secret
    (account number, app key and secret, token, approval key - in any letter
    case, at any nesting depth) keeps its value, and redacting twice changes
    nothing. *)
Theorem redact_masks_secrets v : no_secret (redact v) /\ redact (redact v) = redact v.
Proof. split; [apply redact_no_secret|apply redact_idem]. Qed.

(** Journal round trip: reading back a day file that [append] wrote returns
    exactly the records of this mode in order; and when a crash left a torn,
    undecodable tail after them, the same records are returned, the day is
    marked torn, and [append] refuses that day from then on. *)
Theorem journal_read_back (json_dumps : record -> list ascii) (json_loads : list ascii -> option json)
    (isoformat : datetime -> string) m day rs tl :
  Forall (codec_ok json_dumps json_loads) rs ->
  one_line tl -> strip tl <> [] -> json_loads tl = None ->
  read_day json_loads m day (Some (day_bytes json_dumps rs)) =
    Ok (List.filter (of_mode m) rs, false) /\
  read_day json_loads m day (Some (day_bytes json_dumps rs ++ tl)) =
    Ok (List.filter (of_mode m) rs, true) /\
  (forall j ts ev fs, day ∈ j_torn j -> date_of ts = day ->
     exists e, snd (journal_append isoformat ts ev fs j) = Raise e).
Proof.
  intros HF Htl Hst Hld.
  assert (Hne : tl <> []) by (intros ->; by apply Hst). repeat split.
  - unfold read_day. rewrite ends_with_nl_day, andb_false_r.
    rewrite <- (app_nil_r (day_bytes _ _)), (splitlines_day _ json_loads) by done.
    by rewrite read_lines_ok by done.
  - unfold read_day. rewrite (splitlines_day _ json_loads) by done.
    unfold splitlines at 1. rewrite splitlines_go_tail by auto. rewrite read_lines_ok by done.
    cbn [read_lines rev app]. rewrite decide_False by done. rewrite Hld. simpl.
    by rewrite orb_true_r.
  - intros j ts ev fs Ht <-. unfold journal_append. rewrite decide_True by done. simpl. eauto.
Qed.

(** A codec good for one concrete record. *)
Definition demo_record : record :=
  mk_record "2026-11-02T09:00:00+09:00" LIVE "intent" [("client_id", JStr "live-20261102-000001")].
Definition demo_dumps (_ : record) : list ascii := s2l "{...}".
Definition demo_loads (l : list ascii) : option json :=
  if decide (l = s2l "{...}") then Some (JObj demo_record) else None.

Lemma journal_read_back_witness :
  read_day demo_loads LIVE 20759 (Some (day_bytes demo_dumps [demo_record] ++ s2l "{")) =
    Ok ([demo_record], true).
Proof.
  apply (journal_read_back demo_dumps demo_loads (fun _ => "") LIVE 20759 [demo_record] (s2l "{")).
  - repeat constructor; try (vm_compute; discriminate); try (vm_compute; reflexivity);
      by apply (bool_decide_unpack _); vm_compute.
  - split; by apply (bool_decide_unpack _); vm_compute.
  - vm_compute; discriminate.
  - vm_compute; reflexivity.
Defined.
