(* ===== verification/KisTrading.v ===== *)
(** * KIS order submission ([src/brokers/kis/trading.py], [src/brokers/kis/http.py])

    Trading TR ids and request bodies, the retry classification, and the
    order POST loop. The HTTP session, the token provider and the pacer are not
    under [src/]'s control: an attempt's result is an argument. *)
From S2P Require Import Prelude PyStr PyFloat ExecContracts ExecJournal.

Definition TR_BUY : string := "TTTC0012U".
Definition TR_SELL : string := "TTTC0011U".
Definition TR_CANCEL : string := "TTTC0013U".

Definition ORD_DVSN (t : OrderType) : string := match t with LIMIT => "00" | MARKET => "01" end.

Definition order_tr_id (s : Side) : string := match s with BUY => TR_BUY | SELL => TR_SELL end.

Definition KIS_LIVE_BASE_URL : string := "https://openapi.koreainvestment.com:9443".
Definition KIS_MOCK_BASE_URL : string := "https://openapivts.koreainvestment.com:29443".
Definition venue_base_url (v : KisVenue) : string :=
  match v with VENUE_MOCK => KIS_MOCK_BASE_URL | VENUE_LIVE => KIS_LIVE_BASE_URL end.

Definition starts_with (p s : string) : bool := String.prefix p s.

Definition drop_first (s : string) : string :=
  match s with EmptyString => EmptyString | String.String _ s' => s' end.

Definition wire_tr_id (v : KisVenue) (tr : string) : exec string :=
  match v with
  | VENUE_LIVE => Ok tr
  | VENUE_MOCK =>
      if negb (starts_with "TTTC" tr)
      then Raise (ValueError (String.append "unmappable TR id for mock venue: " tr))
      else Ok (String.append "V" (drop_first tr))
  end.

Record KisCredentials := { kis_account_no : string; kis_account_product_code : string }.

(** [str(limit_price)]; a limit order without a price prints as Python prints [None]. *)
Definition str_opt_int (o : option Z) : string :=
  match o with Some p => str_of_Z p | None => "None" end.

Definition build_order_body (c : KisCredentials) (o : Order) : list (string * json) :=
  let i := intent o in
  [("CANO", JStr (kis_account_no c));
   ("ACNT_PRDT_CD", JStr (kis_account_product_code c));
   ("PDNO", JStr (symbol i));
   ("ORD_DVSN", JStr (ORD_DVSN (order_type i)));
   ("ORD_QTY", JStr (str_of_Z (qty i)));
   ("ORD_UNPR", JStr (match order_type i with
                      | LIMIT => str_opt_int (limit_price i)
                      | MARKET => "0"
                      end));
   ("EXCG_ID_DVSN_CD", JStr "KRX");
   ("SLL_TYPE", JStr (match side i with SELL => "01" | BUY => "" end));
   ("CNDT_PRIC", JStr "")].

Definition build_cancel_body (c : KisCredentials) (o : Order) : exec (list (string * json)) :=
  match broker_order_no o, broker_org_no o with
  | Some no, Some org =>
      Ok [("CANO", JStr (kis_account_no c));
          ("ACNT_PRDT_CD", JStr (kis_account_product_code c));
          ("KRX_FWDG_ORD_ORGNO", JStr org);
          ("ORGN_ODNO", JStr no);
          ("ORD_DVSN", JStr (ORD_DVSN (order_type (intent o))));
          ("RVSE_CNCL_DVSN_CD", JStr "02");
          ("ORD_QTY", JStr "0");
          ("ORD_UNPR", JStr "0");
          ("QTY_ALL_ORD_YN", JStr "Y");
          ("EXCG_ID_DVSN_CD", JStr "KRX")]
  | _, _ => Raise (ExecutionError "cancel requires broker order and org numbers")
  end.

(** ** Retry classification *)

Definition RATE_LIMIT_CODES : list string := ["EGW00201"; "EGW00215"].
Definition EXPIRED_TOKEN_CODES : list string := ["EGW00121"; "EGW00123"].
Definition MAX_SAFE_RETRIES : nat := 2.

Inductive KisRetryDecision := RETRY_RATE_LIMITED | RETRY_AFTER_TOKEN_REFRESH | FINAL.

Definition classify_kis_retry (msg_cd : string) (retries : nat) (refreshed : bool)
    : KisRetryDecision :=
  if bool_decide (msg_cd ∈ RATE_LIMIT_CODES) && (retries <? MAX_SAFE_RETRIES)%nat
  then RETRY_RATE_LIMITED
  else if bool_decide (msg_cd ∈ EXPIRED_TOKEN_CODES) && negb refreshed
  then RETRY_AFTER_TOKEN_REFRESH
  else FINAL.

(** ** Order POST *)

(** Truth value of a JSON value, and [str()] of it; the text of containers and
    floats is a parameter. *)
Definition truthy (v : json) : bool :=
  match v with
  | JNull => false
  | JBool b => b
  | JInt z => negb (z =? 0)
  | JFloat f => negb (is_zero f)
  | JStr s => negb (bool_decide (s = ""))
  | JArr l => negb (bool_decide (length l = 0%nat))
  | JObj o => negb (bool_decide (length o = 0%nat))
  end.

Section Post.
Variable repr : json -> string.

Definition py_str (v : json) : string :=
  match v with
  | JNull => "None"
  | JBool true => "True"
  | JBool false => "False"
  | JInt z => str_of_Z z
  | JStr s => s
  | _ => repr v
  end.

(** [str(d.get(k, ""))]. *)
Definition get_str (d : list (string * json)) (k : string) : string :=
  py_str (default (JStr "") (dget d k)).

(** What one POST attempt came back with. *)
Inductive attempt :=
| AuthFailed (e : exec_exc)                        (** [authorized_headers] raised *)
| ConnectTimeout                                   (** not sent *)
| TransportError (name : string)                   (** any other [RequestException] *)
| Response (status_code : Z) (body : option json). (** [None]: body is not JSON *)

Definition mk_outcome (k : OutcomeKind) (c m : string) : BrokerOutcome :=
  {| kind := k; o_order_no := None; o_org_no := None; o_order_time := None; code := c; message := m |}.

Definition strip_str (s : string) : string := l2s (strip (s2l s)).

(** The final classification of a JSON response that is not retried. *)
Definition final_outcome (d : list (string * json)) (msg_cd msg : string) : exec BrokerOutcome :=
  if negb (jis (dget d "rt_cd") "0") then Ok (mk_outcome OUT_REJECTED msg_cd msg)
  else
    let output := default JNull (dget d "output") in
    match (if truthy output then output else JObj []) with
    | JObj out =>
        if negb (truthy (default JNull (dget out "ODNO")))
        then Ok (mk_outcome OUT_UNKNOWN "no_odno" msg)
        else Ok {| kind := OUT_ACCEPTED;
                   o_order_no := Some (py_str (default JNull (dget out "ODNO")));
                   o_org_no := Some (get_str out "KRX_FWDG_ORD_ORGNO");
                   o_order_time := Some (get_str out "ORD_TMD");
                   code := msg_cd; message := msg |}
    | _ => Raise (ForeignError "AttributeError")
    end.

(** What the loop does after one attempt: stop with a result, or go round again
    with the new retry counters. *)
Definition post_step (retries : nat) (refreshed : bool) (a : attempt)
    : exec BrokerOutcome + (nat * bool) :=
  match a with
  | AuthFailed e => inl (Raise e)
  | ConnectTimeout =>
      if (retries <? MAX_SAFE_RETRIES)%nat then inr (S retries, refreshed)
      else inl (Ok (mk_outcome OUT_REJECTED "connect_timeout"
                      "not sent: connect timeout retries exhausted"))
  | TransportError name => inl (Ok (mk_outcome OUT_UNKNOWN "transport" name))
  | Response st None =>
      inl (Ok (mk_outcome OUT_UNKNOWN (String.append "http_" (str_of_Z st)) "non_json_response"))
  | Response st (Some (JObj d)) =>
      let msg_cd := get_str d "msg_cd" in
      let msg := strip_str (get_str d "msg1") in
      match classify_kis_retry msg_cd retries refreshed with
      | RETRY_RATE_LIMITED => inr (S retries, refreshed)
      | RETRY_AFTER_TOKEN_REFRESH => inr (retries, true)
      | FINAL => inl (final_outcome d msg_cd msg)
      end
  | Response _ (Some _) => inl (Raise (ForeignError "AttributeError"))
  end.

(** [KisTradingClient.post_order]'s [while True] over the attempts' results,
    with the number of POSTs made; [None] when the results given run out before
    the loop stops. *)
Fixpoint post_loop (retries : nat) (refreshed : bool) (n : nat) (rs : list attempt)
    : option (exec BrokerOutcome * nat) :=
  match rs with
  | [] => None
  | a :: rest =>
      match post_step retries refreshed a with
      | inl r => Some (r, S n)
      | inr (retries', refreshed') => post_loop retries' refreshed' (S n) rest
      end
  end.

Definition post_order (rs : list attempt) : option (exec BrokerOutcome * nat) :=
  post_loop 0 false 0 rs.

(** ** Lemmas *)

(** Attempts left before the loop must stop. *)
Definition budget (retries : nat) (refreshed : bool) : nat :=
  (MAX_SAFE_RETRIES - retries) + (if refreshed then 0 else 1).

(** A response after which resending is safe: the request never left, or the
    vendor rejected it for rate or token before executing it. *)
Definition not_executed (a : attempt) : Prop :=
  a = ConnectTimeout \/
  exists st d, a = Response st (Some (JObj d)) /\
    (get_str d "msg_cd" ∈ RATE_LIMIT_CODES \/ get_str d "msg_cd" ∈ EXPIRED_TOKEN_CODES).

Lemma post_step_retry r f a r' f' :
  post_step r f a = inr (r', f') ->
  not_executed a /\ (budget r' f' < budget r f)%nat.
Proof.
  unfold post_step, not_executed, budget. intros H.
  destruct a as [e| |nm|st [b|]]; try done.
  - destruct (r <? MAX_SAFE_RETRIES)%nat eqn:E; simplify_eq. apply Nat.ltb_lt in E.
    split; [by left|]. destruct f'; lia.
  - destruct b; try done. unfold classify_kis_retry in H.
    destruct (_ && _) eqn:E1 in H; [|destruct (_ && _) eqn:E2 in H]; simplify_eq; bprop.
    + split; [right; eauto 6|destruct f'; lia].
    + split; [right; eauto 6|]. destruct f; simpl in *; [congruence|lia].
Qed.

Lemma post_loop_terminates rs : forall r f n,
  (budget r f < length rs)%nat ->
  exists res k, post_loop r f n rs = Some (res, (n + S k)%nat) /\ (k <= budget r f)%nat.
Proof.
  induction rs as [|a rs IH]; simpl; intros r f n Hl; [lia|].
  destruct (post_step r f a) as [res|[r' f']] eqn:E.
  - exists res, 0%nat. split; [f_equal; f_equal; lia|lia].
  - apply post_step_retry in E as [_ Hb].
    destruct (IH r' f' (S n)) as (res & k & -> & Hk); [lia|].
    exists res, (S k). split; [f_equal; f_equal; lia|lia].
Qed.

Lemma post_loop_safe rs : forall r f n res m,
  post_loop r f n rs = Some (res, m) ->
  exists k, m = (n + S k)%nat /\ Forall not_executed (take k rs).
Proof.
  induction rs as [|a rs IH]; simpl; intros r f n res m H; [done|].
  destruct (post_step r f a) as [x|[r' f']] eqn:E.
  - simplify_eq. exists 0%nat. split; [lia|constructor].
  - apply post_step_retry in E as [Ha _]. apply IH in H as (k & -> & HF).
    exists (S k). split; [lia|]. simpl. by constructor.
Qed.

(** Broker identifiers come with an acceptance and only with one. *)
Definition ids_iff_accepted (out : BrokerOutcome) : Prop :=
  (kind out = OUT_ACCEPTED /\ is_Some (o_order_no out)) \/
  (kind out <> OUT_ACCEPTED /\
   o_order_no out = None /\ o_org_no out = None /\ o_order_time out = None).

Lemma final_outcome_broker d c m out :
  final_outcome d c m = Ok out -> ids_iff_accepted out.
Proof.
  unfold final_outcome, ids_iff_accepted. intros H.
  repeat (hmatch H; simplify_eq); simpl; (by left; eauto) || (by right).
Qed.

Lemma post_loop_broker rs : forall r f n out m,
  post_loop r f n rs = Some (Ok out, m) -> ids_iff_accepted out.
Proof.
  induction rs as [|a rs IH]; simpl; intros r f n out m H; [done|].
  destruct (post_step r f a) as [x|[r' f']] eqn:E; [|by eauto]. simplify_eq.
  unfold post_step in E. repeat (hmatch E; simplify_eq); eauto using final_outcome_broker;
    by right.
Qed.
End Post.

(** ** Properties *)

(** The order POST loop terminates within four POSTs whatever the vendor
    answers: given any four attempt results it has returned or raised by then. *)
Theorem post_order_terminates repr rs :
  (4 <= length rs)%nat ->
  exists r n, post_order repr rs = Some (r, n) /\ (1 <= n <= 4)%nat.
Proof.
  intros Hl. destruct (post_loop_terminates repr rs 0 false 0) as (r & k & H & Hk).
  - unfold budget, MAX_SAFE_RETRIES. lia.
  - exists r, (0 + S k)%nat. split; [exact H|]. unfold budget, MAX_SAFE_RETRIES in Hk. lia.
Qed.

(** C6. An ambiguous order is never sent twice: every attempt before the last
    one provably did not reach execution (a connect timeout, or a rate-limit or
    expired-token rejection); and an outcome carries broker identifiers if and
    only if it is an acceptance. *)
Theorem post_order_no_ambiguous_resend repr rs r n :
  post_order repr rs = Some (r, n) ->
  Forall (not_executed repr) (take (n - 1) rs) /\
  (forall out, r = Ok out -> ids_iff_accepted out).
Proof.
  intros H. split.
  - destruct (post_loop_safe repr rs 0 false 0 r n H) as (k & -> & HF).
    by replace (0 + S k - 1)%nat with k by lia.
  - intros out ->. by eapply post_loop_broker.
Qed.

Definition demo_accept : attempt :=
  Response 200 (Some (JObj [("rt_cd", JStr "0"); ("msg_cd", JStr "APBK0013");
    ("output", JObj [("ODNO", JStr "0000117057"); ("KRX_FWDG_ORD_ORGNO", JStr "91252");
                     ("ORD_TMD", JStr "090001")])])).
Definition demo_rate : attempt :=
  Response 200 (Some (JObj [("rt_cd", JStr "1"); ("msg_cd", JStr "EGW00201")])).

Lemma post_order_terminates_witness :
  exists r n, post_order (fun _ => "") [ConnectTimeout; demo_rate; demo_accept; demo_accept] =
    Some (r, n) /\ (1 <= n <= 4)%nat.
Proof. apply (post_order_terminates (fun _ => "")). simpl; lia. Defined.

Lemma post_order_no_ambiguous_resend_witness :
  exists r, post_order (fun _ => "") [ConnectTimeout; demo_rate; demo_accept] = Some (r, 3%nat) /\
  Forall (not_executed (fun _ => "")) (take 2 [ConnectTimeout; demo_rate; demo_accept]).
Proof.
  eexists; split; [vm_compute; reflexivity|].
  eapply (post_order_no_ambiguous_resend (fun _ => "") [ConnectTimeout; demo_rate; demo_accept] _ 3).
  vm_compute; reflexivity.
Defined.
