(* ===== verification/ExecGateways.v ===== *)
(** * Order gateways ([src/execution/gateways.py])

    The shared session store (journal, ledger, clock), the [OrderGateway]
    protocol of [contracts.py] as a class over it, and its two implementations:
    the paper gateway with its order-book sweep, and the live gateway over a
    [LiveOrderClient]. *)
From S2P Require Import Prelude PyStr PyTime PyFloat ExecContracts ExecLedger ExecRisk ExecJournal KisTrading.

(** ** The shared store *)

Record World := mkWorld {
  w_journal : Journal;
  w_ledger : Ledger;
  w_clock : nat           (** how often the clock has been read *)
}.

Definition set_journal (j : Journal) (w : World) : World := mkWorld j (w_ledger w) (w_clock w).
Definition set_ledger (l : Ledger) (w : World) : World := mkWorld (w_journal w) l (w_clock w).
Definition tick_clock (w : World) : World := mkWorld (w_journal w) (w_ledger w) (S (w_clock w)).

(** The environment of a session: the wall clock by reading number and the
    rendering of its values. *)
Class Env := { now : nat -> datetime; isoformat : datetime -> string }.

Section Store.
Context `{Env} {G : Type}.

Definition read_now : stx (G * World) exec_exc datetime :=
  fun s => ((fst s, tick_clock (snd s)), Ok (now (w_clock (snd s)))).

(** [journal.append(event, **fields)] on the shared journal; it reads the clock
    once. *)
Definition append (event : string) (fields : list (string * json)) : stx (G * World) exec_exc unit :=
  fun s =>
    let w := snd s in
    let '(j, r) := journal_append isoformat (now (w_clock w)) event fields (w_journal w) in
    ((fst s, set_journal j (tick_clock w)),
     match r with Ok _ => Ok tt | Raise e => Raise e end).
End Store.

(** ** The gateway protocol *)

Class OrderGateway (G : Type) := {
  gw_mode : ExecutionMode;
  gw_submit : Order -> Quote -> stx (G * World) exec_exc BrokerOutcome;
  gw_cancel : Order -> stx (G * World) exec_exc BrokerOutcome;
  gw_fetch_statuses : stx (G * World) exec_exc (list BrokerOrderStatus);
  gw_orderable_cash : string -> Z -> OrderType -> stx (G * World) exec_exc Z
}.

(** ** Paper fills *)

(** One book side swept level by level: ([filled], [amount]). *)
Fixpoint sweep (sd : Side) (limit : option Z) (remaining filled amount : Z) (levels : list (Z * Z))
    : Z * Z :=
  match levels with
  | [] => (filled, amount)
  | (p, size) :: rest =>
      let stop :=
        match limit, sd with
        | Some l, BUY => l <? p
        | Some l, SELL => p <? l
        | None, _ => false
        end in
      if stop then (filled, amount)
      else
        let take := Z.min remaining size in
        if remaining - take =? 0 then (filled + take, amount + take * p)
        else sweep sd limit (remaining - take) (filled + take) (amount + take * p) rest
  end.

Definition simulate_paper_fills (i : OrderIntent) (q : Quote) : Z * Z :=
  let levels := match side i with BUY => asks q | SELL => bids q end in
  let limit := match order_type i with LIMIT => limit_price i | MARKET => None end in
  sweep (side i) limit (qty i) 0 0 levels.

Record PaperEntry := mkEntry {
  e_intent : OrderIntent;
  e_filled_qty : Z;
  e_filled_amount : Z;
  e_reserve_price : Z;
  e_cancelled : bool
}.

Record PaperState := mkPaper { pg_seq : Z; pg_book : list (string * PaperEntry) }.

(** JSON renderings of the dataclasses the journal stores. *)
Definition intent_json (i : OrderIntent) : json :=
  JObj [("symbol", JStr (symbol i)); ("side", JStr (side_value (side i))); ("qty", JInt (qty i));
        ("order_type", JStr (order_type_value (order_type i)));
        ("limit_price", jopt_int (limit_price i)); ("tag", JStr (tag i))].
Definition levels_json (l : list (Z * Z)) : json :=
  JArr (map (fun pv => JArr [JInt (fst pv); JInt (snd pv)]) l).
Definition quote_json (q : Quote) : json :=
  JObj [("symbol", JStr (q_symbol q)); ("last", JInt (last q));
        ("upper_limit", JInt (upper_limit q)); ("lower_limit", JInt (lower_limit q));
        ("tick", JInt (tick q)); ("halted", JBool (halted q));
        ("asks", levels_json (asks q)); ("bids", levels_json (bids q))].
Definition outcome_json (o : BrokerOutcome) : json :=
  JObj [("kind", JStr (outcome_value (kind o))); ("broker_order_no", jopt (o_order_no o));
        ("broker_org_no", jopt (o_org_no o)); ("order_time", jopt (o_order_time o));
        ("code", JStr (code o)); ("message", JStr (message o))].

Definition paper_odno (seq : Z) : string := String.append "P" (str_pad 8 seq).

Definition entry_status (kv : string * PaperEntry) : BrokerOrderStatus :=
  let '(odno, e) := kv in
  {| b_order_no := odno; original_order_no := ""; org_no := "PAPER";
     b_symbol := symbol (e_intent e); b_side := side (e_intent e);
     ordered_qty := qty (e_intent e); price := default 0 (limit_price (e_intent e));
     b_filled_qty := e_filled_qty e; b_filled_amount_krw := e_filled_amount e;
     b_remaining_qty := if e_cancelled e then 0 else qty (e_intent e) - e_filled_qty e;
     rejected_qty := 0; cancelled := e_cancelled e; order_time := "" |}.

Definition reserved_cash (book : list (string * PaperEntry)) : Z :=
  zsum (map (fun kv => let e := snd kv in
                       (qty (e_intent e) - e_filled_qty e) * e_reserve_price e)
         (List.filter (fun kv => let e := snd kv in
                                 negb (e_cancelled e) && bool_decide (side (e_intent e) = BUY))
            book)).

Section Paper.
Context `{Env} (creds : KisCredentials).

Definition paper_submit (o : Order) (q : Quote) : stx (PaperState * World) exec_exc BrokerOutcome :=
  (s <- sget;;
   let seq := pg_seq (fst s) + 1 in
   let odno := paper_odno seq in
   let '(filled, amount) := simulate_paper_fills (intent o) q in
   smod (fun s => (mkPaper seq (pg_book (fst s)), snd s));;;
   append "paper_would_send"
     [("client_id", JStr (client_id o)); ("broker_order_no", JStr odno);
      ("tr_id", JStr (order_tr_id (side (intent o)))); ("body", JObj (build_order_body creds o));
      ("quote", quote_json q); ("simulated_fill_qty", JInt filled);
      ("simulated_fill_amount_krw", JInt amount); ("fill_model", JStr "paper_l10_sweep_v1")];;;
   ref <- slift (reference_price (intent o) q);;
   smod (fun s => (mkPaper (pg_seq (fst s))
                     (dset (pg_book (fst s)) odno (mkEntry (intent o) filled amount ref false)),
                   snd s));;;
   sret {| kind := OUT_ACCEPTED; o_order_no := Some odno; o_org_no := Some "PAPER";
           o_order_time := Some ""; code := ""; message := "" |})%py.

Definition paper_cancel (o : Order) : stx (PaperState * World) exec_exc BrokerOutcome :=
  (s <- sget;;
   let no := default "" (broker_order_no o) in
   match dget (pg_book (fst s)) no with
   | None => sraise (ExecutionError "unknown paper order")
   | Some e =>
       if e_filled_qty e =? qty (e_intent e)
       then sret {| kind := OUT_REJECTED; o_order_no := broker_order_no o; o_org_no := None;
                    o_order_time := None; code := "ALREADY_FILLED";
                    message := "nothing to cancel" |}
       else
         smod (fun s => (mkPaper (pg_seq (fst s))
                           (dset (pg_book (fst s)) no
                              (mkEntry (e_intent e) (e_filled_qty e) (e_filled_amount e)
                                 (e_reserve_price e) true)), snd s));;;
         body <- slift (build_cancel_body creds o);;
         append "paper_would_cancel"
           [("client_id", JStr (client_id o)); ("tr_id", JStr TR_CANCEL); ("body", JObj body)];;;
         sret {| kind := OUT_ACCEPTED; o_order_no := broker_order_no o; o_org_no := Some "PAPER";
                 o_order_time := None; code := ""; message := "" |}
   end)%py.

Definition paper_fetch : stx (PaperState * World) exec_exc (list BrokerOrderStatus) :=
  fun s => (s, Ok (map entry_status (pg_book (fst s)))).

Definition paper_cash (_ : string) (_ : Z) (_ : OrderType) : stx (PaperState * World) exec_exc Z :=
  fun s => (s, Ok (cash_krw (w_ledger (snd s)) - reserved_cash (pg_book (fst s)))).

#[global] Instance PaperGateway : OrderGateway PaperState := {
  gw_mode := PAPER;
  gw_submit := paper_submit;
  gw_cancel := paper_cancel;
  gw_fetch_statuses := paper_fetch;
  gw_orderable_cash := paper_cash
}.
End Paper.

(** ** Live gateway *)

Class LiveOrderClient (C : Type) := {
  lc_venue : KisVenue;
  lc_post_order : string -> list (string * json) -> stx C exec_exc BrokerOutcome;
  lc_get_daily_orders : Z -> stx C exec_exc (list BrokerOrderStatus);
  lc_get_orderable_cash : string -> Z -> OrderType -> stx C exec_exc Z
}.

(** [LiveGateway.__init__]: the mode checks. *)
Definition live_gateway_mode (m : ExecutionMode) (v : KisVenue) : exec ExecutionMode :=
  match m with
  | PAPER => Raise (ValueError "LiveGateway does not support paper mode")
  | _ =>
      if decide (mode_value m = venue_value v) then Ok m
      else Raise (ValueError
                    (String.append "gateway mode "
                       (String.append (mode_value m)
                          (String.append " disagrees with client venue " (venue_value v)))))
  end.

Section Live.
Context `{Env} (creds : KisCredentials) {C : Type} `{LiveOrderClient C} (mode : ExecutionMode).

(** Run a client operation on the gateway's client. *)
Definition on_client {A} (c : stx C exec_exc A) : stx (C * World) exec_exc A :=
  fun s => let '(c', r) := c (fst s) in ((c', snd s), r).

Definition live_submit (o : Order) (q : Quote) : stx (C * World) exec_exc BrokerOutcome :=
  (let canonical := order_tr_id (side (intent o)) in
   let body := build_order_body creds o in
   wire <- slift (wire_tr_id lc_venue canonical);;
   append "live_send" [("client_id", JStr (client_id o)); ("tr_id", JStr wire); ("body", JObj body)];;;
   on_client (lc_post_order canonical body))%py.

Definition live_cancel (o : Order) : stx (C * World) exec_exc BrokerOutcome :=
  (body <- slift (build_cancel_body creds o);;
   wire <- slift (wire_tr_id lc_venue TR_CANCEL);;
   append "live_send" [("client_id", JStr (client_id o)); ("tr_id", JStr wire); ("body", JObj body)];;;
   on_client (lc_post_order TR_CANCEL body))%py.

Definition live_fetch : stx (C * World) exec_exc (list BrokerOrderStatus) :=
  (t <- read_now;; on_client (lc_get_daily_orders (date_of t)))%py.

Definition live_cash (sym : string) (p : Z) (t : OrderType) : stx (C * World) exec_exc Z :=
  on_client (lc_get_orderable_cash sym p t).

Definition LiveGateway : OrderGateway C := {|
  gw_mode := mode;
  gw_submit := live_submit;
  gw_cancel := live_cancel;
  gw_fetch_statuses := live_fetch;
  gw_orderable_cash := live_cash
|}.
End Live.

(** [KisTradingClient] as a [LiveOrderClient]: its state is what the vendor will
    answer next - attempt results for the POSTs, decoded pages for the GETs. *)
Record KisClient := mkClient {
  kc_posts : list (list attempt);
  kc_daily : list (exec (list BrokerOrderStatus));
  kc_cash : list (exec Z)
}.

Definition exhausted {A} : exec A := Raise (ForeignError "StopIteration").

Definition kis_post (repr : json -> string) (_ : string) (_ : list (string * json))
    : stx KisClient exec_exc BrokerOutcome :=
  fun c =>
    match kc_posts c with
    | [] => (c, exhausted)
    | rs :: rest =>
        (mkClient rest (kc_daily c) (kc_cash c),
         match post_order repr rs with Some (r, _) => r | None => exhausted end)
    end.

Definition kis_client (repr : json -> string) (venue : KisVenue) : LiveOrderClient KisClient := {|
  lc_venue := venue;
  lc_post_order := kis_post repr;
  lc_get_daily_orders := fun _ c =>
    match kc_daily c with
    | [] => (c, exhausted)
    | r :: rest => (mkClient (kc_posts c) rest (kc_cash c), r)
    end;
  lc_get_orderable_cash := fun _ _ _ c =>
    match kc_cash c with
    | [] => (c, exhausted)
    | r :: rest => (mkClient (kc_posts c) (kc_daily c) rest, r)
    end
|}.

(** ** What a gateway promises the order manager *)

(** The journal was only extended, by records satisfying [P]; the ledger is
    untouched and the clock moved forward. *)
Record journal_ext (P : record -> Prop) (w w' : World) : Prop := {
  je_mode : j_mode (w_journal w') = j_mode (w_journal w);
  je_torn : j_torn (w_journal w') = j_torn (w_journal w);
  je_records : exists rs, j_records (w_journal w') = j_records (w_journal w) ++ rs /\
                          Forall (fun r => P (snd r)) rs;
  je_ledger : w_ledger w' = w_ledger w;
  je_clock : (w_clock w <= w_clock w')%nat
}.

Definition GATEWAY_EVENTS : list string := ["paper_would_send"; "paper_would_cancel"; "live_send"].

(** A gateway's own audit record about the order [cid]. *)
Definition gateway_note (cid : string) (r : record) : Prop :=
  dget r "client_id" = Some (JStr cid) /\
  exists e, dget r "event" = Some (JStr e) /\ e ∈ GATEWAY_EVENTS.

(** Every run of [c] only extends the journal by records satisfying [P]. *)
Definition writes_only {G A} (P : record -> Prop) (c : stx (G * World) exec_exc A) : Prop :=
  forall g w, journal_ext P w (snd (fst (c (g, w)))).

(** The laws: a gateway writes nothing but notes about the order it was given,
    never touches the ledger, and returns broker identifiers exactly with an
    acceptance. *)
Class GatewayLaws (G : Type) `{OrderGateway G} := {
  gl_submit : forall o q, writes_only (gateway_note (client_id o)) (gw_submit o q);
  gl_outcome : forall o q s s' out,
    gw_submit o q s = (s', Ok out) -> ids_iff_accepted out;
  gl_cancel : forall o, writes_only (gateway_note (client_id o)) (gw_cancel o);
  gl_fetch : writes_only (fun _ => False) gw_fetch_statuses;
  gl_cash : forall sym p t, writes_only (fun _ => False) (gw_orderable_cash sym p t)
}.

Lemma journal_ext_refl P w : journal_ext P w w.
Proof. split; try done. exists []. by rewrite app_nil_r. Qed.

Lemma journal_ext_trans P w1 w2 w3 : journal_ext P w1 w2 -> journal_ext P w2 w3 -> journal_ext P w1 w3.
Proof.
  intros [M1 T1 (r1 & R1 & F1) L1 C1] [M2 T2 (r2 & R2 & F2) L2 C2]. split; try congruence; [|lia].
  exists (r1 ++ r2). rewrite R2, R1, app_assoc. split; [done|]. by apply Forall_app.
Qed.

Lemma journal_ext_weaken (P Q : record -> Prop) w w' :
  (forall r, P r -> Q r) -> journal_ext P w w' -> journal_ext Q w w'.
Proof.
  intros HPQ [M T (r & R & F) L C]. split; try done. exists r. split; [done|].
  eapply Forall_impl; [exact F|]. simpl. auto.
Qed.

Lemma journal_ext_tick P w : journal_ext P w (tick_clock w).
Proof. split; try done; [exists []; by rewrite app_nil_r|simpl; lia]. Qed.

Section StoreLemmas.
Context `{Env} {G : Type}.

(** [append] adds one record, or none when the day is torn. *)
Lemma append_spec ev fs (g : G) w :
  exists w', append ev fs (g, w) =
    ((g, w'), if decide (date_of (now (w_clock w)) ∈ j_torn (w_journal w))
              then Raise (ExecutionError (String.append "cannot append to torn journal: "
                            (date_isoformat (date_of (now (w_clock w)))))) else Ok tt) /\
    w' = set_journal
           (if decide (date_of (now (w_clock w)) ∈ j_torn (w_journal w)) then w_journal w
            else mkJournal (j_mode (w_journal w)) (j_torn (w_journal w))
                   (j_records (w_journal w) ++
                    [(date_of (now (w_clock w)),
                      mk_record (isoformat (now (w_clock w))) (j_mode (w_journal w)) ev fs)]))
           (tick_clock w).
Proof.
  unfold append, journal_append. simpl. by case_decide; eauto.
Qed.

Lemma wo_append ev fs (P : record -> Prop) :
  (forall ts m, P (mk_record ts m ev fs)) -> writes_only (G:=G) P (append ev fs).
Proof.
  intros HP g w. destruct (append_spec ev fs g w) as (w' & -> & ->). simpl.
  case_decide; (split; try done; [|simpl; lia]); simpl.
  - exists []. by rewrite app_nil_r.
  - eexists. split; [done|]. repeat constructor. simpl. apply HP.
Qed.

Lemma wo_bind {A B} P (c : stx (G * World) exec_exc A) (k : A -> stx (G * World) exec_exc B) :
  writes_only P c -> (forall a, writes_only P (k a)) -> writes_only P (sbind c k).
Proof.
  intros Hc Hk g w. unfold sbind. specialize (Hc g w).
  destruct (c (g, w)) as [[g' w'] [a|e]] eqn:E; simpl in *; [|done].
  eapply journal_ext_trans; [exact Hc|apply Hk].
Qed.

Lemma wo_get P : writes_only (G:=G) P sget.
Proof. intros g w. apply journal_ext_refl. Qed.
Lemma wo_ret {A} P (a : A) : writes_only (G:=G) P (sret a).
Proof. intros g w. apply journal_ext_refl. Qed.
Lemma wo_raise {A} P e : writes_only (G:=G) (A:=A) P (sraise e).
Proof. intros g w. apply journal_ext_refl. Qed.
Lemma wo_lift {A} P (c : exec A) : writes_only (G:=G) P (slift c).
Proof. intros g w. apply journal_ext_refl. Qed.
Lemma wo_mod P (f : G -> G) :
  writes_only P (smod (fun s : G * World => (f (fst s), snd s))).
Proof. intros g w. apply journal_ext_refl. Qed.
Lemma wo_now P : writes_only (G:=G) P read_now.
Proof. intros g w. apply journal_ext_tick. Qed.
Lemma wo_weaken {A} (P Q : record -> Prop) (c : stx (G * World) exec_exc A) :
  (forall r, P r -> Q r) -> writes_only P c -> writes_only Q c.
Proof. intros HPQ Hc g w. eapply journal_ext_weaken; [exact HPQ|apply Hc]. Qed.
End StoreLemmas.

#[export] Hint Resolve wo_get wo_ret wo_raise wo_lift wo_mod wo_now : exec.

(** Closed goals about concrete key lists. *)
Ltac key_side :=
  solve [ apply (bool_decide_unpack _); vm_compute; exact I
        | simpl; repeat (constructor; [set_solver|]); constructor
        | set_solver ].

Lemma gateway_note_record ts m ev fs cid :
  ev ∈ GATEWAY_EVENTS -> dget fs "client_id" = Some (JStr cid) ->
  NoDup (dkeys fs) -> "ts" ∉ dkeys fs -> "mode" ∉ dkeys fs -> "event" ∉ dkeys fs ->
  gateway_note cid (mk_record ts m ev fs).
Proof.
  intros Hev Hc Hnd H1 H2 H3. split.
  - rewrite mk_record_get, Hc by (done || key_side). done.
  - exists ev. split; [|done]. by apply mk_record_head.
Qed.

#[global] Instance paper_laws `{Env} (creds : KisCredentials) :
  GatewayLaws PaperState (H := PaperGateway creds).
Proof.
  split.
  - intros o q. apply wo_bind; [auto with exec|intros s]. cbv zeta.
    destruct (simulate_paper_fills (intent o) q) as [f a].
    repeat (apply wo_bind; [auto with exec|intros ?]); auto with exec.
    + apply (wo_mod _ (fun g => mkPaper (pg_seq (fst s) + 1) (pg_book g))).
    + apply wo_append. intros ts m. apply gateway_note_record; simpl; try done; key_side.
    + apply (wo_mod _ (fun g => mkPaper (pg_seq g) (dset (pg_book g) _ _))).
  - intros o q s s' out Hs. cbn in Hs. unfold paper_submit, sbind, sget, smod, slift, sret in Hs.
    repeat (hmatch Hs; simplify_eq/=). left. eauto.
  - intros o. apply wo_bind; [auto with exec|intros s]. cbv zeta.
    destruct (dget _ _) as [e|]; [|auto with exec].
    destruct (_ =? _); [auto with exec|].
    repeat (apply wo_bind; [auto with exec|intros ?]); auto with exec.
    + apply (wo_mod _ (fun g => mkPaper (pg_seq g) (dset (pg_book g) _ _))).
    + apply wo_append. intros ts m. apply gateway_note_record; simpl; try done; key_side.
  - intros g w. apply journal_ext_refl.
  - intros sym p t g w. apply journal_ext_refl.
Qed.

(** What the live gateway relies on of its client. *)
Class LiveClientLaws (C : Type) `{LiveOrderClient C} := {
  lcl_outcome : forall tr body c c' out,
    lc_post_order tr body c = (c', Ok out) -> ids_iff_accepted out
}.

Lemma wo_on_client {C A} P (c : stx C exec_exc A) : writes_only P (on_client c).
Proof. intros g w. unfold on_client. simpl. destruct (c g). apply journal_ext_refl. Qed.
#[export] Hint Resolve wo_on_client : exec.

#[global] Instance live_laws `{Env} (creds : KisCredentials) {C} `{LiveClientLaws C} mode :
  GatewayLaws C (H := LiveGateway creds mode).
Proof.
  split.
  - intros o q. cbn. unfold live_submit. repeat (apply wo_bind; [auto with exec|intros ?]); auto with exec.
    apply wo_append. intros ts m. apply gateway_note_record; simpl; try done; key_side.
  - intros o q s s' out Hs. cbn in Hs. unfold live_submit, sbind, slift in Hs.
    destruct (wire_tr_id _ _) as [wire|]; [|done].
    destruct (append _ _ s) as [s1 [[]|]]; [|done].
    unfold on_client in Hs. destruct (lc_post_order _ _ _) as [c' r] eqn:E. simplify_eq.
    by eapply lcl_outcome.
  - intros o. cbn. unfold live_cancel. repeat (apply wo_bind; [auto with exec|intros ?]); auto with exec.
    apply wo_append. intros ts m. apply gateway_note_record; simpl; try done; key_side.
  - cbn. apply wo_bind; auto with exec.
  - intros sym p t. cbn. apply wo_on_client.
Qed.

#[global] Instance kis_client_laws repr venue : LiveClientLaws KisClient (H := kis_client repr venue).
Proof.
  split. intros tr body c c' out. cbn. unfold kis_post.
  destruct (kc_posts c) as [|rs rest]; [done|].
  destruct (post_order repr rs) as [[r n]|] eqn:E; intros; simplify_eq.
  by eapply post_loop_broker.
Qed.

(** ** The paper fill model *)

(** A level the order may take. *)
Definition eligible (sd : Side) (limit : option Z) (p : Z) : bool :=
  match limit, sd with
  | Some l, BUY => p <=? l
  | Some l, SELL => l <=? p
  | None, _ => true
  end.

(** Best price first: asks ascending, bids descending. *)
Definition better (sd : Side) (a b : Z * Z) : Prop :=
  match sd with BUY => fst a <= fst b | SELL => fst b <= fst a end.

Definition depth (sd : Side) (limit : option Z) (levels : list (Z * Z)) : Z :=
  zsum (map snd (List.filter (fun l => eligible sd limit (fst l)) levels)).

(** The amount is at the limit or better. *)
Definition within_limit (sd : Side) (limit : option Z) (filled amount : Z) : Prop :=
  match limit, sd with
  | Some l, BUY => amount <= l * filled
  | Some l, SELL => l * filled <= amount
  | None, _ => True
  end.

Lemma depth_nonneg sd lim levels :
  Forall (fun l => 0 <= snd l) levels -> 0 <= depth sd lim levels.
Proof.
  intros HF. apply zsum_nonneg, Forall_map. apply Forall_forall. intros x Hx.
  rewrite Forall_forall in HF. apply HF. apply list_elem_of_In.
  apply list_elem_of_In, List.filter_In in Hx. apply Hx.
Qed.

Lemma depth_ineligible sd lim x levels :
  eligible sd lim (fst x) = false -> Forall (better sd x) levels -> depth sd lim levels = 0.
Proof.
  intros He HF. unfold depth. induction HF as [|y levels Hb HF IH]; [done|]. cbn [List.filter].
  replace (eligible sd lim (fst y)) with false; [exact IH|].
  destruct lim as [l|]; [|done]. destruct sd; simpl in *; bprop; symmetry; apply Z.leb_gt; lia.
Qed.

Lemma sweep_spec sd lim levels : forall rem f a,
  0 < rem -> Forall (fun l => 0 <= snd l) levels -> StronglySorted (better sd) levels ->
  exists n m, sweep sd lim rem f a levels = (f + n, a + m) /\
    n = Z.min rem (depth sd lim levels) /\ within_limit sd lim n m.
Proof.
  induction levels as [|[p sz] levels IH]; intros rem f a Hr HF HS.
  - exists 0, 0. simpl. rewrite !Z.add_0_r. split; [done|]. unfold depth; simpl.
    split; [lia|]. unfold within_limit. destruct lim, sd; lia.
  - apply Forall_cons in HF as [Hsz HF]; simpl in Hsz.
    apply StronglySorted_inv in HS as [HS Hb]. cbn [sweep].
    replace (match lim, sd with Some l, BUY => l <? p | Some l, SELL => p <? l | None, _ => false end)
      with (negb (eligible sd lim p))
      by (destruct lim, sd; simpl; rewrite <- ?Z.ltb_antisym; done).
    destruct (eligible sd lim p) eqn:He; simpl.
    2: { exists 0, 0. rewrite !Z.add_0_r. split; [done|].
         split; [|destruct lim, sd; simpl; lia].
         unfold depth. cbn [List.filter fst]. rewrite He.
         pose proof (depth_ineligible sd lim (p, sz) levels He Hb) as Hd. unfold depth in Hd. lia. }
    assert (Hdp : depth sd lim ((p, sz) :: levels) = sz + depth sd lim levels)
      by (unfold depth; cbn [List.filter fst]; rewrite He; done).
    assert (Hw : forall n m, within_limit sd lim n m -> forall k, 0 <= k ->
                 within_limit sd lim (k + n) (k * p + m)).
    { intros n m Hwl k Hk. unfold within_limit, eligible in *. destruct lim, sd; bprop; nia. }
    pose proof (depth_nonneg sd lim levels HF) as Hdn.
    destruct (rem - Z.min rem sz =? 0) eqn:E0; bprop.
    + exists (Z.min rem sz + 0), (Z.min rem sz * p + 0). split; [f_equal; lia|]. split; [lia|].
      apply Hw; [destruct lim, sd; simpl; lia|lia].
    + destruct (IH (rem - Z.min rem sz) (f + Z.min rem sz) (a + Z.min rem sz * p))
        as (n & m & -> & Hn & Hwl); [lia|done|done|].
      exists (Z.min rem sz + n), (Z.min rem sz * p + m). split; [f_equal; lia|]. split; [lia|].
      apply Hw; [done|lia].
Qed.

Definition book_side (i : OrderIntent) (q : Quote) : list (Z * Z) :=
  match side i with BUY => asks q | SELL => bids q end.
Definition sweep_limit (i : OrderIntent) : option Z :=
  match order_type i with LIMIT => limit_price i | MARKET => None end.

(** The paper fill model against its specification: on a book sorted best
    price first, an order is filled for exactly the smaller of its quantity and
    the size resting at its limit or better, and what it pays or receives is
    never worse than its limit. *)
Theorem paper_fill_exact i q :
  0 < qty i -> Forall (fun l => 0 <= snd l) (book_side i q) ->
  StronglySorted (better (side i)) (book_side i q) ->
  exists amount,
    simulate_paper_fills i q =
      (Z.min (qty i) (depth (side i) (sweep_limit i) (book_side i q)), amount) /\
    within_limit (side i) (sweep_limit i)
      (Z.min (qty i) (depth (side i) (sweep_limit i) (book_side i q))) amount.
Proof.
  intros Hq HF HS. unfold simulate_paper_fills.
  destruct (sweep_spec (side i) (sweep_limit i) (book_side i q) (qty i) 0 0 Hq HF HS)
    as (n & m & He & -> & Hw).
  exists m. split; [exact He|exact Hw].
Qed.

(** A buy of 15 at 70,100 against three ask levels. *)
Definition demo_buy : OrderIntent :=
  {| symbol := "005930"; side := BUY; qty := 15; order_type := LIMIT;
     limit_price := Some 70100; tag := "" |}.
Definition demo_quote : Quote :=
  {| q_symbol := "005930"; last := 70000; upper_limit := 91000; lower_limit := 49000; tick := 100;
     halted := false; asks := [(70000, 5); (70100, 7); (70200, 100)]; bids := [(69900, 10)] |}.

Lemma paper_fill_exact_witness :
  exists amount, simulate_paper_fills demo_buy demo_quote = (12, amount) /\ amount <= 70100 * 12.
Proof.
  apply (paper_fill_exact demo_buy demo_quote).
  - reflexivity.
  - repeat (constructor; [simpl; lia|]). constructor.
  - repeat constructor; simpl; lia.
Defined.
