(* ===== verification/ExecRecovery.v ===== *)
(** * Session recovery ([src/execution/recovery.py])

    Rebuilding the orders, the sequence number, the submit times and the ledger
    of the day from the journal's records, and comparing positions with the
    broker's holdings. *)
From Stdlib Require Import Ascii.
From S2P Require Import Prelude PyStr PyTime PyFloat ExecContracts ExecLedger ExecJournal KisTrading.

Record RecoveredSession := mkRecovered {
  rs_orders : list (string * Order);
  rs_next_seq : Z;
  rs_submit_times : list datetime;
  rs_ledger : option Ledger
}.

Definition ORDER_EVENTS : list string :=
  ["submit_result"; "unknown_adopted"; "unknown_resolved"; "fill"; "status"].

Section Recovery.
(** [repr] of a JSON value and [datetime.fromisoformat] ([None]: [ValueError]). *)
Variable repr : json -> string.
Variable fromisoformat : string -> option datetime.

Definition err {A} (msg : string) : exec A := Raise (ExecutionError msg).

(** [rec.get(key)]: a missing key reads as [None]. *)
Definition jget (r : record) (k : string) : json := default JNull (dget r k).

Definition pstr (v : json) : string := py_str repr v.

Definition parse_ts (raw : json) : exec datetime :=
  match fromisoformat (pstr raw) with
  | None => err (String.append "invalid journal ts: " (repr raw))
  | Some d => if is_aware d then Ok d else err "journal timestamp must be timezone-aware"
  end.

Definition seq_of (cid : json) : exec Z :=
  match after_last "-"%char (s2l (pstr cid)) with
  | None => err (String.append "invalid client_id: " (repr cid))
  | Some suffix =>
      match parse_nat suffix with
      | Some n => Ok n
      | None => err (String.append "non-numeric client_id suffix: " (repr cid))
      end
  end.

Definition integer (raw : json) : exec Z :=
  match raw with
  | JInt z => Ok z
  | JStr s =>
      match py_int (s2l s) with
      | Some z => Ok z
      | None => err (String.append "invalid journal integer: " (repr raw))
      end
  | _ => err (String.append "journal value must be an integer: " (repr raw))
  end.

(** [raw[key]] inside a handler that turns [KeyError] into the given error. *)
Definition need (msg : string -> string) (r : record) (k : string) : exec json :=
  match dget r k with
  | Some v => Ok v
  | None => err (msg k)
  end.

Definition bad_intent (detail : string) : string := String.append "invalid intent record: " detail.
Definition missing_intent_key (k : string) : string :=
  bad_intent (String.append "'" (String.append k "'")).

(** [Side(str(v))] and [OrderType(str(v))]. *)
Definition need_enum {A} (name : string) (of_value : string -> option A) (v : json) : exec A :=
  match of_value (pstr v) with
  | Some a => Ok a
  | None => err (bad_intent (String.append (repr (JStr (pstr v)))
                               (String.append " is not a valid " name)))
  end.

Definition intent_of (raw : json) : exec OrderIntent :=
  match raw with
  | JObj r =>
      (sym <~ need missing_intent_key r "symbol";;
       sd0 <~ need missing_intent_key r "side";;
       sd <~ need_enum "Side" side_of_value sd0;;
       q0 <~ need missing_intent_key r "qty";;
       q <~ integer q0;;
       ty0 <~ need missing_intent_key r "order_type";;
       ty <~ need_enum "OrderType" order_type_of_value ty0;;
       lp <~ match jget r "limit_price" with
             | JNull => Ok None
             | v => (z <~ integer v;; Ok (Some z))
             end;;
       Ok {| symbol := pstr sym; side := sd; qty := q; order_type := ty; limit_price := lp;
             tag := pstr (default (JStr "") (dget r "tag")) |})%py
  | _ => err "invalid intent record"
  end.

(** An optional string field taken over as it is. The journal only ever holds
    strings and [null] there; another JSON type is outside [Order]'s fields. *)
Definition opt_text (v : json) : exec (option string) :=
  match v with
  | JNull => Ok None
  | JStr s => Ok (Some s)
  | _ => Raise (ForeignError "untyped broker field")
  end.

(** [str(x or "") or None]. *)
Definition text_or_none (v : json) : option string :=
  let s := if truthy v then pstr v else "" in
  if decide (s = "") then None else Some s.

(** ** One record replayed on an order *)

Definition invalid_status (v : json) : exec_exc :=
  ExecutionError (String.append "invalid status: " (repr v)).

Definition status_of (v : json) : exec OrderStatus :=
  match status_of_value (pstr v) with Some s => Ok s | None => Raise (invalid_status v) end.

Definition replay_submit (r : record) (o : Order) : exec Order :=
  (st <~ status_of (jget r "status");;
   match jget r "outcome" with
   | JObj out =>
       no <~ opt_text (jget out "broker_order_no");;
       org <~ opt_text (jget out "broker_org_no");;
       tm <~ opt_text (jget out "order_time");;
       let o := set_broker no org tm (set_status st o) in
       Ok (if decide (st = REJECTED)
           then set_reject (text_or_none (jget out "code")) (text_or_none (jget out "message")) o
           else set_reject None None o)
   | _ => err "invalid submit_result outcome"
   end)%py.

Definition replay_adopt (r : record) (o : Order) : exec Order :=
  (no <~ opt_text (jget r "broker_order_no");;
   org <~ opt_text (jget r "broker_org_no");;
   tm <~ opt_text (jget r "order_time");;
   Ok (set_broker no org tm o))%py.

Definition replay_fill (r : record) (o : Order) : exec Order :=
  match dget r "cumulative_amount_krw" with
  | None => err "fill without cumulative_amount_krw"
  | Some a0 =>
      (q0 <~ need (fun _ => "invalid fill record") r "cumulative_qty";;
       q <~ integer q0;;
       a <~ integer a0;;
       dq0 <~ need (fun _ => "invalid fill record") r "delta_qty";;
       dq <~ integer dq0;;
       da0 <~ need (fun _ => "invalid fill record") r "delta_amount_krw";;
       da <~ integer da0;;
       if negb ((filled_qty o <? q) && (q <=? qty (intent o)))
          || (a <? filled_amount_krw o)
          || negb (dq =? q - filled_qty o)
          || negb (da =? a - filled_amount_krw o)
       then err "inconsistent cumulative fill"
       else Ok (set_filled q a o))%py
  end.

Definition replay_status (r : record) (o : Order) : exec Order :=
  (st <~ status_of (jget r "status");;
   match dget r "filled_qty" with
   | None => Ok (set_status st o)
   | Some v =>
       q <~ integer v;;
       if q =? filled_qty o then Ok (set_status st o)
       else err "status quantity without matching fill"
   end)%py.

(** The effect of an event on its order; other events leave it alone. *)
Definition replay_event (ev : string) (r : record) (o : Order) : exec Order :=
  if decide (ev = "submit_result") then replay_submit r o
  else if decide (ev = "unknown_adopted") then replay_adopt r o
  else if decide (ev = "unknown_resolved")
  then Ok (set_reject (Some "unknown_resolved") (text_or_none (jget r "reason"))
             (set_status REJECTED o))
  else if decide (ev = "fill") then replay_fill r o
  else if decide (ev = "status") then replay_status r o
  else Ok o.

(** The second pass of [restore_session] on one record. *)
Definition replay1 (orders : list (string * Order)) (r : record) : exec (list (string * Order)) :=
  match jget r "event" with
  | JArr _ | JObj _ => Raise (ForeignError "TypeError")
  | ev =>
  if jis (Some ev) "intent"
  then
    let cid := pstr (jget r "client_id") in
    if dmem orders cid then err (String.append "duplicate intent: " cid)
    else
      (_ <~ seq_of (JStr cid);;
       i <~ intent_of (jget r "intent");;
       t <~ parse_ts (jget r "ts");;
       Ok (dset orders cid (mkOrder cid i PENDING_SUBMIT t None None None 0 0 None None)))%py
  else if existsb (jis (Some ev)) ORDER_EVENTS
          || (dmem r "client_id" && negb (jis (Some ev) "risk_reject"))
  then
    (_ <~ seq_of (jget r "client_id");;
     match dget orders (pstr (jget r "client_id")) with
     | None => err (String.append "order event without intent: " (repr (jget r "client_id")))
     | Some o =>
         o' <~ replay_event (match ev with JStr e => e | _ => "" end) r o;;
         Ok (dset orders (pstr (jget r "client_id")) o')
     end)%py
  else Ok orders
  end.

Fixpoint replay (orders : list (string * Order)) (rs : list record) : exec (list (string * Order)) :=
  match rs with
  | [] => Ok orders
  | r :: rs' => (o <~ replay1 orders r;; replay o rs')%py
  end.

(** The first pass: the highest sequence number and the submit times. *)
Definition scan1 (acc : Z * list datetime) (r : record) : exec (Z * list datetime) :=
  let ev := jget r "event" in
  (n <~ (if jis (Some ev) "intent" || jis (Some ev) "risk_reject"
         then (k <~ seq_of (jget r "client_id");; Ok (Z.max (fst acc) k))
         else Ok (fst acc));;
   if jis (Some ev) "intent"
   then (t <~ parse_ts (jget r "ts");; Ok (n, snd acc ++ [t]))
   else Ok (n, snd acc))%py.

Fixpoint scan (acc : Z * list datetime) (rs : list record) : exec (Z * list datetime) :=
  match rs with
  | [] => Ok acc
  | r :: rs' => (a <~ scan1 acc r;; scan a rs')%py
  end.

(** [PENDING_SUBMIT] with no recorded result may have reached the broker. *)
Definition settle_pending (o : Order) : Order :=
  if decide (status o = PENDING_SUBMIT) then set_status UNKNOWN o else o.

(** ** The ledger *)

(** The holdings snapshot of the earliest [session_start]. *)
Fixpoint snapshot_positions (rows : list json) (acc : list (string * Position))
    : exec (list (string * Position)) :=
  match rows with
  | [] => Ok acc
  | JObj row :: rows' =>
      (sym0 <~ need (fun _ => "invalid holdings snapshot") row "symbol";;
       q0 <~ need (fun _ => "invalid holdings snapshot") row "qty";;
       q <~ integer q0;;
       c0 <~ need (fun _ => "invalid holdings snapshot") row "cost_krw";;
       c <~ integer c0;;
       let sym := pstr sym0 in
       if (q <? 0) || (c <? 0) || dmem acc sym then err "inconsistent holdings snapshot"
       else snapshot_positions rows' (dset acc sym (mkPos q c)))%py
  | _ :: _ => err "invalid holdings snapshot"
  end.

(** The fills applied again in journal order. *)
Fixpoint replay_fills (rs : list record) (orders : list (string * Order)) (l : Ledger)
    : exec Ledger :=
  match rs with
  | [] => Ok l
  | r :: rs' =>
      if jis (dget r "event") "fill"
      then match dget orders (pstr (jget r "client_id")) with
           | None => Raise (ForeignError "KeyError")
           | Some o =>
               (dq <~ integer (jget r "delta_qty");;
                da <~ integer (jget r "delta_amount_krw");;
                lr <~ apply_fill l (symbol (intent o)) (side (intent o)) dq da;;
                replay_fills rs' orders (fst lr))%py
           end
      else replay_fills rs' orders l
  end.

Definition replay_ledger (rs : list record) (orders : list (string * Order)) (costs : CostModel)
    : exec (option Ledger) :=
  match List.find (fun r => jis (dget r "event") "session_start") rs with
  | None => Ok None
  | Some first =>
      match dget first "holdings" with
      | Some (JArr rows) =>
          (ps <~ snapshot_positions rows [];;
           l <~ replay_fills rs orders (new_ledger 0 costs ps);;
           Ok (Some l))%py
      | _ => err "earliest session_start lacks holdings"
      end
  end.

(** ** [restore_session] *)

Definition restore_session (rs : list record) (m : ExecutionMode) (costs : CostModel)
    : exec RecoveredSession :=
  (a <~ scan (0, []) rs;;
   match m with
   | PAPER => Ok (mkRecovered [] (fst a) (snd a) None)
   | _ =>
       orders <~ replay [] rs;;
       let orders := map (fun kv => (fst kv, settle_pending (snd kv))) orders in
       l <~ replay_ledger rs orders costs;;
       Ok (mkRecovered orders (fst a) (snd a) l)
   end)%py.

End Recovery.

(** ** [position_diffs] *)

Fixpoint dedup_sorted (l : list string) : list string :=
  match l with
  | a :: ((b :: _) as l') => if decide (a = b) then dedup_sorted l' else a :: dedup_sorted l'
  | _ => l
  end.

Definition broker_map (hs : list Holding) : list (string * Z) :=
  fold_left (fun d h => dset d (h_symbol h) (h_qty h)) hs [].

(** [sorted(set(ledger.positions) | set(broker))]. *)
Definition diff_symbols (l : Ledger) (hs : list Holding) : list string :=
  dedup_sorted (py_sorted str_leb (dkeys (positions l) ++ dkeys (broker_map hs))).

Definition position_diffs (l : Ledger) (hs : list Holding) : list (string * Z * Z) :=
  omap (fun s => let left := ledger_qty l s in
                 let right := default 0 (dget (broker_map hs) s) in
                 if left =? right then None else Some (s, left, right))
    (diff_symbols l hs).

(** ** Lemmas *)

Lemma elem_dedup_sorted x l : x ∈ dedup_sorted l <-> x ∈ l.
Proof.
  induction l as [|a l IH]; [done|]. destruct l as [|b l]; [done|].
  cbn [dedup_sorted]. case_decide as E.
  - subst b. rewrite IH. rewrite !elem_of_cons. naive_solver.
  - rewrite !elem_of_cons, IH, elem_of_cons. done.
Qed.

Lemma elem_diff_symbols x l hs :
  x ∈ diff_symbols l hs <-> x ∈ dkeys (positions l) \/ x ∈ dkeys (broker_map hs).
Proof. unfold diff_symbols. by rewrite elem_dedup_sorted, py_sorted_elem, elem_of_app. Qed.

(** The symbols with a difference are exactly those whose quantities differ. *)
Lemma position_diffs_spec l hs sym lq bq :
  (sym, lq, bq) ∈ position_diffs l hs <->
  lq = ledger_qty l sym /\ bq = default 0 (dget (broker_map hs) sym) /\ lq <> bq.
Proof.
  unfold position_diffs. rewrite list_elem_of_omap. split.
  - intros (x & Hx & Hd). destruct (_ =? _) eqn:E in Hd; [done|]. simplify_eq. bprop. auto.
  - intros (-> & -> & Hne). exists sym.
    rewrite (proj2 (Z.eqb_neq _ _) Hne). split; [|done].
    apply elem_diff_symbols. unfold ledger_qty in Hne.
    destruct (dget (positions l) sym) as [p|] eqn:Ep.
    + left. apply dget_elem in Ep. apply list_elem_of_fmap. by exists (sym, p).
    + right. destruct (dget (broker_map hs) sym) as [z|] eqn:Eb; [|done].
      apply dget_elem in Eb. apply list_elem_of_fmap. by exists (sym, z).
Qed.

Lemma position_diffs_nil l hs :
  position_diffs l hs = [] <-> forall sym, ledger_qty l sym = default 0 (dget (broker_map hs) sym).
Proof.
  split.
  - intros Hn sym. destruct (decide (ledger_qty l sym = default 0 (dget (broker_map hs) sym)))
      as [|Hne]; [done|]. exfalso.
    assert (Hin : (sym, ledger_qty l sym, default 0 (dget (broker_map hs) sym)) ∈ position_diffs l hs)
      by (by apply position_diffs_spec).
    rewrite Hn in Hin. by apply elem_of_nil in Hin.
  - intros He. destruct (position_diffs l hs) as [|[[s lq] bq] ds] eqn:E; [done|]. exfalso.
    assert (Hin : (s, lq, bq) ∈ position_diffs l hs) by (rewrite E; left).
    apply position_diffs_spec in Hin as (-> & -> & Hne). by apply Hne.
Qed.
