(* ===== verification/ExecOms.v ===== *)
(** * The order manager ([src/execution/oms.py])

    [OrderManager] as a state over a gateway: submission behind the risk gate,
    cancellation, the operator override for unknown orders, the reconciliation
    loop against the broker's cumulative fills, and waiting for a terminal
    status. *)
From S2P Require Import Prelude PyStr PyTime PyFloat ExecContracts ExecLedger ExecRisk ExecJournal.
From S2P Require Import KisTrading ExecGateways.

(** ** State *)

(** What else the manager asks of its surroundings, by reading number: the quote
    source, the kill-switch file and the monotonic clock. *)
Class OmsEnv := {
  quote_at : nat -> string -> exec Quote;
  kill_at : nat -> bool;
  mono_at : nat -> pyfloat
}.

(** The attributes of [OrderManager]; [om_released] counts the [on_close] calls. *)
Record Oms (G : Type) := mkOms {
  om_gw : G;
  om_world : World;
  om_orders : list (string * Order);
  om_seq : Z;
  om_submit_times : list datetime;
  om_block : option string;
  om_closed : bool;
  om_released : nat
}.
Arguments mkOms {G}.
Arguments om_gw {G}. Arguments om_world {G}. Arguments om_orders {G}. Arguments om_seq {G}.
Arguments om_submit_times {G}. Arguments om_block {G}. Arguments om_closed {G}.
Arguments om_released {G}.

Section Setters.
Context {G : Type}.
Definition set_store (p : G * World) (s : Oms G) : Oms G :=
  mkOms (fst p) (snd p) (om_orders s) (om_seq s) (om_submit_times s) (om_block s) (om_closed s)
    (om_released s).
Definition set_orders (o : list (string * Order)) (s : Oms G) : Oms G :=
  mkOms (om_gw s) (om_world s) o (om_seq s) (om_submit_times s) (om_block s) (om_closed s)
    (om_released s).
Definition set_seq (n : Z) (s : Oms G) : Oms G :=
  mkOms (om_gw s) (om_world s) (om_orders s) n (om_submit_times s) (om_block s) (om_closed s)
    (om_released s).
Definition add_submit_time (t : datetime) (s : Oms G) : Oms G :=
  mkOms (om_gw s) (om_world s) (om_orders s) (om_seq s) (om_submit_times s ++ [t]) (om_block s)
    (om_closed s) (om_released s).
Definition set_block (r : option string) (s : Oms G) : Oms G :=
  mkOms (om_gw s) (om_world s) (om_orders s) (om_seq s) (om_submit_times s) r (om_closed s)
    (om_released s).
Definition set_closed (s : Oms G) : Oms G :=
  mkOms (om_gw s) (om_world s) (om_orders s) (om_seq s) (om_submit_times s) (om_block s) true
    (S (om_released s)).

(** Attribute assignment on the order object registered under [cid]. *)
Definition upd_order (cid : string) (f : Order -> Order) (s : Oms G) : Oms G :=
  match dget (om_orders s) cid with
  | Some o => set_orders (dset (om_orders s) cid (f o)) s
  | None => s
  end.
End Setters.

Definition is_open (o : Order) : bool :=
  bool_decide (status o ∈ [PENDING_SUBMIT; ACCEPTED; PARTIALLY_FILLED; UNKNOWN]).

(** Open orders on a symbol and the quantity they may still trade. *)
Definition open_on (orders : list (string * Order)) (sym : string) : list Order :=
  List.filter (fun o => is_open o && bool_decide (symbol (intent o) = sym)) (dvalues orders).

Definition open_qty (orders : list (string * Order)) (sym : string) (sd : Side) : Z :=
  zsum (map remaining_qty
         (List.filter (fun o => bool_decide (side (intent o) = sd)) (open_on orders sym))).

Definition UNKNOWN_MATCH_SKEW : Z := 5 * us_per_s.

(** [f"{mode}-{now:%Y%m%d}-{seq:06d}"]. *)
Definition mk_client_id (m : ExecutionMode) (t : datetime) (seq : Z) : string :=
  String.append (mode_value m)
    (String.append "-" (String.append (strftime_ymd (date_of t))
       (String.append "-" (str_pad 6 seq)))).

(** ** The fields of the journal records *)

Definition risk_reject_fields (cid : string) (i : OrderIntent) (c : RejectCode) (detail : string)
    (q : Quote) : record :=
  [("client_id", JStr cid); ("intent", intent_json i); ("code", JStr (reject_value c));
   ("detail", JStr detail); ("quote", quote_json q)].
Definition intent_fields (cid : string) (i : OrderIntent) (q : Quote) (ref : Z) : record :=
  [("client_id", JStr cid); ("intent", intent_json i); ("quote", quote_json q);
   ("reference_price", JInt ref)].
Definition submit_result_fields (cid : string) (out : BrokerOutcome) (st : OrderStatus)
    (pretrade gateway : pyfloat) : record :=
  [("client_id", JStr cid); ("outcome", outcome_json out); ("status", JStr (status_value st));
   ("pretrade_ms", JFloat pretrade); ("gateway_ms", JFloat gateway)].
Definition cancel_result_fields (cid : string) (out : BrokerOutcome) : record :=
  [("client_id", JStr cid); ("outcome", outcome_json out)].
Definition adopted_fields (cid : string) (b : BrokerOrderStatus) : record :=
  [("client_id", JStr cid); ("broker_order_no", JStr (b_order_no b));
   ("broker_org_no", JStr (org_no b)); ("order_time", JStr (order_time b))].
Definition ambiguous_fields (cid : string) (cands : list BrokerOrderStatus) : record :=
  [("client_id", JStr cid); ("candidates", JArr (map (fun c => JStr (b_order_no c)) cands))].
Definition violation_fields (o : Order) (b : BrokerOrderStatus) : record :=
  [("client_id", JStr (client_id o)); ("broker_filled_qty", JInt (b_filled_qty b));
   ("local_filled_qty", JInt (filled_qty o))].
Definition delta_qty (o : Order) (b : BrokerOrderStatus) : Z := b_filled_qty b - filled_qty o.
Definition delta_amount (o : Order) (b : BrokerOrderStatus) : Z :=
  b_filled_amount_krw b - filled_amount_krw o.
Definition fill_fields (o : Order) (b : BrokerOrderStatus) : record :=
  [("client_id", JStr (client_id o)); ("delta_qty", JInt (delta_qty o b));
   ("delta_amount_krw", JInt (delta_amount o b)); ("cumulative_qty", JInt (b_filled_qty b));
   ("cumulative_amount_krw", JInt (b_filled_amount_krw b))].
Definition evidence (b : BrokerOrderStatus) (child : bool) : json :=
  JObj [("cncl_yn", JBool (cancelled b)); ("cancel_child", JBool child);
        ("rmn_qty", JInt (b_remaining_qty b)); ("rejected_qty", JInt (rejected_qty b))].
Definition status_fields (o : Order) (st : OrderStatus) (b : BrokerOrderStatus) (child : bool)
    : record :=
  [("client_id", JStr (client_id o)); ("status", JStr (status_value st));
   ("filled_qty", JInt (b_filled_qty b)); ("evidence", evidence b child)].
Definition resolved_fields (cid reason : string) : record :=
  [("client_id", JStr cid); ("reason", JStr reason)].

Definition new_order (cid : string) (i : OrderIntent) (st : OrderStatus) (t : datetime)
    (rc rm : option string) : Order :=
  mkOrder cid i st t None None None 0 0 rc rm.

(** The order after the gateway's answer. *)
Definition apply_outcome (out : BrokerOutcome) (o : Order) : exec Order :=
  match kind out with
  | OUT_ACCEPTED =>
      (st <~ transition (status o) ACCEPTED;;
       Ok (set_broker (o_order_no out) (o_org_no out) (o_order_time out) (set_status st o)))%py
  | OUT_REJECTED =>
      (st <~ transition (status o) REJECTED;;
       Ok (set_reject (Some (code out)) (Some (message out)) (set_status st o)))%py
  | OUT_UNKNOWN => (st <~ transition (status o) UNKNOWN;; Ok (set_status st o))%py
  end.

Section Manager.
Context `{Env} `{OmsEnv} {G : Type} `{OrderGateway G}.
Context (limits : RiskLimits) (ccosts : CostModel).

Abbreviation M := (stx (Oms G) exec_exc).

(** A store operation (gateway, clock, journal) run on the manager's store. *)
Definition on_store {A} (c : stx (G * World) exec_exc A) : M A :=
  fun s => let '(p, r) := c (om_gw s, om_world s) in (set_store p s, r).

(** One reading of a surrounding. *)
Definition ask {A} (f : nat -> A) : M A :=
  fun s => (set_store (om_gw s, tick_clock (om_world s)) s, Ok (f (w_clock (om_world s)))).

Definition ensure_open : M unit :=
  fun s => (s, if om_closed s then Raise (ExecutionError "order session is closed") else Ok tt).

(** [block_submits] and [close]. *)
Definition block_submits (reason : string) : M unit := smod (set_block (Some reason)).
Definition close : M unit := fun s => (if om_closed s then s else set_closed s, Ok tt).

(** ** Submission *)

Definition risk_context (s : Oms G) (i : OrderIntent) (kill : bool) (orderable est : Z)
    (t : datetime) : RiskContext :=
  {| kill_switch := kill;
     unknown_pending :=
       existsb (fun o => bool_decide (status o = UNKNOWN) && bool_decide (side (intent o) = side i))
         (open_on (om_orders s) (symbol i));
     orders_last_minute :=
       Z.of_nat (length (List.filter (fun x => instant t - 60 * us_per_s <? instant x)
                           (om_submit_times s)));
     ctx_realized_pnl_krw := realized_pnl_krw (w_ledger (om_world s));
     position_qty := ledger_qty (w_ledger (om_world s)) (symbol i);
     open_buy_qty := open_qty (om_orders s) (symbol i) BUY;
     open_sell_qty := open_qty (om_orders s) (symbol i) SELL;
     orderable_cash_krw := orderable;
     est_commission_krw := est;
     submit_block_reason := om_block s |}.

(** The [try] block of [submit]: the reference price of an intent that passed. *)
Definition pre_trade (i : OrderIntent) (q : Quote) : M Z :=
  (ref <- slift (reference_price i q);;
   orderable <- match side i with
                | BUY => on_store (gw_orderable_cash (symbol i) ref (order_type i))
                | SELL => sret 0
                end;;
   t <- ask now;;
   kill <- ask kill_at;;
   s <- sget;;
   est <- slift (commission ccosts (qty i * ref));;
   slift (check_intent i q limits (risk_context s i kill orderable est t));;;
   sret ref)%py.

Definition register (cid : string) (o : Order) : M unit :=
  smod (fun s => set_orders (dset (om_orders s) cid o) s).

(** [except RiskRejectedError]: a local rejection. *)
Definition risk_rejected (cid : string) (i : OrderIntent) (q : Quote) (c : RejectCode)
    (detail : string) : M Order :=
  (t <- ask now;;
   let o := new_order cid i REJECTED t (Some (reject_value c)) (Some detail) in
   register cid o;;;
   on_store (append "risk_reject" (risk_reject_fields cid i c detail q));;;
   sret o)%py.

(** [(b - a) * 1000.0]. *)
Definition elapsed_ms (a b : pyfloat) : pyfloat := fmul (fsub b a) (round_z 1000 0 false).

(** The part of [submit] after the gate. *)
Definition send_order (cid : string) (i : OrderIntent) (q : Quote) (ref : Z) (entry : pyfloat)
    : M Order :=
  (t <- ask now;;
   let o := new_order cid i PENDING_SUBMIT t None None in
   register cid o;;;
   on_store (append "intent" (intent_fields cid i q ref));;;
   st <- ask now;;
   smod (add_submit_time st);;;
   pre_send <- ask mono_at;;
   out <- on_store (gw_submit o q);;
   post_send <- ask mono_at;;
   o' <- slift (apply_outcome out o);;
   smod (upd_order cid (fun _ => o'));;;
   on_store (append "submit_result"
     (submit_result_fields cid out (status o') (elapsed_ms entry pre_send)
        (elapsed_ms pre_send post_send)));;;
   sret o')%py.

(** [try: ... except RiskRejectedError as exc: ...]. *)
Definition catch_risk {A B} (c : M A) (handler : RejectCode -> string -> M B) (k : A -> M B) : M B :=
  fun s =>
    match c s with
    | (s', Ok a) => k a s'
    | (s', Raise (RiskRejectedError rc detail)) => handler rc detail s'
    | (s', Raise e) => (s', Raise e)
    end.

Definition submit (i : OrderIntent) : M Order :=
  (ensure_open;;;
   entry <- ask mono_at;;
   rq <- ask quote_at;;
   q <- slift (rq (symbol i));;
   smod (fun s => set_seq (om_seq s + 1) s);;;
   s <- sget;;
   t <- ask now;;
   let cid := mk_client_id gw_mode t (om_seq s) in
   catch_risk (pre_trade i q) (risk_rejected cid i q) (fun ref => send_order cid i q ref entry))%py.

(** ** Cancellation *)

Definition unknown_client (cid : string) : exec_exc :=
  ExecutionError (String.append "unknown client_id: " cid).

Definition find_order (cid : string) : M Order :=
  fun s => (s, match dget (om_orders s) cid with
               | Some o => Ok o
               | None => Raise (unknown_client cid)
               end).

Definition cancel (cid : string) : M Order :=
  (ensure_open;;;
   o <- find_order cid;;
   if is_terminal (status o) then sret o
   else match broker_order_no o with
        | None => sraise (ExecutionError "cannot cancel without broker order number; reconcile first")
        | Some _ =>
            out <- on_store (gw_cancel o);;
            on_store (append "cancel_result" (cancel_result_fields cid out));;;
            sret o
        end)%py.

(** ** Reconciliation *)

Definition child_parents (statuses : list BrokerOrderStatus) : list string :=
  map original_order_no
    (List.filter (fun s => negb (bool_decide (original_order_no s = ""))
                           && negb (bool_decide (original_order_no s = b_order_no s))) statuses).

Definition by_no (statuses : list BrokerOrderStatus) : list (string * BrokerOrderStatus) :=
  fold_left (fun d s => dset d (b_order_no s) s) statuses [].

Definition known_numbers (orders : list (string * Order)) : list string :=
  omap (fun o => match broker_order_no o with
                 | Some n => if decide (n = "") then None else Some n
                 | None => None
                 end) (dvalues orders).

Definition match_threshold (o : Order) : string :=
  strftime_hhmmss (time_of (astimezone_kst (dt_add (created_at o) (- UNKNOWN_MATCH_SKEW)))).

Definition expected_price (o : Order) : option Z :=
  match order_type (intent o) with LIMIT => limit_price (intent o) | MARKET => Some 0 end.

Definition is_candidate (known : list string) (o : Order) (s : BrokerOrderStatus) : bool :=
  negb (bool_decide (b_order_no s ∈ known))
  && (bool_decide (original_order_no s = "") || bool_decide (original_order_no s = b_order_no s))
  && bool_decide (b_symbol s = symbol (intent o))
  && bool_decide (b_side s = side (intent o))
  && (ordered_qty s =? qty (intent o))
  && bool_decide (Some (price s) = expected_price o)
  && str_leb (match_threshold o) (order_time s).

Definition add_key (k : string) (ks : list string) : list string :=
  if decide (k ∈ ks) then ks else ks ++ [k].

(** One turn of the adoption loop: the known numbers and the changed orders. *)
Definition adopt_one (statuses : list BrokerOrderStatus) (cid : string)
    (acc : list string * list string) : M (list string * list string) :=
  (o <- find_order cid;;
   let '(known, changed) := acc in
   if negb (bool_decide (status o = UNKNOWN)) then sret acc
   else match List.filter (is_candidate known o) statuses with
        | [] => sret acc
        | [b] =>
            smod (upd_order cid (set_broker (Some (b_order_no b)) (Some (org_no b))
                                   (Some (order_time b))));;;
            on_store (append "unknown_adopted" (adopted_fields (client_id o) b));;;
            sret (known ++ [b_order_no b], add_key (client_id o) changed)
        | cands =>
            on_store (append "unknown_ambiguous" (ambiguous_fields (client_id o) cands));;;
            sret acc
        end)%py.

(** [self.ledger.apply_fill(...)] on the shared ledger. *)
Definition ledger_fill (i : OrderIntent) (q a : Z) : M unit :=
  fun s =>
    match apply_fill (w_ledger (om_world s)) (symbol i) (side i) q a with
    | Ok (l, _) => (set_store (om_gw s, set_ledger l (om_world s)) s, Ok tt)
    | Raise e => (s, Raise e)
    end.

(** The ledger and journal entries of a fill. *)
Definition book_fill (o : Order) (b : BrokerOrderStatus) : M unit :=
  (if 0 <? delta_qty o b
   then ledger_fill (intent o) (delta_qty o b) (delta_amount o b);;;
        on_store (append "fill" (fill_fields o b))
   else sret tt)%py.

(** One turn of the fill loop for an order with its broker record. *)
Definition settle_one (parents : list string) (cid : string) (o : Order) (b : BrokerOrderStatus)
    (changed : list string) : M (list string) :=
  (if (b_filled_qty b <? filled_qty o) || (qty (intent o) <? b_filled_qty b)
   then on_store (append "integrity_violation" (violation_fields o b));;;
        sraise (BrokerIntegrityError
                  (String.append "cumulative fill moved backwards or exceeded: "
                     (str_of_Z (b_filled_qty b))))
   else
     let child := bool_decide (default "" (broker_order_no o) ∈ parents) in
     new_status <- slift (derive_status b child);;
     book_fill o b;;;
     smod (upd_order cid (set_filled (b_filled_qty b) (b_filled_amount_krw b)));;;
     st <- slift (transition (status o) new_status);;
     smod (upd_order cid (set_status st));;;
     if negb (bool_decide (st = status o)) || (0 <? delta_qty o b)
     then on_store (append "status" (status_fields o st b child));;;
          sret (add_key (client_id o) changed)
     else sret changed)%py.

Definition reconcile_one (statuses : list BrokerOrderStatus) (cid : string) (changed : list string)
    : M (list string) :=
  (o <- find_order cid;;
   if is_terminal (status o) then sret changed
   else match broker_order_no o with
        | None => sret changed
        | Some no =>
            match dget (by_no statuses) no with
            | None => sret changed
            | Some b => settle_one (child_parents statuses) cid o b changed
            end
        end)%py.

(** A [for] loop over keys threading a local value. *)
Fixpoint for_keys {A} (body : string -> A -> M A) (ks : list string) (a : A) : M A :=
  match ks with
  | [] => sret a
  | k :: ks' => (a' <- body k a;; for_keys body ks' a')%py
  end.

Definition reconcile : M (list Order) :=
  (ensure_open;;;
   statuses <- on_store gw_fetch_statuses;;
   s <- sget;;
   acc <- for_keys (adopt_one statuses) (dkeys (om_orders s)) (known_numbers (om_orders s), []);;
   changed <- for_keys (reconcile_one statuses) (dkeys (om_orders s)) (snd acc);;
   s' <- sget;;
   sret (omap (dget (om_orders s')) changed))%py.

(** ** The operator override *)

Definition resolve_unknown (cid reason : string) : M Order :=
  (ensure_open;;;
   o <- find_order cid;;
   if negb (bool_decide (status o = UNKNOWN))
   then sraise (ExecutionError (String.append "order is "
                  (String.append (status_value (status o)) ", not unknown")))
   else
     reconcile;;;
     o' <- find_order cid;;
     if negb (bool_decide (status o' = UNKNOWN)) || negb (bool_decide (broker_order_no o' = None))
     then sraise (ExecutionError "order matched a broker record; resolve through reconcile/cancel")
     else
       st <- slift (transition (status o') REJECTED);;
       let o2 := set_reject (Some "unknown_resolved") (Some reason) (set_status st o') in
       smod (upd_order cid (fun _ => o2));;;
       on_store (append "unknown_resolved" (resolved_fields cid reason));;;
       sret o2)%py.

(** ** Waiting for a terminal status *)

(** [try: self.reconcile() except KisApiError: log]. *)
Definition reconcile_logged : M unit :=
  fun s =>
    match reconcile s with
    | (s', Ok _) => (s', Ok tt)
    | (s', Raise (KisApiError _ _)) => (s', Ok tt)
    | (s', Raise e) => (s', Raise e)
    end.

(** The [while] loop of [await_terminal]; [None] when the fuel runs out. *)
Fixpoint await_loop (fuel : nat) (cid : string) (start timeout_s : pyfloat) : M (option Order) :=
  match fuel with
  | O => sret None
  | S fuel' =>
      (t <- ask mono_at;;
       if SpecFloat.SFltb (fsub t start) timeout_s
       then reconcile_logged;;;
            o <- find_order cid;;
            if is_terminal (status o) then sret (Some o) else await_loop fuel' cid start timeout_s
       else o <- find_order cid;; sret (Some o))%py
  end.

Definition await_terminal (fuel : nat) (cid : string) (timeout_s : pyfloat) : M (option Order) :=
  (ensure_open;;;
   _ <- find_order cid;;
   start <- ask mono_at;;
   reconcile_logged;;;
   o <- find_order cid;;
   if is_terminal (status o) then sret (Some o)
   else if SpecFloat.SFleb timeout_s f_zero then sret (Some o)
   else await_loop fuel cid start timeout_s)%py.
End Manager.
