(* ===== verification/ExecService.v ===== *)
(** * Session assembly ([src/execution/service.py])

    [build_order_manager]: the session lock, the journal restore, the ledger of
    the session, the position-parity check and the [session_start] record. The
    REST stack it wires is represented by the gateway, the quote source and the
    holdings it answers. *)
From S2P Require Import Prelude PyStr PyTime PyFloat ExecContracts ExecLedger ExecRisk ExecJournal.
From S2P Require Import KisTrading ExecGateways ExecRecovery ExecOms.

(** ** Records and values of the assembly *)

Definition holding_json (h : Holding) : json :=
  JObj [("symbol", JStr (h_symbol h)); ("qty", JInt (h_qty h)); ("cost_krw", JInt (h_cost_krw h))].

(** [{h.symbol: Position(...) for h in holdings}]. *)
Definition holdings_positions (hs : list Holding) : list (string * Position) :=
  fold_left (fun d h => dset d (h_symbol h) (mkPos (h_qty h) (h_cost_krw h))) hs [].

(** [asdict(limits)]; [show_set] renders the frozenset. *)
Definition limits_json (show_set : list string -> string) (l : RiskLimits) : json :=
  JObj [("max_order_notional_krw", JInt (max_order_notional_krw l));
        ("max_position_notional_krw", JInt (max_position_notional_krw l));
        ("max_orders_per_minute", JInt (max_orders_per_minute l));
        ("max_daily_loss_krw", JInt (max_daily_loss_krw l));
        ("symbol_whitelist", JStr (show_set (symbol_whitelist l)))].

Definition session_start_fields (show_set : list string -> string) (venue : KisVenue)
    (hs : list Holding) (restored : nat) (l : RiskLimits) : record :=
  [("venue", JStr (venue_value venue)); ("holdings_count", JInt (Z.of_nat (length hs)));
   ("holdings", JArr (map holding_json hs)); ("restored_orders", JInt (Z.of_nat restored));
   ("limits", limits_json show_set l)].

Definition diff_json (d : string * Z * Z) : json :=
  let '(s, lq, bq) := d in
  JObj [("symbol", JStr s); ("ledger_qty", JInt lq); ("broker_qty", JInt bq)].

Definition diff_text (d : string * Z * Z) : string :=
  let '(s, lq, bq) := d in
  String.append s (String.append " ledger=" (String.append (str_of_Z lq)
    (String.append " broker=" (str_of_Z bq)))).

(** [", ".join(...)]. *)
Fixpoint join_comma (l : list string) : string :=
  match l with
  | [] => ""
  | [x] => x
  | x :: l' => String.append x (String.append ", " (join_comma l'))
  end.

Definition mismatch_reason (diffs : list (string * Z * Z)) : string :=
  String.append "position mismatch: " (join_comma (map diff_text diffs)).

(** [str(exc)] of an execution error, as far as the assembly renders one. *)
Definition exc_text (e : exec_exc) : string :=
  match e with
  | KisApiError c m => String.append c (String.append ": " m)
  | BrokerIntegrityError m => m
  | _ => ""
  end.

Section Build.
Context `{Env} `{OmsEnv} {G : Type} `{OrderGateway G}.
Context (repr : json -> string) (fromisoformat : string -> option datetime).
Context (show_set : list string -> string).
Context (limits : RiskLimits) (ccosts : CostModel) (venue : KisVenue).
Context (lock_path : string) (paper_initial_cash_krw : Z) (position_parity_attempts : nat).
(** [trading.get_holdings()] by reading number. *)
Context (holdings_at : nat -> exec (list Holding)).

Abbreviation M := (stx (Oms G) exec_exc).

Definition get_holdings : M (list Holding) := (r <- ask holdings_at;; slift r)%py.

Definition any_open (orders : list (string * Order)) : bool :=
  existsb (fun o => negb (is_terminal (status o))) (dvalues orders).

(** The parity loop: the last holdings and differences seen. *)
Fixpoint parity_loop (n : nat) (acc : list Holding * list (string * Z * Z))
    : M (list Holding * list (string * Z * Z)) :=
  match n with
  | O => sret acc
  | S n' =>
      (s <- sget;;
       (if any_open (om_orders s) then (reconcile;;; sret tt)%py else sret tt);;;
       hs <- get_holdings;;
       s' <- sget;;
       match position_diffs (w_ledger (om_world s')) hs with
       | [] => sret (hs, [])
       | d :: ds => parity_loop n' (hs, d :: ds)
       end)%py
  end.

(** What the assembly does with a manager already holding its ledger: the parity
    check of a restored session, and the session record. *)
Definition check_parity : M (list Holding) :=
  (acc <- parity_loop position_parity_attempts ([], []);;
   match snd acc with
   | [] => sret (fst acc)
   | diffs =>
       on_store (append "position_mismatch" [("diffs", JArr (map diff_json diffs))]);;;
       block_submits (mismatch_reason diffs);;;
       sret (fst acc)
   end)%py.

Definition with_ledger (l : Ledger) (s : Oms G) : Oms G :=
  set_store (om_gw s, set_ledger l (om_world s)) s.

Definition open_session (m : ExecutionMode) (rec : RecoveredSession) : M unit :=
  (hs <- match m with
         | PAPER =>
             hs <- get_holdings;;
             smod (with_ledger (new_ledger paper_initial_cash_krw ccosts []));;; sret hs
         | _ =>
             match rs_ledger rec with
             | None =>
                 hs <- get_holdings;;
                 smod (with_ledger (new_ledger 0 ccosts (holdings_positions hs)));;; sret hs
             | Some l => smod (with_ledger l);;; check_parity
             end
         end;;
   on_store (append "session_start"
     (session_start_fields show_set venue hs (length (rs_orders rec)) limits)))%py.

(** [OrderManager.__init__] over a journal, from a recovered session. *)
Definition new_manager (gw : G) (w : World) (rec : RecoveredSession) : Oms G :=
  mkOms gw w (rs_orders rec) (rs_next_seq rec) (rs_submit_times rec) None false 0.

(** [except (KisApiError, BrokerIntegrityError)]. *)
Definition account_error (e : exec_exc) : exec_exc :=
  match e with
  | KisApiError _ _ | BrokerIntegrityError _ =>
      AccountCheckError (String.append "account self-check failed: " (exc_text e))
  | _ => e
  end.

(** The result of [build_order_manager]: whether the session lock is held
    afterwards, the journal, and the manager or the exception. [acquired] is what
    [flock] said, [read] what [read_day] returned for today, [gw_init] the
    gateway constructor. *)
Definition build_order_manager (m : ExecutionMode) (acquired : bool)
    (read : exec (list record * bool)) (gw_init : exec G) (w : World)
    : bool * World * exec (Oms G) :=
  if negb acquired
  then (false, w, Raise (SessionLockError (String.append "order session already active: " lock_path)))
  else
    let fail w e := (false, w, Raise (account_error e)) in
    match read with
    | Raise e => fail w e
    | Ok (rs, torn) =>
        let today := date_of (now (w_clock w)) in
        let j := w_journal w in
        let w := tick_clock (if torn then set_journal (mkJournal (j_mode j) (today :: j_torn j)
                                                          (j_records j)) w else w) in
        match restore_session repr fromisoformat rs m ccosts with
        | Raise e => fail w e
        | Ok rec =>
            match gw_init with
            | Raise e => fail w e
            | Ok gw =>
                match open_session m rec (new_manager gw w rec) with
                | (s, Ok _) => (true, om_world s, Ok s)
                | (s, Raise e) => fail (om_world s) e
                end
            end
        end
    end.
End Build.
