(* ===== verification/ExecMachine.v ===== *)
(** * The order session as an abstract machine

    The specification of the order manager: a state of orders, ledger, journal
    records and sequence number, and a step relation with one rule per thing
    that may happen to an order. [ExecRefine.v] shows that every operation of
    the manager is a sequence of these steps; the invariants proved here by rule
    induction therefore hold of the manager. *)
From S2P Require Import Prelude PyStr PyTime PyFloat ExecContracts ExecLedger ExecRisk ExecJournal.
From S2P Require Import KisTrading ExecGateways ExecRecovery ExecOms.

Record AS := mkAS {
  a_orders : list (string * Order);
  a_ledger : Ledger;
  a_records : list record;
  a_seq : Z
}.

(** Events that tell something about an order without changing it. *)
Definition neutral_event (e : string) : Prop :=
  e ∉ "intent" :: "risk_reject" :: "session_start" :: ORDER_EVENTS.

Definition about (cid : string) (r : record) : Prop :=
  dget r "client_id" = Some (JStr cid) /\
  exists e, dget r "event" = Some (JStr e) /\ neutral_event e.

Definition settled (o : Order) (b : BrokerOrderStatus) (st : OrderStatus) : Order :=
  set_status st (set_filled (b_filled_qty b) (b_filled_amount_krw b) o).

Definition resolved (o : Order) (reason : string) : Order :=
  set_reject (Some "unknown_resolved") (Some reason) (set_status REJECTED o).

Definition adopted (o : Order) (b : BrokerOrderStatus) : Order :=
  set_broker (Some (b_order_no b)) (Some (org_no b)) (Some (order_time b)) o.

Section Machine.
Variable repr : json -> string.
Variable fromisoformat : string -> option datetime.
Variable mode : ExecutionMode.
(** What the broker's records are known to satisfy. *)
Variable okb : BrokerOrderStatus -> Prop.

Definition good_ts (ts : string) : Prop :=
  exists d, fromisoformat ts = Some d /\ is_aware d = true.

Definition settle_records (ts1 ts2 : string) (o : Order) (b : BrokerOrderStatus) (st : OrderStatus)
    (child : bool) : list record :=
  (if 0 <? delta_qty o b then [mk_record ts1 mode "fill" (fill_fields o b)] else []) ++
  (if negb (bool_decide (st = status o)) || (0 <? delta_qty o b)
   then [mk_record ts2 mode "status" (status_fields o st b child)] else []).

Definition settle_ledger (o : Order) (b : BrokerOrderStatus) (l l' : Ledger) : Prop :=
  if 0 <? delta_qty o b
  then exists pnl, apply_fill l (symbol (intent o)) (side (intent o)) (delta_qty o b)
                     (delta_amount o b) = Ok (l', pnl)
  else l' = l.

Definition fresh_id (s : AS) (cid : string) : Prop :=
  dget (a_orders s) cid = None /\ exists n, seq_of repr (JStr cid) = Ok n /\ n <= a_seq s.

(** A sale is covered by what is held beyond the open sales. *)
Definition covered (s : AS) (i : OrderIntent) : Prop :=
  1 <= qty i /\
  (side i = SELL ->
   qty i <= ledger_qty (a_ledger s) (symbol i) - open_qty (a_orders s) (symbol i) SELL).

Inductive astep : AS -> AS -> Prop :=
| as_bump s : astep s (mkAS (a_orders s) (a_ledger s) (a_records s) (a_seq s + 1))
| as_reject s cid i t c detail q ts :
    fresh_id s cid ->
    astep s (mkAS (dset (a_orders s) cid
                     (new_order cid i REJECTED t (Some (reject_value c)) (Some detail)))
               (a_ledger s)
               (a_records s ++ [mk_record ts mode "risk_reject" (risk_reject_fields cid i c detail q)])
               (a_seq s))
| as_intent s cid i t q ref ts :
    fresh_id s cid -> good_ts ts -> covered s i ->
    astep s (mkAS (dset (a_orders s) cid (new_order cid i PENDING_SUBMIT t None None))
               (a_ledger s)
               (a_records s ++ [mk_record ts mode "intent" (intent_fields cid i q ref)])
               (a_seq s))
| as_note s cid o r :
    dget (a_orders s) cid = Some o -> is_terminal (status o) = false -> about cid r ->
    astep s (mkAS (a_orders s) (a_ledger s) (a_records s ++ [r]) (a_seq s))
| as_result s cid o out o' pre gwt ts :
    dget (a_orders s) cid = Some o -> status o = PENDING_SUBMIT -> ids_iff_accepted out ->
    apply_outcome out o = Ok o' ->
    astep s (mkAS (dset (a_orders s) cid o') (a_ledger s)
               (a_records s ++
                [mk_record ts mode "submit_result" (submit_result_fields cid out (status o') pre gwt)])
               (a_seq s))
| as_adopt s cid o b ts :
    dget (a_orders s) cid = Some o -> status o = UNKNOWN ->
    astep s (mkAS (dset (a_orders s) cid (adopted o b)) (a_ledger s)
               (a_records s ++ [mk_record ts mode "unknown_adopted" (adopted_fields cid b)])
               (a_seq s))
| as_settle s cid o b st child l' ts1 ts2 :
    dget (a_orders s) cid = Some o -> is_terminal (status o) = false ->
    broker_order_no o = Some (b_order_no b) -> okb b ->
    filled_qty o <= b_filled_qty b <= qty (intent o) ->
    derive_status b child = Ok st -> settle_ledger o b (a_ledger s) l' ->
    astep s (mkAS (dset (a_orders s) cid (settled o b st)) l'
               (a_records s ++ settle_records ts1 ts2 o b st child) (a_seq s))
| as_resolve s cid o reason ts :
    dget (a_orders s) cid = Some o -> status o = UNKNOWN -> broker_order_no o = None ->
    astep s (mkAS (dset (a_orders s) cid (resolved o reason)) (a_ledger s)
               (a_records s ++ [mk_record ts mode "unknown_resolved" (resolved_fields cid reason)])
               (a_seq s)).

(** ** The order invariant *)

(** Fills agree with the status, and a submission without an answer is as it was
    created. *)
Record order_ok (o : Order) : Prop := {
  ok_range : 0 <= filled_qty o <= Z.max 0 (qty (intent o));
  ok_unfilled : status o ∈ [PENDING_SUBMIT; ACCEPTED; UNKNOWN; REJECTED] -> filled_qty o = 0;
  ok_qty : is_terminal (status o) = false -> 1 <= qty (intent o);
  ok_partial : status o = PARTIALLY_FILLED -> 0 < filled_qty o;
  ok_pending : status o = PENDING_SUBMIT ->
    o = new_order (client_id o) (intent o) PENDING_SUBMIT (created_at o) None None
}.

Lemma pending_no_broker o : order_ok o -> status o = PENDING_SUBMIT -> broker_order_no o = None.
Proof. intros Hok Hs. by rewrite (ok_pending _ Hok Hs). Qed.

Definition entry_ok (seq : Z) (k : string) (o : Order) : Prop :=
  client_id o = k /\ order_ok o /\ exists n, seq_of repr (JStr k) = Ok n /\ n <= seq.

Record ainv (s : AS) : Prop := {
  ai_keys : NoDup (dkeys (a_orders s));
  ai_entry : forall k o, dget (a_orders s) k = Some o -> entry_ok (a_seq s) k o
}.

Lemma rejected_order_ok cid i t rc rm : order_ok (new_order cid i REJECTED t rc rm).
Proof. split; simpl; try done. lia. Qed.

Lemma pending_order_ok cid i t :
  1 <= qty i -> order_ok (new_order cid i PENDING_SUBMIT t None None).
Proof. intros Hq. split; simpl; try done. lia. Qed.

Lemma apply_outcome_ok out o o' :
  apply_outcome out o = Ok o' -> status o = PENDING_SUBMIT -> order_ok o ->
  order_ok o' /\ client_id o' = client_id o /\ intent o' = intent o /\
  filled_qty o' = filled_qty o /\ filled_amount_krw o' = filled_amount_krw o /\
  status o' ∈ [ACCEPTED; REJECTED; UNKNOWN].
Proof.
  intros Ha Hs [Hr Hu Hq Hp Hb]. unfold apply_outcome in Ha. rewrite Hs in Ha.
  assert (Hf : filled_qty o = 0) by (apply Hu; rewrite Hs; set_solver).
  assert (Hq1 : 1 <= qty (intent o)) by (apply Hq; by rewrite Hs).
  destruct (kind out); vm_compute in Ha; simplify_eq; (split; [|set_solver]);
    (split; simpl; try done; lia).
Qed.

Lemma settled_ok o b st child :
  order_ok o -> is_terminal (status o) = false ->
  filled_qty o <= b_filled_qty b <= qty (intent o) -> derive_status b child = Ok st ->
  order_ok (settled o b st).
Proof.
  intros [Hr Hu Hq Hp Hb] Ht Hf (Hd1 & Hd2 & Hd3 & Hd4 & Hd5 & Hd6)%derive_status_ok.
  specialize (Hq Ht). split; unfold settled; simpl; try lia; try done.
  intros Hst. repeat (apply elem_of_cons in Hst as [Hst|Hst]; [naive_solver|]). set_solver.
Qed.

Lemma resolved_ok o reason : order_ok o -> status o = UNKNOWN -> order_ok (resolved o reason).
Proof.
  intros [Hr Hu Hq Hp Hb] Hs. unfold resolved. split; simpl; try done.
  intros _. apply Hu. rewrite Hs. set_solver.
Qed.

Lemma adopted_ok o b : order_ok o -> status o = UNKNOWN -> order_ok (adopted o b).
Proof. intros [Hr Hu Hq Hp Hb] Hs. unfold adopted. split; simpl; try done. congruence. Qed.

(** Replacing or adding one well-formed entry keeps the invariant. *)
Lemma ainv_dset s k o l rs seq :
  ainv s -> a_seq s <= seq -> entry_ok seq k o ->
  ainv (mkAS (dset (a_orders s) k o) l rs seq).
Proof.
  intros [Hnd He] Hs Hk. split; simpl; [by apply dkeys_dset_nodup|].
  intros k' o'. destruct (decide (k = k')) as [<-|Hne].
  - rewrite dget_dset_eq. naive_solver.
  - rewrite dget_dset_ne by done. intros (H1 & H2 & n & H3 & H4)%He.
    split; [done|]. split; [done|]. exists n. split; [done|lia].
Qed.

Lemma ainv_same s l rs seq :
  ainv s -> a_seq s <= seq -> ainv (mkAS (a_orders s) l rs seq).
Proof.
  intros [Hnd He] Hs. split; simpl; [done|]. intros k o (H1 & H2 & n & H3 & H4)%He.
  split; [done|]. split; [done|]. exists n. split; [done|lia].
Qed.

Lemma entry_ok_upd seq k o o' :
  entry_ok seq k o -> client_id o' = client_id o -> order_ok o' -> entry_ok seq k o'.
Proof. unfold entry_ok. naive_solver. Qed.

Lemma astep_ainv s s' : astep s s' -> ainv s -> ainv s'.
Proof.
  intros Hst Hi. pose proof (ai_entry _ Hi) as He.
  destruct Hst; try (by apply ainv_same; [done|lia]);
    try (match goal with H : fresh_id _ _ |- _ => destruct H as [? (n & ? & ?)] end;
         apply ainv_dset; [done|lia|]; split; [done|]; split; [|by eauto];
         (apply rejected_order_ok || by apply pending_order_ok; apply H1));
    apply ainv_dset; try done; try lia;
    match goal with H : dget _ _ = Some _ |- _ => apply He in H; rename H into Hk end;
    pose proof Hk as (_ & Hok & _).
  - destruct (apply_outcome_ok _ _ _ H2 H0 Hok) as (? & ? & _). by eapply entry_ok_upd.
  - eapply entry_ok_upd; [done|done|]. by apply adopted_ok.
  - eapply entry_ok_upd; [done|done|]. by eapply settled_ok.
  - eapply entry_ok_upd; [done|done|]. by apply resolved_ok.
Qed.

(** A status change of the fill loop is always an allowed transition. *)
Lemma settle_transition o b st child :
  order_ok o -> is_terminal (status o) = false -> status o <> PENDING_SUBMIT ->
  filled_qty o <= b_filled_qty b -> derive_status b child = Ok st ->
  transition (status o) st = Ok st.
Proof.
  intros [Hr Hu Hq Hp Hb] Ht Hs Hf (Hd1 & Hd2 & Hd3 & Hd4 & Hd5 & Hd6)%derive_status_ok.
  destruct (status o) eqn:Eo; try done; destruct st; try done; try reflexivity;
    exfalso; specialize (Hp eq_refl); specialize (Hd4 ltac:(auto)); lia.
Qed.

(** ** Positions and money *)

(** Signed quantity of [sym] an order has traded. *)
Definition order_signed (sym : string) (o : Order) : Z :=
  signed_qty sym (mkFill (symbol (intent o)) (side (intent o)) (filled_qty o) 0).

Definition traded (sym : string) (orders : list (string * Order)) : Z :=
  zsum (map (order_signed sym) (dvalues orders)).

(** The ledger holds what it started with plus what the orders traded, and no
    money appeared or vanished. *)
Record parity (base : string -> Z) (money : Z) (s : AS) : Prop := {
  pa_wf : ledger_wf (a_ledger s);
  pa_qty : forall sym, ledger_qty (a_ledger s) sym = base sym + traded sym (a_orders s);
  pa_money : paid_in (a_ledger s) = money
}.

Lemma traded_dset sym orders k o :
  traded sym (dset orders k o) =
  traded sym orders + order_signed sym o -
  match dget orders k with Some o0 => order_signed sym o0 | None => 0 end.
Proof.
  unfold traded, dvalues. induction orders as [|[k' o'] orders IH]; simpl; [lia|].
  destruct (decide (k = k')); simpl; [lia|]. rewrite IH. lia.
Qed.

Lemma signed_qty_unfilled sym s sd a : signed_qty sym (mkFill s sd 0 a) = 0.
Proof. unfold signed_qty; simpl. case_decide; [by destruct sd|done]. Qed.

Lemma traded_same sym orders k o o' :
  dget orders k = Some o -> intent o' = intent o -> filled_qty o' = filled_qty o ->
  traded sym (dset orders k o') = traded sym orders.
Proof.
  intros Hk Hi Hf. rewrite traded_dset, Hk. unfold order_signed. rewrite Hi, Hf. lia.
Qed.

Lemma parity_settle base money s cid o b st l' rs :
  dget (a_orders s) cid = Some o -> filled_qty o <= b_filled_qty b ->
  settle_ledger o b (a_ledger s) l' -> parity base money s ->
  parity base money (mkAS (dset (a_orders s) cid (settled o b st)) l' rs (a_seq s)).
Proof.
  unfold settle_ledger. intros Hk Hf Hl [Hwf Hq Hm].
  assert (Hd : forall sym, order_signed sym (settled o b st) =
            order_signed sym o +
            signed_qty sym (mkFill (symbol (intent o)) (side (intent o)) (delta_qty o b) 0)).
  { intros sym. unfold order_signed, settled, signed_qty, delta_qty; simpl.
    case_decide; [|lia]. destruct (side (intent o)); lia. }
  destruct (0 <? delta_qty o b) eqn:E; bprop.
  - destruct Hl as [pnl Ha]. split; simpl.
    + by apply (apply_fill_wf _ _ _ _ _ _ Hwf Ha).
    + intros sym. rewrite traded_dset, Hk, Hd.
      pose proof (apply_fill_qty _ _ _ _ _ _ sym Hwf Ha) as Hx. simpl in Hx. rewrite Hx, Hq.
      unfold signed_qty; simpl. lia.
    + destruct (apply_fill_paid_in _ _ _ _ _ _ Hwf Ha) as [Hx _]. simpl in Hx. congruence.
  - subst l'. split; simpl; [done| |done]. intros sym. rewrite traded_dset, Hk, Hd, Hq.
    assert (delta_qty o b = 0) as -> by (unfold delta_qty in *; lia).
    rewrite signed_qty_unfilled. lia.
Qed.

Lemma parity_orders base money s orders rs seq :
  parity base money s -> (forall sym, traded sym orders = traded sym (a_orders s)) ->
  parity base money (mkAS orders (a_ledger s) rs seq).
Proof. intros [Hwf Hq Hm] Ht. split; simpl; [done| |done]. intros sym. by rewrite Ht. Qed.

Lemma astep_parity base money s s' :
  astep s s' -> ainv s -> parity base money s -> parity base money s'.
Proof.
  intros Hst Hi Hp. pose proof (ai_entry _ Hi) as He.
  destruct Hst; try (by apply parity_orders); try (by eapply parity_settle; naive_solver);
    apply parity_orders; try done; intros sym.
  - rewrite traded_dset, (proj1 H). unfold order_signed; simpl. rewrite signed_qty_unfilled. lia.
  - rewrite traded_dset, (proj1 H). unfold order_signed; simpl. rewrite signed_qty_unfilled. lia.
  - eapply traded_same; [done| |]; apply He in H as (_ & Hok & _);
      by destruct (apply_outcome_ok _ _ _ H2 H0 Hok) as (_ & _ & ? & ? & _).
  - by eapply traded_same.
  - by eapply traded_same.
Qed.

(** ** Runs *)

Definition asteps : AS -> AS -> Prop := rtc astep.

Lemma asteps_ainv s s' : asteps s s' -> ainv s -> ainv s'.
Proof. induction 1; eauto using astep_ainv. Qed.

Lemma asteps_parity base money s s' :
  asteps s s' -> ainv s -> parity base money s -> parity base money s'.
Proof. induction 1; eauto using astep_ainv, astep_parity. Qed.

(** A step never takes an order away, changes what was ordered, or moves its
    fills back; a terminal order is final. *)
Definition order_le (o o' : Order) : Prop :=
  client_id o' = client_id o /\ intent o' = intent o /\ filled_qty o <= filled_qty o' /\
  (is_terminal (status o) = true -> o' = o) /\
  (status_rank (status o') <= status_rank (status o))%nat.

Definition orders_le (d d' : list (string * Order)) : Prop :=
  forall k o, dget d k = Some o -> exists o', dget d' k = Some o' /\ order_le o o'.

Lemma order_le_refl o : order_le o o.
Proof. unfold order_le. auto with lia. Qed.

Lemma order_le_trans o1 o2 o3 : order_le o1 o2 -> order_le o2 o3 -> order_le o1 o3.
Proof.
  intros (A1 & A2 & A3 & A4 & A5) (B1 & B2 & B3 & B4 & B5).
  split; [congruence|]. split; [congruence|]. split; [lia|]. split; [|lia].
  intros Ht. rewrite <- (A4 Ht) in Ht |- *. auto.
Qed.

Lemma orders_le_refl d : orders_le d d.
Proof. intros k o Hk. eauto using order_le_refl. Qed.

Lemma orders_le_trans d1 d2 d3 : orders_le d1 d2 -> orders_le d2 d3 -> orders_le d1 d3.
Proof.
  intros H12 H23 k o Hk. destruct (H12 k o Hk) as (o2 & Hk2 & L2).
  destruct (H23 k o2 Hk2) as (o3 & Hk3 & L3). eauto using order_le_trans.
Qed.

Lemma orders_le_dset d k o :
  match dget d k with Some o0 => order_le o0 o | None => True end -> orders_le d (dset d k o).
Proof.
  intros Hk k' o' Hk'. destruct (decide (k = k')) as [<-|Hne].
  - rewrite Hk' in Hk. rewrite dget_dset_eq. eauto.
  - rewrite dget_dset_ne by done. eauto using order_le_refl.
Qed.

Lemma astep_orders_le s s' : astep s s' -> ainv s -> orders_le (a_orders s) (a_orders s').
Proof.
  intros Hst Hi. pose proof (ai_entry _ Hi) as He.
  destruct Hst; simpl; try apply orders_le_refl; apply orders_le_dset;
    try (by rewrite (proj1 H)); rewrite H; pose proof (He _ _ H) as (_ & Hok & _).
  - destruct (apply_outcome_ok _ _ _ H2 H0 Hok) as (_ & ? & ? & ? & _ & Hin).
    split; [done|]. split; [done|]. split; [lia|]. rewrite H0. split; [done|].
    repeat (apply elem_of_cons in Hin as [->|Hin]; [simpl; lia|]). set_solver.
  - split; [done|]. split; [done|]. split; [simpl; lia|]. rewrite H0. split; [done|].
    unfold adopted; simpl. rewrite H0. done.
  - split; [done|]. split; [done|]. split; [simpl; lia|]. split; [congruence|]. simpl.
    assert (Hps : status o <> PENDING_SUBMIT)
      by (intros Hps; apply (pending_no_broker _ Hok) in Hps; congruence).
    destruct (transition_rank (status o) st st) as [->|?]; [|lia|lia].
    eapply settle_transition; eauto; lia.
  - split; [done|]. split; [done|]. split; [simpl; lia|]. rewrite H0. split; [done|]. simpl; lia.
Qed.

Lemma asteps_orders_le s s' : asteps s s' -> ainv s -> orders_le (a_orders s) (a_orders s').
Proof.
  induction 1; eauto using orders_le_refl, orders_le_trans, astep_orders_le, astep_ainv.
Qed.

(** ** No naked sale *)

(** Quantity of [sym] an open sell order may still sell. *)
Definition sell_left (sym : string) (o : Order) : Z :=
  if is_open o && bool_decide (symbol (intent o) = sym) && bool_decide (side (intent o) = SELL)
  then remaining_qty o else 0.

Lemma open_sell_sum orders sym :
  open_qty orders sym SELL = zsum (map (sell_left sym) (dvalues orders)).
Proof.
  unfold open_qty, open_on. induction (dvalues orders) as [|o l IH]; [done|]. cbn [List.filter map].
  unfold sell_left at 1. cbn [zsum fold_right]. fold (zsum (map (sell_left sym) l)). rewrite <- IH.
  destruct (is_open o && bool_decide (symbol (intent o) = sym)); simpl; [|lia].
  destruct (bool_decide (side (intent o) = SELL)); simpl; [done|lia].
Qed.

Lemma open_sell_dset orders sym k o :
  open_qty (dset orders k o) sym SELL =
  open_qty orders sym SELL + sell_left sym o -
  match dget orders k with Some o0 => sell_left sym o0 | None => 0 end.
Proof.
  rewrite !open_sell_sum. unfold dvalues.
  induction orders as [|[k' o'] orders IH]; simpl; [lia|].
  destruct (decide (k = k')); simpl; [lia|]. rewrite IH. lia.
Qed.

(** Every pending sale is covered by the ledger. *)
Definition no_naked (s : AS) : Prop :=
  ledger_wf (a_ledger s) /\
  forall sym, open_qty (a_orders s) sym SELL <= ledger_qty (a_ledger s) sym.

Lemma is_open_terminal o : is_open o = negb (is_terminal (status o)).
Proof. unfold is_open, is_terminal. by destruct (status o). Qed.

(** A settled order leaves at most what it left before, less what it sold. *)
Lemma sell_left_step sym o o' d :
  intent o' = intent o -> filled_qty o' = filled_qty o + d -> 0 <= d ->
  0 <= filled_qty o' <= qty (intent o) -> is_terminal (status o) = false ->
  sell_left sym o' <=
  sell_left sym o + Z.min 0 (signed_qty sym (mkFill (symbol (intent o)) (side (intent o)) d 0)).
Proof.
  intros Hi Hf Hd Hr Ht. unfold sell_left, remaining_qty, signed_qty; simpl.
  rewrite Hi, Hf, !is_open_terminal, Ht. simpl.
  destruct (decide (symbol (intent o) = sym)) as [Hs|Hs].
  - rewrite !(bool_decide_eq_true_2 _ Hs). destruct (side (intent o)); simpl.
    + rewrite !andb_false_r. simpl. lia.
    + rewrite !andb_true_r. destruct (is_terminal (status o')); simpl; lia.
  - rewrite !(bool_decide_eq_false_2 _ Hs). rewrite !andb_false_r. simpl. lia.
Qed.

Lemma no_naked_upd s k o o' d l rs seq :
  no_naked s -> dget (a_orders s) k = Some o ->
  intent o' = intent o -> filled_qty o' = filled_qty o + d -> 0 <= d ->
  0 <= filled_qty o' <= qty (intent o) -> is_terminal (status o) = false ->
  ledger_wf l ->
  (forall sym, ledger_qty l sym = ledger_qty (a_ledger s) sym +
     signed_qty sym (mkFill (symbol (intent o)) (side (intent o)) d 0)) ->
  no_naked (mkAS (dset (a_orders s) k o') l rs seq).
Proof.
  intros [Hwf Hn] Hk Hi Hf Hd Hr Ht Hl Hq. split; simpl; [done|]. intros sym.
  rewrite open_sell_dset, Hk, Hq. specialize (Hn sym).
  pose proof (sell_left_step sym o o' d Hi Hf Hd Hr Ht). lia.
Qed.

Lemma no_naked_settle s cid o b st l' rs :
  no_naked s -> order_ok o -> dget (a_orders s) cid = Some o -> is_terminal (status o) = false ->
  filled_qty o <= b_filled_qty b <= qty (intent o) -> settle_ledger o b (a_ledger s) l' ->
  no_naked (mkAS (dset (a_orders s) cid (settled o b st)) l' rs (a_seq s)).
Proof.
  intros Hn Hok Hk Ht Hf Hl. pose proof (ok_range _ Hok).
  pose proof Hn as [Hwf _]. unfold settle_ledger in Hl.
  eapply (no_naked_upd s cid o _ (delta_qty o b)); try done; unfold delta_qty in *; simpl; try lia;
    destruct (0 <? _) eqn:E; bprop.
  - destruct Hl as [pnl Ha]. by apply (apply_fill_wf _ _ _ _ _ _ Hwf Ha).
  - by subst.
  - destruct Hl as [pnl Ha]. intros sym.
    pose proof (apply_fill_qty _ _ _ _ _ _ sym Hwf Ha) as Hx. simpl in Hx. rewrite Hx.
    unfold signed_qty; simpl. lia.
  - subst l'. intros sym. assert (b_filled_qty b - filled_qty o = 0) as -> by lia.
    rewrite signed_qty_unfilled. lia.
Qed.

Lemma no_naked_new s cid o rs :
  no_naked s -> dget (a_orders s) cid = None ->
  (forall sym, sell_left sym o <= ledger_qty (a_ledger s) sym - open_qty (a_orders s) sym SELL) ->
  no_naked (mkAS (dset (a_orders s) cid o) (a_ledger s) rs (a_seq s)).
Proof.
  intros [Hwf Hn] Hk Ho. split; simpl; [done|]. intros sym. rewrite open_sell_dset, Hk.
  specialize (Ho sym). lia.
Qed.

Lemma astep_no_naked s s' : astep s s' -> ainv s -> no_naked s -> no_naked s'.
Proof.
  intros Hst Hi Hn. pose proof (ai_entry _ Hi) as He. pose proof Hn as [Hwf Hq].
  assert (Hkeep : forall k o o' rs, dget (a_orders s) k = Some o -> order_ok o ->
            is_terminal (status o) = false -> intent o' = intent o -> filled_qty o' = filled_qty o ->
            no_naked (mkAS (dset (a_orders s) k o') (a_ledger s) rs (a_seq s))).
  { intros k o o' rs Hk Hok Ht Hin Hf. pose proof (ok_range _ Hok). pose proof (ok_qty _ Hok Ht).
    apply (no_naked_upd s k o o' 0); try done; try lia.
    intros sym. rewrite signed_qty_unfilled. lia. }
  destruct Hst; try (by split); try (apply He in H as Hk; destruct Hk as (_ & Hok & _)).
  - apply no_naked_new; [done|apply H|]. intros sym. specialize (Hq sym). unfold sell_left; simpl. lia.
  - apply no_naked_new; [done|apply H|]. intros sym. specialize (Hq sym). unfold sell_left; simpl.
    destruct (_ && _) eqn:E; [|lia]. bprop. subst. destruct H1 as [H1 H2]. unfold remaining_qty; simpl.
    specialize (H2 ltac:(done)). lia.
  - destruct (apply_outcome_ok _ _ _ H2 H0 Hok) as (_ & _ & ? & ? & _).
    eapply Hkeep; eauto. by rewrite H0.
  - eapply Hkeep; eauto. by rewrite H0.
  - by eapply no_naked_settle.
  - eapply Hkeep; eauto. by rewrite H0.
Qed.

Lemma asteps_no_naked s s' : asteps s s' -> ainv s -> no_naked s -> no_naked s'.
Proof. induction 1; eauto using astep_ainv, astep_no_naked. Qed.

(** The ledger never refuses a fill of a covered sell order as an oversell. *)
Lemma no_naked_sell_accepted s cid o q :
  no_naked s -> ainv s -> dget (a_orders s) cid = Some o -> is_terminal (status o) = false ->
  side (intent o) = SELL -> 0 < q <= remaining_qty o ->
  exists pos, dget (positions (a_ledger s)) (symbol (intent o)) = Some pos /\ q <= p_qty pos.
Proof.
  intros [Hwf Hn] Hi Hk Ht Hs Hq. specialize (Hn (symbol (intent o))).
  assert (Hle : remaining_qty o <= open_qty (a_orders s) (symbol (intent o)) SELL).
  { rewrite open_sell_sum.
    assert (Ho : sell_left (symbol (intent o)) o = remaining_qty o).
    { unfold sell_left. rewrite is_open_terminal, Ht. simpl.
      by rewrite !bool_decide_eq_true_2. }
    rewrite <- Ho.
    assert (Hp : forall k o', (k, o') ∈ a_orders s -> 0 <= sell_left (symbol (intent o)) o').
    { intros k o' Hin. apply (elem_dget _ _ _ (ai_keys _ Hi)) in Hin.
      apply (ai_entry _ Hi) in Hin as (_ & Hok & _). unfold sell_left.
      destruct (_ && _) eqn:E; [|lia]. unfold remaining_qty.
      apply andb_true_iff in E as [E _]. apply andb_true_iff in E as [E _].
      rewrite is_open_terminal in E. bprop.
      pose proof (ok_range _ Hok). pose proof (ok_qty _ Hok E). lia. }
    clear - Hk Hp. unfold dvalues. induction (a_orders s) as [|[k v] d IH]; simpl in *; [done|].
    assert (Hd : 0 <= zsum (map (sell_left (symbol (intent o))) (map snd d))).
    { apply zsum_nonneg, Forall_map, Forall_map, Forall_forall. intros [k' v'] Hin.
      apply (Hp k'). by right. }
    destruct (decide (cid = k)); simplify_eq; [lia|].
    pose proof (Hp k v ltac:(left)). specialize (IH Hk ltac:(intros; eapply Hp; by right)). lia. }
  unfold ledger_qty in Hn. destruct (dget _ _) as [pos|]; [|lia]. exists pos. split; [done|lia].
Qed.
End Machine.
