(* ===== verification/ExecRefine.v ===== *)
(** * The order manager refines the abstract session machine

    Every operation of [OrderManager], whatever the gateway, the quotes, the
    kill switch and the clocks answer and wherever it raises, moves the manager
    along a sequence of steps of [ExecMachine.v]. *)
From Stdlib Require Import Ascii.
From S2P Require Import Prelude PyStr PyTime PyFloat ExecContracts ExecLedger ExecRisk ExecJournal.
From S2P Require Import KisTrading ExecGateways ExecRecovery ExecOms ExecMachine.

(** The client id carries its sequence number. *)
Lemma seq_of_client_id repr m t n : 0 <= n -> seq_of repr (JStr (mk_client_id m t n)) = Ok n.
Proof.
  intros Hn. unfold seq_of, pstr, py_str, mk_client_id, str_pad.
  rewrite !s2l_app, !s2l_l2s. rewrite !app_assoc.
  change (s2l "-") with ["-"%char]. rewrite <- (app_assoc _ ["-"%char]). cbn [app].
  rewrite after_last_app by (apply dash_not_digit, pad_chars_digits; done).
  by rewrite parse_pad.
Qed.

Section Refine.
Context `{HE : Env} `{HO : OmsEnv} {G : Type} `{HG : OrderGateway G} `{HL : !GatewayLaws G}.
Context (limits : RiskLimits) (ccosts : CostModel).
Context (repr : json -> string) (fromisoformat : string -> option datetime).
Context (mode : ExecutionMode) (okb : BrokerOrderStatus -> Prop).
(** The clock's values are aware and their renderings parse back. *)
Context (clock_ok : forall n, good_ts fromisoformat (isoformat (now n))).

Abbreviation steps := (asteps repr fromisoformat mode okb).
Abbreviation M := (stx (Oms G) exec_exc).

(** The abstraction function. *)
Definition abs (s : Oms G) : AS :=
  mkAS (om_orders s) (w_ledger (om_world s)) (map snd (j_records (w_journal (om_world s))))
    (om_seq s).

(** A manager between operations, writing to a sound journal. *)
Record sinv (s : Oms G) : Prop := {
  si_torn : j_torn (w_journal (om_world s)) = [];
  si_mode : j_mode (w_journal (om_world s)) = mode;
  si_seq : 0 <= om_seq s;
  si_inv : ainv repr (abs s)
}.

(** From [s], [c] goes along abstract steps and keeps the invariant. *)
Definition refines_at {A} (c : M A) (s : Oms G) : Prop :=
  sinv s -> steps (abs s) (abs (fst (c s))) /\ sinv (fst (c s)).
Definition refines {A} (c : M A) : Prop := forall s, refines_at c s.

Lemma refines_bind_at {A B} (c : M A) (k : A -> M B) s :
  refines_at c s ->
  (forall a s', sinv s -> sinv s' -> c s = (s', Ok a) -> refines_at (k a) s') ->
  refines_at (sbind c k) s.
Proof.
  intros Hc Hk Hs. destruct (Hc Hs) as [Ht Hi]. unfold sbind.
  destruct (c s) as [s' [a|e]] eqn:E; simpl in *; [|done].
  destruct (Hk a s' Hs Hi eq_refl Hi) as [Ht' Hi']. split; [|done]. by etransitivity.
Qed.

Lemma refines_bind {A B} (c : M A) (k : A -> M B) :
  refines c -> (forall a, refines (k a)) -> refines (sbind c k).
Proof. intros Hc Hk s. apply refines_bind_at; [apply Hc|]. intros. apply Hk. Qed.

(** A state change the abstraction does not see. *)
Lemma refines_silent {A} (c : M A) s :
  abs (fst (c s)) = abs s ->
  w_journal (om_world (fst (c s))) = w_journal (om_world s) -> refines_at c s.
Proof.
  intros Ha Hj [H1 H2 H3 H4]. rewrite Ha. split; [done|].
  split; rewrite ?Ha, ?Hj; try done. by injection Ha as _ _ _ ->.
Qed.

Lemma refines_ret {A} (a : A) : refines (sret a).
Proof. intros s. by apply refines_silent. Qed.
Lemma refines_raise {A} e : refines (A := A) (sraise e).
Proof. intros s. by apply refines_silent. Qed.
Lemma refines_get : refines sget.
Proof. intros s. by apply refines_silent. Qed.
Lemma refines_lift {A} (c : exec A) : refines (slift c).
Proof. intros s. by apply refines_silent. Qed.
Lemma refines_ask {A} (f : nat -> A) : refines (ask f).
Proof. intros s. by apply refines_silent. Qed.
Lemma refines_open : refines ensure_open.
Proof. intros s. by apply refines_silent. Qed.
Lemma refines_find cid : refines (find_order cid).
Proof. intros s. by apply refines_silent. Qed.
Lemma refines_time t : refines (smod (add_submit_time t)).
Proof. intros s. by apply refines_silent. Qed.

(** Statements that leave the abstract state alone. *)
Ltac prim :=
  solve [ apply refines_ret | apply refines_raise | apply refines_get | apply refines_lift
        | apply refines_ask | apply refines_open | apply refines_find | apply refines_time ].

(** A state change that is one abstract step. *)
Lemma refines_step s s' :
  sinv s -> j_torn (w_journal (om_world s')) = [] -> j_mode (w_journal (om_world s')) = mode ->
  om_seq s <= om_seq s' ->
  steps (abs s) (abs s') -> steps (abs s) (abs s') /\ sinv s'.
Proof.
  intros [H1 H2 H3 H4] Ht Hm Hq Hst. split; [done|]. split; [done|done|lia|].
  by eapply asteps_ainv.
Qed.

(** ** Journal appends *)

(** The state after an append to a sound journal. *)
Definition journalled (ev : string) (fs : record) (s : Oms G) : Oms G :=
  let w := om_world s in
  set_store (om_gw s,
    set_journal (mkJournal (j_mode (w_journal w)) (j_torn (w_journal w))
      (j_records (w_journal w) ++
       [(date_of (now (w_clock w)),
         mk_record (isoformat (now (w_clock w))) (j_mode (w_journal w)) ev fs)])) (tick_clock w)) s.

Lemma on_store_append ev fs s :
  j_torn (w_journal (om_world s)) = [] ->
  on_store (append ev fs) s = (journalled ev fs s, Ok tt).
Proof using HE.
  intros Ht. unfold on_store.
  destruct (append_spec ev fs (om_gw s) (om_world s)) as (w' & -> & ->).
  rewrite Ht. rewrite !decide_False by (apply not_elem_of_nil). unfold journalled. by rewrite Ht.
Qed.

Lemma abs_journalled ev fs s :
  abs (journalled ev fs s) =
  mkAS (om_orders s) (w_ledger (om_world s))
    (map snd (j_records (w_journal (om_world s))) ++
     [mk_record (isoformat (now (w_clock (om_world s)))) (j_mode (w_journal (om_world s))) ev fs])
    (om_seq s).
Proof. unfold abs; simpl. by rewrite map_app. Qed.

(** An audit record about an order that is not final. *)
Lemma refines_note ev fs cid o s :
  dget (om_orders s) cid = Some o -> is_terminal (status o) = false ->
  (forall ts m, about cid (mk_record ts m ev fs)) ->
  refines_at (on_store (append ev fs)) s.
Proof.
  intros Hk Ht Ha Hs. pose proof Hs as [H1 H2 H3 H4].
  rewrite on_store_append by done. apply refines_step; simpl; try done.
  rewrite abs_journalled. apply rtc_once, as_note with cid o; [done|done|apply Ha].
Qed.

(** A gateway operation that only writes notes about an order in flight. *)
Lemma refines_gateway {A} (c : stx (G * World) exec_exc A) cid o s :
  writes_only (gateway_note cid) c ->
  dget (om_orders s) cid = Some o -> is_terminal (status o) = false ->
  refines_at (on_store c) s.
Proof.
  intros Hc Hk Ht Hs. pose proof Hs as [H1 H2 H3 H4].
  specialize (Hc (om_gw s) (om_world s)). unfold on_store.
  destruct (c (om_gw s, om_world s)) as [[g w] r]; simpl in *.
  destruct Hc as [Hm Htn (rs & Hr & HF) Hl Hcl].
  apply refines_step; simpl; try congruence; [lia|]. unfold abs at 2; simpl.
  rewrite Hl, Hr, map_app. clear Hr. unfold abs.
  generalize (map snd (j_records (w_journal (om_world s)))) as base.
  induction rs as [|r' rs IH] using rev_ind; intros base; simpl; [by rewrite app_nil_r|].
  apply Forall_app in HF as [HF [Hn _]%Forall_cons].
  etransitivity; [by apply IH|]. rewrite map_app, app_assoc. simpl.
  apply rtc_once, (as_note _ _ _ _ (mkAS _ _ _ _) cid o (snd r')); [done|done|].
  destruct Hn as (Hn1 & e & Hn2 & Hn3). split; [done|]. exists e. split; [done|].
  unfold GATEWAY_EVENTS, neutral_event in *. intros Hin.
  repeat (apply elem_of_cons in Hn3 as [->|Hn3]; [by apply (bool_decide_eq_true_2 _) in Hin|]).
  set_solver.
Qed.

(** A gateway operation that writes nothing. *)
Lemma refines_quiet {A} (c : stx (G * World) exec_exc A) :
  writes_only (fun _ => False) c -> refines (on_store c).
Proof.
  intros Hc s Hs. pose proof Hs as [H1 H2 H3 H4].
  specialize (Hc (om_gw s) (om_world s)). unfold on_store.
  destruct (c (om_gw s, om_world s)) as [[g w] r]; simpl in *.
  destruct Hc as [Hm Htn (rs & Hr & HF) Hl Hcl].
  assert (rs = []) as -> by (destruct rs as [|? ?]; [done|]; by apply Forall_cons in HF as [[] _]).
  apply refines_step; simpl; try congruence; [lia|]. unfold abs; simpl.
  by rewrite Hl, Hr, app_nil_r.
Qed.

(** ** Submission *)

(** Fields of a record whose keys are fixed. *)
Lemma about_record ts m ev fs cid :
  neutral_event ev -> dget fs "client_id" = Some (JStr cid) ->
  NoDup (dkeys fs) -> "ts" ∉ dkeys fs -> "mode" ∉ dkeys fs -> "event" ∉ dkeys fs ->
  about cid (mk_record ts m ev fs).
Proof.
  intros Hev Hc Hnd H1 H2 H3. split.
  - rewrite mk_record_get, Hc by (done || key_side). done.
  - exists ev. split; [|done]. by apply mk_record_head.
Qed.

Lemma refines_risk_rejected cid i q c detail s :
  fresh_id repr (abs s) cid -> refines_at (risk_rejected cid i q c detail) s.
Proof.
  intros Hf Hs. pose proof Hs as [H1 H2 H3 H4].
  unfold risk_rejected, sbind, ask, register, smod, sret. cbv beta iota zeta.
  rewrite on_store_append by done. apply refines_step; simpl; try done.
  rewrite abs_journalled. simpl. rewrite H2. by apply rtc_once, (as_reject _ _ _ _ (abs s)).
Qed.

Lemma refines_register_intent cid i q ref t s :
  fresh_id repr (abs s) cid -> covered (abs s) i ->
  refines_at (register cid (new_order cid i PENDING_SUBMIT t None None);;;
              on_store (append "intent" (intent_fields cid i q ref)))%py s.
Proof using All.
  intros Hf Hcv Hs. pose proof Hs as [H1 H2 H3 H4].
  unfold sbind, register, smod. cbv beta iota zeta. rewrite on_store_append by done.
  apply refines_step; simpl; try done. rewrite abs_journalled. simpl. rewrite H2.
  apply rtc_once, (as_intent _ _ _ _ (abs s)); [done| |done]. apply clock_ok.
Qed.

Lemma refines_result cid o out o' pre gwt s :
  dget (om_orders s) cid = Some o -> status o = PENDING_SUBMIT -> ids_iff_accepted out ->
  apply_outcome out o = Ok o' ->
  refines_at (smod (upd_order cid (fun _ => o'));;;
              on_store (append "submit_result" (submit_result_fields cid out (status o') pre gwt)))%py s.
Proof.
  intros Hk Hp Hi Ha Hs. pose proof Hs as [H1 H2 H3 H4].
  unfold sbind, smod, upd_order. rewrite Hk. cbv beta iota zeta. rewrite on_store_append by done.
  apply refines_step; simpl; try done. rewrite abs_journalled. simpl. rewrite H2.
  by apply rtc_once, (as_result _ _ _ _ (abs s)) with o.
Qed.

(** Sequencing is associative, so a pair of statements can be taken together. *)
Lemma refines_pair {A B C} (c1 : M A) (c2 : M B) (k : B -> M C) s :
  refines_at (sbind c1 (fun _ => sbind c2 k)) s <->
  refines_at (sbind (sbind c1 (fun _ => c2)) k) s.
Proof.
  assert (E : fst (sbind c1 (fun _ => sbind c2 k) s) = fst (sbind (sbind c1 (fun _ => c2)) k s)).
  { unfold sbind. destruct (c1 s) as [s1 [a|e]]; [|done]. by destruct (c2 s1) as [s2 [b|e]]. }
  unfold refines_at. by rewrite E.
Qed.

Lemma on_store_orders {A} (c : stx (G * World) exec_exc A) s :
  om_orders (fst (on_store c s)) = om_orders s.
Proof. unfold on_store. by destruct (c _) as [p r]. Qed.

Lemma on_store_seq {A} (c : stx (G * World) exec_exc A) s :
  om_seq (fst (on_store c s)) = om_seq s.
Proof. unfold on_store. by destruct (c _) as [p r]. Qed.

Lemma refines_send cid i q ref entry s :
  fresh_id repr (abs s) cid -> covered (abs s) i -> refines_at (send_order cid i q ref entry) s.
Proof using All.
  intros Hf Hcv. unfold send_order. apply refines_bind_at; [apply refines_ask|].
  intros t s1 _ Hs1 E1. unfold ask in E1. simplify_eq. cbv zeta. set (o := new_order _ _ _ _ _ _).
  apply refines_pair, refines_bind_at; [by apply refines_register_intent|].
  intros [] s2 _ Hs2 E2.
  assert (Hk2 : dget (om_orders s2) cid = Some o).
  { unfold sbind, register, smod in E2. rewrite on_store_append in E2 by apply Hs1.
    simplify_eq. simpl. by rewrite dget_dset_eq. }
  apply refines_bind_at; [apply refines_ask|]. intros st s3 _ Hs3 E3. unfold ask in E3. simplify_eq.
  apply refines_bind_at; [apply refines_time|]. intros [] s4 _ Hs4 E4. unfold smod in E4. simplify_eq.
  apply refines_bind_at; [apply refines_ask|]. intros pre s5 _ Hs5 E5. unfold ask in E5. simplify_eq.
  apply refines_bind_at.
  { eapply (refines_gateway _ cid o); [|done|done]. apply (gl_submit o q). }
  intros out s6 _ Hs6 E6. apply refines_bind_at; [apply refines_ask|].
  intros post s7 _ Hs7 E7. unfold ask in E7. simplify_eq.
  apply refines_bind_at; [apply refines_lift|]. intros o' s8 _ Hs8 E8. unfold slift in E8. simplify_eq.
  apply refines_pair, refines_bind_at; [|intros; apply refines_ret].
  eapply (refines_result cid o); [|done| |done].
  - apply (f_equal fst), (f_equal om_orders) in E6. rewrite on_store_orders in E6.
    simpl in *. by rewrite <- E6.
  - unfold on_store in E6. destruct (gw_submit o q _) as [p r] eqn:E. simplify_eq.
    by eapply (gl_outcome o q).
Qed.

Lemma refines_pre_trade i q : refines (pre_trade limits ccosts i q).
Proof using All.
  unfold pre_trade. repeat (apply refines_bind; [|intros ?]); try prim.
  destruct (side i); [apply refines_quiet, gl_cash|prim].
Qed.

(** A query leaves everything but the gateway and the clock alone. *)
Record frame (s s' : Oms G) : Prop := {
  fr_orders : om_orders s' = om_orders s;
  fr_seq : om_seq s' = om_seq s;
  fr_times : om_submit_times s' = om_submit_times s;
  fr_block : om_block s' = om_block s;
  fr_ledger : w_ledger (om_world s') = w_ledger (om_world s);
  fr_journal : w_journal (om_world s') = w_journal (om_world s)
}.

Lemma frame_refl s : frame s s.
Proof. by split. Qed.

Lemma frame_trans s1 s2 s3 : frame s1 s2 -> frame s2 s3 -> frame s1 s3.
Proof. intros [] []; split; congruence. Qed.

Lemma frame_ask {A} (f : nat -> A) s : frame s (fst (ask f s)).
Proof. by split. Qed.

Lemma frame_bind {A B} (c : M A) (k : A -> M B) s :
  frame s (fst (c s)) -> (forall a s', frame s' (fst (k a s'))) -> frame s (fst (sbind c k s)).
Proof.
  intros Hc Hk. unfold sbind. destruct (c s) as [s' [a|e]]; simpl in *; [|done].
  eapply frame_trans; [exact Hc|apply Hk].
Qed.

Lemma frame_quiet {A} (c : stx (G * World) exec_exc A) s :
  writes_only (fun _ => False) c -> frame s (fst (on_store c s)).
Proof.
  intros Hc. specialize (Hc (om_gw s) (om_world s)). unfold on_store.
  destruct (c (om_gw s, om_world s)) as [[g w] r]; simpl in *.
  destruct Hc as [Hm Htn (rs & Hr & HF) Hl Hcl].
  assert (rs = []) as -> by (destruct rs as [|? ?]; [done|]; by apply Forall_cons in HF as [[] _]).
  split; simpl; try done. rewrite app_nil_r in Hr.
  destruct (w_journal w), (w_journal (om_world s)); simpl in *; congruence.
Qed.

Lemma frame_pre_trade i q s : frame s (fst (pre_trade limits ccosts i q s)).
Proof using HL.
  unfold pre_trade. apply frame_bind; [apply frame_refl|]. intros ref s1.
  apply frame_bind; [destruct (side i); [apply frame_quiet, gl_cash|apply frame_refl]|].
  intros od s2. apply frame_bind; [apply frame_ask|]. intros t s3.
  apply frame_bind; [apply frame_ask|]. intros kill s4.
  repeat (apply frame_bind; [apply frame_refl|]; intros ? ?). apply frame_refl.
Qed.

(** The orderable cash the gate reads from the store [st], and the store after it: what
    the gateway answers for a buy, nothing for a sale. *)
Definition cash_read (i : OrderIntent) (ref : Z) (st : G * World) (cash : Z) (st' : G * World) : Prop :=
  match side i with
  | BUY => gw_orderable_cash (symbol i) ref (order_type i) st = (st', Ok cash)
  | SELL => cash = 0 /\ st' = st
  end.

(** What a passed gate says about the manager it was evaluated in: the rules hold for
    the cash the gateway answered, the fee estimate of the order's value and the time and
    the kill switch read after it. *)
Lemma pre_trade_safe i q s s' ref :
  pre_trade limits ccosts i q s = (s', Ok ref) ->
  exists cash st est,
    cash_read i ref (om_gw s, om_world s) cash st /\ commission ccosts (qty i * ref) = Ok est /\
    let n := w_clock (snd st) in
    safe_order i q limits (risk_context s i (kill_at (S n)) cash est (now n)) ref.
Proof using HL.
  unfold pre_trade. unfold sbind at 1, slift at 1.
  destruct (reference_price i q) as [ref'|] eqn:Er; [|done].
  set (c := match side i with BUY => _ | SELL => _ end). unfold sbind at 1.
  assert (Hf : frame s (fst (c s)))
    by (unfold c; destruct (side i); [apply frame_quiet, gl_cash|apply frame_refl]).
  assert (Hread : forall s1 od, c s = (s1, Ok od) -> cash_read i ref' (om_gw s, om_world s) od (om_gw s1, om_world s1)).
  { unfold c, cash_read. intros s1 od. destruct (side i).
    - unfold on_store. destruct (gw_orderable_cash _ _ _ _) as [[g w] r]. intros; by simplify_eq.
    - unfold sret. intros; by simplify_eq. }
  destruct (c s) as [s1 [od|e]]; simpl in Hf; [|done]. specialize (Hread s1 od eq_refl).
  unfold sbind, slift, ask, sget, sret. destruct (commission _ _) as [est|] eqn:Ecm; [|done].
  destruct (check_intent _ _ _ _) as [[]|] eqn:Ec; [|done]. intros; simplify_eq.
  apply check_intent_sound in Ec as [r Hc]. pose proof (so_ref _ _ _ _ _ Hc) as Hr.
  rewrite Er in Hr. simplify_eq. destruct Hf as [Ho _ Ht Hb Hl _].
  exists od, (om_gw s1, om_world s1), est. split; [done|]. split; [done|].
  unfold risk_context in *; simpl in *. rewrite Ho, Ht, Hb, Hl in Hc. exact Hc.
Qed.

Lemma pre_trade_covered i q s s' ref :
  pre_trade limits ccosts i q s = (s', Ok ref) -> covered (abs s') i.
Proof using HL.
  intros Hp. pose proof (frame_pre_trade i q s) as [Ho _ _ _ Hl _]. rewrite Hp in Ho, Hl.
  simpl in Ho, Hl. apply pre_trade_safe in Hp as (od & st & est & _ & _ & Hs).
  unfold covered. simpl. rewrite Hl, Ho. split; [apply Hs|].
  intros Hsd. pose proof (so_sell _ _ _ _ _ Hs Hsd) as Hq. simpl in Hq. lia.
Qed.

Lemma refines_submit i : refines (submit limits ccosts i).
Proof using All.
  intros s. unfold submit.
  apply refines_bind_at; [prim|]. intros [] s1 _ Hs1 E1.
  apply refines_bind_at; [prim|]. intros entry s2 _ Hs2 E2.
  apply refines_bind_at; [prim|]. intros rq s3 _ Hs3 E3.
  apply refines_bind_at; [prim|]. intros q s4 _ Hs4 E4.
  apply refines_bind_at.
  { intros Hs. pose proof Hs as [? ? ? ?]. apply refines_step; simpl; try done; [lia|].
    apply rtc_once, (as_bump _ _ _ _ (abs s4)). }
  intros [] s5 _ Hs5 E5.
  apply refines_bind_at; [prim|]. intros s6 s6' _ Hs6 E6.
  apply refines_bind_at; [prim|]. intros t s7 _ Hs7 E7.
  clear E1 E2 E3 E4 Hs1 Hs2 Hs3. unfold smod, sget in *. simplify_eq.
  assert (Ho7 : om_orders s7 = om_orders s4 /\ om_seq s7 = om_seq s4 + 1)
    by (unfold ask in E7; by simplify_eq). destruct Ho7 as [Ho7 Hq7]. cbv zeta.
  set (cid := mk_client_id gw_mode t _).
  assert (Hf : forall s', om_orders s' = om_orders s4 -> om_seq s' = om_seq s4 + 1 ->
                 fresh_id repr (abs s') cid).
  { intros s' Ho Hq. assert (Hc : seq_of repr (JStr cid) = Ok (om_seq s4 + 1))
      by (apply seq_of_client_id; pose proof (si_seq _ Hs4); lia).
    split; [|exists (om_seq s4 + 1); simpl; split; [done|lia]]. simpl. rewrite Ho.
    destruct (dget (om_orders s4) cid) as [o|] eqn:Hk; [|done]. exfalso.
    apply (ai_entry _ _ (si_inv _ Hs4)) in Hk as (_ & _ & n & Hn & Hle). simpl in Hle.
    rewrite Hc in Hn. simplify_eq. lia. }
  intros _. destruct (refines_pre_trade i q s7 Hs7) as [Hst Hi].
  destruct (frame_pre_trade i q s7) as [Ho Hq _ _ _ _]. rewrite Ho7 in Ho. rewrite Hq7 in Hq.
  unfold catch_risk.
  destruct (pre_trade limits ccosts i q s7) as [s8 [ref|e]] eqn:Ep; simpl in Ho, Hq, Hst, Hi.
  - destruct (refines_send cid i q ref entry s8 (Hf s8 Ho Hq) (pre_trade_covered _ _ _ _ _ Ep) Hi)
      as [Hst' Hi'].
    split; [by etransitivity|done].
  - destruct e as [rc detail| | | | | | | | |]; simpl; try (by split).
    destruct (refines_risk_rejected cid i q rc detail s8 (Hf s8 Ho Hq) Hi) as [Hst' Hi'].
    split; [by etransitivity|done].
Qed.

(** ** Cancellation *)

Lemma refines_cancel cid : refines (cancel cid).
Proof using All.
  unfold cancel. intros s. apply refines_bind_at; [prim|]. intros [] s1 _ Hs1 _.
  apply refines_bind_at; [prim|]. intros o s2 _ Hs2 E2.
  unfold find_order in E2. destruct (dget (om_orders s1) cid) as [o'|] eqn:Hk; simplify_eq.
  destruct (is_terminal (status o)) eqn:Et; [prim|].
  destruct (broker_order_no o); [|prim].
  pose proof (ai_entry _ _ (si_inv _ Hs2) cid o Hk) as (Hc & _).
  apply refines_bind_at.
  { eapply (refines_gateway _ cid o); [|done|done]. rewrite <- Hc. apply gl_cancel. }
  intros out s3 _ Hs3 E3. apply refines_bind_at; [|intros; prim].
  eapply (refines_note _ _ cid o); [|done|].
  - apply (f_equal fst), (f_equal om_orders) in E3. rewrite on_store_orders in E3.
    simpl in E3. by rewrite <- E3.
  - intros ts m. apply about_record; simpl; try done; key_side.
Qed.

(** ** Reconciliation *)

Lemma by_no_spec statuses no b :
  dget (by_no statuses) no = Some b -> b ∈ statuses /\ b_order_no b = no.
Proof.
  unfold by_no.
  assert (Hg : forall d, (forall k x, dget d k = Some x -> x ∈ statuses /\ b_order_no x = k) ->
            forall l, (forall x, x ∈ l -> x ∈ statuses) ->
            dget (fold_left (fun d s => dset d (b_order_no s) s) l d) no = Some b ->
            b ∈ statuses /\ b_order_no b = no).
  { intros d Hd l. revert d Hd. induction l as [|x l IH]; simpl; intros d Hd Hl Hb; [by apply Hd|].
    eapply IH; [|set_solver|exact Hb]. intros k y Hy.
    destruct (decide (b_order_no x = k)) as [<-|Hne].
    - rewrite dget_dset_eq in Hy. simplify_eq. set_solver.
    - rewrite dget_dset_ne in Hy by done. by apply Hd. }
  apply Hg; [done|auto].
Qed.

Lemma refines_adopt_one statuses cid acc : refines (adopt_one statuses cid acc).
Proof using All.
  unfold adopt_one. intros s. apply refines_bind_at; [prim|]. intros o s1 _ Hs1 E1.
  unfold find_order in E1. destruct (dget (om_orders s) cid) as [o'|] eqn:Hk; simplify_eq.
  pose proof (ai_entry _ _ (si_inv _ Hs1) cid o Hk) as (Hc & _).
  destruct acc as [known changed].
  destruct (negb _) eqn:Eu; [prim|]. bprop.
  assert (Hnote : forall cands, refines_at (on_store (append "unknown_ambiguous"
                    (ambiguous_fields (client_id o) cands));;; sret (known, changed))%py s1).
  { intros cands. apply refines_bind_at; [|intros; prim].
    eapply (refines_note _ _ cid o); [done|by rewrite Eu|].
    intros ts m. apply about_record; simpl; try done; try key_side; by rewrite Hc. }
  destruct (List.filter _ statuses) as [|b [|b' bs]]; [prim| |apply Hnote].
  apply refines_pair, refines_bind_at; [|intros; prim].
  intros Hs. pose proof Hs as [H1 H2 H3 H4]. unfold sbind, smod, upd_order. rewrite Hk.
  rewrite on_store_append by done. apply refines_step; simpl; try done.
  rewrite abs_journalled. simpl. rewrite H2, Hc.
  by apply rtc_once, (as_adopt _ _ _ _ (abs s1)).
Qed.

(** Two assignments to the same order object. *)
Lemma upd_order_twice cid f g (s : Oms G) o :
  dget (om_orders s) cid = Some o ->
  upd_order cid g (upd_order cid f s) = set_orders (dset (om_orders s) cid (g (f o))) s.
Proof.
  intros Hs. unfold upd_order. rewrite Hs. simpl. rewrite dget_dset_eq.
  unfold set_orders; simpl. by rewrite dset_dset.
Qed.

(** The state after one settled order, when nothing raises. *)
Lemma settle_one_ok parents cid o b changed s st l' :
  j_torn (w_journal (om_world s)) = [] ->
  dget (om_orders s) cid = Some o ->
  filled_qty o <= b_filled_qty b <= qty (intent o) ->
  derive_status b (bool_decide (default "" (broker_order_no o) ∈ parents)) = Ok st ->
  transition (status o) st = Ok st ->
  settle_ledger o b (w_ledger (om_world s)) l' ->
  exists s' ts1 ts2 r, settle_one parents cid o b changed s = (s', Ok r) /\
    abs s' = mkAS (dset (om_orders s) cid (settled o b st)) l'
               (map snd (j_records (w_journal (om_world s))) ++
                settle_records (j_mode (w_journal (om_world s))) ts1 ts2 o b st
                  (bool_decide (default "" (broker_order_no o) ∈ parents))) (om_seq s) /\
    j_torn (w_journal (om_world s')) = [] /\
    j_mode (w_journal (om_world s')) = j_mode (w_journal (om_world s)) /\ om_seq s' = om_seq s.
Proof.
  intros Ht Hk Hf Hd Htr Hl. unfold settle_one.
  destruct (_ || _) eqn:E0; [apply orb_true_iff in E0 as [?|?]; bprop; lia|]. clear E0.
  set (child := bool_decide _) in *. cbv zeta.
  unfold settle_ledger in Hl. unfold sbind at 1, slift at 1. rewrite Hd.
  unfold book_fill, settle_records. destruct (0 <? delta_qty o b) eqn:Edq.
  - destruct Hl as [pnl Hl]. unfold sbind, ledger_fill, slift, smod, sret. rewrite Hl.
    rewrite on_store_append by done. rewrite Htr. rewrite (upd_order_twice _ _ _ _ o) by done. rewrite orb_true_r.
    rewrite on_store_append by done. do 4 eexists. split; [done|].
    split; [|done]. unfold abs. simpl. by rewrite !map_app, <- app_assoc.
  - subst l'. unfold sbind, slift, smod, sret. rewrite Htr. rewrite (upd_order_twice _ _ _ _ o) by done.
    rewrite orb_false_r. destruct (negb _).
    + rewrite on_store_append by done. eexists _, "", _, _. split; [done|].
      split; [|done]. unfold abs. simpl. by rewrite !map_app.
    + exists (set_orders (dset (om_orders s) cid (settled o b st)) s), "", "", changed.
      split; [done|]. split; [|done]. unfold abs. simpl. by rewrite app_nil_r.
Qed.

Lemma refines_settle_one parents cid o b changed s :
  dget (om_orders s) cid = Some o -> is_terminal (status o) = false ->
  broker_order_no o = Some (b_order_no b) -> okb b ->
  refines_at (settle_one parents cid o b changed) s.
Proof using All.
  intros Hk Ht Hb Hokb Hs. pose proof Hs as [H1 H2 H3 H4].
  pose proof (ai_entry _ _ H4 cid o Hk) as (Hc & Hok & _).
  destruct ((b_filled_qty b <? filled_qty o) || (qty (intent o) <? b_filled_qty b)) eqn:E0.
  { unfold settle_one. rewrite E0. revert Hs. change (refines_at
      (on_store (append "integrity_violation" (violation_fields o b));;;
       sraise (A := list string) (BrokerIntegrityError
         (String.append "cumulative fill moved backwards or exceeded: "
            (str_of_Z (b_filled_qty b)))))%py s).
    apply refines_bind_at; [|intros; prim].
    eapply (refines_note _ _ cid o); [done|done|]. intros ts m.
    apply about_record; simpl; try done; try key_side; by rewrite Hc. }
  assert (Hf : filled_qty o <= b_filled_qty b <= qty (intent o)) by (bprop; lia).
  destruct (derive_status b (bool_decide (default "" (broker_order_no o) ∈ parents)))
    as [st|e] eqn:Ed.
  2: { unfold settle_one. rewrite E0. cbv zeta. unfold sbind at 1, slift. rewrite Ed. simpl.
       by split. }
  assert (Hps : status o <> PENDING_SUBMIT)
    by (intros Hps; apply (pending_no_broker _ Hok) in Hps; congruence).
  pose proof (settle_transition o b st _ Hok Ht Hps ltac:(lia) Ed) as Htr.
  assert (Hl : (exists l', settle_ledger o b (w_ledger (om_world s)) l') \/
               (exists e, (0 <? delta_qty o b) = true /\
                  apply_fill (w_ledger (om_world s)) (symbol (intent o)) (side (intent o))
                    (delta_qty o b) (delta_amount o b) = Raise e)).
  { unfold settle_ledger. destruct (0 <? delta_qty o b); [|by eauto].
    destruct (apply_fill _ _ _ _ _) as [[l' pnl]|e]; eauto. }
  destruct Hl as [[l' Hl]|(e & Edq & Ea)].
  - destruct (settle_one_ok parents cid o b changed s st l' H1 Hk ltac:(lia) Ed Htr Hl)
      as (s' & ts1 & ts2 & r & Eq & Ha & Ht' & Hm' & Hq'). rewrite Eq. simpl.
    apply refines_step; simpl; try done; [congruence|lia|]. rewrite Ha, H2.
    apply rtc_once. eapply (as_settle _ _ _ _ (abs s)); eauto; lia.
  - unfold settle_one. rewrite E0. cbv zeta. unfold sbind at 1, slift. rewrite Ed.
    unfold book_fill. rewrite Edq. unfold sbind, ledger_fill. rewrite Ea. simpl. by split.
Qed.

Lemma refines_reconcile_one statuses cid changed :
  Forall okb statuses -> refines (reconcile_one statuses cid changed).
Proof using All.
  intros Hst s. unfold reconcile_one. apply refines_bind_at; [prim|]. intros o s1 _ Hs1 E1.
  unfold find_order in E1. destruct (dget (om_orders s) cid) as [o'|] eqn:Hk; simplify_eq.
  destruct (is_terminal (status o)) eqn:Et; [prim|].
  destruct (broker_order_no o) as [no|] eqn:Eb; [|prim].
  destruct (dget (by_no statuses) no) as [b|] eqn:En; [|prim].
  apply by_no_spec in En as [Hin <-]. apply refines_settle_one; try done.
  rewrite Forall_forall in Hst. by apply Hst.
Qed.

Lemma refines_for_keys {A} (body : string -> A -> M A) ks : forall a,
  (forall k a, refines (body k a)) -> refines (for_keys body ks a).
Proof.
  induction ks as [|k ks IH]; intros a Hb; simpl; [intros s; prim|].
  apply refines_bind; [apply Hb|]. intros a'. by apply IH.
Qed.

(** What the broker reports from state [s] on. *)
Definition broker_ok (s : Oms G) : Prop :=
  forall p st, gw_fetch_statuses (om_gw s, om_world s) = (p, Ok st) -> Forall okb st.

Lemma refines_reconcile s : broker_ok s -> refines_at reconcile s.
Proof using All.
  intros Hb. unfold reconcile. apply refines_bind_at; [prim|]. intros [] s1 _ Hs1 E1.
  unfold ensure_open in E1. destruct (om_closed s); simplify_eq.
  apply refines_bind_at; [apply refines_quiet, gl_fetch|]. intros st s2 _ Hs2 E2.
  assert (HF : Forall okb st).
  { unfold on_store in E2. destruct (gw_fetch_statuses _) as [p r] eqn:E. simplify_eq. by eapply Hb. }
  apply refines_bind_at; [prim|]. intros s3 s3' _ Hs3 _.
  apply refines_bind_at; [apply refines_for_keys; intros; apply refines_adopt_one|].
  intros acc s4 _ _ _.
  apply refines_bind_at; [apply refines_for_keys; intros; by apply refines_reconcile_one|].
  intros ch s5 _ _ _. apply refines_bind_at; [prim|]. intros. prim.
Qed.

Lemma refines_resolve cid reason s : broker_ok s -> refines_at (resolve_unknown cid reason) s.
Proof using All.
  intros Hb. unfold resolve_unknown. apply refines_bind_at; [prim|]. intros [] s1 _ Hs1 E1.
  unfold ensure_open in E1. destruct (om_closed s); simplify_eq.
  apply refines_bind_at; [prim|]. intros o s2 _ Hs2 E2.
  unfold find_order in E2. destruct (dget (om_orders s1) cid) as [o'|] eqn:Hk; simplify_eq.
  destruct (negb _); [prim|].
  apply refines_bind_at; [by apply refines_reconcile|]. intros ch s3 _ Hs3 _.
  apply refines_bind_at; [prim|]. intros o1 s4 _ Hs4 E4.
  unfold find_order in E4. destruct (dget (om_orders s3) cid) as [o'|] eqn:Hk1; simplify_eq.
  destruct (_ || _) eqn:Eu; [prim|]. apply orb_false_iff in Eu as [Eu Eb]. bprop.
  apply refines_bind_at; [prim|]. intros st s5 _ Hs5 E5. unfold slift in E5. rewrite Eu in E5.
  vm_compute in E5. simplify_eq. cbv zeta.
  apply refines_pair, refines_bind_at; [|intros; prim].
  intros Hs. pose proof Hs as [H1 H2 H3 H4]. unfold sbind, smod, upd_order. rewrite Hk1.
  rewrite on_store_append by done. apply refines_step; simpl; try done.
  rewrite abs_journalled. simpl. rewrite H2.
  by apply rtc_once, (as_resolve _ _ _ _ (abs s5)).
Qed.

(** ** The gate seen from outside *)

Lemma on_store_times {A} (c : stx (G * World) exec_exc A) s :
  om_submit_times (fst (on_store c s)) = om_submit_times s.
Proof. unfold on_store. by destruct (c _). Qed.

(** Once the intent is journalled the submission counts toward the rate limit. *)
Lemma send_order_times cid i q ref entry s :
  j_torn (w_journal (om_world s)) = [] ->
  exists t, om_submit_times (fst (send_order cid i q ref entry s)) = om_submit_times s ++ [t].
Proof.
  intros Ht. unfold send_order, sbind, ask, register, smod, slift, sret. cbv beta iota zeta.
  rewrite on_store_append by done. eexists.
  match goal with |- context [on_store (gw_submit ?o q) ?x] =>
    pose proof (on_store_times (gw_submit o q) x) as Ho;
    destruct (on_store (gw_submit o q) x) as [s1 [out|e]] end; simpl in *; [|by rewrite Ho].
  destruct (apply_outcome _ _) as [o'|e]; simpl in *; [|by rewrite Ho]. unfold upd_order; simpl.
  match goal with |- context [on_store (append ?ev ?fs) ?x] =>
    pose proof (on_store_times (append ev fs) x) as Ho2;
    destruct (on_store (append ev fs) x) as [s2 [out2|e]] end; simpl in *;
    rewrite Ho2; rewrite <- Ho; by destruct (dget _ _).
Qed.

(** The world when its clock has been read [n] times. *)
Definition at_clock (n : nat) (w : World) : World := mkWorld (w_journal w) (w_ledger w) n.

(** The prologue of [submit] up to the gate: three readings, of which the second is the quote. *)
Lemma submit_inv i s s' r :
  submit limits ccosts i s = (s', r) ->
  let k := w_clock (om_world s) in
  (r = Raise (ExecutionError "order session is closed") /\ om_closed s = true /\ s' = s) \/
  (om_closed s = false /\ exists s1, om_submit_times s1 = om_submit_times s /\
     om_orders s1 = om_orders s /\ om_block s1 = om_block s /\
     w_ledger (om_world s1) = w_ledger (om_world s) /\
     w_journal (om_world s1) = w_journal (om_world s) /\
     ((exists e, quote_at (S k) (symbol i) = Raise e /\ s' = s1 /\ r = Raise e) \/
      (exists q cid entry, quote_at (S k) (symbol i) = Ok q /\
         (om_gw s1, om_world s1) = (om_gw s, at_clock (S (S (S k))) (om_world s)) /\
         catch_risk (pre_trade limits ccosts i q) (risk_rejected cid i q)
           (fun ref => send_order cid i q ref entry) s1 = (s', r)))).
Proof.
  unfold submit, sbind, ensure_open, ask, slift, smod, sget. destruct (om_closed s).
  - intros; simplify_eq. by left.
  - intros Hr. right. split; [done|].
    simpl in Hr.
    destruct (quote_at _ _) as [q|e] eqn:Eq.
    + eexists. split_and!; cycle -1; [right; do 3 eexists; split; [done|]; split; [|exact Hr]|..]; done.
    + simplify_eq. eexists. split_and!; cycle -1; [left; by eauto|..]; done.
Qed.
End Refine.
