(* ===== verification/ExecRestore.v ===== *)
(** * Restoring a session from its own journal

    The simulation between the live session and the orders and ledger that
    [restore_session] rebuilds from the records the session wrote, one machine
    step at a time. *)
From S2P Require Import Prelude PyStr PyTime PyFloat ExecContracts ExecLedger ExecRisk ExecJournal.
From S2P Require Import KisTrading ExecGateways ExecRecovery ExecOms ExecMachine.

(** Recovery cannot tell an empty text from a missing one. *)
Definition norm_text (x : option string) : option string :=
  match x with Some s => if decide (s = "") then None else Some s | None => None end.

(** The status after [settle_pending]. *)
Definition settled_status (s : OrderStatus) : OrderStatus :=
  match s with PENDING_SUBMIT => UNKNOWN | _ => s end.

(** The restored order against the live one: everything but the creation time,
    with an unanswered submission counted as unknown. *)
Record osim (o o' : Order) : Prop := {
  os_id : client_id o' = client_id o;
  os_intent : intent o' = intent o;
  os_status : settled_status (status o') = settled_status (status o);
  os_no : broker_order_no o' = broker_order_no o;
  os_org : broker_org_no o' = broker_org_no o;
  os_time : broker_order_time o' = broker_order_time o;
  os_filled : filled_qty o' = filled_qty o;
  os_amount : filled_amount_krw o' = filled_amount_krw o;
  os_code : norm_text (reject_code o') = norm_text (reject_code o);
  os_msg : norm_text (reject_message o') = norm_text (reject_message o)
}.

(** Every order that was sent is restored; what is missing was rejected before
    anything was sent. *)
Definition sim (live rest : list (string * Order)) : Prop :=
  forall k,
    match dget rest k with
    | Some o' => exists o, dget live k = Some o /\ osim o o'
    | None => forall o, dget live k = Some o ->
                status o = REJECTED /\ broker_order_no o = None /\ filled_qty o = 0
    end.

(** ** Reading written records *)

Section Fields.
Variable repr : json -> string.
Variable fromisoformat : string -> option datetime.

Lemma redact_outcome out : redact (outcome_json out) = outcome_json out.
Proof. destruct out as [k [?|] [?|] [?|] c m]; vm_compute; reflexivity. Qed.

Lemma redact_intent i : redact (intent_json i) = intent_json i.
Proof. destruct i as [s sd q t [?|] tg]; vm_compute; reflexivity. Qed.

Lemma intent_of_json i : intent_of repr (intent_json i) = Ok i.
Proof. destruct i as [s [] q [] [?|] tg]; vm_compute; reflexivity. Qed.

(** A field of a written record. *)
Lemma jget_record ts m ev fs k v :
  NoDup (dkeys fs) -> k ∉ ["ts"; "mode"; "event"] -> dget fs k = Some v ->
  jget (mk_record ts m ev fs) k = redact v.
Proof. intros Hn Hk Hv. unfold jget. by rewrite mk_record_get, Hv. Qed.

Lemma text_or_none_str s : text_or_none repr (JStr s) = norm_text (Some s).
Proof.
  unfold text_or_none, norm_text, truthy, pstr, py_str. destruct (decide (s = "")) as [->|Hs]; [done|].
  rewrite bool_decide_eq_false_2 by done. simpl. by rewrite decide_False.
Qed.

Lemma norm_text_idem x : norm_text (norm_text x) = norm_text x.
Proof. destruct x as [s|]; simpl; [|done]. case_decide; simpl; [done|]. by rewrite decide_False. Qed.

(** ** One record at a time *)

Lemma replay_app a : forall o b,
  replay repr fromisoformat o (a ++ b) =
  (o' <~ replay repr fromisoformat o a;; replay repr fromisoformat o' b)%py.
Proof.
  induction a as [|r a IH]; intros o b; [done|]. simpl.
  destruct (replay1 repr fromisoformat o r); simpl; [apply IH|done].
Qed.

Lemma scan_app a : forall x b,
  scan repr fromisoformat x (a ++ b) =
  (x' <~ scan repr fromisoformat x a;; scan repr fromisoformat x' b)%py.
Proof.
  induction a as [|r a IH]; intros x b; [done|]. simpl.
  destruct (scan1 repr fromisoformat x r); simpl; [apply IH|done].
Qed.

Lemma replay_fills_app a : forall orders l b,
  replay_fills repr (a ++ b) orders l =
  (l' <~ replay_fills repr a orders l;; replay_fills repr b orders l')%py.
Proof.
  induction a as [|r a IH]; intros orders l b; [done|]. simpl.
  destruct (jis _ _); [|apply IH]. destruct (dget orders _); [|done].
  destruct (integer repr _); simpl; [|done]. destruct (integer repr _); simpl; [|done].
  destruct (apply_fill _ _ _ _ _); simpl; [apply IH|done].
Qed.

(** Replaying fills only looks at the intents of the orders filled. *)
Lemma replay_fills_ext rs : forall orders orders' l l',
  (forall k o, dget orders k = Some o -> exists o', dget orders' k = Some o' /\ intent o' = intent o) ->
  replay_fills repr rs orders l = Ok l' -> replay_fills repr rs orders' l = Ok l'.
Proof.
  induction rs as [|r rs IH]; intros orders orders' l l' He Hr; [done|]. simpl in *.
  destruct (jis _ _); [|by eapply IH].
  destruct (dget orders _) as [o|] eqn:Eo; [|done]. apply He in Eo as (o' & -> & ->).
  destruct (integer repr _); simpl in *; [|done]. destruct (integer repr _); simpl in *; [|done].
  destruct (apply_fill _ _ _ _ _); simpl in *; [|done]. by eapply IH.
Qed.

Lemma jis_str e s : jis (Some (JStr e)) s = bool_decide (e = s).
Proof. done. Qed.

Lemma replay1_event r ev cid n rest o o' :
  dget r "event" = Some (JStr ev) -> dget r "client_id" = Some (JStr cid) ->
  ev <> "intent" -> ev <> "risk_reject" ->
  seq_of repr (JStr cid) = Ok n -> dget rest cid = Some o ->
  replay_event repr ev r o = Ok o' ->
  replay1 repr fromisoformat rest r = Ok (dset rest cid o').
Proof.
  intros He Hc Hi Hr Hn Hk Ho. unfold replay1, jget, dmem. rewrite He, Hc. cbn [from_option id].
  rewrite !jis_str. rewrite bool_decide_eq_false_2 by done.
  rewrite (bool_decide_eq_false_2 (ev = "risk_reject")) by done.
  simpl negb. rewrite andb_true_r, orb_true_r. cbn [from_option id]. unfold id.
  rewrite Hn. simpl. unfold pstr, py_str. rewrite Hk, Ho. done.
Qed.

Lemma scan1_other r ev acc :
  dget r "event" = Some (JStr ev) -> ev <> "intent" -> ev <> "risk_reject" ->
  scan1 repr fromisoformat acc r = Ok acc.
Proof.
  intros He Hi Hr. unfold scan1, jget. rewrite He. cbn [from_option id]. unfold id. rewrite !jis_str.
  rewrite !bool_decide_eq_false_2 by done. simpl. by destruct acc.
Qed.

Lemma replay_fills_other r ev rs orders l :
  dget r "event" = Some (JStr ev) -> ev <> "fill" ->
  replay_fills repr (r :: rs) orders l = replay_fills repr rs orders l.
Proof. intros He Hf. simpl. rewrite He, jis_str. by rewrite bool_decide_eq_false_2. Qed.
End Fields.

(** ** The simulation *)

Section Simulation.
Variable repr : json -> string.
Variable fromisoformat : string -> option datetime.
Variable mode : ExecutionMode.
(** The broker's cumulative amount is a function of the order and its cumulative
    quantity, and nothing costs nothing. *)
Variable amt : string -> Z -> Z.
Hypothesis amt_zero : forall no, amt no 0 = 0.

Definition amount_fixed (b : BrokerOrderStatus) : Prop :=
  b_filled_amount_krw b = amt (b_order_no b) (b_filled_qty b).

Abbreviation step := (astep repr fromisoformat mode amount_fixed).

(** What recovery makes of the journal so far, against the live state. [L0] is
    the ledger of the earliest holdings snapshot. *)
Record restored (L0 : Ledger) (s : AS) (rest : list (string * Order)) (n : Z) (ts : list datetime)
    : Prop := {
  re_replay : replay repr fromisoformat [] (a_records s) = Ok rest;
  re_sim : sim (a_orders s) rest;
  re_keys : dkeys rest `sublist_of` dkeys (a_orders s);
  re_fills : replay_fills repr (a_records s) rest L0 = Ok (a_ledger s);
  re_scan : scan repr fromisoformat (0, []) (a_records s) = Ok (n, ts);
  re_seq : n <= a_seq s
}.
Definition restorable (L0 : Ledger) (s : AS) : Prop := exists rest n ts, restored L0 s rest n ts.

(** Amounts as the broker would report them. *)
Definition amounts_ok (s : AS) : Prop :=
  forall k o, dget (a_orders s) k = Some o ->
    filled_amount_krw o = match broker_order_no o with Some no => amt no (filled_qty o) | None => 0 end.

Lemma sim_dset live rest k o o' :
  sim live rest -> osim o o' -> sim (dset live k o) (dset rest k o').
Proof.
  intros Hs Ho k'. destruct (decide (k = k')) as [<-|Hne].
  - rewrite !dget_dset_eq. eauto.
  - rewrite !dget_dset_ne by done. apply Hs.
Qed.

Lemma sim_sent live rest k o :
  sim live rest -> dget live k = Some o -> is_terminal (status o) = false ->
  exists o', dget rest k = Some o' /\ osim o o'.
Proof.
  intros Hs Hk Ht. specialize (Hs k). destruct (dget rest k) as [o'|] eqn:E.
  - destruct Hs as (o1 & Hk1 & Ho). rewrite Hk in Hk1. simplify_eq. eauto.
  - apply Hs in Hk as (Hk & _). by rewrite Hk in Ht.
Qed.

(** Orders are stored under their ids, and ids carry a sequence number. *)
Definition ids_ok (s : AS) : Prop :=
  forall k o, dget (a_orders s) k = Some o ->
    client_id o = k /\ exists n, seq_of repr (JStr k) = Ok n.

Lemma ainv_ids s : ainv repr s -> ids_ok s.
Proof. intros Hi k o Hk. apply (ai_entry _ _ Hi) in Hk as (? & _ & ? & ? & _). eauto. Qed.

(** One record about an order in flight. *)
Lemma restorable_record L0 s cid o o1 r ev l' :
  restorable L0 s -> ids_ok s -> dget (a_orders s) cid = Some o ->
  is_terminal (status o) = false ->
  dget r "event" = Some (JStr ev) -> dget r "client_id" = Some (JStr cid) ->
  ev <> "intent" -> ev <> "risk_reject" -> intent o1 = intent o ->
  (forall o', osim o o' -> exists o1', replay_event repr ev r o' = Ok o1' /\ osim o1 o1') ->
  (forall rest' x, dget rest' cid = Some x -> intent x = intent o ->
     replay_fills repr [r] rest' (a_ledger s) = Ok l') ->
  restorable L0 (mkAS (dset (a_orders s) cid o1) l' (a_records s ++ [r]) (a_seq s)).
Proof.
  intros (rest & n & ts & [Hr Hs Hk0 Hf Hc Hq]) Hi Hk Ht He Hcid Hn1 Hn2 Hin Hev Hl.
  destruct (sim_sent _ _ _ _ Hs Hk Ht) as (o' & Hk' & Ho').
  destruct (Hev o' Ho') as (o1' & Hre & Ho1).
  pose proof (Hi _ _ Hk) as (_ & m & Hm).
  assert (Hi1 : intent o1' = intent o) by (rewrite (os_intent _ _ Ho1); done).
  exists (dset rest cid o1'), n, ts. split; simpl; try done.
  - rewrite replay_app, Hr. simpl. by erewrite replay1_event.
  - by apply sim_dset.
  - erewrite (dkeys_dset_bound rest), (dkeys_dset_bound (a_orders s)) by done. done.
  - rewrite replay_fills_app.
    rewrite (replay_fills_ext repr (a_records s) rest (dset rest cid o1') L0 (a_ledger s)); [|..|done].
    + simpl. apply (Hl _ o1'); [by rewrite dget_dset_eq|done].
    + intros k x Hx. destruct (decide (cid = k)) as [<-|Hne].
      * rewrite dget_dset_eq. rewrite Hk' in Hx. simplify_eq. exists o1'. split; [done|].
        rewrite Hi1. symmetry. apply Ho'.
      * rewrite dget_dset_ne by done. eauto.
  - rewrite scan_app, Hc. simpl. by erewrite scan1_other.
Qed.

Lemma restorable_same_orders L0 s orders :
  restorable L0 s -> (forall rest, sim (a_orders s) rest -> sim orders rest) ->
  dkeys orders = dkeys (a_orders s) ->
  restorable L0 (mkAS orders (a_ledger s) (a_records s) (a_seq s)).
Proof.
  intros (rest & n & ts & [Hr Hs Hk0 Hf Hc Hq]) Ho Hd. exists rest, n, ts.
  split; simpl; auto. by rewrite Hd.
Qed.

Lemma restorable_result L0 s cid o out o1 pre gwt ts :
  restorable L0 s -> ainv repr s -> dget (a_orders s) cid = Some o -> status o = PENDING_SUBMIT ->
  ids_iff_accepted out -> apply_outcome out o = Ok o1 ->
  restorable L0 (mkAS (dset (a_orders s) cid o1) (a_ledger s)
    (a_records s ++
     [mk_record ts mode "submit_result" (submit_result_fields cid out (status o1) pre gwt)]) (a_seq s)).
Proof.
  intros Hre Hi Hk Hp Hids Ha. pose proof (ai_entry _ _ Hi _ _ Hk) as (_ & Hok & _).
  destruct (apply_outcome_ok _ _ _ Ha Hp Hok) as (_ & _ & Hin & _).
  eapply (restorable_record L0 s cid o o1 _ "submit_result"); try done; try (by apply ainv_ids).
  - by rewrite Hp.
  - intros o' Ho'. unfold replay_event. rewrite decide_True by done. unfold replay_submit, status_of.
    rewrite (jget_record _ _ _ _ "status" (JStr (status_value (status o1)))) by (done || key_side).
    rewrite (jget_record _ _ _ _ "outcome" (outcome_json out)) by (done || key_side).
    rewrite redact_outcome. simpl. rewrite status_roundtrip. simpl.
    pose proof (ok_pending _ Hok Hp) as Hn. rewrite Hn in Ha, Ho'. clear Hn.
    destruct out as [k no org tm c m]; simpl in *.
    assert (Hopt : forall x, opt_text (jopt x) = Ok x) by (by intros []). unfold jget; simpl.
    rewrite !Hopt. simpl. eexists. split; [done|].
    unfold ids_iff_accepted in Hids; simpl in Hids.
    destruct Hids as [[-> _]|(Hk' & -> & -> & ->)]; simpl in *;
      [|destruct k; [done| |]]; vm_compute in Ha; simplify_eq; simpl;
      destruct Ho'; split; simpl; rewrite ?text_or_none_str, ?norm_text_idem; done.
Qed.

Lemma restorable_adopt L0 s cid o b ts :
  restorable L0 s -> ainv repr s -> dget (a_orders s) cid = Some o -> status o = UNKNOWN ->
  restorable L0 (mkAS (dset (a_orders s) cid (adopted o b)) (a_ledger s)
    (a_records s ++ [mk_record ts mode "unknown_adopted" (adopted_fields cid b)]) (a_seq s)).
Proof.
  intros Hre Hi Hk Hu.
  eapply (restorable_record L0 s cid o _ _ "unknown_adopted"); try done; try (by apply ainv_ids); [by rewrite Hu|].
  intros o' Ho'. eexists. split; [reflexivity|]. destruct Ho'. by split.
Qed.

Lemma restorable_resolve L0 s cid o reason ts :
  restorable L0 s -> ainv repr s -> dget (a_orders s) cid = Some o -> status o = UNKNOWN ->
  restorable L0 (mkAS (dset (a_orders s) cid (resolved o reason)) (a_ledger s)
    (a_records s ++ [mk_record ts mode "unknown_resolved" (resolved_fields cid reason)]) (a_seq s)).
Proof.
  intros Hre Hi Hk Hu.
  eapply (restorable_record L0 s cid o _ _ "unknown_resolved"); try done; try (by apply ainv_ids); [by rewrite Hu|].
  intros o' Ho'. eexists. split; [reflexivity|]. destruct Ho'. split; simpl; try done.
  change (jget _ "reason") with (JStr reason). by rewrite text_or_none_str, norm_text_idem.
Qed.

Lemma restorable_note L0 s cid o r :
  restorable L0 s -> ainv repr s -> dget (a_orders s) cid = Some o ->
  is_terminal (status o) = false -> about cid r ->
  restorable L0 (mkAS (a_orders s) (a_ledger s) (a_records s ++ [r]) (a_seq s)).
Proof.
  intros Hre Hi Hk Ht (Hc & e & He & Hn).
  assert (Hds : dset (a_orders s) cid o = a_orders s).
  { clear - Hk. induction (a_orders s) as [|[k v] d IH]; simpl in *; [done|].
    case_decide; simplify_eq; [done|]. by rewrite IH. }
  unfold neutral_event, ORDER_EVENTS in Hn. rewrite !not_elem_of_cons in Hn.
  destruct Hn as (N1 & N2 & N3 & N4 & N5 & N6 & N7 & N8 & _).
  rewrite <- Hds. eapply (restorable_record L0 s cid o o r e); try done; try (by apply ainv_ids).
  - intros o' Ho'. exists o'. split; [|done]. unfold replay_event. by rewrite !decide_False.
  - intros rest' x _ _. by rewrite (replay_fills_other _ _ e).
Qed.

Lemma restorable_fill L0 s cid o b l' pnl ts :
  restorable L0 s -> ainv repr s -> dget (a_orders s) cid = Some o ->
  is_terminal (status o) = false -> b_filled_qty b <= qty (intent o) -> 0 < delta_qty o b ->
  apply_fill (a_ledger s) (symbol (intent o)) (side (intent o)) (delta_qty o b) (delta_amount o b)
    = Ok (l', pnl) ->
  restorable L0 (mkAS (dset (a_orders s) cid (set_filled (b_filled_qty b) (b_filled_amount_krw b) o))
    l' (a_records s ++ [mk_record ts mode "fill" (fill_fields o b)]) (a_seq s)).
Proof.
  intros Hre Hi Hk Ht Hq Hd Ha. pose proof (ai_entry _ _ Hi _ _ Hk) as (Hc & _).
  assert (Hda : 0 <= delta_amount o b).
  { unfold apply_fill in Ha. destruct (_ || _) eqn:E in Ha; [done|]. bprop. lia. }
  eapply (restorable_record L0 s cid o _ _ "fill"); try done; try (by apply ainv_ids); [by simpl; rewrite Hc|..].
  - intros o' Ho'.
    exists (set_filled (b_filled_qty b) (b_filled_amount_krw b) o').
    split; [|destruct Ho'; by split].
    change (replay_event repr "fill" (mk_record ts mode "fill" (fill_fields o b)) o') with
      (if negb ((filled_qty o' <? b_filled_qty b) && (b_filled_qty b <=? qty (intent o')))
          || (b_filled_amount_krw b <? filled_amount_krw o')
          || negb (delta_qty o b =? b_filled_qty b - filled_qty o')
          || negb (delta_amount o b =? b_filled_amount_krw b - filled_amount_krw o')
       then err "inconsistent cumulative fill"
       else Ok (set_filled (b_filled_qty b) (b_filled_amount_krw b) o')).
    rewrite (os_filled _ _ Ho'), (os_amount _ _ Ho'), (os_intent _ _ Ho').
    unfold delta_qty, delta_amount in *.
    destruct (_ || _) eqn:E; [|done]. exfalso.
    rewrite !orb_true_iff, !negb_true_iff, andb_false_iff in E.
    rewrite Z.ltb_ge, Z.leb_gt, Z.ltb_lt, !Z.eqb_neq in E. lia.
  - intros rest' x Hx Hin.
    change (replay_fills repr [mk_record ts mode "fill" (fill_fields o b)] rest' (a_ledger s)) with
      (match dget rest' (client_id o) with
       | None => Raise (ForeignError "KeyError")
       | Some o1 =>
           (lr <~ apply_fill (a_ledger s) (symbol (intent o1)) (side (intent o1)) (delta_qty o b)
                    (delta_amount o b);;
            Ok (fst lr))%py
       end).
    by rewrite Hc, Hx, Hin, Ha.
Qed.

Lemma restorable_status L0 s cid o b st child ts :
  restorable L0 s -> ids_ok s -> dget (a_orders s) cid = Some o ->
  is_terminal (status o) = false -> filled_qty o = b_filled_qty b ->
  restorable L0 (mkAS (dset (a_orders s) cid (set_status st o)) (a_ledger s)
    (a_records s ++ [mk_record ts mode "status" (status_fields o st b child)]) (a_seq s)).
Proof.
  intros Hre Hi Hk Ht Hf. pose proof (Hi _ _ Hk) as (Hc & _).
  eapply (restorable_record L0 s cid o _ _ "status"); try done; [by simpl; rewrite Hc|].
  intros o' Ho'. exists (set_status st o'). split; [|destruct Ho'; by split].
  unfold replay_event. simpl. unfold replay_status, status_of.
  change (jget (mk_record ts mode "status" (status_fields o st b child)) "status")
    with (JStr (status_value st)).
  change (dget (mk_record ts mode "status" (status_fields o st b child)) "filled_qty")
    with (Some (JInt (b_filled_qty b))).
  simpl. rewrite status_roundtrip. simpl. by rewrite (os_filled _ _ Ho'), Hf, Z.eqb_refl.
Qed.

Lemma sim_absent live rest k : sim live rest -> dget live k = None -> dget rest k = None.
Proof.
  intros Hs Hk. specialize (Hs k). destruct (dget rest k) as [o'|]; [|done].
  destruct Hs as (o & Ho & _). congruence.
Qed.

Lemma restorable_reject L0 s cid i t c detail q ts :
  restorable L0 s -> fresh_id repr s cid ->
  restorable L0 (mkAS (dset (a_orders s) cid
                         (new_order cid i REJECTED t (Some (reject_value c)) (Some detail)))
    (a_ledger s)
    (a_records s ++ [mk_record ts mode "risk_reject" (risk_reject_fields cid i c detail q)]) (a_seq s)).
Proof.
  intros (rest & n & tm & [Hr Hs Hk0 Hf Hc Hq]) [Hk (m & Hm & Hle)].
  exists rest, (Z.max n m), tm. split; simpl; try lia.
  - rewrite replay_app, Hr. reflexivity.
  - intros k. specialize (Hs k). destruct (decide (cid = k)) as [<-|Hne].
    + rewrite dget_dset_eq. destruct (dget rest cid); [|naive_solver].
      destruct Hs as (o1 & Ho1 & _). congruence.
    + by rewrite dget_dset_ne.
  - rewrite dset_fresh by done. unfold dkeys. rewrite map_app. by apply sublist_inserts_r.
  - rewrite replay_fills_app, Hf. reflexivity.
  - rewrite scan_app, Hc. unfold res_bind. cbn [scan].
    change (scan1 repr fromisoformat (n, tm)
              (mk_record ts mode "risk_reject" (risk_reject_fields cid i c detail q)))
      with (n' <~ (k <~ seq_of repr (JStr cid);; Ok (Z.max n k));; (Ok (n', tm) : exec _))%py.
    by rewrite Hm.
Qed.

Lemma restorable_intent L0 s cid i t q ref ts :
  restorable L0 s -> fresh_id repr s cid -> good_ts fromisoformat ts ->
  restorable L0 (mkAS (dset (a_orders s) cid (new_order cid i PENDING_SUBMIT t None None))
    (a_ledger s)
    (a_records s ++ [mk_record ts mode "intent" (intent_fields cid i q ref)]) (a_seq s)).
Proof.
  intros (rest & n & tm & [Hr Hs Hk0 Hf Hc Hq]) [Hk (m & Hm & Hle)] (d & Hd & Haw).
  pose proof (sim_absent _ _ _ Hs Hk) as Hk'.
  set (r := mk_record ts mode "intent" (intent_fields cid i q ref)).
  assert (Hts : parse_ts repr fromisoformat (jget r "ts") = Ok d).
  { change (jget r "ts") with (JStr ts). unfold parse_ts, pstr, py_str. by rewrite Hd, Haw. }
  assert (Hin : jget r "intent" = intent_json i).
  { unfold r. rewrite (jget_record _ _ _ _ "intent" (intent_json i)) by (done || key_side).
    apply redact_intent. }
  exists (dset rest cid (mkOrder cid i PENDING_SUBMIT d None None None 0 0 None None)),
    (Z.max n m), (tm ++ [d]).
  split; simpl; try lia.
  - rewrite replay_app, Hr. unfold res_bind. cbn [replay].
    assert (H1 : replay1 repr fromisoformat rest r =
              Ok (dset rest cid (mkOrder cid i PENDING_SUBMIT d None None None 0 0 None None)));
      [|by rewrite H1].
    change (replay1 repr fromisoformat rest r) with
      (if dmem rest cid then (err (String.append "duplicate intent: " cid) : exec _)
       else (_ <~ seq_of repr (JStr cid);;
             i <~ intent_of repr (jget r "intent");;
             t <~ parse_ts repr fromisoformat (jget r "ts");;
             Ok (dset rest cid (mkOrder cid i PENDING_SUBMIT t None None None 0 0 None None)))%py).
    unfold dmem. by rewrite Hk', Hm, Hts, Hin, intent_of_json.
  - apply sim_dset; [done|]. by split.
  - rewrite !dset_fresh by done. unfold dkeys. rewrite !map_app. by apply sublist_app.
  - rewrite replay_fills_app. rewrite (replay_fills_ext repr (a_records s) rest _ L0 (a_ledger s)).
    + reflexivity.
    + intros k x Hx. destruct (decide (cid = k)) as [<-|Hne]; [congruence|].
      rewrite dget_dset_ne by done. eauto.
    + done.
  - rewrite scan_app, Hc. unfold res_bind. cbn [scan].
    change (scan1 repr fromisoformat (n, tm) r)
      with (n' <~ (k <~ seq_of repr (JStr cid);; Ok (Z.max n k));;
            t <~ parse_ts repr fromisoformat (jget r "ts");;
            (Ok (n', tm ++ [t]) : exec _))%py.
    by rewrite Hm, Hts.
Qed.

Lemma restorable_settle L0 s cid o b st child l' ts1 ts2 :
  restorable L0 s -> ainv repr s -> amounts_ok s -> dget (a_orders s) cid = Some o ->
  is_terminal (status o) = false -> broker_order_no o = Some (b_order_no b) -> amount_fixed b ->
  filled_qty o <= b_filled_qty b <= qty (intent o) -> derive_status b child = Ok st ->
  settle_ledger o b (a_ledger s) l' ->
  restorable L0 (mkAS (dset (a_orders s) cid (settled o b st)) l'
    (a_records s ++ settle_records mode ts1 ts2 o b st child) (a_seq s)).
Proof.
  intros Hre Hi Ham Hk Ht Hb Hfix Hf Hd Hl. unfold settle_records, settle_ledger in *.
  pose proof (ai_entry _ _ Hi _ _ Hk) as (Hc & Hok & Hseq).
  destruct (0 <? delta_qty o b) eqn:Edq; bprop.
  - destruct Hl as [pnl Hl]. rewrite orb_true_r. cbn [app].
    set (o1 := set_filled (b_filled_qty b) (b_filled_amount_krw b) o).
    pose proof (restorable_fill L0 s cid o b l' pnl ts1 Hre Hi Hk Ht ltac:(lia) Edq Hl) as Hr1.
    set (s1 := mkAS (dset (a_orders s) cid o1) l'
                 (a_records s ++ [mk_record ts1 mode "fill" (fill_fields o b)]) (a_seq s)) in Hr1.
    assert (He1 : ids_ok s1).
    { intros k x. simpl. destruct (decide (cid = k)) as [<-|Hne].
      - rewrite dget_dset_eq. intros; simplify_eq. split; [done|]. naive_solver.
      - rewrite dget_dset_ne by done. by apply (ainv_ids s). }
    pose proof (restorable_status L0 s1 cid o1 b st child ts2 Hr1) as Hr2.
    simpl in Hr2. rewrite dset_dset, <- app_assoc in Hr2. apply Hr2; clear Hr2; try done.
    by rewrite dget_dset_eq.
  - subst l'. rewrite orb_false_r. cbn [app].
    assert (Hsame : set_filled (b_filled_qty b) (b_filled_amount_krw b) o = o).
    { assert (Hq : b_filled_qty b = filled_qty o) by (unfold delta_qty in *; lia).
      pose proof (Ham _ _ Hk) as Ha. rewrite Hb in Ha. rewrite Hfix, Hq, <- Ha. by destruct o. }
    unfold settled. rewrite Hsame. destruct (bool_decide (st = status o)) eqn:Est; bprop; simpl.
    + rewrite app_nil_r. subst st.
      apply restorable_same_orders; [done| |by erewrite dkeys_dset_bound].
      intros rest Hs. assert (set_status (status o) o = o) as -> by (by destruct o).
      intros k. specialize (Hs k). destruct (decide (cid = k)) as [<-|Hne].
      * rewrite dget_dset_eq. by rewrite Hk in Hs.
      * by rewrite dget_dset_ne.
    + eapply restorable_status; try done; try (by apply ainv_ids). unfold delta_qty in *; lia.
Qed.

(** ** Every step keeps the session restorable *)

Lemma astep_amounts s s' : step s s' -> ainv repr s -> amounts_ok s -> amounts_ok s'.
Proof using amt_zero.
  intros Hst Hi Ham. pose proof (ai_entry _ _ Hi) as He.
  assert (Hset : forall k o l rs seq,
            (filled_amount_krw o =
             match broker_order_no o with Some no => amt no (filled_qty o) | None => 0 end) ->
            amounts_ok (mkAS (dset (a_orders s) k o) l rs seq)).
  { intros k o l rs seq Ho k' o'. simpl. destruct (decide (k = k')) as [<-|Hne].
    - rewrite dget_dset_eq. by intros [= <-].
    - rewrite dget_dset_ne by done. apply Ham. }
  destruct Hst; try exact Ham; apply Hset; try done;
    try (apply He in H as Hk; destruct Hk as (_ & Hok & _)).
  - destruct (apply_outcome_ok _ _ _ H2 H0 Hok) as (_ & _ & _ & Hf & Ha & _).
    pose proof (ok_pending _ Hok H0) as Hn. rewrite Ha, Hf, Hn. simpl.
    destruct (broker_order_no o'); [by rewrite amt_zero|done].
  - unfold adopted; simpl. rewrite (Ham _ _ H).
    assert (filled_qty o = 0) as -> by (apply (ok_unfilled _ Hok); rewrite H0; set_solver).
    rewrite !amt_zero. by destruct (broker_order_no o).
  - unfold settled; simpl. by rewrite H1.
  - unfold resolved; simpl. by apply (Ham _ _ H).
Qed.

Lemma astep_restorable L0 s s' :
  step s s' -> ainv repr s -> amounts_ok s -> restorable L0 s -> restorable L0 s'.
Proof.
  intros Hst Hi Ham Hre. destruct Hst.
  - destruct Hre as (rest & n & ts & [Hr Hs Hk0 Hf Hc Hq]). exists rest, n, ts. split; simpl; try done. lia.
  - by apply restorable_reject.
  - by apply restorable_intent.
  - by eapply restorable_note.
  - by eapply restorable_result.
  - by eapply restorable_adopt.
  - by eapply restorable_settle.
  - by eapply restorable_resolve.
Qed.

Lemma asteps_restorable L0 s s' :
  asteps repr fromisoformat mode amount_fixed s s' ->
  ainv repr s -> amounts_ok s -> restorable L0 s -> restorable L0 s' /\ amounts_ok s'.
Proof using amt_zero.
  induction 1; [done|]. intros. apply IHrtc;
    eauto using astep_ainv, astep_amounts, astep_restorable.
Qed.

(** ** [restore_session] on the journal *)

(** The journal of the day opens with the holdings snapshot of [L0]. *)
Definition opening (costs : CostModel) (L0 : Ledger) (rs : list record) : Prop :=
  exists r0 rs0 rows ps, rs = r0 :: rs0 /\ jis (dget r0 "event") "session_start" = true /\
    dget r0 "holdings" = Some (JArr rows) /\ snapshot_positions repr rows [] = Ok ps /\
    L0 = new_ledger 0 costs ps.

(** The restored session against the live one. *)
Record faithful (s : AS) (r : RecoveredSession) : Prop := {
  fa_orders : forall k,
    match dget (rs_orders r) k with
    | Some o' => exists o, dget (a_orders s) k = Some o /\ osim o o' /\
                           status o' = settled_status (status o)
    | None => forall o, dget (a_orders s) k = Some o ->
                status o = REJECTED /\ broker_order_no o = None /\ filled_qty o = 0
    end;
  fa_ledger : rs_ledger r = Some (a_ledger s);
  fa_seq : rs_next_seq r <= a_seq s
}.

Lemma dget_map {A B} (f : A -> B) (d : list (string * A)) k :
  dget (map (fun kv => (fst kv, f (snd kv))) d) k = f <$> dget d k.
Proof. induction d as [|[k' v] d IH]; simpl; [done|]. by case_decide. Qed.

Lemma settle_pending_status o : status (settle_pending o) = settled_status (status o).
Proof. unfold settle_pending. case_decide as Hs; [by rewrite Hs|]. by destruct (status o). Qed.

Lemma settle_pending_sim o o' : osim o o' -> osim o (settle_pending o').
Proof.
  intros Ho. unfold settle_pending. case_decide as Hs; [|done]. destruct Ho. split; simpl; try done.
  by rewrite Hs in os_status0.
Qed.

(** The exact result of [restore_session]. *)
Lemma restore_exact costs L0 s rest n ts :
  mode <> PAPER -> opening costs L0 (a_records s) -> restored L0 s rest n ts ->
  restore_session repr fromisoformat (a_records s) mode costs =
  Ok (mkRecovered (map (fun kv => (fst kv, settle_pending (snd kv))) rest) n ts (Some (a_ledger s))).
Proof.
  intros Hm (r0 & rs0 & rows & ps & Hrs & He & Hh & Hp & HL) [Hr Hs Hk0 Hf Hc Hq].
  set (orders := map (fun kv => (fst kv, settle_pending (snd kv))) rest).
  assert (Hled : replay_ledger repr (a_records s) orders costs = Ok (Some (a_ledger s))).
  { unfold replay_ledger. rewrite Hrs at 1. cbn [List.find]. rewrite He, Hh, Hp. simpl.
    rewrite <- HL, (replay_fills_ext repr (a_records s) rest orders L0 (a_ledger s)); [done| |done].
    intros k o Hk. unfold orders. rewrite dget_map, Hk. simpl. eexists. split; [done|].
    unfold settle_pending. by case_decide. }
  unfold restore_session. rewrite Hc. simpl.
  destruct mode; [done|..]; rewrite Hr; simpl; fold orders; by rewrite Hled.
Qed.

Lemma restorable_faithful costs L0 s :
  mode <> PAPER -> opening costs L0 (a_records s) -> restorable L0 s ->
  exists r, restore_session repr fromisoformat (a_records s) mode costs = Ok r /\ faithful s r.
Proof.
  intros Hm Hop (rest & n & ts & Hre). pose proof Hre as [Hr Hs Hk0 Hf Hc Hq].
  eexists. split; [by eapply restore_exact|]. split; simpl; [|done|done].
  intros k. rewrite dget_map. specialize (Hs k).
  destruct (dget rest k) as [o'|]; simpl; [|done]. destruct Hs as (o & Hk & Ho).
  exists o. split; [done|]. split; [by apply settle_pending_sim|].
  rewrite settle_pending_status. apply Ho.
Qed.

(** ** Crashing between two records *)

Definition recoverable (costs : CostModel) (rs : list record) : Prop :=
  exists r, restore_session repr fromisoformat rs mode costs = Ok r.

(** Whatever prefix of the journal reached the disk can be restored. *)
Definition crash_safe (costs : CostModel) (rs : list record) : Prop :=
  forall p, p `prefix_of` rs -> recoverable costs p.

Lemma opening_app costs L0 a b : opening costs L0 a -> opening costs L0 (a ++ b).
Proof. intros (r0 & rs0 & rows & ps & -> & H). exists r0, (rs0 ++ b), rows, ps. by simpl. Qed.

Lemma crash_safe_snoc costs rs r :
  crash_safe costs rs -> recoverable costs (rs ++ [r]) -> crash_safe costs (rs ++ [r]).
Proof.
  intros Hc Hr p [q Hq]. destruct q as [|x q _] using rev_ind.
  - rewrite app_nil_r in Hq. by subst.
  - rewrite app_assoc in Hq. apply app_inj_tail in Hq as [Hq _]. apply Hc. by exists q.
Qed.

(** A step writes nothing, one record, or a fill and a status. *)
Lemma astep_records s s' :
  step s s' -> ainv repr s ->
  (a_records s' = a_records s) \/ (exists r, a_records s' = a_records s ++ [r]) \/
  (exists cid o b l' pnl ts1 r2, dget (a_orders s) cid = Some o /\
     is_terminal (status o) = false /\ b_filled_qty b <= qty (intent o) /\ 0 < delta_qty o b /\
     apply_fill (a_ledger s) (symbol (intent o)) (side (intent o)) (delta_qty o b) (delta_amount o b)
       = Ok (l', pnl) /\
     a_records s' = (a_records s ++ [mk_record ts1 mode "fill" (fill_fields o b)]) ++ [r2]).
Proof.
  intros Hst Hi. destruct Hst; simpl; try (by left); try (by right; left; eauto).
  unfold settle_records, settle_ledger in *. destruct (0 <? delta_qty o b) eqn:E; bprop.
  - right; right. destruct H5 as [pnl Ha].
    exists cid, o, b, l', pnl, ts1, (mk_record ts2 mode "status" (status_fields o st b child)).
    rewrite orb_true_r. cbn [app]. rewrite <- app_assoc. naive_solver lia.
  - cbn [app]. rewrite orb_false_r. destruct (negb _); [right; left; eauto|left].
    by rewrite app_nil_r.
Qed.

Lemma astep_crash_safe costs L0 s s' :
  mode <> PAPER -> step s s' -> ainv repr s -> amounts_ok s -> opening costs L0 (a_records s) ->
  restorable L0 s -> crash_safe costs (a_records s) -> crash_safe costs (a_records s').
Proof.
  intros Hm Hst Hi Ham Hop Hre Hc.
  pose proof (astep_restorable L0 s s' Hst Hi Ham Hre) as Hre'.
  assert (Hrec : forall s1, restorable L0 s1 -> opening costs L0 (a_records s1) ->
            recoverable costs (a_records s1)).
  { intros s1 H1 H2. destruct (restorable_faithful costs L0 s1 Hm H2 H1) as (r & Hr & _). by exists r. }
  destruct (astep_records s s' Hst Hi)
    as [->|[(r & Hr)|(cid & o & b & l' & pnl & ts1 & r2 & Hk & Ht & Hq & Hd & Ha & Hr)]]; [done|..].
  - rewrite Hr. apply crash_safe_snoc; [done|]. rewrite <- Hr. apply Hrec; [done|].
    rewrite Hr. by apply opening_app.
  - pose proof (restorable_fill L0 s cid o b l' pnl ts1 Hre Hi Hk Ht Hq Hd Ha) as Hre1.
    apply Hrec in Hre1 as Hx; [|by apply opening_app]. simpl in Hx.
    rewrite Hr. apply crash_safe_snoc; [by apply crash_safe_snoc|].
    rewrite <- Hr. apply Hrec; [done|]. rewrite Hr. by do 2 apply opening_app.
Qed.

Lemma astep_opening costs L0 s s' :
  step s s' -> ainv repr s -> opening costs L0 (a_records s) -> opening costs L0 (a_records s').
Proof.
  intros Hst Hi Hop. destruct (astep_records s s' Hst Hi)
    as [->|[(r & ->)|(cid & o & b & l' & pnl & ts1 & r2 & _ & _ & _ & _ & _ & ->)]];
    auto using opening_app.
Qed.

Lemma asteps_crash_safe costs L0 s s' :
  mode <> PAPER -> asteps repr fromisoformat mode amount_fixed s s' ->
  ainv repr s -> amounts_ok s -> opening costs L0 (a_records s) -> restorable L0 s ->
  crash_safe costs (a_records s) ->
  crash_safe costs (a_records s') /\ opening costs L0 (a_records s').
Proof using amt_zero.
  intros Hm. induction 1; [done|]. intros. apply IHrtc;
    eauto using astep_ainv, astep_amounts, astep_restorable, astep_opening, astep_crash_safe.
Qed.
End Simulation.

(** ** Amounts revised without a fill

    What the journal remembers of an order is what its last [fill] record said.
    When the broker corrects the amount of a fill without changing its quantity,
    the live order takes the new amount and no record is written; the next fill
    is then journaled against an amount that the replay does not know. *)

Section Revision.
Variable repr : json -> string.
Variable fromisoformat : string -> option datetime.
Variable mode : ExecutionMode.

(** A record that is no fill of [k]. *)
Definition quiet (k : string) (r : record) : Prop :=
  jis (dget r "event") "fill" = true -> pstr repr (jget r "client_id") <> k.

Definition same_fill (o o' : Order) : Prop :=
  filled_qty o' = filled_qty o /\ filled_amount_krw o' = filled_amount_krw o.

Lemma res_bind_inv {E A B} (c : res E A) (k : A -> res E B) b :
  res_bind c k = Ok b -> exists a, c = Ok a /\ k a = Ok b.
Proof. destruct c as [a|]; simpl; [eauto|done]. Qed.

Ltac bind_inv H :=
  repeat (let a := fresh "a" in let E := fresh "E" in apply res_bind_inv in H as (a & E & H)).

(** Only a [fill] record changes what a replayed order has filled. *)
Lemma replay_event_fill ev r o o' :
  replay_event repr ev r o = Ok o' -> ev <> "fill" -> same_fill o o'.
Proof.
  unfold replay_event. intros H Hev. destruct (decide (ev = "submit_result")).
  { unfold replay_submit in H. bind_inv H. destruct (jget r "outcome"); try done. bind_inv H.
    injection H as <-. by case_decide. }
  destruct (decide (ev = "unknown_adopted")).
  { unfold replay_adopt in H. bind_inv H. by injection H as <-. }
  destruct (decide (ev = "unknown_resolved")); [by injection H as <-|].
  destruct (decide (ev = "fill")); [done|].
  destruct (decide (ev = "status")); [|by injection H as <-].
  unfold replay_status in H. bind_inv H. destruct (dget r "filled_qty"); [|by injection H as <-].
  bind_inv H. destruct (_ =? _); [by injection H as <-|done].
Qed.

(** What replaying one record does to the orders. *)
Lemma replay1_inv rest r rest' :
  replay1 repr fromisoformat rest r = Ok rest' ->
  rest' = rest \/
  (exists k o, dget rest k = None /\ rest' = dset rest k o) \/
  (exists o o', dget rest (pstr repr (jget r "client_id")) = Some o /\
     replay_event repr (match jget r "event" with JStr e => e | _ => "" end) r o = Ok o' /\
     rest' = dset rest (pstr repr (jget r "client_id")) o').
Proof.
  intros H.
  assert (Hn : (if jis (Some (jget r "event")) "intent"
    then
      let cid := pstr repr (jget r "client_id") in
      if dmem rest cid then err (String.append "duplicate intent: " cid)
      else
        (_ <~ seq_of repr (JStr cid);; i <~ intent_of repr (jget r "intent");;
         t <~ parse_ts repr fromisoformat (jget r "ts");;
         Ok (dset rest cid (mkOrder cid i PENDING_SUBMIT t None None None 0 0 None None)))%py
    else if existsb (jis (Some (jget r "event"))) ORDER_EVENTS
            || (dmem r "client_id" && negb (jis (Some (jget r "event")) "risk_reject"))
    then
      (_ <~ seq_of repr (jget r "client_id");;
       match dget rest (pstr repr (jget r "client_id")) with
       | None => err (String.append "order event without intent: " (repr (jget r "client_id")))
       | Some o =>
           o' <~ replay_event repr (match jget r "event" with JStr e => e | _ => "" end) r o;;
           Ok (dset rest (pstr repr (jget r "client_id")) o')
       end)%py
    else Ok rest) = Ok rest').
  { unfold replay1 in H. by destruct (jget r "event"). }
  clear H. destruct (jis (Some (jget r "event")) "intent"); cbv zeta in Hn.
  - unfold dmem in Hn. destruct (dget rest _) eqn:Ek; [done|]. bind_inv Hn. injection Hn as <-.
    right; left. by eexists _, _.
  - destruct (_ || _); [|injection Hn as <-; by left]. bind_inv Hn.
    destruct (dget rest _) as [o|] eqn:Ek; [|done]. bind_inv Hn. injection Hn as <-.
    right; right. by exists o, a0.
Qed.

Lemma jis_event r : jis (dget r "event") "fill" = true <->
  (match jget r "event" with JStr e => e | _ => "" end) = "fill".
Proof.
  unfold jget, jis. destruct (dget r "event") as [[]|]; simpl; try done. apply bool_decide_eq_true.
Qed.

Lemma replay1_quiet rest r rest' k o :
  replay1 repr fromisoformat rest r = Ok rest' -> dget rest k = Some o -> quiet k r ->
  exists o', dget rest' k = Some o' /\ same_fill o o'.
Proof.
  intros H Hk Hq. apply replay1_inv in H as [->|[(k' & x & Hn & ->)|(x & o' & Hx & He & ->)]].
  - by exists o.
  - exists o. split; [|done]. rewrite dget_dset_ne; [done|congruence].
  - destruct (decide (pstr repr (jget r "client_id") = k)) as [Heq|Hne].
    + rewrite Heq in Hx |- *. rewrite Hk in Hx. injection Hx as <-. exists o'. rewrite dget_dset_eq.
      split; [done|]. eapply replay_event_fill; [exact He|]. rewrite <- jis_event.
      intros Hf. by apply Hq in Hf.
    + exists o. by rewrite dget_dset_ne.
Qed.

Lemma replay_quiet rs k : forall rest rest' o,
  replay repr fromisoformat rest rs = Ok rest' -> dget rest k = Some o -> Forall (quiet k) rs ->
  exists o', dget rest' k = Some o' /\ same_fill o o'.
Proof.
  induction rs as [|r rs IH]; intros rest rest' o H Hk Hq; simpl in H.
  - injection H as <-. by exists o.
  - apply Forall_cons in Hq as [Hq1 Hq]. apply res_bind_inv in H as (x & Hx & H).
    destruct (replay1_quiet _ _ _ _ _ Hx Hk Hq1) as (o1 & Hk1 & S1).
    destruct (IH _ _ _ H Hk1 Hq) as (o2 & Hk2 & S2). exists o2. split; [done|].
    destruct S1, S2. split; congruence.
Qed.

(** ** Journals *)

(** The journal [rs] replays, and gives order [k] the fill [q] for [a]. *)
Definition remembers (k : string) (q a : Z) (rs : list record) : Prop :=
  exists rest o, replay repr fromisoformat [] rs = Ok rest /\ dget rest k = Some o /\
    filled_qty o = q /\ filled_amount_krw o = a.

(** The journal does not replay. *)
Definition lost (rs : list record) : Prop := exists e, replay repr fromisoformat [] rs = Raise e.

Lemma lost_app rs rs' : lost rs -> lost (rs ++ rs').
Proof. intros [e He]. exists e. by rewrite replay_app, He. Qed.

Lemma lost_restore costs rs :
  mode <> PAPER -> lost rs -> exists e, restore_session repr fromisoformat rs mode costs = Raise e.
Proof.
  intros Hm [e He]. unfold restore_session. destruct (scan _ _ _ _) as [x|e']; simpl; [|by eexists].
  destruct mode; [done|..]; rewrite He; by eexists.
Qed.

Lemma remembers_quiet k q a rs rs' :
  remembers k q a rs -> Forall (quiet k) rs' -> remembers k q a (rs ++ rs') \/ lost (rs ++ rs').
Proof.
  intros (rest & o & Hr & Hk & Hq & Ha) Hf. unfold remembers, lost. rewrite replay_app, Hr. simpl.
  destruct (replay _ _ rest rs') as [rest'|e] eqn:E; [|right; by eexists]. left.
  destruct (replay_quiet _ _ _ _ _ E Hk Hf) as (o' & Hk' & S1 & S2). exists rest', o'.
  split; [done|]. split; [done|]. split; congruence.
Qed.

(** A fill journaled against an amount other than the remembered one. *)
Lemma remembers_fill k q a rs o b ts rs' :
  remembers k q a rs -> client_id o = k -> filled_qty o = q -> filled_amount_krw o <> a ->
  lost (rs ++ mk_record ts mode "fill" (fill_fields o b) :: rs').
Proof.
  intros (rest & o' & Hr & Hk & Hq & Ha) Hc Hq' Ha'. unfold lost. rewrite replay_app, Hr. simpl.
  destruct (replay1 _ _ rest _) as [x|e] eqn:E; [exfalso|by eexists].
  change (replay1 repr fromisoformat rest (mk_record ts mode "fill" (fill_fields o b))) with
    (_ <~ seq_of repr (JStr (client_id o));;
     match dget rest (client_id o) with
     | None => err (String.append "order event without intent: " (repr (JStr (client_id o))))
     | Some o1 =>
         o2 <~ (if negb ((filled_qty o1 <? b_filled_qty b) && (b_filled_qty b <=? qty (intent o1)))
                   || (b_filled_amount_krw b <? filled_amount_krw o1)
                   || negb (delta_qty o b =? b_filled_qty b - filled_qty o1)
                   || negb (delta_amount o b =? b_filled_amount_krw b - filled_amount_krw o1)
                then err "inconsistent cumulative fill"
                else Ok (set_filled (b_filled_qty b) (b_filled_amount_krw b) o1));;
         Ok (dset rest (client_id o) o2)
     end)%py in E.
  rewrite Hc, Hk in E. bind_inv E. destruct (_ || _) eqn:Eb in E1; [done|].
  rewrite !orb_false_iff, !negb_false_iff, !Z.eqb_eq in Eb. unfold delta_amount in Eb. lia.
Qed.

(** ** Sessions *)

Lemma quiet_event k r e : dget r "event" = Some (JStr e) -> e <> "fill" -> quiet k r.
Proof. intros He Hn Hf. rewrite He, jis_str in Hf. by bprop. Qed.

Lemma quiet_settle k ts1 ts2 o b st child :
  client_id o <> k -> Forall (quiet k) (settle_records mode ts1 ts2 o b st child).
Proof.
  intros Hne. unfold settle_records. apply Forall_app. split.
  - destruct (0 <? _); [|constructor]. apply Forall_singleton. intros _.
    change (pstr repr (jget (mk_record ts1 mode "fill" (fill_fields o b)) "client_id")) with (client_id o).
    done.
  - destruct (_ || _); [|constructor]. apply Forall_singleton. by apply (quiet_event _ _ "status").
Qed.

(** A step appends to the journal, and fills an order only by settling it. *)
Lemma astep_fills okb s s' k o :
  astep repr fromisoformat mode okb s s' -> ainv repr s -> dget (a_orders s) k = Some o ->
  exists rs, a_records s' = a_records s ++ rs /\
    ((Forall (quiet k) rs /\
      exists o', dget (a_orders s') k = Some o' /\ filled_qty o' = filled_qty o /\
        (0 < filled_qty o -> o' = o)) \/
     exists b st child ts1 ts2, okb b /\ broker_order_no o = Some (b_order_no b) /\
       filled_qty o <= b_filled_qty b /\ dget (a_orders s') k = Some (settled o b st) /\
       rs = settle_records mode ts1 ts2 o b st child).
Proof.
  intros Hst Hi Hk. pose proof (ai_entry _ _ Hi) as He.
  assert (Hset : forall cid o1 (o2 : Order) r, dget (a_orders s) cid = Some o1 ->
            filled_qty o2 = filled_qty o1 -> filled_qty o1 = 0 -> quiet k r ->
            Forall (quiet k) [r] /\ exists o', dget (dset (a_orders s) cid o2) k = Some o' /\
              filled_qty o' = filled_qty o /\ (0 < filled_qty o -> o' = o)).
  { intros cid o1 o2 r H1 H2 H3 Hq. split; [by apply Forall_singleton|].
    destruct (decide (cid = k)) as [<-|Hne]; [|exists o; by rewrite dget_dset_ne].
    rewrite Hk in H1. injection H1 as <-. exists o2. rewrite dget_dset_eq. split; [done|]. lia. }
  assert (Hnew : forall cid (o2 : Order) r, dget (a_orders s) cid = None -> quiet k r ->
            Forall (quiet k) [r] /\ exists o', dget (dset (a_orders s) cid o2) k = Some o' /\
              filled_qty o' = filled_qty o /\ (0 < filled_qty o -> o' = o)).
  { intros cid o2 r H1 Hq. split; [by apply Forall_singleton|]. exists o.
    rewrite dget_dset_ne; [done|congruence]. }
  destruct Hst.
  - exists []. rewrite app_nil_r. split; [done|]. left. split; [constructor|]. by exists o.
  - eexists. split; [done|]. left. apply Hnew; [apply H|]. by eapply quiet_event.
  - eexists. split; [done|]. left. apply Hnew; [apply H|]. by eapply quiet_event.
  - eexists. split; [done|]. left. destruct H1 as (_ & e & He' & Hn).
    split; [apply Forall_singleton; eapply quiet_event; [done|]; intros ->; apply Hn; unfold ORDER_EVENTS; set_solver|].
    by exists o.
  - eexists. split; [done|]. left. apply He in H as Hok. destruct Hok as (_ & Hok & _).
    destruct (apply_outcome_ok _ _ _ H2 H0 Hok) as (_ & _ & _ & Hf & _).
    eapply Hset; [exact H|exact Hf| |by eapply quiet_event]. by rewrite (ok_pending _ Hok H0).
  - eexists. split; [done|]. left. apply He in H as Hok. destruct Hok as (_ & Hok & _).
    eapply Hset; [exact H|done| |by eapply quiet_event]. apply (ok_unfilled _ Hok). rewrite H0. set_solver.
  - eexists. split; [done|]. destruct (decide (cid = k)) as [<-|Hne].
    + right. rewrite Hk in H. injection H as <-. exists b, st, child, ts1, ts2. simpl.
      rewrite dget_dset_eq. split; [done|]. split; [done|]. split; [lia|]. by split.
    + left. simpl. rewrite dget_dset_ne by done. split; [|by exists o].
      apply quiet_settle. apply He in H as (-> & _). done.
  - eexists. split; [done|]. left. apply He in H as Hok. destruct Hok as (_ & Hok & _).
    eapply Hset; [exact H|done| |by eapply quiet_event]. apply (ok_unfilled _ Hok). rewrite H0. set_solver.
Qed.

Lemma asteps_append okb s s' :
  asteps repr fromisoformat mode okb s s' -> exists rs, a_records s' = a_records s ++ rs.
Proof.
  induction 1 as [s|s y s' Hst _ [rs IH]]; [exists []; by rewrite app_nil_r|].
  assert (Hy : exists rs1, a_records y = a_records s ++ rs1).
  { destruct Hst; try (by eexists). exists []. simpl. by rewrite app_nil_r. }
  destruct Hy as [rs1 Hy]. exists (rs1 ++ rs). by rewrite IH, Hy, app_assoc.
Qed.

Lemma asteps_lost okb s s' :
  asteps repr fromisoformat mode okb s s' -> lost (a_records s) -> lost (a_records s').
Proof. intros [rs ->]%asteps_append. apply lost_app. Qed.

(** A step that adds nothing to an order's fill writes no fill of it. *)
Lemma astep_quiet okb s s' k o o' :
  astep repr fromisoformat mode okb s s' -> ainv repr s -> dget (a_orders s) k = Some o ->
  dget (a_orders s') k = Some o' -> filled_qty o' = filled_qty o ->
  exists rs, a_records s' = a_records s ++ rs /\ Forall (quiet k) rs.
Proof.
  intros Hst Hi Hk Hk' Hf.
  destruct (astep_fills _ _ _ _ _ Hst Hi Hk) as (rs & Hr & [[Hq _]|(b & st & child & ts1 & ts2 & _ & _ & _ & Hs & ->)]);
    [by exists rs|]. eexists. split; [exact Hr|]. rewrite Hk' in Hs. injection Hs as ->.
  unfold settle_records, delta_qty. simpl in Hf. rewrite Hf, Z.sub_diag. cbn [Z.ltb Z.compare app].
  destruct (_ || _); [|constructor]. apply Forall_singleton. by apply (quiet_event _ _ "status").
Qed.

Lemma asteps_quiet okb s s' k q a : forall o o',
  asteps repr fromisoformat mode okb s s' -> ainv repr s -> dget (a_orders s) k = Some o ->
  dget (a_orders s') k = Some o' -> filled_qty o = q -> filled_qty o' = q ->
  remembers k q a (a_records s) -> remembers k q a (a_records s') \/ lost (a_records s').
Proof.
  intros o o' Hst. revert o. induction Hst as [s|s y s' Hst Hrun IH]; intros o Hi Hk Hk' Hq Hq' Hm; [by left|].
  destruct (astep_orders_le _ _ _ _ _ _ Hst Hi k o Hk) as (o1 & Hk1 & L1).
  pose proof (astep_ainv _ _ _ _ _ _ Hst Hi) as Hi1.
  destruct (asteps_orders_le _ _ _ _ _ _ Hrun Hi1 k o1 Hk1) as (o2 & Hk2 & L2).
  rewrite Hk' in Hk2. injection Hk2 as <-.
  assert (Hf1 : filled_qty o1 = filled_qty o) by (destruct L1 as (_ & _ & ? & _), L2 as (_ & _ & ? & _); lia).
  destruct (astep_quiet _ _ _ _ _ _ Hst Hi Hk Hk1 Hf1) as (rs & Hr & Hqt).
  destruct (remembers_quiet k q a _ rs Hm Hqt) as [Hm1|Hl]; rewrite <- Hr in *.
  - apply (IH o1); try done. congruence.
  - right. by eapply asteps_lost.
Qed.

(** The broker never again reports the amount [a] for the quantity [q] of order
    number [no]. *)
Definition amended (no : string) (q a : Z) (b : BrokerOrderStatus) : Prop :=
  b_order_no b = no -> b_filled_qty b = q -> b_filled_amount_krw b <> a.

Lemma asteps_amended no q a k s s' : forall o o',
  asteps repr fromisoformat mode (amended no q a) s s' -> ainv repr s ->
  dget (a_orders s) k = Some o -> dget (a_orders s') k = Some o' ->
  broker_order_no o = Some no -> 0 < q -> filled_qty o = q -> filled_amount_krw o <> a ->
  q < filled_qty o' -> remembers k q a (a_records s) -> lost (a_records s').
Proof.
  intros o o' Hst. revert o.
  induction Hst as [s|s y s' Hst Hrun IH]; intros o Hi Hk Hk' Hno Hpos Hq Ha Hgrow Hm;
    [rewrite Hk in Hk'; simplify_eq; lia|].
  pose proof (astep_ainv _ _ _ _ _ _ Hst Hi) as Hi1.
  destruct (astep_fills _ _ _ _ _ Hst Hi Hk)
    as (rs & Hr & [[Hqt (o1 & Hk1 & _ & Ho1)]|(b & st & child & ts1 & ts2 & Hb & Hbn & Hle & Hk1 & ->)]).
  - rewrite Ho1 in Hk1 by lia. destruct (remembers_quiet k q a _ rs Hm Hqt) as [Hm1|Hl]; rewrite <- Hr in *.
    + by apply (IH o).
    + by eapply asteps_lost.
  - rewrite Hno in Hbn. injection Hbn as Hbn. destruct (decide (b_filled_qty b = q)) as [Hbq|Hbq].
    + destruct (astep_quiet _ _ _ _ _ _ Hst Hi Hk Hk1) as (rs & Hr' & Hqt); [simpl; lia|].
      destruct (remembers_quiet k q a _ rs Hm Hqt) as [Hm1|Hl]; rewrite <- Hr' in *.
      * apply (IH (settled o b st)); try done. simpl. by apply Hb.
      * by eapply asteps_lost.
    + eapply asteps_lost; [exact Hrun|]. rewrite Hr. unfold settle_records.
      assert (0 <? delta_qty o b = true) as -> by (apply Z.ltb_lt; unfold delta_qty; lia). cbn [app].
      apply (remembers_fill k q a _ o); try done. by apply (ai_entry _ _ Hi) in Hk as (? & _).
Qed.

(** What a restorable session remembers of a fill. *)
Lemma restorable_remembers L0 s k o :
  restorable repr fromisoformat L0 s -> dget (a_orders s) k = Some o -> 0 < filled_qty o ->
  remembers k (filled_qty o) (filled_amount_krw o) (a_records s).
Proof.
  intros (rest & n & ts & [Hr Hs _ _ _ _]) Hk Hf. specialize (Hs k).
  destruct (dget rest k) as [o'|] eqn:Ek.
  - destruct Hs as (o1 & Hk1 & Ho). rewrite Hk in Hk1. injection Hk1 as <-. exists rest, o'.
    split; [done|]. split; [done|]. split; apply Ho.
  - destruct (Hs o Hk) as (_ & _ & ?). lia.
Qed.
End Revision.
