(* ===== verification/ExecSession.v ===== *)
(** * Order sessions

    Sequences of order-manager operations, and what holds of every state they
    reach: positions and money, monotone orders, restorability from the journal
    at every point of the session. *)
From S2P Require Import Prelude PyStr PyTime PyFloat ExecContracts ExecLedger ExecRisk ExecJournal.
From S2P Require Import KisTrading ExecGateways ExecRecovery ExecOms ExecService.
From S2P Require Import ExecMachine ExecRefine ExecRestore.

Section Session.
Context `{HE : Env} `{HO : OmsEnv} {G : Type} `{HG : OrderGateway G} `{HL : !GatewayLaws G}.
Context (limits : RiskLimits) (ccosts : CostModel).

(** The states a manager can reach from [s0]; [okb] is what the broker's records
    satisfy at every reconciliation. *)
Inductive session (okb : BrokerOrderStatus -> Prop) (s0 : Oms G) : Oms G -> Prop :=
| se_start : session okb s0 s0
| se_submit i s :
    session okb s0 s -> session okb s0 (fst (submit limits ccosts i s))
| se_cancel cid s : session okb s0 s -> session okb s0 (fst (cancel cid s))
| se_reconcile s :
    session okb s0 s -> broker_ok okb s -> session okb s0 (fst (reconcile s))
| se_resolve cid reason s :
    session okb s0 s -> broker_ok okb s -> session okb s0 (fst (resolve_unknown cid reason s))
| se_block reason s : session okb s0 s -> session okb s0 (fst (block_submits reason s))
| se_close s : session okb s0 s -> session okb s0 (fst (close s))
| se_wait s : session okb s0 s -> session okb s0 (fst (ask mono_at s)).

Definition any_broker (b : BrokerOrderStatus) : Prop := True.

Lemma any_broker_ok s : broker_ok any_broker s.
Proof. intros p st _. by apply Forall_forall. Qed.

Section Facts.
Context (repr : json -> string) (fromisoformat : string -> option datetime) (mode : ExecutionMode).
Context (clock_ok : forall n, good_ts fromisoformat (isoformat (now n))).

Lemma session_refines okb s0 s :
  sinv repr mode s0 -> session okb s0 s ->
  asteps repr fromisoformat mode okb (abs s0) (abs s) /\ sinv repr mode s.
Proof using All.
  intros H0 Hs. induction Hs as [|i s Hs [IH Hi]|cid s Hs [IH Hi]|s Hs [IH Hi] Hb
    |cid reason s Hs [IH Hi] Hb|reason s Hs [IH Hi]|s Hs [IH Hi]|s Hs [IH Hi]]; [done|..];
    match goal with |- asteps _ _ _ _ _ (abs (fst (?c ?x))) /\ _ =>
      assert (Hr : refines_at repr fromisoformat mode okb c x) end.
  all: try (by apply refines_submit); try (by apply refines_cancel);
    try (by apply refines_reconcile); try (by apply refines_resolve);
    try (apply refines_silent; [by try unfold close; try destruct (om_closed s)|
                                by try unfold close; try destruct (om_closed s)]).
  all: destruct (Hr Hi) as [Hr1 Hr2]; split; [by etransitivity|done].
Qed.

(** ** The first session of a day *)

Definition holdings_ok (hs : list Holding) : Prop :=
  NoDup (map h_symbol hs) /\ Forall (fun h => 0 <= h_qty h /\ 0 <= h_cost_krw h) hs.

Lemma redact_holdings hs : redact (JArr (map holding_json hs)) = JArr (map holding_json hs).
Proof. simpl. f_equal. induction hs as [|h hs IH]; [done|]. cbn [map]. by rewrite IH. Qed.

Lemma snapshot_holdings hs : forall acc,
  holdings_ok hs -> (forall h, h ∈ hs -> dget acc (h_symbol h) = None) ->
  snapshot_positions repr (map holding_json hs) acc =
  Ok (fold_left (fun d h => dset d (h_symbol h) (mkPos (h_qty h) (h_cost_krw h))) hs acc).
Proof.
  induction hs as [|h hs IH]; intros acc [Hnd HF] Ha; [done|].
  cbn [map] in Hnd. apply NoDup_cons in Hnd as [Hn Hnd]. apply Forall_cons in HF as [[H1 H2] HF].
  change (snapshot_positions repr (map holding_json (h :: hs)) acc) with
    (if (h_qty h <? 0) || (h_cost_krw h <? 0) || dmem acc (h_symbol h)
     then (err "inconsistent holdings snapshot" : exec _)
     else snapshot_positions repr (map holding_json hs)
            (dset acc (h_symbol h) (mkPos (h_qty h) (h_cost_krw h)))).
  unfold dmem. rewrite (Ha h) by (left).
  rewrite (proj2 (Z.ltb_ge _ _) H1), (proj2 (Z.ltb_ge _ _) H2). simpl.
  apply IH; [by split|]. intros x Hx. rewrite dget_dset_ne.
  - apply Ha. by right.
  - intros Heq. apply Hn. rewrite Heq. apply list_elem_of_fmap. eauto.
Qed.

Lemma opening_session_start show_set venue hs n ts :
  holdings_ok hs ->
  opening repr ccosts (new_ledger 0 ccosts (holdings_positions hs))
    [mk_record ts mode "session_start" (session_start_fields show_set venue hs n limits)].
Proof.
  intros Hok. eexists _, [], (map holding_json hs), (holdings_positions hs).
  split; [done|]. split; [done|]. split; [|split; [|done]].
  - rewrite mk_record_get by key_side. simpl. do 2 f_equal.
    pose proof (redact_holdings hs) as Hr. simpl in Hr. by injection Hr.
  - apply snapshot_holdings; [done|]. intros; done.
Qed.

(** The manager [build_order_manager] returns on a day without journal. *)
Lemma build_fresh show_set venue lock_path cash attempts holdings_at gw w lk w' s0 :
  mode <> PAPER -> (forall n hs, holdings_at n = Ok hs -> holdings_ok hs) ->
  j_records (w_journal w) = [] -> j_torn (w_journal w) = [] -> j_mode (w_journal w) = mode ->
  build_order_manager repr fromisoformat show_set limits ccosts venue lock_path cash attempts
    holdings_at mode true (Ok ([], false)) (Ok gw) w = (lk, w', Ok s0) ->
  exists hs n ts, holdings_ok hs /\ om_orders s0 = [] /\ om_seq s0 = 0 /\
    j_torn (w_journal (om_world s0)) = [] /\ j_mode (w_journal (om_world s0)) = mode /\
    w_ledger (om_world s0) = new_ledger 0 ccosts (holdings_positions hs) /\
    map snd (j_records (w_journal (om_world s0))) =
      [mk_record ts mode "session_start" (session_start_fields show_set venue hs n limits)].
Proof.
  intros Hm Hh Hr Ht Hjm Hb. unfold build_order_manager, restore_session in Hb. simpl in Hb.
  set (rec := mkRecovered [] 0 [] None).
  assert (Hb' : match open_session show_set limits ccosts venue cash attempts holdings_at mode rec
                  (new_manager gw (tick_clock w) rec) with
                | (s, Ok _) => (true, om_world s, Ok s)
                | (s, Raise e) => (false, om_world s, Raise (account_error e))
                end = (lk, w', Ok s0)) by (by destruct mode). clear Hb.
  unfold open_session in Hb'.
  destruct (holdings_at (w_clock (tick_clock w))) as [hs|e] eqn:Eh.
  2: { destruct mode; [done|..]; unfold sbind, get_holdings, ask, slift in Hb'; simpl in *;
       unfold sbind in Hb'; simpl in Hb'; rewrite Eh in Hb'; done. }
  exists hs.
  assert (Hs : forall n, om_orders (new_manager gw (tick_clock w) rec) = [] ->
    (on_store (append "session_start" (session_start_fields show_set venue hs n limits))
       (with_ledger (new_ledger 0 ccosts (holdings_positions hs))
          (set_store (gw, tick_clock (tick_clock w)) (new_manager gw (tick_clock w) rec)))) =
    (journalled "session_start" (session_start_fields show_set venue hs n limits)
       (with_ledger (new_ledger 0 ccosts (holdings_positions hs))
          (set_store (gw, tick_clock (tick_clock w)) (new_manager gw (tick_clock w) rec))), Ok tt))
    by (intros; by apply on_store_append).
  destruct mode; [done|..]; unfold sbind, get_holdings, ask, slift, smod, sret in Hb'; simpl in Hb', Eh;
    unfold sbind in Hb'; simpl in Hb'; rewrite Eh in Hb'; simpl in Hb';
    rewrite (Hs 0%nat) in Hb' by done; simplify_eq; simpl;
    eexists _, _; repeat split; eauto; try (by apply Hh in Eh as []); rewrite ?Hr, ?Hjm; done.
Qed.

(** C3. Refinement: whatever the gateway, the quote source, the kill switch and
    the clocks answer, and wherever an operation raises, every session of the
    order manager is a run of the abstract order machine; in particular the
    client ids stay unique and every order stays well-formed (its fill agrees
    with its status and never exceeds the quantity ordered). *)
Theorem manager_refines_machine okb s0 s :
  sinv repr mode s0 -> session okb s0 s ->
  asteps repr fromisoformat mode okb (abs s0) (abs s) /\
  NoDup (dkeys (om_orders s)) /\
  (forall k o, dget (om_orders s) k = Some o -> client_id o = k /\ order_ok o).
Proof using All.
  intros H0 Hs. destruct (session_refines okb s0 s H0 Hs) as [Hst Hi]. split; [done|].
  destruct (si_inv _ _ _ Hi) as [Hnd He]. split; [done|].
  intros k o Hk. apply He in Hk as (? & ? & _). done.
Qed.

(** C4. The books always balance: in every state a session reaches - also after
    an operation raised half-way through - the ledger holds of each symbol what it
    held at the start plus the net of what the orders report as filled, money is
    conserved, and the sell orders still open are covered by the holding. *)
Theorem session_books_balance s0 s :
  sinv repr mode s0 -> ledger_wf (w_ledger (om_world s0)) ->
  (forall sym, open_qty (om_orders s0) sym SELL <= ledger_qty (w_ledger (om_world s0)) sym) ->
  session any_broker s0 s ->
  (forall sym, ledger_qty (w_ledger (om_world s)) sym - traded sym (om_orders s) =
               ledger_qty (w_ledger (om_world s0)) sym - traded sym (om_orders s0)) /\
  paid_in (w_ledger (om_world s)) = paid_in (w_ledger (om_world s0)) /\
  (forall sym, open_qty (om_orders s) sym SELL <= ledger_qty (w_ledger (om_world s)) sym).
Proof using All.
  intros H0 Hwf Hn Hs. destruct (session_refines _ _ _ H0 Hs) as [Hst _].
  pose proof (si_inv _ _ _ H0) as Hi.
  destruct (asteps_parity repr fromisoformat mode any_broker
    (fun sym => ledger_qty (w_ledger (om_world s0)) sym - traded sym (om_orders s0))
    (paid_in (w_ledger (om_world s0))) _ _ Hst Hi) as [_ Hq Hm].
  { split; simpl; [done| |done]. intros sym. lia. }
  destruct (asteps_no_naked repr fromisoformat mode any_broker _ _ Hst Hi) as [_ Hnn];
    [by split|]. simpl in *.
  split; [|by split]. intros sym. rewrite Hq. lia.
Qed.

(** Orders only move forward: no operation loses an order, changes what was
    ordered, takes a fill back, returns to an earlier status, or touches an order
    that is filled, cancelled or rejected. *)
Theorem session_orders_forward okb s0 s k o :
  sinv repr mode s0 -> session okb s0 s -> dget (om_orders s0) k = Some o ->
  exists o', dget (om_orders s) k = Some o' /\ order_le o o'.
Proof using All.
  intros H0 Hs Hk. destruct (session_refines _ _ _ H0 Hs) as [Hst _].
  by apply (asteps_orders_le _ _ _ _ _ _ Hst (si_inv _ _ _ H0) k o).
Qed.

(** A manager built on a fresh day, and any session of it whose broker reports a
    fixed amount per cumulative quantity. *)
Section Fresh.
Context (amt : string -> Z -> Z) (amt_zero : forall no, amt no 0 = 0) (not_paper : mode <> PAPER).
Context (show_set : list string -> string) (venue : KisVenue) (lock_path : string) (cash : Z)
  (attempts : nat) (holdings_at : nat -> exec (list Holding)).
Context (holdings_valid : forall n hs, holdings_at n = Ok hs -> holdings_ok hs).
Context (gw : G) (w w' : World) (lk : bool) (s0 : Oms G).
Context (no_records : j_records (w_journal w) = []) (no_tear : j_torn (w_journal w) = [])
  (own_mode : j_mode (w_journal w) = mode).
Context (built : build_order_manager repr fromisoformat show_set limits ccosts venue lock_path cash
  attempts holdings_at mode true (Ok ([], false)) (Ok gw) w = (lk, w', Ok s0)).

Lemma session_restorable s :
  session (amount_fixed amt) s0 s ->
  sinv repr mode s /\
  exists L0, restorable repr fromisoformat L0 (abs s) /\
    opening repr ccosts L0 (map snd (j_records (w_journal (om_world s)))) /\
    crash_safe repr fromisoformat mode ccosts (map snd (j_records (w_journal (om_world s)))).
Proof using All.
  intros Hs.
  destruct (build_fresh _ _ _ _ _ _ _ _ _ _ _ not_paper holdings_valid no_records no_tear own_mode built)
    as (hs & n & ts & Hok & Ho & Hq & Ht0 & Hm0 & Hl & Hrec).
  set (L0 := new_ledger 0 ccosts (holdings_positions hs)).
  pose proof (opening_session_start show_set venue hs n ts Hok) as Hop. fold L0 in Hop.
  rewrite <- Hrec in Hop.
  assert (Hi : sinv repr mode s0).
  { split; [done|done|lia|]. split; simpl; rewrite Ho; [constructor|done]. }
  assert (Hre : restorable repr fromisoformat L0 (abs s0)).
  { exists [], 0, []. split; simpl; rewrite ?Hrec, ?Ho, ?Hl, ?Hq; try done. }
  assert (Ham : amounts_ok amt (abs s0)) by (intros k o; simpl; by rewrite Ho).
  assert (Hcs : crash_safe repr fromisoformat mode ccosts (a_records (abs s0))).
  { intros p Hp. simpl in Hp. rewrite Hrec in Hp. destruct p as [|r p].
    - unfold recoverable, restore_session. simpl. destruct mode; [done|..]; by eexists.
    - apply prefix_cons_inv_1 in Hp as Hr1. apply prefix_cons_inv_2, prefix_nil_inv in Hp.
      rewrite Hr1, Hp, <- Hrec.
      destruct (restorable_faithful repr fromisoformat mode ccosts L0 (abs s0) not_paper Hop Hre)
        as (x & Hx & _). by exists x. }
  destruct (session_refines _ _ _ Hi Hs) as [Hst Hi']. split; [done|]. exists L0.
  destruct (asteps_restorable repr fromisoformat mode amt amt_zero L0 _ _ Hst (si_inv _ _ _ Hi) Ham Hre)
    as [Hre' _].
  by destruct (asteps_crash_safe repr fromisoformat mode amt amt_zero ccosts L0 _ _ not_paper Hst
    (si_inv _ _ _ Hi) Ham Hop Hre Hcs) as [Hcs' Hop'].
Qed.

(** C2. Crash recovery: take the manager that [build_order_manager] returns on a fresh
    day - a mode other than paper, an empty journal that is not torn, valid holdings
    - and any session of it whose broker reports a fixed amount per order number and
    cumulative quantity (and nothing for nothing). Restoring the journal it has written
    gives back the live session - every order that was sent with its status (an
    unanswered submission as unknown), broker identifiers and cumulative fills, and
    exactly the live ledger - and any prefix of the journal, so any crash between two
    records, can be restored without an error. *)
Theorem session_crash_recovery s :
  session (amount_fixed amt) s0 s ->
  (exists r, restore_session repr fromisoformat (map snd (j_records (w_journal (om_world s)))) mode
               ccosts = Ok r /\ faithful (abs s) r) /\
  crash_safe repr fromisoformat mode ccosts (map snd (j_records (w_journal (om_world s)))).
Proof using All.
  intros (_ & L0 & Hre & Hop & Hcs)%session_restorable. split; [|done].
  by apply (restorable_faithful repr fromisoformat mode ccosts L0 (abs s) not_paper Hop).
Qed.

(** C35. A revised amount makes the session unrecoverable. Take a session as in C2, up to
    a state [s] where an order has filled something; let it go on to a state [s1]
    where the order has the same quantity and another amount - the broker corrected
    the amount, and the fill loop took it over without a record - and, with a broker
    that does not return to the former amount, to a state [s2] where the order has
    filled more. Then the journal of [s2] cannot be restored, nor can any longer one:
    whatever the mode other than paper, the limits, the costs and the other orders. *)
Theorem amount_revision_breaks_restore s s1 s2 cid no o o1 o2 :
  session (amount_fixed amt) s0 s -> session any_broker s s1 ->
  session (amended no (filled_qty o) (filled_amount_krw o)) s1 s2 ->
  dget (om_orders s) cid = Some o -> 0 < filled_qty o ->
  dget (om_orders s1) cid = Some o1 -> broker_order_no o1 = Some no ->
  filled_qty o1 = filled_qty o -> filled_amount_krw o1 <> filled_amount_krw o ->
  dget (om_orders s2) cid = Some o2 -> filled_qty o1 < filled_qty o2 ->
  forall rs, exists e,
    restore_session repr fromisoformat (map snd (j_records (w_journal (om_world s2))) ++ rs) mode ccosts
    = Raise e.
Proof using All.
  intros Hs Hs1 Hs2 Hk Hpos Hk1 Hno Hq Ha Hk2 Hgrow rs.
  destruct (session_restorable _ Hs) as (Hi & L0 & Hre & _).
  destruct (session_refines _ _ _ Hi Hs1) as [Hst1 Hi1].
  destruct (session_refines _ _ _ Hi1 Hs2) as [Hst2 _].
  apply (lost_restore repr fromisoformat mode ccosts); [exact not_paper|]. apply lost_app.
  pose proof (restorable_remembers repr fromisoformat L0 (abs s) cid o Hre Hk Hpos) as Hm.
  destruct (asteps_quiet repr fromisoformat mode _ (abs s) (abs s1) cid _ _ o o1 Hst1 (si_inv _ _ _ Hi)
              Hk Hk1 eq_refl Hq Hm) as [Hm1|Hl].
  - apply (asteps_amended repr fromisoformat mode no _ _ cid (abs s1) (abs s2) o1 o2 Hst2 (si_inv _ _ _ Hi1));
      try done. lia.
  - exact (asteps_lost repr fromisoformat mode _ _ _ Hst2 Hl).
Qed.
End Fresh.

(** C5. Nothing is sent past the gate. If [submit], called when the clock had been read
    [k] times, made a submission (its time was recorded for the rate limit), then the
    session was open, the quote was the reading after the first, and every risk rule held of the
    orders, the ledger, the submit times and the block it was called with, at that
    quote, at the orderable cash the gateway answered for this order when asked after the third
    reading (none for a sale), at the commission of the order's value, and at the time
    and the kill switch read next: no kill switch, no account block, no unknown order on
    the same side of the symbol, a symbol and a price that are allowed, an order rate,
    notional, position and loss within their limits, the cost of a buy within the cash,
    a sale within the free holding. If it made none, the journal got at most one
    [risk_reject] record. *)
Theorem submit_gated i s s' r :
  j_torn (w_journal (om_world s)) = [] -> submit limits ccosts i s = (s', r) ->
  let k := w_clock (om_world s) in
  (om_submit_times s' <> om_submit_times s ->
     om_closed s = false /\
     exists q ref cash st est,
       quote_at (S k) (symbol i) = Ok q /\
       cash_read i ref (om_gw s, at_clock (S (S (S k))) (om_world s)) cash st /\
       commission ccosts (qty i * ref) = Ok est /\
       let n := w_clock (snd st) in
       safe_order i q limits (risk_context s i (kill_at (S n)) cash est (now n)) ref) /\
  (om_submit_times s' = om_submit_times s ->
     j_records (w_journal (om_world s')) = j_records (w_journal (om_world s)) \/
     exists d ts m fs, j_records (w_journal (om_world s')) =
       j_records (w_journal (om_world s)) ++ [(d, mk_record ts m "risk_reject" fs)]).
Proof using HL.
  intros Ht Hs k. apply submit_inv in Hs as [(-> & Hc & ->)|(Hc & s1 & Htm & Ho & Hb & Hl & Hj & Hr)].
  { split; [done|by left]. }
  destruct Hr as [(e & _ & -> & _)|(q & cid & entry & Hq & Hst1 & Hr)].
  { split; [congruence|]. intros _. left. by rewrite Hj. }
  unfold catch_risk in Hr. pose proof (frame_pre_trade limits ccosts i q s1) as Hf.
  destruct (pre_trade limits ccosts i q s1) as [s2 [ref|e]] eqn:Ep; simpl in Hf.
  - pose proof Hf as [_ _ Ht2 _ _ Hj2].
    destruct (send_order_times cid i q ref entry s2) as (t & Hst); [by rewrite Hj2, Hj|].
    rewrite Hr in Hst. simpl in Hst. rewrite Ht2, Htm in Hst. split.
    + intros _. split; [done|].
      apply (pre_trade_safe limits ccosts i q s1 s2 ref) in Ep as (cash & st & est & Hcash & Hest & Hsafe).
      exists q, ref, cash, st, est. unfold k. rewrite <- Hst1. split; [done|]. split; [done|]. split; [done|].
      unfold risk_context in *. by rewrite Ho, Htm, Hb, Hl in Hsafe.
    + rewrite Hst. intros Habs. exfalso. apply (f_equal length) in Habs.
      rewrite length_app in Habs. simpl in Habs. lia.
  - assert (Hno : forall x, om_submit_times x = om_submit_times s2 -> s' = x ->
              om_submit_times s' = om_submit_times s)
      by (intros x Hx ->; rewrite Hx; destruct Hf; congruence).
    destruct e as [rc detail| | | | | | | | |];
      try (injection Hr as <- <-; split; [intros Hd; exfalso; by apply Hd, (Hno s2)|];
           intros _; left; destruct Hf; congruence).
    unfold risk_rejected, sbind, ask, register, smod, sret in Hr.
    rewrite on_store_append in Hr by (destruct Hf as [_ _ _ _ _ Hj2]; simpl; by rewrite Hj2, Hj).
    injection Hr as <- <-. split; [intros Hd; exfalso; apply Hd; destruct Hf; simpl; congruence|].
    intros _. right. destruct Hf as [_ _ _ _ _ Hj2]. simpl. rewrite Hj2, Hj. by do 4 eexists.
Qed.

(** ** Assembly *)

Lemma parity_loop_result holdings_at n : forall acc s s' hs ds,
  parity_loop holdings_at n acc s = (s', Ok (hs, ds)) ->
  (n = O /\ (hs, ds) = acc) \/ (ds = position_diffs (w_ledger (om_world s')) hs) \/
  (exists d ds', ds = d :: ds').
Proof.
  induction n as [|n IH]; intros acc s s' hs ds; simpl.
  - unfold sret. intros; simplify_eq. by left.
  - intros Hp. right. unfold sbind at 1, sget at 1 in Hp. unfold sbind at 1 in Hp.
    match type of Hp with (let (_, _) := ?x in _) = _ => destruct x as [s1 [[]|e]] end; [|done].
    unfold sbind at 1 in Hp. destruct (get_holdings holdings_at s1) as [s2 [hs2|e]]; [|done].
    unfold sbind at 1, sget at 1 in Hp.
    destruct (position_diffs _ hs2) as [|d ds2] eqn:Ed.
    + unfold sret in Hp. simplify_eq. left. congruence.
    + apply IH in Hp as [[_ Hp]|[Hp|Hp]]; [simplify_eq; eauto|by left|by right].
Qed.

(** A restored session trades only on a position it agrees on with the
    broker: when [build_order_manager] returns a manager over a recovered ledger,
    either submits are blocked, or the ledger's quantity of every symbol equals
    the broker's holding in the last snapshot taken; and the session lock is held
    exactly when a manager is returned. *)
Theorem built_session_agrees show_set venue lock_path cash attempts holdings_at acquired read gw_init
    w lk w' res :
  mode <> PAPER -> (0 < attempts)%nat -> j_torn (w_journal w) = [] ->
  build_order_manager repr fromisoformat show_set limits ccosts venue lock_path cash attempts
    holdings_at mode acquired read gw_init w = (lk, w', res) ->
  (lk = true <-> exists s, res = Ok s) /\
  (forall s rs rec l, res = Ok s -> read = Ok (rs, false) ->
     restore_session repr fromisoformat rs mode ccosts = Ok rec -> rs_ledger rec = Some l ->
     is_Some (om_block s) \/
     exists hs, forall sym, ledger_qty (w_ledger (om_world s)) sym = default 0 (dget (broker_map hs) sym)).
Proof using All.
  intros Hm Ha Ht Hb. unfold build_order_manager in Hb. split.
  { repeat (hmatch Hb; simplify_eq); split; intros; (done || by eauto || naive_solver). }
  intros s rs rec l -> -> Hrec Hl. destruct acquired; [|done]. simpl in Hb. rewrite Hrec in Hb.
  destruct gw_init as [gw|]; [|done].
  destruct (open_session _ _ _ _ _ _ _ _ _ _) as [s1 [[]|e]] eqn:Eo; [|done]. simplify_eq.
  unfold open_session in Eo.
  assert (Ec : exists hs s2, (smod (with_ledger l);;; check_parity attempts holdings_at)%py
                 (new_manager gw (tick_clock w) rec) = (s2, Ok hs) /\
               on_store (append "session_start"
                 (session_start_fields show_set venue hs (length (rs_orders rec)) limits)) s2
               = (s, Ok tt)).
  { unfold sbind at 1 in Eo. destruct mode; [done|..]; rewrite Hl in Eo;
      destruct ((smod _;;; _)%py _) as [s2 [hs|e]]; try done; by eauto. }
  destruct Ec as (hs & s2 & Ec & Es). unfold sbind at 1, smod at 1 in Ec. unfold check_parity in Ec.
  unfold sbind at 1 in Ec. destruct (parity_loop _ _ _ _) as [s3 [[hs3 ds]|e]] eqn:Ep; [|done].
  assert (Hs : om_block s = om_block s2 /\
               ledger_qty (w_ledger (om_world s)) = ledger_qty (w_ledger (om_world s2))).
  { unfold on_store in Es.
    destruct (append_spec "session_start" (session_start_fields show_set venue hs
      (length (rs_orders rec)) limits) (om_gw s2) (om_world s2)) as (wx & Hx & ->).
    rewrite Hx in Es. by simplify_eq. }
  destruct Hs as [Hs1 Hs2]. rewrite Hs1, Hs2.
  apply parity_loop_result in Ep as [[? _]|[Hd|(d & ds' & Hd)]]; [lia|..]; simpl in Ec.
  - destruct ds as [|d ds'].
    + unfold sret in Ec. simplify_eq. right. exists hs. by apply position_diffs_nil.
    + unfold sbind in Ec. destruct (on_store _ s3) as [s4 [[]|e]]; [|done].
      unfold block_submits, smod, sret in Ec. simplify_eq. left. by eexists.
  - subst ds. unfold sbind in Ec. destruct (on_store _ s3) as [s4 [[]|e]]; [|done].
    unfold block_submits, smod, sret in Ec. simplify_eq. left. by eexists.
Qed.
End Facts.
End Session.

(** ** A concrete day

    A live session over the KIS client: a buy that fills in two parts and is
    cancelled, and a sale whose POST timed out and that is adopted from the
    broker's list. *)
Section Demo.
Definition demo_env : Env := {|
  now := fun n => DT (20759 * day_us + mktime 9 0 0 + Z.of_nat n * us_per_s) (Some kst_off);
  isoformat := fun d => str_pad 1 (wall_us d)
|}.
Definition demo_from (s : string) : option datetime :=
  (fun z => DT z (Some kst_off)) <$> parse_nat (s2l s).
Definition demo_repr (_ : json) : string := "".
Definition demo_oms_env : OmsEnv := {|
  quote_at := fun _ _ => Ok demo_quote;
  kill_at := fun _ => false;
  mono_at := fun n => round_z (Z.of_nat n) 0 false
|}.
Definition demo_creds : KisCredentials :=
  {| kis_account_no := "12345678"; kis_account_product_code := "01" |}.
Definition demo_limits : RiskLimits :=
  {| max_order_notional_krw := 10000000; max_position_notional_krw := 100000000;
     max_orders_per_minute := 10; max_daily_loss_krw := 1000000; symbol_whitelist := [] |}.

Definition demo_sell : OrderIntent :=
  {| symbol := "005930"; side := SELL; qty := 10; order_type := LIMIT;
     limit_price := Some 70000; tag := "" |}.
Definition demo_broker (no : string) (sd : Side) (q p filled : Z) (cxl : bool) : BrokerOrderStatus :=
  {| b_order_no := no; original_order_no := ""; org_no := "91252"; b_symbol := "005930";
     b_side := sd; ordered_qty := q; price := p; b_filled_qty := filled;
     b_filled_amount_krw := filled * 70000; b_remaining_qty := if cxl then 0 else q - filled;
     rejected_qty := 0; cancelled := cxl; order_time := "090030" |}.

Definition demo_client : KisClient := {|
  kc_posts := [[demo_rate; demo_accept]; [TransportError "ReadTimeout"]; [demo_accept]];
  kc_daily := [Ok [demo_broker "0000117057" BUY 15 70100 5 false];
               Ok [demo_broker "0000117057" BUY 15 70100 7 false;
                   demo_broker "0000117058" SELL 10 70000 10 false];
               Ok [demo_broker "0000117057" BUY 15 70100 7 true]];
  kc_cash := [Ok 5000000]
|}.
Definition demo_amt (_ : string) (q : Z) : Z := q * 70000.
Definition demo_holdings : list Holding :=
  [{| h_symbol := "005930"; h_qty := 20; h_cost_krw := 1300000 |}].

#[local] Existing Instance demo_env.
#[local] Existing Instance demo_oms_env.
#[local] Instance demo_live : LiveOrderClient KisClient := kis_client demo_repr VENUE_LIVE.
#[local] Instance demo_client_laws : LiveClientLaws KisClient := kis_client_laws demo_repr VENUE_LIVE.
#[local] Instance demo_gateway : OrderGateway KisClient := LiveGateway demo_creds LIVE.
#[local] Instance demo_laws : GatewayLaws KisClient := live_laws demo_creds LIVE.

Definition demo_world : World :=
  mkWorld (mkJournal LIVE [] []) (new_ledger 0 demo_costs []) 0.
Definition demo_build : bool * World * exec (Oms KisClient) :=
  build_order_manager demo_repr demo_from (fun _ => "frozenset()") demo_limits demo_costs VENUE_LIVE
    "order.lock" 0 3 (fun _ => Ok demo_holdings) LIVE true (Ok ([], false)) (Ok demo_client) demo_world.
Definition demo_start : Oms KisClient :=
  match demo_build with
  | (_, _, Ok s) => s
  | _ => mkOms demo_client demo_world [] 0 [] None false 0
  end.

Definition demo_s1 := fst (submit demo_limits demo_costs demo_buy demo_start).
Definition demo_s2 := fst (reconcile demo_s1).
Definition demo_s3 := fst (submit demo_limits demo_costs demo_sell demo_s2).
Definition demo_s4 := fst (reconcile demo_s3).
Definition demo_s5 := fst (cancel "live-20261102-000001" demo_s4).
Definition demo_s6 := fst (reconcile demo_s5).

(** Both orders end terminal, the second through adoption. *)
Example demo_outcome :
  map (fun kv => (fst kv, status (snd kv), filled_qty (snd kv), broker_order_no (snd kv)))
    (om_orders demo_s6) =
  [("live-20261102-000001", CANCELLED, 7, Some "0000117057");
   ("live-20261102-000002", FILLED, 10, Some "0000117058")].
Proof. vm_compute. reflexivity. Qed.

Lemma demo_clock n : good_ts demo_from (isoformat (now n)).
Proof.
  exists (DT (20759 * day_us + mktime 9 0 0 + Z.of_nat n * us_per_s) (Some kst_off)).
  split; [|reflexivity]. unfold demo_from, isoformat, now, demo_env, str_pad; cbn [wall_us].
  rewrite s2l_l2s, parse_pad; [reflexivity|]. unfold day_us, mktime, us_per_s. lia.
Defined.

Lemma demo_holdings_ok n hs :
  (fun _ : nat => Ok demo_holdings : exec _) n = Ok hs -> holdings_ok hs.
Proof.
  intros [= <-]. split; [apply NoDup_singleton|]. repeat constructor; simpl; lia.
Defined.

Lemma demo_sinv : sinv demo_repr LIVE demo_start.
Proof.
  split; [vm_compute; reflexivity|vm_compute; reflexivity|vm_compute; discriminate|].
  split; [vm_compute; constructor|vm_compute; discriminate].
Defined.

(** The broker's answers in this day. *)
Lemma demo_broker_ok s :
  match gw_fetch_statuses (om_gw s, om_world s) with
  | (_, Ok st) => forallb (fun b => b_filled_amount_krw b =? demo_amt (b_order_no b) (b_filled_qty b)) st
  | _ => true
  end = true ->
  broker_ok (amount_fixed demo_amt) s.
Proof.
  intros H p st E. rewrite E in H. apply Forall_forall. intros b Hb.
  rewrite forallb_forall in H. apply list_elem_of_In, H in Hb. by apply Z.eqb_eq in Hb.
Defined.

Lemma demo_session : session demo_limits demo_costs (amount_fixed demo_amt) demo_start demo_s6.
Proof.
  apply se_reconcile; [|apply demo_broker_ok; vm_compute; reflexivity].
  apply se_cancel. apply se_reconcile; [|apply demo_broker_ok; vm_compute; reflexivity].
  apply se_submit. apply se_reconcile; [|apply demo_broker_ok; vm_compute; reflexivity].
  apply se_submit. apply se_start.
Defined.

Lemma demo_session_any : session demo_limits demo_costs any_broker demo_start demo_s6.
Proof.
  apply se_reconcile; [|apply any_broker_ok]. apply se_cancel.
  apply se_reconcile; [|apply any_broker_ok]. apply se_submit.
  apply se_reconcile; [|apply any_broker_ok]. apply se_submit. apply se_start.
Defined.

Lemma manager_refines_machine_witness :
  session demo_limits demo_costs (amount_fixed demo_amt) demo_start demo_s6 /\
  NoDup (dkeys (om_orders demo_s6)).
Proof.
  split; [apply demo_session|].
  apply (manager_refines_machine demo_limits demo_costs demo_repr demo_from LIVE demo_clock
           (amount_fixed demo_amt) demo_start demo_s6 demo_sinv demo_session).
Defined.

Lemma session_books_balance_witness :
  session demo_limits demo_costs any_broker demo_start demo_s6 /\
  forall sym, ledger_qty (w_ledger (om_world demo_s6)) sym - traded sym (om_orders demo_s6) =
              ledger_qty (w_ledger (om_world demo_start)) sym - traded sym (om_orders demo_start).
Proof.
  split; [apply demo_session_any|].
  apply (session_books_balance demo_limits demo_costs demo_repr demo_from LIVE demo_clock
           demo_start demo_s6 demo_sinv).
  - split; [vm_compute; apply NoDup_singleton|]. vm_compute. repeat constructor; discriminate.
  - intros sym. change (open_qty (om_orders demo_start) sym SELL) with 0.
    change (w_ledger (om_world demo_start)) with (new_ledger 0 demo_costs (holdings_positions demo_holdings)).
    unfold ledger_qty; simpl. case_decide; simpl; lia.
  - apply demo_session_any.
Defined.

Lemma session_orders_forward_witness :
  exists o o', dget (om_orders demo_s1) "live-20261102-000001" = Some o /\
    dget (om_orders (fst (reconcile demo_s1))) "live-20261102-000001" = Some o' /\ order_le o o'.
Proof.
  assert (Hi : sinv demo_repr LIVE demo_s1).
  { destruct (session_refines demo_limits demo_costs demo_repr demo_from LIVE demo_clock any_broker
      demo_start demo_s1 demo_sinv) as [_ H]; [apply se_submit, se_start|exact H]. }
  destruct (dget (om_orders demo_s1) "live-20261102-000001") as [o|] eqn:E;
    [|vm_compute in E; discriminate]. exists o.
  destruct (session_orders_forward demo_limits demo_costs demo_repr demo_from LIVE demo_clock any_broker
    demo_s1 (fst (reconcile demo_s1)) "live-20261102-000001" o Hi) as (o' & Ho & Hle).
  - apply se_reconcile; [apply se_start|apply any_broker_ok].
  - exact E.
  - exists o'. auto.
Defined.

Lemma session_crash_recovery_witness :
  session demo_limits demo_costs (amount_fixed demo_amt) demo_start demo_s6 /\
  crash_safe demo_repr demo_from LIVE demo_costs (map snd (j_records (w_journal (om_world demo_s6)))).
Proof.
  split; [apply demo_session|].
  apply (session_crash_recovery demo_limits demo_costs demo_repr demo_from LIVE demo_clock demo_amt
           (fun _ => eq_refl) ltac:(discriminate)
           (fun _ => "frozenset()") VENUE_LIVE "order.lock" 0 3 (fun _ => Ok demo_holdings) demo_holdings_ok
           demo_client demo_world (om_world demo_start) true demo_start) with (s := demo_s6).
  - reflexivity.
  - reflexivity.
  - reflexivity.
  - vm_compute. reflexivity.
  - apply demo_session.
Defined.

Lemma submit_gated_witness :
  om_submit_times demo_s1 <> om_submit_times demo_start /\
  exists q ref cash st est,
    quote_at (S (w_clock (om_world demo_start))) (symbol demo_buy) = Ok q /\
    cash_read demo_buy ref
      (om_gw demo_start, at_clock (S (S (S (w_clock (om_world demo_start))))) (om_world demo_start)) cash st /\
    commission demo_costs (qty demo_buy * ref) = Ok est /\
    safe_order demo_buy q demo_limits
      (risk_context demo_start demo_buy (kill_at (S (w_clock (snd st)))) cash est (now (w_clock (snd st)))) ref.
Proof.
  assert (Hne : om_submit_times demo_s1 <> om_submit_times demo_start) by (vm_compute; discriminate).
  split; [exact Hne|].
  destruct (submit demo_limits demo_costs demo_buy demo_start) as [s r] eqn:E.
  assert (Hs : s = demo_s1) by (unfold demo_s1; rewrite E; reflexivity). subst s.
  apply (submit_gated demo_limits demo_costs demo_buy demo_start demo_s1 r); [vm_compute; reflexivity|exact E|exact Hne].
Defined.

(** The journal of the demo day read back at a restart, with the broker holding
    what the ledger says. *)
Definition demo_rebuild : bool * World * exec (Oms KisClient) :=
  build_order_manager demo_repr demo_from (fun _ => "frozenset()") demo_limits demo_costs VENUE_LIVE
    "order.lock" 0 3
    (fun _ => Ok [{| h_symbol := "005930"; h_qty := 17; h_cost_krw := 1100000 |}]) LIVE true
    (Ok (map snd (j_records (w_journal (om_world demo_s6))), false)) (Ok (om_gw demo_s6))
    (om_world demo_s6).

Lemma built_session_agrees_witness :
  exists s, snd demo_rebuild = Ok s /\
    (is_Some (om_block s) \/
     exists hs, forall sym, ledger_qty (w_ledger (om_world s)) sym =
                            default 0 (dget (broker_map hs) sym)).
Proof.
  destruct demo_rebuild as [[lk w'] res] eqn:E. simpl.
  destruct res as [s|e]; [|vm_compute in E; discriminate]. exists s. split; [reflexivity|].
  destruct (restore_session demo_repr demo_from (map snd (j_records (w_journal (om_world demo_s6))))
              LIVE demo_costs) as [rec|e] eqn:Er; [|vm_compute in Er; discriminate].
  destruct (rs_ledger rec) as [l|] eqn:El;
    [|vm_compute in Er; injection Er as <-; vm_compute in El; discriminate].
  destruct (built_session_agrees demo_limits demo_costs demo_repr demo_from LIVE demo_clock
    (fun _ => "frozenset()") VENUE_LIVE "order.lock" 0 3
    (fun _ => Ok [{| h_symbol := "005930"; h_qty := 17; h_cost_krw := 1100000 |}]) true
    (Ok (map snd (j_records (w_journal (om_world demo_s6))), false)) (Ok (om_gw demo_s6))
    (om_world demo_s6) lk w' (Ok s)) as [_ H].
  - discriminate.
  - lia.
  - vm_compute. reflexivity.
  - rewrite <- E. unfold demo_rebuild. reflexivity.
  - exact (H s _ rec l eq_refl eq_refl Er El).
Defined.

(** ** A revised amount *)

Definition demo_revised (filled amount : Z) : BrokerOrderStatus :=
  {| b_order_no := "0000117057"; original_order_no := ""; org_no := "91252"; b_symbol := "005930";
     b_side := BUY; ordered_qty := 15; price := 70100; b_filled_qty := filled;
     b_filled_amount_krw := amount; b_remaining_qty := 15 - filled; rejected_qty := 0;
     cancelled := false; order_time := "090030" |}.

Definition revised_client : KisClient := {|
  kc_posts := [[demo_accept]];
  kc_daily := [Ok [demo_revised 5 350000]; Ok [demo_revised 5 350500]; Ok [demo_revised 7 490500]];
  kc_cash := [Ok 5000000]
|}.

Definition revised_build : bool * World * exec (Oms KisClient) :=
  build_order_manager demo_repr demo_from (fun _ => "frozenset()") demo_limits demo_costs VENUE_LIVE
    "order.lock" 0 3 (fun _ => Ok demo_holdings) LIVE true (Ok ([], false)) (Ok revised_client) demo_world.
Definition revised_start : Oms KisClient :=
  match revised_build with
  | (_, _, Ok s) => s
  | _ => mkOms revised_client demo_world [] 0 [] None false 0
  end.
Definition revised_s : Oms KisClient :=
  fst (reconcile (fst (submit demo_limits demo_costs demo_buy revised_start))).
Definition revised_s1 : Oms KisClient := fst (reconcile revised_s).
Definition revised_s2 : Oms KisClient := fst (reconcile revised_s1).

Lemma broker_ok_check (okb : BrokerOrderStatus -> Prop) (f : BrokerOrderStatus -> bool) s :
  (forall b, f b = true -> okb b) ->
  match gw_fetch_statuses (om_gw s, om_world s) with (_, Ok st) => forallb f st | _ => true end = true ->
  broker_ok okb s.
Proof.
  intros Hf H p st E. rewrite E in H. apply Forall_forall. intros b Hb.
  rewrite forallb_forall in H. apply list_elem_of_In, H in Hb. auto.
Defined.

Lemma amount_revision_breaks_restore_witness :
  exists o o1 o2,
    dget (om_orders revised_s) "live-20261102-000001" = Some o /\
    dget (om_orders revised_s1) "live-20261102-000001" = Some o1 /\
    dget (om_orders revised_s2) "live-20261102-000001" = Some o2 /\
    (filled_qty o, filled_qty o1, filled_qty o2) = (5, 5, 7) /\
    (filled_amount_krw o, filled_amount_krw o1) = (350000, 350500) /\
    forall rs, exists e,
      restore_session demo_repr demo_from
        (map snd (j_records (w_journal (om_world revised_s2))) ++ rs) LIVE demo_costs = Raise e.
Proof.
  destruct (dget (om_orders revised_s) "live-20261102-000001") as [o|] eqn:E; [|vm_compute in E; discriminate].
  destruct (dget (om_orders revised_s1) "live-20261102-000001") as [o1|] eqn:E1; [|vm_compute in E1; discriminate].
  destruct (dget (om_orders revised_s2) "live-20261102-000001") as [o2|] eqn:E2; [|vm_compute in E2; discriminate].
  exists o, o1, o2. split; [exact eq_refl|]. split; [exact eq_refl|]. split; [exact eq_refl|].
  assert (Hq : (filled_qty o, filled_qty o1, filled_qty o2) = (5, 5, 7) /\
               (filled_amount_krw o, filled_amount_krw o1) = (350000, 350500) /\
               broker_order_no o1 = Some "0000117057").
  { vm_compute in E, E1, E2. injection E as <-. injection E1 as <-. injection E2 as <-. repeat split. }
  destruct Hq as (Hq & Ha & Hno). split; [exact Hq|]. split; [exact Ha|].
  injection Hq as Hq Hq1 Hq2. injection Ha as Ha Ha1.
  apply (amount_revision_breaks_restore demo_limits demo_costs demo_repr demo_from LIVE demo_clock demo_amt
           (fun _ => eq_refl) ltac:(discriminate)
           (fun _ => "frozenset()") VENUE_LIVE "order.lock" 0 3 (fun _ => Ok demo_holdings) demo_holdings_ok
           revised_client demo_world (om_world revised_start) true revised_start)
    with (s := revised_s) (s1 := revised_s1) (s2 := revised_s2) (cid := "live-20261102-000001")
         (no := "0000117057") (o := o) (o1 := o1) (o2 := o2);
    try (exact E || exact E1 || exact E2 || exact Hno || (clear -Hq Hq1 Hq2 Ha Ha1; lia)).
  - reflexivity.
  - reflexivity.
  - reflexivity.
  - vm_compute. reflexivity.
  - apply se_reconcile; [|apply demo_broker_ok; vm_compute; reflexivity]. apply se_submit, se_start.
  - apply se_reconcile; [apply se_start|apply any_broker_ok].
  - apply se_reconcile; [apply se_start|].
    apply (broker_ok_check _ (fun b => negb (b_filled_qty b =? 5))); [|vm_compute; reflexivity].
    clear -Hq. intros b Hb _ Hb'. rewrite Hb', Hq in Hb. discriminate.
Defined.
End Demo.

(** ** Paper cash

    The cash a paper session offers to the gate, and what a simulated fill does
    to it before the next reconciliation. *)

Section PaperCash.
Context `{HE : Env} `{HO : OmsEnv} (creds : KisCredentials).
Context (limits : RiskLimits) (ccosts : CostModel).
#[local] Instance paper_gateway : OrderGateway PaperState := PaperGateway creds.
#[local] Instance paper_gateway_laws : GatewayLaws PaperState := paper_laws creds.

Abbreviation PS := (Oms PaperState).

(** What the gateway answers when asked for the orderable cash. *)
Definition paper_orderable (s : PS) : Z :=
  cash_krw (w_ledger (om_world s)) - reserved_cash (pg_book (om_gw s)).

(** Order numbers above the counter are unused, as they are from an empty book on. *)
Definition paper_fresh (p : PaperState) : Prop :=
  0 <= pg_seq p /\ forall n, pg_seq p < n -> dget (pg_book p) (paper_odno n) = None.

Lemma paper_odno_inj a b : 0 <= a -> 0 <= b -> paper_odno a = paper_odno b -> a = b.
Proof.
  unfold paper_odno, str_pad. intros Ha Hb H. apply (f_equal s2l) in H.
  rewrite !s2l_app, !s2l_l2s in H. apply app_inv_head in H. apply (f_equal parse_nat) in H.
  rewrite !parse_pad in H by done. congruence.
Qed.

(** The book after a submission. *)
Definition booked (p : PaperState) (i : OrderIntent) (filled amount ref : Z) : PaperState :=
  mkPaper (pg_seq p + 1)
    (dset (pg_book p) (paper_odno (pg_seq p + 1)) (mkEntry i filled amount ref false)).

Lemma booked_fresh p i filled amount ref : paper_fresh p -> paper_fresh (booked p i filled amount ref).
Proof.
  intros [H0 Hf]. split; simpl; [lia|]. intros n Hn. rewrite dget_dset_ne; [apply Hf; lia|].
  intros H. apply paper_odno_inj in H; lia.
Qed.

Lemma booked_reserved p i filled amount ref :
  paper_fresh p -> side i = BUY ->
  reserved_cash (pg_book (booked p i filled amount ref)) =
  reserved_cash (pg_book p) + (qty i - filled) * ref.
Proof.
  intros [_ Hf] Hs. simpl. rewrite dset_fresh by (apply Hf; lia). unfold reserved_cash.
  rewrite List.filter_app, map_app, zsum_app. simpl. rewrite Hs. simpl. lia.
Qed.

(** The gateway's half of a submission. *)
Lemma paper_submit_spec o q ref filled amount g w :
  j_torn (w_journal w) = [] -> reference_price (intent o) q = Ok ref ->
  simulate_paper_fills (intent o) q = (filled, amount) ->
  exists w' out, paper_submit creds o q (g, w) = ((booked g (intent o) filled amount ref, w'), Ok out) /\
    w_ledger w' = w_ledger w /\ j_torn (w_journal w') = [] /\
    out = {| kind := OUT_ACCEPTED; o_order_no := Some (paper_odno (pg_seq g + 1));
             o_org_no := Some "PAPER"; o_order_time := Some ""; code := ""; message := "" |}.
Proof.
  intros Ht Hr Hf. unfold paper_submit, sbind, sget, smod, slift, sret. cbn [fst snd]. rewrite Hf.
  match goal with |- context [append ?ev ?fs (?g1, ?w1)] =>
    destruct (append_spec ev fs g1 w1) as (w' & -> & ->) end.
  cbn [fst snd]. rewrite Ht, !decide_False by (apply not_elem_of_nil). rewrite Hr. do 2 eexists. split; [reflexivity|].
  by split_and!.
Qed.

(** The sending half of [submit] over the paper gateway. *)
Lemma paper_send cid i q ref entry s s' o filled amount :
  j_torn (w_journal (om_world s)) = [] -> reference_price i q = Ok ref ->
  simulate_paper_fills i q = (filled, amount) ->
  send_order cid i q ref entry s = (s', Ok o) ->
  om_gw s' = booked (om_gw s) i filled amount ref /\
  w_ledger (om_world s') = w_ledger (om_world s) /\ j_torn (w_journal (om_world s')) = [].
Proof.
  intros Ht Hr Hf. unfold send_order, sbind, ask, register, smod, slift, sret. cbv beta iota zeta.
  rewrite on_store_append by done.
  set (o0 := new_order _ _ _ _ _ _). match goal with |- context [on_store (gw_submit o0 q) ?x] => set (s1 := x) end.
  destruct (paper_submit_spec o0 q ref filled amount (om_gw s1) (om_world s1)) as (w' & out & Eg & Hl & Ht' & ->);
    [done|done|done|].
  assert (Eo : on_store (gw_submit o0 q) s1 = (set_store (booked (om_gw s1) i filled amount ref, w') s1,
    Ok {| kind := OUT_ACCEPTED; o_order_no := Some (paper_odno (pg_seq (om_gw s1) + 1));
          o_org_no := Some "PAPER"; o_order_time := Some ""; code := ""; message := "" |})).
  { unfold on_store. cbn [gw_submit paper_gateway PaperGateway]. by rewrite Eg. }
  rewrite Eo. cbn [apply_outcome kind status new_order o0]. change (transition PENDING_SUBMIT ACCEPTED) with (Ok ACCEPTED : exec OrderStatus). cbn [res_bind].
  rewrite on_store_append by (unfold upd_order; cbn; by destruct (dget _ _)).
  intros [= <- _]. unfold journalled, upd_order. cbn. rewrite dget_dset_eq. by split_and!.
Qed.

Lemma paper_pre_trade i q s s' r :
  pre_trade limits ccosts i q s = (s', r) -> om_gw s' = om_gw s.
Proof.
  unfold pre_trade, sbind, slift, ask, sget, sret. destruct (reference_price i q); [|by intros [= <- _]].
  destruct (side i); cbn.
  - unfold on_store. cbn. destruct (commission _ _); [|by intros [= <- _]].
    destruct (check_intent _ _ _ _); by intros [= <- _].
  - destruct (commission _ _); [|by intros [= <- _]]. destruct (check_intent _ _ _ _); by intros [= <- _].
Qed.

(** An accepted paper buy: what the gate read, and what the gateway offers after it. *)
Lemma paper_buy i q s s' o filled amount :
  j_torn (w_journal (om_world s)) = [] -> paper_fresh (om_gw s) -> side i = BUY ->
  quote_at (S (w_clock (om_world s))) (symbol i) = Ok q ->
  simulate_paper_fills i q = (filled, amount) ->
  submit limits ccosts i s = (s', Ok o) -> status o = ACCEPTED ->
  exists ref est, reference_price i q = Ok ref /\ commission ccosts (qty i * ref) = Ok est /\
    qty i * ref + est <= paper_orderable s /\
    om_gw s' = booked (om_gw s) i filled amount ref /\ paper_fresh (om_gw s') /\
    w_ledger (om_world s') = w_ledger (om_world s) /\ j_torn (w_journal (om_world s')) = [] /\
    paper_orderable s' = paper_orderable s - (qty i - filled) * ref.
Proof.
  intros Ht Hfr Hsd Hq Hf Hs Ho. apply submit_inv in Hs as [(? & _)|(_ & s1 & _ & _ & _ & Hl & Hj & Hr)]; [done|].
  destruct Hr as [(e & _ & _ & ?)|(q' & cid & entry & Hq' & Hst & Hr)]; [done|].
  rewrite Hq in Hq'. injection Hq' as <-. injection Hst as Hg Hw. unfold catch_risk in Hr.
  pose proof (frame_pre_trade limits ccosts i q s1) as Hfp.
  destruct (pre_trade limits ccosts i q s1) as [s2 [ref|e]] eqn:Ep; simpl in Hfp.
  2: { exfalso. destruct e; try done. unfold risk_rejected, sbind, ask, register, smod, sret in Hr.
       rewrite on_store_append in Hr by (destruct Hfp as [_ _ _ _ _ Hj2]; simpl; by rewrite Hj2, Hj).
       injection Hr as _ <-. discriminate. }
  pose proof (paper_pre_trade _ _ _ _ _ Ep) as Hg2.
  apply pre_trade_safe in Ep as (cash & st & est & Hcash & Hest & Hsafe).
  pose proof (so_ref _ _ _ _ _ Hsafe) as Hrp. destruct Hfp as [_ _ _ _ Hl2 Hj2].
  destruct (so_buy _ _ _ _ _ Hsafe Hsd) as (_ & _ & Hc). simpl in Hc.
  unfold cash_read in Hcash. rewrite Hsd in Hcash. cbn in Hcash. injection Hcash as _ Hcash.
  apply (paper_send cid i q ref entry s2 s' o filled amount) in Hr as (Hg' & Hl' & Ht'); [|congruence|done|done].
  rewrite Hg2, Hg in Hg'.
  assert (Hord : paper_orderable s' = paper_orderable s - (qty i - filled) * ref).
  { unfold paper_orderable. rewrite Hg', Hl', Hl2, Hl, booked_reserved by done. lia. }
  exists ref, est. split_and!; try done; [|by rewrite Hg'; apply booked_fresh|congruence].
  unfold paper_orderable. rewrite <- Hg, <- Hl. lia.
Qed.


(** Paper buys submitted one after the other, each accepted and filled whole against
    the quote it read; no reconciliation in between. *)
Inductive paper_buys : PS -> list (OrderIntent * Quote * Z) -> PS -> Prop :=
| pb_none s : paper_buys s [] s
| pb_buy i q amount o s s1 s2 l :
    side i = BUY -> quote_at (S (w_clock (om_world s))) (symbol i) = Ok q ->
    simulate_paper_fills i q = (qty i, amount) ->
    submit limits ccosts i s = (s1, Ok o) -> status o = ACCEPTED ->
    paper_buys s1 l s2 -> paper_buys s ((i, q, amount) :: l) s2.

(** What the gateway reports as spent on buys. *)
Definition paper_spent (s : PS) : Z :=
  zsum (map (fun b => match b_side b with BUY => b_filled_amount_krw b | SELL => 0 end)
          (map entry_status (pg_book (om_gw s)))).

Lemma booked_spent p i filled amount ref :
  paper_fresh p -> side i = BUY ->
  zsum (map (fun b => match b_side b with BUY => b_filled_amount_krw b | SELL => 0 end)
          (map entry_status (pg_book (booked p i filled amount ref)))) =
  zsum (map (fun b => match b_side b with BUY => b_filled_amount_krw b | SELL => 0 end)
          (map entry_status (pg_book p))) + amount.
Proof.
  intros [_ Hf] Hs. cbn [pg_book booked]. rewrite dset_fresh by (apply Hf; lia).
  rewrite !map_app, zsum_app. simpl. rewrite Hs. lia.
Qed.

(** C36. Paper cash can be spent again and again: from any paper session whose order
    numbers are fresh, let any number of buys be submitted one after the other, each
    accepted and each filled whole against the quote it read. Every one of them was
    checked against the same cash - the one at the start - because a simulated fill is
    no longer reserved and not yet charged; the ledger and the cash offered are
    unchanged at the end, while what the gateway reports as spent has grown by the sum
    of all of them, which nothing bounds by that cash. *)
Theorem paper_cash_spent_twice s l s' :
  j_torn (w_journal (om_world s)) = [] -> paper_fresh (om_gw s) -> paper_buys s l s' ->
  Forall (fun b => exists ref est, reference_price (fst (fst b)) (snd (fst b)) = Ok ref /\
            commission ccosts (qty (fst (fst b)) * ref) = Ok est /\
            qty (fst (fst b)) * ref + est <= paper_orderable s) l /\
  paper_orderable s' = paper_orderable s /\
  w_ledger (om_world s') = w_ledger (om_world s) /\
  paper_spent s' = paper_spent s + zsum (map snd l).
Proof.
  intros Ht Hf Hb. induction Hb as [s|i q amount o s s1 s2 l Hsd Hq Hfill Hs Ho _ IH];
    [split; [constructor|]; split_and!; try done; simpl; lia|].
  destruct (paper_buy i q s s1 o (qty i) amount Ht Hf Hsd Hq Hfill Hs Ho)
    as (ref & est & Hr & He & Hle & Hg & Hf1 & Hl & Ht1 & Hc).
  rewrite Z.sub_diag, Z.mul_0_l, Z.sub_0_r in Hc. rewrite Hc, Hl in IH.
  destruct (IH Ht1 Hf1) as (HF & H1 & H2 & H3). split; [constructor; [by exists ref, est|exact HF]|].
  split; [exact H1|]. split; [exact H2|]. rewrite H3. unfold paper_spent at 1. rewrite Hg, booked_spent by done.
  unfold paper_spent. simpl. lia.
Qed.
End PaperCash.

(** ** Two buys, one cash *)
Section PaperDemo.
#[local] Existing Instance demo_env.
#[local] Existing Instance demo_oms_env.
#[local] Instance demo_paper : OrderGateway PaperState := PaperGateway demo_creds.

Definition paper_order : OrderIntent :=
  {| symbol := "005930"; side := BUY; qty := 5; order_type := LIMIT;
     limit_price := Some 70000; tag := "" |}.
Definition paper_start : Oms PaperState :=
  mkOms (mkPaper 0 []) (mkWorld (mkJournal PAPER [] []) (new_ledger 351000 demo_costs []) 0)
    [] 0 [] None false 0.
Definition paper_one : Oms PaperState := fst (submit demo_limits demo_costs paper_order paper_start).
Definition paper_two : Oms PaperState := fst (submit demo_limits demo_costs paper_order paper_one).

(** The reconciliation that follows takes the cash below zero. *)
Example paper_overdraft :
  map (fun kv => (status (snd kv), filled_qty (snd kv))) (om_orders (fst (reconcile paper_two))) =
    [(FILLED, 5); (FILLED, 5)] /\
  cash_krw (w_ledger (om_world (fst (reconcile paper_two)))) = -349024.
Proof. split; vm_compute; reflexivity. Qed.

Lemma fst_eq {A B} (p : A * B) b : snd p = b -> p = (fst p, b).
Proof. intros <-. by destruct p. Defined.

Lemma paper_accepted :
  exists o1 o2,
    submit demo_limits demo_costs paper_order paper_start = (paper_one, Ok o1) /\ status o1 = ACCEPTED /\
    submit demo_limits demo_costs paper_order paper_one = (paper_two, Ok o2) /\ status o2 = ACCEPTED.
Proof.
  do 2 eexists. split; [apply (fst_eq (submit demo_limits demo_costs paper_order paper_start)); vm_compute; reflexivity|].
  split; [reflexivity|].
  split; [apply (fst_eq (submit demo_limits demo_costs paper_order paper_one)); vm_compute; reflexivity|reflexivity].
Defined.

Lemma paper_cash_spent_twice_witness :
  paper_orderable paper_start = 351000 /\ paper_orderable paper_two = 351000 /\
  paper_spent paper_two = 700000.
Proof.
  assert (Hb : paper_buys demo_creds demo_limits demo_costs paper_start
                 [(paper_order, demo_quote, 350000); (paper_order, demo_quote, 350000)] paper_two).
  { destruct paper_accepted as (o1 & o2 & E1 & H1 & E2 & H2).
    apply (pb_buy _ _ _ paper_order demo_quote 350000 o1 paper_start paper_one);
      [reflexivity|vm_compute; reflexivity|vm_compute; reflexivity|exact E1|exact H1|].
    apply (pb_buy _ _ _ paper_order demo_quote 350000 o2 paper_one paper_two);
      [reflexivity|vm_compute; reflexivity|vm_compute; reflexivity|exact E2|exact H2|apply pb_none]. }
  assert (Hf : paper_fresh (om_gw paper_start)) by (split; [simpl; lia|reflexivity]).
  destruct (paper_cash_spent_twice demo_creds demo_limits demo_costs paper_start _ paper_two eq_refl Hf Hb)
    as (_ & H1 & _ & H2).
  split; [reflexivity|]. split; [rewrite H1; reflexivity|]. rewrite H2. reflexivity.
Defined.
End PaperDemo.
