(* ===== verification/ExecDay.v ===== *)
(** * A trading day of sessions and restarts

    A day is any alternation of machine steps, records of the session assembly,
    and restarts from the journal. Restarting loses nothing: the books stay
    balanced and the journal stays restorable however often it happens. *)
From S2P Require Import Prelude PyStr PyTime PyFloat ExecContracts ExecLedger ExecRisk ExecJournal.
From S2P Require Import KisTrading ExecGateways ExecRecovery ExecOms ExecService.
From S2P Require Import ExecMachine ExecRefine ExecRestore ExecSession.

Section Day.
Variable repr : json -> string.
Variable fromisoformat : string -> option datetime.
Variable mode : ExecutionMode.
Variable amt : string -> Z -> Z.
Hypothesis amt_zero : forall no, amt no 0 = 0.
Hypothesis not_paper : mode <> PAPER.

(** ** Sequence numbers of restored orders *)

Lemma seq_of_pstr v n : seq_of repr v = Ok n -> seq_of repr (JStr (pstr repr v)) = Ok n.
Proof.
  unfold seq_of. change (pstr repr (JStr (pstr repr v))) with (pstr repr v).
  destruct (after_last _ _) as [l|]; [|done]. by destruct (parse_nat l).
Qed.

Lemma scan1_mono acc r acc' :
  scan1 repr fromisoformat acc r = Ok acc' -> fst acc <= fst acc'.
Proof.
  unfold scan1, res_bind. intros H. repeat (hmatch H; simplify_eq); simpl; lia.
Qed.

(** Every order [replay] knows has a number the first pass has seen. *)
Definition numbered (n : Z) (orders : list (string * Order)) : Prop :=
  forall k o, dget orders k = Some o -> exists m, seq_of repr (JStr k) = Ok m /\ m <= n.

Lemma replay1_numbered acc acc' orders orders' r :
  scan1 repr fromisoformat acc r = Ok acc' -> replay1 repr fromisoformat orders r = Ok orders' ->
  numbered (fst acc) orders -> numbered (fst acc') orders'.
Proof.
  intros Hs Hr Hn. pose proof (scan1_mono _ _ _ Hs) as Hm.
  assert (Hw : numbered (fst acc') orders)
    by (intros k o Hk; destruct (Hn k o Hk) as (m & ? & ?); exists m; split; [done|lia]).
  assert (Hset : forall k o m, seq_of repr (JStr k) = Ok m -> m <= fst acc' ->
            numbered (fst acc') (dset orders k o)).
  { intros k o m Hk Hle k' o'. destruct (decide (k = k')) as [<-|Hne].
    - rewrite dget_dset_eq. eauto.
    - rewrite dget_dset_ne by done. apply Hw. }
  unfold replay1 in Hr. unfold scan1 in Hs.
  destruct (jis (Some (jget r "event")) "intent") eqn:Ei.
  - assert (Hr' : (if dmem orders (pstr repr (jget r "client_id")) then
                     (err (String.append "duplicate intent: " (pstr repr (jget r "client_id"))) : exec _)
                   else (_ <~ seq_of repr (JStr (pstr repr (jget r "client_id")));;
                         i <~ intent_of repr (jget r "intent");;
                         t <~ parse_ts repr fromisoformat (jget r "ts");;
                         Ok (dset orders (pstr repr (jget r "client_id"))
                               (mkOrder (pstr repr (jget r "client_id")) i PENDING_SUBMIT t
                                  None None None 0 0 None None)))%py) = Ok orders')
      by (destruct (jget r "event"); try done; by rewrite Ei in Hr).
    clear Hr. rewrite orb_true_l in Hs. unfold res_bind in *.
    destruct (dmem _ _); [done|].
    destruct (seq_of repr (jget r "client_id")) as [m|] eqn:Em; [|done].
    rewrite (seq_of_pstr _ _ Em) in Hr'.
    destruct (intent_of _ _) as [i|]; [|done]. destruct (parse_ts _ _ _) as [t|]; [|done].
    simplify_eq. simpl in *. eapply Hset; [by apply seq_of_pstr|lia].
  - assert (Hr' : orders' = orders \/ exists k o, dget orders k <> None /\ orders' = dset orders k o).
    { clear - Hr Ei. unfold res_bind in Hr. destruct (jget r "event"); try done;
      repeat (hmatch Hr; simplify_eq); eauto; right; do 2 eexists; (split; [|reflexivity]); congruence. }
    destruct Hr' as [->|(k & o & Hk & ->)]; [done|].
    destruct (dget orders k) as [o0|] eqn:Ek; [|done].
    destruct (Hw _ _ Ek) as (m & Hm' & Hle). by eapply Hset.
Qed.

Lemma replay_numbered rs : forall acc acc' orders orders',
  scan repr fromisoformat acc rs = Ok acc' -> replay repr fromisoformat orders rs = Ok orders' ->
  numbered (fst acc) orders -> numbered (fst acc') orders'.
Proof.
  induction rs as [|r rs IH]; intros acc acc' orders orders' Hs Hr Hn; simpl in *; [by simplify_eq|].
  destruct (scan1 _ _ acc r) as [a|] eqn:E1; simpl in Hs; [|done].
  destruct (replay1 _ _ orders r) as [o|] eqn:E2; simpl in Hr; [|done].
  eapply IH; [exact Hs|exact Hr|]. by eapply replay1_numbered.
Qed.

(** ** Restarting *)

(** The machine state a restart continues from. *)
Definition restarted (r : RecoveredSession) (l : Ledger) (rs : list record) : AS :=
  mkAS (rs_orders r) l rs (rs_next_seq r).

Definition settle_all (rest : list (string * Order)) : list (string * Order) :=
  map (fun kv => (fst kv, settle_pending (snd kv))) rest.

Lemma dkeys_settle_all rest : dkeys (settle_all rest) = dkeys rest.
Proof. unfold settle_all, dkeys. rewrite map_map. by apply map_ext. Qed.

Lemma osim_self o : osim (settle_pending o) o.
Proof.
  unfold settle_pending. case_decide as Hs; split; simpl; try done. by rewrite Hs.
Qed.

Lemma osim_order_ok o o' : osim o o' -> order_ok o -> order_ok (settle_pending o').
Proof.
  intros [Hid Hin Hst _ _ _ Hf _ _ _] [Hr Hu Hq Hp _].
  pose proof (settle_pending_status o') as Hs. rewrite Hst in Hs.
  assert (Hi' : intent (settle_pending o') = intent o)
    by (unfold settle_pending; by case_decide).
  assert (Hf' : filled_qty (settle_pending o') = filled_qty o)
    by (unfold settle_pending; by case_decide).
  split; rewrite ?Hi', ?Hf', ?Hs; try done.
  - intros Hin'. apply Hu. destruct (status o); simpl in *; set_solver.
  - intros Ht. apply Hq. by destruct (status o).
  - intros He. apply Hp. by destruct (status o).
  - by destruct (status o).
Qed.

(** Sums over the orders survive the restart when unsent orders count nothing. *)
Lemma sum_settle_all (f : Order -> Z) live : forall rest,
  (forall o o', osim o o' -> f (settle_pending o') = f o) ->
  (forall o, status o = REJECTED -> filled_qty o = 0 -> f o = 0) ->
  NoDup (dkeys live) -> sim live rest -> dkeys rest `sublist_of` dkeys live ->
  zsum (map f (dvalues (settle_all rest))) = zsum (map f (dvalues live)).
Proof.
  induction live as [|[k o] live IH]; intros rest Hf H0 Hnd Hs Hsub.
  - simpl in Hsub. apply sublist_nil_r in Hsub. by destruct rest.
  - simpl in Hnd. apply NoDup_cons in Hnd as [Hn Hnd]. simpl in Hsub.
    assert (Hrest : forall rest', dkeys rest' `sublist_of` dkeys live ->
              (forall k', k' <> k -> dget rest' k' = dget rest k') -> sim live rest').
    { intros rest' Hsub' Heq k'. destruct (decide (k' = k)) as [->|Hne].
      - assert (Hk : dget rest' k = None).
        { apply dget_None_keys. intros Hin. apply Hn. by eapply elem_of_sublist. }
        rewrite Hk. intros x Hx. apply dget_None_keys in Hn. congruence.
      - rewrite Heq by done. specialize (Hs k'). simpl in Hs. by rewrite decide_False in Hs. }
    pose proof (Hs k) as Hk. simpl in Hk. rewrite decide_True in Hk by done.
    apply sublist_cons_r in Hsub as [Hsub|(l' & Hl & Hsub)].
    + assert (Hnone : dget rest k = None).
      { apply dget_None_keys. intros Hin. apply Hn. by eapply elem_of_sublist. }
      rewrite Hnone in Hk. destruct (Hk o eq_refl) as (Hrj & _ & Hfl).
      rewrite (IH rest) by (auto using Hrest). simpl. rewrite (H0 o Hrj Hfl). done.
    + destruct rest as [|[k2 o'] rest]; [done|]. simpl in Hl. simplify_eq.
      simpl in Hk. rewrite decide_True in Hk by done. destruct Hk as (o1 & [= <-] & Ho).
      simpl. rewrite (Hf o o' Ho). f_equal. apply IH; auto.
      apply Hrest; [done|]. intros k' Hne. simpl. by rewrite decide_False.
Qed.

Lemma traded_settle_all sym live rest :
  NoDup (dkeys live) -> sim live rest -> dkeys rest `sublist_of` dkeys live ->
  traded sym (settle_all rest) = traded sym live.
Proof.
  intros. unfold traded. apply sum_settle_all; try done.
  - intros o o' [_ Hin _ _ _ _ Hf _ _ _]. unfold order_signed, settle_pending.
    case_decide; simpl; by rewrite Hin, Hf.
  - intros o _ Hf. unfold order_signed. rewrite Hf. apply signed_qty_unfilled.
Qed.

Lemma open_sell_settle_all sym live rest :
  NoDup (dkeys live) -> sim live rest -> dkeys rest `sublist_of` dkeys live ->
  open_qty (settle_all rest) sym SELL = open_qty live sym SELL.
Proof.
  intros. rewrite !open_sell_sum. apply sum_settle_all; try done.
  - intros o o' Ho. pose proof (settle_pending_status o') as Hs. rewrite (os_status _ _ Ho) in Hs.
    destruct Ho as [_ Hin _ _ _ _ Hf _ _ _]. unfold sell_left, remaining_qty.
    rewrite !is_open_terminal, Hs.
    assert (intent (settle_pending o') = intent o) as -> by (unfold settle_pending; by case_decide).
    assert (filled_qty (settle_pending o') = filled_qty o) as ->
      by (unfold settle_pending; by case_decide).
    by destruct (status o).
  - intros o Hr _. unfold sell_left. rewrite is_open_terminal, Hr. done.
Qed.

(** What every state of the day satisfies. *)
Record day_inv (costs : CostModel) (L0 : Ledger) (s : AS) : Prop := {
  di_inv : ainv repr s;
  di_amounts : amounts_ok amt s;
  di_open : opening repr costs L0 (a_records s);
  di_rest : restorable repr fromisoformat L0 s;
  di_naked : no_naked s;
  di_parity : parity (ledger_qty L0) (paid_in L0) s
}.

Lemma restart_inv costs L0 s r l :
  day_inv costs L0 s -> restore_session repr fromisoformat (a_records s) mode costs = Ok r ->
  rs_ledger r = Some l -> day_inv costs L0 (restarted r l (a_records s)).
Proof using All.
  intros [Hi Ham Hop (rest & n & ts & Hre) Hnn Hpa] Hr Hl.
  rewrite (restore_exact _ _ _ costs L0 s rest n ts not_paper Hop Hre) in Hr. simplify_eq. simpl in Hl.
  simplify_eq. fold (settle_all rest). destruct Hre as [Hrp Hs Hk Hf Hc Hq].
  pose proof (ai_keys _ _ Hi) as Hnd. unfold restarted; cbn [rs_orders rs_next_seq].
  split; try done.
  - split; cbn [a_orders]; [rewrite dkeys_settle_all; by eapply sublist_NoDup|].
    intros k o Ho. unfold settle_all in Ho. rewrite dget_map in Ho.
    destruct (dget rest k) as [o'|] eqn:Ek; simplify_eq/=.
    destruct (replay_numbered _ (0, []) (n, ts) [] rest Hc Hrp) with (k := k) (o := o')
      as (m & Hm & Hle); [done|done|].
    specialize (Hs k). rewrite Ek in Hs. destruct Hs as (x & Hx & Hsim).
    apply (ai_entry _ _ Hi) in Hx as (Hc1 & Hok & _). split; [|split; [by eapply osim_order_ok|eauto]].
    rewrite <- Hc1, <- (os_id _ _ Hsim). unfold settle_pending. by case_decide.
  - intros k o Ho. cbn [a_orders] in Ho. unfold settle_all in Ho. rewrite dget_map in Ho.
    destruct (dget rest k) as [o'|] eqn:Ek; simplify_eq/=.
    specialize (Hs k). rewrite Ek in Hs. destruct Hs as (x & Hx & Hsim). apply Ham in Hx.
    destruct Hsim as [_ _ _ Hno _ _ Hfl Ha _ _].
    unfold settle_pending; case_decide; simpl; by rewrite Hno, Hfl, Ha.
  - exists rest, n, ts. split; cbn [a_orders a_records a_ledger a_seq]; try done.
    + intros k. unfold settle_all. rewrite dget_map. destruct (dget rest k) as [o'|]; simpl; [|done].
      eexists. split; [done|]. apply osim_self.
    + by rewrite dkeys_settle_all.
  - destruct Hnn as [Hwf Hle]. split; [done|]. intros sym. cbn [a_orders a_ledger].
    by rewrite (open_sell_settle_all sym (a_orders s)).
  - destruct Hpa as [Hwf Hqt Hmo]. split; [done| |done]. intros sym. cbn [a_orders a_ledger].
    by rewrite (traded_settle_all sym (a_orders s)).
Qed.

(** ** The day *)

(** A record of the session assembly. *)
Definition assembly_record (r : record) : Prop :=
  dget r "client_id" = None /\
  exists e, dget r "event" = Some (JStr e) /\ e ∈ ["session_start"; "position_mismatch"].

Inductive day (costs : CostModel) (s0 : AS) : AS -> Prop :=
| da_start : day costs s0 s0
| da_steps s s' :
    day costs s0 s -> asteps repr fromisoformat mode (amount_fixed amt) s s' -> day costs s0 s'
| da_assembly s r :
    day costs s0 s -> assembly_record r ->
    day costs s0 (mkAS (a_orders s) (a_ledger s) (a_records s ++ [r]) (a_seq s))
| da_restart s r l :
    day costs s0 s -> restore_session repr fromisoformat (a_records s) mode costs = Ok r ->
    rs_ledger r = Some l -> day costs s0 (restarted r l (a_records s)).

Lemma assembly_events r :
  assembly_record r -> exists e, dget r "event" = Some (JStr e) /\ dget r "client_id" = None /\
    e <> "intent" /\ e <> "risk_reject" /\ e <> "fill" /\ existsb (jis (Some (JStr e))) ORDER_EVENTS = false.
Proof.
  intros (Hc & e & He & Hin). exists e. split; [done|]. split; [done|].
  apply elem_of_cons in Hin as [->|Hin]; [by vm_compute|].
  apply elem_of_cons in Hin as [->|Hin]; [by vm_compute|]. by apply elem_of_nil in Hin.
Qed.

Lemma assembly_inv costs L0 s r :
  day_inv costs L0 s -> assembly_record r ->
  day_inv costs L0 (mkAS (a_orders s) (a_ledger s) (a_records s ++ [r]) (a_seq s)).
Proof.
  intros [Hi Ham Hop (rest & n & ts & [Hrp Hs Hk Hf Hc Hq]) Hnn Hpa] Hr.
  destruct (assembly_events r Hr) as (e & He & Hcid & N1 & N2 & N3 & N4).
  split; try done.
  - by apply ainv_same.
  - by apply opening_app.
  - exists rest, n, ts. split; simpl; try done.
    + rewrite replay_app, Hrp. simpl. unfold replay1, jget, dmem. rewrite He, Hcid.
      cbn [from_option]. unfold id. rewrite jis_str, (bool_decide_eq_false_2 (e = "intent")) by done.
      by rewrite N4.
    + rewrite replay_fills_app, Hf. simpl. rewrite He, jis_str.
      by rewrite bool_decide_eq_false_2.
    + rewrite scan_app, Hc. simpl. by erewrite scan1_other.
  - destruct Hpa. by split.
Qed.

Lemma day_invariant costs L0 s0 s : day_inv costs L0 s0 -> day costs s0 s -> day_inv costs L0 s.
Proof using All.
  intros H0. induction 1 as [|s s' Hd IH Hst|s r Hd IH Hr|s r l Hd IH Hr Hl].
  - done.
  - destruct IH as [Hi Ham Hop Hre Hnn Hpa].
    destruct (asteps_restorable _ _ _ _ amt_zero L0 _ _ Hst Hi Ham Hre) as [Hre' Ham'].
    split; try done.
    + by eapply asteps_ainv.
    + clear - Hst Hi Hop. induction Hst; [done|].
      apply IHHst; [by eapply astep_ainv|by eapply astep_opening].
    + by eapply asteps_no_naked.
    + by eapply asteps_parity.
  - by apply assembly_inv.
  - by eapply restart_inv.
Qed.

End Day.

(** The day of [ExecSession.v]'s demo, restarted at its end. *)
Definition demo_record0 : record :=
  mk_record (str_pad 1 (20759 * day_us + mktime 9 0 2)) LIVE "session_start"
    (session_start_fields (fun _ => "frozenset()") VENUE_LIVE demo_holdings 0 demo_limits).

