(* ===== verification/MarketClock.v ===== *)
(** * Session clock

    KRX session anchors ([src/core/session_anchors.py]), the session schedule and
    its states ([src/core/calendar.py]), and the deploy gate
    ([src/orchestration/deploy_gate.py]). Times of day and durations are in
    microseconds. *)
From Stdlib Require Import Ascii.
From S2P Require Import Prelude PyStr PyTime ExecJournal KisTrading.

Inductive clock_exc :=
| SessionAnchorError
| ScheduleOrderError
| ClockValueError.

Abbreviation clk := (res clock_exc).

(** ** Anchors *)

Definition STANDARD_REGULAR_OPEN : Z := mktime 9 0 0.
Definition STANDARD_CLOSING_AUCTION : Z := mktime 15 20 0.
Definition STANDARD_REGULAR_CLOSE : Z := mktime 15 30 0.
Definition STANDARD_POST_CLOSING_PRICE_OPEN : Z := mktime 15 40 0.
Definition STANDARD_NXT_AFTER_MARKET_OPEN : Z := mktime 15 40 0.
Definition STANDARD_KRX_AFTER_MARKET_OPEN : Z := mktime 16 0 0.
Definition STANDARD_NXT_PREMARKET_OPEN : Z := mktime 8 0 0.
Definition STANDARD_NXT_PREMARKET_END : Z := mktime 8 50 0.
Definition STANDARD_AFTER_MARKET_END : Z := mktime 20 0 0.
Definition MAX_SESSION_SHIFT : Z := 3 * 3600 * us_per_s.

Inductive AnchorSource := VENDOR | DEFAULT.
Definition source_value (s : AnchorSource) : string :=
  match s with VENDOR => "vendor" | DEFAULT => "default" end.
Definition source_of_value (s : string) : option AnchorSource :=
  List.find (fun x => bool_decide (source_value x = s)) [VENDOR; DEFAULT].

Record SessionAnchors := mkAnchors {
  sa_date : Z;
  regular_open : Z;
  closing_auction_start : Z;
  regular_close : Z;
  after_market_end : Z;
  sa_source : AnchorSource
}.

Definition shift_between (standard actual : Z) : Z := actual - standard.

(** [_shift_time] of [session_anchors.py]: leaving the day raises. *)
Definition shift_time (standard shift : Z) : clk Z :=
  let moment := standard + shift in
  if negb (moment / day_us =? 0) then Raise SessionAnchorError else Ok (moment mod day_us).

Definition open_shift (a : SessionAnchors) : Z := shift_between STANDARD_REGULAR_OPEN (regular_open a).
Definition close_shift (a : SessionAnchors) : Z :=
  shift_between STANDARD_REGULAR_CLOSE (regular_close a).

Definition shift_pre_open (a : SessionAnchors) (standard : Z) : clk Z :=
  shift_time standard (open_shift a).
Definition shift_post_close (a : SessionAnchors) (standard : Z) : clk Z :=
  shift_time standard (close_shift a).

(** [SessionAnchors.__post_init__]. *)
Definition anchors_ordered (a : SessionAnchors) : bool :=
  (regular_open a <? closing_auction_start a) && (closing_auction_start a <? regular_close a)
  && (regular_close a <? after_market_end a).
Definition anchors_capped (a : SessionAnchors) : bool :=
  negb ((MAX_SESSION_SHIFT <? Z.abs (open_shift a)) || (MAX_SESSION_SHIFT <? Z.abs (close_shift a))).
Definition new_anchors (a : SessionAnchors) : clk SessionAnchors :=
  if negb (anchors_ordered a) then Raise SessionAnchorError
  else if negb (anchors_capped a) then Raise SessionAnchorError
  else Ok a.

Definition standard_session_anchors (day : Z) : SessionAnchors :=
  mkAnchors day STANDARD_REGULAR_OPEN STANDARD_CLOSING_AUCTION STANDARD_REGULAR_CLOSE
    STANDARD_AFTER_MARKET_END DEFAULT.

(** ** Anchor files *)

(** [strftime("%H:%M:%S")]. *)
Definition hms_chars (t : Z) : list ascii :=
  pad_chars 2 (time_hour t) ++ ":"%char :: pad_chars 2 (time_minute t) ++
  ":"%char :: pad_chars 2 (time_second t).
Definition strftime_hms (t : Z) : string := l2s (hms_chars t).

(** [time.fromisoformat] on the [HH:MM:SS] shape; [None] when the text does not
    have it. The inner [None] is [ValueError]. *)
Definition parse_hms (l : list ascii) : option (option Z) :=
  match l with
  | [h1; h2; c1; m1; m2; c2; s1; s2] =>
      if bool_decide (c1 = ":"%char) && bool_decide (c2 = ":"%char)
      then match parse_nat [h1; h2], parse_nat [m1; m2], parse_nat [s1; s2] with
           | Some h, Some m, Some s =>
               Some (if (h <=? 23) && (m <=? 59) && (s <=? 59) then Some (mktime h m s) else None)
           | _, _, _ => None
           end
      else None
  | _ => None
  end.

Section AnchorFile.
(** [repr] of a JSON value, and [time.fromisoformat] on any other shape of text. *)
Variable repr : json -> string.
Variable fromiso_other : string -> option Z.

Definition time_fromisoformat (s : string) : option Z :=
  match parse_hms (s2l s) with Some r => r | None => fromiso_other s end.

(** The payload [save_session_anchors] writes. *)
Definition anchors_payload (a : SessionAnchors) : json :=
  JObj [("date", JStr (date_isoformat (sa_date a)));
        ("regular_open", JStr (strftime_hms (regular_open a)));
        ("closing_auction_start", JStr (strftime_hms (closing_auction_start a)));
        ("regular_close", JStr (strftime_hms (regular_close a)));
        ("after_market_end", JStr (strftime_hms (after_market_end a)));
        ("source", JStr (source_value (sa_source a)))].

(** [load_session_anchors] on the file's JSON ([None]: missing or not JSON). *)
Definition load_session_anchors (file : option json) (day : Z) : option SessionAnchors :=
  match file with
  | Some (JObj raw) =>
      if negb (bool_decide (py_str repr (default JNull (dget raw "date")) = date_isoformat day))
      then None
      else
        let t k := v ← dget raw k; time_fromisoformat (py_str repr v) in
        ro ← t "regular_open";
        ca ← t "closing_auction_start";
        rc ← t "regular_close";
        am ← t "after_market_end";
        sv ← dget raw "source";
        src ← source_of_value (py_str repr sv);
        match new_anchors (mkAnchors day ro ca rc am src) with
        | Ok a => Some a
        | Raise _ => None
        end
  | _ => None
  end.

Definition resolve_session_anchors (file : option json) (day : Z) : SessionAnchors :=
  match load_session_anchors file day with
  | Some a => a
  | None => standard_session_anchors day
  end.
End AnchorFile.

(** ** Schedule and states *)

Inductive SessionState :=
| WEEKEND_SLEEP | PRE_MARKET_SLEEP | STREAMER_ACTIVE | FULL_ACTIVE | AFTER_MARKET_ACTIVE
| POST_MARKET_EOD | NIGHT_SLEEP.

#[global] Instance SessionState_eq_dec : EqDecision SessionState.
Proof. solve_decision. Defined.

Record SessionSchedule := mkSchedule {
  streamer_start : Z;
  scanner_start : Z;
  market_close : Z;
  eod_done : Z;
  after_market_enabled : bool;
  after_market_close : Z;
  after_market_eod_done : Z
}.

(** [SessionSchedule.__post_init__]. *)
Definition new_schedule (s : SessionSchedule) : clk SessionSchedule :=
  if negb ((streamer_start s <? scanner_start s) && (scanner_start s <? market_close s)
           && (market_close s <? eod_done s))
  then Raise ScheduleOrderError
  else if negb ((market_close s <? after_market_close s)
                && (after_market_close s <? after_market_eod_done s))
  then Raise ClockValueError
  else Ok s.

Definition default_schedule : SessionSchedule :=
  mkSchedule (mktime 8 20 0) (mktime 8 50 0) (mktime 15 40 0) (mktime 16 0 0) false
    (mktime 20 0 0) (mktime 20 30 0).

Definition is_weekend (date : Z) : bool := (weekday date =? 5) || (weekday date =? 6).

Definition state_at (s : SessionSchedule) (t : Z) : SessionState :=
  if t <? streamer_start s then PRE_MARKET_SLEEP
  else if t <? scanner_start s then STREAMER_ACTIVE
  else if t <? market_close s then FULL_ACTIVE
  else if after_market_enabled s
  then if t <? after_market_close s then AFTER_MARKET_ACTIVE
       else if t <? after_market_eod_done s then POST_MARKET_EOD
       else NIGHT_SLEEP
  else if t <? eod_done s then POST_MARKET_EOD
  else NIGHT_SLEEP.

Definition get_target_state (now : datetime) (s : SessionSchedule) : SessionState :=
  let kst := astimezone_kst now in
  if is_weekend (date_of kst) then WEEKEND_SLEEP else state_at s (time_of kst).

(** [calc_sleep_seconds], in microseconds. *)
Definition calc_sleep (now : datetime) (target_time : Z) : Z :=
  let kst := astimezone_kst now in
  let whole := target_time / us_per_s * us_per_s in
  let target := combine_kst (date_of kst) whole in
  let target := if wall_us target <=? wall_us kst then dt_add target day_us else target in
  instant target - instant kst.

(** [_shift_time] of [calendar.py]: wraps around midnight. *)
Definition wrap_time (value delta : Z) : Z := (value + delta) mod day_us.

Definition schedule_for (a : SessionAnchors) (base : SessionSchedule) : clk SessionSchedule :=
  let after_gap := after_market_eod_done base - after_market_close base in
  new_schedule
    (mkSchedule (streamer_start base) (scanner_start base)
       (wrap_time (market_close base) (close_shift a)) (wrap_time (eod_done base) (close_shift a))
       (after_market_enabled base) (after_market_end a)
       (wrap_time (after_market_end a) after_gap)).

(** ** Deploy gate *)

Inductive DeployAction := PROCEED | DEFER.
Definition DEPLOY_BUSY_LEAD : Z := 10 * 60 * us_per_s.
Definition DEFERRED_RECREATE_KST : Z := mktime 22 0 0.

Definition deploy_decision (now : datetime) (sched : SessionSchedule) : clk (DeployAction * string) :=
  if negb (is_aware now) then Raise ClockValueError
  else
    let kst := astimezone_kst now in
    if is_weekend (date_of kst) then Ok (PROCEED, "weekend")
    else
      let start := dt_add (combine_kst (date_of kst) (streamer_start sched)) (- DEPLOY_BUSY_LEAD) in
      let end_ := combine_kst (date_of kst) DEFERRED_RECREATE_KST in
      if (instant start <=? instant kst) && (instant kst <? instant end_)
      then Ok (DEFER, "session_busy")
      else Ok (PROCEED, "outside_session").

(** Exit code of the deploy gate's [main]. *)
Definition deploy_exit (d : DeployAction * string) : Z :=
  match fst d with PROCEED => 0 | DEFER => 10 end.

(** ** Lemmas *)

Lemma day_us_pos : 0 < day_us.
Proof. reflexivity. Qed.

Lemma pad2_length h : 0 <= h < 100 -> length (pad_chars 2 h) = 2%nat.
Proof. intros Hh. by apply pad_chars_length; [lia|]. Qed.

Lemma pad2_two h : 0 <= h < 100 -> exists a b, pad_chars 2 h = [a; b].
Proof.
  intros Hh. pose proof (pad2_length h Hh) as Hl.
  destruct (pad_chars 2 h) as [|a [|b [|c l]]]; try discriminate. eauto.
Qed.

(** Clock fields of a time of day. *)
Lemma time_fields t :
  0 <= t < day_us ->
  0 <= time_hour t <= 23 /\ 0 <= time_minute t <= 59 /\ 0 <= time_second t <= 59 /\
  mktime (time_hour t) (time_minute t) (time_second t) = t / us_per_s * us_per_s.
Proof.
  unfold day_us, us_per_s, time_hour, time_minute, time_second, mktime, us_per_s.
  intros Ht. Z.to_euclidean_division_equations. lia.
Qed.

Definition whole_second (t : Z) : Prop := 0 <= t < day_us /\ t mod us_per_s = 0.

Lemma whole_second_div t : whole_second t -> t / us_per_s * us_per_s = t.
Proof. intros [_ Hm]. pose proof (Z.div_mod t us_per_s ltac:(discriminate)). lia. Qed.

Lemma parse_hms_time t : whole_second t -> parse_hms (hms_chars t) = Some (Some t).
Proof.
  intros Ht. destruct (time_fields t (proj1 Ht)) as (Hh & Hm & Hs & Hk).
  unfold hms_chars.
  destruct (pad2_two (time_hour t)) as (h1 & h2 & Eh); [lia|].
  destruct (pad2_two (time_minute t)) as (m1 & m2 & Em); [lia|].
  destruct (pad2_two (time_second t)) as (s1 & s2 & Es); [lia|].
  pose proof (parse_pad 2 (time_hour t) ltac:(lia)) as Ph.
  pose proof (parse_pad 2 (time_minute t) ltac:(lia)) as Pm.
  pose proof (parse_pad 2 (time_second t) ltac:(lia)) as Ps.
  rewrite Eh in Ph |- *. rewrite Em in Pm |- *. rewrite Es in Ps |- *.
  cbn [app]. unfold parse_hms. rewrite !bool_decide_eq_true_2 by done.
  cbn [andb]. rewrite Ph, Pm, Ps.
  rewrite !(proj2 (Z.leb_le _ _)) by lia. cbn [andb]. rewrite Hk. by rewrite whole_second_div.
Qed.

Definition whole_anchors (a : SessionAnchors) : Prop :=
  whole_second (regular_open a) /\ whole_second (closing_auction_start a) /\
  whole_second (regular_close a) /\ whole_second (after_market_end a).

Lemma new_anchors_ok a x : new_anchors a = Ok x -> x = a.
Proof. unfold new_anchors. intros H. repeat (hmatch H; simplify_eq). done. Qed.

Lemma source_roundtrip s : source_of_value (source_value s) = Some s.
Proof. by destruct s. Qed.

(** The KST wall clock. *)
Lemma kst_wall now : wall_us (astimezone_kst now) = instant now + kst_off.
Proof. done. Qed.

Lemma date_time d : wall_us d = date_of d * day_us + time_of d.
Proof. unfold date_of, time_of. pose proof (Z.div_mod (wall_us d) day_us ltac:(discriminate)). lia. Qed.

(** ** Properties *)

(** Anchor files round-trip: what [save_session_anchors] writes for valid
    anchors on whole seconds is what [resolve_session_anchors] returns for that
    day, and anchors that violate the order or the three-hour cap are never
    returned - the standard ones are. *)
Theorem anchors_file_roundtrip repr fromiso_other a :
  new_anchors a = Ok a -> whole_anchors a ->
  resolve_session_anchors repr fromiso_other (Some (anchors_payload a)) (sa_date a) = a /\
  forall file day, let r := resolve_session_anchors repr fromiso_other file day in
    new_anchors r = Ok r /\ sa_date r = day.
Proof.
  intros Hok (H1 & H2 & H3 & H4). split.
  - unfold resolve_session_anchors, load_session_anchors, anchors_payload.
    set (raw := _ :: _).
    assert (Hd : dget raw "date" = Some (JStr (date_isoformat (sa_date a)))) by reflexivity.
    assert (Ht : forall k t, dget raw k = Some (JStr (strftime_hms t)) -> whole_second t ->
              (v ← dget raw k; time_fromisoformat fromiso_other (py_str repr v)) = Some t).
    { intros k t Hk Ht. rewrite Hk. simpl. unfold time_fromisoformat, strftime_hms.
      by rewrite s2l_l2s, parse_hms_time. }
    rewrite bool_decide_eq_true_2 by (rewrite Hd; reflexivity). cbn [negb].
    rewrite (Ht "regular_open" (regular_open a)) by (reflexivity || exact H1).
    cbn [mbind option_bind].
    rewrite (Ht "closing_auction_start" (closing_auction_start a)) by (reflexivity || exact H2).
    cbn [mbind option_bind].
    rewrite (Ht "regular_close" (regular_close a)) by (reflexivity || exact H3).
    cbn [mbind option_bind].
    rewrite (Ht "after_market_end" (after_market_end a)) by (reflexivity || exact H4).
    cbn [mbind option_bind].
    change (dget raw "source") with (Some (JStr (source_value (sa_source a)))).
    cbn [mbind option_bind py_str]. rewrite source_roundtrip. cbn [mbind option_bind].
    destruct a as [d ro ca rc am src]; cbn [sa_date regular_open closing_auction_start regular_close
      after_market_end sa_source] in *. by rewrite Hok.
  - intros file day r. unfold r, resolve_session_anchors.
    destruct (load_session_anchors repr fromiso_other file day) as [x|] eqn:E; [|by split].
    unfold load_session_anchors in E. destruct file as [[| | | | | |raw]|]; try done.
    destruct (negb _); [done|]. cbv zeta in E.
    do 5 (apply bind_Some in E as (? & _ & E)). apply bind_Some in E as (src & _ & E).
    destruct (new_anchors (mkAnchors _ _ _ _ _ _)) as [y|] eqn:En in E; [|done].
    injection E as E. subst y.
    pose proof (new_anchors_ok _ _ En) as Hx. rewrite Hx in En |- *. by split.
Qed.

Lemma anchors_file_roundtrip_witness :
  let a := mkAnchors 20406 (mktime 10 0 0) (mktime 16 20 0) (mktime 16 30 0) (mktime 20 0 0) VENDOR in
  new_anchors a = Ok a /\
  resolve_session_anchors (fun _ => "") (fun _ => None) (Some (anchors_payload a)) 20406 = a.
Proof.
  split; [vm_compute; reflexivity|].
  apply (anchors_file_roundtrip (fun _ => "") (fun _ => None)
    (mkAnchors 20406 (mktime 10 0 0) (mktime 16 20 0) (mktime 16 30 0) (mktime 20 0 0) VENDOR)).
  - vm_compute; reflexivity.
  - repeat split; vm_compute; congruence.
Defined.

(** The schedule's state at an instant in KST. *)
Lemma target_state_kst now s :
  get_target_state now s =
  if is_weekend ((instant now + kst_off) / day_us) then WEEKEND_SLEEP
  else state_at s ((instant now + kst_off) mod day_us).
Proof. done. Qed.

(** Sleeping reaches the next transition exactly: for a whole-second target,
    [calc_sleep_seconds] is positive and at most a day, the KST time of day when
    it has elapsed is the target, and the target time does not occur before. *)
Theorem sleep_reaches_target now target :
  whole_second target ->
  let d := calc_sleep now target in
  0 < d <= day_us /\
  time_of (astimezone_kst (dt_add now d)) = target /\
  forall e, 0 < e < d -> time_of (astimezone_kst (dt_add now e)) <> target.
Proof.
  intros Ht. pose proof (whole_second_div _ Ht) as Hw. destruct Ht as [Hr _].
  set (k := instant now + kst_off).
  assert (Hk : forall e, time_of (astimezone_kst (dt_add now e)) = (k + e) mod day_us).
  { intros e. unfold time_of, astimezone_kst, instant, dt_add, k, instant. simpl. f_equal. lia. }
  assert (Hd : calc_sleep now target =
    if k / day_us * day_us + target <=? k then k / day_us * day_us + target + day_us - k
    else k / day_us * day_us + target - k).
  { unfold calc_sleep. rewrite Hw. unfold date_of, combine_kst, astimezone_kst, dt_add. simpl.
    fold k. destruct (_ <=? k); unfold instant; simpl; unfold id; lia. }
  pose proof (Z.mod_pos_bound k day_us day_us_pos) as Hm.
  pose proof (Z.div_mod k day_us ltac:(discriminate)) as Hdm.
  rewrite Hd. cbv zeta. set (q := k / day_us) in *. set (r := k mod day_us) in *.
  destruct (Z.leb_spec (q * day_us + target) k); (split; [lia|]); split.
  - rewrite Hk. replace (k + _) with (target + (q + 1) * day_us) by lia.
    rewrite Z.mod_add by discriminate. by apply Z.mod_small.
  - intros e He. rewrite Hk. intros Hx.
    pose proof (Z.div_mod (k + e) day_us ltac:(discriminate)) as Hy. rewrite Hx in Hy.
    assert (Hq : (k + e) / day_us = q \/ (k + e) / day_us = q + 1).
    { assert (q <= (k + e) / day_us) by (apply Z.div_le_lower_bound; lia).
      assert ((k + e) / day_us < q + 2) by (apply Z.div_lt_upper_bound; lia). lia. }
    destruct Hq as [Hq|Hq]; rewrite Hq in Hy; lia.
  - rewrite Hk. replace (k + _) with (target + q * day_us) by lia.
    rewrite Z.mod_add by discriminate. by apply Z.mod_small.
  - intros e He. rewrite Hk. intros Hx.
    pose proof (Z.div_mod (k + e) day_us ltac:(discriminate)) as Hy. rewrite Hx in Hy.
    assert (Hq : (k + e) / day_us = q).
    { assert (q <= (k + e) / day_us) by (apply Z.div_le_lower_bound; lia).
      assert ((k + e) / day_us < q + 1) by (apply Z.div_lt_upper_bound; lia). lia. }
    rewrite Hq in Hy. lia.
Qed.

Lemma sleep_reaches_target_witness :
  let d := calc_sleep (DT (20759 * day_us + mktime 23 59 59) (Some kst_off)) (mktime 8 20 0) in
  0 < d <= day_us.
Proof.
  apply (sleep_reaches_target (DT (20759 * day_us + mktime 23 59 59) (Some kst_off)) (mktime 8 20 0)).
  split; vm_compute; auto. split; congruence.
Defined.

(** The order of the states within a weekday. *)
Definition state_index (s : SessionState) : Z :=
  match s with
  | WEEKEND_SLEEP | PRE_MARKET_SLEEP => 0
  | STREAMER_ACTIVE => 1
  | FULL_ACTIVE => 2
  | AFTER_MARKET_ACTIVE => 3
  | POST_MARKET_EOD => 4
  | NIGHT_SLEEP => 5
  end.

Definition active (s : SessionState) : bool :=
  match s with STREAMER_ACTIVE | FULL_ACTIVE | AFTER_MARKET_ACTIVE | POST_MARKET_EOD => true | _ => false end.

Lemma new_schedule_inv s x :
  new_schedule s = Ok x ->
  x = s /\ streamer_start s < scanner_start s < market_close s /\ market_close s < eod_done s /\
  market_close s < after_market_close s < after_market_eod_done s.
Proof.
  unfold new_schedule. intros H. repeat (hmatch H; simplify_eq). bprop. auto with lia.
Qed.

(** A valid schedule runs through its states in order: as the time of a
    weekday grows the state never goes back, and each boundary of the schedule is
    the first moment of its state. *)
Theorem schedule_states_in_order s t1 t2 :
  new_schedule s = Ok s -> t1 <= t2 ->
  state_index (state_at s t1) <= state_index (state_at s t2) /\
  state_at s (streamer_start s) = STREAMER_ACTIVE /\
  state_at s (scanner_start s) = FULL_ACTIVE /\
  state_at s (market_close s) =
    (if after_market_enabled s then AFTER_MARKET_ACTIVE else POST_MARKET_EOD) /\
  state_at s (if after_market_enabled s then after_market_eod_done s else eod_done s) = NIGHT_SLEEP.
Proof.
  intros (_ & H1 & H2 & H3)%new_schedule_inv Ht. unfold state_at.
  repeat split;
    repeat match goal with |- context [?a <? ?b] => destruct (Z.ltb_spec a b) end;
    destruct (after_market_enabled s); simpl; try lia; try done.
  all: repeat match goal with |- context [?a <? ?b] => destruct (Z.ltb_spec a b) end; simpl; try lia; try done.
Qed.

Lemma schedule_states_in_order_witness :
  new_schedule default_schedule = Ok default_schedule /\
  state_index (state_at default_schedule (mktime 8 0 0)) <=
  state_index (state_at default_schedule (mktime 15 45 0)).
Proof.
  split; [vm_compute; reflexivity|].
  apply (schedule_states_in_order default_schedule (mktime 8 0 0) (mktime 15 45 0)).
  - vm_compute; reflexivity.
  - vm_compute; discriminate.
Defined.

(** A shifted day has a valid schedule: for valid anchors whose close leaves
    ten minutes before the aftermarket ends and whose aftermarket end leaves half
    an hour in the day, [schedule_for] the default schedule never raises, keeps
    the morning starts, and moves the close by exactly the day's close shift. *)
Theorem shifted_schedule_valid a :
  new_anchors a = Ok a -> after_market_end a < day_us - 30 * 60 * us_per_s ->
  regular_close a + 10 * 60 * us_per_s < after_market_end a ->
  exists s, schedule_for a default_schedule = Ok s /\
    streamer_start s = mktime 8 20 0 /\ scanner_start s = mktime 8 50 0 /\
    market_close s = regular_close a + 10 * 60 * us_per_s /\
    eod_done s = regular_close a + 30 * 60 * us_per_s /\
    after_market_eod_done s = after_market_end a + 30 * 60 * us_per_s.
Proof.
  unfold new_anchors. intros Hok He Hc.
  destruct (anchors_ordered a) eqn:E1; [|done]. destruct (anchors_capped a) eqn:E2; [|done].
  unfold anchors_ordered in E1. unfold anchors_capped in E2. bprop.
  unfold close_shift, open_shift, shift_between, MAX_SESSION_SHIFT, STANDARD_REGULAR_CLOSE,
    STANDARD_REGULAR_OPEN, mktime, us_per_s, day_us in *.
  unfold schedule_for, new_schedule, wrap_time, close_shift, shift_between, default_schedule,
    STANDARD_REGULAR_CLOSE, mktime, day_us, us_per_s in *. simpl in *.
  rewrite !Z.mod_small by lia.
  match goal with |- context [if ?b then _ else _] =>
    replace b with false by (symmetry; apply negb_false_iff; rewrite !andb_true_iff, !Z.ltb_lt; lia) end.
  match goal with |- context [if ?b then _ else _] =>
    replace b with false by (symmetry; apply negb_false_iff; rewrite !andb_true_iff, !Z.ltb_lt; lia) end.
  eexists. split; [reflexivity|]. simpl. lia.
Qed.

Lemma shifted_schedule_valid_witness :
  exists s, schedule_for (mkAnchors 20406 (mktime 10 0 0) (mktime 16 20 0) (mktime 16 30 0)
                            (mktime 20 0 0) VENDOR) default_schedule = Ok s /\
    market_close s = mktime 16 40 0.
Proof.
  destruct (shifted_schedule_valid (mkAnchors 20406 (mktime 10 0 0) (mktime 16 20 0) (mktime 16 30 0)
    (mktime 20 0 0) VENDOR)) as (s & H & _ & _ & Hm & _).
  - vm_compute; reflexivity.
  - vm_compute; reflexivity.
  - vm_compute; reflexivity.
  - exists s. split; [exact H|exact Hm].
Defined.

(** A deploy never interrupts collection: whenever the session state of a
    valid schedule that finishes by 22:00 is an active one, the deploy gate
    defers; it also defers in the ten minutes before the streamer starts. *)
Theorem deploy_never_interrupts now s :
  is_aware now = true -> new_schedule s = Ok s ->
  eod_done s <= DEFERRED_RECREATE_KST -> after_market_eod_done s <= DEFERRED_RECREATE_KST ->
  (active (get_target_state now s) = true \/
   (is_weekend (date_of (astimezone_kst now)) = false /\
    streamer_start s - DEPLOY_BUSY_LEAD <= time_of (astimezone_kst now) < streamer_start s)) ->
  exists r, deploy_decision now s = Ok (DEFER, r) /\ deploy_exit (DEFER, r) = 10.
Proof.
  intros Haw (_ & H1 & H2 & H3)%new_schedule_inv He1 He2 Hact.
  unfold deploy_decision. rewrite Haw. simpl negb. cbv iota.
  unfold get_target_state in Hact. set (kst := astimezone_kst now) in *.
  assert (Hwe : is_weekend (date_of kst) = false /\
            streamer_start s - DEPLOY_BUSY_LEAD <= time_of kst < DEFERRED_RECREATE_KST).
  { unfold DEPLOY_BUSY_LEAD, us_per_s in *. destruct Hact as [Ha|[Hw Ht]].
    - destruct (is_weekend (date_of kst)); [done|]. split; [done|]. unfold state_at in Ha.
      repeat match type of Ha with context [?a <? ?b] => destruct (Z.ltb_spec a b) end;
        destruct (after_market_enabled s); simpl in Ha; try done; try lia;
        repeat match type of Ha with context [?a <? ?b] => destruct (Z.ltb_spec a b) end;
        try done; lia.
    - split; [done|]. lia. }
  destruct Hwe as [Hw Ht]. rewrite Hw. pose proof (date_time kst) as Hdt.
  assert (Hi : instant kst = date_of kst * day_us + time_of kst - kst_off)
    by (rewrite <- Hdt; reflexivity).
  match goal with |- context [if ?b then _ else _] => replace b with true end.
  - eexists. split; reflexivity.
  - symmetry. apply andb_true_iff. rewrite Z.leb_le, Z.ltb_lt, Hi.
    unfold instant, combine_kst, dt_add; simpl. unfold id. lia.
Qed.

Lemma deploy_never_interrupts_witness :
  exists r, deploy_decision (DT (20759 * day_us + mktime 9 30 0) (Some kst_off)) default_schedule =
    Ok (DEFER, r).
Proof.
  destruct (deploy_never_interrupts (DT (20759 * day_us + mktime 9 30 0) (Some kst_off)) default_schedule)
    as (r & H & _).
  - reflexivity.
  - vm_compute; reflexivity.
  - vm_compute; discriminate.
  - vm_compute; discriminate.
  - left. vm_compute. reflexivity.
  - exists r. exact H.
Defined.
