(* ===== verification/MarketPhase.v ===== *)
(** * Market phase of an event ([src/storage/market_phase.py])

    The scalar classifier over the contracted phase table, the table shifted by
    the day's anchors, and the columnar expression over L1 rows. The regular
    expressions that read the event time out of the raw body are parameters. *)
From Stdlib Require Import Ascii ZifyBool.
From S2P Require Import Prelude PyStr PyTime MarketClock.

(** ** Data *)

Inductive MarketVenue := V_KRX | V_NXT | V_UNKNOWN.
Inductive MarketPhase :=
| PRE_MARKET_CLOSING_PRICE | OPENING_AUCTION | REGULAR | CLOSING_AUCTION
| POST_MARKET_CLOSING_PRICE | AFTERMARKET | PREMARKET | UNCLASSIFIED.
Inductive EventKind := TRADE | QUOTE.

#[global] Instance MarketVenue_eq_dec : EqDecision MarketVenue.
Proof. solve_decision. Defined.
#[global] Instance MarketPhase_eq_dec : EqDecision MarketPhase.
Proof. solve_decision. Defined.
#[global] Instance EventKind_eq_dec : EqDecision EventKind.
Proof. solve_decision. Defined.

Definition mvenue_value (v : MarketVenue) : string :=
  match v with V_KRX => "krx" | V_NXT => "nxt" | V_UNKNOWN => "unknown" end.
Definition phase_value (p : MarketPhase) : string :=
  match p with
  | PRE_MARKET_CLOSING_PRICE => "pre_closing_price"
  | OPENING_AUCTION => "opening_auction"
  | REGULAR => "regular"
  | CLOSING_AUCTION => "closing_auction"
  | POST_MARKET_CLOSING_PRICE => "post_closing_price"
  | AFTERMARKET => "aftermarket"
  | PREMARKET => "premarket"
  | UNCLASSIFIED => "unclassified"
  end.

Record PhaseWindow := mkWindow {
  pw_venue : MarketVenue;
  pw_kind : option EventKind;
  pw_start : Z;
  pw_end : Z;
  pw_phase : MarketPhase
}.

Definition STREAM_EVENT_KIND : list (string * EventKind) :=
  [("H0STCNT0", TRADE); ("H0NXCNT0", TRADE); ("H0STASP0", QUOTE); ("H0NXASP0", QUOTE)].

Definition MARKET_PHASE_WINDOWS : list PhaseWindow :=
  [mkWindow V_KRX (Some TRADE) (mktime 8 30 0) (mktime 8 40 0) PRE_MARKET_CLOSING_PRICE;
   mkWindow V_KRX None (mktime 8 30 0) STANDARD_REGULAR_OPEN OPENING_AUCTION;
   mkWindow V_KRX None STANDARD_REGULAR_OPEN STANDARD_CLOSING_AUCTION REGULAR;
   mkWindow V_KRX None STANDARD_CLOSING_AUCTION STANDARD_POST_CLOSING_PRICE_OPEN CLOSING_AUCTION;
   mkWindow V_KRX None STANDARD_POST_CLOSING_PRICE_OPEN STANDARD_KRX_AFTER_MARKET_OPEN
     POST_MARKET_CLOSING_PRICE;
   mkWindow V_KRX None STANDARD_KRX_AFTER_MARKET_OPEN STANDARD_AFTER_MARKET_END AFTERMARKET;
   mkWindow V_NXT None STANDARD_NXT_PREMARKET_OPEN STANDARD_NXT_PREMARKET_END PREMARKET;
   mkWindow V_NXT None STANDARD_NXT_AFTER_MARKET_OPEN STANDARD_AFTER_MARKET_END AFTERMARKET].

(** ** The scalar classifier *)

Definition parse_event_time (event_time : string) : option Z :=
  match s2l event_time with
  | [h1; h2; m1; m2; s1; s2] =>
      match parse_nat [h1; h2], parse_nat [m1; m2], parse_nat [s1; s2] with
      | Some h, Some m, Some s =>
          if (23 <? h) || (59 <? m) || (59 <? s) then None else Some (mktime h m s)
      | _, _, _ => None
      end
  | _ => None
  end.

Definition window_matches (venue : MarketVenue) (kind : EventKind) (moment : Z) (w : PhaseWindow) : bool :=
  bool_decide (pw_venue w = venue)
  && match pw_kind w with None => true | Some k => bool_decide (k = kind) end
  && (pw_start w <=? moment) && (moment <? pw_end w).

Definition classify_market_phase (venue : MarketVenue) (event_time : string) (kind : EventKind)
    (windows : list PhaseWindow) : MarketPhase :=
  match parse_event_time event_time with
  | None => UNCLASSIFIED
  | Some moment =>
      match List.find (window_matches venue kind moment) windows with
      | Some w => pw_phase w
      | None => UNCLASSIFIED
      end
  end.

(** ** The table of a shifted day *)

Definition phase_windows_for (a : SessionAnchors) : clk (list PhaseWindow) :=
  (pre1 <~ shift_pre_open a (mktime 8 30 0);;
   pre2 <~ shift_pre_open a (mktime 8 40 0);;
   post1 <~ shift_post_close a STANDARD_POST_CLOSING_PRICE_OPEN;;
   post2 <~ shift_post_close a STANDARD_KRX_AFTER_MARKET_OPEN;;
   nxt1 <~ shift_pre_open a STANDARD_NXT_PREMARKET_OPEN;;
   nxt2 <~ shift_pre_open a STANDARD_NXT_PREMARKET_END;;
   nxt3 <~ shift_post_close a STANDARD_NXT_AFTER_MARKET_OPEN;;
   Ok [mkWindow V_KRX (Some TRADE) pre1 pre2 PRE_MARKET_CLOSING_PRICE;
       mkWindow V_KRX None pre1 (regular_open a) OPENING_AUCTION;
       mkWindow V_KRX None (regular_open a) (closing_auction_start a) REGULAR;
       mkWindow V_KRX None (closing_auction_start a) post1 CLOSING_AUCTION;
       mkWindow V_KRX None post1 post2 POST_MARKET_CLOSING_PRICE;
       mkWindow V_KRX None post2 (after_market_end a) AFTERMARKET;
       mkWindow V_NXT None nxt1 nxt2 PREMARKET;
       mkWindow V_NXT None nxt3 (after_market_end a) AFTERMARKET])%py.

(** ** The columnar expression *)

(** The columns of one L1 row; [None] is a null. *)
Record Row := mkRow {
  r_venue : string;
  r_stream : string;
  r_raw : string;
  r_event_time : option string
}.

(** [^(?:[01][0-9]|2[0-3])[0-5][0-9][0-5][0-9]$] *)
Definition in_range (lo hi : Z) (c : ascii) : bool :=
  match char_digit c with Some d => (lo <=? d) && (d <=? hi) | None => false end.
Definition valid_hhmmss (s : string) : bool :=
  match s2l s with
  | [h1; h2; m1; m2; s1; s2] =>
      ((in_range 0 1 h1 && in_range 0 9 h2) || (in_range 2 2 h1 && in_range 0 3 h2))
      && in_range 0 5 m1 && in_range 0 9 m2 && in_range 0 5 s1 && in_range 0 9 s2
  | _ => false
  end.

Definition stream_is (k : EventKind) (stream : string) : bool :=
  existsb (fun sk => bool_decide (snd sk = k) && bool_decide (fst sk = stream)) STREAM_EVENT_KIND.

Section Columns.
(** [str.extract] of the chetime and hotime patterns. *)
Variables extract_chetime extract_hotime : string -> option string.

Definition event_time_value (r : Row) : string :=
  let raw_time :=
    if stream_is TRADE (r_stream r) then extract_chetime (r_raw r)
    else if stream_is QUOTE (r_stream r) then extract_hotime (r_raw r)
    else Some "" in
  if negb (bool_decide (default "" (r_event_time r) = ""))
  then default "" (r_event_time r) else default "" raw_time.

Definition window_cond (r : Row) (event : string) (w : PhaseWindow) : bool :=
  bool_decide (r_venue r = mvenue_value (pw_venue w))
  && str_leb (strftime_hhmmss (pw_start w)) event && str_ltb event (strftime_hhmmss (pw_end w))
  && match pw_kind w with None => true | Some k => stream_is k (r_stream r) end.

(** [market_phase_expr] on a row: the [when/then/otherwise] chain built over the
    reversed table. *)
Definition market_phase_expr (windows : list PhaseWindow) (r : Row) : string :=
  let event := event_time_value r in
  let valid := valid_hhmmss event && dmem STREAM_EVENT_KIND (r_stream r)
               && existsb (fun w => bool_decide (mvenue_value (pw_venue w) = r_venue r)) windows in
  fold_left (fun result w => if valid && window_cond r event w then phase_value (pw_phase w) else result)
    (rev windows) (phase_value UNCLASSIFIED).

(** A frame: which of the optional columns its schema has, and its rows. The
    value under a missing column is not read. *)
Record FrameRow := mkFrameRow {
  fr_raw : string; fr_tr_id : string; fr_venue : string; fr_stream : string;
  fr_event_time : option string; fr_phase : string
}.
Record Frame := mkFrame {
  has_venue : bool; has_stream : bool; has_tr_id : bool; has_event_time : bool;
  frame_rows : list FrameRow
}.

Definition row_of (f : Frame) (r : FrameRow) : Row :=
  mkRow (if has_venue f then fr_venue r else mvenue_value V_KRX)
        (if has_stream f then fr_stream r else fr_tr_id r) (fr_raw r)
        (if has_event_time f then fr_event_time r else Some "").

(** Both new columns are computed from the row before either is written. *)
Definition annotate_row (windows : list PhaseWindow) (f : Frame) (r : FrameRow) : FrameRow :=
  let row := row_of f r in
  mkFrameRow (fr_raw r) (fr_tr_id r) (r_venue row) (r_stream row)
    (Some (event_time_value row)) (market_phase_expr windows row).

(** [None] is the [ValueError] of a frame with neither [stream] nor [tr_id]. *)
Definition annotate_market_phase (f : Frame) (windows : list PhaseWindow) : option Frame :=
  if negb (has_stream f) && negb (has_tr_id f) then None
  else Some (mkFrame true true (has_tr_id f) true (map (annotate_row windows f) (frame_rows f))).
End Columns.

(** ** Lemmas *)

Lemma parse_nat2 a b :
  parse_nat [a; b] =
  match char_digit a, char_digit b with Some x, Some y => Some (x * 10 + y) | _, _ => None end.
Proof.
  unfold parse_nat, all_digits, chars_val. cbn [forallb map].
  destruct (char_digit a) as [x|]; [|done]. destruct (char_digit b) as [y|]; [|done].
  cbn. unfold dec_val. cbn [fold_left]. f_equal; lia.
Qed.

Lemma in_range_digit lo hi c :
  in_range lo hi c = true -> exists d, char_digit c = Some d /\ lo <= d <= hi.
Proof. unfold in_range. destruct (char_digit c) as [d|]; [|done]. exists d. split; [done|lia]. Qed.

Lemma in_range_wide lo hi lo' hi' c :
  in_range lo hi c = true -> lo' <= lo -> hi <= hi' -> in_range lo' hi' c = true.
Proof. unfold in_range. destruct (char_digit c); [lia|done]. Qed.

(** A pair of digit characters in the ranges a field of the pattern allows. *)
Lemma valid_pair hi a b :
  in_range 0 hi a = true -> in_range 0 9 b = true ->
  exists x y, char_digit a = Some x /\ char_digit b = Some y /\ 0 <= x <= hi /\ 0 <= y <= 9.
Proof.
  intros (x & ? & ?)%in_range_digit (y & ? & ?)%in_range_digit. eauto 10.
Qed.

(** What the regular expression accepts is a parsable [HHMMSS]. *)
Lemma valid_hhmmss_parse e :
  valid_hhmmss e = true ->
  is_digits (s2l e) /\ length (s2l e) = 6%nat /\
  exists h m s, 0 <= h <= 23 /\ 0 <= m <= 59 /\ 0 <= s <= 59 /\
    parse_event_time e = Some (mktime h m s) /\ chars_val (s2l e) = h * 10000 + m * 100 + s.
Proof.
  unfold valid_hhmmss, parse_event_time.
  destruct (s2l e) as [|h1 [|h2 [|m1 [|m2 [|s1 [|s2 [|x l]]]]]]]; try done.
  intros H. rewrite !andb_true_iff in H. destruct H as [[[[Hh Hm1] Hm2] Hs1] Hs2].
  destruct (valid_pair _ _ _ Hm1 Hm2) as (c & d & Ec & Ed & ? & ?).
  destruct (valid_pair _ _ _ Hs1 Hs2) as (u & v & Eu & Ev & ? & ?).
  assert (exists a b, char_digit h1 = Some a /\ char_digit h2 = Some b /\
            0 <= a * 10 + b <= 23 /\ 0 <= a <= 9 /\ 0 <= b <= 9) as (a & b & Ea & Eb & ? & ? & ?).
  { apply orb_true_iff in Hh as [[(a & ? & ?)%in_range_digit (b & ? & ?)%in_range_digit]%andb_true_iff
      |[(a & ? & ?)%in_range_digit (b & ? & ?)%in_range_digit]%andb_true_iff];
      exists a, b; repeat split; try done; lia. }
  split_and!; [repeat constructor; eauto|done|].
  exists (a * 10 + b), (c * 10 + d), (u * 10 + v).
  rewrite !parse_nat2, Ea, Eb, Ec, Ed, Eu, Ev.
  split_and!; try lia.
  - by destruct (_ || (59 <? u * 10 + v)) eqn:E; [lia|].
  - unfold chars_val. cbn [map]. rewrite Ea, Eb, Ec, Ed, Eu, Ev. unfold dec_val. cbn. lia.
Qed.

(** And what it refuses, the parser refuses. *)
Lemma invalid_hhmmss_parse e : valid_hhmmss e = false -> parse_event_time e = None.
Proof.
  unfold valid_hhmmss, parse_event_time, in_range.
  destruct (s2l e) as [|h1 [|h2 [|m1 [|m2 [|s1 [|s2 [|x l]]]]]]]; try done.
  rewrite !parse_nat2.
  destruct (char_digit h1) as [a|] eqn:Ea; [|done]. destruct (char_digit h2) as [b|] eqn:Eb; [|done].
  destruct (char_digit m1) as [c|] eqn:Ec; [|done]. destruct (char_digit m2) as [d|] eqn:Ed; [|done].
  destruct (char_digit s1) as [u|] eqn:Eu; [|done]. destruct (char_digit s2) as [v|] eqn:Ev; [|done].
  apply char_digit_range in Ea, Eb, Ec, Ed, Eu, Ev.
  intros H. destruct (_ || (59 <? u * 10 + v)) eqn:E; [done|lia].
Qed.

(** [strftime("%H%M%S")] of a time of day as digits. *)
Lemma hhmmss_digits t :
  whole_second t ->
  is_digits (hhmmss_chars t) /\ length (hhmmss_chars t) = 6%nat /\
  chars_val (hhmmss_chars t) = time_hour t * 10000 + time_minute t * 100 + time_second t.
Proof.
  intros Ht. destruct (time_fields t (proj1 Ht)) as (Hh & Hm & Hs & _).
  unfold hhmmss_chars. split_and!.
  - apply Forall_app_2; [|apply Forall_app_2]; apply pad_chars_digits; lia.
  - rewrite !length_app, !pad2_length by lia. done.
  - rewrite !chars_val_app, !length_app, !pad2_length, !chars_val_pad by lia. cbn. lia.
Qed.

Lemma hhmmss_value_le t h m s :
  whole_second t -> 0 <= h <= 23 -> 0 <= m <= 59 -> 0 <= s <= 59 ->
  (time_hour t * 10000 + time_minute t * 100 + time_second t <=? h * 10000 + m * 100 + s)
  = (t <=? mktime h m s).
Proof.
  intros Ht Hh Hm Hs. destruct (time_fields t (proj1 Ht)) as (Hh' & Hm' & Hs' & Hk).
  rewrite whole_second_div in Hk by done. rewrite <- Hk at 4. unfold mktime, us_per_s. lia.
Qed.

(** String comparison against a window bound is time comparison. *)
Lemma bound_compare t e h m s :
  whole_second t -> is_digits (s2l e) -> length (s2l e) = 6%nat ->
  0 <= h <= 23 -> 0 <= m <= 59 -> 0 <= s <= 59 -> chars_val (s2l e) = h * 10000 + m * 100 + s ->
  str_leb (strftime_hhmmss t) e = (t <=? mktime h m s) /\
  str_ltb e (strftime_hhmmss t) = (mktime h m s <? t).
Proof.
  intros Ht Hd Hl Hh Hm Hs Hv. destruct (hhmmss_digits t Ht) as (Dd & Dl & Dv).
  unfold strftime_hhmmss. rewrite <- (l2s_s2l e).
  rewrite str_leb_digits, str_ltb_digits by congruence.
  pose proof (hhmmss_value_le t h m s Ht Hh Hm Hs). rewrite Dv, Hv. split; lia.
Qed.

Lemma fold_when {A} (c : A -> bool) (v : A -> string) (l : list A) d :
  fold_left (fun res w => if c w then v w else res) (rev l) d
  = match List.find c l with Some w => v w | None => d end.
Proof.
  rewrite <- fold_left_rev_right, rev_involutive.
  induction l as [|w l IH]; [done|]. cbn. by destruct (c w).
Qed.

Lemma find_ext_in {A} (f g : A -> bool) (l : list A) :
  Forall (fun x => f x = g x) l -> List.find f l = List.find g l.
Proof. induction 1 as [|x l Hx _ IH]; [done|]. cbn. by rewrite Hx, IH. Qed.

Lemma find_none_in {A} (f : A -> bool) (l : list A) :
  Forall (fun x => f x = false) l -> List.find f l = None.
Proof. induction 1 as [|x l Hx _ IH]; [done|]. cbn. by rewrite Hx. Qed.

Lemma stream_is_kind k s : stream_is k s = bool_decide (dget STREAM_EVENT_KIND s = Some k).
Proof.
  destruct (decide (s = "H0STCNT0")) as [->|]; [by destruct k|].
  destruct (decide (s = "H0NXCNT0")) as [->|]; [by destruct k|].
  destruct (decide (s = "H0STASP0")) as [->|]; [by destruct k|].
  destruct (decide (s = "H0NXASP0")) as [->|]; [by destruct k|].
  unfold stream_is, STREAM_EVENT_KIND. cbn [existsb dget fst snd].
  rewrite !(decide_False (P := s = _)) by done.
  rewrite !(bool_decide_eq_false_2 (_ = s)) by done. by rewrite !andb_false_r.
Qed.

(** The enum member of a venue column value. *)
Definition mvenue_of (s : string) : option MarketVenue :=
  if decide (s = "krx") then Some V_KRX else if decide (s = "nxt") then Some V_NXT
  else if decide (s = "unknown") then Some V_UNKNOWN else None.

Lemma mvenue_of_value v : mvenue_of (mvenue_value v) = Some v.
Proof. by destruct v. Qed.

Lemma mvenue_of_Some s v : mvenue_of s = Some v -> mvenue_value v = s.
Proof. unfold mvenue_of. repeat case_decide; intros [= <-]; done. Qed.

Lemma mvenue_value_inj v v' : mvenue_value v = mvenue_value v' -> v = v'.
Proof. intros H. apply (f_equal mvenue_of) in H. rewrite !mvenue_of_value in H. congruence. Qed.

Definition whole_window (w : PhaseWindow) : Prop := whole_second (pw_start w) /\ whole_second (pw_end w).

(** One guard of the chain on a row whose venue and stream are known. *)
Lemma window_cond_matches r e v k w h m s :
  r_venue r = mvenue_value v -> dget STREAM_EVENT_KIND (r_stream r) = Some k ->
  whole_window w -> is_digits (s2l e) -> length (s2l e) = 6%nat ->
  0 <= h <= 23 -> 0 <= m <= 59 -> 0 <= s <= 59 -> chars_val (s2l e) = h * 10000 + m * 100 + s ->
  window_cond r e w = window_matches v k (mktime h m s) w.
Proof.
  intros Hv Hk [Hw1 Hw2] Hd Hl Hh Hm Hs Hc. unfold window_cond, window_matches.
  destruct (bound_compare (pw_start w) e h m s) as [-> _]; [done..|].
  destruct (bound_compare (pw_end w) e h m s) as [_ ->]; [done..|].
  assert (bool_decide (r_venue r = mvenue_value (pw_venue w)) = bool_decide (pw_venue w = v)) as ->.
  { rewrite Hv. apply bool_decide_ext. split; [|by intros ->].
    by intros ?%mvenue_value_inj. }
  destruct (pw_kind w) as [k'|]; [|by rewrite !andb_true_r].
  rewrite stream_is_kind, Hk.
  assert (bool_decide (Some k = Some k') = bool_decide (k' = k)) as ->
    by (apply bool_decide_ext; naive_solver).
  by destruct (bool_decide (pw_venue w = v)), (bool_decide (k' = k)), (_ <=? _), (_ <? _).
Qed.

Section ColumnLemmas.
Context (extract_chetime extract_hotime : string -> option string).
Implicit Types (r : Row) (windows : list PhaseWindow).

Lemma market_phase_find windows r :
  market_phase_expr extract_chetime extract_hotime windows r =
  let e := event_time_value extract_chetime extract_hotime r in
  match List.find (fun w => valid_hhmmss e && dmem STREAM_EVENT_KIND (r_stream r)
      && existsb (fun w => bool_decide (mvenue_value (pw_venue w) = r_venue r)) windows
      && window_cond r e w) windows with
  | Some w => phase_value (pw_phase w) | None => phase_value UNCLASSIFIED
  end.
Proof. unfold market_phase_expr. by rewrite fold_when. Qed.
End ColumnLemmas.

(** What the scalar classifier says of a row; a row of an unknown venue or stream is
    unclassified. *)
Definition row_phase (venue stream event : string) (windows : list PhaseWindow) : MarketPhase :=
  match mvenue_of venue, dget STREAM_EVENT_KIND stream with
  | Some v, Some kind => classify_market_phase v event kind windows
  | _, _ => UNCLASSIFIED
  end.

Lemma columnar_matches_scalar extract_chetime extract_hotime windows r :
  Forall whole_window windows ->
  market_phase_expr extract_chetime extract_hotime windows r =
  phase_value (row_phase (r_venue r) (r_stream r) (event_time_value extract_chetime extract_hotime r) windows).
Proof.
  intros HW. rewrite market_phase_find. cbv zeta. unfold row_phase.
  set (e := event_time_value _ _ r). set (known := existsb _ windows). unfold dmem.
  destruct (mvenue_of (r_venue r)) as [v|] eqn:Ev.
  2:{ rewrite find_none_in; [done|]. apply Forall_forall. intros w _. unfold window_cond.
      rewrite (bool_decide_eq_false_2 (r_venue r = _)); [by rewrite andb_false_r|].
      intros Hv. rewrite Hv, mvenue_of_value in Ev. done. }
  destruct (dget STREAM_EVENT_KIND (r_stream r)) as [k|] eqn:Ek.
  2:{ rewrite find_none_in; [done|]. apply Forall_forall. intros w _. by rewrite andb_false_r. }
  unfold classify_market_phase. destruct (valid_hhmmss e) eqn:Ee.
  2:{ rewrite (invalid_hhmmss_parse e Ee), find_none_in; [done|]. by apply Forall_forall. }
  destruct (valid_hhmmss_parse e Ee) as (Hd & Hl & h & m & s & Hh & Hm & Hs & -> & Hc).
  pose proof (mvenue_of_Some _ _ Ev) as Hv.
  rewrite (find_ext_in _ (window_matches v k (mktime h m s))).
  { by destruct (List.find _ windows). }
  rewrite Forall_forall in HW |- *. intros w Hw.
  rewrite (window_cond_matches r e v k w h m s) by auto. cbn [andb].
  destruct known eqn:Eknown; [done|]. cbn [andb]. unfold window_matches.
  rewrite (bool_decide_eq_false_2 (pw_venue w = v)); [done|]. intros <-.
  apply not_true_iff_false in Eknown. apply Eknown, existsb_exists.
  exists w. split; [by apply list_elem_of_In|]. by apply bool_decide_eq_true_2.
Qed.

Lemma shift_time_ok t d : 0 <= t + d < day_us -> shift_time t d = Ok (t + d).
Proof.
  intros H. unfold shift_time. rewrite Z.div_small by done. cbn.
  by rewrite Z.mod_small.
Qed.

Lemma whole_shift t a b :
  whole_second a -> b mod us_per_s = 0 -> t mod us_per_s = 0 -> 0 <= t + (a - b) < day_us ->
  whole_second (t + (a - b)).
Proof.
  intros [_ Ha] Hb Ht Hr. split; [done|]. unfold us_per_s in *.
  Z.to_euclidean_division_equations. lia.
Qed.

(** The table of a day with valid anchors, written out. *)
Lemma phase_windows_table a :
  new_anchors a = Ok a -> whole_anchors a ->
  exists ws, phase_windows_for a = Ok ws /\ Forall whole_window ws /\
    ws = let o := open_shift a in let c := close_shift a in
      [mkWindow V_KRX (Some TRADE) (mktime 8 30 0 + o) (mktime 8 40 0 + o) PRE_MARKET_CLOSING_PRICE;
       mkWindow V_KRX None (mktime 8 30 0 + o) (regular_open a) OPENING_AUCTION;
       mkWindow V_KRX None (regular_open a) (closing_auction_start a) REGULAR;
       mkWindow V_KRX None (closing_auction_start a) (mktime 15 40 0 + c) CLOSING_AUCTION;
       mkWindow V_KRX None (mktime 15 40 0 + c) (mktime 16 0 0 + c) POST_MARKET_CLOSING_PRICE;
       mkWindow V_KRX None (mktime 16 0 0 + c) (after_market_end a) AFTERMARKET;
       mkWindow V_NXT None (mktime 8 0 0 + o) (mktime 8 50 0 + o) PREMARKET;
       mkWindow V_NXT None (mktime 15 40 0 + c) (after_market_end a) AFTERMARKET].
Proof.
  intros Hok (W1 & W2 & W3 & W4). unfold new_anchors in Hok.
  destruct (anchors_ordered a); [|done]. destruct (anchors_capped a) eqn:E; [|done].
  unfold anchors_capped in E. apply negb_true_iff, orb_false_iff in E as [Eo Ec].
  rewrite Z.ltb_ge in Eo, Ec.
  eexists. split.
  - unfold phase_windows_for, shift_pre_open, shift_post_close.
    unfold MAX_SESSION_SHIFT, us_per_s in Eo, Ec.
    rewrite !shift_time_ok by
      (unfold STANDARD_POST_CLOSING_PRICE_OPEN, STANDARD_KRX_AFTER_MARKET_OPEN, STANDARD_NXT_PREMARKET_OPEN,
         STANDARD_NXT_PREMARKET_END, STANDARD_NXT_AFTER_MARKET_OPEN, mktime, day_us, us_per_s; lia).
    reflexivity.
  - split; [|reflexivity].
    assert (S : forall h m, 7 <= h <= 16 -> 0 <= m <= 59 ->
              whole_second (mktime h m 0 + open_shift a) /\ whole_second (mktime h m 0 + close_shift a)).
    { intros h m Hh Hm. unfold MAX_SESSION_SHIFT, open_shift, close_shift, shift_between in *.
      split; apply whole_shift; try done;
        unfold mktime, day_us, us_per_s in *; (apply Z.mod_mul; lia) || lia. }
    repeat constructor; cbn; solve [apply W1 | apply W2 | apply W3 | apply W4 | apply S; lia].
Qed.

(** ** Properties *)

(** The phase table follows the day: for valid anchors whose aftermarket
    ends no earlier than half an hour after the close, the table can always be
    built; its windows tile the KRX day from thirty minutes before the open to the
    aftermarket end with no gap; an event is in the regular phase exactly between
    the actual open and the actual closing auction; and a standard day gets the
    contracted table. *)
Theorem shifted_phases_tile a :
  new_anchors a = Ok a -> whole_anchors a ->
  regular_close a + 30 * 60 * us_per_s <= after_market_end a ->
  exists ws, phase_windows_for a = Ok ws /\ Forall whole_window ws /\
    (a = standard_session_anchors (sa_date a) -> ws = MARKET_PHASE_WINDOWS) /\
    forall e k t, parse_event_time e = Some t ->
      (classify_market_phase V_KRX e k ws = REGULAR <->
        regular_open a <= t < closing_auction_start a) /\
      (classify_market_phase V_KRX e k ws = UNCLASSIFIED <->
        ~ (regular_open a - 30 * 60 * us_per_s <= t < after_market_end a)).
Proof.
  intros Hok HW Hc. destruct (phase_windows_table a Hok HW) as (ws & Hws & Hwhole & ->).
  eexists. split_and!; [exact Hws|exact Hwhole|by intros ->|].
  unfold new_anchors in Hok. destruct (anchors_ordered a) eqn:E; [|done]. clear Hok Hws Hwhole HW.
  unfold anchors_ordered in E. bprop.
  intros e k t He. unfold classify_market_phase. rewrite He.
  unfold window_matches, open_shift, close_shift, shift_between, STANDARD_REGULAR_OPEN,
    STANDARD_REGULAR_CLOSE, mktime, us_per_s in *.
  cbn [List.find pw_venue pw_kind pw_start pw_end pw_phase].
  rewrite !bool_decide_eq_true_2 by done. rewrite !(bool_decide_eq_false_2 (V_NXT = _)) by done.
  cbn [andb].
  repeat (match goal with |- context [if ?b then _ else _] => destruct b eqn:? end;
          [bprop; cbn; split; (split; [discriminate || lia|intros; try done; exfalso; lia])|]).
  cbn. split; (split; [discriminate || lia|try done; intros; exfalso; lia]).
Qed.

Lemma shifted_phases_tile_witness :
  exists ws, phase_windows_for (mkAnchors 20406 (mktime 10 0 0) (mktime 16 20 0) (mktime 16 30 0)
                                  (mktime 20 0 0) VENDOR) = Ok ws /\
    classify_market_phase V_KRX "161959" TRADE ws = REGULAR.
Proof.
  destruct (shifted_phases_tile (mkAnchors 20406 (mktime 10 0 0) (mktime 16 20 0) (mktime 16 30 0)
    (mktime 20 0 0) VENDOR)) as (ws & H & _ & _ & Hc).
  - vm_compute; reflexivity.
  - repeat split; vm_compute; congruence.
  - vm_compute; congruence.
  - exists ws. split; [exact H|].
    destruct (Hc "161959" TRADE (mktime 16 19 59)) as [Hr _]; [vm_compute; reflexivity|].
    apply Hr. vm_compute. split; congruence.
Defined.

Section Annotate.
Context (extract_chetime extract_hotime : string -> option string).

Lemma event_time_again venue stream raw r :
  r_stream r = stream -> r_raw r = raw ->
  event_time_value extract_chetime extract_hotime
    (mkRow venue stream raw (Some (event_time_value extract_chetime extract_hotime r)))
  = event_time_value extract_chetime extract_hotime r.
Proof.
  intros <- <-. set (e := event_time_value _ _ r). unfold event_time_value. cbn [r_event_time default r_stream r_raw].
  destruct (decide (e = "")) as [He|He].
  2:{ rewrite bool_decide_eq_false_2 by done. done. }
  rewrite bool_decide_eq_true_2 by done. cbn [negb]. subst e. rewrite He.
  unfold event_time_value in He.
  destruct (bool_decide (default "" (r_event_time r) = "")) eqn:E; cbn [negb] in He; [done|].
  by apply bool_decide_eq_false in E.
Qed.
End Annotate.

(** Batch files and ad-hoc readers never disagree, whatever the frame's schema:
    annotation raises only when a frame has neither a stream nor a transaction id;
    otherwise it keeps every row with its raw body in order, fills every event time,
    gives each row the phase the scalar classifier gives its venue, stream and event
    time, and annotating again (legacy columns included) changes nothing. *)
Theorem annotation_matches_scalar extract_chetime extract_hotime windows f :
  Forall whole_window windows ->
  (annotate_market_phase extract_chetime extract_hotime f windows = None <->
     has_stream f = false /\ has_tr_id f = false) /\
  forall f', annotate_market_phase extract_chetime extract_hotime f windows = Some f' ->
    map fr_raw (frame_rows f') = map fr_raw (frame_rows f) /\
    map fr_tr_id (frame_rows f') = map fr_tr_id (frame_rows f) /\
    Forall (fun r => exists e, fr_event_time r = Some e /\
              fr_phase r = phase_value (row_phase (fr_venue r) (fr_stream r) e windows)) (frame_rows f') /\
    annotate_market_phase extract_chetime extract_hotime f' windows = Some f'.
Proof.
  intros HW. unfold annotate_market_phase.
  split; [by destruct (has_stream f), (has_tr_id f); cbn; naive_solver|].
  intros f' H. destruct (negb (has_stream f) && _); [done|]. injection H as <-. cbn.
  rewrite !map_map. split_and!; [done..| |].
  - apply Forall_forall. intros r (x & -> & _)%list_elem_of_fmap. cbn. eexists.
    split; [reflexivity|]. by rewrite columnar_matches_scalar.
  - do 2 f_equal. apply map_ext. intros r. unfold annotate_row, row_of. cbn.
    unfold market_phase_expr. by rewrite !event_time_again.
Qed.

Lemma annotation_matches_scalar_witness :
  annotate_market_phase (fun _ => None) (fun _ => None)
    (mkFrame false true false true [mkFrameRow "{}" "" "" "H0STCNT0" (Some "083500") ""]) MARKET_PHASE_WINDOWS
  = Some (mkFrame true true false true
      [mkFrameRow "{}" "" "krx" "H0STCNT0" (Some "083500") "pre_closing_price"]) /\
  "pre_closing_price" = phase_value (row_phase "krx" "H0STCNT0" "083500" MARKET_PHASE_WINDOWS).
Proof.
  destruct (annotation_matches_scalar (fun _ => None) (fun _ => None) MARKET_PHASE_WINDOWS
    (mkFrame false true false true [mkFrameRow "{}" "" "" "H0STCNT0" (Some "083500") ""])) as [_ H].
  { repeat constructor; vm_compute; (done || (split; discriminate)). }
  assert (E : annotate_market_phase (fun _ => None) (fun _ => None)
    (mkFrame false true false true [mkFrameRow "{}" "" "" "H0STCNT0" (Some "083500") ""]) MARKET_PHASE_WINDOWS
    = Some (mkFrame true true false true
      [mkFrameRow "{}" "" "krx" "H0STCNT0" (Some "083500") "pre_closing_price"])) by (vm_compute; reflexivity).
  split; [exact E|]. destruct (H _ E) as (_ & _ & HF & _). cbn in HF.
  apply Forall_cons in HF as [(e & He & Hp) _]. cbn in He, Hp. injection He as <-. exact Hp.
Defined.
