(* ===== verification/WsLease.v ===== *)
(** * The WebSocket slot ledger ([src/realtime/ws_lease.py])

    The host-wide ledger of connection slots of one credential. Its state is the
    ledger file: absent, unreadable as JSON, or a JSON value; every call is one
    locked read-modify-write of it, so the interleavings of the collector
    processes are the sequences of calls. File faults, clock reads and fresh
    tokens of a call are its [LedgerEnv]; [json.dumps] followed by [json.loads] is
    the identity on the values written here. *)
From Stdlib Require Import SpecFloat Ascii.
From S2P Require Import Prelude PyStr PyFloat ExecJournal.

(** ** Data *)

Inductive LeaseRole := PRIMARY | STANDBY.
#[global] Instance LeaseRole_eq_dec : EqDecision LeaseRole.
Proof. solve_decision. Defined.
Definition role_value (r : LeaseRole) : string :=
  match r with PRIMARY => "primary" | STANDBY => "standby" end.
Definition role_of_value (s : string) : option LeaseRole :=
  List.find (fun r => bool_decide (role_value r = s)) [PRIMARY; STANDBY].

Record Lease := mkLease {
  ls_vendor : string; ls_key_id : string; ls_owner : string; ls_role : LeaseRole;
  ls_token : string; ls_expires_ns : Z
}.

(** [LeaseUnavailable] with its reason; [LValue] is [ValueError], [LOverflow] the
    [OverflowError] of a non-finite duration. *)
Inductive lease_exc := LeaseUnavailable (reason : string) | LValue | LOverflow.

Record Entry := mkEntry {
  en_owner : string; en_role : LeaseRole; en_token : string;
  en_expires_ns : Z; en_granted_ns : Z; en_preempt : bool
}.

(** Construction parameters of a ledger object. *)
Record LedgerCfg := mkCfg { lc_vendor : string; lc_key_id : string; lc_cap : Z; lc_ttl_ns : Z }.

(** What one call meets: the lock, the reads and writes of the file system, the
    three clock reads it can make and the token it would draw. *)
Record LedgerEnv := mkEnv {
  e_lock : bool; e_read : bool; e_write : bool; e_rename : bool;
  e_now : Z; e_quar : Z; e_store : Z; e_token : string
}.

(** The shared file and the object's [_standby_blocked_until_ns]. *)
Record LState := mkLState { l_file : option (option json); l_blocked : Z }.
Abbreviation lio := (stx LState lease_exc).

(** [[A-Za-z0-9_-]+] in full. *)
Definition ident_char (c : ascii) : bool :=
  let n := Z.of_nat (nat_of_ascii c) in
  ((65 <=? n) && (n <=? 90)) || ((97 <=? n) && (n <=? 122)) || ((48 <=? n) && (n <=? 57))
  || (n =? 95) || (n =? 45).
Definition identifier (s : string) : bool :=
  match s2l s with [] => false | l => forallb ident_char l end.

(** [WsLeaseLedger.__init__]. *)
Definition new_ledger (vendor key_id : string) (max_connections : Z) (ttl_s : pyfloat)
    : res lease_exc LedgerCfg :=
  if negb (identifier vendor && identifier key_id) then Raise LValue
  else match int_of_float (fmul ttl_s (round_z (10 ^ 9) 0 false)) with
       | Raise FOverflow => Raise LOverflow
       | Raise FNan => Raise LValue
       | Ok ttl_ns =>
           if (max_connections <? 1) || (ttl_ns <=? 0) then Raise LValue
           else Ok (mkCfg vendor key_id max_connections ttl_ns)
       end.

(** ** The file *)

Definition SCHEMA_VERSION : Z := 1.

Definition entry_json (e : Entry) : json :=
  JObj [("expires_ns", JInt (en_expires_ns e)); ("granted_ns", JInt (en_granted_ns e));
        ("owner", JStr (en_owner e)); ("preempt", JBool (en_preempt e));
        ("role", JStr (role_value (en_role e))); ("token", JStr (en_token e))].

(** [None] is the [ValueError]. *)
Definition parse_entry (item : json) : option Entry :=
  match item with
  | JObj o =>
      match dget o "owner", dget o "role", dget o "token", dget o "preempt",
            dget o "expires_ns", dget o "granted_ns" with
      | Some (JStr owner), Some (JStr role), Some (JStr token), Some (JBool preempt),
        Some (JInt expires_ns), Some (JInt granted_ns) =>
          r ← role_of_value role; Some (mkEntry owner r token expires_ns granted_ns preempt)
      | _, _, _, _, _, _ => None
      end
  | _ => None
  end.

(** Python's [value == z] on a JSON value. *)
Definition json_eq_int (v : option json) (z : Z) : bool :=
  match v with
  | Some (JInt x) => x =? z
  | Some (JBool b) => (if b then 1 else 0) =? z
  | Some (JFloat f) => SFeqb f (round_z z 0 false)
  | _ => false
  end.

Definition parse_entries (payload : json) : option (list Entry) :=
  match payload with
  | JObj o =>
      if negb (json_eq_int (dget o "schema_version") SCHEMA_VERSION) then None
      else match dget o "leases" with
           | Some (JArr l) => mapM parse_entry l
           | _ => None
           end
  | _ => None
  end.

Definition parse_blocked_until (payload : json) : option Z :=
  match payload with
  | JObj o =>
      match dget o "standby_blocked_until_ns" with
      | None => Some 0
      | Some (JInt z) => Some z
      | Some _ => None
      end
  | _ => None
  end.

Definition find_token (entries : list Entry) (token : string) : option Entry :=
  List.find (fun e => bool_decide (en_token e = token)) entries.

(** Mutation and removal of the object found first. *)
Fixpoint update_first (p : Entry -> bool) (f : Entry -> Entry) (l : list Entry) : list Entry :=
  match l with
  | [] => []
  | e :: l' => if p e then f e :: l' else e :: update_first p f l'
  end.
Fixpoint remove_first (p : Entry -> bool) (l : list Entry) : list Entry :=
  match l with
  | [] => []
  | e :: l' => if p e then l' else e :: remove_first p l'
  end.
Definition has_token (t : string) (e : Entry) : bool := bool_decide (en_token e = t).
Definition set_expires (z : Z) (e : Entry) : Entry :=
  mkEntry (en_owner e) (en_role e) (en_token e) z (en_granted_ns e) (en_preempt e).
Definition set_role (r : LeaseRole) (e : Entry) : Entry :=
  mkEntry (en_owner e) r (en_token e) (en_expires_ns e) (en_granted_ns e) (en_preempt e).
Definition set_preempt (e : Entry) : Entry :=
  mkEntry (en_owner e) (en_role e) (en_token e) (en_expires_ns e) (en_granted_ns e) true.

Section Ledger.
Context (cfg : LedgerCfg) (env : LedgerEnv).

Definition unavailable {A} (reason : string) : lio A := sraise (LeaseUnavailable reason).
Definition set_blocked (z : Z) : lio unit := smod (fun s => mkLState (l_file s) z).
Definition set_file (f : option (option json)) : lio unit := smod (fun s => mkLState f (l_blocked s)).

Definition locked {A} (body : lio A) : lio A :=
  if negb (e_lock env) then unavailable "ledger_unavailable" else body.

Definition drop_expired (entries : list Entry) (now : Z) : list Entry :=
  List.filter (fun e => now <? en_expires_ns e) entries.

Definition store_payload (entries : list Entry) (blocked : Z) : json :=
  JObj ([("leases", JArr (map entry_json entries)); ("schema_version", JInt SCHEMA_VERSION)]
        ++ (if e_store env <? blocked then [("standby_blocked_until_ns", JInt blocked)] else [])).

Definition store (entries : list Entry) : lio unit :=
  (s <- sget;;
   if negb (e_write env) then unavailable "ledger_unwritable"
   else set_file (Some (Some (store_payload entries (l_blocked s)))))%py.

(** [contextlib.suppress(LeaseUnavailable)]. *)
Definition suppress_unavailable (c : lio unit) : lio unit :=
  fun s => match c s with
           | (s', Raise (LeaseUnavailable _)) => (s', Ok tt)
           | r => r
           end.

Definition quarantine : lio unit :=
  ((if e_rename env then set_file None else sret tt);;;
   set_blocked (e_quar env + lc_ttl_ns cfg);;;
   suppress_unavailable (store []))%py.

Definition load : lio (list Entry) :=
  (set_blocked 0;;;
   s <- sget;;
   match l_file s with
   | None => sret []
   | Some content =>
       if negb (e_read env) then unavailable "ledger_unavailable"
       else match (payload ← content; entries ← parse_entries payload;
                   blocked ← parse_blocked_until payload; Some (entries, blocked)) with
            | Some (entries, blocked) => set_blocked blocked;;; sret entries
            | None => quarantine;;; unavailable "ledger_corrupt"
            end
   end)%py.

Definition lease_of (e : Entry) : Lease :=
  mkLease (lc_vendor cfg) (lc_key_id cfg) (en_owner e) (en_role e) (en_token e) (en_expires_ns e).

(** [min(standbys, key=granted_ns)]: the first of the oldest. *)
Definition oldest (standbys : list Entry) : option Entry :=
  fold_left (fun best e => match best with
                           | None => Some e
                           | Some b => Some (if en_granted_ns e <? en_granted_ns b then e else b)
                           end) standbys None.
Definition is_standby (e : Entry) : bool := bool_decide (en_role e = STANDBY).
Definition is_victim (v e : Entry) : bool := is_standby e && (en_granted_ns e =? en_granted_ns v).

Definition acquire (owner : string) (requested : LeaseRole) : lio Lease :=
  locked
    (let now := e_now env in
     loaded <- load;;
     let entries := drop_expired loaded now in
     s <- sget;;
     if bool_decide (requested = STANDBY) && (now <? l_blocked s) then
       store entries;;; unavailable "quarantine"
     else if Z.of_nat (length entries) <? lc_cap cfg then
       let entry := mkEntry owner requested (e_token env) (now + lc_ttl_ns cfg) now false in
       store (entries ++ [entry]);;; sret (lease_of entry)
     else
       let standbys := List.filter is_standby entries in
       match oldest standbys with
       | Some victim =>
           if bool_decide (requested = PRIMARY) then
             if existsb en_preempt standbys then
               store entries;;; unavailable "preempt_pending"
             else
               store (update_first (is_victim victim) set_preempt entries);;;
               unavailable "preempt_pending"
           else store entries;;; unavailable "cap_reached"
       | None => store entries;;; unavailable "cap_reached"
       end)%py.

Definition renew (l : Lease) : lio bool :=
  locked
    (let now := e_now env in
     loaded <- load;;
     let entries := drop_expired loaded now in
     match find_token entries (ls_token l) with
     | None => store entries;;; sret false
     | Some entry =>
         if en_preempt entry then store entries;;; sret false
         else store (update_first (has_token (ls_token l)) (set_expires (now + lc_ttl_ns cfg)) entries);;;
              sret true
     end)%py.

Definition release (l : Lease) : lio unit :=
  locked
    (loaded <- load;;
     let entries := drop_expired loaded (e_now env) in
     store (remove_first (has_token (ls_token l)) entries))%py.

Definition promote (l : Lease) : lio Lease :=
  locked
    (let now := e_now env in
     loaded <- load;;
     let entries := drop_expired loaded now in
     match find_token entries (ls_token l) with
     | None => store entries;;; unavailable "standby_not_promotable"
     | Some entry =>
         if en_preempt entry || negb (bool_decide (en_role entry = STANDBY)) then
           store entries;;; unavailable "standby_not_promotable"
         else
           let f e := set_expires (now + lc_ttl_ns cfg) (set_role PRIMARY e) in
           store (update_first (has_token (ls_token l)) f entries);;; sret (lease_of (f entry))
     end)%py.
End Ledger.

(** ** Calls of the collector processes *)

Inductive call :=
| CAcquire (owner : string) (role : LeaseRole)
| CRenew (l : Lease)
| CRelease (l : Lease)
| CPromote (l : Lease).

Inductive outcome := OLease (l : Lease) | OBool (b : bool) | OUnit | ORaise (e : lease_exc).

Definition outcome_of {A} (f : A -> outcome) (r : res lease_exc A) : outcome :=
  match r with Ok a => f a | Raise e => ORaise e end.

(** One call on the shared file by a process whose object holds [blocked]. *)
Definition run_call (cfg : LedgerCfg) (env : LedgerEnv) (c : call) (s : LState) : LState * outcome :=
  match c with
  | CAcquire owner role => let '(s', r) := acquire cfg env owner role s in (s', outcome_of OLease r)
  | CRenew l => let '(s', r) := renew cfg env l s in (s', outcome_of OBool r)
  | CRelease l => let '(s', r) := release cfg env l s in (s', outcome_of (fun _ => OUnit) r)
  | CPromote l => let '(s', r) := promote cfg env l s in (s', outcome_of OLease r)
  end.

(** ** The abstract slot table *)

(** The transaction of a call on the table of live entries. *)
Definition table_step (cfg : LedgerCfg) (env : LedgerEnv) (blocked : Z) (c : call) (live : list Entry)
    : list Entry * outcome :=
  let now := e_now env in
  match c with
  | CAcquire owner role =>
      if bool_decide (role = STANDBY) && (now <? blocked)
      then (live, ORaise (LeaseUnavailable "quarantine"))
      else if Z.of_nat (length live) <? lc_cap cfg
      then let e := mkEntry owner role (e_token env) (now + lc_ttl_ns cfg) now false in
           (live ++ [e], OLease (lease_of cfg e))
      else match oldest (List.filter is_standby live) with
           | Some v =>
               if bool_decide (role = PRIMARY)
               then ((if existsb en_preempt (List.filter is_standby live) then live
                      else update_first (is_victim v) set_preempt live),
                     ORaise (LeaseUnavailable "preempt_pending"))
               else (live, ORaise (LeaseUnavailable "cap_reached"))
           | None => (live, ORaise (LeaseUnavailable "cap_reached"))
           end
  | CRenew l =>
      match find_token live (ls_token l) with
      | Some e => if en_preempt e then (live, OBool false)
                  else (update_first (has_token (ls_token l)) (set_expires (now + lc_ttl_ns cfg)) live,
                        OBool true)
      | None => (live, OBool false)
      end
  | CRelease l => (remove_first (has_token (ls_token l)) live, OUnit)
  | CPromote l =>
      let f e := set_expires (now + lc_ttl_ns cfg) (set_role PRIMARY e) in
      match find_token live (ls_token l) with
      | Some e => if en_preempt e || negb (bool_decide (en_role e = STANDBY))
                  then (live, ORaise (LeaseUnavailable "standby_not_promotable"))
                  else (update_first (has_token (ls_token l)) f live, OLease (lease_of cfg (f e)))
      | None => (live, ORaise (LeaseUnavailable "standby_not_promotable"))
      end
  end.

(** No file fault meets the call. *)
Definition healthy (env : LedgerEnv) : bool := e_lock env && e_read env && e_write env.

(** The entries and the standby block a readable file holds. *)
Definition decode_file (f : option (option json)) : option (list Entry * Z) :=
  match f with
  | None => Some ([], 0)
  | Some content =>
      payload ← content; entries ← parse_entries payload; blocked ← parse_blocked_until payload;
      Some (entries, blocked)
  end.

(** ** Lemmas *)

Lemma role_roundtrip r : role_of_value (role_value r) = Some r.
Proof. by destruct r. Qed.

Lemma parse_entry_json e : parse_entry (entry_json e) = Some e.
Proof. destruct e as [o r t x g p]. by destruct r. Qed.

Lemma parse_entries_json es : mapM parse_entry (map entry_json es) = Some es.
Proof.
  apply mapM_Some. induction es as [|e es IH]; constructor; [apply parse_entry_json|done].
Qed.

Lemma decode_store env es b :
  decode_file (Some (Some (store_payload env es b))) = Some (es, if e_store env <? b then b else 0).
Proof.
  unfold decode_file, store_payload, parse_entries. cbn [mbind option_bind].
  change (dget _ "leases") with (Some (JArr (map entry_json es))). cbn [json_eq_int negb].
  change (json_eq_int _ _) with true. cbn [negb]. rewrite parse_entries_json. cbn.
  by destruct (e_store env <? b).
Qed.

Lemma load_good cfg env s es b :
  decode_file (l_file s) = Some (es, b) ->
  load cfg env s = (mkLState (l_file s) b, Ok es) \/
  (e_read env = false /\
   load cfg env s = (mkLState (l_file s) 0, Raise (LeaseUnavailable "ledger_unavailable"))).
Proof.
  unfold load, decode_file. cbn. destruct (l_file s) as [content|] eqn:Ef; cbn; [|by intros [= <- <-]; left].
  intros H. destruct (e_read env); cbn; [|by right]. left. rewrite H. done.
Qed.

Lemma store_run env es s :
  store env es s =
  if e_write env then (mkLState (Some (Some (store_payload env es (l_blocked s)))) (l_blocked s), Ok tt)
  else (s, Raise (LeaseUnavailable "ledger_unwritable")).
Proof. unfold store. cbn. by destruct (e_write env). Qed.

(** A call on a readable file either fails on a file fault and leaves the file, or
    commits the transaction of the table on the unexpired entries. *)
Lemma run_call_table cfg env c s es b :
  decode_file (l_file s) = Some (es, b) ->
  let '(s', o) := run_call cfg env c s in
  (healthy env = false /\ l_file s' = l_file s /\ exists r, o = ORaise (LeaseUnavailable r)) \/
  exists es' b', decode_file (l_file s') = Some (es', b') /\ (b' = b \/ b' = 0) /\
    (es', o) = table_step cfg env b c (drop_expired es (e_now env)).
Proof.
  intros Hf. unfold healthy. pose proof (load_good cfg env s es b Hf) as [Hl|[Hr Hl]].
  2:{ destruct c; cbn [run_call]; unfold acquire, renew, release, promote, locked, sbind;
      (destruct (e_lock env); cbn [negb]; cbv beta; [rewrite Hl, Hr|]; left; cbn; eauto). }
  assert (Hst : forall es', let '(s', r) := store env es' (mkLState (l_file s) b) in
    (r = Raise (LeaseUnavailable "ledger_unwritable") /\ l_file s' = l_file s /\ e_write env = false) \/
    (r = Ok tt /\ exists b', decode_file (l_file s') = Some (es', b') /\ (b' = b \/ b' = 0))).
  { intros es'. rewrite store_run. destruct (e_write env); [right|by left]. split; [done|].
    cbn [l_file l_blocked]. rewrite decode_store. eexists. split; [done|]. destruct (_ <? _); auto. }
  destruct c as [owner role|l|l|l]; cbn [run_call table_step];
    unfold acquire, renew, release, promote, locked, sbind;
    (destruct (e_lock env); cbn [negb]; cbv beta; [rewrite Hl|cbn; left; eauto]); cbn [l_blocked sget];
    repeat match goal with
    | |- context [match find_token ?x ?y with _ => _ end] => destruct (find_token x y)
    | |- context [match oldest ?x with _ => _ end] => destruct (oldest x)
    | |- context [if ?x then _ else _] =>
        lazymatch type of x with bool => destruct x end
    end; cbv beta.
  all: match goal with |- context [store ?en ?e ?s'] =>
         specialize (Hst e); destruct (store en e s') as [? [?|?]] end.
  all: destruct Hst as [(? & ? & Hw)|[? (b' & ? & ?)]]; simplify_eq; cbn;
    try rewrite Hw, andb_false_r; eauto 10.
Qed.

(** ** Who holds a connection *)

(** The leases the processes count on, by token and expiry: granted ones until
    they are released or reported gone. *)
Definition slots := list (string * Z).
Definition slot_set (t : string) (z : Z) (h : slots) : slots :=
  map (fun p => if decide (fst p = t) then (t, z) else p) h.
Definition slot_del (t : string) (h : slots) : slots :=
  List.filter (fun p => negb (bool_decide (fst p = t))) h.
Definition slot_live (now : Z) (h : slots) : slots := List.filter (fun p => now <? snd p) h.

Definition held_step (cfg : LedgerCfg) (env : LedgerEnv) (c : call) (o : outcome) (held : slots) : slots :=
  match c, o with
  | CAcquire _ _, OLease l => held ++ [(ls_token l, ls_expires_ns l)]
  | CRenew l, OBool true => slot_set (ls_token l) (e_now env + lc_ttl_ns cfg) held
  | CRenew l, OBool false => slot_del (ls_token l) held
  | CRelease l, _ => slot_del (ls_token l) held
  | CPromote l, OLease l' => slot_set (ls_token l) (ls_expires_ns l') held
  | _, _ => held
  end.

(** A call with its environment and the object's block before it. *)
Record Turn := mkTurn { tn_call : call; tn_env : LedgerEnv; tn_blocked : Z }.

Fixpoint run_turns (cfg : LedgerCfg) (ts : list Turn) (f : option (option json)) (held : slots)
    : option (option json) * slots :=
  match ts with
  | [] => (f, held)
  | t :: ts' =>
      let '(s', o) := run_call cfg (tn_env t) (tn_call t) (mkLState f (tn_blocked t)) in
      run_turns cfg ts' (l_file s') (held_step cfg (tn_env t) (tn_call t) o held)
  end.

Fixpoint clock_forward (t0 : Z) (ts : list Turn) (tend : Z) : Prop :=
  match ts with
  | [] => t0 <= tend
  | t :: ts' => t0 <= e_now (tn_env t) /\ clock_forward (e_now (tn_env t)) ts' tend
  end.

Definition turn_tokens (ts : list Turn) : list string := map (fun t => e_token (tn_env t)) ts.

(** ** Slots and entries *)

Definition entry_slot (e : Entry) : string * Z := (en_token e, en_expires_ns e).
Definition entry_slots (es : list Entry) : slots := map entry_slot es.

Lemma slot_live_elem now h p : p ∈ slot_live now h <-> p ∈ h /\ now < snd p.
Proof. unfold slot_live. rewrite !list_elem_of_In, List.filter_In, Z.ltb_lt. done. Qed.

Lemma slot_del_elem t h p : p ∈ slot_del t h <-> p ∈ h /\ fst p <> t.
Proof.
  unfold slot_del. rewrite !list_elem_of_In, List.filter_In, negb_true_iff, bool_decide_eq_false. done.
Qed.

Lemma slot_set_elem t z h p :
  p ∈ slot_set t z h <-> (p ∈ h /\ fst p <> t) \/ (p = (t, z) /\ t ∈ map fst h).
Proof.
  unfold slot_set. rewrite list_elem_of_fmap. split.
  - intros (q & -> & Hq). case_decide; [right|by left]. split; [done|].
    apply list_elem_of_fmap. eauto.
  - intros [[Hp Hn]|[-> (q & -> & Hq)%list_elem_of_fmap]].
    + exists p. by rewrite decide_False.
    + exists q. by rewrite decide_True.
Qed.

Lemma slot_set_keys t z h : map fst (slot_set t z h) = map fst h.
Proof. unfold slot_set. rewrite map_map. apply map_ext. intros [k x]. simpl. by case_decide. Qed.

Lemma filter_keys (p : string * Z -> bool) h : map fst (List.filter p h) `sublist_of` map fst h.
Proof. apply fmap_sublist, filter_sublist. Qed.

Lemma entry_slots_live now es : entry_slots (drop_expired es now) = slot_live now (entry_slots es).
Proof.
  unfold entry_slots, drop_expired, slot_live.
  induction es as [|e es IH]; [done|]. cbn. destruct (_ <? _); cbn; by rewrite IH.
Qed.

Lemma update_first_slots p f es :
  (forall e, entry_slot (f e) = entry_slot e) -> entry_slots (update_first p f es) = entry_slots es.
Proof.
  intros Hf. unfold entry_slots. induction es as [|e es IH]; [done|]. cbn. destruct (p e); cbn.
  - by rewrite Hf.
  - by rewrite IH.
Qed.

Lemma update_token_slots t f z es :
  (forall e, entry_slot (f e) = (en_token e, z)) -> NoDup (map fst (entry_slots es)) ->
  entry_slots (update_first (has_token t) f es) = slot_set t z (entry_slots es).
Proof.
  intros Hf. unfold entry_slots, slot_set, has_token. induction es as [|e es IH]; [done|].
  cbn [update_first map]. intros [Hn Hd]%NoDup_cons. destruct (decide (en_token e = t)) as [<-|Hne].
  - rewrite bool_decide_eq_true_2, decide_True by done. cbn [map]. rewrite Hf. f_equal.
    symmetry. rewrite <- (map_id (map _ es)) at 2.
    apply map_ext_in. intros [k x] Hin. cbn. case_decide; [|done]. subst.
    destruct Hn. apply list_elem_of_fmap. exists (en_token e, x). split; [done|]. by apply list_elem_of_In.
  - rewrite bool_decide_eq_false_2, decide_False by done. cbn [map]. f_equal. by apply IH.
Qed.

Lemma remove_token_slots t es :
  NoDup (map fst (entry_slots es)) ->
  entry_slots (remove_first (has_token t) es) = slot_del t (entry_slots es).
Proof.
  unfold entry_slots, slot_del, has_token. induction es as [|e es IH]; [done|].
  cbn. intros [Hn Hd]%NoDup_cons. destruct (decide (en_token e = t)) as [<-|Hne].
  - rewrite !(bool_decide_eq_true_2 (_ = _)) by done. cbn. symmetry. apply forallb_filter_id.
    apply forallb_forall. intros [k x] Hin. rewrite negb_true_iff, bool_decide_eq_false. cbn. intros ->.
    destruct Hn. apply list_elem_of_fmap. exists (en_token e, x). split; [done|]. by apply list_elem_of_In.
  - rewrite !(bool_decide_eq_false_2 (_ = _)) by done. cbn. f_equal. by apply IH.
Qed.

Lemma find_token_slot es t e : find_token es t = Some e -> (t ∈ map fst (entry_slots es)) /\ en_token e = t.
Proof.
  intros [Hin Ht]%List.find_some. apply bool_decide_eq_true in Ht. split; [|done].
  unfold entry_slots. rewrite map_map. apply list_elem_of_fmap. exists e. split; [by rewrite <- Ht|].
  by apply list_elem_of_In.
Qed.

(** ** The cap across processes *)

(** The file is readable, within the cap, without duplicate tokens, all tokens
    are among those drawn, and every unexpired held slot is in it. *)
Definition slots_inv (cfg : LedgerCfg) (now : Z) (used : list string) (K held : slots) : Prop :=
  Z.of_nat (length K) <= lc_cap cfg /\ NoDup (map fst K) /\ NoDup (map fst held) /\
  (forall t, t ∈ map fst K \/ t ∈ map fst held -> t ∈ used) /\
  (forall p, p ∈ held -> now < snd p -> p ∈ K).

Definition file_inv (cfg : LedgerCfg) (now : Z) (used : list string) (f : option (option json))
    (held : slots) : Prop :=
  exists es b, decode_file f = Some (es, b) /\ slots_inv cfg now used (entry_slots es) held.

Lemma slots_inv_live cfg now now' used K held :
  slots_inv cfg now used K held -> now <= now' -> slots_inv cfg now' used (slot_live now' K) held.
Proof.
  intros (Hc & HK & Hh & Hu & Hl) Hn. unfold slots_inv. split_and!; [| |done| |].
  - pose proof (sublist_length _ _ (filter_sublist (fun p => now' <? snd p) K)). unfold slot_live. lia.
  - eapply sublist_NoDup; [|apply filter_keys]; done.
  - intros t [Ht|Ht]; apply Hu; [left|by right].
    eapply elem_of_sublist; [done|]. apply filter_keys.
  - intros p Hp Hlt. apply slot_live_elem. split; [|done]. apply Hl; [done|lia].
Qed.

Lemma slots_inv_del cfg now used K held t :
  slots_inv cfg now used K held -> slots_inv cfg now used K (slot_del t held).
Proof.
  intros (Hc & HK & Hh & Hu & Hl). unfold slots_inv. split_and!; [done|done| | |].
  - eapply sublist_NoDup; [|apply filter_keys]; done.
  - intros k [Ht|Ht]; apply Hu; [by left|right]. eapply elem_of_sublist; [done|]. apply filter_keys.
  - intros p [Hp _]%slot_del_elem. by apply Hl.
Qed.

Lemma slots_inv_del_both cfg now used K held t :
  slots_inv cfg now used K held -> slots_inv cfg now used (slot_del t K) (slot_del t held).
Proof.
  intros HI. pose proof (slots_inv_del _ _ _ _ _ t HI) as (_ & _ & Hh' & Hu' & _).
  destruct HI as (Hc & HK & Hh & Hu & Hl). unfold slots_inv. split_and!; [| |done| |].
  - pose proof (sublist_length _ _ (filter_sublist (fun p => negb (bool_decide (fst p = t))) K)).
    unfold slot_del. lia.
  - eapply sublist_NoDup; [|apply filter_keys]; done.
  - intros k [Ht|Ht]; apply Hu'; [left|by right]. eapply elem_of_sublist; [done|]. apply filter_keys.
  - intros p [Hp Hne]%slot_del_elem Hlt. apply slot_del_elem. auto.
Qed.

Lemma slots_inv_set cfg now used K held t z :
  slots_inv cfg now used K held -> t ∈ map fst K ->
  slots_inv cfg now used (slot_set t z K) (slot_set t z held).
Proof.
  intros (Hc & HK & Hh & Hu & Hl) Ht. unfold slots_inv. rewrite !slot_set_keys. split_and!; try done.
  - unfold slot_set. by rewrite length_map.
  - intros p [[Hp Hne]|[-> _]]%slot_set_elem Hlt; apply slot_set_elem; auto.
Qed.

Lemma slots_inv_grant cfg now used K held t z :
  slots_inv cfg now used K held -> Z.of_nat (length K) < lc_cap cfg -> t ∉ used ->
  slots_inv cfg now (t :: used) (K ++ [(t, z)]) (held ++ [(t, z)]).
Proof.
  intros (Hc & HK & Hh & Hu & Hl) Hlt Ht. unfold slots_inv. rewrite !map_app, length_app. cbn.
  split_and!; [lia| | | |].
  - apply NoDup_app. split_and!; [done| |apply NoDup_singleton].
    intros k Hk ->%list_elem_of_singleton. naive_solver.
  - apply NoDup_app. split_and!; [done| |apply NoDup_singleton].
    intros k Hk ->%list_elem_of_singleton. naive_solver.
  - intros k. rewrite !elem_of_app, !list_elem_of_singleton, elem_of_cons. naive_solver.
  - intros p. rewrite !elem_of_app, !list_elem_of_singleton. naive_solver.
Qed.

Lemma slots_inv_used cfg now used t K held :
  slots_inv cfg now used K held -> slots_inv cfg now (t :: used) K held.
Proof. intros (? & ? & ? & Hu & ?). unfold slots_inv. split_and!; try done. intros k Hk. right. auto. Qed.

(** One transaction of the table keeps the invariant. *)
Lemma table_step_inv cfg env b c es es' o used held :
  (es', o) = table_step cfg env b c es -> e_token env ∉ used ->
  slots_inv cfg (e_now env) used (entry_slots es) held ->
  slots_inv cfg (e_now env) (e_token env :: used) (entry_slots es') (held_step cfg env c o held).
Proof.
  intros H Hfresh HI. pose proof HI as (_ & HK & _ & _ & _).
  destruct c as [owner role|l|l|l]; cbn [table_step] in H.
  - destruct (_ && _); [simplify_eq; by apply slots_inv_used|].
    destruct (_ <? _) eqn:Ec.
    + simplify_eq. cbn. unfold entry_slots. rewrite map_app. cbn.
      apply slots_inv_grant; [done| |done]. rewrite length_map. lia.
    + destruct (oldest _) as [v|]; [|simplify_eq; by apply slots_inv_used].
      destruct (bool_decide _); [|simplify_eq; by apply slots_inv_used].
      simplify_eq. cbn [held_step]. destruct (existsb _ _); [by apply slots_inv_used|].
      rewrite update_first_slots by done. by apply slots_inv_used.
  - destruct (find_token es (ls_token l)) as [e|] eqn:Ef;
      [|simplify_eq; apply slots_inv_used; by apply slots_inv_del].
    destruct (en_preempt e); simplify_eq; [apply slots_inv_used; by apply slots_inv_del|].
    cbn [held_step]. rewrite (update_token_slots _ _ (e_now env + lc_ttl_ns cfg)) by done.
    apply slots_inv_used, slots_inv_set; [done|]. by apply find_token_slot in Ef as [? _].
  - simplify_eq. cbn [held_step]. rewrite remove_token_slots by done.
    apply slots_inv_used. by apply slots_inv_del_both.
  - destruct (find_token es (ls_token l)) as [e|] eqn:Ef; [|simplify_eq; by apply slots_inv_used].
    destruct (_ || _); simplify_eq; [by apply slots_inv_used|].
    cbn [held_step]. rewrite (update_token_slots _ _ (e_now env + lc_ttl_ns cfg)) by done.
    apply slots_inv_used, slots_inv_set; [done|]. by apply find_token_slot in Ef as [? _].
Qed.

Lemma run_call_inv cfg env c f b0 now used held :
  file_inv cfg now used f held -> now <= e_now env -> e_token env ∉ used ->
  let '(s', o) := run_call cfg env c (mkLState f b0) in
  file_inv cfg (e_now env) (e_token env :: used) (l_file s') (held_step cfg env c o held).
Proof.
  intros (es & b & Hf & HI) Hn Hfresh.
  pose proof (run_call_table cfg env c (mkLState f b0) es b Hf) as H.
  destruct (run_call cfg env c (mkLState f b0)) as [s' o].
  pose proof (slots_inv_live _ _ _ _ _ _ HI Hn) as HL. rewrite <- entry_slots_live in HL.
  destruct H as [(_ & Hsame & r & ->)|(es' & b' & Hd & _ & Hstep)].
  - exists es, b. rewrite Hsame. split; [done|]. cbn [l_file].
    assert (HI' : slots_inv cfg (e_now env) used (entry_slots es) held).
    { destruct HI as (? & ? & ? & ? & Hl). unfold slots_inv. split_and!; try done.
      intros p Hp Hlt. apply Hl; [done|lia]. }
    apply slots_inv_used. destruct c; cbn; try done. by apply slots_inv_del.
  - exists es', b'. split; [done|]. eapply table_step_inv; eauto.
Qed.

Lemma run_turns_inv cfg ts : forall now tend used f held,
  file_inv cfg now used f held -> clock_forward now ts tend ->
  NoDup (turn_tokens ts) -> (forall t, t ∈ turn_tokens ts -> t ∉ used) ->
  let '(f', held') := run_turns cfg ts f held in
  exists now' used', file_inv cfg now' used' f' held' /\ now' <= tend.
Proof.
  induction ts as [|t ts IH]; intros now tend used f held HI Hc Hd Hu; [by exists now, used|].
  cbn in *. destruct Hc as [Hn Hc]. apply NoDup_cons in Hd as [Hd1 Hd2].
  pose proof (run_call_inv cfg (tn_env t) (tn_call t) f (tn_blocked t) now used held HI Hn) as H.
  destruct (run_call _ _ _ _) as [s' o]. specialize (H ltac:(apply Hu; left)).
  eapply IH; eauto. intros k Hk [->|Hin]%elem_of_cons; [done|]. eapply Hu; [right|]; done.
Qed.

(** Held slots that have not expired fit in the file. *)
Lemma slots_inv_count cfg now tend used K held :
  slots_inv cfg now used K held -> now <= tend -> Z.of_nat (length (slot_live tend held)) <= lc_cap cfg.
Proof.
  intros (Hc & _ & Hh & _ & Hl) Hn. etransitivity; [|exact Hc].
  apply inj_le, submseteq_length, NoDup_submseteq.
  - eapply (NoDup_fmap_1 fst), sublist_NoDup; [exact Hh|apply filter_keys].
  - intros p [Hp Hlt]%slot_live_elem. apply Hl; [done|lia].
Qed.

Lemma run_call_healthy cfg env c s es b :
  healthy env = true -> decode_file (l_file s) = Some (es, b) ->
  exists s' b', run_call cfg env c s = (s', snd (table_step cfg env b c (drop_expired es (e_now env)))) /\
    decode_file (l_file s') = Some (fst (table_step cfg env b c (drop_expired es (e_now env))), b').
Proof.
  intros Hh Hf. pose proof (run_call_table cfg env c s es b Hf) as H.
  destruct (run_call cfg env c s) as [s' o].
  destruct H as [(Hb & _)|(es' & b' & Hd & _ & Hs)]; [congruence|].
  exists s', b'. rewrite <- Hs. done.
Qed.

Definition unexpired (now : Z) (es : list Entry) : Prop := Forall (fun e => now < en_expires_ns e) es.

Lemma drop_expired_id now es : unexpired now es -> drop_expired es now = es.
Proof.
  intros H. apply forallb_filter_id, forallb_forall. intros e He. apply Z.ltb_lt.
  unfold unexpired in H. rewrite Forall_forall in H. apply H. by apply list_elem_of_In.
Qed.

(** [min] finds a least standby, and the first entry it matches is that one's
    equal in role and grant time. *)
Lemma oldest_acc l : forall acc,
  exists v, fold_left (fun best e => match best with
                           | None => Some e
                           | Some b => Some (if en_granted_ns e <? en_granted_ns b then e else b)
                           end) l (Some acc) = Some v /\
    (v = acc \/ v ∈ l) /\ en_granted_ns v <= en_granted_ns acc /\
    Forall (fun e => en_granted_ns v <= en_granted_ns e) l.
Proof.
  induction l as [|e l IH]; intros acc; [exists acc; repeat split; auto; lia|]. cbn [fold_left].
  destruct (en_granted_ns e <? en_granted_ns acc) eqn:E; bprop.
  - destruct (IH e) as (v & -> & Hv & Hle & HF). exists v. split_and!; [done| |lia|by constructor].
    right. destruct Hv as [->|Hv]; [left|by right].
  - destruct (IH acc) as (v & -> & Hv & Hle & HF). exists v. split_and!; [done| |done|constructor; [lia|done]].
    destruct Hv as [->|Hv]; [by left|right; by right].
Qed.

Lemma oldest_min l :
  l <> [] -> exists v, oldest l = Some v /\ v ∈ l /\ Forall (fun e => en_granted_ns v <= en_granted_ns e) l.
Proof.
  destruct l as [|e l]; [done|]. intros _. unfold oldest. cbn [fold_left].
  destruct (oldest_acc l e) as (v & -> & Hv & Hle & HF). exists v.
  split_and!; [done| |by constructor]. destruct Hv as [->|Hv]; [left|by right].
Qed.

Lemma update_first_split p f l :
  (exists e, e ∈ l /\ p e = true) ->
  exists l1 e l2, l = l1 ++ e :: l2 /\ p e = true /\ update_first p f l = l1 ++ f e :: l2.
Proof.
  induction l as [|x l IH]; intros (e & He & Hp); [by apply not_elem_of_nil in He|]. cbn.
  destruct (p x) eqn:Ex; [by exists [], x, l|].
  destruct IH as (l1 & y & l2 & -> & Hy & ->).
  - apply elem_of_cons in He as [->|He]; [congruence|eauto].
  - by exists (x :: l1), y, l2.
Qed.

Lemma find_token_mid l1 e l2 :
  en_token e ∉ map en_token l1 -> find_token (l1 ++ e :: l2) (en_token e) = Some e.
Proof.
  intros Hn. unfold find_token. induction l1 as [|x l1 IH]; cbn.
  - by rewrite bool_decide_eq_true_2.
  - apply not_elem_of_cons in Hn as [Hx Hn]. rewrite bool_decide_eq_false_2 by done. by apply IH.
Qed.

Lemma remove_token_mid l1 e l2 :
  en_token e ∉ map en_token l1 -> remove_first (has_token (en_token e)) (l1 ++ e :: l2) = l1 ++ l2.
Proof.
  intros Hn. unfold has_token. induction l1 as [|x l1 IH]; cbn.
  - by rewrite bool_decide_eq_true_2.
  - apply not_elem_of_cons in Hn as [Hx Hn]. rewrite bool_decide_eq_false_2 by done. by rewrite IH.
Qed.

(** ** Properties *)

(** The file implements the slot table: on a readable ledger file every call
    either fails on a file fault, leaving the file as it was, or commits exactly
    the transaction of the abstract table on the unexpired entries and reports
    its outcome; without faults it always commits. *)
Theorem ledger_refines_table cfg env c s es b :
  decode_file (l_file s) = Some (es, b) ->
  let '(s', o) := run_call cfg env c s in
  (healthy env = false /\ l_file s' = l_file s /\ exists r, o = ORaise (LeaseUnavailable r)) \/
  exists b', decode_file (l_file s')
             = Some (fst (table_step cfg env b c (drop_expired es (e_now env))), b') /\
    o = snd (table_step cfg env b c (drop_expired es (e_now env))).
Proof.
  intros Hf. pose proof (run_call_table cfg env c s es b Hf) as H.
  destruct (run_call cfg env c s) as [s' o].
  destruct H as [H|(es' & b' & Hd & _ & Hs)]; [by left|right]. exists b'. by rewrite <- Hs.
Qed.

(** C9. The vendor cap holds across processes: starting without a ledger file, in
    every interleaving of calls of any number of processes under a clock that does
    not go back and with distinct tokens, file faults included, the leases that
    processes hold and that have not expired never exceed the cap. *)
Theorem connection_cap_holds cfg ts t0 tend :
  0 <= lc_cap cfg -> clock_forward t0 ts tend -> NoDup (turn_tokens ts) ->
  Z.of_nat (length (slot_live tend (snd (run_turns cfg ts None [])))) <= lc_cap cfg.
Proof.
  intros Hcap Hc Hd.
  pose proof (run_turns_inv cfg ts t0 tend [] None []) as H.
  destruct (run_turns cfg ts None []) as [f held].
  destruct H as (now & used & (es & b & _ & HI) & Hn); [|done|done|set_solver|].
  - exists [], 0. split; [done|]. unfold slots_inv. cbn.
    split_and!; [lia|constructor|constructor|set_solver|set_solver].
  - by eapply slots_inv_count.
Qed.

(** Two standbys under a cap of three, run by two processes, with a preemption. *)
Definition demo_cfg : LedgerCfg := mkCfg "ls" "k" 2 100.
Definition demo_env (now : Z) (tok : string) : LedgerEnv := mkEnv true true true true now now now tok.
Definition demo_lease (tok : string) : Lease := mkLease "ls" "k" "o" STANDBY tok 0.
Definition demo_turns : list Turn :=
  [mkTurn (CAcquire "a" PRIMARY) (demo_env 0 "t0") 0;
   mkTurn (CAcquire "a" STANDBY) (demo_env 1 "t1") 0;
   mkTurn (CAcquire "b" PRIMARY) (demo_env 2 "t2") 0;
   mkTurn (CRenew (demo_lease "t1")) (demo_env 3 "t3") 0;
   mkTurn (CRelease (demo_lease "t1")) (demo_env 4 "t4") 0;
   mkTurn (CAcquire "b" PRIMARY) (demo_env 5 "t5") 0].

Example demo_turns_held : snd (run_turns demo_cfg demo_turns None []) = [("t0", 100); ("t5", 105)].
Proof. vm_compute. reflexivity. Qed.

Lemma connection_cap_holds_witness :
  Z.of_nat (length (slot_live 50 (snd (run_turns demo_cfg demo_turns None [])))) <= 2.
Proof.
  apply (connection_cap_holds demo_cfg demo_turns 0 50).
  - vm_compute. discriminate.
  - vm_compute. repeat split; discriminate.
  - vm_compute. repeat constructor; set_solver.
Defined.

Definition demo_file : option (option json) := fst (run_turns demo_cfg (take 2 demo_turns) None []).

Definition demo_entries : list Entry :=
  [mkEntry "a" PRIMARY "t0" 100 0 false; mkEntry "a" STANDBY "t1" 101 1 false].

Lemma ledger_refines_table_witness :
  let '(s', o) := run_call demo_cfg (demo_env 2 "t2") (CAcquire "b" PRIMARY) (mkLState demo_file 0) in
  o = ORaise (LeaseUnavailable "preempt_pending").
Proof.
  pose proof (ledger_refines_table demo_cfg (demo_env 2 "t2") (CAcquire "b" PRIMARY)
    (mkLState demo_file 0) demo_entries 0 ltac:(vm_compute; reflexivity)) as H.
  destruct (run_call _ _ _ _) as [s' o].
  destruct H as [[[=] _]|(b' & _ & ->)]. vm_compute. reflexivity.
Defined.

(** A primary gets its slot: when a full ledger holds a standby and no
    preemption is pending, a primary request marks the longest-held standby and is
    told to wait; that standby's next renewal and promotion are refused, and once
    it has released its slot the primary request is granted. *)
Theorem primary_preempts cfg es b s owner env1 env2 env3 env4 :
  decode_file (l_file s) = Some (es, b) -> NoDup (map en_token es) ->
  (exists e, e ∈ es /\ en_role e = STANDBY) -> Forall (fun e => en_preempt e = false) es ->
  lc_cap cfg = Z.of_nat (length es) ->
  Forall (fun env => healthy env = true /\ unexpired (e_now env) es) [env1; env2; env3; env4] ->
  exists v s1, v ∈ es /\ en_role v = STANDBY /\
    (forall e, e ∈ es -> en_role e = STANDBY -> en_granted_ns v <= en_granted_ns e) /\
    run_call cfg env1 (CAcquire owner PRIMARY) s = (s1, ORaise (LeaseUnavailable "preempt_pending")) /\
    forall l, ls_token l = en_token v ->
      snd (run_call cfg env2 (CPromote l) s1) = ORaise (LeaseUnavailable "standby_not_promotable") /\
      exists s2 s3 s4 g, run_call cfg env2 (CRenew l) s1 = (s2, OBool false) /\
        run_call cfg env3 (CRelease l) s2 = (s3, OUnit) /\
        run_call cfg env4 (CAcquire owner PRIMARY) s3 = (s4, OLease g) /\ ls_role g = PRIMARY.
Proof.
  intros Hf Hd Hst Hp Hcap Henv.
  repeat match goal with H : Forall _ (_ :: _) |- _ => apply Forall_cons in H as [[? ?] ?] end.
  assert (Hstand : forall e, e ∈ List.filter is_standby es <-> e ∈ es /\ en_role e = STANDBY).
  { intros e. unfold is_standby. rewrite !list_elem_of_In, List.filter_In, bool_decide_eq_true. done. }
  destruct (oldest_min (List.filter is_standby es)) as (m & Ho & Hm & Hmin).
  { destruct Hst as (e & He). apply Hstand in He. by destruct (List.filter is_standby es); [set_solver|]. }
  rewrite Forall_forall in Hmin.
  destruct (update_first_split (is_victim m) set_preempt es) as (l1 & v & l2 & Hes & Hv & Hup).
  { exists m. apply Hstand in Hm as [Hm Hr]. split; [done|].
    unfold is_victim, is_standby. rewrite Hr, Z.eqb_refl. done. }
  unfold is_victim, is_standby in Hv. bprop.
  assert (Hnt : en_token v ∉ map en_token l1).
  { rewrite Hes, map_app in Hd. cbn in Hd. apply NoDup_app in Hd as (_ & Hd & _). set_solver. }
  assert (Hun : forall now, unexpired now es -> unexpired now (l1 ++ set_preempt v :: l2)).
  { unfold unexpired. rewrite Hes. intros now. rewrite !Forall_app, !Forall_cons. done. }
  destruct (run_call_healthy cfg env1 (CAcquire owner PRIMARY) s es b) as (s1 & b1 & R1 & D1); [done..|].
  rewrite drop_expired_id in R1, D1 by done. cbn [table_step] in R1, D1.
  rewrite bool_decide_eq_false_2 in R1, D1 by done. cbn [andb] in R1, D1.
  rewrite (proj2 (Z.ltb_ge _ _)), bool_decide_eq_true_2, Ho in R1, D1 by (done || lia).
  cbn [fst snd] in R1, D1.
  assert (existsb en_preempt (List.filter is_standby es) = false) as Hne.
  { apply not_true_iff_false. rewrite existsb_exists. intros (e & He & Hpe).
    apply list_elem_of_In, Hstand in He as [He _]. rewrite Forall_forall in Hp. rewrite Hp in Hpe; done. }
  rewrite Hne, Hup in D1.
  exists v, s1. split_and!; [rewrite Hes; set_solver|done| |done|].
  { intros e He Hr. assert (Hg := Hmin e). rewrite Hstand in Hg. specialize (Hg (conj He Hr)). lia. }
  intros l Hl.
  assert (Hfind : find_token (l1 ++ set_preempt v :: l2) (ls_token l) = Some (set_preempt v)).
  { rewrite Hl. by apply (find_token_mid l1 (set_preempt v)). }
  split.
  { destruct (run_call_healthy cfg env2 (CPromote l) s1 _ b1 H1 D1) as (s2 & b2 & R2 & D2).
    rewrite drop_expired_id in R2 by auto. cbn [table_step] in R2. rewrite Hfind in R2. by rewrite R2. }
  destruct (run_call_healthy cfg env2 (CRenew l) s1 _ b1 H1 D1) as (s2 & b2 & R2 & D2).
  rewrite drop_expired_id in R2, D2 by auto. cbn [table_step] in R2, D2. rewrite Hfind in R2, D2.
  cbn in R2, D2.
  destruct (run_call_healthy cfg env3 (CRelease l) s2 _ b2 H3 D2) as (s3 & b3 & R3 & D3).
  rewrite drop_expired_id in R3, D3 by auto. cbn [table_step fst snd] in R3, D3.
  rewrite Hl in D3. change (en_token v) with (en_token (set_preempt v)) in D3.
  rewrite (remove_token_mid l1 (set_preempt v) l2) in D3 by done.
  destruct (run_call_healthy cfg env4 (CAcquire owner PRIMARY) s3 _ b3 H5 D3) as (s4 & b4 & R4 & _).
  rewrite drop_expired_id in R4.
  2:{ specialize (Hun (e_now env4) ltac:(done)). unfold unexpired in *.
      rewrite Forall_app, Forall_cons in Hun. apply Forall_app. naive_solver. }
  cbn [table_step] in R4. rewrite bool_decide_eq_false_2 in R4 by done. cbn [andb] in R4.
  rewrite (proj2 (Z.ltb_lt _ _)) in R4 by (rewrite Hcap, Hes, !length_app; cbn; lia).
  exists s2, s3, s4. eexists. split_and!; [done|done|done|]. done.
Qed.

Lemma primary_preempts_witness :
  exists v s1, v ∈ demo_entries /\ en_role v = STANDBY /\
    run_call demo_cfg (demo_env 2 "t2") (CAcquire "b" PRIMARY) (mkLState demo_file 0)
    = (s1, ORaise (LeaseUnavailable "preempt_pending")).
Proof.
  destruct (primary_preempts demo_cfg demo_entries 0 (mkLState demo_file 0) "b" (demo_env 2 "t2")
    (demo_env 3 "t3") (demo_env 4 "t4") (demo_env 5 "t5")) as (v & s1 & Hv & Hr & _ & H & _).
  - vm_compute. reflexivity.
  - vm_compute. repeat constructor; set_solver.
  - exists (mkEntry "a" STANDBY "t1" 101 1 false). split; [|reflexivity]. right. left.
  - repeat constructor.
  - reflexivity.
  - repeat constructor.
  - exists v, s1. auto.
Defined.

(** A corrupt ledger fails closed for standbys: on a file that is not a
    ledger every call reports it and, without file faults, leaves an empty ledger
    that refuses every standby until one lease lifetime has passed, while a
    primary is granted at once. *)
Theorem corrupt_ledger_blocks_standby cfg env1 env2 c s owner :
  decode_file (l_file s) = None -> healthy env1 = true -> e_rename env1 = true -> healthy env2 = true ->
  0 < lc_cap cfg -> e_now env2 < e_quar env1 + lc_ttl_ns cfg -> e_store env1 < e_quar env1 + lc_ttl_ns cfg ->
  exists s1, run_call cfg env1 c s = (s1, ORaise (LeaseUnavailable "ledger_corrupt")) /\
    decode_file (l_file s1) = Some ([], e_quar env1 + lc_ttl_ns cfg) /\
    snd (run_call cfg env2 (CAcquire owner STANDBY) s1) = ORaise (LeaseUnavailable "quarantine") /\
    exists g, snd (run_call cfg env2 (CAcquire owner PRIMARY) s1) = OLease g /\ ls_role g = PRIMARY.
Proof.
  unfold healthy at 1. intros Hf He1 Hren Hh Hcap Hnow Hst. bprop.
  assert (Hload : exists s1, load cfg env1 s = (s1, Raise (LeaseUnavailable "ledger_corrupt")) /\
            l_file s1 = Some (Some (store_payload env1 [] (e_quar env1 + lc_ttl_ns cfg)))).
  { unfold load, sbind. unfold decode_file in Hf. cbn. destruct (l_file s) as [content|]; [|done].
    rewrite H1. cbn [negb]. rewrite Hf. unfold quarantine, suppress_unavailable, sbind. rewrite Hren. cbn.
    rewrite H0. cbn. eauto. }
  destruct Hload as (s1 & Hl & Hfile).
  exists s1.
  assert (Hd : decode_file (l_file s1) = Some ([], e_quar env1 + lc_ttl_ns cfg)).
  { rewrite Hfile, decode_store. by rewrite (proj2 (Z.ltb_lt _ _)). }
  split_and!; [|done| |].
  - destruct c; cbn [run_call]; unfold acquire, renew, release, promote, locked, sbind;
      rewrite H; cbn [negb]; cbv beta; by rewrite Hl.
  - destruct (run_call_healthy cfg env2 (CAcquire owner STANDBY) s1 _ _ Hh Hd) as (s2 & b2 & -> & _).
    cbn [table_step fst snd]. rewrite bool_decide_eq_true_2, (proj2 (Z.ltb_lt _ _)) by done. done.
  - destruct (run_call_healthy cfg env2 (CAcquire owner PRIMARY) s1 _ _ Hh Hd) as (s2 & b2 & -> & _).
    cbn [table_step fst snd drop_expired List.filter length].
    rewrite bool_decide_eq_false_2 by done. cbn [andb].
    rewrite (proj2 (Z.ltb_lt _ _)) by (cbn; lia). cbn. eexists. split; [reflexivity|done].
Qed.

Lemma corrupt_ledger_blocks_standby_witness :
  exists s1, run_call demo_cfg (demo_env 10 "t") (CAcquire "a" STANDBY) (mkLState (Some None) 0)
    = (s1, ORaise (LeaseUnavailable "ledger_corrupt")) /\
    decode_file (l_file s1) = Some ([], 110).
Proof.
  destruct (corrupt_ledger_blocks_standby demo_cfg (demo_env 10 "t") (demo_env 20 "u")
    (CAcquire "a" STANDBY) (mkLState (Some None) 0) "a") as (s1 & H1 & H2 & _);
    [vm_compute; reflexivity..|]. exists s1. split; [exact H1|exact H2].
Defined.
