(* ===== verification/ShardPlan.v ===== *)
(** * Shard plans of the stream connections

    [src/realtime/kis_sharding.py]: the data key pool and the assignment of ranked
    symbols to KIS connections. [src/realtime/ls_limits.py] and
    [src/realtime/ls_sharding.py]: the LS subscription guard and the split of the
    candidates over LS sessions. Logging is not modelled. The SHA-256 fingerprint
    of an application key is a parameter. *)
From Stdlib Require Import SpecFloat Ascii ZifyBool.
From S2P Require Import Prelude PyStr PyFloat MarketPhase.

(** ** Data *)

Inductive plan_exc :=
| KrxAlphaError (reason : string)
| MissingCredentialsError
| SlotBudgetExceededError
| PlanValueError
| PlanIndexError.
Abbreviation plan := (res plan_exc).

Record KisDataCredential := mkCred {
  cr_slot : string; cr_app_key : string; cr_app_secret : string; cr_hts_id : string; cr_key_id : string
}.

Record AftermarketShard := mkShard {
  sh_venue : MarketVenue; sh_index : Z; sh_symbols : list string; sh_streams : string * string;
  sh_slot : string; sh_key_id : string
}.

(** ** The data key pool *)

(** [(source.get(key, "") or "").strip()]. *)
Definition env_get (source : list (string * string)) (key : string) : string :=
  str_strip (default "" (dget source key)).

Section KeyPool.
(** The first twelve hexadecimal digits of SHA-256. *)
Variable credential_key_id_for : string -> string.

Fixpoint load_slots (source : list (string * string)) (trade_key primary_key : string)
    (slots : list string) (seen : list string) : plan (list KisDataCredential) :=
  match slots with
  | [] => Ok []
  | slot :: slots' =>
      let key part := String.append "KIS_DATA_" (String.append slot part) in
      let app_key := env_get source (key "_APP_KEY") in
      let app_secret := env_get source (key "_APP_SECRET") in
      let hts_id := env_get source (key "_HTS_ID") in
      if bool_decide (app_key = "") || bool_decide (app_secret = "") || bool_decide (hts_id = "") then
        Raise (KrxAlphaError "empty credentials")
      else
        let fingerprint := credential_key_id_for app_key in
        if bool_decide (fingerprint ∈ seen) then Raise (KrxAlphaError "duplicate data app_key fingerprint")
        else if negb (bool_decide (primary_key = "")) && bool_decide (app_key = primary_key) then
          Raise (KrxAlphaError "collides with primary KIS_APP_KEY")
        else if negb (bool_decide (trade_key = "")) && bool_decide (app_key = trade_key) then
          Raise (KrxAlphaError "collides with primary KIS_TRADE_APP_KEY")
        else (rest <~ load_slots source trade_key primary_key slots' (fingerprint :: seen);;
              Ok (mkCred slot app_key app_secret hts_id fingerprint :: rest))%py
  end.

Definition load_kis_data_credentials (source : list (string * string)) : plan (list KisDataCredential) :=
  let raw := env_get source "KIS_DATA_SLOTS" in
  if bool_decide (raw = "") then Ok []
  else
    let slots := map str_strip (str_split ","%char raw) in
    if bool_decide ("" ∈ slots) then Raise (KrxAlphaError "empty data slot in KIS_DATA_SLOTS")
    else if negb (zlen (fromkeys slots) =? zlen slots) then Raise (KrxAlphaError "duplicate data slots")
    else load_slots source (env_get source "KIS_TRADE_APP_KEY") (env_get source "KIS_APP_KEY") slots [].
End KeyPool.

(** ** KIS plans *)

(** [len(set(xs)) != len(xs)]. *)
Definition has_dup (l : list string) : bool := negb (zlen (fromkeys l) =? zlen l).

Definition shard_count (n per : Z) : Z := if n =? 0 then 0 else (n + per - 1) / per.

(** The [for index in range(count)] loops: each takes the next key. *)
Fixpoint take_keys (venue : MarketVenue) (streams : string * string) (per : Z) (ordered : list string)
    (index : Z) (count : nat) (keys : list KisDataCredential)
    : plan (list AftermarketShard * list KisDataCredential) :=
  match count with
  | O => Ok ([], keys)
  | S count' =>
      match keys with
      | [] => Raise PlanIndexError
      | c :: keys' =>
          let shard := mkShard venue index (slice (index * per) ((index + 1) * per) ordered) streams
                         (cr_slot c) (cr_key_id c) in
          (rest <~ take_keys venue streams per ordered (index + 1) count' keys';;
           Ok (shard :: fst rest, snd rest))%py
      end
  end.

Definition shards_for_cap (nxt_len krx_len nxt_per krx_per cap : Z) : Z :=
  shard_count (Z.min cap nxt_len) nxt_per + shard_count (Z.min cap krx_len) krx_per.

(** The [while cap > 0] search. *)
Fixpoint best_cap (nxt_len krx_len nxt_per krx_per available : Z) (cap : nat) : Z :=
  match cap with
  | O => 0
  | S cap' =>
      if shards_for_cap nxt_len krx_len nxt_per krx_per (Z.of_nat cap) <=? available then Z.of_nat cap
      else best_cap nxt_len krx_len nxt_per krx_per available cap'
  end.

Definition plan_aftermarket_shards (krx_symbols nxt_symbols : list string)
    (credentials : list KisDataCredential) (pair_capacity_per_connection : Z)
    (krx_streams nxt_streams : string * string) : plan (list AftermarketShard) :=
  let nxt_len := zlen nxt_symbols in
  let krx_len := zlen krx_symbols in
  if (nxt_len =? 0) && (krx_len =? 0) then Raise (KrxAlphaError "empty aftermarket symbols")
  else if has_dup nxt_symbols then Raise (KrxAlphaError "duplicate aftermarket symbols")
  else if has_dup krx_symbols then Raise (KrxAlphaError "duplicate aftermarket symbols")
  else
    let nxt_per := pair_capacity_per_connection / 2 in
    let krx_per := pair_capacity_per_connection / 2 in
    if (nxt_per <? 1) || (krx_per <? 1) then Raise SlotBudgetExceededError
    else
      let required := shard_count nxt_len nxt_per + shard_count krx_len krx_per in
      let available := zlen credentials in
      (kept <~ (if available <? required then
                  let cap := best_cap nxt_len krx_len nxt_per krx_per available
                               (Z.to_nat (Z.max nxt_len krx_len)) in
                  if cap <? 1 then Raise SlotBudgetExceededError
                  else Ok (slice 0 (Z.min cap nxt_len) nxt_symbols, slice 0 (Z.min cap krx_len) krx_symbols)
                else Ok (nxt_symbols, krx_symbols));;
       let '(nxt_ordered, krx_ordered) := kept in
       nxt <~ take_keys V_NXT nxt_streams nxt_per nxt_ordered 0
                (Z.to_nat (shard_count (zlen nxt_ordered) nxt_per)) credentials;;
       krx <~ take_keys V_KRX krx_streams krx_per krx_ordered 0
                (Z.to_nat (shard_count (zlen krx_ordered) krx_per)) (snd nxt);;
       Ok (fst nxt ++ fst krx))%py.

(** [by_slot = {cred.slot: cred for cred in credentials}]. *)
Definition by_slot (credentials : list KisDataCredential) : list (string * KisDataCredential) :=
  fold_left (fun d c => dset d (cr_slot c) c) credentials [].

Fixpoint slot_creds (d : list (string * KisDataCredential)) (slots : list string)
    : plan (list KisDataCredential) :=
  match slots with
  | [] => Ok []
  | s :: slots' =>
      match dget d s with
      | None => Raise MissingCredentialsError
      | Some c => (rest <~ slot_creds d slots';; Ok (c :: rest))%py
      end
  end.

Definition in_opt (s : string) (covered : list string) : bool := bool_decide (s ∈ covered).

Fixpoint regular_shards (streams : string * string) (per : Z) (ordered : list string) (index : Z)
    (creds : list KisDataCredential) : list AftermarketShard :=
  match creds with
  | [] => []
  | c :: creds' =>
      let chunk := slice (index * per) ((index + 1) * per) ordered in
      let rest := regular_shards streams per ordered (index + 1) creds' in
      match chunk with
      | [] => rest
      | _ => mkShard V_KRX index chunk streams (cr_slot c) (cr_key_id c) :: rest
      end
  end.

(** LS-uncovered symbols first, each group in rank order. *)
Definition regular_order (symbols : list string) (ls_covered : option (list string)) : list string :=
  match ls_covered with
  | None => symbols
  | Some cov => List.filter (fun s => negb (in_opt s cov)) symbols ++ List.filter (fun s => in_opt s cov) symbols
  end.

#[global] Arguments regular_order : simpl never.

(** The symbols of the coverage alert: neither covered by LS nor planned. *)
Definition uncovered_symbols (symbols : list string) (ls_covered : option (list string)) (capacity : Z)
    : list string :=
  match ls_covered with
  | None => []
  | Some cov =>
      let selected := slice 0 capacity (regular_order symbols ls_covered) in
      List.filter (fun s => negb (in_opt s cov) && negb (in_opt s selected)) symbols
  end.

(** The plan, and the symbols of its coverage alert. *)
Definition plan_regular_kis_shards (symbols : list string) (credentials : list KisDataCredential)
    (credential_slots : list string) (pair_capacity_per_connection : Z) (streams : string * string)
    (ls_covered_symbols : option (list string)) : plan (list AftermarketShard * list string) :=
  if zlen symbols =? 0 then Raise (KrxAlphaError "empty regular_kis symbols")
  else if has_dup symbols then Raise (KrxAlphaError "duplicate regular_kis symbols")
  else
    let ordered := regular_order symbols ls_covered_symbols in
    let per_shard := pair_capacity_per_connection / 2 in
    if per_shard <? 1 then Raise SlotBudgetExceededError
    else
      (creds <~ slot_creds (by_slot credentials) credential_slots;;
       let capacity := zlen credential_slots * per_shard in
       let kept := if capacity <? zlen ordered then slice 0 capacity ordered else ordered in
       Ok (regular_shards streams per_shard kept 0 creds,
           uncovered_symbols symbols ls_covered_symbols capacity))%py.

Definition plan_premarket_shard (symbols : list string) (credentials : list KisDataCredential)
    (credential_slot : string) (pair_capacity_per_connection : Z) (nxt_streams : string * string)
    : plan AftermarketShard :=
  if zlen symbols =? 0 then Raise (KrxAlphaError "empty premarket symbols")
  else if has_dup symbols then Raise (KrxAlphaError "duplicate premarket symbols")
  else
    let per_connection := pair_capacity_per_connection / 2 in
    if per_connection <? 1 then Raise SlotBudgetExceededError
    else match List.find (fun c => bool_decide (cr_slot c = credential_slot)) credentials with
         | None => Raise MissingCredentialsError
         | Some c =>
             let kept := if per_connection <? zlen symbols then slice 0 per_connection symbols else symbols in
             Ok (mkShard V_NXT 0 kept nxt_streams (cr_slot c) (cr_key_id c))
         end.

(** ** LS limits *)

Definition TIER_RANK : list (string * Z) := [("core", 0); ("event", 1); ("events", 1); ("follow", 2)].

(** [x < n] between a float and an integer, exact as in Python. *)
Definition fltb_int (x : pyfloat) (n : Z) : bool :=
  match x with
  | S754_nan => false
  | S754_infinity s => s
  | S754_zero _ => 0 <? n
  | S754_finite s m e =>
      let a := if s then - Zpos m else Zpos m in
      if 0 <=? e then a * 2 ^ e <? n else a <? n * 2 ^ (- e)
  end.

Definition LS_WARN_RATIO : pyfloat := float_lit 8 1.

Definition ls_limit_status (n_pairs cap : Z) : res float_exc string :=
  if cap <? n_pairs then Ok "VIOLATION"
  else (c <~ float_of_int cap;;
        Ok (if fltb_int (fmul LS_WARN_RATIO c) n_pairs then "WARN" else "OK"))%py.

Abbreviation pair := (string * string)%type.

(** The sort key: tier, candidate position, index. *)
Definition tier_rank (tier_of : option (list (string * string))) (symbol : string) : Z :=
  match tier_of with
  | None => 0
  | Some tiers => default 1 (dget TIER_RANK (str_lower (default "" (dget tiers symbol))))
  end.

Definition positions (order : option (list string)) : list (string * Z) :=
  match order with
  | None => []
  | Some l => fold_left (fun d e => dset d (snd e) (fst e)) (zip (map Z.of_nat (seq 0 (length l))) l) []
  end.

Definition key_leb (a b : Z * Z * Z) : bool :=
  let '(a1, a2, a3) := a in
  let '(b1, b2, b3) := b in
  (a1 <? b1) || ((a1 =? b1) && ((a2 <? b2) || ((a2 =? b2) && (a3 <=? b3)))).

Definition pair_key (tier_of : option (list (string * string))) (position : list (string * Z)) (fallback : Z)
    (e : Z * pair) : Z * Z * Z :=
  (tier_rank tier_of (fst (snd e)), default fallback (dget position (fst (snd e))), fst e).

Definition prioritize_ls_pairs (pairs : list pair) (tier_of : option (list (string * string)))
    (order : option (list string)) : list pair :=
  match tier_of, order with
  | None, None => pairs
  | _, _ =>
      let position := positions order in
      let fallback := zlen position + zlen pairs in
      let key := pair_key tier_of position fallback in
      map snd (py_sorted (fun a b => key_leb (key a) (key b)) (zip (map Z.of_nat (seq 0 (length pairs))) pairs))
  end.

(** [grouped.setdefault(symbol, []).append(pair)]. *)
Definition group_pairs (ordered : list pair) : list (string * list pair) :=
  fold_left (fun d p => dset d (fst p) (default [] (dget d (fst p)) ++ [p])) ordered [].

Fixpoint keep_groups (cap used : Z) (groups : list (string * list pair)) : list pair * list string :=
  match groups with
  | [] => ([], [])
  | (symbol, group) :: groups' =>
      if used + zlen group <=? cap then
        let '(kept, dropped) := keep_groups cap (used + zlen group) groups' in (group ++ kept, dropped)
      else
        let '(kept, dropped) := keep_groups cap used groups' in (kept, symbol :: dropped)
  end.

Definition split_ls_pairs (pairs : list pair) (cap : Z) (tier_of : option (list (string * string)))
    (order : option (list string)) : list pair * list string :=
  keep_groups cap 0 (group_pairs (prioritize_ls_pairs pairs tier_of order)).

Definition LS_LIMIT_OBSERVED_MARKERS : list string := [].

Definition classify_ls_close_reason (detail : option string) : string :=
  let text := str_lower (default "" detail) in
  if negb (bool_decide (text = "")) && existsb (fun m => str_in m text) LS_LIMIT_OBSERVED_MARKERS
  then "ls_limit" else "unknown".

Definition is_vendor_close_detail (detail : option string) : bool :=
  let text := default "" detail in
  str_in "WSMsgType.CLOSE" text || (str_in "code=" text && str_in "reason=" text).

Definition stream_disconnect_reason (pump_reason : string) (detail : option string) : string :=
  if bool_decide (pump_reason = "disconnect") && is_vendor_close_detail detail
  then classify_ls_close_reason detail else pump_reason.

Record LsGuardConfig := mkGuard {
  lg_max_subscriptions : Z; lg_tiers : option (list (string * string)); lg_order : option (list string)
}.

Definition join (sep : string) (l : list string) : string := String.concat sep l.

(** The pairs to subscribe and the manifest's note afterwards; [note] is the
    manifest's note before, [None] when the session has no manifest. *)
Definition apply_ls_subscription_guard (pairs : list pair) (note : option (option string)) (cfg : LsGuardConfig)
    : res float_exc (list pair * option (option string)) :=
  (status <~ ls_limit_status (zlen pairs) (lg_max_subscriptions cfg);;
   if negb (bool_decide (status = "VIOLATION")) then Ok (pairs, note)
   else
     let '(kept, dropped) := split_ls_pairs pairs (lg_max_subscriptions cfg) (lg_tiers cfg) (lg_order cfg) in
     let text := String.concat "" ["ls_limit cap="; str_of_Z (lg_max_subscriptions cfg); " dropped=";
                                   str_of_Z (zlen dropped); " symbols="; join "," dropped] in
     let updated previous :=
       match previous with
       | None | Some "" => Some text
       | Some p => if str_in text p then Some p else Some (String.concat "" [p; "; "; text])
       end in
     Ok (kept, option_map updated note))%py.

(** ** LS sessions *)

Record LsShard := mkLsShard {
  lsh_index : Z; lsh_symbols : list string; lsh_streams : list string; lsh_reserve : Z; lsh_standby : bool
}.

Fixpoint ls_blocks (count : nat) (index last_index base_capacity reserve_symbols : Z) (streams : list string)
    (rest : list string) : list LsShard * list string :=
  match count with
  | O => ([], rest)
  | S count' =>
      let reserve := if (index =? last_index) && (1 <=? index) then reserve_symbols else 0 in
      let n := Z.to_nat (Z.max 0 (base_capacity - reserve)) in
      let '(shards, overflow) :=
        ls_blocks count' (index + 1) last_index base_capacity reserve_symbols streams (drop n rest) in
      (mkLsShard index (take n rest) streams reserve (index =? 0) :: shards, overflow)
  end.

(** The candidate symbols in priority order, without repetition. *)
Definition ls_symbol_order (symbols : list string) (tiers : list (string * string)) (streams : list string)
    : list string :=
  let unique_symbols := fromkeys symbols in
  let pairs := concat (map (fun symbol => map (fun stream => (symbol, stream)) streams) unique_symbols) in
  fromkeys (map fst (prioritize_ls_pairs pairs (Some tiers) (Some unique_symbols))).

Definition plan_ls_shards (symbols : list string) (tiers : list (string * string)) (streams : list string)
    (active_sessions pairs_per_session dynamic_reserve_symbols max_sessions : Z)
    : plan (list LsShard * list string) :=
  if zlen streams =? 0 then Raise PlanValueError
  else if pairs_per_session <? zlen streams then Raise PlanValueError
  else if negb ((1 <=? active_sessions) && (active_sessions <=? max_sessions - 1)) then Raise PlanValueError
  else if dynamic_reserve_symbols <? 0 then Raise PlanValueError
  else
    let ordered_symbols := ls_symbol_order symbols tiers streams in
    let base_capacity := pairs_per_session / zlen streams in
    let shard_count := if zlen ordered_symbols =? 0 then 1 else active_sessions in
    Ok (ls_blocks (Z.to_nat shard_count) 0 (shard_count - 1) base_capacity dynamic_reserve_symbols
          streams ordered_symbols).

(** ** Lemmas *)

Lemma has_dup_nodup l : has_dup l = false -> NoDup l.
Proof. unfold has_dup. intros H. bprop. by apply fromkeys_length_nodup. Qed.

Definition shard_key (s : AftermarketShard) : string * string := (sh_slot s, sh_key_id s).
Definition cred_key (c : KisDataCredential) : string * string := (cr_slot c, cr_key_id c).

Lemma shard_count_bounds n per :
  0 <= n -> 0 < per ->
  0 <= shard_count n per /\ n <= shard_count n per * per /\ (0 < n -> (shard_count n per - 1) * per < n).
Proof.
  intros Hn Hp. unfold shard_count. destruct (n =? 0) eqn:E; [lia|]. bprop.
  pose proof (Z.div_mod (n + per - 1) per ltac:(lia)).
  pose proof (Z.mod_pos_bound (n + per - 1) per Hp).
  assert (0 <= (n + per - 1) / per) by (apply Z.div_pos; lia). nia.
Qed.

(** The loop takes the first keys in order; its chunks concatenate to the symbols
    between its first and last index and none is empty or too long. *)
Lemma take_keys_ok venue streams per ordered count : forall index keys,
  0 < per -> 0 <= index -> (count <= length keys)%nat ->
  (index + Z.of_nat count - 1) * per < zlen ordered \/ count = 0%nat ->
  exists shards,
    take_keys venue streams per ordered index count keys = Ok (shards, drop count keys) /\
    length shards = count /\
    concat (map sh_symbols shards) = slice (index * per) ((index + Z.of_nat count) * per) ordered /\
    Forall (fun s => sh_venue s = venue /\ sh_symbols s <> [] /\ zlen (sh_symbols s) <= per) shards /\
    map shard_key shards = take count (map cred_key keys).
Proof.
  induction count as [|count IH]; intros index keys Hp Hi Hk Hlen.
  { exists []. cbn. rewrite slice_empty by lia. by rewrite drop_0. }
  destruct keys as [|c keys]; cbn in Hk; [lia|].
  destruct (IH (index + 1) keys) as (shards & Ht & Hl & Hc & HF & Hm); [done|lia|lia| |].
  { destruct count; [by right|left]. destruct Hlen; [|done]. nia. }
  eexists. cbn [take_keys]. rewrite Ht. cbn [res_bind fst snd]. split; [reflexivity|].
  assert (Hsl : zlen (slice (index * per) ((index + 1) * per) ordered)
                = Z.max 0 (Z.min per (zlen ordered - index * per))) by (rewrite slice_length; nia).
  split_and!.
  - cbn. by rewrite Hl.
  - cbn [map concat sh_symbols]. rewrite Hc, slice_app by nia. f_equal. lia.
  - constructor; [|done]. cbn. split_and!; [done| |lia].
    intros Hnil. rewrite Hnil in Hsl. unfold zlen at 1 in Hsl. cbn in Hsl.
    destruct Hlen as [Hlen|]; [|done]. nia.
  - cbn. by rewrite Hm.
Qed.

Lemma take_all_keys venue streams per ordered keys :
  0 < per -> shard_count (zlen ordered) per <= zlen keys ->
  let count := Z.to_nat (shard_count (zlen ordered) per) in
  exists shards,
    take_keys venue streams per ordered 0 count keys = Ok (shards, drop count keys) /\
    length shards = count /\ concat (map sh_symbols shards) = ordered /\
    Forall (fun s => sh_venue s = venue /\ sh_symbols s <> [] /\ zlen (sh_symbols s) <= per) shards /\
    map shard_key shards = take count (map cred_key keys).
Proof.
  intros Hp Hk count.
  destruct (shard_count_bounds (zlen ordered) per) as (H0 & Hge & Hlt); [unfold zlen; lia|done|].
  destruct (take_keys_ok venue streams per ordered count 0 keys) as (shards & Ht & Hl & Hc & HF & Hm);
    [done|lia|unfold zlen in *; lia| |].
  { destruct (decide (zlen ordered = 0)) as [Hz|Hz].
    - right. unfold count, shard_count. by rewrite Hz.
    - left. assert (0 < zlen ordered) by (unfold zlen in *; lia). nia. }
  exists shards. split_and!; [done|done| |done|done].
  rewrite Hc. cbn [Z.mul]. apply slice_all. unfold count. nia.
Qed.

Lemma best_cap_spec nl kl np kp av c :
  let k := best_cap nl kl np kp av c in
  0 <= k <= Z.of_nat c /\ (0 < k -> shards_for_cap nl kl np kp k <= av) /\
  forall j, k < j <= Z.of_nat c -> av < shards_for_cap nl kl np kp j.
Proof.
  cbv zeta. induction c as [|c IH]; [cbn; split_and!; lia|].
  cbn [best_cap]. destruct (_ <=? av) eqn:E; bprop; [split_and!; lia|].
  destruct IH as (H1 & H2 & H3). split_and!; [lia|lia|done|].
  intros j Hj. destruct (decide (j = Z.of_nat (S c))) as [->|]; [done|]. apply H3. lia.
Qed.

Definition venue_shards (v : MarketVenue) (shards : list AftermarketShard) : list AftermarketShard :=
  List.filter (fun s => bool_decide (sh_venue s = v)) shards.

Lemma venue_shards_all v (shards : list AftermarketShard) :
  Forall (fun s => sh_venue s = v) shards -> venue_shards v shards = shards.
Proof.
  unfold venue_shards. induction 1 as [|s l Hs _ IH]; [done|]. cbn.
  by rewrite bool_decide_eq_true_2, IH.
Qed.

Lemma venue_shards_none v v' (shards : list AftermarketShard) :
  Forall (fun s => sh_venue s = v') shards -> v' <> v -> venue_shards v shards = [].
Proof.
  unfold venue_shards. induction 1 as [|s l Hs _ IH]; intros Hv; [done|]. cbn.
  rewrite bool_decide_eq_false_2 by congruence. by apply IH.
Qed.

Lemma venue_shards_app v a b : venue_shards v (a ++ b) = venue_shards v a ++ venue_shards v b.
Proof. apply List.filter_app. Qed.

Lemma zlen_nonneg {A} (l : list A) : 0 <= zlen l.
Proof. unfold zlen. lia. Qed.
#[local] Hint Resolve zlen_nonneg : core.

Lemma pairs_in_capacity per capacity (shards : list AftermarketShard) :
  2 * per <= capacity -> Forall (fun s => sh_symbols s <> [] /\ zlen (sh_symbols s) <= per) shards ->
  Forall (fun s => sh_symbols s <> [] /\ 2 * zlen (sh_symbols s) <= capacity) shards.
Proof. intros Hp HF. eapply Forall_impl; [exact HF|]. cbn. intros s [? ?]. split; [done|lia]. Qed.

(** A common rank the keys can serve gives both loops their keys. *)
Lemma keyed_plan krx nxt creds krx_streams nxt_streams per cap a b :
  0 < per -> 1 <= cap -> a = slice 0 cap nxt -> b = slice 0 cap krx ->
  shards_for_cap (zlen nxt) (zlen krx) per per cap <= zlen creds ->
  exists s1 s2,
    take_keys V_NXT nxt_streams per a 0 (Z.to_nat (shard_count (zlen a) per)) creds
      = Ok (s1, drop (length s1) creds) /\
    take_keys V_KRX krx_streams per b 0 (Z.to_nat (shard_count (zlen b) per)) (drop (length s1) creds)
      = Ok (s2, drop (length s2) (drop (length s1) creds)) /\
    concat (map sh_symbols (venue_shards V_NXT (s1 ++ s2))) = a /\
    concat (map sh_symbols (venue_shards V_KRX (s1 ++ s2))) = b /\
    Forall (fun s => sh_symbols s <> [] /\ zlen (sh_symbols s) <= per) (s1 ++ s2) /\
    map shard_key (s1 ++ s2) = take (length (s1 ++ s2)) (map cred_key creds) /\
    (length (s1 ++ s2) <= length creds)%nat.
Proof.
  intros Hp Hc Ha Hb Hav. pose proof (zlen_nonneg nxt). pose proof (zlen_nonneg krx).
  unfold shards_for_cap in Hav.
  assert (La : zlen a = Z.min cap (zlen nxt)) by (subst a; rewrite slice_length; lia).
  assert (Lb : zlen b = Z.min cap (zlen krx)) by (subst b; rewrite slice_length; lia).
  rewrite <- La, <- Lb in Hav.
  destruct (shard_count_bounds (zlen a) per) as (A0 & _ & _); [done|lia|].
  destruct (shard_count_bounds (zlen b) per) as (B0 & _ & _); [done|lia|].
  destruct (take_all_keys V_NXT nxt_streams per a creds) as (s1 & T1 & L1 & C1 & F1 & M1); [lia|lia|].
  destruct (take_all_keys V_KRX krx_streams per b (drop (length s1) creds)) as (s2 & T2 & L2 & C2 & F2 & M2);
    [lia|unfold zlen in *; rewrite length_drop; lia|].
  exists s1, s2. rewrite <- L1 in T1, M1 |- *. rewrite <- L2 in T2, M2 |- *.
  assert (V1 : Forall (fun s => sh_venue s = V_NXT) s1) by (eapply Forall_impl; [exact F1|naive_solver]).
  assert (V2 : Forall (fun s => sh_venue s = V_KRX) s2) by (eapply Forall_impl; [exact F2|naive_solver]).
  rewrite !venue_shards_app, (venue_shards_all V_NXT s1), (venue_shards_all V_KRX s2) by done.
  rewrite (venue_shards_none V_NXT V_KRX s2), (venue_shards_none V_KRX V_NXT s1), app_nil_r by done.
  split_and!; [done|done|done|done| | |].
  - apply Forall_app. split; [eapply Forall_impl; [exact F1|]|eapply Forall_impl; [exact F2|]]; naive_solver.
  - rewrite map_app, M1, M2, length_app, <- skipn_map. by rewrite take_take_drop.
  - rewrite length_app. unfold zlen in *. lia.
Qed.

(** The regular plan's chunks. *)
Lemma regular_shards_empty streams per ordered creds : forall index,
  0 <= index -> 0 < per -> zlen ordered <= index * per -> regular_shards streams per ordered index creds = [].
Proof.
  induction creds as [|c creds IH]; intros index Hi Hp Hle; [done|]. cbn.
  rewrite slice_empty by lia. apply IH; nia.
Qed.

Lemma regular_shards_spec streams per ordered creds : forall index,
  0 <= index -> 0 < per ->
  let shards := regular_shards streams per ordered index creds in
  concat (map sh_symbols shards) = slice (index * per) ((index + zlen creds) * per) ordered /\
  Forall (fun s => sh_symbols s <> [] /\ zlen (sh_symbols s) <= per) shards /\
  map shard_key shards = take (length shards) (map cred_key creds).
Proof.
  induction creds as [|c creds IH]; intros index Hi Hp; cbn [regular_shards].
  { cbn. split_and!; [by rewrite slice_empty by (unfold zlen; cbn; lia)|constructor|done]. }
  assert (Hlen : zlen (c :: creds) = 1 + zlen creds) by (unfold zlen; cbn; lia).
  pose proof (zlen_nonneg creds).
  destruct (decide (zlen ordered <= index * per)) as [Hle|Hgt].
  - rewrite (slice_empty ordered (index * per)), regular_shards_empty by nia.
    rewrite slice_empty by lia. split_and!; [done|constructor|done].
  - assert (Hsl : zlen (slice (index * per) ((index + 1) * per) ordered)
                  = Z.min per (zlen ordered - index * per)) by (rewrite slice_length; nia).
    destruct (IH (index + 1)) as (Hc & HF & Hm); [lia|done|].
    destruct (slice (index * per) ((index + 1) * per) ordered) as [|x chunk] eqn:Ec.
    { change (zlen []) with 0 in Hsl. lia. }
    cbn zeta. split_and!.
    + cbn [map concat sh_symbols]. rewrite Hc, <- Ec, slice_app by nia. f_equal. rewrite Hlen. lia.
    + constructor; [|done]. cbn [sh_symbols]. split; [done|lia].
    + cbn. by rewrite Hm.
Qed.

Lemma by_slot_get creds : forall d s c,
  (forall s' c', dget d s' = Some c' -> cr_slot c' = s') ->
  dget (fold_left (fun d c => dset d (cr_slot c) c) creds d) s = Some c -> cr_slot c = s.
Proof.
  induction creds as [|x creds IH]; intros d s c Hd; cbn; [apply Hd|].
  apply IH. intros s' c'. destruct (decide (cr_slot x = s')) as [<-|Hne].
  - rewrite dget_dset_eq. congruence.
  - rewrite dget_dset_ne by done. apply Hd.
Qed.

Lemma slot_creds_slots creds slots : forall l,
  slot_creds (by_slot creds) slots = Ok l -> map cr_slot l = slots.
Proof.
  induction slots as [|s slots IH]; cbn; intros l H; [by simplify_eq|].
  destruct (dget (by_slot creds) s) as [c|] eqn:Eg; [|done].
  destruct (slot_creds (by_slot creds) slots) as [l'|]; [|done]. cbn in H. simplify_eq. cbn.
  f_equal; [|by apply IH]. by eapply (by_slot_get creds []).
Qed.

Lemma kept_slice {A} (l : list A) c : (if c <? zlen l then slice 0 c l else l) = slice 0 c l.
Proof. destruct (_ <? _) eqn:E; [done|]. bprop. symmetry. by apply slice_all. Qed.

Lemma slice_elem {A} (l : list A) a b x : x ∈ slice a b l -> x ∈ l.
Proof.
  unfold slice. intros H. eapply elem_of_sublist; [exact H|].
  etransitivity; [apply sublist_take|apply sublist_drop].
Qed.

(** The key pool loop. *)
Definition cred_ok (fp : string -> string) (trade_key primary_key : string) (c : KisDataCredential) : Prop :=
  cr_app_key c <> "" /\ cr_app_secret c <> "" /\ cr_hts_id c <> "" /\ cr_key_id c = fp (cr_app_key c) /\
  cr_app_key c <> primary_key /\ cr_app_key c <> trade_key.

Lemma load_slots_spec fp source trade_key primary_key slots : forall seen creds,
  load_slots fp source trade_key primary_key slots seen = Ok creds ->
  map cr_slot creds = slots /\ NoDup (map cr_key_id creds) /\
  (forall k, k ∈ map cr_key_id creds -> k ∉ seen) /\ Forall (cred_ok fp trade_key primary_key) creds.
Proof.
  induction slots as [|slot slots IH]; intros seen creds H; cbn in H.
  { simplify_eq. split_and!; [done|constructor|set_solver|constructor]. }
  destruct (_ || _) eqn:E1; [done|]. destruct (bool_decide (_ ∈ seen)) eqn:E2; [done|].
  destruct (_ && _) eqn:E3 in H; [done|]. destruct (_ && _) eqn:E4 in H; [done|].
  destruct (load_slots _ _ _ _ _ _) as [rest|] eqn:Er; [|done]. cbn in H. simplify_eq.
  destruct (IH _ _ Er) as (Hs & Hd & Hn & HF). bprop.
  apply andb_false_iff in E3, E4.
  assert (Hcol : forall k x, negb (bool_decide (k = "")) = false \/ bool_decide (x = k) = false ->
            x <> "" -> x <> k).
  { intros k x [Hk|Hk] Hx; bprop; congruence. }
  cbn. split_and!; [by rewrite Hs| | |].
  - constructor; [|done]. intros Hin%Hn. apply Hin. left.
  - intros k [->|Hk]%elem_of_cons; [done|]. apply Hn in Hk. set_solver.
  - constructor; [|done]. unfold cred_ok. cbn. split_and!; try done; eapply Hcol; eauto.
Qed.

(** Groups of pairs, one per symbol. *)
Definition pairs_of (symbol : string) (ps : list pair) : list pair :=
  List.filter (fun p => bool_decide (fst p = symbol)) ps.

Lemma group_pairs_spec ps : forall d,
  NoDup (dkeys d) ->
  let g := fold_left (fun d p => dset d (fst p) (default [] (dget d (fst p)) ++ [p])) ps d in
  NoDup (dkeys g) /\ forall s, default [] (dget g s) = default [] (dget d s) ++ pairs_of s ps.
Proof.
  induction ps as [|p ps IH]; intros d Hd; cbn [fold_left]; [split; [done|intros s; by rewrite app_nil_r]|].
  destruct (IH (dset d (fst p) (default [] (dget d (fst p)) ++ [p]))) as [Hn Hg]; [by apply dkeys_dset_nodup|].
  split; [exact Hn|]. intros s. rewrite Hg. unfold pairs_of. cbn [List.filter].
  destruct (decide (fst p = s)) as [<-|Hne].
  - rewrite bool_decide_eq_true_2, dget_dset_eq by done. cbn. by rewrite <- app_assoc.
  - by rewrite bool_decide_eq_false_2, dget_dset_ne by done.
Qed.

Lemma keep_groups_spec cap groups : forall used kept dropped,
  keep_groups cap used groups = (kept, dropped) -> used <= cap -> NoDup (dkeys groups) ->
  used + zlen kept <= cap /\
  (forall s g, (s, g) ∈ groups -> s ∉ dropped -> forall p, p ∈ g -> p ∈ kept) /\
  (forall p, p ∈ kept -> exists s g, (s, g) ∈ groups /\ p ∈ g /\ s ∉ dropped) /\
  (forall s, s ∈ dropped -> s ∈ dkeys groups).
Proof.
  induction groups as [|[s g] groups IH]; intros used kept dropped H Hu Hd; cbn in H.
  { simplify_eq. split_and!; [cbn; unfold zlen; cbn; lia|set_solver..]. }
  apply NoDup_cons in Hd as [Hs Hd]. destruct (used + zlen g <=? cap) eqn:E; bprop.
  - destruct (keep_groups cap (used + zlen g) groups) as [k d] eqn:Ek. simplify_eq.
    destruct (IH _ _ _ Ek) as (H1 & H2 & H3 & H4); [done|done|].
    assert (Hsd : s ∉ dropped) by (intros Hin%H4; done). split_and!.
    + unfold zlen in *. rewrite length_app. lia.
    + intros s' g' [[= -> ->]|Hin]%elem_of_cons Hn p Hp; apply elem_of_app; [by left|right]. eauto.
    + intros p [Hp|Hp]%elem_of_app; [exists s, g; split_and!; [left|done|done]|].
      destruct (H3 p Hp) as (s' & g' & ? & ? & ?). exists s', g'. split_and!; [by right|done|done].
    + intros x Hx. right. by apply H4.
  - destruct (keep_groups cap used groups) as [k d] eqn:Ek. simplify_eq.
    destruct (IH _ _ _ Ek) as (H1 & H2 & H3 & H4); [done|done|]. split_and!; [done| | |].
    + intros s' g' [[= -> ->]|Hin]%elem_of_cons Hn p Hp; [by destruct Hn; left|].
      apply not_elem_of_cons in Hn as [_ Hn]. eauto.
    + intros p Hp. destruct (H3 p Hp) as (s' & g' & Hin & ? & ?). exists s', g'.
      split_and!; [by right|done|]. apply not_elem_of_cons. split; [|done].
      intros ->. apply Hs. unfold dkeys. apply list_elem_of_fmap. by exists (s, g').
    + intros x [->|Hx]%elem_of_cons; [left|right; by apply H4].
Qed.

Lemma key_leb_total a b : key_leb a b = true \/ key_leb b a = true.
Proof. destruct a as [[a1 a2] a3], b as [[b1 b2] b3]. unfold key_leb. lia. Qed.

Lemma zip_snd {A} (l : list A) : map snd (zip (map Z.of_nat (seq 0 (length l))) l) = l.
Proof.
  generalize 0%nat. induction l as [|x l IH]; intros n; [done|]. cbn. f_equal. apply IH.
Qed.

Lemma prioritize_perm pairs tier_of order : prioritize_ls_pairs pairs tier_of order ≡ₚ pairs.
Proof.
  unfold prioritize_ls_pairs.
  destruct tier_of, order; try done; by rewrite py_sorted_perm, zip_snd.
Qed.

Lemma split_ls_pairs_spec pairs cap tier_of order kept dropped :
  split_ls_pairs pairs cap tier_of order = (kept, dropped) -> 0 <= cap ->
  zlen kept <= cap /\ forall p, p ∈ kept <-> p ∈ pairs /\ fst p ∉ dropped.
Proof.
  unfold split_ls_pairs, group_pairs. intros H Hc.
  set (ps := prioritize_ls_pairs pairs tier_of order) in *.
  assert (Hps : forall p, p ∈ ps <-> p ∈ pairs) by (intros p; unfold ps; by rewrite prioritize_perm).
  destruct (group_pairs_spec ps []) as [Hn Hg]; [constructor|].
  set (groups := fold_left _ ps []) in *.
  destruct (keep_groups_spec cap groups 0 kept dropped H) as (H1 & H2 & H3 & _); [done|done|].
  split; [lia|]. intros p. rewrite <- Hps.
  assert (Hgrp : forall s g, (s, g) ∈ groups -> g = pairs_of s ps).
  { intros s g Hin. specialize (Hg s). rewrite (elem_dget _ _ _ Hn Hin) in Hg. exact Hg. }
  assert (Hof : forall s, p ∈ pairs_of s ps <-> p ∈ ps /\ fst p = s).
  { intros s. unfold pairs_of. by rewrite filter_elem, bool_decide_eq_true. }
  split.
  - intros (s & g & Hin & Hp & Hd)%H3. rewrite (Hgrp s g Hin), Hof in Hp. destruct Hp as [? <-]. done.
  - intros [Hp Hd]. destruct (dget groups (fst p)) as [g|] eqn:Eg.
    + pose proof (dget_elem _ _ _ Eg) as Hin. apply (H2 _ _ Hin Hd). by rewrite (Hgrp _ _ Hin), Hof.
    + specialize (Hg (fst p)). rewrite Eg in Hg. cbn in Hg.
      assert (p ∈ pairs_of (fst p) ps) as Hx by by apply Hof. rewrite <- Hg in Hx. by apply not_elem_of_nil in Hx.
Qed.

Lemma ls_blocks_spec streams base reserve last count : forall index rest shards overflow,
  ls_blocks count index last base reserve streams rest = (shards, overflow) ->
  concat (map lsh_symbols shards) ++ overflow = rest /\ length shards = count /\
  Forall (fun s => lsh_symbols s <> [] -> zlen (lsh_symbols s) + lsh_reserve s <= base) shards /\
  Forall (fun s => index <= lsh_index s /\ lsh_standby s = (lsh_index s =? 0)) shards.
Proof.
  induction count as [|count IH]; intros index rest shards overflow H; cbn in H.
  { simplify_eq. split_and!; [done|done|constructor|constructor]. }
  set (r := if _ && _ then reserve else 0) in H.
  destruct (ls_blocks count (index + 1) last base reserve streams _) as [sh ov] eqn:Eb. simplify_eq.
  destruct (IH _ _ _ _ Eb) as (H1 & H2 & H3 & H4). split_and!.
  - cbn [map concat lsh_symbols]. rewrite <- app_assoc, H1. apply take_drop.
  - cbn. by rewrite H2.
  - constructor; [|done]. cbn [lsh_symbols lsh_reserve]. intros Hne. unfold zlen.
    assert (Z.to_nat (Z.max 0 (base - r)) <> 0%nat) by (intros Hz; by rewrite Hz in Hne).
    rewrite length_take. lia.
  - constructor; [cbn; split; [lia|done]|]. eapply Forall_impl; [exact H4|]. cbn. intros s [? ?]. split; [lia|done].
Qed.

Lemma key_leb_trans a b c : key_leb a b = true -> key_leb b c = true -> key_leb a c = true.
Proof. destruct a as [[a1 a2] a3], b as [[b1 b2] b3], c as [[c1 c2] c3]. unfold key_leb. lia. Qed.

Lemma positions_from (l : list string) : forall n (d : list (string * Z)) s,
  s ∉ l -> dget (fold_left (fun d e => dset d (snd e) (fst e)) (zip (map Z.of_nat (seq n (length l))) l) d) s
           = dget d s.
Proof.
  induction l as [|x l IH]; intros n d s Hs; [done|]. cbn.
  apply not_elem_of_cons in Hs as [Hx Hs]. rewrite IH by done. cbn. by rewrite dget_dset_ne.
Qed.

Lemma positions_at (l : list string) s : forall i n (d : list (string * Z)),
  NoDup l -> l !! i = Some s ->
  dget (fold_left (fun d e => dset d (snd e) (fst e)) (zip (map Z.of_nat (seq n (length l))) l) d) s
  = Some (Z.of_nat (n + i)).
Proof.
  induction l as [|x l IH]; intros i n d Hd Hi; [done|]. apply NoDup_cons in Hd as [Hx Hd].
  destruct i as [|i]; cbn in Hi |- *.
  - simplify_eq. rewrite positions_from by done. cbn. rewrite dget_dset_eq. do 2 f_equal. lia.
  - rewrite (IH i) by done. do 2 f_equal. lia.
Qed.

Lemma positions_lookup (l : list string) i s :
  NoDup l -> l !! i = Some s -> dget (positions (Some l)) s = Some (Z.of_nat i).
Proof. apply (positions_at l s i 0). Qed.

(** Symbols in tier order, then candidate order. *)
Definition symbol_before (tiers : list (string * string)) (fallback : Z) (u : list string) (a b : string) : Prop :=
  tier_rank (Some tiers) a < tier_rank (Some tiers) b \/
  (tier_rank (Some tiers) a = tier_rank (Some tiers) b /\
   default fallback (dget (positions (Some u)) a) <= default fallback (dget (positions (Some u)) b)).

Lemma ls_order_sorted symbols tiers streams : exists fallback,
  StronglySorted (symbol_before tiers fallback (fromkeys symbols)) (ls_symbol_order symbols tiers streams).
Proof.
  unfold ls_symbol_order. set (u := fromkeys symbols). set (pairs := concat _).
  exists (zlen (positions (Some u)) + zlen pairs).
  eapply strongly_sorted_sublist; [apply fromkeys_sublist|]. unfold prioritize_ls_pairs.
  rewrite map_map. eapply strongly_sorted_map; [|apply py_sorted_strong].
  - intros a b Hab. unfold key_leb, pair_key in Hab. unfold symbol_before. cbn in *. lia.
  - intros a b. apply key_leb_total.
  - intros a b c. apply key_leb_trans.
Qed.

Lemma ls_order_perm symbols tiers streams :
  streams <> [] -> ls_symbol_order symbols tiers streams ≡ₚ fromkeys symbols.
Proof.
  intros Hs. apply NoDup_Permutation; [apply fromkeys_nodup|apply fromkeys_nodup|].
  intros s. unfold ls_symbol_order. rewrite fromkeys_elem, prioritize_perm.
  set (u := fromkeys symbols). rewrite concat_map, map_map.
  rewrite list_elem_of_In, in_concat. split.
  - intros (l & Hl & Hin). apply in_map_iff in Hl as (x & <- & Hx). rewrite map_map in Hin. cbn in Hin.
    apply in_map_iff in Hin as (? & -> & _). by apply list_elem_of_In.
  - intros Hin. destruct streams as [|t streams]; [done|].
    exists (map fst (map (fun stream => (s, stream)) (t :: streams))). split; [|by left].
    apply in_map_iff. exists s. split; [done|]. by apply list_elem_of_In.
Qed.

(** ** Properties *)

(** The aftermarket plan: it never runs out of keys; every connection holds at
    least one symbol and at most its pair capacity; the symbols planned on each
    venue are the top ranks of that venue up to one common rank, each on exactly
    one connection and in order; the connections use distinct keys of the pool, in
    pool order; and the common rank is the largest the pool can serve. *)
Theorem aftermarket_plan_maximal krx nxt creds capacity krx_streams nxt_streams :
  match plan_aftermarket_shards krx nxt creds capacity krx_streams nxt_streams with
  | Raise e => e <> PlanIndexError
  | Ok shards =>
      exists cap, 1 <= cap /\
        concat (map sh_symbols (venue_shards V_NXT shards)) = slice 0 cap nxt /\
        concat (map sh_symbols (venue_shards V_KRX shards)) = slice 0 cap krx /\
        Forall (fun s => sh_symbols s <> [] /\ 2 * zlen (sh_symbols s) <= capacity) shards /\
        map shard_key shards = take (length shards) (map cred_key creds) /\
        (length shards <= length creds)%nat /\
        (cap < Z.max (zlen nxt) (zlen krx) ->
          zlen creds < shards_for_cap (zlen nxt) (zlen krx) (capacity / 2) (capacity / 2) (cap + 1))
  end.
Proof.
  unfold plan_aftermarket_shards. destruct (_ && _) eqn:Ee; [done|].
  destruct (has_dup nxt); [done|]. destruct (has_dup krx); [done|].
  set (per := capacity / 2). destruct (_ || _) eqn:Ep; [done|].
  assert (Hp : 0 < per /\ 2 * per <= capacity) by (unfold per; split; Z.to_euclidean_division_equations; lia).
  pose proof (zlen_nonneg nxt) as Hn. pose proof (zlen_nonneg krx) as Hk.
  pose proof (fun cap a b => keyed_plan krx nxt creds krx_streams nxt_streams per cap a b (proj1 Hp)) as Hplan.
  destruct (zlen creds <? _) eqn:Er; bprop.
  - destruct (best_cap_spec (zlen nxt) (zlen krx) per per (zlen creds) (Z.to_nat (Z.max (zlen nxt) (zlen krx))))
      as (Hk1 & Hk2 & Hk3).
    set (cap := best_cap _ _ _ _ _ _) in *. destruct (cap <? 1) eqn:Ec; [done|]. bprop. cbn [res_bind].
    assert (Hsl : forall l : list string, slice 0 (Z.min cap (zlen l)) l = slice 0 cap l).
    { intros l. destruct (Z.min_spec cap (zlen l)) as [[_ ->]|[? ->]]; [done|].
      by rewrite !slice_all by lia. }
    rewrite !Hsl.
    destruct (Hplan cap _ _ ltac:(lia) eq_refl eq_refl ltac:(apply Hk2; lia))
      as (s1 & s2 & -> & H2 & ? & ? & HF & ? & ?). cbn [res_bind snd fst].
    rewrite H2. cbn [res_bind fst]. exists cap. split_and!; [lia|done|done|apply (pairs_in_capacity per); [lia|done]|done|done|].
    intros Hlt. apply Hk3. lia.
  - cbn [res_bind].
    destruct (Hplan (Z.max (zlen nxt) (zlen krx)) nxt krx) as (s1 & s2 & -> & H2 & ? & ? & HF & ? & ?).
    + bprop. lia.
    + symmetry. apply slice_all. lia.
    + symmetry. apply slice_all. lia.
    + unfold shards_for_cap. by rewrite !Z.min_r by lia.
    + cbn [res_bind snd fst]. rewrite H2. cbn [res_bind fst].
      exists (Z.max (zlen nxt) (zlen krx)).
      rewrite !(slice_all _ (Z.max (zlen nxt) (zlen krx))) by lia.
      split_and!; [lia|done|done|apply (pairs_in_capacity per); [lia|done]|done|done|lia].
Qed.

(** Coverage of the regular session: the KIS plan is the candidates in the
    order uncovered-by-LS first, cut to the capacity of the configured slots, one
    connection per symbol and slots in priority order; the coverage alert names
    exactly the candidates neither feed carries; it is empty when the uncovered
    candidates fit the capacity, and when it is not, no KIS slot carries a symbol
    LS already covers. *)
Theorem regular_plan_coverage symbols creds slots capacity streams cov shards hole :
  plan_regular_kis_shards symbols creds slots capacity streams (Some cov) = Ok (shards, hole) ->
  let planned := concat (map sh_symbols shards) in
  let room := zlen slots * (capacity / 2) in
  planned = slice 0 room (regular_order symbols (Some cov)) /\
  Forall (fun s => sh_symbols s <> [] /\ 2 * zlen (sh_symbols s) <= capacity) shards /\
  map sh_slot shards = take (length shards) slots /\
  (forall s, s ∈ hole <-> s ∈ symbols /\ s ∉ cov /\ s ∉ planned) /\
  (zlen (List.filter (fun s => negb (in_opt s cov)) symbols) <= room -> hole = []) /\
  (hole <> [] -> forall s, s ∈ planned -> s ∉ cov).
Proof.
  unfold plan_regular_kis_shards. destruct (_ =? 0); [done|]. destruct (has_dup symbols); [done|].
  set (per := capacity / 2). destruct (per <? 1) eqn:Ep; [done|]. bprop.
  destruct (slot_creds (by_slot creds) slots) as [l|] eqn:El; [|done]. cbn [res_bind].
  intros [= <- <-]. cbv zeta.
  pose proof (slot_creds_slots _ _ _ El) as Hsl.
  assert (Hlen : zlen l = zlen slots) by (unfold zlen; rewrite <- Hsl, length_map; done).
  rewrite kept_slice. set (room := zlen slots * per).
  destruct (regular_shards_spec streams per (slice 0 room (regular_order symbols (Some cov))) l 0)
    as (Hc & HF & Hm); [done|lia|].
  assert (Hpl : concat (map sh_symbols (regular_shards streams per
                  (slice 0 room (regular_order symbols (Some cov))) 0 l))
                = slice 0 room (regular_order symbols (Some cov))).
  { rewrite Hc. cbn [Z.add Z.mul]. apply slice_all. rewrite Hlen. fold room.
    rewrite slice_length by done. pose proof (zlen_nonneg slots). unfold room. nia. }
  rewrite Hpl. unfold uncovered_symbols. fold room.
  set (U := List.filter (fun s => negb (in_opt s cov)) symbols).
  assert (Hin : forall s, in_opt s cov = false <-> s ∉ cov) by (intros s; unfold in_opt; apply bool_decide_eq_false).
  assert (Hhole : forall s, s ∈ List.filter (fun s => negb (in_opt s cov)
                    && negb (in_opt s (slice 0 room (regular_order symbols (Some cov))))) symbols <->
            s ∈ symbols /\ s ∉ cov /\ s ∉ slice 0 room (regular_order symbols (Some cov))).
  { intros s. rewrite filter_elem, andb_true_iff, !negb_true_iff. unfold in_opt.
    rewrite !bool_decide_eq_false. done. }
  assert (Hfit : zlen U <= room -> List.filter (fun s => negb (in_opt s cov)
                    && negb (in_opt s (slice 0 room (regular_order symbols (Some cov))))) symbols = []).
  { intros Hroom. apply elem_of_nil_inv. intros s Hs. apply Hhole in Hs as (Hs & Hn & Hp). apply Hp.
    unfold regular_order. fold U. unfold slice. cbn. rewrite drop_0, take_app.
    apply elem_of_app. left. rewrite take_ge by (unfold zlen in *; lia).
    unfold U. rewrite filter_elem, negb_true_iff, Hin. done. }
  split_and!; [done| | |done|done|].
  - apply (pairs_in_capacity per); [|done]. unfold per. Z.to_euclidean_division_equations; lia.
  - apply (f_equal (map fst)) in Hm. rewrite firstn_map, !map_map in Hm.
    rewrite <- Hsl, firstn_map. exact Hm.
  - intros Hne s Hs. destruct (decide (zlen U <= room)) as [Hle|Hgt]; [by apply Hfit in Hle|].
    unfold regular_order in Hs. fold U in Hs. unfold slice in Hs. rewrite drop_0, take_app_le in Hs
      by (unfold zlen in *; lia).
    assert (HsU : s ∈ U) by (eapply elem_of_sublist; [exact Hs|apply sublist_take]).
    unfold U in HsU. rewrite filter_elem, negb_true_iff, Hin in HsU. naive_solver.
Qed.

(** The data key pool fails closed: when it loads, its slots are those
    configured, no slot and no fingerprint repeats, every credential is complete,
    and no data key is the trading key or the primary key. *)
Theorem key_pool_distinct fp source creds :
  load_kis_data_credentials fp source = Ok creds ->
  NoDup (map cr_slot creds) /\ NoDup (map cr_key_id creds) /\ NoDup (map cr_app_key creds) /\
  Forall (cred_ok fp (env_get source "KIS_TRADE_APP_KEY") (env_get source "KIS_APP_KEY")) creds /\
  (env_get source "KIS_DATA_SLOTS" <> "" ->
    map cr_slot creds = map str_strip (str_split ","%char (env_get source "KIS_DATA_SLOTS"))).
Proof.
  unfold load_kis_data_credentials. destruct (bool_decide _) eqn:Er; bprop.
  { intros [= <-]. split_and!; try constructor. done. }
  destruct (bool_decide _) eqn:Ee; [done|]. destruct (negb _) eqn:Ed; [done|].
  intros H. bprop. apply load_slots_spec in H as (Hs & Hk & _ & HF).
  split_and!; [|done| |done|done].
  - rewrite Hs. by apply fromkeys_length_nodup.
  - apply (NoDup_fmap_1 fp).
    assert (fp <$> map cr_app_key creds = map cr_key_id creds) as ->; [|done].
    cbn. rewrite map_map. apply map_ext_in. intros c Hc. rewrite Forall_forall in HF.
    symmetry. apply HF. by apply list_elem_of_In.
Qed.

Lemma key_pool_distinct_witness :
  NoDup (map cr_key_id
    [mkCred "1" "a" "s" "h" "a"; mkCred "2" "b" "s" "h" "b"]).
Proof.
  apply (key_pool_distinct (fun k => k)
    [("KIS_DATA_SLOTS", "1, 2"); ("KIS_DATA_1_APP_KEY", " a"); ("KIS_DATA_1_APP_SECRET", "s");
     ("KIS_DATA_1_HTS_ID", "h"); ("KIS_DATA_2_APP_KEY", "b "); ("KIS_DATA_2_APP_SECRET", "s");
     ("KIS_DATA_2_HTS_ID", "h")]).
  vm_compute. reflexivity.
Defined.

Lemma regular_plan_coverage_witness :
  zlen ["C"; "A"] = 2 /\
  concat (map sh_symbols [mkShard V_KRX 0 ["C"] ("T", "Q") "1" "k1"; mkShard V_KRX 1 ["A"] ("T", "Q") "2" "k2"])
  = ["C"; "A"].
Proof.
  split; [reflexivity|].
  destruct (regular_plan_coverage ["A"; "B"; "C"] [mkCred "1" "" "" "" "k1"; mkCred "2" "" "" "" "k2"]
    ["1"; "2"] 3 ("T", "Q") ["A"; "B"]
    [mkShard V_KRX 0 ["C"] ("T", "Q") "1" "k1"; mkShard V_KRX 1 ["A"] ("T", "Q") "2" "k2"] []) as (H & _);
    [vm_compute; reflexivity|].
  etransitivity; [exact H|]. vm_compute. reflexivity.
Defined.

(** The LS guard caps without silent loss: what is subscribed never exceeds
    the session's subscription limit; a universe within the limit is untouched;
    otherwise symbols are kept or dropped whole, and every dropped pair's symbol is
    one the manifest note was built from. *)
Theorem ls_guard_whole_symbols pairs note cfg kept note' :
  apply_ls_subscription_guard pairs note cfg = Ok (kept, note') -> 0 <= lg_max_subscriptions cfg ->
  zlen kept <= lg_max_subscriptions cfg /\
  (zlen pairs <= lg_max_subscriptions cfg -> kept = pairs /\ note' = note) /\
  (lg_max_subscriptions cfg < zlen pairs ->
    exists dropped, split_ls_pairs pairs (lg_max_subscriptions cfg) (lg_tiers cfg) (lg_order cfg) = (kept, dropped) /\
      forall p, p ∈ kept <-> p ∈ pairs /\ fst p ∉ dropped).
Proof.
  unfold apply_ls_subscription_guard, ls_limit_status. set (cap := lg_max_subscriptions cfg).
  intros H Hc. destruct (cap <? zlen pairs) eqn:E; bprop.
  - cbn [res_bind] in H. change (negb _) with false in H. cbn match in H.
    destruct (split_ls_pairs pairs cap (lg_tiers cfg) (lg_order cfg)) as [k d] eqn:Es. simplify_eq.
    destruct (split_ls_pairs_spec _ _ _ _ _ _ Es Hc) as [Hl Hp].
    split_and!; [done|lia|]. intros _. by exists d.
  - destruct (float_of_int cap) as [c|]; [|done]. cbn [res_bind] in H.
    assert (kept = pairs /\ note' = note) as [-> ->]
      by (destruct (fltb_int _ _); rewrite bool_decide_eq_false_2 in H by done; cbn in H; by simplify_eq).
    split_and!; [done|done|lia].
Qed.

Lemma ls_guard_whole_symbols_witness :
  exists kept note', apply_ls_subscription_guard [("A", "T"); ("A", "Q"); ("B", "T"); ("B", "Q")]
    (Some None) (mkGuard 3 (Some [("B", "CORE")]) None) = Ok (kept, note') /\
    zlen kept <= 3 /\ kept = [("B", "T"); ("B", "Q")].
Proof.
  eexists _, _. split; [vm_compute; reflexivity|]. split; [|reflexivity].
  destruct (ls_guard_whole_symbols [("A", "T"); ("A", "Q"); ("B", "T"); ("B", "Q")] (Some None)
    (mkGuard 3 (Some [("B", "CORE")]) None) _ _ ltac:(vm_compute; reflexivity)) as (H & _); [by vm_compute|].
  exact H.
Defined.

(** LS sessions: the shards and the overflow split the distinct candidates, in
    tier order and then candidate order; no session's symbols times streams, with
    its reserve added, exceed the pairs of a session; there are as many sessions
    as configured (one when there is no candidate) and only the first carries the
    window standby. *)
Theorem ls_shards_partition symbols tiers streams active per_session reserve max_sessions shards overflow :
  plan_ls_shards symbols tiers streams active per_session reserve max_sessions = Ok (shards, overflow) ->
  concat (map lsh_symbols shards) ++ overflow = ls_symbol_order symbols tiers streams /\
  ls_symbol_order symbols tiers streams ≡ₚ fromkeys symbols /\
  (forall i j a b, (i < j)%nat ->
    ls_symbol_order symbols tiers streams !! i = Some a -> ls_symbol_order symbols tiers streams !! j = Some b ->
    tier_rank (Some tiers) a < tier_rank (Some tiers) b \/
    (tier_rank (Some tiers) a = tier_rank (Some tiers) b /\
     exists p q, (p <= q)%nat /\ fromkeys symbols !! p = Some a /\ fromkeys symbols !! q = Some b)) /\
  Forall (fun s => lsh_symbols s <> [] -> (zlen (lsh_symbols s) + lsh_reserve s) * zlen streams <= per_session) shards /\
  Forall (fun s => lsh_standby s = (lsh_index s =? 0)) shards /\
  zlen shards = (if zlen (fromkeys symbols) =? 0 then 1 else active).
Proof.
  unfold plan_ls_shards. destruct (_ =? 0) eqn:E0; [done|]. destruct (_ <? _) eqn:E1; [done|].
  destruct (negb _) eqn:E2; [done|]. destruct (reserve <? 0) eqn:E3; [done|]. intros [= H]. bprop.
  assert (Hst : streams <> []) by (intros ->; by unfold zlen in *).
  pose proof (ls_order_perm symbols tiers streams Hst) as Hperm.
  destruct (ls_blocks_spec _ _ _ _ _ _ _ _ _ H) as (B1 & B2 & B3 & B4).
  assert (Hlen : zlen (ls_symbol_order symbols tiers streams) = zlen (fromkeys symbols))
    by (unfold zlen; by rewrite Hperm).
  split_and!; [done|done| | | |].
  - intros i j a b Hij Ha Hb.
    destruct (ls_order_sorted symbols tiers streams) as [fallback HS].
    assert (Hu : forall s k, ls_symbol_order symbols tiers streams !! k = Some s ->
              exists p, fromkeys symbols !! p = Some s).
    { intros s k Hk. apply list_elem_of_lookup_1. rewrite <- Hperm. by eapply list_elem_of_lookup_2. }
    destruct (Hu _ _ Ha) as [p Hp]. destruct (Hu _ _ Hb) as [q Hq].
    assert (symbol_before tiers fallback (fromkeys symbols) a b) as [?|[? Hle]];
      [by eapply strongly_sorted_lookup; eauto|by left|right].
    rewrite !(positions_lookup _ _ _ (fromkeys_nodup _) Hp), !(positions_lookup _ _ _ (fromkeys_nodup _) Hq) in Hle.
    split; [done|]. exists p, q. cbn in Hle. split_and!; [lia|done|done].
  - eapply Forall_impl; [exact B3|]. cbn. intros s Hs Hne. specialize (Hs Hne).
    pose proof (zlen_nonneg streams). pose proof (Z.mul_div_le per_session (zlen streams)). nia.
  - eapply Forall_impl; [exact B4|]. naive_solver.
  - rewrite Hlen in B2. assert (zlen shards = Z.of_nat (length shards)) as -> by done.
    rewrite B2. destruct (zlen (fromkeys symbols) =? 0); lia.
Qed.

Definition demo_ls_plan : plan (list LsShard * list string) :=
  plan_ls_shards ["A"; "B"; "C"; "A"; "D"] [("C", "core"); ("A", "Follow")] ["T"; "Q"] 2 4 1 3.

Lemma ls_shards_partition_witness :
  demo_ls_plan = Ok ([mkLsShard 0 ["C"; "B"] ["T"; "Q"] 0 true; mkLsShard 1 ["D"] ["T"; "Q"] 1 false], ["A"]) /\
  ["C"; "B"; "D"; "A"] = ls_symbol_order ["A"; "B"; "C"; "A"; "D"] [("C", "core"); ("A", "Follow")] ["T"; "Q"].
Proof.
  split; [vm_compute; reflexivity|].
  apply (ls_shards_partition ["A"; "B"; "C"; "A"; "D"] [("C", "core"); ("A", "Follow")] ["T"; "Q"] 2 4 1 3
    [mkLsShard 0 ["C"; "B"] ["T"; "Q"] 0 true; mkLsShard 1 ["D"] ["T"; "Q"] 1 false] ["A"]).
  vm_compute. reflexivity.
Defined.
