(* ===== verification/Supervise.v ===== *)
(** * Supervision of the collector processes

    [src/orchestration/supervisor.py]: the restart circuit breaker and the process
    supervisor. [src/orchestration/trading_day_gate.py],
    [src/realtime/regular_open_watch.py] and the verdicts of
    [src/orchestration/shard_watchdog.py]. Monotonic and wall clock seconds are
    integers of one fixed tick; what the operating system answers ([poll], [wait],
    [popen]) and the calendar resolver are arguments. Logging is not modelled. *)
From Stdlib Require Import Ascii ZifyBool.
From S2P Require Import Prelude PyStr PyTime MarketClock.

(** ** Restart circuit breaker *)

Record Breaker := mkBreaker {
  bk_max : Z; bk_window : Z; bk_base : Z; bk_pmax : Z; bk_timestamps : list Z
}.

(** [RestartCircuitBreaker.__init__]; [None] is [ValueError]. *)
Definition new_breaker (max_restarts window_s probe_base probe_max : Z) : option Breaker :=
  if max_restarts <? 1 then None
  else if window_s <=? 0 then None
  else if probe_base <=? 0 then None
  else if probe_max <=? 0 then None
  else if probe_max <? probe_base then None
  else Some (mkBreaker max_restarts window_s probe_base probe_max []).

Definition set_timestamps (l : list Z) (b : Breaker) : Breaker :=
  mkBreaker (bk_max b) (bk_window b) (bk_base b) (bk_pmax b) l.

Definition prune (now : Z) (b : Breaker) : Breaker :=
  set_timestamps (List.filter (fun t => now - bk_window b <? t) (bk_timestamps b)) b.

Definition attempts (b : Breaker) : Z := zlen (bk_timestamps b).

(** Queries prune too: they return the pruned breaker. *)
Definition allow_restart (now : Z) (b : Breaker) : Breaker * bool :=
  let b' := prune now b in (b', attempts b' <? bk_max b').

Definition spacing (b : Breaker) (beyond : Z) : Z := Z.min (bk_pmax b) (bk_base b * 2 ^ beyond).

(** [max(timestamps)] of a non-empty list. *)
Definition latest (l : list Z) : Z :=
  match l with [] => 0 | x :: l' => fold_left Z.max l' x end.

Definition allow_probe (now : Z) (b : Breaker) : Breaker * bool :=
  let b' := prune now b in
  if attempts b' <? bk_max b' then (b', false)
  else (b', spacing b' (attempts b' - bk_max b') <=? now - latest (bk_timestamps b')).

Definition is_open (now : Z) (b : Breaker) : Breaker * bool :=
  let b' := prune now b in (b', bk_max b' <=? attempts b').

Definition record_restart (now : Z) (b : Breaker) : Breaker :=
  let b' := prune now b in set_timestamps (bk_timestamps b' ++ [now]) b'.

(** ** Process supervisor *)

Inductive sup_exc := SupValueError | SpawnError.

Record Supervisor := mkSup {
  sp_cmd : list string;
  sp_breaker : option Breaker;
  sp_proc : option Z;
  sp_last_exit : option Z;
  sp_open_alerted : bool;
  sp_started_at : option Z;
  sp_armed : option string
}.

Definition new_supervisor (cmd : list string) (breaker : option Breaker) : Supervisor :=
  mkSup cmd breaker None None false None None.

Definition valid_reason (reason : string) : bool :=
  match s2l reason with [] => false | c :: _ => negb (bool_decide (c = "-"%char)) end.

Definition set_armed (a : option string) (s : Supervisor) : Supervisor :=
  mkSup (sp_cmd s) (sp_breaker s) (sp_proc s) (sp_last_exit s) (sp_open_alerted s) (sp_started_at s) a.
Definition set_breaker (b : option Breaker) (s : Supervisor) : Supervisor :=
  mkSup (sp_cmd s) b (sp_proc s) (sp_last_exit s) (sp_open_alerted s) (sp_started_at s) (sp_armed s).
Definition set_alerted (a : bool) (s : Supervisor) : Supervisor :=
  mkSup (sp_cmd s) (sp_breaker s) (sp_proc s) (sp_last_exit s) a (sp_started_at s) (sp_armed s).
Definition set_exit (c : option Z) (s : Supervisor) : Supervisor :=
  mkSup (sp_cmd s) (sp_breaker s) (sp_proc s) c (sp_open_alerted s) (sp_started_at s) (sp_armed s).
Definition set_started (pid wall : Z) (s : Supervisor) : Supervisor :=
  mkSup (sp_cmd s) (sp_breaker s) (Some pid) (sp_last_exit s) (sp_open_alerted s) (Some wall) (sp_armed s).

Definition arm_restart_reason (reason : string) (s : Supervisor) : Supervisor * res sup_exc unit :=
  if negb (valid_reason reason) then (s, Raise SupValueError) else (set_armed (Some reason) s, Ok tt).

Definition next_cmd (s : Supervisor) : list string :=
  match sp_armed s with
  | None => sp_cmd s
  | Some r => sp_cmd s ++ ["--restart-reason"; r]
  end.

(** What [poll] answers for the child: [None] while it runs. *)
Definition is_running (poll : option Z) (s : Supervisor) : bool :=
  match sp_proc s, poll with Some _, None => true | _, _ => false end.

Inductive RunResult := R_started | R_running | R_restarted | R_circuit_open.

(** [self._proc = self._popen(cmd)]: [None] raises and changes nothing. The
    arguments of the call are part of the result. *)
Definition spawn (popen : option Z) (wall : Z) (restart : bool) (s : Supervisor)
    : Supervisor * res sup_exc (RunResult * list string) :=
  match popen with
  | None => (s, Raise SpawnError)
  | Some pid =>
      if restart then (set_started pid wall (set_armed None s), Ok (R_restarted, next_cmd s))
      else (set_started pid wall s, Ok (R_started, sp_cmd s))
  end.

(** A breaker that is no longer open ends the alert episode. *)
Definition close_episode (now : Z) (s : Supervisor) : Supervisor :=
  match sp_breaker s with
  | None => s
  | Some b =>
      let '(b', open) := is_open now b in
      let s' := set_breaker (Some b') s in
      if open then s' else set_alerted false s'
  end.

(** The child's state decides: leave it, start it, or restart it if allowed. *)
Definition start_or_restart (now wall : Z) (poll popen : option Z) (s : Supervisor)
    : Supervisor * res sup_exc (RunResult * list string) :=
  if is_running poll s then (s, Ok (R_running, []))
  else match sp_proc s with
       | None => spawn popen wall false s
       | Some _ =>
           let s := set_exit poll s in
           match sp_breaker s with
           | None => spawn popen wall true s
           | Some b =>
               let '(b1, fast) := allow_restart now b in
               if fast then spawn popen wall true (set_breaker (Some (record_restart now b1)) s)
               else
                 let '(b2, probe) := allow_probe now b1 in
                 if probe then spawn popen wall true (set_breaker (Some (record_restart now b2)) s)
                 else (set_breaker (Some b2) s, Ok (R_circuit_open, []))
           end
       end.

Definition ensure_running (now wall : Z) (poll popen : option Z) (s : Supervisor)
    : Supervisor * res sup_exc (RunResult * list string) :=
  start_or_restart now wall poll popen (close_episode now s).

Definition take_circuit_alert (now : Z) (s : Supervisor) : Supervisor * bool :=
  match sp_breaker s with
  | None => (s, false)
  | Some b =>
      let '(b', open) := is_open now b in
      let s' := set_breaker (Some b') s in
      if negb open then (set_alerted false s', false)
      else if sp_open_alerted s' then (s', false)
      else (set_alerted true s', true)
  end.

(** [request_stop]: whether the child was signalled. *)
Definition request_stop (poll : option Z) (s : Supervisor) : bool := is_running poll s.

Inductive StopResult := S_graceful | S_killed | S_not_running.
#[global] Instance StopResult_eq_dec : EqDecision StopResult.
Proof. solve_decision. Defined.

(** What [wait(timeout)] gives: the exit code in time, or the code after the kill;
    [after] is the [poll] that follows. *)
Record WaitEnv := mkWait { w_poll : option Z; w_in_time : bool; w_code : Z; w_after : option Z }.

Definition wait_stopped (w : WaitEnv) (s : Supervisor) : Supervisor * StopResult :=
  if negb (is_running (w_poll w) s) then (s, S_not_running)
  else
    let code := match w_after w with Some c => Some c | None => Some (w_code w) end in
    (set_exit code s, if w_in_time w then S_graceful else S_killed).

Definition stop (poll : option Z) (w : WaitEnv) (s : Supervisor) : Supervisor * StopResult :=
  if negb (request_stop poll s) then (s, S_not_running) else wait_stopped w s.

Definition stop_for_restart (reason : string) (poll0 poll : option Z) (w : WaitEnv) (s : Supervisor)
    : Supervisor * res sup_exc StopResult :=
  if negb (valid_reason reason) then (s, Raise SupValueError)
  else if negb (is_running poll0 s) then (s, Ok S_not_running)
  else
    let '(s', r) := stop poll w s in
    match r with
    | S_not_running => (s', Ok r)
    | _ => let '(s'', a) := arm_restart_reason reason s' in
           (s'', match a with Ok _ => Ok r | Raise e => Raise e end)
    end.

(** [stop_supervisors]: every child is signalled first (its [poll] at that moment
    is [p]), then awaited for what is left of the shared deadline at its clock
    read; the outcome of a wait depends on its timeout. *)
Definition signal_all (polls : list (option Z)) (sups : list Supervisor) : list bool :=
  zip_with request_stop polls sups.

Fixpoint wait_all (deadline : Z) (sups : list Supervisor) (waits : list (Z * (Z -> WaitEnv)))
    : list (Supervisor * (Z * StopResult)) :=
  match sups, waits with
  | s :: sups', (clock, wait) :: waits' =>
      let remaining := Z.max 0 (deadline - clock) in
      let '(s', r) := wait_stopped (wait remaining) s in
      (s', (remaining, r)) :: wait_all deadline sups' waits'
  | _, _ => []
  end.

Definition count_result (r : StopResult) (rs : list StopResult) : Z :=
  zlen (List.filter (fun x => bool_decide (x = r)) rs).

Record StopCounts := mkCounts { n_graceful : Z; n_killed : Z; n_not_running : Z }.

Definition stop_supervisors (start deadline_s : Z) (polls : list (option Z)) (waits : list (Z * (Z -> WaitEnv)))
    (sups : list Supervisor) : list bool * list Supervisor * list Z * StopCounts :=
  let signals := signal_all polls sups in
  let done := wait_all (start + deadline_s) sups waits in
  let rs := map (fun x => snd (snd x)) done in
  (signals, map fst done, map (fun x => fst (snd x)) done,
   mkCounts (count_result S_graceful rs) (count_result S_killed rs) (count_result S_not_running rs)).

(** ** Trading-day gate *)

Inductive TradingDayStatus := TD_BUSINESS | TD_HOLIDAY | TD_UNKNOWN.
#[global] Instance TradingDayStatus_eq_dec : EqDecision TradingDayStatus.
Proof. solve_decision. Defined.

Record TradingDay := mkTradingDay { td_date : Z; td_is_business_day : bool }.
Record TradingDayView := mkView { tv_date : Z; tv_status : TradingDayStatus; tv_day : option TradingDay }.

Definition UNKNOWN_RETRY_INTERVAL : Z := 30 * 60 * us_per_s.

(** [_date], [_view] and [_last_attempt] (an instant), set together. *)
Record Gate := mkGate { gt_retry : Z; gt_state : option (Z * TradingDayView * Z) }.

Section TradingGate.
(** The calendar resolver, with the time it is asked at. *)
Variable resolver : Z -> Z -> option TradingDay.

Definition resolve_view (today now : Z) : TradingDayView :=
  match resolver today now with
  | None => mkView today TD_UNKNOWN None
  | Some day =>
      if negb (td_date day =? today) then mkView today TD_UNKNOWN None
      else if td_is_business_day day then mkView today TD_BUSINESS (Some day)
      else mkView today TD_HOLIDAY (Some day)
  end.

Definition gate_resolve (today now : Z) (g : Gate) : Gate * TradingDayView :=
  let v := resolve_view today now in (mkGate (gt_retry g) (Some (today, v, now)), v).

(** [view]; the outer [None] is the [ValueError] of a naive time, the flag tells
    whether the resolver was called. *)
Definition gate_view (today : Z) (now : datetime) (g : Gate) : option (Gate * TradingDayView * bool) :=
  match utcoff now with
  | None => None
  | Some _ =>
      let t := instant now in
      match gt_state g with
      | None => Some (gate_resolve today t g, true)
      | Some (d, v, last) =>
          if negb (d =? today) then Some (gate_resolve today t g, true)
          else if negb (bool_decide (tv_status v = TD_UNKNOWN)) then Some (g, v, false)
          else if gt_retry g <=? t - last then Some (gate_resolve today t g, true)
          else Some (g, v, false)
      end
  end.
End TradingGate.

(** ** Regular open watch *)

Record OpenWatch := mkWatch {
  ow_anchors : SessionAnchors;
  ow_silence_limit : Z; ow_open_grace : Z; ow_alert_after : Z; ow_standby_lead : Z; ow_standby_hold : Z;
  ow_first_trade_seen : bool; ow_alerted : bool
}.

(** [__init__]; [None] is [ValueError]. Durations are microseconds. *)
Definition new_watch (a : SessionAnchors) (silence_limit open_grace alert_after standby_lead standby_hold : Z)
    : option OpenWatch :=
  if (silence_limit <=? 0) || (alert_after <=? 0) then None
  else if open_grace <? alert_after then None
  else if (standby_lead <=? 0) || (standby_hold <=? 0) then None
  else Some (mkWatch a silence_limit open_grace alert_after standby_lead standby_hold false false).

Definition since_open (w : OpenWatch) (moment : datetime) : Z :=
  let local := astimezone_kst moment in
  instant local - instant (combine_kst (date_of local) (regular_open (ow_anchors w))).

(** [observe]; [received] is the frame's wall time, [None] when out of range. *)
Definition observe (w : OpenWatch) (stream : string) (received : option datetime) : OpenWatch :=
  if ow_first_trade_seen w || negb (bool_decide (stream = "H0STCNT0")) then w
  else match received with
       | None => w
       | Some moment =>
           if since_open w moment <? 0 then w
           else mkWatch (ow_anchors w) (ow_silence_limit w) (ow_open_grace w) (ow_alert_after w)
                  (ow_standby_lead w) (ow_standby_hold w) true (ow_alerted w)
       end.

Definition standby_window (w : OpenWatch) (now : datetime) : bool :=
  (- ow_standby_lead w <=? since_open w now) && (since_open w now <? ow_standby_hold w).

(** [silence_limit]: the watch, the limit, and whether the alert was logged. *)
Definition silence_limit (w : OpenWatch) (now : datetime) : OpenWatch * option Z * bool :=
  let local := time_of (astimezone_kst now) in
  if negb ((regular_open (ow_anchors w) <=? local) && (local <? regular_close (ow_anchors w))) then (w, None, false)
  else if ow_first_trade_seen w then (w, Some (ow_silence_limit w), false)
  else
    let s := since_open w now in
    if ow_open_grace w <=? s then (w, Some (ow_silence_limit w), false)
    else
      let alert := (ow_alert_after w <=? s) && negb (ow_alerted w) in
      let w' := if alert then mkWatch (ow_anchors w) (ow_silence_limit w) (ow_open_grace w) (ow_alert_after w)
                                (ow_standby_lead w) (ow_standby_hold w) (ow_first_trade_seen w) true
                else w in
      (w', Some (Z.max (ow_silence_limit w) (ow_open_grace w - s)), alert).

(** ** Shard watchdog *)

Inductive ShardVerdict :=
| SV_OK | SV_STALE | SV_VENUE_WIDE_SILENCE | SV_BUDGET_EXHAUSTED | SV_OUTSIDE_WINDOW | SV_NOT_RUNNING.
#[global] Instance ShardVerdict_eq_dec : EqDecision ShardVerdict.
Proof. solve_decision. Defined.

Record ShardObservation := mkObs {
  so_key : string; so_venue : string; so_running : bool;
  so_started_at : option Z; so_last_journal : option Z
}.
Record ShardDecision := mkDecision {
  sd_key : string; sd_verdict : ShardVerdict; sd_silent : option Z; sd_limit : Z; sd_restart : bool
}.

Record ShardWatchdog := mkWatchdog {
  wd_limit : Z; wd_max_restarts : Z; wd_counts : list (string * Z * Z)
}.

Definition new_watchdog (limit_s max_restarts_per_day : Z) : option ShardWatchdog :=
  if limit_s <=? 0 then None else if max_restarts_per_day <? 0 then None
  else Some (mkWatchdog limit_s max_restarts_per_day []).

Definition used (w : ShardWatchdog) (key : string) (day : Z) : Z := default 0 (dget (wd_counts w) (key, day)).

Definition record_shard_restart (w : ShardWatchdog) (key : string) (day : Z) : ShardWatchdog * Z :=
  let total := used w key day + 1 in
  (mkWatchdog (wd_limit w) (wd_max_restarts w) (dset (wd_counts w) (key, day) total), total).

Definition later (baseline : Z) (t : option Z) : Z :=
  match t with Some x => if baseline <? x then x else baseline | None => baseline end.

Definition shard_age (now_wall window_open_wall : Z) (o : ShardObservation) : Z :=
  Z.max 0 (now_wall - later (later window_open_wall (so_last_journal o)) (so_started_at o)).

Section Evaluate.
Variables (w : ShardWatchdog) (obs : list ShardObservation) (now_wall window_open_wall day : Z).

(** The [silent] dict: a later observation of the same key overwrites. *)
Definition silent_ages : list (string * Z) :=
  fold_left (fun d o => if so_running o then dset d (so_key o) (shard_age now_wall window_open_wall o) else d) obs [].

Definition stale_keys : list string :=
  map so_key (List.filter (fun o => so_running o && (wd_limit w <? shard_age now_wall window_open_wall o)) obs).

Definition running_in (venue : string) : list string :=
  map so_key (List.filter (fun o => so_running o && bool_decide (so_venue o = venue)) obs).
Definition stale_in (venue : string) : list string :=
  List.filter (fun k => bool_decide (k ∈ stale_keys)) (running_in venue).

Definition venue_wide : list string :=
  concat (map (fun v => if (2 <=? zlen (running_in v)) && (zlen (stale_in v) =? zlen (running_in v))
                        then running_in v else [])
              (fromkeys (map so_venue (List.filter so_running obs)))).

Definition decide_one (o : ShardObservation) : ShardDecision :=
  let d v s r := mkDecision (so_key o) v s (wd_limit w) r in
  let silent := dget silent_ages (so_key o) in
  if negb (so_running o) then d SV_NOT_RUNNING None false
  else if bool_decide (so_key o ∈ venue_wide) then d SV_VENUE_WIDE_SILENCE silent false
  else if bool_decide (so_key o ∈ stale_keys) then
    if wd_max_restarts w <=? used w (so_key o) day then d SV_BUDGET_EXHAUSTED silent false
    else d SV_STALE silent true
  else d SV_OK silent false.

Definition evaluate (in_window : bool) : list ShardDecision :=
  if negb in_window
  then map (fun o => mkDecision (so_key o) SV_OUTSIDE_WINDOW None (wd_limit w) false) obs
  else map decide_one obs.
End Evaluate.

(** ** Lemmas: restart storms *)

(** What the supervisor meets over time. *)
Inductive SupEvent :=
| EvEnsure (now wall : Z) (poll popen : option Z)
| EvAlert (now : Z).

Definition ev_now (e : SupEvent) : Z := match e with EvEnsure now _ _ _ | EvAlert now => now end.

(** A restart attempt: the child existed and was spawned again, or failed to be. *)
Definition attempted (s : Supervisor) (r : res sup_exc (RunResult * list string)) : bool :=
  match sp_proc s, r with
  | Some _, Ok (R_restarted, _) | Some _, Raise SpawnError => true
  | _, _ => false
  end.

(** The supervisor with the times of all its restart attempts. *)
Definition sup_event (e : SupEvent) (x : Supervisor * list Z) : Supervisor * list Z :=
  let '(s, history) := x in
  match e with
  | EvEnsure now wall poll popen =>
      let '(s', r) := ensure_running now wall poll popen s in
      (s', if attempted s r then history ++ [now] else history)
  | EvAlert now => (fst (take_circuit_alert now s), history)
  end.

Definition sup_run (s : Supervisor) (events : list SupEvent) : Supervisor * list Z :=
  fold_left (fun x e => sup_event e x) events (s, []).

Fixpoint events_forward (t0 : Z) (events : list SupEvent) : Prop :=
  match events with [] => True | e :: es => t0 <= ev_now e /\ events_forward (ev_now e) es end.

Definition since (c : Z) (l : list Z) : list Z := List.filter (fun t => c <? t) l.

(** The rule of the docstring for an attempt at [x] after the attempts [before]. *)
Definition attempt_allowed (b : Breaker) (before : list Z) (x : Z) : Prop :=
  let recent := since (x - bk_window b) before in
  zlen recent < bk_max b \/ spacing b (zlen recent - bk_max b) <= x - latest recent.

Definition history_allowed (b : Breaker) (history : list Z) : Prop :=
  forall before x after, history = before ++ x :: after -> attempt_allowed b before x.

Definition breaker_ok (b : Breaker) : Prop :=
  1 <= bk_max b /\ 0 < bk_window b /\ 0 < bk_base b /\ bk_base b <= bk_pmax b.

Definition same_limits (b b' : Breaker) : Prop :=
  bk_max b' = bk_max b /\ bk_window b' = bk_window b /\ bk_base b' = bk_base b /\ bk_pmax b' = bk_pmax b.

(** The breaker of [s] remembers the attempts after some point before its window. *)
Definition sup_inv (b0 : Breaker) (now : Z) (x : Supervisor * list Z) : Prop :=
  exists b c, sp_breaker (fst x) = Some b /\ same_limits b0 b /\ c <= now - bk_window b0 /\
    bk_timestamps b = since c (snd x) /\ history_allowed b0 (snd x).

Lemma since_since c c' l : c <= c' -> since c' (since c l) = since c' l.
Proof.
  intros Hc. unfold since. induction l as [|x l IH]; [done|]. cbn.
  destruct (c <? x) eqn:E; cbn; destruct (c' <? x) eqn:E'; bprop; try lia; by rewrite IH.
Qed.

Lemma history_snoc b h x : history_allowed b h -> attempt_allowed b h x -> history_allowed b (h ++ [x]).
Proof.
  intros Hh Hx before y after Heq. destruct (list_eq_nil_dec after) as [->|Hne].
  - apply app_inj_tail in Heq as [-> ->]. done.
  - destruct (exists_last Hne) as (a & z & ->). rewrite app_comm_cons, app_assoc in Heq.
    apply app_inj_tail in Heq as [-> _]. by eapply Hh.
Qed.

Lemma prune_inv b0 now b c h :
  same_limits b0 b -> c <= now - bk_window b0 -> bk_timestamps b = since c h ->
  same_limits b0 (prune now b) /\ bk_timestamps (prune now b) = since (now - bk_window b0) h.
Proof.
  intros (H1 & H2 & H3 & H4) Hc Ht. split; [done|]. unfold prune. cbn. rewrite H2, Ht. by apply since_since.
Qed.

Lemma prune_prune now b : prune now (prune now b) = prune now b.
Proof.
  unfold prune, set_timestamps. cbn. f_equal. apply (since_since (now - bk_window b)). lia.
Qed.

Lemma record_prune now b : record_restart now (prune now b) = record_restart now b.
Proof. unfold record_restart. by rewrite prune_prune. Qed.

Lemma close_episode_fields now s b :
  sp_breaker s = Some b ->
  sp_proc (close_episode now s) = sp_proc s /\ sp_armed (close_episode now s) = sp_armed s /\
  sp_cmd (close_episode now s) = sp_cmd s /\ sp_breaker (close_episode now s) = Some (prune now b).
Proof. unfold close_episode. intros ->. cbn. by destruct (_ <=? _). Qed.

(** What [ensure_running] does to a supervisor with a breaker. *)
Lemma ensure_running_cases now wall poll popen s b :
  sp_breaker s = Some b ->
  let '(s', r) := ensure_running now wall poll popen s in
  (attempted s r = false /\ sp_breaker s' = Some (prune now b)) \/
  (attempted s r = true /\ sp_breaker s' = Some (record_restart now b) /\
   (attempts (prune now b) < bk_max b \/
    spacing b (attempts (prune now b) - bk_max b) <= now - latest (bk_timestamps (prune now b)))).
Proof.
  intros Hb. unfold ensure_running, start_or_restart.
  destruct (close_episode_fields now s b Hb) as (Hp1 & _ & _ & Hb1).
  set (s1 := close_episode now s) in *. clearbody s1. unfold is_running. rewrite Hp1.
  destruct (sp_proc s) as [pid|] eqn:Ep.
  2:{ unfold spawn. destruct popen; left; unfold attempted; by rewrite Ep. }
  destruct poll as [code|]; [|left; unfold attempted; by rewrite Ep].
  cbn [sp_breaker set_exit]. rewrite Hb1. unfold allow_restart. rewrite prune_prune.
  destruct (attempts (prune now b) <? bk_max (prune now b)) eqn:Ef; bprop; cbn in Ef.
  - unfold spawn. destruct popen; right; unfold attempted; rewrite Ep; cbn; rewrite record_prune;
      split_and!; auto.
  - unfold allow_probe. rewrite prune_prune. rewrite (proj2 (Z.ltb_ge _ _)) by done.
    destruct (_ <=? now - _) eqn:Epr; bprop; [|left; unfold attempted; by rewrite Ep].
    unfold spawn. destruct popen; right; unfold attempted; rewrite Ep; cbn; rewrite record_prune;
      split_and!; auto.
Qed.

Lemma sup_event_inv b0 now e x :
  breaker_ok b0 -> sup_inv b0 now x -> now <= ev_now e -> sup_inv b0 (ev_now e) (sup_event e x).
Proof.
  intros (_ & Hw & _) (b & c & Hb & Hsame & Hc & Ht & Hh) Hn. destruct x as [s h]. cbn in Hb, Ht, Hh.
  destruct (prune_inv b0 (ev_now e) b c h Hsame ltac:(lia) Ht) as [Hs' Ht'].
  destruct e as [n wall poll popen|n]; cbn [ev_now sup_event] in *.
  - pose proof (ensure_running_cases n wall poll popen s b Hb) as H.
    destruct (ensure_running n wall poll popen s) as [s' r].
    destruct H as [[Ha Hb']|(Ha & Hb' & Hok)]; rewrite Ha.
    + exists (prune n b), (n - bk_window b0). cbn. split_and!; (done || lia).
    + exists (record_restart n b), (n - bk_window b0). cbn [fst snd]. split_and!; [done|done|lia| |].
      * unfold record_restart. cbn [bk_timestamps set_timestamps]. rewrite Ht'. unfold since.
        rewrite List.filter_app. cbn. by rewrite (proj2 (Z.ltb_lt _ _)) by lia.
      * apply history_snoc; [done|]. unfold attempt_allowed. cbv zeta. rewrite <- Ht'.
        destruct Hsame as (H1 & H2 & H3 & H4). unfold attempts in Hok. unfold spacing in *.
        rewrite H1, H3, H4 in Hok. exact Hok.
  - exists (prune n b), (n - bk_window b0). cbn [fst snd]. split_and!; try (done || lia).
    unfold take_circuit_alert. rewrite Hb. cbn [is_open].
    destruct (negb _); [done|]. by destruct (sp_open_alerted _).
Qed.

Lemma sup_run_inv b0 events : forall now x,
  breaker_ok b0 -> sup_inv b0 now x -> events_forward now events ->
  exists now', sup_inv b0 now' (fold_left (fun x e => sup_event e x) events x).
Proof.
  induction events as [|e events IH]; intros now x Hb HI Hf; cbn; [by exists now|].
  destruct Hf as [Hn Hf]. eapply IH; [done| |exact Hf]. by eapply sup_event_inv.
Qed.

Lemma latest_acc l : forall a, a <= fold_left Z.max l a /\ forall y, y ∈ l -> y <= fold_left Z.max l a.
Proof.
  induction l as [|z l IH]; intros a; cbn; [split; [lia|set_solver]|].
  destruct (IH (Z.max a z)) as [H1 H2]. split; [lia|].
  intros y [->|Hy]%elem_of_cons; [lia|by apply H2].
Qed.

Lemma latest_ge l x : x ∈ l -> x <= latest l.
Proof.
  destruct l as [|a l]; [set_solver|]. cbn.
  destruct (latest_acc l a) as [H1 H2]. intros [->|Hx]%elem_of_cons; [done|by apply H2].
Qed.

Lemma since_elem c l x : x ∈ since c l <-> x ∈ l /\ c < x.
Proof. unfold since. by rewrite filter_elem, Z.ltb_lt. Qed.

Lemma since_mono c c' l : c <= c' -> zlen (since c' l) <= zlen (since c l).
Proof.
  intros Hc. unfold zlen. apply inj_le, sublist_length. rewrite <- (since_since c c') by done.
  apply filter_sublist.
Qed.

(** Attempts beyond the budget inside one window are at least the base interval
    apart, so they cannot be many. *)
Lemma history_bound b history : forall c,
  breaker_ok b -> history_allowed b history -> Forall (fun x => x - bk_window b <= c) history ->
  bk_max b <= zlen (since c history) ->
  exists y, y ∈ since c history /\ (zlen (since c history) - bk_max b) * bk_base b + 1 <= y - c.
Proof.
  induction history as [|x history IH] using rev_ind; intros c Hb Hh HF Hn.
  { destruct Hb as (? & _). cbn in Hn. unfold zlen in Hn. cbn in Hn. lia. }
  apply Forall_app in HF as [HF Hx]. apply Forall_cons in Hx as [Hx _].
  assert (Hh' : history_allowed b history).
  { intros before y after ->. apply (Hh before y (after ++ [x])). by rewrite <- app_assoc. }
  assert (Hrule : attempt_allowed b history x) by by apply (Hh history x []).
  assert (Hsn : since c (history ++ [x]) = since c history ++ (if c <? x then [x] else []))
    by (unfold since; rewrite List.filter_app; cbn; by destruct (c <? x)).
  rewrite Hsn in Hn |- *. destruct (c <? x) eqn:Ec; [|rewrite app_nil_r in *; by apply IH]. bprop.
  assert (Hlen : zlen (since c history ++ [x]) = zlen (since c history) + 1)
    by (unfold zlen; rewrite length_app; cbn; lia).
  rewrite Hlen in Hn |- *. exists x. split; [set_solver|].
  destruct (decide (zlen (since c history) < bk_max b)) as [Hlt|Hge];
    [replace (zlen (since c history) + 1 - bk_max b) with 0 by lia; lia|].
  destruct (IH c Hb Hh' HF) as (y & Hy & Hyc); [lia|].
  unfold attempt_allowed in Hrule. cbv zeta in Hrule.
  pose proof (since_mono (x - bk_window b) c history Hx) as Hm.
  destruct Hrule as [Hr|Hr]; [lia|].
  assert (y <= latest (since (x - bk_window b) history)).
  { apply latest_ge. apply since_elem in Hy as [? ?]. apply since_elem. split; [done|lia]. }
  destruct Hb as (H1 & H2 & H3 & H4).
  assert (bk_base b <= spacing b (zlen (since (x - bk_window b) history) - bk_max b)); [|nia].
  unfold spacing. apply Z.min_glb; [done|].
  pose proof (Z.pow_pos_nonneg 2 (zlen (since (x - bk_window b) history) - bk_max b)). nia.
Qed.

(** ** Properties *)

(** C34. No restart storm: whatever the child and the operating system do, every
    restart attempt comes either while fewer than the budgeted attempts lie in the
    window, or after the exponential spacing since the latest one; so at any time
    the attempts inside one window are at most the budget plus one per base
    interval. *)
Theorem restart_storm_bounded cmd max_restarts window probe_base probe_max b t0 events s history :
  new_breaker max_restarts window probe_base probe_max = Some b -> events_forward t0 events ->
  sup_run (new_supervisor cmd (Some b)) events = (s, history) ->
  history_allowed b history /\
  forall t, Forall (fun x => x <= t) history ->
    zlen (since (t - window) history) <= max_restarts + window / probe_base.
Proof.
  unfold new_breaker. intros Hnew Hf Hrun. repeat (hmatch Hnew; [done|]). injection Hnew as Hbeq.
  bprop. subst b. set (b := mkBreaker _ _ _ _ _) in *.
  assert (Hb : breaker_ok b) by (unfold breaker_ok; cbn; lia).
  destruct (sup_run_inv b events t0 (new_supervisor cmd (Some b), [])) as (now & b' & c & _ & _ & _ & _ & Hh);
    [done| |done|].
  { exists b, (t0 - window). cbn. split_and!; try (done || lia). intros [|? ?] ? ? [=]. }
  unfold sup_run in Hrun. rewrite Hrun in Hh. cbn in Hh. split; [done|].
  intros t Ht. destruct (decide (max_restarts <= zlen (since (t - window) history))) as [Hge|]; [|
    assert (0 <= window / probe_base) by (apply Z.div_pos; lia); lia].
  destruct (history_bound b history (t - window) Hb Hh) as (y & Hy & Hle); [|done|].
  - eapply Forall_impl; [exact Ht|]. cbn. lia.
  - apply since_elem in Hy as [Hy _]. rewrite Forall_forall in Ht. specialize (Ht y Hy). cbn in Hle.
    assert (zlen (since (t - window) history) - max_restarts <= window / probe_base); [|lia].
    apply Z.div_le_lower_bound; lia.
Qed.

Definition demo_sup_events : list SupEvent :=
  EvEnsure 0 0 None (Some 1)
  :: map (fun t => EvEnsure t t (Some 1) (Some 2)) [1; 2; 3; 4; 62; 63; 120; 184; 400].

Lemma restart_storm_bounded_witness :
  zlen (since (400 - 300) (snd (sup_run (new_supervisor ["collect"] (Some (mkBreaker 2 300 60 300 [])))
    demo_sup_events))) <= 2 + 300 / 60.
Proof.
  destruct (restart_storm_bounded ["collect"] 2 300 60 300 (mkBreaker 2 300 60 300 []) 0 demo_sup_events
    (fst (sup_run (new_supervisor ["collect"] (Some (mkBreaker 2 300 60 300 []))) demo_sup_events))
    (snd (sup_run (new_supervisor ["collect"] (Some (mkBreaker 2 300 60 300 []))) demo_sup_events)))
    as [_ H].
  - reflexivity.
  - vm_compute. repeat split; discriminate.
  - apply surjective_pairing.
  - apply H. vm_compute. repeat constructor; discriminate.
Defined.

Lemma prune_ok now b : breaker_ok b -> breaker_ok (prune now b).
Proof. done. Qed.

Lemma latest_bound l x : l <> [] -> Forall (fun t => t <= x) l -> latest l <= x.
Proof.
  assert (Hf : forall l a, a <= x -> Forall (fun t => t <= x) l -> fold_left Z.max l a <= x).
  { intros l0. induction l0 as [|z l0 IH]; intros a Ha HF; cbn; [done|].
    apply Forall_cons in HF as [Hz HF]. apply IH; [lia|done]. }
  destruct l as [|a l]; [done|]. intros _ [Ha HF]%Forall_cons. cbn. by apply Hf.
Qed.

Lemma since_bound c l x : Forall (fun t => t <= x) l -> Forall (fun t => t <= x) (since c l).
Proof. rewrite !Forall_forall. intros H t [Ht _]%since_elem. auto. Qed.

(** A dead child is not abandoned: when a cycle finds the circuit open, any
    cycle at least the largest probe interval later that still finds the child dead
    restarts it, passing on the restart reason armed meanwhile, and disarms it. *)
Theorem circuit_open_recovers b s now wall poll popen s' args now' wall' code pid :
  sp_breaker s = Some b -> breaker_ok b -> Forall (fun t => t <= now) (bk_timestamps b) ->
  ensure_running now wall poll popen s = (s', Ok (R_circuit_open, args)) ->
  now + bk_pmax b <= now' ->
  exists s'', ensure_running now' wall' (Some code) (Some pid) s' = (s'', Ok (R_restarted, next_cmd s')) /\
    sp_proc s'' = Some pid /\ sp_armed s'' = None /\ sp_last_exit s'' = Some code.
Proof.
  intros Hb Hok HF H Hnow.
  assert (Hs' : sp_breaker s' = Some (prune now b) /\ exists p, sp_proc s' = Some p).
  { pose proof (ensure_running_cases now wall poll popen s b Hb) as Hc. rewrite H in Hc.
    unfold ensure_running, start_or_restart in H.
    destruct (close_episode_fields now s b Hb) as (Hp1 & _ & _ & Hb1).
    set (s1 := close_episode now s) in *. clearbody s1. unfold is_running in H. rewrite Hp1 in H.
    destruct (sp_proc s) as [p|] eqn:Ep; [|unfold spawn in H; by destruct popen].
    unfold attempted in Hc. rewrite Ep in Hc.
    destruct Hc as [[_ ->]|(? & _)]; [split; [done|]|done].
    destruct poll; [|done]. cbn [sp_breaker set_exit] in H. rewrite Hb1 in H.
    unfold allow_restart, allow_probe, spawn in H.
    repeat (hmatch H; simplify_eq; try done); cbn; eauto. }
  destruct Hs' as (Hb' & p & Hp'). clear H.
  set (b1 := prune now b) in *.
  unfold ensure_running, start_or_restart.
  destruct (close_episode_fields now' s' b1 Hb') as (Hp1 & Ha1 & Hcmd1 & Hb1).
  assert (Hnext : next_cmd (close_episode now' s') = next_cmd s') by (unfold next_cmd; by rewrite Ha1, Hcmd1).
  set (s1 := close_episode now' s') in *. clearbody s1. unfold is_running. rewrite Hp1, Hp'.
  cbn [sp_breaker set_exit]. rewrite Hb1. unfold allow_restart. rewrite prune_prune.
  assert (Hspawn : forall br, exists s'',
    spawn (Some pid) wall' true (set_breaker br (set_exit (Some code) s1))
    = (s'', Ok (R_restarted, next_cmd s')) /\
    sp_proc s'' = Some pid /\ sp_armed s'' = None /\ sp_last_exit s'' = Some code).
  { intros br. unfold spawn. rewrite <- Hnext. eexists. split; [reflexivity|done]. }
  destruct (attempts (prune now' b1) <? bk_max (prune now' b1)) eqn:Ef; [apply Hspawn|].
  unfold allow_probe. rewrite prune_prune, Ef.
  rewrite (proj2 (Z.leb_le _ _)); [apply Hspawn|].
  etransitivity; [apply Z.le_min_l|]. cbn [bk_pmax prune set_timestamps b1].
  assert (latest (bk_timestamps (prune now' b1)) <= now); [|cbn in *; lia].
  apply latest_bound.
  - intros Hnil. unfold attempts in Ef. rewrite Hnil in Ef. cbn in Ef.
    destruct Hok as (? & _). bprop. unfold zlen in Ef. cbn in Ef. lia.
  - unfold prune. cbn. by repeat apply since_bound.
Qed.

Lemma circuit_open_recovers_witness :
  exists s'', ensure_running 400 400 (Some 1) (Some 9)
    (mkSup ["collect"] (Some (mkBreaker 1 300 60 300 [100])) (Some 7) (Some 1) false (Some 0) (Some "stale"))
    = (s'', Ok (R_restarted, ["collect"; "--restart-reason"; "stale"])).
Proof.
  destruct (circuit_open_recovers (mkBreaker 1 300 60 300 [100])
    (mkSup ["collect"] (Some (mkBreaker 1 300 60 300 [100])) (Some 7) None false (Some 0) (Some "stale"))
    100 100 (Some 1) (Some 8)
    (mkSup ["collect"] (Some (mkBreaker 1 300 60 300 [100])) (Some 7) (Some 1) false (Some 0) (Some "stale"))
    [] 400 400 1 9) as (s'' & H & _).
  - reflexivity.
  - vm_compute. repeat split; discriminate.
  - repeat constructor; vm_compute; discriminate.
  - vm_compute. reflexivity.
  - vm_compute. discriminate.
  - exists s''. exact H.
Defined.

(** ** The trading-day gate over a day *)

Fixpoint gate_run (resolver : Z -> Z -> option TradingDay) (g : Gate) (queries : list (Z * datetime))
    : option (list (Z * TradingDayView * bool)) :=
  match queries with
  | [] => Some []
  | (today, now) :: queries' =>
      '(g', v, called) ← gate_view resolver today now g;
      log ← gate_run resolver g' queries';
      Some ((instant now, v, called) :: log)
  end.

(** How two answers of one day relate, the first given before the second. *)
Definition answers_agree (retry : Z) (a b : Z * TradingDayView * bool) : Prop :=
  let '(t1, v1, called1) := a in
  let '(t2, v2, called2) := b in
  (tv_status v1 <> TD_UNKNOWN -> v2 = v1 /\ called2 = false) /\
  (called1 = true -> called2 = true -> retry <= t2 - t1).

Lemma gate_run_day resolver retry today : forall queries v last log,
  0 <= retry -> Forall (fun q => fst q = today) queries -> tv_date v = today ->
  gate_run resolver (mkGate retry (Some (today, v, last))) queries = Some log ->
  Forall (answers_agree retry (last, v, true)) log /\ StronglySorted (answers_agree retry) log /\
  Forall (fun e => tv_date (snd (fst e)) = today) log.
Proof.
  induction queries as [|[d now] queries IH]; intros v last log Hr HF Hv H; cbn in H.
  { simplify_eq. repeat constructor. }
  apply Forall_cons in HF as [Hd HF]. cbn in Hd. subst d.
  unfold gate_view in H. destruct (utcoff now); [|done]. cbn [gt_state] in H.
  rewrite Z.eqb_refl in H. cbn [negb gt_retry] in H.
  destruct (decide (tv_status v = TD_UNKNOWN)) as [Hu|Hu].
  - rewrite bool_decide_eq_true_2 in H by done. cbn [negb] in H.
    destruct (retry <=? instant now - last) eqn:E; bprop; cbn in H.
    + apply bind_Some in H as (rest & Hrest & [= <-]).
      assert (Hdate : tv_date (resolve_view resolver today (instant now)) = today).
      { unfold resolve_view. repeat case_match; done. }
      destruct (IH _ _ _ Hr HF Hdate Hrest) as (H1 & H2 & H3).
      split_and!; [|by constructor|by constructor].
      constructor; [cbn; split; [done|lia]|].
      eapply Forall_impl; [exact H1|]. intros [[t2 v2] c2]. cbn. intros [Ha Hb]. split; [done|].
      intros _ Hc. specialize (Hb eq_refl Hc). lia.
    + apply bind_Some in H as (rest & Hrest & [= <-]).
      destruct (IH _ _ _ Hr HF Hv Hrest) as (H1 & H2 & H3).
      split_and!; [constructor; [done|done]| |by constructor].
      constructor; [done|]. eapply Forall_impl; [exact H1|]. intros [[t2 v2] c2]. cbn. naive_solver.
  - rewrite bool_decide_eq_false_2 in H by done. cbn in H.
    apply bind_Some in H as (rest & Hrest & [= <-]).
    destruct (IH _ _ _ Hr HF Hv Hrest) as (H1 & H2 & H3).
    split_and!; [constructor; [done|done]| |by constructor].
    constructor; [done|]. eapply Forall_impl; [exact H1|]. intros [[t2 v2] c2]. cbn. naive_solver.
Qed.

(** A resolved trading day is final and an unresolved one is asked for
    sparingly: over all views of one date, each is about that date; after a business
    or holiday answer every later view is the same without asking again; and any
    two calls of the resolver are at least the retry interval apart. *)
Theorem gate_final_and_paced resolver retry today queries log :
  0 <= retry -> Forall (fun q => fst q = today) queries ->
  gate_run resolver (mkGate retry None) queries = Some log ->
  StronglySorted (answers_agree retry) log /\ Forall (fun e => tv_date (snd (fst e)) = today) log.
Proof.
  intros Hr HF H. destruct queries as [|[d now] queries]; cbn in H; [simplify_eq; repeat constructor|].
  apply Forall_cons in HF as [Hd HF]. cbn in Hd. subst d.
  unfold gate_view in H. destruct (utcoff now); [|done]. cbn in H.
  apply bind_Some in H as (rest & Hrest & [= <-]).
  assert (Hdate : tv_date (resolve_view resolver today (instant now)) = today).
  { unfold resolve_view. repeat case_match; done. }
  destruct (gate_run_day _ _ _ _ _ _ _ Hr HF Hdate Hrest) as (H1 & H2 & H3).
  split; by constructor.
Qed.

Lemma gate_final_and_paced_witness :
  exists log, gate_run (fun d t => if t <? 2000 then None else Some (mkTradingDay d true)) (mkGate 1000 None)
    (map (fun t => (20000, DT t (Some 0))) [0; 500; 1000; 2000; 2500]) = Some log /\
    StronglySorted (answers_agree 1000) log.
Proof.
  eexists. split; [vm_compute; reflexivity|].
  apply (gate_final_and_paced (fun d t => if t <? 2000 then None else Some (mkTradingDay d true)) 1000 20000
    (map (fun t => (20000, DT t (Some 0))) [0; 500; 1000; 2000; 2500])).
  - discriminate.
  - repeat constructor.
  - vm_compute. reflexivity.
Defined.

(** ** The open watch over a day *)

Inductive WatchEvent := WObserve (stream : string) (received : option datetime) | WPoll (now : datetime).

(** The watch and the number of delayed-open alerts so far. *)
Definition watch_event (x : OpenWatch * Z) (e : WatchEvent) : OpenWatch * Z :=
  let '(w, alerts) := x in
  match e with
  | WObserve stream received => (observe w stream received, alerts)
  | WPoll now => let '(w', _, alert) := silence_limit w now in (w', alerts + if alert then 1 else 0)
  end.

Definition watch_inv (w0 : OpenWatch) (x : OpenWatch * Z) : Prop :=
  snd x = (if ow_alerted (fst x) then 1 else 0) /\ ow_anchors (fst x) = ow_anchors w0 /\
  ow_silence_limit (fst x) = ow_silence_limit w0 /\ ow_open_grace (fst x) = ow_open_grace w0 /\
  ow_alert_after (fst x) = ow_alert_after w0.

Lemma watch_event_inv w0 x e : watch_inv w0 x -> watch_inv w0 (watch_event x e).
Proof.
  destruct x as [w n]. unfold watch_inv, watch_event. cbn [fst snd]. intros (Hn & Ha & Hs & Hg & Hl).
  destruct e as [stream received|now].
  - unfold observe. destruct (_ || _); [done|]. destruct received as [m|]; [|done].
    by destruct (since_open w m <? 0).
  - unfold silence_limit. destruct (negb _); [cbn; split_and!; (done || lia)|].
    destruct (ow_first_trade_seen w); [cbn; split_and!; (done || lia)|].
    destruct (_ <=? _); [cbn; split_and!; (done || lia)|].
    destruct (_ && _) eqn:E; cbn; bprop; [|split_and!; (done || lia)].
    rewrite H0 in Hn. split_and!; (done || lia).
Qed.

(** A late open causes no reconnect storm: over any day of observed frames and
    polls the delayed-open alert is logged at most once; outside the regular
    session there is no silence limit; inside, the limit is never below the normal
    one, it is the normal one once a trade was seen, and until the first trade a
    silence since the open is never over the limit before the grace has passed. *)
Theorem open_grace_holds a silence grace alert lead hold w0 events :
  new_watch a silence grace alert lead hold = Some w0 ->
  let '(w, alerts) := fold_left watch_event events (w0, 0) in
  alerts <= 1 /\
  forall now, let limit := snd (fst (silence_limit w now)) in
    (limit = None <-> ~ (regular_open (ow_anchors w0) <= time_of (astimezone_kst now)
                         < regular_close (ow_anchors w0))) /\
    forall l, limit = Some l ->
      ow_silence_limit w0 <= l /\
      (ow_first_trade_seen w = true -> l = ow_silence_limit w0) /\
      (ow_first_trade_seen w = false -> ow_open_grace w0 <= since_open w now + l).
Proof.
  intros Hnew.
  assert (ow_alerted w0 = false /\ 0 < ow_silence_limit w0) as [Ha Hpos].
  { unfold new_watch in Hnew. repeat (hmatch Hnew; [done|]). injection Hnew as <-. bprop. done. }
  clear Hnew.
  assert (HI : watch_inv w0 (fold_left watch_event events (w0, 0))).
  { assert (HI : watch_inv w0 (w0, 0)) by (unfold watch_inv; cbn; by rewrite Ha). clear Ha.
    revert HI. generalize (w0, 0). induction events as [|e events IH]; intros x HI; [done|].
    cbn. apply IH. by apply watch_event_inv. }
  destruct (fold_left watch_event events (w0, 0)) as [w alerts]. destruct HI as (Hn & Hanc & Hs & Hg & Hl).
  cbn in Hn, Hanc, Hs, Hg, Hl. split; [destruct (ow_alerted w); lia|]. intros now. cbv zeta.
  unfold silence_limit. rewrite Hanc, Hs, Hg.
  destruct (_ && _) eqn:E; cbn [negb].
  - assert (Hin : regular_open (ow_anchors w0) <= time_of (astimezone_kst now) < regular_close (ow_anchors w0)) by lia.
    destruct (ow_first_trade_seen w); cbn [fst snd].
    + split; [split; [done|lia]|]. intros l [= <-]. split_and!; (lia || done).
    + destruct (ow_open_grace w0 <=? since_open w now) eqn:Eg; bprop; cbn [fst snd].
      * split; [split; [done|lia]|]. intros l [= <-]. split_and!; [lia|done|lia].
      * split; [split; [done|lia]|]. intros l [= <-]. split_and!; [lia|done|lia].
  - cbn [fst snd]. split; [split; [lia|done]|done].
Qed.

Definition demo_watch : OpenWatch :=
  mkWatch (standard_session_anchors 20406) 30 3600 60 600 600 false false.

Lemma open_grace_holds_witness :
  let '(w, alerts) := fold_left watch_event
    [WPoll (combine_kst 20406 (mktime 9 1 0)); WPoll (combine_kst 20406 (mktime 9 2 0))] (demo_watch, 0) in
  alerts <= 1.
Proof.
  pose proof (open_grace_holds (standard_session_anchors 20406) 30 3600 60 600 600 demo_watch
    [WPoll (combine_kst 20406 (mktime 9 1 0)); WPoll (combine_kst 20406 (mktime 9 2 0))] eq_refl) as H.
  destruct (fold_left watch_event _ _) as [w alerts]. apply H.
Defined.

(** ** The watchdog over a day *)

(** [_apply_shard_decisions] of the daemon: the first restart decision whose shard
    is supervised is carried out and counted. *)
Definition apply_shard_decisions (w : ShardWatchdog) (decisions : list ShardDecision) (today : Z)
    (supervised : list string) : ShardWatchdog * option string :=
  match List.find (fun d => sd_restart d && bool_decide (sd_key d ∈ supervised)) decisions with
  | Some d => (fst (record_shard_restart w (sd_key d) today), Some (sd_key d))
  | None => (w, None)
  end.

Record WatchCycle := mkWatchCycle {
  wc_obs : list ShardObservation; wc_now : Z; wc_open : Z; wc_day : Z; wc_in_window : bool;
  wc_supervised : list string
}.

(** The restarts of a sequence of daemon cycles, with their days. *)
Fixpoint watchdog_run (w : ShardWatchdog) (cycles : list WatchCycle) : list (string * Z) :=
  match cycles with
  | [] => []
  | c :: cycles' =>
      let '(w', r) := apply_shard_decisions w
        (evaluate w (wc_obs c) (wc_now c) (wc_open c) (wc_day c) (wc_in_window c)) (wc_day c) (wc_supervised c) in
      match r with
      | Some key => (key, wc_day c) :: watchdog_run w' cycles'
      | None => watchdog_run w' cycles'
      end
  end.

(** A restart decision, in terms of the observations. *)
Lemma restart_decision w obs now_wall window_open_wall day in_window d :
  d ∈ evaluate w obs now_wall window_open_wall day in_window -> sd_restart d = true ->
  in_window = true /\ used w (sd_key d) day < wd_max_restarts w /\
  exists o, o ∈ obs /\ so_key o = sd_key d /\ so_running o = true /\
    sd_key d ∈ stale_keys w obs now_wall window_open_wall /\
    sd_key d ∉ venue_wide w obs now_wall window_open_wall.
Proof.
  unfold evaluate. destruct in_window; cbn [negb].
  2:{ intros (o & -> & _)%list_elem_of_fmap. done. }
  intros (o & -> & Ho)%list_elem_of_fmap. unfold decide_one.
  destruct (so_running o) eqn:Er; cbn [negb]; [|done].
  destruct (bool_decide (so_key o ∈ venue_wide _ _ _ _)) eqn:Ev; [done|].
  destruct (bool_decide (so_key o ∈ stale_keys _ _ _ _)) eqn:Es; [|done].
  destruct (_ <=? _) eqn:Eb; [done|]. intros _. cbn. bprop. split_and!; [done|done|].
  exists o. split_and!; done.
Qed.

Lemma watchdog_run_budget key day cycles : forall w,
  0 <= used w key day ->
  zlen (List.filter (fun e => bool_decide (e = (key, day))) (watchdog_run w cycles))
  <= Z.max 0 (wd_max_restarts w - used w key day).
Proof.
  induction cycles as [|c cycles IH]; intros w Hu; [cbn; unfold zlen; cbn; lia|].
  cbn [watchdog_run]. unfold apply_shard_decisions.
  destruct (List.find _ _) as [d|] eqn:Ef; [|by apply IH].
  apply List.find_some in Ef as [Hin [Hr _]%andb_true_iff]. apply list_elem_of_In in Hin.
  destruct (restart_decision _ _ _ _ _ _ _ Hin Hr) as (_ & Hb & _).
  cbn [List.filter]. unfold record_shard_restart. cbn [fst].
  set (w' := mkWatchdog _ _ _).
  assert (Hw : used w' key day = used w key day + (if bool_decide ((sd_key d, wc_day c) = (key, day)) then 1 else 0)).
  { unfold used, w'. cbn [wd_counts]. case_bool_decide as E.
    - rewrite E, dget_dset_eq. injection E as -> ->. done.
    - rewrite dget_dset_ne by done. lia. }
  assert (Hi := IH w'). cbn [wd_max_restarts w'] in Hi. fold w' in Hi. rewrite Hw in Hi.
  case_bool_decide as E.
  - injection E as <- <-. unfold zlen in *. cbn [length]. rewrite Nat2Z.inj_succ.
    specialize (Hi ltac:(lia)). lia.
  - specialize (Hi ltac:(lia)). lia.
Qed.

(** A venue not entirely silent has a running shard that is not stale. *)
Lemma not_venue_wide w obs now_wall window_open_wall o :
  o ∈ obs -> so_running o = true -> so_key o ∉ venue_wide w obs now_wall window_open_wall ->
  zlen (running_in obs (so_venue o)) < 2 \/
  exists o', o' ∈ obs /\ so_running o' = true /\ so_venue o' = so_venue o /\
    so_key o' ∉ stale_keys w obs now_wall window_open_wall.
Proof.
  intros Ho Hr Hn. set (v := so_venue o).
  assert (Hk : so_key o ∈ running_in obs v).
  { unfold running_in. apply list_elem_of_fmap. exists o. split; [done|]. apply filter_elem.
    rewrite Hr, bool_decide_eq_true_2 by done. done. }
  destruct (decide (zlen (running_in obs v) < 2)) as [|Hge]; [by left|right].
  destruct (forallb (fun k => bool_decide (k ∈ stale_keys w obs now_wall window_open_wall)) (running_in obs v)) eqn:Ef.
  - destruct Hn. unfold venue_wide. apply list_elem_of_In, in_concat.
    exists (running_in obs v). split; [|by apply list_elem_of_In]. apply in_map_iff. exists v.
    rewrite (proj2 (Z.leb_le _ _)) by lia. unfold stale_in. rewrite (forallb_filter_id _ _ Ef), Z.eqb_refl.
    split; [done|]. apply list_elem_of_In, fromkeys_elem, list_elem_of_fmap. exists o.
    split; [done|]. by apply filter_elem.
  - apply not_true_iff_false in Ef.
    destruct (decide (Exists (fun k => k ∉ stale_keys w obs now_wall window_open_wall) (running_in obs v)))
      as [Hex|Hnex].
    + apply Exists_exists in Hex as (k & Hin & Hk'). unfold running_in in Hin.
      apply list_elem_of_fmap in Hin as (o' & -> & Ho').
      apply filter_elem in Ho' as [Ho' [Hr' Hv]%andb_true_iff]. apply bool_decide_eq_true in Hv.
      by exists o'.
    + destruct Ef. apply forallb_forall. intros k Hin%list_elem_of_In. apply bool_decide_eq_true_2.
      destruct (decide (k ∈ stale_keys w obs now_wall window_open_wall)) as [|Hk']; [done|].
      destruct Hnex. apply Exists_exists. by exists k.
Qed.

(** The watchdog restarts only what is alone in its silence: with distinct
    shard keys every observation gets one verdict; a shard is restarted only inside
    its window while running and silent beyond the limit, with budget left, and
    when it is its venue's only shard or another one still receives; and the
    restarts of one shard on one day never exceed the budget, over any sequence of
    daemon cycles. *)
Theorem watchdog_restarts_sound limit budget w0 :
  new_watchdog limit budget = Some w0 ->
  (forall cycles key day,
    zlen (List.filter (fun e => bool_decide (e = (key, day))) (watchdog_run w0 cycles)) <= budget) /\
  forall w obs now_wall window_open_wall day in_window,
    NoDup (map so_key obs) -> wd_limit w = limit ->
    let decisions := evaluate w obs now_wall window_open_wall day in_window in
    map sd_key decisions = map so_key obs /\
    forall d, d ∈ decisions -> sd_restart d = true ->
      in_window = true /\ used w (sd_key d) day < wd_max_restarts w /\
      exists o, o ∈ obs /\ so_key o = sd_key d /\ so_running o = true /\
        limit < shard_age now_wall window_open_wall o /\
        (zlen (running_in obs (so_venue o)) < 2 \/
         exists o', o' ∈ obs /\ so_running o' = true /\ so_venue o' = so_venue o /\
           shard_age now_wall window_open_wall o' <= limit).
Proof.
  unfold new_watchdog. intros Hnew. repeat (hmatch Hnew; [done|]). injection Hnew as <-. bprop.
  split.
  - intros cycles key day. etransitivity; [apply watchdog_run_budget; done|]. cbn. lia.
  - intros w obs now_wall window_open_wall day in_window Hd Hl. cbv zeta.
    assert (Hstale : forall o, o ∈ obs -> so_running o = true ->
              so_key o ∈ stale_keys w obs now_wall window_open_wall <-> limit < shard_age now_wall window_open_wall o).
    { intros o Ho Hr. unfold stale_keys. rewrite list_elem_of_fmap. split.
      - intros (o' & Hk & Ho'). apply filter_elem in Ho' as [Ho' [_ Hage]%andb_true_iff].
        assert (o = o') as <- by by eapply NoDup_map_inj. bprop. lia.
      - intros Hage. exists o. split; [done|]. apply filter_elem. rewrite Hr, Hl. split; [done|].
        cbn. by apply Z.ltb_lt. }
    split.
    + unfold evaluate. destruct in_window; cbn [negb]; rewrite map_map; [|done].
      apply map_ext. intros o. unfold decide_one. by repeat dmatch.
    + intros d Hin Hr. destruct (restart_decision _ _ _ _ _ _ _ Hin Hr) as (Hw & Hb & o & Ho & Hk & Hrun & Hst & Hnw).
      split_and!; [done|done|]. exists o. rewrite <- Hk in Hst, Hnw.
      split_and!; [done|done|done|by apply Hstale|].
      destruct (not_venue_wide w obs now_wall window_open_wall o Ho Hrun Hnw) as [|(o' & Ho' & Hr' & Hv & Hn)];
        [by left|right]. exists o'. split_and!; try done. apply Z.nlt_ge. intros Hage. apply Hn. by apply Hstale.
Qed.

Lemma watchdog_restarts_sound_witness :
  zlen (List.filter (fun e => bool_decide (e = ("a", 1)))
    (watchdog_run (mkWatchdog 60 2 [])
      (replicate 4 (mkWatchCycle [mkObs "a" "krx" true None None; mkObs "b" "krx" true None (Some 990)]
                      1000 0 1 true ["a"; "b"])))) <= 2.
Proof. apply (watchdog_restarts_sound 60 2 (mkWatchdog 60 2 [])). reflexivity. Defined.
