(* ===== verification/Handover.v ===== *)
(** * Proactive reconnect ([src/realtime/connection_handover.py])

    The bring-up and cut-over state machine of one streamer, with the receive loop
    iteration that drives it ([src/realtime/streamer.py], [pump]) and the event
    time of a frame ([src/realtime/lag_monitor.py]). The slot ledger is an
    interface that [WsLease] implements; connections are numbers, asyncio tasks are
    represented by what the event loop reports of them, and the clock reads of one
    call are one value. Seconds are integers of one tick. *)
From Stdlib Require Import Ascii ZifyBool.
From S2P Require Import Prelude PyStr ExecJournal WsLease.

(** ** Frames *)

Record L0Frame := mkFrame0 {
  f_stream : string; f_symbol : string; f_raw : string; f_event_time : string
}.

(** [str.isdigit] of an ASCII string. *)
Definition is_digit_char (c : ascii) : bool := match char_digit c with Some _ => true | None => false end.
Definition str_isdigit (l : list ascii) : bool := all_digits l.

(** [re.search] of the event-time pattern: a quoted [chetime] or [hotime] name,
    spaces, a colon, spaces, and six digits in quotes. *)
Fixpoint skip_space (l : list ascii) : list ascii :=
  match l with
  | c :: l' => if is_space c then skip_space l' else l
  | [] => []
  end.
Fixpoint strip_prefix (p l : list ascii) : option (list ascii) :=
  match p, l with
  | [], _ => Some l
  | x :: p', y :: l' => if decide (x = y) then strip_prefix p' l' else None
  | _ :: _, [] => None
  end.
Definition quote : ascii := ascii_of_nat 34.
Definition quoted (s : string) : list ascii := quote :: s2l s ++ [quote].

Definition time_match_at (l : list ascii) : option (list ascii) :=
  rest ← match strip_prefix (quoted "chetime") l with
         | Some r => Some r
         | None => strip_prefix (quoted "hotime") l
         end;
  rest ← strip_prefix [":"%char] (skip_space rest);
  rest ← strip_prefix [quote] (skip_space rest);
  match rest with
  | a :: b :: c :: d :: e :: f :: q :: _ =>
      if forallb is_digit_char [a; b; c; d; e; f] && bool_decide (q = quote)
      then Some [a; b; c; d; e; f] else None
  | _ => None
  end.
Fixpoint time_search (l : list ascii) : option (list ascii) :=
  match time_match_at l with
  | Some r => Some r
  | None => match l with [] => None | _ :: l' => time_search l' end
  end.

Definition event_second_of (f : L0Frame) : option Z :=
  let stamp := s2l (f_event_time f) in
  stamp ← (if negb (length stamp =? 6)%nat || negb (str_isdigit stamp) then time_search (s2l (f_raw f))
           else Some stamp);
  hour ← parse_nat (take 2 stamp);
  minute ← parse_nat (take 2 (drop 2 stamp));
  second ← parse_nat (drop 4 stamp);
  if (23 <? hour) || (59 <? minute) || (59 <? second) then None
  else Some (hour * 3600 + minute * 60 + second).

(** ** The slot ledger a handover uses *)

(** [None] is [LeaseUnavailable]. *)
Class SlotLedger (L : Type) := {
  sl_acquire : string -> LeaseRole -> L -> L * option Lease;
  sl_renew : Lease -> L -> L * option bool;
  sl_promote : Lease -> L -> L * option Lease;
  sl_release : Lease -> L -> L * option unit
}.

Class SlotLedgerLaws (L : Type) `{SlotLedger L} : Prop := {
  sl_promote_token : forall l s s' l', sl_promote l s = (s', Some l') -> ls_token l' = ls_token l
}.

(** ** State *)

Record HandoverCfg := mkHCfg {
  hc_max_s : Z; hc_cooldown_s : Z; hc_max_sessions : option Z; hc_stall_lag_s : option Z;
  hc_refresh_cooldown_s : Z; hc_use_ledger : bool; hc_owner : string; hc_lease_ttl_s : Z
}.

(** [__init__]'s checks; [None] is [ValueError]. *)
Definition new_handover_cfg (max_s cooldown_s : Z) (max_sessions stall_lag_s : option Z) (refresh_cooldown_s : Z)
    (use_ledger : bool) (owner : string) (lease_ttl_s : Z) : option HandoverCfg :=
  if (max_s <=? 0) || (cooldown_s <? 0) then None
  else if match stall_lag_s with Some x => x <=? 0 | None => false end then None
  else if refresh_cooldown_s <? 0 then None
  else if use_ledger && (lease_ttl_s <=? 0) then None
  else Some (mkHCfg max_s cooldown_s max_sessions stall_lag_s refresh_cooldown_s use_ledger owner lease_ttl_s).

Record Standby := mkStandby {
  sb_adapter : Z; sb_started : Z; sb_first_event_s : option Z; sb_newest_event_s : option Z;
  sb_lease : option Lease
}.

(** Everything a handover and its environment change: its fields, the swap request
    ([h_requested]), the ledger, the leases granted to it that the ledger has not taken
    back ([h_out]), the connections it closed, and of the leases in [h_out] those whose
    release the ledger failed ([h_unreturned]): the code lets go of them and their slots
    stay occupied until they expire. *)
Record HState (L : Type) := mkH {
  h_requested : bool;
  h_opening : bool;
  h_standby : option Standby;
  h_last_start : option Z;
  h_last_refresh : option Z;
  h_refresh_pending : bool;
  h_refresh_overlap : bool;
  h_seen : list (Z * Z);
  h_standby_owner : Z;
  h_primary_event_s : Z;
  h_dropped : Z;
  h_primary_lease : option Lease;
  h_lease_tended_at : option Z;
  h_opening_lease : option Lease;
  h_ledger : L;
  h_out : list string;
  h_closed : list Z;
  h_unreturned : list string
}.
#[global] Arguments mkH {L}.
#[global] Arguments h_requested {L}. #[global] Arguments h_opening {L}. #[global] Arguments h_standby {L}.
#[global] Arguments h_last_start {L}. #[global] Arguments h_last_refresh {L}.
#[global] Arguments h_refresh_pending {L}. #[global] Arguments h_refresh_overlap {L}.
#[global] Arguments h_seen {L}. #[global] Arguments h_standby_owner {L}.
#[global] Arguments h_primary_event_s {L}. #[global] Arguments h_dropped {L}.
#[global] Arguments h_primary_lease {L}. #[global] Arguments h_lease_tended_at {L}.
#[global] Arguments h_opening_lease {L}. #[global] Arguments h_ledger {L}. #[global] Arguments h_out {L}.
#[global] Arguments h_closed {L}. #[global] Arguments h_unreturned {L}.

Section Setters.
Context {L : Type}.
Implicit Types (h : HState L).

Definition set_requested x h := mkH x (h_opening h) (h_standby h) (h_last_start h) (h_last_refresh h)
  (h_refresh_pending h) (h_refresh_overlap h) (h_seen h) (h_standby_owner h) (h_primary_event_s h) (h_dropped h)
  (h_primary_lease h) (h_lease_tended_at h) (h_opening_lease h) (h_ledger h) (h_out h) (h_closed h) (h_unreturned h).
Definition set_opening x h := mkH (h_requested h) x (h_standby h) (h_last_start h) (h_last_refresh h)
  (h_refresh_pending h) (h_refresh_overlap h) (h_seen h) (h_standby_owner h) (h_primary_event_s h) (h_dropped h)
  (h_primary_lease h) (h_lease_tended_at h) (h_opening_lease h) (h_ledger h) (h_out h) (h_closed h) (h_unreturned h).
Definition set_standby x h := mkH (h_requested h) (h_opening h) x (h_last_start h) (h_last_refresh h)
  (h_refresh_pending h) (h_refresh_overlap h) (h_seen h) (h_standby_owner h) (h_primary_event_s h) (h_dropped h)
  (h_primary_lease h) (h_lease_tended_at h) (h_opening_lease h) (h_ledger h) (h_out h) (h_closed h) (h_unreturned h).
Definition set_last_start x h := mkH (h_requested h) (h_opening h) (h_standby h) x (h_last_refresh h)
  (h_refresh_pending h) (h_refresh_overlap h) (h_seen h) (h_standby_owner h) (h_primary_event_s h) (h_dropped h)
  (h_primary_lease h) (h_lease_tended_at h) (h_opening_lease h) (h_ledger h) (h_out h) (h_closed h) (h_unreturned h).
Definition set_refresh last pending overlap h := mkH (h_requested h) (h_opening h) (h_standby h) (h_last_start h) last
  pending overlap (h_seen h) (h_standby_owner h) (h_primary_event_s h) (h_dropped h)
  (h_primary_lease h) (h_lease_tended_at h) (h_opening_lease h) (h_ledger h) (h_out h) (h_closed h) (h_unreturned h).
Definition set_overlap x h := set_refresh (h_last_refresh h) (h_refresh_pending h) x h.
Definition set_seen x h := mkH (h_requested h) (h_opening h) (h_standby h) (h_last_start h) (h_last_refresh h)
  (h_refresh_pending h) (h_refresh_overlap h) x (h_standby_owner h) (h_primary_event_s h) (h_dropped h)
  (h_primary_lease h) (h_lease_tended_at h) (h_opening_lease h) (h_ledger h) (h_out h) (h_closed h) (h_unreturned h).
Definition set_counters owner event dropped h := mkH (h_requested h) (h_opening h) (h_standby h) (h_last_start h)
  (h_last_refresh h) (h_refresh_pending h) (h_refresh_overlap h) (h_seen h) owner event dropped
  (h_primary_lease h) (h_lease_tended_at h) (h_opening_lease h) (h_ledger h) (h_out h) (h_closed h) (h_unreturned h).
Definition set_primary_lease x h := mkH (h_requested h) (h_opening h) (h_standby h) (h_last_start h) (h_last_refresh h)
  (h_refresh_pending h) (h_refresh_overlap h) (h_seen h) (h_standby_owner h) (h_primary_event_s h) (h_dropped h)
  x (h_lease_tended_at h) (h_opening_lease h) (h_ledger h) (h_out h) (h_closed h) (h_unreturned h).
Definition set_tended x h := mkH (h_requested h) (h_opening h) (h_standby h) (h_last_start h) (h_last_refresh h)
  (h_refresh_pending h) (h_refresh_overlap h) (h_seen h) (h_standby_owner h) (h_primary_event_s h) (h_dropped h)
  (h_primary_lease h) x (h_opening_lease h) (h_ledger h) (h_out h) (h_closed h) (h_unreturned h).
Definition set_opening_lease x h := mkH (h_requested h) (h_opening h) (h_standby h) (h_last_start h) (h_last_refresh h)
  (h_refresh_pending h) (h_refresh_overlap h) (h_seen h) (h_standby_owner h) (h_primary_event_s h) (h_dropped h)
  (h_primary_lease h) (h_lease_tended_at h) x (h_ledger h) (h_out h) (h_closed h) (h_unreturned h).
Definition set_ledger (ledger : L) out h := mkH (h_requested h) (h_opening h) (h_standby h) (h_last_start h) (h_last_refresh h)
  (h_refresh_pending h) (h_refresh_overlap h) (h_seen h) (h_standby_owner h) (h_primary_event_s h) (h_dropped h)
  (h_primary_lease h) (h_lease_tended_at h) (h_opening_lease h) ledger out (h_closed h) (h_unreturned h).
Definition add_closed a h := mkH (h_requested h) (h_opening h) (h_standby h) (h_last_start h) (h_last_refresh h)
  (h_refresh_pending h) (h_refresh_overlap h) (h_seen h) (h_standby_owner h) (h_primary_event_s h) (h_dropped h)
  (h_primary_lease h) (h_lease_tended_at h) (h_opening_lease h) (h_ledger h) (h_out h) (h_closed h ++ [a]) (h_unreturned h).
Definition set_unreturned x h := mkH (h_requested h) (h_opening h) (h_standby h) (h_last_start h) (h_last_refresh h)
  (h_refresh_pending h) (h_refresh_overlap h) (h_seen h) (h_standby_owner h) (h_primary_event_s h) (h_dropped h)
  (h_primary_lease h) (h_lease_tended_at h) (h_opening_lease h) (h_ledger h) (h_out h) (h_closed h) x.
End Setters.

(** One occurrence removed. *)
Fixpoint remove_one (x : string) (l : list string) : list string :=
  match l with
  | [] => []
  | y :: l' => if decide (x = y) then l' else y :: remove_one x l'
  end.

Definition SEEN_CAP : Z := 400000.

(** [SwapRequest.request]. *)
Definition request {L} (h : HState L) : HState L := set_requested true h.

Section Operations.
Context {L : Type} `{SlotLedger L} (cfg : HandoverCfg).
Implicit Types (h : HState L).

(** ** Leases *)

Definition acquire_slot (role : LeaseRole) h : HState L * option Lease :=
  let '(s, r) := sl_acquire (hc_owner cfg) role (h_ledger h) in
  match r with
  | Some l => (set_ledger s (h_out h ++ [ls_token l]) h, Some l)
  | None => (set_ledger s (h_out h) h, None)
  end.

(** [_renew]: an unreadable ledger keeps the lease. *)
Definition renew_slot (l : Lease) h : HState L * bool :=
  let '(s, r) := sl_renew l (h_ledger h) in
  (set_ledger s (h_out h) h, match r with Some false => false | _ => true end).

(** A lease the ledger reported gone is dropped from the account. *)
Definition forget_slot (l : Lease) h : HState L := set_ledger (h_ledger h) (remove_one (ls_token l) (h_out h)) h.

(** [_release_lease]: a failed release is only logged, the slot stays granted. *)
Definition release_lease (lease : option Lease) h : HState L :=
  match lease with
  | Some l =>
      if hc_use_ledger cfg then
        let '(s, r) := sl_release l (h_ledger h) in
        match r with
        | Some _ => set_ledger s (remove_one (ls_token l) (h_out h)) h
        | None => set_unreturned (h_unreturned h ++ [ls_token l]) (set_ledger s (h_out h) h)
        end
      else h
  | None => h
  end.

Definition start_opening h : HState L * bool :=
  if hc_use_ledger cfg then
    let '(h, r) := acquire_slot STANDBY h in
    match r with
    | Some l => (set_opening true (set_opening_lease (Some l) h), true)
    | None => (h, false)
    end
  else (set_opening true h, true).

Definition drop_standby h : HState L :=
  let standby := h_standby h in
  let h := set_seen [] (set_standby None h) in
  match standby with
  | Some sb => release_lease (sb_lease sb) (add_closed (sb_adapter sb) h)
  | None => h
  end.

Definition take_over_primary_lease (standby_lease : option Lease) h : HState L :=
  if negb (hc_use_ledger cfg) then h
  else
    let retired := h_primary_lease h in
    let h := set_primary_lease None h in
    let h := match standby_lease with
             | None => h
             | Some l =>
                 let '(s, r) := sl_promote l (h_ledger h) in
                 match r with
                 | Some l' => set_primary_lease (Some l') (set_ledger s (h_out h) h)
                 | None => release_lease (Some l) (set_ledger s (h_out h) h)
                 end
             end in
    let h := match h_primary_lease h with
             | None => let '(h, r) := acquire_slot PRIMARY h in set_primary_lease r h
             | Some _ => h
             end in
    release_lease retired h.

(** [_tend_leases], at most once per third of a lease lifetime; cancelling the bring-up shows in what the loop reports of it. *)
Definition tend_leases (now : Z) h : HState L :=
  if match h_lease_tended_at h with Some t => 3 * (now - t) <? hc_lease_ttl_s cfg | None => false end then h
  else
    let h := set_tended (Some now) h in
    let h := match h_opening h, h_opening_lease h with
             | true, Some l => let '(h, ok) := renew_slot l h in if ok then h else set_opening_lease None (forget_slot l h)
             | _, _ => h
             end in
    let h := match h_standby h with
             | Some sb =>
                 match sb_lease sb with
                 | Some l =>
                     let '(h, ok) := renew_slot l h in
                     if ok then h else drop_standby h
                 | None => h
                 end
             | None => h
             end in
    match h_primary_lease h with
    | Some l =>
        let '(h, ok) := renew_slot l h in
        if ok then h else let '(h, r) := acquire_slot PRIMARY (forget_slot l h) in set_primary_lease r h
    | None => let '(h, r) := acquire_slot PRIMARY h in set_primary_lease r h
    end.

(** ** The state machine *)

Definition active h : bool := h_opening h || match h_standby h with Some _ => true | None => false end.

(** [standby_lag_s]; [wall_sod] is the KST second of the day. *)
Definition standby_lag_s (now wall_sod : Z) h : option Z :=
  match h_standby h with
  | None => None
  | Some sb =>
      match sb_newest_event_s sb with
      | None => Some (Z.max 0 (now - sb_started sb))
      | Some e => Some (Z.max 0 (wall_sod - e))
      end
  end.

Definition elapsed (now d : Z) (last : option Z) : bool :=
  match last with None => true | Some t => d <=? now - t end.

(** [window] is what the hot-standby window answers. *)
Definition maybe_start (eligible : bool) (live_connections now wall_sod : Z) (window : bool) h : HState L :=
  if h_opening h then h
  else
    match hc_stall_lag_s cfg, h_standby h, h_requested h with
    | Some stall, Some _, true =>
        let due := match standby_lag_s now wall_sod h with Some lag => stall <=? lag | None => false end in
        if due && elapsed now (hc_refresh_cooldown_s cfg) (h_last_refresh h)
        then set_refresh (Some now) true (h_refresh_overlap h) (set_requested false h)
        else h
    | _, _, _ =>
        let requested := h_requested h in
        let h := set_requested false h in
        if negb (requested || window) || negb eligible || active h then h
        else if negb (elapsed now (hc_cooldown_s cfg) (h_last_start h)) then h
        else if match hc_max_sessions cfg with Some m => m <=? live_connections | None => false end
        then set_last_start (Some now) h
        else fst (start_opening (set_last_start (Some now) h))
    end.

(** [_open]: the connections it closed itself and what it returns; [acks] is [None]
    when building, connecting or subscribing raised. *)
Definition open_standby (adapter : Z) (built : bool) (acks : option (list bool)) : list Z * option Z :=
  if negb built then ([], None)
  else match acks with
       | Some (a :: l) => if forallb (fun x => x) (a :: l) then ([], Some adapter) else ([adapter], None)
       | _ => ([adapter], None)
       end.

Definition bump_event (e : Z) (sb : Standby) : Standby :=
  mkStandby (sb_adapter sb) (sb_started sb)
    (match sb_first_event_s sb with None => Some e | x => x end)
    (match sb_newest_event_s sb with None => Some e | Some x => Some (Z.max x e) end) (sb_lease sb).

(** The event-time half of [admit_frame]. *)
Definition note_event (event_s : option Z) (from_standby : bool) h : HState L :=
  match event_s with
  | None => h
  | Some e =>
      match from_standby, h_standby h with
      | true, Some sb => set_standby (Some (bump_event e sb)) h
      | _, _ => set_counters (h_standby_owner h) (Z.max (h_primary_event_s h) e) (h_dropped h) h
      end
  end.

(** The memory's key: the [hash] of stream, symbol and body. *)
Definition frame_key (frame_hash : string * string * string -> Z) (f : L0Frame) : Z :=
  frame_hash (f_stream f, f_symbol f, f_raw f).

(** The duplicate-suppression half. *)
Definition admit_key (key : Z) (from_standby : bool) h : HState L * bool :=
  let seen := if SEEN_CAP <? zlen (h_seen h) then drop (Z.to_nat (SEEN_CAP / 4)) (h_seen h) else h_seen h in
  let token := if from_standby then h_standby_owner h else 0 in
  match dget seen key with
  | Some owner =>
      if owner =? token then (set_seen seen h, true)
      else (set_counters (h_standby_owner h) (h_primary_event_s h) (h_dropped h + 1) (set_seen seen h), false)
  | None => (set_seen (dset seen key token) h, true)
  end.

Definition admit_frame (frame_hash : string * string * string -> Z) (f : L0Frame) (from_standby : bool) h : HState L * bool :=
  if match h_standby h with None => negb (h_refresh_overlap h) | Some _ => false end then (h, true)
  else admit_key (frame_key frame_hash f) from_standby (note_event (event_second_of f) from_standby h).

(** [_cut_over] of the standby [sb]; the connection the loop continues on. *)
Definition cut_over (sb : Standby) h : HState L * option Z :=
  let h := set_requested false (set_seen [] (set_standby None h)) in
  (take_over_primary_lease (sb_lease sb) h, Some (sb_adapter sb)).

(** What the event loop reports of the bring-up task: not done, or done with its
    connection ([None] when it failed or was cancelled). *)
Definition adopt (result : option Z) (now : Z) h : HState L :=
  let lease := h_opening_lease h in
  let h := set_opening_lease None (set_opening false h) in
  let unpaid := hc_use_ledger cfg && match lease with None => true | Some _ => false end in
  let '(h, adapter) := match result with
                       | Some a => if unpaid then (add_closed a h, None) else (h, Some a)
                       | None => (h, None)
                       end in
  let h := match adapter with
           | Some a =>
               let h := set_counters (h_standby_owner h + 1) (-1) 0
                          (set_standby (Some (mkStandby a now None None lease)) h) in
               if h_refresh_overlap h then h else set_seen [] h
           | None => set_seen [] (release_lease lease h)
           end in
  set_overlap false h.

Definition step (opening_done : option (option Z)) (standby_failed : bool) (now : Z) (window : bool) h
    : HState L * option Z :=
  if h_refresh_pending h then
    let h := set_refresh (h_last_refresh h) false (h_refresh_overlap h) h in
    let h := match h_standby h with
             | Some _ => let primary_seen := h_seen h in set_seen primary_seen (drop_standby h)
             | None => h
             end in
    let '(h, started) := start_opening h in
    (set_overlap started h, None)
  else
    let h := match h_opening h, opening_done with
             | true, Some result => adopt result now h
             | _, _ => h
             end in
    let h := if hc_use_ledger cfg then tend_leases now h else h in
    match h_standby h with
    | None => (h, None)
    | Some sb =>
        if standby_failed then (drop_standby h, None)
        else if window then (h, None)
        else
          let caught_up := match sb_first_event_s sb with Some e => e <=? h_primary_event_s h | None => false end in
          let expired := hc_max_s cfg <=? now - sb_started sb in
          if negb (caught_up || expired) then (h, None)
          else
            match sb_lease sb with
            | Some l =>
                let '(h, ok) := renew_slot l h in
                if ok then cut_over sb h else (drop_standby h, None)
            | None => cut_over sb h
            end
    end.

Definition on_primary_failure h : HState L * option Z :=
  match h_standby h with
  | None => (h, None)
  | Some sb => cut_over sb h
  end.

(** [aclose]; [outcome] is the connection the cancelled bring-up still returned. *)
Definition aclose (outcome : option Z) h : HState L :=
  let h := set_overlap false h in
  let h := if h_opening h then
             let lease := h_opening_lease h in
             let h := set_opening_lease None (set_opening false h) in
             let h := match outcome with Some a => add_closed a h | None => h end in
             release_lease lease h
           else h in
  drop_standby h.

Definition release_primary_lease h : HState L :=
  release_lease (h_primary_lease h) (set_primary_lease None h).
End Operations.

(** ** The receive loop *)

(** What one iteration of [pump] meets. A finished receive is [Some]; its [None] is
    a failure. [cy_window1] and [cy_window2] are the window when a standby may start
    and when a cut-over is considered; [cy_lag1] and [cy_lag2] say whether the lag
    monitor, which observes every frame the sink records, calls its [on_exceeded] (the
    swap request) on the standby's and on the primary's frame. *)
Record CycleEnv := mkCycle {
  cy_now : Z; cy_wall_sod : Z; cy_window1 : bool; cy_window2 : bool;
  cy_opening : option (option Z);
  cy_standby_in : option (option L0Frame); cy_lag1 : bool;
  cy_primary_in : option (option L0Frame); cy_lag2 : bool
}.

(** The handover, the current primary connection, the connections its bring-ups
    returned, the frames recorded (with the connection they came from), the loop's
    [frames] counter and whether the loop goes on. *)
Record Loop (L : Type) := mkLoop {
  lp_h : HState L; lp_primary : Z; lp_delivered : list Z; lp_recorded : list (L0Frame * bool);
  lp_frames : Z; lp_running : bool
}.
#[global] Arguments mkLoop {L}. #[global] Arguments lp_h {L}. #[global] Arguments lp_primary {L}.
#[global] Arguments lp_delivered {L}. #[global] Arguments lp_frames {L}. #[global] Arguments lp_recorded {L}. #[global] Arguments lp_running {L}.

Section Pump.
Context {L : Type} `{SlotLedger L} (cfg : HandoverCfg) (frame_hash : string * string * string -> Z).
Implicit Types (h : HState L).

(** [sink.record] of an admitted frame: it is recorded and the lag monitor sees it,
    which may raise the swap request. *)
Definition record_frame (lag ok : bool) (f : L0Frame) (from_standby : bool) (h : HState L)
    (recorded : list (L0Frame * bool)) : HState L * list (L0Frame * bool) :=
  if ok then (if lag then request h else h, recorded ++ [(f, from_standby)]) else (h, recorded).

Definition standby_failed (e : CycleEnv) h : bool :=
  match h_standby h, cy_standby_in e with Some _, Some None => true | _, _ => false end.

(** A bring-up that finishes is consumed by this iteration unless a refresh is. *)
Definition delivered_by (e : CycleEnv) h : list Z :=
  match h_refresh_pending h, h_opening h, cy_opening e with
  | false, true, Some (Some a) => [a]
  | _, _, _ => []
  end.

(** The standby's finished frame, before [step]: an admitted one is recorded and counted. *)
Definition standby_part (e : CycleEnv) h (recorded : list (L0Frame * bool)) (frames : Z)
    : HState L * list (L0Frame * bool) * Z :=
  match h_standby h, cy_standby_in e with
  | Some _, Some (Some f) =>
      let '(h', ok) := admit_frame frame_hash f true h in
      (record_frame (cy_lag1 e) ok f true h' recorded, if ok then frames + 1 else frames)
  | _, _ => (h, recorded, frames)
  end.

Definition pump_cycle (e : CycleEnv) (l : Loop L) : Loop L :=
  let h := lp_h l in
  let h := maybe_start cfg (0 <? lp_frames l) (if active h then 2 else 1) (cy_now e) (cy_wall_sod e) (cy_window1 e) h in
  let '(h, recorded, frames) := standby_part e h (lp_recorded l) (lp_frames l) in
  let delivered := lp_delivered l ++ delivered_by e h in
  match step cfg (cy_opening e) (standby_failed e h) (cy_now e) (cy_window2 e) h with
  | (h, Some adapter) => mkLoop (add_closed (lp_primary l) h) adapter delivered recorded frames true
  | (h, None) =>
      match cy_primary_in e with
      | None => mkLoop h (lp_primary l) delivered recorded frames true
      | Some (Some f) =>
          let '(h', ok) := admit_frame frame_hash f false h in
          let '(h', recorded) := record_frame (cy_lag2 e) ok f false h' recorded in
          mkLoop h' (lp_primary l) delivered recorded (frames + 1) true
      | Some None =>
          match on_primary_failure cfg h with
          | (h, Some adapter) => mkLoop (add_closed (lp_primary l) h) adapter delivered recorded frames true
          | (h, None) => mkLoop h (lp_primary l) delivered recorded frames false
          end
      end
  end.

(** Iterations until the loop stops. *)
Fixpoint pump_run (es : list CycleEnv) (l : Loop L) : Loop L :=
  match es with
  | [] => l
  | e :: es' => if lp_running l then pump_run es' (pump_cycle e l) else l
  end.

(** A handover at construction, with the primary lease its process holds. *)
Definition new_handover (ledger : L) (primary_lease : option Lease) (now : Z) : HState L :=
  mkH false false None None None false false [] 0 (-1) 0 primary_lease
    (if hc_use_ledger cfg then Some now else None) None ledger
    (match primary_lease with Some l => [ls_token l] | None => [] end) [] [].
End Pump.

(** ** Lemmas: accounts *)

Section Count.
Context {A : Type} `{EqDecision A}.
Implicit Types (x : A) (l : list A).

Fixpoint cnt x l : Z :=
  match l with [] => 0 | y :: l' => (if decide (x = y) then 1 else 0) + cnt x l' end.

Definition ocnt x (o : option A) : Z := match o with Some y => if decide (x = y) then 1 else 0 | None => 0 end.

Lemma cnt_app x l k : cnt x (l ++ k) = cnt x l + cnt x k.
Proof. induction l as [|y l IH]; cbn; [done|]. rewrite IH. lia. Qed.

Lemma cnt_nonneg x l : 0 <= cnt x l.
Proof. induction l as [|y l IH]; cbn; [done|]. case_decide; lia. Qed.

Lemma ocnt_nonneg x (o : option A) : 0 <= ocnt x o.
Proof. destruct o; cbn; [case_decide|]; lia. Qed.

Lemma cnt_nil l : (forall x, cnt x l = 0) -> l = [].
Proof.
  destruct l as [|y l]; [done|]. intros H. specialize (H y). cbn in H.
  rewrite decide_True in H by done. pose proof (cnt_nonneg y l). lia.
Qed.
End Count.

Lemma cnt_remove_one x y l : 1 <= cnt y l -> cnt x (remove_one y l) = cnt x l - (if decide (x = y) then 1 else 0).
Proof.
  induction l as [|z l IH]; cbn; [lia|]. intros Hc. destruct (decide (y = z)) as [->|Hne].
  - destruct (decide (x = z)); lia.
  - cbn. rewrite IH by lia. lia.
Qed.

Definition otoken (o : option Lease) : option string := option_map ls_token o.
Definition standby_token {L} (h : HState L) : option string :=
  match h_standby h with Some sb => otoken (sb_lease sb) | None => None end.
Definition standby_adapter {L} (h : HState L) : option Z := option_map sb_adapter (h_standby h).

(** Every lease granted to the handover and not taken back by the ledger is in exactly
    one of its three places or is one whose release failed, and none exists without a
    ledger. *)
Definition leases_held {L} (h : HState L) : Prop :=
  forall t, cnt t (h_out h) =
    ocnt t (otoken (h_opening_lease h)) + ocnt t (standby_token h) + ocnt t (otoken (h_primary_lease h))
    + cnt t (h_unreturned h).

(** A ledger that accepts every release. *)
Definition releases_accepted (L : Type) `{SlotLedger L} : Prop :=
  forall l (s : L), snd (sl_release l s) <> None.

Definition no_leases {L} (h : HState L) : Prop :=
  h_opening_lease h = None /\ standby_token h = None /\ h_primary_lease h = None.

Definition hinv {L} `{SlotLedger L} (cfg : HandoverCfg) (h : HState L) : Prop :=
  leases_held h /\ (hc_use_ledger cfg = false -> no_leases h) /\
  (h_opening h = false -> h_opening_lease h = None) /\
  (h_opening h = true -> h_standby h = None) /\
  (h_refresh_pending h = true -> h_opening h = false) /\
  (releases_accepted L -> h_unreturned h = []).

Section HandoverLemmas.
Context {L : Type} `{SlotLedgerLaws L} (cfg : HandoverCfg).
Implicit Types (h : HState L).

Lemma release_lease_spec h l :
  (hc_use_ledger cfg = false -> l = None) -> (forall x, l = Some x -> 1 <= cnt (ls_token x) (h_out h)) ->
  exists s out ur, release_lease cfg l h = set_unreturned ur (set_ledger s out h) /\
    (forall t, cnt t out = cnt t (h_out h) - ocnt t (otoken l) + (cnt t ur - cnt t (h_unreturned h))) /\
    (releases_accepted L -> h_unreturned h = [] -> ur = []).
Proof using Type.
  intros Hu Hl. unfold release_lease. destruct l as [x|].
  2:{ exists (h_ledger h), (h_out h), (h_unreturned h). split; [by destruct h|]. split; [|done]. intros t. cbn. lia. }
  destruct (hc_use_ledger cfg); [|by specialize (Hu eq_refl)].
  destruct (sl_release x (h_ledger h)) as [s r] eqn:Er. destruct r as [u|].
  - exists s, (remove_one (ls_token x) (h_out h)), (h_unreturned h). split; [by destruct h|]. split; [|done].
    intros t. cbn. rewrite cnt_remove_one by (by apply Hl). lia.
  - exists s, (h_out h), (h_unreturned h ++ [ls_token x]). split; [done|]. split.
    + intros t. rewrite cnt_app. cbn. lia.
    + intros Ha. exfalso. apply (Ha x (h_ledger h)). by rewrite Er.
Qed.

Lemma acquire_slot_spec role h :
  let '(h', r) := acquire_slot cfg role h in
  exists s out, h' = set_ledger s out h /\ forall t, cnt t out = cnt t (h_out h) + ocnt t (otoken r).
Proof using Type.
  unfold acquire_slot. destruct (sl_acquire _ role (h_ledger h)) as [s [l|]].
  - exists s, (h_out h ++ [ls_token l]). split; [done|]. intros t. rewrite cnt_app. cbn. lia.
  - exists s, (h_out h). split; [done|]. intros t. cbn. lia.
Qed.

Lemma renew_slot_spec l h : exists s, fst (renew_slot l h) = set_ledger s (h_out h) h.
Proof using Type. unfold renew_slot. destruct (sl_renew l (h_ledger h)) as [s r]. by exists s. Qed.

Lemma drop_standby_inv h :
  hinv cfg h ->
  hinv cfg (drop_standby cfg h) /\ h_standby (drop_standby cfg h) = None /\
  h_opening (drop_standby cfg h) = h_opening h /\ h_primary_lease (drop_standby cfg h) = h_primary_lease h /\
  h_refresh_pending (drop_standby cfg h) = h_refresh_pending h /\
  h_opening_lease (drop_standby cfg h) = h_opening_lease h /\
  forall a, cnt a (h_closed (drop_standby cfg h)) = cnt a (h_closed h) + ocnt a (standby_adapter h).
Proof using Type.
  intros (Hl & Hn & Ho & Hs & Hp & Hr). unfold drop_standby, standby_adapter.
  destruct (h_standby h) as [sb|] eqn:Esb.
  2:{ split_and!; try done; [|intros a; cbn; lia]. unfold hinv, leases_held, no_leases, standby_token in *.
      cbn. rewrite Esb in Hl, Hn. split_and!; done. }
  set (h1 := add_closed (sb_adapter sb) (set_seen [] (set_standby None h))).
  unfold leases_held, standby_token in Hl. rewrite Esb in Hl.
  unfold no_leases, standby_token in Hn. rewrite Esb in Hn.
  destruct (release_lease_spec h1 (sb_lease sb)) as (s & out & ur & -> & Hout & Hur).
  { intros Hu. destruct (Hn Hu) as (_ & Hx & _). by destruct (sb_lease sb). }
  { intros x Hx. cbn. rewrite Hl, Hx. cbn. rewrite decide_True by done.
    pose proof (ocnt_nonneg (ls_token x) (otoken (h_opening_lease h))).
    pose proof (cnt_nonneg (ls_token x) (h_unreturned h)).
    pose proof (ocnt_nonneg (ls_token x) (otoken (h_primary_lease h))). lia. }
  cbn. split_and!; try done.
  - unfold hinv, leases_held, no_leases, standby_token. cbn. split_and!; try done.
    + intros t. rewrite Hout. cbn. rewrite Hl. lia.
    + intros Hu. destruct (Hn Hu) as (? & ? & ?). done.
    + intros Ha. by apply Hur, Hr.
  - intros a. rewrite cnt_app. cbn. lia.
Qed.

Lemma start_opening_inv h :
  hinv cfg h -> h_opening h = false -> h_standby h = None -> h_refresh_pending h = false ->
  let h' := fst (start_opening cfg h) in
  hinv cfg h' /\ h_standby h' = None /\ h_closed h' = h_closed h /\ h_refresh_pending h' = false /\
  h_primary_lease h' = h_primary_lease h.
Proof using Type.
  intros (Hl & Hn & Ho & Hs & Hp & Hr) Hop Hsb Hpen. unfold start_opening.
  unfold leases_held, standby_token in Hl. unfold no_leases, standby_token in Hn.
  rewrite Hsb in Hl, Hn. rewrite (Ho Hop) in Hl.
  destruct (hc_use_ledger cfg) eqn:Eu; cbn.
  - pose proof (acquire_slot_spec STANDBY h) as Ha. destruct (acquire_slot cfg STANDBY h) as [h1 r].
    destruct Ha as (s & out & -> & Hout).
    destruct r as [l|]; cbn; unfold hinv, leases_held, no_leases, standby_token; cbn; rewrite Hsb;
      (split; [split_and!; try done; try congruence|done]); intros t; rewrite Hout, Hl; cbn; try lia.
    rewrite (Ho Hop). cbn. lia.
  - unfold hinv, leases_held, no_leases, standby_token; cbn. rewrite Hsb. split; [|done]. split_and!; try done.
    + intros t. rewrite Hl. by rewrite (Ho Hop).
    + intros _. by apply Hn.
    + congruence.
Qed.

(** The primary slot after the standby of lease [sl] took over. *)
Lemma take_over_spec h sl :
  (forall t, cnt t (h_out h) = ocnt t (otoken (h_opening_lease h)) + ocnt t (otoken sl)
                               + ocnt t (otoken (h_primary_lease h)) + cnt t (h_unreturned h)) ->
  (hc_use_ledger cfg = false -> sl = None /\ h_primary_lease h = None) ->
  exists s out pl ur,
    take_over_primary_lease cfg sl h = set_unreturned ur (set_primary_lease pl (set_ledger s out h)) /\
    (forall t, cnt t out = ocnt t (otoken (h_opening_lease h)) + ocnt t (otoken pl) + cnt t ur) /\
    (hc_use_ledger cfg = false -> pl = None) /\
    (releases_accepted L -> h_unreturned h = [] -> ur = []).
Proof.
  intros Hl Hu. unfold take_over_primary_lease. destruct (hc_use_ledger cfg) eqn:Eu; cbn [negb].
  2:{ destruct (Hu eq_refl) as [-> Hp]. exists (h_ledger h), (h_out h), None, (h_unreturned h). rewrite Hp in Hl.
      split; [destruct h; cbn in *; by rewrite Hp|]. split; [|done]. intros t. rewrite Hl. cbn. lia. }
  set (retired := h_primary_lease h).
  assert (Hmid : exists s out pl ur,
    match sl with
    | None => set_primary_lease None h
    | Some l =>
        let '(s, r) := sl_promote l (h_ledger (set_primary_lease None h)) in
        match r with
        | Some l' => set_primary_lease (Some l') (set_ledger s (h_out (set_primary_lease None h)) (set_primary_lease None h))
        | None => release_lease cfg (Some l) (set_ledger s (h_out (set_primary_lease None h)) (set_primary_lease None h))
        end
    end = set_unreturned ur (set_primary_lease pl (set_ledger s out h)) /\
    (forall t, cnt t out = ocnt t (otoken (h_opening_lease h)) + ocnt t (otoken pl) + ocnt t (otoken retired) + cnt t ur) /\
    (releases_accepted L -> h_unreturned h = [] -> ur = [])).
  { destruct sl as [l|].
    - cbn [h_ledger set_primary_lease h_out]. destruct (sl_promote l (h_ledger h)) as [s [l'|]] eqn:Ep.
      + exists s, (h_out h), (Some l'), (h_unreturned h). split; [done|]. split; [|done]. intros t. rewrite Hl. cbn.
        by rewrite (sl_promote_token _ _ _ _ Ep).
      + set (h1 := set_ledger s (h_out h) (set_primary_lease None h)).
        destruct (release_lease_spec h1 (Some l)) as (s' & out & ur & -> & Hout & Hur).
        { congruence. }
        { intros x [= <-]. cbn. rewrite Hl. cbn. rewrite decide_True by done.
          pose proof (ocnt_nonneg (ls_token l) (otoken (h_opening_lease h))).
          pose proof (cnt_nonneg (ls_token l) (h_unreturned h)).
          pose proof (ocnt_nonneg (ls_token l) (otoken (h_primary_lease h))). lia. }
        exists s', out, None, ur. split; [done|]. split; [|done].
        intros t. rewrite Hout. cbn. rewrite Hl. cbn. unfold retired. lia.
    - exists (h_ledger h), (h_out h), None, (h_unreturned h). split; [by destruct h|]. split; [|done].
      intros t. rewrite Hl. cbn. unfold retired. lia. }
  destruct Hmid as (s & out & pl & ur & -> & Hout & Hur). cbn [h_primary_lease set_primary_lease set_unreturned].
  assert (Hacq : exists s1 out1 pl',
    match pl with
    | None => let '(h0, r) := acquire_slot cfg PRIMARY (set_unreturned ur (set_primary_lease pl (set_ledger s out h))) in
              set_primary_lease r h0
    | Some _ => set_unreturned ur (set_primary_lease pl (set_ledger s out h))
    end = set_unreturned ur (set_primary_lease pl' (set_ledger s1 out1 h)) /\
    forall t, cnt t out1 = ocnt t (otoken (h_opening_lease h)) + ocnt t (otoken pl') + ocnt t (otoken retired) + cnt t ur).
  { destruct pl as [x|]; [by exists s, out, (Some x)|].
    pose proof (acquire_slot_spec PRIMARY (set_unreturned ur (set_primary_lease None (set_ledger s out h)))) as Ha.
    destruct (acquire_slot cfg PRIMARY _) as [h1 r]. destruct Ha as (s' & out' & -> & Hout').
    exists s', out', r. split; [done|]. intros t. rewrite Hout'. cbn. rewrite Hout. cbn. lia. }
  destruct Hacq as (s' & out' & pl' & -> & Hout').
  destruct (release_lease_spec (set_unreturned ur (set_primary_lease pl' (set_ledger s' out' h))) retired)
    as (s2 & out2 & ur2 & -> & Hout2 & Hur2).
  { congruence. }
  { intros x Hx. cbn. rewrite Hout', Hx. cbn. rewrite decide_True by done.
    pose proof (ocnt_nonneg (ls_token x) (otoken (h_opening_lease h))).
    pose proof (cnt_nonneg (ls_token x) ur).
    pose proof (ocnt_nonneg (ls_token x) (otoken pl')). lia. }
  exists s2, out2, pl', ur2. split; [done|]. split; [|split; [congruence|auto]].
  intros t. rewrite Hout2. cbn. rewrite Hout'. lia.
Qed.

Lemma cut_over_inv h sb :
  hinv cfg h -> h_standby h = Some sb -> h_refresh_pending h = false ->
  let '(h', adapter) := cut_over cfg sb h in
  hinv cfg h' /\ h_standby h' = None /\ h_closed h' = h_closed h /\ adapter = Some (sb_adapter sb) /\
  h_refresh_pending h' = false.
Proof.
  intros (Hl & Hn & Ho & Hs & Hp & Hr) Hsb Hpen. unfold cut_over.
  assert (Hop : h_opening h = false) by (destruct (h_opening h); [|done]; by rewrite Hs in Hsb).
  unfold leases_held, standby_token in Hl. unfold no_leases, standby_token in Hn. rewrite Hsb in Hl, Hn.
  destruct (take_over_spec (set_requested false (set_seen [] (set_standby None h))) (sb_lease sb))
    as (s & out & pl & ur & -> & Hout & Hpl & Hur).
  - exact Hl.
  - intros Hu. destruct (Hn Hu) as (_ & Hx & ?). split; [by destruct (sb_lease sb)|done].
  - cbn. split; [|done]. unfold hinv, leases_held, no_leases, standby_token. cbn. split_and!; try done.
    + intros t. rewrite Hout. cbn. lia.
    + intros Hu. split_and!; [apply (Hn Hu)|done|by apply Hpl].
    + intros Ha. by apply Hur, Hr.
Qed.

(** Connections closed or standing by. *)
Definition acct (a : Z) h : Z := cnt a (h_closed h) + ocnt a (standby_adapter h).

(** What a tending stage keeps. *)
Definition tended (h h' : HState L) : Prop :=
  hinv cfg h' /\ h_opening h' = h_opening h /\ h_refresh_pending h' = h_refresh_pending h /\
  (forall a, acct a h' = acct a h).

Lemma tended_trans h1 h2 h3 : tended h1 h2 -> tended h2 h3 -> tended h1 h3.
Proof using Type.
  intros (_ & H1 & H2 & H3) (? & K1 & K2 & K3). unfold tended.
  split_and!; [done|congruence|congruence|]. intros a. by rewrite K3.
Qed.

Lemma tended_ledger h s : hinv cfg h -> tended h (set_ledger s (h_out h) h).
Proof using Type. intros HI. split_and!; done. Qed.

Lemma forget_opening h l :
  hinv cfg h -> h_opening_lease h = Some l -> tended h (set_opening_lease None (forget_slot l h)).
Proof using Type.
  intros (Hl & Hn & Ho & Hs & Hp & Hr) Hol. unfold leases_held in Hl.
  unfold tended, hinv. cbn. split_and!; try done.
  - intros t. cbn. rewrite cnt_remove_one.
    + rewrite Hl, Hol. unfold standby_token. cbn. lia.
    + rewrite Hl, Hol. cbn. rewrite decide_True by done.
      pose proof (ocnt_nonneg (ls_token l) (standby_token h)). pose proof (cnt_nonneg (ls_token l) (h_unreturned h)).
      pose proof (ocnt_nonneg (ls_token l) (otoken (h_primary_lease h))). lia.
  - intros Hu. destruct (Hn Hu) as (_ & ? & ?). done.
Qed.

Lemma reacquire_primary h :
  hc_use_ledger cfg = true -> hinv cfg h -> h_primary_lease h = None ->
  let '(h', r) := acquire_slot cfg PRIMARY h in tended h (set_primary_lease r h').
Proof using Type.
  intros Hu (Hl & Hn & Ho & Hs & Hp & Hr) Hpl. pose proof (acquire_slot_spec PRIMARY h) as Ha.
  destruct (acquire_slot cfg PRIMARY h) as [h1 r]. destruct Ha as (s & out & -> & Hout).
  unfold tended, hinv. cbn. split_and!; try done; [|congruence].
  intros t. cbn. rewrite Hout, Hl, Hpl. cbn. unfold standby_token. cbn. lia.
Qed.

Lemma forget_primary h l :
  hc_use_ledger cfg = true -> hinv cfg h -> h_primary_lease h = Some l ->
  let '(h', r) := acquire_slot cfg PRIMARY (forget_slot l h) in tended h (set_primary_lease r h').
Proof using Type.
  intros Hu (Hl & Hn & Ho & Hs & Hp & Hr) Hpl. pose proof (acquire_slot_spec PRIMARY (forget_slot l h)) as Ha.
  destruct (acquire_slot cfg PRIMARY (forget_slot l h)) as [h1 r]. destruct Ha as (s & out & -> & Hout).
  unfold tended, hinv. cbn. split_and!; try done; [|congruence].
  intros t. cbn. rewrite Hout. cbn. rewrite cnt_remove_one.
  - rewrite Hl, Hpl. cbn. unfold standby_token. cbn. lia.
  - rewrite Hl, Hpl. cbn. rewrite decide_True by done.
    pose proof (ocnt_nonneg (ls_token l) (standby_token h)). pose proof (cnt_nonneg (ls_token l) (h_unreturned h)).
    pose proof (ocnt_nonneg (ls_token l) (otoken (h_opening_lease h))). lia.
Qed.

Lemma drop_standby_tended h : hinv cfg h -> tended h (drop_standby cfg h).
Proof using Type.
  intros HI. destruct (drop_standby_inv h HI) as (H1 & H2 & H3 & H4 & H5 & H6 & H7).
  unfold tended. split_and!; try done. intros a. unfold acct. rewrite H7.
  assert (standby_adapter (drop_standby cfg h) = None) as -> by (unfold standby_adapter; by rewrite H2).
  cbn. lia.
Qed.

Lemma tend_leases_tended now h :
  hc_use_ledger cfg = true -> hinv cfg h -> tended h (tend_leases cfg now h).
Proof using Type.
  intros Hu HI. unfold tend_leases. set (due := match h_lease_tended_at h with Some _ => _ | None => _ end).
  destruct due; [split_and!; done|].
  set (h0 := set_tended (Some now) h).
  assert (T0 : tended h h0) by (split_and!; done).
  set (h1 := match h_opening h0, h_opening_lease h0 with true, Some _ => _ | _, _ => _ end).
  assert (T1 : tended h0 h1).
  { unfold h1. destruct (h_opening h0); [|split_and!; try done; apply T0].
    destruct (h_opening_lease h0) as [l|] eqn:El; [|split_and!; try done; apply T0].
    destruct (renew_slot_spec l h0) as [s Hs]. destruct (renew_slot l h0) as [h2 ok]. cbn in Hs. subst h2.
    pose proof (tended_ledger h0 s (proj1 T0)) as T. destruct ok; [done|].
    eapply tended_trans; [exact T|]. by apply forget_opening; [apply T|]. }
  set (h2 := match h_standby h1 with Some _ => _ | None => _ end).
  assert (T2 : tended h1 h2).
  { unfold h2. destruct (h_standby h1) as [sb|]; [|split_and!; try done; apply T1].
    destruct (sb_lease sb) as [l|]; [|split_and!; try done; apply T1].
    destruct (renew_slot_spec l h1) as [s Hs]. destruct (renew_slot l h1) as [h3 ok]. cbn in Hs. subst h3.
    pose proof (tended_ledger h1 s (proj1 T1)) as T. destruct ok; [done|].
    eapply tended_trans; [exact T|]. apply drop_standby_tended, T. }
  eapply tended_trans; [exact T0|]. eapply tended_trans; [exact T1|]. eapply tended_trans; [exact T2|].
  clearbody h2. destruct T2 as (HI2 & _). clear h1 h0 T0 T1.
  destruct (h_primary_lease h2) as [l|] eqn:El.
  - destruct (renew_slot_spec l h2) as [s Hs]. destruct (renew_slot l h2) as [h3 ok]. cbn in Hs. subst h3.
    pose proof (tended_ledger h2 s HI2) as T. destruct ok; [done|].
    pose proof (forget_primary (set_ledger s (h_out h2) h2) l Hu (proj1 T) El) as T'.
    destruct (acquire_slot _ _ _) as [h4 r]. exact (tended_trans _ _ _ T T').
  - pose proof (reacquire_primary h2 Hu HI2 El) as T'. by destruct (acquire_slot _ _ _) as [h4 r].
Qed.

Lemma adopt_inv result now h :
  hinv cfg h -> h_opening h = true ->
  let h' := adopt cfg result now h in
  hinv cfg h' /\ h_opening h' = false /\ h_refresh_pending h' = h_refresh_pending h /\
  forall a, acct a h' = acct a h + ocnt a result.
Proof using Type.
  intros (Hl & Hn & Ho & Hs & Hp & Hr) Hop. assert (Hsb := Hs Hop). unfold adopt.
  unfold leases_held, standby_token in Hl. rewrite Hsb in Hl.
  unfold no_leases, standby_token in Hn. rewrite Hsb in Hn.
  set (h0 := set_opening_lease None (set_opening false h)).
  assert (Hrel : forall h1, h_out h1 = h_out h -> h_unreturned h1 = h_unreturned h -> h_standby h1 = None -> h_opening h1 = false ->
    h_opening_lease h1 = None -> h_primary_lease h1 = h_primary_lease h ->
    let h' := set_overlap false (set_seen [] (release_lease cfg (h_opening_lease h) h1)) in
    hinv cfg h' /\ h_opening h' = false /\ h_refresh_pending h' = h_refresh_pending h1 /\
    h_closed h' = h_closed h1 /\ h_standby h' = None).
  { intros h1 Eout Eur Esb Eop Eol Epl.
    destruct (release_lease_spec h1 (h_opening_lease h)) as (s & out & ur & -> & Hout & Hur).
    { intros Hu. apply (Hn Hu). }
    { intros x Hx. rewrite Eout, Hl, Hx. cbn. rewrite decide_True by done. pose proof (cnt_nonneg (ls_token x) (h_unreturned h)).
      pose proof (ocnt_nonneg (ls_token x) (otoken (h_primary_lease h))). lia. }
    cbn. split_and!; try done. unfold hinv, leases_held, no_leases, standby_token. cbn. rewrite Esb, Eol, Epl.
    split_and!; try done; [|intros Hu; split_and!; try done; apply (Hn Hu)|intros Ha; rewrite Eur in Hur; by apply Hur, Hr].
    intros t. rewrite Hout, Eout, Eur, Hl. cbn. lia. }
  destruct result as [a|].
  - destruct (hc_use_ledger cfg && match h_opening_lease h with None => true | Some _ => false end) eqn:Eu.
    + destruct (Hrel (add_closed a h0)) as (H1 & H2 & H3 & H4 & H5); try done.
      split_and!; [done|done|exact H3|]. intros a'. unfold acct, standby_adapter. rewrite H4, H5, Hsb. cbn.
      rewrite cnt_app. cbn. lia.
    + assert (Hfin : forall seen, let h' := set_overlap false (set_seen seen (set_counters (h_standby_owner h0 + 1) (-1) 0
                (set_standby (Some (mkStandby a now None None (h_opening_lease h))) h0))) in
                hinv cfg h' /\ h_opening h' = false /\ h_refresh_pending h' = h_refresh_pending h /\
                forall a', acct a' h' = acct a' h + ocnt a' (Some a)).
      { intros seen. cbn. unfold hinv, leases_held, no_leases, standby_token, acct, standby_adapter. cbn. rewrite Hsb.
        split_and!; try done.
        - intros t. rewrite Hl. cbn. lia.
        - intros Hu. destruct (Hn Hu) as (-> & _ & ->). done.
        - intros a'. cbn. lia. }
      cbn. destruct (h_refresh_overlap h) eqn:Er; [|apply (Hfin [])]. apply (Hfin (h_seen h)).
  - destruct (Hrel h0) as (H1 & H2 & H3 & H4 & H5); try done.
    split_and!; [done|done|exact H3|]. intros a'. unfold acct, standby_adapter. rewrite H4, H5, Hsb. cbn. lia.
Qed.

(** Between iterations no refresh is pending. *)
Definition idle h : Prop := hinv cfg h /\ h_refresh_pending h = false.

Lemma maybe_start_inv eligible live now sod window h :
  idle h -> let h' := maybe_start cfg eligible live now sod window h in hinv cfg h' /\ forall a, acct a h' = acct a h.
Proof using Type.
  intros [HI Hpen]. unfold maybe_start. destruct (h_opening h) eqn:Eop; [done|].
  assert (Hplain : let h' := (let h0 := set_requested false h in
        if negb (h_requested h || window) || negb eligible || active h0 then h0
        else if negb (elapsed now (hc_cooldown_s cfg) (h_last_start h0)) then h0
        else if match hc_max_sessions cfg with Some m => m <=? live | None => false end
        then set_last_start (Some now) h0
        else fst (start_opening cfg (set_last_start (Some now) h0))) in
      hinv cfg h' /\ forall a, acct a h' = acct a h).
  { cbv zeta. destruct (_ || active (set_requested false h)) eqn:Ea; [done|].
    destruct (negb (elapsed _ _ _)); [done|]. destruct (match hc_max_sessions cfg with Some _ => _ | None => _ end); [done|].
    assert (Hsb : h_standby h = None).
    { unfold active in Ea. cbn in Ea. destruct (h_standby h); [|done]. by rewrite !orb_true_r in Ea. }
    destruct (start_opening_inv (set_last_start (Some now) (set_requested false h))) as (H1 & H2 & H3 & _); [done..|].
    split; [done|]. intros a. unfold acct, standby_adapter. rewrite H2, H3, <- Hsb. done. }
  destruct (hc_stall_lag_s cfg) as [stall|]; [|done].
  destruct (h_standby h) as [sb|] eqn:Esb; [|done].
  destruct (h_requested h) eqn:Er; [|done].
  destruct (_ && _); [|done]. split; [|done].
  destruct HI as (Hl & Hn & Ho & Hs & Hp & Hr). unfold hinv, leases_held, no_leases. cbn. split_and!; try done.
Qed.

Lemma note_event_inv e b h :
  hinv cfg h -> let h' := note_event e b h in
  hinv cfg h' /\ h_refresh_pending h' = h_refresh_pending h /\ h_opening h' = h_opening h /\ forall a, acct a h' = acct a h.
Proof using Type.
  intros HI. unfold note_event. destruct e as [e|]; [|done].
  destruct b; [|done]. destruct (h_standby h) as [sb|] eqn:Esb; [|done].
  destruct HI as (Hl & Hn & Ho & Hs & Hp & Hr). unfold hinv, leases_held, no_leases, standby_token, acct, standby_adapter in *.
  cbn. rewrite Esb in *. cbn in *. split_and!; try done. intros Hop. by apply Hs in Hop.
Qed.

Lemma admit_inv hash f b h :
  hinv cfg h -> let h' := fst (admit_frame hash f b h) in
  hinv cfg h' /\ h_refresh_pending h' = h_refresh_pending h /\ h_opening h' = h_opening h /\ forall a, acct a h' = acct a h.
Proof using Type.
  intros HI. unfold admit_frame. destruct (match h_standby h with Some _ => _ | None => _ end); [done|].
  pose proof (note_event_inv (event_second_of f) b h HI) as Hn. cbv zeta in Hn.
  set (h1 := note_event _ _ _) in *. clearbody h1. unfold admit_key.
  destruct (dget _ _) as [o|]; [|exact Hn]. destruct (o =? _); exact Hn.
Qed.

Lemma record_frame_inv lag ok f b h recorded :
  hinv cfg h -> let h' := fst (record_frame lag ok f b h recorded) in
  hinv cfg h' /\ h_refresh_pending h' = h_refresh_pending h /\ forall a, acct a h' = acct a h.
Proof using Type. intros HI. unfold record_frame. destruct ok, lag; done. Qed.

Lemma standby_part_inv hash e h recorded frames :
  hinv cfg h -> let h' := fst (fst (standby_part hash e h recorded frames)) in
  hinv cfg h' /\ forall a, acct a h' = acct a h.
Proof using Type.
  intros HI. unfold standby_part. destruct (h_standby h); [|done]. destruct (cy_standby_in e) as [[f|]|]; [|done|done].
  destruct (admit_inv hash f true h HI) as (A1 & _ & _ & A2). destruct (admit_frame hash f true h) as [h' ok].
  cbn [fst] in A1, A2. destruct (record_frame_inv (cy_lag1 e) ok f true h' recorded A1) as (B1 & _ & B3).
  destruct (record_frame _ ok f true h' recorded) as [h2 r]. cbn in *. split; [done|]. intros a. by rewrite B3, A2.
Qed.

Lemma step_inv opening_done failed now window h :
  hinv cfg h ->
  let '(h', cut) := step cfg opening_done failed now window h in
  idle h' /\ forall a, acct a h' + ocnt a cut = acct a h +
    cnt a (match h_refresh_pending h, h_opening h, opening_done with
           | false, true, Some (Some x) => [x] | _, _, _ => [] end).
Proof.
  intros HI. unfold step. destruct (h_refresh_pending h) eqn:Epen.
  - assert (Eop : h_opening h = false) by (by apply HI).
    set (h0 := set_refresh (h_last_refresh h) false (h_refresh_overlap h) h).
    assert (HI0 : hinv cfg h0).
    { destruct HI as (Hl & Hn & Ho & Hs & Hp & Hr). unfold hinv, leases_held, no_leases. cbn. split_and!; done. }
    set (h1 := match h_standby h0 with Some _ => _ | None => _ end).
    assert (H1 : hinv cfg h1 /\ h_standby h1 = None /\ h_opening h1 = false /\ h_refresh_pending h1 = false /\
              forall a, acct a h1 = acct a h0).
    { unfold h1. destruct (h_standby h0) as [sb|] eqn:Esb; [|done].
      destruct (drop_standby_inv h0 HI0) as (K1 & K2 & K3 & _ & K5 & _).
      pose proof (drop_standby_tended h0 HI0) as (_ & _ & _ & K7).
      split_and!; [exact K1|exact K2|by rewrite <- Eop|exact K5|]. intros a. apply K7. }
    clearbody h1. destruct H1 as (K1 & K2 & K3 & K4 & K5).
    pose proof (start_opening_inv h1 K1 K3 K2 K4) as (S1 & S2 & S3 & S4 & _).
    destruct (start_opening cfg h1) as [h2 started]. cbn [fst] in *.
    split; [split; [exact S1|exact S4]|]. intros a.
    change (acct a (set_overlap started h2)) with (acct a h2). unfold acct, standby_adapter. rewrite S2, S3.
    specialize (K5 a). unfold acct, standby_adapter in K5. rewrite K2 in K5. cbn in K5 |- *. lia.
  - set (h1 := match h_opening h, opening_done with true, Some _ => _ | _, _ => _ end).
    assert (H1 : hinv cfg h1 /\ h_refresh_pending h1 = false /\ forall a, acct a h1 = acct a h +
              cnt a (match h_opening h, opening_done with true, Some (Some x) => [x] | _, _ => [] end)).
    { unfold h1. destruct (h_opening h) eqn:Eop; [|split_and!; [done|done|intros a; cbn; lia]].
      destruct opening_done as [r|]; [|split_and!; [done|done|intros a; cbn; lia]].
      destruct (adopt_inv r now h HI Eop) as (K1 & K2 & K3 & K4). split_and!; [done|congruence|].
      intros a. rewrite K4. destruct r; cbn; lia. }
    clearbody h1. destruct H1 as (K1 & K2 & K3).
    set (h2 := if hc_use_ledger cfg then tend_leases cfg now h1 else h1).
    assert (H2 : tended h1 h2).
    { unfold h2. destruct (hc_use_ledger cfg) eqn:Eu; [by apply tend_leases_tended|split_and!; done]. }
    clearbody h2. destruct H2 as (L1 & _ & L3 & L4). rewrite K2 in L3.
    assert (Hacc : forall a, acct a h2 = acct a h +
              cnt a (match h_opening h, opening_done with true, Some (Some x) => [x] | _, _ => [] end))
      by (intros a; by rewrite L4, K3).
    clear L4 K3 K1 K2. destruct (h_standby h2) as [sb|] eqn:Esb.
    2:{ split; [done|]. intros a. rewrite Hacc. cbn. lia. }
    assert (Hdrop : forall h3, tended h2 h3 -> idle (drop_standby cfg h3) /\
              forall a, acct a (drop_standby cfg h3) = acct a h2).
    { intros h3 T. destruct (tended_trans _ _ _ T (drop_standby_tended h3 (proj1 T))) as (T1 & _ & T3 & T4).
      split; [split; [done|congruence]|done]. }
    assert (Hcut : forall h3, tended h2 h3 -> h_standby h3 = Some sb ->
              let '(h', cut) := cut_over cfg sb h3 in
              idle h' /\ forall a, acct a h' + ocnt a cut = acct a h2).
    { intros h3 (T1 & _ & T3 & T4) E3. pose proof (cut_over_inv h3 sb T1 E3 ltac:(congruence)) as Hc.
      destruct (cut_over cfg sb h3) as [h4 cut]. destruct Hc as (C1 & C2 & C3 & -> & C5).
      split; [done|]. intros a. rewrite <- T4. unfold acct, standby_adapter. rewrite C2, C3, E3. cbn. lia. }
    assert (T2 : tended h2 h2) by (split_and!; done).
    destruct failed; [destruct (Hdrop h2 T2) as [D1 D2]; split; [done|]; intros a; rewrite D2, Hacc; cbn; lia|].
    destruct window; [split; [done|]; intros a; rewrite Hacc; cbn; lia|].
    destruct (negb _); [split; [done|]; intros a; rewrite Hacc; cbn; lia|].
    destruct (sb_lease sb) as [l|].
    + destruct (renew_slot_spec l h2) as [s Hs]. destruct (renew_slot l h2) as [h3 ok]. cbn in Hs. subst h3.
      pose proof (tended_ledger h2 s L1) as T. destruct ok.
      * specialize (Hcut _ T Esb). destruct (cut_over _ _ _) as [h4 cut]. destruct Hcut as [C1 C2].
        split; [done|]. intros a. by rewrite C2, Hacc.
      * destruct (Hdrop _ T) as [D1 D2]. split; [done|]. intros a. rewrite D2, Hacc. cbn. lia.
    + specialize (Hcut _ T2 Esb). destruct (cut_over _ _ _) as [h4 cut]. destruct Hcut as [C1 C2].
      split; [done|]. intros a. by rewrite C2, Hacc.
Qed.

Lemma aclose_inv outcome h :
  idle h -> let h' := aclose cfg outcome h in
  idle h' /\ h_opening h' = false /\ h_standby h' = None /\
  forall a, cnt a (h_closed h') = acct a h + (if h_opening h then ocnt a outcome else 0).
Proof using Type.
  intros [HI Hpen]. unfold aclose.
  set (h0 := set_overlap false h).
  set (h1 := if h_opening h0 then _ else h0).
  assert (H1 : idle h1 /\ h_opening h1 = false /\
            forall a, acct a h1 = acct a h + (if h_opening h then ocnt a outcome else 0)).
  { unfold h1. change (h_opening h0) with (h_opening h). destruct (h_opening h) eqn:Eop.
    2:{ split_and!; [|done|intros a; change (acct a h0) with (acct a h); lia].
        destruct HI as (Hl & Hn & Ho & Hs & Hp & Hr). split; [|done]. unfold hinv, leases_held, no_leases. cbn. done. }
    destruct HI as (Hl & Hn & Ho & Hs & Hp & Hr). pose proof (Hs Eop) as Hsb.
    unfold leases_held, standby_token in Hl. rewrite Hsb in Hl.
    unfold no_leases, standby_token in Hn. rewrite Hsb in Hn.
    set (h2 := match outcome with Some a => _ | None => _ end).
    assert (E : h_out h2 = h_out h /\ h_standby h2 = None /\ h_opening h2 = false /\ h_opening_lease h2 = None /\
              h_primary_lease h2 = h_primary_lease h /\ h_refresh_pending h2 = false /\
              h_unreturned h2 = h_unreturned h /\ forall a, cnt a (h_closed h2) = cnt a (h_closed h) + ocnt a outcome).
    { unfold h2. destruct outcome; cbn; split_and!; try done; intros a; [rewrite cnt_app; cbn; lia|lia]. }
    clearbody h2. destruct E as (E1 & E2 & E3 & E4 & E5 & E6 & E8 & E7).
    change (h_opening_lease h0) with (h_opening_lease h).
    destruct (release_lease_spec h2 (h_opening_lease h)) as (s & out & ur & -> & Hout & Hur).
    { intros Hu. apply (Hn Hu). }
    { intros x Hx. rewrite E1, Hl, Hx. cbn. rewrite decide_True by done. pose proof (cnt_nonneg (ls_token x) (h_unreturned h)).
      pose proof (ocnt_nonneg (ls_token x) (otoken (h_primary_lease h))). lia. }
    unfold idle, hinv, leases_held, no_leases, standby_token, acct, standby_adapter. cbn.
    rewrite E2, E3, E4, E5, Hsb. split_and!; try done;
      [|intros Hu; split_and!; try done; apply (Hn Hu)|intros Ha; rewrite E8 in Hur; by apply Hur, Hr
       |intros a; rewrite E7; cbn; lia].
    intros t. rewrite Hout, E1, E8, Hl. cbn. lia. }
  clearbody h1. destruct H1 as ([K1 K2] & K3 & K4).
  destruct (drop_standby_inv h1 K1) as (D1 & D2 & D3 & _ & D5 & _ & D7).
  split_and!; [split; [done|congruence]|congruence|done|]. intros a. rewrite D7. rewrite <- K4. unfold acct. done.
Qed.
End HandoverLemmas.

(** The loop's invariant: leases accounted for, and every connection the loop was
    given is the primary, the standby or closed. *)
Definition loop_inv {L} `{SlotLedger L} (cfg : HandoverCfg) (primary0 : Z) (l : Loop L) : Prop :=
  idle cfg (lp_h l) /\
  forall a, cnt a (primary0 :: lp_delivered l) = acct a (lp_h l) + ocnt a (Some (lp_primary l)).

Lemma pump_cycle_inv {L} `{SlotLedgerLaws L} cfg hash primary0 e (l : Loop L) :
  loop_inv cfg primary0 l -> loop_inv cfg primary0 (pump_cycle cfg hash e l).
Proof.
  intros [HI Hacc]. unfold pump_cycle.
  destruct (maybe_start_inv cfg (0 <? lp_frames l) (if active (lp_h l) then 2 else 1) (cy_now e) (cy_wall_sod e)
    (cy_window1 e) (lp_h l) HI) as [M1 M2].
  set (h1 := maybe_start _ _ _ _ _ _ _) in *. clearbody h1.
  destruct (standby_part_inv cfg hash e h1 (lp_recorded l) (lp_frames l) M1) as [A1 A2'].
  destruct (standby_part hash e h1 (lp_recorded l) (lp_frames l)) as [[h2 recorded] frames]. cbn [fst] in A1, A2'.
  assert (A2 : forall a, acct a h2 = acct a (lp_h l)) by (intros a; by rewrite A2', M2).
  pose proof (step_inv cfg (cy_opening e) (standby_failed e h2) (cy_now e) (cy_window2 e) h2 A1) as S.
  destruct (step cfg _ _ _ _ h2) as [h3 cut]. destruct S as [S1 S2].
  assert (Hd : forall a, cnt a (primary0 :: lp_delivered l ++ delivered_by e h2)
                         = acct a h3 + ocnt a cut + ocnt a (Some (lp_primary l))).
  { intros a. rewrite S2, A2. specialize (Hacc a). cbn in Hacc |- *. rewrite cnt_app. unfold delivered_by.
    destruct (h_refresh_pending h2), (h_opening h2), (cy_opening e) as [[x|]|]; cbn; lia. }
  assert (Hclose : forall (h : HState L) x, acct x (add_closed (lp_primary l) h) = acct x h + ocnt x (Some (lp_primary l))).
  { intros h x. unfold acct. cbn. rewrite cnt_app. cbn. unfold standby_adapter. cbn. lia. }
  assert (Hidle : forall h : HState L, idle cfg h -> idle cfg (add_closed (lp_primary l) h)) by done.
  destruct cut as [adapter|].
  - split; cbn; [by apply Hidle|]. intros a. rewrite Hclose. specialize (Hd a). cbn in Hd |- *. lia.
  - destruct (cy_primary_in e) as [[f|]|].
    + destruct S1 as [S1 S1']. destruct (admit_inv cfg hash f false h3 S1) as (B1 & B2 & _ & B3).
      destruct (admit_frame hash f false h3) as [h4 ok]. cbn [fst] in B1, B2, B3.
      destruct (record_frame_inv cfg (cy_lag2 e) ok f false h4 recorded B1) as (C1 & C2 & C3).
      destruct (record_frame _ ok f false h4 recorded) as [h5 recorded']. cbn in *.
      split; cbn; [split; [done|congruence]|]. intros a. rewrite C3, B3. specialize (Hd a). cbn in Hd. lia.
    + unfold on_primary_failure. destruct (h_standby h3) as [sb|] eqn:Esb.
      * pose proof (cut_over_inv cfg h3 sb (proj1 S1) Esb (proj2 S1)) as C.
        destruct (cut_over cfg sb h3) as [h4 cut]. destruct C as (C1 & C2 & C3 & -> & C5).
        split; cbn; [by apply Hidle|]. intros a. rewrite Hclose. specialize (Hd a). cbn in Hd.
        unfold acct, standby_adapter in Hd |- *. rewrite Esb in Hd. rewrite C2, C3. cbn in Hd |- *. lia.
      * split; cbn; [done|]. intros a. specialize (Hd a). cbn in Hd. lia.
    + split; cbn; [done|]. intros a. specialize (Hd a). cbn in Hd. lia.
Qed.

Lemma pump_run_inv {L} `{SlotLedgerLaws L} cfg hash primary0 es : forall l : Loop L,
  loop_inv cfg primary0 l -> loop_inv cfg primary0 (pump_run cfg hash es l).
Proof.
  induction es as [|e es IH]; intros l HI; cbn; [done|].
  destruct (lp_running l); [|done]. by apply IH, pump_cycle_inv.
Qed.

Lemma cnt_perm {A} `{EqDecision A} (l k : list A) : (forall x, cnt x l = cnt x k) -> l ≡ₚ k.
Proof.
  revert k. induction l as [|y l IH]; intros k Hc.
  - rewrite (cnt_nil k); [done|]. intros x. by rewrite <- Hc.
  - assert (Hy : y ∈ k).
    { destruct (decide (y ∈ k)) as [|Hn]; [done|]. exfalso.
      assert (cnt y k = 0).
      { clear -Hn. induction k as [|z k IH]; [done|]. apply not_elem_of_cons in Hn as [Hz Hn]. cbn.
        rewrite decide_False by done. rewrite IH by done. lia. }
      specialize (Hc y). cbn in Hc. rewrite decide_True in Hc by done. pose proof (cnt_nonneg y l). lia. }
    apply list_elem_of_split in Hy as (k1 & k2 & ->). rewrite <- Permutation_middle. constructor.
    apply IH. intros x. specialize (Hc x). rewrite cnt_app in *. cbn in Hc. lia.
Qed.

(** Returning the primary's slot once no bring-up and no standby is left. *)
Lemma release_primary_spec {L} `{SlotLedgerLaws L} cfg (h : HState L) :
  hinv cfg h -> h_opening h = false -> h_standby h = None ->
  let h' := release_primary_lease cfg h in
  h_out h' ≡ₚ h_unreturned h' /\ (releases_accepted L -> h_unreturned h' = []) /\ h_closed h' = h_closed h.
Proof.
  intros (Hl & Hn & Ho & Hs & Hp & Hr) A3 A4. unfold release_primary_lease.
  unfold leases_held, standby_token in Hl. rewrite A4, (Ho A3) in Hl. cbn in Hl.
  destruct (release_lease_spec cfg (set_primary_lease None h) (h_primary_lease h)) as (s & out & ur & -> & Hout & Hur).
  - intros Hf. by apply (Hn Hf).
  - intros x Hx. cbn. rewrite Hl, Hx. cbn. rewrite decide_True by done.
    pose proof (cnt_nonneg (ls_token x) (h_unreturned h)). lia.
  - cbn. split_and!; [|intros Ha; by apply Hur, Hr|done].
    apply cnt_perm. intros t. rewrite Hout. cbn. rewrite Hl. lia.
Qed.

(** ** The file ledger as a handover's ledger *)

(** The shared file, the process's object, and for each coming call what the other
    processes do to the file before it and what the call meets. *)
Record FileLedger := mkFileLedger {
  fl_cfg : LedgerCfg; fl_file : option (option json); fl_script : list (list Turn * LedgerEnv)
}.

Definition file_call {A} (op : LedgerEnv -> lio A) (s : FileLedger) : FileLedger * option A :=
  match fl_script s with
  | [] => (s, None)
  | (others, env) :: script =>
      let f := fst (run_turns (fl_cfg s) others (fl_file s) []) in
      let '(s', r) := op env (mkLState f 0) in
      (mkFileLedger (fl_cfg s) (l_file s') script, match r with Ok a => Some a | Raise _ => None end)
  end.

#[export] Instance file_ledger : SlotLedger FileLedger := {
  sl_acquire owner role s := file_call (fun env => acquire (fl_cfg s) env owner role) s;
  sl_renew l s := file_call (fun env => renew (fl_cfg s) env l) s;
  sl_promote l s := file_call (fun env => promote (fl_cfg s) env l) s;
  sl_release l s := file_call (fun env => release (fl_cfg s) env l) s
}.

Lemma promote_token cfg env l s s' l' : promote cfg env l s = (s', Ok l') -> ls_token l' = ls_token l.
Proof.
  unfold promote, locked, sbind, unavailable, sraise. destruct (negb (e_lock env)); [done|].
  destruct (load cfg env s) as [s1 [es|]]; [|done]. cbv beta.
  destruct (find_token _ (ls_token l)) as [e|] eqn:Ef.
  - apply find_token_slot in Ef as [_ Ht].
    destruct (_ || _); destruct (store _ _ _) as [s2 [?|]]; try done. unfold sret. intros [= <- <-]. exact Ht.
  - destruct (store _ _ _) as [s2 [?|]]; done.
Qed.

#[export] Instance file_ledger_laws : SlotLedgerLaws FileLedger.
Proof.
  constructor. intros l s s' l' H. cbn in H. unfold file_call in H.
  destruct (fl_script s) as [|[others env] script]; [done|].
  destruct (promote _ _ _ _) as [s1 [x|]] eqn:Ep; [|done]. injection H as <- <-.
  by eapply promote_token.
Qed.

(** ** Duplicate suppression while two connections are open *)

Section Admit.
Context {L : Type} `{SlotLedger L} (frame_hash : string * string * string -> Z).
Implicit Types (h : HState L).

(** The frames received while nothing else happens, with the verdict on each. *)
Fixpoint admit_run (fs : list (L0Frame * bool)) h : HState L * list (L0Frame * bool * bool) :=
  match fs with
  | [] => (h, [])
  | (f, src) :: fs' =>
      let '(h1, ok) := admit_frame frame_hash f src h in
      let '(h2, log) := admit_run fs' h1 in
      (h2, (f, src, ok) :: log)
  end.

Definition both_open h : Prop :=
  match h_standby h with Some _ => True | None => h_refresh_overlap h = true end.
Definition token_of h (src : bool) : Z := if src then h_standby_owner h else 0.

Lemma admit_both_open f src h :
  both_open h -> zlen (h_seen h) <= SEEN_CAP ->
  let '(h', ok) := admit_frame frame_hash f src h in
  both_open h' /\ h_standby_owner h' = h_standby_owner h /\
  match dget (h_seen h) (frame_key frame_hash f) with
  | Some o => h_seen h' = h_seen h /\ ok = (o =? token_of h src)
  | None => h_seen h' = dset (h_seen h) (frame_key frame_hash f) (token_of h src) /\ ok = true
  end.
Proof using Type.
  intros Hb Hc. unfold admit_frame.
  assert (match h_standby h with None => negb (h_refresh_overlap h) | Some _ => false end = false) as ->.
  { unfold both_open in Hb. destruct (h_standby h); [done|by rewrite Hb]. }
  set (h1 := note_event _ _ _).
  assert (E : both_open h1 /\ h_standby_owner h1 = h_standby_owner h /\ h_seen h1 = h_seen h).
  { unfold h1, note_event, both_open in *. destruct (event_second_of f) as [e|]; [|done].
    destruct src; [|done]. destruct (h_standby h) eqn:Es; cbn; [done|]. by rewrite Es. }
  clearbody h1. destruct E as (E1 & E2 & E3). unfold admit_key. rewrite E3, E2.
  rewrite (proj2 (Z.ltb_ge _ _)) by done. fold (token_of h src).
  destruct (dget (h_seen h) (frame_key frame_hash f)) as [o|]; [|done].
  by destruct (o =? token_of h src).
Qed.

Definition verdict_ok (h : HState L) (seen : list (Z * Z)) (x : L0Frame * bool * bool) : Prop :=
  let '(f, src, ok) := x in
  if ok then dget seen (frame_key frame_hash f) = Some (token_of h src)
  else exists o, o <> token_of h src /\ dget seen (frame_key frame_hash f) = Some o.

(** Nothing is forgotten while the memory is below its cap: keys keep their owner,
    and every key comes from the start or from an admitted frame. *)
Lemma admit_run_spec fs : forall h,
  both_open h -> zlen (h_seen h) + zlen fs <= SEEN_CAP ->
  let '(h', log) := admit_run fs h in
  (forall k o, dget (h_seen h) k = Some o -> dget (h_seen h') k = Some o) /\
  Forall (verdict_ok h (h_seen h')) log /\
  (forall k o, dget (h_seen h') k = Some o -> dget (h_seen h) k = Some o \/
     exists f src, (f, src, true) ∈ log /\ frame_key frame_hash f = k /\ token_of h src = o) /\
  map fst log = fs.
Proof using Type.
  induction fs as [|[f src] fs IH]; intros h Hb Hc; cbn [admit_run].
  { split_and!; [done|constructor|by left|done]. }
  assert (Hlen : zlen ((f, src) :: fs) = 1 + zlen fs) by (unfold zlen; cbn; lia).
  pose proof (admit_both_open f src h Hb) as Ha.
  destruct (admit_frame frame_hash f src h) as [h1 ok].
  destruct Ha as (Hb1 & Ho1 & Hcase); [unfold zlen in *; lia|].
  assert (Hgrow : zlen (h_seen h1) <= zlen (h_seen h) + 1).
  { destruct (dget (h_seen h) (frame_key frame_hash f)) as [o|] eqn:Eg; destruct Hcase as [-> _]; [lia|].
    rewrite dset_fresh by done. unfold zlen. rewrite length_app. cbn. lia. }
  specialize (IH h1 Hb1 ltac:(lia)). destruct (admit_run fs h1) as [h2 log].
  destruct IH as (I1 & I2 & I3 & I4).
  assert (Htok : forall s, token_of h1 s = token_of h s) by (intros s; unfold token_of; by rewrite Ho1).
  assert (Hkeep : forall k o, dget (h_seen h) k = Some o -> dget (h_seen h1) k = Some o).
  { intros k o Hk. destruct (dget (h_seen h) (frame_key frame_hash f)) as [o'|] eqn:Eg; destruct Hcase as [-> _]; [done|].
    rewrite dget_dset_ne; [done|]. intros <-. congruence. }
  split_and!.
  - auto.
  - constructor.
    + destruct (dget (h_seen h) (frame_key frame_hash f)) as [o|] eqn:Eg; destruct Hcase as [Hs ->]; cbn.
      * destruct (o =? token_of h src) eqn:E; [apply Z.eqb_eq in E as <-; auto|].
        apply Z.eqb_neq in E. exists o. auto.
      * apply I1. rewrite Hs. apply dget_dset_eq.
    + eapply Forall_impl; [exact I2|]. intros [[f' src'] ok']. cbn. rewrite Htok. done.
  - intros k o Hk. destruct (I3 k o Hk) as [H1|(f' & src' & Hin & Hh & Ht)].
    + destruct (dget (h_seen h) (frame_key frame_hash f)) as [o'|] eqn:Eg; destruct Hcase as [Hs Hok]; rewrite Hs in H1; [by left|].
      destruct (decide (frame_key frame_hash f = k)) as [<-|Hne].
      * right. exists f, src. rewrite dget_dset_eq in H1. injection H1 as <-. subst ok. split_and!; [left|done|done].
      * left. by rewrite dget_dset_ne in H1.
    + right. exists f', src'. rewrite <- Htok. split_and!; [by right|done|done].
  - cbn. by rewrite I4.
Qed.
End Admit.

(** ** Properties *)

(** C10. A handover leaks nothing: over any run of the receive loop, whatever the
    vendor, the lag monitor, the slot ledger and the clock do (starts, swap requests,
    refreshes, cut-overs, failures), the leases granted to it and not taken back by the
    ledger are exactly those of its bring-up, its standby and its primary and those whose
    release the ledger failed; every connection a bring-up delivered is the primary, the
    standby or closed; and once the loop closes the handover and returns the primary slot,
    the only leases outstanding are those whose release failed (none when the ledger
    accepts every release) and every connection but the primary is closed. *)
Theorem handover_no_leak {L} `{SlotLedgerLaws L} cfg hash (ledger : L) lease now primary0 es outcome :
  (hc_use_ledger cfg = false -> lease = None) ->
  let l := pump_run cfg hash es (mkLoop (new_handover cfg ledger lease now) primary0 [] [] 0 true) in
  let h := aclose cfg outcome (lp_h l) in
  let h_end := release_primary_lease cfg h in
  h_out (lp_h l) ≡ₚ option_list (otoken (h_opening_lease (lp_h l))) ++ option_list (standby_token (lp_h l))
                    ++ option_list (otoken (h_primary_lease (lp_h l))) ++ h_unreturned (lp_h l) /\
  primary0 :: lp_delivered l ≡ₚ lp_primary l :: h_closed (lp_h l) ++ option_list (standby_adapter (lp_h l)) /\
  h_out h_end ≡ₚ h_unreturned h_end /\
  (releases_accepted L -> h_out h_end = []) /\
  primary0 :: lp_delivered l ++ (if h_opening (lp_h l) then option_list outcome else [])
    ≡ₚ lp_primary l :: h_closed h_end.
Proof.
  intros Hu. cbv zeta. set (l0 := mkLoop _ _ _ _ _ _).
  assert (HI0 : loop_inv cfg primary0 l0).
  { split; [split; [|done]|]; cbn.
    - unfold hinv, leases_held, no_leases, standby_token. cbn. split_and!; try done.
      + intros t. destruct lease; cbn; lia.
      + intros Hn. split_and!; [done|done|by apply Hu].
    - intros a. unfold acct. cbn. lia. }
  destruct (pump_run_inv cfg hash primary0 es l0 HI0) as [HI Hacc].
  set (l := pump_run cfg hash es l0) in *. clearbody l.
  assert (Hopt : forall {A} `{EqDecision A} (x : A) o, cnt x (option_list o) = ocnt x o)
    by (intros A EA x [y|]; cbn; lia).
  destruct (aclose_inv cfg outcome (lp_h l) HI) as ([A1 A2] & A3 & A4 & A5).
  set (h := aclose cfg outcome (lp_h l)) in *. clearbody h.
  destruct (release_primary_spec cfg h A1 A3 A4) as (E1 & E2 & E3).
  split_and!.
  - apply cnt_perm. intros t. destruct HI as [(Hl & _) _]. rewrite Hl, !cnt_app, !Hopt. lia.
  - apply cnt_perm. intros a. rewrite Hacc. cbn. rewrite cnt_app, Hopt. unfold acct. lia.
  - exact E1.
  - intros Ha. rewrite (E2 Ha) in E1. by apply Permutation_nil_r.
  - rewrite E3. apply cnt_perm. intros a. specialize (Hacc a). cbn in Hacc |- *. rewrite cnt_app, A5.
    destruct (h_opening (lp_h l)); rewrite ?Hopt; cbn; lia.
Qed.

(** C11. No payload is recorded from both connections: from any state in which a standby
    or a refresh keeps two connections open, with whatever memory it has, over frames
    received while nothing else happens and as long as they and the remembered keys do not
    exceed the memory's cap (beyond it the oldest quarter is forgotten), two recorded
    frames with the same key, the hash of stream, symbol and body, came from the same
    connection; and a frame is dropped only when its key was recorded from the other
    connection during the run or was remembered from before as another connection's. *)
Theorem overlap_no_duplicates {L} `{SlotLedger L} hash (h : HState L) fs :
  both_open h -> 0 < h_standby_owner h -> zlen (h_seen h) + zlen fs <= SEEN_CAP ->
  let key := frame_key hash in
  let '(h', log) := admit_run hash fs h in
  map fst log = fs /\
  (forall f1 src1 f2 src2, (f1, src1, true) ∈ log -> (f2, src2, true) ∈ log -> key f1 = key f2 -> src1 = src2) /\
  (forall f src, (f, src, false) ∈ log ->
     (exists f' src', (f', src', true) ∈ log /\ key f' = key f /\ src' <> src) \/
     (exists o, dget (h_seen h) (key f) = Some o /\ o <> token_of h src)).
Proof.
  intros Hb Ho Hc key. pose proof (admit_run_spec hash fs h Hb Hc) as Hs.
  destruct (admit_run hash fs h) as [h' log]. destruct Hs as (_ & HF & Hor & Hm). rewrite Forall_forall in HF.
  assert (Htok : forall s s', token_of h s = token_of h s' -> s = s').
  { intros [] []; unfold token_of; (done || lia). }
  split_and!; [done| |].
  - intros f1 src1 f2 src2 H1%HF H2%HF Hh. cbn in H1, H2. unfold key in Hh. rewrite Hh in H1. apply Htok. congruence.
  - intros f src Hf%HF. cbn in Hf. destruct Hf as (o & Hne & Hg).
    destruct (Hor _ _ Hg) as [Hi|(f' & src' & Hin & Hh & Ht)]; [right; by exists o|left].
    exists f', src'. split_and!; [done|done|]. intros ->. by rewrite Ht in Hne.
Qed.

(** A primary on connection 1, a window that opens a standby on connection 2, and a
    cut-over once the primary caught up. *)
Definition demo_hcfg : HandoverCfg := mkHCfg 60 10 None None 30 true "o" 90.
Definition demo_ledger_of (env_of : Z -> LedgerEnv) : FileLedger :=
  mkFileLedger demo_cfg (fst (run_turns demo_cfg (take 1 demo_turns) None []))
    (map (fun n => ([], env_of n)) [1; 2; 3; 4; 5; 6; 7; 8]).
Definition demo_ledger : FileLedger := demo_ledger_of (fun n => demo_env n (String.append "s" (str_of_Z n))).
Definition demo_primary : Lease := mkLease "ls" "k" "a" PRIMARY "t0" 100.
Definition demo_frame (stream raw time : string) : L0Frame := mkFrame0 stream "005930" raw time.
Definition demo_cycles : list CycleEnv :=
  [mkCycle 0 0 false true None None false (Some (Some (demo_frame "T" "z" "090000"))) false;
   mkCycle 1 0 true true None None false (Some (Some (demo_frame "T" "a" "090001"))) false;
   mkCycle 2 0 true true (Some (Some 2)) None false None false;
   mkCycle 3 0 true true None (Some (Some (demo_frame "T" "b" "090002"))) false None false;
   mkCycle 40 0 false false None None false (Some (Some (demo_frame "T" "b" "090002"))) false;
   mkCycle 41 0 false false None None false (Some (Some (demo_frame "T" "c" "090003"))) false].
Definition demo_hash (payload : string * string * string) : Z :=
  match snd payload with String c _ => Z.of_nat (nat_of_ascii c) | EmptyString => 0 end.
Definition demo_start (cfg : HandoverCfg) (ledger : FileLedger) : Loop FileLedger :=
  mkLoop (new_handover cfg ledger (Some demo_primary) 0) 1 [] [] 0 true.
Definition demo_loop : Loop FileLedger := pump_run demo_hcfg demo_hash demo_cycles (demo_start demo_hcfg demo_ledger).

Example demo_loop_cuts_over :
  lp_primary demo_loop = 2 /\ map (fun x => f_raw (fst x)) (lp_recorded demo_loop) = ["z"; "a"; "b"] /\
  h_closed (lp_h demo_loop) = [1].
Proof. vm_compute. auto. Qed.

(** A swap request opens a standby; the request raised while the standby stalls
    replaces it by a fresh one (connection 3), which the primary's failure promotes. *)
Definition refresh_hcfg : HandoverCfg := mkHCfg 600 10 None (Some 5) 30 true "o" 90.
Definition refresh_cycles : list CycleEnv :=
  [mkCycle 0 0 false false None None false (Some (Some (demo_frame "T" "a" "090000"))) true;
   mkCycle 1 0 false false None None false (Some (Some (demo_frame "T" "b" "090001"))) false;
   mkCycle 2 0 false false (Some (Some 2)) None false None false;
   mkCycle 3 0 false false None None false (Some (Some (demo_frame "T" "c" "090002"))) true;
   mkCycle 20 0 false false None None false None false;
   mkCycle 21 0 false false (Some (Some 3)) None false None false;
   mkCycle 22 0 false false None None false (Some None) false].

Example refresh_reached :
  let run k := pump_run refresh_hcfg demo_hash (take k refresh_cycles) (demo_start refresh_hcfg demo_ledger) in
  h_requested (lp_h (run 1%nat)) = true /\ standby_adapter (lp_h (run 4%nat)) = Some 2 /\
  h_refresh_overlap (lp_h (run 5%nat)) = true /\ h_closed (lp_h (run 5%nat)) = [2] /\
  standby_adapter (lp_h (run 6%nat)) = Some 3 /\ lp_primary (run 7%nat) = 3.
Proof. vm_compute. auto 10. Qed.

(** The same run when the ledger cannot be locked for the dropped standby's release:
    its slot stays granted, and so the last account names it. *)
Definition refused_ledger : FileLedger :=
  demo_ledger_of (fun n => mkEnv (negb (n =? 2)) true true true n n n (String.append "s" (str_of_Z n))).

Example failed_release_stays_out :
  let h := release_primary_lease refresh_hcfg (aclose refresh_hcfg None
             (lp_h (pump_run refresh_hcfg demo_hash refresh_cycles (demo_start refresh_hcfg refused_ledger)))) in
  h_unreturned h = ["s1"] /\ h_out h = ["s1"].
Proof. vm_compute. auto. Qed.

(** A ledger in memory that accepts every release. *)
Record MemLedger := mkMem { mem_next : Z; mem_live : list string }.
#[export] Instance mem_ledger : SlotLedger MemLedger := {
  sl_acquire owner role s :=
    let token := String.append "m" (str_of_Z (mem_next s)) in
    (mkMem (mem_next s + 1) (mem_live s ++ [token]), Some (mkLease "ls" "k" owner role token 100));
  sl_renew l s := (s, Some (bool_decide (ls_token l ∈ mem_live s)));
  sl_promote l s := (s, if bool_decide (ls_token l ∈ mem_live s) then Some l else None);
  sl_release l s := (mkMem (mem_next s) (remove_one (ls_token l) (mem_live s)), Some tt)
}.
#[export] Instance mem_ledger_laws : SlotLedgerLaws MemLedger.
Proof. constructor. intros l s s' l'. cbn. case_bool_decide; [by intros [= <- <-]|done]. Qed.

(** The refresh run over the shared file, and over a ledger that accepts every release. *)
Lemma handover_no_leak_witness :
  (let l := pump_run refresh_hcfg demo_hash refresh_cycles (demo_start refresh_hcfg demo_ledger) in
   let h := release_primary_lease refresh_hcfg (aclose refresh_hcfg None (lp_h l)) in
   h_out h ≡ₚ h_unreturned h) /\
  h_out (release_primary_lease refresh_hcfg (aclose refresh_hcfg None (lp_h
    (pump_run refresh_hcfg demo_hash refresh_cycles
       (mkLoop (new_handover refresh_hcfg (mkMem 0 ["t0"]) (Some demo_primary) 0) 1 [] [] 0 true))))) = [].
Proof.
  split.
  - apply (handover_no_leak refresh_hcfg demo_hash demo_ledger (Some demo_primary) 0 1 refresh_cycles None). done.
  - apply (handover_no_leak refresh_hcfg demo_hash (mkMem 0 ["t0"]) (Some demo_primary) 0 1 refresh_cycles None); done.
Defined.

Lemma overlap_no_duplicates_witness :
  let h := set_counters 1 (-1) 0 (set_standby (Some (mkStandby 2 0 None None None))
             (new_handover demo_hcfg demo_ledger None 0)) in
  let '(_, log) := admit_run demo_hash [(demo_frame "T" "b" "090002", true); (demo_frame "T" "b" "090002", false)] h in
  map fst log = [(demo_frame "T" "b" "090002", true); (demo_frame "T" "b" "090002", false)] /\
  map snd log = [true; false].
Proof.
  intros h.
  pose proof (overlap_no_duplicates demo_hash h
    [(demo_frame "T" "b" "090002", true); (demo_frame "T" "b" "090002", false)] I eq_refl ltac:(by vm_compute)) as Ho.
  destruct (admit_run _ _ _) as [h' log] eqn:E. split; [apply Ho|].
  assert (Hl : log = snd (admit_run demo_hash [(demo_frame "T" "b" "090002", true); (demo_frame "T" "b" "090002", false)] h))
    by (by rewrite E).
  rewrite Hl. vm_compute. reflexivity.
Defined.
