(* ===== verification/SeqSet.v ===== *)
(** * Observed sequence numbers ([src/storage/l0_audit.py], class [_SeenSequences])

    The standard library's binary search and the set of [conn_seq] values the
    audit keeps as merged integer intervals, refined to the plain set of the
    numbers added. *)
From S2P Require Import Prelude.

(** ** [bisect]

    [right_of e] is the comparison that sends the search to the right of [e]:
    [e < x] for [bisect_left] and [not x < e] for [bisect_right]. The fuel is the
    length of the list: every round shrinks the range by one at least. *)
Fixpoint bisect_go (fuel : nat) (right_of : Z -> bool) (l : list Z) (lo hi : nat) : nat :=
  match fuel with
  | O => lo
  | S f =>
      if (lo <? hi)%nat then
        let mid := ((lo + hi) / 2)%nat in
        if right_of (nth mid l 0) then bisect_go f right_of l (S mid) hi
        else bisect_go f right_of l lo mid
      else lo
  end.

Definition bisect_left (l : list Z) (x : Z) : nat :=
  bisect_go (length l) (fun e => e <? x) l 0 (length l).
Definition bisect_right (l : list Z) (x : Z) : nat :=
  bisect_go (length l) (fun e => negb (x <? e)) l 0 (length l).

(** ** The interval set *)

(** [_starts] and [_ends], two parallel lists. *)
Record SeenSequences := mkSeen { ss_starts : list Z; ss_ends : list Z }.

Definition new_seen : SeenSequences := mkSeen [] [].

(** [__contains__] of an integer; [None] is an [IndexError]. *)
Definition seen_mem (s : SeenSequences) (seq : Z) : option bool :=
  match bisect_right (ss_starts s) seq with
  | O => Some false
  | S i => e ← ss_ends s !! i; Some (seq <=? e)
  end.

(** The [while] loop of [add]: intervals after the current one that touch it are
    merged into it and deleted. *)
Fixpoint absorb (hi : Z) (starts ends : list Z) : option (Z * list Z * list Z) :=
  match starts, ends with
  | [], _ => Some (hi, [], ends)
  | s :: starts', e :: ends' =>
      if s - 1 <=? hi then absorb (if hi <? e then e else hi) starts' ends' else Some (hi, starts, ends)
  | s :: _, [] => if s - 1 <=? hi then None else Some (hi, starts, ends)
  end.

(** [starts[idx] = new_start; ends[idx] = new_end] and the loop behind. *)
Definition place (idx : nat) (new_start new_end : Z) (s : SeenSequences) : option SeenSequences :=
  '(hi, starts', ends') ← absorb new_end (drop (S idx) (ss_starts s)) (drop (S idx) (ss_ends s));
  Some (mkSeen (take idx (ss_starts s) ++ new_start :: starts') (take idx (ss_ends s) ++ hi :: ends')).

(** The [elif] and [else] branches of [add]: the interval at [idx] touches the
    number from the right, or a new interval is inserted there. *)
Definition touch_right (idx : nat) (s : SeenSequences) (seq : Z) : option SeenSequences :=
  let starts := ss_starts s in
  let ends := ss_ends s in
  let fresh :=
    mkSeen (take idx starts ++ seq :: drop idx starts) (take idx ends ++ seq :: drop idx ends) in
  if (idx <? length starts)%nat then
    st ← starts !! idx;
    if st - 1 <=? seq then
      en ← ends !! idx;
      if seq <=? en + 1 then
        place idx (if st <=? seq then st else seq) (if seq <=? en then en else seq) s
      else Some fresh
    else Some fresh
  else Some fresh.

Definition seen_add (s : SeenSequences) (seq : Z) : option SeenSequences :=
  match bisect_left (ss_starts s) seq with
  | O => touch_right 0 s seq
  | S i =>
      en ← ss_ends s !! i;
      if seq <=? en + 1 then
        st ← ss_starts s !! i;
        place i st (if seq <=? en then en else seq) s
      else touch_right (S i) s seq
  end.

(** Adding a list of sequence numbers in order. *)
Fixpoint seen_add_all (s : SeenSequences) (l : list Z) : option SeenSequences :=
  match l with
  | [] => Some s
  | x :: l' => s' ← seen_add s x; seen_add_all s' l'
  end.

(** ** Lemmas *)

Lemma bisect_go_split p A B : forall fuel lo hi,
  Forall (fun e => p e = true) A -> Forall (fun e => p e = false) B ->
  (lo <= length A <= hi)%nat -> (hi <= length (A ++ B))%nat -> (hi - lo <= fuel)%nat ->
  bisect_go fuel p (A ++ B) lo hi = length A.
Proof.
  induction fuel as [|f IH]; intros lo hi HA HB Hr Hh Hf; cbn [bisect_go]; [lia|].
  destruct (Nat.ltb_spec lo hi) as [Hlt|]; [|lia].
  set (mid := ((lo + hi) / 2)%nat).
  assert (Hm : (lo <= mid < hi)%nat).
  { unfold mid. split; [apply Nat.div_le_lower_bound; lia|apply Nat.div_lt_upper_bound; lia]. }
  clearbody mid. rewrite length_app in Hh. destruct (decide (mid < length A)%nat) as [Hc|Hc].
  - rewrite app_nth1 by done. rewrite Forall_forall in HA.
    rewrite HA by (apply list_elem_of_In, nth_In; lia). apply IH; rewrite ?length_app; auto with lia.
    by rewrite Forall_forall.
  - rewrite app_nth2 by lia. rewrite Forall_forall in HB.
    rewrite HB by (apply list_elem_of_In, nth_In; lia). apply IH; rewrite ?length_app; auto with lia.
    by rewrite Forall_forall.
Qed.

Lemma bisect_left_split A B x :
  Forall (fun e => e < x) A -> Forall (fun e => x <= e) B -> bisect_left (A ++ B) x = length A.
Proof.
  intros HA HB. unfold bisect_left. apply bisect_go_split; rewrite ?length_app; try lia.
  - eapply Forall_impl; [exact HA|]. cbn. lia.
  - eapply Forall_impl; [exact HB|]. cbn. lia.
Qed.

Lemma bisect_right_split A B x :
  Forall (fun e => e <= x) A -> Forall (fun e => x < e) B -> bisect_right (A ++ B) x = length A.
Proof.
  intros HA HB. unfold bisect_right. apply bisect_go_split; rewrite ?length_app; try lia.
  - eapply Forall_impl; [exact HA|]. cbn. lia.
  - eapply Forall_impl; [exact HB|]. cbn. lia.
Qed.

(** The intervals as pairs: each non-empty, and a gap of one number at least
    between neighbours. *)
Abbreviation ivals := (list (Z * Z)).

Definition apart (a b : Z * Z) : Prop := snd a + 1 < fst b.

Record canonical (L : ivals) : Prop := {
  cn_order : StronglySorted apart L;
  cn_nonempty : Forall (fun p => fst p <= snd p) L;
}.

Definition covers (L : ivals) (x : Z) : Prop := Exists (fun p => fst p <= x <= snd p) L.

Definition of_ivals (L : ivals) : SeenSequences := mkSeen (map fst L) (map snd L).

Lemma covers_app L K x : covers (L ++ K) x <-> covers L x \/ covers K x.
Proof. apply Exists_app. Qed.

Lemma covers_cons p L x : covers (p :: L) x <-> fst p <= x <= snd p \/ covers L x.
Proof. apply Exists_cons. Qed.

Lemma covers_nil x : covers [] x <-> False.
Proof. apply Exists_nil. Qed.

Lemma canonical_app L K :
  canonical (L ++ K) <->
  canonical L /\ canonical K /\ forall a b, a ∈ L -> b ∈ K -> apart a b.
Proof.
  induction L as [|p L IH]; cbn.
  - split; [intros H; split_and!; [split; constructor|done|set_solver]|naive_solver].
  - split.
    + intros [HS HN]. apply StronglySorted_inv in HS as [HS HF]. apply Forall_cons in HN as [Hp HN].
      destruct IH as [[HL [HK Hx]] _]; [by split|]. apply Forall_app in HF as [HF1 HF2].
      split_and!; [|done|].
      * destruct HL. split; [by constructor|by constructor].
      * intros a b [->|Ha]%elem_of_cons Hb; [|by apply Hx]. rewrite Forall_forall in HF2. auto.
    + intros ([HS HN] & HK & Hx). apply StronglySorted_inv in HS as [HS HF].
      apply Forall_cons in HN as [Hp HN].
      destruct IH as [_ [HS' HN']]; [split_and!; [by split|done|set_solver]|].
      split; [|by constructor]. constructor; [done|]. apply Forall_app. split; [done|].
      apply Forall_forall. set_solver.
Qed.

Lemma canonical_one p : fst p <= snd p -> canonical [p].
Proof. intros. split; [repeat constructor|by constructor]. Qed.

Lemma canonical_cons p L :
  canonical (p :: L) <-> fst p <= snd p /\ canonical L /\ Forall (apart p) L.
Proof.
  split.
  - intros [HS HN]. apply StronglySorted_inv in HS as [? ?]. apply Forall_cons in HN as [? ?].
    split_and!; [done|by split|done].
  - intros (? & [? ?] & ?). by split; constructor.
Qed.

(** A canonical list splits at any number, by the starts. *)
Lemma canonical_split (p : Z -> bool) L :
  (forall a b, a <= b -> p b = true -> p a = true) -> canonical L ->
  exists A B, L = A ++ B /\ Forall (fun q => p (fst q) = true) A /\ Forall (fun q => p (fst q) = false) B.
Proof.
  intros Hp. induction L as [|q L IH]; intros HL; [by exists [], []|].
  apply canonical_cons in HL as (Hq & HL & HF). destruct (p (fst q)) eqn:E.
  - destruct (IH HL) as (A & B & -> & HA & HB). exists (q :: A), B. by split_and!; [|constructor|].
  - exists [], (q :: L). split_and!; [done|done|]. constructor; [done|].
    eapply Forall_impl; [exact HF|]. cbn. intros a Ha. destruct (p (fst a)) eqn:Ea; [|done].
    rewrite (Hp (fst q) (fst a)) in E; [done| |done]. unfold apart in Ha. lia.
Qed.

Lemma absorb_spec L : forall lo hi,
  lo <= hi -> canonical L -> Forall (fun q => lo <= fst q) L ->
  exists hi' L', absorb hi (map fst L) (map snd L) = Some (hi', map fst L', map snd L') /\
    hi <= hi' /\ canonical ((lo, hi') :: L') /\ L' ⊆ L /\
    (forall x, covers ((lo, hi') :: L') x <-> covers ((lo, hi) :: L) x).
Proof.
  induction L as [|[s e] L IH]; intros lo hi Hlh HL Hlo; cbn.
  - exists hi, []. split_and!; [done|lia|by apply canonical_one|done|done].
  - apply canonical_cons in HL as (Hse & HL & HF). cbn in *. apply Forall_cons in Hlo as [Hs Hlo]. cbn in Hs.
    destruct (Z.leb_spec (s - 1) hi) as [Hc|Hc].
    + destruct (IH lo (if hi <? e then e else hi)) as (hi' & L' & -> & Hh & HC & Hsub & Hcov);
        [destruct (hi <? e) eqn:?; lia|done|done|].
      exists hi', L'. split_and!; [done|destruct (Z.ltb_spec hi e); lia|done|set_solver|].
      intros x. rewrite Hcov, !covers_cons. cbn. destruct (Z.ltb_spec hi e); intuition lia.
    + exists hi, ((s, e) :: L). split_and!; [done|lia| |done|done].
      apply canonical_cons. cbn. split_and!; [done|by apply canonical_cons|].
      constructor; [unfold apart; cbn; lia|]. eapply Forall_impl; [exact HF|].
      unfold apart. cbn. intros a Ha. lia.
Qed.

Lemma place_spec A p B lo hi :
  canonical (A ++ p :: B) -> lo <= fst p -> lo <= hi -> (forall a, a ∈ A -> snd a + 1 < lo) ->
  snd p <= hi ->
  exists L', place (length A) lo hi (of_ivals (A ++ p :: B)) = Some (of_ivals L') /\ canonical L' /\
    (forall x, covers L' x <-> covers (A ++ p :: B) x \/ lo <= x <= hi).
Proof.
  intros HC Hlo Hlh HA Hhi. apply canonical_app in HC as (HCA & HCB & Hx).
  apply canonical_cons in HCB as (Hp & HCB & HF).
  assert (HloB : Forall (fun q => lo <= fst q) B).
  { eapply Forall_impl; [exact HF|]. unfold apart. cbn. intros. lia. }
  destruct (absorb_spec B lo hi Hlh HCB HloB) as (hi' & L' & E & Hh & HC' & Hsub & Hcov).
  exists (A ++ (lo, hi') :: L'). split_and!.
  - unfold place, of_ivals; cbn. rewrite !map_app. cbn.
    rewrite !(drop_app_ge), !length_map by (rewrite length_map; lia).
    replace (S (length A) - length A)%nat with 1%nat by lia. cbn. rewrite !drop_0, E. cbn.
    by rewrite !take_app_length' by (by rewrite length_map).
  - apply canonical_app. split_and!; [done|done|]. intros a b Ha Hb.
    apply elem_of_cons in Hb as [->|Hb]; [unfold apart; cbn; auto|].
    apply Hx; [done|]. apply elem_of_cons. auto.
  - intros x. rewrite !covers_app, Hcov, !covers_cons. cbn. intuition lia.
Qed.

Lemma insert_spec A B x :
  canonical (A ++ B) -> (forall a, a ∈ A -> snd a + 1 < x) -> (forall b, b ∈ B -> x + 1 < fst b) ->
  canonical (A ++ (x, x) :: B) /\
  (forall y, covers (A ++ (x, x) :: B) y <-> covers (A ++ B) y \/ y = x).
Proof.
  intros (HA & HB & Hx)%canonical_app H1 H2. split.
  - apply canonical_app. split_and!; [done| |].
    + apply canonical_cons. cbn. split_and!; [done|done|]. apply Forall_forall. intros b Hb. by apply H2.
    + intros a b Ha [->|Hb]%elem_of_cons; [by apply H1|by apply Hx].
  - intros y. rewrite !covers_app, covers_cons. cbn. intuition lia.
Qed.

Lemma lookup_middle {A} (l : list A) x k : (l ++ x :: k) !! length l = Some x.
Proof. by rewrite lookup_app_r, Nat.sub_diag by lia. Qed.

Lemma starts_app A B : ss_starts (of_ivals (A ++ B)) = map fst A ++ map fst B.
Proof. apply map_app. Qed.

Lemma ends_app A B : ss_ends (of_ivals (A ++ B)) = map snd A ++ map snd B.
Proof. apply map_app. Qed.

(** What [add] does when no interval to the left of the number touches it. *)
Lemma touch_right_spec A B x :
  canonical (A ++ B) -> (forall a, a ∈ A -> snd a + 1 < x) -> Forall (fun q => x <= fst q) B ->
  exists L', touch_right (length A) (of_ivals (A ++ B)) x = Some (of_ivals L') /\ canonical L' /\
    (forall y, covers L' y <-> covers (A ++ B) y \/ y = x).
Proof.
  intros HC HA HB. unfold touch_right. cbv zeta. rewrite !starts_app, !ends_app.
  assert (Hins : (forall b, b ∈ B -> x + 1 < fst b) -> exists L',
    Some (mkSeen (take (length A) (map fst A ++ map fst B) ++ x :: drop (length A) (map fst A ++ map fst B))
       (take (length A) (map snd A ++ map snd B) ++ x :: drop (length A) (map snd A ++ map snd B)))
      = Some (of_ivals L') /\ canonical L' /\ (forall y, covers L' y <-> covers (A ++ B) y \/ y = x)).
  { intros H2. exists (A ++ (x, x) :: B). split; [|by apply insert_spec]. unfold of_ivals. rewrite !map_app. cbn.
    by rewrite !take_app_length', !drop_app_length' by (by rewrite length_map). }
  destruct B as [|[st en] B].
  { cbn [map] in *. rewrite !app_nil_r in *. rewrite length_map, Nat.ltb_irrefl. apply Hins. set_solver. }
  cbn [map fst snd] in *.
  replace (length A <? _)%nat with true; [|symmetry; apply Nat.ltb_lt; rewrite length_app, length_map; cbn; lia].
  pose proof (lookup_middle (map fst A) st (map fst B)) as E1. rewrite length_map in E1. rewrite E1.
  pose proof (lookup_middle (map snd A) en (map snd B)) as E2. rewrite length_map in E2. rewrite E2.
  cbn [mbind option_bind]. apply Forall_cons in HB as [Hst HB]. cbn in Hst.
  pose proof HC as (_ & (Hse & HCB & HF)%canonical_cons & _)%canonical_app. cbn in Hse.
  destruct (Z.leb_spec (st - 1) x) as [Hc|Hc].
  - replace (x <=? en + 1) with true by (symmetry; apply Z.leb_le; lia).
    destruct (place_spec A (st, en) B (if st <=? x then st else x) (if x <=? en then en else x))
      as (L' & E & HC' & Hcov); try done; cbn.
    + destruct (Z.leb_spec st x); lia.
    + destruct (Z.leb_spec st x), (Z.leb_spec x en); lia.
    + intros a Ha. apply HA in Ha. destruct (Z.leb_spec st x); lia.
    + destruct (Z.leb_spec x en); lia.
    + exists L'. split_and!; [done|done|]. intros y. rewrite Hcov, covers_app, covers_cons. cbn.
      destruct (Z.leb_spec st x), (Z.leb_spec x en); intuition lia.
  - apply Hins. intros b [->|Hb]%elem_of_cons; [cbn; lia|].
    rewrite Forall_forall in HF. apply HF in Hb. unfold apart in Hb. cbn in Hb. lia.
Qed.

(** A list that satisfies a test up to some point is empty there or ends in a
    last element. *)
Lemma snoc_cases {A} (l : list A) : l = [] \/ exists l0 x, l = l0 ++ [x].
Proof. destruct l as [|x l _] using rev_ind; [by left|right; by exists l, x]. Qed.

Lemma seen_add_spec L x :
  canonical L ->
  exists L', seen_add (of_ivals L) x = Some (of_ivals L') /\ canonical L' /\
    (forall y, covers L' y <-> covers L y \/ y = x).
Proof.
  intros HC.
  destruct (canonical_split (fun e => e <? x) L) as (A & B & -> & HA & HB); [lia|done|].
  assert (Ei : bisect_left (map fst (A ++ B)) x = length A).
  { rewrite map_app, (bisect_left_split _ _ x); [by rewrite length_map|..]; apply Forall_map.
    - eapply Forall_impl; [exact HA|]. cbn. lia.
    - eapply Forall_impl; [exact HB|]. cbn. lia. }
  assert (HB' : Forall (fun q => x <= fst q) B) by (eapply Forall_impl; [exact HB|]; cbn; lia).
  unfold seen_add. rewrite (Ei : bisect_left (ss_starts (of_ivals (A ++ B))) x = _).
  destruct (snoc_cases A) as [->|(A0 & [s e] & ->)]; [apply (touch_right_spec [] B); [exact HC|set_solver|exact HB']|].
  replace (length (A0 ++ [(s, e)])) with (S (length A0)) in * by (rewrite length_app; cbn; lia).
  pose proof HC as ((_ & (Hse & _)%canonical_cons & Hxa)%canonical_app & _ & _)%canonical_app. cbn in Hse.
  assert (HA0 : forall a, a ∈ A0 -> snd a + 1 < s) by (intros a Ha; apply (Hxa a (s, e)); set_solver).
  apply Forall_app in HA as [_ [Hs _]%Forall_cons]. cbn in Hs. apply Z.ltb_lt in Hs.
  rewrite starts_app, ends_app, !map_app, <- !(app_assoc (map _ A0)). cbn [map app fst snd].
  pose proof (lookup_middle (map fst A0) s (map fst B)) as E1. rewrite length_map in E1. rewrite E1.
  pose proof (lookup_middle (map snd A0) e (map snd B)) as E2. rewrite length_map in E2. rewrite E2.
  cbn [mbind option_bind]. destruct (Z.leb_spec x (e + 1)) as [Hc|Hc].
  - rewrite <- app_assoc in HC |- *. cbn [app] in HC |- *.
    destruct (place_spec A0 (s, e) B s (if x <=? e then e else x)) as (L' & E & HC' & Hcov); cbn; try done.
    + destruct (Z.leb_spec x e); lia.
    + destruct (Z.leb_spec x e); lia.
    + exists L'. split_and!; [done|done|].
      intros y. rewrite Hcov, covers_app, covers_cons. cbn. destruct (Z.leb_spec x e); intuition lia.
  - replace (S (length A0)) with (length (A0 ++ [(s, e)])) by (rewrite length_app; cbn; lia).
    destruct (touch_right_spec (A0 ++ [(s, e)]) B x) as (L' & E & HL'); [done| |done|].
    + intros a [Ha| ->%list_elem_of_singleton]%elem_of_app; [|cbn; lia]. apply HA0 in Ha. lia.
    + by exists L'.
Qed.

Lemma seen_mem_spec L x :
  canonical L -> exists b, seen_mem (of_ivals L) x = Some b /\ (b = true <-> covers L x).
Proof.
  intros HC.
  destruct (canonical_split (fun e => negb (x <? e)) L) as (A & B & -> & HA & HB); [intros a b ?; rewrite !negb_true_iff; lia|done|].
  assert (Ei : bisect_right (map fst (A ++ B)) x = length A).
  { rewrite map_app, (bisect_right_split _ _ x); [by rewrite length_map|..]; apply Forall_map.
    - eapply Forall_impl; [exact HA|]. cbn. intros a. rewrite negb_true_iff. lia.
    - eapply Forall_impl; [exact HB|]. cbn. intros a. rewrite negb_false_iff. lia. }
  assert (HnB : ~ covers B x).
  { unfold covers. rewrite Exists_exists. intros (q & Hq & Hc). rewrite Forall_forall in HB.
    apply HB in Hq. cbn in Hq. apply negb_false_iff in Hq. lia. }
  unfold seen_mem. rewrite (Ei : bisect_right (ss_starts (of_ivals (A ++ B))) x = _).
  destruct (snoc_cases A) as [->|(A0 & [s e] & ->)]; [exists false; split; [done|]; cbn; naive_solver|].
  replace (length (A0 ++ [(s, e)])) with (S (length A0)) in * by (rewrite length_app; cbn; lia).
  rewrite ends_app, !map_app, <- !(app_assoc (map _ A0)). cbn [map app fst snd].
  pose proof (lookup_middle (map snd A0) e (map snd B)) as E2. rewrite length_map in E2. rewrite E2.
  cbn [mbind option_bind].
  pose proof HC as (HCA & _ & _)%canonical_app. apply canonical_app in HCA as (_ & _ & Hxa).
  apply Forall_app in HA as [_ [Hs _]%Forall_cons]. cbn in Hs. apply negb_true_iff in Hs.
  exists (x <=? e). split; [done|]. rewrite !covers_app, covers_cons, covers_nil, Z.leb_le. cbn.
  split; [intros; left; right; left; lia|].
  intros [[Hc|[?|[]]]|?]; [|lia|done]. unfold covers in Hc. apply Exists_exists in Hc as (q & Hq & ?).
  specialize (Hxa q (s, e) Hq ltac:(set_solver)). unfold apart in Hxa. cbn in Hxa. lia.
Qed.

Lemma seen_add_all_spec l : forall L,
  canonical L ->
  exists L', seen_add_all (of_ivals L) l = Some (of_ivals L') /\ canonical L' /\
    (forall y, covers L' y <-> covers L y \/ y ∈ l).
Proof.
  induction l as [|x l IH]; intros L HL; cbn.
  - exists L. split_and!; [done|done|]. set_solver.
  - destruct (seen_add_spec L x HL) as (L1 & -> & HL1 & H1). cbn.
    destruct (IH L1 HL1) as (L' & -> & HL' & H'). exists L'. split_and!; [done|done|].
    intros y. rewrite H', H1, elem_of_cons. tauto.
Qed.

(** C32. The interval set is the set of the numbers added: whatever sequence
    numbers a connection delivers, in any order and with any repetition, adding
    them never leaves the two lists of bounds out of step, membership afterwards
    is exactly membership among the numbers added, and the intervals stay in
    order with a gap between any two, so runs of numbers are held as one
    interval. *)
Theorem seen_sequences_exact l :
  exists s, seen_add_all new_seen l = Some s /\
    (forall x, seen_mem s x = Some (bool_decide (x ∈ l))) /\
    exists L, s = of_ivals L /\ canonical L.
Proof.
  destruct (seen_add_all_spec l []) as (L & E & HL & Hc); [split; constructor|].
  exists (of_ivals L). split_and!; [done| |eauto].
  intros x. destruct (seen_mem_spec L x HL) as (b & -> & Hb). f_equal.
  apply eq_true_iff_eq. rewrite Hb, Hc, bool_decide_eq_true, covers_nil. tauto.
Qed.
