(* ===== verification/L0Decode.v ===== *)
(** * Decoding of L0 journal records ([src/storage/l0_audit.py] 206-346, 428-499, 1119-1161)

    The record envelope of a journal line, the tick body of each vendor, the
    exchange event time and the integer fields. The JSON text decoder is a
    parameter ([None] is [ValueError]); text is ASCII. *)
From Stdlib Require Import Ascii.
From S2P Require Import Prelude PyStr PyTime ExecJournal MarketPhase.

Record Envelope := mkEnvelope {
  en_raw : string;
  en_recv_ns : Z;
  en_conn_id : string;
  en_conn_seq : option Z;
  en_event_time : string;
  en_symbol : string
}.

Record ReceivedTick := mkTick {
  rt_symbol : string; rt_chetime : Z; rt_cum : Z; rt_price : Z; rt_volume : Z
}.

(** A decoded body, [dict[str, object]]. *)
Abbreviation tbody := (list (string * json)).

Definition TICK_STREAM : string := "H0STCNT0".
Definition LEDGER_VENDORS : list string := ["ls"; "kis"; "kiwoom"].

(** [_valid_hhmmss]. *)
Definition hhmmss_of (v : option json) : option Z :=
  match v with Some (JStr s) => parse_event_time s | _ => None end.

(** [_INT_RE.fullmatch] on stripped text and [int(text, 10)], which refuses more
    than 4300 digits. *)
Definition unsigned_text (l : list ascii) : option Z :=
  if (4300 <? length l)%nat then None else parse_nat l.

Definition int_text (l : list ascii) : option Z :=
  match l with
  | c :: r =>
      if decide (c = "-"%char) then option_map Z.opp (unsigned_text r)
      else if decide (c = "+"%char) then unsigned_text r
      else unsigned_text l
  | [] => None
  end.

Definition parse_int (v : option json) : option Z :=
  match v with
  | Some (JInt n) => Some n
  | Some (JStr s) => int_text (strip (s2l s))
  | _ => None
  end.

Definition text_or_empty (v : option json) : string :=
  match v with Some (JStr s) => s | _ => "" end.

(** [str(value).strip()] of a JSON value taken for an integer: only strings and
    integers print as one. *)
Definition int_of_printed (v : option json) : option Z :=
  match v with
  | Some (JStr s) => py_int (s2l s)
  | Some (JInt n) => Some n
  | _ => None
  end.

(** [f"{h:02d}{m:02d}{s:02d}"] of a second of the day. *)
Definition hhmmss_text (second_of_day : Z) : string :=
  String.append (str_pad 2 (second_of_day / 3600))
    (String.append (str_pad 2 (second_of_day mod 3600 / 60)) (str_pad 2 (second_of_day mod 60))).

(** ** The quote body's event time *)

Definition dquote : ascii := ascii_of_nat 34.

(** [\s*] before a character that is not a space, then that character. *)
Definition skip_to (c : ascii) (l : list ascii) : option (list ascii) := skip_prefix [c] (lstrip l).

(** Everything up to the closing quote. *)
Fixpoint until_quote (l : list ascii) : option (list ascii) :=
  match l with
  | [] => None
  | c :: l' => if decide (c = dquote) then Some [] else option_map (cons c) (until_quote l')
  end.

Definition hotime_here (l : list ascii) : option (list ascii) :=
  l1 ← skip_prefix (dquote :: s2l "hotime" ++ [dquote]) l;
  l2 ← skip_to ":"%char l1;
  l3 ← skip_to dquote l2;
  until_quote l3.

(** [_HOTIME_RE.search]. *)
Fixpoint hotime_search (l : list ascii) : option (list ascii) :=
  match hotime_here l with
  | Some v => Some v
  | None => match l with [] => None | _ :: l' => hotime_search l' end
  end.

Section Json.
Context (json_loads : string -> option json).

Definition decode_envelope (line : string) : option Envelope :=
  match json_loads line with
  | Some (JObj record) =>
      match dget record "raw", dget record "recv_wall_ns" with
      | Some (JStr raw), Some (JInt recv) =>
          Some (mkEnvelope raw recv (text_or_empty (dget record "conn_id"))
                  (parse_int (dget record "conn_seq"))
                  (text_or_empty (dget record "exchange_event_time"))
                  (text_or_empty (dget record "symbol")))
      | _, _ => None
      end
  | _ => None
  end.

Definition parse_body (raw : string) : tbody :=
  match json_loads raw with
  | Some (JObj payload) => match dget payload "body" with Some (JObj body) => body | _ => [] end
  | _ => []
  end.

Definition kiwoom_body (raw : string) : tbody :=
  match json_loads raw with
  | Some (JObj entry) =>
      match dget entry "item", dget entry "values" with
      | Some (JStr item), Some (JObj values) =>
          if decide (item = "") then []
          else
            match int_of_printed (dget values "10"), int_of_printed (dget values "15") with
            | Some price, Some cvolume =>
                match dget values "20", dget values "13" with
                | Some (JStr chetime), Some (JStr volume) =>
                    if bool_decide (chetime = "") || bool_decide (volume = "") then []
                    else [("shcode", JStr item); ("chetime", JStr chetime);
                          ("price", JStr (str_of_Z (Z.abs price)));
                          ("cvolume", JStr (str_of_Z (Z.abs cvolume))); ("volume", JStr volume)]
                | _, _ => []
                end
            | _, _ => []
            end
      | _, _ => []
      end
  | _ => []
  end.

(** The caret fields of a KIS tick ([quality_kis.KIS_TICK_*]). *)
Definition kis_body (raw : string) : tbody :=
  let parts := str_split "^"%char raw in
  let field i := JStr (nth i parts EmptyString) in
  if (length parts <? 17)%nat then []
  else [("shcode", field 0%nat); ("chetime", field 1%nat); ("price", field 2%nat);
        ("cvolume", field 12%nat); ("volume", field 13%nat); ("mdchecnt", field 15%nat);
        ("mschecnt", field 16%nat)].

Definition tick_body (vendor raw : string) : tbody :=
  if decide (vendor = "kiwoom") then kiwoom_body raw
  else if decide (vendor = "kis") then kis_body raw
  else parse_body raw.
End Json.

Definition tick_cum (body : tbody) : option Z :=
  match parse_int (dget body "mdchecnt"), parse_int (dget body "mschecnt") with
  | Some a, Some b => Some (a + b)
  | _, _ => None
  end.

Definition decode_received_tick (body : tbody) : option ReceivedTick :=
  match dget body "shcode", hhmmss_of (dget body "chetime"), tick_cum body,
        parse_int (dget body "price"), parse_int (dget body "cvolume") with
  | Some (JStr symbol), Some moment, Some cum, Some price, Some volume =>
      Some (mkTick symbol (time_hour moment * 10000 + time_minute moment * 100 + time_second moment)
              cum price volume)
  | _, _, _, _, _ => None
  end.

Example hotime_found :
  let q := String dquote EmptyString in
  hotime_search (s2l (String.append "{" (String.append q (String.append "hotime" (String.append q
    (String.append " : " (String.append q (String.append "090001" q)))))))) = Some (s2l "090001").
Proof. vm_compute. reflexivity. Qed.
