(* ===== verification/LossLedger.v ===== *)
(** * The missing-trade ledger ([src/storage/l0_audit.py] 95-257, 572-597, 832-1017, 1045-1101)

    Per symbol and market phase the audit follows the exchange's trade counter:
    a jump of the counter opens a loss interval, a late frame from an older
    connection fills one, a counter that falls for long enough starts a new
    count. The frames a run of the audit accepts, the intervals and the totals
    of the report are modelled as the code computes them; the loss ratio, a
    quotient of two of the totals, is left out. *)
From S2P Require Import Prelude PyStr PyTime ExecJournal MarketPhase SeqSet L0Decode.

Inductive LossKind := CONFIRMED | COUNT_ONLY.

#[global] Instance loss_kind_eq : EqDecision LossKind.
Proof. solve_decision. Defined.

Record LossInterval := mkInterval {
  iv_symbol : string;
  iv_phase : MarketPhase;
  iv_kind : LossKind;
  missing_trades : Z;
  volume_deficit : Z;
  cum_prev : Z;
  cum_next : Z;
  chetime_prev : string;
  chetime_next : string;
  recv_prev_ns : Z;
  recv_next_ns : Z;
  conn_changed : bool;
  acml_prev : option Z;
  acml_next_before : option Z
}.

Record TickFrame := mkFrame {
  tf_cum : Z;
  tf_volume : Z;
  tf_cvolume : Z;
  tf_price : option string;
  tf_chetime : string;
  tf_recv_ns : Z;
  tf_conn_id : string;
  tf_conn_seq : option Z
}.

(** [_Segment]; [seen_conns] is a set, kept as a list. *)
Record Segment := mkSegment {
  sg_phase : MarketPhase;
  sg_first_cum : option Z;
  sg_max_cum : Z;
  sg_max_frame : option TickFrame;
  sg_accepted : Z;
  sg_last : option TickFrame;
  sg_run : list TickFrame;
  sg_intervals : list LossInterval;
  sg_completed_trades : Z;
  sg_completed_net : Z;
  sg_confirmed : Z;
  sg_count_only : Z;
  sg_deficit : Z;
  sg_interval_count : Z;
  sg_seen_conns : list string
}.

Definition new_segment (p : MarketPhase) : Segment :=
  mkSegment p None 0 None 0 None [] [] 0 0 0 0 0 0 [].

Record SymbolState := mkSymbolState {
  sy_accepted_total : Z;
  sy_duplicates : Z;
  sy_regressions : Z;
  sy_resets : Z;
  sy_decode_fail : Z;
  sy_first_cum : option Z;
  sy_varied : bool;
  sy_segments : list (MarketPhase * Segment);
  sy_frames : Z
}.

Definition new_symbol_state : SymbolState := mkSymbolState 0 0 0 0 0 None false [] 0.

(** The counters of a symbol's state as the operations change them. *)
Definition add_duplicate (st : SymbolState) : SymbolState :=
  mkSymbolState (sy_accepted_total st) (sy_duplicates st + 1) (sy_regressions st) (sy_resets st)
    (sy_decode_fail st) (sy_first_cum st) (sy_varied st) (sy_segments st) (sy_frames st).
Definition add_accepted (st : SymbolState) : SymbolState :=
  mkSymbolState (sy_accepted_total st + 1) (sy_duplicates st) (sy_regressions st) (sy_resets st)
    (sy_decode_fail st) (sy_first_cum st) (sy_varied st) (sy_segments st) (sy_frames st + 1).
Definition add_regression (st : SymbolState) : SymbolState :=
  mkSymbolState (sy_accepted_total st) (sy_duplicates st) (sy_regressions st + 1) (sy_resets st)
    (sy_decode_fail st) (sy_first_cum st) (sy_varied st) (sy_segments st) (sy_frames st).
Definition add_reset (st : SymbolState) : SymbolState :=
  mkSymbolState (sy_accepted_total st) (sy_duplicates st) (sy_regressions st) (sy_resets st + 1)
    (sy_decode_fail st) (sy_first_cum st) (sy_varied st) (sy_segments st) (sy_frames st).
Definition add_decode_fail (st : SymbolState) : SymbolState :=
  mkSymbolState (sy_accepted_total st) (sy_duplicates st) (sy_regressions st) (sy_resets st)
    (sy_decode_fail st + 1) (sy_first_cum st) (sy_varied st) (sy_segments st) (sy_frames st).
Definition add_frame (st : SymbolState) : SymbolState :=
  mkSymbolState (sy_accepted_total st) (sy_duplicates st) (sy_regressions st) (sy_resets st)
    (sy_decode_fail st) (sy_first_cum st) (sy_varied st) (sy_segments st) (sy_frames st + 1).
Definition set_segment (sg : Segment) (st : SymbolState) : SymbolState :=
  mkSymbolState (sy_accepted_total st) (sy_duplicates st) (sy_regressions st) (sy_resets st)
    (sy_decode_fail st) (sy_first_cum st) (sy_varied st) (dset (sy_segments st) (sg_phase sg) sg)
    (sy_frames st).
Definition note_counter (cum : Z) (st : SymbolState) : SymbolState :=
  mkSymbolState (sy_accepted_total st) (sy_duplicates st) (sy_regressions st) (sy_resets st)
    (sy_decode_fail st) (Some (default cum (sy_first_cum st)))
    (sy_varied st || match sy_first_cum st with Some c => negb (cum =? c) | None => false end)
    (sy_segments st) (sy_frames st).

Definition set_run (r : list TickFrame) (sg : Segment) : Segment :=
  mkSegment (sg_phase sg) (sg_first_cum sg) (sg_max_cum sg) (sg_max_frame sg) (sg_accepted sg)
    (sg_last sg) r (sg_intervals sg) (sg_completed_trades sg) (sg_completed_net sg)
    (sg_confirmed sg) (sg_count_only sg) (sg_deficit sg) (sg_interval_count sg) (sg_seen_conns sg).
Definition set_last (f : TickFrame) (sg : Segment) : Segment :=
  mkSegment (sg_phase sg) (sg_first_cum sg) (sg_max_cum sg) (sg_max_frame sg) (sg_accepted sg)
    (Some f) (sg_run sg) (sg_intervals sg) (sg_completed_trades sg) (sg_completed_net sg)
    (sg_confirmed sg) (sg_count_only sg) (sg_deficit sg) (sg_interval_count sg) (sg_seen_conns sg).
Definition see_conn (c : string) (sg : Segment) : Segment :=
  mkSegment (sg_phase sg) (sg_first_cum sg) (sg_max_cum sg) (sg_max_frame sg) (sg_accepted sg)
    (sg_last sg) (sg_run sg) (sg_intervals sg) (sg_completed_trades sg) (sg_completed_net sg)
    (sg_confirmed sg) (sg_count_only sg) (sg_deficit sg) (sg_interval_count sg)
    (if decide (c ∈ sg_seen_conns sg) then sg_seen_conns sg else c :: sg_seen_conns sg).

(** ** Frames *)

Definition is_duplicate (prev f : TickFrame) : bool :=
  (tf_cum f =? tf_cum prev) && (tf_volume f =? tf_volume prev) && (tf_cvolume f =? tf_cvolume prev)
  && bool_decide (tf_price f = tf_price prev) && bool_decide (tf_chetime f = tf_chetime prev).

Fixpoint non_decreasing (run : list TickFrame) : bool :=
  match run with
  | a :: (b :: _) as run' => (tf_cum a <=? tf_cum b) && non_decreasing run'
  | _ => true
  end.

(** [l[-n:]]. *)
Definition py_tail {A} (n : Z) (l : list A) : list A :=
  if 0 <? n then drop (length l - Z.to_nat n) l else drop (Z.to_nat (- n)) l.

(** [del l[n:]] for [n >= 0]; a negative bound counts from the end. *)
Definition py_head {A} (n : Z) (l : list A) : list A :=
  if 0 <=? n then take (Z.to_nat n) l else take (length l - Z.to_nat (- n)) l.

(** [key=lambda iv: (-iv.missing_trades, iv.recv_prev_ns)]. *)
Definition iv_leb (a b : LossInterval) : bool :=
  (missing_trades b <? missing_trades a)
  || ((missing_trades a =? missing_trades b) && (recv_prev_ns a <=? recv_prev_ns b)).

Section Ledger.
(** [counter_reset_confirm_frames] (at least 2) and [max_intervals_per_symbol]
    (at least 1) of the audit settings. *)
Context (confirm_frames max_intervals : Z).

(** ** Advancing the counter *)

Definition loss_of (symbol : string) (sg : Segment) (prev f : TickFrame) : LossInterval :=
  let deficit := Z.max 0 ((tf_volume f - tf_volume prev) - tf_cvolume f) in
  mkInterval symbol (sg_phase sg) (if 0 <? deficit then CONFIRMED else COUNT_ONLY)
    (tf_cum f - sg_max_cum sg - 1) deficit (sg_max_cum sg) (tf_cum f)
    (tf_chetime prev) (tf_chetime f) (tf_recv_ns prev) (tf_recv_ns f)
    (negb (bool_decide (tf_conn_id f = tf_conn_id prev)))
    (Some (tf_volume prev)) (Some (tf_volume f - tf_cvolume f)).

(** The [if missing >= 1] block of [record_advance]. *)
Definition book_loss (iv : LossInterval) (sg : Segment) : Segment :=
  let missing := missing_trades iv in
  let confirmed := 0 <? volume_deficit iv in
  mkSegment (sg_phase sg) (sg_first_cum sg) (sg_max_cum sg) (sg_max_frame sg) (sg_accepted sg)
    (sg_last sg) (sg_run sg) (py_head max_intervals (py_sorted iv_leb (sg_intervals sg ++ [iv])))
    (sg_completed_trades sg) (sg_completed_net sg)
    (if confirmed then sg_confirmed sg + missing else sg_confirmed sg)
    (if confirmed then sg_count_only sg else sg_count_only sg + missing)
    (sg_deficit sg + volume_deficit iv) (sg_interval_count sg + 1) (sg_seen_conns sg).

Definition move_high (f : TickFrame) (sg : Segment) : Segment :=
  mkSegment (sg_phase sg) (sg_first_cum sg) (tf_cum f) (Some f) (sg_accepted sg + 1)
    (sg_last sg) (sg_run sg) (sg_intervals sg) (sg_completed_trades sg) (sg_completed_net sg)
    (sg_confirmed sg) (sg_count_only sg) (sg_deficit sg) (sg_interval_count sg) (sg_seen_conns sg).

Definition record_advance (symbol : string) (sg : Segment) (f : TickFrame) : Segment :=
  let sg :=
    match sg_max_frame sg with
    | Some prev =>
        if 1 <=? tf_cum f - sg_max_cum sg - 1 then book_loss (loss_of symbol sg prev f) sg else sg
    | None => sg
    end in
  move_high f sg.

(** ** Late frames *)

Definition is_overlap (sg : Segment) (f : TickFrame) : bool :=
  match sg_max_frame sg with
  | Some prev =>
      (tf_cum f <=? sg_max_cum sg) && negb (bool_decide (tf_conn_id f = tf_conn_id prev))
      && bool_decide (tf_conn_id f ∈ sg_seen_conns sg)
  | None => false
  end.

Definition fills_open_interval (sg : Segment) (f : TickFrame) : bool :=
  (tf_cum f <? sg_max_cum sg)
  && existsb (fun iv => (cum_prev iv <=? tf_cum f) && (tf_cum f <=? cum_next iv)) (sg_intervals sg).

(** The first interval that strictly contains the counter, with the intervals
    before and after it. *)
Fixpoint find_interval (cum : Z) (ivs : list LossInterval)
    : option (list LossInterval * LossInterval * list LossInterval) :=
  match ivs with
  | [] => None
  | iv :: ivs' =>
      if (cum_prev iv <? cum) && (cum <? cum_next iv) then Some ([], iv, ivs')
      else option_map (fun '(l, x, r) => (iv :: l, x, r)) (find_interval cum ivs')
  end.

Definition shrink (iv : LossInterval) (remaining deficit_left : Z) : LossInterval :=
  mkInterval (iv_symbol iv) (iv_phase iv) (iv_kind iv) remaining deficit_left (cum_prev iv) (cum_next iv)
    (chetime_prev iv) (chetime_next iv) (recv_prev_ns iv) (recv_next_ns iv) (conn_changed iv)
    (acml_prev iv) (acml_next_before iv).

(** The interval's update in [absorb_overlap]: one trade less, the deficit reduced
    by the frame's volume, and the interval dropped once nothing is missing. *)
Definition fill_interval (l : list LossInterval) (iv : LossInterval) (r : list LossInterval)
    (f : TickFrame) (sg : Segment) : Segment :=
  let remaining := missing_trades iv - 1 in
  let deficit_left := Z.max 0 (volume_deficit iv - tf_cvolume f) in
  let confirmed := bool_decide (iv_kind iv = CONFIRMED) in
  mkSegment (sg_phase sg) (sg_first_cum sg) (sg_max_cum sg) (sg_max_frame sg) (sg_accepted sg + 1)
    (sg_last sg) (sg_run sg)
    (l ++ (if remaining =? 0 then [] else [shrink iv remaining deficit_left]) ++ r)
    (sg_completed_trades sg) (sg_completed_net sg)
    (if confirmed then sg_confirmed sg - 1 else sg_confirmed sg)
    (if confirmed then sg_count_only sg else sg_count_only sg - 1)
    (sg_deficit sg - (volume_deficit iv - deficit_left))
    (if remaining =? 0 then sg_interval_count sg - 1 else sg_interval_count sg) (sg_seen_conns sg).

Definition absorb_overlap (st : SymbolState) (sg : Segment) (f : TickFrame) : SymbolState * Segment :=
  match find_interval (tf_cum f) (sg_intervals sg) with
  | Some (l, iv, r) => (add_accepted st, fill_interval l iv r f sg)
  | None => (add_duplicate st, sg)
  end.

(** ** One frame *)

Definition start_count (f : TickFrame) (sg : Segment) : Segment :=
  mkSegment (sg_phase sg) (Some (tf_cum f)) (tf_cum f) (Some f) 1 (Some f) (sg_run sg) (sg_intervals sg)
    (sg_completed_trades sg) (sg_completed_net sg) (sg_confirmed sg) (sg_count_only sg) (sg_deficit sg)
    (sg_interval_count sg) (sg_seen_conns sg).

(** The counter fell for [confirm_frames] frames in a row that do not fall among
    themselves: the count so far is closed and a new one starts at the first of
    them. *)
Definition restart_count (symbol : string) (first : Z) (base : TickFrame) (rest : list TickFrame)
    (f : TickFrame) (sg : Segment) : Segment :=
  let sg :=
    mkSegment (sg_phase sg) (Some (tf_cum base)) (tf_cum base) (Some base) 1 (sg_last sg) (sg_run sg)
      (sg_intervals sg) (sg_completed_trades sg + (sg_max_cum sg - first + 1))
      (sg_completed_net sg + (sg_max_cum sg - first - (sg_accepted sg - 1)))
      (sg_confirmed sg) (sg_count_only sg) (sg_deficit sg) (sg_interval_count sg) (sg_seen_conns sg) in
  set_last f (set_run [] (fold_left (record_advance symbol) rest sg)).

(** The branch of [advance_segment] below the counter's high. *)
Definition regress (symbol : string) (first : Z) (st : SymbolState) (sg : Segment) (f : TickFrame)
    : SymbolState * Segment :=
  let run := py_tail confirm_frames (sg_run sg ++ [f]) in
  let sg := set_run run sg in
  if (confirm_frames <=? zlen run) && non_decreasing run then
    match py_tail confirm_frames run with
    | base :: _ =>
        (add_reset (add_regression st),
         restart_count symbol first base (py_tail (confirm_frames - 1) run) f sg)
    | [] => (add_regression st, sg)
    end
  else (add_regression st, sg).

Definition advance_segment (symbol : string) (st : SymbolState) (sg : Segment) (f : TickFrame)
    : SymbolState * Segment :=
  if match sg_last sg with Some prev => is_duplicate prev f | None => false end
     || match rev (sg_run sg) with r :: _ => is_duplicate r f | [] => false end
  then (add_duplicate st, sg)
  else if is_overlap sg f || fills_open_interval sg f then absorb_overlap st sg f
  else
    let sg := see_conn (tf_conn_id f) sg in
    let st := add_accepted st in
    match sg_first_cum sg with
    | None => (st, start_count f sg)
    | Some first =>
        if tf_cum f <? sg_max_cum sg then regress symbol first st sg f
        else (st, set_last f (record_advance symbol (set_run [] sg) f))
    end.

(** ** The derivation's ledger state *)

Record Derivation := mkDerivation {
  dv_symbols : list (string * SymbolState);
  dv_last_regular_tick_ns : option Z;
  dv_seen : list (string * SeenSequences);
  dv_trades_received : Z
}.

Definition new_derivation : Derivation := mkDerivation [] None [] 0.

Definition symbol_state (d : Derivation) (symbol : string) : SymbolState :=
  default new_symbol_state (dget (dv_symbols d) symbol).

Definition set_symbol (symbol : string) (st : SymbolState) (d : Derivation) : Derivation :=
  mkDerivation (dset (dv_symbols d) symbol st) (dv_last_regular_tick_ns d) (dv_seen d)
    (dv_trades_received d).

Definition set_seen_for (conn : string) (s : SeenSequences) (d : Derivation) : Derivation :=
  mkDerivation (dv_symbols d) (dv_last_regular_tick_ns d) (dset (dv_seen d) conn s)
    (dv_trades_received d).

(** The tick is of the regular phase and newer than the last one. *)
Definition note_regular_tick (phase : MarketPhase) (recv_ns : Z) (d : Derivation) : Derivation :=
  if bool_decide (phase = REGULAR)
     && match dv_last_regular_tick_ns d with None => true | Some t => t <? recv_ns end
  then mkDerivation (dv_symbols d) (Some recv_ns) (dv_seen d) (dv_trades_received d)
  else d.

(** [self._seen[conn_id].add(conn_seq)], creating the set. *)
Definition note_sequence (conn : string) (seq : Z) (d : Derivation) : option Derivation :=
  s ← seen_add (default new_seen (dget (dv_seen d) conn)) seq;
  Some (set_seen_for conn s d).

(** [None] is an [IndexError] of the interval set. *)
Definition sequence_duplicate (r : Envelope) (d : Derivation) : option (Derivation * bool) :=
  match en_conn_seq r with
  | Some seq =>
      if decide (en_conn_id r = "") then Some (d, false)
      else
        let s := default new_seen (dget (dv_seen d) (en_conn_id r)) in
        b ← seen_mem s seq;
        if (b : bool) then Some (set_seen_for (en_conn_id r) s d, true)
        else d' ← note_sequence (en_conn_id r) seq d; Some (d', false)
  | None => Some (d, false)
  end.

(** An accepted tick enters its symbol's segment of the phase. *)
Definition enter_frame (symbol : string) (phase : MarketPhase) (f : TickFrame) (d : Derivation)
    : Derivation :=
  let st := note_counter (tf_cum f) (symbol_state d symbol) in
  let sg := default (new_segment phase) (dget (sy_segments st) phase) in
  let '(st, sg) := advance_segment symbol st sg f in
  set_symbol symbol (set_segment sg st) d.

Section Accept.
Context (vendor : string) (venue : MarketVenue) (windows : list PhaseWindow).

Definition accept_tick (r : Envelope) (body : tbody) (d : Derivation) : option Derivation :=
  let raw_symbol := text_or_empty (dget body "shcode") in
  let che_raw := text_or_empty (dget body "chetime") in
  let symbol := if decide (raw_symbol = "") then en_symbol r else raw_symbol in
  let phase := classify_market_phase venue che_raw TRADE windows in
  let fail :=
    if decide (symbol = "") then Some d
    else Some (set_symbol symbol (add_decode_fail (symbol_state d symbol)) d) in
  match hhmmss_of (dget body "chetime"), parse_int (dget body "volume"), parse_int (dget body "cvolume") with
  | Some _, Some volume, Some cvolume =>
      if decide (raw_symbol = "") then fail
      else if decide (vendor = "kiwoom") then
        Some (note_regular_tick phase (en_recv_ns r)
                (set_symbol raw_symbol (add_frame (symbol_state d raw_symbol)) d))
      else
        match tick_cum body with
        | None => fail
        | Some cum =>
            let d := note_regular_tick phase (en_recv_ns r) d in
            let d := set_symbol symbol (symbol_state d symbol) d in
            '(d, dup) ← sequence_duplicate r d;
            if (dup : bool) then Some (set_symbol symbol (add_duplicate (symbol_state d symbol)) d)
            else
              let price := match dget body "price" with Some (JStr p) => Some p | _ => None end in
              Some (enter_frame symbol phase
                      (mkFrame cum volume cvolume price che_raw (en_recv_ns r) (en_conn_id r) (en_conn_seq r)) d)
        end
  | _, _, _ => fail
  end.
End Accept.

(** ** The report *)

Record SymbolLedger := mkSymbolLedger {
  sl_symbol : string;
  sl_no_counter : bool;
  sl_frames : Z;
  trades_observed : Z;
  confirmed_missing : Z;
  count_only_missing : Z;
  net_missing : Z;
  sl_volume_deficit : Z;
  sl_duplicates : Z;
  sl_regressions : Z;
  sl_resets : Z;
  sl_decode_fail : Z;
  sl_intervals : list LossInterval;
  intervals_truncated : Z;
  manifest_frames : option Z
}.

Record LedgerTotals := mkTotals {
  lt_symbols : Z;
  lt_symbols_with_loss : Z;
  lt_symbols_without_counter : Z;
  lt_trades_observed : Z;
  lt_confirmed_missing : Z;
  lt_count_only_missing : Z;
  lt_net_missing_positive : Z;
  lt_volume_deficit : Z;
  lt_trades_received : Z
}.

Definition seg_trades (sg : Segment) : Z :=
  match sg_first_cum sg with
  | Some first => sg_completed_trades sg + sg_max_cum sg - first + 1
  | None => 0
  end.

Definition seg_net (sg : Segment) : Z :=
  match sg_first_cum sg with
  | Some first => sg_completed_net sg + (sg_max_cum sg - first) - (sg_accepted sg - 1)
  | None => 0
  end.

Definition no_counter (st : SymbolState) : bool :=
  (sy_accepted_total st =? 0) || ((1 <? sy_accepted_total st) && negb (sy_varied st)).

Definition symbol_ledger (manifest : option (list (string * list (string * Z)))) (symbol : string)
    (st : SymbolState) : SymbolLedger :=
  let segs := dvalues (sy_segments st) in
  let regular := List.filter (fun sg => bool_decide (sg_phase sg = REGULAR)) segs in
  let ordered := py_sorted iv_leb (concat (map sg_intervals segs)) in
  let shown := py_head max_intervals ordered in
  mkSymbolLedger symbol (no_counter st) (sy_frames st)
    (zsum (map seg_trades regular)) (zsum (map sg_confirmed regular)) (zsum (map sg_count_only regular))
    (zsum (map seg_net regular)) (zsum (map sg_deficit regular))
    (sy_duplicates st) (sy_regressions st) (sy_resets st) (sy_decode_fail st)
    shown (zsum (map sg_interval_count segs) - zlen shown)
    (m ← manifest; per_stream ← dget m symbol; dget per_stream TICK_STREAM).

Definition kv_leb {A} (a b : string * A) : bool := str_leb (fst a) (fst b).

Definition finalize_ledger (manifest : option (list (string * list (string * Z)))) (d : Derivation)
    : list SymbolLedger * LedgerTotals :=
  let ledgers := map (fun '(s, st) => symbol_ledger manifest s st) (py_sorted kv_leb (dv_symbols d)) in
  let ok := List.filter (fun e => negb (sl_no_counter e)) ledgers in
  (ledgers,
   mkTotals (zlen ok)
     (zlen (List.filter (fun e => 0 <? confirmed_missing e + count_only_missing e) ok))
     (zlen (List.filter sl_no_counter ledgers))
     (zsum (map trades_observed ok)) (zsum (map confirmed_missing ok)) (zsum (map count_only_missing ok))
     (zsum (map (fun e => Z.max 0 (net_missing e)) ok)) (zsum (map sl_volume_deficit ok))
     (dv_trades_received d)).
End Ledger.
