(* ===== verification/LossLedgerFacts.v ===== *)
(** * Theorems about the missing-trade ledger

    The invariant of a segment and of the derivation, the exact loss of a feed
    that delivers no counter twice, and the ledger's figures for a repeated
    record. *)
From S2P Require Import Prelude PyStr PyTime ExecJournal MarketPhase SeqSet L0Decode LossLedger.

#[local] Arguments zsum : simpl never.
#[local] Arguments zlen : simpl never.

(** ** Sublists and weighted sums *)

Lemma py_head_sublist {A} n (l : list A) : py_head n l `sublist_of` l.
Proof. unfold py_head. case_match; apply sublist_take. Qed.

Lemma zsum_map_cons {A} (f : A -> Z) x l : zsum (map f (x :: l)) = f x + zsum (map f l).
Proof. done. Qed.

Lemma zsum_map_nil {A} (f : A -> Z) : zsum (map f []) = 0.
Proof. done. Qed.

Lemma zsum_sublist {A} (f : A -> Z) l k :
  l `sublist_of` k -> Forall (fun x => 0 <= f x) k -> zsum (map f l) <= zsum (map f k).
Proof.
  induction 1 as [|x l k Hs IH|x l k Hs IH]; intros HF; [done|..];
    apply Forall_cons in HF as [Hx HF]; specialize (IH HF); rewrite ?zsum_map_cons; lia.
Qed.

Lemma zsum_map_perm {A} (f : A -> Z) l k : l ≡ₚ k -> zsum (map f l) = zsum (map f k).
Proof. intros H. apply zsum_perm. by apply Permutation_map. Qed.

Lemma zsum_map_app {A} (f : A -> Z) l k : zsum (map f (l ++ k)) = zsum (map f l) + zsum (map f k).
Proof. by rewrite map_app, zsum_app. Qed.

(** ** The invariant of a segment *)

Definition weight (k : LossKind) (iv : LossInterval) : Z :=
  if decide (iv_kind iv = k) then missing_trades iv else 0.

Record iv_ok (iv : LossInterval) : Prop := {
  io_missing : 1 <= missing_trades iv;
  io_span : missing_trades iv <= cum_next iv - cum_prev iv - 1;
  io_deficit : 0 <= volume_deficit iv;
}.

Definition idle (sg : Segment) : Prop :=
  sg_intervals sg = [] /\ sg_max_frame sg = None /\ sg_confirmed sg = 0 /\ sg_count_only sg = 0 /\
  sg_deficit sg = 0 /\ sg_interval_count sg = 0 /\ sg_completed_trades sg = 0 /\ sg_completed_net sg = 0.

(** A segment that counts: its figures cover what the kept intervals say, the net
    count never exceeds the booked loss, and the booked loss never exceeds the
    span of the counter. *)
Record counting (first : Z) (sg : Segment) : Prop := {
  co_high : first <= sg_max_cum sg;
  co_accepted : 1 <= sg_accepted sg;
  co_frame : exists m, sg_max_frame sg = Some m /\ tf_cum m = sg_max_cum sg;
  co_confirmed : zsum (map (weight CONFIRMED) (sg_intervals sg)) <= sg_confirmed sg;
  co_count_only : zsum (map (weight COUNT_ONLY) (sg_intervals sg)) <= sg_count_only sg;
  co_deficit : zsum (map volume_deficit (sg_intervals sg)) <= sg_deficit sg;
  co_intervals : zlen (sg_intervals sg) <= sg_interval_count sg;
  co_net : sg_completed_net sg + (sg_max_cum sg - first) - (sg_accepted sg - 1)
           <= sg_confirmed sg + sg_count_only sg;
  co_span : sg_confirmed sg + sg_count_only sg <= sg_completed_trades sg + (sg_max_cum sg - first);
}.

Record seg_ok (sg : Segment) : Prop := {
  so_intervals : Forall iv_ok (sg_intervals sg);
  so_state : match sg_first_cum sg with None => idle sg | Some first => counting first sg end;
}.

(** The loss of one kind a segment has booked. *)
Definition booked (k : LossKind) (sg : Segment) : Z :=
  match k with CONFIRMED => sg_confirmed sg | COUNT_ONLY => sg_count_only sg end.

(** The intervals [l] explain what the segment has booked. *)
Definition booked_by (sg : Segment) (l : list LossInterval) : Prop :=
  Forall (fun iv => iv_ok iv /\ iv_phase iv = sg_phase sg) l /\ zlen l = sg_interval_count sg /\
  forall k, booked k sg = zsum (map (weight k) l).

(** The kept intervals and those [del segment.intervals[cap:]] cut off explain it. *)
Definition accounted (sg : Segment) : Prop := exists cut, booked_by sg (sg_intervals sg ++ cut).

Lemma booked_by_perm sg l l' : l ≡ₚ l' -> booked_by sg l -> booked_by sg l'.
Proof.
  intros Hp (H1 & H2 & H3). split_and!; [by rewrite <- Hp| |intros k; by rewrite <- (zsum_map_perm _ _ _ Hp)].
  rewrite <- H2. unfold zlen. by rewrite Hp.
Qed.

Lemma py_head_split {A} n (l : list A) : exists rest, py_head n l ++ rest = l.
Proof. unfold py_head. destruct (0 <=? n); eexists; apply take_drop. Qed.

Lemma weight_nonneg k iv : iv_ok iv -> 0 <= weight k iv.
Proof. intros []. unfold weight. case_decide; lia. Qed.

Lemma weights_nonneg k l : Forall iv_ok l -> Forall (fun iv => 0 <= weight k iv) l.
Proof. intros H. eapply Forall_impl; [exact H|]. apply weight_nonneg. Qed.

Lemma deficits_nonneg l : Forall iv_ok l -> Forall (fun iv => 0 <= volume_deficit iv) l.
Proof. intros H. eapply Forall_impl; [exact H|]. by intros iv []. Qed.

Lemma seg_ok_new p : seg_ok (new_segment p).
Proof. split; cbn; [done|]. by split_and!. Qed.

Lemma seg_ok_run r sg : seg_ok sg -> seg_ok (set_run r sg).
Proof. intros [HI HS]. split; cbn; [done|]. destruct (sg_first_cum sg); [by destruct HS|done]. Qed.

Lemma seg_ok_last f sg : seg_ok sg -> seg_ok (set_last f sg).
Proof. intros [HI HS]. split; cbn; [done|]. destruct (sg_first_cum sg); [by destruct HS|done]. Qed.

Lemma seg_ok_conn c sg : seg_ok sg -> seg_ok (see_conn c sg).
Proof. intros [HI HS]. split; cbn; [done|]. destruct (sg_first_cum sg); [by destruct HS|done]. Qed.

Lemma accounted_new p : accounted (new_segment p).
Proof. exists []. split_and!; [constructor|done|by intros []]. Qed.

#[export] Hint Resolve seg_ok_new seg_ok_run seg_ok_last seg_ok_conn weights_nonneg deficits_nonneg : loss.

(** What [counting] says of the figures a proof compares. *)
Ltac counting_fields H :=
  let m := fresh "m" in
  destruct H as [?Hhigh ?Hacc (m & ?Hmf & ?Hm) ?Hconf ?Hcnt ?Hdef ?Hn ?Hnet ?Hspan].

Section Facts.
Context (confirm_frames max_intervals : Z).
Hypothesis Hconfirm : 2 <= confirm_frames.

Abbreviation advance := (record_advance max_intervals).

Lemma loss_ok symbol sg prev f :
  1 <= tf_cum f - sg_max_cum sg - 1 -> iv_ok (loss_of symbol sg prev f).
Proof. intros H. split; cbn; lia. Qed.

Lemma booked_intervals iv l :
  Forall iv_ok l -> iv_ok iv ->
  let l' := py_head max_intervals (py_sorted iv_leb (l ++ [iv])) in
  Forall iv_ok l' /\ zlen l' <= zlen l + 1 /\
  (forall k, zsum (map (weight k) l') <= zsum (map (weight k) l) + weight k iv) /\
  zsum (map volume_deficit l') <= zsum (map volume_deficit l) + volume_deficit iv.
Proof.
  intros Hl Hiv l'.
  assert (Hs : l' `sublist_of` py_sorted iv_leb (l ++ [iv])) by apply py_head_sublist.
  pose proof (py_sorted_perm iv_leb (l ++ [iv])) as Hp.
  assert (HF : Forall iv_ok (py_sorted iv_leb (l ++ [iv]))).
  { rewrite Hp. apply Forall_app. auto. }
  split_and!.
  - apply Forall_forall. intros x Hx. rewrite Forall_forall in HF. apply HF. by eapply elem_of_sublist.
  - apply sublist_length in Hs. rewrite py_sorted_length, length_app in Hs. unfold zlen. cbn in Hs. lia.
  - intros k. etransitivity; [apply zsum_sublist; [exact Hs|by apply weights_nonneg]|].
    rewrite (zsum_map_perm _ _ _ Hp), zsum_map_app, zsum_map_cons, zsum_map_nil. lia.
  - etransitivity; [apply zsum_sublist; [exact Hs|by apply deficits_nonneg]|].
    rewrite (zsum_map_perm _ _ _ Hp), zsum_map_app, zsum_map_cons, zsum_map_nil. lia.
Qed.

Lemma advance_ok symbol first sg f :
  Forall iv_ok (sg_intervals sg) -> counting first sg -> sg_max_cum sg <= tf_cum f ->
  Forall iv_ok (sg_intervals (advance symbol sg f)) /\ counting first (advance symbol sg f).
Proof.
  intros HI HC Hle. pose proof HC as HC'. counting_fields HC'. unfold record_advance. rewrite Hmf.
  destruct (Z.leb_spec 1 (tf_cum f - sg_max_cum sg - 1)) as [Hm1|Hm1].
  - pose proof (loss_ok symbol sg m f Hm1) as Hok.
    assert (Emt : missing_trades (loss_of symbol sg m f) = tf_cum f - sg_max_cum sg - 1) by done.
    assert (Ek : iv_kind (loss_of symbol sg m f) =
                 if 0 <? volume_deficit (loss_of symbol sg m f) then CONFIRMED else COUNT_ONLY) by done.
    generalize dependent (loss_of symbol sg m f). intros iv Hok Emt Ek.
    destruct (booked_intervals _ _ HI Hok) as (HF & Hlen & Hw & Hd).
    pose proof (Hw CONFIRMED) as Hw1. pose proof (Hw COUNT_ONLY) as Hw2. unfold weight at 3 in Hw1. unfold weight at 3 in Hw2.
    rewrite Ek, Emt in Hw1, Hw2. split; [exact HF|].
    split; cbn -[py_head py_sorted]; try (by eexists); rewrite ?Emt; try lia.
    all: destruct (0 <? volume_deficit iv); repeat case_decide; (done || lia).
  - split; [done|]. split; cbn; try (by eexists); lia || done.
Qed.

Lemma start_ok f sg : seg_ok sg -> sg_first_cum sg = None -> seg_ok (start_count f sg).
Proof.
  intros [HI HS] HN. rewrite HN in HS. destruct HS as (E1 & E2 & E3 & E4 & E5 & E6 & E7 & E8).
  split; cbn; [done|]. split; cbn; rewrite ?E1, ?E3, ?E4, ?E5, ?E6, ?E7, ?E8; try (done || lia); eauto.
Qed.

Lemma find_interval_split cum ivs : forall l iv r,
  find_interval cum ivs = Some (l, iv, r) -> ivs = l ++ iv :: r /\ cum_prev iv < cum < cum_next iv.
Proof.
  induction ivs as [|x ivs IH]; intros l iv r; cbn; [done|].
  destruct (_ && _) eqn:E; [intros; simplify_eq; bprop; split; [done|lia]|].
  destruct (find_interval cum ivs) as [[[l' y] r']|]; cbn; [|done]. intros; simplify_eq.
  destruct (IH _ _ _ eq_refl) as [-> ?]. done.
Qed.

Lemma fill_ok l iv r f sg :
  sg_intervals sg = l ++ iv :: r -> seg_ok sg -> seg_ok (fill_interval l iv r f sg).
Proof.
  intros El [HI HS]. rewrite El in HI. apply Forall_app in HI as [HL [[H1 H2 H3] HR]%Forall_cons].
  split; cbn.
  - repeat apply Forall_app_2; [done| |done]. destruct (_ =? 0) eqn:E; bprop; [constructor|].
    constructor; [|constructor]. split; cbn; lia.
  - destruct (sg_first_cum sg) as [first|]; [|destruct HS as [HS _]; by destruct l; rewrite HS in El].
    counting_fields HS. rewrite El, ?zsum_map_app, ?zsum_map_cons in *.
    unfold zlen in Hn. rewrite length_app in Hn. cbn in Hn.
    assert (Ew : forall k i, weight k i = if decide (iv_kind i = k) then missing_trades i else 0) by done.
    split; try (cbn; by eauto); unfold fill_interval; cbn [sg_intervals sg_confirmed sg_count_only
      sg_deficit sg_interval_count sg_completed_net sg_completed_trades sg_max_cum sg_accepted];
      try lia; destruct (Z.eqb_spec (missing_trades iv - 1) 0); unfold zlen;
      rewrite ?zsum_map_app, ?zsum_map_cons, ?zsum_map_nil, ?Ew, ?length_app in *; cbn [iv_kind shrink missing_trades
        volume_deficit length];
      destruct (decide (iv_kind iv = CONFIRMED)) as [Ek|Ek], (decide (iv_kind iv = COUNT_ONLY)) as [Ek'|Ek'];
      rewrite ?bool_decide_true, ?bool_decide_false by done; (lia || congruence || by destruct (iv_kind iv)).
Qed.

Lemma advance_fields symbol sg f :
  sg_first_cum (advance symbol sg f) = sg_first_cum sg /\ sg_max_cum (advance symbol sg f) = tf_cum f /\
  sg_phase (advance symbol sg f) = sg_phase sg.
Proof. unfold record_advance. by repeat case_match. Qed.

Lemma fold_advance_ok symbol first rest : forall sg b,
  Forall iv_ok (sg_intervals sg) -> counting first sg -> tf_cum b = sg_max_cum sg ->
  non_decreasing (b :: rest) = true ->
  let sg' := fold_left (advance symbol) rest sg in
  Forall iv_ok (sg_intervals sg') /\ counting first sg' /\ sg_first_cum sg' = sg_first_cum sg /\
  sg_phase sg' = sg_phase sg.
Proof.
  induction rest as [|f rest IH]; intros sg b HI HC Hb Hnd; [done|].
  cbn [non_decreasing] in Hnd. apply andb_true_iff in Hnd as [Hbf Hnd]. apply Z.leb_le in Hbf.
  destruct (advance_ok symbol first sg f HI HC ltac:(lia)) as [HI' HC'].
  destruct (advance_fields symbol sg f) as (E1 & E2 & E3).
  destruct (IH (advance symbol sg f) f HI' HC' ltac:(done) Hnd) as (? & ? & F1 & F2).
  cbn [fold_left]. by rewrite F1, F2, E1, E3.
Qed.

Lemma non_decreasing_drop l : forall n, non_decreasing l = true -> non_decreasing (drop n l) = true.
Proof.
  induction l as [|a l IH]; intros [|n] H; try done. cbn. apply IH.
  destruct l; [done|]. by apply andb_true_iff in H as [_ H].
Qed.

(** The base frame of a restarted count and the frames after it. *)
Lemma restart_split run base l :
  confirm_frames <= zlen run -> py_tail confirm_frames run = base :: l ->
  non_decreasing run = true ->
  py_tail (confirm_frames - 1) run = l /\ non_decreasing (base :: l) = true.
Proof using Hconfirm.
  unfold py_tail, zlen. intros Hl E Hnd.
  rewrite (proj2 (Z.ltb_lt 0 confirm_frames)) in E by lia.
  rewrite (proj2 (Z.ltb_lt 0 (confirm_frames - 1))) by lia. rewrite <- E.
  split; [|by apply non_decreasing_drop].
  replace (length run - Z.to_nat (confirm_frames - 1))%nat
    with (S (length run - Z.to_nat confirm_frames))%nat by lia.
  by rewrite <- Nat.add_1_r, <- drop_drop, E.
Qed.

Lemma regress_ok symbol first st sg f :
  seg_ok sg -> sg_first_cum sg = Some first ->
  seg_ok (snd (regress confirm_frames max_intervals symbol first st sg f)).
Proof using Hconfirm.
  intros Hsg Hf. unfold regress.
  set (run := py_tail confirm_frames (sg_run sg ++ [f])).
  destruct (_ && _) eqn:E; [|by apply seg_ok_run]. apply andb_true_iff in E as [Hl Hnd]. apply Z.leb_le in Hl.
  destruct (py_tail confirm_frames run) as [|base rest] eqn:Et; [by apply seg_ok_run|]. cbn [snd].
  destruct (restart_split _ _ _ Hl Et Hnd) as [-> Hnd']. unfold restart_count.
  apply seg_ok_last, seg_ok_run. destruct Hsg as [HI HS]. rewrite Hf in HS. counting_fields HS.
  match goal with |- seg_ok (fold_left _ _ ?s) => set (s0 := s) end.
  destruct (fold_advance_ok symbol (tf_cum base) rest s0 base) as (HI' & HC' & Hf' & _); try done.
  - split; cbn; try lia; eauto.
  - split; [done|]. by rewrite Hf'.
Qed.

Lemma advance_segment_ok symbol st sg f :
  seg_ok sg -> seg_ok (snd (advance_segment confirm_frames max_intervals symbol st sg f)).
Proof using Hconfirm.
  intros Hsg. unfold advance_segment. destruct (_ || _); [done|]. destruct (is_overlap sg f || _).
  - unfold absorb_overlap. destruct (find_interval _ _) as [[[l iv] r]|] eqn:E; [|done].
    apply find_interval_split in E as [E _]. by apply fill_ok.
  - pose proof (seg_ok_conn (tf_conn_id f) sg Hsg) as Hc.
    destruct (sg_first_cum (see_conn _ sg)) as [first|] eqn:Ef; [|by apply start_ok].
    destruct (Z.ltb_spec (tf_cum f) (sg_max_cum (see_conn (tf_conn_id f) sg))); [by apply regress_ok|].
    cbn [snd]. apply seg_ok_last. pose proof (seg_ok_run [] _ Hc) as Hr.
    destruct Hr as [HI HS]. replace (sg_first_cum (set_run _ _)) with (Some first) in HS.
    destruct (advance_ok symbol first _ f HI HS) as [HI' HC']; [done|].
    split; [done|]. destruct (advance_fields symbol (set_run [] (see_conn (tf_conn_id f) sg)) f) as [-> _].
    by replace (sg_first_cum (set_run _ _)) with (Some first).
Qed.

(** ** Every booked loss has its interval *)

Lemma accounted_book iv sg :
  accounted sg -> iv_ok iv -> iv_phase iv = sg_phase sg ->
  iv_kind iv = (if 0 <? volume_deficit iv then CONFIRMED else COUNT_ONLY) ->
  accounted (book_loss max_intervals iv sg).
Proof.
  intros (cut & Hok' & Hn & Hb) Hok Hph Hk.
  destruct (py_head_split max_intervals (py_sorted iv_leb (sg_intervals sg ++ [iv]))) as [rest Er].
  pose proof (py_sorted_perm iv_leb (sg_intervals sg ++ [iv])) as Hperm. rewrite <- Er in Hperm.
  exists (rest ++ cut). apply (booked_by_perm _ (iv :: sg_intervals sg ++ cut)).
  { cbn -[py_head py_sorted]. rewrite app_assoc, Hperm, <- Permutation_middle. by rewrite app_nil_r. }
  split_and!.
  - by constructor.
  - unfold zlen in *. cbn [length book_loss sg_interval_count]. lia.
  - intros k. rewrite zsum_map_cons, <- Hb. unfold weight. rewrite Hk. destruct k; cbn -[py_head py_sorted];
      destruct (0 <? volume_deficit iv); case_decide; (done || lia).
Qed.

Lemma accounted_advance symbol sg f : accounted sg -> accounted (advance symbol sg f).
Proof.
  intros Ha. unfold record_advance. destruct (sg_max_frame sg) as [prev|]; [|exact Ha].
  destruct (Z.leb_spec 1 (tf_cum f - sg_max_cum sg - 1)); [|exact Ha].
  change (accounted (book_loss max_intervals (loss_of symbol sg prev f) sg)).
  apply accounted_book; [done|by apply loss_ok|done|done].
Qed.

Lemma accounted_fold symbol rest : forall sg, accounted sg -> accounted (fold_left (advance symbol) rest sg).
Proof. induction rest as [|f rest IH]; intros sg Ha; [done|]. cbn [fold_left]. by apply IH, accounted_advance. Qed.

Lemma accounted_fill l iv r f sg : sg_intervals sg = l ++ iv :: r -> accounted sg -> accounted (fill_interval l iv r f sg).
Proof.
  intros El (cut & Hok & Hn & Hb). rewrite El in Hok, Hn, Hb. exists cut. unfold fill_interval, booked_by.
  cbn [sg_intervals sg_phase sg_interval_count].
  apply Forall_app in Hok as [[HL [[[H1 H2 H3] Hph] HR]%Forall_cons]%Forall_app HC].
  set (iv' := shrink iv (missing_trades iv - 1) (Z.max 0 (volume_deficit iv - tf_cvolume f))).
  assert (Hw : forall k, weight k iv' = weight k iv - (if decide (iv_kind iv = k) then 1 else 0)).
  { intros k. unfold weight. cbn. case_decide; lia. }
  assert (Hiv' : missing_trades iv - 1 <> 0 -> iv_ok iv' /\ iv_phase iv' = sg_phase sg).
  { intros Hne. split; [|done]. split; cbn; lia. }
  split_and!.
  - repeat apply Forall_app_2; [done| |done|done]. destruct (Z.eqb_spec (missing_trades iv - 1) 0); [constructor|].
    constructor; [auto|constructor].
  - unfold zlen in *. repeat rewrite length_app in *. cbn [length] in Hn. destruct (_ =? 0); cbn [length]; lia.
  - intros k. specialize (Hb k). rewrite !zsum_map_app, zsum_map_cons in *.
    assert (Hmid : zsum (map (weight k) (if missing_trades iv - 1 =? 0 then [] else [iv'])) = weight k iv').
    { destruct (Z.eqb_spec (missing_trades iv - 1) 0) as [E|E]; [|by rewrite zsum_map_cons, zsum_map_nil, Z.add_0_r].
      rewrite zsum_map_nil. unfold weight. cbn. case_decide; lia. }
    rewrite Hmid, Hw. destruct k; cbn in Hb |- *.
    + rewrite Hb. destruct (decide (iv_kind iv = CONFIRMED)) as [Ek|Ek]; [rewrite bool_decide_true by done|rewrite bool_decide_false by done]; lia.
    + rewrite Hb. destruct (decide (iv_kind iv = COUNT_ONLY)) as [Ek|Ek];
        [rewrite bool_decide_false by congruence|rewrite bool_decide_true by (by destruct (iv_kind iv))]; lia.
Qed.

Lemma accounted_regress symbol first st sg f : accounted sg -> accounted (snd (regress confirm_frames max_intervals symbol first st sg f)).
Proof.
  intros Ha. unfold regress. destruct (_ && _); [|exact Ha]. destruct (py_tail confirm_frames _) as [|base rest]; [exact Ha|].
  cbn [snd]. unfold restart_count. match goal with |- accounted (set_last _ (set_run _ ?x)) => change (accounted x) end.
  apply accounted_fold. exact Ha.
Qed.

Lemma advance_segment_accounted symbol st sg f :
  accounted sg -> accounted (snd (advance_segment confirm_frames max_intervals symbol st sg f)).
Proof.
  intros Ha. unfold advance_segment. destruct (_ || _); [done|]. destruct (is_overlap sg f || _).
  - unfold absorb_overlap. destruct (find_interval _ _) as [[[l iv] r]|] eqn:E; [|done].
    apply find_interval_split in E as [E _]. by apply accounted_fill.
  - destruct (sg_first_cum (see_conn _ sg)) as [first|]; [|exact Ha].
    destruct (_ <? _); [by apply accounted_regress|]. cbn [snd].
    match goal with |- accounted (set_last _ ?x) => change (accounted x) end. by apply accounted_advance.
Qed.

Lemma fold_advance_phase symbol l : forall s, sg_phase (fold_left (advance symbol) l s) = sg_phase s.
Proof.
  induction l as [|x l IH]; intros s; [done|]. cbn [fold_left]. rewrite IH. apply advance_fields.
Qed.

Lemma advance_segment_phase symbol st sg f :
  sg_phase (snd (advance_segment confirm_frames max_intervals symbol st sg f)) = sg_phase sg.
Proof using Hconfirm.
  unfold advance_segment. destruct (_ || _); [done|]. destruct (is_overlap sg f || _).
  - unfold absorb_overlap. by destruct (find_interval _ _) as [[[l iv] r]|].
  - destruct (sg_first_cum _) as [first|]; [|done]. destruct (_ <? _).
    + unfold regress. set (run := py_tail confirm_frames (_ ++ [f])). destruct (_ && _); [|done].
      destruct (py_tail confirm_frames run) as [|base rest]; [done|].
      cbn. by rewrite fold_advance_phase.
    + apply (advance_fields symbol (set_run [] (see_conn (tf_conn_id f) sg)) f).
Qed.
End Facts.

(** ** The derivation *)

Definition sym_ok (st : SymbolState) : Prop :=
  Forall (fun kv => sg_phase (snd kv) = fst kv /\ seg_ok (snd kv) /\ accounted (snd kv)) (sy_segments st).

Definition seen_ok (s : SeenSequences) : Prop := exists L, s = of_ivals L /\ canonical L.

Record dv_ok (d : Derivation) : Prop := {
  do_symbols : Forall (fun kv => sym_ok (snd kv)) (dv_symbols d);
  do_seen : Forall (fun kv => seen_ok (snd kv)) (dv_seen d);
}.

Lemma Forall_dset {K V} `{EqDecision K} (P : K * V -> Prop) d k v :
  Forall P d -> P (k, v) -> Forall P (dset d k v).
Proof.
  intros HF Hv. induction HF as [|[k' v'] d Hp HF IH]; cbn; [by constructor|].
  case_decide; subst; by constructor.
Qed.

Lemma Forall_dget {K V} `{EqDecision K} (P : K * V -> Prop) d k v :
  Forall P d -> dget d k = Some v -> P (k, v).
Proof. intros HF Hg. apply dget_elem in Hg. rewrite Forall_forall in HF. auto. Qed.

Lemma seen_ok_new : seen_ok new_seen.
Proof. exists []. split; [done|]. split; constructor. Qed.

Lemma symbol_state_ok d symbol : dv_ok d -> sym_ok (symbol_state d symbol).
Proof.
  intros [HS _]. unfold symbol_state. destruct (dget _ _) as [st|] eqn:E; [|by constructor].
  by apply (Forall_dget _ _ _ _ HS) in E.
Qed.

Lemma set_symbol_ok symbol st d : dv_ok d -> sym_ok st -> dv_ok (set_symbol symbol st d).
Proof. intros [HS HN] Hst. split; [by apply Forall_dset|done]. Qed.

Lemma set_seen_ok conn s d : dv_ok d -> seen_ok s -> dv_ok (set_seen_for conn s d).
Proof. intros [HS HN] Hs. split; [done|by apply Forall_dset]. Qed.

Lemma note_regular_ok p t d : dv_ok d -> dv_ok (note_regular_tick p t d).
Proof. intros [HS HN]. unfold note_regular_tick. by case_match. Qed.

Lemma seen_for_ok conn d : dv_ok d -> seen_ok (default new_seen (dget (dv_seen d) conn)).
Proof.
  intros [_ HN]. destruct (dget _ _) as [s|] eqn:E; [|apply seen_ok_new].
  by apply (Forall_dget _ _ _ _ HN) in E.
Qed.

Lemma note_sequence_ok conn seq d : dv_ok d -> exists d', note_sequence conn seq d = Some d' /\ dv_ok d'.
Proof.
  intros Hd. unfold note_sequence. destruct (seen_for_ok conn d Hd) as (L & -> & HL).
  destruct (seen_add_spec L seq HL) as (L' & -> & HL' & _). eexists. split; [done|].
  apply set_seen_ok; [done|by exists L'].
Qed.

Lemma sequence_duplicate_ok r d :
  dv_ok d -> exists d' b, sequence_duplicate r d = Some (d', b) /\ dv_ok d'.
Proof.
  intros Hd. unfold sequence_duplicate. destruct (en_conn_seq r) as [seq|]; [|by exists d, false].
  case_decide; [by exists d, false|].
  pose proof (seen_for_ok (en_conn_id r) d Hd) as Hs. pose proof Hs as (L & E & HL). rewrite E.
  destruct (seen_mem_spec L seq HL) as ([] & -> & _); cbn.
  - eexists _, true. split; [done|]. apply set_seen_ok; [done|]. by rewrite <- E.
  - destruct (note_sequence_ok (en_conn_id r) seq d Hd) as (d' & -> & Hd'). by exists d', false.
Qed.

#[export] Hint Resolve symbol_state_ok set_symbol_ok note_regular_ok : loss.

Section Derive.
Context (confirm_frames max_intervals : Z).
Hypothesis Hconfirm : 2 <= confirm_frames.
Context (vendor : string) (venue : MarketVenue) (windows : list PhaseWindow).

Lemma advance_segment_segments symbol st sg f :
  sy_segments (fst (advance_segment confirm_frames max_intervals symbol st sg f)) = sy_segments st.
Proof. unfold advance_segment, absorb_overlap, regress. repeat case_match; done. Qed.

Lemma enter_frame_ok symbol phase f d :
  dv_ok d -> dv_ok (enter_frame confirm_frames max_intervals symbol phase f d).
Proof using Hconfirm.
  intros Hd. unfold enter_frame.
  set (st := note_counter _ _). assert (Hst : sym_ok st) by (apply (symbol_state_ok d symbol Hd)).
  set (sg := default _ _).
  assert (Hsg : sg_phase sg = phase /\ seg_ok sg /\ accounted sg).
  { unfold sg. destruct (dget (sy_segments st) phase) as [s|] eqn:E; [|split_and!; [done|apply seg_ok_new|apply accounted_new]].
    by apply (Forall_dget _ _ _ _ Hst) in E. }
  pose proof (advance_segment_ok confirm_frames max_intervals Hconfirm symbol st sg f (proj1 (proj2 Hsg))) as H1.
  pose proof (advance_segment_accounted confirm_frames max_intervals symbol st sg f (proj2 (proj2 Hsg))) as H4.
  pose proof (advance_segment_phase confirm_frames max_intervals Hconfirm symbol st sg f) as H2.
  pose proof (advance_segment_segments symbol st sg f) as H3.
  destruct (advance_segment _ _ _ _ _ _) as [st' sg']. cbn in H1, H2, H3, H4.
  apply set_symbol_ok; [done|]. unfold sym_ok. cbn. rewrite H3. apply Forall_dset; [done|]. cbn. split_and!; [done|done|done].
Qed.

Lemma accept_tick_ok r body d :
  dv_ok d ->
  exists d', accept_tick confirm_frames max_intervals vendor venue windows r body d = Some d' /\ dv_ok d'.
Proof using Hconfirm.
  intros Hd. unfold accept_tick. cbv zeta.
  set (symbol := if decide (text_or_empty (dget body "shcode") = "") then en_symbol r else _). set (phase := classify_market_phase _ _ _ _).
  assert (Hfail : exists d', (if decide (symbol = "") then Some d
    else Some (set_symbol symbol (add_decode_fail (symbol_state d symbol)) d)) = Some d' /\ dv_ok d').
  { clearbody symbol. case_decide; eexists; (split; [done|]); [done|]. apply set_symbol_ok; [done|].
    apply (symbol_state_ok d symbol Hd). }
  destruct (hhmmss_of _); [|done]. destruct (parse_int (dget body "volume")) as [volume|]; [|done].
  destruct (parse_int (dget body "cvolume")) as [cvolume|]; [|done]. clearbody symbol phase.
  destruct (decide (text_or_empty (dget body "shcode") = "")); [done|].
  destruct (decide (vendor = "kiwoom")).
  { eexists. split; [done|]. apply note_regular_ok, set_symbol_ok; [done|].
    apply (symbol_state_ok d _ Hd). }
  destruct (tick_cum body) as [cum|]; [|done].
  set (d1 := note_regular_tick _ _ d). assert (Hd1 : dv_ok d1) by by apply note_regular_ok.
  set (d2 := set_symbol symbol (symbol_state d1 symbol) d1).
  assert (Hd2 : dv_ok d2) by (apply set_symbol_ok; auto with loss).
  destruct (sequence_duplicate_ok r d2 Hd2) as (d3 & b & -> & Hd3). cbn. destruct b; eexists; (split; [done|]).
  - apply set_symbol_ok; [done|]. apply (symbol_state_ok d3 symbol Hd3).
  - by apply enter_frame_ok.
Qed.
End Derive.

(** ** The report's figures *)

(** The missing trades of one kind a regular interval stands for, and its deficit. *)
Definition regular_weight (k : LossKind) (iv : LossInterval) : Z :=
  if decide (iv_phase iv = REGULAR) then weight k iv else 0.
Definition regular_deficit (iv : LossInterval) : Z :=
  if decide (iv_phase iv = REGULAR) then volume_deficit iv else 0.
Definition missing_of (k : LossKind) (e : SymbolLedger) : Z :=
  match k with CONFIRMED => confirmed_missing e | COUNT_ONLY => count_only_missing e end.

(** One line of the report is consistent: nothing is negative; the loss booked
    fits in the counter's span; the net count never claims more than was booked;
    every interval shown has room for its missing trades; the confirmed and the
    count-only loss are the sums over the regular intervals shown and as many
    intervals cut off as the line says, so over those shown alone when none was; and the
    deficits shown do not exceed the total. *)
Record sane (e : SymbolLedger) : Prop := {
  sa_confirmed : 0 <= confirmed_missing e;
  sa_count_only : 0 <= count_only_missing e;
  sa_deficit : 0 <= sl_volume_deficit e;
  sa_span : confirmed_missing e + count_only_missing e <= trades_observed e;
  sa_net : net_missing e <= confirmed_missing e + count_only_missing e;
  sa_shown : Forall iv_ok (sl_intervals e);
  sa_truncated : 0 <= intervals_truncated e;
  sa_sums : exists cut, Forall iv_ok cut /\ zlen cut = intervals_truncated e /\
    forall k, missing_of k e = zsum (map (regular_weight k) (sl_intervals e)) + zsum (map (regular_weight k) cut);
  sa_exact : intervals_truncated e = 0 -> forall k, missing_of k e = zsum (map (regular_weight k) (sl_intervals e));
  sa_deficits : zsum (map regular_deficit (sl_intervals e)) <= sl_volume_deficit e
}.

Lemma zsum_map_le {A} (f g : A -> Z) l : Forall (fun x => f x <= g x) l -> zsum (map f l) <= zsum (map g l).
Proof. induction 1; [done|]. rewrite !zsum_map_cons. lia. Qed.

Lemma zsum_map_nonneg {A} (f : A -> Z) l : Forall (fun x => 0 <= f x) l -> 0 <= zsum (map f l).
Proof. intros H. apply zsum_nonneg. by apply Forall_map. Qed.

Lemma zsum_map_add {A} (f g : A -> Z) l : zsum (map (fun x => f x + g x) l) = zsum (map f l) + zsum (map g l).
Proof. induction l as [|x l IH]; [done|]. rewrite !zsum_map_cons, IH. lia. Qed.

Lemma seg_figures sg :
  seg_ok sg ->
  0 <= sg_confirmed sg /\ 0 <= sg_count_only sg /\ 0 <= sg_deficit sg /\
  sg_confirmed sg + sg_count_only sg <= seg_trades sg /\
  seg_net sg <= sg_confirmed sg + sg_count_only sg /\ zlen (sg_intervals sg) <= sg_interval_count sg.
Proof.
  intros [HI HS]. unfold seg_trades, seg_net. destruct (sg_first_cum sg) as [first|].
  - counting_fields HS. pose proof (zsum_map_nonneg _ _ (weights_nonneg CONFIRMED _ HI)).
    pose proof (zsum_map_nonneg _ _ (weights_nonneg COUNT_ONLY _ HI)).
    pose proof (zsum_map_nonneg _ _ (deficits_nonneg _ HI)). lia.
  - destruct HS as (E1 & E2 & E3 & E4 & E5 & E6 & E7 & E8). rewrite E1, E3, E4, E5, E6. unfold zlen. cbn. lia.
Qed.

(** The sums of a symbol's segments over all their intervals, kept and cut off. *)
Lemma segments_accounted segs : Forall accounted segs -> exists cut,
  Forall iv_ok cut /\ zlen (concat (map sg_intervals segs)) + zlen cut = zsum (map sg_interval_count segs) /\
  forall k, zsum (map (booked k) (List.filter (fun sg => bool_decide (sg_phase sg = REGULAR)) segs)) =
    zsum (map (regular_weight k) (concat (map sg_intervals segs))) + zsum (map (regular_weight k) cut).
Proof.
  induction 1 as [|sg segs (cut & Hok & Hn & Hb) _ (rest & R1 & R2 & R3)]; [by exists []|].
  exists (cut ++ rest).
  change (concat (map sg_intervals (sg :: segs))) with (sg_intervals sg ++ concat (map sg_intervals segs)). apply Forall_app in Hok as [Hi Hc]. split_and!.
  - apply Forall_app. split; [|done]. eapply Forall_impl; [exact Hc|]. by intros iv [].
  - unfold zlen in *. rewrite !length_app in *. rewrite zsum_map_cons. lia.
  - intros k. specialize (Hb k). rewrite zsum_map_app in Hb. rewrite !zsum_map_app. specialize (R3 k).
    assert (Hsum : forall l, Forall (fun iv => iv_ok iv /\ iv_phase iv = sg_phase sg) l ->
      zsum (map (regular_weight k) l) = if bool_decide (sg_phase sg = REGULAR) then zsum (map (weight k) l) else 0).
    { clear. induction 1 as [|iv l [_ Hp] _ IH]; [by case_bool_decide|]. rewrite !zsum_map_cons, IH. unfold regular_weight. rewrite Hp.
      case_bool_decide; case_decide; (done || lia). }
    rewrite (Hsum _ Hi), (Hsum _ Hc). cbn [List.filter]. case_bool_decide; rewrite ?zsum_map_cons; lia.
Qed.

(** The deficits of the regular intervals kept. *)
Lemma segments_deficit segs : Forall (fun sg => seg_ok sg /\ accounted sg) segs ->
  zsum (map regular_deficit (concat (map sg_intervals segs))) <=
  zsum (map sg_deficit (List.filter (fun sg => bool_decide (sg_phase sg = REGULAR)) segs)).
Proof.
  induction 1 as [|sg segs [[HI HS] (cut & Hok & _)] _ IH]; [done|]. cbn [List.filter].
  change (concat (map sg_intervals (sg :: segs))) with (sg_intervals sg ++ concat (map sg_intervals segs)). rewrite zsum_map_app.
  apply Forall_app in Hok as [Hi _].
  assert (Hsum : zsum (map regular_deficit (sg_intervals sg)) =
    if bool_decide (sg_phase sg = REGULAR) then zsum (map volume_deficit (sg_intervals sg)) else 0).
  { clear - Hi. induction Hi as [|iv l [_ Hp] _ IH]; [by case_bool_decide|]. rewrite !zsum_map_cons, IH. unfold regular_deficit. rewrite Hp.
    case_bool_decide; case_decide; (done || lia). }
  rewrite Hsum. case_bool_decide; [|lia]. rewrite zsum_map_cons. destruct (sg_first_cum sg) as [first|].
  - counting_fields HS. lia.
  - destruct HS as (-> & _ & _ & _ & -> & _). rewrite zsum_map_nil. lia.
Qed.

Lemma concat_length {A} (ls : list (list A)) : zlen (concat ls) = zsum (map zlen ls).
Proof. induction ls as [|l ls IH]; [done|]. rewrite zsum_map_cons, <- IH. unfold zlen. cbn. rewrite length_app. lia. Qed.

Section Report.
Context (confirm_frames max_intervals : Z).
Hypothesis Hconfirm : 2 <= confirm_frames.
Context (manifest : option (list (string * list (string * Z)))).

Lemma symbol_ledger_sane s st : sym_ok st -> sane (symbol_ledger max_intervals manifest s st).
Proof.
  intros Hst. unfold symbol_ledger. set (segs := dvalues (sy_segments st)).
  assert (Hboth : Forall (fun sg => seg_ok sg /\ accounted sg) segs).
  { unfold segs, dvalues. apply Forall_map. eapply Forall_impl; [exact Hst|]. by intros kv [_ ?]. }
  assert (Hsegs : Forall seg_ok segs) by (eapply Forall_impl; [exact Hboth|]; by intros sg []).
  assert (Hacc : Forall accounted segs) by (eapply Forall_impl; [exact Hboth|]; by intros sg []).
  pose proof (segments_deficit segs Hboth) as Hdef.
  destruct (segments_accounted segs Hacc) as (cut & Hcut & Hcount & Hsums). clear Hboth Hacc.
  set (regular := List.filter _ segs) in *.
  assert (Hreg : Forall seg_ok regular).
  { apply Forall_forall. intros x [Hx _]%filter_elem. rewrite Forall_forall in Hsegs. auto. }
  assert (Hivs : Forall iv_ok (concat (map sg_intervals segs))).
  { apply Forall_concat, Forall_map. eapply Forall_impl; [exact Hsegs|]. by intros ? []. }
  pose proof (py_sorted_perm iv_leb (concat (map sg_intervals segs))) as Hperm.
  set (ordered := py_sorted iv_leb _) in *. destruct (py_head_split max_intervals ordered) as [rest Er].
  set (shown := py_head max_intervals ordered) in *. clearbody shown. rewrite <- Er in Hperm. clear Er ordered.
  assert (Hlen : zlen shown + zlen rest = zlen (concat (map sg_intervals segs))).
  { unfold zlen. rewrite <- Hperm, length_app. lia. }
  assert (Hall : Forall iv_ok (shown ++ rest)) by (by rewrite Hperm). apply Forall_app in Hall as [Hok1 Hok2].
  assert (Hw : forall k, zsum (map (booked k) regular) =
    zsum (map (regular_weight k) shown) + zsum (map (regular_weight k) (rest ++ cut))).
  { intros k. rewrite Hsums, <- (zsum_map_perm _ _ _ Hperm), !zsum_map_app. lia. }
  assert (Hlines : forall k, missing_of k (mkSymbolLedger s (no_counter st) (sy_frames st)
    (zsum (map seg_trades regular)) (zsum (map sg_confirmed regular)) (zsum (map sg_count_only regular))
    (zsum (map seg_net regular)) (zsum (map sg_deficit regular))
    (sy_duplicates st) (sy_regressions st) (sy_resets st) (sy_decode_fail st)
    shown (zsum (map sg_interval_count segs) - zlen shown)
    (m ← manifest; per_stream ← dget m s; dget per_stream TICK_STREAM)) = zsum (map (booked k) regular)) by (by intros []).
  split.
  1-3: cbn; apply zsum_map_nonneg; eapply Forall_impl; [exact Hreg|]; intros sg Hsg; apply (seg_figures sg Hsg).
  1-2: cbn; rewrite <- zsum_map_add; apply zsum_map_le; eapply Forall_impl; [exact Hreg|]; intros sg Hsg;
    apply (seg_figures sg Hsg).
  - exact Hok1.
  - cbn. unfold zlen in *. lia.
  - exists (rest ++ cut). split_and!; [by apply Forall_app|cbn; unfold zlen in *; rewrite length_app; lia|].
    intros k. by rewrite Hlines, Hw.
  - intros Ht k. rewrite Hlines, Hw. cbn in Ht.
    assert (rest ++ cut = []) as -> by (apply length_zero_iff_nil; unfold zlen in *; rewrite length_app; lia).
    rewrite zsum_map_nil. cbn. lia.
  - cbn. etransitivity; [|exact Hdef]. rewrite <- (zsum_map_perm _ _ _ Hperm), zsum_map_app.
    assert (0 <= zsum (map regular_deficit rest)); [|lia]. apply zsum_map_nonneg. eapply Forall_impl; [exact Hok2|].
    intros iv []. unfold regular_deficit. case_decide; lia.
Qed.

Lemma finalize_sane d :
  dv_ok d ->
  Forall sane (fst (finalize_ledger max_intervals manifest d)) /\
  let t := snd (finalize_ledger max_intervals manifest d) in
  0 <= lt_confirmed_missing t /\ 0 <= lt_count_only_missing t /\ 0 <= lt_volume_deficit t /\
  lt_confirmed_missing t + lt_count_only_missing t <= lt_trades_observed t /\
  lt_net_missing_positive t <= lt_confirmed_missing t + lt_count_only_missing t.
Proof.
  intros [HS _]. unfold finalize_ledger. set (ledgers := map _ _).
  assert (HL : Forall sane ledgers).
  { unfold ledgers. apply Forall_map. rewrite py_sorted_perm.
    eapply Forall_impl; [exact HS|]. intros [s st] ?. by apply symbol_ledger_sane. }
  split; [exact HL|]. cbn. set (ok := List.filter _ ledgers).
  assert (Hok : Forall sane ok).
  { apply Forall_forall. intros x [Hx _]%filter_elem. rewrite Forall_forall in HL. auto. }
  split_and!.
  1-3: apply zsum_map_nonneg; eapply Forall_impl; [exact Hok|]; by intros e [].
  all: rewrite <- zsum_map_add; apply zsum_map_le; eapply Forall_impl; [exact Hok|]; intros e []; cbn; lia.
Qed.
End Report.

Section Run.
Context (confirm_frames max_intervals : Z) (vendor : string) (venue : MarketVenue) (windows : list PhaseWindow).

(** Every record of a journal through [accept_tick], in order. *)
Fixpoint accept_all (rs : list (Envelope * tbody)) (d : Derivation) : option Derivation :=
  match rs with
  | [] => Some d
  | (r, body) :: rs' =>
      d' ← accept_tick confirm_frames max_intervals vendor venue windows r body d; accept_all rs' d'
  end.

Lemma accept_all_ok rs : forall d,
  2 <= confirm_frames -> dv_ok d -> exists d', accept_all rs d = Some d' /\ dv_ok d'.
Proof.
  induction rs as [|[r body] rs IH]; intros d Hc Hd; cbn; [eauto|].
  destruct (accept_tick_ok confirm_frames max_intervals Hc vendor venue windows r body d Hd) as (d' & -> & Hd').
  by apply IH.
Qed.
End Run.

Lemma dv_ok_new : dv_ok new_derivation.
Proof. split; constructor. Qed.

(** ** Properties *)

(** C33. The missing-trade report is consistent for any journal and a reset confirmed
    by at least two frames: whatever records are fed in - undecodable, repeated, out of
    order, with a counter that falls or jumps - accepting them never fails; no loss
    figure of a symbol or of the totals is negative; the confirmed and count-only loss
    together never exceed the span of the counter (its highest less its first value plus
    one, summed over the counts), and the net count never exceeds them; every interval
    shown has room for its missing trades between its two counters; and the confirmed
    and the count-only loss of a symbol are exactly the sums over its regular intervals,
    those shown plus those cut off by the limit, of which the line states the number, so
    over those shown when it is zero. *)
Theorem loss_report_sane confirm cap vendor venue windows manifest rs :
  2 <= confirm ->
  exists d, accept_all confirm cap vendor venue windows rs new_derivation = Some d /\
    Forall sane (fst (finalize_ledger cap manifest d)) /\
    let t := snd (finalize_ledger cap manifest d) in
    0 <= lt_confirmed_missing t /\ 0 <= lt_count_only_missing t /\ 0 <= lt_volume_deficit t /\
    lt_confirmed_missing t + lt_count_only_missing t <= lt_trades_observed t /\
    lt_net_missing_positive t <= lt_confirmed_missing t + lt_count_only_missing t.
Proof.
  intros Hc. destruct (accept_all_ok confirm cap vendor venue windows rs new_derivation Hc dv_ok_new) as (d & E & Hd).
  exists d. split; [done|]. by apply finalize_sane.
Qed.

Definition demo_tick (symbol cum volume : string) (recv seq : Z) : Envelope * tbody :=
  (mkEnvelope "" recv "c1" (Some seq) "" symbol,
   [("shcode", JStr symbol); ("chetime", JStr "100000"); ("price", JStr "70100"); ("cvolume", JStr "10");
    ("volume", JStr volume); ("mdchecnt", JStr cum); ("mschecnt", JStr "0")]).

Definition demo_windows : list PhaseWindow := MARKET_PHASE_WINDOWS.

(** A jump from 2 to 5 with 30 shares traded of which 10 arrived, and a repeat. *)
Lemma loss_report_sane_witness :
  2 <= 3 /\
  exists d, accept_all 3 500 "ls" V_KRX demo_windows
      [demo_tick "005930" "1" "10" 1 1; demo_tick "005930" "2" "20" 2 2; demo_tick "005930" "5" "50" 3 3;
       demo_tick "005930" "5" "50" 3 3] new_derivation = Some d /\
    map confirmed_missing (fst (finalize_ledger 500 None d)) = [2] /\
    lt_confirmed_missing (snd (finalize_ledger 500 None d)) <= lt_trades_observed (snd (finalize_ledger 500 None d)).
Proof.
  split; [lia|].
  destruct (loss_report_sane 3 500 "ls" V_KRX demo_windows None
    [demo_tick "005930" "1" "10" 1 1; demo_tick "005930" "2" "20" 2 2; demo_tick "005930" "5" "50" 3 3;
     demo_tick "005930" "5" "50" 3 3] ltac:(lia)) as (d & E & H).
  exists d. split; [exact E|]. vm_compute in E. injection E as <-. split; [vm_compute; reflexivity|].
  vm_compute. discriminate.
Defined.
