(* ===== verification/LossExact.v ===== *)
(** * The loss of a feed without repeated counters

    When no trade counter is delivered twice, in whatever order and over
    whatever connections the frames come, the ledger books exactly the counters
    that never arrived; when one is, the figures can hide a loss. *)
From S2P Require Import Prelude PyStr PyTime ExecJournal MarketPhase SeqSet L0Decode LossLedger LossLedgerFacts.

#[local] Arguments zsum : simpl never.
#[local] Arguments zlen : simpl never.

(** ** Counters that were not delivered *)

(** The numbers strictly between [a] and [b] that are not in [D]. *)
Definition undelivered (D : list Z) (a b : Z) : Z :=
  zlen (List.filter (fun c => negb (bool_decide (c ∈ D))) (seqZ (a + 1) (b - a - 1))).

Lemma filter_remove_one {A} `{EqDecision A} (p : A -> bool) x l :
  NoDup l -> x ∈ l -> p x = true ->
  zlen (List.filter (fun y => p y && negb (bool_decide (y = x))) l) = zlen (List.filter p l) - 1.
Proof.
  induction l as [|y l IH]; intros Hn Hx Hp; [by apply elem_of_nil in Hx|].
  apply NoDup_cons in Hn as [Hy Hn]. cbn. destruct (decide (y = x)) as [->|Hne].
  - rewrite Hp, bool_decide_true by done. cbn.
    rewrite (List.filter_ext_in _ p); [unfold zlen; cbn; lia|].
    intros z Hz. apply list_elem_of_In in Hz. rewrite bool_decide_false by set_solver. by rewrite andb_true_r.
  - apply elem_of_cons in Hx as [->|Hx]; [done|]. specialize (IH Hn Hx Hp).
    rewrite bool_decide_false by done. rewrite andb_true_r. destruct (p y); unfold zlen in *; cbn in *; lia.
Qed.

Lemma undelivered_inside D a b c :
  c ∉ D -> a < c < b -> undelivered (c :: D) a b = undelivered D a b - 1.
Proof.
  intros Hc Hab. unfold undelivered.
  rewrite <- (filter_remove_one (fun y => negb (bool_decide (y ∈ D))) c).
  - f_equal. apply List.filter_ext. intros y.
    destruct (decide (y = c)), (decide (y ∈ D)); repeat case_bool_decide; set_solver.
  - apply NoDup_seqZ.
  - apply elem_of_seqZ. lia.
  - by rewrite bool_decide_false.
Qed.

Lemma undelivered_outside D a b c : ~ a < c < b -> undelivered (c :: D) a b = undelivered D a b.
Proof.
  intros Hc. unfold undelivered. f_equal. apply List.filter_ext_in.
  intros y Hy. apply list_elem_of_In, elem_of_seqZ in Hy.
  assert (y <> c) by lia. repeat case_bool_decide; set_solver.
Qed.

Lemma undelivered_all D a b : a < b -> (forall d, d ∈ D -> ~ a < d < b) -> undelivered D a b = b - a - 1.
Proof.
  intros Hab HD. induction D as [|d D IH].
  - unfold undelivered. rewrite (List.filter_ext_in _ (fun _ => true)) by (intros; by rewrite bool_decide_false by set_solver).
    replace (List.filter _ _) with (seqZ (a + 1) (b - a - 1)); [unfold zlen; rewrite length_seqZ; lia|].
    generalize (seqZ (a + 1) (b - a - 1)). intros l. induction l; cbn; congruence.
  - rewrite undelivered_outside by (apply HD; set_solver). apply IH. set_solver.
Qed.

Lemma undelivered_pos D a b c : c ∉ D -> a < c < b -> 1 <= undelivered D a b.
Proof. intros Hc Hab. pose proof (undelivered_inside D a b c Hc Hab). unfold undelivered, zlen in *. lia. Qed.

(** Counting: distinct numbers of a range leave the rest of it undelivered. *)
Lemma undelivered_count D a b :
  a < b -> NoDup D -> (forall d, d ∈ D -> a < d < b) -> undelivered D a b = b - a - 1 - zlen D.
Proof.
  intros Hab. induction D as [|d D IH]; intros Hn HD; [rewrite undelivered_all by set_solver; unfold zlen; cbn; lia|].
  apply NoDup_cons in Hn as [Hd Hn]. rewrite undelivered_inside by (done || apply HD; set_solver).
  rewrite IH by set_solver. unfold zlen. cbn. lia.
Qed.

(** ** Intervals and what they cover *)

Definition inside (c : Z) (iv : LossInterval) : bool := (cum_prev iv <? c) && (c <? cum_next iv).
Definition cover (c : Z) (ivs : list LossInterval) : Z := zsum (map (fun iv => if inside c iv then 1 else 0) ivs).

Lemma inside_spec c iv : inside c iv = true <-> cum_prev iv < c < cum_next iv.
Proof. unfold inside. rewrite andb_true_iff, !Z.ltb_lt. done. Qed.

Lemma cover_app c l k : cover c (l ++ k) = cover c l + cover c k.
Proof. apply zsum_map_app. Qed.

Lemma cover_cons c iv l : cover c (iv :: l) = (if inside c iv then 1 else 0) + cover c l.
Proof. apply zsum_map_cons. Qed.

Lemma cover_nil c : cover c [] = 0.
Proof. done. Qed.

Lemma cover_nonneg c l : 0 <= cover c l.
Proof. apply zsum_map_nonneg, Forall_forall. intros x _. by destruct (inside c x). Qed.

Lemma cover_zero c l : Forall (fun iv => inside c iv = false) l -> cover c l = 0.
Proof. induction 1 as [|iv l H _ IH]; [done|]. by rewrite cover_cons, H, IH. Qed.

Lemma cover_none c l : cover c l = 0 -> Forall (fun iv => inside c iv = false) l.
Proof.
  induction l as [|iv l IH]; [done|]. rewrite cover_cons. pose proof (cover_nonneg c l).
  destruct (inside c iv) eqn:E; intros; [lia|]. constructor; [done|]. apply IH. lia.
Qed.

Lemma find_interval_some c ivs : 1 <= cover c ivs -> exists l iv r, find_interval c ivs = Some (l, iv, r).
Proof.
  induction ivs as [|x ivs IH]; [unfold cover; rewrite zsum_map_nil; lia|]. rewrite cover_cons. cbn. unfold inside.
  destruct (_ && _); intros H; [eauto|]. destruct IH as (l & iv & r & ->); [lia|]. cbn. eauto.
Qed.

Definition feed (confirm cap : Z) (symbol : string) (fs : list TickFrame) (s : SymbolState * Segment)
    : SymbolState * Segment :=
  fold_left (fun s f => advance_segment confirm cap symbol (fst s) (snd s) f) fs s.

(** The intervals a feed opens from a high: frames that jump over a counter. *)
Definition jump (high : Z) (f : TickFrame) : Z := if high + 1 <? tf_cum f then 1 else 0.
Fixpoint jumps (high : Z) (fs : list TickFrame) : Z :=
  match fs with
  | [] => 0
  | f :: fs' => jump high f + jumps (Z.max high (tf_cum f)) fs'
  end.

Section Exact.
Context (confirm_frames max_intervals : Z) (symbol : string).

(** The intervals are exactly the holes the delivered counters [D] leave. *)
Record exact (first : Z) (D : list Z) (st : SymbolState) (sg : Segment) : Prop := {
  ex_first : sg_first_cum sg = Some first;
  ex_delivered : NoDup D /\ first ∈ D /\ sg_max_cum sg ∈ D;
  ex_range : forall d, d ∈ D -> first <= d <= sg_max_cum sg;
  ex_frames : (exists m, sg_max_frame sg = Some m) /\ (exists l, sg_last sg = Some l /\ tf_cum l ∈ D) /\
              sg_run sg = [];
  ex_intervals : Forall (fun iv => first <= cum_prev iv /\ cum_next iv <= sg_max_cum sg /\
                   missing_trades iv = undelivered D (cum_prev iv) (cum_next iv)) (sg_intervals sg);
  ex_once : forall c, cover c (sg_intervals sg) <= 1;
  ex_covered : forall c, first < c < sg_max_cum sg -> c ∉ D -> 1 <= cover c (sg_intervals sg);
  ex_booked : zsum (map missing_trades (sg_intervals sg)) = sg_confirmed sg + sg_count_only sg;
  ex_net : sg_confirmed sg + sg_count_only sg = sg_max_cum sg - first - (sg_accepted sg - 1);
  ex_accepted : sg_accepted sg = zlen D /\ sy_accepted_total st = zlen D /\ sg_completed_net sg = 0;
  ex_quiet : sy_duplicates st = 0 /\ sy_regressions st = 0 /\ sy_resets st = 0;
}.

Lemma exact_start f p :
  exact (tf_cum f) [tf_cum f] (add_accepted new_symbol_state)
    (start_count f (see_conn (tf_conn_id f) (new_segment p))).
Proof.
  split; cbn; try done; try lia.
  - split_and!; [apply NoDup_singleton|set_solver|set_solver].
  - intros d ->%list_elem_of_singleton. lia.
  - split_and!; [eauto| |done]. eexists. split; [done|set_solver].
Qed.

(** A frame whose counter is new is no duplicate of the last one. *)
Lemma exact_not_duplicate first D st sg f :
  exact first D st sg -> tf_cum f ∉ D ->
  match sg_last sg with Some prev => is_duplicate prev f | None => false end
  || match rev (sg_run sg) with r :: _ => is_duplicate r f | [] => false end = false.
Proof.
  intros [] Hf. destruct ex_frames0 as (_ & (l & -> & Hl) & ->). cbn. rewrite orb_false_r.
  unfold is_duplicate. destruct (Z.eqb_spec (tf_cum f) (tf_cum l)) as [E|]; [|done]. congruence.
Qed.

Lemma exact_advance first D st sg f :
  exact first D st sg -> sg_max_cum sg < tf_cum f -> zlen (sg_intervals sg) + jump (sg_max_cum sg) f <= max_intervals ->
  exact first (tf_cum f :: D) (add_accepted st)
    (set_last f (record_advance max_intervals symbol (set_run [] (see_conn (tf_conn_id f) sg)) f)).
Proof.
  intros HE Hlt Hcap. pose proof HE as [H1 (H2 & H2a & H2b) H3 ((m & H4) & (la & H5 & H5a) & H6) H7 H8 H9 Hb H10 (H11 & H12 & H13) H15].
  unfold jump in Hcap.
  assert (Hnew : tf_cum f ∉ D) by (intros Hd; apply H3 in Hd; lia).
  assert (HF : Forall (fun iv => first <= cum_prev iv /\ cum_next iv <= tf_cum f /\
              missing_trades iv = undelivered (tf_cum f :: D) (cum_prev iv) (cum_next iv)) (sg_intervals sg)).
  { eapply Forall_impl; [exact H7|]. cbn. intros iv (? & ? & ->).
    split_and!; [done|lia|]. by rewrite undelivered_outside by lia. }
  assert (HD : zlen (tf_cum f :: D) = zlen D + 1) by (unfold zlen; cbn; lia).
  assert (Hcov0 : forall c, ~ first < c < sg_max_cum sg -> cover c (sg_intervals sg) = 0).
  { intros c Hc. apply cover_zero. eapply Forall_impl; [exact H7|]. cbn. intros iv (? & ? & _).
    apply not_true_iff_false. rewrite inside_spec. lia. }
  unfold record_advance. cbn [set_run see_conn sg_max_frame sg_max_cum]. rewrite H4.
  destruct (Z.leb_spec 1 (tf_cum f - sg_max_cum sg - 1)) as [Hgap|Hgap].
  - rewrite (proj2 (Z.ltb_lt _ _)) in Hcap by lia. set (iv := loss_of _ _ _ _).
    assert (Hp : py_head max_intervals (py_sorted iv_leb (sg_intervals sg ++ [iv])) ≡ₚ sg_intervals sg ++ [iv]).
    { rewrite <- (py_sorted_perm iv_leb (sg_intervals sg ++ [iv])) at 2. unfold py_head.
      rewrite (proj2 (Z.leb_le 0 max_intervals)) by (unfold zlen in *; lia).
      rewrite take_ge; [done|]. rewrite py_sorted_length, length_app. unfold zlen in *. cbn. lia. }
    assert (Hci : forall c, cover c (py_head max_intervals (py_sorted iv_leb (sg_intervals sg ++ [iv])))
                  = cover c (sg_intervals sg) + (if inside c iv then 1 else 0)).
    { intros c. unfold cover. rewrite (zsum_map_perm _ _ _ Hp), zsum_map_app, zsum_map_cons, zsum_map_nil. lia. }
    assert (Hin : forall c, inside c iv = true <-> sg_max_cum sg < c < tf_cum f) by (intros c; by rewrite inside_spec).
    split; cbn -[py_head py_sorted loss_of]; fold iv; try done.
    + split_and!; [by constructor|set_solver|set_solver].
    + intros d [->|Hd]%elem_of_cons; [specialize (H3 first H2a); lia|]. specialize (H3 d Hd). lia.
    + split_and!; [eauto| |done]. eexists. split; [done|set_solver].
    + rewrite Hp. apply Forall_app. split; [exact HF|]. constructor; [|constructor]. cbn.
      pose proof (H3 _ H2b). split_and!; [lia|lia|]. rewrite undelivered_outside by lia.
      rewrite undelivered_all; [lia|lia|]. intros d Hd. apply H3 in Hd. lia.
    + intros c. rewrite Hci. specialize (H8 c). destruct (inside c iv) eqn:E; [|lia].
      apply Hin in E. rewrite Hcov0 by lia. lia.
    + intros c Hc Hcd. rewrite Hci. apply not_elem_of_cons in Hcd as [Hc1 Hcd]. pose proof (cover_nonneg c (sg_intervals sg)).
      destruct (inside c iv) eqn:E; [lia|]. apply not_true_iff_false in E. rewrite Hin in E.
      assert (c <> sg_max_cum sg) by congruence. specialize (H9 c ltac:(lia) Hcd). lia.
    + rewrite (zsum_map_perm _ _ _ Hp), zsum_map_app, zsum_map_cons, zsum_map_nil.
      destruct (0 <? volume_deficit iv); lia.
    + assert (missing_trades iv = tf_cum f - sg_max_cum sg - 1) by done. destruct (0 <? volume_deficit iv); lia.
    + rewrite HD. split_and!; lia.
  - assert (tf_cum f = sg_max_cum sg + 1) as Ef by lia. split; cbn; try done.
    + split_and!; [by constructor|set_solver|set_solver].
    + intros d [->|Hd]%elem_of_cons; [specialize (H3 first H2a); lia|]. specialize (H3 d Hd). lia.
    + split_and!; [eauto| |done]. eexists. split; [done|set_solver].
    + intros c Hc Hcd. apply not_elem_of_cons in Hcd as [Hc1 Hcd].
      assert (c <> sg_max_cum sg) by congruence. apply H9; [lia|done].
    + lia.
    + rewrite HD. split_and!; lia.
Qed.

(** What is left of an interval after [absorb_overlap] filled one trade of it. *)
Definition filled (iv : LossInterval) (f : TickFrame) : list LossInterval :=
  if missing_trades iv - 1 =? 0 then []
  else [shrink iv (missing_trades iv - 1) (Z.max 0 (volume_deficit iv - tf_cvolume f))].

Lemma filled_cover D l iv r f :
  tf_cum f ∉ D -> missing_trades iv = undelivered D (cum_prev iv) (cum_next iv) ->
  inside (tf_cum f) iv = true ->
  forall c, cover c (l ++ filled iv f ++ r) <= cover c (l ++ iv :: r) /\
    (c ∉ tf_cum f :: D -> cover c (l ++ filled iv f ++ r) = cover c (l ++ iv :: r)).
Proof.
  intros Hf Hm Hin%inside_spec c. rewrite !cover_app, cover_cons. unfold filled.
  assert (Hm' : undelivered (tf_cum f :: D) (cum_prev iv) (cum_next iv) = missing_trades iv - 1)
    by (rewrite Hm; by apply undelivered_inside).
  destruct (Z.eqb_spec (missing_trades iv - 1) 0) as [E|E].
  - split; [rewrite cover_nil; destruct (inside c iv); lia|]. intros Hc.
    destruct (inside c iv) eqn:Ei; [|rewrite cover_nil; lia].
    apply inside_spec in Ei. pose proof (undelivered_pos _ _ _ _ Hc Ei). lia.
  - rewrite cover_cons. change (inside c (shrink iv _ _)) with (inside c iv).
    rewrite cover_nil. split; [|intros _]; lia.
Qed.

Lemma exact_fill first D st sg f :
  exact first D st sg -> tf_cum f ∉ D -> first < tf_cum f < sg_max_cum sg ->
  exists l iv r, find_interval (tf_cum f) (sg_intervals sg) = Some (l, iv, r) /\
    exact first (tf_cum f :: D) (add_accepted st) (fill_interval l iv r f sg) /\
    zlen (sg_intervals (fill_interval l iv r f sg)) <= zlen (sg_intervals sg).
Proof.
  intros [H1 (H2 & H2a & H2b) H3 (H4 & (la & H5 & H5a) & H6) H7 H8 H9 Hb H10 (H11 & H12 & H13) H15] Hf Hr.
  destruct (find_interval_some (tf_cum f) (sg_intervals sg)) as (l & iv & r & E); [by apply H9|].
  exists l, iv, r. split; [done|]. apply find_interval_split in E as [El Hin].
  assert (HD : zlen (tf_cum f :: D) = zlen D + 1) by (unfold zlen; cbn; lia).
  assert (Hiv : inside (tf_cum f) iv = true) by by apply inside_spec.
  assert (Hothers : cover (tf_cum f) (l ++ r) = 0).
  { specialize (H8 (tf_cum f)). rewrite El, cover_app, cover_cons, Hiv in H8.
    rewrite cover_app. pose proof (cover_nonneg (tf_cum f) l). pose proof (cover_nonneg (tf_cum f) r). lia. }
  rewrite El in H7. apply Forall_app in H7 as [HL [(Hp & Hn & Hm) HR]%Forall_cons].
  assert (Hm' : undelivered (tf_cum f :: D) (cum_prev iv) (cum_next iv) = missing_trades iv - 1)
    by (rewrite Hm; by apply undelivered_inside).
  pose proof (filled_cover D l iv r f Hf Hm ltac:(by apply inside_spec)) as Hmid. rewrite <- El in Hmid.
  fold (filled iv f) in *. set (mid := filled iv f) in *.
  assert (HFo : forall k, Forall (fun i => inside (tf_cum f) i = false) k ->
    Forall (fun i => first <= cum_prev i /\ cum_next i <= sg_max_cum sg /\
      missing_trades i = undelivered D (cum_prev i) (cum_next i)) k ->
    Forall (fun i => first <= cum_prev i /\ cum_next i <= sg_max_cum sg /\
      missing_trades i = undelivered (tf_cum f :: D) (cum_prev i) (cum_next i)) k).
  { intros k Hk1 Hk2. apply Forall_forall. intros i Hi. rewrite Forall_forall in Hk1, Hk2.
    destruct (Hk2 i Hi) as (? & ? & ->). split_and!; [done|done|].
    rewrite undelivered_outside; [done|]. intros Hc. apply inside_spec in Hc. rewrite Hk1 in Hc; done. }
  apply cover_none, Forall_app in Hothers as [Hol Hor].
  assert (Hsum : zsum (map missing_trades (l ++ mid ++ r)) = zsum (map missing_trades (sg_intervals sg)) - 1).
  { rewrite El, !zsum_map_app, zsum_map_cons. unfold mid, filled.
    destruct (Z.eqb_spec (missing_trades iv - 1) 0); rewrite ?zsum_map_cons, zsum_map_nil; cbn; lia. }
  assert (Hlen : zlen (l ++ mid ++ r) <= zlen (sg_intervals sg)).
  { rewrite El. unfold zlen. rewrite !length_app. cbn. unfold mid, filled. destruct (_ =? 0); cbn; lia. }
  split; [|exact Hlen]. split; cbn; fold (filled iv f); fold mid; try done.
  - split_and!; [by constructor|set_solver|set_solver].
  - intros d [->|Hd]%elem_of_cons; [lia|auto].
  - split_and!; [done| |done]. eexists. split; [done|set_solver].
  - apply Forall_app. split; [by apply HFo|]. apply Forall_app. split; [|by apply HFo].
    unfold mid, filled. destruct (_ =? 0); [constructor|]. constructor; [|constructor]. cbn. by rewrite Hm'.
  - intros c. destruct (Hmid c) as [Hle _]. specialize (H8 c). lia.
  - intros c Hc Hcd. destruct (Hmid c) as [_ Hc']. rewrite Hc' by done. apply H9; [done|set_solver].
  - destruct (bool_decide _); lia.
  - destruct (bool_decide _); lia.
  - rewrite HD. split_and!; lia.
Qed.

Lemma advance_room sg f : zlen (sg_intervals (record_advance max_intervals symbol sg f)) <= zlen (sg_intervals sg) + jump (sg_max_cum sg) f.
Proof.
  unfold record_advance, jump. destruct (sg_max_frame sg) as [prev|]; [|cbn; case_match; lia].
  destruct (Z.leb_spec 1 (tf_cum f - sg_max_cum sg - 1)); [|cbn; case_match; lia].
  rewrite (proj2 (Z.ltb_lt _ _)) by lia. cbn -[py_head py_sorted loss_of].
  pose proof (sublist_length _ _ (py_head_sublist max_intervals (py_sorted iv_leb (sg_intervals sg ++ [loss_of symbol sg prev f])))) as Hl.
  rewrite py_sorted_length, length_app in Hl. unfold zlen. cbn in Hl. lia.
Qed.

(** One frame with a new counter keeps the ledger exact. *)
Lemma exact_step first D st sg f :
  exact first D st sg -> tf_cum f ∉ D -> first <= tf_cum f -> zlen (sg_intervals sg) + jump (sg_max_cum sg) f <= max_intervals ->
  let '(st', sg') := advance_segment confirm_frames max_intervals symbol st sg f in
  exact first (tf_cum f :: D) st' sg' /\ sg_max_cum sg' = Z.max (sg_max_cum sg) (tf_cum f) /\
  zlen (sg_intervals sg') <= zlen (sg_intervals sg) + jump (sg_max_cum sg) f.
Proof.
  intros HE Hf Hlo Hcap. unfold advance_segment. rewrite (exact_not_duplicate _ _ _ _ _ HE Hf).
  pose proof HE as [H1 (_ & Ha & Hb) _ _ _ _ _ _ _ _ _].
  assert (tf_cum f <> first) by congruence. assert (tf_cum f <> sg_max_cum sg) by congruence.
  destruct (decide (tf_cum f < sg_max_cum sg)) as [Hlt|Hge].
  - destruct (exact_fill first D st sg f HE Hf ltac:(lia)) as (l & iv & r & E & HE' & Hroom).
    assert (Hfo : fills_open_interval sg f = true).
    { unfold fills_open_interval. apply andb_true_iff. split; [by apply Z.ltb_lt|].
      apply find_interval_split in E as [El Hin]. apply existsb_exists. exists iv.
      split; [apply list_elem_of_In; rewrite El; set_solver|]. apply andb_true_iff. rewrite !Z.leb_le. lia. }
    rewrite Hfo, orb_true_r. unfold absorb_overlap. rewrite E. split; [done|]. unfold jump.
    rewrite (proj2 (Z.ltb_ge _ _)) by lia. split; [cbn; lia|lia].
  - assert (Hno : is_overlap sg f || fills_open_interval sg f = false).
    { unfold is_overlap, fills_open_interval. rewrite (proj2 (Z.ltb_ge _ _)) by lia.
      destruct (sg_max_frame sg); [|done]. by rewrite (proj2 (Z.leb_gt _ _)) by lia. }
    rewrite Hno. cbn [sg_first_cum see_conn]. rewrite H1.
    replace (tf_cum f <? sg_max_cum (see_conn (tf_conn_id f) sg)) with false
      by (symmetry; apply Z.ltb_ge; cbn; lia).
    pose proof (exact_advance first D st sg f HE ltac:(lia) Hcap) as HE'. split; [exact HE'|].
    pose proof (advance_room (set_run [] (see_conn (tf_conn_id f) sg)) f) as Hroom.
    destruct (advance_fields max_intervals symbol (set_run [] (see_conn (tf_conn_id f) sg)) f) as (_ & Em & _).
    cbn [sg_max_cum sg_intervals set_last set_run see_conn] in *. split; [rewrite Em; lia|exact Hroom].
Qed.

Lemma jumps_nonneg fs : forall high, 0 <= jumps high fs.
Proof. induction fs as [|f fs IH]; intros high; cbn; [lia|]. unfold jump. specialize (IH (Z.max high (tf_cum f))). case_match; lia. Qed.

Lemma exact_feed first fs : forall D st sg,
  exact first D st sg -> NoDup (rev (map tf_cum fs) ++ D) ->
  Forall (fun g => first <= tf_cum g) fs -> zlen (sg_intervals sg) + jumps (sg_max_cum sg) fs <= max_intervals ->
  exact first (rev (map tf_cum fs) ++ D) (fst (feed confirm_frames max_intervals symbol fs (st, sg)))
    (snd (feed confirm_frames max_intervals symbol fs (st, sg))).
Proof.
  induction fs as [|f fs IH]; intros D st sg HE Hn HF Hcap; [done|].
  apply Forall_cons in HF as [Hf HF]. cbn [map rev] in *. rewrite <- app_assoc in *. cbn [app] in *.
  cbn [feed fold_left]. fold (feed confirm_frames max_intervals symbol fs).
  assert (HfD : tf_cum f ∉ D) by (apply NoDup_app in Hn as (_ & _ & [? _]%NoDup_cons); done).
  cbn [jumps] in Hcap. pose proof (jumps_nonneg fs (Z.max (sg_max_cum sg) (tf_cum f))).
  pose proof (exact_step first D st sg f HE HfD Hf ltac:(lia)) as HE'. cbn [fst snd].
  destruct (advance_segment _ _ _ _ _ _) as [st' sg']. destruct HE' as (HE' & Em & Hroom). apply IH; [done|done|done|]. rewrite Em. lia.
Qed.
End Exact.

(** ** Late frames with one counter *)

Lemma undelivered_same D D' a b : (forall c, c ∈ D <-> c ∈ D') -> undelivered D a b = undelivered D' a b.
Proof. intros H. unfold undelivered. f_equal. apply List.filter_ext. intros y. specialize (H y). repeat case_bool_decide; tauto. Qed.

(** After two frames the second of which jumps there is one interval. *)
Lemma jump_opens confirm cap symbol phase f g : 1 <= cap -> 1 <= tf_cum g - tf_cum f - 1 ->
  exists st sg iv,
    advance_segment confirm cap symbol (fst (advance_segment confirm cap symbol new_symbol_state (new_segment phase) f))
      (snd (advance_segment confirm cap symbol new_symbol_state (new_segment phase) f)) g = (st, sg) /\
    sg_intervals sg = [iv] /\ cum_prev iv = tf_cum f /\ cum_next iv = tf_cum g /\ missing_trades iv = tf_cum g - tf_cum f - 1 /\
    sg_max_cum sg = tf_cum g /\ sg_first_cum sg = Some (tf_cum f) /\ sg_last sg = Some g /\ sg_run sg = [] /\
    sg_confirmed sg + sg_count_only sg = tf_cum g - tf_cum f - 1 /\ sg_accepted sg = 2 /\ sg_completed_net sg = 0 /\
    (sy_duplicates st = 0 /\ sy_regressions st = 0 /\ sy_resets st = 0).
Proof.
  intros Hcap Hm.
  assert (E0 : advance_segment confirm cap symbol new_symbol_state (new_segment phase) f
    = (add_accepted new_symbol_state, start_count f (see_conn (tf_conn_id f) (new_segment phase)))).
  { unfold advance_segment, is_overlap, fills_open_interval. cbn. by rewrite andb_false_r. }
  rewrite E0. cbn [fst snd]. set (sg0 := start_count f _).
  assert (Hd : is_duplicate f g = false) by (unfold is_duplicate; by rewrite (proj2 (Z.eqb_neq _ _)) by lia).
  unfold advance_segment. cbn [sg_last sg0 start_count sg_run see_conn new_segment rev]. rewrite Hd. cbn [orb].
  assert (Hno : is_overlap sg0 g || fills_open_interval sg0 g = false).
  { unfold is_overlap, fills_open_interval. cbn. rewrite (proj2 (Z.leb_gt _ _)), (proj2 (Z.ltb_ge _ _)) by lia. done. }
  rewrite Hno. cbn [sg_first_cum sg0 start_count see_conn]. rewrite (proj2 (Z.ltb_ge _ _)) by (cbn; lia).
  unfold record_advance. cbn [sg_max_frame sg_max_cum set_run see_conn sg0 start_count].
  rewrite (proj2 (Z.leb_le _ _)) by lia. set (iv := loss_of _ _ _ _).
  eexists _, _, iv. split; [reflexivity|]. cbn -[loss_of py_head py_sorted].
  assert (Hone : py_head cap (py_sorted iv_leb [iv]) = [iv]).
  { unfold py_head. rewrite (proj2 (Z.leb_le _ _)) by lia. rewrite take_ge; [done|]. cbn. lia. }
  rewrite Hone. split_and!; try done. unfold iv. cbn. destruct (0 <? _); lia.
Qed.

(** Frames with one counter inside the only interval, as many as it misses. *)
Lemma repeats_close confirm cap symbol c late : forall st sg iv,
  Forall (fun h => tf_cum h = c) late -> sg_intervals sg = [iv] -> cum_prev iv < c < cum_next iv -> c < sg_max_cum sg ->
  (exists l, sg_last sg = Some l /\ tf_cum l <> c) -> sg_run sg = [] -> 1 <= missing_trades iv -> zlen late = missing_trades iv ->
  let '(st', sg') := feed confirm cap symbol late (st, sg) in
  sg_intervals sg' = [] /\ sg_confirmed sg' + sg_count_only sg' = sg_confirmed sg + sg_count_only sg - missing_trades iv /\
  (sy_duplicates st' = sy_duplicates st /\ sy_regressions st' = sy_regressions st /\ sy_resets st' = sy_resets st) /\
  sg_max_cum sg' = sg_max_cum sg /\ (sg_first_cum sg' = sg_first_cum sg /\ sg_completed_net sg' = sg_completed_net sg) /\
  sg_accepted sg' = sg_accepted sg + missing_trades iv.
Proof.
  induction late as [|h late IH]; intros st sg iv HF Hi Hin Hmax (l & Hl & Hlc) Hr Hm Hlen; [unfold zlen in Hlen; cbn in Hlen; lia|].
  apply Forall_cons in HF as [Hh HF].
  change (feed confirm cap symbol (h :: late) (st, sg)) with (feed confirm cap symbol late (advance_segment confirm cap symbol st sg h)).
  assert (Hstep : advance_segment confirm cap symbol st sg h = (add_accepted st, fill_interval [] iv [] h sg)).
  { unfold advance_segment. rewrite Hl, Hr. cbn [rev]. unfold is_duplicate. rewrite Hh, (proj2 (Z.eqb_neq _ _)) by done. cbn [andb orb].
    assert (Hfo : fills_open_interval sg h = true).
    { unfold fills_open_interval. rewrite Hi, Hh. cbn. rewrite (proj2 (Z.ltb_lt _ _)), !(proj2 (Z.leb_le _ _)) by lia. done. }
    rewrite Hfo, orb_true_r. unfold absorb_overlap. rewrite Hi, Hh. cbn. by rewrite !(proj2 (Z.ltb_lt _ _)) by lia. }
  rewrite Hstep.
  assert (Hz : zlen (h :: late) = zlen late + 1) by (unfold zlen; cbn; lia).
  assert (Hb : sg_confirmed (fill_interval [] iv [] h sg) + sg_count_only (fill_interval [] iv [] h sg) = sg_confirmed sg + sg_count_only sg - 1)
    by (cbn; destruct (bool_decide _); lia).
  destruct (decide (missing_trades iv = 1)) as [E1|E1].
  - assert (late = []) as -> by (apply length_zero_iff_nil; unfold zlen in *; lia). cbn [feed fold_left].
    split_and!; try done; [cbn; by rewrite E1|rewrite Hb; lia|cbn; lia].
  - set (iv' := shrink iv (missing_trades iv - 1) (Z.max 0 (volume_deficit iv - tf_cvolume h))).
    assert (Hi' : sg_intervals (fill_interval [] iv [] h sg) = [iv']).
    { cbn. by rewrite (proj2 (Z.eqb_neq _ _)) by lia. }
    specialize (IH (add_accepted st) (fill_interval [] iv [] h sg) iv' HF Hi' Hin Hmax ltac:(by exists l) Hr ltac:(cbn; lia) ltac:(cbn; lia)).
    destruct (feed _ _ _ _ _) as [st' sg']. rewrite Hb in IH. cbn [missing_trades iv' shrink] in IH.
    cbn in IH. destruct IH as (I1 & I2 & (I3 & I3a & I3b) & I4 & (I5 & I5a) & I6). split_and!; (assumption || lia).
Qed.

(** ** Properties *)

(** C12. Exact loss accounting: when the frames of one symbol and phase deliver no trade
    counter twice, the first one has the lowest, and at most as many of them jump over a
    counter as the ledger keeps intervals of a symbol (beyond that an interval is cut
    off and late frames no longer shrink it), then whatever order they come in and
    whatever connections carry them, the ledger books exactly
    the counters between the first and the highest one that never arrived - as
    booked loss, as net count and as the sum over the kept intervals - and
    counts no duplicate, no regression and no counter reset. *)
Theorem loss_exact confirm cap symbol phase f fs :
  NoDup (map tf_cum (f :: fs)) -> Forall (fun g => tf_cum f <= tf_cum g) fs -> jumps (tf_cum f) fs <= cap ->
  let '(st, sg) := feed confirm cap symbol (f :: fs) (new_symbol_state, new_segment phase) in
  let lost := undelivered (map tf_cum (f :: fs)) (tf_cum f - 1) (sg_max_cum sg + 1) in
  sg_confirmed sg + sg_count_only sg = lost /\ seg_net sg = lost /\
  zsum (map missing_trades (sg_intervals sg)) = lost /\
  sg_max_cum sg ∈ map tf_cum (f :: fs) /\ (forall g, g ∈ f :: fs -> tf_cum g <= sg_max_cum sg) /\
  sy_accepted_total st = zlen (f :: fs) /\
  sy_duplicates st = 0 /\ sy_regressions st = 0 /\ sy_resets st = 0.
Proof.
  intros Hn HF Hcap.
  assert (E0 : advance_segment confirm cap symbol new_symbol_state (new_segment phase) f
    = (add_accepted new_symbol_state, start_count f (see_conn (tf_conn_id f) (new_segment phase)))).
  { unfold advance_segment, is_overlap, fills_open_interval. cbn. by rewrite andb_false_r. }
  change (feed confirm cap symbol (f :: fs) (new_symbol_state, new_segment phase))
    with (feed confirm cap symbol fs (advance_segment confirm cap symbol new_symbol_state (new_segment phase) f)).
  rewrite E0.
  assert (Hp : rev (map tf_cum fs) ++ [tf_cum f] ≡ₚ map tf_cum (f :: fs)).
  { cbn. rewrite <- Permutation_cons_append. by rewrite <- Permutation_rev. }
  pose proof (exact_feed confirm cap symbol (tf_cum f) fs [tf_cum f] _ _ (exact_start f phase)
    ltac:(by rewrite Hp) HF Hcap) as HE.
  destruct (feed _ _ _ _ _) as [st sg]. cbn [fst snd] in HE.
  destruct HE as [H1 (H2 & H2a & H2b) H3 _ _ _ _ Hb H10 (H11 & H12 & H13) (H14 & H15 & H16)].
  assert (HD : forall d, d ∈ map tf_cum (f :: fs) <-> d ∈ rev (map tf_cum fs) ++ [tf_cum f]) by (intros d; by rewrite Hp).
  pose proof (H3 _ H2b) as Hhi.
  cbv zeta. rewrite undelivered_count; [|lia|done|intros d Hd; apply HD, H3 in Hd; lia].
  assert (HL : zlen (rev (map tf_cum fs) ++ [tf_cum f]) = zlen (map tf_cum (f :: fs))) by (unfold zlen; by rewrite Hp).
  assert (HL' : zlen (map tf_cum (f :: fs)) = zlen (f :: fs)) by (unfold zlen; by rewrite length_map).
  unfold seg_net. rewrite H1, H13. rewrite HL in *.
  split_and!; try lia; [by apply HD|].
  intros g Hg. assert (tf_cum g ∈ map tf_cum (f :: fs)) as Hd by (apply list_elem_of_fmap; eauto).
  apply HD, H3 in Hd. lia.
Qed.

Definition demo_frame (cum recv : Z) (conn : string) : TickFrame :=
  mkFrame cum (cum * 10) 10 (Some "70100") "090000" recv conn (Some recv).

(** Counters 1, 2, 6, then 4 from the older connection, then 7: 3 and 5 are lost. *)
Lemma loss_exact_witness :
  let fs := [demo_frame 2 2 "a"; demo_frame 6 3 "b"; demo_frame 4 4 "a"; demo_frame 7 5 "b"] in
  let '(st, sg) := feed 3 500 "005930" (demo_frame 1 1 "a" :: fs) (new_symbol_state, new_segment REGULAR) in
  sg_confirmed sg + sg_count_only sg = 2 /\ sg_max_cum sg = 7.
Proof.
  assert (H := loss_exact 3 500 "005930" REGULAR (demo_frame 1 1 "a")
    [demo_frame 2 2 "a"; demo_frame 6 3 "b"; demo_frame 4 4 "a"; demo_frame 7 5 "b"]
    ltac:(apply (bool_decide_unpack _); vm_compute; exact I)
    ltac:(repeat constructor; cbn; lia) ltac:(by vm_compute)).
  vm_compute in H. vm_compute. split; [exact (proj1 H)|reflexivity].
Defined.

(** C37. A repeated late counter hides a loss: when a symbol's counter jumps over at least
    two values and then frames with one of these values come as often as there are values missed
    (two overlapping connections and their replays deliver a late trade more than once), the
    ledger books no loss, reports no interval and counts no duplicate, although all the other
    values missed never arrive: every late frame inside an interval is taken for
    another of its missing trades. *)
Theorem late_repeat_hides_loss confirm cap symbol phase f g c late :
  1 <= cap -> 2 <= tf_cum g - tf_cum f - 1 -> tf_cum f < c < tf_cum g ->
  Forall (fun h => tf_cum h = c) late -> zlen late = tf_cum g - tf_cum f - 1 ->
  let fs := f :: g :: late in
  let '(st, sg) := feed confirm cap symbol fs (new_symbol_state, new_segment phase) in
  undelivered (map tf_cum fs) (tf_cum f - 1) (sg_max_cum sg + 1) = tf_cum g - tf_cum f - 2 /\
  sg_confirmed sg + sg_count_only sg = 0 /\ sg_intervals sg = [] /\ seg_net sg = 0 /\
  sy_duplicates st = 0 /\ sy_regressions st = 0 /\ sy_resets st = 0.
Proof.
  intros Hcap Hm Hc HF Hlen fs. subst fs.
  set (s1 := advance_segment confirm cap symbol new_symbol_state (new_segment phase) f) in |- *.
  change (feed confirm cap symbol (f :: g :: late) (new_symbol_state, new_segment phase))
    with (feed confirm cap symbol late (advance_segment confirm cap symbol (fst s1) (snd s1) g)). subst s1.
  destruct (jump_opens confirm cap symbol phase f g Hcap ltac:(lia)) as (st & sg & iv & E & H). rewrite E.
  destruct H as (Hi & Hp & Hn & Hk & Hmax & Hfirst & Hl & Hr & Hb & Ha & Hcn & Hd1 & Hd2 & Hd3).
  pose proof (repeats_close confirm cap symbol c late st sg iv HF Hi ltac:(lia) ltac:(lia) ltac:(exists g; split; [done|lia]) Hr ltac:(lia) ltac:(lia)) as R.
  destruct (feed _ _ _ _ _) as [st' sg']. destruct R as (R1 & R2 & (R3 & R3a & R3b) & R4 & (R5 & R5a) & R6). rewrite R4, Hmax.
  assert (Hx : exists h, h ∈ late) by (destruct late as [|h ?]; [unfold zlen in Hlen; cbn in Hlen; lia|exists h; left]).
  destruct Hx as (h & Hh). rewrite Forall_forall in HF. split_and!; [|lia|done| |congruence..].
  - rewrite (undelivered_same (map tf_cum (f :: g :: late)) [tf_cum f; tf_cum g; c]).
    + rewrite undelivered_count; [unfold zlen; cbn; lia|lia| |].
      * repeat (apply NoDup_cons; split; [rewrite ?elem_of_cons, elem_of_nil; lia|]). constructor.
      * intros d. rewrite !elem_of_cons, elem_of_nil. lia.
    + intros d. rewrite list_elem_of_fmap, !elem_of_cons, elem_of_nil. setoid_rewrite elem_of_cons. setoid_rewrite elem_of_cons. split.
      * intros (x & -> & [->|[->|Hx]]); [by left|by right; left|right; right; left; by apply HF].
      * intros [->|[->|[->|[]]]]; [exists f; auto|exists g; auto|exists h; split; [symmetry; by apply HF|auto]].
  - unfold seg_net. rewrite R5, Hfirst, R4, Hmax, R6, R5a. lia.
Qed.

(** Counters 1 and 5 arrive, then 3 three times: 2 and 4 never arrive. *)
Lemma late_repeat_hides_loss_witness :
  let fs := [demo_frame 1 1 "a"; demo_frame 5 2 "a"; demo_frame 3 3 "a"; demo_frame 3 4 "b"; demo_frame 3 5 "a"] in
  let '(st, sg) := feed 3 500 "005930" fs (new_symbol_state, new_segment REGULAR) in
  undelivered (map tf_cum fs) 0 (sg_max_cum sg + 1) = 2 /\ sg_confirmed sg + sg_count_only sg = 0.
Proof.
  assert (H := late_repeat_hides_loss 3 500 "005930" REGULAR (demo_frame 1 1 "a") (demo_frame 5 2 "a") 3
    [demo_frame 3 3 "a"; demo_frame 3 4 "b"; demo_frame 3 5 "a"] ltac:(lia) ltac:(cbn; lia) ltac:(cbn; lia)
    ltac:(repeat constructor) eq_refl).
  vm_compute in H. vm_compute. split; [exact (proj1 H)|exact (proj1 (proj2 H))].
Defined.
