(* ===== verification/L0Latency.v ===== *)
(** * Delivery latency per minute ([src/storage/l0_audit.py] 77-116, 260-274, 346-363, 502-569, 655-724, 796-830, 1020-1043)

    Samples are grouped by receive minute and connection under a memory budget:
    the newest groups are dropped when the budget is full and read again from the
    journal in later passes. Latencies are nanoseconds; the code's float of
    seconds is the rounded quotient, which keeps their order. A key is a minute
    and a connection joined by a bar. *)
From Stdlib Require Import Ascii.
From S2P Require Import Prelude PyStr PyTime ExecJournal MarketPhase L0Decode.

Definition SAMPLE_OVERHEAD : Z := 80.

Record LatencyMinute := mkMinute {
  lm_minute_kst : string;
  lm_count : Z;
  lm_p50 : Z;
  lm_max : Z;
  lm_min : Z;
  lm_secondary_count : Z;
  lm_secondary_max : Z
}.

Record EventHole := mkHole { eh_start : string; eh_end : string; eh_seconds : Z }.

(** [_StreamAccumulator] without its stream name and the finished minutes. Sets are lists. *)
Record StreamAccumulator := mkAcc {
  ac_rows : Z;
  ac_missing : Z;
  ac_failed : bool;
  ac_order : list string;
  ac_counts : list (string * Z);
  ac_samples : list (string * list Z);
  ac_evicted : list string;
  ac_stored_bytes : Z;
  ac_event_seconds : list Z;
  ac_spans : list (string * (Z * Z));
  ac_symbols : list (string * list string)
}.

Definition new_acc : StreamAccumulator := mkAcc 0 0 false [] [] [] [] 0 [] [] [].

(** ** Adding a sample *)

Definition set_samples (order : list string) (counts : list (string * Z))
    (samples : list (string * list Z)) (evicted : list string) (stored : Z) (a : StreamAccumulator)
    : StreamAccumulator :=
  mkAcc (ac_rows a) (ac_missing a) (ac_failed a) order counts samples evicted stored
    (ac_event_seconds a) (ac_spans a) (ac_symbols a).

(** The [for candidate in reversed(acc.order)] loop: groups are dropped from the
    newest on until a sample fits. *)
Fixpoint evict (budget : Z) (candidates : list string) (samples : list (string * list Z))
    (evicted : list string) (stored : Z) : list (string * list Z) * list string * Z :=
  match candidates with
  | [] => (samples, evicted, stored)
  | c :: rest =>
      match dget samples c with
      | Some held =>
          let stored := stored - (zlen held * 8 + SAMPLE_OVERHEAD) in
          let samples := ddel samples c in
          if stored + 8 <=? budget then (samples, c :: evicted, stored)
          else evict budget rest samples (c :: evicted) stored
      | None => evict budget rest samples evicted stored
      end
  end.

Definition append_sample (minute : string) (latency : Z) (samples : list (string * list Z))
    : list (string * list Z) :=
  dset samples minute (default [] (dget samples minute) ++ [latency]).

Definition add_sample (budget : Z) (a : StreamAccumulator) (minute : string) (latency : Z)
    : StreamAccumulator :=
  match dget (ac_counts a) minute with
  | None =>
      let order := ac_order a ++ [minute] in
      let counts := dset (ac_counts a) minute 1 in
      let cost := 8 + SAMPLE_OVERHEAD in
      if budget <? ac_stored_bytes a + cost
      then set_samples order counts (ac_samples a) (minute :: ac_evicted a) (ac_stored_bytes a) a
      else set_samples order counts (dset (ac_samples a) minute [latency]) (ac_evicted a)
             (ac_stored_bytes a + cost) a
  | Some known =>
      let counts := dset (ac_counts a) minute (known + 1) in
      if decide (minute ∈ ac_evicted a)
      then set_samples (ac_order a) counts (ac_samples a) (ac_evicted a) (ac_stored_bytes a) a
      else if ac_stored_bytes a + 8 <=? budget
      then set_samples (ac_order a) counts (append_sample minute latency (ac_samples a)) (ac_evicted a)
             (ac_stored_bytes a + 8) a
      else
        let '(samples, evicted, stored) :=
          evict budget (rev (ac_order a)) (ac_samples a) (ac_evicted a) (ac_stored_bytes a) in
        if decide (minute ∈ evicted)
        then set_samples (ac_order a) counts samples evicted stored a
        else set_samples (ac_order a) counts (append_sample minute latency samples) evicted (stored + 8) a
  end.

(** ** Finished minutes *)

(** [key.partition("|")]. *)
Definition key_sep : ascii := "|"%char.

Fixpoint partition_sep (l : list ascii) : list ascii * list ascii :=
  match l with
  | [] => ([], [])
  | c :: l' =>
      if decide (c = key_sep) then ([], l')
      else let '(a, b) := partition_sep l' in (c :: a, b)
  end.

Definition key_minute (key : string) : string := l2s (fst (partition_sep (s2l key))).
Definition key_conn (key : string) : string := l2s (snd (partition_sep (s2l key))).

Definition zmin_list (l : list Z) : Z := match l with [] => 0 | x :: l' => fold_left Z.min l' x end.
Definition zmax_list (l : list Z) : Z := match l with [] => 0 | x :: l' => fold_left Z.max l' x end.

(** [_finalize_minute]; samples are not empty. *)
Definition finalize_minute (key : string) (samples : list Z) : LatencyMinute :=
  let ordered := py_sorted Z.leb samples in
  mkMinute (key_minute key) (zlen samples)
    (nth (Z.to_nat ((zlen samples - 1) / 2)) ordered 0) (zmax_list samples) (zmin_list samples) 0 0.

(** ** Later passes *)

(** The greedy batch of deferred groups: at least one, and more while they fit. *)
Fixpoint take_batch (budget : Z) (counts : list (string * Z)) (first : bool) (projected : Z)
    (deferred : list string) : list string * list string :=
  match deferred with
  | [] => ([], [])
  | m :: rest =>
      let need := default 0 (dget counts m) * 8 + SAMPLE_OVERHEAD in
      if negb first && (budget <? projected + need) then ([], deferred)
      else let '(b, r) := take_batch budget counts false (projected + need) rest in (m :: b, r)
  end.

(** A pass over the journal's samples that keeps the wanted groups. *)
Definition collect (wanted : list string) (ss : list (string * Z)) : list (string * list Z) :=
  fold_left (fun acc s => if decide (fst s ∈ wanted) then append_sample (fst s) (snd s) acc else acc) ss [].

(** The groups of a batch; [None] is the [ValueError] of a changed journal. *)
Fixpoint finish_batch (counts : list (string * Z)) (collected : list (string * list Z))
    (batch : list string) (final : list (string * LatencyMinute)) : option (list (string * LatencyMinute)) :=
  match batch with
  | [] => Some final
  | m :: rest =>
      let held := default [] (dget collected m) in
      if zlen held =? default 0 (dget counts m)
      then finish_batch counts collected rest (dset final m (finalize_minute m held))
      else None
  end.

(** The [while pos < len(deferred)] loop; every round finishes one group at least. *)
Fixpoint later_passes (fuel : nat) (budget : Z) (counts : list (string * Z)) (ss : list (string * Z))
    (deferred : list string) (final : list (string * LatencyMinute))
    : option (list (string * LatencyMinute)) :=
  match fuel with
  | O => Some final
  | S n =>
      match deferred with
      | [] => Some final
      | _ =>
          let '(batch, rest) := take_batch budget counts true 0 deferred in
          final' ← finish_batch counts (collect batch ss) batch final;
          later_passes n budget counts ss rest final'
      end
  end.

(** The groups still held when the first pass ends ([popitem] takes the newest). *)
Definition finish_held (a : StreamAccumulator) : list (string * LatencyMinute) :=
  fold_left (fun final kv => dset final (fst kv) (finalize_minute (fst kv) (snd kv))) (rev (ac_samples a)) [].

Definition finish_minutes (budget : Z) (a : StreamAccumulator) (ss : list (string * Z))
    : option (list (string * LatencyMinute)) :=
  let final := finish_held a in
  let deferred := List.filter (fun m => negb (dmem final m)) (ac_order a) in
  later_passes (length deferred) budget (ac_counts a) ss deferred final.

(** ** Connections of one minute *)

Record Part := mkPart {
  pt_conn : string; pt_minute : LatencyMinute; pt_low : Z; pt_high : Z; pt_symbols : list string
}.

(** [(count, conn)] compared as tuples. *)
Definition part_ltb (a b : Part) : bool :=
  (lm_count (pt_minute a) <? lm_count (pt_minute b))
  || ((lm_count (pt_minute a) =? lm_count (pt_minute b)) && str_ltb (pt_conn a) (pt_conn b)).

(** [max(parts, key=...)]: the first of the greatest. *)
Definition dominant_part (p : Part) (parts : list Part) : Part :=
  fold_left (fun best x => if part_ltb best x then x else best) parts p.

Definition disjoint_symbols (a b : list string) : bool := forallb (fun s => negb (bool_decide (s ∈ b))) a.

(** Overlapping the dominant connection in time and sharing a symbol with it. *)
Definition is_secondary (dominant p : Part) : bool :=
  (pt_low p <=? pt_high dominant) && (pt_low dominant <=? pt_high p)
  && negb (disjoint_symbols (pt_symbols p) (pt_symbols dominant)).

Definition merge_connections (minute : string) (p : Part) (parts : list Part) : LatencyMinute :=
  let all := p :: parts in
  let dominant := dominant_part p parts in
  let others := List.filter (fun x => negb (bool_decide (pt_conn x = pt_conn dominant))) all in
  let secondary := List.filter (is_secondary dominant) others in
  let judged := pt_minute dominant :: map pt_minute (List.filter (fun x => negb (is_secondary dominant x)) others) in
  mkMinute minute (zsum (map lm_count judged)) (lm_p50 (pt_minute dominant))
    (zmax_list (map lm_max judged)) (zmin_list (map lm_min judged))
    (zsum (map (fun x => lm_count (pt_minute x)) secondary))
    (fold_left Z.max (map (fun x => lm_max (pt_minute x)) secondary) 0).

(** ** Event holes *)

Fixpoint pairwise (l : list Z) : list (Z * Z) :=
  match l with
  | a :: (b :: _) as l' => (a, b) :: pairwise l'
  | _ => []
  end.

(** The runs of at least [min_hole] seconds without an event between the edges. *)
Definition hole_runs (seconds : list Z) (start_s end_s min_hole : Z) : list (Z * Z) :=
  let inside := py_sorted Z.leb (List.filter (fun x => (start_s <=? x) && (x <? end_s)) seconds) in
  match inside with
  | [] => []
  | _ =>
      map (fun ab => (fst ab + 1, snd ab - 1))
        (List.filter (fun ab => min_hole <=? snd ab - fst ab - 1)
           (pairwise ((start_s - 1) :: inside ++ [end_s])))
  end.

Definition run_leb (a b : Z * Z) : bool :=
  let la := fst a - snd a in
  let lb := fst b - snd b in
  (la <? lb) || ((la =? lb) && (fst a <=? fst b)).

Definition pair_leb (a b : Z * Z) : bool := (fst a <? fst b) || ((fst a =? fst b) && (snd a <=? snd b)).

Definition event_holes (seconds : list Z) (start_s end_s min_hole : Z) (cap : nat) : list EventHole * Z :=
  let runs := hole_runs seconds start_s end_s min_hole in
  let total := zsum (map (fun r => snd r - fst r + 1) runs) in
  let longest := take cap (py_sorted run_leb runs) in
  (map (fun r => mkHole (hhmmss_text (fst r)) (hhmmss_text (snd r)) (snd r - fst r + 1))
     (py_sorted pair_leb longest), total).
