(* ===== verification/L0LatencyFacts.v ===== *)
(** * Theorems about the delivery latency

    The minutes do not depend on the memory budget; connections of a minute are
    split without losing a frame; the event holes are the event-free runs. *)
From Stdlib Require Import Ascii.
From S2P Require Import Prelude PyStr PyTime ExecJournal MarketPhase L0Decode L0Latency.

#[local] Arguments zsum : simpl never.
#[local] Arguments zlen : simpl never.

(** ** Sums over dictionaries *)

Definition dsum {K V} (f : V -> Z) (d : list (K * V)) : Z := zsum (map (fun kv => f (snd kv)) d).

Section DictSums.
Context {K V : Type} `{EqDecision K} (f : V -> Z).
Implicit Types (d : list (K * V)).

Lemma dsum_cons kv d : dsum f (kv :: d) = f (snd kv) + dsum f d.
Proof. done. Qed.

Lemma dsum_dset d k v :
  dsum f (dset d k v) = dsum f d - match dget d k with Some v0 => f v0 | None => 0 end + f v.
Proof.
  induction d as [|[k' v'] d IH]; cbn [dset dget]; [unfold dsum, zsum; cbn; lia|].
  case_decide; rewrite !dsum_cons; cbn [snd]; [lia|]. rewrite IH. destruct (dget d k); lia.
Qed.

Lemma dsum_ddel d k v : dget d k = Some v -> dsum f (ddel d k) = dsum f d - f v.
Proof.
  induction d as [|[k' v'] d IH]; cbn [ddel dget]; [done|].
  case_decide; intros Hg; rewrite !dsum_cons; cbn [snd]; [simplify_eq; lia|]. rewrite IH by done. lia.
Qed.

Lemma dkeys_ddel_nodup d k : NoDup (dkeys d) -> NoDup (dkeys (ddel d k)).
Proof. intros Hn. eapply sublist_NoDup; [exact Hn|apply dkeys_ddel_sub]. Qed.
End DictSums.

Lemma dget_dset {K V} `{EqDecision K} (d : list (K * V)) k v k' :
  dget (dset d k v) k' = if decide (k = k') then Some v else dget d k'.
Proof. case_decide; [subst; apply dget_dset_eq|by apply dget_dset_ne]. Qed.

Lemma dget_ddel {K V} `{EqDecision K} (d : list (K * V)) k k' :
  NoDup (dkeys d) -> dget (ddel d k) k' = if decide (k = k') then None else dget d k'.
Proof. intros. case_decide; [subst; by apply dget_ddel_eq|by apply dget_ddel_ne]. Qed.

Lemma fromkeys_snoc {A} `{EqDecision A} (l : list A) x :
  fromkeys (l ++ [x]) = if decide (x ∈ l) then fromkeys l else fromkeys l ++ [x].
Proof.
  induction l as [|y l IH]; [by rewrite decide_False by set_solver|]. cbn. rewrite IH.
  destruct (decide (x ∈ l)) as [Hx|Hx]; [by rewrite decide_True by set_solver|].
  rewrite List.filter_app. cbn. destruct (decide (x = y)) as [->|Hne].
  - rewrite decide_True by set_solver. rewrite bool_decide_true by done. cbn. by rewrite app_nil_r.
  - rewrite decide_False by set_solver. by rewrite bool_decide_false.
Qed.

(** ** The first pass *)

(** The samples of one group, in journal order. *)
Definition group (key : string) (ss : list (string * Z)) : list Z :=
  map snd (List.filter (fun s => bool_decide (fst s = key)) ss).

Lemma group_snoc key ss k v :
  group key (ss ++ [(k, v)]) = if decide (k = key) then group key ss ++ [v] else group key ss.
Proof.
  unfold group. rewrite List.filter_app, map_app. cbn. case_decide.
  - by rewrite bool_decide_true.
  - by rewrite bool_decide_false, app_nil_r.
Qed.

Lemma group_absent key ss : key ∉ map fst ss -> group key ss = [].
Proof.
  induction ss as [|[k v] ss IH]; [done|]. cbn. intros [Hk Hs]%not_elem_of_cons. unfold group. cbn.
  rewrite bool_decide_false by congruence. by apply IH.
Qed.

Definition cost (held : list Z) : Z := zlen held * 8 + SAMPLE_OVERHEAD.

Lemma cost_snoc l v : cost (l ++ [v]) = cost l + 8.
Proof. unfold cost, zlen. rewrite length_app. cbn. lia. Qed.

Record store_ok (budget : Z) (samples : list (string * list Z)) (stored : Z) : Prop := {
  sk_nodup : NoDup (dkeys samples);
  sk_stored : stored = dsum cost samples;
  sk_budget : stored <= budget;
}.

(** The held groups after [evict]: some of the held ones, unchanged, the others
    marked; a sample fits, or nothing of the candidates is held. *)
Lemma evict_spec budget cands : forall samples evicted stored s' e' st',
  store_ok budget samples stored -> evict budget cands samples evicted stored = (s', e', st') ->
  store_ok budget s' st' /\ evicted ⊆ e' /\
  (forall m, dget s' m = dget samples m /\ (m ∈ e' -> m ∈ evicted) \/ dget s' m = None /\ is_Some (dget samples m) /\ m ∈ e') /\
  (st' + 8 <= budget \/ forall c, c ∈ cands -> dget s' c = None).
Proof.
  induction cands as [|c cands IH]; intros samples evicted stored s' e' st' [Hn Hs Hb]; cbn [evict].
  { intros [= -> -> ->]. split_and!; [by split|done|auto|right; set_solver]. }
  destruct (dget samples c) as [held|] eqn:Ec.
  - assert (Hok : store_ok budget (ddel samples c) (stored - (zlen held * 8 + SAMPLE_OVERHEAD))).
    { split; [by apply dkeys_ddel_nodup|by rewrite (dsum_ddel _ _ _ _ Ec), Hs|].
      unfold zlen, SAMPLE_OVERHEAD. lia. }
    assert (Hget : forall m, dget (ddel samples c) m = if decide (c = m) then None else dget samples m)
      by (intros m; by apply dget_ddel).
    destruct (Z.leb_spec (stored - (zlen held * 8 + SAMPLE_OVERHEAD) + 8) budget) as [Hfit|_].
    + intros [= <- <- <-]. split_and!; [done|set_solver| |by left].
      intros m. rewrite Hget. case_decide; subst; [right; split_and!; [done|by eexists|set_solver]|left].
      split; [done|set_solver].
    + intros E. destruct (IH _ _ _ _ _ _ Hok E) as (H1 & H2 & H3 & H4). split_and!; [done|set_solver| |].
      * intros m. destruct (H3 m) as [[Hm He]|(Hm & [x Hx] & He)]; rewrite Hget in *; case_decide; subst; try done.
        -- right. split_and!; [done|by eexists|set_solver].
        -- left. split; [done|]. intros Hin. apply He in Hin. set_solver.
        -- right. by split_and!.
      * destruct H4 as [?|H4]; [by left|right]. intros x [->|Hx]%elem_of_cons; [|auto].
        destruct (H3 c) as [[Hm _]|[Hm _]]; [|done]. by rewrite Hm, Hget, decide_True.
  - intros E. destruct (IH _ _ _ _ _ _ (Build_store_ok _ _ _ Hn Hs Hb) E) as (H1 & H2 & H3 & H4).
    split_and!; [done|done|done|]. destruct H4 as [?|H4]; [by left|right].
    intros x [->|Hx]%elem_of_cons; [|auto]. destruct (H3 c) as [[Hm _]|[Hm _]]; congruence.
Qed.

(** What is held of the samples [ss]: every group either complete or evicted. *)
Record held_ok (ss : list (string * Z)) (samples : list (string * list Z)) (evicted : list string) : Prop := {
  hk_held : forall m l, dget samples m = Some l -> l = group m ss /\ m ∈ map fst ss /\ m ∉ evicted;
  hk_all : forall m, m ∈ map fst ss -> m ∈ evicted \/ is_Some (dget samples m);
  hk_evicted : forall m, m ∈ evicted -> m ∈ map fst ss;
}.

Lemma keys_snoc (ss : list (string * Z)) k v m : m ∈ map fst (ss ++ [(k, v)]) <-> m ∈ map fst ss \/ m = k.
Proof. rewrite map_app. cbn. set_solver. Qed.

Lemma group_other m k v ss : m <> k -> group m (ss ++ [(k, v)]) = group m ss.
Proof. intros Hm. by rewrite group_snoc, decide_False. Qed.

Lemma held_skip ss samples evicted evicted' k v :
  held_ok ss samples evicted -> dget samples k = None ->
  (forall m, m ∈ evicted' <-> m ∈ evicted \/ m = k) -> held_ok (ss ++ [(k, v)]) samples evicted'.
Proof.
  intros [Hh Ha He] Hk He'. split.
  - intros m l Hm. assert (m <> k) by congruence. rewrite group_other, keys_snoc, He' by done.
    destruct (Hh m l Hm) as (? & ? & ?). naive_solver.
  - intros m [Hm| ->]%keys_snoc; rewrite He'; [|auto]. destruct (Ha m Hm); auto.
  - intros m [Hm| ->]%He'; apply keys_snoc; auto.
Qed.

Lemma held_append ss samples evicted k v :
  held_ok ss samples evicted -> k ∉ evicted -> held_ok (ss ++ [(k, v)]) (append_sample k v samples) evicted.
Proof.
  intros [Hh Ha He] Hk. unfold append_sample. split.
  - intros m l. rewrite dget_dset, keys_snoc. destruct (decide (k = m)) as [->|Hne].
    + intros [= <-]. rewrite group_snoc, decide_True by done. split_and!; [|auto|done]. f_equal.
      destruct (dget samples m) as [l|] eqn:E; [by destruct (Hh m l E) as [-> _]|]. cbn. symmetry. apply group_absent.
      intros Hin. destruct (Ha m Hin) as [?|[? ?]]; [done|congruence].
    + intros Hm. rewrite group_other by done. destruct (Hh m l Hm) as (? & ? & ?). naive_solver.
  - intros m Hm. rewrite dget_dset. case_decide; [right; by eexists|]. apply keys_snoc in Hm as [Hm| ->]; [auto|done].
  - intros m Hm. apply keys_snoc. auto.
Qed.

Lemma held_evict budget cands ss samples evicted stored s' e' st' :
  held_ok ss samples evicted -> store_ok budget samples stored ->
  evict budget cands samples evicted stored = (s', e', st') -> held_ok ss s' e'.
Proof.
  intros [Hh Ha He] Hs E. destruct (evict_spec _ _ _ _ _ _ _ _ Hs E) as (_ & Hsub & Hget & _). split.
  - intros m l Hm. destruct (Hget m) as [[Hm' He']|[? _]]; [|congruence]. rewrite Hm in Hm'.
    destruct (Hh m l (eq_sym Hm')) as (? & ? & ?). split_and!; auto.
  - intros m Hm. destruct (Hget m) as [[-> _]|(_ & _ & ?)]; [|auto]. destruct (Ha m Hm); auto.
  - intros m Hm. destruct (Hget m) as [[_ H]|(_ & [l Hl] & _)]; [auto|]. by apply (Hh m l).
Qed.

Record acc_ok (budget : Z) (ss : list (string * Z)) (a : StreamAccumulator) : Prop := {
  ao_order : ac_order a = fromkeys (map fst ss);
  ao_counts : forall m, dget (ac_counts a) m = if decide (m ∈ map fst ss) then Some (zlen (group m ss)) else None;
  ao_held : held_ok ss (ac_samples a) (ac_evicted a);
  ao_store : store_ok budget (ac_samples a) (ac_stored_bytes a);
}.

Lemma acc_ok_new budget : 0 <= budget -> acc_ok budget [] new_acc.
Proof.
  intros Hb. split; cbn; try done; split; cbn; try done; try set_solver. constructor.
Qed.

Lemma append_store budget samples stored m v :
  store_ok budget samples stored -> is_Some (dget samples m) -> stored + 8 <= budget ->
  store_ok budget (append_sample m v samples) (stored + 8).
Proof.
  intros [Hn Hs Hb] [l Hm] Hf. unfold append_sample. rewrite Hm. cbn.
  split; [by apply dkeys_dset_nodup| |done]. rewrite dsum_dset, Hm, cost_snoc, Hs. lia.
Qed.

Lemma add_sample_ok budget ss a k v :
  acc_ok budget ss a -> acc_ok budget (ss ++ [(k, v)]) (add_sample budget a k v).
Proof.
  intros [Ho Hc Hheld Hs]. unfold add_sample. rewrite Hc.
  assert (Horder : fromkeys (map fst (ss ++ [(k, v)])) =
                   if decide (k ∈ map fst ss) then ac_order a else ac_order a ++ [k]).
  { rewrite map_app. cbn. rewrite fromkeys_snoc, Ho. done. }
  assert (Hcounts : forall z, z = zlen (group k (ss ++ [(k, v)])) -> forall m,
    dget (dset (ac_counts a) k z) m =
    if decide (m ∈ map fst (ss ++ [(k, v)])) then Some (zlen (group m (ss ++ [(k, v)]))) else None).
  { intros z -> m. rewrite dget_dset. destruct (decide (k = m)) as [->|Hne].
    - by rewrite decide_True by (apply keys_snoc; auto).
    - rewrite Hc, group_other by done.
      destruct (decide (m ∈ map fst ss)); [by rewrite decide_True by (apply keys_snoc; auto)|].
      rewrite decide_False; [done|]. rewrite keys_snoc. naive_solver. }
  assert (Hone : k ∈ map fst ss -> zlen (group k ss) + 1 = zlen (group k (ss ++ [(k, v)]))).
  { intros _. rewrite group_snoc, decide_True by done. unfold zlen. rewrite length_app. cbn. lia. }
  pose proof Hheld as [Hh Ha He].
  destruct (decide (k ∈ map fst ss)) as [Hk|Hk].
  - specialize (Hone Hk). destruct (decide (k ∈ ac_evicted a)) as [Hev|Hev].
    { split; cbn; [done|by apply Hcounts| |done]. apply (held_skip _ _ (ac_evicted a)); [done| |set_solver].
      destruct (dget _ k) eqn:E; [|done]. by apply Hh in E as (_ & _ & ?). }
    assert (Hsome : is_Some (dget (ac_samples a) k)) by (destruct (Ha k Hk); done).
    destruct (Z.leb_spec (ac_stored_bytes a + 8) budget).
    { split; cbn; [done|by apply Hcounts|by apply held_append|by apply append_store]. }
    destruct (evict _ _ _ _ _) as [[s' e'] st'] eqn:E.
    pose proof (held_evict _ _ _ _ _ _ _ _ _ Hheld Hs E) as Hheld'.
    destruct (evict_spec _ _ _ _ _ _ _ _ Hs E) as (Hs' & _ & _ & Hfit). pose proof Hheld' as [Hh' Ha' He'].
    destruct (decide (k ∈ e')) as [Hke|Hke].
    { split; cbn; [done|by apply Hcounts| |done]. apply (held_skip _ _ e'); [done| |set_solver].
      destruct (dget s' k) eqn:Ek; [|done]. by apply Hh' in Ek as (_ & _ & ?). }
    assert (Hsome' : is_Some (dget s' k)) by (destruct (Ha' k Hk); done).
    split; cbn; [done|by apply Hcounts|by apply held_append|]. apply append_store; [done|done|].
    destruct Hfit as [?|Hnone]; [done|]. rewrite Hnone in Hsome'; [by destruct Hsome'|].
    rewrite Ho. apply list_elem_of_In. rewrite <- in_rev. by apply list_elem_of_In, fromkeys_elem.
  - assert (Hnk : dget (ac_samples a) k = None).
    { destruct (dget _ k) eqn:E; [|done]. by apply Hh in E as (_ & ? & _). }
    assert (H1 : 1 = zlen (group k (ss ++ [(k, v)]))).
    { rewrite group_snoc, decide_True, group_absent by done. done. }
    assert (Hev : k ∉ ac_evicted a) by auto.
    destruct (Z.ltb_spec budget (ac_stored_bytes a + (8 + SAMPLE_OVERHEAD))).
    { split; cbn; [done|by apply Hcounts| |done]. apply (held_skip _ _ (ac_evicted a)); [done|done|set_solver]. }
    split; cbn; [done|by apply Hcounts| |].
    + pose proof (held_append _ _ _ k v Hheld Hev) as Hap. unfold append_sample in Hap. by rewrite Hnk in Hap.
    + destruct Hs as [Hn Hst Hb]. split; [by apply dkeys_dset_nodup| |lia].
      rewrite dsum_dset, Hnk. unfold cost, zlen, SAMPLE_OVERHEAD in *. cbn. lia.
Qed.

(** ** Later passes *)

Lemma collect_spec wanted ss m :
  dget (collect wanted ss) m = if decide (m ∈ wanted /\ m ∈ map fst ss) then Some (group m ss) else None.
Proof.
  unfold collect. induction ss as [|[k v] ss IH] using rev_ind; [by rewrite decide_False by set_solver|].
  rewrite fold_left_app. cbn [fold_left fst snd].
  set (c := fold_left _ ss []) in *. destruct (decide (k ∈ wanted)) as [Hw|Hw].
  - unfold append_sample. rewrite dget_dset. destruct (decide (k = m)) as [->|Hne].
    + rewrite decide_True by (rewrite keys_snoc; auto). rewrite group_snoc, decide_True by done. rewrite IH. f_equal. f_equal.
      case_decide as Hd; [done|]. cbn. symmetry. apply group_absent. naive_solver.
    + rewrite IH, group_other by done. repeat case_decide; rewrite ?keys_snoc in *; naive_solver.
  - rewrite IH. destruct (decide (k = m)) as [->|Hne].
    + rewrite !decide_False; naive_solver.
    + rewrite group_other by done. repeat case_decide; rewrite ?keys_snoc in *; naive_solver.
Qed.

Section Passes.
Context (budget : Z) (ss : list (string * Z)) (counts : list (string * Z)).
Hypothesis Hcounts : forall m, dget counts m = if decide (m ∈ map fst ss) then Some (zlen (group m ss)) else None.

(** The finished minute of a group. *)
Definition done_minute (m : string) : LatencyMinute := finalize_minute m (group m ss).

Lemma finish_batch_spec wanted batch : forall final,
  (forall m, m ∈ batch -> m ∈ wanted /\ m ∈ map fst ss) ->
  exists final', finish_batch counts (collect wanted ss) batch final = Some final' /\
    forall m, dget final' m = if decide (m ∈ batch) then Some (done_minute m) else dget final m.
Proof using Hcounts.
  induction batch as [|k batch IH]; intros final Hb; cbn [finish_batch].
  - exists final. split; [done|]. intros m. by rewrite decide_False by set_solver.
  - destruct (Hb k) as [Hw Hk]; [set_solver|].
    rewrite collect_spec, decide_True, Hcounts, decide_True by done. cbn [default from_option].
    unfold id. rewrite Z.eqb_refl.
    destruct (IH (dset final k (finalize_minute k (group k ss)))) as (final' & -> & Hf); [set_solver|].
    exists final'. split; [done|]. intros m. rewrite Hf, dget_dset.
    destruct (decide (m ∈ batch)); [by rewrite decide_True by set_solver|].
    destruct (decide (k = m)) as [->|]; [by rewrite decide_True by set_solver|by rewrite decide_False by set_solver].
Qed.

Lemma take_batch_app deferred : forall first projected b r,
  take_batch budget counts first projected deferred = (b, r) ->
  deferred = b ++ r /\ (first = true -> deferred <> [] -> (length r < length deferred)%nat).
Proof.
  induction deferred as [|m deferred IH]; intros first projected b r; cbn [take_batch]; [by intros [= <- <-]|].
  destruct (negb first && _) eqn:E; [intros [= <- <-]; split; [done|]; intros ->; done|].
  destruct (take_batch _ _ _ _ _) as [b' r'] eqn:Et. intros [= <- <-].
  destruct (IH _ _ _ _ Et) as [-> _]. split; [done|]. intros _ _. cbn. rewrite length_app. lia.
Qed.

Lemma later_passes_spec fuel : forall deferred final,
  (length deferred <= fuel)%nat -> (forall m, m ∈ deferred -> m ∈ map fst ss) ->
  exists final', later_passes fuel budget counts ss deferred final = Some final' /\
    forall m, dget final' m = if decide (m ∈ deferred) then Some (done_minute m) else dget final m.
Proof using Hcounts.
  induction fuel as [|n IH]; intros deferred final Hl Hd.
  - destruct deferred; [|cbn in Hl; lia]. exists final. split; [done|]. intros m. by rewrite decide_False by set_solver.
  - cbn [later_passes]. destruct deferred as [|d deferred'] eqn:Ed.
    { exists final. split; [done|]. intros m. by rewrite decide_False by set_solver. }
    rewrite <- Ed in *. destruct (take_batch budget counts true 0 deferred) as [b r] eqn:Et.
    apply take_batch_app in Et as [E Hlt]. specialize (Hlt eq_refl ltac:(by rewrite Ed)).
    destruct (finish_batch_spec b b final) as (f1 & -> & H1); [intros m Hm; split; [done|apply Hd; rewrite E; set_solver]|].
    cbn [mbind option_bind].
    destruct (IH r f1) as (f2 & -> & H2); [lia|intros m Hm; apply Hd; rewrite E; set_solver|].
    exists f2. split; [done|]. intros m. rewrite H2, H1, E.
    destruct (decide (m ∈ r)); [by rewrite decide_True by set_solver|].
    destruct (decide (m ∈ b)); [by rewrite decide_True by set_solver|by rewrite decide_False by set_solver].
Qed.
End Passes.

Lemma dget_rev {K V} `{EqDecision K} (d : list (K * V)) k : NoDup (dkeys d) -> dget (rev d) k = dget d k.
Proof.
  intros Hn. assert (Hp : rev d ≡ₚ d) by (symmetry; apply Permutation_rev).
  assert (Hn' : NoDup (dkeys (rev d))) by (unfold dkeys in *; by rewrite Hp).
  destruct (dget d k) as [v|] eqn:E.
  - apply elem_dget; [done|]. rewrite Hp. by apply dget_elem.
  - apply dget_None_keys. apply dget_None_keys in E. unfold dkeys in *. by rewrite Hp.
Qed.

Lemma fold_final_spec l m : forall acc,
  NoDup (dkeys l) ->
  dget (fold_left (fun final kv => dset final (fst kv) (finalize_minute (fst kv) (snd kv))) l acc) m =
  match dget l m with Some held => Some (finalize_minute m held) | None => dget acc m end.
Proof.
  induction l as [|[k held] l IH]; intros acc Hn; [done|]. cbn in Hn. apply NoDup_cons in Hn as [Hk Hn].
  cbn [fold_left dget fst snd]. rewrite IH by done. destruct (decide (k = m)) as [->|Hne].
  - apply (dget_None_keys l) in Hk. rewrite Hk, dget_dset. by destruct (decide (m = m)).
  - rewrite dget_dset, (decide_False (P := k = m)) by done. by destruct (decide (m = k)).
Qed.

Definition add_all (budget : Z) (ss : list (string * Z)) : StreamAccumulator :=
  fold_left (fun a s => add_sample budget a (fst s) (snd s)) ss new_acc.

Lemma add_all_ok budget ss : 0 <= budget -> acc_ok budget ss (add_all budget ss).
Proof.
  intros Hb. unfold add_all. induction ss as [|[k v] ss IH] using rev_ind; [by apply acc_ok_new|].
  rewrite fold_left_app. by apply add_sample_ok.
Qed.

(** Later passes from any state of the first pass that is right. *)
Lemma finish_minutes_ok budget ss a :
  acc_ok budget ss a ->
  exists final, finish_minutes budget a ss = Some final /\
    (forall key, dget final key =
       if decide (key ∈ map fst ss) then Some (finalize_minute key (group key ss)) else None).
Proof.
  intros [Ho Hc [Hh Ha He] [Hn Hs Hbd]]. unfold finish_minutes.
  assert (Hheld : forall m, dget (finish_held a) m =
    match dget (ac_samples a) m with Some held => Some (finalize_minute m held) | None => None end).
  { intros m. unfold finish_held. rewrite fold_final_spec, dget_rev; [done..|].
    unfold dkeys in *. by rewrite <- Permutation_rev. }
  set (deferred := List.filter _ _).
  assert (Hdef : forall m, m ∈ deferred <-> m ∈ map fst ss /\ dget (ac_samples a) m = None).
  { intros m. unfold deferred. rewrite filter_elem, Ho, fromkeys_elem, negb_true_iff. unfold dmem.
    rewrite Hheld. destruct (dget (ac_samples a) m); naive_solver. }
  destruct (later_passes_spec budget ss (ac_counts a) Hc (length deferred) deferred (finish_held a))
    as (final & -> & Hf); [done|intros m Hm; by apply Hdef|].
  exists final. split; [done|].
  intros key. rewrite Hf, Hheld. destruct (decide (key ∈ deferred)) as [Hd|Hd]; rewrite Hdef in Hd.
  - by rewrite decide_True by naive_solver.
  - destruct (dget (ac_samples a) key) as [held|] eqn:E.
    + destruct (Hh key held E) as (-> & ? & _). by rewrite decide_True.
    + rewrite decide_False; [done|]. naive_solver.
Qed.

(** The minutes do not depend on the memory budget: for every budget and every
    journal, dropping groups when the budget is full and reading them again in
    later passes ends, never reports a changed journal, and gives each receive
    minute of each connection exactly the distribution of all its samples, and
    no other; and the samples held never exceed the budget. *)
Theorem latency_budget_irrelevant budget ss :
  0 <= budget ->
  exists final, finish_minutes budget (add_all budget ss) ss = Some final /\
    (forall key, dget final key =
       if decide (key ∈ map fst ss) then Some (finalize_minute key (group key ss)) else None) /\
    0 <= ac_stored_bytes (add_all budget ss) <= budget /\
    ac_stored_bytes (add_all budget ss) = dsum cost (ac_samples (add_all budget ss)).
Proof.
  intros Hb. pose proof (add_all_ok budget ss Hb) as Ha.
  destruct (finish_minutes_ok budget ss _ Ha) as (final & E & Hf). destruct Ha as [_ _ _ [Hn Hs Hbd]].
  exists final. split_and!; [done|done| |done|done].
  rewrite Hs. unfold dsum. apply zsum_nonneg, Forall_map, Forall_forall. intros kv _.
  unfold cost, zlen, SAMPLE_OVERHEAD. lia.
Qed.

Definition demo_samples : list (string * Z) :=
  [("09:00|a", 30); ("09:00|b", 5); ("09:00|a", 10); ("09:01|a", 7); ("09:00|a", 20); ("09:01|a", 9)].

(** A budget that holds one group only. *)
Lemma latency_budget_irrelevant_witness :
  0 <= 100 /\
  exists final, finish_minutes 100 (add_all 100 demo_samples) demo_samples = Some final /\
    dget final "09:00|a" = Some (mkMinute "09:00" 3 20 30 10 0 0) /\
    dget final "09:01|a" = Some (mkMinute "09:01" 2 7 9 7 0 0).
Proof.
  split; [lia|]. destruct (latency_budget_irrelevant 100 demo_samples ltac:(lia)) as (final & E & H & _).
  exists final. split; [exact E|]. rewrite !H. vm_compute. by split.
Defined.

(** ** Connections of a minute *)

Lemma dominant_part_spec parts : forall p,
  (dominant_part p parts = p \/ dominant_part p parts ∈ parts) /\
  forall x, x ∈ p :: parts -> lm_count (pt_minute x) <= lm_count (pt_minute (dominant_part p parts)).
Proof.
  unfold dominant_part. induction parts as [|y parts IH]; intros p; cbn [fold_left].
  - split; [by left|]. intros x ->%list_elem_of_singleton. lia.
  - set (best := if part_ltb p y then y else p). destruct (IH best) as [Hin Hmax]. split.
    + unfold best in *. destruct (part_ltb p y), Hin as [->|?]; set_solver.
    + assert (Hb : lm_count (pt_minute p) <= lm_count (pt_minute best) /\ lm_count (pt_minute y) <= lm_count (pt_minute best)).
      { unfold best, part_ltb. destruct (Z.ltb_spec (lm_count (pt_minute p)) (lm_count (pt_minute y))); cbn; [lia|].
        destruct (Z.eqb_spec (lm_count (pt_minute p)) (lm_count (pt_minute y))); cbn; [|lia].
        destruct (str_ltb _ _); lia. }
      pose proof (Hmax best ltac:(set_solver)).
      intros x [->|[->|Hx]%elem_of_cons]%elem_of_cons; [lia|lia|]. apply Hmax. set_solver.
Qed.

Lemma zsum_filter_split {A} (f : A -> Z) (p : A -> bool) l :
  zsum (map f l) = zsum (map f (List.filter p l)) + zsum (map f (List.filter (fun x => negb (p x)) l)).
Proof.
  induction l as [|x l IH]; [done|]. cbn. destruct (p x); cbn; unfold zsum in *; cbn; lia.
Qed.

Lemma fold_max_ge l : forall x, x <= fold_left Z.max l x /\ forall y, y ∈ l -> y <= fold_left Z.max l x.
Proof.
  induction l as [|z l IH]; intros x; cbn; [split; [lia|set_solver]|].
  destruct (IH (Z.max x z)) as [H1 H2]. split; [lia|]. intros y [->|Hy]%elem_of_cons; [lia|auto].
Qed.

Lemma fold_max_in l : forall x, fold_left Z.max l x = x \/ fold_left Z.max l x ∈ l.
Proof.
  induction l as [|z l IH]; intros x; cbn; [by left|].
  destruct (IH (Z.max x z)) as [->|H]; [|set_solver]. destruct (Z.max_spec x z) as [[_ ->]|[_ ->]]; set_solver.
Qed.

(** The connections of a minute that are judged. *)
Definition judged (p : Part) (parts : list Part) (x : Part) : Prop :=
  let d := dominant_part p parts in x = d \/ pt_conn x <> pt_conn d /\ is_secondary d x = false.

(** Hot standbys do not hide or raise a latency: when the connections of a
    minute are merged every frame is counted once, as judged or as secondary;
    the dominant connection carries the most frames and gives the median; the
    reported maximum is reached by a judged connection and no judged connection
    exceeds it; and a connection is set aside only when it overlaps the dominant
    one in time and shares a symbol with it. *)
Theorem minute_merge_faithful minute p parts :
  NoDup (map pt_conn (p :: parts)) ->
  let d := dominant_part p parts in
  let m := merge_connections minute p parts in
  lm_count m + lm_secondary_count m = zsum (map (fun x => lm_count (pt_minute x)) (p :: parts)) /\
  d ∈ p :: parts /\ (forall x, x ∈ p :: parts -> lm_count (pt_minute x) <= lm_count (pt_minute d)) /\
  lm_p50 m = lm_p50 (pt_minute d) /\
  (forall x, x ∈ p :: parts -> judged p parts x -> lm_max (pt_minute x) <= lm_max m) /\
  (exists x, x ∈ p :: parts /\ judged p parts x /\ lm_max (pt_minute x) = lm_max m) /\
  (forall x, x ∈ p :: parts -> ~ judged p parts x -> x <> d /\ is_secondary d x = true).
Proof.
  intros Hn d m. destruct (dominant_part_spec parts p) as [Hd Hmax]. fold d in Hd, Hmax.
  assert (Hin : d ∈ p :: parts) by (destruct Hd as [->|?]; set_solver).
  set (others := List.filter (fun x => negb (bool_decide (pt_conn x = pt_conn d))) (p :: parts)).
  set (rest := List.filter (fun x => negb (is_secondary d x)) others).
  assert (Hsame : forall x, x ∈ p :: parts -> pt_conn x = pt_conn d -> x = d)
    by (intros x Hx E; by apply (NoDup_map_inj pt_conn (p :: parts))).
  assert (Hperm : d :: others ≡ₚ p :: parts).
  { rewrite <- (filter_split_perm (fun x => bool_decide (pt_conn x = pt_conn d)) (p :: parts)).
    fold others. apply (Permutation_app_tail others (l := [d])), NoDup_Permutation; [apply NoDup_singleton| |].
    - eapply sublist_NoDup; [by apply (NoDup_fmap_1 pt_conn)|apply filter_sublist].
    - intros x. rewrite list_elem_of_singleton, filter_elem, bool_decide_eq_true. naive_solver. }
  assert (Hrest : forall x, x ∈ rest <-> x ∈ p :: parts /\ pt_conn x <> pt_conn d /\ is_secondary d x = false).
  { intros x. unfold rest, others. rewrite !filter_elem, !negb_true_iff, bool_decide_eq_false. tauto. }
  assert (Hm : lm_max m = fold_left Z.max (map lm_max (map pt_minute rest)) (lm_max (pt_minute d))) by done.
  destruct (fold_max_ge (map lm_max (map pt_minute rest)) (lm_max (pt_minute d))) as [Hge Hge'].
  split_and!; [|done|done|done| | |].
  - rewrite <- (zsum_perm _ _ (Permutation_map (fun x => lm_count (pt_minute x)) Hperm)).
    unfold m, merge_connections. cbn [lm_count lm_secondary_count]. fold d others rest. cbn [map].
    pose proof (zsum_filter_split (fun x => lm_count (pt_minute x)) (is_secondary d) others) as Hs.
    fold rest in Hs. rewrite map_map. unfold zsum in *. cbn [fold_right]. lia.
  - intros x Hx [->|[Hc Hs]]; rewrite Hm; [done|]. apply Hge'. rewrite map_map.
    apply list_elem_of_fmap. exists x. split; [done|]. by apply Hrest.
  - rewrite Hm. destruct (fold_max_in (map lm_max (map pt_minute rest)) (lm_max (pt_minute d))) as [->|Hx].
    + exists d. split_and!; [done|by left|done].
    + rewrite map_map in Hx. apply list_elem_of_fmap in Hx as (x & E & Hx). exists x. rewrite map_map.
      apply Hrest in Hx as (? & ? & ?). split_and!; [done|by right|by rewrite E].
  - intros x Hx Hnj. assert (x <> d) by (intros ->; apply Hnj; by left). split; [done|].
    destruct (is_secondary d x) eqn:E; [done|]. destruct Hnj. right. split; [|done]. intros Hc. by apply Hsame in Hc.
Qed.

Definition demo_part (conn : string) (n mx low high : Z) (syms : list string) : Part :=
  mkPart conn (mkMinute "09:00" n mx mx mx 0 0) low high syms.

Lemma minute_merge_faithful_witness :
  let a := demo_part "a" 100 3 0 60 ["005930"] in
  let b := demo_part "b" 10 40 20 30 ["005930"] in
  let c := demo_part "c" 5 7 0 60 ["000660"] in
  lm_max (merge_connections "09:00" a [b; c]) = 7 /\
  lm_count (merge_connections "09:00" a [b; c]) + lm_secondary_count (merge_connections "09:00" a [b; c]) = 115.
Proof.
  cbv zeta. split; [vm_compute; reflexivity|].
  exact (proj1 (minute_merge_faithful "09:00" (demo_part "a" 100 3 0 60 ["005930"])
    [demo_part "b" 10 40 20 30 ["005930"]; demo_part "c" 5 7 0 60 ["000660"]]
    ltac:(apply (bool_decide_unpack _); vm_compute; exact I))).
Defined.

(** ** Event holes *)

Lemma pairwise_elem a b l : StronglySorted Z.lt l -> (a, b) ∈ pairwise l ->
  a ∈ l /\ b ∈ l /\ a < b /\ forall x, x ∈ l -> ~ a < x < b.
Proof.
  induction l as [|x [|y l] IH]; intros HS Hin; [by apply elem_of_nil in Hin..|].
  apply StronglySorted_inv in HS as [HS HF]. cbn [pairwise] in Hin. rewrite Forall_forall in HF.
  apply elem_of_cons in Hin as [[= -> ->]|Hin].
  - pose proof (HF y ltac:(set_solver)). split_and!; [set_solver|set_solver|done|].
    intros z [->|[->|Hz]%elem_of_cons]%elem_of_cons; [lia|lia|].
    apply StronglySorted_inv in HS as [_ HF']. rewrite Forall_forall in HF'. apply HF' in Hz. lia.
  - destruct (IH HS Hin) as (Ha & Hb & Hab & Hx). split_and!; [set_solver|set_solver|done|].
    intros z [->|Hz]%elem_of_cons; [|auto]. apply HF in Ha. lia.
Qed.

Lemma pairwise_cover lo hi : lo <= hi -> forall l x,
  x < lo -> (forall z, z ∈ x :: l -> ~ lo <= z <= hi) -> (exists z, z ∈ l /\ hi < z) ->
  exists a b, (a, b) ∈ pairwise (x :: l) /\ a < lo /\ hi < b.
Proof.
  intros Hlh. induction l as [|y l IH]; intros x Hx Hfree (z & Hz & Hhi); [by apply elem_of_nil in Hz|].
  destruct (decide (hi < y)); [exists x, y; split_and!; [cbn; set_solver|done|done]|].
  pose proof (Hfree y ltac:(set_solver)). destruct (IH y) as (a & b & Hin & ? & ?); [lia|set_solver| |].
  - apply elem_of_cons in Hz as [->|Hz]; [lia|eauto].
  - exists a, b. split_and!; [|done|done]. cbn [pairwise]. set_solver.
Qed.

Section Holes.
Context (seconds : list Z) (start_s end_s min_hole : Z).

Definition in_window (x : Z) : bool := (start_s <=? x) && (x <? end_s).
Definition events : list Z := py_sorted Z.leb (List.filter in_window seconds).

Lemma events_elem x : x ∈ events <-> x ∈ seconds /\ start_s <= x < end_s.
Proof. unfold events, in_window. rewrite py_sorted_elem, filter_elem, andb_true_iff, Z.leb_le, Z.ltb_lt. done. Qed.

Lemma edges_sorted : NoDup seconds -> start_s <= end_s -> StronglySorted Z.lt ((start_s - 1) :: events ++ [end_s]).
Proof.
  intros Hn Hw. assert (Hs : StronglySorted Z.lt events).
  { assert (Hne : NoDup events).
    { unfold events. rewrite py_sorted_perm. eapply sublist_NoDup; [exact Hn|apply filter_sublist]. }
    assert (Hle : StronglySorted (fun a b => (a <=? b) = true) events)
      by (apply py_sorted_strong; intros; lia).
    clear Hw Hn. induction Hle as [|x l Hl IH HF]; [constructor|]. apply NoDup_cons in Hne as [Hx Hne].
    constructor; [auto|]. apply Forall_forall. intros y Hy. rewrite Forall_forall in HF.
    apply HF in Hy as Hle'. apply Z.leb_le in Hle'. assert (x <> y) by congruence. lia. }
  assert (Hb : forall x, x ∈ events -> start_s <= x < end_s) by (intros x Hx; by apply events_elem).
  constructor; [|apply Forall_forall; intros x [Hx|Hx]%elem_of_app;
    [apply Hb in Hx; lia|apply list_elem_of_singleton in Hx; lia]].
  revert Hb. induction Hs as [|x l Hl IH HF]; intros Hb; cbn; [repeat constructor|].
  constructor; [apply IH; set_solver|]. apply Forall_app. split; [done|].
  constructor; [|constructor]. apply Hb. set_solver.
Qed.

Lemma hole_runs_elem lo hi :
  (lo, hi) ∈ hole_runs seconds start_s end_s min_hole <->
  events <> [] /\ (lo - 1, hi + 1) ∈ pairwise ((start_s - 1) :: events ++ [end_s]) /\ min_hole <= hi - lo + 1.
Proof.
  unfold hole_runs. fold in_window. change (py_sorted Z.leb (List.filter _ seconds)) with events.
  destruct events as [|e es] eqn:E; [split; [intros H; by apply elem_of_nil in H|by intros [? _]]|].
  rewrite <- E in *. rewrite list_elem_of_fmap. split.
  - intros ([a b] & [= -> ->] & Hab). apply filter_elem in Hab as [Hab Hm]. apply Z.leb_le in Hm. cbn [fst snd] in *.
    replace (a + 1 - 1) with a by lia. replace (b - 1 + 1) with b by lia. split_and!; [by rewrite E|done|lia].
  - intros (_ & Hin & Hm). exists (lo - 1, hi + 1). cbn [fst snd]. split; [f_equal; lia|].
    apply filter_elem. split; [done|]. apply Z.leb_le. cbn. lia.
Qed.
End Holes.

(** The event holes are the event-free stretches of the window: every reported
    run lies in the window, is long enough, has no event and ends at an event or
    an edge of the window; every event-free stretch that is long enough lies in
    one of the runs (unless no event arrived at all, which is reported by status);
    the runs are disjoint; and the total is the number of their seconds, whatever
    the cap on the runs listed. *)
Theorem event_holes_exact seconds start_s end_s min_hole cap :
  NoDup seconds -> start_s <= end_s -> 1 <= min_hole ->
  let runs := hole_runs seconds start_s end_s min_hole in
  (forall lo hi, (lo, hi) ∈ runs ->
     start_s <= lo <= hi /\ hi < end_s /\ min_hole <= hi - lo + 1 /\
     (forall x, x ∈ seconds -> ~ lo <= x <= hi) /\
     (lo = start_s \/ lo - 1 ∈ seconds) /\ (hi + 1 = end_s \/ hi + 1 ∈ seconds)) /\
  (forall lo hi, start_s <= lo -> hi < end_s -> min_hole <= hi - lo + 1 ->
     (forall x, x ∈ seconds -> ~ lo <= x <= hi) -> (exists x, x ∈ seconds /\ start_s <= x < end_s) ->
     exists lo' hi', (lo', hi') ∈ runs /\ lo' <= lo /\ hi <= hi') /\
  (forall lo hi lo' hi' x, (lo, hi) ∈ runs -> (lo', hi') ∈ runs -> lo <= x <= hi -> lo' <= x <= hi' ->
     (lo, hi) = (lo', hi')) /\
  snd (event_holes seconds start_s end_s min_hole cap) = zsum (map (fun r => snd r - fst r + 1) runs) /\
  (length (fst (event_holes seconds start_s end_s min_hole cap)) <= cap)%nat.
Proof.
  intros Hn Hw Hmin runs. pose proof (edges_sorted seconds start_s end_s Hn Hw) as HS.
  assert (Hedge : forall x, x ∈ (start_s - 1) :: events seconds start_s end_s ++ [end_s] <->
    x = start_s - 1 \/ x = end_s \/ (x ∈ seconds /\ start_s <= x < end_s)).
  { intros x. rewrite elem_of_cons, elem_of_app, events_elem, list_elem_of_singleton. tauto. }
  assert (Hrun : forall lo hi, (lo, hi) ∈ runs ->
     start_s <= lo <= hi /\ hi < end_s /\ min_hole <= hi - lo + 1 /\
     (forall x, x ∈ seconds -> ~ lo <= x <= hi) /\
     (lo = start_s \/ lo - 1 ∈ seconds) /\ (hi + 1 = end_s \/ hi + 1 ∈ seconds)).
  { intros lo hi (_ & Hin & Hm)%hole_runs_elem. destruct (pairwise_elem _ _ _ HS Hin) as (Ha & Hb & Hab & Hno).
    apply Hedge in Ha, Hb.
    assert (start_s <= lo <= hi /\ hi < end_s) as [? ?] by (destruct Ha as [?|[?|[? ?]]], Hb as [?|[?|[? ?]]]; lia).
    split_and!; try lia; [|destruct Ha as [?|[?|[? ?]]]; (by right) || (left; lia)
      |destruct Hb as [?|[?|[? ?]]]; (by right) || (left; lia)].
    intros x Hx Hc. apply (Hno x); [apply Hedge; right; right; split; [done|lia]|lia]. }
  split_and!; [exact Hrun| | |done|].
  - intros lo hi Hlo Hhi Hm Hfree (e & He & Hew).
    destruct (pairwise_cover lo hi ltac:(lia) (events seconds start_s end_s ++ [end_s]) (start_s - 1))
      as (a & b & Hin & ? & ?); [lia| |exists end_s; split; [set_solver|done]|].
    + intros z Hz Hc. apply Hedge in Hz as [->|[->|[Hz _]]]; [lia|lia|]. by apply (Hfree z).
    + exists (a + 1), (b - 1). split; [|lia]. apply hole_runs_elem.
      replace (a + 1 - 1) with a by lia. replace (b - 1 + 1) with b by lia. split_and!; [|done|lia].
      intros E. assert (e ∈ events seconds start_s end_s) as Hev by (by apply events_elem). rewrite E in Hev.
      by apply elem_of_nil in Hev.
  - intros lo hi lo' hi' x H1 H2 Hx Hx'. destruct (Hrun _ _ H1) as (? & ? & _ & F1 & A1 & B1).
    destruct (Hrun _ _ H2) as (? & ? & _ & F2 & A2 & B2).
    assert (lo = lo') by (destruct (decide (lo < lo')) as [?|?];
      [destruct A2 as [?|A2]; [lia|destruct (F1 _ A2); lia]|destruct A1 as [?|A1]; [lia|destruct (decide (lo = lo')); [done|destruct (F2 _ A1); lia]]]).
    assert (hi = hi') by (destruct (decide (hi < hi')) as [?|?];
      [destruct B1 as [?|B1]; [lia|destruct (F2 _ B1); lia]|destruct B2 as [?|B2]; [lia|destruct (decide (hi = hi')); [done|destruct (F1 _ B2); lia]]]).
    congruence.
  - unfold event_holes. cbn [fst]. rewrite length_map, py_sorted_length, length_take. lia.
Qed.

Lemma event_holes_exact_witness :
  NoDup [32400; 32401; 32420; 32450] /\
  snd (event_holes [32400; 32401; 32420; 32450] 32400 32460 10 20)
  = zsum (map (fun r => snd r - fst r + 1) (hole_runs [32400; 32401; 32420; 32450] 32400 32460 10)) /\
  fst (event_holes [32400; 32401; 32420; 32450] 32400 32460 10 20)
  = [mkHole "090002" "090019" 18; mkHole "090021" "090049" 29].
Proof.
  assert (Hn : NoDup [32400; 32401; 32420; 32450]) by (apply (bool_decide_unpack _); vm_compute; exact I).
  split; [exact Hn|]. split; [|vm_compute; reflexivity].
  exact (proj1 (proj2 (proj2 (proj2 (event_holes_exact [32400; 32401; 32420; 32450] 32400 32460 10 20 Hn
    ltac:(lia) ltac:(lia)))))).
Defined.
