(* ===== verification/L0Audit.v ===== *)
(** * The session audit ([src/storage/l0_audit.py] 517-539, 600-793, 1020-1043, 1103-1116, 1170-1337, 1455-1473)

    Journal files are given as the lines their reader yields, batch by batch,
    with its truncation flag; the journal of a finished session does not change
    between passes, and its lines hold no carriage return. A call of
    [check_budget] reads the clock: [expired n] tells whether the n-th call finds
    the budget spent. The progress callback, the logging, the identity fields and
    the generation stamp of the audit are left out. *)
From Stdlib Require Import Ascii.
From S2P Require Import Prelude PyStr PyTime ExecJournal MarketClock MarketPhase SeqSet L0Decode LossLedger L0Latency.

(** What the derivation can raise: its time budget, a [ValueError] and an index
    out of range (no other is raised by it). *)
Inductive audit_exc := BudgetExceeded | ValueErr | IndexErr | AnchorErr.

Inductive AuditStatus := AS_OK | AS_PARTIAL | AS_UNAVAILABLE.

#[global] Instance audit_status_eq : EqDecision AuditStatus.
Proof. solve_decision. Defined.

Record JournalFile := mkJournalFile {
  jf_path : string;
  jf_size : option Z;               (** [stat().st_size]; [None] is [OSError] *)
  jf_batches : list (list string);  (** the lines, in the batches of the reader *)
  jf_truncated : bool               (** set by the reader at a damaged block *)
}.

Record SourceFile := mkSource {
  sf_path : string; sf_stream : string; sf_bytes : Z; sf_rows : Z; sf_truncated : bool
}.

Record StreamLatency := mkStreamLatency {
  st_stream : string;
  st_status : AuditStatus;
  st_reason : string;
  st_rows : Z;
  st_event_time_missing : Z;
  st_minutes : list LatencyMinute;
  st_event_holes : list EventHole;
  st_event_hole_seconds : Z
}.

Record AuditSettings := mkAuditSettings {
  latency_streams : list string;
  latency_sample_budget_bytes : Z;
  counter_reset_confirm_frames : Z;
  max_intervals_per_symbol : Z;
  event_hole_min_s : Z;
  max_event_holes : nat
}.

Record SessionAudit := mkAudit {
  ad_status : AuditStatus;
  ad_reason : string;
  ad_sources : list SourceFile;
  ad_latency : list StreamLatency;
  ad_symbols : list SymbolLedger;
  ad_totals : LedgerTotals;
  ad_tail_silence_ns : option Z;
  ad_last_regular_tick_recv_ns : option Z
}.

Definition zero_totals : LedgerTotals := mkTotals 0 0 0 0 0 0 0 0 0.

(** ** The derivation's state *)

Record Run := mkRun {
  ru_ledger : Derivation;
  ru_sources : list SourceFile;
  ru_pinged : Z;
  ru_checks : nat
}.

Definition new_run : Run := mkRun new_derivation [] 0 0.

Abbreviation aud := (stx Run audit_exc).

Section Audit.
Context (json_loads : string -> option json) (expired : nat -> bool).
Context (vendor : string) (day : Z) (settings : AuditSettings).
Context (venue : MarketVenue) (windows : list PhaseWindow).

Definition ping : aud unit :=
  smod (fun r => mkRun (ru_ledger r) (ru_sources r) (ru_pinged r + 1) (ru_checks r)).

Definition check_budget : aud unit := fun r =>
  (mkRun (ru_ledger r) (ru_sources r) (ru_pinged r) (S (ru_checks r)),
   if expired (ru_checks r) then Raise BudgetExceeded else Ok tt).

(** ** One record *)

(** [_latency_key]; [None] is the [ValueError], [OverflowError] or [OSError] of
    [datetime.fromtimestamp] outside the years 1 to 9999. *)
Definition latency_key (recv_ns : Z) (conn_id : string) : option string :=
  let secs := recv_ns / 1000000000 in
  if (secs <? -62135596800) || (253402300799 - 32400 <? secs) then None
  else
    let m := (secs + 32400) mod 86400 / 60 in
    Some (String.append (str_pad 2 (m / 60))
            (String.append ":" (String.append (str_pad 2 (m mod 60)) (String.append "|" conn_id)))).

(** The exchange event time of a record: its envelope, else the body. *)
Definition record_moment (stream : string) (r : Envelope) : option Z :=
  match parse_event_time (en_event_time r) with
  | Some m => Some m
  | None =>
      if decide (stream = TICK_STREAM)
      then hhmmss_of (dget (tick_body json_loads vendor (en_raw r)) "chetime")
      else match hotime_search (s2l (en_raw r)) with
           | Some v => parse_event_time (l2s v)
           | None => None
           end
  end.

(** Receive time less event time, in nanoseconds. *)
Definition latency_ns (moment recv_ns : Z) : Z :=
  recv_ns - (day * 86400 + moment / us_per_s - 32400) * 1000000000.

Definition note_missing (a : StreamAccumulator) : StreamAccumulator :=
  mkAcc (ac_rows a) (ac_missing a + 1) (ac_failed a) (ac_order a) (ac_counts a) (ac_samples a)
    (ac_evicted a) (ac_stored_bytes a) (ac_event_seconds a) (ac_spans a) (ac_symbols a).

Definition note_second (s : Z) (a : StreamAccumulator) : StreamAccumulator :=
  mkAcc (ac_rows a) (ac_missing a) (ac_failed a) (ac_order a) (ac_counts a) (ac_samples a)
    (ac_evicted a) (ac_stored_bytes a) (set_add s (ac_event_seconds a)) (ac_spans a) (ac_symbols a).

Definition note_span (key : string) (recv_ns : Z) (symbol : string) (a : StreamAccumulator) : StreamAccumulator :=
  let span := match dget (ac_spans a) key with
              | None => (recv_ns, recv_ns)
              | Some (lo, hi) => (Z.min lo recv_ns, Z.max hi recv_ns)
              end in
  mkAcc (ac_rows a) (ac_missing a) (ac_failed a) (ac_order a) (ac_counts a) (ac_samples a)
    (ac_evicted a) (ac_stored_bytes a) (ac_event_seconds a) (dset (ac_spans a) key span)
    (dset (ac_symbols a) key (set_add symbol (default [] (dget (ac_symbols a) key)))).

(** The latency half of [handle_record]. *)
Definition handle_latency (stream : string) (a : StreamAccumulator) (r : Envelope)
    : StreamAccumulator * res audit_exc unit :=
  match record_moment stream r with
  | None => (note_missing a, Ok tt)
  | Some moment =>
      let a := note_second (moment / us_per_s) a in
      match latency_key (en_recv_ns r) (en_conn_id r) with
      | None => (a, Raise ValueErr)
      | Some key =>
          (add_sample (latency_sample_budget_bytes settings)
             (note_span key (en_recv_ns r) (en_symbol r) a) key (latency_ns moment (en_recv_ns r)), Ok tt)
      end
  end.

Definition count_received (body : tbody) (d : Derivation) : Derivation :=
  match decode_received_tick body with
  | Some _ => mkDerivation (dv_symbols d) (dv_last_regular_tick_ns d) (dv_seen d) (dv_trades_received d + 1)
  | None => d
  end.

(** The ledger half. *)
Definition handle_tick (stream : string) (r : Envelope) (d : Derivation) : res audit_exc Derivation :=
  if bool_decide (stream = TICK_STREAM) && bool_decide (vendor ∈ LEDGER_VENDORS) then
    let body := tick_body json_loads vendor (en_raw r) in
    match accept_tick (counter_reset_confirm_frames settings) (max_intervals_per_symbol settings) vendor
            venue windows r body (count_received body d) with
    | Some d' => Ok d'
    | None => Raise IndexErr
    end
  else Ok d.

Definition handle_record (stream : string) (r : Envelope) (a : StreamAccumulator) (d : Derivation)
    : StreamAccumulator * res audit_exc Derivation :=
  let '(a', e) := handle_latency stream a r in
  (a', (_ <~ e;; handle_tick stream r d)%py).

(** ** One file *)

(** [not line.strip()] of bytes. *)
Definition blank_line (line : string) : bool :=
  forallb (fun c => let n := nat_of_ascii c in bool_decide (n = 32%nat) || ((9 <=? n)%nat && (n <=? 13)%nat)) (s2l line).

(** The [finally] clause: the sequence number counts as seen. *)
Definition finally_seen (stream : string) (r : Envelope) (d : Derivation) : res audit_exc Derivation :=
  match en_conn_seq r with
  | Some seq =>
      if bool_decide (stream = TICK_STREAM) && negb (bool_decide (en_conn_id r = "")) then
        match note_sequence (en_conn_id r) seq d with Some d' => Ok d' | None => Raise IndexErr end
      else Ok d
  | None => Ok d
  end.

(** The accumulator, the ledger, the rows of the file and its truncation flag. *)
Record FileState := mkFileState {
  fs_acc : StreamAccumulator; fs_ledger : Derivation; fs_rows : Z; fs_truncated : bool
}.

Definition process_line (stream : string) (line : string) (s : FileState) : res audit_exc FileState :=
  if blank_line line then Ok s
  else
    match decode_envelope json_loads line with
    | None => Ok (mkFileState (fs_acc s) (fs_ledger s) (fs_rows s) true)
    | Some r =>
        let '(a, e) := handle_record stream r (fs_acc s) (fs_ledger s) in
        match e with
        | Ok d =>
            (d' <~ finally_seen stream r d;; Ok (mkFileState a d' (fs_rows s + 1) (fs_truncated s)))%py
        | Raise ValueErr =>
            (d' <~ finally_seen stream r (fs_ledger s);; Ok (mkFileState a d' (fs_rows s) true))%py
        | Raise e =>
            (_ <~ finally_seen stream r (fs_ledger s);; Raise e)%py
        end
    end.

Fixpoint process_lines (stream : string) (lines : list string) (s : FileState) : res audit_exc FileState :=
  match lines with
  | [] => Ok s
  | l :: lines' => (s' <~ process_line stream l s;; process_lines stream lines' s')%py
  end.

Definition set_ledger (d : Derivation) : aud unit :=
  smod (fun r => mkRun d (ru_sources r) (ru_pinged r) (ru_checks r)).
Definition add_source (s : SourceFile) : aud unit :=
  smod (fun r => mkRun (ru_ledger r) (ru_sources r ++ [s]) (ru_pinged r) (ru_checks r)).

Fixpoint process_batches (stream : string) (batches : list (list string)) (a : StreamAccumulator)
    (rows : Z) (truncated : bool) : aud (StreamAccumulator * Z * bool) :=
  match batches with
  | [] => sret (a, rows, truncated)
  | lines :: rest =>
      (r <- sget;;
       s <- slift (process_lines stream lines (mkFileState a (ru_ledger r) rows truncated));;
       set_ledger (fs_ledger s);;;
       ping;;;
       check_budget;;;
       process_batches stream rest (fs_acc s) (fs_rows s) (fs_truncated s))%py
  end.

Definition close_file (rows : Z) (truncated : bool) (a : StreamAccumulator) : StreamAccumulator :=
  mkAcc (ac_rows a + rows) (ac_missing a) (ac_failed a || truncated) (ac_order a) (ac_counts a) (ac_samples a)
    (ac_evicted a) (ac_stored_bytes a) (ac_event_seconds a) (ac_spans a) (ac_symbols a).

Definition process_file (stream : string) (f : JournalFile) (a : StreamAccumulator) : aud StreamAccumulator :=
  (out <- match jf_size f with
          | None => sret (a, 0, true)
          | Some _ => process_batches stream (jf_batches f) a 0 false
          end;;
   let '(a', rows, bad) := out in
   let truncated := bad || (bool_decide (is_Some (jf_size f)) && jf_truncated f) in
   add_source (mkSource (jf_path f) stream (default 0 (jf_size f)) rows truncated);;;
   sret (close_file rows truncated a'))%py.

Fixpoint process_files (stream : string) (files : list JournalFile) (a : StreamAccumulator) : aud StreamAccumulator :=
  match files with
  | [] => sret a
  | f :: files' =>
      (check_budget;;;
       a' <- process_file stream f a;;
       process_files stream files' a')%py
  end.

(** ** One stream *)

(** What a later pass samples: every line that decodes and has a latency
    ([_latency_sample] returns nothing where [handle_record] raises). *)
Definition latency_sample (stream : string) (line : string) : option (string * Z) :=
  r ← decode_envelope json_loads line;
  moment ← record_moment stream r;
  key ← latency_key (en_recv_ns r) (en_conn_id r);
  Some (key, latency_ns moment (en_recv_ns r)).

Definition journal_samples (stream : string) (files : list JournalFile) : list (string * Z) :=
  omap (latency_sample stream)
    (concat (map (fun f => if jf_size f then concat (jf_batches f) else []) files)).

(** The number of later passes the deferred groups take. *)
Fixpoint pass_count (fuel : nat) (budget : Z) (counts : list (string * Z)) (deferred : list string) : nat :=
  match fuel, deferred with
  | S n, _ :: _ => S (pass_count n budget counts (snd (take_batch budget counts true 0 deferred)))
  | _, _ => O
  end.

Definition one_pass (files : list JournalFile) : aud unit :=
  each (fun f => (check_budget;;; each (fun _ => (ping;;; check_budget)%py) (jf_batches f))%py) files.

Definition deferred_of (a : StreamAccumulator) : list string :=
  List.filter (fun m => negb (dmem (finish_held a) m)) (ac_order a).

Definition all_minutes (stream : string) (files : list JournalFile) (a : StreamAccumulator)
    : aud (list (string * LatencyMinute)) :=
  let budget := latency_sample_budget_bytes settings in
  let deferred := deferred_of a in
  (each (fun _ => one_pass files)
     (seq 0 (pass_count (length deferred) budget (ac_counts a) deferred));;;
   slift (match finish_minutes budget a (journal_samples stream files) with
          | Some final => Ok final
          | None => Raise ValueErr
          end))%py.

(** The connections of a minute, in key order. *)
Definition parts_of (a : StreamAccumulator) (final : list (string * LatencyMinute)) : list (string * Part) :=
  map (fun '(key, m) =>
         let span := default (0, 0) (dget (ac_spans a) key) in
         (key_minute key, mkPart (key_conn key) m (fst span) (snd span) (default [] (dget (ac_symbols a) key))))
    (py_sorted kv_leb final).

Definition merged_minutes (parts : list (string * Part)) : list LatencyMinute :=
  omap (fun minute =>
          match map snd (List.filter (fun p => bool_decide (fst p = minute)) parts) with
          | [] => None
          | p :: ps => Some (merge_connections minute p ps)
          end) (fromkeys (map fst parts)).

Definition finish_stream (anchors : SessionAnchors) (stream : string) (status : AuditStatus) (reason : string)
    (final : list (string * LatencyMinute)) (a : StreamAccumulator) : StreamLatency :=
  let '(holes, secs) :=
    event_holes (ac_event_seconds a) (regular_open anchors / us_per_s)
      (closing_auction_start anchors / us_per_s) (event_hole_min_s settings) (max_event_holes settings) in
  mkStreamLatency stream status reason (ac_rows a) (ac_missing a) (merged_minutes (parts_of a final)) holes secs.

(** [None] for the journal: the route is unknown or no file exists. *)
Definition process_stream (anchors : SessionAnchors) (journal : string -> option (list JournalFile))
    (stream : string) : aud StreamLatency :=
  match journal stream with
  | None | Some [] => sret (finish_stream anchors stream AS_UNAVAILABLE "journal_missing" [] new_acc)
  | Some files =>
      (a <- process_files stream files new_acc;;
       final <- all_minutes stream files a;;
       let finish st why := sret (finish_stream anchors stream st why final a) in
       if ac_rows a =? 0 then
         finish AS_UNAVAILABLE (if ac_failed a then "io_error" else "no_decodable_records")
       else if ac_failed a then finish AS_PARTIAL "truncated"
       else finish AS_OK "ok")%py
  end.

Fixpoint process_streams (anchors : SessionAnchors) (journal : string -> option (list JournalFile))
    (streams : list string) : aud (list StreamLatency) :=
  match streams with
  | [] => sret []
  | s :: ss =>
      (x <- process_stream anchors journal s;;
       xs <- process_streams anchors journal ss;;
       sret (x :: xs))%py
  end.

Definition tail_silence (anchors : SessionAnchors) (d : Derivation) : option Z * option Z :=
  match dv_last_regular_tick_ns d with
  | None => (None, None)
  | Some last =>
      let close_ns := (day * 86400 + closing_auction_start anchors / us_per_s - 32400) * 1000000000 in
      (Some (Z.max 0 (close_ns - last)), Some last)
  end.

(** ** The audit *)

Definition ordered_streams : list string :=
  let ordered := fromkeys (latency_streams settings) in
  if bool_decide (vendor ∈ LEDGER_VENDORS) || bool_decide (TICK_STREAM ∈ ordered)
  then TICK_STREAM :: List.filter (fun s => negb (bool_decide (s = TICK_STREAM))) ordered
  else ordered.

Definition unavailable_audit (reason : string) (sources : list SourceFile) (latency : list StreamLatency)
    : SessionAudit :=
  mkAudit AS_UNAVAILABLE reason sources latency [] zero_totals None None.

Definition is_status (s : AuditStatus) (e : StreamLatency) : bool := bool_decide (st_status e = s).

(** The body of the [try]. *)
Definition derive_body (anchors : SessionAnchors) (journal : string -> option (list JournalFile))
    (manifest : option (list (string * list (string * Z)))) : aud SessionAudit :=
  (results <- process_streams anchors journal ordered_streams;;
   let latency := List.filter (fun e => bool_decide (st_stream e ∈ latency_streams settings)) results in
   r <- sget;;
   (if ru_pinged r =? 0 then ping else sret tt);;;
   check_budget;;;
   r <- sget;;
   let ledger_vendor := bool_decide (vendor ∈ LEDGER_VENDORS) in
   if forallb (is_status AS_UNAVAILABLE) results then
     sret (unavailable_audit
             (if ledger_vendor then match results with e :: _ => st_reason e | [] => EmptyString end
              else "unsupported_vendor") (ru_sources r) latency)
   else if negb ledger_vendor then sret (unavailable_audit "unsupported_vendor" (ru_sources r) latency)
   else
     let '(symbols, totals) := finalize_ledger (max_intervals_per_symbol settings) manifest (ru_ledger r) in
     check_budget;;;
     let '(silence, last) := tail_silence anchors (ru_ledger r) in
     match last with
     | None =>
         sret (mkAudit AS_UNAVAILABLE "no_decodable_records" (ru_sources r) latency symbols totals None None)
     | Some _ =>
         let bad := List.filter (fun e => negb (is_status AS_OK e)) results in
         sret (mkAudit (match bad with [] => AS_OK | _ => AS_PARTIAL end)
                 (match bad with [] => "ok" | e :: _ => st_reason e end)
                 (ru_sources r) latency symbols totals silence last)
     end)%py.
End Audit.

(** The whole function: only an anchor error or an index error escapes. *)
Definition derive_session_audit (json_loads : string -> option json) (expired : nat -> bool)
    (vendor venue : string) (day : Z) (settings : AuditSettings) (anchors : SessionAnchors)
    (journal : string -> option (list JournalFile)) (manifest : option (list (string * list (string * Z))))
    : res audit_exc SessionAudit :=
  match phase_windows_for anchors with
  | Raise _ => Raise AnchorErr
  | Ok windows =>
      let journal := match mvenue_of venue with Some _ => journal | None => fun _ => None end in
      let '(_, out) :=
        derive_body json_loads expired vendor day settings (default V_KRX (mvenue_of venue)) windows
          anchors journal manifest new_run in
      match out with
      | Ok a => Ok a
      | Raise BudgetExceeded => Ok (unavailable_audit "time_budget" [] [])
      | Raise ValueErr => Ok (unavailable_audit "io_error" [] [])
      | Raise e => Raise e
      end
  end.

Record LatencyBreach := mkBreach {
  lb_stream : string; lb_minute_kst : string; lb_max : Z; lb_p50 : Z; lb_count : Z
}.

(** [dt.time(int(minute[0:2]), int(minute[3:5]))]. *)
Definition minute_time (minute : string) : option Z :=
  match s2l minute with
  | h1 :: h2 :: _ :: m1 :: m2 :: _ =>
      match parse_nat [h1; h2], parse_nat [m1; m2] with
      | Some h, Some m => Some (mktime h m 0)
      | _, _ => None
      end
  | _ => None
  end.

Definition breach_leb (a b : LatencyBreach) : bool :=
  str_ltb (lb_stream a) (lb_stream b)
  || (bool_decide (lb_stream a = lb_stream b) && str_leb (lb_minute_kst a) (lb_minute_kst b)).

Definition latency_breaches (audit : SessionAudit) (threshold_ns window_start window_end : Z) : list LatencyBreach :=
  py_sorted breach_leb
    (concat (map (fun e =>
       omap (fun m =>
               match minute_time (lm_minute_kst m) with
               | Some t =>
                   if (window_start <=? t) && (t <? window_end) && (threshold_ns <? lm_max m)
                   then Some (mkBreach (st_stream e) (lm_minute_kst m) (lm_max m) (lm_p50 m) (lm_count m))
                   else None
               | None => None
               end) (st_minutes e)) (ad_latency audit))).
