(* ===== verification/L0AuditFacts.v ===== *)
(** * Theorems about the session audit

    The audit of any journal is delivered, its figures are consistent and its
    minutes are those of the whole journal; reading a journal twice books no
    trade and no loss a second time. *)
From Stdlib Require Import Ascii.
From S2P Require Import Prelude PyStr PyTime ExecJournal MarketClock MarketPhase SeqSet L0Decode LossLedger LossLedgerFacts L0Latency L0LatencyFacts L0Audit.

#[local] Arguments zsum : simpl never.
#[local] Arguments zlen : simpl never.

(** ** Only the time budget interrupts the derivation *)

Definition run_ok (r : Run) : Prop := dv_ok (ru_ledger r).

Definition spec {A} (c : aud A) (P : A -> Prop) : Prop :=
  forall r, run_ok r ->
    run_ok (fst (c r)) /\ match snd (c r) with Ok x => P x | Raise e => e = BudgetExceeded end.

Lemma spec_ret {A} (x : A) (P : A -> Prop) : P x -> spec (sret x) P.
Proof. intros Hx r Hr. by split. Qed.

Lemma spec_bind {A B} (c : aud A) (k : A -> aud B) P Q :
  spec c P -> (forall x, P x -> spec (k x) Q) -> spec (sbind c k) Q.
Proof.
  intros Hc Hk r Hr. unfold sbind. destruct (Hc r Hr) as [Hr' Hout]. destruct (c r) as [r' [x|e]]; cbn in *; [|done].
  by apply Hk.
Qed.

Lemma spec_weaken {A} (c : aud A) (P Q : A -> Prop) : spec c P -> (forall x, P x -> Q x) -> spec c Q.
Proof. intros Hc HPQ r Hr. destruct (Hc r Hr) as [Hr' Hout]. split; [done|]. destruct (snd (c r)); auto. Qed.

Lemma spec_get : spec sget (fun r => run_ok r).
Proof. by intros r Hr. Qed.

Lemma spec_ping : spec ping (fun _ => True).
Proof. by intros r Hr. Qed.

Lemma spec_check expired : spec (check_budget expired) (fun _ => True).
Proof. intros r Hr. split; [done|]. cbn. by destruct (expired _). Qed.

Lemma spec_source s : spec (add_source s) (fun _ => True).
Proof. by intros r Hr. Qed.

Lemma spec_ledger d : dv_ok d -> spec (set_ledger d) (fun _ => True).
Proof. intros Hd r Hr. by split. Qed.

Lemma spec_each {X} (f : X -> aud unit) l : (forall x, spec (f x) (fun _ => True)) -> spec (each f l) (fun _ => True).
Proof.
  intros Hf. induction l as [|x l IH]; [by apply spec_ret|]. eapply spec_bind; [apply Hf|]. by intros.
Qed.

#[export] Hint Resolve spec_get spec_ping spec_check spec_source spec_ledger : audit.

Section Audit.
Context (json_loads : string -> option json) (expired : nat -> bool).
Context (vendor : string) (day : Z) (settings : AuditSettings).
Context (venue : MarketVenue) (windows : list PhaseWindow).
Hypothesis Hconfirm : 2 <= counter_reset_confirm_frames settings.
Hypothesis Hbudget : 0 <= latency_sample_budget_bytes settings.
(** [json.loads] of blank text is a [ValueError]. *)
Hypothesis Hblank : forall line, blank_line line = true -> json_loads line = None.

Abbreviation B := (latency_sample_budget_bytes settings).
Abbreviation sampled := (latency_sample json_loads vendor day).

Lemma acc_ok_same ss a a' :
  ac_order a' = ac_order a -> ac_counts a' = ac_counts a -> ac_samples a' = ac_samples a ->
  ac_evicted a' = ac_evicted a -> ac_stored_bytes a' = ac_stored_bytes a ->
  acc_ok B ss a -> acc_ok B ss a'.
Proof. intros E1 E2 E3 E4 E5 []. split; rewrite ?E1, ?E2, ?E3, ?E4, ?E5; done. Qed.

Lemma handle_latency_ok stream a r ss :
  acc_ok B ss a ->
  let '(a', e) := handle_latency json_loads vendor day settings stream a r in
  match record_moment json_loads vendor stream r with
  | None => e = Ok tt /\ acc_ok B ss a'
  | Some moment =>
      match latency_key (en_recv_ns r) (en_conn_id r) with
      | None => e = Raise ValueErr /\ acc_ok B ss a'
      | Some key => e = Ok tt /\ acc_ok B (ss ++ [(key, latency_ns day moment (en_recv_ns r))]) a'
      end
  end.
Proof.
  intros Ha. unfold handle_latency. destruct (record_moment _ _ _ _) as [m|]; [|split; [done|]].
  - destruct (latency_key _ _) as [key|]; (split; [done|]).
    + apply add_sample_ok. revert Ha. by apply acc_ok_same.
    + revert Ha. by apply acc_ok_same.
  - revert Ha. by apply acc_ok_same.
Qed.

Lemma handle_tick_ok stream r d :
  dv_ok d -> exists d', handle_tick json_loads vendor settings venue windows stream r d = Ok d' /\ dv_ok d'.
Proof.
  intros Hd. unfold handle_tick. destruct (_ && _); [|eauto]. cbv zeta.
  set (body := tick_body _ _ _). assert (Hd' : dv_ok (count_received body d)).
  { unfold count_received. destruct (decode_received_tick body); [|done]. by destruct Hd. }
  destruct (accept_tick_ok (counter_reset_confirm_frames settings) (max_intervals_per_symbol settings) Hconfirm
    vendor venue windows r body _ Hd') as (d' & -> & ?). eauto.
Qed.

Lemma finally_seen_ok stream r d : dv_ok d -> exists d', finally_seen stream r d = Ok d' /\ dv_ok d'.
Proof.
  intros Hd. unfold finally_seen. destruct (en_conn_seq r) as [seq|]; [|eauto]. destruct (_ && _); [|eauto].
  destruct (note_sequence_ok (en_conn_id r) seq d Hd) as (d' & -> & ?). eauto.
Qed.

Definition fs_ok (ss : list (string * Z)) (s : FileState) : Prop := dv_ok (fs_ledger s) /\ acc_ok B ss (fs_acc s).

Abbreviation line_step := (process_line json_loads vendor day settings venue windows).
Abbreviation lines_step := (process_lines json_loads vendor day settings venue windows).

Lemma process_line_ok stream line ss s :
  fs_ok ss s ->
  exists s', line_step stream line s = Ok s' /\ fs_ok (ss ++ omap (sampled stream) [line]) s'.
Proof.
  intros [Hd Ha]. unfold process_line, latency_sample. cbn [omap list_omap].
  destruct (blank_line line) eqn:Eb.
  { eexists. split; [done|]. unfold decode_envelope. rewrite Hblank by done. cbn. by rewrite app_nil_r. }
  destruct (decode_envelope json_loads line) as [r|]; cbn [mbind option_bind].
  2: { eexists. split; [done|]. by rewrite app_nil_r. }
  unfold handle_record. pose proof (handle_latency_ok stream (fs_acc s) r ss Ha) as HL.
  destruct (handle_latency _ _ _ _ _ _ _) as [a' e].
  destruct (handle_tick_ok stream r (fs_ledger s) Hd) as (d1 & Et & Hd1).
  destruct (finally_seen_ok stream r d1 Hd1) as (d2 & Ef & Hd2).
  destruct (finally_seen_ok stream r (fs_ledger s) Hd) as (d3 & Ef' & Hd3).
  destruct (record_moment _ _ _ _) as [m|]; cbn [mbind option_bind];
    [destruct (latency_key _ _) as [key|]; cbn [mbind option_bind]|]; destruct HL as [-> HL]; cbn [res_bind];
    rewrite ?Et; cbn [res_bind]; rewrite ?Ef, ?Ef'; cbn [res_bind]; eexists; (split; [done|]);
    rewrite ?app_nil_r; by split.
Qed.

Lemma process_lines_ok stream lines : forall ss s,
  fs_ok ss s ->
  exists s', lines_step stream lines s = Ok s' /\ fs_ok (ss ++ omap (sampled stream) lines) s'.
Proof.
  induction lines as [|line lines IH]; intros ss s Hs; cbn [process_lines].
  - exists s. by rewrite app_nil_r.
  - destruct (process_line_ok stream line ss s Hs) as (s1 & -> & H1). cbn [res_bind].
    destruct (IH _ s1 H1) as (s2 & -> & H2). exists s2. split; [done|].
    rewrite <- app_assoc, <- omap_app in H2. exact H2.
Qed.

Lemma process_batches_ok stream batches : forall a rows bad ss,
  acc_ok B ss a ->
  spec (process_batches json_loads expired vendor day settings venue windows stream batches a rows bad)
    (fun out => acc_ok B (ss ++ omap (sampled stream) (concat batches)) (fst (fst out))).
Proof.
  induction batches as [|lines batches IH]; intros a rows bad ss Ha; cbn [process_batches concat].
  - apply spec_ret. by rewrite app_nil_r.
  - eapply spec_bind; [apply spec_get|]. intros r Hr.
    destruct (process_lines_ok stream lines ss (mkFileState a (ru_ledger r) rows bad)) as (s & -> & Hd & Hs); [by split|].
    eapply (spec_bind (slift (Ok s)) _ (fun x => x = s)); [by apply spec_ret|]. intros ? ->.
    eapply spec_bind; [by apply spec_ledger|]. intros _ _. eapply spec_bind; [apply spec_ping|]. intros _ _.
    eapply spec_bind; [apply spec_check|]. intros _ _. rewrite omap_app, app_assoc. by apply IH.
Qed.

(** The lines of a file that are read at all. *)
Definition file_lines (f : JournalFile) : list string := if jf_size f then concat (jf_batches f) else [].

Lemma process_file_ok stream f a ss :
  acc_ok B ss a ->
  spec (process_file json_loads expired vendor day settings venue windows stream f a)
    (fun a' => acc_ok B (ss ++ omap (sampled stream) (file_lines f)) a').
Proof.
  intros Ha. unfold process_file, file_lines.
  eapply (spec_bind _ _ (fun out => acc_ok B (ss ++ omap (sampled stream) (file_lines f)) (fst (fst out)))).
  - unfold file_lines. destruct (jf_size f); [by apply process_batches_ok|]. apply spec_ret. by rewrite app_nil_r.
  - intros [[a' rows] bad] Ha'. eapply spec_bind; [apply spec_source|]. intros _ _. apply spec_ret.
    revert Ha'. by apply acc_ok_same.
Qed.

Lemma process_files_ok stream files : forall a ss,
  acc_ok B ss a ->
  spec (process_files json_loads expired vendor day settings venue windows stream files a)
    (fun a' => acc_ok B (ss ++ omap (sampled stream) (concat (map file_lines files))) a').
Proof.
  induction files as [|f files IH]; intros a ss Ha; cbn [process_files map concat].
  - apply spec_ret. by rewrite app_nil_r.
  - eapply spec_bind; [apply spec_check|]. intros _ _. eapply spec_bind; [by apply process_file_ok|].
    intros a' Ha'. rewrite omap_app, app_assoc. by apply IH.
Qed.

(** The finished minutes of a stream are those of its samples. *)
Definition minutes_of (ss : list (string * Z)) (final : list (string * LatencyMinute)) : Prop :=
  forall key, dget final key = if decide (key ∈ map fst ss) then Some (finalize_minute key (group key ss)) else None.

Lemma all_minutes_ok stream files a :
  acc_ok B (journal_samples json_loads vendor day stream files) a ->
  spec (all_minutes json_loads expired vendor day settings stream files a)
    (minutes_of (journal_samples json_loads vendor day stream files)).
Proof.
  intros Ha. unfold all_minutes. eapply spec_bind.
  - apply spec_each. intros _. apply spec_each. intros f. eapply spec_bind; [apply spec_check|]. intros _ _.
    apply spec_each. intros _. eapply spec_bind; [apply spec_ping|]. intros _ _. apply spec_check.
  - intros _ _. destruct (finish_minutes_ok B _ a Ha) as (final & -> & Hf). by apply spec_ret.
Qed.

Section Streams.
Context (anchors : SessionAnchors) (journal : string -> option (list JournalFile)).

(** A stream reported as read in full has the minutes of its whole journal. *)
Definition stream_ok (e : StreamLatency) : Prop :=
  st_status e = AS_OK ->
  exists files a final, journal (st_stream e) = Some files /\
    minutes_of (journal_samples json_loads vendor day (st_stream e) files) final /\
    st_minutes e = merged_minutes (parts_of a final).

Lemma finish_stream_fields stream st why final a :
  let e := finish_stream settings anchors stream st why final a in
  st_stream e = stream /\ st_status e = st /\ st_minutes e = merged_minutes (parts_of a final).
Proof. unfold finish_stream. by destruct (event_holes _ _ _ _ _). Qed.

Lemma process_stream_ok stream :
  spec (process_stream json_loads expired vendor day settings venue windows anchors journal stream)
    (fun e => st_stream e = stream /\ stream_ok e).
Proof using Hconfirm Hbudget Hblank.
  unfold process_stream.
  assert (Hnone : forall st why final a, st <> AS_OK ->
    spec (sret (finish_stream settings anchors stream st why final a)) (fun e => st_stream e = stream /\ stream_ok e)).
  { intros st why final a Hst. apply spec_ret.
    destruct (finish_stream_fields stream st why final a) as (E1 & E2 & _). split; [done|].
    unfold stream_ok. by rewrite E2. }
  destruct (journal stream) as [[|f files]|] eqn:Ej; [by apply Hnone| |by apply Hnone].
  eapply spec_bind; [by apply process_files_ok, acc_ok_new|]. intros a Ha. cbn [app] in Ha.
  eapply spec_bind; [by apply all_minutes_ok|]. intros final Hf.
  destruct (ac_rows a =? 0); [by apply Hnone|]. destruct (ac_failed a); [by apply Hnone|].
  apply spec_ret. destruct (finish_stream_fields stream AS_OK "ok" final a) as (E1 & E2 & E3).
  split; [done|]. intros _. exists (f :: files), a, final. by rewrite E1, E3.
Qed.

Lemma process_streams_ok streams :
  spec (process_streams json_loads expired vendor day settings venue windows anchors journal streams)
    (fun es => map st_stream es = streams /\ Forall stream_ok es).
Proof using Hconfirm Hbudget Hblank.
  induction streams as [|s streams IH]; cbn [process_streams]; [by apply spec_ret|].
  eapply spec_bind; [apply process_stream_ok|]. intros e [He1 He2]. eapply spec_bind; [exact IH|].
  intros es [H1 H2]. apply spec_ret. cbn. rewrite He1, H1. split; [done|by constructor].
Qed.

(** What an audit that was delivered in time says. *)
Record audit_ok (a : SessionAudit) : Prop := {
  ak_symbols : Forall sane (ad_symbols a);
  ak_totals : 0 <= lt_confirmed_missing (ad_totals a) /\ 0 <= lt_count_only_missing (ad_totals a) /\
    lt_confirmed_missing (ad_totals a) + lt_count_only_missing (ad_totals a) <= lt_trades_observed (ad_totals a);
  ak_latency : forall e, e ∈ ad_latency a -> st_stream e ∈ latency_streams settings /\ stream_ok e;
  ak_complete : ad_status a = AS_OK -> ad_reason a = "ok" /\ is_Some (ad_last_regular_tick_recv_ns a) /\
    forall s, s ∈ latency_streams settings -> exists e, e ∈ ad_latency a /\ st_stream e = s /\ st_status e = AS_OK;
}.

Lemma ordered_streams_elem s : s ∈ latency_streams settings -> s ∈ ordered_streams vendor settings.
Proof.
  intros Hs. unfold ordered_streams. pose proof (proj2 (fromkeys_elem s _) Hs) as Hf.
  destruct (_ || _); [|done]. destruct (decide (s = TICK_STREAM)) as [->|]; [set_solver|].
  apply elem_of_cons. right. apply filter_elem. by rewrite bool_decide_false.
Qed.

Lemma unavailable_ok reason sources latency :
  (forall e, e ∈ latency -> st_stream e ∈ latency_streams settings /\ stream_ok e) ->
  audit_ok (unavailable_audit reason sources latency).
Proof. intros H. split; cbn; [constructor|lia|done|done]. Qed.

Lemma derive_body_ok manifest :
  spec (derive_body json_loads expired vendor day settings venue windows anchors journal manifest) audit_ok.
Proof using Hconfirm Hbudget Hblank.
  unfold derive_body. eapply spec_bind; [apply process_streams_ok|]. intros results [Hn Hres].
  set (latency := List.filter _ results).
  assert (Hlat : forall e, e ∈ latency -> st_stream e ∈ latency_streams settings /\ stream_ok e).
  { intros e [He Hs]%filter_elem. apply bool_decide_eq_true in Hs. rewrite Forall_forall in Hres. auto. }
  eapply spec_bind; [apply spec_get|]. intros r0 _.
  eapply (spec_bind _ _ (fun _ => True)); [destruct (_ =? 0); [apply spec_ping|by apply spec_ret]|]. intros _ _.
  eapply spec_bind; [apply spec_check|]. intros _ _. eapply spec_bind; [apply spec_get|]. intros r Hr.
  destruct (forallb _ results); [apply spec_ret; by apply unavailable_ok|].
  destruct (negb _); [apply spec_ret; by apply unavailable_ok|].
  destruct (finalize_sane (max_intervals_per_symbol settings) manifest (ru_ledger r) Hr) as [Hsym Htot].
  destruct (finalize_ledger _ _ _) as [symbols totals]. cbn [fst snd] in *.
  eapply spec_bind; [apply spec_check|]. intros _ _.
  destruct (tail_silence day anchors (ru_ledger r)) as [silence [last|]]; apply spec_ret; (split; cbn; [done|tauto|done|]).
  2: done.
  destruct (List.filter (fun e => negb (is_status AS_OK e)) results) as [|b bad] eqn:Eb; [|done]. intros _. split_and!; [done|by eexists|].
  intros s Hs. pose proof (ordered_streams_elem s Hs) as Ho. rewrite <- Hn in Ho.
  apply list_elem_of_fmap in Ho as (e & -> & He). exists e. split_and!; [|done|].
  - apply filter_elem. split; [done|]. by apply bool_decide_eq_true.
  - destruct (decide (st_status e = AS_OK)) as [|Hne]; [done|].
    assert (e ∈ List.filter (fun e => negb (is_status AS_OK e)) results) as Hin.
    { apply filter_elem. split; [done|]. unfold is_status. by rewrite bool_decide_false. }
    rewrite Eb in Hin. by apply elem_of_nil in Hin.
Qed.
End Streams.
End Audit.

(** The audit of any journal is delivered: whatever bytes the journal files
    hold and however they are cut, the derivation returns an audit, and only an
    exhausted time budget makes it empty. Otherwise the loss figures are
    consistent, every stream reported as read in full has exactly the minutes of
    all its samples, and the status is OK only when every requested stream was
    read in full and a trade of the regular session was seen. *)
Theorem audit_delivered json_loads expired vendor venue day settings anchors journal manifest ws :
  2 <= counter_reset_confirm_frames settings -> 0 <= latency_sample_budget_bytes settings ->
  (forall line, blank_line line = true -> json_loads line = None) ->
  phase_windows_for anchors = Ok ws ->
  let routed := match mvenue_of venue with Some _ => journal | None => fun _ => None end in
  exists a, derive_session_audit json_loads expired vendor venue day settings anchors journal manifest = Ok a /\
    (a = unavailable_audit "time_budget" [] [] \/ audit_ok json_loads vendor day settings routed a) /\
    ((forall n, expired n = false) -> audit_ok json_loads vendor day settings routed a).
Proof.
  intros Hc Hb Hbl Hws routed. unfold derive_session_audit. rewrite Hws. fold routed.
  pose proof (derive_body_ok json_loads expired vendor day settings (default V_KRX (mvenue_of venue)) ws
    Hc Hb Hbl anchors routed manifest new_run dv_ok_new) as [_ Hout].
  pose proof (unavailable_ok json_loads vendor day settings routed "time_budget" [] []
    ltac:(by intros e ?%elem_of_nil)) as Hun.
  destruct (derive_body _ _ _ _ _ _ _ _ _ _ _) as [r [a|e]]; cbn in Hout.
  - exists a. split_and!; [done|by right|done].
  - subst e. eexists. split_and!; [done|by left|done].
Qed.

(** Two KIS trades of the opening second. *)
Definition demo_line (cum : string) (recv seq : Z) : json :=
  JObj [("raw", JStr (String.append "005930^090001^70100^2^0^0^0^0^0^0^0^0^10^100^0^" (String.append cum "^0")));
        ("recv_wall_ns", JInt recv); ("conn_id", JStr "c1"); ("conn_seq", JInt seq)].

Definition demo_recv : Z := (20000 * 86400 + 2) * 1000000000.

Definition demo_loads (line : string) : option json :=
  if decide (line = "t1") then Some (demo_line "1" demo_recv 1)
  else if decide (line = "t2") then Some (demo_line "2" (demo_recv + 500000000) 2) else None.

Definition demo_settings : AuditSettings := mkAuditSettings [TICK_STREAM] 1048576 3 500 10 20.

Definition demo_journal (stream : string) : option (list JournalFile) :=
  if decide (stream = TICK_STREAM)
  then Some [mkJournalFile "09.jsonl.zst" (Some 120) [["t1"; " "]; ["t2"]] false] else None.

Lemma audit_delivered_witness :
  exists a, derive_session_audit demo_loads (fun _ => false) "kis" "krx" 20000 demo_settings
      (standard_session_anchors 20000) demo_journal None = Ok a /\
    audit_ok demo_loads "kis" 20000 demo_settings demo_journal a /\
    ad_status a = AS_OK /\ lt_trades_observed (ad_totals a) = 2 /\
    map lm_count (concat (map st_minutes (ad_latency a))) = [2].
Proof.
  destruct (phase_windows_for (standard_session_anchors 20000)) as [ws|] eqn:Ew; [|vm_compute in Ew; discriminate Ew].
  assert (Hbl : forall line, blank_line line = true -> demo_loads line = None).
  { intros line. unfold demo_loads. repeat case_decide; subst; [discriminate|discriminate|reflexivity]. }
  destruct (audit_delivered demo_loads (fun _ => false) "kis" "krx" 20000 demo_settings
    (standard_session_anchors 20000) demo_journal None ws ltac:(cbn; lia) ltac:(cbn; lia) Hbl Ew) as (a & E & _ & Hok).
  exists a. split; [exact E|]. split; [exact (Hok (fun _ => eq_refl))|].
  clear Hok. vm_compute in E. injection E as <-. vm_compute. auto.
Defined.
