(* ===== verification/L0Replay.v ===== *)
(** * Reading a journal twice

    A restart, a repair or a copied file can put the same sequence-numbered
    trades into a partition again. The ledger recognises them by connection and
    sequence number: nothing but the count of duplicates changes. *)
From Stdlib Require Import Ascii.
From S2P Require Import Prelude PyStr PyTime ExecJournal MarketClock MarketPhase SeqSet L0Decode LossLedger LossLedgerFacts L0Latency L0LatencyFacts L0Audit L0AuditFacts.

(** What a symbol's state says of trades and losses; the counts of duplicates and
    of undecodable frames are left aside. *)
Definition core (st : SymbolState) : Z * Z * Z * option Z * bool * list (MarketPhase * Segment) * Z :=
  (sy_accepted_total st, sy_regressions st, sy_resets st, sy_first_cum st, sy_varied st, sy_segments st, sy_frames st).

Definition quiet (d d' : Derivation) : Prop :=
  (forall sym, core (symbol_state d' sym) = core (symbol_state d sym)) /\
  dv_last_regular_tick_ns d' = dv_last_regular_tick_ns d.

Definition has_seen (d : Derivation) (conn : string) (seq : Z) : Prop :=
  exists s, dget (dv_seen d) conn = Some s /\ seen_ok s /\ seen_mem s seq = Some true.

Lemma seen_add_grows s x s' :
  seen_ok s -> seen_add s x = Some s' ->
  seen_ok s' /\ seen_mem s' x = Some true /\ (forall y, seen_mem s y = Some true -> seen_mem s' y = Some true).
Proof.
  intros (L & -> & HL). destruct (seen_add_spec L x HL) as (L' & -> & HL' & Hc). intros [= <-].
  assert (Hm : forall y, covers L' y -> seen_mem (of_ivals L') y = Some true).
  { intros y Hy. destruct (seen_mem_spec L' y HL') as (b & -> & Hb). f_equal. by apply Hb. }
  split_and!; [by exists L'|apply Hm, Hc; by right|]. intros y Hy. apply Hm, Hc. left.
  destruct (seen_mem_spec L y HL) as (b & E & Hb). rewrite E in Hy. apply Hb. congruence.
Qed.

Definition noted (t : Z) (d : Derivation) : Prop :=
  exists t', dv_last_regular_tick_ns d = Some t' /\ t <= t'.

(** The derivation only adds sequence numbers and moves its last tick forward. *)
Definition grows (d d' : Derivation) : Prop :=
  (forall conn seq, has_seen d conn seq -> has_seen d' conn seq) /\ (forall t, noted t d -> noted t d').

#[global] Instance quiet_preorder : PreOrder quiet.
Proof.
  split; [done|]. intros d1 d2 d3 [H1 H2] [H3 H4]. split; [intros; by rewrite H3|congruence].
Qed.

#[global] Instance grows_preorder : PreOrder grows.
Proof. split; [done|]. intros d1 d2 d3 [H1 H2] [H3 H4]. split; auto. Qed.

Lemma grows_set_symbol s st d : grows d (set_symbol s st d).
Proof. done. Qed.

Lemma quiet_set_symbol s st d : core st = core (symbol_state d s) -> quiet d (set_symbol s st d).
Proof.
  intros Hc. split; [|done]. intros sym. unfold symbol_state at 1. cbn. rewrite dget_dset.
  destruct (decide (s = sym)) as [->|]; done.
Qed.

Lemma note_regular_grows p t d : grows d (note_regular_tick p t d).
Proof.
  unfold note_regular_tick. destruct (_ && _) eqn:E; [|done]. apply andb_true_iff in E as [_ E]. split; [done|].
  intros u (v & Hv & Hu). rewrite Hv in E. apply Z.ltb_lt in E. exists t. split; [done|lia].
Qed.

Lemma note_regular_noted t d : noted t (note_regular_tick REGULAR t d).
Proof.
  unfold note_regular_tick. rewrite bool_decide_true by done. cbn.
  destruct (dv_last_regular_tick_ns d) as [u|] eqn:E; [|by exists t].
  destruct (Z.ltb_spec u t); [by exists t|]. exists u. split; [done|lia].
Qed.

Lemma note_regular_quiet p t d : (p = REGULAR -> noted t d) -> note_regular_tick p t d = d.
Proof.
  intros Hn. unfold note_regular_tick. destruct (decide (p = REGULAR)) as [->|]; [|by rewrite bool_decide_false].
  destruct (Hn eq_refl) as (u & -> & ?). rewrite (proj2 (Z.ltb_ge u t)) by lia. by rewrite andb_false_r.
Qed.

Lemma seen_for_grows conn s d :
  seen_ok s -> (forall y, seen_mem (default new_seen (dget (dv_seen d) conn)) y = Some true -> seen_mem s y = Some true) ->
  grows d (set_seen_for conn s d).
Proof.
  intros Hs Hm. split; [|done]. intros c q (t & Ht & Hto & Hq). unfold has_seen. cbn. rewrite dget_dset.
  destruct (decide (conn = c)) as [<-|]; [|eauto]. exists s. split_and!; [done|done|]. apply Hm. by rewrite Ht.
Qed.

Lemma note_sequence_effects conn seq d d' :
  dv_ok d -> note_sequence conn seq d = Some d' -> grows d d' /\ has_seen d' conn seq /\ quiet d d'.
Proof.
  intros Hd. unfold note_sequence. destruct (seen_add _ seq) as [s|] eqn:E; [|done]. cbn. intros [= <-].
  destruct (seen_add_grows _ _ _ (seen_for_ok conn d Hd) E) as (Hs & Hx & Hm).
  split_and!; [by apply seen_for_grows| |done]. exists s. cbn. by rewrite dget_dset, decide_True.
Qed.

Lemma sequence_duplicate_effects r d d' b :
  dv_ok d -> sequence_duplicate r d = Some (d', b) -> grows d d' /\ quiet d d'.
Proof.
  intros Hd. unfold sequence_duplicate. destruct (en_conn_seq r) as [seq|]; [|by intros [= <- <-]].
  case_decide; [by intros [= <- <-]|]. destruct (seen_mem _ seq) as [[]|]; cbn; [| |done].
  - intros [= <- <-]. split; [|done]. apply seen_for_grows; [by apply seen_for_ok|done].
  - destruct (note_sequence _ _ _) as [d1|] eqn:En; [|done]. cbn. intros [= <- <-].
    by destruct (note_sequence_effects _ _ _ _ Hd En) as (? & _ & ?).
Qed.

Lemma sequence_duplicate_seen r d seq :
  en_conn_seq r = Some seq -> en_conn_id r <> "" -> has_seen d (en_conn_id r) seq ->
  exists d', sequence_duplicate r d = Some (d', true) /\ quiet d d'.
Proof.
  intros Hs Hc (s & HL & _ & Hq). unfold sequence_duplicate. rewrite Hs, decide_False, HL by done. cbn.
  rewrite Hq. by eexists.
Qed.

Lemma enter_frame_grows cf mi s p f d : grows d (enter_frame cf mi s p f d).
Proof. unfold enter_frame. by destruct (advance_segment _ _ _ _ _ _). Qed.

Section Replay.
Context (json_loads : string -> option json) (vendor : string) (day : Z) (settings : AuditSettings).
Context (venue : MarketVenue) (windows : list PhaseWindow).
Hypothesis Hconfirm : 2 <= counter_reset_confirm_frames settings.
Hypothesis Hvendor : vendor <> "kiwoom".

Abbreviation accept := (accept_tick (counter_reset_confirm_frames settings) (max_intervals_per_symbol settings)
  vendor venue windows).

(** The record decodes to a trade, so that its receive time counts. *)
Definition is_trade (body : tbody) : bool :=
  bool_decide (is_Some (hhmmss_of (dget body "chetime"))) && bool_decide (is_Some (parse_int (dget body "volume")))
  && bool_decide (is_Some (parse_int (dget body "cvolume"))) && negb (bool_decide (text_or_empty (dget body "shcode") = ""))
  && bool_decide (is_Some (tick_cum body)).

Definition body_phase (body : tbody) : MarketPhase :=
  classify_market_phase venue (text_or_empty (dget body "chetime")) TRADE windows.

(** [accept_tick] is a failed decode or the tail for a trade. *)
Lemma accept_cases r body d :
  (is_trade body = false /\
   exists d', accept r body d = Some d' /\ grows d d' /\ quiet d d') \/
  (is_trade body = true /\ exists symbol f,
   accept r body d =
     ('(d', dup) ← sequence_duplicate r (set_symbol symbol
          (symbol_state (note_regular_tick (body_phase body) (en_recv_ns r) d) symbol)
          (note_regular_tick (body_phase body) (en_recv_ns r) d));
      Some (if (dup : bool) then set_symbol symbol (add_duplicate (symbol_state d' symbol)) d'
            else enter_frame (counter_reset_confirm_frames settings) (max_intervals_per_symbol settings)
                   symbol (body_phase body) f d'))).
Proof using Hvendor.
  unfold accept_tick, is_trade. cbv zeta. fold (body_phase body).
  set (symbol := if decide (text_or_empty (dget body "shcode") = "") then en_symbol r else _). clearbody symbol.
  assert (Hfail : exists d', (if decide (symbol = "") then Some d
    else Some (set_symbol symbol (add_decode_fail (symbol_state d symbol)) d)) = Some d' /\ grows d d' /\ quiet d d').
  { case_decide; eexists; (split; [done|]); [done|]. split; [done|]. by apply quiet_set_symbol. }
  destruct (hhmmss_of _) as [m|]; [|by left]. destruct (parse_int (dget body "volume")) as [volume|]; [|by left].
  destruct (parse_int (dget body "cvolume")) as [cvolume|]; [|left; split; [by rewrite !andb_false_r|done]].
  destruct (decide (text_or_empty (dget body "shcode") = "")) as [Hs|Hs].
  { left. split; [by rewrite Hs, !andb_false_r|done]. }
  rewrite decide_False by done. destruct (tick_cum body) as [cum|]; [|left; split; [by rewrite !andb_false_r|done]].
  right. split; [rewrite (bool_decide_false (_ = "")) by done; done|]. exists symbol. eexists.
  destruct (sequence_duplicate _ _) as [[d' []]|]; reflexivity.
Qed.

Lemma accept_effects r body d d' :
  dv_ok d -> accept r body d = Some d' ->
  grows d d' /\ (is_trade body = true -> body_phase body = REGULAR -> noted (en_recv_ns r) d').
Proof using Hvendor.
  intros Hd E. destruct (accept_cases r body d) as [(Ht & d1 & E1 & Hg & _)|(Ht & symbol & f & E1)]; rewrite E1 in E.
  { injection E as <-. split; [done|congruence]. }
  set (d1 := note_regular_tick (body_phase body) (en_recv_ns r) d) in *.
  assert (Hd1 : dv_ok d1) by by apply note_regular_ok.
  assert (Hd2 : dv_ok (set_symbol symbol (symbol_state d1 symbol) d1)) by (apply set_symbol_ok; auto with loss).
  destruct (sequence_duplicate _ _) as [[d3 b]|] eqn:Es; [|done]. cbn in E. injection E as <-.
  destruct (sequence_duplicate_effects _ _ _ _ Hd2 Es) as [Hg _].
  assert (Hg' : grows d1 (if b then set_symbol symbol (add_duplicate (symbol_state d3 symbol)) d3
    else enter_frame (counter_reset_confirm_frames settings) (max_intervals_per_symbol settings) symbol (body_phase body) f d3)).
  { etransitivity; [exact Hg|]. destruct b; [done|apply enter_frame_grows]. }
  split; [etransitivity; [apply note_regular_grows|exact Hg']|].
  intros _ Hp. apply Hg'. unfold d1. rewrite Hp. apply note_regular_noted.
Qed.

Lemma accept_again r body d seq :
  en_conn_seq r = Some seq -> en_conn_id r <> "" -> has_seen d (en_conn_id r) seq ->
  (is_trade body = true -> body_phase body = REGULAR -> noted (en_recv_ns r) d) ->
  exists d', accept r body d = Some d' /\ quiet d d'.
Proof using Hvendor.
  intros Hs Hc Hseen Hn. destruct (accept_cases r body d) as [(_ & d1 & E1 & _ & Hq)|(Ht & symbol & f & E1)].
  { by exists d1. }
  rewrite E1, note_regular_quiet by auto.
  destruct (sequence_duplicate_seen r (set_symbol symbol (symbol_state d symbol) d) seq Hs Hc Hseen) as (d2 & -> & Hq).
  eexists. split; [done|]. etransitivity; [|by apply quiet_set_symbol].
  etransitivity; [|exact Hq]. by apply quiet_set_symbol.
Qed.

(** ** Lines *)

Abbreviation line_step := (process_line json_loads vendor day settings venue windows TICK_STREAM).
Abbreviation lines_step := (process_lines json_loads vendor day settings venue windows TICK_STREAM).

Lemma count_received_same body d :
  quiet d (count_received body d) /\ grows d (count_received body d) /\ (dv_ok d -> dv_ok (count_received body d)).
Proof. unfold count_received. destruct (decode_received_tick body); [|done]. split_and!; [done|done|]. by intros []. Qed.

(** The latency half does not raise. *)
Definition latency_ok (r : Envelope) : bool :=
  match record_moment json_loads vendor TICK_STREAM r with
  | Some _ => bool_decide (is_Some (latency_key (en_recv_ns r) (en_conn_id r)))
  | None => true
  end.

(** What is known of a record once it was read: its sequence number, and its
    receive time when it counted as a trade of the regular session. *)
Definition absorbed (r : Envelope) (d : Derivation) : Prop :=
  (forall seq, en_conn_seq r = Some seq -> en_conn_id r <> "" -> has_seen d (en_conn_id r) seq) /\
  (vendor ∈ LEDGER_VENDORS -> latency_ok r = true ->
   let body := tick_body json_loads vendor (en_raw r) in
   is_trade body = true -> body_phase body = REGULAR -> noted (en_recv_ns r) d).

Definition line_record (line : string) : option Envelope :=
  if blank_line line then None else decode_envelope json_loads line.

Lemma absorbed_grows r d d' : grows d d' -> absorbed r d -> absorbed r d'.
Proof. intros [H1 H2] [Hs Hn]. split; [auto|]. intros Hv Hk body Ht Hp. apply H2. by apply Hn. Qed.

Lemma finally_effects r d d' :
  dv_ok d -> finally_seen TICK_STREAM r d = Ok d' ->
  grows d d' /\ quiet d d' /\
  (forall seq, en_conn_seq r = Some seq -> en_conn_id r <> "" -> has_seen d' (en_conn_id r) seq).
Proof.
  intros Hd. unfold finally_seen. destruct (en_conn_seq r) as [seq|]; [|by intros [= <-]].
  rewrite bool_decide_true by done. destruct (decide (en_conn_id r = "")) as [E|E].
  - rewrite bool_decide_true by done. by intros [= <-].
  - rewrite bool_decide_false by done. cbn. destruct (note_sequence _ _ _) as [d1|] eqn:En; [|done].
    intros [= <-]. destruct (note_sequence_effects _ _ _ _ Hd En) as (? & ? & ?).
    split_and!; [done|done|]. by intros ? [= <-].
Qed.

(** The ledger's half of a record. *)
Definition record_ledger (r : Envelope) (d : Derivation) : res audit_exc Derivation :=
  (d' <~ (if latency_ok r then handle_tick json_loads vendor settings venue windows TICK_STREAM r d else Ok d);;
   finally_seen TICK_STREAM r d')%py.

Lemma process_line_ledger line s s' :
  dv_ok (fs_ledger s) -> line_step line s = Ok s' ->
  match line_record line with
  | None => fs_ledger s' = fs_ledger s
  | Some r => record_ledger r (fs_ledger s) = Ok (fs_ledger s')
  end.
Proof using Hconfirm.
  intros Hd. unfold process_line, line_record, record_ledger, latency_ok. destruct (blank_line line); [by intros [= <-]|].
  destruct (decode_envelope json_loads line) as [r|]; [|by intros [= <-]].
  unfold handle_record, handle_latency.
  destruct (handle_tick_ok json_loads vendor settings venue windows Hconfirm TICK_STREAM r (fs_ledger s) Hd)
    as (d1 & Et & Hd1).
  destruct (record_moment _ _ _ _) as [m|]; [destruct (latency_key _ _); cbn [res_bind];
    [rewrite bool_decide_true by done|rewrite bool_decide_false by (by intros [? ?])]|]; cbn [res_bind];
    rewrite ?Et; cbn [res_bind]; destruct (finally_seen _ _ _) as [d2|]; cbn [res_bind]; by intros [= <-].
Qed.

Lemma handle_tick_effects r d d' :
  dv_ok d -> handle_tick json_loads vendor settings venue windows TICK_STREAM r d = Ok d' ->
  grows d d' /\ (vendor ∈ LEDGER_VENDORS -> let body := tick_body json_loads vendor (en_raw r) in
    is_trade body = true -> body_phase body = REGULAR -> noted (en_recv_ns r) d').
Proof using Hvendor.
  intros Hd. unfold handle_tick. rewrite bool_decide_true by done. cbn [andb]. cbv zeta.
  destruct (decide (vendor ∈ LEDGER_VENDORS)) as [Hv|Hv];
    [rewrite bool_decide_true by done|rewrite bool_decide_false by done; by intros [= <-]].
  set (body := tick_body _ _ _). destruct (count_received_same body d) as (_ & Hg & Hok).
  destruct (accept_tick _ _ _ _ _ _ _ _) as [d1|] eqn:E; [|done]. intros [= <-].
  destruct (accept_effects _ _ _ _ (Hok Hd) E) as [Hg' Hn]. split; [by etransitivity|auto].
Qed.

Lemma record_ledger_effects r d d' :
  dv_ok d -> record_ledger r d = Ok d' -> grows d d' /\ absorbed r d' /\ dv_ok d'.
Proof using Hconfirm Hvendor.
  intros Hd. unfold record_ledger, absorbed.
  destruct (handle_tick_ok json_loads vendor settings venue windows Hconfirm TICK_STREAM r d Hd) as (d1 & Et & Hd1).
  destruct (latency_ok r) eqn:Ek; [rewrite Et|]; cbn [res_bind]; intros Ef.
  - destruct (handle_tick_effects r d d1 Hd Et) as [Hg1 Hn].
    destruct (finally_effects r d1 d' Hd1 Ef) as (Hg2 & _ & Hs).
    split_and!; [by etransitivity|done| |].
    + intros Hv _ Ht Hp. apply Hg2. by apply Hn.
    + destruct (finally_seen_ok TICK_STREAM r d1 Hd1) as (d2 & E2 & ?). congruence.
  - destruct (finally_effects r d d' Hd Ef) as (Hg2 & _ & Hs). split_and!; [done|done|done|].
    destruct (finally_seen_ok TICK_STREAM r d Hd) as (d2 & E2 & ?). congruence.
Qed.

(** Reading an absorbed record again. *)
Lemma record_ledger_again r d d' seq :
  dv_ok d -> en_conn_seq r = Some seq -> en_conn_id r <> "" -> absorbed r d ->
  record_ledger r d = Ok d' -> quiet d d'.
Proof using Hconfirm Hvendor.
  intros Hd Hs Hc [Hseen Hn]. unfold record_ledger. specialize (Hseen seq Hs Hc).
  destruct (latency_ok r) eqn:Ek; cbn [res_bind]; [|intros Ef; apply (finally_effects r d d' Hd Ef)].
  destruct (handle_tick_ok json_loads vendor settings venue windows Hconfirm TICK_STREAM r d Hd) as (d1 & Et & Hd1).
  rewrite Et. cbn [res_bind]. intros Ef. destruct (finally_effects r d1 d' Hd1 Ef) as (_ & Hq & _).
  etransitivity; [|exact Hq]. revert Et. unfold handle_tick. rewrite bool_decide_true by done. cbn [andb]. cbv zeta.
  destruct (decide (vendor ∈ LEDGER_VENDORS)) as [Hv|Hv];
    [rewrite bool_decide_true by done|rewrite bool_decide_false by done; by intros [= <-]].
  set (body := tick_body _ _ _) in *. destruct (count_received_same body d) as (Hq0 & [Hg0 Hg0'] & _).
  destruct (accept_again r body (count_received body d) seq Hs Hc) as (d2 & -> & Hq2); [auto| |].
  - intros Ht Hp. apply Hg0'. by apply Hn.
  - intros [= <-]. by etransitivity.
Qed.

(** ** Journals *)

Lemma process_lines_effects lines : forall s s',
  dv_ok (fs_ledger s) -> lines_step lines s = Ok s' ->
  grows (fs_ledger s) (fs_ledger s') /\ dv_ok (fs_ledger s') /\
  (forall line r, line ∈ lines -> line_record line = Some r -> absorbed r (fs_ledger s')).
Proof using Hconfirm Hvendor.
  induction lines as [|line lines IH]; intros s s' Hd; cbn [process_lines].
  { intros [= <-]. split_and!; [done|done|]. by intros ? ? ?%elem_of_nil. }
  destruct (line_step line s) as [s1|] eqn:El; [|done]. cbn [res_bind]. intros E.
  pose proof (process_line_ledger line s s1 Hd El) as Hl.
  destruct (line_record line) as [r|] eqn:Er.
  - destruct (record_ledger_effects _ _ _ Hd Hl) as (Hg & Ha & Hd1). destruct (IH s1 s' Hd1 E) as (Hg' & Hd' & Hall).
    split_and!; [by etransitivity|done|].
    intros l r' [->|Hin]%elem_of_cons Hr'; [|by apply (Hall l)]. rewrite Er in Hr'. injection Hr' as <-.
    by apply (absorbed_grows r (fs_ledger s1)).
  - rewrite <- Hl in Hd. destruct (IH s1 s' Hd E) as (Hg' & Hd' & Hall). rewrite Hl in Hg'. split_and!; [done|done|].
    intros l r' [->|Hin]%elem_of_cons Hr'; [congruence|by apply (Hall l)].
Qed.

Lemma process_lines_again lines : forall s s',
  dv_ok (fs_ledger s) -> lines_step lines s = Ok s' ->
  (forall line r, line ∈ lines -> line_record line = Some r ->
     absorbed r (fs_ledger s) /\ en_conn_id r <> "" /\ is_Some (en_conn_seq r)) ->
  quiet (fs_ledger s) (fs_ledger s').
Proof using Hconfirm Hvendor.
  induction lines as [|line lines IH]; intros s s' Hd; cbn [process_lines]; [by intros [= <-]|].
  destruct (line_step line s) as [s1|] eqn:El; [|done]. cbn [res_bind]. intros E Ha.
  pose proof (process_line_ledger line s s1 Hd El) as Hl.
  assert (Hgq : grows (fs_ledger s) (fs_ledger s1) /\ quiet (fs_ledger s) (fs_ledger s1) /\ dv_ok (fs_ledger s1)).
  { destruct (line_record line) as [r|] eqn:Er; [|by rewrite Hl].
    destruct (Ha line r) as (Hab & Hc & [seq Hs]); [set_solver|done|].
    destruct (record_ledger_effects _ _ _ Hd Hl) as (Hg & _ & Hd1). split_and!; [done| |done].
    by apply (record_ledger_again r _ _ seq). }
  destruct Hgq as (Hg & Hq & Hd1). etransitivity; [exact Hq|]. apply IH; [done|done|].
  intros l r Hin Hr. destruct (Ha l r) as (Hab & ? & ?); [set_solver|done|]. split_and!; [|done|done].
  by apply (absorbed_grows r (fs_ledger s)).
Qed.
End Replay.

(** A journal read twice books nothing twice: after the lines of a partition
    were processed, processing them once more - from a copied file, a restart or
    a repair - leaves every symbol's accepted trades, counter segments, loss
    intervals, regressions and resets as they were, and the last trade of the
    regular session too, provided the records carry a connection and a sequence
    number. *)
Theorem replayed_journal_ignored json_loads vendor day settings venue windows lines s0 s1 s2 :
  2 <= counter_reset_confirm_frames settings -> vendor <> "kiwoom" -> dv_ok (fs_ledger s0) ->
  (forall line r, line ∈ lines -> decode_envelope json_loads line = Some r ->
     en_conn_id r <> "" /\ is_Some (en_conn_seq r)) ->
  process_lines json_loads vendor day settings venue windows TICK_STREAM lines s0 = Ok s1 ->
  process_lines json_loads vendor day settings venue windows TICK_STREAM lines s1 = Ok s2 ->
  (forall symbol, core (symbol_state (fs_ledger s2) symbol) = core (symbol_state (fs_ledger s1) symbol)) /\
  dv_last_regular_tick_ns (fs_ledger s2) = dv_last_regular_tick_ns (fs_ledger s1).
Proof.
  intros Hc Hv Hd Hids E1 E2.
  destruct (process_lines_effects json_loads vendor day settings venue windows Hc Hv lines s0 s1 Hd E1) as (_ & Hd1 & Ha).
  apply (process_lines_again json_loads vendor day settings venue windows Hc Hv lines s1 s2 Hd1 E2).
  intros line r Hin Hr. split; [by apply (Ha line)|]. unfold line_record in Hr.
  destruct (blank_line line); [done|]. by apply (Hids line).
Qed.

Definition replay_loads (line : string) : option json :=
  if decide (line = "t1") then Some (demo_line "1" demo_recv 1)
  else if decide (line = "t4") then Some (demo_line "4" (demo_recv + 500000000) 2) else None.

Definition replay_start : FileState := mkFileState new_acc new_derivation 0 false.

(** The counter jumps from 1 to 4; the second reading books no second loss. *)
Lemma replayed_journal_ignored_witness :
  exists s1 s2,
    process_lines replay_loads "kis" 20000 demo_settings V_KRX MARKET_PHASE_WINDOWS TICK_STREAM ["t1"; "t4"] replay_start = Ok s1 /\
    process_lines replay_loads "kis" 20000 demo_settings V_KRX MARKET_PHASE_WINDOWS TICK_STREAM ["t1"; "t4"] s1 = Ok s2 /\
    core (symbol_state (fs_ledger s2) "005930") = core (symbol_state (fs_ledger s1) "005930") /\
    map (fun kv => sg_count_only (snd kv)) (sy_segments (symbol_state (fs_ledger s2) "005930")) = [2] /\
    sy_duplicates (symbol_state (fs_ledger s2) "005930") = 2.
Proof.
  destruct (process_lines replay_loads "kis" 20000 demo_settings V_KRX MARKET_PHASE_WINDOWS TICK_STREAM ["t1"; "t4"] replay_start)
    as [s1|] eqn:E1; [|vm_compute in E1; discriminate E1].
  destruct (process_lines replay_loads "kis" 20000 demo_settings V_KRX MARKET_PHASE_WINDOWS TICK_STREAM ["t1"; "t4"] s1)
    as [s2|] eqn:E2; [|exfalso; vm_compute in E1; injection E1 as <-; vm_compute in E2; discriminate E2].
  assert (Hids : forall line r, line ∈ ["t1"; "t4"] -> decode_envelope replay_loads line = Some r ->
    en_conn_id r <> "" /\ is_Some (en_conn_seq r)).
  { intros line r Hin Hr. apply elem_of_cons in Hin as [->|Hin]; [|apply list_elem_of_singleton in Hin as ->];
      vm_compute in Hr; injection Hr as <-; (split; [discriminate|by eexists]). }
  exists s1, s2. split; [exact eq_refl|]. split; [exact E2|].
  split; [exact (proj1 (replayed_journal_ignored replay_loads "kis" 20000 demo_settings V_KRX MARKET_PHASE_WINDOWS
    ["t1"; "t4"] replay_start s1 s2 ltac:(cbn; lia) ltac:(discriminate) dv_ok_new Hids E1 E2) "005930")|].
  vm_compute in E1. injection E1 as <-. vm_compute in E2. injection E2 as <-. split; vm_compute; reflexivity.
Defined.
