(* ===== verification/Layout.v ===== *)
(** * Partition paths ([src/storage/layout.py])

    The path algebra of the data lake: where an L0 journal partition lives,
    which L1 archive object is made from it, under which name that object is
    stored remotely, and back from the remote name to the partition. A relative
    POSIX path is the list of its components. *)
From Stdlib Require Import Ascii.
From S2P Require Import Prelude PyStr PyTime MarketPhase.

Abbreviation path := (list string).

Definition slash : ascii := "/"%char.

(** [PurePosixPath(s)] of a relative path: empty and dot components vanish. *)
Definition posix_parts (s : string) : path :=
  List.filter (fun c => negb (bool_decide (c = "")) && negb (bool_decide (c = "."))) (str_split slash s).

(** [as_posix]. *)
Definition as_posix (p : path) : string :=
  match p with [] => "." | _ => String.concat "/" p end.

(** [.parent] and [.name]. *)
Definition parent (p : path) : path := removelast p.
Definition name (p : path) : string := List.last p "".

Definition L1_REPO_PREFIX : string := "l1/".
Definition L0_REPO_PREFIX : string := "l0/".
Definition QUARANTINE_REPO_PREFIX : string := "quarantine/".
Definition PARQUET : string := ".parquet".

(** ** Dates in names *)

(** [\d{4}-\d{2}-\d{2}] on a text of ten characters. *)
Definition iso_shape (l : list ascii) : bool :=
  match l with
  | [y1; y2; y3; y4; s1; m1; m2; s2; d1; d2] =>
      all_digits [y1; y2; y3; y4; m1; m2; d1; d2] && bool_decide (s1 = "-"%char) && bool_decide (s2 = "-"%char)
  | _ => false
  end.

Definition leap (y : Z) : bool := (y mod 4 =? 0) && (negb (y mod 100 =? 0) || (y mod 400 =? 0)).

Definition days_in_month (y m : Z) : Z :=
  if m =? 2 then (if leap y then 29 else 28)
  else if (m =? 4) || (m =? 6) || (m =? 9) || (m =? 11) then 30 else 31.

(** [dt.date.fromisoformat] of a text of that shape; [None] is a [ValueError]. *)
Definition iso_date (l : list ascii) : option Z :=
  let y := chars_val (take 4 l) in
  let m := chars_val (take 2 (drop 5 l)) in
  let d := chars_val (drop 8 l) in
  if iso_shape l && (1 <=? y) && (1 <=? m) && (m <=? 12) && (1 <=? d) && (d <=? days_in_month y m)
  then Some (days_of_civil y m d) else None.

(** ** L0 partitions *)

Inductive MarketSession := S_REGULAR | S_KRX_AFTER | S_NXT_AFTER | S_NXT_PRE.

#[global] Instance market_session_eq : EqDecision MarketSession.
Proof. solve_decision. Defined.

Definition session_value (s : MarketSession) : string :=
  match s with
  | S_REGULAR => "regular" | S_KRX_AFTER => "krx_after" | S_NXT_AFTER => "nxt_after" | S_NXT_PRE => "nxt_pre"
  end.

(** [MarketSession(s)]; [None] is a [ValueError]. *)
Definition session_of (s : string) : option MarketSession :=
  if decide (s = "regular") then Some S_REGULAR
  else if decide (s = "krx_after") then Some S_KRX_AFTER
  else if decide (s = "nxt_after") then Some S_NXT_AFTER
  else if decide (s = "nxt_pre") then Some S_NXT_PRE else None.

Record L0PartitionKey := mkKey {
  k_vendor : string; k_venue : MarketVenue; k_session : MarketSession; k_stream : string; k_day : Z
}.

Record L0PartitionRoute := mkRoute { rt_venue : string; rt_session : MarketSession; rt_stream : string }.

Definition l0_partition_key (vendor venue session stream : string) (day : Z) : option L0PartitionKey :=
  v ← mvenue_of venue; s ← session_of session; Some (mkKey vendor v s stream day).

(** Each component of the join is itself split (an empty one vanishes); a component
    with a leading slash, which would restart the path, is not considered. *)
Definition l0_partition_relpath (k : L0PartitionKey) : path :=
  concat (map posix_parts
    [k_vendor k; mvenue_value (k_venue k); session_value (k_session k); k_stream k;
     String.append "dt=" (date_isoformat (k_day k))]).

(** An empty tag counts as none. *)
Definition l0_journal_file_name (hour : Z) (file_tag : option string) : string :=
  match file_tag with
  | Some tag =>
      if decide (tag = "") then String.append (str_pad 2 hour) ".jsonl.zst"
      else String.append (str_pad 2 hour) (String.append "." (String.append tag ".jsonl.zst"))
  | None => String.append (str_pad 2 hour) ".jsonl.zst"
  end.

Definition route_for_l0_partition (part : path) : L0PartitionRoute :=
  let stream := name (parent part) in
  match session_of (name (parent (parent part))) with
  | None => mkRoute "krx" S_REGULAR stream
  | Some session => mkRoute (name (parent (parent (parent part)))) session stream
  end.

(** ** L1 objects *)

Definition l1_relpath_for_l0_partition (rel : path) : path := parent rel ++ [String.append (name rel) PARQUET].

Definition l1_repo_path (l1_relpath : path) : string := String.append L1_REPO_PREFIX (as_posix l1_relpath).

(** [None] is the [ValueError]. *)
Definition quarantine_repo_path_for_l0 (repo_path : string) : option string :=
  option_map (String.append QUARANTINE_REPO_PREFIX) (str_after L0_REPO_PREFIX repo_path).

(** [rest == d or rest.startswith(d + "/")]. *)
Definition in_dir (d rest : string) : bool :=
  bool_decide (rest = d) || bool_decide (is_Some (str_after (String.append d "/") rest)).

(** [^dt=(\d{4}-\d{2}-\d{2})\.parquet$]; the dollar also matches before a final newline. *)
Definition l1_dt_match (l : list ascii) : option (list ascii) :=
  r ← skip_prefix (s2l "dt=") l;
  tail ← skip_prefix (s2l PARQUET) (drop 10 r);
  if iso_shape (take 10 r) && (bool_decide (tail = []) || bool_decide (tail = ["010"%char]))
  then Some (take 10 r) else None.

Definition l0_partition_for_l1 (repo_path : string) : option string :=
  rest ← str_after L1_REPO_PREFIX repo_path;
  if in_dir "snapshot" rest || in_dir "derived" rest then None
  else
    '(par, nm) ← rpartition slash (s2l rest);
    if bool_decide (par = []) then None
    else
      day ← l1_dt_match nm;
      _ ← iso_date day;
      Some (String.append L0_REPO_PREFIX
              (String.append (l2s par) (String.append "/" (l2s (take (length nm - 8) nm))))).

(** ** Lemmas *)

Definition clean (c : string) : Prop := c <> "" /\ c <> "." /\ slash ∉ s2l c.

Lemma s2l_concat_snoc p c : p <> [] ->
  s2l (String.concat "/" (p ++ [c])) = s2l (String.concat "/" p) ++ slash :: s2l c.
Proof.
  induction p as [|x p IH]; [done|]. intros _. destruct p as [|y p].
  - cbn [app String.concat]. by rewrite !s2l_app.
  - change (String.concat "/" ((x :: y :: p) ++ [c])) with
      (String.append x (String.append "/" (String.concat "/" ((y :: p) ++ [c])))).
    change (String.concat "/" (x :: y :: p)) with
      (String.append x (String.append "/" (String.concat "/" (y :: p)))).
    rewrite !s2l_app, (IH ltac:(done)), <- !app_assoc. done.
Qed.

Lemma as_posix_cons c p : p <> [] -> as_posix (c :: p) = String.append c (String.append "/" (as_posix p)).
Proof. by destruct p. Qed.

Lemma clean_keep c : clean c -> negb (bool_decide (c = "")) && negb (bool_decide (c = ".")) = true.
Proof. intros (? & ? & _). by rewrite !bool_decide_false. Qed.

(** A path survives being written and read back. *)
Lemma posix_roundtrip p : Forall clean p -> p <> [] -> posix_parts (as_posix p) = p.
Proof.
  induction p as [|c p IH]; [done|]. intros [Hc Hp]%Forall_cons _.
  unfold posix_parts, str_split in *. destruct p as [|c' p].
  - cbn [as_posix String.concat]. rewrite split_on_parts by apply Hc. cbn [map List.filter].
    by rewrite l2s_s2l, clean_keep.
  - rewrite as_posix_cons, !s2l_app by done. cbn [s2l app].
    change (s2l "/") with [slash]. cbn [app]. rewrite split_on_app by apply Hc. cbn [map List.filter].
    rewrite l2s_s2l, clean_keep by done. f_equal. by apply IH.
Qed.

Lemma as_posix_inj p q : Forall clean p -> Forall clean q -> p <> [] -> q <> [] -> as_posix p = as_posix q -> p = q.
Proof. intros ? ? ? ? E. by rewrite <- (posix_roundtrip p), E, posix_roundtrip. Qed.

Lemma first_part (c : ascii) (a b r s : list ascii) : c ∉ a -> c ∉ b -> a ++ c :: r = b ++ c :: s -> a = b.
Proof.
  intros Ha Hb E. apply (f_equal (split_on c)) in E. rewrite !split_on_app in E by done. congruence.
Qed.

Lemma in_dir_head d h p : slash ∉ s2l d -> slash ∉ s2l h ->
  p <> [] -> in_dir d (as_posix (h :: p)) = bool_decide (h = d).
Proof.
  intros Hd Hh Hp. unfold in_dir. rewrite as_posix_cons by done.
  set (rest := String.append "/" (as_posix p)).
  assert (Hr : s2l rest = slash :: s2l (as_posix p)) by done.
  rewrite (bool_decide_false (String.append h rest = d)).
  2: { intros E. apply Hd. rewrite <- E, s2l_app, Hr. set_solver. }
  cbn [orb]. apply bool_decide_ext. split.
  - intros [r E]. apply str_after_some in E. apply (f_equal s2l) in E. rewrite !s2l_app, Hr in E.
    change (s2l "/") with [slash] in E. rewrite <- app_assoc in E. cbn [app] in E.
    apply first_part in E; [|done..]. by rewrite <- (l2s_s2l h), E, l2s_s2l.
  - intros ->. exists (as_posix p). unfold str_after, rest.
    assert (s2l (String.append d (String.append "/" (as_posix p))) = s2l (String.append d "/") ++ s2l (as_posix p))
      as -> by (rewrite !s2l_app, <- app_assoc; done).
    rewrite skip_prefix_app. cbn. by rewrite l2s_s2l.
Qed.

Lemma iso_date_shape l d : iso_date l = Some d -> iso_shape l = true /\ length l = 10%nat.
Proof.
  unfold iso_date. destruct (iso_shape l) eqn:E; [|done]. intros _. split; [done|].
  do 11 (destruct l as [|? l]; try done).
Qed.

Lemma l1_dt_match_dt l r : iso_shape l = true -> length l = 10%nat -> r = [] ->
  l1_dt_match (s2l "dt=" ++ l ++ s2l PARQUET ++ r) = Some l.
Proof.
  intros Hs Hl ->. unfold l1_dt_match. rewrite skip_prefix_app. cbn [mbind option_bind].
  rewrite app_nil_r, <- Hl, drop_app_length, take_app_length.
  rewrite <- (app_nil_r (s2l PARQUET)), skip_prefix_app. cbn [mbind option_bind].
  by rewrite Hs, bool_decide_true.
Qed.

Lemma l1_dt_match_some nm l : l1_dt_match nm = Some l ->
  exists nl, nm = s2l "dt=" ++ l ++ s2l PARQUET ++ nl /\ (nl = [] \/ nl = ["010"%char]).
Proof.
  unfold l1_dt_match. destruct (skip_prefix _ nm) as [r|] eqn:E1; [|done]. cbn [mbind option_bind].
  destruct (skip_prefix (s2l PARQUET) (drop 10 r)) as [tl|] eqn:E2; [|done]. cbn [mbind option_bind].
  destruct (iso_shape (take 10 r) && _) eqn:E3; [|done]. intros [= <-]. exists tl.
  apply skip_prefix_some in E1, E2. apply andb_true_iff in E3 as [_ E3].
  apply orb_true_iff in E3 as [?%bool_decide_eq_true|?%bool_decide_eq_true]; rewrite <- E2, take_drop; auto.
Qed.

Lemma split_on_not_nil c l : split_on c l <> [].
Proof. destruct l as [|x l]; cbn; [done|]. case_decide; [done|]. by destruct (split_on c l). Qed.

Lemma iso_chars l c : iso_shape l = true -> char_digit c = None -> c <> "-"%char -> c ∉ l.
Proof.
  intros H Hd Hc Hin. destruct l as [|y1 [|y2 [|y3 [|y4 [|s1 [|m1 [|m2 [|s2 [|d1 [|d2 [|]]]]]]]]]]]; try done.
  unfold iso_shape, all_digits in H. rewrite !andb_true_iff, !bool_decide_eq_true, forallb_forall in H.
  destruct H as [[H ->] ->].
  assert (H' : forall x, In x [y1; y2; y3; y4; m1; m2; d1; d2] -> x <> c).
  { intros x Hx ->. specialize (H c Hx). by rewrite Hd in H. }
  pose proof (fun Hi => H' c Hi eq_refl) as Hno. apply list_elem_of_In in Hin. cbn [In] in Hin, Hno. intuition congruence.
Qed.

(** ** Properties *)

(** [dt=YYYY-MM-DD] of a calendar date. *)
Definition dt_name (nm : string) : Prop := exists l d, nm = l2s (s2l "dt=" ++ l) /\ iso_date l = Some d.

(** A partition whose L1 object names it again. *)
Definition journal_path (p : path) : Prop :=
  exists h q nm, p = h :: q ++ [nm] /\ Forall clean (h :: q) /\ dt_name nm /\ h <> "snapshot" /\ h <> "derived".

(** No L1 name ends in a newline. *)
Definition one_line (s : string) : Prop := ("010"%char : ascii) ∉ s2l s.

Lemma dt_name_clean nm : dt_name nm -> clean nm /\ one_line nm.
Proof.
  intros (l & d & -> & Hl). apply iso_date_shape in Hl as [Hs _]. unfold clean, one_line.
  rewrite l2s_app, s2l_app, !s2l_l2s. split_and!; [done|done| |].
  - rewrite not_elem_of_app. split; [by apply (bool_decide_unpack _); vm_compute|apply iso_chars; [done|reflexivity|discriminate]].
  - rewrite not_elem_of_app. split; [by apply (bool_decide_unpack _); vm_compute|apply iso_chars; [done|reflexivity|discriminate]].
Qed.

Lemma journal_path_clean p : journal_path p -> Forall clean p /\ p <> [].
Proof.
  intros (h & q & nm & -> & Hc & Hn & _). split; [|done].
  apply Forall_cons in Hc as [? ?]. constructor; [done|].
  apply Forall_app. split; [done|]. constructor; [by apply dt_name_clean|constructor].
Qed.

Lemma l1_relpath_snoc q nm : l1_relpath_for_l0_partition (q ++ [nm]) = q ++ [String.append nm PARQUET].
Proof. unfold l1_relpath_for_l0_partition, parent, name. by rewrite removelast_last, last_last. Qed.

Lemma s2l_posix_snoc q c : q <> [] -> s2l (as_posix (q ++ [c])) = s2l (as_posix q) ++ slash :: s2l c.
Proof. intros Hq. destruct q as [|h q]; [done|]. exact (s2l_concat_snoc (h :: q) c Hq). Qed.

(** The L1 object of a partition is the partition's path with a suffix. *)
Lemma l1_repo_of p : p <> [] -> l1_repo_path (l1_relpath_for_l0_partition p) =
  String.append L1_REPO_PREFIX (String.append (as_posix p) PARQUET).
Proof.
  intros Hp. destruct (exists_last Hp) as (q & nm & ->). rewrite l1_relpath_snoc. unfold l1_repo_path. f_equal.
  rewrite <- (l2s_s2l (String.append (as_posix _) _)), s2l_app, <- (l2s_s2l (as_posix (q ++ [String.append _ _]))). f_equal.
  destruct q as [|h q]; [cbn [app as_posix String.concat]; by rewrite s2l_app|].
  by rewrite !s2l_posix_snoc, s2l_app, <- app_assoc.
Qed.

Lemma drop_suffix (l : list ascii) :
  take (length (s2l "dt=" ++ l ++ s2l PARQUET ++ []) - 8) (s2l "dt=" ++ l ++ s2l PARQUET ++ []) = s2l "dt=" ++ l.
Proof.
  rewrite app_nil_r, app_assoc, app_length. change (length (s2l PARQUET)) with 8%nat.
  replace (length (s2l "dt=" ++ l) + 8 - 8)%nat with (length (s2l "dt=" ++ l)) by lia.
  by rewrite take_app_length.
Qed.

Lemma partition_of_l1 p : journal_path p ->
  l0_partition_for_l1 (l1_repo_path (l1_relpath_for_l0_partition p)) = Some (String.append L0_REPO_PREFIX (as_posix p)).
Proof.
  intros (h & q & nm & -> & Hc & Hd & Hs1 & Hs2). pose proof (dt_name_clean nm Hd) as [Hnm _].
  destruct Hd as (l & d & Enm & Hl). destruct (iso_date_shape l d Hl) as [Hshape Hlen].
  assert (Ex : s2l (String.append nm PARQUET) = s2l "dt=" ++ l ++ s2l PARQUET ++ []).
  { by rewrite s2l_app, Enm, s2l_l2s, <- app_assoc, app_nil_r. }
  change (h :: q ++ [nm]) with ((h :: q) ++ [nm]). rewrite l1_relpath_snoc.
  unfold l0_partition_for_l1, l1_repo_path. rewrite str_after_app. cbn [mbind option_bind].
  apply Forall_cons in Hc as [Hh Hq].
  change ((h :: q) ++ [String.append nm PARQUET]) with (h :: q ++ [String.append nm PARQUET]).
  rewrite !in_dir_head by first [apply Hh | by destruct q | by apply (bool_decide_unpack _); vm_compute].
  rewrite !bool_decide_false by done. cbn [orb].
  change (h :: q ++ [String.append nm PARQUET]) with ((h :: q) ++ [String.append nm PARQUET]).
  rewrite s2l_posix_snoc, rpartition_app by (done || (rewrite s2l_app, not_elem_of_app; split;
    [apply Hnm | by apply (bool_decide_unpack _); vm_compute])).
  cbn [mbind option_bind]. rewrite bool_decide_false.
  2: { destruct h; [by destruct Hh|]. by destruct q. }
  rewrite Ex, l1_dt_match_dt by done. cbn [mbind option_bind]. rewrite Hl. cbn [mbind option_bind].
  do 2 f_equal. rewrite <- (l2s_s2l (as_posix ((h :: q) ++ [nm]))), s2l_posix_snoc, l2s_app by done. f_equal.
  change (slash :: s2l nm) with (s2l "/" ++ s2l nm). rewrite l2s_app, l2s_s2l. f_equal. f_equal.
  by rewrite drop_suffix, Enm, s2l_l2s.
Qed.

Lemma l1_of_partition s t : one_line s ->
  l0_partition_for_l1 s = Some (String.append L0_REPO_PREFIX t) ->
  s = String.append L1_REPO_PREFIX (String.append t PARQUET).
Proof.
  intros Hs. unfold l0_partition_for_l1. destruct (str_after _ s) as [rest|] eqn:E1; [|done]. cbn [mbind option_bind].
  apply str_after_some in E1 as ->.
  destruct (_ || _); [done|]. destruct (rpartition slash (s2l rest)) as [[par nm]|] eqn:E2; [|done]. cbn [mbind option_bind].
  apply rpartition_some in E2. case_bool_decide; [done|].
  destruct (l1_dt_match nm) as [day|] eqn:E3; [|done]. cbn [mbind option_bind].
  destruct (iso_date day) as [d|] eqn:E4; [|done]. cbn [mbind option_bind]. intros [= Ht].
  apply l1_dt_match_some in E3 as (nl & -> & Hnl).
  assert (nl = []) as ->.
  { destruct Hnl as [->| ->]; [done|]. exfalso. apply Hs. rewrite s2l_app, E2. set_solver. }
  change (String.append EmptyString t) with t in Ht. f_equal. rewrite drop_suffix in Ht. rewrite <- (l2s_s2l rest), E2, <- (l2s_s2l (String.append t PARQUET)), <- Ht.
  f_equal. rewrite !s2l_app, !s2l_l2s, app_nil_r, <- app_assoc. cbn. by rewrite <- app_assoc.
Qed.

(** The names of the lake agree: the L1 object made from a journal partition
    names exactly that partition again when its remote copy authorises the
    deletion, no other object names it, and writing a partition path as text and
    reading it back is the identity. *)
Theorem l1_names_partition p s :
  journal_path p ->
  l0_partition_for_l1 (l1_repo_path (l1_relpath_for_l0_partition p)) = Some (String.append L0_REPO_PREFIX (as_posix p)) /\
  posix_parts (as_posix p) = p /\
  (one_line s -> l0_partition_for_l1 s = Some (String.append L0_REPO_PREFIX (as_posix p)) ->
   s = l1_repo_path (l1_relpath_for_l0_partition p)).
Proof.
  intros Hp. destruct (journal_path_clean p Hp) as [Hcl Hne].
  split_and!; [|by apply posix_roundtrip|].
  - by apply partition_of_l1.
  - intros Hs E. by rewrite (l1_of_partition s _ Hs E), l1_repo_of.
Qed.

Lemma posix_parts_clean c : clean c -> posix_parts c = [c].
Proof.
  intros Hc. change c with (as_posix [c]) at 1. apply posix_roundtrip; [by constructor|done].
Qed.

Lemma session_value_clean s : clean (session_value s).
Proof. by destruct s; split_and!; try done; apply (bool_decide_unpack _); vm_compute. Qed.

Lemma mvenue_value_clean v : clean (mvenue_value v).
Proof. by destruct v; split_and!; try done; apply (bool_decide_unpack _); vm_compute. Qed.

(** The defaults for records that carry no route are read back off the partition's path. *)
Lemma route_of_key k :
  clean (k_vendor k) -> clean (k_stream k) -> dt_name (String.append "dt=" (date_isoformat (k_day k))) ->
  route_for_l0_partition (l0_partition_relpath k) = mkRoute (mvenue_value (k_venue k)) (k_session k) (k_stream k).
Proof.
  intros Hv Hs [Hd _]%dt_name_clean. unfold l0_partition_relpath. cbn [map concat].
  rewrite !posix_parts_clean by eauto using session_value_clean, mvenue_value_clean.
  unfold route_for_l0_partition. cbn. by destruct (k_session k).
Qed.

Lemma l1_names_partition_witness :
  let p := ["ls"; "krx"; "regular"; "H0STCNT0"; "dt=2026-09-18"] in
  l0_partition_for_l1 "l1/ls/krx/regular/H0STCNT0/dt=2026-09-18.parquet"
    = Some "l0/ls/krx/regular/H0STCNT0/dt=2026-09-18".
Proof.
  assert (H := l1_names_partition ["ls"; "krx"; "regular"; "H0STCNT0"; "dt=2026-09-18"] ""
    ltac:(exists "ls", ["krx"; "regular"; "H0STCNT0"], "dt=2026-09-18"; split_and!;
      [done
      | repeat constructor; try done; apply (bool_decide_unpack _); vm_compute; exact I
      | exists (s2l "2026-09-18"), (days_of_civil 2026 9 18); split; vm_compute; reflexivity
      | done | done])).
  vm_compute in H. vm_compute. exact (proj1 H).
Defined.
