(* ===== verification/Calendar.v ===== *)
(** * Calendar dates and their ISO text

    The proleptic Gregorian calendar of [PyTime] is a bijection, so that every date
    of Python's range prints as a text that [fromisoformat] reads back. The path and
    retention components rely on it. *)
From Stdlib Require Import Ascii.
From S2P Require Import Prelude PyStr PyTime Layout.

(** ** The calendar *)

(** A day of a 400-year era is a day of one of its years, counted from March. *)
Lemma era_day doe : 0 <= doe < 146097 ->
  let yoe := (doe - doe / 1460 + doe / 36524 - doe / 146096) / 365 in
  let doy := doe - (365 * yoe + yoe / 4 - yoe / 100) in
  0 <= yoe < 400 /\ 0 <= doy <= 365 /\ (doy = 365 -> leap (yoe + 1) = true).
Proof.
  intros H yoe doy.
  assert (Hy : 0 <= yoe < 400).
  { subst yoe. Z.to_euclidean_division_equations; lia. }
  split; [exact Hy|]. assert (0 <= doy <= 365) as Hd by (subst doy yoe; Z.to_euclidean_division_equations; lia).
  split; [exact Hd|]. intros E. unfold leap. apply andb_true_iff. split.
  - apply Z.eqb_eq. subst doy yoe. Z.to_euclidean_division_equations; lia.
  - apply orb_true_iff. destruct (decide ((yoe + 1) mod 100 = 0)) as [E2|?]; [right|left; by apply negb_true_iff, Z.eqb_neq].
    apply Z.eqb_eq. subst doy yoe. Z.to_euclidean_division_equations; lia.
Qed.

(** A day of a year counted from March is a day of one of its months. *)
Lemma year_day doy : 0 <= doy <= 365 ->
  let mp := (5 * doy + 2) / 153 in
  let d := doy - (153 * mp + 2) / 5 + 1 in
  let m := if mp <? 10 then mp + 3 else mp - 9 in
  0 <= mp <= 11 /\ 1 <= d /\ (m = 2 -> d <= 28 \/ (d = 29 /\ doy = 365)) /\
  (m <> 2 -> d <= if (m =? 4) || (m =? 6) || (m =? 9) || (m =? 11) then 30 else 31).
Proof.
  intros H. assert (Hc : forallb (fun n =>
    let doy := Z.of_nat n in
    let mp := (5 * doy + 2) / 153 in
    let d := doy - (153 * mp + 2) / 5 + 1 in
    let m := if mp <? 10 then mp + 3 else mp - 9 in
    bool_decide (0 <= mp <= 11 /\ 1 <= d /\ (m = 2 -> d <= 28 \/ (d = 29 /\ doy = 365)) /\
      (m <> 2 -> d <= if (m =? 4) || (m =? 6) || (m =? 9) || (m =? 11) then 30 else 31))) (seq 0 366) = true)
    by (vm_compute; reflexivity).
  rewrite forallb_forall in Hc. specialize (Hc (Z.to_nat doy) ltac:(apply in_seq; lia)). cbv zeta in Hc.
  rewrite Z2Nat.id in Hc by lia. by apply bool_decide_eq_true in Hc.
Qed.

Lemma leap_era y e : leap (y + e * 400) = leap y.
Proof.
  unfold leap.
  replace ((y + e * 400) mod 4) with (y mod 4) by (rewrite <- (Z.mod_add y (e * 100) 4) by lia; f_equal; lia).
  replace ((y + e * 400) mod 100) with (y mod 100) by (rewrite <- (Z.mod_add y (e * 4) 100) by lia; f_equal; lia).
  by rewrite Z.mod_add by lia.
Qed.

(** The fields of a date are in range and give the date back. *)
Lemma civil_bijection date :
  let '(y, m, d) := civil_of_days date in
  1 <= m <= 12 /\ 1 <= d <= days_in_month y m /\ days_of_civil y m d = date.
Proof.
  unfold civil_of_days. cbv zeta. set (z := date + 719468). set (era := z / 146097).
  set (doe := z - era * 146097).
  assert (Hdoe : 0 <= doe < 146097) by (subst doe era; Z.to_euclidean_division_equations; lia).
  destruct (era_day doe Hdoe) as (Hy & Hd & Hleap).
  set (yoe := (doe - doe / 1460 + doe / 36524 - doe / 146096) / 365) in *.
  set (doy := doe - (365 * yoe + yoe / 4 - yoe / 100)) in *.
  destruct (year_day doy Hd) as (Hmp & Hd1 & H2 & Hn2).
  set (mp := (5 * doy + 2) / 153) in *. set (d := doy - (153 * mp + 2) / 5 + 1) in *.
  set (m := if mp <? 10 then mp + 3 else mp - 9) in *.
  assert (Hm : 1 <= m <= 12 /\ (if 2 <? m then m - 3 else m + 9) = mp).
  { subst m. destruct (mp <? 10) eqn:E; bprop; [destruct (Z.ltb_spec 2 (mp + 3))|destruct (Z.ltb_spec 2 (mp - 9))]; lia. }
  destruct Hm as (Hm & Hmp'). split; [done|]. split.
  - split; [done|]. unfold days_in_month. destruct (m =? 2) eqn:E2; bprop; [|by apply Hn2].
    rewrite E2. change (2 <=? 2) with true. cbv iota. destruct (H2 E2) as [Hle|[-> E3]]; [revert Hle; generalize d; clear; intros d Hd; destruct (leap _); lia|].
    replace (yoe + era * 400 + 1) with (yoe + 1 + era * 400) by lia. by rewrite leap_era, Hleap.
  - unfold days_of_civil. rewrite Hmp'.
    replace (if m <=? 2 then yoe + era * 400 + (if m <=? 2 then 1 else 0) - 1
             else yoe + era * 400 + (if m <=? 2 then 1 else 0)) with (yoe + era * 400) by (destruct (m <=? 2); lia).
    rewrite Z.div_add, (Z.div_small yoe), Z.add_0_l by lia.
    replace (yoe + era * 400 - era * 400) with yoe by lia.
    assert (E1 : doy = doe - (365 * yoe + yoe / 4 - yoe / 100)) by done.
    assert (E2 : d = doy - (153 * mp + 2) / 5 + 1) by done. assert (E3 : doe = date + 719468 - era * 146097) by done.
    clearbody d m mp doy yoe doe era. lia.
Qed.

(** Python's dates, from [date.min] to [date.max]. *)
Definition date_ok (day : Z) : bool := (-719162 <=? day) && (day <=? 2932896).

Lemma civil_year date : date_ok date = true -> let '(y, _, _) := civil_of_days date in 1 <= y <= 9999.
Proof.
  unfold date_ok. intros H. bprop. pose proof (civil_bijection date) as Hb.
  destruct (civil_of_days date) as [[y m] d]. destruct Hb as (Hm & Hd & Hb).
  assert (d <= 31) by (unfold days_in_month in Hd; repeat case_match; lia).
  unfold days_of_civil in Hb. revert Hb.
  destruct (Z.leb_spec m 2), (Z.ltb_spec 2 m); try lia; cbv zeta; intros Hb;
    Z.to_euclidean_division_equations; lia.
Qed.

(** [date.fromisoformat(day.isoformat()) == day]. *)
Lemma iso_date_isoformat day : date_ok day = true -> iso_date (s2l (date_isoformat day)) = Some day.
Proof.
  intros Hd. pose proof (civil_bijection day) as Hb. pose proof (civil_year day Hd) as Hy.
  unfold date_isoformat. destruct (civil_of_days day) as [[y m] d]. destruct Hb as (Hm & Hdd & Hb).
  assert (Hd31 : d <= 31) by (unfold days_in_month in Hdd; repeat case_match; lia).
  unfold str_pad. rewrite !s2l_app, !s2l_l2s.
  pose proof (pad_chars_length 4 y ltac:(lia) ltac:(lia)) as Ly. pose proof (pad_chars_length 2 m ltac:(lia) ltac:(lia)) as Lm.
  pose proof (pad_chars_length 2 d ltac:(lia) ltac:(lia)) as Ld.
  pose proof (chars_val_pad 4 y ltac:(lia)) as Vy. pose proof (chars_val_pad 2 m ltac:(lia)) as Vm.
  pose proof (chars_val_pad 2 d ltac:(lia)) as Vd.
  pose proof (pad_chars_digits 4 y ltac:(lia)) as Fy. pose proof (pad_chars_digits 2 m ltac:(lia)) as Fm.
  pose proof (pad_chars_digits 2 d ltac:(lia)) as Fd.
  destruct (pad_chars 4 y) as [|y1 [|y2 [|y3 [|y4 [|]]]]]; try discriminate.
  destruct (pad_chars 2 m) as [|m1 [|m2 [|]]]; try discriminate.
  destruct (pad_chars 2 d) as [|d1 [|d2 [|]]]; try discriminate.
  change (s2l "-") with ["-"%char]. cbn [app]. unfold iso_date. cbn [take drop]. rewrite Vy, Vm, Vd.
  assert (iso_shape [y1; y2; y3; y4; "-"%char; m1; m2; "-"%char; d1; d2] = true) as ->.
  { unfold iso_shape. rewrite !bool_decide_true by done. rewrite !andb_true_r. apply all_digits_forall; [done|].
    change (Forall (fun c => is_Some (char_digit c)) ([y1; y2; y3; y4] ++ [m1; m2] ++ [d1; d2])). by rewrite !Forall_app. }
  rewrite Hb. cbn [andb].
  repeat match goal with |- context [?a <=? ?b] => rewrite (proj2 (Z.leb_le a b)) by lia end. done.
Qed.
