(* ===== verification/Retention.v ===== *)
(** * Retention of journals and archives ([src/storage/retention.py])

    The local lake is a tree of L0 journal partitions, a tree of L1 archive
    objects and a quarantine tree. A prune pass goes over the partitions older
    than the cutoff, has each normalized into its L1 object or reuses a fresh
    one, and deletes the partition when its L1 object was verified remotely. The
    normalizer, the Parquet footer reader and the repair hold are arguments. *)
From Stdlib Require Import Ascii.
From S2P Require Import Prelude PyStr PyTime Layout.

(** ** The lake *)

Record LFile := mkFile { f_mtime : Z; f_bytes : string }.

(** Paths are relative to the root of their tree; [lk_dirs] are the directories
    of the journal tree in the order [rglob] yields them. *)
Record Lake := mkLake {
  lk_dirs : list path;
  lk_l0 : list (path * LFile);
  lk_l1 : list (path * LFile);
  lk_qdirs : list path;
  lk_quar : list (path * LFile)
}.

Definition under (part p : path) : bool := bool_decide (take (length part) p = part).

(** [part.rglob("*")] restricted to files. *)
Definition files_of (part : path) (lk : Lake) : list (path * LFile) :=
  List.filter (fun kv => under part (fst kv)) (lk_l0 lk).

(** [shutil.rmtree]. *)
Definition rm_tree (part : path) (lk : Lake) : Lake :=
  mkLake (List.filter (fun d => negb (under part d)) (lk_dirs lk))
    (List.filter (fun kv => negb (under part (fst kv))) (lk_l0 lk)) (lk_l1 lk) (lk_qdirs lk) (lk_quar lk).

Definition put_l1 (out : path) (f : option LFile) (lk : Lake) : Lake :=
  mkLake (lk_dirs lk) (lk_l0 lk)
    (match f with Some f => dset (lk_l1 lk) out f | None => ddel (lk_l1 lk) out end) (lk_qdirs lk) (lk_quar lk).

(** [dest.parent.mkdir(parents=True, exist_ok=True)]. *)
Definition mkdirs (dest : path) (lk : Lake) : Lake :=
  let made := map (fun n => take n dest) (seq 1 (length dest - 1)) in
  mkLake (lk_dirs lk) (lk_l0 lk) (lk_l1 lk) (foldr set_add (lk_qdirs lk) made) (lk_quar lk).

Definition in_quarantine (dest : path) (lk : Lake) : bool :=
  bool_decide (dest ∈ lk_qdirs lk) || dmem (lk_quar lk) dest.

(** [shutil.move] of a partition to the same path of the quarantine. *)
Definition move_tree (part : path) (lk : Lake) : Lake :=
  rm_tree part
    (mkLake (lk_dirs lk) (lk_l0 lk) (lk_l1 lk) (lk_qdirs lk ++ List.filter (under part) (lk_dirs lk))
       (lk_quar lk ++ files_of part lk)).

(** ** Exceptions and outcomes *)

(** By the handlers that tell them apart: [ValueError], [OSError], a
    [RemoteArchiveError], another [KrxAlphaError], any other. *)
Inductive exc := X_value | X_os | X_remote | X_krx | X_other.

(** What the normalizer does: a row count, or one of the three failures the pass
    handles, or another exception. *)
Inductive norm_out := N_rows (n : Z) | N_storage_io | N_worker_crash | N_bad | N_raise (e : exc).

(** ** Prune statistics and state *)

Record Prune := mkPrune {
  pr_lake : Lake; pr_deleted : Z; pr_normalized : Z; pr_failed : Z; pr_reused : Z;
  pr_invalidated : list string; pr_held : list string
}.

Abbreviation pruner := (stx Prune exc).

Definition set_lake (lk : Lake) (s : Prune) : Prune :=
  mkPrune lk (pr_deleted s) (pr_normalized s) (pr_failed s) (pr_reused s) (pr_invalidated s) (pr_held s).
Definition add_deleted (n : Z) : pruner unit := smod (fun s =>
  mkPrune (pr_lake s) (pr_deleted s + n) (pr_normalized s) (pr_failed s) (pr_reused s) (pr_invalidated s) (pr_held s)).
Definition add_normalized : pruner unit := smod (fun s =>
  mkPrune (pr_lake s) (pr_deleted s) (pr_normalized s + 1) (pr_failed s) (pr_reused s) (pr_invalidated s) (pr_held s)).
Definition add_failed : pruner unit := smod (fun s =>
  mkPrune (pr_lake s) (pr_deleted s) (pr_normalized s) (pr_failed s + 1) (pr_reused s) (pr_invalidated s) (pr_held s)).
Definition add_reused : pruner unit := smod (fun s =>
  mkPrune (pr_lake s) (pr_deleted s) (pr_normalized s) (pr_failed s) (pr_reused s + 1) (pr_invalidated s) (pr_held s)).
Definition add_invalidated (rel : string) : pruner unit := smod (fun s =>
  mkPrune (pr_lake s) (pr_deleted s) (pr_normalized s) (pr_failed s) (pr_reused s)
    (set_add rel (pr_invalidated s)) (pr_held s)).
Definition add_held (rel : string) : pruner unit := smod (fun s =>
  mkPrune (pr_lake s) (pr_deleted s) (pr_normalized s) (pr_failed s) (pr_reused s) (pr_invalidated s)
    (set_add rel (pr_held s))).

Definition new_prune (lk : Lake) : Prune := mkPrune lk 0 0 0 0 [] [].

(** [_DT_RE.fullmatch(name)]: the date text. *)
Definition dt_fullmatch (nm : string) : option (list ascii) :=
  r ← skip_prefix (s2l "dt=") (s2l nm); if iso_shape r then Some r else None.

(** [_DT_RE.search(name)]. *)
Fixpoint dt_search (l : list ascii) : option (list ascii) :=
  match skip_prefix (s2l "dt=") l with
  | Some r =>
      if iso_shape (take 10 r) then Some (take 10 r)
      else match l with [] => None | _ :: l' => dt_search l' end
  | None => match l with [] => None | _ :: l' => dt_search l' end
  end.

(** [max(mtimes, default=None)]. *)
Fixpoint newest (fs : list (path * LFile)) : option Z :=
  match fs with
  | [] => None
  | kv :: fs' =>
      Some (match newest fs' with Some m => Z.max (f_mtime (snd kv)) m | None => f_mtime (snd kv) end)
  end.

Section Prune.
(** The row count in a Parquet footer; [None] when it cannot be read. *)
Context (pq_rows : string -> option Z).
(** The normalizer sees the files of the partition and the L1 object at its
    output path, and leaves an object there or none. *)
Context (normalizer : path -> list (path * LFile) -> option LFile -> option LFile * norm_out).
Context (cutoff : Z) (quarantine : bool) (verified : option (list string)) (normalize reuse : bool).
Context (hold : path -> option string).

(** [_reusable_l1_rows]. *)
Definition reusable_l1_rows (part out : path) (lk : Lake) : option Z :=
  f ← dget (lk_l1 lk) out;
  let stale := match newest (files_of part lk) with Some m => f_mtime f <? m | None => false end in
  if stale then None
  else
    n ← pq_rows (f_bytes f);
    if n <=? 0 then None else Some n.

Definition is_verified (rel : string) : bool :=
  match verified with None => false | Some s => bool_decide (rel ∈ s) end.

(** The files are counted, then the tree is removed; a missing tree is an [OSError]. *)
Definition remove_partition (part : path) : pruner unit :=
  (s <- sget;;
   add_deleted (zlen (files_of part (pr_lake s)));;;
   if decide (part ∈ lk_dirs (pr_lake s)) then smod (fun s => set_lake (rm_tree part (pr_lake s)) s)
   else sraise X_os)%py.

Definition delete_unless_held (part : path) (rel : string) : pruner unit :=
  match hold part with
  | Some _ => add_held rel
  | None => remove_partition part
  end.

Definition quarantine_partition (part : path) : pruner unit :=
  (s <- sget;;
   if in_quarantine part (pr_lake s) then sret tt
   else
     smod (fun s => set_lake (mkdirs part (pr_lake s)) s);;;
     if decide (part ∈ lk_dirs (pr_lake s)) then smod (fun s => set_lake (move_tree part (pr_lake s)) s)
     else sraise X_os)%py.

Definition run_normalizer (part out : path) : pruner norm_out := fun s =>
  let lk := pr_lake s in
  let '(f, o) := normalizer part (files_of part lk) (dget (lk_l1 lk) out) in
  (set_lake (put_l1 out f lk) s, Ok o).

(** The branch that normalizes. *)
Definition normalize_partition (part out : path) (rel : string) : pruner unit :=
  (o <- run_normalizer part out;;
   match o with
   | N_storage_io | N_worker_crash => add_failed
   | N_bad => add_failed;;; if quarantine then quarantine_partition part else sret tt
   | N_raise e => sraise e
   | N_rows n =>
       s <- sget;;
       if (n <=? 0) || negb (dmem (lk_l1 (pr_lake s)) out) then sret tt
       else
         add_normalized;;;
         if reuse then sret tt
         else if is_verified rel then delete_unless_held part rel else sret tt
   end)%py.

(** The body of the loop for a partition older than the cutoff. *)
Definition prune_partition (part : path) : pruner unit :=
  let out := l1_relpath_for_l0_partition part in
  let rel := l1_repo_path out in
  (s <- sget;;
   if negb normalize then
     if dmem (lk_l1 (pr_lake s)) out && is_verified rel then remove_partition part else sret tt
   else
     match (if reuse then reusable_l1_rows part out (pr_lake s) else None) with
     | Some _ =>
         add_normalized;;;
         add_reused;;;
         if is_verified rel then delete_unless_held part rel else sret tt
     | None =>
         (if reuse then add_invalidated rel else sret tt);;;
         normalize_partition part out rel
     end)%py.

(** One partition; a name that is no calendar date raises [ValueError]. *)
Definition prune_one (part : path) : pruner unit :=
  match dt_fullmatch (name part) with
  | None => sret tt
  | Some text =>
      match iso_date text with
      | None => sraise X_value
      | Some day => if cutoff <=? day then sret tt else prune_partition part
      end
  end.

(** [journal_base.rglob("dt=*")] restricted to directories. *)
Definition partitions (lk : Lake) : list path :=
  List.filter (fun p => bool_decide (is_Some (str_after "dt=" (name p)))) (lk_dirs lk).

Definition prune_old_journals (lk : Lake) : Prune * res exc unit :=
  each prune_one (partitions lk) (new_prune lk).
End Prune.

(** ** Local archive objects *)

(** [PurePath] order. *)
Fixpoint path_leb (a b : path) : bool :=
  match a, b with
  | [], _ => true
  | _ :: _, [] => false
  | x :: a', y :: b' => str_ltb x y || (bool_decide (x = y) && path_leb a' b')
  end.

Definition is_parquet (p : path) : bool :=
  match skip_prefix (rev (s2l PARQUET)) (rev (s2l (name p))) with Some _ => true | None => false end.

(** [sorted(root.rglob("*.parquet"))]. *)
Definition parquet_paths (files : list (path * LFile)) : list path :=
  py_sorted path_leb (List.filter is_parquet (map fst files)).

(** The date of an L1 object: in its name, or its directory's below the tick tape. *)
Definition l1_date_text (p : path) : option (list ascii) :=
  match dt_search (s2l (name p)) with
  | Some t => Some t
  | None =>
      if under ["history"; "tick_tape"; "kiwoom"] p then dt_fullmatch (name (parent p)) else None
  end.

(** The L1 files and the count of purged objects. *)
Fixpoint prune_l1_loop (cutoff : Z) (confirmed : list string) (ps : list path)
    (files : list (path * LFile)) (purged : Z) : list (path * LFile) * res exc Z :=
  match ps with
  | [] => (files, Ok purged)
  | p :: ps' =>
      match l1_date_text p with
      | None => prune_l1_loop cutoff confirmed ps' files purged
      | Some text =>
          match iso_date text with
          | None => (files, Raise X_value)
          | Some day =>
              if (cutoff <=? day) || negb (bool_decide (l1_repo_path p ∈ confirmed))
              then prune_l1_loop cutoff confirmed ps' files purged
              else prune_l1_loop cutoff confirmed ps' (ddel files p) (purged + 1)
          end
      end
  end.

Definition prune_local_l1 (cutoff : Z) (confirmed : option (list string)) (files : list (path * LFile))
    : list (path * LFile) * res exc Z :=
  match confirmed with
  | None => (files, Ok 0)
  | Some c => prune_l1_loop cutoff c (parquet_paths files) files 0
  end.
