(* ===== verification/RetentionFacts.v ===== *)
(** * What retention deletes

    The steps a prune pass takes on the lake, and what they leave of every
    journal file. *)
From S2P Require Import Prelude PyStr PyTime Layout Retention.

(** ** Lake lemmas *)

Lemma under_refl p : under p p = true.
Proof. unfold under. apply bool_decide_eq_true. by rewrite firstn_all. Qed.

Lemma under_prefix part p : under part p = true <-> part `prefix_of` p.
Proof.
  unfold under. rewrite bool_decide_eq_true. split.
  - intros E. exists (drop (length part) p). by rewrite <- E at 1; rewrite take_drop.
  - intros [k ->]. by rewrite take_app_length.
Qed.

Lemma files_of_elem part lk q f : (q, f) ∈ files_of part lk <-> (q, f) ∈ lk_l0 lk /\ under part q = true.
Proof. unfold files_of. by rewrite filter_elem. Qed.

Lemma rm_tree_elem part lk q f : (q, f) ∈ lk_l0 (rm_tree part lk) <-> (q, f) ∈ lk_l0 lk /\ under part q = false.
Proof. cbn. rewrite filter_elem. cbn. by rewrite negb_true_iff. Qed.

(** The L1 object of a partition determines it. *)
Lemma string_app_inj a b c : String.append a c = String.append b c -> a = b.
Proof.
  intros E. apply (f_equal s2l) in E. rewrite !s2l_app in E. apply app_inv_tail in E.
  by rewrite <- (l2s_s2l a), E, l2s_s2l.
Qed.

Lemma l1_relpath_inj p q : p <> [] -> q <> [] ->
  l1_relpath_for_l0_partition p = l1_relpath_for_l0_partition q -> p = q.
Proof.
  intros Hp Hq. destruct (exists_last Hp) as (a & x & ->), (exists_last Hq) as (b & y & ->).
  rewrite !l1_relpath_snoc. intros [-> E]%app_inj_tail. by apply string_app_inj in E as ->.
Qed.

Lemma dget_put_l1 out f lk p : NoDup (dkeys (lk_l1 lk)) ->
  dget (lk_l1 (put_l1 out f lk)) p = if decide (p = out) then f else dget (lk_l1 lk) p.
Proof.
  intros Hn. cbn. case_decide as E; subst.
  - destruct f; [by rewrite dget_dset_eq|by rewrite dget_ddel_eq].
  - destruct f; [by rewrite dget_dset_ne|by rewrite dget_ddel_ne].
Qed.

Lemma put_l1_nodup out f lk : NoDup (dkeys (lk_l1 lk)) -> NoDup (dkeys (lk_l1 (put_l1 out f lk))).
Proof.
  intros Hn. destruct f; cbn; [by apply dkeys_dset_nodup|]. eapply sublist_NoDup; [|apply dkeys_ddel_sub]. done.
Qed.

Lemma newest_none fs : newest fs = None -> fs = [].
Proof. destruct fs as [|kv fs]; cbn; [done|]. by destruct (newest fs). Qed.

Lemma newest_max fs q f : forall m, newest fs = Some m -> (q, f) ∈ fs -> f_mtime f <= m.
Proof.
  induction fs as [|[q' g] fs IH]; cbn; intros m; [done|]. intros [= <-] Hin. apply elem_of_cons in Hin as [E|Hin].
  - injection E as -> ->. destruct (newest fs); lia.
  - destruct (newest fs) as [m'|] eqn:E; [specialize (IH m' eq_refl Hin); lia|].
    apply newest_none in E as ->. by apply elem_of_nil in Hin.
Qed.

(** ** The steps of a pass *)

Section Steps.
Context (pq_rows : string -> option Z).
Context (normalizer : path -> list (path * LFile) -> option LFile -> option LFile * norm_out).
Context (cutoff : Z) (quarantine : bool) (verified : option (list string)) (normalize reuse : bool).
Context (hold : path -> option string).

Let out (part : path) : path := l1_relpath_for_l0_partition part.
Let rel (part : path) : string := l1_repo_path (out part).

(** The partition is named by a calendar date before the cutoff. *)
Definition due (part : path) : Prop :=
  exists text day, dt_fullmatch (name part) = Some text /\ iso_date text = Some day /\ day < cutoff.

(** The L1 object a normalization leaves. *)
Definition normalized (part : path) (lk : Lake) : option LFile * norm_out :=
  normalizer part (files_of part lk) (dget (lk_l1 lk) (out part)).

(** Why a partition may be deleted: its L1 object was verified remotely, is not
    held, and is the one the mode of the pass asks for. *)
Inductive authorised (part : path) (lk : Lake) : Lake -> Prop :=
| auth_low_disk g : normalize = false -> dget (lk_l1 lk) (out part) = Some g -> authorised part lk lk
| auth_reuse g : normalize = true -> reuse = true -> hold part = None ->
    dget (lk_l1 lk) (out part) = Some g -> (exists n, pq_rows (f_bytes g) = Some n /\ 0 < n) ->
    (forall q f, (q, f) ∈ files_of part lk -> f_mtime f <= f_mtime g) -> authorised part lk lk
| auth_normalized g n : normalize = true -> reuse = false -> hold part = None ->
    normalized part lk = (Some g, N_rows n) -> 0 < n -> authorised part lk (put_l1 (out part) (Some g) lk).

Inductive pstep (part : path) (lk : Lake) : Lake -> Prop :=
| ps_keep : pstep part lk lk
| ps_normalize : normalize = true -> due part -> pstep part lk (put_l1 (out part) (fst (normalized part lk)) lk)
| ps_mkdirs : normalize = true -> due part -> quarantine = true ->
    pstep part lk (mkdirs part (put_l1 (out part) (fst (normalized part lk)) lk))
| ps_quarantine : normalize = true -> due part -> quarantine = true -> snd (normalized part lk) = N_bad ->
    in_quarantine part lk = false ->
    pstep part lk (move_tree part (mkdirs part (put_l1 (out part) (fst (normalized part lk)) lk)))
| ps_delete lk' : due part -> is_verified verified (rel part) = true -> authorised part lk lk' ->
    part ∈ lk_dirs lk -> pstep part lk (rm_tree part lk').

Lemma remove_partition_lake part s :
  let s' := fst (remove_partition part s) in
  pr_lake s' = pr_lake s \/ (part ∈ lk_dirs (pr_lake s) /\ pr_lake s' = rm_tree part (pr_lake s)).
Proof.
  unfold remove_partition, sbind, sget, add_deleted, smod. cbn. case_decide; cbn; auto.
Qed.

Lemma delete_unless_held_lake part r s :
  let s' := fst (delete_unless_held hold part r s) in
  pr_lake s' = pr_lake s \/
  (hold part = None /\ part ∈ lk_dirs (pr_lake s) /\ pr_lake s' = rm_tree part (pr_lake s)).
Proof.
  unfold delete_unless_held. destruct (hold part) eqn:E; [by left|].
  destruct (remove_partition_lake part s) as [?|[? ?]]; auto.
Qed.

Lemma quarantine_partition_lake part s :
  let s' := fst (quarantine_partition part s) in
  pr_lake s' = pr_lake s \/ pr_lake s' = mkdirs part (pr_lake s) \/
  (in_quarantine part (pr_lake s) = false /\ pr_lake s' = move_tree part (mkdirs part (pr_lake s))).
Proof.
  unfold quarantine_partition, sbind, sget, smod. cbn. destruct (in_quarantine _ _) eqn:E; cbn; [by left|].
  case_decide; cbn; auto.
Qed.

Lemma reusable_spec part lk n : reusable_l1_rows pq_rows part (out part) lk = Some n ->
  exists g, dget (lk_l1 lk) (out part) = Some g /\ (exists n, pq_rows (f_bytes g) = Some n /\ 0 < n) /\
    forall q f, (q, f) ∈ files_of part lk -> f_mtime f <= f_mtime g.
Proof.
  unfold reusable_l1_rows. fold (out part). destruct (dget (lk_l1 lk) (out part)) as [g|]; [|done].
  cbn [mbind option_bind]. intros H. exists g. split; [done|].
  destruct (newest (files_of part lk)) as [m|] eqn:En.
  - destruct (f_mtime g <? m) eqn:Em; [done|]. apply Z.ltb_ge in Em.
    destruct (pq_rows (f_bytes g)) as [r|] eqn:Er; [|done]. cbn [mbind option_bind] in H. destruct (r <=? 0) eqn:Ez; [done|].
    apply Z.leb_gt in Ez. split; [eauto|]. intros q f Hin. pose proof (newest_max _ _ _ _ En Hin). lia.
  - destruct (pq_rows (f_bytes g)) as [r|] eqn:Er; [|done]. cbn [mbind option_bind] in H. destruct (r <=? 0) eqn:Ez; [done|].
    apply Z.leb_gt in Ez. split; [eauto|]. intros q f Hin. apply newest_none in En. rewrite En in Hin.
    by apply elem_of_nil in Hin.
Qed.

Lemma set_lake_set lk s : pr_lake (set_lake lk s) = lk.
Proof. done. Qed.

(** The branch that normalizes, in the state before it. *)
Lemma normalize_partition_step part s : normalize = true -> due part -> NoDup (dkeys (lk_l1 (pr_lake s))) ->
  pstep part (pr_lake s)
    (pr_lake (fst (normalize_partition normalizer quarantine verified reuse hold part (out part) (rel part) s))).
Proof.
  intros Hn Hd Hnd. unfold normalize_partition, sbind, run_normalizer. fold (normalized part (pr_lake s)).
  destruct (normalized part (pr_lake s)) as [f o] eqn:En.
  set (s1 := set_lake (put_l1 (out part) f (pr_lake s)) s).
  assert (Hput : pstep part (pr_lake s) (pr_lake s1)).
  { unfold s1. rewrite set_lake_set. replace f with (fst (normalized part (pr_lake s))) by (by rewrite En). by constructor. }
  destruct o as [n| | | |e]; try exact Hput.
  - unfold sget at 1. destruct ((n <=? 0) || negb (dmem (lk_l1 (pr_lake s1)) (out part))) eqn:Eb; [exact Hput|].
    unfold add_normalized, smod. set (s2 := mkPrune _ _ _ _ _ _ _).
    destruct (bool_decide_reflect (reuse = true)) as [->|Hr]; [exact Hput|]. apply not_true_is_false in Hr. rewrite Hr.
    destruct (is_verified verified (rel part)) eqn:Ev; [|exact Hput].
    destruct (delete_unless_held_lake part (rel part) s2) as [->|(Hh & Hin & ->)]; [exact Hput|].
    bprop. unfold dmem in *. destruct (dget (lk_l1 (pr_lake s1)) (out part)) as [g|] eqn:Eg; [|done].
    change (lk_l1 (pr_lake s1)) with (lk_l1 (put_l1 (out part) f (pr_lake s))) in Eg.
    rewrite dget_put_l1, decide_True in Eg by done. subst f.
    eapply ps_delete; [done..| |exact Hin]. by eapply auth_normalized.
  - unfold add_failed, smod. set (s2 := mkPrune _ _ _ _ _ _ _).
    destruct (bool_decide_reflect (quarantine = true)) as [Hq|Hq].
    2: { apply not_true_is_false in Hq. rewrite Hq. exact Hput. }
    rewrite Hq. assert (Hf : f = fst (normalized part (pr_lake s))) by (by rewrite En).
    destruct (quarantine_partition_lake part s2) as [->|[->|[Hi ->]]]; [exact Hput| |];
      change (pr_lake s2) with (put_l1 (out part) f (pr_lake s)); rewrite Hf; [by apply ps_mkdirs|].
    apply ps_quarantine; [done..|by rewrite En|exact Hi].
Qed.

Lemma prune_one_step part s :
  let s' := fst (prune_one pq_rows normalizer cutoff quarantine verified normalize reuse hold part s) in
  NoDup (dkeys (lk_l1 (pr_lake s))) -> pstep part (pr_lake s) (pr_lake s').
Proof.
  intros s' Hnd. unfold s', prune_one. destruct (dt_fullmatch (name part)) as [text|] eqn:E1; [|by constructor].
  destruct (iso_date text) as [day|] eqn:E2; [|by constructor].
  destruct (cutoff <=? day) eqn:E3; [by constructor|]. apply Z.leb_gt in E3.
  assert (Hdue : due part) by (exists text, day; done).
  unfold prune_partition, sbind, sget. fold (out part) (rel part).
  destruct (bool_decide_reflect (normalize = true)) as [Hn|Hn].
  2: { apply not_true_is_false in Hn. rewrite Hn. cbn [negb].
    destruct (dmem (lk_l1 (pr_lake s)) (out part) && is_verified verified (rel part)) eqn:Eb; [|by constructor].
    bprop. unfold dmem in *. destruct (dget (lk_l1 (pr_lake s)) (out part)) as [g|] eqn:Eg; [|done].
    destruct (remove_partition_lake part s) as [->|[Hin ->]]; [by constructor|].
    eapply ps_delete; [done..| |done]. by eapply auth_low_disk. }
  rewrite Hn. cbn [negb].
  destruct (bool_decide_reflect (reuse = true)) as [Hr|Hr].
  2: { pose proof (normalize_partition_step part s Hn Hdue Hnd) as Hs.
    apply not_true_is_false in Hr. rewrite Hr in Hs |- *. exact Hs. }
  rewrite Hr. destruct (reusable_l1_rows pq_rows part (out part) (pr_lake s)) as [n|] eqn:Er.
  - apply reusable_spec in Er as (g & Eg & Hrows & Hfresh).
    unfold add_normalized, add_reused, smod. set (s2 := mkPrune _ _ _ _ _ _ _).
    destruct (is_verified verified (rel part)) eqn:Ev; [|by constructor].
    destruct (delete_unless_held_lake part (rel part) s2) as [->|(Hh & Hin & ->)]; [by constructor|].
    eapply ps_delete; [done..| |exact Hin]. by eapply auth_reuse.
  - unfold add_invalidated, smod. set (s2 := mkPrune _ _ _ _ _ _ _).
    pose proof (normalize_partition_step part s2 Hn Hdue Hnd) as Hs. rewrite Hr in Hs. exact Hs.
Qed.

(** ** The fate of every journal file *)

(** Why the partition of a deleted file could go, in terms of the object [g] left
    in the archive. *)
Definition origin (lk0 : Lake) (part q : path) (f g : LFile) : Prop :=
  (normalize = false /\ dget (lk_l1 lk0) (out part) = Some g) \/
  (normalize = true /\ reuse = true /\ hold part = None /\ dget (lk_l1 lk0) (out part) = Some g /\
   (exists n, pq_rows (f_bytes g) = Some n /\ 0 < n) /\ f_mtime f <= f_mtime g) \/
  (normalize = true /\ reuse = false /\ hold part = None /\
   exists fs old n, normalizer part fs old = (Some g, N_rows n) /\ 0 < n /\ (q, f) ∈ fs).

Record archived (lk0 lk : Lake) (part q : path) (f : LFile) : Prop := {
  ar_under : under part q = true;
  ar_part : part ∈ partitions lk0;
  ar_due : due part;
  ar_verified : is_verified verified (rel part) = true;
  ar_object : exists g, dget (lk_l1 lk) (out part) = Some g /\ origin lk0 part q f g
}.

Record run_inv (lk0 : Lake) (ps : list path) (lk : Lake) : Prop := {
  ri_keys : NoDup (dkeys (lk_l1 lk));
  ri_sub : forall q f, (q, f) ∈ lk_l0 lk -> (q, f) ∈ lk_l0 lk0;
  ri_same : forall p, p ∈ ps -> dget (lk_l1 lk) (out p) = dget (lk_l1 lk0) (out p);
  ri_todo : NoDup ps /\ (forall p, p ∈ ps -> p <> [] /\ p ∈ partitions lk0);
  ri_quar : forall q f, (q, f) ∈ lk_quar lk0 -> (q, f) ∈ lk_quar lk;
  ri_fate : forall q f, (q, f) ∈ lk_l0 lk0 ->
    (q, f) ∈ lk_l0 lk \/ (normalize = true /\ quarantine = true /\ (q, f) ∈ lk_quar lk) \/
    exists part, part <> [] /\ part ∉ ps /\ archived lk0 lk part q f
}.

Lemma archived_same lk0 lk lk' part q f :
  dget (lk_l1 lk') (out part) = dget (lk_l1 lk) (out part) -> archived lk0 lk part q f -> archived lk0 lk' part q f.
Proof. intros E [? ? ? ? ?]. split; [done..|]. by rewrite E. Qed.

Lemma run_keep lk0 part ps lk : run_inv lk0 (part :: ps) lk -> run_inv lk0 ps lk.
Proof.
  intros [Hk Hs Hsame [[? ?]%NoDup_cons Ht] Hq Hf]. split; [done|done|set_solver|split; [done|set_solver]|done|].
  intros q f Hin. destruct (Hf q f Hin) as [?|[?|(p & ? & ? & ?)]]; [auto..|]. right; right. exists p. set_solver.
Qed.

Lemma run_put lk0 part ps lk f :
  run_inv lk0 (part :: ps) lk -> run_inv lk0 ps (put_l1 (out part) f lk).
Proof.
  intros H. pose proof (run_keep _ _ _ _ H) as [Hk Hs Hsame Ht Hq _].
  destruct H as [_ _ _ [[Hnot _]%NoDup_cons Hne] _ Hf].
  assert (Hother : forall p, p <> [] -> p <> part -> dget (lk_l1 (put_l1 (out part) f lk)) (out p) = dget (lk_l1 lk) (out p)).
  { intros p Hp Hpp. rewrite dget_put_l1, decide_False; [done| |done]. intros E.
    apply l1_relpath_inj in E; [done|done|]. apply Hne. set_solver. }
  split; [by apply put_l1_nodup|done| |done|done|].
  - intros p Hp. rewrite Hother; [by apply Hsame|apply Hne; set_solver|by intros ->].
  - intros q g Hin. destruct (Hf q g Hin) as [?|[?|(p & ? & ? & ?)]]; [auto..|]. right; right. exists p.
    split_and!; [done|set_solver|]. eapply archived_same; [|done]. apply Hother; set_solver.
Qed.

Lemma run_mkdirs lk0 ps lk d : run_inv lk0 ps lk -> run_inv lk0 ps (mkdirs d lk).
Proof.
  intros [? ? ? ? ? Hf]. split; try done. intros q f Hin.
  destruct (Hf q f Hin) as [?|[?|(p & ? & ? & ?)]]; [auto..|]. right; right. exists p. split_and!; [done..|].
  by apply (archived_same _ lk).
Qed.

Lemma run_move lk0 part ps lk : normalize = true -> quarantine = true ->
  run_inv lk0 ps lk -> run_inv lk0 ps (move_tree part lk).
Proof.
  intros Hn Hq [Hk Hs Hsame Ht Hquar Hf]. split; [done| |done|done| |].
  - intros q f [Hin _]%rm_tree_elem. by apply Hs.
  - intros q f Hin. cbn. apply elem_of_app. left. by apply Hquar.
  - intros q f Hin. destruct (Hf q f Hin) as [Hl|[(? & ? & ?)|(p & ? & ? & ?)]].
    + destruct (under part q) eqn:Eu.
      * right; left. split_and!; [done..|]. cbn. apply elem_of_app. right. by apply files_of_elem.
      * left. by apply rm_tree_elem.
    + right; left. split_and!; [done..|]. cbn. apply elem_of_app. by left.
    + right; right. exists p. split_and!; [done..|]. by apply (archived_same _ lk).
Qed.

Lemma run_delete lk0 part ps lk : part <> [] -> part ∉ ps ->
  (forall q f, (q, f) ∈ files_of part lk -> archived lk0 lk part q f) ->
  run_inv lk0 ps lk -> run_inv lk0 ps (rm_tree part lk).
Proof.
  intros Hne Hnot Ha [Hk Hs Hsame Ht Hquar Hf]. split; [done| |done|done|done|].
  - intros q f [Hin _]%rm_tree_elem. by apply Hs.
  - intros q f Hin. destruct (Hf q f Hin) as [Hl|[?|(p & ? & ? & ?)]]; [|by auto|].
    + destruct (under part q) eqn:Eu; [|left; by apply rm_tree_elem].
      right; right. exists part. split_and!; [done..|]. apply (archived_same _ lk); [done|by apply Ha, files_of_elem].
    + right; right. exists p. split_and!; [done..|]. by apply (archived_same _ lk).
Qed.

Lemma pstep_inv lk0 part ps lk lk' : pstep part lk lk' -> run_inv lk0 (part :: ps) lk -> run_inv lk0 ps lk'.
Proof.
  intros Hstep H. pose proof H as [Hk _ Hsame [[Hnot _]%NoDup_cons Hne] _ _].
  destruct (Hne part) as [Hpne Hpart]; [by left|].
  destruct Hstep as [ |? ?|? ? ?|? ? ? ? ?|lk' Hdue Hv Ha Hin].
  - by eapply run_keep.
  - by apply run_put.
  - by apply run_mkdirs, run_put.
  - by apply run_move, run_mkdirs, run_put.
  - assert (Hsame' : dget (lk_l1 lk) (out part) = dget (lk_l1 lk0) (out part)) by (apply Hsame; by left).
    destruct Ha as [g Hn Eg|g Hn Hr Hh Eg Hrows Hfresh|g n Hn Hr Hh En Hpos].
    + apply run_delete; [done..| |by eapply run_keep]. intros q f [Hq Hu]%files_of_elem.
      split; [done..|]. exists g. split; [done|]. left. split; [done|]. by rewrite <- Hsame'.
    + apply run_delete; [done..| |by eapply run_keep]. intros q f Hqf. pose proof Hqf as [Hq Hu]%files_of_elem.
      split; [done..|]. exists g. split; [done|]. right; left. split_and!; [done..|by rewrite <- Hsame'|done|eauto].
    + apply run_delete; [done..| |by apply run_put]. intros q f Hqf. pose proof Hqf as [Hq Hu]%files_of_elem.
      split; [done..|]. exists g. split; [by rewrite dget_put_l1, decide_True|]. right; right. split_and!; [done..|].
      exists (files_of part lk), (dget (lk_l1 lk) (out part)), n. done.
Qed.

(** The lake has one entry per L1 path, one per directory, and its partitions are
    not the root. *)
Record lake_ok (lk : Lake) : Prop := {
  lo_keys : NoDup (dkeys (lk_l1 lk));
  lo_dirs : NoDup (lk_dirs lk)
}.

Lemma partitions_ok lk : lake_ok lk -> NoDup (partitions lk) /\ forall p, p ∈ partitions lk -> p <> [].
Proof.
  intros [_ Hd]. split; [eapply sublist_NoDup; [exact Hd|apply filter_sublist]|].
  intros p [_ Hp]%filter_elem ->. by apply bool_decide_eq_true in Hp as [? ?].
Qed.

Lemma prune_fate lk :
  lake_ok lk ->
  run_inv lk [] (pr_lake (fst (prune_old_journals pq_rows normalizer cutoff quarantine verified normalize reuse hold lk))).
Proof.
  intros Hok. destruct (partitions_ok lk Hok) as [Hn Hne]. unfold prune_old_journals.
  apply (each_inv _ (fun ps s => run_inv lk ps (pr_lake s))).
  - intros part ps s H. eapply pstep_inv; [|exact H]. apply prune_one_step. apply H.
  - intros ps s [? ? ? ? ? Hf]. split; [done|done|set_solver|split; [constructor|set_solver]|done|].
    intros q f Hin. destruct (Hf q f Hin) as [?|[?|(p & ? & ? & ?)]]; [auto..|]. right; right. exists p. set_solver.
  - split; [apply Hok|done|done|split; [done|auto]|done|auto].
Qed.

End Steps.

(** ** The pass on a low disk *)

Lemma filter_filter_and {A} (f g : A -> bool) l :
  List.filter g (List.filter f l) = List.filter (fun x => f x && g x) l.
Proof. induction l as [|x l IH]; [done|]. cbn. destruct (f x); cbn; [|done]. by rewrite IH. Qed.

Section LowDisk.
Context (pq_rows : string -> option Z).
Context (normalizer : path -> list (path * LFile) -> option LFile -> option LFile * norm_out).
Context (cutoff : Z) (quarantine : bool) (v : list string) (reuse : bool) (hold : path -> option string).

(** No name of the list reads as a date that does not exist. *)
Definition dated (ps : list path) : Prop :=
  forall p text, p ∈ ps -> dt_fullmatch (name p) = Some text -> is_Some (iso_date text).

(** No partition lies in another. *)
Definition apart (ps : list path) : Prop :=
  forall p p', p ∈ ps -> p' ∈ ps -> under p p' = true -> p' = p.

(** What a low-disk pass deletes: old partitions whose archive object is there and
    in the verified list. *)
Definition condemned (l1 : list (path * LFile)) (p : path) : bool :=
  match dt_fullmatch (name p) with
  | Some text => match iso_date text with Some day => day <? cutoff | None => false end
  | None => false
  end && dmem l1 (l1_relpath_for_l0_partition p)
  && bool_decide (l1_repo_path (l1_relpath_for_l0_partition p) ∈ v).

Abbreviation low_pass := (prune_one pq_rows normalizer cutoff quarantine (Some v) false reuse hold).

Lemma low_pass_one p s : p ∈ lk_dirs (pr_lake s) -> dated [p] ->
  exists s', low_pass p s = (s', Ok tt) /\
    pr_lake s' = if condemned (lk_l1 (pr_lake s)) p then rm_tree p (pr_lake s) else pr_lake s.
Proof.
  intros Hin Hd. unfold prune_one, condemned.
  destruct (dt_fullmatch (name p)) as [text|] eqn:Et; [|by exists s].
  destruct (Hd p text) as [day Eday]; [set_solver|done|]. rewrite Eday, Z.ltb_antisym.
  destruct (cutoff <=? day); [by exists s|]. unfold prune_partition, sbind, sget. cbn [negb andb is_verified].
  destruct (dmem _ _ && bool_decide _); [|by exists s].
  unfold remove_partition, sbind, sget, add_deleted, smod. cbn. rewrite decide_True by done. by eexists.
Qed.

Lemma low_pass_all ps : forall s, (forall p, p ∈ ps -> p ∈ lk_dirs (pr_lake s)) -> dated ps -> apart ps -> NoDup ps ->
  exists s', each low_pass ps s = (s', Ok tt) /\
    lk_l1 (pr_lake s') = lk_l1 (pr_lake s) /\ lk_quar (pr_lake s') = lk_quar (pr_lake s) /\
    lk_l0 (pr_lake s') =
      List.filter (fun kv => negb (existsb (fun p => condemned (lk_l1 (pr_lake s)) p && under p (fst kv)) ps)) (lk_l0 (pr_lake s)).
Proof.
  induction ps as [|p ps IH]; intros s Hin Hd Ha Hnd; cbn [each].
  - exists s. split_and!; try done. cbn. by rewrite List.filter_true.
  - apply NoDup_cons in Hnd as [Hnot Hnd]. unfold sbind.
    destruct (low_pass_one p s) as (s1 & E1 & L1); [apply Hin; set_solver|intros ? ? ->%list_elem_of_singleton; apply Hd; set_solver|].
    rewrite E1.
    assert (Hsame : lk_l1 (pr_lake s1) = lk_l1 (pr_lake s) /\ lk_quar (pr_lake s1) = lk_quar (pr_lake s) /\
      lk_l0 (pr_lake s1) = List.filter (fun kv => negb (condemned (lk_l1 (pr_lake s)) p && under p (fst kv))) (lk_l0 (pr_lake s))).
    { rewrite L1. destruct (condemned _ p); cbn; [done|]. by rewrite List.filter_true. }
    destruct Hsame as (Hl1 & Hq & Hl0).
    destruct (IH s1) as (s' & E & L1' & Q' & L0'); [|intros x t Hx; apply Hd; set_solver|intros x y Hx Hy; apply Ha; set_solver|done|].
    { intros p' Hp'. rewrite L1. destruct (condemned _ p); [|apply Hin; set_solver]. cbn. apply filter_elem.
      split; [apply Hin; set_solver|]. destruct (under p p') eqn:Eu; [|done].
      apply Ha in Eu; [subst p'; done|set_solver|set_solver]. }
    exists s'. split; [exact E|]. split; [congruence|]. split; [congruence|].
    rewrite L0', Hl0, Hl1, filter_filter_and. apply List.filter_ext. intros kv. cbn. by rewrite negb_orb.
Qed.
End LowDisk.

(** ** Properties *)

(** A prune pass deletes only what is archived: whatever the normalizer and the
    hold answer and whether the pass ends or raises, every journal file is still
    there, or was moved unchanged to quarantine, or belonged to a partition that
    was due, whose object is in the archive and in the verified set, and that the
    mode of the pass allows: after a normalization of the present files, or with a
    readable, non-empty object not older than the file, each time without a repair
    hold - or, in low-disk recovery, on the existence of the object alone. *)
Theorem prune_deletes_only_archived pq_rows normalizer cutoff quarantine verified normalize reuse hold lk q f :
  lake_ok lk -> (q, f) ∈ lk_l0 lk ->
  let lk' := pr_lake (fst (prune_old_journals pq_rows normalizer cutoff quarantine verified normalize reuse hold lk)) in
  (q, f) ∈ lk_l0 lk' \/ (normalize = true /\ quarantine = true /\ (q, f) ∈ lk_quar lk') \/
  exists part g, part ∈ partitions lk /\ under part q = true /\ due cutoff part /\
    dget (lk_l1 lk') (l1_relpath_for_l0_partition part) = Some g /\
    is_verified verified (l1_repo_path (l1_relpath_for_l0_partition part)) = true /\
    (normalize = false \/ hold part = None) /\
    (normalize = true -> reuse = true ->
       dget (lk_l1 lk) (l1_relpath_for_l0_partition part) = Some g /\ f_mtime f <= f_mtime g /\
       exists n, pq_rows (f_bytes g) = Some n /\ 0 < n) /\
    (normalize = true -> reuse = false ->
       exists fs old n, normalizer part fs old = (Some g, N_rows n) /\ 0 < n /\ (q, f) ∈ fs).
Proof.
  intros Hok Hin lk'.
  pose proof (prune_fate pq_rows normalizer cutoff quarantine verified normalize reuse hold lk Hok) as H.
  destruct (ri_fate _ _ _ _ _ _ _ _ _ _ _ H q f Hin) as [?|[?|(part & _ & _ & [Hu Hp Hd Hv (g & Hg & Ho)])]];
    [by left|by right; left|right; right].
  exists part, g. split_and!; [done..| | |];
    destruct Ho as [(-> & ?)|[(-> & -> & ? & ? & ? & ?)|(-> & -> & ? & ?)]]; naive_solver.
Qed.

Definition demo_prune_part : path := ["ls"; "dt=2026-09-18"].
Definition demo_prune_lake : Lake :=
  mkLake [["ls"]; demo_prune_part] [(demo_prune_part ++ ["09.jsonl.zst"], mkFile 5 "a")]
    [(["ls"; "dt=2026-09-18.parquet"], mkFile 6 "b")] [] [].

(** A fresh verified object lets its partition go. *)
Lemma prune_deletes_only_archived_witness :
  let lk' := pr_lake (fst (prune_old_journals (fun _ => Some 1) (fun _ _ old => (old, N_bad)) (days_of_civil 2026 9 20)
    true (Some ["l1/ls/dt=2026-09-18.parquet"]) true true (fun _ => None) demo_prune_lake)) in
  lk_l0 lk' = [] /\ lk_quar lk' = [] /\
  exists part g, part ∈ partitions demo_prune_lake /\ dget (lk_l1 demo_prune_lake) (l1_relpath_for_l0_partition part) = Some g /\
    5 <= f_mtime g.
Proof.
  split; [vm_compute; reflexivity|]. split; [vm_compute; reflexivity|].
  destruct (prune_deletes_only_archived (fun _ => Some 1) (fun _ _ old => (old, N_bad)) (days_of_civil 2026 9 20)
    true (Some ["l1/ls/dt=2026-09-18.parquet"]) true true (fun _ => None) demo_prune_lake
    (demo_prune_part ++ ["09.jsonl.zst"]) (mkFile 5 "a")
    ltac:(split; apply (bool_decide_unpack _); vm_compute; exact I) (list_elem_of_here _ _))
    as [H|[(_ & _ & H)|(part & g & H1 & _ & _ & _ & _ & _ & H2 & _)]].
  - exfalso. vm_compute in H. by apply elem_of_nil in H.
  - exfalso. vm_compute in H. by apply elem_of_nil in H.
  - exists part, g. destruct (H2 eq_refl eq_refl) as (H3 & H4 & _). exact (conj H1 (conj H3 H4)).
Defined.
