(* ===== verification/Remote.v ===== *)
(** * The remote archive ([src/storage/remote.py])

    The archiver drives rclone: it lists remote objects with their size and md5,
    uploads the L1 objects and manifests that differ, lists the objects whose
    remote copy equals the local file, and purges remote L0 partitions those
    supersede. The rclone program and the md5 function are arguments; the remote
    maps a path to the copies stored under it, since Drive allows duplicates. *)
From Stdlib Require Import Ascii.
From S2P Require Import Prelude PyStr Layout Retention.

(** ** rclone *)

Abbreviation objects := (list (string * list string)).

Inductive rclone_cmd :=
| C_list_object (repo_path : string)                      (* lsjson of one path, with hashes *)
| C_list_tree (norm : string) (with_hash : bool)          (* lsjson --recursive --files-only *)
| C_copyto (bytes repo_path : string)
| C_list_dir (dir : string)                               (* lsjson --max-depth 1 *)
| C_purge (dir : string).

(** One entry of [lsjson]; [None] for a size that is no integer, and for a missing
    or empty md5. *)
Record entry := mkEntry { e_path : string; e_is_dir : bool; e_size : option Z; e_md5 : option string }.

(** The return code and the listing; [None] when stdout is not JSON. A timeout is
    return code 124. *)
Record answer := mkAnswer { a_rc : Z; a_entries : option (list entry) }.

Record RemoteObject := mkObject { ro_size : Z; ro_md5 : option string; ro_duplicate : bool }.

Record SyncStats := mkSync { uploaded : Z; skipped_verified : Z; failed_verification : Z }.
Record PurgeStats := mkPurge { purged : Z; skipped_local_present : Z; skipped_absent : Z; pg_failed : Z }.

Definition add_uploaded (s : SyncStats) : SyncStats := mkSync (uploaded s + 1) (skipped_verified s) (failed_verification s).
Definition add_skipped (s : SyncStats) : SyncStats := mkSync (uploaded s) (skipped_verified s + 1) (failed_verification s).
Definition add_unverified (s : SyncStats) : SyncStats := mkSync (uploaded s) (skipped_verified s) (failed_verification s + 1).

(** The remote, the number of rclone calls made and the archiver's md5 cache. *)
Record Arch := mkArch { ar_objects : objects; ar_calls : nat; ar_cache : list (path * (Z * Z * string)) }.

Abbreviation arch := (stx Arch exc).

(** [_objects_by_path]: the listing as a dict; a path listed twice is a duplicate
    unless the copies agree. *)
Fixpoint objects_by_path (remote_prefix : string) (es : list entry) (acc : list (string * RemoteObject))
    : res exc (list (string * RemoteObject)) :=
  match es with
  | [] => Ok acc
  | e :: es' =>
      if e_is_dir e || negb (bool_decide (is_Some (str_after remote_prefix (e_path e))))
      then objects_by_path remote_prefix es' acc
      else
        match e_size e with
        | None => Raise X_remote
        | Some size =>
            if size <? 0 then Raise X_remote
            else
              let md5 := option_map str_lower (e_md5 e) in
              let dup := match dget acc (e_path e) with
                         | None => false
                         | Some prior =>
                             ro_duplicate prior || negb (ro_size prior =? size)
                             || bool_decide (ro_md5 prior = None) || negb (bool_decide (ro_md5 prior = md5))
                         end in
              objects_by_path remote_prefix es' (dset acc (e_path e) (mkObject size md5 dup))
        end
  end.

(** [prefix.rstrip("/")] of the prefixes used, [l1/] and [manifests/]. *)
Definition no_slash (prefix : string) : string :=
  match rev (s2l prefix) with
  | c :: l => if decide (c = slash) then l2s (rev l) else prefix
  | [] => prefix
  end.

(** The listing's paths are taken as they are when one of them lies below [norm],
    and are prefixed by it otherwise. *)
Definition reframe (norm : string) (es : list entry) : list entry :=
  if existsb (fun e => in_dir norm (e_path e)) es then es
  else map (fun e => mkEntry (if decide (e_path e = "") then norm
                              else String.append norm (String.append "/" (e_path e)))
                       (e_is_dir e) (e_size e) (e_md5 e)) es.

Section Archiver.
Context (md5 : string -> string).
Context (rclone : nat -> rclone_cmd -> objects -> objects * res exc answer).

Definition run (c : rclone_cmd) : arch answer := fun a =>
  let '(objs, r) := rclone (ar_calls a) c (ar_objects a) in
  (mkArch objs (S (ar_calls a)) (ar_cache a), r).

Definition file_size (f : LFile) : Z := Z.of_nat (String.length (f_bytes f)).

(** [local_md5], cached per size and modification time. The key stands for the
    absolute path: the name of the file's tree and the path in it. *)
Definition local_md5 (p : path) (f : LFile) : arch string := fun a =>
  match dget (ar_cache a) p with
  | Some (sz, mt, d) =>
      if (sz =? file_size f) && (mt =? f_mtime f) then (a, Ok d)
      else let d := md5 (f_bytes f) in
           (mkArch (ar_objects a) (ar_calls a) (dset (ar_cache a) p (file_size f, f_mtime f, d)), Ok d)
  | None =>
      let d := md5 (f_bytes f) in
      (mkArch (ar_objects a) (ar_calls a) (dset (ar_cache a) p (file_size f, f_mtime f, d)), Ok d)
  end.

Definition matches (remote : option RemoteObject) (p : path) (f : LFile) : arch bool :=
  match remote with
  | None => sret false
  | Some r =>
      match ro_md5 r with
      | None => sret false
      | Some m =>
          if ro_duplicate r then sret false
          else if ro_size r =? file_size f then
            (d <- local_md5 p f;; sret (bool_decide (m = d)))%py
          else sret false
      end
  end.

(** [_remote_object]; its entries all get the path asked for. *)
Definition remote_object (repo_path : string) : arch RemoteObject :=
  (r <- run (C_list_object repo_path);;
   es <- slift (if a_rc r =? 0 then match a_entries r with Some es => Ok es | None => Raise X_value end else Ok []);;
   match es with
   | [] => sraise X_remote
   | _ =>
       objs <- slift (objects_by_path repo_path
                 (map (fun e => mkEntry repo_path (e_is_dir e) (e_size e) (e_md5 e)) es) []);;
       slift (match dget objs repo_path with Some o => Ok o | None => Raise X_other end)
   end)%py.

Definition upload_and_verify (p : path) (f : LFile) (repo_path : string) : arch bool :=
  (r <- run (C_copyto (f_bytes f) repo_path);;
   if a_rc r =? 0 then o <- remote_object repo_path;; matches (Some o) p f else sraise X_remote)%py.

(** [try: ... except RemoteArchiveError]. *)
Definition try_remote {A} (c : arch A) : arch (option A) := fun a =>
  match c a with
  | (a', Ok x) => (a', Ok (Some x))
  | (a', Raise X_remote) => (a', Ok None)
  | (a', Raise e) => (a', Raise e)
  end.

(** Why an upload is not verified; [_upload_verified] returns [None] for [UV_ok]. *)
Inductive upload_reason := UV_ok | UV_upload_failed | UV_missing | UV_duplicate | UV_size | UV_md5.

Definition upload_verified (p : path) (f : LFile) (repo_path : string) : arch upload_reason :=
  (r <- run (C_copyto (f_bytes f) repo_path);;
   if negb (a_rc r =? 0) then sret UV_upload_failed
   else
     o <- try_remote (remote_object repo_path);;
     match o with
     | None => sret UV_missing
     | Some o =>
         if ro_duplicate o then sret UV_duplicate
         else if negb (ro_size o =? file_size f) then sret UV_size
         else
           match ro_md5 o with
           | None => sret UV_md5
           | Some m => d <- local_md5 p f;; sret (if decide (m = d) then UV_ok else UV_md5)
           end
     end)%py.

Definition lsjson_recursive (norm : string) (with_hash : bool) : arch (list entry) :=
  (r <- run (C_list_tree norm with_hash);;
   if a_rc r =? 3 then sret []
   else if negb (a_rc r =? 0) then sraise X_remote
   else match a_entries r with
        | None => sraise X_remote
        | Some es => sret (reframe norm es)
        end)%py.

Definition remote_files (prefix : string) : arch (list string) :=
  (es <- lsjson_recursive (no_slash prefix) false;;
   sret (map e_path (List.filter (fun e => negb (e_is_dir e) && bool_decide (is_Some (str_after prefix (e_path e)))) es)))%py.

Definition remote_objects (remote_prefix : string) : arch (list (string * RemoteObject)) :=
  (es <- lsjson_recursive (no_slash remote_prefix) true;; slift (objects_by_path remote_prefix es []))%py.

(** The local Parquet files in path order, with their contents. *)
Definition local_parquet (files : list (path * LFile)) : list (path * LFile) :=
  omap (fun p => f ← dget files p; Some (p, f)) (parquet_paths files).

Definition ARCHIVE : string := "archive".

Fixpoint verified_loop (objs : list (string * RemoteObject)) (ps : list (path * LFile)) (acc : list string)
    : arch (list string) :=
  match ps with
  | [] => sret acc
  | (p, f) :: ps' =>
      (b <- matches (dget objs (l1_repo_path p)) (ARCHIVE :: p) f;;
       verified_loop objs ps' (if b : bool then set_add (l1_repo_path p) acc else acc))%py
  end.

Definition verified_paths (files : list (path * LFile)) : arch (list string) :=
  (objs <- remote_objects L1_REPO_PREFIX;; verified_loop objs (local_parquet files) [])%py.

(** ** Synchronisation

    [root] is the local tree and [repo_of] names the remote object of a file. *)
Section Sync.
Context (root : string) (repo_of : path -> string).

Fixpoint sync_pass (objs : list (string * RemoteObject)) (ps : list (path * LFile)) (stats : SyncStats)
    (retry : list (path * LFile)) : arch (SyncStats * list (path * LFile)) :=
  match ps with
  | [] => sret (stats, retry)
  | (p, f) :: ps' =>
      (b <- matches (dget objs (repo_of p)) (root :: p) f;;
       if b : bool then sync_pass objs ps' (add_skipped stats) retry
       else
         why <- upload_verified (root :: p) f (repo_of p);;
         match why with
         | UV_ok => sync_pass objs ps' (add_uploaded stats) retry
         | _ => sync_pass objs ps' stats (retry ++ [(p, f)])
         end)%py
  end.

(** The second attempts; [strict] is the manifests' pass, which raises. *)
Fixpoint retry_pass (strict : bool) (ps : list (path * LFile)) (stats : SyncStats) : arch SyncStats :=
  match ps with
  | [] => sret stats
  | (p, f) :: ps' =>
      (why <- upload_verified (root :: p) f (repo_of p);;
       match why with
       | UV_ok => retry_pass strict ps' (add_uploaded stats)
       | _ => if strict then sraise X_remote else retry_pass strict ps' (add_unverified stats)
       end)%py
  end.

Definition sync_tree (strict : bool) (prefix : string) (ps : list (path * LFile)) : arch SyncStats :=
  (objs <- remote_objects prefix;;
   out <- sync_pass objs ps (mkSync 0 0 0) [];;
   retry_pass strict (snd out) (fst out))%py.
End Sync.

Definition sync_l1_tree (files : list (path * LFile)) : arch SyncStats :=
  sync_tree ARCHIVE l1_repo_path false L1_REPO_PREFIX (local_parquet files).

Definition manifest_repo_path_for (p : path) : string := String.append "manifests/" (as_posix p).

(** [path.suffix in {".json", ".jsonl"}]. *)
Definition has_suffix (sfx : string) (p : path) : bool :=
  match skip_prefix (rev (s2l sfx)) (rev (s2l (name p))) with Some (_ :: _) => true | _ => false end.

Definition manifest_files (files : list (path * LFile)) : list (path * LFile) :=
  omap (fun p => f ← dget files p; Some (p, f))
    (py_sorted path_leb (List.filter (fun p => has_suffix ".json" p || has_suffix ".jsonl" p) (map fst files))).

Definition sync_manifest_tree (files : list (path * LFile)) : arch SyncStats :=
  sync_tree "manifest" manifest_repo_path_for true "manifests/" (manifest_files files).

(** ** Purge of superseded L0 partitions *)

Definition superseded (verified : list string) : list string :=
  py_sorted str_leb (fromkeys (omap l0_partition_for_l1 verified)).

(** One partition; [exists_l0] is the existence of a local path. *)
Definition purge_one (exists_l0 : path -> bool) (l0_dir : string) (st : PurgeStats) : arch PurgeStats := fun a =>
  let failed := mkPurge (purged st) (skipped_local_present st) (skipped_absent st) (pg_failed st + 1) in
  match str_after L0_REPO_PREFIX l0_dir with
  | None => (a, Ok st)
  | Some rest =>
      if exists_l0 (posix_parts rest)
      then (a, Ok (mkPurge (purged st) (skipped_local_present st + 1) (skipped_absent st) (pg_failed st)))
      else
        match run (C_list_dir l0_dir) a with
        | (a1, Raise _) => (a1, Ok failed)
        | (a1, Ok probe) =>
            if a_rc probe =? 3
            then (a1, Ok (mkPurge (purged st) (skipped_local_present st) (skipped_absent st + 1) (pg_failed st)))
            else if negb (a_rc probe =? 0) then (a1, Ok failed)
            else
              match run (C_purge l0_dir) a1 with
              | (a2, Raise _) => (a2, Ok failed)
              | (a2, Ok r) =>
                  if a_rc r =? 0
                  then (a2, Ok (mkPurge (purged st + 1) (skipped_local_present st) (skipped_absent st) (pg_failed st)))
                  else (a2, Ok failed)
              end
        end
  end.

Fixpoint purge_dirs (exists_l0 : path -> bool) (dirs : list string) (st : PurgeStats) : arch PurgeStats :=
  match dirs with
  | [] => sret st
  | d :: dirs' => (st' <- purge_one exists_l0 d st;; purge_dirs exists_l0 dirs' st')%py
  end.

Definition purge_superseded_l0 (verified : list string) (exists_l0 : path -> bool) : arch PurgeStats :=
  purge_dirs exists_l0 (superseded verified) (mkPurge 0 0 0 0).
End Archiver.
