(* ===== verification/RemoteFacts.v ===== *)
(** * What verification proves of the remote

    Laws of rclone, and the remote copies a verified path stands for. *)
From Stdlib Require Import Ascii.
From S2P Require Import Prelude PyStr Layout Retention RetentionFacts Remote.

(** ** rclone's contract *)

Section Laws.
Context (md5 : string -> string).

(** The entry lists a copy: its size, and its md5 when the remote knows one. *)
Definition entry_of (c : string) (e : entry) : Prop :=
  e_is_dir e = false /\ e_size e = Some (Z.of_nat (String.length c)) /\
  forall m, e_md5 e = Some m -> str_lower m = md5 c.

(** The entries are the copies. *)
Definition describes (cs : list string) (es : list entry) : Prop :=
  (forall e, e ∈ es -> exists c, c ∈ cs /\ entry_of c e) /\
  (forall c, c ∈ cs -> exists e, e ∈ es /\ entry_of c e).

Definition copies (objs : objects) (p : string) : list string := default [] (dget objs p).

Definition slashed (norm p : string) : string := String.append norm (String.append "/" p).

(** Listings change nothing and list the copies of each path, relative to the
    listed directory; an upload touches its destination only, a purge the paths
    below its directory. *)
Record rclone_ok (rclone : nat -> rclone_cmd -> objects -> objects * res exc answer) : Prop := {
  rk_list_object : forall k p objs, fst (rclone k (C_list_object p) objs) = objs;
  rk_list_tree : forall k n b objs, fst (rclone k (C_list_tree n b) objs) = objs;
  rk_list_dir : forall k d objs, fst (rclone k (C_list_dir d) objs) = objs;
  rk_object : forall k p objs ans es, snd (rclone k (C_list_object p) objs) = Ok ans -> a_rc ans = 0 ->
    a_entries ans = Some es -> describes (copies objs p) (List.filter (fun e => negb (e_is_dir e)) es);
  rk_tree : forall k n objs ans es, snd (rclone k (C_list_tree n true) objs) = Ok ans -> a_rc ans = 0 ->
    a_entries ans = Some es ->
    (forall e, e ∈ es -> e_is_dir e = false /\ e_path e <> "") /\
    forall p, p <> "" -> describes (copies objs (slashed n p)) (List.filter (fun e => bool_decide (e_path e = p)) es);
  rk_copyto : forall k b p objs p', p' <> p -> dget (fst (rclone k (C_copyto b p) objs)) p' = dget objs p';
  rk_purge : forall k d objs p', str_after (String.append d "/") p' = None ->
    dget (fst (rclone k (C_purge d) objs)) p' = dget objs p'
}.

(** Every copy under the path is [b], and there is one. *)
Definition stored (objs : objects) (p b : string) : Prop :=
  copies objs p <> [] /\ forall c, c ∈ copies objs p -> c = b.

(** No object lies below a second [l1/]. *)
Definition flat (objs : objects) : Prop :=
  forall p, copies objs (slashed "l1" p) <> [] -> in_dir "l1" p = false.

(** The object's digest is that of every copy. *)
Definition digest_of (cs : list string) (o : RemoteObject) : Prop :=
  forall m, ro_duplicate o = false -> ro_md5 o = Some m ->
    cs <> [] /\ forall c, c ∈ cs -> Z.of_nat (String.length c) = ro_size o /\ md5 c = m.
End Laws.

(** ** Listings as dicts *)

Lemma objects_by_path_spec pre p es : forall acc d,
  objects_by_path pre es acc = Ok d -> is_Some (str_after pre p) ->
  forall o m, dget d p = Some o -> ro_duplicate o = false -> ro_md5 o = Some m ->
  (forall e, e ∈ es -> e_is_dir e = false -> e_path e = p ->
     e_size e = Some (ro_size o) /\ option_map str_lower (e_md5 e) = Some m) /\
  match dget acc p with
  | None => exists e, e ∈ es /\ e_is_dir e = false /\ e_path e = p
  | Some prior => ro_duplicate prior = false /\ ro_size prior = ro_size o /\ ro_md5 prior = Some m
  end.
Proof.
  induction es as [|e es IH]; intros acc d; cbn [objects_by_path].
  - intros [= ->] _ o m Ho Hd Hm. rewrite Ho. split; [set_solver|]. by rewrite Hm.
  - destruct (e_is_dir e || negb (bool_decide (is_Some (str_after pre (e_path e))))) eqn:Eskip.
    + intros E Hp o m Ho Hd Hm. destruct (IH acc d E Hp o m Ho Hd Hm) as [Hall Hacc].
      assert (Hne : e_is_dir e = false -> e_path e <> p).
      { intros Hdir <-. rewrite Hdir, bool_decide_true in Eskip by done. done. }
      split; [intros e' [->|?]%elem_of_cons; naive_solver|].
      destruct (dget acc p); [done|]. destruct Hacc as (e' & ? & ?). exists e'. set_solver.
    + destruct (e_size e) as [size|] eqn:Es; [|done]. destruct (size <? 0); [done|].
      apply orb_false_iff in Eskip as [Edir _].
      intros E Hp o m Ho Hd Hm.
      destruct (IH _ d E Hp o m Ho Hd Hm) as [Hall Hacc].
      destruct (decide (e_path e = p)) as [Ep|Ep].
      * subst p. rewrite dget_dset_eq in Hacc. cbn [ro_duplicate ro_size ro_md5] in Hacc.
        destruct Hacc as (Hdup & -> & Hmd). split.
        { intros e' [->|?]%elem_of_cons; [by intros _ _|by apply Hall]. }
        destruct (dget acc (e_path e)) as [prior|]; [|exists e; set_solver].
        bprop. split_and!; congruence.
      * rewrite dget_dset_ne in Hacc by done. split; [intros e' [->|?]%elem_of_cons; [done|by apply Hall]|].
        destruct (dget acc p); [done|]. destruct Hacc as (e' & ? & ?). exists e'. set_solver.
Qed.

Lemma str_after_self p : str_after p p = Some EmptyString.
Proof.
  unfold str_after. rewrite <- (app_nil_r (s2l p)) at 2. by rewrite skip_prefix_app.
Qed.

Section Digests.
Context (md5 : string -> string).

(** A dict built from entries that describe the copies of a path digests them. *)
Lemma described_digest pre p es d cs o :
  objects_by_path pre es [] = Ok d -> is_Some (str_after pre p) -> dget d p = Some o ->
  describes md5 cs (List.filter (fun e => bool_decide (e_path e = p) && negb (e_is_dir e)) es) ->
  digest_of md5 cs o.
Proof.
  intros E Hp Ho [Hes Hcs] m Hd Hm.
  destruct (objects_by_path_spec pre p es [] d E Hp o m Ho Hd Hm) as [Hall (e & He & Hdir & Hep)].
  assert (Hf : forall e, e ∈ List.filter (fun e => bool_decide (e_path e = p) && negb (e_is_dir e)) es <->
    e ∈ es /\ e_path e = p /\ e_is_dir e = false).
  { intros x. rewrite filter_elem, andb_true_iff, bool_decide_eq_true, negb_true_iff. tauto. }
  split.
  - intros ->. destruct (Hes e) as (c & []%elem_of_nil & _). by apply Hf.
  - intros c Hc. destruct (Hcs c Hc) as (x & (Hx & Hxp & Hxd)%Hf & _ & Hs & Hxm).
    destruct (Hall x Hx Hxd Hxp) as [Hs' Hm']. split; [congruence|].
    destruct (e_md5 x) as [m0|]; [|done]. cbn in Hm'. rewrite <- (Hxm m0) by done. congruence.
Qed.

Lemma filter_ext_in {A} (p q : A -> bool) l : (forall x, x ∈ l -> p x = q x) -> List.filter p l = List.filter q l.
Proof.
  induction l as [|x l IH]; intros H; cbn; [done|]. rewrite (H x) by set_solver. rewrite IH by set_solver. done.
Qed.

Lemma describes_map cs (g : entry -> entry) es :
  (forall e, e_is_dir (g e) = e_is_dir e /\ e_size (g e) = e_size e /\ e_md5 (g e) = e_md5 e) ->
  describes md5 cs es -> describes md5 cs (map g es).
Proof.
  intros Hg [He Hc]. assert (Hent : forall c e, entry_of md5 c e -> entry_of md5 c (g e)).
  { intros c e. unfold entry_of. by destruct (Hg e) as (-> & -> & ->). }
  split.
  - intros x (e & -> & Hx)%list_elem_of_fmap. destruct (He e Hx) as (c & ? & ?). eauto.
  - intros c Hcc. destruct (Hc c Hcc) as (e & Hx & ?). exists (g e). split; [|auto]. apply list_elem_of_fmap. eauto.
Qed.

Lemma filter_map {A B} (g : A -> B) (p : B -> bool) l : List.filter p (map g l) = map g (List.filter (fun x => p (g x)) l).
Proof. induction l as [|x l IH]; cbn; [done|]. rewrite IH. by destruct (p (g x)). Qed.

Lemma slashed_inj n p q : slashed n p = slashed n q -> p = q.
Proof.
  unfold slashed. intros E. apply (f_equal s2l) in E. rewrite !s2l_app in E.
  apply app_inv_head, app_inv_head in E. by rewrite <- (l2s_s2l p), E, l2s_s2l.
Qed.
End Digests.

(** ** The archiver's calls *)

Lemma l1_slashed p : l1_repo_path p = slashed "l1" (as_posix p).
Proof. done. Qed.

Section Archiver.
Context (md5 : string -> string) (rclone : nat -> rclone_cmd -> objects -> objects * res exc answer).
Context (Hrclone : rclone_ok md5 rclone).
Context (Hmd5 : forall a b, String.length a = String.length b -> md5 a = md5 b -> a = b).
(** The local archive while the archiver runs. *)
Context (files : list (path * LFile)).

(** The cache holds digests of the archive's files. *)
Definition cache_ok (a : Arch) : Prop :=
  forall p sz mt d f, dget (ar_cache a) (ARCHIVE :: p) = Some (sz, mt, d) -> dget files p = Some f ->
    sz = file_size f -> mt = f_mtime f -> d = md5 (f_bytes f).

(** A call that leaves the remote as it is. *)
Definition at_objs (objs : objects) (a : Arch) : Prop := ar_objects a = objs /\ cache_ok a.

Definition local (p : path) (f : LFile) : Prop := dget files p = Some f.

Lemma matched_stored objs rel o f : digest_of md5 (copies objs rel) o ->
  ro_duplicate o = false -> ro_md5 o = Some (md5 (f_bytes f)) -> ro_size o = file_size f ->
  stored objs rel (f_bytes f).
Proof using Hmd5.
  intros Hdig Hd Hm Hs. destruct (Hdig _ Hd Hm) as [Hne Hall]. split; [done|].
  intros c Hc. destruct (Hall c Hc) as [Hl Hmd]. apply Hmd5; [|done]. rewrite Hs in Hl. unfold file_size in Hl. lia.
Qed.

Lemma local_md5_spec objs key f R : (forall a, at_objs objs a -> R a) ->
  (forall p, key = ARCHIVE :: p -> local p f) ->
  hoare (at_objs objs) (local_md5 md5 key f)
    (fun d a => at_objs objs a /\ forall p, key = ARCHIVE :: p -> d = md5 (f_bytes f)) R.
Proof.
  intros HR Hkey a [Ho Hc]. unfold local_md5.
  assert (Hset : at_objs objs (mkArch (ar_objects a) (ar_calls a) (dset (ar_cache a) key (file_size f, f_mtime f, md5 (f_bytes f))))).
  { split; [done|]. intros p sz mt d g. cbn [ar_cache]. destruct (decide (key = ARCHIVE :: p)) as [->|Hne].
    - rewrite dget_dset_eq. intros [= <- <- <-] Hg. specialize (Hkey p eq_refl). unfold local in Hkey. congruence.
    - rewrite dget_dset_ne by done. apply Hc. }
  destruct (dget (ar_cache a) key) as [[[sz mt] d]|] eqn:E; cbv zeta; [|by split].
  destruct ((sz =? file_size f) && (mt =? f_mtime f)) eqn:Eb; [|by split].
  split; [done|]. intros p ->. bprop. eapply Hc; [exact E|exact (Hkey p eq_refl)|done|done].
Qed.

Lemma matches_spec objs r key f R : (forall a, at_objs objs a -> R a) ->
  (forall p, key = ARCHIVE :: p -> local p f) ->
  hoare (at_objs objs) (matches md5 r key f)
    (fun b a => at_objs objs a /\ forall p, key = ARCHIVE :: p -> b = true ->
       exists o, r = Some o /\ ro_duplicate o = false /\ ro_md5 o = Some (md5 (f_bytes f)) /\ ro_size o = file_size f) R.
Proof.
  intros HR Hkey. unfold matches. destruct r as [o|]; [|by intros a Ha].
  destruct (ro_md5 o) as [m|] eqn:Em; [|by intros a Ha].
  destruct (ro_duplicate o) eqn:Ed; [by intros a Ha|].
  destruct (ro_size o =? file_size f) eqn:Es; [|by intros a Ha]. apply Z.eqb_eq in Es.
  eapply hoare_bind; [exact (local_md5_spec objs key f R HR Hkey)|]. intros d a [Ha Hd]. split; [done|].
  intros p Hp ->%bool_decide_eq_true. exists o. by rewrite (Hd p Hp) in Em.
Qed.

Lemma run_spec objs c R :
  (forall k, fst (rclone k c objs) = objs) -> (forall a, at_objs objs a -> R a) ->
  hoare (at_objs objs) (run rclone c) (fun ans a => at_objs objs a /\ exists k, snd (rclone k c objs) = Ok ans) R.
Proof.
  intros Hpure HR a [Ho Hc]. unfold run. rewrite Ho. specialize (Hpure (ar_calls a)).
  destruct (rclone (ar_calls a) c objs) as [objs' [ans|e]] eqn:E; cbn in Hpure; subst objs'.
  - split; [by split|]. exists (ar_calls a). by rewrite E.
  - apply HR. by split.
Qed.

Lemma remote_object_spec objs p R : (forall a, at_objs objs a -> R a) ->
  hoare (at_objs objs) (remote_object rclone p) (fun o a => at_objs objs a /\ digest_of md5 (copies objs p) o) R.
Proof using Hrclone.
  intros HR. unfold remote_object.
  eapply hoare_bind; [apply (run_spec objs (C_list_object p)); [by intros k; apply (rk_list_object md5 rclone Hrclone)|exact HR]|].
  intros ans a [Ha [k Hans]]. revert a Ha.
  apply (hoare_bind _ _ _ _ _ (fun es a => at_objs objs a /\ (es = [] \/ (a_rc ans = 0 /\ a_entries ans = Some es)))).
  { intros a Ha. unfold slift. destruct (a_rc ans =? 0) eqn:Er; [|by auto]. apply Z.eqb_eq in Er.
    destruct (a_entries ans) as [es|] eqn:Ee; [auto|by apply HR]. }
  intros [|e0 es0] a [Ha Hes]; [by apply HR|]. destruct Hes as [|[Er Ee]]; [done|]. set (es := e0 :: es0) in *.
  pose proof (rk_object md5 rclone Hrclone k p objs ans es Hans Er Ee) as Hdesc.
  revert a Ha. eapply hoare_bind; [by apply hoare_lift|]. intros d.
  apply hoare_pure. intros Ed a Ha. unfold slift. destruct (dget d p) as [o|] eqn:Eo; [|by apply HR].
  split; [done|]. eapply described_digest; [exact Ed|by rewrite str_after_self|done|].
  rewrite filter_map. apply describes_map; [done|].
  erewrite (filter_ext_in _ (fun e => negb (e_is_dir e))); [done|]. intros x _. cbn. by rewrite bool_decide_true.
Qed.
Lemma tree_describes objs es :
  flat objs -> (forall e, e ∈ es -> e_is_dir e = false /\ e_path e <> "") ->
  (forall p, p <> "" -> describes md5 (copies objs (slashed "l1" p)) (List.filter (fun e => bool_decide (e_path e = p)) es)) ->
  forall p, p <> "" -> describes md5 (copies objs (slashed "l1" p))
    (List.filter (fun e => bool_decide (e_path e = slashed "l1" p) && negb (e_is_dir e)) (reframe "l1" es)).
Proof.
  intros Hflat Hes Hdesc p Hp0.
  assert (Hno : existsb (fun e => in_dir "l1" (e_path e)) es = false).
  { apply not_true_is_false. intros (e & Hin & Hd)%existsb_exists. apply list_elem_of_In in Hin.
    destruct (proj1 (Hdesc (e_path e) (proj2 (Hes e Hin))) e) as (c & Hc & _); [apply filter_elem; by rewrite bool_decide_true|].
    rewrite Hflat in Hd; [done|]. intros Hn. rewrite Hn in Hc. by apply elem_of_nil in Hc. }
  unfold reframe. rewrite Hno, filter_map. apply describes_map; [done|].
  erewrite filter_ext_in; [exact (Hdesc p Hp0)|]. intros e He. destruct (Hes e He) as [Hd Hn]. cbn [e_path e_is_dir].
  rewrite decide_False by done. rewrite Hd, andb_true_r. apply bool_decide_ext. split; [apply (slashed_inj "l1")|by intros ->].
Qed.

Lemma lsjson_spec objs n b R : (forall a, at_objs objs a -> R a) ->
  hoare (at_objs objs) (lsjson_recursive rclone n b)
    (fun es a => at_objs objs a /\ (n = "l1" -> b = true -> flat objs -> es = [] \/ forall p, p <> "" ->
       describes md5 (copies objs (slashed "l1" p))
         (List.filter (fun e => bool_decide (e_path e = slashed "l1" p) && negb (e_is_dir e)) es))) R.
Proof using Hrclone.
  intros HR. unfold lsjson_recursive.
  eapply hoare_bind; [apply (run_spec objs (C_list_tree n b)); [by intros k; apply (rk_list_tree md5 rclone Hrclone)|exact HR]|].
  intros ans a [Ha [k Hans]]. destruct (a_rc ans =? 3); [split; [done|by left]|].
  destruct (a_rc ans =? 0) eqn:Er; [|by apply HR]. apply Z.eqb_eq in Er.
  destruct (a_entries ans) as [es|] eqn:Ee; [|by apply HR]. split; [done|]. intros -> -> Hflat. right.
  destruct (rk_tree md5 rclone Hrclone k "l1" objs ans es Hans Er Ee) as [Hes Hdesc].
  by apply tree_describes.
Qed.

Lemma remote_objects_spec objs pre R : (forall a, at_objs objs a -> R a) ->
  hoare (at_objs objs) (remote_objects rclone pre)
    (fun d a => at_objs objs a /\ (pre = L1_REPO_PREFIX -> flat objs -> forall p o, p <> "" ->
       dget d (slashed "l1" p) = Some o -> digest_of md5 (copies objs (slashed "l1" p)) o)) R.
Proof using Hrclone.
  intros HR. unfold remote_objects. eapply hoare_bind; [by apply lsjson_spec|]. intros es a [Ha Hes].
  unfold slift. destruct (objects_by_path pre es []) as [d|e] eqn:Ed; [|by apply HR]. split; [done|].
  intros -> Hflat p o Hp0 Ho. destruct (Hes eq_refl eq_refl Hflat) as [->|Hdesc]; [by injection Ed as <-|].
  eapply described_digest; [exact Ed| |exact Ho|by apply Hdesc].
  change (slashed "l1" p) with (String.append L1_REPO_PREFIX p). by rewrite str_after_app.
Qed.

(** An upload changes its own path only. *)
Definition agree (rel : string) (objs : objects) (a : Arch) : Prop :=
  (forall p, p <> rel -> dget (ar_objects a) p = dget objs p) /\ cache_ok a.

Lemma try_remote_spec {A} objs (c : arch A) Q R : (forall a, at_objs objs a -> R a) ->
  hoare (at_objs objs) c Q (at_objs objs) ->
  hoare (at_objs objs) (try_remote c) (fun o a => match o with Some x => Q x a | None => at_objs objs a end) R.
Proof.
  intros HR Hc a Ha. specialize (Hc a Ha). unfold try_remote. destruct (c a) as [a' [x|e]]; [done|].
  destruct e; auto.
Qed.

(** What is verified after the copy. *)
Definition check_copy (key : path) (f : LFile) (rel : string) : arch upload_reason :=
  (o <- try_remote (remote_object rclone rel);;
   match o with
   | None => sret UV_missing
   | Some o =>
       if ro_duplicate o then sret UV_duplicate
       else if negb (ro_size o =? file_size f) then sret UV_size
       else match ro_md5 o with
            | None => sret UV_md5
            | Some m => d <- local_md5 md5 key f;; sret (if decide (m = d) then UV_ok else UV_md5)
            end
   end)%py.

Lemma check_copy_spec objs key f rel : (forall p, key = ARCHIVE :: p -> local p f) ->
  hoare (at_objs objs) (check_copy key f rel)
    (fun why a => at_objs objs a /\
       ((exists p, key = ARCHIVE :: p) -> why = UV_ok -> stored objs rel (f_bytes f))) (at_objs objs).
Proof using Hrclone Hmd5.
  intros Hkey. unfold check_copy.
  eapply hoare_bind; [apply (try_remote_spec objs); [done|by apply remote_object_spec]|].
  intros [o|]; [|by intros a Ha]. intros a [Ha Hdig]. revert a Ha.
  apply hoare_if; [by intros _ a Ha|]. intros Hd. apply hoare_if; [by intros _ a Ha|].
  intros Hs%negb_false_iff%Z.eqb_eq. destruct (ro_md5 o) as [m|] eqn:Em; [|by intros a Ha].
  eapply hoare_bind; [exact (local_md5_spec objs key f _ (fun a H => H) Hkey)|].
  intros d a [Ha Hdd]. split; [done|]. intros [p Hp] Hok. case_decide as E; [|done].
  eapply matched_stored; [exact Hdig|done| |done]. by rewrite Em, E, (Hdd p Hp).
Qed.

Lemma upload_spec objs key f rel : (forall p, key = ARCHIVE :: p -> local p f) ->
  hoare (at_objs objs) (upload_verified md5 rclone key f rel)
    (fun why a => agree rel objs a /\
       ((exists p, key = ARCHIVE :: p) -> why = UV_ok -> stored (ar_objects a) rel (f_bytes f)))
    (agree rel objs).
Proof using Hrclone Hmd5.
  intros Hkey a [Ho Hc]. unfold upload_verified, sbind at 1, run. rewrite Ho.
  destruct (rclone (ar_calls a) (C_copyto (f_bytes f) rel) objs) as [objs' r] eqn:E.
  assert (Hag : forall p, p <> rel -> dget objs' p = dget objs p).
  { intros p Hp. pose proof (rk_copyto md5 rclone Hrclone (ar_calls a) (f_bytes f) rel objs p Hp) as H.
    by rewrite E in H. }
  assert (HR : forall a, at_objs objs' a -> agree rel objs a) by (intros x [<- ?]; by split).
  assert (Ha1 : at_objs objs' (mkArch objs' (S (ar_calls a)) (ar_cache a))) by (by split).
  destruct r as [ans|e]; [|by apply HR]. destruct (a_rc ans =? 0); cbn [negb]; [|by split; [apply HR|]].
  fold (check_copy key f rel).
  apply (hoare_conseq (at_objs objs') (at_objs objs') _ _ _ _ _ (check_copy_spec objs' key f rel Hkey)); [done| |done|done].
  intros why x [[Hx ?] Hst]. split; [by apply HR|]. rewrite Hx. exact Hst.
Qed.
(** ** Synchronising the archive *)

(** Archive paths are file names of a tree without a directory [l1]. *)
Definition archive_path (p : path) : Prop := Forall clean p /\ p <> [] /\ in_dir "l1" (as_posix p) = false.
Context (Hpaths : forall p f, local p f -> archive_path p).

Lemma archive_path_text p : archive_path p -> as_posix p <> "".
Proof. intros (Hc & Hn & _) E. apply posix_roundtrip in Hc; [|done]. rewrite E in Hc. by subst p. Qed.

Lemma repo_inj p q f g : local p f -> local q g -> l1_repo_path p = l1_repo_path q -> p = q.
Proof using Hpaths.
  intros (? & ? & _)%Hpaths (? & ? & _)%Hpaths E. rewrite !l1_slashed in E.
  apply (slashed_inj "l1") in E. by apply as_posix_inj.
Qed.

(** The files of [done] are on the remote. *)
Record holds (done : list (path * LFile)) (a : Arch) : Prop := {
  ho_flat : flat (ar_objects a);
  ho_cache : cache_ok a;
  ho_local : forall p f, (p, f) ∈ done -> local p f;
  ho_stored : forall p f, (p, f) ∈ done -> stored (ar_objects a) (l1_repo_path p) (f_bytes f)
}.

Lemma copies_agree rel objs a p : agree rel objs a -> p <> rel -> copies (ar_objects a) p = copies objs p.
Proof. intros [Ha _] Hp. unfold copies. by rewrite Ha. Qed.

Lemma holds_agree done a a' rel :
  holds done a -> agree rel (ar_objects a) a' ->
  (forall p, rel = slashed "l1" p -> in_dir "l1" p = false) ->
  (forall p f, (p, f) ∈ done -> l1_repo_path p <> rel) -> holds done a'.
Proof.
  intros [Hf _ Hl Hs] Hag Hrel Hne. split; [|apply Hag|done|].
  - intros p Hp. destruct (decide (slashed "l1" p = rel)) as [E|E]; [by apply Hrel|].
    rewrite (copies_agree _ _ _ _ Hag) in Hp by done. by apply Hf.
  - intros p f Hin. unfold stored. rewrite (copies_agree _ _ _ _ Hag) by eauto. by apply Hs.
Qed.

Lemma holds_add done a p f : holds done a -> local p f ->
  stored (ar_objects a) (l1_repo_path p) (f_bytes f) -> holds ((p, f) :: done) a.
Proof.
  intros [? ? Hl Hs] Hp Hst. split; [done..| |].
  - intros q g [[= -> ->]|?]%elem_of_cons; auto.
  - intros q g [[= -> ->]|?]%elem_of_cons; auto.
Qed.

(** An upload of a new archive file. *)
Lemma upload_holds done p f a0 :
  holds done a0 -> local p f -> p ∉ map fst done ->
  hoare (fun a => a = a0) (upload_verified md5 rclone (ARCHIVE :: p) f (l1_repo_path p))
    (fun why a => agree (l1_repo_path p) (ar_objects a0) a /\ holds done a /\ (why = UV_ok -> holds ((p, f) :: done) a))
    (fun _ => True).
Proof using Hrclone Hmd5 Hpaths.
  intros Hh Hp Hnew a ->.
  pose proof (upload_spec (ar_objects a0) (ARCHIVE :: p) f (l1_repo_path p)) as H.
  specialize (H (fun q E => ltac:(injection E as <-; exact Hp)) a0 (conj eq_refl (ho_cache _ _ Hh))).
  destruct (upload_verified md5 rclone (ARCHIVE :: p) f (l1_repo_path p) a0) as [a' [why|e]]; [|done].
  destruct H as [Hag Hst].
  assert (Hh' : holds done a').
  { eapply holds_agree; [exact Hh|exact Hag| |].
    - intros q E. rewrite l1_slashed in E. apply (slashed_inj "l1") in E as <-. by destruct (Hpaths p f Hp) as (_ & _ & ?).
    - intros q g Hin E. apply Hnew. apply (repo_inj q p g f) in E as ->; [|by apply (ho_local _ _ Hh)|done].
      apply list_elem_of_fmap. by exists (p, g). }
  split_and!; [done..|]. intros Hok. apply holds_add; [done..|]. apply Hst; eauto.
Qed.
(** The listing still digests the files to come. *)
Definition todo_ok (d : list (string * RemoteObject)) (todo : list (path * LFile)) (a : Arch) : Prop :=
  forall p f o, (p, f) ∈ todo -> dget d (l1_repo_path p) = Some o -> digest_of md5 (copies (ar_objects a) (l1_repo_path p)) o.

Definition in_step (l : list (path * LFile)) : Prop := NoDup (map fst l) /\ forall p f, (p, f) ∈ l -> local p f.

Lemma in_step_perm l l' : l ≡ₚ l' -> in_step l -> in_step l'.
Proof. intros E [Hn Hl]. split; [by rewrite <- E|]. intros p f. rewrite <- E. apply Hl. Qed.

Lemma holds_same done a a' : ar_objects a' = ar_objects a -> cache_ok a' -> holds done a -> holds done a'.
Proof. intros E Hc [? ? ? ?]. split; [by rewrite E|done|done|by rewrite E]. Qed.

Lemma todo_agree d todo p f a a' : in_step ((p, f) :: todo) ->
  agree (l1_repo_path p) (ar_objects a) a' -> todo_ok d ((p, f) :: todo) a -> todo_ok d todo a'.
Proof using Hpaths.
  intros [Hn Hl] Hag Ht q g o Hin Ho. rewrite (copies_agree _ _ _ _ Hag); [eapply Ht; [by right|done]|].
  intros E. apply (repo_inj q p g f) in E as ->; [|apply Hl; by right|apply Hl; by left].
  apply NoDup_cons in Hn as [Hn _]. apply Hn, list_elem_of_fmap. by exists (p, g).
Qed.

Lemma step_fresh p f l todo : in_step (l ++ (p, f) :: todo) -> local p f /\ p ∉ map fst l.
Proof.
  intros [Hn Hl]. split; [apply Hl; set_solver|]. rewrite map_app in Hn. apply NoDup_app in Hn as (_ & Hn & _).
  intros Hin. apply (Hn p Hin). by left.
Qed.

Lemma not_elem_of_app_map (p : path) (l k : list (path * LFile)) : p ∉ map fst (l ++ k) -> p ∉ map fst l /\ p ∉ map fst k.
Proof. rewrite map_app, not_elem_of_app. done. Qed.

Lemma in_step_suffix l k : in_step (l ++ k) -> in_step k.
Proof.
  intros [Hn Hl]. rewrite map_app in Hn. apply NoDup_app in Hn as (_ & _ & Hn).
  split; [done|]. intros; apply Hl; set_solver.
Qed.

(** What a pass over [all] ends in. *)
Definition sync_post (all : list (path * LFile)) (n : Z) (out : SyncStats * list (path * LFile)) (a : Arch) : Prop :=
  failed_verification (fst out) = n /\ exists done, holds done a /\ done ++ snd out ≡ₚ all.

Lemma sync_pass_spec d todo : forall done retry stats all,
  done ++ retry ++ todo ≡ₚ all -> in_step all ->
  hoare (fun a => holds done a /\ todo_ok d todo a)
    (sync_pass md5 rclone ARCHIVE l1_repo_path d todo stats retry)
    (sync_post all (failed_verification stats)) (fun _ => True).
Proof using Hrclone Hmd5 Hpaths.
  induction todo as [|[p f] todo IH]; intros done retry stats all Hall Hin; cbn [sync_pass].
  { intros a [Hh _]. split; [done|]. exists done. by rewrite app_nil_r in Hall. }
  intros a [Hh Ht]. unfold sbind at 1. pose proof (in_step_perm _ _ (Permutation_sym Hall) Hin) as Hin'.
  destruct (step_fresh p f (done ++ retry) todo ltac:(by rewrite <- app_assoc)) as [Hp Hnew].
  apply not_elem_of_app_map in Hnew as [Hnew _].
  assert (Htd : in_step ((p, f) :: todo)) by (by apply (in_step_suffix (done ++ retry)); rewrite <- app_assoc).
  pose proof (matches_spec (ar_objects a) (dget d (l1_repo_path p)) (ARCHIVE :: p) f (fun _ => True) ltac:(done)
    (fun q E => ltac:(injection E as <-; exact Hp)) a (conj eq_refl (ho_cache _ _ Hh))) as H.
  destruct (matches md5 (dget d (l1_repo_path p)) (ARCHIVE :: p) f a) as [a1 [b|e]]; [|done].
  destruct H as [[Ho1 Hc1] Hb]. pose proof (holds_same done a a1 Ho1 Hc1 Hh) as Hh1.
  assert (Ht1 : todo_ok d ((p, f) :: todo) a1) by (intros q g o; rewrite Ho1; apply Ht).
  destruct b.
  - destruct (Hb p eq_refl eq_refl) as (o & Eo & Hd & Hm & Hs).
    refine (IH ((p, f) :: done) retry (add_skipped stats) all _ Hin a1 _); [by rewrite <- Hall; solve_Permutation|].
    split; [|intros q g o' Hq; exact (Ht1 q g o' (list_elem_of_further _ _ _ Hq))].
    apply holds_add; [done..|]. eapply matched_stored; [|done..]. rewrite Ho1. eapply Ht; [by left|done].
  - unfold sbind. pose proof (upload_holds done p f a1 Hh1 Hp Hnew a1 eq_refl) as H.
    destruct (upload_verified _ _ _ _ _ a1) as [a2 [why|e]]; [|done]. destruct H as (Hag & Hh2 & Hok).
    pose proof (todo_agree d todo p f a1 a2 Htd Hag Ht1) as Ht2.
    assert (Hlater : match sync_pass md5 rclone ARCHIVE l1_repo_path d todo stats (retry ++ [(p, f)]) a2 with
      | (s', Ok out) => sync_post all (failed_verification stats) out s' | (_, Raise _) => True end).
    { refine (IH done (retry ++ [(p, f)]) stats all _ Hin a2 _); [by rewrite <- Hall; solve_Permutation|by split]. }
    destruct why; try exact Hlater.
    refine (IH ((p, f) :: done) retry (add_uploaded stats) all _ Hin a2 _); [by rewrite <- Hall; solve_Permutation|].
    split; [by apply Hok|done].
Qed.

(** The second attempts only add failures. *)
Lemma retry_pass_failures retry : forall stats a,
  match retry_pass md5 rclone ARCHIVE l1_repo_path false retry stats a with
  | (_, Ok stats') => failed_verification stats <= failed_verification stats'
  | (_, Raise _) => True
  end.
Proof.
  induction retry as [|[p f] retry IH]; intros stats a; cbn [retry_pass]; [by cbn|].
  unfold sbind. destruct (upload_verified _ _ _ _ _ a) as [a2 [why|e]]; [|done].
  pose proof (IH (add_unverified stats) a2) as Hu. pose proof (IH (add_uploaded stats) a2) as Hs.
  destruct why; [destruct (retry_pass _ _ _ _ _ _ (add_uploaded stats) _) as [? [?|?]]; done
    |destruct (retry_pass _ _ _ _ _ _ (add_unverified stats) _) as [? [?|?]]; [cbn in *; lia|done]..].
Qed.

(** When none fails, every file is on the remote. *)
Lemma retry_pass_spec retry : forall done stats all,
  done ++ retry ≡ₚ all -> in_step all ->
  hoare (holds done) (retry_pass md5 rclone ARCHIVE l1_repo_path false retry stats)
    (fun stats' a => failed_verification stats' = failed_verification stats -> holds all a) (fun _ => True).
Proof using Hrclone Hmd5 Hpaths.
  induction retry as [|[p f] retry IH]; intros done stats all Hall Hin; cbn [retry_pass].
  { rewrite app_nil_r in Hall. intros a [? ? Hl Hs] _.
    split; [done..|intros q g; rewrite <- Hall; apply Hl|intros q g; rewrite <- Hall; apply Hs]. }
  intros a Hh. unfold sbind. pose proof (in_step_perm _ _ (Permutation_sym Hall) Hin) as Hin'.
  destruct (step_fresh p f done retry Hin') as [Hp Hnew].
  pose proof (upload_holds done p f a Hh Hp Hnew a eq_refl) as H.
  destruct (upload_verified _ _ _ _ _ a) as [a2 [why|e]]; [|done]. destruct H as (Hag & Hh2 & Hok).
  pose proof (retry_pass_failures retry (add_unverified stats) a2) as Hmore.
  destruct why; [|destruct (retry_pass _ _ _ _ _ _ (add_unverified stats) _) as [? [?|?]]; [cbn in *; lia|done]..].
  refine (IH ((p, f) :: done) (add_uploaded stats) all _ Hin a2 _); [by rewrite <- Hall; solve_Permutation|by apply Hok].
Qed.
(** ** The archive's files *)

Lemma parquet_paths_nodup : NoDup (dkeys files) -> NoDup (parquet_paths files).
Proof.
  intros Hn. unfold parquet_paths. rewrite py_sorted_perm. eapply sublist_NoDup; [exact Hn|apply filter_sublist].
Qed.

Lemma local_parquet_elem p f : (p, f) ∈ local_parquet files <-> local p f /\ is_parquet p = true.
Proof.
  unfold local_parquet, local. rewrite list_elem_of_omap. split.
  - intros (q & Hq & E). destruct (dget files q) as [g|] eqn:Eg; [|done]. cbn in E. injection E as -> ->.
    unfold parquet_paths in Hq. rewrite py_sorted_elem, filter_elem in Hq. naive_solver.
  - intros [Hg Hpq]. exists p. rewrite Hg. split; [|done]. unfold parquet_paths. rewrite py_sorted_elem, filter_elem.
    split; [|done]. apply dget_elem in Hg. apply list_elem_of_fmap. by exists (p, f).
Qed.

Lemma omap_keys ps : map fst (omap (fun p => f ← dget files p; Some (p, f)) ps) `sublist_of` ps.
Proof.
  induction ps as [|p ps IH]; [done|]. cbn. destruct (dget files p) as [f|]; cbn; by constructor.
Qed.

Lemma local_parquet_step : NoDup (dkeys files) -> in_step (local_parquet files).
Proof.
  intros Hn. split; [|intros p f [? _]%local_parquet_elem; done].
  eapply sublist_NoDup; [by apply parquet_paths_nodup|apply omap_keys].
Qed.

Definition fresh (a : Arch) : Prop := flat (ar_objects a) /\ cache_ok a.

Lemma sync_l1_spec : NoDup (dkeys files) ->
  hoare fresh (sync_l1_tree md5 rclone files)
    (fun st a => 0 <= failed_verification st /\ (failed_verification st = 0 -> holds (local_parquet files) a)) (fun _ => True).
Proof using Hrclone Hmd5 Hpaths.
  intros Hn a [Hflat Hc]. unfold sync_l1_tree, sync_tree, sbind at 1.
  pose proof (remote_objects_spec (ar_objects a) L1_REPO_PREFIX (fun _ => True) ltac:(done) a (conj eq_refl Hc)) as H.
  destruct (remote_objects rclone L1_REPO_PREFIX a) as [a1 [d|e]]; [|done]. destruct H as [[Ho1 Hc1] Hd].
  specialize (Hd eq_refl Hflat). pose proof (local_parquet_step Hn) as Hin.
  assert (Hh : holds [] a1) by (split; [by rewrite Ho1|done|set_solver|set_solver]).
  assert (Ht : todo_ok d (local_parquet files) a1) by (intros p f o Hpf; rewrite Ho1; apply Hd, archive_path_text, (Hpaths p f), Hin, Hpf).
  unfold sbind.
  pose proof (sync_pass_spec d (local_parquet files) [] [] (mkSync 0 0 0) _ (Permutation_refl _) Hin a1 (conj Hh Ht)) as H.
  destruct (sync_pass _ _ _ _ _ _ _ _ a1) as [a2 [[st retry]|e]]; [|done]. destruct H as (Hf & done & Hh2 & Hp). cbn [fst snd] in *.
  pose proof (retry_pass_failures retry st a2) as Hmore.
  pose proof (retry_pass_spec retry done st _ Hp Hin a2 Hh2) as H.
  destruct (retry_pass _ _ _ _ _ _ _ a2) as [a3 [st'|e]]; [|done]. cbn in Hf. split; [lia|]. intros Hz. apply H. lia.
Qed.

(** ** Manifests leave the archive's objects alone *)

Lemma manifest_agree done a a' p : holds done a -> agree (manifest_repo_path_for p) (ar_objects a) a' -> holds done a'.
Proof. intros Hh Hag. eapply holds_agree; [exact Hh|exact Hag|done|done]. Qed.

Lemma manifest_upload done p f : hoare (holds done) (upload_verified md5 rclone ("manifest" :: p) f (manifest_repo_path_for p))
    (fun _ => holds done) (fun _ => True).
Proof using Hrclone Hmd5.
  intros a Hh.
  pose proof (upload_spec (ar_objects a) ("manifest" :: p) f (manifest_repo_path_for p) ltac:(done) a
    (conj eq_refl (ho_cache _ _ Hh))) as H.
  destruct (upload_verified _ _ _ _ _ a) as [a' [why|e]]; [|done]. destruct H as [Hag _]. by eapply manifest_agree.
Qed.

Lemma manifest_pass done d ms : forall stats retry,
  hoare (holds done) (sync_pass md5 rclone "manifest" manifest_repo_path_for d ms stats retry)
    (fun _ => holds done) (fun _ => True).
Proof using Hrclone Hmd5.
  induction ms as [|[p f] ms IH]; intros stats retry; cbn [sync_pass]; [by intros a Ha|].
  apply (hoare_bind _ _ _ _ _ (fun _ => holds done)).
  - intros a Hh.
    pose proof (matches_spec (ar_objects a) (dget d (manifest_repo_path_for p)) ("manifest" :: p) f (fun _ => True)
      ltac:(done) ltac:(done) a (conj eq_refl (ho_cache _ _ Hh))) as H.
    destruct (matches _ _ _ _ a) as [a' [b|e]]; [|done]. destruct H as [[? ?] _]. by eapply holds_same.
  - intros [|]; [apply IH|]. apply (hoare_bind _ _ _ _ _ (fun _ => holds done)); [apply manifest_upload|].
    intros [| | | | |]; apply IH.
Qed.

Lemma manifest_retry done ms : forall stats,
  hoare (holds done) (retry_pass md5 rclone "manifest" manifest_repo_path_for true ms stats)
    (fun _ => holds done) (fun _ => True).
Proof using Hrclone Hmd5.
  induction ms as [|[p f] ms IH]; intros stats; cbn [retry_pass]; [by intros a Ha|].
  apply (hoare_bind _ _ _ _ _ (fun _ => holds done)); [apply manifest_upload|].
  intros [| | | | |]; [apply IH|by apply hoare_raise..].
Qed.

Lemma sync_manifest_spec done ms :
  hoare (holds done) (sync_manifest_tree md5 rclone ms) (fun _ => holds done) (fun _ => True).
Proof using Hrclone Hmd5.
  unfold sync_manifest_tree, sync_tree. apply (hoare_bind _ _ _ _ _ (fun _ => holds done)).
  - intros a Hh. pose proof (remote_objects_spec (ar_objects a) "manifests/" (fun _ => True) ltac:(done) a
      (conj eq_refl (ho_cache _ _ Hh))) as H.
    destruct (remote_objects _ _ a) as [a' [d|e]]; [|done]. destruct H as [[? ?] _]. by eapply holds_same.
  - intros d. apply (hoare_bind _ _ _ _ _ (fun _ => holds done)); [apply manifest_pass|].
    intros out. apply manifest_retry.
Qed.
(** ** Verified paths *)

(** The path names an archive file whose bytes are every remote copy's. *)
Definition backed (objs : objects) (rel : string) : Prop :=
  exists p f, local p f /\ rel = l1_repo_path p /\ stored objs rel (f_bytes f).

Lemma verified_loop_spec objs d ps : forall acc,
  (forall p o, p <> "" -> dget d (slashed "l1" p) = Some o -> digest_of md5 (copies objs (slashed "l1" p)) o) ->
  (forall p f, (p, f) ∈ ps -> local p f) -> Forall (backed objs) acc ->
  hoare (at_objs objs) (verified_loop md5 d ps acc) (fun v a => at_objs objs a /\ Forall (backed objs) v) (fun _ => True).
Proof using Hmd5 Hpaths.
  induction ps as [|[p f] ps IH]; intros acc Hd Hl Hacc; cbn [verified_loop]; [by intros a Ha|].
  assert (Hp : local p f) by (apply Hl; by left).
  apply (hoare_bind _ _ _ _ _ (fun b a => at_objs objs a /\ (b = true -> backed objs (l1_repo_path p)))).
  - eapply hoare_conseq; [exact (matches_spec objs (dget d (l1_repo_path p)) (ARCHIVE :: p) f (fun _ => True)
      ltac:(done) (fun q E => ltac:(injection E as <-; exact Hp)))|done| |done].
    cbn. intros b a [Ha Hb]. split; [done|]. intros ->. destruct (Hb p eq_refl eq_refl) as (o & Eo & Hdup & Hm & Hs).
    exists p, f. split_and!; [done..|]. eapply matched_stored; [|done..]. apply Hd; [|done].
    by apply archive_path_text, (Hpaths p f).
  - intros b a [Ha Hb]. refine (IH _ Hd _ _ a Ha); [intros q g Hq; apply Hl; by right|].
    destruct b; [|done]. unfold set_add. case_decide; [done|]. constructor; [by apply Hb|done].
Qed.

Lemma verified_paths_spec a : NoDup (dkeys files) -> fresh a ->
  match verified_paths md5 rclone files a with
  | (a', Ok v) => at_objs (ar_objects a) a' /\ Forall (backed (ar_objects a)) v
  | (_, Raise _) => True
  end.
Proof using Hrclone Hmd5 Hpaths.
  intros Hn [Hflat Hc]. unfold verified_paths, sbind.
  pose proof (remote_objects_spec (ar_objects a) L1_REPO_PREFIX (fun _ => True) ltac:(done) a (conj eq_refl Hc)) as H.
  destruct (remote_objects rclone L1_REPO_PREFIX a) as [a1 [d|e]]; [|done]. destruct H as [Ha1 Hd].
  specialize (Hd eq_refl Hflat).
  refine (verified_loop_spec (ar_objects a) d (local_parquet files) [] Hd _ _ a1 Ha1); [|constructor].
  by intros p f [? _]%local_parquet_elem.
Qed.
End Archiver.
