(* ===== verification/Eod.v ===== *)
(** * The end of a day's storage work ([src/orchestration/eod.py] and
    [_run_eod_housekeeping] of [src/orchestration/daemon.py])

    Maintenance normalizes the due partitions, the offload uploads and verifies
    the archive and purges old local objects, a second maintenance deletes the
    partitions whose objects were verified, and the remote L0 they supersede is
    purged. *)
From S2P Require Import Prelude PyStr Layout Retention Remote.

(** The data directory and the remote. *)
Record Site := mkSite {
  st_lake : Lake; st_manifests : list (path * LFile); st_objects : objects; st_calls : nat
}.

Abbreviation site := (stx Site exc).

Definition put_lake (lk : Lake) (s : Site) : Site := mkSite lk (st_manifests s) (st_objects s) (st_calls s).
Definition put_l1s (l1 : list (path * LFile)) (lk : Lake) : Lake :=
  mkLake (lk_dirs lk) (lk_l0 lk) l1 (lk_qdirs lk) (lk_quar lk).

Record EodOffloadResult := mkOffload {
  of_l1 : SyncStats; of_manifests : SyncStats; of_verified : list string; of_purged : Z
}.

Record EodHousekeeping := mkHousekeeping {
  hk_deleted : Z; hk_uploaded : Z; hk_purged : Z; hk_maintenance_ok : bool; hk_offload_ok : bool; hk_held : Z
}.

(** [(journal_root / rel).exists()] and [(quarantine_root / rel).exists()]. *)
Definition exists_l0 (lk : Lake) (p : path) : bool :=
  bool_decide (p = []) || bool_decide (p ∈ lk_dirs lk) || dmem (lk_l0 lk) p.
Definition exists_quarantined (lk : Lake) (p : path) : bool := bool_decide (p = []) || in_quarantine p lk.

(** [l0_dir.removeprefix(L0_REPO_PREFIX)] as a path. *)
Definition l0_dir_path (l0_dir : string) : path := posix_parts (default l0_dir (str_after L0_REPO_PREFIX l0_dir)).

(** The comprehension that keeps a path unless its partition [there]. *)
Definition keep_unless (there : path -> bool) (paths : list string) : list string :=
  List.filter (fun p => match l0_partition_for_l1 p with
                        | None => true
                        | Some d => negb (there (l0_dir_path d))
                        end) paths.

Definition set_minus (a b : list string) : list string := List.filter (fun x => negb (bool_decide (x ∈ b))) a.

(** [except (KrxAlphaError, OSError)]. *)
Definition krx_or_os (e : exc) : bool :=
  match e with X_os | X_remote | X_krx => true | X_value | X_other => false end.

Section Eod.
Context (md5 : string -> string).
Context (rclone : nat -> rclone_cmd -> objects -> objects * res exc answer).
Context (pq_rows : string -> option Z).

(** An archiver is built per use case, with an empty md5 cache. *)
Definition with_archiver {A} (c : arch A) : site A := fun s =>
  let '(a, r) := c (mkArch (st_objects s) (st_calls s) []) in
  (mkSite (st_lake s) (st_manifests s) (ar_objects a) (ar_calls a), r).

(** The calls of one archiver in [run_eod_offload]: both trees are synchronised, a
    verification failure raises, then the verified paths and the remote names. *)
Definition offload_remote (files manifests : list (path * LFile))
    : arch (SyncStats * SyncStats * list string * list string) :=
  (l1 <- sync_l1_tree md5 rclone files;;
   m <- sync_manifest_tree md5 rclone manifests;;
   if (0 <? failed_verification l1) || (0 <? failed_verification m) then sraise X_remote
   else
     verified <- verified_paths md5 rclone files;;
     confirmed <- remote_files rclone L1_REPO_PREFIX;;
     sret (l1, m, verified, confirmed))%py.

Definition empty_offload : EodOffloadResult := mkOffload (mkSync 0 0 0) (mkSync 0 0 0) [] 0.

(** [configured]: an archiver can be built; [cutoff] is the archive's; the journal
    root is given. *)
Definition run_eod_offload (configured : bool) (cutoff : Z) : site EodOffloadResult :=
  if negb configured then sret empty_offload
  else
    (s <- sget;;
     out <- with_archiver (offload_remote (lk_l1 (st_lake s)) (st_manifests s));;
     let '(l1, m, verified, confirmed) := out in
     s <- sget;;
     let confirmed := keep_unless (exists_l0 (st_lake s)) confirmed in
     let '(l1s, r) := prune_local_l1 cutoff (Some confirmed) (lk_l1 (st_lake s)) in
     smod (put_lake (put_l1s l1s (st_lake s)));;;
     n <- slift r;;
     sret (mkOffload l1 m verified n))%py.

Definition run_eod_remote_l0_purge (configured : bool) (verified : list string) : site PurgeStats :=
  if negb configured then sret (mkPurge 0 0 0 0)
  else
    (s <- sget;;
     let verified := keep_unless (exists_quarantined (st_lake s)) verified in
     with_archiver (purge_superseded_l0 rclone verified (exists_l0 (st_lake s))))%py.

(** [run_eod_maintenance]; the quarantine root is given. *)
Definition run_eod_maintenance (normalizer : path -> list (path * LFile) -> option LFile -> option LFile * norm_out)
    (cutoff : Z) (verified : option (list string)) (normalize reuse : bool) (hold : path -> option string)
    : Site -> Site * (Prune * res exc unit) := fun s =>
  let '(p, r) := prune_old_journals pq_rows normalizer cutoff true verified normalize reuse hold (st_lake s) in
  (put_lake (pr_lake p) s, (p, r)).

(** [_run_eod_housekeeping]. [normalizer1] and [normalizer2] are the normalizer of
    the two passes, [configured1] and [configured2] whether an archiver can be
    built for the offload and the purge. *)
Section Housekeeping.
Context (normalizer1 normalizer2 : path -> list (path * LFile) -> option LFile -> option LFile * norm_out).
Context (cutoff archive_cutoff : Z) (hold : path -> option string).
Context (disk_ok configured1 configured2 : bool).

(** The first maintenance: the files deleted, the holds and whether it went well. *)
Definition first_maintenance : site (Z * list string * bool) := fun s =>
  if negb disk_ok then (s, Ok (0, [], false))
  else
    match run_eod_maintenance normalizer1 cutoff None true false hold s with
    | (s', (p, Ok _)) => (s', Ok (pr_deleted p, pr_held p, negb (0 <? pr_failed p)))
    | (s', (_, Raise e)) => if krx_or_os e then (s', Ok (0, [], false)) else (s', Raise e)
    end.

(** The offload; every exception is caught. *)
Definition caught_offload : site (option EodOffloadResult) := fun s =>
  match run_eod_offload configured1 archive_cutoff s with
  | (s', Ok r) => (s', Ok (Some r))
  | (s', Raise _) => (s', Ok None)
  end.

(** The purge; every exception is caught. *)
Definition caught_purge (verified : list string) : site unit := fun s =>
  match run_eod_remote_l0_purge configured2 verified s with (s', _) => (s', Ok tt) end.

(** The second maintenance and the purge. *)
Definition second_maintenance (verified : list string) : site (Z * list string * bool) := fun s =>
  match run_eod_maintenance normalizer2 cutoff (Some verified) disk_ok true hold s with
  | (s', (p, Ok _)) =>
      let left := set_minus (set_minus verified (pr_invalidated p)) (pr_held p) in
      (fst (caught_purge left s'), Ok (pr_deleted p, pr_held p, negb (0 <? pr_failed p)))
  | (s', (_, Raise e)) => if krx_or_os e then (s', Ok (0, [], false)) else (s', Raise e)
  end.

Definition run_eod_housekeeping : site EodHousekeeping :=
  (m1 <- first_maintenance;;
   let '(deleted1, held1, ok1) := m1 in
   off <- caught_offload;;
   match off with
   | None => sret (mkHousekeeping deleted1 0 0 ok1 false (zlen (fromkeys held1)))
   | Some o =>
       m2 <- second_maintenance (of_verified o);;
       let '(deleted2, held2, ok2) := m2 in
       sret (mkHousekeeping (deleted1 + deleted2) (uploaded (of_l1 o)) (of_purged o) (ok1 && ok2) true
               (zlen (fromkeys (held1 ++ held2))))
   end)%py.
End Housekeeping.
End Eod.
