(* ===== verification/EodFacts.v ===== *)
(** * No frame is lost at the end of the day

    Through both maintenance passes, the offload and the purge of
    [run_eod_housekeeping], every journal file stays, is quarantined, or is
    contained in an archive object of which every remote copy is a verified one. *)
From Stdlib Require Import Ascii.
From S2P Require Import Prelude PyStr PyTime Layout Retention RetentionFacts Remote RemoteFacts Eod.

(** ** Soundness of the archive *)

(** [covers q f b]: the archive object [b] contains the frames of file [f] at [q]. *)
Section Sound.
Context (covers : path -> LFile -> string -> Prop).

(** An archive object not older than a file of its partition contains it. *)
Definition sound (lk : Lake) : Prop := forall p q f g, p <> [] -> (q, f) ∈ files_of p lk ->
  dget (lk_l1 lk) (l1_relpath_for_l0_partition p) = Some g -> f_mtime f <= f_mtime g -> covers q f (f_bytes g).

(** The normalizer replaces an object by a complete one or not at all. *)
Definition normalizer_sound (norm : path -> list (path * LFile) -> option LFile -> option LFile * norm_out) : Prop :=
  forall p files old new o, norm p files old = (new, o) ->
    new = old \/ forall g, new = Some g -> forall q f, (q, f) ∈ files -> covers q f (f_bytes g).

Lemma sound_sub lk lk' :
  (forall q f, (q, f) ∈ lk_l0 lk' -> (q, f) ∈ lk_l0 lk) ->
  (forall p g, dget (lk_l1 lk') p = Some g -> dget (lk_l1 lk) p = Some g) -> sound lk -> sound lk'.
Proof.
  intros H0 H1 Hs p q f g Hp [Hq Hu]%files_of_elem Hg Hm. eapply (Hs p); [done| |by apply H1|done].
  apply files_of_elem. auto.
Qed.

Lemma sound_put norm part lk : normalizer_sound norm -> part <> [] -> NoDup (dkeys (lk_l1 lk)) -> sound lk ->
  sound (put_l1 (l1_relpath_for_l0_partition part) (fst (normalized norm part lk)) lk).
Proof.
  intros Hn Hpart Hk Hs p q f g Hp Hq. rewrite dget_put_l1 by done.
  case_decide as E; [|by apply (Hs p)]. apply l1_relpath_inj in E as ->; [|done..].
  unfold normalized. destruct (norm part _ _) as [new o] eqn:En. cbn. intros -> Hm.
  destruct (Hn _ _ _ _ _ En) as [Hold|Hcov]; [by apply (Hs part q f g)|].
  apply (Hcov g eq_refl). exact Hq.
Qed.

Lemma pstep_sound pq norm cutoff quar ver nz re hold part lk lk' :
  normalizer_sound norm -> part <> [] -> NoDup (dkeys (lk_l1 lk)) ->
  pstep pq norm cutoff quar ver nz re hold part lk lk' -> sound lk -> sound lk'.
Proof.
  intros Hn Hpart Hk Hstep Hs. pose proof (sound_put norm part lk Hn Hpart Hk Hs) as Hput.
  destruct Hstep as [ |? ?|? ? ?|? ? ? ? ?|lk' Hdue Hv Ha Hin]; try done.
  - refine (sound_sub _ _ _ _ Hput); [|done]. by intros q f [? _]%rm_tree_elem.
  - destruct Ha as [g _ _|g _ _ _ _ _ _|g n _ _ _ En _].
    1, 2: refine (sound_sub _ _ _ _ Hs); [|done]; by intros q f [? _]%rm_tree_elem.
    rewrite En in Hput. refine (sound_sub _ _ _ _ Hput); [|done]. by intros q f [? _]%rm_tree_elem.
Qed.
End Sound.

(** ** Names *)

Lemma archive_path_out p : archive_path p -> archive_path (l1_relpath_for_l0_partition p).
Proof.
  intros (Hc & Hp & Hd). destruct (exists_last Hp) as (q & nm & ->). rewrite l1_relpath_snoc.
  apply Forall_app in Hc as [Hq [Hnm _]%Forall_cons].
  assert (Hx : clean (String.append nm PARQUET)).
  { destruct Hnm as (? & ? & Hs).
    assert (Hlen : (8 <= length (s2l (String.append nm PARQUET)))%nat) by (rewrite s2l_app, length_app; cbn; lia).
    split_and!; [intros E; rewrite E in Hlen; cbn in Hlen; lia..|].
    rewrite s2l_app, not_elem_of_app. split; [done|]. by apply (bool_decide_unpack _); vm_compute. }
  split_and!; [by apply Forall_app; split; [|constructor]|by destruct q|].
  destruct q as [|h q].
  - cbn [app as_posix String.concat]. unfold in_dir. apply orb_false_iff. split; apply bool_decide_false.
    + intros E. apply (f_equal (fun s => length (s2l s))) in E. rewrite s2l_app, length_app in E. cbn in E. lia.
    + intros [r E]. apply str_after_some in E. destruct Hx as (_ & _ & Hs). rewrite E, s2l_app in Hs. set_solver.
  - apply Forall_cons in Hq as [(? & ? & Hh) _].
    cbn [app] in *. rewrite in_dir_head in Hd |- *; [done|by apply (bool_decide_unpack _); vm_compute|done|by destruct q
      |by apply (bool_decide_unpack _); vm_compute|done|by destruct q].
Qed.

(** Directories and archive objects have file names, and no directory is named [l1]. *)
Record named (lk : Lake) : Prop := {
  nm_dirs : forall d, d ∈ partitions lk -> archive_path d;
  nm_l1 : forall p f, dget (lk_l1 lk) p = Some f -> archive_path p
}.

(** The lake between two passes. *)
Record tidy (covers : path -> LFile -> string -> Prop) (lk : Lake) : Prop := {
  ti_ok : lake_ok lk;
  ti_named : named lk;
  ti_sound : sound covers lk
}.

Lemma shrink_ok lk lk' : lk_dirs lk' `sublist_of` lk_dirs lk -> NoDup (dkeys (lk_l1 lk')) -> lake_ok lk -> lake_ok lk'.
Proof. intros Hd Hk [_ Hn]. split; [done|]. by eapply sublist_NoDup. Qed.

Lemma partitions_sub lk lk' d : lk_dirs lk' `sublist_of` lk_dirs lk -> d ∈ partitions lk' -> d ∈ partitions lk.
Proof.
  intros Hs [Hd Hn]%filter_elem. apply filter_elem. split; [|done]. by eapply elem_of_sublist.
Qed.

Lemma put_named part f lk : NoDup (dkeys (lk_l1 lk)) -> archive_path part -> named lk ->
  named (put_l1 (l1_relpath_for_l0_partition part) f lk).
Proof.
  intros Hk Hp [Hd Hl]. split; [done|]. intros p g. rewrite dget_put_l1 by done.
  case_decide as E; [intros _; subst; by apply archive_path_out|apply Hl].
Qed.

Lemma named_sub lk lk' : lk_dirs lk' `sublist_of` lk_dirs lk ->
  (forall p g, dget (lk_l1 lk') p = Some g -> dget (lk_l1 lk) p = Some g) -> named lk -> named lk'.
Proof.
  intros Hd Hl [Hn Hp]. split; [|by intros p f ?%Hl; eapply Hp]. intros d Hin. eapply Hn, partitions_sub; done.
Qed.

Section Pass.
Context (covers : path -> LFile -> string -> Prop).
Context (pq_rows : string -> option Z).
Context (norm : path -> list (path * LFile) -> option LFile -> option LFile * norm_out).
Context (Hnorm : normalizer_sound covers norm).
Context (cutoff : Z) (quarantine : bool) (verified : option (list string)) (normalize reuse : bool).
Context (hold : path -> option string).

Lemma pstep_tidy part lk lk' : archive_path part ->
  pstep pq_rows norm cutoff quarantine verified normalize reuse hold part lk lk' -> tidy covers lk -> tidy covers lk'.
Proof using Hnorm.
  intros Hp Hstep [Hok Hn Hs]. pose proof (lo_keys _ Hok) as Hk.
  split; [| |by eapply pstep_sound; [exact Hnorm|apply Hp|exact Hk|exact Hstep|exact Hs]].
  - pose proof (fun f => put_l1_nodup (l1_relpath_for_l0_partition part) f lk Hk) as Hput.
    destruct Hstep as [ |? ?|? ? ?|? ? ? ? ?|lk' _ _ Ha _]; [done|by split; [apply Hput|apply Hok]..| |].
    + refine (shrink_ok lk _ _ _ Hok); [apply filter_sublist|apply Hput].
    + destruct Ha as [g _ _|g _ _ _ _ _ _|g n _ _ _ En _]; (refine (shrink_ok lk _ _ _ Hok); [apply filter_sublist|]); try done.
      apply Hput.
  - pose proof (fun f => put_named part f lk Hk Hp Hn) as Hput.
    destruct Hstep as [ |? ?|? ? ?|? ? ? ? ?|lk' _ _ Ha _]; [done|apply Hput| | |].
    + refine (named_sub _ _ _ _ (Hput (fst (normalized norm part lk)))); [done|by intros].
    + refine (named_sub _ _ _ _ (Hput (fst (normalized norm part lk)))); [apply filter_sublist|by intros].
    + destruct Ha as [g _ _|g _ _ _ _ _ _|g n _ _ _ En _].
      1, 2: refine (named_sub _ _ _ _ Hn); [apply filter_sublist|by intros].
      refine (named_sub _ _ _ _ (Hput (Some g))); [apply filter_sublist|by intros].
Qed.

Lemma prune_tidy lk : tidy covers lk ->
  tidy covers (pr_lake (fst (prune_old_journals pq_rows norm cutoff quarantine verified normalize reuse hold lk))).
Proof using Hnorm.
  intros Ht. unfold prune_old_journals.
  assert (Hps : forall p, p ∈ partitions lk -> archive_path p) by (intros p; apply (nm_dirs _ (ti_named _ _ Ht))).
  refine (proj1 (each_inv _ (fun ps s => tidy covers (pr_lake s) /\ forall p, p ∈ ps -> archive_path p) _ _ _ _ _)).
  - intros part ps s [Hs Hp]. split; [|intros; apply Hp; by right]. eapply pstep_tidy; [|by apply prune_one_step, Hs|done].
    apply Hp. by left.
  - intros ps s [Hs _]. split; [done|set_solver].
  - split; [done|exact Hps].
Qed.
End Pass.

(** ** The archive's own retention *)

Lemma prune_l1_loop_sub cutoff confirmed ps : forall files n, NoDup (dkeys files) ->
  let '(files', _) := prune_l1_loop cutoff confirmed ps files n in
  NoDup (dkeys files') /\ (forall p g, dget files' p = Some g -> dget files p = Some g).
Proof.
  induction ps as [|p ps IH]; intros files n Hk; cbn [prune_l1_loop]; [done|].
  destruct (l1_date_text p) as [text|]; [|by apply IH]. destruct (iso_date text) as [day|]; [|done].
  destruct (_ || _); [by apply IH|].
  assert (Hk' : NoDup (dkeys (ddel files p))) by (eapply sublist_NoDup; [|apply dkeys_ddel_sub]; done).
  specialize (IH (ddel files p) (n + 1) Hk'). destruct (prune_l1_loop _ _ _ _ _) as [files' r].
  destruct IH as [? Hsub]. split; [done|]. intros q g Hq%Hsub.
  destruct (decide (p = q)) as [->|]; [by rewrite dget_ddel_eq in Hq|by rewrite dget_ddel_ne in Hq].
Qed.

Section Eod.
Context (md5 : string -> string) (rclone : nat -> rclone_cmd -> objects -> objects * res exc answer).
Context (Hrclone : rclone_ok md5 rclone).
Context (Hmd5 : forall a b, String.length a = String.length b -> md5 a = md5 b -> a = b).

(** ** The offload *)

Lemma remote_files_same files objs pre R : (forall a, at_objs md5 files objs a -> R a) ->
  hoare (at_objs md5 files objs) (remote_files rclone pre) (fun _ => at_objs md5 files objs) R.
Proof using Hrclone.
  intros HR. unfold remote_files. eapply hoare_bind; [by apply (lsjson_spec md5 rclone Hrclone)|].
  by intros es a [Ha _].
Qed.

(** When the offload returns, every archive file is on the remote, and so is the
    file of every verified path. *)
Definition offloaded (files : list (path * LFile)) (v : list string) (objs : objects) : Prop :=
  flat objs /\ Forall (backed files objs) v /\
  forall p f, (p, f) ∈ local_parquet files -> stored objs (l1_repo_path p) (f_bytes f).

Lemma offload_remote_spec files ms a :
  NoDup (dkeys files) -> (forall p f, dget files p = Some f -> archive_path p) -> fresh md5 files a ->
  match offload_remote md5 rclone files ms a with
  | (a', Ok (_, _, v, _)) => offloaded files v (ar_objects a')
  | (_, Raise _) => True
  end.
Proof using Hrclone Hmd5.
  intros Hn Hp Ha. unfold offload_remote, sbind at 1.
  pose proof (sync_l1_spec md5 rclone Hrclone Hmd5 files Hp Hn a Ha) as H.
  destruct (sync_l1_tree _ _ _ a) as [a1 [l1|e]]; [|done]. destruct H as [Hpos Hh]. unfold sbind at 1.
  destruct (Z.eq_dec (failed_verification l1) 0) as [Hz|Hz].
  2: { destruct (sync_manifest_tree _ _ _ a1) as [a2 [m|e]]; [|done].
    by rewrite (proj2 (Z.ltb_lt 0 (failed_verification l1))) by lia. }
  pose proof (sync_manifest_spec md5 rclone Hrclone Hmd5 files (local_parquet files) ms a1 (Hh Hz)) as H.
  destruct (sync_manifest_tree _ _ _ a1) as [a2 [m|e]]; [|done]. destruct ((0 <? _) || _); [done|].
  unfold sbind at 1.
  pose proof (verified_paths_spec md5 rclone Hrclone Hmd5 files Hp a2 Hn (conj (ho_flat _ _ _ _ H) (ho_cache _ _ _ _ H))) as Hv.
  destruct (verified_paths _ _ _ a2) as [a3 [v|e]]; [|done]. destruct Hv as [Ha3 Hv]. unfold sbind at 1.
  pose proof (remote_files_same files (ar_objects a2) L1_REPO_PREFIX (fun _ => True) ltac:(done) a3 Ha3) as Hc.
  destruct (remote_files _ _ a3) as [a4 [c|e]]; [|done]. destruct Hc as [Ho _].
  cbn. rewrite Ho. split_and!; [apply H|done|apply H].
Qed.

(** The lake is untouched but for archive files removed. *)
Record archived_less (lk lk' : Lake) : Prop := {
  al_l0 : lk_l0 lk' = lk_l0 lk;
  al_dirs : lk_dirs lk' = lk_dirs lk;
  al_quar : lk_quar lk' = lk_quar lk;
  al_qdirs : lk_qdirs lk' = lk_qdirs lk;
  al_keys : NoDup (dkeys (lk_l1 lk'));
  al_l1 : forall p g, dget (lk_l1 lk') p = Some g -> dget (lk_l1 lk) p = Some g
}.

Lemma archived_less_refl lk : NoDup (dkeys (lk_l1 lk)) -> archived_less lk lk.
Proof. by split. Qed.

Lemma run_eod_offload_spec configured cutoff s :
  flat (st_objects s) -> lake_ok (st_lake s) -> named (st_lake s) ->
  let '(s', r) := run_eod_offload md5 rclone configured cutoff s in
  archived_less (st_lake s) (st_lake s') /\
  match r with
  | Ok o => configured = true -> offloaded (lk_l1 (st_lake s)) (of_verified o) (st_objects s')
  | Raise _ => True
  end /\ (configured = false -> s' = s /\ forall o, r = Ok o -> of_verified o = []).
Proof using Hrclone Hmd5.
  intros Hflat Hok Hn. unfold run_eod_offload. destruct configured; cbn [negb].
  2: { split_and!; [apply archived_less_refl, Hok|done|]. intros _. split; [done|]. by intros o [= <-]. }
  assert (Hfr : fresh md5 (lk_l1 (st_lake s)) (mkArch (st_objects s) (st_calls s) [])).
  { split; [done|]. by intros p sz mt d f. }
  pose proof (offload_remote_spec _ (st_manifests s) _ (lo_keys _ Hok) (nm_l1 _ Hn) Hfr) as H.
  unfold sbind, sget, with_archiver.
  destruct (offload_remote _ _ _ _ _) as [a [[[[l1 m] v] c]|e]]; cbn [fst snd st_lake st_objects].
  2: { split_and!; [apply archived_less_refl, Hok|done|done]. }
  unfold prune_local_l1.
  pose proof (prune_l1_loop_sub cutoff (keep_unless (exists_l0 (st_lake s)) c) (parquet_paths (lk_l1 (st_lake s)))
    (lk_l1 (st_lake s)) 0 (lo_keys _ Hok)) as Hl.
  destruct (prune_l1_loop _ _ _ _ _) as [l1s r]. destruct Hl as [Hk Hsub]. cbn.
  assert (Hless : archived_less (st_lake s) (put_l1s l1s (st_lake s))) by (by split).
  destruct r as [n|e]; cbn; split_and!; done.
Qed.

(** ** What the purge leaves *)

Lemma l1_not_l0 d p : is_Some (str_after L0_REPO_PREFIX d) -> is_Some (str_after L1_REPO_PREFIX p) ->
  str_after (String.append d "/") p = None.
Proof.
  intros [x Hd%str_after_some] [y Hp%str_after_some]. destruct (str_after _ _) as [z|] eqn:E; [|done].
  apply str_after_some in E. subst. done.
Qed.

(** A purge below other directories. *)
Lemma purge_one_keeps ex d st a p : is_Some (str_after L1_REPO_PREFIX p) ->
  copies (ar_objects (fst (purge_one rclone ex d st a))) p = copies (ar_objects a) p.
Proof using Hrclone.
  intros Hp. unfold purge_one. destruct (str_after L0_REPO_PREFIX d) as [rest|] eqn:Ed; [|done].
  destruct (ex _); [done|]. unfold run.
  pose proof (rk_list_dir md5 rclone Hrclone (ar_calls a) d (ar_objects a)) as Hl.
  destruct (rclone (ar_calls a) (C_list_dir d) (ar_objects a)) as [o1 [ans|e]]; cbn in Hl; subst o1; [|done].
  destruct (a_rc ans =? 3); [done|]. destruct (negb _); [done|]. cbn [ar_calls ar_objects].
  pose proof (rk_purge md5 rclone Hrclone (S (ar_calls a)) d (ar_objects a) p) as Hg.
  destruct (rclone (S (ar_calls a)) (C_purge d) (ar_objects a)) as [o2 [ans2|e]]; cbn in Hg; [destruct (a_rc ans2 =? 0)|];
    cbn; unfold copies; rewrite Hg; try done; apply l1_not_l0; eauto.
Qed.

Lemma purge_keeps ex ds : forall st a p, is_Some (str_after L1_REPO_PREFIX p) ->
  copies (ar_objects (fst (purge_dirs rclone ex ds st a))) p = copies (ar_objects a) p.
Proof using Hrclone.
  induction ds as [|d ds IH]; intros st a p Hp; cbn [purge_dirs]; [done|]. unfold sbind.
  pose proof (purge_one_keeps ex d st a p Hp) as H. destruct (purge_one _ _ _ _ a) as [a1 [st'|e]]; cbn in *; [|done].
  rewrite IH by done. exact H.
Qed.

Lemma caught_purge_keeps configured v s :
  let s' := fst (caught_purge rclone configured v s) in
  st_lake s' = st_lake s /\ forall p b, stored (st_objects s) (l1_repo_path p) b -> stored (st_objects s') (l1_repo_path p) b.
Proof using Hrclone.
  unfold caught_purge, run_eod_remote_l0_purge. destruct (negb configured); [done|].
  unfold sbind, sget, with_archiver, purge_superseded_l0.
  match goal with |- context [purge_dirs ?r ?e ?d ?t ?a] =>
    pose proof (fun p => purge_keeps e d t a p) as H; destruct (purge_dirs r e d t a) as [a' out] end.
  split; [done|]. intros p b [Hne Hall]. unfold stored. cbn [fst ar_objects st_objects] in *.
  assert (Hl1 : is_Some (str_after L1_REPO_PREFIX (l1_repo_path p))) by (unfold l1_repo_path; rewrite str_after_app; done).
  by rewrite (H _ Hl1).
Qed.
(** ** The whole sequence *)

Context (pq_rows : string -> option Z).
Context (norm1 norm2 : path -> list (path * LFile) -> option LFile -> option LFile * norm_out).
Context (covers : path -> LFile -> string -> Prop).
Context (Hnorm1 : normalizer_sound covers norm1).
Context (cutoff archive_cutoff : Z) (hold : path -> option string) (disk_ok configured1 configured2 : bool).

(** The object of partition [p] is on the remote: each copy of it is the local
    object [g], which contains the file unless it is older. *)
Definition remote_copy (objs : objects) (p q : path) (f g : LFile) : Prop :=
  under p q = true /\ stored objs (l1_repo_path (l1_relpath_for_l0_partition p)) (f_bytes g) /\
  (f_mtime f <= f_mtime g -> covers q f (f_bytes g)) /\ (disk_ok = true -> f_mtime f <= f_mtime g) /\
  is_Some (str_after "dt=" (name p)) /\ (disk_ok = true -> hold p = None).

Definition safe (s : Site) (q : path) (f : LFile) : Prop :=
  (q, f) ∈ lk_l0 (st_lake s) \/ (q, f) ∈ lk_quar (st_lake s) \/ exists p g, remote_copy (st_objects s) p q f g.

Lemma first_maintenance_spec s : tidy covers (st_lake s) ->
  let s' := fst (first_maintenance pq_rows norm1 cutoff hold disk_ok s) in
  tidy covers (st_lake s') /\ st_objects s' = st_objects s /\
  (forall q f, (q, f) ∈ lk_l0 (st_lake s) -> (q, f) ∈ lk_l0 (st_lake s') \/ (q, f) ∈ lk_quar (st_lake s')).
Proof using Hnorm1.
  intros Ht. unfold first_maintenance. destruct (negb disk_ok); [by split_and!; [| |left]|].
  unfold run_eod_maintenance.
  pose proof (prune_tidy covers pq_rows norm1 Hnorm1 cutoff true None true false hold _ Ht) as Ht'.
  pose proof (prune_fate pq_rows norm1 cutoff true None true false hold _ (ti_ok _ _ Ht)) as Hf.
  destruct (prune_old_journals _ _ _ _ _ _ _ _ _) as [p r]. cbn [fst] in *.
  assert (Hkeep : forall q f, (q, f) ∈ lk_l0 (st_lake s) -> (q, f) ∈ lk_l0 (pr_lake p) \/ (q, f) ∈ lk_quar (pr_lake p)).
  { intros q f Hin. destruct (ri_fate _ _ _ _ _ _ _ _ _ _ _ Hf q f Hin) as [?|[(_ & _ & ?)|(x & _ & _ & Ha)]]; [auto..|].
    by apply ar_verified in Ha. }
  destruct r as [u|e]; [done|]. by destruct (krx_or_os e).
Qed.

(** A partition the second pass deletes. *)
Lemma archived_copy s v files lk part q f : tidy covers (st_lake s) ->
  (forall p f, dget files p = Some f -> archive_path p) ->
  (forall p g, dget (lk_l1 (st_lake s)) p = Some g -> dget files p = Some g) ->
  Forall (backed files (st_objects s)) v -> part <> [] -> (q, f) ∈ lk_l0 (st_lake s) ->
  archived pq_rows norm2 cutoff (Some v) disk_ok true hold (st_lake s) lk part q f ->
  exists p g, remote_copy (st_objects s) p q f g.
Proof.
  intros Ht Hfp Hsub Hv Hne Hin [Hu Hpart _ Hver (g & _ & Ho)]. cbn in Hver. apply bool_decide_eq_true in Hver.
  rewrite Forall_forall in Hv. destruct (Hv _ Hver) as (p & g' & Hp & E & Hst).
  pose proof (archive_path_out part (nm_dirs _ (ti_named _ _ Ht) part Hpart)) as Hout.
  assert (Hg : dget (lk_l1 (st_lake s)) (l1_relpath_for_l0_partition part) = Some g /\ (disk_ok = true -> f_mtime f <= f_mtime g /\ hold part = None)).
  { destruct Ho as [(Hd & Hg)|[(_ & _ & Hh & Hg & _ & Hm)|(_ & ? & _)]]; [split; [done|by rewrite Hd]|done|done]. }
  destruct Hg as [Hg Hm]. exists part, g. split_and!; [done| | |by apply Hm| |by apply Hm].
  - rewrite !l1_slashed in E. apply (slashed_inj "l1") in E.
    destruct Hout as (Hc & Hn & _), (Hfp p g' Hp) as (Hc' & Hn' & _). apply as_posix_inj in E; [|done..].
    apply Hsub in Hg. unfold local in Hp. rewrite <- E, Hg in Hp. by injection Hp as <-.
  - intros Hm'. eapply (ti_sound _ _ Ht part); [done| |done|done]. by apply files_of_elem.
  - apply filter_elem in Hpart as [_ Hd]. by apply bool_decide_eq_true in Hd.
Qed.

Lemma second_maintenance_spec s v files : tidy covers (st_lake s) ->
  (forall p f, dget files p = Some f -> archive_path p) ->
  (forall p g, dget (lk_l1 (st_lake s)) p = Some g -> dget files p = Some g) ->
  Forall (backed files (st_objects s)) v ->
  let s' := fst (second_maintenance rclone pq_rows norm2 cutoff hold disk_ok configured2 v s) in
  (forall q f, (q, f) ∈ lk_l0 (st_lake s) -> safe s' q f) /\
  (forall q f, (q, f) ∈ lk_quar (st_lake s) -> (q, f) ∈ lk_quar (st_lake s')).
Proof using Hrclone.
  intros Ht Hfp Hsub Hv. unfold second_maintenance, run_eod_maintenance.
  pose proof (prune_fate pq_rows norm2 cutoff true (Some v) disk_ok true hold _ (ti_ok _ _ Ht)) as Hf.
  destruct (prune_old_journals _ _ _ _ _ _ _ _ _) as [p r]. cbn [fst] in *.
  set (s1 := put_lake (pr_lake p) s).
  assert (H1 : (forall q f, (q, f) ∈ lk_l0 (st_lake s) -> safe s1 q f) /\
               (forall q f, (q, f) ∈ lk_quar (st_lake s) -> (q, f) ∈ lk_quar (st_lake s1))).
  { split; [|apply (ri_quar _ _ _ _ _ _ _ _ _ _ _ Hf)].
    intros q f Hin. destruct (ri_fate _ _ _ _ _ _ _ _ _ _ _ Hf q f Hin) as [?|[(_ & _ & ?)|(x & Hx & _ & Ha)]];
      [by left|by right; left|right; right].
    change (st_objects s1) with (st_objects s). eapply archived_copy; [exact Ht|exact Hfp|exact Hsub|exact Hv|exact Hx|exact Hin|exact Ha]. }
  destruct r as [u|e]; [|by destruct (krx_or_os e)].
  destruct (caught_purge_keeps configured2 (set_minus (set_minus v (pr_invalidated p)) (pr_held p)) s1) as [El Hst].
  cbn [fst]. split; [|intros q f Hin; rewrite El; by apply H1].
  intros q f Hin. destruct (proj1 H1 q f Hin) as [?|[?|(x & g & Hu & Hs & Hc)]];
    [left; by rewrite El|right; left; by rewrite El|right; right].
  exists x, g. split; [done|]. split; [by apply Hst|done].
Qed.
Lemma tidy_less lk lk' : archived_less lk lk' -> tidy covers lk -> tidy covers lk'.
Proof.
  intros [H0 Hd _ _ Hk H1] [Hok Hn Hs]. split.
  - split; [done|]. rewrite Hd. apply Hok.
  - eapply named_sub; [by rewrite Hd|exact H1|exact Hn].
  - eapply sound_sub; [by rewrite H0|exact H1|exact Hs].
Qed.

Lemma housekeeping_safe s : tidy covers (st_lake s) -> flat (st_objects s) ->
  let s' := fst (run_eod_housekeeping md5 rclone pq_rows norm1 norm2 cutoff archive_cutoff hold disk_ok
                   configured1 configured2 s) in
  forall q f, (q, f) ∈ lk_l0 (st_lake s) -> safe s' q f.
Proof using Hrclone Hmd5 Hnorm1.
  intros Ht Hflat. unfold run_eod_housekeeping, sbind at 1.
  destruct (first_maintenance_spec s Ht) as (Ht1 & Ho1 & Hk1).
  destruct (first_maintenance _ _ _ _ _ s) as [s1 [[[d1 h1] ok1]|e]]; cbn [fst] in *.
  2: { intros q f Hin. destruct (Hk1 q f Hin); [by left|by right; left]. }
  unfold sbind at 1, caught_offload. rewrite <- Ho1 in Hflat.
  pose proof (run_eod_offload_spec configured1 archive_cutoff s1 Hflat (ti_ok _ _ Ht1) (ti_named _ _ Ht1)) as Hof.
  destruct (run_eod_offload _ _ _ _ s1) as [s2 r]. destruct Hof as (Hless & Hr & Hnone).
  assert (Hk2 : forall q f, (q, f) ∈ lk_l0 (st_lake s) -> (q, f) ∈ lk_l0 (st_lake s2) \/ (q, f) ∈ lk_quar (st_lake s2)).
  { intros q f Hin. rewrite (al_l0 _ _ Hless), (al_quar _ _ Hless). by apply Hk1. }
  destruct r as [o|e]; cbn [fst].
  2: { intros q f Hin. destruct (Hk2 q f Hin); [by left|by right; left]. }
  assert (Hv : Forall (backed (lk_l1 (st_lake s1)) (st_objects s2)) (of_verified o)).
  { destruct configured1; [by apply Hr|]. rewrite (proj2 (Hnone eq_refl) o eq_refl). constructor. }
  assert (Ht2 : tidy covers (st_lake s2)) by (by eapply tidy_less).
  destruct (second_maintenance_spec s2 (of_verified o) (lk_l1 (st_lake s1)) Ht2 (nm_l1 _ (ti_named _ _ Ht1))
    (al_l1 _ _ Hless) Hv) as [H3 Hq3].
  unfold sbind. destruct (second_maintenance _ _ _ _ _ _ _ _ s2) as [s3 [[[d2 h2] ok2]|e]]; cbn [fst] in *;
    (intros q f Hin; destruct (Hk2 q f Hin); [by apply H3|right; left; by apply Hq3]).
Qed.
End Eod.
