(* ===== verification/EodProps.v ===== *)
(** * Properties of the day's end

    What the verification of the archive, the offload, the purges and the whole
    housekeeping guarantee, with a concrete remote that satisfies rclone's laws. *)
From Stdlib Require Import Ascii.
From S2P Require Import Prelude PyStr PyTime Layout Retention RetentionFacts Remote RemoteFacts Eod EodFacts.

(** ** A remote *)

(** The identity stands for md5: it separates all files. Digests are lower case, so
    this remote knows no digest of other texts. *)
Definition demo_md5 (b : string) : string := b.

Definition demo_entry (p c : string) : entry :=
  mkEntry p false (Some (Z.of_nat (String.length c))) (if decide (str_lower c = c) then Some c else None).

Definition demo_tree (n : string) (objs : objects) : list entry :=
  concat (map (fun k =>
    match str_after (String.append n "/") k with
    | Some p => if decide (p = "") then [] else map (demo_entry p) (copies objs k)
    | None => []
    end) (fromkeys (dkeys objs))).

Definition outside (d k : string) : bool :=
  match str_after (String.append d "/") k with Some _ => false | None => true end.
Definition demo_purge (d : string) (objs : objects) : objects := List.filter (fun kv => outside d (fst kv)) objs.

Definition demo_rclone (k : nat) (c : rclone_cmd) (objs : objects) : objects * res exc answer :=
  match c with
  | C_list_object p => (objs, Ok (mkAnswer 0 (Some (map (demo_entry "") (copies objs p)))))
  | C_list_tree n _ => (objs, Ok (mkAnswer 0 (Some (demo_tree n objs))))
  | C_copyto b p => (dset objs p [b], Ok (mkAnswer 0 None))
  | C_list_dir d =>
      (objs, Ok (mkAnswer (if forallb (outside d) (dkeys objs) then 3 else 0) (Some [])))
  | C_purge d => (demo_purge d objs, Ok (mkAnswer 0 None))
  end.

Lemma demo_entry_of p c : entry_of demo_md5 c (demo_entry p c).
Proof. split_and!; [done..|]. cbn. intros m. case_decide; [|done]. by intros [= <-]. Qed.

Lemma demo_describes p cs : describes demo_md5 cs (map (demo_entry p) cs).
Proof.
  split.
  - intros e (c & -> & Hc)%list_elem_of_fmap. exists c. split; [done|apply demo_entry_of].
  - intros c Hc. exists (demo_entry p c). split; [|apply demo_entry_of]. apply list_elem_of_fmap. eauto.
Qed.

Lemma demo_tree_elem n objs e : e ∈ demo_tree n objs <->
  exists p c, p <> "" /\ c ∈ copies objs (slashed n p) /\ e = demo_entry p c.
Proof.
  unfold demo_tree. rewrite list_elem_of_In, in_concat. setoid_rewrite <- list_elem_of_In. split.
  - intros (l & (k & -> & Hk)%list_elem_of_fmap & He). destruct (str_after _ k) as [p|] eqn:Ek; [|by apply elem_of_nil in He].
    case_decide; [by apply elem_of_nil in He|]. apply list_elem_of_fmap in He as (c & -> & Hc).
    apply str_after_some in Ek. exists p, c. split_and!; [done| |done].
    assert (Hs : slashed n p = k).
    { rewrite Ek. unfold slashed. rewrite <- (l2s_s2l (String.append n (String.append "/" p))), <- (l2s_s2l (String.append (String.append n "/") p)).
      f_equal. by rewrite !s2l_app, <- app_assoc. }
    by rewrite Hs.
  - intros (p & c & Hp & Hc & ->). exists (map (demo_entry p) (copies objs (slashed n p))).
    split; [|apply list_elem_of_fmap; eauto]. apply list_elem_of_fmap. exists (slashed n p). split.
    + assert (Hs : str_after (String.append n "/") (slashed n p) = Some p).
      { unfold str_after, slashed. rewrite !s2l_app, app_assoc, skip_prefix_app. cbn. by rewrite l2s_s2l. }
      by rewrite Hs, decide_False.
    + apply fromkeys_elem. destruct (dget objs (slashed n p)) as [cs|] eqn:E.
      * apply dget_elem in E. apply list_elem_of_fmap. by exists (slashed n p, cs).
      * unfold copies in Hc. rewrite E in Hc. by apply elem_of_nil in Hc.
Qed.

Lemma dget_filter_key {V} (P : string -> bool) (d : list (string * V)) k : P k = true ->
  dget (List.filter (fun kv => P (fst kv)) d) k = dget d k.
Proof.
  intros Hk. induction d as [|[k' v] d IH]; cbn; [done|].
  destruct (P k') eqn:E; cbn; case_decide; subst; try done. by rewrite Hk in E.
Qed.

Lemma demo_rclone_ok : rclone_ok demo_md5 demo_rclone.
Proof.
  split; try done.
  - intros k p objs ans es [= <-] _ [= <-]. rewrite filter_map, (filter_ext_in _ (fun _ => true)) by done.
    rewrite List.filter_true. apply demo_describes.
  - intros k n objs ans es [= <-] _ [= <-]. split.
    { intros e (p & c & Hp & _ & ->)%demo_tree_elem. done. }
    intros p Hp. split.
    + intros e [(p' & c & _ & Hc & ->)%demo_tree_elem Hpp%bool_decide_eq_true]%filter_elem. cbn in Hpp. subst p'.
      exists c. split; [done|apply demo_entry_of].
    + intros c Hc. exists (demo_entry p c). split; [|apply demo_entry_of]. apply filter_elem.
      split; [|by apply bool_decide_eq_true]. apply demo_tree_elem. eauto.
  - intros k b p objs p' Hne. cbn. by rewrite dget_dset_ne.
  - intros k d objs p' Hn. change (dget (demo_purge d objs) p' = dget objs p'). unfold demo_purge.
    apply (dget_filter_key (outside d)). unfold outside. by rewrite Hn.
Qed.

(** ** A normalizer *)

Fixpoint joined (files : list (path * LFile)) : string :=
  match files with [] => "" | kv :: files' => String.append (f_bytes (snd kv)) (joined files') end.

Definition demo_norm (p : path) (files : list (path * LFile)) (old : option LFile) : option LFile * norm_out :=
  match newest files with
  | None => (old, N_bad)
  | Some m => (Some (mkFile m (joined files)), N_rows (zlen files))
  end.

Definition demo_covers (q : path) (f : LFile) (b : string) : Prop :=
  exists pre post, b = String.append pre (String.append (f_bytes f) post).

Lemma append_assoc (a b c : string) : String.append a (String.append b c) = String.append (String.append a b) c.
Proof. induction a as [|x a IH]; [done|]. exact (f_equal (String x) IH). Qed.

Lemma demo_norm_sound : normalizer_sound demo_covers demo_norm.
Proof.
  intros p files old new o. unfold demo_norm. destruct (newest files); [|intros [= <- <-]; by left].
  intros [= <- <-]. right. intros g [= <-] q f Hin. unfold demo_covers. cbn. clear -Hin.
  induction files as [|kv files IH]; [by apply elem_of_nil in Hin|]. cbn. apply elem_of_cons in Hin as [<-|Hin].
  - by exists "", (joined files).
  - destruct (IH Hin) as (pre & post & ->). exists (String.append (f_bytes (snd kv)) pre), post.
    apply append_assoc.
Qed.

Definition demo_part : path := ["ls"; "krx"; "regular"; "H0STCNT0"; "dt=2026-09-18"].
Definition demo_lake (l0 : LFile) (l1 : list (path * LFile)) : Lake :=
  mkLake (map (fun n => take n demo_part) (seq 1 5)) [(demo_part ++ ["09.jsonl.zst"], l0)] l1 [] [].
Definition demo_l0_object : string := "l0/ls/krx/regular/H0STCNT0/dt=2026-09-18/09.jsonl.zst".
Definition demo_l1_object : string := "l1/ls/krx/regular/H0STCNT0/dt=2026-09-18.parquet".
Definition demo_site (lk : Lake) (objs : objects) : Site := mkSite lk [] objs 0.

(** The day's end on a site, all arguments but the disk state fixed. *)
Definition demo_eod (disk_ok : bool) (s : Site) : Site * res exc EodHousekeeping :=
  run_eod_housekeeping demo_md5 demo_rclone (fun b => Some (Z.of_nat (String.length b))) demo_norm demo_norm
    (days_of_civil 2026 9 20) (days_of_civil 2026 8 20) (fun _ => None) disk_ok true true s.

Lemma demo_partitions f l1 : partitions (demo_lake f l1) = [demo_part].
Proof. reflexivity. Qed.

Lemma demo_part_archive : archive_path demo_part.
Proof.
  split_and!; [|done|by vm_compute]. repeat constructor; try done; apply (bool_decide_unpack _); vm_compute; exact I.
Qed.

Lemma demo_tidy f : tidy demo_covers (demo_lake f []).
Proof.
  split.
  - split; [constructor|]. apply (bool_decide_unpack _). vm_compute. exact I.
  - split; [|done]. intros d. rewrite demo_partitions. intros ->%list_elem_of_singleton. apply demo_part_archive.
  - by intros p q g h _ _ [=].
Qed.

Lemma demo_flat b : flat [(demo_l0_object, b)].
Proof. intros p H. exfalso. apply H. unfold copies, slashed. cbn [dget]. by rewrite decide_False. Qed.

(** ** Properties *)

(** C7. No frame is lost at the end of the day: with enough disk, whatever rclone
    calls fail or time out, whatever the normalizer reports and whichever
    exception ends the sequence, every journal file is still in the journal, or in
    quarantine, or its partition's archive object is on the remote, with a copy in
    it that contains the file and no other copy. *)
Theorem eod_keeps_every_frame md5 rclone pq_rows norm1 norm2 covers cutoff archive_cutoff hold conf1 conf2 s q f :
  rclone_ok md5 rclone -> (forall a b, String.length a = String.length b -> md5 a = md5 b -> a = b) ->
  normalizer_sound covers norm1 -> tidy covers (st_lake s) -> flat (st_objects s) ->
  (q, f) ∈ lk_l0 (st_lake s) ->
  let s' := fst (run_eod_housekeeping md5 rclone pq_rows norm1 norm2 cutoff archive_cutoff hold true conf1 conf2 s) in
  (q, f) ∈ lk_l0 (st_lake s') \/ (q, f) ∈ lk_quar (st_lake s') \/
  exists p b, under p q = true /\ stored (st_objects s') (l1_repo_path (l1_relpath_for_l0_partition p)) b /\ covers q f b.
Proof.
  intros Hr Hm Hn Ht Hf Hin s'.
  destruct (housekeeping_safe md5 rclone Hr Hm pq_rows norm1 norm2 covers Hn cutoff archive_cutoff hold true conf1 conf2
    s Ht Hf q f Hin) as [?|[?|(p & g & Hu & Hs & Hc & Hfresh & _)]]; [by left|by right; left|right; right].
  exists p, (f_bytes g). split_and!; [done..|]. by apply Hc, Hfresh.
Qed.

(** The partition is normalized, uploaded, verified and deleted on both sides. *)
Lemma eod_keeps_every_frame_witness :
  let f := mkFile 5 "a" in
  let s := demo_site (demo_lake f []) [(demo_l0_object, ["a"])] in
  let s' := fst (demo_eod true s) in
  lk_l0 (st_lake s') = [] /\ st_objects s' = [(demo_l1_object, ["a"])] /\
  ((demo_part ++ ["09.jsonl.zst"], f) ∈ lk_l0 (st_lake s') \/ (demo_part ++ ["09.jsonl.zst"], f) ∈ lk_quar (st_lake s') \/
   exists p b, under p (demo_part ++ ["09.jsonl.zst"]) = true /\
     stored (st_objects s') (l1_repo_path (l1_relpath_for_l0_partition p)) b /\ demo_covers (demo_part ++ ["09.jsonl.zst"]) f b).
Proof.
  split; [vm_compute; reflexivity|]. split; [vm_compute; reflexivity|].
  exact (eod_keeps_every_frame demo_md5 demo_rclone _ demo_norm demo_norm demo_covers _ _ _ true true
    (demo_site (demo_lake (mkFile 5 "a") []) [(demo_l0_object, ["a"])]) _ (mkFile 5 "a") demo_rclone_ok
    (fun a b _ E => E) demo_norm_sound (demo_tidy _) (demo_flat _) (list_elem_of_here _ _)).
Defined.

(** C40. Low-disk recovery looks at nothing but the archive: below the disk's watermark
    the day's end deletes exactly the journal partitions that are old enough, have an
    archive object and have it in the list the offload verified - whatever the times of
    their files and of the object, so also a file written after its object was made,
    and whatever the repair hold says of them. Quarantine and archive stay as they are,
    and nothing is normalized first. It takes that the offload did not raise, and that
    the partitions are distinct, none inside another, and their names no impossible
    dates. *)
Theorem low_disk_deletes_unchecked md5 rclone pq_rows norm1 norm2 cutoff archive_cutoff hold conf1 conf2 s s2 o :
  rclone_ok md5 rclone ->
  caught_offload md5 rclone archive_cutoff conf1 s = (s2, Ok (Some o)) ->
  dated (partitions (st_lake s2)) -> apart (partitions (st_lake s2)) -> NoDup (partitions (st_lake s2)) ->
  let s' := fst (run_eod_housekeeping md5 rclone pq_rows norm1 norm2 cutoff archive_cutoff hold false conf1 conf2 s) in
  lk_l0 (st_lake s') =
    List.filter (fun kv => negb (existsb (fun p =>
        condemned cutoff (of_verified o) (lk_l1 (st_lake s2)) p && under p (fst kv)) (partitions (st_lake s2))))
      (lk_l0 (st_lake s2)) /\
  lk_l1 (st_lake s') = lk_l1 (st_lake s2) /\ lk_quar (st_lake s') = lk_quar (st_lake s2) /\
  forall p b, stored (st_objects s2) (l1_repo_path p) b -> stored (st_objects s') (l1_repo_path p) b.
Proof.
  intros Hr Hoff Hd Ha Hnd s'. unfold s', run_eod_housekeeping, sbind. cbn [first_maintenance negb sret].
  rewrite Hoff. unfold second_maintenance, run_eod_maintenance, prune_old_journals.
  destruct (low_pass_all pq_rows norm2 cutoff true (of_verified o) true hold (partitions (st_lake s2)) (new_prune (st_lake s2)))
    as (x & E & H1 & Hq & H0); [by intros p [Hp _]%filter_elem|done..|].
  cbn in *. rewrite E. cbn.
  match goal with |- context [caught_purge rclone conf2 ?v ?st] =>
    destruct (caught_purge_keeps md5 rclone Hr conf2 v st) as [El Hst] end.
  rewrite El. by split_and!.
Qed.

(** The journal file was written after its object and its day is held for repair: it
    goes, and the remote has the older contents only. *)
Lemma low_disk_deletes_unchecked_witness :
  let l1 := [(l1_relpath_for_l0_partition demo_part, mkFile 5 "a")] in
  let s := demo_site (demo_lake (mkFile 9 "b") l1) [(demo_l1_object, ["a"])] in
  let s' := fst (run_eod_housekeeping demo_md5 demo_rclone (fun b => Some (Z.of_nat (String.length b))) demo_norm demo_norm
    (days_of_civil 2026 9 20) (days_of_civil 2026 8 20) (fun _ => Some "repair pending") false true true s) in
  lk_l0 (st_lake s') = [] /\ lk_quar (st_lake s') = [] /\ st_objects s' = [(demo_l1_object, ["a"])].
Proof.
  intros l1 s.
  destruct (caught_offload demo_md5 demo_rclone (days_of_civil 2026 8 20) true s) as [s2 [[o|]|e]] eqn:E;
    [|vm_compute in E; discriminate|vm_compute in E; discriminate].
  assert (Hs : s2 = fst (caught_offload demo_md5 demo_rclone (days_of_civil 2026 8 20) true s)) by (rewrite E; reflexivity).
  assert (Hp : partitions (st_lake s2) = [demo_part]) by (rewrite Hs; vm_compute; reflexivity).
  assert (Ho : of_verified o = [demo_l1_object]) by (vm_compute in E; injection E as _ <-; reflexivity).
  destruct (low_disk_deletes_unchecked demo_md5 demo_rclone (fun b => Some (Z.of_nat (String.length b))) demo_norm demo_norm
    (days_of_civil 2026 9 20) (days_of_civil 2026 8 20) (fun _ => Some "repair pending") true true s s2 o
    demo_rclone_ok E) as (H0 & _ & Hq & _).
  - rewrite Hp. intros p text ->%list_elem_of_singleton Ht.
    assert (Hn : dt_fullmatch (name demo_part) = Some (s2l "2026-09-18")) by (vm_compute; reflexivity).
    assert (Hx : text = s2l "2026-09-18") by congruence. rewrite Hx.
    exists (days_of_civil 2026 9 18). vm_compute. reflexivity.
  - rewrite Hp. by intros p p' ->%list_elem_of_singleton ->%list_elem_of_singleton.
  - rewrite Hp. apply NoDup_singleton.
  - split; [|split; [|vm_compute; reflexivity]].
    + rewrite H0, Hp, Ho, Hs. vm_compute. reflexivity.
    + rewrite Hq, Hs. vm_compute. reflexivity.
Defined.

Section Guards.
Context (rclone : nat -> rclone_cmd -> objects -> objects * res exc answer).
Context (md5 : string -> string) (Hrclone : rclone_ok md5 rclone).

(** One directory's purge. *)
Lemma purge_one_change ex d st a x :
  copies (ar_objects (fst (purge_one rclone ex d st a))) x <> copies (ar_objects a) x ->
  is_Some (str_after (String.append d "/") x) /\ ex (l0_dir_path d) = false.
Proof using Hrclone.
  unfold purge_one, l0_dir_path. destruct (str_after L0_REPO_PREFIX d) as [rest|] eqn:Ed; [|done]. cbn [default from_option].
  unfold from_option, id. destruct (ex (posix_parts rest)) eqn:Ex; [done|]. unfold run.
  pose proof (rk_list_dir md5 rclone Hrclone (ar_calls a) d (ar_objects a)) as Hl.
  destruct (rclone (ar_calls a) (C_list_dir d) (ar_objects a)) as [o1 [ans|e]]; cbn in Hl; subst o1; [|done].
  destruct (a_rc ans =? 3); [done|]. destruct (negb _); [done|]. cbn [ar_calls ar_objects].
  pose proof (rk_purge md5 rclone Hrclone (S (ar_calls a)) d (ar_objects a) x) as Hg.
  destruct (str_after (String.append d "/") x) as [y|]; [by eauto|]. specialize (Hg eq_refl).
  destruct (rclone (S (ar_calls a)) (C_purge d) (ar_objects a)) as [o2 [ans2|e]]; cbn in Hg; [destruct (a_rc ans2 =? 0)|];
    unfold copies; cbn; rewrite Hg; done.
Qed.

Lemma purge_dirs_change ex ds x : forall st a,
  copies (ar_objects (fst (purge_dirs rclone ex ds st a))) x <> copies (ar_objects a) x ->
  exists d, d ∈ ds /\ is_Some (str_after (String.append d "/") x) /\ ex (l0_dir_path d) = false.
Proof using Hrclone.
  induction ds as [|d ds IH]; intros st a; cbn [purge_dirs]; [done|]. unfold sbind.
  pose proof (purge_one_change ex d st a x) as H. destruct (purge_one rclone ex d st a) as [a1 [st'|e]]; cbn [fst] in *.
  - intros Hc. destruct (decide (copies (ar_objects a1) x = copies (ar_objects a) x)) as [E|E].
    + rewrite <- E in Hc. destruct (IH st' a1 Hc) as (d' & ? & ?). exists d'. set_solver.
    + exists d. split; [by left|by apply H].
  - intros Hc. exists d. split; [by left|by apply H].
Qed.
End Guards.

(** The remote purge is guarded: whatever rclone calls fail, a remote object only
    changes when it lies below the L0 directory that a verified archive object
    supersedes, that partition is neither in the local journal nor in quarantine,
    and the local lake is not touched. *)
Theorem remote_purge_guarded md5 rclone configured verified s x :
  rclone_ok md5 rclone ->
  let s' := fst (run_eod_remote_l0_purge rclone configured verified s) in
  st_lake s' = st_lake s /\
  (copies (st_objects s') x <> copies (st_objects s) x ->
   exists rel d, rel ∈ verified /\ l0_partition_for_l1 rel = Some d /\ is_Some (str_after (String.append d "/") x) /\
     exists_l0 (st_lake s) (l0_dir_path d) = false /\ exists_quarantined (st_lake s) (l0_dir_path d) = false).
Proof.
  intros Hr. unfold run_eod_remote_l0_purge. destruct (negb configured); [done|].
  unfold sbind, sget, with_archiver, purge_superseded_l0.
  set (kept := keep_unless _ verified).
  pose proof (purge_dirs_change rclone md5 Hr (exists_l0 (st_lake s)) (superseded kept) x (mkPurge 0 0 0 0)
    (mkArch (st_objects s) (st_calls s) [])) as H.
  destruct (purge_dirs _ _ _ _ _) as [a' out]. split; [done|]. intros Hc.
  destruct (H Hc) as (d & Hd & Hx & Hex). unfold superseded in Hd.
  rewrite py_sorted_elem, fromkeys_elem, list_elem_of_omap in Hd. destruct Hd as (rel & Hrel & Hmap).
  unfold kept, keep_unless in Hrel. apply filter_elem in Hrel as [Hin Hk]. rewrite Hmap in Hk.
  apply negb_true_iff in Hk. exists rel, d. done.
Qed.

(** The superseded partition is purged, and nothing else. *)
Lemma remote_purge_guarded_witness :
  let s := demo_site (mkLake [] [] [] [] []) [(demo_l0_object, ["a"]); (demo_l1_object, ["a"])] in
  let s' := fst (run_eod_remote_l0_purge demo_rclone true [demo_l1_object] s) in
  st_objects s' = [(demo_l1_object, ["a"])] /\
  exists rel d, rel ∈ [demo_l1_object] /\ l0_partition_for_l1 rel = Some d /\
    is_Some (str_after (String.append d "/") demo_l0_object).
Proof.
  split; [vm_compute; reflexivity|].
  destruct (remote_purge_guarded demo_md5 demo_rclone true [demo_l1_object]
    (demo_site (mkLake [] [] [] [] []) [(demo_l0_object, ["a"]); (demo_l1_object, ["a"])]) demo_l0_object demo_rclone_ok)
    as [_ H].
  destruct H as (rel & d & H1 & H2 & H3 & _); [vm_compute; discriminate|]. exists rel, d. exact (conj H1 (conj H2 H3)).
Defined.

Lemma prune_l1_loop_kept cutoff confirmed ps p g : forall files n, NoDup (dkeys files) -> dget files p = Some g ->
  dget (fst (prune_l1_loop cutoff confirmed ps files n)) p = Some g \/
  (p ∈ ps /\ l1_repo_path p ∈ confirmed /\ exists text day, l1_date_text p = Some text /\ iso_date text = Some day /\ day < cutoff).
Proof.
  induction ps as [|q ps IH]; intros files n Hk Hg; cbn [prune_l1_loop]; [by left|].
  assert (Hnext : forall files n, NoDup (dkeys files) -> dget files p = Some g ->
    dget (fst (prune_l1_loop cutoff confirmed ps files n)) p = Some g \/
    (p ∈ q :: ps /\ l1_repo_path p ∈ confirmed /\ exists text day, l1_date_text p = Some text /\ iso_date text = Some day /\ day < cutoff)).
  { intros fs m Hk' Hg'. destruct (IH fs m Hk' Hg') as [?|(? & ?)]; [by left|right; split; [by right|done]]. }
  destruct (l1_date_text q) as [text|] eqn:Et; [|by apply Hnext].
  destruct (iso_date text) as [day|] eqn:Ed; [|by left].
  destruct ((cutoff <=? day) || negb (bool_decide (l1_repo_path q ∈ confirmed))) eqn:Eb; [by apply Hnext|].
  bprop. destruct (decide (q = p)) as [->|Hne].
  - right. split; [by left|]. split; [done|]. by exists text, day.
  - apply Hnext; [|by rewrite dget_ddel_ne]. by apply (sublist_NoDup _ (dkeys files)), dkeys_ddel_sub.
Qed.

(** The offload keeps the archive: an archive file it removes locally is dated
    before the archive's cutoff and is on the remote, every copy there being equal
    to it; when it returns, every Parquet file it found is on the remote; and when a
    call fails before the verification nothing is removed. *)
Theorem offload_keeps_archive md5 rclone configured cutoff s p g :
  rclone_ok md5 rclone -> (forall a b, String.length a = String.length b -> md5 a = md5 b -> a = b) ->
  flat (st_objects s) -> lake_ok (st_lake s) -> named (st_lake s) -> dget (lk_l1 (st_lake s)) p = Some g ->
  let '(s', r) := run_eod_offload md5 rclone configured cutoff s in
  (dget (lk_l1 (st_lake s')) p = Some g \/
   (stored (st_objects s') (l1_repo_path p) (f_bytes g) /\
    exists text day, l1_date_text p = Some text /\ iso_date text = Some day /\ day < cutoff)) /\
  (configured = true -> is_Some (match r with Ok o => Some o | Raise _ => None end) -> is_parquet p = true ->
   stored (st_objects s') (l1_repo_path p) (f_bytes g)) /\
  lk_l0 (st_lake s') = lk_l0 (st_lake s).
Proof.
  intros Hr Hm Hflat Hok Hn Hg. unfold run_eod_offload. destruct configured; cbn [negb]; [|split_and!; [by left|done|done]].
  assert (Hfr : fresh md5 (lk_l1 (st_lake s)) (mkArch (st_objects s) (st_calls s) [])).
  { split; [done|]. by intros q sz mt d f. }
  pose proof (offload_remote_spec md5 rclone Hr Hm _ (st_manifests s) _ (lo_keys _ Hok) (nm_l1 _ Hn) Hfr) as H.
  unfold sbind, sget, with_archiver.
  destruct (offload_remote _ _ _ _ _) as [a [[[[l1 m] v] c]|e]]; cbn [fst snd st_lake st_objects].
  2: { split_and!; [by left|by intros _ [? ?]|done]. }
  destruct H as (_ & _ & Hst). unfold prune_local_l1.
  pose proof (prune_l1_loop_kept cutoff (keep_unless (exists_l0 (st_lake s)) c) (parquet_paths (lk_l1 (st_lake s))) p g
    (lk_l1 (st_lake s)) 0 (lo_keys _ Hok) Hg) as Hkept.
  assert (Hpq : is_parquet p = true -> stored (ar_objects a) (l1_repo_path p) (f_bytes g)).
  { intros Hp. apply Hst, local_parquet_elem. by split. }
  destruct (prune_l1_loop _ _ _ _ _) as [l1s r]. cbn [fst] in Hkept.
  assert (H1 : dget l1s p = Some g \/ (stored (ar_objects a) (l1_repo_path p) (f_bytes g) /\
    exists text day, l1_date_text p = Some text /\ iso_date text = Some day /\ day < cutoff)).
  { destruct Hkept as [?|(Hin & _ & Hd)]; [by left|right]. split; [|done]. apply Hpq.
    unfold parquet_paths in Hin. rewrite py_sorted_elem, filter_elem in Hin. apply Hin. }
  destruct r as [n|e]; cbn; split_and!; auto.
Qed.

(** An old object is uploaded, verified and removed locally. *)
Definition demo_old : path := ["ls"; "krx"; "regular"; "H0STCNT0"; "dt=2026-07-01.parquet"].
Definition demo_old_site : Site := demo_site (mkLake [] [] [(demo_old, mkFile 5 "a")] [] []) [].

Lemma offload_keeps_archive_witness :
  let out := run_eod_offload demo_md5 demo_rclone true (days_of_civil 2026 8 20) demo_old_site in
  lk_l1 (st_lake (fst out)) = [] /\
  (dget (lk_l1 (st_lake (fst out))) demo_old = Some (mkFile 5 "a") \/
   (stored (st_objects (fst out)) (l1_repo_path demo_old) "a" /\
    exists text day, l1_date_text demo_old = Some text /\ iso_date text = Some day /\ day < days_of_civil 2026 8 20)).
Proof.
  split; [vm_compute; reflexivity|].
  assert (H := offload_keeps_archive demo_md5 demo_rclone true (days_of_civil 2026 8 20) demo_old_site demo_old
    (mkFile 5 "a") demo_rclone_ok (fun a b _ E => E)
    ltac:(intros p H; exfalso; apply H; reflexivity)
    ltac:(split; [apply (bool_decide_unpack _); vm_compute; exact I|constructor])
    ltac:(split; [intros d Hd; by apply elem_of_nil in Hd|intros p f Hp; cbn in Hp; case_decide; [|done]; subst;
      split_and!; [repeat constructor; try done; apply (bool_decide_unpack _); vm_compute; exact I|done|by vm_compute]])
    eq_refl).
  destruct (run_eod_offload _ _ _ _ demo_old_site) as [s' r]. exact (proj1 H).
Defined.

(** A journal directory named like a date that is none stops the day's storage
    work: the first maintenance raises a [ValueError] that no handler of the
    housekeeping catches, so nothing is uploaded, verified or deleted, on that day
    and on every day until the directory is gone. *)
Theorem impossible_date_stops_eod md5 rclone pq_rows norm1 norm2 cutoff archive_cutoff hold conf1 conf2 s part rest text :
  partitions (st_lake s) = part :: rest -> dt_fullmatch (name part) = Some text -> iso_date text = None ->
  run_eod_housekeeping md5 rclone pq_rows norm1 norm2 cutoff archive_cutoff hold true conf1 conf2 s = (s, Raise X_value).
Proof.
  intros Hp Ht Hd. unfold run_eod_housekeeping, sbind, first_maintenance, run_eod_maintenance, prune_old_journals.
  rewrite Hp. cbn [each negb]. unfold sbind, prune_one. rewrite Ht, Hd. cbn. by destruct s.
Qed.

Lemma impossible_date_stops_eod_witness :
  let lk := mkLake [["ls"]; ["ls"; "dt=2026-02-30"]] [] [] [] [] in
  demo_eod true (demo_site lk []) = (demo_site lk [], Raise X_value).
Proof.
  exact (impossible_date_stops_eod demo_md5 demo_rclone _ demo_norm demo_norm _ _ _ true true
    (demo_site (mkLake [["ls"]; ["ls"; "dt=2026-02-30"]] [] [] [] []) []) ["ls"; "dt=2026-02-30"] [] (s2l "2026-02-30")
    eq_refl eq_refl eq_refl).
Defined.
