(* ===== verification/Repair.v ===== *)
(** * The repair gate of journal deletion ([src/storage/l0_repair.py])

    A day's trade partition of an audited vendor is held back from deletion while
    the losses its session audit confirmed are not repaired. The state of a day is
    read from the audit, the tape ledger, the gap-fill report and the merged-ticks
    file; decoding the two documents, the file digest and the validation of the
    merged file are arguments. [_repair_hold_for] of [orchestration/daemon.py] is the
    hold the housekeeping passes to retention. *)
From Stdlib Require Import Ascii.
From S2P Require Import Prelude PyStr PyTime MarketPhase Layout Calendar ExecJournal Retention RetentionFacts Remote RemoteFacts Eod EodFacts EodProps.

Inductive RepairState := CLEAN | UNAUDITED | TAPE_PENDING | GAPFILL_PENDING | MERGE_PENDING | REPAIRED.

#[global] Instance repair_state_eq : EqDecision RepairState.
Proof. solve_decision. Defined.

Definition repair_state_value (s : RepairState) : string :=
  match s with
  | CLEAN => "clean" | UNAUDITED => "unaudited" | TAPE_PENDING => "tape_pending"
  | GAPFILL_PENDING => "gapfill_pending" | MERGE_PENDING => "merge_pending" | REPAIRED => "repaired"
  end.

Record DayRepair := mkDayRepair {
  dr_day : Z; dr_vendor : string; dr_state : RepairState; dr_confirmed : Z; dr_residual : option Z; dr_pending : Z
}.

Record RepairSettings := mkRepairSettings {
  hold_enabled : bool; merge_required : bool; hold_max_extra_days : Z;
  gate_vendors : list string; repair_vendors : list string; xvendor_peers : list string;
  xvendor_conflating_peers : list string
}.

(** [v.strip() and v == v.strip() and v == v.lower()]. *)
Definition vendor_name_ok (v : string) : bool :=
  negb (bool_decide (str_strip v = "")) && bool_decide (v = str_strip v) && bool_decide (v = str_lower v).

(** [check_repair_vendor_scope]: [false] is the [ValueError]. *)
Definition check_repair_vendor_scope (s : RepairSettings) : bool :=
  negb (bool_decide (gate_vendors s = [])) && forallb vendor_name_ok (gate_vendors s)
  && negb (bool_decide (repair_vendors s = [])) && forallb vendor_name_ok (repair_vendors s)
  && forallb (fun v => bool_decide (v ∈ gate_vendors s)) (repair_vendors s)
  && forallb vendor_name_ok (xvendor_peers s) && bool_decide (NoDup (xvendor_peers s))
  && forallb vendor_name_ok (xvendor_conflating_peers s) && bool_decide (NoDup (xvendor_conflating_peers s)).

(** The validated documents. *)
Record RepairAudit := mkAuditDoc {
  ad_session_date : Z; ad_vendor : string; ad_confirmed : Z; ad_symbols : list (string * Z)
}.
Record GapfillReport := mkReport { rp_residual : Z; rp_notes : list (string * json) }.

(** What the disk holds of a day and vendor. *)
Record Evidence := mkEvidence {
  ev_audit : Z -> string -> option (string * Z);        (* bytes and mtime; None is an OSError *)
  ev_report : Z -> string -> option string;
  ev_report_mtime : Z -> string -> option Z;
  ev_partition : Z -> string -> bool;                     (* the trade partition is a directory *)
  ev_audit_exists : Z -> string -> bool;
  ev_merged_valid : Z -> string -> bool                   (* repaired_ticks_valid; false when it raises *)
}.

Section Repair.
Context (decode_audit : string -> option RepairAudit) (decode_report : string -> option GapfillReport).
Context (sha256 : string -> string) (ev : Evidence) (settings : RepairSettings).
Context (tape_done : list (string * Z)).

(** [_report_valid]. *)
Definition report_valid (day : Z) (vendor audit_bytes : string) (audit_mtime : Z) : option GapfillReport :=
  raw ← ev_report ev day vendor;
  body ← decode_report raw;
  match dget (rp_notes body) "audit_sha256" with
  | Some v => if jis (Some v) (sha256 audit_bytes) then Some body else None
  | None =>
      m ← ev_report_mtime ev day vendor;
      if m <? audit_mtime then None else Some body
  end.

Definition merge_missing (day : Z) (vendor : string) : bool :=
  merge_required settings && negb (ev_merged_valid ev day vendor).

(** The symbols of the audit with a confirmed loss, and those without a tape. *)
Definition gap_symbols (audit : RepairAudit) : list string :=
  fromkeys (map fst (List.filter (fun e => 0 <? snd e) (ad_symbols audit))).
Definition tape_pending (day : Z) (audit : RepairAudit) : Z :=
  zlen (List.filter (fun s => negb (bool_decide ((s, day) ∈ tape_done))) (gap_symbols audit)).

(** [derive_day_repair] of a non-empty vendor. *)
Definition derive_day_repair (day : Z) (vendor : string) : DayRepair :=
  let unaudited := mkDayRepair day vendor UNAUDITED 0 None 0 in
  match ev_audit ev day vendor with
  | None => unaudited
  | Some (bytes, mtime) =>
      match decode_audit bytes with
      | None => unaudited
      | Some audit =>
          if negb (ad_session_date audit =? day) || negb (bool_decide (ad_vendor audit = vendor)) then unaudited
          else
            let confirmed := ad_confirmed audit in
            let in_state s residual pending := mkDayRepair day vendor s confirmed residual pending in
            if negb (bool_decide (vendor ∈ repair_vendors settings)) then in_state CLEAN None 0
            else if confirmed =? 0 then
              (if merge_missing day vendor then in_state MERGE_PENDING None 0 else in_state CLEAN None 0)
            else if bool_decide (gap_symbols audit = []) then in_state UNAUDITED None 0
            else
              let pending := tape_pending day audit in
              if 0 <? pending then in_state TAPE_PENDING None pending
              else
                match report_valid day vendor bytes mtime with
                | None => in_state GAPFILL_PENDING None 0
                | Some report =>
                    if merge_missing day vendor then in_state MERGE_PENDING (Some (rp_residual report)) 0
                    else in_state REPAIRED (Some (rp_residual report)) 0
                end
      end
  end.

Definition settled (s : RepairState) : bool := bool_decide (s = CLEAN) || bool_decide (s = REPAIRED).

(** [audited_tick_vendor]. A date in another ISO spelling parses too, but its path
    differs from the canonical one, so it is refused either way. *)
Definition audited_tick_vendor (rel : path) : option string :=
  match rel with
  | [vendor; venue; session; stream; dt_part] =>
      if negb (bool_decide (vendor ∈ gate_vendors settings)) then None
      else
        text ← str_after "dt=" dt_part;
        day ← iso_date (s2l text);
        key ← l0_partition_key vendor venue session stream day;
        if bool_decide (venue = "krx") && bool_decide (session = "regular") && bool_decide (stream = "H0STCNT0")
           && bool_decide (l0_partition_relpath key = rel)
        then Some vendor else None
  | _ => None
  end.

(** A repair vendor of the day left any trace. *)
Definition traced (day : Z) (vendor : string) : bool :=
  ev_partition ev day vendor || ev_audit_exists ev day vendor.

(** The loop over the repair vendors for a cross-vendor peer. *)
Fixpoint peer_pending (day : Z) (vendors : list string) : option string :=
  match vendors with
  | [] => None
  | v :: vendors' =>
      if negb (traced day v) then peer_pending day vendors'
      else
        let s := dr_state (derive_day_repair day v) in
        if settled s then peer_pending day vendors'
        else Some (String.append "peer_of_" (String.append v (String.append ":" (repair_state_value s))))
  end.

Definition pending_repair (day : Z) (vendor : string) : option string :=
  let s := dr_state (derive_day_repair day vendor) in
  if negb (settled s) then Some (repair_state_value s)
  else if negb (bool_decide (vendor ∈ xvendor_peers settings)) || bool_decide (vendor ∈ repair_vendors settings)
  then None
  else peer_pending day (repair_vendors settings).

Definition l0_hold_reason (rel : path) (day cutoff : Z) : option string :=
  if negb (hold_enabled settings) then None
  else
    vendor ← audited_tick_vendor rel;
    pending ← pending_repair day vendor;
    if hold_max_extra_days settings <? cutoff - day then None
    else Some (String.append vendor (String.append ":" pending)).

(** [_repair_hold_for]. *)
Definition repair_hold (cutoff : Z) (rel : path) : option string :=
  text ← dt_fullmatch (name rel);
  day ← iso_date text;
  l0_hold_reason rel day cutoff.
End Repair.

(** ** Lemmas *)

Section Facts.
Context (decode_audit : string -> option RepairAudit) (decode_report : string -> option GapfillReport).
Context (sha256 : string -> string) (ev : Evidence) (settings : RepairSettings).
Context (tape_done : list (string * Z)).

Lemma gap_symbols_elem audit s : s ∈ gap_symbols audit <-> exists n, (s, n) ∈ ad_symbols audit /\ 0 < n.
Proof.
  unfold gap_symbols. rewrite fromkeys_elem, list_elem_of_fmap. split.
  - intros ([s' n] & -> & [Hin Hn]%filter_elem). exists n. split; [done|]. cbn in Hn. by apply Z.ltb_lt.
  - intros (n & Hin & Hn). exists (s, n). split; [done|]. apply filter_elem. split; [done|]. by apply Z.ltb_lt.
Qed.

Lemma tape_pending_zero day audit :
  (0 <? tape_pending tape_done day audit) = false <->
  forall s n, (s, n) ∈ ad_symbols audit -> 0 < n -> (s, day) ∈ tape_done.
Proof.
  unfold tape_pending, zlen. rewrite Z.ltb_ge. split.
  - intros H s n Hin Hn. destruct (decide ((s, day) ∈ tape_done)) as [?|Hno]; [done|]. exfalso.
    assert (Hs : s ∈ List.filter (fun s => negb (bool_decide ((s, day) ∈ tape_done))) (gap_symbols audit)).
    { apply filter_elem. split; [apply gap_symbols_elem; eauto|]. by rewrite bool_decide_false. }
    destruct (List.filter _ _) as [|x l]; [by apply not_elem_of_nil in Hs|cbn [length] in H; lia].
  - intros H. destruct (List.filter _ _) as [|s l] eqn:E; [done|]. exfalso.
    assert (Hs : s ∈ List.filter (fun s => negb (bool_decide ((s, day) ∈ tape_done))) (gap_symbols audit)) by (rewrite E; left).
    apply filter_elem in Hs as [(n & ? & ?)%gap_symbols_elem Hno]. rewrite bool_decide_true in Hno; [done|eauto].
Qed.

(** A path below a trade partition has no other dated directory above it. *)
Lemma dated_prefix v dt file p :
  str_after "dt=" v = None -> str_after "dt=" file = None ->
  under p ([v; "krx"; "regular"; "H0STCNT0"; dt] ++ [file]) = true -> is_Some (str_after "dt=" (name p)) ->
  p = [v; "krx"; "regular"; "H0STCNT0"; dt].
Proof.
  intros Hv Hf Hu Hd. unfold under in Hu. apply bool_decide_eq_true in Hu. cbn [app] in Hu.
  destruct Hd as [r Hd]. rewrite <- Hu in Hd.
  destruct (length p) as [|[|[|[|[|[|[|n]]]]]]]; cbn [take name List.last] in Hu, Hd; try congruence; done.
Qed.

Lemma trade_partition_vendor v day :
  v ∈ gate_vendors settings -> clean v -> date_ok day = true ->
  audited_tick_vendor settings [v; "krx"; "regular"; "H0STCNT0"; String.append "dt=" (date_isoformat day)] = Some v.
Proof.
  intros Hv Hc Hd%iso_date_isoformat. unfold audited_tick_vendor. rewrite bool_decide_true by done. cbn [negb].
  rewrite str_after_app. rewrite bind_some. rewrite Hd. rewrite bind_some.
  assert (Hdt : dt_name (String.append "dt=" (date_isoformat day))).
  { exists (s2l (date_isoformat day)), day. split; [|done]. rewrite l2s_app. by rewrite !l2s_s2l. }
  change (l0_partition_key v "krx" "regular" "H0STCNT0" day) with (Some (mkKey v V_KRX S_REGULAR "H0STCNT0" day)).
  rewrite bind_some.
  assert (Hrel : l0_partition_relpath (mkKey v V_KRX S_REGULAR "H0STCNT0" day)
    = [v; "krx"; "regular"; "H0STCNT0"; String.append "dt=" (date_isoformat day)]).
  { unfold l0_partition_relpath. cbn [map concat k_vendor k_venue k_session k_stream k_day mvenue_value session_value].
    rewrite !posix_parts_clean; [done|by apply dt_name_clean|..|done];
      split_and!; try done; apply (bool_decide_unpack _); vm_compute; exact I. }
  rewrite Hrel. by rewrite !bool_decide_true by done.
Qed.

Lemma report_valid_some day vendor bytes mtime : is_Some (report_valid decode_report sha256 ev day vendor bytes mtime) <->
  exists raw body, ev_report ev day vendor = Some raw /\ decode_report raw = Some body /\
    (dget (rp_notes body) "audit_sha256" = Some (JStr (sha256 bytes)) \/
     (dget (rp_notes body) "audit_sha256" = None /\ exists m, ev_report_mtime ev day vendor = Some m /\ mtime <= m)).
Proof.
  unfold report_valid. split.
  - intros [x H]. destruct (ev_report ev day vendor) as [raw|]; [|done]. cbn [mbind option_bind] in H.
    destruct (decode_report raw) as [body|] eqn:Eb; [|done]. cbn [mbind option_bind] in H. exists raw, body. split_and!; [done..|].
    destruct (dget (rp_notes body) "audit_sha256") as [v|].
    + left. destruct (jis _ _) eqn:Ej; [|done]. destruct v; try done. apply bool_decide_eq_true in Ej as ->. done.
    + right. split; [done|]. destruct (ev_report_mtime ev day vendor) as [m|]; [|done]. cbn [mbind option_bind] in H.
      destruct (m <? mtime) eqn:E; [done|]. bprop. eauto.
  - intros (raw & body & -> & Eb & H). cbn [mbind option_bind]. rewrite Eb. cbn [mbind option_bind].
    destruct H as [->|(-> & m & -> & Hm)]; cbn [jis mbind option_bind].
    + rewrite bool_decide_true by done. done.
    + by rewrite (proj2 (Z.ltb_ge _ _)).
Qed.
End Facts.

(** The readable audit of the day and vendor, with its bytes and their mtime. *)
Definition audit_of (decode_audit : string -> option RepairAudit) (ev : Evidence) (day : Z) (vendor : string)
    (bytes : string) (mtime : Z) (audit : RepairAudit) : Prop :=
  ev_audit ev day vendor = Some (bytes, mtime) /\ decode_audit bytes = Some audit /\
  ad_session_date audit = day /\ ad_vendor audit = vendor.

(** ** Properties *)

(** C30. A day counts as repaired exactly when its evidence is complete: the audit
    of that day and vendor is readable and, for a vendor under repair, the merged
    file is valid where it is required, and a confirmed loss is traced to symbols
    which all have a tape, with a gap-fill report that names this audit's digest or,
    naming none, is not older than the audit. *)
Theorem settled_exactly decode_audit decode_report sha256 ev settings tape_done day vendor :
  settled (dr_state (derive_day_repair decode_audit decode_report sha256 ev settings tape_done day vendor)) = true <->
  exists bytes mtime audit, audit_of decode_audit ev day vendor bytes mtime audit /\
    (vendor ∉ repair_vendors settings \/
     ((merge_required settings = true -> ev_merged_valid ev day vendor = true) /\
      (ad_confirmed audit = 0 \/
       ((exists s n, (s, n) ∈ ad_symbols audit /\ 0 < n) /\
        (forall s n, (s, n) ∈ ad_symbols audit -> 0 < n -> (s, day) ∈ tape_done) /\
        exists raw body, ev_report ev day vendor = Some raw /\ decode_report raw = Some body /\
          (dget (rp_notes body) "audit_sha256" = Some (JStr (sha256 bytes)) \/
           (dget (rp_notes body) "audit_sha256" = None /\ exists m, ev_report_mtime ev day vendor = Some m /\ mtime <= m)))))).
Proof.
  assert (Hm : merge_missing ev settings day vendor = false <->
    (merge_required settings = true -> ev_merged_valid ev day vendor = true)).
  { unfold merge_missing. destruct (merge_required settings), (ev_merged_valid ev day vendor); naive_solver. }
  unfold derive_day_repair, audit_of.
  destruct (ev_audit ev day vendor) as [[bytes mtime]|]; [|split; [done|intros (? & ? & ? & (? & _) & _); done]].
  destruct (decode_audit bytes) as [audit|] eqn:Ea; [|split; [done|intros (? & ? & ? & ([= <- <-] & ? & _) & _); congruence]].
  assert (Hex : forall P : string -> Z -> RepairAudit -> Prop,
    (exists b m a, (Some (bytes, mtime) = Some (b, m) /\ decode_audit b = Some a /\ ad_session_date a = day /\ ad_vendor a = vendor)
       /\ P b m a) <-> (ad_session_date audit = day /\ ad_vendor audit = vendor) /\ P bytes mtime audit).
  { intros P. split; [intros (b & m & a & ([= <- <-] & Ea' & ? & ?) & HP)|intros ([? ?] & HP); by exists bytes, mtime, audit].
    rewrite Ea in Ea'. by injection Ea' as <-. }
  rewrite Hex, <- Hm, <- tape_pending_zero, <- report_valid_some. clear Hex Hm.
  destruct (Z.eqb_spec (ad_session_date audit) day); [|naive_solver].
  destruct (bool_decide_reflect (ad_vendor audit = vendor)); [|naive_solver].
  destruct (bool_decide_reflect (vendor ∈ repair_vendors settings)); cbn [negb orb]; [|naive_solver].
  destruct (merge_missing ev settings day vendor).
  { split; [|naive_solver]. repeat case_match; done. }
  destruct (Z.eqb_spec (ad_confirmed audit) 0); [naive_solver|].
  destruct (bool_decide_reflect (gap_symbols audit = [])) as [Hg|Hg].
  { split; [done|]. intros (_ & [?|(_ & [?|((s & k & Hs) & _)])]); [done..|].
    assert (Hin : s ∈ gap_symbols audit) by (apply gap_symbols_elem; by exists k). rewrite Hg in Hin. by apply not_elem_of_nil in Hin. }
  destruct (0 <? _); [naive_solver|]. destruct (report_valid _ _ _ _ _ _ _) as [r|]; [|split; [done|]].
  - split; [|done]. intros _. split_and!; [done..|]. right. split; [done|]. right. split_and!; [|done|by exists r].
    destruct (gap_symbols audit) as [|s l] eqn:Eg; [done|].
    destruct (proj1 (gap_symbols_elem audit s)) as (k & Hk); [rewrite Eg; left|by exists s, k].
  - intros (_ & [?|(_ & [?|(_ & _ & [? ?])])]); done.
Qed.

Lemma repair_hold_some decode_audit decode_report sha256 ev settings tape_done cutoff v day :
  hold_enabled settings = true -> v ∈ gate_vendors settings -> clean v -> date_ok day = true ->
  settled (dr_state (derive_day_repair decode_audit decode_report sha256 ev settings tape_done day v)) = false ->
  cutoff - day <= hold_max_extra_days settings ->
  is_Some (repair_hold decode_audit decode_report sha256 ev settings tape_done cutoff
    [v; "krx"; "regular"; "H0STCNT0"; String.append "dt=" (date_isoformat day)]).
Proof.
  intros Hh Hv Hc Hd Hs Hold. pose proof (iso_date_isoformat day Hd) as Hiso. unfold repair_hold. cbn [name List.last].
  assert (Hm : dt_fullmatch (String.append "dt=" (date_isoformat day)) = Some (s2l (date_isoformat day))).
  { unfold dt_fullmatch. rewrite s2l_app, skip_prefix_app. rewrite bind_some.
    by rewrite (proj1 (iso_date_shape _ _ Hiso)). }
  rewrite Hm. rewrite bind_some. rewrite Hiso. rewrite bind_some. unfold l0_hold_reason. rewrite Hh. cbn [negb].
  rewrite (trade_partition_vendor settings v day Hv Hc Hd). rewrite bind_some. unfold pending_repair. cbv zeta.
  rewrite Hs. cbn [negb]; rewrite bind_some. rewrite (proj2 (Z.ltb_ge _ _)) by lia. by eexists.
Qed.


Definition demo_settings : RepairSettings := mkRepairSettings true true 30 ["ls"; "kis"] ["ls"] [] [].
Definition no_evidence : Evidence :=
  mkEvidence (fun _ _ => None) (fun _ _ => None) (fun _ _ => None) (fun _ _ => true) (fun _ _ => false) (fun _ _ => false).
Definition demo_hold : path -> option string :=
  repair_hold (fun _ => None) (fun _ => None) (fun b => b) no_evidence demo_settings [] (days_of_civil 2026 9 20).

