(* ===== verification/PyColl.v ===== *)
(** * Collections the repair pipeline shares

    Appending to a defaulted dict entry, [collections.Counter], the merge of a
    sorted list of integer spans that touch, and the bisection that finds the span
    around a number. The three merges of the code differ in which ends belong to a
    span and in when two spans touch; the lemmas cover them all. *)
From Stdlib Require Import Ascii.
From S2P Require Import Prelude PyStr SeqSet.

(** [s.zfill(w)]. *)
Definition zfill (w : nat) (s : string) : string :=
  let l := s2l s in
  let pad := replicate (w - length l) "0"%char in
  match l with
  | c :: r => if decide (c = "+"%char \/ c = "-"%char) then l2s (c :: pad ++ r) else l2s (pad ++ l)
  | [] => l2s pad
  end.

(** [d.setdefault(k, []).append(v)]. *)
Definition dpush {K V} `{EqDecision K} (d : list (K * list V)) (k : K) (v : V) : list (K * list V) :=
  dset d k (default [] (dget d k) ++ [v]).

(** [enumerate(l)]. *)
Definition enumerate {A} (l : list A) : list (Z * A) := imap (fun i x => (Z.of_nat i, x)) l.

(** ** Order of texts and of tuples that start with one *)

Lemma str_ltb_cons x y a b : str_ltb (String x a) (String y b) =
  (N_of_ascii x <? N_of_ascii y)%N || ((N_of_ascii x =? N_of_ascii y)%N && str_ltb a b).
Proof.
  unfold str_ltb, String.ltb. cbn [String.compare]. unfold Ascii.compare.
  destruct (N.compare_spec (N_of_ascii x) (N_of_ascii y)) as [E|E|E].
  - by rewrite E, N.ltb_irrefl, N.eqb_refl.
  - by rewrite (proj2 (N.ltb_lt _ _)).
  - rewrite (proj2 (N.ltb_ge _ _)) by lia. by rewrite (proj2 (N.eqb_neq _ _)) by lia.
Qed.

Lemma ascii_N_inj x y : N_of_ascii x = N_of_ascii y -> x = y.
Proof. intros H. rewrite <- (ascii_N_embedding x), H. apply ascii_N_embedding. Qed.

Lemma str_ltb_trans a : forall b c, str_ltb a b = true -> str_ltb b c = true -> str_ltb a c = true.
Proof.
  induction a as [|x a IH]; intros [|y b] [|z c]; try done. rewrite !str_ltb_cons, !orb_true_iff, !andb_true_iff, !N.ltb_lt, !N.eqb_eq.
  intros [?|[-> ?]] [?|[E ?]]; [left; lia|left; lia|by left|right]. split; [done|by apply (IH b)].
Qed.

Lemma str_ltb_irrefl a : str_ltb a a = false.
Proof. induction a as [|x a IH]; [done|]. by rewrite str_ltb_cons, N.ltb_irrefl, N.eqb_refl, IH. Qed.

Lemma str_ltb_total a : forall b, str_ltb a b = true \/ a = b \/ str_ltb b a = true.
Proof.
  induction a as [|x a IH]; intros [|y b]; [by right; left|by left|by right; right|].
  rewrite !str_ltb_cons, !orb_true_iff, !andb_true_iff, !N.ltb_lt, !N.eqb_eq.
  destruct (N.lt_trichotomy (N_of_ascii x) (N_of_ascii y)) as [?|[E|?]]; [by left; left| |by right; right; left].
  destruct (IH b) as [?|[->|?]]; [left; right|right; left|right; right; right]; [done| |done].
  by apply ascii_N_inj in E as ->.
Qed.

Section Lex.
Context {A : Type} (f : A -> string) (leb : A -> A -> bool).

Definition lex_leb (a b : A) : bool := str_ltb (f a) (f b) || (bool_decide (f a = f b) && leb a b).

Lemma lex_total : (forall a b, leb a b = true \/ leb b a = true) -> forall a b, lex_leb a b = true \/ lex_leb b a = true.
Proof.
  intros H a b. unfold lex_leb. rewrite !orb_true_iff, !andb_true_iff, !bool_decide_eq_true.
  destruct (str_ltb_total (f a) (f b)) as [?|[?|?]]; [tauto| |tauto]. destruct (H a b); [left|right]; auto.
Qed.

Lemma lex_trans : (forall a b c, leb a b = true -> leb b c = true -> leb a c = true) ->
  forall a b c, lex_leb a b = true -> lex_leb b c = true -> lex_leb a c = true.
Proof.
  intros H a b c. unfold lex_leb. rewrite !orb_true_iff, !andb_true_iff, !bool_decide_eq_true.
  intros [H1|[E1 H1]] [H2|[E2 H2]].
  - left. by eapply str_ltb_trans.
  - left. by rewrite <- E2.
  - left. by rewrite E1.
  - right. split; [congruence|by eapply H].
Qed.
End Lex.

(** ** Counters *)

Section Counter.
Context {K : Type} `{EqDecision K}.

(** [c[k]] of a [Counter]. *)
Definition count_of (c : list (K * Z)) (k : K) : Z := default 0 (dget c k).

(** [Counter(l)]. *)
Definition counter (l : list K) : list (K * Z) :=
  fold_left (fun c k => dset c k (count_of c k + 1)) l [].

(** The loop that skips a row while the counter holds its key. *)
Fixpoint unmatched {A} (key : A -> K) (have : list (K * Z)) (rows : list A) : list A :=
  match rows with
  | [] => []
  | r :: rows' =>
      if 0 <? count_of have (key r)
      then unmatched key (dset have (key r) (count_of have (key r) - 1)) rows'
      else r :: unmatched key have rows'
  end.

Definition occurrences (k : K) (l : list K) : Z := Z.of_nat (count_occ (fun x y => decide (x = y)) l k).

Lemma occurrences_cons k x l : occurrences k (x :: l) = (if decide (x = k) then 1 else 0) + occurrences k l.
Proof. unfold occurrences. cbn. destruct (decide (x = k)); lia. Qed.

Lemma occurrences_app k l l' : occurrences k (l ++ l') = occurrences k l + occurrences k l'.
Proof. unfold occurrences. rewrite count_occ_app. lia. Qed.

Lemma occurrences_nonneg k l : 0 <= occurrences k l.
Proof. unfold occurrences. lia. Qed.

Lemma occurrences_perm l l' : l ≡ₚ l' <-> forall k, occurrences k l = occurrences k l'.
Proof.
  unfold occurrences. rewrite (Permutation_count_occ (fun x y => decide (x = y))). split; intros H k; specialize (H k); lia.
Qed.

Lemma count_of_dset c k k' n : count_of (dset c k n) k' = if decide (k = k') then n else count_of c k'.
Proof.
  unfold count_of. destruct (decide (k = k')) as [->|]; [by rewrite dget_dset_eq|by rewrite dget_dset_ne].
Qed.

Lemma counter_count l k : count_of (counter l) k = occurrences k l.
Proof.
  unfold counter. enough (forall c, count_of (fold_left (fun c k => dset c k (count_of c k + 1)) l c) k
    = count_of c k + occurrences k l) as H by (rewrite H; done).
  induction l as [|x l IH]; intros c; cbn [fold_left]; [unfold occurrences; cbn; lia|].
  rewrite IH, count_of_dset, occurrences_cons. destruct (decide (x = k)) as [->|]; lia.
Qed.

Lemma unmatched_count {A} (key : A -> K) k rows : forall have, (forall k, 0 <= count_of have k) ->
  occurrences k (map key (unmatched key have rows)) = Z.max 0 (occurrences k (map key rows) - count_of have k).
Proof.
  induction rows as [|r rows IH]; intros have Hn; cbn [unmatched map].
  { specialize (Hn k). unfold occurrences. cbn. lia. }
  rewrite occurrences_cons. pose proof (Hn (key r)). destruct (0 <? count_of have (key r)) eqn:E; bprop.
  - rewrite IH by (intros k'; rewrite count_of_dset; specialize (Hn k'); case_decide; lia).
    rewrite count_of_dset. destruct (decide (key r = k)) as [<-|]; lia.
  - cbn [map]. rewrite occurrences_cons, IH by done.
    pose proof (occurrences_nonneg k (map key rows)). pose proof (Hn k).
    destruct (decide (key r = k)) as [<-|]; lia.
Qed.

Lemma unmatched_sublist {A} (key : A -> K) rows : forall have, unmatched key have rows `sublist_of` rows.
Proof.
  induction rows as [|r rows IH]; intros have; cbn [unmatched]; [done|].
  destruct (0 <? _); [apply sublist_cons, IH|apply sublist_skip, IH].
Qed.

(** What is left of rows that are the counted ones and others are the others. *)
Lemma unmatched_rest {A} (key : A -> K) have_l rest rows : map key rows ≡ₚ have_l ++ rest ->
  map key (unmatched key (counter have_l) rows) ≡ₚ rest.
Proof.
  intros Hp. apply occurrences_perm. intros k. rewrite unmatched_count by (intros; rewrite counter_count; apply occurrences_nonneg).
  rewrite counter_count. rewrite occurrences_perm in Hp. rewrite Hp, occurrences_app.
  pose proof (occurrences_nonneg k rest). lia.
Qed.
End Counter.

Section Push.
Context {K V : Type} `{EqDecision K}.

Lemma dget_dpush (d : list (K * list V)) k k' v :
  default [] (dget (dpush d k v) k') = default [] (dget d k') ++ (if decide (k = k') then [v] else []).
Proof.
  unfold dpush. destruct (decide (k = k')) as [->|]; [by rewrite dget_dset_eq|].
  by rewrite dget_dset_ne, app_nil_r.
Qed.

Lemma dpush_fold {A} (key : A -> K) (val : A -> V) l k : forall d : list (K * list V),
  default [] (dget (fold_left (fun d x => dpush d (key x) (val x)) l d) k)
  = default [] (dget d k) ++ map val (List.filter (fun x => bool_decide (key x = k)) l).
Proof.
  induction l as [|x l IH]; intros d; cbn; [by rewrite app_nil_r|]. rewrite IH, dget_dpush, <- app_assoc.
  case_bool_decide; subst; [by rewrite decide_True|by rewrite decide_False].
Qed.
End Push.

(** ** Spans *)

(** One span after the merged ones so far: when it starts where the last one still
    [touch]es it, that one is extended. *)
Definition merge_step (touch : Z -> Z -> bool) (compact : list (Z * Z)) (s : Z * Z) : list (Z * Z) :=
  match last compact with
  | Some (lo, hi) =>
      if touch (fst s) hi then removelast compact ++ [(lo, Z.max (snd s) hi)] else compact ++ [s]
  | None => [s]
  end.

Definition merge_spans (touch : Z -> Z -> bool) (l : list (Z * Z)) : list (Z * Z) :=
  fold_left (merge_step touch) l [].

(** Order of pairs. *)
Definition span_leb (a b : Z * Z) : bool := (fst a <? fst b) || ((fst a =? fst b) && (snd a <=? snd b)).

Section Spans.
(** [a] and [b] say whether a span excludes its first and its last number. *)
Context (a b : Z) (Ha : 0 <= a <= 1) (Hb : 0 <= b <= 1).

Definition in_span (x : Z) (s : Z * Z) : Prop := fst s + a <= x <= snd s - b.
Definition covered (l : list (Z * Z)) (x : Z) : Prop := exists s, s ∈ l /\ in_span x s.
Definition touching (lo hi : Z) : bool := lo + a <=? hi - b + 1.

(** Merged spans lie apart. *)
Definition apart (s t : Z * Z) : Prop := fst s < fst t /\ snd s - b + 1 < fst t + a.

Lemma covered_app l l' x : covered (l ++ l') x <-> covered l x \/ covered l' x.
Proof. unfold covered. setoid_rewrite elem_of_app. naive_solver. Qed.

Lemma covered_one s x : covered [s] x <-> in_span x s.
Proof. unfold covered. setoid_rewrite list_elem_of_singleton. naive_solver. Qed.

Lemma apart_snoc l s : StronglySorted apart l -> Forall (fun t => apart t s) l -> StronglySorted apart (l ++ [s]).
Proof.
  induction l as [|t l IH]; cbn; [intros; repeat constructor|].
  intros [Hs Hf]%StronglySorted_inv [Ht Hl]%Forall_cons. constructor; [by apply IH|].
  apply Forall_app. split; [done|by constructor].
Qed.

Definition span_ok (s : Z * Z) : Prop := fst s + a <= snd s - b + 1.

Lemma apart_init c t : StronglySorted apart (c ++ [t]) -> Forall (fun s => apart s t) c /\ StronglySorted apart c.
Proof.
  induction c as [|s c IH]; [by repeat constructor|]. intros [Hs Hall]%StronglySorted_inv.
  destruct (IH Hs) as [? ?]. apply Forall_app in Hall as [? Hlast]. apply Forall_cons in Hlast as [? _]. split; by constructor.
Qed.

(** The merged spans so far lie apart, and none starts after [lo]. *)
Definition merged_upto (lo : Z) (l : list (Z * Z)) : Prop :=
  StronglySorted apart l /\ Forall (fun t => fst t <= lo /\ span_ok t) l.

Lemma merge_step_ok compact s : merged_upto (fst s) compact -> span_ok s ->
  let r := merge_step touching compact s in
  merged_upto (fst s) r /\ (forall x, covered r x <-> covered compact x \/ in_span x s).
Proof.
  unfold span_ok. intros [Hs Hf] Hok. unfold merge_step. destruct (last compact) as [[lo hi]|] eqn:El.
  2: { destruct compact as [|t c]; [|rewrite last_cons in El; by destruct (last c)].
    split; [split; by repeat constructor|]. intros x. rewrite covered_one.
    unfold covered. setoid_rewrite elem_of_nil. naive_solver. }
  apply last_Some in El as [c ->]. rewrite removelast_last. pose proof Hf as Hf'.
  apply Forall_app in Hf as [Hfc Hlo]. apply Forall_cons in Hlo as [[Hlo Hlok] _]. unfold span_ok in Hlok. cbn [fst snd] in *.
  destruct (apart_init _ _ Hs) as [Hc Hcs]. unfold touching. destruct (fst s + a <=? hi - b + 1) eqn:Et; bprop.
  - split; [split|].
    + apply apart_snoc; [done|]. eapply Forall_impl; [exact Hc|]. unfold apart. cbn. lia.
    + apply Forall_app. split; [done|]. repeat constructor; unfold span_ok; cbn; lia.
    + intros x. rewrite !covered_app, !covered_one. unfold in_span. cbn. split; [|intuition lia].
      intros [?|Hx]; [auto|]. destruct (Z.le_gt_cases x (hi - b)); [left; right|right]; lia.
  - split; [split|].
    + apply apart_snoc; [done|]. apply Forall_app. split; [|by repeat constructor; unfold apart; cbn; lia].
      eapply Forall_impl; [exact Hc|]. unfold apart. cbn. lia.
    + apply Forall_app. split; [done|]. by repeat constructor.
    + intros x. by rewrite covered_app, covered_one.
Qed.

Lemma merge_fold_ok l : forall acc, (forall s t, l = s :: t -> merged_upto (fst s) acc) -> (l = [] -> exists lo, merged_upto lo acc) ->
  StronglySorted (fun s t => fst s <= fst t) l -> Forall span_ok l ->
  StronglySorted apart (fold_left (merge_step touching) l acc) /\
  (forall x, covered (fold_left (merge_step touching) l acc) x <-> covered acc x \/ covered l x).
Proof.
  induction l as [|s l IH]; intros acc Hm Hnil Hs Hok; cbn [fold_left].
  { destruct (Hnil eq_refl) as [lo [? _]]. split; [done|]. intros x. unfold covered at 3. setoid_rewrite elem_of_nil. naive_solver. }
  apply StronglySorted_inv in Hs as [Hs Hall]. apply Forall_cons in Hok as [Hok1 Hok].
  destruct (merge_step_ok acc s (Hm _ _ eq_refl) Hok1) as [[Hr1 Hr2] Hcov].
  destruct (IH (merge_step touching acc s)) as [H1 H2]; [|by eexists|done|done|].
  - intros s' t' ->. apply Forall_cons in Hall as [Hle _]. split; [done|]. eapply Forall_impl; [exact Hr2|]. cbn. intros ? [? ?]. split; [lia|done].
  - split; [done|]. intros x. rewrite H2, Hcov. change (s :: l) with ([s] ++ l). rewrite covered_app, covered_one. tauto.
Qed.

(** The merge of sorted spans lies apart and covers exactly what they cover. *)
Lemma merge_spans_ok l : StronglySorted (fun s t => fst s <= fst t) l -> Forall span_ok l ->
  StronglySorted apart (merge_spans touching l) /\ (forall x, covered (merge_spans touching l) x <-> covered l x).
Proof.
  intros Hs Hok. destruct (merge_fold_ok l []) as [H1 H2]; [..|done|done|].
  - intros. split; constructor.
  - intros. exists 0. split; constructor.
  - split; [done|]. intros x. rewrite H2. unfold covered at 1. setoid_rewrite elem_of_nil. naive_solver.
Qed.

(** Among spans that lie apart only the last that starts at or before [x] (before
    [x], when the first number is excluded) can contain it. *)
Lemma covered_last A B x : StronglySorted apart (A ++ B) -> Forall (fun s => fst s <= x) A -> Forall (fun s => x < fst s + a) B ->
  covered (A ++ B) x <-> exists s, last A = Some s /\ in_span x s.
Proof.
  intros Hs HA HB. split; [|intros (s & [c ->]%last_Some & Hx); exists s; split; [set_solver|done]].
  intros (s & [Hin|Hin]%elem_of_app & Hx); [|rewrite Forall_forall in HB; specialize (HB s Hin); unfold in_span in Hx; lia].
  apply list_elem_of_split in Hin as (c & d & ->). destruct d as [|t d].
  { exists s. split; [by rewrite last_snoc|done]. }
  exfalso. rewrite <- app_assoc in Hs. cbn [app] in Hs.
  apply Forall_app in HA as [_ HA]. rewrite !Forall_cons in HA. destruct HA as (_ & Ht & _).
  assert (Hap : apart s t).
  { clear -Hs. induction c as [|u c IH]; cbn in Hs; apply StronglySorted_inv in Hs as [Hs Hall]; [|by apply IH].
    by apply Forall_cons in Hall as [? _]. }
  unfold apart in Hap. unfold in_span in Hx. lia.
Qed.

Lemma apart_split (p : Z * Z -> bool) l : (forall s t, apart s t -> p t = true -> p s = true) ->
  StronglySorted apart l -> exists A B, l = A ++ B /\ Forall (fun s => p s = true) A /\ Forall (fun s => p s = false) B.
Proof.
  intros Hp. induction l as [|s l IH]; intros Hs; [by exists [], []|]. apply StronglySorted_inv in Hs as [Hs Hall].
  destruct (IH Hs) as (A & B & -> & HA & HB). destruct (p s) eqn:E.
  - exists (s :: A), B. by repeat constructor.
  - exists [], (s :: A ++ B). split_and!; [done|constructor|]. constructor; [done|].
    rewrite Forall_forall in Hall |- *. intros t Ht. destruct (p t) eqn:Et; [|done]. rewrite (Hp s t (Hall t Ht) Et) in E. done.
Qed.
End Spans.

(** [spans[bisect(starts, x) - 1]]. *)
Definition span_before (bisect : list Z -> Z -> nat) (spans : list (Z * Z)) (x : Z) : option (Z * Z) :=
  match bisect (map fst spans) x with O => None | S i => spans !! i end.

Section Find.
Context (a b : Z) (Ha : 0 <= a <= 1) (Hb : 0 <= b <= 1).

Lemma lookup_last {A} (l k : list A) n : length l = S n -> (l ++ k) !! n = last l.
Proof. intros H. rewrite lookup_app_l, last_lookup, H by lia. done. Qed.

Lemma span_before_right spans x : StronglySorted (apart a b) spans ->
  covered a b spans x <-> exists s, span_before bisect_right spans x = Some s /\ in_span a b x s.
Proof using Ha Hb.
  intros Hs. destruct (apart_split a b (fun s => fst s <=? x) spans) as (A & B & -> & HA & HB); [|done|].
  { intros s t [? _] ?%Z.leb_le. apply Z.leb_le. lia. }
  assert (HA' : Forall (fun s => fst s <= x) A) by (eapply Forall_impl; [exact HA|]; cbn; lia).
  rewrite (covered_last a b Ha Hb A B x Hs HA') by (eapply Forall_impl; [exact HB|]; cbn; lia).
  unfold span_before. rewrite map_app, (bisect_right_split (map fst A)), length_map.
  - destruct A as [|s A] using rev_ind; [naive_solver|]. rewrite length_app, Nat.add_1_r.
    rewrite lookup_last by (rewrite length_app; cbn; lia). done.
  - apply Forall_fmap. done.
  - apply Forall_fmap. eapply Forall_impl; [exact HB|]; cbn; lia.
Qed.

Lemma span_before_le spans x s : StronglySorted (apart a b) spans -> span_before bisect_right spans x = Some s -> fst s <= x.
Proof using Ha Hb.
  intros Hs. destruct (apart_split a b (fun s => fst s <=? x) spans) as (A & B & -> & HA & HB); [|done|].
  { intros u t [? _] ?%Z.leb_le. apply Z.leb_le. lia. }
  unfold span_before. rewrite map_app, (bisect_right_split (map fst A)), length_map.
  - destruct A as [|u A] using rev_ind; [done|]. rewrite length_app, Nat.add_1_r, lookup_last by (rewrite length_app; cbn; lia).
    rewrite last_snoc. intros [= <-]. apply Forall_app in HA as [_ HA]. apply Forall_cons in HA as [?%Z.leb_le _]. done.
  - apply Forall_fmap. eapply Forall_impl; [exact HA|]. cbn. lia.
  - apply Forall_fmap. eapply Forall_impl; [exact HB|]; cbn; lia.
Qed.

Lemma span_before_left spans x : a = 1 -> StronglySorted (apart a b) spans ->
  covered a b spans x <-> exists s, span_before bisect_left spans x = Some s /\ in_span a b x s.
Proof using Ha Hb.
  intros Ha1 Hs. destruct (apart_split a b (fun s => fst s <? x) spans) as (A & B & -> & HA & HB); [|done|].
  { intros s t [? _] ?%Z.ltb_lt. apply Z.ltb_lt. lia. }
  assert (HA' : Forall (fun s => fst s <= x) A) by (eapply Forall_impl; [exact HA|]; cbn; lia).
  rewrite (covered_last a b Ha Hb A B x Hs HA') by (eapply Forall_impl; [exact HB|]; cbn; lia).
  unfold span_before. rewrite map_app, (bisect_left_split (map fst A)), length_map.
  - destruct A as [|s A] using rev_ind; [naive_solver|]. rewrite length_app, Nat.add_1_r.
    rewrite lookup_last by (rewrite length_app; cbn; lia). done.
  - apply Forall_fmap. eapply Forall_impl; [exact HA|]; cbn; lia.
  - apply Forall_fmap. eapply Forall_impl; [exact HB|]; cbn; lia.
Qed.
End Find.

Lemma span_leb_total a b : span_leb a b = true \/ span_leb b a = true.
Proof. unfold span_leb. destruct a as [a1 a2], b as [b1 b2]; cbn. lia. Qed.

Lemma span_leb_trans a b c : span_leb a b = true -> span_leb b c = true -> span_leb a c = true.
Proof. unfold span_leb. destruct a as [a1 a2], b as [b1 b2], c as [c1 c2]; cbn. lia. Qed.

(** [sorted(spans)] is sorted by first number. *)
Lemma sorted_spans l : StronglySorted (fun s t => fst s <= fst t) (py_sorted span_leb l).
Proof.
  assert (H := py_sorted_strong span_leb l span_leb_total span_leb_trans).
  induction H as [|s l' Hs IH Hf]; constructor; [done|]. eapply Forall_impl; [exact Hf|].
  unfold span_leb. cbn. intros. lia.
Qed.

Lemma covered_perm a b l l' x : l ≡ₚ l' -> covered a b l x <-> covered a b l' x.
Proof. intros Hp. unfold covered. by setoid_rewrite Hp. Qed.

(** The spans as the code builds and reads them. *)
Lemma merged_sorted_ok a b l : 0 <= a <= 1 -> 0 <= b <= 1 -> Forall (span_ok a b) l ->
  StronglySorted (apart a b) (merge_spans (touching a b) (py_sorted span_leb l)) /\
  (forall x, covered a b (merge_spans (touching a b) (py_sorted span_leb l)) x <-> covered a b l x).
Proof.
  intros Ha Hb Hok. destruct (merge_spans_ok a b Ha Hb (py_sorted span_leb l)) as [H1 H2].
  - apply sorted_spans.
  - by rewrite py_sorted_perm.
  - split; [done|]. intros x. rewrite H2. apply covered_perm, py_sorted_perm.
Qed.

(** ** Grouping by a text key *)

Lemma dget_map_values {K V W} `{EqDecision K} (g : V -> W) (d : list (K * V)) k :
  dget (map (fun e => (fst e, g (snd e))) d) k = option_map g (dget d k).
Proof. induction d as [|[k' v] d IH]; cbn; [done|]. by case_decide. Qed.
