(* ===== verification/Gapfill.v ===== *)
(** * Gap filling ([src/storage/l0_gapfill.py])

    Derivation of the trades an audited loss interval misses, from the journals of
    peer vendors keyed by the cumulative volume, and from an external trade tape
    keyed by the second. The audit document is the list of symbol ledgers the
    session audit reports ([LossLedger]); the guards against documents of another
    shape are not modelled. Data frames are lists of rows; [None] is a
    [ValueError]. *)
From Stdlib Require Import Ascii.
From S2P Require Import Prelude PyStr PyTime ExecJournal MarketPhase SeqSet L0Decode LossLedger PyColl.

Inductive GapfillStatus := G_FULL | G_PARTIAL | G_NONE | G_OVER.

Record GapfillInterval := mkOutcome {
  go_interval_id : Z; go_symbol : string; go_chetime_prev : string; go_chetime_next : string;
  go_cum_prev : Z; go_cum_next : Z; go_missing : Z; go_recovered : Z; go_residual : Z;
  go_status : GapfillStatus; go_surplus : Z; go_xvendor : Z
}.

(** A row of [_ROW_SCHEMA]. *)
Record GapRow := mkRow {
  gr_symbol : string; gr_chetime : string; gr_price : Z; gr_volume : Z; gr_tape_seq : Z; gr_interval : Z;
  gr_cum_prev : Z; gr_cum_next : Z; gr_vendor : string; gr_provenance : string
}.

(** [rows.sort(["symbol", "chetime", "tape_seq"])]. *)
Definition row_leb : GapRow -> GapRow -> bool :=
  lex_leb gr_symbol (lex_leb gr_chetime (fun a b => gr_tape_seq a <=? gr_tape_seq b)).

(** ** The audited intervals *)

Definition eligible (iv : LossInterval) : bool :=
  (0 <? missing_trades iv) && negb (bool_decide (chetime_prev iv = "")) && negb (bool_decide (chetime_next iv = "")).

Definition audit_intervals (audit : list SymbolLedger) : list (string * LossInterval) :=
  concat (map (fun l => map (pair (zfill 6 (sl_symbol l))) (List.filter eligible (sl_intervals l))) audit).

Definition indexed_audit_intervals (audit : list SymbolLedger) : list (Z * (string * LossInterval)) :=
  enumerate (audit_intervals audit).

(** ** Trades of a peer vendor inside the gaps *)

Record PeerTrade := mkPeer { pt_acml : Z; pt_chetime : Z; pt_price : Z; pt_qty : Z }.

Definition gap_span (iv : LossInterval) : option (Z * Z) :=
  if missing_trades iv <=? 0 then None
  else
    match acml_prev iv, acml_next_before iv with
    | Some lo, Some hi => if hi <=? lo then None else Some (lo, hi)
    | _, _ => None
    end.

Definition gap_spans (audit : list SymbolLedger) : list (string * (Z * Z)) :=
  concat (map (fun l => map (pair (zfill 6 (sl_symbol l))) (omap gap_span (sl_intervals l))) audit).

Definition group {V} (entries : list (string * V)) : list (string * list V) :=
  fold_left (fun d e => dpush d (fst e) (snd e)) entries [].

Definition merged_gaps (touch : Z -> Z -> bool) (entries : list (string * (Z * Z))) : list (string * list (Z * Z)) :=
  map (fun e => (fst e, merge_spans touch (py_sorted span_leb (snd e)))) (group entries).

(** One line of a peer's journal. *)
Section PeerLines.
Context (json_loads : string -> option json) (peer : string).

Definition peer_trade_of (line : string) : option (string * PeerTrade) :=
  record ← decode_envelope json_loads line;
  let body := tick_body json_loads peer (en_raw record) in
  match dget body "shcode" with
  | Some (JStr raw_symbol) =>
      if bool_decide (raw_symbol = "") then None
      else
        acml ← int_of_printed (dget body "volume");
        qty ← int_of_printed (dget body "cvolume");
        price ← int_of_printed (dget body "price");
        chetime ← int_of_printed (dget body "chetime");
        if (0 <=? chetime) && (chetime <=? 235959)
        then Some (zfill 6 raw_symbol, mkPeer acml chetime (Z.abs price) (Z.abs qty)) else None
  | _ => None
  end.

(** The merged spans of a symbol are read by bisection; the first trade of a
    cumulative volume is kept. *)
Definition in_merged (merged : list (string * list (Z * Z))) (symbol : string) (acml : Z) : bool :=
  match dget merged symbol with
  | None => false
  | Some spans =>
      match span_before bisect_right spans acml with
      | Some (lo, hi) => (lo <? acml) && (acml <=? hi)
      | None => false
      end
  end.

Definition note_peer (merged : list (string * list (Z * Z))) (found : list (string * list (Z * PeerTrade)))
    (line : string) : list (string * list (Z * PeerTrade)) :=
  match peer_trade_of line with
  | None => found
  | Some (symbol, t) =>
      if in_merged merged symbol (pt_acml t) then
        let per_symbol := default [] (dget found symbol) in
        match dget per_symbol (pt_acml t) with
        | Some _ => found
        | None => dset found symbol (dset per_symbol (pt_acml t) t)
        end
      else found
  end.

Definition by_acml (per_symbol : list (Z * PeerTrade)) : list PeerTrade :=
  omap (dget per_symbol) (py_sorted Z.leb (dkeys per_symbol)).

(** [lines] are the lines of the peer's files in name order. *)
Definition peer_trades_for_gaps (audit : list SymbolLedger) (lines : list string) : list (string * list PeerTrade) :=
  let merged := merged_gaps (touching 1 0) (gap_spans audit) in
  map (fun e => (fst e, by_acml (snd e))) (fold_left (note_peer merged) lines []).
End PeerLines.

(** ** Cross-vendor fill *)

Definition in_gap (lo hi : Z) (t : PeerTrade) : bool := (lo <? pt_acml t) && (pt_acml t <=? hi).

(** A peer: its id, whether it conflates, its trades per symbol. *)
Abbreviation peer_data := (string * bool * list (string * list PeerTrade))%type.

Definition trades_of (peer : peer_data) (symbol : string) : list PeerTrade := default [] (dget (snd peer) symbol).

Definition note_plain (lo hi : Z) (seen : list (Z * (PeerTrade * string))) (e : PeerTrade * string)
    : list (Z * (PeerTrade * string)) :=
  if in_gap lo hi (fst e) && negb (dmem seen (pt_acml (fst e))) then dset seen (pt_acml (fst e)) e else seen.

Definition plain_trades (peers : list peer_data) (symbol : string) : list (PeerTrade * string) :=
  concat (map (fun p => map (fun t => (t, fst (fst p))) (trades_of p symbol))
    (List.filter (fun p => negb (snd (fst p))) peers)).

Definition qty_of (l : list (PeerTrade * string)) : Z := zsum (map (fun e => pt_qty (fst e)) l).

Definition acml_leb (a b : PeerTrade) : bool := pt_acml a <=? pt_acml b.

Fixpoint pick_conflating (peers : list peer_data) (symbol : string) (lo hi missing : Z) : option (list (PeerTrade * string)) :=
  match peers with
  | [] => None
  | p :: peers' =>
      if snd (fst p) then
        let candidate := py_sorted acml_leb (List.filter (in_gap lo hi) (trades_of p symbol)) in
        let labelled := map (fun t => (t, fst (fst p))) candidate in
        if (zlen candidate =? missing) && (qty_of labelled =? hi - lo) then Some labelled
        else pick_conflating peers' symbol lo hi missing
      else pick_conflating peers' symbol lo hi missing
  end.

(** The trades picked for an interval; [P_rejected] when the plain peers disagree
    with the span. *)
Inductive picked := P_none | P_rejected | P_trades (l : list (PeerTrade * string)).

Definition pick (peers : list peer_data) (symbol : string) (iv : LossInterval) : picked :=
  match gap_span iv with
  | None => P_none
  | Some (lo, hi) =>
      let seen := fold_left (note_plain lo hi) (plain_trades peers symbol) [] in
      match seen with
      | _ :: _ =>
          let ordered := omap (dget seen) (py_sorted Z.leb (dkeys seen)) in
          if (hi - lo <? qty_of ordered) || (missing_trades iv <? zlen ordered) then P_rejected else P_trades ordered
      | [] =>
          match pick_conflating peers symbol lo hi (missing_trades iv) with
          | Some l => P_trades l
          | None => P_none
          end
      end
  end.

Definition pick_all (peers : list peer_data) (items : list (Z * (string * LossInterval)))
    : list (Z * list (PeerTrade * string)) :=
  omap (fun it => match pick peers (fst (snd it)) (snd (snd it)) with
                  | P_trades l => Some (fst it, l)
                  | _ => None
                  end) items.

Definition rejected (peers : list peer_data) (items : list (Z * (string * LossInterval))) : Z :=
  zlen (List.filter (fun it => match pick peers (fst (snd it)) (snd (snd it)) with P_rejected => true | _ => false end) items).

Definition xvendor_row (id : Z) (symbol : string) (iv : LossInterval) (e : PeerTrade * string) : GapRow :=
  mkRow symbol (str_pad 6 (pt_chetime (fst e))) (pt_price (fst e)) (pt_qty (fst e)) (pt_acml (fst e)) id
    (cum_prev iv) (cum_next iv) (snd e) (String.append "gapfill:xvendor_" (snd e)).

Definition xvendor_rows (items : list (Z * (string * LossInterval))) (picks : list (Z * list (PeerTrade * string))) : list GapRow :=
  concat (map (fun p => match dget items (fst p) with
                        | Some (symbol, iv) => map (xvendor_row (fst p) symbol iv) (snd p)
                        | None => []
                        end) picks).

Definition set_missing (missing deficit : Z) (iv : LossInterval) : LossInterval :=
  mkInterval (iv_symbol iv) (iv_phase iv) (iv_kind iv) missing deficit (cum_prev iv) (cum_next iv) (chetime_prev iv)
    (chetime_next iv) (recv_prev_ns iv) (recv_next_ns iv) (conn_changed iv) (acml_prev iv) (acml_next_before iv).

Definition reduce_interval (picks : list (Z * list (PeerTrade * string))) (id : Z) (iv : LossInterval) : LossInterval :=
  match dget picks id with
  | None => iv
  | Some l => set_missing (Z.max 0 (missing_trades iv - zlen l)) (Z.max 0 (volume_deficit iv - qty_of l)) iv
  end.

(** The copy of the audit with its eligible intervals, numbered from [n], reduced. *)
Fixpoint reduce_intervals (picks : list (Z * list (PeerTrade * string))) (n : Z) (ivs : list LossInterval) : list LossInterval :=
  match ivs with
  | [] => []
  | iv :: ivs' =>
      if eligible iv then reduce_interval picks n iv :: reduce_intervals picks (n + 1) ivs'
      else iv :: reduce_intervals picks n ivs'
  end.

Definition set_intervals (ivs : list LossInterval) (l : SymbolLedger) : SymbolLedger :=
  mkSymbolLedger (sl_symbol l) (sl_no_counter l) (sl_frames l) (trades_observed l) (confirmed_missing l)
    (count_only_missing l) (net_missing l) (sl_volume_deficit l) (sl_duplicates l) (sl_regressions l) (sl_resets l)
    (sl_decode_fail l) ivs (intervals_truncated l) (manifest_frames l).

Fixpoint residual_audit (picks : list (Z * list (PeerTrade * string))) (n : Z) (audit : list SymbolLedger) : list SymbolLedger :=
  match audit with
  | [] => []
  | l :: audit' =>
      set_intervals (reduce_intervals picks n (sl_intervals l)) l
      :: residual_audit picks (n + zlen (List.filter eligible (sl_intervals l))) audit'
  end.

(** The rows, the trades recovered per interval and the residual audit. *)
Definition derive_cross_vendor_fill (audit : list SymbolLedger) (peers : list peer_data)
    : list GapRow * list (Z * Z) * list SymbolLedger :=
  let items := indexed_audit_intervals audit in
  let picks := pick_all peers items in
  (py_sorted row_leb (xvendor_rows items picks), map (fun p => (fst p, zlen (snd p))) picks, residual_audit picks 0 audit).

(** ** Tape fill *)

Record TapeRow := mkTape { tp_symbol : string; tp_ts : Z; tp_price : Z; tp_volume : Z }.
Record GapfillSource := mkSource { gs_vendor : string; gs_provenance : string; gs_tape : list TapeRow }.

(** A trade of a tape: its row number, price and volume; and with its second. *)
Record TapeTrade := mkTrade { tt_seq : Z; tt_price : Z; tt_volume : Z }.
Abbreviation pool_row := (Z * TapeTrade)%type.

Definition price_volume (t : TapeTrade) : Z * Z := (tt_price t, tt_volume t).

(** The live frames of a symbol and second: counter, price and volume. *)
Abbreviation received_map := (list ((string * Z) * list (Z * Z * Z))).

Definition frame_price_volume (f : Z * Z * Z) : Z * Z := (snd (fst f), snd f).

(** The tape by symbol and second. *)
Definition index_row (by_symbol : list (string * list (Z * list TapeTrade))) (e : Z * TapeRow)
    : list (string * list (Z * list TapeTrade)) :=
  let by_ts := default [] (dget by_symbol (tp_symbol (snd e))) in
  dset by_symbol (tp_symbol (snd e))
    (dpush by_ts (tp_ts (snd e)) (mkTrade (fst e) (tp_price (snd e)) (tp_volume (snd e)))).

Definition index_tape (tape : list TapeRow) : list (string * list (Z * list TapeTrade)) :=
  fold_left index_row (enumerate tape) [].

Record Cluster := mkCluster { cl_members : list Z; cl_symbol : string; cl_lo : Z; cl_hi : Z }.

Definition chetime_int (s : string) : option Z := py_int (s2l s).

(** An item with its sort key. *)
Abbreviation item := (Z * (string * LossInterval))%type.
Definition keyed_leb : Z * item -> Z * item -> bool :=
  lex_leb (fun e => fst (snd (snd e))) (fun a b => fst a <=? fst b).

Definition with_key (it : item) : option (Z * item) :=
  k ← chetime_int (chetime_prev (snd (snd it))); Some (k, it).

(** [open_by_symbol] refers to clusters of the list by their position. *)
Definition cluster_step (st : list Cluster * list (string * nat)) (lo hi : Z) (it : item) : list Cluster * list (string * nat) :=
  let '(clusters, open_by_symbol) := st in
  let symbol := fst (snd it) in
  let fresh := (clusters ++ [mkCluster [fst it] symbol lo hi], dset open_by_symbol symbol (length clusters)) in
  match dget open_by_symbol symbol with
  | None => fresh
  | Some k =>
      match clusters !! k with
      | None => fresh
      | Some c =>
          if lo <=? cl_hi c
          then (<[k := mkCluster (cl_members c ++ [fst it]) (cl_symbol c) (cl_lo c) (Z.max (cl_hi c) hi)]> clusters, open_by_symbol)
          else fresh
      end
  end.

Fixpoint cluster_loop (items : list (Z * item)) (st : list Cluster * list (string * nat)) : option (list Cluster) :=
  match items with
  | [] => Some (fst st)
  | (lo, it) :: items' =>
      hi ← chetime_int (chetime_next (snd (snd it)));
      cluster_loop items' (cluster_step st lo hi it)
  end.

Definition clusters (items : list item) : option (list Cluster) :=
  keyed ← mapM with_key items;
  cluster_loop (py_sorted keyed_leb keyed) ([], []).

Definition pooled_second (received : option received_map) (symbol : string) (lo hi ts : Z) (rows : list TapeTrade) : list TapeTrade :=
  if negb ((lo <=? ts) && (ts <=? hi)) then []
  else
    match received with
    | None => if (lo <? ts) && (ts <? hi) then rows else []
    | Some r => unmatched price_volume (counter (map frame_price_volume (default [] (dget r (symbol, ts))))) rows
    end.

Definition pooled_rows (by_ts : list (Z * list TapeTrade)) (lo hi : Z) (received : option received_map) (symbol : string)
    : list pool_row :=
  concat (map (fun ts => map (pair ts) (pooled_second received symbol lo hi ts (default [] (dget by_ts ts))))
    (py_sorted Z.leb (dkeys by_ts))).

(** The last index of a row with that volume. *)
Fixpoint last_with_volume (excess : Z) (pool : list pool_row) : option nat :=
  match pool with
  | [] => None
  | r :: pool' =>
      match last_with_volume excess pool' with
      | Some i => Some (S i)
      | None => if tt_volume (snd r) =? excess then Some O else None
      end
  end.

(** Smaller volumes first, later rows first among equal ones. *)
Definition volume_leb (a b : nat * Z) : bool := (snd a <? snd b) || ((snd a =? snd b) && (fst b <=? fst a)%nat).

Definition drop_smallest (n : nat) (pool : list pool_row) : list pool_row :=
  let order := py_sorted volume_leb (imap (fun i r => (i, tt_volume (snd r))) pool) in
  let smallest := map fst (take n order) in
  map snd (List.filter (fun e => negb (bool_decide (fst e ∈ smallest))) (imap pair pool)).

Definition trim_surplus (pool : list pool_row) (keep deficit : Z) : list pool_row :=
  let n := zlen pool - keep in
  let explained :=
    if (n =? 1) && (0 <? deficit)
    then last_with_volume (zsum (map (fun r => tt_volume (snd r)) pool) - deficit) pool
    else None in
  match explained with
  | Some i => take i pool ++ drop (S i) pool
  | None => drop_smallest (Z.to_nat n) pool
  end.

(** The first source with a pooled trade. *)
Fixpoint choose_source (sources : list GapfillSource) (received : option received_map) (c : Cluster)
    : option (GapfillSource * list pool_row) :=
  match sources with
  | [] => None
  | s :: sources' =>
      let by_ts := default [] (dget (index_tape (gs_tape s)) (cl_symbol c)) in
      match pooled_rows by_ts (cl_lo c) (cl_hi c) received (cl_symbol c) with
      | [] => choose_source sources' received c
      | pool => Some (s, pool)
      end
  end.

Definition outcome_status (last over : bool) (total original : Z) : GapfillStatus :=
  if last && over then G_OVER
  else if total =? 0 then G_NONE
  else if total <? original then G_PARTIAL
  else G_FULL.

(** The members of a cluster take from the pool in order. *)
Fixpoint hand_out (prior : Z -> Z) (symbol : string) (surplus remaining : Z) (members : list (Z * LossInterval)) : list GapfillInterval :=
  match members with
  | [] => []
  | (id, iv) :: members' =>
      let original := missing_trades iv + prior id in
      let last := match members' with [] => true | _ => false end in
      let tape_recovered := Z.min (missing_trades iv) remaining in
      let total := prior id + tape_recovered in
      mkOutcome id symbol (chetime_prev iv) (chetime_next iv) (cum_prev iv) (cum_next iv) original total
        (Z.max 0 (original - total)) (outcome_status last (negb (surplus =? 0)) total original)
        (if last then surplus else 0) (prior id)
      :: hand_out prior symbol surplus (remaining - tape_recovered) members'
  end.

Definition tape_row (s : GapfillSource) (o : GapfillInterval) (r : pool_row) : GapRow :=
  mkRow (go_symbol o) (zfill 6 (str_of_Z (fst r))) (tt_price (snd r)) (tt_volume (snd r)) (tt_seq (snd r))
    (go_interval_id o) (go_cum_prev o) (go_cum_next o) (gs_vendor s) (gs_provenance s).

(** Each outcome's share of the pool as rows. *)
Fixpoint deal_rows (s : GapfillSource) (pool : list pool_row) (outcomes : list GapfillInterval) : list GapRow :=
  match outcomes with
  | [] => []
  | o :: outcomes' =>
      let n := Z.to_nat (go_recovered o - go_xvendor o) in
      map (tape_row s o) (take n pool) ++ deal_rows s (drop n pool) outcomes'
  end.

Definition members_of (items : list item) (c : Cluster) : list (Z * LossInterval) :=
  omap (fun id => e ← dget items id; Some (id, snd e)) (cl_members c).

(** One cluster: its rows and the outcomes of its members. *)
Definition fill_cluster (sources : list GapfillSource) (received : option received_map) (prior : Z -> Z)
    (items : list item) (c : Cluster) : list GapRow * list GapfillInterval :=
  let members := members_of items c in
  let '(chosen, pool) := match choose_source sources received c with Some (s, p) => (Some s, p) | None => (None, []) end in
  let missing := zsum (map (fun m => missing_trades (snd m)) members) in
  let surplus := Z.max 0 (zlen pool - missing) in
  let pool := if surplus =? 0 then pool
              else trim_surplus pool missing (zsum (map (fun m => volume_deficit (snd m)) members)) in
  let outcomes := hand_out prior (cl_symbol c) surplus (zlen pool) members in
  (match chosen with Some s => deal_rows s pool outcomes | None => [] end, outcomes).

(** The items under the pinned ids, or numbered in order. *)
Definition number_items (base : list (string * LossInterval)) (interval_ids : option (list Z)) : option (list item) :=
  match interval_ids with
  | None => Some (enumerate base)
  | Some ids => if bool_decide (length ids = length base) && bool_decide (NoDup ids) then Some (combine ids base) else None
  end.

Definition by_id (os : list GapfillInterval) : list (Z * GapfillInterval) :=
  fold_left (fun d o => dset d (go_interval_id o) o) os [].

Definition derive_gapfill (audit : list SymbolLedger) (sources : list GapfillSource) (received : option received_map)
    (interval_ids : option (list Z)) (prior_recovered : list (Z * Z)) : option (list GapRow * list GapfillInterval) :=
  items ← number_items (audit_intervals audit) interval_ids;
  cs ← clusters items;
  let filled := map (fill_cluster sources received (fun id => default 0 (dget prior_recovered id)) items) cs in
  let outcomes := by_id (concat (map snd filled)) in
  Some (py_sorted row_leb (concat (map fst filled)),
        omap (dget outcomes) (py_sorted Z.leb (dkeys outcomes))).

Record GapfillTotals := mkGapTotals { gt_intervals : Z; gt_missing : Z; gt_recovered : Z; gt_residual : Z }.
Definition summarize_gapfill (outcomes : list GapfillInterval) : GapfillTotals :=
  mkGapTotals (zlen outcomes) (zsum (map go_missing outcomes)) (zsum (map go_recovered outcomes)) (zsum (map go_residual outcomes)).

(** ** The live frames around the gaps *)

Section Received.
Context (json_loads : string -> option json).

(** [iter_received_ticks] on the lines of the journal's files in name order. *)
Definition iter_received_ticks (vendor : string) (lines : list string) : list ReceivedTick :=
  omap (fun line => r ← decode_envelope json_loads line; decode_received_tick (tick_body json_loads vendor (en_raw r))) lines.
End Received.

Definition second_span (iv : LossInterval) : option (Z * Z) :=
  lo ← chetime_int (chetime_prev iv);
  hi ← chetime_int (chetime_next iv);
  if lo <=? hi then Some (lo, hi) else None.

Definition second_spans (audit : list SymbolLedger) : list (string * (Z * Z)) :=
  concat (map (fun l => map (pair (zfill 6 (sl_symbol l))) (omap second_span (sl_intervals l))) audit).

Definition wanted_second (wanted : list (string * list (Z * Z))) (symbol : string) (chetime : Z) : bool :=
  match span_before bisect_right (default [] (dget wanted symbol)) chetime with
  | Some (_, hi) => chetime <=? hi
  | None => false
  end.

Definition note_received (wanted : list (string * list (Z * Z))) (found : received_map) (t : ReceivedTick) : received_map :=
  let symbol := zfill 6 (rt_symbol t) in
  if wanted_second wanted symbol (rt_chetime t)
  then dpush found (symbol, rt_chetime t) (rt_cum t, rt_price t, rt_volume t) else found.

Definition received_trades_for_gaps (audit : list SymbolLedger) (ticks : list ReceivedTick) : received_map :=
  fold_left (note_received (merged_gaps (touching 0 0) (second_spans audit))) ticks [].
