(* ===== verification/GapfillFacts.v ===== *)
(** * Lemmas on gap filling

    The clusters partition the audited intervals and keep the seconds of one symbol
    apart; the pool of a cluster is the multiset difference of tape and live frames;
    the hand-out gives every pooled trade to one interval. *)
From Stdlib Require Import Ascii.
From S2P Require Import Prelude PyStr SeqSet L0Decode LossLedger PyColl Gapfill.

(** ** Clusters *)

(** An item with its seconds. *)
Record timed := mkTimed { ti_item : item; ti_lo : Z; ti_hi : Z }.
Definition ti_id (t : timed) : Z := fst (ti_item t).
Definition ti_symbol (t : timed) : string := fst (snd (ti_item t)).

(** The cluster [c] groups the items [ms]. *)
Record groups (c : Cluster) (ms : list timed) : Prop := {
  gr_ids : cl_members c = map ti_id ms;
  gr_some : ms <> [];
  gr_in : Forall (fun t => ti_symbol t = cl_symbol c /\ cl_lo c <= ti_lo t /\ ti_hi t <= cl_hi c) ms;
  gr_cover : forall ts, cl_lo c <= ts <= cl_hi c -> exists t, t ∈ ms /\ ti_lo t <= ts <= ti_hi t
}.

(** Clusters of one symbol lie apart in time. *)
Definition cl_apart (c d : Cluster) : Prop := cl_symbol c = cl_symbol d -> cl_hi c < cl_lo d.

Record cl_inv (st : list Cluster * list (string * nat)) (mss : list (list timed)) : Prop := {
  ci_groups : Forall2 groups (fst st) mss;
  ci_apart : forall i j c d, (i < j)%nat -> fst st !! i = Some c -> fst st !! j = Some d -> cl_apart c d;
  ci_open : forall y k, dget (snd st) y = Some k -> exists c, fst st !! k = Some c /\ cl_symbol c = y /\
    forall j d, (k < j)%nat -> fst st !! j = Some d -> cl_symbol d <> y;
  ci_closed : forall y, dget (snd st) y = None -> forall j d, fst st !! j = Some d -> cl_symbol d <> y
}.

(** What is still to come starts no earlier than the clusters of its symbol. *)
Definition cl_before (cs : list Cluster) (t : timed) : Prop :=
  forall j c, cs !! j = Some c -> cl_symbol c = ti_symbol t -> cl_lo c <= ti_lo t.

Lemma fresh_cluster st mss t : cl_inv st mss -> ti_lo t <= ti_hi t ->
  (forall j c, fst st !! j = Some c -> cl_symbol c = ti_symbol t -> cl_hi c < ti_lo t) ->
  cl_inv (fst st ++ [mkCluster [ti_id t] (ti_symbol t) (ti_lo t) (ti_hi t)], dset (snd st) (ti_symbol t) (length (fst st)))
    (mss ++ [[t]]).
Proof.
  intros [Hg Ha Ho Hc] Hle Hnew. split; cbn [fst snd].
  - apply Forall2_app; [done|]. constructor; [|constructor]. split; cbn; [done|done| |].
    + by repeat constructor.
    + intros ts Hts. exists t. split; [by left|done].
  - intros i j c d Hij Hi Hj. apply lookup_app_Some in Hj as [Hj|[Hl Hj]].
    + pose proof (lookup_lt_Some _ _ _ Hj). rewrite lookup_app_l in Hi by lia. exact (Ha i j c d Hij Hi Hj).
    + apply list_lookup_singleton_Some in Hj as [Hj <-]. rewrite lookup_app_l in Hi by lia.
      intros E. cbn in *. by eapply Hnew.
  - intros y k. destruct (decide (ti_symbol t = y)) as [<-|Hne].
    + rewrite dget_dset_eq. intros [= <-]. eexists. split; [by rewrite lookup_app_r, Nat.sub_diag by lia|]. split; [done|].
      intros j d Hj Hd. apply lookup_lt_Some in Hd. rewrite length_app in Hd. cbn in Hd. lia.
    + rewrite dget_dset_ne by done. intros Hk. destruct (Ho y k Hk) as (c & Hl & Hy & Hlater). exists c.
      pose proof (lookup_lt_Some _ _ _ Hl). rewrite lookup_app_l by lia. split_and!; [done..|].
      intros j d Hj [Hd|[? Hd]]%lookup_app_Some; [by eapply Hlater|].
      apply list_lookup_singleton_Some in Hd as [_ <-]. done.
  - intros y Hy j d [Hd|[? Hd]]%lookup_app_Some.
    + destruct (decide (ti_symbol t = y)) as [<-|Hne]; [by rewrite dget_dset_eq in Hy|].
      rewrite dget_dset_ne in Hy by done. by eapply Hc.
    + apply list_lookup_singleton_Some in Hd as [_ <-]. cbn. intros <-. by rewrite dget_dset_eq in Hy.
Qed.

Lemma grow_cluster cs op mss k c ms t : cl_inv (cs, op) mss -> cs !! k = Some c -> mss !! k = Some ms ->
  dget op (ti_symbol t) = Some k -> ti_lo t <= ti_hi t -> cl_lo c <= ti_lo t -> ti_lo t <= cl_hi c ->
  cl_inv (<[k := mkCluster (cl_members c ++ [ti_id t]) (cl_symbol c) (cl_lo c) (Z.max (cl_hi c) (ti_hi t))]> cs, op)
    (<[k := ms ++ [t]]> mss).
Proof.
  intros [Hg Ha Ho Hc] Hk Hms Hop Hle Hlo Hhi. cbn [fst snd] in *.
  destruct (Ho _ _ Hop) as (c' & Hk' & Hsym & Hlater). rewrite Hk in Hk'. injection Hk' as <-.
  assert (Hin : forall j d, <[k := mkCluster (cl_members c ++ [ti_id t]) (cl_symbol c) (cl_lo c) (Z.max (cl_hi c) (ti_hi t))]> cs !! j = Some d ->
    (j = k /\ cl_symbol d = cl_symbol c /\ cl_lo d = cl_lo c) \/ (j <> k /\ cs !! j = Some d)).
  { intros j d. destruct (decide (j = k)) as [->|Hne].
    - rewrite list_lookup_insert_eq by (by eapply lookup_lt_Some). intros [= <-]. by left.
    - rewrite list_lookup_insert_ne by done. by right. }
  split; cbn [fst snd].
  - apply Forall2_insert; [done|]. pose proof (Forall2_lookup_lr _ _ _ _ _ _ Hg Hk Hms) as [G1 G2 G3 G4]. split; cbn.
    + by rewrite G1, map_app.
    + by destruct ms.
    + apply Forall_app. split; [|repeat constructor; try done; lia].
      eapply Forall_impl; [exact G3|]. cbn. intros x (? & ? & ?). split_and!; [done|done|lia].
    + intros ts Hts. destruct (Z.le_gt_cases ts (cl_hi c)) as [Hts'|Hts'].
      * destruct (G4 ts) as (x & Hx & ?); [lia|]. exists x. split; [set_solver|done].
      * exists t. split; [set_solver|lia].
  - intros i j d e Hij Hi Hj. apply Hin in Hi as [(-> & Hs & Hl)|(Hne & Hi)]; apply Hin in Hj as [(-> & Hs' & Hl')|(Hne' & Hj)].
    + lia.
    + intros E. exfalso. apply (Hlater j e Hij Hj). congruence.
    + intros E. rewrite Hl'. eapply Ha; [exact Hij|done|exact Hk|congruence].
    + by eapply Ha.
  - intros y n Hy. destruct (Ho y n Hy) as (d & Hn & Hd & Hl). destruct (decide (n = k)) as [->|Hne].
    + exists (mkCluster (cl_members c ++ [ti_id t]) (cl_symbol c) (cl_lo c) (Z.max (cl_hi c) (ti_hi t))).
      rewrite list_lookup_insert_eq by (by eapply lookup_lt_Some). rewrite Hk in Hn. injection Hn as <-. split_and!; [done|done|].
      intros j e Hj [(-> & _)|(_ & He)]%Hin; [lia|by eapply Hl].
    + exists d. rewrite list_lookup_insert_ne by done. split_and!; [done|done|].
      intros j e Hj [(-> & Hs & _)|(_ & He)]%Hin; [rewrite Hs; by eapply Hl|by eapply Hl].
  - intros y Hy j d [(-> & Hs & _)|(_ & He)]%Hin; [rewrite Hs; by eapply Hc|by eapply Hc].
Qed.

Lemma concat_insert_snoc {A} (mss : list (list A)) k ms t : mss !! k = Some ms ->
  concat (<[k := ms ++ [t]]> mss) ≡ₚ t :: concat mss.
Proof.
  revert k. induction mss as [|m mss IH]; intros [|k] H; cbn in *; [done|done|injection H as <-|].
  - rewrite <- app_assoc. cbn. by rewrite <- Permutation_middle.
  - rewrite (IH k H). by rewrite <- Permutation_middle.
Qed.

Lemma cluster_step_ok st mss t : cl_inv st mss -> ti_lo t <= ti_hi t -> cl_before (fst st) t ->
  let st' := cluster_step st (ti_lo t) (ti_hi t) (ti_item t) in
  exists mss', cl_inv st' mss' /\ concat mss' ≡ₚ t :: concat mss /\
    forall u, (ti_symbol u = ti_symbol t -> ti_lo t <= ti_lo u) -> cl_before (fst st) u -> cl_before (fst st') u.
Proof.
  intros Hinv Hle Hb. destruct st as [cs op]. pose proof Hinv as [Hg Ha Ho Hc]. cbn [fst snd] in *.
  assert (Hfresh : (forall j c, cs !! j = Some c -> cl_symbol c = ti_symbol t -> cl_hi c < ti_lo t) ->
    let st' := (cs ++ [mkCluster [ti_id t] (ti_symbol t) (ti_lo t) (ti_hi t)], dset op (ti_symbol t) (length cs)) in
    exists mss', cl_inv st' mss' /\ concat mss' ≡ₚ t :: concat mss /\
      forall u, (ti_symbol u = ti_symbol t -> ti_lo t <= ti_lo u) -> cl_before cs u -> cl_before (fst st') u).
  { intros Hnew. exists (mss ++ [[t]]). split_and!.
    - by apply (fresh_cluster (cs, op)).
    - rewrite concat_app. cbn. by rewrite (Permutation_app_comm (concat mss)).
    - intros u Hu Hbu j d [Hd|[_ Hd]]%lookup_app_Some Hs; [by eapply Hbu|].
      apply list_lookup_singleton_Some in Hd as [_ <-]. cbn in *. auto. }
  unfold cluster_step. fold (ti_symbol t) (ti_id t). destruct (dget op (ti_symbol t)) as [k|] eqn:Eop.
  2: { apply Hfresh. intros j c Hj Hs. exfalso. by eapply (Hc _ Eop). }
  destruct (Ho _ _ Eop) as (c & Hk & Hsym & Hlater). rewrite Hk. destruct (ti_lo t <=? cl_hi c) eqn:E; bprop.
  - destruct (Forall2_lookup_l _ _ _ _ _ Hg Hk) as (ms & Hms & _). exists (<[k := ms ++ [t]]> mss). split_and!.
    + eapply grow_cluster; try done. by eapply Hb.
    + by apply concat_insert_snoc.
    + cbn [fst]. intros u Hu Hbu j d Hj Hs. destruct (decide (j = k)) as [->|Hne].
      * rewrite list_lookup_insert_eq in Hj by (by eapply lookup_lt_Some). injection Hj as <-. cbn in *. by eapply Hbu.
      * rewrite list_lookup_insert_ne in Hj by done. by eapply Hbu.
  - apply Hfresh. intros j d Hj Hs. destruct (Nat.lt_trichotomy j k) as [Hjk|[->|Hjk]].
    + assert (cl_hi d < cl_lo c) by (eapply (Ha j k); [done..|congruence]). specialize (Hb k c Hk Hsym). lia.
    + rewrite Hk in Hj. injection Hj as <-. lia.
    + exfalso. by eapply (Hlater j d).
Qed.

(** [items] in the loop's order are the timed items [ts]. *)
Definition timed_as (e : Z * item) (t : timed) : Prop :=
  fst e = ti_lo t /\ snd e = ti_item t /\ chetime_int (chetime_next (snd (snd (snd e)))) = Some (ti_hi t).

Lemma cluster_loop_ok items : forall ts st mss, Forall2 timed_as items ts -> cl_inv st mss ->
  Forall (fun t => ti_lo t <= ti_hi t /\ cl_before (fst st) t) ts ->
  StronglySorted (fun t u => ti_symbol u = ti_symbol t -> ti_lo t <= ti_lo u) ts ->
  exists cs mss', cluster_loop items st = Some cs /\ Forall2 groups cs mss' /\ concat mss' ≡ₚ ts ++ concat mss /\
    (forall i j c d, (i < j)%nat -> cs !! i = Some c -> cs !! j = Some d -> cl_apart c d).
Proof.
  induction items as [|[lo it] items IH]; intros ts st mss Ht Hinv Hf Hs.
  { apply Forall2_nil_inv_l in Ht as ->. exists (fst st), mss. destruct Hinv as [Hg Ha _ _]. by split_and!. }
  apply Forall2_cons_inv_l in Ht as (t & ts' & (E1 & E2 & E3) & Ht & ->). cbn [fst snd] in *. subst lo it.
  apply Forall_cons in Hf as [[Hle Hb] Hf]. apply StronglySorted_inv in Hs as [Hs Hall]. cbn [cluster_loop]. rewrite E3.
  cbn [mbind option_bind]. destruct (cluster_step_ok st mss t Hinv Hle Hb) as (mss' & Hinv' & Hp & Hb').
  destruct (IH ts' (cluster_step st (ti_lo t) (ti_hi t) (ti_item t)) mss' Ht Hinv') as (cs & mss'' & Hcs & Hg & Hp' & Ha).
  - rewrite Forall_forall in Hf, Hall |- *. intros u Hu. destruct (Hf u Hu). split; [done|]. by apply Hb'; [apply Hall|].
  - done.
  - exists cs, mss''. split_and!; [done|done| |done]. rewrite Hp', Hp. cbn. by rewrite <- Permutation_middle.
Qed.

(** The seconds of an item; [None] when a time is no number. *)
Definition time_item (it : item) : option timed :=
  lo ← chetime_int (chetime_prev (snd (snd it)));
  hi ← chetime_int (chetime_next (snd (snd it)));
  Some (mkTimed it lo hi).

Lemma time_item_some it t : time_item it = Some t ->
  ti_item t = it /\ chetime_int (chetime_prev (snd (snd it))) = Some (ti_lo t) /\
  chetime_int (chetime_next (snd (snd it))) = Some (ti_hi t).
Proof.
  unfold time_item. destruct (chetime_int (chetime_prev _)) as [lo|]; [|done]. rewrite bind_some.
  destruct (chetime_int (chetime_next _)) as [hi|]; [|done]. rewrite bind_some. by intros [= <-].
Qed.

Lemma keyed_strong keyed ts : Forall2 timed_as keyed ts -> StronglySorted (fun a b => keyed_leb a b = true) keyed ->
  StronglySorted (fun t u => ti_symbol u = ti_symbol t -> ti_lo t <= ti_lo u) ts.
Proof.
  intros HF. induction HF as [|e t keyed ts (E1 & E2 & _) HF IH]; intros Hs; [constructor|].
  apply StronglySorted_inv in Hs as [Hs Hall]. constructor; [by apply IH|].
  apply Forall_lookup. intros i u Hu Hsym. destruct (Forall2_lookup_r _ _ _ _ _ HF Hu) as (e' & He' & (E1' & E2' & _)).
  rewrite Forall_lookup in Hall. specialize (Hall i e' He'). unfold keyed_leb, lex_leb in Hall.
  unfold ti_symbol in Hsym. rewrite E2, E2', Hsym, str_ltb_irrefl in Hall. cbn in Hall.
  apply andb_true_iff in Hall as [_ Hle%Z.leb_le]. lia.
Qed.

Lemma clusters_ok items ts : mapM time_item items = Some ts -> Forall (fun t => ti_lo t <= ti_hi t) ts ->
  exists cs mss, clusters items = Some cs /\ Forall2 groups cs mss /\ concat mss ≡ₚ ts /\
    (forall i j c d, (i < j)%nat -> cs !! i = Some c -> cs !! j = Some d -> cl_apart c d).
Proof.
  intros Hts Hle. apply mapM_Some in Hts.
  assert (Hk : mapM with_key items = Some (map (fun t => (ti_lo t, ti_item t)) ts)).
  { apply mapM_Some. clear Hle. induction Hts as [|it t items ts (<- & E & _)%time_item_some Hts IH]; constructor; [|done].
    unfold with_key. by rewrite E. }
  unfold clusters. rewrite Hk. cbn [mbind option_bind].
  set (keyed := map (fun t => (ti_lo t, ti_item t)) ts).
  assert (HF0 : Forall2 timed_as keyed ts).
  { unfold keyed. clear -Hts. induction Hts as [|it t items ts (<- & _ & E)%time_item_some Hts IH]; cbn; constructor; [|done].
    by split_and!. }
  destruct (Permutation_Forall2 (Permutation_sym (py_sorted_perm keyed_leb keyed)) HF0) as (us & Hp & HF).
  destruct (cluster_loop_ok _ us ([], []) [] HF) as (cs & mss & Hcs & Hg & Hp' & Ha).
  - by split; cbn; try done; try constructor; intros; rewrite lookup_nil in *.
  - rewrite <- Hp. eapply Forall_impl; [exact Hle|]. intros t Ht. split; [done|]. by intros j c.
  - eapply keyed_strong; [exact HF|]. apply py_sorted_strong.
    + apply lex_total. intros a b. lia.
    + apply lex_trans. intros a b c. lia.
  - exists cs, mss. split_and!; [done|done| |done]. cbn in Hp'. by rewrite Hp', app_nil_r.
Qed.

(** ** The pool of a cluster *)

(** The trades of a tape at a symbol and second, in tape order. *)
Definition tape_at_of (l : list (Z * TapeRow)) (y : string) (ts : Z) : list TapeTrade :=
  map (fun e => mkTrade (fst e) (tp_price (snd e)) (tp_volume (snd e)))
    (List.filter (fun e => bool_decide (tp_symbol (snd e) = y) && bool_decide (tp_ts (snd e) = ts)) l).
Definition tape_at (tape : list TapeRow) : string -> Z -> list TapeTrade := tape_at_of (enumerate tape).

Definition by_ts_of (tape : list TapeRow) (y : string) : list (Z * list TapeTrade) := default [] (dget (index_tape tape) y).

Lemma default_some {A} (d x : A) : default d (Some x) = x.
Proof. done. Qed.

Lemma index_fold l y ts : forall d,
  default [] (dget (default [] (dget (fold_left index_row l d) y)) ts)
  = default [] (dget (default [] (dget d y)) ts) ++ tape_at_of l y ts.
Proof.
  induction l as [|e l IH]; intros d; cbn [fold_left]; [by rewrite app_nil_r|]. rewrite IH. unfold index_row, tape_at_of. cbn [List.filter].
  destruct (decide (tp_symbol (snd e) = y)) as [<-|Hy].
  - rewrite dget_dset_eq, bool_decide_true, default_some, dget_dpush, <- app_assoc by done. cbn [andb].
    case_bool_decide; [by rewrite decide_True|by rewrite decide_False].
  - rewrite dget_dset_ne, bool_decide_false by done. done.
Qed.

Lemma index_tape_at tape y ts : default [] (dget (by_ts_of tape y) ts) = tape_at tape y ts.
Proof. unfold by_ts_of, index_tape. by rewrite index_fold. Qed.

Lemma index_keys l y : forall d, (forall y, NoDup (dkeys (default [] (dget d y)))) ->
  NoDup (dkeys (default [] (dget (fold_left index_row l d) y))).
Proof.
  induction l as [|e l IH]; intros d Hd; cbn [fold_left]; [done|]. apply IH. intros y'. unfold index_row.
  destruct (decide (tp_symbol (snd e) = y')) as [<-|Hy]; [|by rewrite dget_dset_ne].
  rewrite dget_dset_eq, default_some. by apply dkeys_dset_nodup.
Qed.

Lemma by_ts_keys tape y : NoDup (dkeys (by_ts_of tape y)).
Proof. apply index_keys. intros. constructor. Qed.

Lemma pooled_second_nil received y lo hi ts : pooled_second received y lo hi ts [] = [].
Proof. unfold pooled_second. destruct (negb _); [done|]. destruct received; [done|]. by destruct (_ && _). Qed.

Definition pool_key (r : pool_row) : Z * (Z * Z) := (fst r, price_volume (snd r)).

Lemma occurrences_pairs (ts : Z) (k : Z * Z) (ts' : Z) (g : list TapeTrade) :
  occurrences (ts, k) (map pool_key (map (pair ts') g)) = if decide (ts' = ts) then occurrences k (map price_volume g) else 0.
Proof.
  induction g as [|t g IH]; cbn [map]; [by case_decide|]. rewrite occurrences_cons, IH, occurrences_cons.
  unfold pool_key. cbn [fst snd]. repeat case_decide; simplify_eq; done.
Qed.

Lemma occurrences_zero {K} `{EqDecision K} (k : K) l : k ∉ l -> occurrences k l = 0.
Proof. intros H. unfold occurrences. rewrite (proj1 (count_occ_not_In _ _ _)); [done|]. by rewrite <- list_elem_of_In. Qed.

Lemma pool_occurrences by_ts lo hi received y ts k : NoDup (dkeys by_ts) ->
  occurrences (ts, k) (map pool_key (pooled_rows by_ts lo hi received y))
  = occurrences k (map price_volume (pooled_second received y lo hi ts (default [] (dget by_ts ts)))).
Proof.
  intros Hnd. unfold pooled_rows.
  assert (Hkeys : NoDup (py_sorted Z.leb (dkeys by_ts))) by (by rewrite py_sorted_perm).
  assert (Hno : ts ∉ py_sorted Z.leb (dkeys by_ts) ->
    occurrences k (map price_volume (pooled_second received y lo hi ts (default [] (dget by_ts ts)))) = 0).
  { rewrite py_sorted_elem. intros Hn%dget_None_keys. rewrite Hn. cbn. by rewrite pooled_second_nil. }
  generalize (py_sorted Z.leb (dkeys by_ts)) as keys, Hkeys, Hno. clear. intros keys Hnd Hno.
  induction keys as [|ts' keys IH]; cbn [map concat]; [symmetry; apply Hno; apply not_elem_of_nil|].
  apply NoDup_cons in Hnd as [Hni Hnd]. rewrite map_app, occurrences_app, occurrences_pairs.
  destruct (decide (ts' = ts)) as [->|Hne].
  - rewrite (occurrences_zero (ts, k)); [lia|]. intros ((u & t) & E & Hin)%list_elem_of_fmap. injection E as -> _.
    apply list_elem_of_In, in_concat in Hin as (g & Hg & Ht). apply list_elem_of_In, list_elem_of_fmap in Hg as (ts' & -> & Hts').
    apply list_elem_of_In, list_elem_of_fmap in Ht as (? & [= -> ->] & _). done.
  - rewrite Z.add_0_l. apply IH; [done|]. intros Hn. apply Hno. set_solver.
Qed.

Definition received_at (r : received_map) (y : string) (ts : Z) : list (Z * Z) :=
  map frame_price_volume (default [] (dget r (y, ts))).

Lemma occurrences_filter_fst {V} `{EqDecision V} (ts : Z) (k : V) (l : list (Z * V)) :
  occurrences (ts, k) l = occurrences k (map snd (List.filter (fun e => bool_decide (fst e = ts)) l)).
Proof.
  induction l as [|[u v] l IH]; cbn [List.filter]; [done|]. rewrite occurrences_cons, IH. cbn [fst].
  case_bool_decide; cbn [map snd]; [rewrite occurrences_cons|]; repeat case_decide; simplify_eq; done.
Qed.

(** Where the tape holds the live frames and the [lost] trades of each second, the
    pool is exactly the lost trades. *)
Lemma pool_exact tape r y lo hi lost : Forall (fun e => lo <= fst e <= hi) lost ->
  (forall ts, lo <= ts <= hi -> map price_volume (tape_at tape y ts)
     ≡ₚ received_at r y ts ++ map snd (List.filter (fun e => bool_decide (fst e = ts)) lost)) ->
  map pool_key (pooled_rows (by_ts_of tape y) lo hi (Some r) y) ≡ₚ lost.
Proof.
  intros Hin Ht. apply occurrences_perm. intros [ts k]. rewrite pool_occurrences by apply by_ts_keys. rewrite index_tape_at.
  rewrite occurrences_filter_fst. unfold pooled_second. destruct ((lo <=? ts) && (ts <=? hi)) eqn:E; cbn [negb].
  - bprop. fold (received_at r y ts).
    assert (Hp : map price_volume (unmatched price_volume (counter (received_at r y ts)) (tape_at tape y ts))
      ≡ₚ map snd (List.filter (fun e => bool_decide (fst e = ts)) lost)) by (apply unmatched_rest, Ht; lia).
    rewrite occurrences_perm in Hp. apply Hp.
  - rewrite occurrences_zero by apply not_elem_of_nil. symmetry. apply occurrences_zero.
    intros (e & _ & [He ?%bool_decide_eq_true]%filter_elem)%list_elem_of_fmap. rewrite Forall_forall in Hin.
    specialize (Hin e He). lia.
Qed.

(** No pooled trade was received: the pool and the live frames of a second never
    exceed the tape. *)
Lemma pool_bound tape r y lo hi ts k :
  occurrences (ts, k) (map pool_key (pooled_rows (by_ts_of tape y) lo hi (Some r) y))
  <= Z.max 0 (occurrences k (map price_volume (tape_at tape y ts)) - occurrences k (received_at r y ts)).
Proof.
  rewrite pool_occurrences by apply by_ts_keys. rewrite index_tape_at. unfold pooled_second. destruct (negb _).
  - rewrite occurrences_zero by apply not_elem_of_nil. lia.
  - fold (received_at r y ts). rewrite unmatched_count by (intros; rewrite counter_count; apply occurrences_nonneg).
    rewrite counter_count. lia.
Qed.

Lemma enumerate_lookup {A} (l : list A) i x : (i, x) ∈ enumerate l <-> 0 <= i /\ l !! Z.to_nat i = Some x.
Proof.
  unfold enumerate. rewrite list_elem_of_lookup. setoid_rewrite list_lookup_imap. split.
  - intros (n & H). destruct (l !! n) eqn:E; [|done]. cbn in H. injection H as <- <-. rewrite Nat2Z.id. split; [lia|done].
  - intros [Hi H]. exists (Z.to_nat i). rewrite H. cbn. by rewrite Z2Nat.id.
Qed.

(** Every pooled trade is a row of the tape, at its symbol and second. *)
Lemma pool_from_tape tape received y lo hi ts t : (ts, t) ∈ pooled_rows (by_ts_of tape y) lo hi received y ->
  lo <= ts <= hi /\ 0 <= tt_seq t /\ tape !! Z.to_nat (tt_seq t) = Some (mkTape y ts (tt_price t) (tt_volume t)).
Proof.
  unfold pooled_rows. intros (g & Hg & Hin)%list_elem_of_In%in_concat.
  apply list_elem_of_In, list_elem_of_fmap in Hg as (ts' & -> & _). apply list_elem_of_In, list_elem_of_fmap in Hin as (t' & [= <- <-] & Hin).
  rewrite index_tape_at in Hin. unfold pooled_second in Hin. destruct (negb _) eqn:E; [by apply elem_of_nil in Hin|]. bprop.
  assert (Ht : t ∈ tape_at tape y ts).
  { destruct received as [r|]; [by eapply elem_of_sublist, unmatched_sublist|]. destruct (_ && _); [done|by apply elem_of_nil in Hin]. }
  unfold tape_at, tape_at_of in Ht. apply list_elem_of_fmap in Ht as ([i row] & -> & [Hi Hb]%filter_elem). bprop.
  apply enumerate_lookup in Hi as [? Hl]. cbn in *. split; [done|]. split; [done|]. rewrite Hl. destruct row. cbn in *. by subst.
Qed.

(** ** Trimming and handing out *)

Lemma last_with_volume_lt excess pool i : last_with_volume excess pool = Some i -> (i < length pool)%nat.
Proof.
  revert i. induction pool as [|r pool IH]; intros i; cbn; [done|].
  destruct (last_with_volume excess pool) as [j|]; [intros [= <-]; specialize (IH j eq_refl); lia|].
  destruct (_ =? _); [|done]. intros [= <-]. lia.
Qed.

Lemma imap_fst {A} (l : list A) : map fst (imap pair l) = seq 0 (length l).
Proof.
  apply list_eq. intros i. change (map fst (imap pair l)) with (fst <$> imap pair l). rewrite list_lookup_fmap, list_lookup_imap. destruct (decide (i < length l)%nat) as [Hi|Hi].
  - destruct (lookup_lt_is_Some_2 l i Hi) as [x ->]. cbn. by rewrite lookup_seq_lt.
  - rewrite lookup_ge_None_2, lookup_seq_ge by lia. done.
Qed.

Lemma imap_snd {A} (l : list A) : map snd (imap pair l) = l.
Proof.
  apply list_eq. intros i. change (map snd (imap pair l)) with (snd <$> imap pair l).
  rewrite list_lookup_fmap, list_lookup_imap. by destruct (l !! i).
Qed.

Lemma filter_map_fst {A B} (p : A -> bool) (l : list (A * B)) :
  map fst (List.filter (fun e => p (fst e)) l) = List.filter p (map fst l).
Proof. induction l as [|[a b] l IH]; cbn; [done|]. destruct (p a); cbn; by rewrite IH. Qed.

Lemma drop_smallest_ok n pool : (n <= length pool)%nat ->
  length (drop_smallest n pool) = (length pool - n)%nat /\ drop_smallest n pool `sublist_of` pool.
Proof.
  intros Hn. unfold drop_smallest. set (smallest := map fst (take n _)). split.
  2: { rewrite <- (imap_snd pool) at 2. apply sublist_map, filter_sublist. }
  assert (Hperm : map fst (py_sorted volume_leb (imap (fun i r => (i, tt_volume (snd r))) pool)) ≡ₚ seq 0 (length pool)).
  { rewrite py_sorted_perm. rewrite <- imap_fst.
    change (map fst (imap (fun i r => (i, tt_volume (snd r))) pool)) with (fst <$> imap (fun i r => (i, tt_volume (snd r))) pool).
    change (map fst (imap pair pool)) with (fst <$> imap pair pool). by rewrite !fmap_imap. }
  assert (Hlen : length smallest = n).
  { unfold smallest. rewrite length_map, length_take, py_sorted_length, length_imap. lia. }
  assert (Hnd : NoDup smallest).
  { unfold smallest. change (map fst (take n ?l)) with (fst <$> take n l). rewrite fmap_take. eapply sublist_NoDup; [|apply sublist_take].
    change (fst <$> ?l) with (map fst l). rewrite Hperm. apply NoDup_seq. }
  assert (Hsub : forall i, i ∈ smallest -> i ∈ seq 0 (length pool)).
  { intros i Hi. rewrite <- Hperm. unfold smallest in Hi. change (map fst (take n ?l)) with (fst <$> take n l) in Hi.
    rewrite fmap_take in Hi. eapply elem_of_sublist; [exact Hi|apply sublist_take]. }
  rewrite length_map.
  assert (Hl : length (List.filter (fun e => negb (bool_decide (fst e ∈ smallest))) (imap pair pool))
    = length (List.filter (fun i => negb (bool_decide (i ∈ smallest))) (seq 0 (length pool)))).
  { rewrite <- imap_fst, <- filter_map_fst. by rewrite length_map. }
  pose proof (filter_split_perm (fun i => bool_decide (i ∈ smallest)) (seq 0 (length pool))) as Hsplit.
  apply Permutation_length in Hsplit. rewrite length_app, length_seq in Hsplit.
  assert (HF : List.filter (fun i => bool_decide (i ∈ smallest)) (seq 0 (length pool)) ≡ₚ smallest).
  { apply NoDup_Permutation; [eapply sublist_NoDup; [apply NoDup_seq|apply filter_sublist]|done|].
    intros i. rewrite filter_elem, bool_decide_eq_true. naive_solver. }
  apply Permutation_length in HF. lia.
Qed.

Lemma trim_surplus_ok pool keep deficit : 0 <= keep < zlen pool ->
  zlen (trim_surplus pool keep deficit) = keep /\ trim_surplus pool keep deficit `sublist_of` pool.
Proof.
  unfold zlen. intros Hk. unfold trim_surplus, zlen.
  assert (Hdrop : Z.of_nat (length (drop_smallest (Z.to_nat (Z.of_nat (length pool) - keep)) pool)) = keep /\
    drop_smallest (Z.to_nat (Z.of_nat (length pool) - keep)) pool `sublist_of` pool).
  { destruct (drop_smallest_ok (Z.to_nat (Z.of_nat (length pool) - keep)) pool) as [-> ?]; [lia|]. split; [lia|done]. }
  destruct (_ && _) eqn:E; [|done]. bprop. destruct (last_with_volume _ pool) as [i|] eqn:Ei; [|done].
  apply last_with_volume_lt in Ei. rewrite length_app, length_take, length_drop. split; [lia|].
  rewrite <- (take_drop i pool) at 3. apply sublist_app; [done|]. rewrite <- (drop_drop pool i 1) || rewrite <- Nat.add_1_r, <- drop_drop.
  apply sublist_drop.
Qed.

(** Trades an outcome takes from the pool. *)
Definition from_tape (o : GapfillInterval) : Z := go_recovered o - go_xvendor o.

(** An outcome of the interval [iv] under [id]. *)
Record outcome_of (prior : Z -> Z) (symbol : string) (surplus : Z) (m : Z * LossInterval) (o : GapfillInterval) : Prop := {
  oo_id : go_interval_id o = fst m;
  oo_symbol : go_symbol o = symbol;
  oo_cums : go_cum_prev o = cum_prev (snd m) /\ go_cum_next o = cum_next (snd m);
  oo_missing : go_missing o = missing_trades (snd m) + prior (fst m);
  oo_prior : go_xvendor o = prior (fst m);
  oo_range : 0 <= from_tape o <= missing_trades (snd m);
  oo_residual : go_residual o = go_missing o - go_recovered o;
  oo_status : surplus = 0 -> go_status o = outcome_status false false (go_recovered o) (go_missing o)
}.

Lemma hand_out_ok prior symbol surplus members : forall remaining,
  Forall (fun m => 0 <= missing_trades (snd m)) members ->
  0 <= remaining <= zsum (map (fun m => missing_trades (snd m)) members) ->
  Forall2 (outcome_of prior symbol surplus) members (hand_out prior symbol surplus remaining members) /\
  zsum (map from_tape (hand_out prior symbol surplus remaining members)) = remaining.
Proof.
  induction members as [|[id iv] members IH]; intros remaining Hm Hr; cbn [hand_out map zsum fold_right] in *.
  { split; [constructor|]. unfold zsum in *. cbn in *. lia. }
  apply Forall_cons in Hm as [Hm0 Hm]. cbn [snd] in *. fold (zsum (map (fun m => missing_trades (snd m)) members)) in Hr.
  assert (Hsum : 0 <= zsum (map (fun m => missing_trades (snd m)) members)) by (apply zsum_nonneg, Forall_fmap; done).
  destruct (IH (remaining - Z.min (missing_trades iv) remaining) Hm ltac:(lia)) as [H1 H2]. split.
  - constructor; [|done]. split; unfold from_tape; cbn [go_interval_id go_symbol go_cum_prev go_cum_next go_missing go_xvendor go_recovered go_residual go_status fst snd]; try done; try lia.
    intros ->. unfold outcome_status. by rewrite andb_false_r.
  - fold (zsum (map from_tape (hand_out prior symbol surplus (remaining - Z.min (missing_trades iv) remaining) members))).
    rewrite H2. unfold from_tape. cbn [go_recovered go_xvendor]. lia.
Qed.

(** All of a pool that the outcomes exhaust is dealt, in order. *)
Lemma deal_rows_ok s outcomes : forall pool, Forall (fun o => 0 <= from_tape o) outcomes ->
  zsum (map from_tape outcomes) = zlen pool ->
  Forall2 (fun r p => exists o, o ∈ outcomes /\ r = tape_row s o p) (deal_rows s pool outcomes) pool /\
  forall id, zlen (List.filter (fun r => gr_interval r =? id) (deal_rows s pool outcomes))
    = zsum (map from_tape (List.filter (fun o => go_interval_id o =? id) outcomes)).
Proof.
  induction outcomes as [|o outcomes IH]; intros pool Ho Hz; cbn [deal_rows map] in *.
  { destruct pool; [by split|]. unfold zsum, zlen in Hz. cbn in Hz. lia. }
  apply Forall_cons in Ho as [Ho0 Ho]. unfold zsum in Hz. cbn [fold_right] in Hz. fold (zsum (map from_tape outcomes)) in Hz.
  assert (Hsum : 0 <= zsum (map from_tape outcomes)) by (apply zsum_nonneg, Forall_fmap; done).
  fold (from_tape o). set (n := Z.to_nat (from_tape o)).
  assert (Hn : (n <= length pool)%nat) by (unfold n, zlen in *; lia). assert (Hzn : Z.of_nat n = from_tape o) by (unfold n; lia).
  clearbody n.
  destruct (IH (drop n pool) Ho) as [H1 H2]; [unfold zlen in *; rewrite length_drop; lia|]. split.
  - rewrite <- (take_drop n pool) at 3. apply Forall2_app.
    + apply Forall2_fmap_l. apply Forall_Forall2_diag, Forall_true. intros p. exists o. split; [by left|done].
    + eapply Forall2_impl; [exact H1|]. intros r p (o' & ? & ->). exists o'. split; [by right|done].
  - intros id. rewrite List.filter_app. unfold zlen in *. rewrite length_app.
    specialize (H2 id). cbn [List.filter].
    assert (Htake : length (List.filter (fun r => gr_interval r =? id) (map (tape_row s o) (take n pool)))
      = if go_interval_id o =? id then n else O).
    { assert (Hlt : length (take n pool) = n) by (rewrite length_take; lia). rewrite <- Hlt at 2. generalize (take n pool). clear. intros l.
      induction l as [|p l IH]; cbn; [by destruct (_ =? _)|]. destruct (go_interval_id o =? id); cbn in *; lia. }
    rewrite Htake. destruct (go_interval_id o =? id); cbn [map]; unfold zsum in *; cbn [fold_right]; lia.
Qed.

Lemma choose_source_some sources received c s p : choose_source sources received c = Some (s, p) ->
  s ∈ sources /\ p = pooled_rows (by_ts_of (gs_tape s) (cl_symbol c)) (cl_lo c) (cl_hi c) received (cl_symbol c).
Proof.
  induction sources as [|s' sources IH]; cbn [choose_source]; [done|]. fold (by_ts_of (gs_tape s') (cl_symbol c)).
  destruct (pooled_rows (by_ts_of (gs_tape s') (cl_symbol c)) _ _ _ _) eqn:E.
  - intros H. destruct (IH H). split; [by right|done].
  - intros [= <- <-]. split; [by left|]. by rewrite E.
Qed.

Lemma choose_source_head s sources received c :
  pooled_rows (by_ts_of (gs_tape s) (cl_symbol c)) (cl_lo c) (cl_hi c) received (cl_symbol c) <> [] ->
  choose_source (s :: sources) received c
  = Some (s, pooled_rows (by_ts_of (gs_tape s) (cl_symbol c)) (cl_lo c) (cl_hi c) received (cl_symbol c)).
Proof. cbn [choose_source]. fold (by_ts_of (gs_tape s) (cl_symbol c)). by destruct (pooled_rows _ _ _ _ _). Qed.

(** ** One cluster *)

Definition missing_of (members : list (Z * LossInterval)) : Z := zsum (map (fun m => missing_trades (snd m)) members).

Lemma trimmed_ok pool missing deficit : 0 <= missing ->
  let surplus := Z.max 0 (zlen pool - missing) in
  let pool' := if surplus =? 0 then pool else trim_surplus pool missing deficit in
  zlen pool' = Z.min (zlen pool) missing /\ pool' `sublist_of` pool.
Proof.
  intros Hm surplus pool'. unfold pool', surplus. destruct (_ =? 0) eqn:E; bprop; [split; [lia|done]|].
  destruct (trim_surplus_ok pool missing deficit); [lia|]. split; [lia|done].
Qed.

(** The trades a cluster is filled with. *)
Definition cluster_pool (sources : list GapfillSource) (received : option received_map) (items : list item) (c : Cluster) : list pool_row :=
  match choose_source sources received c with
  | None => []
  | Some (_, p) =>
      let members := members_of items c in
      if Z.max 0 (zlen p - missing_of members) =? 0 then p
      else trim_surplus p (missing_of members) (zsum (map (fun m => volume_deficit (snd m)) members))
  end.

(** The rows of a cluster are the trades of its pool, in order, and the members'
    outcomes share them. *)
Lemma fill_cluster_ok sources received prior items c rows os : Forall (fun m => 0 <= missing_trades (snd m)) (members_of items c) ->
  fill_cluster sources received prior items c = (rows, os) ->
  let pool := cluster_pool sources received items c in
  exists surplus,
    Forall2 (outcome_of prior (cl_symbol c) surplus) (members_of items c) os /\
    (forall id, zlen (List.filter (fun r => gr_interval r =? id) rows)
       = zsum (map from_tape (List.filter (fun o => go_interval_id o =? id) os))) /\
    zsum (map from_tape os) = zlen pool /\
    match choose_source sources received c with
    | None => rows = [] /\ pool = []
    | Some (s, p) => Forall2 (fun r q => exists o, o ∈ os /\ r = tape_row s o q) rows pool /\
        pool `sublist_of` p /\ zlen pool = Z.min (zlen p) (missing_of (members_of items c)) /\
        (zlen p <= missing_of (members_of items c) -> pool = p /\ surplus = 0)
    end.
Proof.
  intros Hm. unfold fill_cluster, cluster_pool. fold (missing_of (members_of items c)).
  assert (Hmis : 0 <= missing_of (members_of items c)) by (apply zsum_nonneg, Forall_fmap; done).
  destruct (choose_source sources received c) as [[s p]|] eqn:Ec; cbn zeta.
  - destruct (trimmed_ok p (missing_of (members_of items c)) (zsum (map (fun m => volume_deficit (snd m)) (members_of items c))) Hmis) as [Hl Hs].
    set (surplus := Z.max 0 (zlen p - missing_of (members_of items c))) in *.
    set (pool := if surplus =? 0 then p else trim_surplus p (missing_of (members_of items c)) _) in *.
    destruct (hand_out_ok prior (cl_symbol c) surplus (members_of items c) (zlen pool) Hm) as [Ho Hsum].
    { fold (missing_of (members_of items c)). unfold zlen in *. lia. }
    intros [= <- <-].
    destruct (deal_rows_ok s (hand_out prior (cl_symbol c) surplus (zlen pool) (members_of items c)) pool) as [Hd Hcount]; [|done|].
    { apply Forall_lookup. intros i o Hi. destruct (Forall2_lookup_r _ _ _ _ _ Ho Hi) as (m & _ & Hoo). apply (oo_range _ _ _ _ _ Hoo). }
    exists surplus. split_and!; [done|done|done|done|done|done|].
    intros Hle. assert (surplus = 0) as E by (unfold surplus; lia). split; [|done]. unfold pool. by rewrite E.
  - intros [= <- <-]. exists (Z.max 0 (zlen (@nil pool_row) - missing_of (members_of items c))).
    assert (Hz : Z.max 0 (zlen (@nil pool_row) - missing_of (members_of items c)) = 0) by (unfold zlen; cbn; lia).
    rewrite Hz. destruct (hand_out_ok prior (cl_symbol c) 0 (members_of items c) 0 Hm) as [Ho Hsum]; [fold (missing_of (members_of items c)); lia|].
    change (zlen (if 0 =? 0 then [] else trim_surplus [] _ _)) with 0. split_and!; [done| |done|done|done].
    intros id. cbn. symmetry. clear -Ho Hsum.
    enough (Forall (fun o => from_tape o = 0) (hand_out prior (cl_symbol c) 0 0 (members_of items c))) as H.
    { clear Ho Hsum. induction H as [|o os Hz HF IH]; cbn [List.filter]; [done|]. destruct (_ =? id); [|done].
      unfold zsum in *. cbn [map fold_right]. lia. }
    assert (Hn : Forall (fun o => 0 <= from_tape o) (hand_out prior (cl_symbol c) 0 0 (members_of items c))).
    { apply Forall_lookup. intros i o Hi. destruct (Forall2_lookup_r _ _ _ _ _ Ho Hi) as (m & _ & Hoo). apply (oo_range _ _ _ _ _ Hoo). }
    clear Ho. induction Hn as [|o os Hp HF IH]; [constructor|]. unfold zsum in Hsum, IH. cbn [map fold_right] in Hsum.
    assert (0 <= zsum (map from_tape os)) by (apply zsum_nonneg, Forall_fmap; done). unfold zsum in *. cbn beta in *. constructor; [lia|apply IH; lia].
Qed.

(** ** The whole run *)

Lemma enumerate_ids {A} (l : list A) : NoDup (map fst (enumerate l)) /\ map snd (enumerate l) = l.
Proof.
  split.
  - unfold enumerate. change (map fst ?x) with (fst <$> x). rewrite fmap_imap. apply NoDup_alt. intros i j x.
    rewrite !list_lookup_imap. destruct (l !! i), (l !! j); cbn; try done. intros [= <-] [= ?]. lia.
  - apply list_eq. intros i. unfold enumerate. change (map snd ?x) with (snd <$> x).
    rewrite list_lookup_fmap, list_lookup_imap. by destruct (l !! i).
Qed.

Lemma combine_fst_snd {A B} (l : list A) : forall k : list B, length l = length k ->
  map fst (combine l k) = l /\ map snd (combine l k) = k.
Proof.
  induction l as [|a l IH]; intros [|b k] H; try done. injection H as H. cbn. by destruct (IH k H) as [-> ->].
Qed.

Lemma number_items_ok base ids items : number_items base ids = Some items -> NoDup (map fst items) /\ map snd items = base.
Proof.
  unfold number_items. destruct ids as [ids|].
  - destruct (_ && _) eqn:E; [|done]. bprop. intros [= <-]. by destruct (combine_fst_snd ids base) as [-> ->].
  - intros [= <-]. apply enumerate_ids.
Qed.

Lemma audit_intervals_eligible audit e : e ∈ audit_intervals audit -> eligible (snd e) = true.
Proof.
  unfold audit_intervals. intros (l & Hl & Hin)%list_elem_of_In%in_concat.
  apply list_elem_of_In, list_elem_of_fmap in Hl as (sl & -> & _).
  apply list_elem_of_In, list_elem_of_fmap in Hin as (iv & -> & [_ ?]%filter_elem). done.
Qed.

Lemma eligible_missing iv : eligible iv = true -> 0 < missing_trades iv.
Proof. unfold eligible. intros H. bprop. done. Qed.

Lemma by_id_nodup os : NoDup (map go_interval_id os) -> by_id os = map (fun o => (go_interval_id o, o)) os.
Proof.
  intros Hnd. unfold by_id.
  enough (forall d, (forall o, o ∈ os -> dget d (go_interval_id o) = None) ->
    fold_left (fun d o => dset d (go_interval_id o) o) os d = d ++ map (fun o => (go_interval_id o, o)) os) as H by (by rewrite H).
  induction os as [|o os IH]; intros d Hd; cbn [fold_left map]; [by rewrite app_nil_r|].
  apply NoDup_cons in Hnd as [Hni Hnd]. rewrite dset_fresh by (apply Hd; left). rewrite IH; [by rewrite <- app_assoc|done|].
  intros o' Ho'. apply dget_None_keys. unfold dkeys. rewrite map_app, elem_of_app. cbn. intros [Hin|Hin].
  - specialize (Hd o' ltac:(by right)). by apply dget_None_keys in Hd.
  - apply list_elem_of_singleton in Hin. apply Hni. rewrite <- Hin. apply list_elem_of_fmap. eauto.
Qed.

Lemma omap_dget_self {K V} `{EqDecision K} (d : list (K * V)) : NoDup (dkeys d) -> omap (dget d) (dkeys d) = dvalues d.
Proof.
  intros Hnd. enough (forall l, (forall k v, (k, v) ∈ l -> dget d k = Some v) -> omap (dget d) (dkeys l) = dvalues l) as H.
  { apply H. intros k v. by apply elem_dget. }
  induction l as [|[k v] l IH]; intros Hl; [done|]. cbn. rewrite (Hl k v) by left. f_equal. apply IH. intros. apply Hl. by right.
Qed.

Lemma sorted_values (d : list (Z * GapfillInterval)) : NoDup (dkeys d) -> omap (dget d) (py_sorted Z.leb (dkeys d)) ≡ₚ dvalues d.
Proof. intros Hnd. rewrite <- (omap_dget_self d Hnd). by rewrite py_sorted_perm. Qed.

Lemma members_group items c ms : NoDup (map fst items) -> groups c ms -> Forall (fun t => ti_item t ∈ items) ms ->
  members_of items c = map (fun t => (ti_id t, snd (snd (ti_item t)))) ms.
Proof.
  intros Hnd Hg Hms. unfold members_of. rewrite (gr_ids _ _ Hg). clear Hg.
  induction Hms as [|t ms Ht Hms IH]; [done|]. cbn.
  assert (E : dget items (ti_id t) = Some (snd (ti_item t))).
  { apply elem_dget; [done|]. unfold ti_id. by destruct (ti_item t). }
  rewrite E. cbn. f_equal. exact IH.
Qed.

Section Run.
Context (sources : list GapfillSource) (received : option received_map) (prior : Z -> Z).
Context (items : list item) (ts : list timed).
Hypothesis (Hids : NoDup (map fst items)).
Hypothesis (Htimed : mapM time_item items = Some ts).
Hypothesis (Hmissing : Forall (fun it => 0 < missing_trades (snd (snd it))) items).

Lemma timed_items : map ti_item ts = items.
Proof using Htimed.
  apply mapM_Some in Htimed. clear -Htimed. induction Htimed as [|it t items ts (<- & _)%time_item_some _ IH]; [done|]. cbn. by rewrite IH.
Qed.

Lemma group_items mss : concat mss ≡ₚ ts -> Forall (fun ms => Forall (fun t => ti_item t ∈ items) ms) mss.
Proof using Htimed.
  intros Hp. apply Forall_forall. intros ms Hms. apply Forall_forall. intros t Ht.
  rewrite <- timed_items. apply list_elem_of_fmap. exists t. split; [done|]. rewrite <- Hp.
  apply list_elem_of_In, in_concat. exists ms. by rewrite <- !list_elem_of_In.
Qed.

Definition filled (cs : list Cluster) : list (list GapRow * list GapfillInterval) :=
  map (fill_cluster sources received prior items) cs.

(** Per cluster: the group, the pool and the surplus it was filled from. *)
Definition cluster_filled (c : Cluster) (ms : list timed) (f : list GapRow * list GapfillInterval) : Prop :=
  let pool := cluster_pool sources received items c in
  groups c ms /\ exists surplus,
    Forall2 (outcome_of prior (cl_symbol c) surplus) (map (fun t => (ti_id t, snd (snd (ti_item t)))) ms) (snd f) /\
    (forall id, zlen (List.filter (fun r => gr_interval r =? id) (fst f))
       = zsum (map from_tape (List.filter (fun o => go_interval_id o =? id) (snd f)))) /\
    zsum (map from_tape (snd f)) = zlen pool /\
    match choose_source sources received c with
    | None => fst f = [] /\ pool = []
    | Some (s, p) => Forall2 (fun r q => exists o, o ∈ snd f /\ r = tape_row s o q) (fst f) pool /\
        pool `sublist_of` p /\
        (zlen p <= zsum (map (fun t => missing_trades (snd (snd (ti_item t)))) ms) -> pool = p /\ surplus = 0)
    end.

Lemma filled_ok cs mss : Forall2 groups cs mss -> concat mss ≡ₚ ts ->
  forall i c, cs !! i = Some c -> exists ms f, mss !! i = Some ms /\ filled cs !! i = Some f /\ cluster_filled c ms f.
Proof using Hids Htimed Hmissing.
  intros Hg Hp i c Hi. destruct (Forall2_lookup_l _ _ _ _ _ Hg Hi) as (ms & Hms & Hgr). exists ms.
  destruct (fill_cluster sources received prior items c) as [rows os] eqn:E. exists (rows, os).
  pose proof (group_items mss Hp) as Hall. rewrite Forall_lookup in Hall. specialize (Hall i ms Hms).
  pose proof (members_group items c ms Hids Hgr Hall) as Hmem.
  split_and!; [done|unfold filled; change (map ?f cs) with (f <$> cs); by rewrite list_lookup_fmap, Hi; cbn; rewrite E|].
  split; [done|]. destruct (fill_cluster_ok sources received prior items c rows os) as (surplus & H1 & H2 & H3 & H4); [|done|].
  - rewrite Hmem. apply Forall_fmap. eapply Forall_impl; [exact Hall|]. intros t Ht. cbn.
    rewrite Forall_forall in Hmissing. specialize (Hmissing _ Ht). lia.
  - rewrite Hmem in H1. exists surplus. split_and!; [done..|].
    destruct (choose_source sources received c) as [[s p]|]; [|done]. destruct H4 as (Ha & Hb & _ & Hd). split_and!; [done..|].
    intros Hle. apply Hd. rewrite Hmem. unfold missing_of. by rewrite map_map.
Qed.

Lemma filled_ids cs mss : Forall2 groups cs mss -> concat mss ≡ₚ ts ->
  map go_interval_id (concat (map snd (filled cs))) ≡ₚ map fst items.
Proof using Hids Htimed Hmissing.
  intros Hg Hp. rewrite <- timed_items, map_map. fold ti_id.
  change (map (fun x => fst (ti_item x)) ts) with (map ti_id ts). rewrite <- Hp.
  enough (map go_interval_id (concat (map snd (filled cs))) = map ti_id (concat mss)) as -> by done.
  rewrite !concat_map, !map_map. f_equal. apply list_eq. intros i.
  change (map ?f (filled cs)) with (f <$> filled cs). change (map ?f mss) with (f <$> mss). rewrite !list_lookup_fmap.
  destruct (cs !! i) as [c|] eqn:Hi.
  - destruct (filled_ok cs mss Hg Hp i c Hi) as (ms & f & -> & -> & _ & surplus & Ho & _). cbn. f_equal.
    clear -Ho. remember (map (fun t => (ti_id t, snd (snd (ti_item t)))) ms) as mem eqn:E. revert ms E.
    induction Ho as [|m o mem os Hoo Ho IH]; intros [|t ms] [=]; [done|]. cbn. subst m. rewrite (oo_id _ _ _ _ _ Hoo). cbn. f_equal. by apply IH.
  - assert (mss !! i = None) as ->.
    { apply lookup_ge_None. apply lookup_ge_None in Hi. by rewrite <- (Forall2_length _ _ _ Hg). }
    assert (filled cs !! i = None) as ->; [|done]. apply lookup_ge_None. apply lookup_ge_None in Hi. unfold filled. by rewrite length_map.
Qed.
End Run.
