(* ===== verification/GapfillProps.v ===== *)
(** * Properties of gap filling

    Exact recovery of the lost trades from a complete tape, and what holds of any
    tape: the outcomes account for the rows, every row is a trade of the tape in the
    seconds of a gap, used once, and none that was received is filled again. *)
From Stdlib Require Import Ascii.
From S2P Require Import Prelude PyStr MarketPhase SeqSet L0Decode LossLedger PyColl Gapfill GapfillFacts.

(** ** Lists *)

Lemma concat_single {A B} (g : A -> list B) (l : list A) i x : l !! i = Some x ->
  (forall j y, j <> i -> l !! j = Some y -> g y = []) -> concat (map g l) = g x.
Proof.
  revert i. induction l as [|a l IH]; intros [|i] Hi Hno; cbn in Hi |- *; [done|done|injection Hi as ->|].
  - assert (concat (map g l) = []) as ->; [|by rewrite app_nil_r].
    assert (Hl : forall y, y ∈ l -> g y = []).
    { intros y (j & Hj)%list_elem_of_lookup. exact (Hno (S j) y ltac:(lia) Hj). }
    clear -Hl. induction l as [|a l IH]; [done|]. cbn. rewrite Hl by left. apply IH. intros. apply Hl. by right.
  - rewrite (Hno O a ltac:(lia) eq_refl). apply (IH i Hi). intros j y Hj. apply (Hno (S j) y ltac:(lia)).
Qed.

Lemma concat_perm {A} (l k : list (list A)) : Forall2 (≡ₚ) l k -> concat l ≡ₚ concat k.
Proof. induction 1 as [|x y l k Hxy _ IH]; [done|]. cbn. by rewrite Hxy, IH. Qed.

Lemma map_concat_perm {A B} (g : A -> list B) l k : l ≡ₚ k -> concat (map g l) ≡ₚ concat (map g k).
Proof. intros H. induction H; cbn; [done|by f_equiv|by rewrite !app_assoc, (Permutation_app_comm (g _))|by etrans]. Qed.

Lemma concat_map_concat {A B} (g : A -> list B) (l : list (list A)) :
  concat (map g (concat l)) = concat (map (fun x => concat (map g x)) l).
Proof. induction l as [|x l IH]; [done|]. cbn. by rewrite map_app, concat_app, IH. Qed.

Lemma zlen_concat {A B} (g : A -> list B) l : zlen (concat (map g l)) = zsum (map (fun x => zlen (g x)) l).
Proof.
  induction l as [|x l IH]; [done|]. cbn [map concat]. unfold zlen in *. rewrite length_app. unfold zsum in *. cbn [fold_right]. lia.
Qed.

Lemma zsum_tight {A B} (f : A -> Z) (g : B -> Z) l k : Forall2 (fun a b => g b <= f a) l k ->
  zsum (map g k) = zsum (map f l) -> Forall2 (fun a b => g b = f a) l k.
Proof.
  intros HF. enough (zsum (map g k) <= zsum (map f l) /\ (zsum (map g k) = zsum (map f l) -> Forall2 (fun a b => g b = f a) l k)) by tauto.
  unfold zsum. induction HF as [|a b l k Hab HF [IH1 IH2]]; cbn [map fold_right]; [by split|]. split; [lia|].
  intros E. constructor; [lia|apply IH2; lia].
Qed.

(** ** Exact recovery *)

Definition at_second {V} (s : Z) (l : list (Z * V)) : list V := map snd (List.filter (fun e => bool_decide (fst e = s)) l).

(** The lost trades of a symbol and second, over all intervals. *)
Definition lost_at (lost : Z -> list (Z * (Z * Z))) (items : list item) (y : string) (s : Z) : list (Z * Z) :=
  concat (map (fun it => if decide (fst (snd it) = y) then at_second s (lost (fst it)) else []) items).

(** What identifies a trade in a row: symbol, time, price and volume. *)
Definition row_key (r : GapRow) : string * string * (Z * Z) := (gr_symbol r, gr_chetime r, (gr_price r, gr_volume r)).
Definition trade_text (y : string) (e : Z * (Z * Z)) : string * string * (Z * Z) := (y, zfill 6 (str_of_Z (fst e)), snd e).

Lemma at_second_app {V} s (l k : list (Z * V)) : at_second s (l ++ k) = at_second s l ++ at_second s k.
Proof. unfold at_second. by rewrite List.filter_app, map_app. Qed.

Lemma at_second_concat {A V} s (g : A -> list (Z * V)) l : at_second s (concat (map g l)) = concat (map (fun x => at_second s (g x)) l).
Proof. induction l as [|x l IH]; [done|]. cbn [map concat]. by rewrite at_second_app, IH. Qed.

Lemma at_second_out {V} s (l : list (Z * V)) lo hi : Forall (fun e => lo <= fst e <= hi) l -> ~ (lo <= s <= hi) -> at_second s l = [].
Proof.
  intros Hf Hs. unfold at_second. induction Hf as [|e l He Hf IH]; [done|]. cbn. rewrite bool_decide_false by lia. done.
Qed.

Section Exact.
Context (src : GapfillSource) (others : list GapfillSource) (r : received_map) (prior : Z -> Z).
Context (items : list item) (ts : list timed) (lost : Z -> list (Z * (Z * Z))).
Hypothesis (Hids : NoDup (map fst items)) (Htimed : mapM time_item items = Some ts).
Hypothesis (Hmissing : Forall (fun it => 0 < missing_trades (snd (snd it))) items).
Hypothesis (Hlost : forall t, t ∈ ts -> zlen (lost (ti_id t)) = missing_trades (snd (snd (ti_item t))) /\
  Forall (fun e => ti_lo t <= fst e <= ti_hi t) (lost (ti_id t))).
Hypothesis (Htape : forall t s, t ∈ ts -> ti_lo t <= s <= ti_hi t ->
  map price_volume (tape_at (gs_tape src) (ti_symbol t) s) ≡ₚ received_at r (ti_symbol t) s ++ lost_at lost items (ti_symbol t) s).
Hypothesis (Hprior : forall id, 0 <= prior id).

Section Clusters.
Context (cs : list Cluster) (mss : list (list timed)).
Hypothesis (Hg : Forall2 groups cs mss) (Hp : concat mss ≡ₚ ts).
Hypothesis (Hap : forall i j c d, (i < j)%nat -> cs !! i = Some c -> cs !! j = Some d -> cl_apart c d).

Let lost_of (t : timed) : list (Z * (Z * Z)) := lost (ti_id t).

Lemma group_in i ms t : mss !! i = Some ms -> t ∈ ms -> t ∈ ts.
Proof using Hp.
  intros Hi Ht. rewrite <- Hp. apply list_elem_of_In, in_concat. exists ms. rewrite <- !list_elem_of_In.
  split; [by eapply list_elem_of_lookup_2|done].
Qed.

(** In the seconds of a cluster only its own members lost trades of its symbol. *)
Lemma cluster_lost i c ms s : cs !! i = Some c -> mss !! i = Some ms -> cl_lo c <= s <= cl_hi c ->
  lost_at lost items (cl_symbol c) s ≡ₚ at_second s (concat (map lost_of ms)).
Proof using Hg Hp Hap Htimed Hlost.
  intros Hi Hms Hs. unfold lost_at. rewrite <- (timed_items items ts Htimed), map_map.
  rewrite <- (map_concat_perm _ _ _ Hp), concat_map_concat, at_second_concat.
  rewrite (concat_single _ mss i ms Hms).
  - enough (map (fun t => if decide (fst (snd (ti_item t)) = cl_symbol c) then at_second s (lost (fst (ti_item t))) else []) ms
      = map (fun t => at_second s (lost_of t)) ms) as -> by done.
    apply map_ext_in. intros t Ht%list_elem_of_In. pose proof (gr_in _ _ (Forall2_lookup_lr _ _ _ _ _ _ Hg Hi Hms)) as Hin.
    rewrite Forall_forall in Hin. destruct (Hin t Ht) as (Hsym & _). by rewrite decide_True.
  - intros j ms' Hj Hms'. destruct (Forall2_lookup_r _ _ _ _ _ Hg Hms') as (d & Hd & Hgd).
    assert (Hno : forall t, t ∈ ms' -> ti_symbol t = cl_symbol c -> at_second s (lost_of t) = []).
    { intros t Ht Hsym. destruct (Hlost t (group_in j ms' t Hms' Ht)) as [_ Hf]. eapply at_second_out; [exact Hf|].
      pose proof (gr_in _ _ Hgd) as Hin. rewrite Forall_forall in Hin. destruct (Hin t Ht) as (Hs' & Hlo & Hhi).
      destruct (Nat.lt_trichotomy i j) as [Hij|[->|Hij]]; [|done|].
      - assert (cl_hi c < cl_lo d) by (eapply (Hap i j); [done..|congruence]). lia.
      - assert (cl_hi d < cl_lo c) by (eapply (Hap j i); [done..|congruence]). lia. }
    clear -Hno. induction ms' as [|t ms' IH]; [done|]. cbn [map concat].
    destruct (decide _) as [E|]; [pose proof (Hno t ltac:(left) E) as Ht; unfold lost_of, ti_id in Ht; rewrite Ht|];
      cbn [app]; apply IH; intros u Hu; apply Hno; by right.
Qed.

(** A cluster is filled with exactly what its members lost. *)
Lemma cluster_exact i c : cs !! i = Some c -> exists ms f, mss !! i = Some ms /\
  filled (src :: others) (Some r) prior items cs !! i = Some f /\
  map row_key (fst f) ≡ₚ map (trade_text (cl_symbol c)) (concat (map lost_of ms)) /\
  Forall (fun o => go_status o = G_FULL /\ go_residual o = 0) (snd f) /\ groups c ms.
Proof using Hg Hp Hap Htimed Hlost Htape Hids Hmissing Hprior.
  intros Hi. destruct (filled_ok (src :: others) (Some r) prior items ts Hids Htimed Hmissing cs mss Hg Hp i c Hi)
    as (ms & f & Hms & Hf & Hgr & surplus & Ho & _ & Hsum & Hch). exists ms, f. split; [done|]. split; [done|].
  set (p := pooled_rows (by_ts_of (gs_tape src) (cl_symbol c)) (cl_lo c) (cl_hi c) (Some r) (cl_symbol c)).
  assert (Hpool : map pool_key p ≡ₚ concat (map lost_of ms)).
  { apply pool_exact.
    - apply Forall_forall. intros e (l & Hl & He)%list_elem_of_In%in_concat. apply list_elem_of_In, list_elem_of_fmap in Hl as (t & -> & Ht).
      apply list_elem_of_In in He. destruct (Hlost t (group_in i ms t Hms Ht)) as [_ Hfl]. rewrite Forall_forall in Hfl. specialize (Hfl e He).
      pose proof (gr_in _ _ Hgr) as Hin. rewrite Forall_forall in Hin. destruct (Hin t Ht) as (_ & ? & ?). lia.
    - intros s Hs. destruct (gr_cover _ _ Hgr s Hs) as (t & Ht & Hts). pose proof (gr_in _ _ Hgr) as Hin. rewrite Forall_forall in Hin.
      destruct (Hin t Ht) as (Hsym & _). rewrite <- Hsym. rewrite (Htape t s (group_in i ms t Hms Ht) Hts). f_equiv.
      rewrite Hsym. exact (cluster_lost i c ms s Hi Hms Hs). }
  assert (Hlen : zlen p = zsum (map (fun t => missing_trades (snd (snd (ti_item t)))) ms)).
  { assert (zlen p = zlen (concat (map lost_of ms))) as ->.
    { apply Permutation_length in Hpool. rewrite length_map in Hpool. unfold zlen. by rewrite Hpool. }
    rewrite zlen_concat. f_equal. apply map_ext_in. intros t Ht%list_elem_of_In. apply (Hlost t (group_in i ms t Hms Ht)). }
  assert (Hpos : Forall (fun t => 0 < missing_trades (snd (snd (ti_item t)))) ms).
  { apply Forall_forall. intros t Ht. rewrite Forall_forall in Hmissing. apply Hmissing. rewrite <- (timed_items items ts Htimed).
    apply list_elem_of_fmap. exists t. split; [done|by eapply group_in]. }
  assert (Hne : p <> []).
  { intros E. rewrite E in Hlen. pose proof (gr_some _ _ Hgr). destruct ms as [|t ms']; [done|]. apply Forall_cons in Hpos as [Ht Hpos].
    unfold zsum in Hlen. cbn in Hlen. assert (0 <= zsum (map (fun t => missing_trades (snd (snd (ti_item t)))) ms')).
    { apply zsum_nonneg, Forall_fmap. eapply Forall_impl; [exact Hpos|]. cbn. lia. } unfold zsum, zlen in *. cbn in Hlen. lia. }
  rewrite (choose_source_head src others (Some r) c Hne) in Hch. fold p in Hch. destruct Hch as (Hrows & _ & Heq).
  destruct Heq as [Heq ->]; [lia|]. rewrite Heq in Hrows, Hsum. split_and!; [| |done].
  - rewrite <- Hpool, map_map. enough (map row_key (fst f) = map (fun q => trade_text (cl_symbol c) (pool_key q)) p) as -> by done.
    assert (Hsym : forall o, o ∈ snd f -> go_symbol o = cl_symbol c).
    { intros o (j & Hj)%list_elem_of_lookup. destruct (Forall2_lookup_r _ _ _ _ _ Ho Hj) as (m & _ & Hoo). apply Hoo. }
    clear -Hrows Hsym. induction Hrows as [|row q rows p (o & Hin & ->) _ IH]; [done|]. cbn [map]. f_equal; [|by apply IH].
    unfold row_key, trade_text, pool_key. cbn. by rewrite (Hsym o Hin).
  - rewrite Hlen in Hsum.
    assert (Hmap : map (fun t => missing_trades (snd (snd (ti_item t)))) ms
      = map (fun m : Z * LossInterval => missing_trades (snd m)) (map (fun t => (ti_id t, snd (snd (ti_item t)))) ms)) by (by rewrite map_map).
    rewrite Hmap in Hsum. apply zsum_tight in Hsum.
    2: { eapply Forall2_impl; [exact Ho|]. intros m o Hoo. apply (oo_range _ _ _ _ _ Hoo). }
    assert (Hpos' : Forall (fun m : Z * LossInterval => 0 < missing_trades (snd m)) (map (fun t => (ti_id t, snd (snd (ti_item t)))) ms))
      by (by apply Forall_fmap).
    clear -Ho Hsum Hpos' Hprior. induction Ho as [|m o mem os Hoo Ho IH]; [constructor|].
    apply Forall2_cons_1 in Hsum as [Hm Hsum]. apply Forall_cons in Hpos' as [Hpos Hpos']. constructor; [|by apply IH].
    pose proof (oo_missing _ _ _ _ _ Hoo). pose proof (oo_prior _ _ _ _ _ Hoo). pose proof (Hprior (fst m)). unfold from_tape in Hm.
    rewrite (oo_status _ _ _ _ _ Hoo eq_refl), (oo_residual _ _ _ _ _ Hoo). split; [|lia]. unfold outcome_status. cbn.
    rewrite (proj2 (Z.eqb_neq _ _)), (proj2 (Z.ltb_ge _ _)) by lia. done.
Qed.
End Clusters.

(** The rows of all clusters, and their outcomes. *)
Lemma run_exact : exists cs, clusters items = Some cs /\
  let fs := filled (src :: others) (Some r) prior items cs in
  map row_key (concat (map fst fs)) ≡ₚ concat (map (fun it => map (trade_text (fst (snd it))) (lost (fst it))) items) /\
  map go_interval_id (concat (map snd fs)) ≡ₚ map fst items /\
  Forall (fun o => go_status o = G_FULL /\ go_residual o = 0) (concat (map snd fs)).
Proof using Htimed Hlost Htape Hids Hmissing Hprior.
  destruct (clusters_ok items ts Htimed) as (cs & mss & Hcs & Hg & Hp & Hap).
  { apply Forall_forall. intros t Ht. destruct (Hlost t Ht) as [Hl Hf]. rewrite Forall_forall in Hmissing.
    assert (Hin : ti_item t ∈ items) by (rewrite <- (timed_items items ts Htimed); apply list_elem_of_fmap; eauto).
    specialize (Hmissing _ Hin). destruct (lost (ti_id t)) as [|e l]; [unfold zlen in Hl; cbn in Hl; lia|].
    apply Forall_cons in Hf as [? _]. lia. }
  exists cs. split; [done|]. cbv zeta. split_and!.
  - assert (HR : concat (map (fun it => map (trade_text (fst (snd it))) (lost (fst it))) items)
      = concat (map (fun t => map (trade_text (fst (snd (ti_item t)))) (lost (fst (ti_item t)))) ts)).
    { rewrite <- (map_map ti_item (fun it => map (trade_text (fst (snd it))) (lost (fst it)))). by rewrite (timed_items items ts Htimed). }
    rewrite HR, <- (map_concat_perm _ _ _ Hp), concat_map_concat, concat_map, !map_map. clear HR.
    apply concat_perm. apply Forall2_same_length_lookup. rewrite !length_map. unfold filled. rewrite length_map.
    split; [by eapply Forall2_length|]. intros i x y Hx Hy. apply list_lookup_fmap_Some in Hx as (f & -> & Hf).
    apply list_lookup_fmap_Some in Hy as (ms & -> & Hms). pose proof Hf as Hf'. apply list_lookup_fmap_Some in Hf' as (c & _ & Hc).
    destruct (cluster_exact cs mss Hg Hp Hap i c Hc) as (ms' & f' & Hms' & Hf' & Hrows & _ & Hgr).
    unfold filled in Hf'. rewrite Hf in Hf'. injection Hf' as <-. rewrite Hms in Hms'. injection Hms' as <-.
    rewrite Hrows, concat_map, map_map. pose proof (gr_in _ _ Hgr) as Hin. rewrite Forall_forall in Hin.
    enough (map (fun t => map (trade_text (cl_symbol c)) (lost (ti_id t))) ms
      = map (fun t => map (trade_text (fst (snd (ti_item t)))) (lost (fst (ti_item t)))) ms) as -> by done.
    apply map_ext_in. intros t Ht%list_elem_of_In. destruct (Hin t Ht) as (Hs & _). unfold ti_symbol in Hs. by rewrite Hs.
  - by eapply filled_ids.
  - apply Forall_concat, Forall_fmap, Forall_lookup. intros i f Hf. pose proof Hf as Hf'. unfold filled in Hf'.
    change (map ?g cs) with (g <$> cs) in Hf'. apply list_lookup_fmap_Some in Hf' as (c & _ & Hc).
    destruct (cluster_exact cs mss Hg Hp Hap i c Hc) as (ms & f' & _ & Hf' & _ & Hall & _). rewrite Hf in Hf'. by injection Hf' as <-.
Qed.
End Exact.

(** ** Properties *)

Lemma items_missing audit ids items : number_items (audit_intervals audit) ids = Some items ->
  NoDup (map fst items) /\ Forall (fun it => 0 < missing_trades (snd (snd it))) items.
Proof.
  intros [Hnd Hsnd]%number_items_ok. split; [done|]. apply Forall_forall. intros it Hit.
  apply eligible_missing, (audit_intervals_eligible audit). rewrite <- Hsnd. apply list_elem_of_fmap. eauto.
Qed.

Lemma outcomes_perm os : NoDup (map go_interval_id os) ->
  omap (dget (by_id os)) (py_sorted Z.leb (dkeys (by_id os))) ≡ₚ os.
Proof.
  intros Hnd. rewrite (by_id_nodup os Hnd). rewrite sorted_values.
  - unfold dvalues. rewrite map_map. cbn. by rewrite map_id.
  - unfold dkeys. rewrite map_map. exact Hnd.
Qed.

(** ** Any tape *)

Lemma NoDup_concat {A B} (f : A -> B) (L : list (list A)) : (forall i l, L !! i = Some l -> NoDup (map f l)) ->
  (forall i j l k a b, (i < j)%nat -> L !! i = Some l -> L !! j = Some k -> a ∈ l -> b ∈ k -> f a <> f b) ->
  NoDup (map f (concat L)).
Proof.
  induction L as [|l L IH]; intros H1 H2; cbn; [constructor|]. rewrite map_app. apply NoDup_app. split_and!.
  - by apply (H1 O).
  - intros x (a & -> & Ha)%list_elem_of_fmap (b & Hb & (k & Hk & Hin)%list_elem_of_In%in_concat)%list_elem_of_fmap.
    apply list_elem_of_In, list_elem_of_lookup in Hk as [j Hj]. apply list_elem_of_In in Hin.
    exact (H2 O (S j) l k a b ltac:(lia) eq_refl Hj Ha Hin Hb).
  - apply IH; [intros i; apply (H1 (S i))|]. intros i j l' k a b Hij. apply (H2 (S i) (S j)). lia.
Qed.

Lemma tape_at_seqs tape y s : NoDup (map tt_seq (tape_at tape y s)).
Proof.
  unfold tape_at, tape_at_of. rewrite map_map. cbn.
  eapply sublist_NoDup; [apply (enumerate_ids tape)|]. apply sublist_map, filter_sublist.
Qed.

Lemma pool_seqs tape received y lo hi : NoDup (map (fun q => tt_seq (snd q)) (pooled_rows (by_ts_of tape y) lo hi received y)).
Proof.
  assert (Hall := pool_from_tape tape received y lo hi).
  assert (Hk : NoDup (py_sorted Z.leb (dkeys (by_ts_of tape y)))) by (rewrite py_sorted_perm; apply by_ts_keys).
  revert Hall. unfold pooled_rows at 1 2. intros Hall. apply NoDup_concat.
  - intros i l Hl. apply list_lookup_fmap_Some in Hl as (s & -> & _). rewrite map_map. cbn. rewrite index_tape_at.
    eapply sublist_NoDup; [apply (tape_at_seqs tape y s)|]. apply sublist_map. unfold pooled_second. destruct (negb _); [apply sublist_nil_l|].
    destruct received; [apply unmatched_sublist|]. destruct (_ && _); [done|apply sublist_nil_l].
  - intros i j l k [s t] [s' t'] Hij Hl Hk' Ha Hb E. cbn in E.
    assert (Hs : forall i l s t, map (fun s => map (pair s) (pooled_second received y lo hi s (default [] (dget (by_ts_of tape y) s))))
      (py_sorted Z.leb (dkeys (by_ts_of tape y))) !! i = Some l -> (s, t) ∈ l -> py_sorted Z.leb (dkeys (by_ts_of tape y)) !! i = Some s).
    { intros i' l' u v Hl' Hin. apply list_lookup_fmap_Some in Hl' as (w & -> & Hw). by apply list_elem_of_fmap in Hin as (? & [= <- <-] & _). }
    assert (H1 : s = s').
    { destruct (Hall s t) as (_ & _ & T1); [apply list_elem_of_In, in_concat; exists l; rewrite <- !list_elem_of_In; split; [by eapply list_elem_of_lookup_2|done]|].
      destruct (Hall s' t') as (_ & _ & T2); [apply list_elem_of_In, in_concat; exists k; rewrite <- !list_elem_of_In; split; [by eapply list_elem_of_lookup_2|done]|].
      rewrite E in T1. rewrite T1 in T2. by injection T2. }
    subst s'. pose proof (NoDup_lookup _ i j s Hk (Hs i l s t Hl Ha) (Hs j k s t' Hk' Hb)). lia.
Qed.

(** A tape trade with its symbol. *)
Abbreviation placed := (string * pool_row)%type.
Definition placed_key (e : placed) : string * (Z * (Z * Z)) := (fst e, pool_key (snd e)).

(** The row is that trade of the source's tape, in the seconds of an audited gap. *)
Definition row_of (src : GapfillSource) (ts : list timed) (row : GapRow) (e : placed) : Prop :=
  let '(y, (s, t)) := e in
  gr_symbol row = y /\ gr_chetime row = zfill 6 (str_of_Z s) /\ gr_price row = tt_price t /\ gr_volume row = tt_volume t /\
  gr_tape_seq row = tt_seq t /\ gr_vendor row = gs_vendor src /\ gr_provenance row = gs_provenance src /\
  gs_tape src !! Z.to_nat (tt_seq t) = Some (mkTape y s (tt_price t) (tt_volume t)) /\
  exists u, u ∈ ts /\ ti_symbol u = y /\ ti_lo u <= s <= ti_hi u.

Section Any.
Context (src : GapfillSource) (received : option received_map) (prior : Z -> Z) (items : list item) (ts : list timed).
Hypothesis (Hids : NoDup (map fst items)) (Htimed : mapM time_item items = Some ts).
Hypothesis (Hmissing : Forall (fun it => 0 < missing_trades (snd (snd it))) items).
Context (cs : list Cluster) (mss : list (list timed)).
Hypothesis (Hg : Forall2 groups cs mss) (Hp : concat mss ≡ₚ ts).
Hypothesis (Hap : forall i j c d, (i < j)%nat -> cs !! i = Some c -> cs !! j = Some d -> cl_apart c d).

Definition trades_of_cluster (c : Cluster) : list placed := map (pair (cl_symbol c)) (cluster_pool [src] received items c).

Lemma cluster_pool_tape i c y s t : cs !! i = Some c -> (y, (s, t)) ∈ trades_of_cluster c ->
  y = cl_symbol c /\ cl_lo c <= s <= cl_hi c /\ 0 <= tt_seq t /\
  gs_tape src !! Z.to_nat (tt_seq t) = Some (mkTape y s (tt_price t) (tt_volume t)).
Proof using prior Hids Htimed Hmissing Hg Hp.
  intros Hi (q & [= -> <-] & Hq)%list_elem_of_fmap. split; [done|].
  destruct (filled_ok [src] received prior items ts Hids Htimed Hmissing cs mss Hg Hp i c Hi) as (ms & f & _ & _ & _ & surplus & _ & _ & _ & Hch).
  destruct (choose_source [src] received c) as [[s' p]|] eqn:E; [|destruct Hch as [_ Hn]; rewrite Hn in Hq; by apply elem_of_nil in Hq].
  apply choose_source_some in E as [->%list_elem_of_singleton ->]. destruct Hch as (_ & Hsub & _).
  apply (pool_from_tape (gs_tape src) received). by eapply elem_of_sublist.
Qed.

Lemma cluster_pool_sub i c : cs !! i = Some c ->
  cluster_pool [src] received items c `sublist_of` pooled_rows (by_ts_of (gs_tape src) (cl_symbol c)) (cl_lo c) (cl_hi c) received (cl_symbol c).
Proof using prior Hids Htimed Hmissing Hg Hp.
  intros Hi. destruct (filled_ok [src] received prior items ts Hids Htimed Hmissing cs mss Hg Hp i c Hi) as (ms & f & _ & _ & _ & surplus & _ & _ & _ & Hch).
  destruct (choose_source [src] received c) as [[s' p]|] eqn:E; [|destruct Hch as [_ ->]; apply sublist_nil_l].
  apply choose_source_some in E as [->%list_elem_of_singleton ->]. by destruct Hch as (_ & Hsub & _).
Qed.

Lemma trades_apart i j c d y s t t' : (i < j)%nat -> cs !! i = Some c -> cs !! j = Some d ->
  (y, (s, t)) ∈ trades_of_cluster c -> (y, (s, t')) ∈ trades_of_cluster d -> False.
Proof using prior Hids Htimed Hmissing Hg Hp Hap.
  intros Hij Hi Hj H1 H2. destruct (cluster_pool_tape i c y s t Hi H1) as (Hy & ? & _).
  destruct (cluster_pool_tape j d y s t' Hj H2) as (Hy' & ? & _). assert (cl_hi c < cl_lo d) by (eapply (Hap i j); [done..|congruence]). lia.
Qed.

(** No trade of the tape is used twice. *)
Lemma trades_once : NoDup (map (fun e : placed => tt_seq (snd (snd e))) (concat (map trades_of_cluster cs))).
Proof using prior Hids Htimed Hmissing Hg Hp Hap.
  apply NoDup_concat.
  - intros i l Hl. apply list_lookup_fmap_Some in Hl as (c & -> & Hc). unfold trades_of_cluster. rewrite map_map. cbn.
    eapply sublist_NoDup; [apply pool_seqs|]. apply sublist_map. by eapply cluster_pool_sub.
  - intros i j l k [y [s t]] [y' [s' t']] Hij Hl Hk Ha Hb E. cbn in E. apply list_lookup_fmap_Some in Hl as (c & -> & Hc).
    apply list_lookup_fmap_Some in Hk as (d & -> & Hd). destruct (cluster_pool_tape i c y s t Hc Ha) as (_ & _ & _ & T1).
    destruct (cluster_pool_tape j d y' s' t' Hd Hb) as (_ & _ & _ & T2). rewrite E, T2 in T1. injection T1 as -> -> _ _.
    by eapply (trades_apart i j c d).
Qed.

Lemma occurrences_pair_const {B} `{EqDecision B} (y y' : string) (k : B) l :
  occurrences (y, k) (map (pair y') l) = if decide (y' = y) then occurrences k l else 0.
Proof.
  induction l as [|x l IH]; cbn [map]; [by case_decide|]. rewrite occurrences_cons, IH, occurrences_cons.
  repeat case_decide; simplify_eq; done.
Qed.

Lemma occurrences_sublist {A B} `{EqDecision B} (f : A -> B) k l l' : l `sublist_of` l' -> occurrences k (map f l) <= occurrences k (map f l').
Proof. induction 1; cbn [map]; rewrite ?occurrences_cons; [done|lia|]. case_decide; lia. Qed.

(** No received trade is filled again. *)
Lemma trades_not_received r y s k : received = Some r ->
  occurrences (y, (s, k)) (map placed_key (concat (map trades_of_cluster cs)))
  <= Z.max 0 (occurrences k (map price_volume (tape_at (gs_tape src) y s)) - occurrences k (received_at r y s)).
Proof using prior Hids Htimed Hmissing Hg Hp Hap.
  intros Hrec. set (bound := Z.max 0 _).
  assert (Hone : forall i c, cs !! i = Some c -> occurrences (y, (s, k)) (map placed_key (trades_of_cluster c)) <= bound).
  { intros i c Hi. unfold trades_of_cluster. rewrite map_map. cbn. unfold placed_key. cbn [fst snd].
    rewrite <- (map_map pool_key (pair (cl_symbol c))), occurrences_pair_const. case_decide as E; [subst y|lia].
    etrans; [apply occurrences_sublist; by eapply cluster_pool_sub|]. rewrite Hrec. apply pool_bound. }
  assert (Hpos : forall i c, cs !! i = Some c -> occurrences (y, (s, k)) (map placed_key (trades_of_cluster c)) <> 0 ->
    exists t, (y, (s, t)) ∈ trades_of_cluster c).
  { intros i c Hi Hnz. destruct (decide ((y, (s, k)) ∈ map placed_key (trades_of_cluster c))) as [((y' & s' & t) & E & Hin)%list_elem_of_fmap|Hn].
    - injection E as <- <- _. eauto.
    - by rewrite occurrences_zero in Hnz. }
  assert (Hapart : forall i j c d, (i < j)%nat -> cs !! i = Some c -> cs !! j = Some d ->
    occurrences (y, (s, k)) (map placed_key (trades_of_cluster c)) = 0 \/ occurrences (y, (s, k)) (map placed_key (trades_of_cluster d)) = 0).
  { intros i j c d Hij Hi Hj. destruct (decide (occurrences (y, (s, k)) (map placed_key (trades_of_cluster c)) = 0)) as [?|Hc]; [by left|right].
    destruct (decide (occurrences (y, (s, k)) (map placed_key (trades_of_cluster d)) = 0)) as [?|Hd]; [done|exfalso].
    destruct (Hpos i c Hi Hc) as [t Ht]. destruct (Hpos j d Hj Hd) as [t' Ht']. by eapply (trades_apart i j c d). }
  clear -Hone Hapart. generalize dependent cs. intros l Hone Hapart.
  enough (forall n, (forall i c, l !! i = Some c -> occurrences (y, (s, k)) (map placed_key (trades_of_cluster c)) <= n) -> 0 <= n ->
    occurrences (y, (s, k)) (map placed_key (concat (map trades_of_cluster l))) <= n) as H by (apply H; [done|unfold bound; lia]).
  clear Hone. induction l as [|c l IH]; intros n Hn H0; cbn [map concat]; [done|]. rewrite map_app, occurrences_app.
  destruct (decide (occurrences (y, (s, k)) (map placed_key (trades_of_cluster c)) = 0)) as [->|Hc].
  - rewrite Z.add_0_l. apply IH; [|intros i; apply (Hn (S i))|done]. intros i j c' d Hij. apply (Hapart (S i) (S j)). lia.
  - assert (Hrest : occurrences (y, (s, k)) (map placed_key (concat (map trades_of_cluster l))) <= 0).
    { apply IH; [intros i j c' d Hij; apply (Hapart (S i) (S j)); lia| |done]. intros i d Hd.
      destruct (Hapart O (S i) c d ltac:(lia) eq_refl Hd) as [?| ->]; [done|lia]. }
    specialize (Hn O c eq_refl). lia.
Qed.
End Any.

(** A complete tape repairs a day exactly: when every audited interval lost
    as many trades as the audit counts, each in the interval's seconds, and the tape
    holds in those seconds the live frames and the lost trades and nothing else, the
    gap fill derives exactly the lost trades, whatever gaps share seconds, and
    reports every interval as filled. *)
Theorem gapfill_exact audit src others r ids prior items ts lost :
  number_items (audit_intervals audit) ids = Some items -> mapM time_item items = Some ts ->
  (forall id n, dget prior id = Some n -> 0 <= n) ->
  (forall t, t ∈ ts -> zlen (lost (ti_id t)) = missing_trades (snd (snd (ti_item t))) /\
     Forall (fun e => ti_lo t <= fst e <= ti_hi t) (lost (ti_id t))) ->
  (forall t s, t ∈ ts -> ti_lo t <= s <= ti_hi t ->
     map price_volume (tape_at (gs_tape src) (ti_symbol t) s)
     ≡ₚ received_at r (ti_symbol t) s ++ lost_at lost items (ti_symbol t) s) ->
  exists rows outcomes, derive_gapfill audit (src :: others) (Some r) ids prior = Some (rows, outcomes) /\
    map row_key rows ≡ₚ concat (map (fun it => map (trade_text (fst (snd it))) (lost (fst it))) items) /\
    map go_interval_id outcomes ≡ₚ map fst items /\
    Forall (fun o => go_status o = G_FULL /\ go_residual o = 0) outcomes.
Proof.
  intros Hitems Htimed Hprior Hlost Htape. destruct (items_missing audit ids items Hitems) as [Hnd Hmis].
  destruct (run_exact src others r (fun id => default 0 (dget prior id)) items ts lost Hnd Htimed Hmis Hlost Htape)
    as (cs & Hcs & Hrows & Hid & Hfull).
  { intros id. destruct (dget prior id) as [n|] eqn:E; [by apply (Hprior id)|done]. }
  unfold derive_gapfill. rewrite Hitems, bind_some, Hcs, bind_some. eexists _, _. split; [reflexivity|].
  unfold filled in *. rewrite (outcomes_perm _) by (by rewrite Hid). split_and!; [|done|done].
  by rewrite py_sorted_perm.
Qed.

Lemma filter_none {A} (p : A -> bool) l : (forall x, x ∈ l -> p x = false) -> List.filter p l = [].
Proof. induction l as [|x l IH]; intros H; [done|]. cbn. rewrite (H x) by left. apply IH. intros. apply H. by right. Qed.

Lemma Forall2_concat_lists {A B} (R : A -> B -> Prop) L K : Forall2 (Forall2 R) L K -> Forall2 R (concat L) (concat K).
Proof. induction 1; cbn; [constructor|by apply Forall2_app]. Qed.

Lemma occurrences_filter {A} (f : A -> Z) id l : occurrences id (map f l) = zlen (List.filter (fun x => f x =? id) l).
Proof.
  induction l as [|x l IH]; cbn [map List.filter]; [done|]. rewrite occurrences_cons, IH. unfold zlen.
  destruct (decide (f x = id)) as [->|]; [rewrite Z.eqb_refl|rewrite (proj2 (Z.eqb_neq _ _)) by done]; cbn [length]; lia.
Qed.

(** Per outcome: the item it reports, its numbers and the rows that carry its id. *)
Definition accounts (prior : list (Z * Z)) (items : list item) (rows : list GapRow) (o : GapfillInterval) : Prop :=
  exists it, it ∈ items /\ go_interval_id o = fst it /\
    go_missing o = missing_trades (snd (snd it)) + go_xvendor o /\ go_xvendor o = default 0 (dget prior (fst it)) /\
    0 <= from_tape o <= missing_trades (snd (snd it)) /\ go_residual o = go_missing o - go_recovered o /\
    occurrences (go_interval_id o) (map gr_interval rows) = from_tape o.

Lemma zsum_filter_id os o : NoDup (map go_interval_id os) -> o ∈ os ->
  zsum (map from_tape (List.filter (fun x => go_interval_id x =? go_interval_id o) os)) = from_tape o.
Proof.
  intros Hnd. induction os as [|x os IH]; intros Hin; [by apply elem_of_nil in Hin|]. cbn [map List.filter] in *.
  apply NoDup_cons in Hnd as [Hni Hnd]. apply elem_of_cons in Hin as [->|Hin].
  - rewrite Z.eqb_refl. cbn [map]. assert (List.filter (fun y => go_interval_id y =? go_interval_id x) os = []) as ->.
    { apply filter_none. intros y Hy. apply Z.eqb_neq. intros E. apply Hni. rewrite <- E. apply list_elem_of_fmap. eauto. }
    unfold zsum. cbn. lia.
  - rewrite (proj2 (Z.eqb_neq _ _)); [by apply IH|]. intros E. apply Hni. rewrite E. apply list_elem_of_fmap. eauto.
Qed.

Section Accounts.
Context (src : GapfillSource) (received : option received_map) (prior : list (Z * Z)) (items : list item) (ts : list timed).
Hypothesis (Hids : NoDup (map fst items)) (Htimed : mapM time_item items = Some ts).
Hypothesis (Hmissing : Forall (fun it => 0 < missing_trades (snd (snd it))) items).
Context (cs : list Cluster) (mss : list (list timed)).
Hypothesis (Hg : Forall2 groups cs mss) (Hp : concat mss ≡ₚ ts).

Let pr (id : Z) : Z := default 0 (dget prior id).
Let fs : list (list GapRow * list GapfillInterval) := filled [src] received pr items cs.

Lemma filled_at i f : fs !! i = Some f -> exists c ms, cs !! i = Some c /\ mss !! i = Some ms /\ cluster_filled [src] received pr items c ms f.
Proof using Hids Htimed Hmissing Hg Hp.
  intros Hf. pose proof Hf as Hf'. unfold fs, filled in Hf'. change (map ?g cs) with (g <$> cs) in Hf'.
  apply list_lookup_fmap_Some in Hf' as (c & _ & Hc).
  destruct (filled_ok [src] received pr items ts Hids Htimed Hmissing cs mss Hg Hp i c Hc) as (ms & f' & Hms & Hf' & Hcf).
  exists c, ms. split_and!; [done..|]. unfold fs in Hf. rewrite Hf in Hf'. by injection Hf' as <-.
Qed.

Lemma rows_are_trades : Forall2 (row_of src ts) (concat (map fst fs)) (concat (map (trades_of_cluster src received items) cs)).
Proof using Hids Htimed Hmissing Hg Hp.
  apply Forall2_concat_lists, Forall2_same_length_lookup. split; [unfold fs, filled; by rewrite !length_map|].
  intros i x y Hx Hy. apply list_lookup_fmap_Some in Hx as (f & -> & Hf). apply list_lookup_fmap_Some in Hy as (c & -> & Hc).
  destruct (filled_at i f Hf) as (c' & ms & Hc' & Hms & Hgr & surplus & Ho & _ & _ & Hch). rewrite Hc in Hc'. injection Hc' as <-.
  unfold trades_of_cluster. destruct (choose_source [src] received c) as [[s p]|] eqn:E; [|destruct Hch as [-> ->]; constructor].
  apply choose_source_some in E as [->%list_elem_of_singleton ->]. destruct Hch as (HF & Hsub & _).
  apply Forall2_fmap_r, Forall2_same_length_lookup. split; [by eapply Forall2_length|]. intros j row [s t] Hj Hq.
  destruct (Forall2_lookup_lr _ _ _ _ _ _ HF Hj Hq) as (o & Hoin & ->).
  destruct (pool_from_tape (gs_tape src) received (cl_symbol c) (cl_lo c) (cl_hi c) s t) as (Hs & _ & Hl).
  { eapply elem_of_sublist; [|exact Hsub]. by eapply list_elem_of_lookup_2. }
  apply list_elem_of_lookup in Hoin as [k Hk]. destruct (Forall2_lookup_r _ _ _ _ _ Ho Hk) as (m & _ & Hoo).
  destruct (gr_cover _ _ Hgr s Hs) as (u & Hu & Hus). pose proof (gr_in _ _ Hgr) as Hin. rewrite Forall_forall in Hin.
  unfold row_of. cbn. split_and!; try done; [apply Hoo|]. exists u. split; [by eapply group_in|]. split; [by apply Hin|done].
Qed.

Lemma rows_counted id : occurrences id (map gr_interval (concat (map fst fs)))
  = zsum (map from_tape (List.filter (fun o => go_interval_id o =? id) (concat (map snd fs)))).
Proof using Hids Htimed Hmissing Hg Hp.
  assert (Hall : Forall (fun f => zlen (List.filter (fun r => gr_interval r =? id) (fst f))
    = zsum (map from_tape (List.filter (fun o => go_interval_id o =? id) (snd f)))) fs).
  { apply Forall_lookup. intros i f Hf. destruct (filled_at i f Hf) as (c & ms & _ & _ & _ & surplus & _ & H & _). apply H. }
  clear -Hall. rewrite occurrences_filter. induction Hall as [|f l Hf Hall IH]; cbn [map concat]; [done|].
  rewrite !List.filter_app, map_app, zsum_app, <- IH, <- Hf. unfold zlen. rewrite length_app. lia.
Qed.

Lemma outcomes_account : Forall (accounts prior items (concat (map fst fs))) (concat (map snd fs)).
Proof using Hids Htimed Hmissing Hg Hp.
  assert (Hndo : NoDup (map go_interval_id (concat (map snd fs)))).
  { unfold fs. rewrite (filled_ids [src] received pr items ts Hids Htimed Hmissing cs mss Hg Hp). done. }
  apply Forall_forall. intros o Ho. assert (Hcount := rows_counted (go_interval_id o)). rewrite (zsum_filter_id _ o Hndo Ho) in Hcount.
  apply list_elem_of_In, in_concat in Ho as (os & Hos & Ho). apply list_elem_of_In, list_elem_of_fmap in Hos as (f & -> & Hf).
  apply list_elem_of_lookup in Hf as [i Hf]. apply list_elem_of_In, list_elem_of_lookup in Ho as [j Hj].
  destruct (filled_at i f Hf) as (c & ms & _ & Hms & _ & surplus & HF & _).
  destruct (Forall2_lookup_r _ _ _ _ _ HF Hj) as (m & Hm & Hoo). apply list_lookup_fmap_Some in Hm as (t & -> & Ht).
  exists (ti_item t). pose proof (oo_prior _ _ _ _ _ Hoo) as E1. pose proof (oo_missing _ _ _ _ _ Hoo) as E2.
  pose proof (oo_range _ _ _ _ _ Hoo) as E3. cbn [fst snd] in E1, E2, E3. split_and!; [|apply Hoo| |done|apply E3|apply E3|apply Hoo|done].
  - rewrite <- (timed_items items ts Htimed). apply list_elem_of_fmap. exists t. split; [done|].
    eapply group_in; [exact Hp|exact Hms|by eapply list_elem_of_lookup_2].
  - rewrite E1, E2. done.
Qed.
End Accounts.

(** Whatever the tape holds, a gap fill is honest: it returns, with one outcome
    per audited interval whose recovered trades are the rows that carry its id and
    never exceed what was missing; every row is one trade of the tape in the seconds
    of an audited gap of its symbol; no trade is used twice; and a trade the live
    frames hold is not filled again. *)
Theorem gapfill_accounts audit src received ids prior items ts :
  number_items (audit_intervals audit) ids = Some items -> mapM time_item items = Some ts ->
  Forall (fun t => ti_lo t <= ti_hi t) ts ->
  exists rows outcomes trades, derive_gapfill audit [src] received ids prior = Some (rows, outcomes) /\
    map go_interval_id outcomes ≡ₚ map fst items /\
    Forall (accounts prior items rows) outcomes /\
    Forall2 (row_of src ts) rows trades /\
    NoDup (map (fun e : placed => tt_seq (snd (snd e))) trades) /\
    (forall r y s k, received = Some r -> occurrences (y, (s, k)) (map placed_key trades)
       <= Z.max 0 (occurrences k (map price_volume (tape_at (gs_tape src) y s)) - occurrences k (received_at r y s))).
Proof.
  intros Hitems Htimed Hle. destruct (items_missing audit ids items Hitems) as [Hnd Hmis].
  destruct (clusters_ok items ts Htimed Hle) as (cs & mss & Hcs & Hg & Hp & Hap).
  set (pr := fun id => default 0 (dget prior id)). set (fs := filled [src] received pr items cs).
  pose proof (filled_ids [src] received pr items ts Hnd Htimed Hmis cs mss Hg Hp) as Hid.
  assert (Hndo : NoDup (map go_interval_id (concat (map snd fs)))) by (unfold fs; by rewrite Hid).
  set (rows := concat (map fst fs)). set (trades := concat (map (trades_of_cluster src received items) cs)).
  assert (Hrows : Forall2 (row_of src ts) rows trades) by (by eapply rows_are_trades).
  assert (Hacc : Forall (accounts prior items rows) (concat (map snd fs))) by (by eapply outcomes_account).
  destruct (Permutation_Forall2 (Permutation_sym (py_sorted_perm row_leb rows)) Hrows) as (trades' & Hpt & Hrows').
  exists (py_sorted row_leb rows). eexists. exists trades'. split.
  { unfold derive_gapfill. rewrite Hitems, bind_some, Hcs, bind_some. reflexivity. }
  fold pr. fold (filled [src] received pr items cs). fold fs. split_and!.
  - by rewrite (outcomes_perm _ Hndo).
  - rewrite (outcomes_perm _ Hndo). eapply Forall_impl; [exact Hacc|]. intros o (it & H1 & H2 & H3 & H4 & H5 & H6 & H7).
    exists it. split_and!; [done|done|done|done|lia|lia|done|]. rewrite <- H7. apply occurrences_perm. by rewrite py_sorted_perm.
  - done.
  - rewrite <- Hpt. by eapply trades_once.
  - intros r y s k Hr. rewrite (proj1 (occurrences_perm _ (map placed_key trades))) by (by rewrite Hpt).
    by eapply trades_not_received.
Qed.

(** ** Two gaps of one symbol that share a second *)

Definition demo_interval (missing deficit cum_lo cum_hi : Z) (from to : string) : LossInterval :=
  mkInterval "5930" REGULAR CONFIRMED missing deficit cum_lo cum_hi from to 0 0 false (Some 1000) (Some 1015).

Definition demo_audit : list SymbolLedger :=
  [mkSymbolLedger "5930" false 5 8 3 0 3 15 0 0 0 0
     [demo_interval 2 12 10 13 "090000" "090002"; demo_interval 1 3 14 16 "090002" "090003"] 0 None].

Definition demo_tape : list TapeRow :=
  [mkTape "005930" 90000 100 1; mkTape "005930" 90001 100 5; mkTape "005930" 90002 101 2;
   mkTape "005930" 90002 101 7; mkTape "005930" 90002 99 3; mkTape "005930" 90003 100 1].

Definition demo_received : received_map :=
  [(("005930", 90000), [(10, 100, 1)]); (("005930", 90002), [(13, 101, 2)]); (("005930", 90003), [(16, 100, 1)])].

Definition demo_source : GapfillSource := mkSource "kiwoom" "gapfill:kiwoom_tape" demo_tape.

Definition demo_lost (id : Z) : list (Z * (Z * Z)) :=
  if id =? 0 then [(90001, (100, 5)); (90002, (101, 7))] else [(90002, (99, 3))].

Definition demo_items : list item := indexed_audit_intervals demo_audit.
Definition demo_timed : list timed := default [] (mapM time_item demo_items).

Lemma gapfill_exact_witness : exists rows outcomes,
  derive_gapfill demo_audit [demo_source] (Some demo_received) None [] = Some (rows, outcomes) /\
  map row_key rows ≡ₚ [("005930", "090001", (100, 5)); ("005930", "090002", (101, 7)); ("005930", "090002", (99, 3))] /\
  map go_interval_id outcomes ≡ₚ [0; 1] /\
  Forall (fun o => go_status o = G_FULL /\ go_residual o = 0) outcomes.
Proof.
  assert (Ht : forall t, t ∈ demo_timed -> t = mkTimed (0, ("005930", demo_interval 2 12 10 13 "090000" "090002")) 90000 90002 \/
    t = mkTimed (1, ("005930", demo_interval 1 3 14 16 "090002" "090003")) 90002 90003).
  { intros t Ht. assert (Hd : demo_timed = [mkTimed (0, ("005930", demo_interval 2 12 10 13 "090000" "090002")) 90000 90002;
      mkTimed (1, ("005930", demo_interval 1 3 14 16 "090002" "090003")) 90002 90003]) by (vm_compute; reflexivity).
    rewrite Hd, !elem_of_cons, elem_of_nil in Ht. destruct Ht as [->|[->|[]]]; [by left|by right]. }
  exact (gapfill_exact demo_audit demo_source [] demo_received None [] demo_items demo_timed demo_lost eq_refl eq_refl
    (fun id n H => ltac:(discriminate H))
    (fun t H => ltac:(destruct (Ht t H) as [->| ->]; (split; [reflexivity|]); repeat constructor; cbn; lia))
    (fun t s H Hs => ltac:(destruct (Ht t H) as [->| ->]; cbn [ti_lo ti_hi] in Hs;
      (assert (s = 90000 \/ s = 90001 \/ s = 90002 \/ s = 90003) as [->|[->|[->| ->]]] by lia; try lia; vm_compute; reflexivity)))).
Defined.

(** A tape with a trade too many: the surplus row is dropped and reported. *)
Lemma gapfill_accounts_witness : exists rows outcomes trades,
  derive_gapfill demo_audit [mkSource "kiwoom" "tape" (demo_tape ++ [mkTape "005930" 90001 98 1])] (Some demo_received) None []
    = Some (rows, outcomes) /\
  map go_surplus outcomes = [0; 1] /\ zlen rows = 3 /\
  NoDup (map (fun e : placed => tt_seq (snd (snd e))) trades) /\
  Forall2 (row_of (mkSource "kiwoom" "tape" (demo_tape ++ [mkTape "005930" 90001 98 1])) demo_timed) rows trades.
Proof.
  destruct (gapfill_accounts demo_audit (mkSource "kiwoom" "tape" (demo_tape ++ [mkTape "005930" 90001 98 1]))
    (Some demo_received) None [] demo_items demo_timed eq_refl eq_refl)
    as (rows & outcomes & trades & Hd & _ & _ & Hrows & Hnd & _).
  { apply (bool_decide_unpack _). vm_compute. exact I. }
  exists rows, outcomes, trades. split; [exact Hd|]. vm_compute in Hd. injection Hd as <- <-. split_and!; [reflexivity|reflexivity|exact Hnd|exact Hrows].
Defined.
