(* ===== verification/GapfillPeers.v ===== *)
(** * The inputs of gap filling

    Which live frames and which peer trades the gaps' spans select, and what the
    cross-vendor fill leaves for the tape. *)
From Stdlib Require Import Ascii.
From S2P Require Import Prelude PyStr ExecJournal MarketPhase SeqSet L0Decode LossLedger PyColl Gapfill GapfillFacts GapfillProps.

(** ** Spans by symbol *)

(** The spans of a symbol. *)
Definition spans_at (entries : list (string * (Z * Z))) (y : string) : list (Z * Z) :=
  map snd (List.filter (fun e => bool_decide (fst e = y)) entries).

Lemma group_at {V} (entries : list (string * V)) y :
  default [] (dget (group entries) y) = map snd (List.filter (fun e => bool_decide (fst e = y)) entries).
Proof. unfold group. by rewrite (dpush_fold fst snd). Qed.

Lemma merged_at touch entries y : default [] (dget (merged_gaps touch entries) y)
  = merge_spans touch (py_sorted span_leb (spans_at entries y)).
Proof.
  unfold merged_gaps, spans_at. rewrite <- group_at, (dget_map_values (fun l => merge_spans touch (py_sorted span_leb l))).
  by destruct (dget (group entries) y).
Qed.

Section At.
Context (a b : Z) (Ha : 0 <= a <= 1) (Hb : 0 <= b <= 1).

Lemma merged_covers entries y : Forall (fun e => span_ok a b (snd e)) entries ->
  let spans := default [] (dget (merged_gaps (touching a b) entries) y) in
  StronglySorted (apart a b) spans /\
  forall x, covered a b spans x <-> exists s, (y, s) ∈ entries /\ in_span a b x s.
Proof using Ha Hb.
  intros Hok. cbv zeta. rewrite merged_at. destruct (merged_sorted_ok a b (spans_at entries y) Ha Hb) as [H1 H2].
  { unfold spans_at. apply Forall_fmap, Forall_forall. intros e [He _]%filter_elem. rewrite Forall_forall in Hok. by apply Hok. }
  split; [done|]. intros x. rewrite H2. unfold covered, spans_at. split.
  - intros (s & ([y' s'] & -> & [Hin Hy%bool_decide_eq_true]%filter_elem)%list_elem_of_fmap & Hx). cbn in *. subst. eauto.
  - intros (s & Hin & Hx). exists s. split; [|done]. apply list_elem_of_fmap. exists (y, s). split; [done|].
    apply filter_elem. split; [done|]. by apply bool_decide_eq_true.
Qed.
End At.

(** ** The live frames of the gaps *)

Lemma wanted_exact audit y s :
  wanted_second (merged_gaps (touching 0 0) (second_spans audit)) y s = true <->
  exists span, (y, span) ∈ second_spans audit /\ fst span <= s <= snd span.
Proof.
  destruct (merged_covers 0 0 ltac:(lia) ltac:(lia) (second_spans audit) y) as [Hs Hc].
  { apply Forall_forall. intros e (l & Hl & Hin)%list_elem_of_In%in_concat.
    apply list_elem_of_In, list_elem_of_fmap in Hl as (sl & -> & _). apply list_elem_of_In, list_elem_of_fmap in Hin as (sp & -> & Hin).
    apply list_elem_of_omap in Hin as (iv & _ & Hsp). unfold second_span in Hsp.
    destruct (chetime_int (chetime_prev iv)); [|done]. rewrite bind_some in Hsp. destruct (chetime_int (chetime_next iv)); [|done].
    rewrite bind_some in Hsp. destruct (_ <=? _) eqn:E; [|done]. injection Hsp as <-. bprop. unfold span_ok. cbn. lia. }
  unfold wanted_second. set (spans := default [] (dget _ y)) in *.
  assert (Hin : (exists span, (y, span) ∈ second_spans audit /\ fst span <= s <= snd span) <->
    exists span, (y, span) ∈ second_spans audit /\ in_span 0 0 s span).
  { unfold in_span. split; intros (sp & ? & ?); exists sp; (split; [done|lia]). }
  rewrite Hin, <- Hc, (span_before_right 0 0) by (done || lia). split.
  - destruct (span_before bisect_right spans s) as [[lo hi]|] eqn:E; [|done]. intros Hle%Z.leb_le. exists (lo, hi). split; [done|].
    apply (span_before_le 0 0) in E; [|lia..|done]. unfold in_span. cbn in *. lia.
  - intros ([lo hi] & -> & Hx). apply Z.leb_le. unfold in_span in Hx. cbn in Hx. lia.
Qed.

Definition frame_of (t : ReceivedTick) : Z * Z * Z := (rt_cum t, rt_price t, rt_volume t).

Lemma received_fold wanted ticks y s : forall found, wanted_second wanted y s = true ->
  default [] (dget (fold_left (note_received wanted) ticks found) (y, s)) = default [] (dget found (y, s)) ++
  map frame_of (List.filter (fun t => bool_decide (zfill 6 (rt_symbol t) = y) && bool_decide (rt_chetime t = s)) ticks).
Proof.
  induction ticks as [|t ticks IH]; intros found Hw; cbn [fold_left List.filter]; [by rewrite app_nil_r|]. rewrite IH by done.
  unfold note_received. destruct (decide (zfill 6 (rt_symbol t) = y /\ rt_chetime t = s)) as [[<- <-]|Hne].
  - rewrite Hw, dget_dpush, !bool_decide_true, decide_True, <- app_assoc by done. done.
  - assert (bool_decide (zfill 6 (rt_symbol t) = y) && bool_decide (rt_chetime t = s) = false) as ->.
    { apply andb_false_iff. rewrite !bool_decide_eq_false. destruct (decide (zfill 6 (rt_symbol t) = y)); [right|by left]. tauto. }
    destruct (wanted_second wanted (zfill 6 (rt_symbol t)) (rt_chetime t)); [|done].
    rewrite (dget_dpush found), decide_False, app_nil_r; [done|]. intros [= ? ?]. tauto.
Qed.

(** Inside the seconds of the gaps the map holds every live frame, in journal order. *)
Lemma received_exact audit ticks y s span : (y, span) ∈ second_spans audit -> fst span <= s <= snd span ->
  default [] (dget (received_trades_for_gaps audit ticks) (y, s)) =
  map frame_of (List.filter (fun t => bool_decide (zfill 6 (rt_symbol t) = y) && bool_decide (rt_chetime t = s)) ticks).
Proof.
  intros Hin Hs. unfold received_trades_for_gaps. rewrite received_fold; [done|]. apply wanted_exact. eauto.
Qed.

(** ** The residual audit *)

(** The items the picks leave, with their ids. *)
Definition still_missing (picks : list (Z * list (PeerTrade * string))) (it : item) : option item :=
  let iv := reduce_interval picks (fst it) (snd (snd it)) in
  if 0 <? missing_trades iv then Some (fst it, (fst (snd it), iv)) else None.

Lemma reduce_eligible picks n iv : eligible iv = true -> eligible (reduce_interval picks n iv) = (0 <? missing_trades (reduce_interval picks n iv)).
Proof.
  unfold eligible. intros H. bprop. assert (chetime_prev (reduce_interval picks n iv) = chetime_prev iv /\ chetime_next (reduce_interval picks n iv) = chetime_next iv) as [-> ->].
  { unfold reduce_interval. by destruct (dget picks n). }
  rewrite !bool_decide_false by done. by rewrite !andb_true_r.
Qed.

(** Numbered from [n], the eligible intervals that the reduction leaves are those
    that still miss trades. *)
Definition numbered {A} (n : Z) (l : list A) : list (Z * A) := imap (fun i x => (n + Z.of_nat i, x)) l.

Lemma numbered_cons {A} n (x : A) l : numbered n (x :: l) = (n, x) :: numbered (n + 1) l.
Proof. unfold numbered. cbn. f_equal; [f_equal; lia|]. apply imap_ext. intros i y _. cbn. f_equal. lia. Qed.

Lemma numbered_app {A} (l k : list A) : forall n, numbered n (l ++ k) = numbered n l ++ numbered (n + zlen l) k.
Proof.
  induction l as [|x l IH]; intros n; [cbn; by rewrite Z.add_0_r|]. cbn [app]. rewrite !numbered_cons, IH. cbn [app].
  do 3 f_equal. unfold zlen. cbn [length]. lia.
Qed.

Lemma reduce_intervals_filter picks y ivs : forall n,
  map (pair y) (List.filter eligible (reduce_intervals picks n ivs))
  = map snd (omap (still_missing picks) (numbered n (map (pair y) (List.filter eligible ivs)))).
Proof.
  induction ivs as [|iv ivs IH]; intros n; [done|]. cbn [reduce_intervals List.filter]. destruct (eligible iv) eqn:E.
  - cbn [List.filter map]. rewrite numbered_cons, reduce_eligible by done. cbn [omap list_omap]. unfold still_missing at 1. cbn [fst snd].
    destruct (0 <? _); cbn [map]; by rewrite IH.
  - cbn [List.filter]. rewrite E. apply IH.
Qed.

Lemma residual_intervals picks audit : forall n,
  audit_intervals (residual_audit picks n audit) = map snd (omap (still_missing picks) (numbered n (audit_intervals audit))).
Proof.
  unfold audit_intervals. induction audit as [|l audit IH]; intros n; [done|]. cbn [residual_audit map concat].
  rewrite numbered_app, omap_app, map_app, IH. f_equal.
  - apply reduce_intervals_filter.
  - unfold zlen. by rewrite length_map.
Qed.
