(* ===== verification/FillDay.v ===== *)
(** * The two-stage fill of a day ([src/storage/l0_repair_job.py], [_run_locked])

    The repair job fills the gaps of a day from the peers first and from the tape
    afterwards: the peers' trades count as received, the reduced audit keeps the ids
    of the intervals that still miss trades, and the intervals the peers completed
    are reported next to the tape's. *)
From Stdlib Require Import Ascii.
From S2P Require Import Prelude PyStr ExecJournal MarketPhase SeqSet L0Decode LossLedger PyColl Gapfill GapfillFacts GapfillProps GapfillPeers.

(** [received.setdefault((symbol, int(chetime)), []).append((-1, price, volume))]. *)
Fixpoint receive_rows (rows : list GapRow) (received : received_map) : option received_map :=
  match rows with
  | [] => Some received
  | r :: rows' =>
      chetime ← chetime_int (gr_chetime r);
      receive_rows rows' (dpush received (gr_symbol r, chetime) (-1, gr_price r, gr_volume r))
  end.

Definition remaining_ids (audit : list SymbolLedger) (recovered : list (Z * Z)) : list Z :=
  map fst (List.filter (fun it => default 0 (dget recovered (fst it)) <? missing_trades (snd (snd it))) (indexed_audit_intervals audit)).

Definition completed_outcome (recovered : list (Z * Z)) (it : item) : option GapfillInterval :=
  let count := default 0 (dget recovered (fst it)) in
  let iv := snd (snd it) in
  if count =? missing_trades iv
  then Some (mkOutcome (fst it) (fst (snd it)) (chetime_prev iv) (chetime_next iv) (cum_prev iv) (cum_next iv)
               (missing_trades iv) count 0 G_FULL 0 count)
  else None.

Definition id_leb (a b : GapfillInterval) : bool := go_interval_id a <=? go_interval_id b.

Definition kiwoom_source (tape : list TapeRow) : GapfillSource := mkSource "kiwoom" "gapfill:kiwoom_tape" tape.

(** Rows and outcomes of the day; [None] is a [ValueError]. *)
Definition fill_gaps (audit : list SymbolLedger) (ticks : list ReceivedTick) (peers : list peer_data) (tape : list TapeRow)
    : option (list GapRow * list GapfillInterval) :=
  let '(xv_rows, recovered, residual) := derive_cross_vendor_fill audit peers in
  received ← receive_rows xv_rows (received_trades_for_gaps audit ticks);
  '(rows, outcomes) ← derive_gapfill residual [kiwoom_source tape] (Some received) (Some (remaining_ids audit recovered)) recovered;
  Some (py_sorted row_leb (xv_rows ++ rows),
        py_sorted id_leb (outcomes ++ omap (completed_outcome recovered) (indexed_audit_intervals audit))).

(** ** What is picked *)

Record picked_ok (peers : list peer_data) (symbol : string) (iv : LossInterval) (l : list (PeerTrade * string)) : Prop := {
  pk_span : exists lo hi, gap_span iv = Some (lo, hi) /\ qty_of l <= hi - lo /\
    Forall (fun e => lo < pt_acml (fst e) <= hi /\ exists p, p ∈ peers /\ fst (fst p) = snd e /\ fst e ∈ trades_of p symbol) l;
  pk_nodup : NoDup (map (fun e => pt_acml (fst e)) l);
  pk_count : zlen l <= missing_trades iv
}.

(** The plain peers' trades, first come first kept by cumulative volume. *)
Definition seen_ok (lo hi : Z) (P : PeerTrade * string -> Prop) (seen : list (Z * (PeerTrade * string))) : Prop :=
  NoDup (dkeys seen) /\ Forall (fun kv => fst kv = pt_acml (fst (snd kv)) /\ lo < fst kv <= hi /\ P (snd kv)) seen.

Lemma dset_Forall {K V} `{EqDecision K} (P : K * V -> Prop) d k v : Forall P d -> P (k, v) -> Forall P (dset d k v).
Proof.
  intros Hd Hv. induction Hd as [|[k' v'] d Hkv Hd IH]; cbn; [by repeat constructor|]. case_decide; subst; by constructor.
Qed.

Lemma note_plain_ok lo hi P l : forall seen, Forall P l -> seen_ok lo hi P seen -> seen_ok lo hi P (fold_left (note_plain lo hi) l seen).
Proof.
  induction l as [|e l IH]; intros seen Hl [Hn Hf]; cbn [fold_left]; [done|]. apply Forall_cons in Hl as [He Hl].
  apply IH; [done|]. unfold note_plain, in_gap. destruct (_ && _) eqn:E; [|done]. bprop. split; [by apply dkeys_dset_nodup|].
  by apply dset_Forall.
Qed.

Lemma dget_values_NoDup {V} (d : list (Z * V)) (key : V -> Z) : NoDup (dkeys d) -> Forall (fun kv => fst kv = key (snd kv)) d ->
  NoDup (map key (omap (dget d) (py_sorted Z.leb (dkeys d)))).
Proof.
  intros Hn Hf. assert (Hp : omap (dget d) (py_sorted Z.leb (dkeys d)) ≡ₚ dvalues d).
  { rewrite <- (omap_dget_self d Hn). by rewrite py_sorted_perm. }
  rewrite Hp. unfold dvalues. rewrite map_map.
  enough (map (fun kv => key (snd kv)) d = dkeys d) as -> by done. clear -Hf. induction Hf as [|kv d E Hf IH]; [done|]. cbn. by rewrite <- E, IH.
Qed.

Lemma plain_trades_from peers symbol : Forall (fun e => exists p, p ∈ peers /\ fst (fst p) = snd e /\ fst e ∈ trades_of p symbol) (plain_trades peers symbol).
Proof.
  apply Forall_forall. intros e (l & Hl & He)%list_elem_of_In%in_concat.
  apply list_elem_of_In, list_elem_of_fmap in Hl as (p & -> & [Hp _]%filter_elem).
  apply list_elem_of_In, list_elem_of_fmap in He as (t & -> & Ht). exists p. done.
Qed.

Lemma pick_conflating_some peers symbol lo hi missing l : pick_conflating peers symbol lo hi missing = Some l ->
  exists p, p ∈ peers /\ l = map (fun t => (t, fst (fst p))) (py_sorted acml_leb (List.filter (in_gap lo hi) (trades_of p symbol))) /\
    zlen l = missing /\ qty_of l = hi - lo.
Proof.
  induction peers as [|p peers IH]; cbn [pick_conflating]; [done|].
  assert (Hrest : pick_conflating peers symbol lo hi missing = Some l -> exists p', p' ∈ p :: peers /\
    l = map (fun t => (t, fst (fst p'))) (py_sorted acml_leb (List.filter (in_gap lo hi) (trades_of p' symbol))) /\
    zlen l = missing /\ qty_of l = hi - lo).
  { intros H. destruct (IH H) as (p' & ? & ?). exists p'. split; [by right|done]. }
  destruct (snd (fst p)); [|done]. destruct (_ && _) eqn:E; [|done]. intros [= <-]. bprop. exists p.
  split_and!; [by left|done| |done]. unfold zlen in *. by rewrite length_map.
Qed.

Lemma pick_ok peers symbol iv l : (forall p, p ∈ peers -> NoDup (map pt_acml (trades_of p symbol))) ->
  pick peers symbol iv = P_trades l -> picked_ok peers symbol iv l.
Proof.
  intros Hnd. unfold pick. destruct (gap_span iv) as [[lo hi]|] eqn:Eg; [|done].
  destruct (note_plain_ok lo hi _ (plain_trades peers symbol) [] (plain_trades_from peers symbol)) as [Hn Hf]; [by split; constructor|].
  destruct (fold_left (note_plain lo hi) (plain_trades peers symbol) []) as [|kv seen] eqn:Es.
  - destruct (pick_conflating _ _ _ _ _) as [l'|] eqn:Ec; [|done]. intros [= <-].
    apply pick_conflating_some in Ec as (p & Hp & -> & Hlen & Hqty). split.
    + exists lo, hi. split_and!; [done|lia|]. apply Forall_fmap. rewrite py_sorted_perm. apply Forall_forall. intros t [Ht Hg]%filter_elem. cbn.
      unfold in_gap in Hg. bprop. split; [lia|]. exists p. done.
    + rewrite map_map. cbn. rewrite py_sorted_perm. eapply sublist_NoDup; [by apply (Hnd p)|]. apply sublist_map, filter_sublist.
    + unfold zlen in *. lia.
  - remember (kv :: seen) as d eqn:Ed. clear Ed Es. destruct (_ || _) eqn:E; [done|]. intros [= <-]. bprop. split.
    + exists lo, hi. split_and!; [done|done|]. apply Forall_forall. intros e (k & Hk & He)%list_elem_of_omap. apply dget_elem in He.
      rewrite Forall_forall in Hf. destruct (Hf _ He) as (Ek & Hr & HP). cbn in *. rewrite <- Ek. done.
    + apply (dget_values_NoDup _ (fun e => pt_acml (fst e))); [done|]. eapply Forall_impl; [exact Hf|]. by intros ? [? _].
    + done.
Qed.

(** ** Times as text *)

Lemma digit_not_space c : is_Some (char_digit c) -> is_space c = false.
Proof.
  intros [d Hd]. unfold char_digit in Hd. destruct (_ && _) eqn:E; [|done]. bprop. unfold is_space.
  rewrite bool_decide_false by lia. apply orb_false_iff. split; apply andb_false_iff; right; apply Nat.leb_gt; lia.
Qed.

Lemma strip_digits l : Forall (fun c => is_Some (char_digit c)) l -> strip l = l.
Proof.
  assert (Hl : forall k, Forall (fun c => is_Some (char_digit c)) k -> lstrip k = k).
  { intros k Hk. destruct Hk as [|c k Hc _]; [done|]. cbn. by rewrite digit_not_space. }
  intros H. unfold strip. rewrite (Hl l H), Hl; [apply rev_involutive|]. by apply Forall_rev.
Qed.

Lemma drop_underscores_digits l : forall b, l <> [] -> Forall (fun c => is_Some (char_digit c)) l -> drop_underscores b l = Some l.
Proof.
  induction l as [|c l IH]; intros b Hne Hd; [done|]. apply Forall_cons in Hd as [Hc Hd]. cbn [drop_underscores].
  rewrite decide_False; [|intros ->; by destruct Hc]. destruct Hc as [d ->]. destruct l as [|c' l]; [done|]. by rewrite IH.
Qed.

Lemma pad_chars_nonempty w z : pad_chars w z <> [].
Proof.
  unfold pad_chars, nat_chars. cbv zeta. pose proof (digits_nonempty z). destruct (digits z); [done|]. intros [_ [=]]%app_eq_nil.
Qed.

Lemma py_int_pad w z : 0 <= z -> py_int (pad_chars w z) = Some z.
Proof.
  intros Hz. unfold py_int. pose proof (pad_chars_digits w z Hz) as Hd. rewrite strip_digits by done.
  pose proof (drop_underscores_digits _ false (pad_chars_nonempty w z) Hd) as Hu. pose proof (parse_pad w z Hz) as Hp.
  destruct (pad_chars w z) as [|c l]; [done|]. apply Forall_cons in Hd as [Hc _].
  assert (c <> "-"%char /\ c <> "+"%char) as [H1 H2] by (split; intros ->; by destruct Hc).
  destruct c as [[] [] [] [] [] [] [] []]; try (by rewrite Hu); done.
Qed.

Lemma chetime_int_pad s : 0 <= s -> chetime_int (str_pad 6 s) = Some s.
Proof. intros Hs. unfold chetime_int, str_pad. rewrite s2l_l2s. by apply py_int_pad. Qed.

Lemma str_pad_zfill s : 0 <= s -> str_pad 6 s = zfill 6 (str_of_Z s).
Proof.
  intros Hs. unfold str_pad, zfill, str_of_Z, z_chars. rewrite (proj2 (Z.ltb_ge s 0)), s2l_l2s by done.
  unfold pad_chars. cbv zeta. pose proof (nat_chars_digits s Hs) as Hd. destruct (nat_chars s) as [|c l].
  - by rewrite app_nil_r.
  - apply Forall_cons in Hd as [Hc _]. rewrite decide_False; [done|]. intros [->| ->]; by destruct Hc.
Qed.

(** ** Picks by interval *)

Definition picked_for (picks : list (Z * list (PeerTrade * string))) (id : Z) : list (PeerTrade * string) := default [] (dget picks id).

Lemma dget_omap_keyed {A B V} (key : A -> B -> option V) (l : list (Z * (A * B))) it : NoDup (map fst l) -> it ∈ l ->
  dget (omap (fun x => option_map (pair (fst x)) (key (fst (snd x)) (snd (snd x)))) l) (fst it) = key (fst (snd it)) (snd (snd it)).
Proof.
  induction l as [|x l IH]; intros Hnd Hin; [by apply elem_of_nil in Hin|]. cbn [map] in Hnd. apply NoDup_cons in Hnd as [Hni Hnd].
  cbn [omap list_omap]. apply elem_of_cons in Hin as [->|Hin].
  - destruct (key (fst (snd x)) (snd (snd x))) as [v|]; cbn [option_map dget]; [by rewrite decide_True|].
    apply dget_None_keys. intros (kv & Ekv & Hkv)%list_elem_of_fmap. apply list_elem_of_omap in Hkv as (y & Hy & E).
    destruct (key _ _); [|done]. injection E as <-. apply Hni. rewrite Ekv. apply list_elem_of_fmap. by exists y.
  - destruct (key (fst (snd x)) (snd (snd x))) as [v|]; cbn [option_map dget]; [|by apply IH].
    rewrite decide_False; [by apply IH|]. intros E. apply Hni. rewrite <- E. apply list_elem_of_fmap. eauto.
Qed.

Definition pick_trades (peers : list peer_data) (y : string) (iv : LossInterval) : option (list (PeerTrade * string)) :=
  match pick peers y iv with P_trades l => Some l | _ => None end.

Lemma pick_all_at peers items it : NoDup (map fst items) -> it ∈ items ->
  dget (pick_all peers items) (fst it) = pick_trades peers (fst (snd it)) (snd (snd it)).
Proof.
  intros Hnd Hin. rewrite <- (dget_omap_keyed (pick_trades peers) items it Hnd Hin). unfold pick_all, pick_trades. f_equal.
  apply list_omap_ext, Forall2_same_length_lookup. split; [done|]. intros i x y Hx Hy. rewrite Hx in Hy. injection Hy as <-. by destruct (pick _ _ _).
Qed.

(** The rows of the cross-vendor fill, interval by interval. *)
Lemma xvendor_rows_items peers items : NoDup (map fst items) -> xvendor_rows items (pick_all peers items)
  = concat (map (fun it => map (xvendor_row (fst it) (fst (snd it)) (snd (snd it))) (picked_for (pick_all peers items) (fst it))) items).
Proof.
  intros Hnd. unfold xvendor_rows, picked_for.
  assert (Hall : forall l, (forall it, it ∈ l -> it ∈ items) -> concat (map (fun p => match dget items (fst p) with
      | Some (symbol, iv) => map (xvendor_row (fst p) symbol iv) (snd p) | None => [] end) (pick_all peers l))
    = concat (map (fun it => map (xvendor_row (fst it) (fst (snd it)) (snd (snd it))) (default [] (dget (pick_all peers items) (fst it)))) l)); [|by apply Hall].
  induction l as [|it l IH]; intros Hl; [done|]. cbn [map concat]. rewrite <- IH by (intros; apply Hl; by right).
  assert (Hin : it ∈ items) by (apply Hl; by left). rewrite (pick_all_at peers items it Hnd Hin). unfold pick_trades.
  cbn [pick_all omap list_omap]. destruct (pick peers (fst (snd it)) (snd (snd it))); [done..|]. cbn [map concat fst snd].
  rewrite (elem_dget items (fst it) (snd it) Hnd) by (by destruct it). by destruct it as [? []].
Qed.

(** ** Counting the peers' rows as received *)

Definition row_second (y : string) (s : Z) (r : GapRow) : bool := bool_decide (gr_symbol r = y) && bool_decide (chetime_int (gr_chetime r) = Some s).
Definition row_trade (r : GapRow) : Z * Z := (gr_price r, gr_volume r).

Lemma receive_rows_ok rows : Forall (fun r => is_Some (chetime_int (gr_chetime r))) rows -> forall received,
  exists received', receive_rows rows received = Some received' /\
    forall y s, received_at received' y s = received_at received y s ++ map row_trade (List.filter (row_second y s) rows).
Proof.
  induction 1 as [|r rows [c Hc] _ IH]; intros received.
  - exists received. split; [done|]. intros y s. by rewrite app_nil_r.
  - cbn [receive_rows]. rewrite Hc, bind_some. destruct (IH (dpush received (gr_symbol r, c) (-1, gr_price r, gr_volume r))) as (r' & Hr & Hat).
    exists r'. split; [done|]. intros y s. rewrite Hat. unfold received_at. rewrite dget_dpush. cbn [List.filter].
    unfold row_second at 2. rewrite Hc. destruct (decide ((gr_symbol r, c) = (y, s))) as [[= -> ->]|Hne].
    + rewrite !bool_decide_true by done. cbn [andb map]. rewrite map_app, <- app_assoc. done.
    + assert (bool_decide (gr_symbol r = y) && bool_decide (Some c = Some s) = false) as ->; [|by rewrite app_nil_r].
      apply andb_false_iff. rewrite !bool_decide_eq_false. destruct (decide (gr_symbol r = y)); [right; congruence|by left].
Qed.

(** ** Truthful peers *)

(** A lost trade: its cumulative volume, second, price and volume. *)
Abbreviation lost_trade := (Z * (Z * (Z * Z)))%type.
Definition peer_entry (t : PeerTrade) : lost_trade := (pt_acml t, (pt_chetime t, (pt_price t, pt_qty t))).

(** What the peers recorded inside the gaps was lost there, each trade under its own
    cumulative volume. *)
Record truthful (items : list item) (peers : list peer_data) (lost : Z -> list lost_trade) : Prop := {
  tr_known : forall it p t lo hi, it ∈ items -> gap_span (snd (snd it)) = Some (lo, hi) -> p ∈ peers ->
    t ∈ trades_of p (fst (snd it)) -> lo < pt_acml t <= hi -> peer_entry t ∈ lost (fst it) /\ 0 <= pt_chetime t;
  tr_distinct : forall p y, p ∈ peers -> NoDup (map pt_acml (trades_of p y))
}.

(** The lost trades of the intervals: as many as the audit counted, each under its own
    cumulative volume, in the interval's seconds. *)
Definition lost_fits (lost : Z -> list lost_trade) (t : timed) : Prop :=
  zlen (lost (ti_id t)) = missing_trades (snd (snd (ti_item t))) /\ NoDup (map fst (lost (ti_id t))) /\
  Forall (fun e => ti_lo t <= fst (snd e) <= ti_hi t) (lost (ti_id t)).

Definition rest_of (picks : list (Z * list (PeerTrade * string))) (lost : Z -> list lost_trade) (id : Z) : list lost_trade :=
  List.filter (fun e => negb (bool_decide (fst e ∈ map (fun q => pt_acml (fst q)) (picked_for picks id)))) (lost id).

Definition picked_entries (picks : list (Z * list (PeerTrade * string))) (id : Z) : list lost_trade :=
  map (fun q => peer_entry (fst q)) (picked_for picks id).

#[export] Instance filter_perm {A} (p : A -> bool) : Proper ((≡ₚ) ==> (≡ₚ)) (List.filter p).
Proof.
  induction 1 as [|x l k _ IH|x y l|l k m _ IH1 _ IH2]; cbn; [done| | |by etrans].
  - destruct (p x); by rewrite IH.
  - destruct (p x), (p y); solve_Permutation.
Qed.

(** The rows of one interval's picks in a second. *)
Lemma second_rows y s id sym iv (l : list (PeerTrade * string)) : Forall (fun q => 0 <= pt_chetime (fst q)) l ->
  map row_trade (List.filter (row_second y s) (map (xvendor_row id sym iv) l))
  = if decide (sym = y) then at_second s (map snd (map (fun q => peer_entry (fst q)) l)) else [].
Proof.
  intros Hf. rewrite map_map. unfold at_second, row_second. induction Hf as [|q l Hq Hf IH]; cbn [map List.filter]; [by case_decide|].
  cbn [gr_symbol gr_chetime xvendor_row]. rewrite chetime_int_pad by done. destruct (decide (sym = y)) as [->|Hne].
  - rewrite bool_decide_true by done. cbn [andb fst snd peer_entry].
    destruct (decide (pt_chetime (fst q) = s)) as [->|Hs]; [rewrite !bool_decide_true by done|rewrite !bool_decide_false by congruence];
      cbn [map]; by rewrite IH.
  - rewrite bool_decide_false by done. exact IH.
Qed.

Lemma concat_map_app_perm {A B} (f g : A -> list B) l : concat (map (fun x => f x ++ g x) l) ≡ₚ concat (map f l) ++ concat (map g l).
Proof.
  induction l as [|x l IH]; [done|]. cbn [map concat]. rewrite IH. solve_Permutation.
Qed.

Section Truthful.
Context (peers : list peer_data) (items : list item) (ts : list timed) (lost : Z -> list lost_trade).
Hypothesis (Hids : NoDup (map fst items)) (Htimed : mapM time_item items = Some ts).
Hypothesis (Hfits : Forall (lost_fits lost) ts) (Htruth : truthful items peers lost).

Let picks : list (Z * list (PeerTrade * string)) := pick_all peers items.

Lemma item_fits it : it ∈ items -> exists t, t ∈ ts /\ ti_item t = it /\ lost_fits lost t.
Proof using Htimed Hfits.
  intros Hin. rewrite <- (timed_items items ts Htimed) in Hin. apply list_elem_of_fmap in Hin as (t & -> & Ht). exists t.
  rewrite Forall_forall in Hfits. auto.
Qed.

Lemma picked_good it : it ∈ items ->
  NoDup (map (fun q => pt_acml (fst q)) (picked_for picks (fst it))) /\
  Forall (fun q => peer_entry (fst q) ∈ lost (fst it) /\ 0 <= pt_chetime (fst q)) (picked_for picks (fst it)) /\
  zlen (picked_for picks (fst it)) <= missing_trades (snd (snd it)).
Proof using Htimed Hfits Hids Htruth.
  intros Hin. unfold picked_for, picks. rewrite (pick_all_at peers items it Hids Hin). unfold pick_trades.
  destruct (item_fits it Hin) as (t & _ & <- & Hlen & _).
  destruct (pick peers (fst (snd (ti_item t))) (snd (snd (ti_item t)))) as [| |l] eqn:E; cbn [default from_option id].
  1,2: split_and!; [constructor|constructor|unfold zlen in *; cbn; lia].
  destruct (pick_ok peers _ _ l (fun p Hp => tr_distinct _ _ _ Htruth p _ Hp) E) as [(lo & hi & Hg & _ & Hf) Hn Hc].
  split_and!; [done| |done]. eapply Forall_impl; [exact Hf|]. intros q (Hr & p & Hp & _ & Hq).
  by apply (tr_known _ _ _ Htruth _ p _ lo hi).
Qed.

Lemma split_lost it : it ∈ items -> lost (fst it) ≡ₚ picked_entries picks (fst it) ++ rest_of picks lost (fst it).
Proof using Htimed Hfits Hids Htruth.
  intros Hin. destruct (picked_good it Hin) as (Hn & Hf & _). destruct (item_fits it Hin) as (t & _ & <- & _ & Hnd & _).
  fold (ti_id t) in *. rewrite <- (filter_split_perm (fun e => bool_decide (fst e ∈ map (fun q => pt_acml (fst q)) (picked_for picks (ti_id t)))) (lost (ti_id t))) at 1.
  apply Permutation_app; [|done]. apply NoDup_Permutation.
  - apply NoDup_fmap_1 with (f := fst). eapply sublist_NoDup; [exact Hnd|]. apply sublist_map, filter_sublist.
  - apply NoDup_fmap_1 with (f := fst). unfold picked_entries. change (fst <$> map ?f ?l) with (map fst (map f l)). by rewrite map_map.
  - intros e. rewrite filter_elem. unfold picked_entries. rewrite Forall_forall in Hf. split.
    + intros [He (q & Eq & Hq)%bool_decide_eq_true%list_elem_of_fmap]. apply list_elem_of_fmap. exists q. split; [|done].
      by apply (NoDup_map_inj fst (lost (ti_id t))); [..|apply Hf].
    + intros (q & -> & Hq)%list_elem_of_fmap. split; [by apply Hf|]. apply bool_decide_eq_true, list_elem_of_fmap. eauto.
Qed.

Lemma rest_count it : it ∈ items ->
  zlen (rest_of picks lost (fst it)) = missing_trades (snd (snd it)) - zlen (picked_for picks (fst it)).
Proof using Htimed Hfits Hids Htruth.
  intros Hin. pose proof (Permutation_length (split_lost it Hin)) as H. destruct (item_fits it Hin) as (t & _ & <- & Hlen & _).
  fold (ti_id t) in *. unfold picked_entries in H. rewrite length_app, length_map in H. unfold zlen in *. lia.
Qed.

Lemma reduced_missing it : it ∈ items ->
  missing_trades (reduce_interval picks (fst it) (snd (snd it))) = zlen (rest_of picks lost (fst it)).
Proof using Htimed Hfits Hids Htruth.
  intros Hin. rewrite (rest_count it Hin). unfold reduce_interval. pose proof (picked_good it Hin) as (_ & _ & Hle). unfold picked_for in *.
  destruct (dget picks (fst it)) as [l|]; cbn [default from_option id] in *.
  - cbn. unfold id in *. lia.
  - unfold zlen. cbn. lia.
Qed.

Let recovered : list (Z * Z) := map (fun p => (fst p, zlen (snd p))) picks.
Let residual_items : list item := omap (still_missing picks) items.

Lemma recovered_at id : default 0 (dget recovered id) = zlen (picked_for picks id).
Proof using . unfold recovered, picked_for. rewrite (dget_map_values zlen). by destruct (dget picks id). Qed.

Lemma still_missing_at it : it ∈ items -> still_missing picks it =
  if 0 <? zlen (rest_of picks lost (fst it)) then Some (fst it, (fst (snd it), reduce_interval picks (fst it) (snd (snd it)))) else None.
Proof using Htimed Hfits Hids Htruth. intros Hin. unfold still_missing. by rewrite (reduced_missing it Hin). Qed.

Lemma still_missing_lt it : it ∈ items ->
  (0 <? zlen (rest_of picks lost (fst it))) = (default 0 (dget recovered (fst it)) <? missing_trades (snd (snd it))).
Proof using Htimed Hfits Hids Htruth.
  intros Hin. rewrite recovered_at, (rest_count it Hin). apply Bool.eq_iff_eq_true. rewrite !Z.ltb_lt. lia.
Qed.

Lemma omap_filter_fst (l : list item) : (forall it, it ∈ l -> it ∈ items) ->
  map fst (List.filter (fun it => default 0 (dget recovered (fst it)) <? missing_trades (snd (snd it))) l)
  = map fst (omap (still_missing picks) l).
Proof using Htimed Hfits Hids Htruth.
  induction l as [|it l IH]; intros Hl; [done|]. assert (Hin : it ∈ items) by (apply Hl; by left).
  cbn [List.filter omap list_omap]. rewrite (still_missing_at it Hin), (still_missing_lt it Hin).
  destruct (_ <? _); cbn [map]; (rewrite IH; [done|intros; apply Hl; by right]).
Qed.

(** An interval is either left to the tape or complete. *)
Lemma completed_ids : map fst residual_items ++ map go_interval_id (omap (completed_outcome recovered) items) ≡ₚ map fst items.
Proof using Htimed Hfits Hids Htruth.
  unfold residual_items. rewrite <- omap_filter_fst by done.
  rewrite <- (filter_split_perm (fun it => default 0 (dget recovered (fst it)) <? missing_trades (snd (snd it))) items) at 3.
  rewrite map_app. apply Permutation_app_head.
  enough (forall l, (forall it, it ∈ l -> it ∈ items) -> map go_interval_id (omap (completed_outcome recovered) l)
    = map fst (List.filter (fun it => negb (default 0 (dget recovered (fst it)) <? missing_trades (snd (snd it)))) l)) as -> by done.
  induction l as [|it l IH]; intros Hl; [done|]. pose proof (picked_good it ltac:(apply Hl; by left)) as (_ & _ & Hle).
  rewrite <- recovered_at in Hle. cbn [List.filter omap list_omap]. unfold completed_outcome at 1.
  assert ((default 0 (dget recovered (fst it)) =? missing_trades (snd (snd it)))
    = negb (default 0 (dget recovered (fst it)) <? missing_trades (snd (snd it)))) as ->.
  { apply Bool.eq_iff_eq_true. rewrite Z.eqb_eq, negb_true_iff, Z.ltb_ge. lia. }
  destruct (negb _); cbn [map]; (rewrite IH; [done|intros; apply Hl; by right]).
Qed.

Lemma completed_full : Forall (fun o => go_status o = G_FULL /\ go_residual o = 0) (omap (completed_outcome recovered) items).
Proof using .
  apply Forall_forall. intros o (it & _ & E)%list_elem_of_omap. unfold completed_outcome in E. destruct (_ =? _); [|done].
  by injection E as <-.
Qed.

(** The times of the residual items. *)
Definition residual_timed (t : timed) : option timed := it ← still_missing picks (ti_item t); Some (mkTimed it (ti_lo t) (ti_hi t)).

Lemma time_still it it' t : time_item it = Some t -> still_missing picks it = Some it' -> time_item it' = Some (mkTimed it' (ti_lo t) (ti_hi t)).
Proof using .
  unfold time_item. intros Ht Hs. unfold still_missing in Hs. destruct (0 <? _); [|done]. injection Hs as <-. cbn [fst snd].
  assert (chetime_prev (reduce_interval picks (fst it) (snd (snd it))) = chetime_prev (snd (snd it)) /\
    chetime_next (reduce_interval picks (fst it) (snd (snd it))) = chetime_next (snd (snd it))) as [-> ->].
  { unfold reduce_interval. by destruct (dget picks (fst it)). }
  destruct (chetime_int (chetime_prev _)) as [lo|]; [|done]. rewrite bind_some in *.
  destruct (chetime_int (chetime_next _)) as [hi|]; [|done]. rewrite bind_some in *. by injection Ht as <-.
Qed.

Lemma residual_times : mapM time_item residual_items = Some (omap residual_timed ts).
Proof using Htimed.
  pose proof (proj1 (mapM_Some _ _ _) Htimed) as HF. unfold residual_items. apply mapM_Some.
  enough (Hall : forall its ts', Forall2 (fun it t => time_item it = Some t) its ts' ->
    Forall2 (fun it t => time_item it = Some t) (omap (still_missing picks) its) (omap residual_timed ts')) by (by apply Hall).
  induction 1 as [|it t its ts' Ht _ IH]; [constructor|].
  cbn [omap list_omap]. unfold residual_timed at 1. assert (Ei : ti_item t = it).
  { unfold time_item in Ht. apply bind_Some in Ht as (lo & _ & (hi & _ & [= <-])%bind_Some). done. }
  rewrite Ei. destruct (still_missing picks it) as [it'|] eqn:Es; [|exact IH]. rewrite bind_some. constructor; [by eapply time_still|exact IH].
Qed.

Definition entries_at (e : Z -> list lost_trade) (id : Z) : list (Z * (Z * Z)) := map snd (e id).

Lemma xvendor_times : Forall (fun r => is_Some (chetime_int (gr_chetime r))) (xvendor_rows items picks).
Proof using Htimed Hfits Hids Htruth.
  unfold picks. rewrite (xvendor_rows_items peers items Hids). apply Forall_concat, Forall_fmap, Forall_forall. intros it Hin. cbn beta.
  apply Forall_fmap. destruct (picked_good it Hin) as (_ & Hf & _). eapply Forall_impl; [exact Hf|]. intros q [_ Hq].
  cbn [compose gr_chetime xvendor_row]. rewrite chetime_int_pad; eauto.
Qed.

Lemma xvendor_at y s : map row_trade (List.filter (row_second y s) (xvendor_rows items picks)) = lost_at (entries_at (picked_entries picks)) items y s.
Proof using Htimed Hfits Hids Htruth.
  unfold picks, lost_at. rewrite (xvendor_rows_items peers items Hids). fold picks. rewrite <- concat_filter_map, concat_map, !map_map. f_equal.
  apply map_ext_in. intros it Hin%list_elem_of_In. destruct (picked_good it Hin) as (_ & Hf & _). unfold entries_at, picked_entries.
  apply second_rows. eapply Forall_impl; [exact Hf|]. by intros q [_ ?].
Qed.

Lemma xvendor_keys : map row_key (xvendor_rows items picks)
  = concat (map (fun it => map (trade_text (fst (snd it))) (entries_at (picked_entries picks) (fst it))) items).
Proof using Htimed Hfits Hids Htruth.
  unfold picks. rewrite (xvendor_rows_items peers items Hids). fold picks. rewrite concat_map, !map_map. f_equal.
  apply map_ext_in. intros it Hin%list_elem_of_In. destruct (picked_good it Hin) as (_ & Hf & _). unfold entries_at, picked_entries.
  rewrite !map_map. apply map_ext_in. intros q Hq%list_elem_of_In. rewrite Forall_forall in Hf. destruct (Hf q Hq) as [_ Hz].
  unfold row_key, trade_text. cbn [gr_symbol gr_chetime gr_price gr_volume xvendor_row fst snd peer_entry]. by rewrite str_pad_zfill.
Qed.

Lemma rest_none it : it ∈ items -> still_missing picks it = None -> rest_of picks lost (fst it) = [].
Proof using Htimed Hfits Hids Htruth.
  intros Hin. rewrite (still_missing_at it Hin). destruct (0 <? _) eqn:E; [done|]. bprop. intros _.
  destruct (rest_of picks lost (fst it)); [done|]. unfold zlen in E. cbn in E. lia.
Qed.

(** A sum over the items of what the picks leave is one over the residual items. *)
Lemma rest_items {B} (g : string -> list (Z * (Z * Z)) -> list B) : (forall y, g y [] = []) ->
  concat (map (fun it => g (fst (snd it)) (entries_at (rest_of picks lost) (fst it))) items)
  = concat (map (fun it => g (fst (snd it)) (entries_at (rest_of picks lost) (fst it))) residual_items).
Proof using Htimed Hfits Hids Htruth.
  intros Hg. enough (Hall : forall l, (forall it, it ∈ l -> it ∈ items) ->
    concat (map (fun it => g (fst (snd it)) (entries_at (rest_of picks lost) (fst it))) l)
    = concat (map (fun it => g (fst (snd it)) (entries_at (rest_of picks lost) (fst it))) (omap (still_missing picks) l))) by (by apply Hall).
  induction l as [|it l IH]; intros Hl; [done|]. assert (Hin : it ∈ items) by (apply Hl; by left).
  cbn [map concat omap list_omap]. rewrite IH by (intros; apply Hl; by right). destruct (still_missing picks it) as [it'|] eqn:E.
  - cbn [map concat]. f_equal. unfold still_missing in E. destruct (0 <? _); [|done]. by injection E as <-.
  - unfold entries_at at 1. by rewrite (rest_none it Hin E), Hg.
Qed.

(** What was lost is what the peers had and what is left. *)
Lemma lost_items {B} (g : string -> list (Z * (Z * Z)) -> list B) : (forall y, g y [] = []) ->
  (forall y a b, g y (a ++ b) = g y a ++ g y b) -> (forall y a b, a ≡ₚ b -> g y a ≡ₚ g y b) ->
  concat (map (fun it => g (fst (snd it)) (entries_at lost (fst it))) items)
  ≡ₚ concat (map (fun it => g (fst (snd it)) (entries_at (picked_entries picks) (fst it))) items)
     ++ concat (map (fun it => g (fst (snd it)) (entries_at (rest_of picks lost) (fst it))) residual_items).
Proof using Htimed Hfits Hids Htruth.
  intros Hg Happ Hperm. rewrite <- (rest_items g Hg), <- concat_map_app_perm. apply concat_perm, Forall2_fmap, Forall2_same_length_lookup.
  split; [done|]. intros i x y Hx Hy. rewrite Hx in Hy. injection Hy as <-. apply list_elem_of_lookup_2 in Hx.
  rewrite <- Happ. apply Hperm. unfold entries_at. rewrite <- map_app. apply Permutation_map. by apply split_lost.
Qed.
End Truthful.

(** ** The filled day *)

Definition live_at (ticks : list ReceivedTick) (y : string) (s : Z) : list (Z * Z) :=
  map (fun t => (rt_price t, rt_volume t))
    (List.filter (fun t => bool_decide (zfill 6 (rt_symbol t) = y) && bool_decide (rt_chetime t = s)) ticks).

Lemma indexed_numbered audit : indexed_audit_intervals audit = numbered 0 (audit_intervals audit).
Proof. done. Qed.

Lemma timed_span audit ts t : mapM time_item (indexed_audit_intervals audit) = Some ts -> t ∈ ts -> ti_lo t <= ti_hi t ->
  (ti_symbol t, (ti_lo t, ti_hi t)) ∈ second_spans audit.
Proof.
  intros Hts Hin Hle. apply mapM_Some in Hts. apply list_elem_of_lookup in Hin as [i Hi].
  destruct (Forall2_lookup_r _ _ _ _ _ Hts Hi) as (it & Hit & Ht). unfold time_item in Ht.
  apply bind_Some in Ht as (lo & Hlo & (hi & Hhi & [= <-])%bind_Some). cbn [ti_lo ti_hi ti_item] in *. unfold ti_symbol. cbn [ti_item].
  assert (Hin : snd it ∈ audit_intervals audit).
  { rewrite <- (proj2 (enumerate_ids (audit_intervals audit))). apply list_elem_of_fmap. exists it. split; [done|]. by eapply list_elem_of_lookup_2. }
  destruct it as [n [y iv]]. cbn [fst snd] in *. unfold audit_intervals in Hin. apply list_elem_of_In, in_concat in Hin as (l & Hl & Hin).
  apply list_elem_of_In, list_elem_of_fmap in Hl as (sl & -> & Hsl). apply list_elem_of_In, list_elem_of_fmap in Hin as (iv' & [= -> ->] & [Hiv _]%filter_elem).
  unfold second_spans. apply list_elem_of_In, in_concat. eexists. split; [apply list_elem_of_In, list_elem_of_fmap; eexists; split; [reflexivity|exact Hsl]|].
  apply list_elem_of_In, list_elem_of_fmap. eexists. split; [reflexivity|]. apply list_elem_of_omap. exists iv'. split; [done|].
  unfold second_span. rewrite Hlo, bind_some, Hhi, bind_some. by rewrite (proj2 (Z.leb_le _ _)).
Qed.

Lemma live_received audit ticks ts t s : mapM time_item (indexed_audit_intervals audit) = Some ts -> t ∈ ts -> ti_lo t <= s <= ti_hi t ->
  received_at (received_trades_for_gaps audit ticks) (ti_symbol t) s = live_at ticks (ti_symbol t) s.
Proof.
  intros Hts Hin Hs. unfold received_at, live_at. rewrite (received_exact audit ticks _ s (ti_lo t, ti_hi t)); [by rewrite map_map| |done].
  apply (timed_span audit ts); [done|done|lia].
Qed.

Lemma combine_projections {A B} (l : list (A * B)) : combine (map fst l) (map snd l) = l.
Proof. induction l as [|[a b] l IH]; [done|]. cbn. by rewrite IH. Qed.

(** The residual audit under the remaining ids is the items that still miss trades. *)
Lemma residual_numbered audit peers ts lost : let items := indexed_audit_intervals audit in let picks := pick_all peers items in
  mapM time_item items = Some ts -> Forall (lost_fits lost) ts -> truthful items peers lost ->
  number_items (audit_intervals (residual_audit picks 0 audit)) (Some (remaining_ids audit (map (fun p => (fst p, zlen (snd p))) picks)))
  = Some (omap (still_missing picks) items).
Proof.
  intros items picks Hts Hfits Htruth. pose proof (proj1 (enumerate_ids (audit_intervals audit))) as Hids.
  fold (indexed_audit_intervals audit) in Hids. fold items in Hids. unfold remaining_ids. fold items.
  pose proof (omap_filter_fst peers items ts lost Hids Hts Hfits Htruth items (fun it H => H)) as Hr. fold picks in Hr. rewrite Hr.
  rewrite residual_intervals, <- indexed_numbered. fold items. unfold number_items. rewrite !length_map, bool_decide_true by done.
  rewrite bool_decide_true; [cbn [andb]; by rewrite combine_projections|]. rewrite <- Hr.
  eapply sublist_NoDup; [exact Hids|]. apply sublist_map, filter_sublist.
Qed.

(** What the tape must still supply once the peers' rows count as received. *)
Lemma residual_tape audit ticks peers tape ts lost received' : let items := indexed_audit_intervals audit in let picks := pick_all peers items in
  mapM time_item items = Some ts -> Forall (lost_fits lost) ts -> truthful items peers lost ->
  (forall t s, t ∈ ts -> ti_lo t <= s <= ti_hi t -> map price_volume (tape_at tape (ti_symbol t) s)
     ≡ₚ live_at ticks (ti_symbol t) s ++ lost_at (entries_at lost) items (ti_symbol t) s) ->
  receive_rows (py_sorted row_leb (xvendor_rows items picks)) (received_trades_for_gaps audit ticks) = Some received' ->
  forall t s, t ∈ ts -> ti_lo t <= s <= ti_hi t -> map price_volume (tape_at tape (ti_symbol t) s)
    ≡ₚ received_at received' (ti_symbol t) s ++ lost_at (entries_at (rest_of picks lost)) (omap (still_missing picks) items) (ti_symbol t) s.
Proof.
  intros items picks Hts Hfits Htruth Htape Hrec t s Hin Hs. pose proof (proj1 (enumerate_ids (audit_intervals audit))) as Hids.
  destruct (receive_rows_ok (py_sorted row_leb (xvendor_rows items picks))) with (received := received_trades_for_gaps audit ticks) as (r & Hr & Hat).
  { rewrite py_sorted_perm. by eapply xvendor_times. }
  rewrite Hrec in Hr. injection Hr as <-. rewrite (Htape t s Hin Hs), Hat, (live_received audit ticks ts) by done.
  rewrite <- app_assoc. apply Permutation_app_head.
  assert (Hp : forall l k, l ≡ₚ k -> map row_trade (List.filter (row_second (ti_symbol t) s) l) ≡ₚ map row_trade (List.filter (row_second (ti_symbol t) s) k)).
  { intros l k H. apply Permutation_map. by rewrite H. }
  rewrite (Hp _ _ (py_sorted_perm row_leb _)). unfold picks. rewrite (xvendor_at peers items ts lost Hids Hts Hfits Htruth).
  pose (g := fun (y : string) (l : list (Z * (Z * Z))) => if decide (y = ti_symbol t) then at_second s l else []).
  apply (lost_items peers items ts lost Hids Hts Hfits Htruth g); unfold g.
  - intros y. by case_decide.
  - intros y a b. case_decide; [apply at_second_app|done].
  - intros y a b H. case_decide; [|done]. unfold at_second. apply Permutation_map. by rewrite H.
Qed.

(** C13. When the tape holds in the seconds of the gaps the live frames and the lost
    trades and nothing else, and what a peer recorded inside a gap was lost there, the
    fill of a day from peers and tape derives exactly the lost trades, each once,
    whichever of them the peers supply and whatever gaps share seconds, and reports
    every audited interval once, as filled. *)
Theorem fill_gaps_exact audit ticks peers tape ts lost :
  mapM time_item (indexed_audit_intervals audit) = Some ts -> Forall (lost_fits lost) ts ->
  truthful (indexed_audit_intervals audit) peers lost ->
  (forall t s, t ∈ ts -> ti_lo t <= s <= ti_hi t -> map price_volume (tape_at tape (ti_symbol t) s)
     ≡ₚ live_at ticks (ti_symbol t) s ++ lost_at (entries_at lost) (indexed_audit_intervals audit) (ti_symbol t) s) ->
  exists rows outcomes, fill_gaps audit ticks peers tape = Some (rows, outcomes) /\
    map row_key rows ≡ₚ concat (map (fun it => map (trade_text (fst (snd it))) (entries_at lost (fst it))) (indexed_audit_intervals audit)) /\
    map go_interval_id outcomes ≡ₚ map fst (indexed_audit_intervals audit) /\
    Forall (fun o => go_status o = G_FULL /\ go_residual o = 0) outcomes.
Proof.
  intros Hts Hfits Htruth Htape. set (items := indexed_audit_intervals audit) in *. set (picks := pick_all peers items).
  pose proof (proj1 (enumerate_ids (audit_intervals audit))) as Hids. fold (indexed_audit_intervals audit) in Hids. fold items in Hids.
  destruct (receive_rows_ok (py_sorted row_leb (xvendor_rows items picks))) with (received := received_trades_for_gaps audit ticks) as (received' & Hrec & _).
  { rewrite py_sorted_perm. by eapply xvendor_times. }
  destruct (gapfill_exact (residual_audit picks 0 audit) (kiwoom_source tape) [] received'
    (Some (remaining_ids audit (map (fun p => (fst p, zlen (snd p))) picks))) (map (fun p => (fst p, zlen (snd p))) picks)
    (omap (still_missing picks) items) (omap (residual_timed peers items) ts) (entries_at (rest_of picks lost)))
    as (rows & outcomes & Hd & Hrows & Hout & Hfull).
  - by apply (residual_numbered audit peers ts lost).
  - by apply residual_times.
  - intros id n Hn%dget_elem. apply list_elem_of_fmap in Hn as (p & [= -> ->] & _). unfold zlen. lia.
  - intros t (t0 & Ht0 & (it & Hs & [= <-])%bind_Some)%list_elem_of_omap. cbn [ti_lo ti_hi]. unfold ti_id. cbn [ti_item].
    assert (Hin : ti_item t0 ∈ items) by (rewrite <- (timed_items items ts Hts); apply list_elem_of_fmap; eauto).
    rewrite (still_missing_at peers items ts lost Hids Hts Hfits Htruth _ Hin) in Hs. destruct (0 <? _); [|done]. injection Hs as <-. cbn [fst snd].
    split; [unfold entries_at, zlen; rewrite length_map; symmetry; by apply (reduced_missing peers items ts lost)|].
    rewrite Forall_forall in Hfits. destruct (Hfits t0 Ht0) as (_ & _ & Hf). apply Forall_fmap, Forall_forall. intros e [He _]%filter_elem.
    rewrite Forall_forall in Hf. by apply Hf.
  - intros t s (t0 & Ht0 & (it & Hs & [= <-])%bind_Some)%list_elem_of_omap. cbn [ti_lo ti_hi]. unfold still_missing in Hs.
    destruct (0 <? _); [|done]. injection Hs as <-. cbn [ti_symbol ti_item fst snd]. intros Hsec.
    by apply (residual_tape audit ticks peers tape ts lost).
  - eexists _, _. split.
    { unfold fill_gaps, derive_cross_vendor_fill. fold items. fold picks. rewrite Hrec, bind_some, Hd, bind_some. reflexivity. }
    split_and!.
    + rewrite py_sorted_perm, map_app, Hrows, py_sorted_perm. unfold picks. rewrite (xvendor_keys peers items ts lost Hids Hts Hfits Htruth).
      symmetry. apply (lost_items peers items ts lost Hids Hts Hfits Htruth (fun y l => map (trade_text y) l)); [done|intros; apply map_app|].
      intros y a b H. by apply Permutation_map.
    + rewrite py_sorted_perm, map_app, Hout. by apply (completed_ids peers items ts lost).
    + rewrite py_sorted_perm. apply Forall_app. split; [done|]. apply completed_full.
Qed.

(** ** A day filled from two peers and the tape *)

Definition day_interval (missing deficit cum_lo cum_hi : Z) (from to : string) (lo hi : Z) : LossInterval :=
  mkInterval "5930" REGULAR CONFIRMED missing deficit cum_lo cum_hi from to 0 0 false (Some lo) (Some hi).

Definition day_audit : list SymbolLedger :=
  [mkSymbolLedger "5930" false 5 8 3 0 3 15 0 0 0 0
     [day_interval 2 12 10 13 "090000" "090002" 1001 1013; day_interval 1 3 14 16 "090002" "090003" 1015 1018] 0 None].

Definition day_ticks : list ReceivedTick :=
  [mkTick "5930" 90000 10 100 1; mkTick "5930" 90002 13 101 2; mkTick "5930" 90003 16 100 1].

(** A plain peer with one trade of the first gap and a conflating one with the second gap. *)
Definition day_peers : list peer_data :=
  [("kis", false, [("005930", [mkPeer 1006 90001 100 5])]); ("kiwoom", true, [("005930", [mkPeer 1018 90002 99 3])])].

Definition day_lost (id : Z) : list lost_trade :=
  if id =? 0 then [(1006, (90001, (100, 5))); (1013, (90002, (101, 7)))] else [(1018, (90002, (99, 3)))].

Definition day_timed : list timed := default [] (mapM time_item (indexed_audit_intervals day_audit)).

Lemma day_truthful : truthful (indexed_audit_intervals day_audit) day_peers day_lost.
Proof.
  split.
  - intros it p t lo hi Hit Hg Hp Ht Hr.
    assert (it ∈ [(0, ("005930", day_interval 2 12 10 13 "090000" "090002" 1001 1013)); (1, ("005930", day_interval 1 3 14 16 "090002" "090003" 1015 1018))]) as Hit'
      by exact Hit. clear Hit.
    unfold day_peers in Hp. rewrite !elem_of_cons, elem_of_nil in Hp. rewrite !elem_of_cons, elem_of_nil in Hit'.
    destruct Hit' as [->|[->|[]]]; cbn in Hg; injection Hg as <- <-;
      destruct Hp as [->|[->|[]]];
      match type of Ht with _ ∈ ?l => let l' := eval vm_compute in l in change (t ∈ l') in Ht end; rewrite elem_of_cons, elem_of_nil in Ht; destruct Ht as [->|[]]; cbn in Hr |- *; try lia;
      (split; [set_solver|lia]).
  - intros p y Hp. unfold day_peers in Hp. rewrite !elem_of_cons, elem_of_nil in Hp.
    destruct Hp as [->|[->|[]]]; unfold trades_of; cbn; case_decide; cbn; repeat constructor; set_solver.
Qed.

Lemma fill_gaps_exact_witness : exists rows outcomes, fill_gaps day_audit day_ticks day_peers demo_tape = Some (rows, outcomes) /\
  map row_key rows ≡ₚ [("005930", "090001", (100, 5)); ("005930", "090002", (101, 7)); ("005930", "090002", (99, 3))] /\
  map gr_vendor rows = ["kis"; "kiwoom"; "kiwoom"] /\ map go_xvendor outcomes = [1; 1] /\
  Forall (fun o => go_status o = G_FULL /\ go_residual o = 0) outcomes.
Proof.
  assert (Hd : day_timed = [mkTimed (0, ("005930", day_interval 2 12 10 13 "090000" "090002" 1001 1013)) 90000 90002;
    mkTimed (1, ("005930", day_interval 1 3 14 16 "090002" "090003" 1015 1018)) 90002 90003]) by (vm_compute; reflexivity).
  destruct (fill_gaps_exact day_audit day_ticks day_peers demo_tape day_timed day_lost) as (rows & outcomes & Hf & Hrows & _ & Hfull).
  - vm_compute. reflexivity.
  - rewrite Hd. unfold lost_fits, ti_id, day_lost. cbn. repeat constructor; cbn; (lia || set_solver).
  - exact day_truthful.
  - intros t s Ht Hs. rewrite Hd, !elem_of_cons, elem_of_nil in Ht. destruct Ht as [->|[->|[]]]; cbn [ti_lo ti_hi] in Hs;
      (assert (s = 90000 \/ s = 90001 \/ s = 90002 \/ s = 90003) as [->|[->|[->| ->]]] by lia; try lia; vm_compute; solve_Permutation).
  - exists rows, outcomes. split; [exact Hf|]. vm_compute in Hf. injection Hf as <- <-. split_and!; [exact Hrows|reflexivity|reflexivity|exact Hfull].
Defined.
