(* ===== verification/RepairMerge.v ===== *)
(** * The repaired table of a day ([src/storage/l0_repair_merge.py])

    The live trades of the day followed by the gap-fill rows, each gap-fill row on a
    free counter of its gap unless a late live trade is its twin, and by the tape's
    trades that still find a free counter. The two SQLite tables are a set of
    (symbol, counter) pairs and a list of late trades; a Parquet file is the list of
    its rows. The JSON documents are values of [json]; [None] is a [ValueError]. *)
From stdpp Require Import gmap.
From Stdlib Require Import SpecFloat.
From S2P Require Import Prelude PyStr PyTime PyFloat ExecJournal MarketPhase SeqSet L0Decode LossLedger PyColl Gapfill.

Record LiveTick := mkLive {
  lt_symbol : string; lt_chetime : string; lt_price : Z; lt_volume : Z; lt_cum : Z; lt_recv_ns : Z
}.

(** A row of [_OUTPUT_SCHEMA]. *)
Record OutRow := mkOut {
  or_symbol : string; or_chetime : string; or_price : Z; or_volume : Z; or_cum : Z; or_source : string;
  or_interval : option Z; or_recv_ns : option Z
}.

Section LiveLines.
Context (json_loads : string -> option json).

(** [_iter_live_ticks] on the lines of the journal's files in name order. *)
Definition iter_live_ticks (vendor : string) (lines : list string) : list LiveTick :=
  omap (fun line =>
    record ← decode_envelope json_loads line;
    tick ← decode_received_tick (tick_body json_loads vendor (en_raw record));
    Some (mkLive (rt_symbol tick) (str_pad 6 (rt_chetime tick)) (rt_price tick) (rt_volume tick) (rt_cum tick)
            (en_recv_ns record))) lines.
End LiveLines.

(** ** The documents *)

Definition jobj (v : option json) : option (list (string * json)) := match v with Some (JObj o) => Some o | _ => None end.
Definition jarr (v : option json) : option (list json) := match v with Some (JArr l) => Some l | _ => None end.

(** A non-negative integer that is not a bool. *)
Definition jcount (v : option json) : option Z :=
  match v with Some (JInt n) => if n <? 0 then None else Some n | _ => None end.

Record AuditDoc := mkAudit { au_totals : list (string * json); au_doc : list (string * json); au_observed : Z; au_confirmed : Z }.

Definition read_audit (doc : option json) (day : Z) (vendor : string) : option AuditDoc :=
  d ← jobj doc;
  if negb (jis (dget d "status") "OK") && negb (jis (dget d "status") "PARTIAL") then None
  else
    totals ← jobj (dget d "totals");
    observed ← jcount (dget totals "trades_observed");
    confirmed ← jcount (dget totals "confirmed_missing");
    if jis (dget d "session_date") (date_isoformat day) && jis (dget d "vendor") vendor
       && jis (dget d "venue") "krx" && jis (dget d "session") "regular"
    then Some (mkAudit totals d observed confirmed) else None.

(** The receipt count of a ledger of an older audit. *)
Definition legacy_count (symbol : json) : option Z :=
  d ← jobj (Some symbol);
  frames ← jcount (dget d "frames");
  duplicates ← jcount (dget d "duplicates");
  decode_fail ← jcount (dget d "decode_fail");
  if decode_fail =? 0 then Some (frames + duplicates) else None.

Definition legacy_source (source : json) : option Z :=
  d ← jobj (Some source);
  if negb (jis (dget d "stream") "H0STCNT0") then Some 0
  else
    rows ← jcount (dget d "rows");
    match dget d "truncated" with Some (JBool false) => Some rows | _ => None end.

Definition audit_received_count (a : AuditDoc) : option (Z * string) :=
  match dget (au_totals a) "trades_received" with
  | Some v => n ← jcount (Some v); Some (n, "trades_received")
  | None =>
      symbols ← jarr (dget (au_doc a) "symbols");
      counts ← mapM legacy_count symbols;
      sources ← jarr (dget (au_doc a) "sources");
      rows ← mapM legacy_source sources;
      if zsum rows =? zsum counts then Some (zsum counts, "legacy_frames_plus_duplicates") else None
  end.

(** The report of the gap fill: recovered and residual trades. The outer [None] is a
    [ValueError], the inner one a day without a report. *)
Definition read_report (sha256 : string -> string) (body : option (string * option json)) (report_mtime : option Z)
    (audit_raw : string) (audit_mtime confirmed : Z) : option (option (Z * Z) * option string) :=
  match body with
  | None => if 0 <? confirmed then None else Some (None, None)
  | Some (raw, doc) =>
      d ← jobj doc;
      totals ← jobj (dget d "totals");
      residual ← jcount (dget totals "residual");
      recovered ← jcount (dget totals "recovered");
      _ ← jarr (dget d "intervals");
      notes ← match dget d "notes" with None => Some [] | v => jobj v end;
      match dget notes "audit_sha256" with
      | Some v => if jis (Some v) (sha256 audit_raw) then Some (Some (recovered, residual), Some (sha256 raw)) else None
      | None =>
          m ← report_mtime;
          if m <? audit_mtime then None else Some (Some (recovered, residual), Some (sha256 raw))
      end
  end.

(** ** The live pass *)

(** The open counter ranges of the gaps, united where they overlap. *)
Definition gap_ranges (fills : list GapRow) : list (string * list (Z * Z)) :=
  merged_gaps (touching 1 1) (fromkeys (map (fun r => (gr_symbol r, (gr_cum_prev r, gr_cum_next r))) fills)).

Definition inside_gap (ranges : list (string * list (Z * Z))) (symbol : string) (cum : Z) : bool :=
  match dget ranges symbol with
  | None => false
  | Some spans =>
      match span_before bisect_left spans cum with
      | Some (lo, hi) => (lo <? cum) && (cum <? hi)
      | None => false
      end
  end.

(** The writer: the file's rows and the columns not flushed yet. *)
Abbreviation out_file := (list OutRow * list OutRow)%type.

Definition emit (batch_rows : Z) (r : OutRow) (w : out_file) : out_file :=
  let columns := snd w ++ [r] in
  if batch_rows <=? zlen columns then (fst w ++ columns, []) else (fst w, columns).

Definition late_row := (string * Z * (Z * Z * Z))%type.

Record LiveState := mkLS {
  ls_counters : gset (string * Z); ls_late : list late_row; ls_out : out_file; ls_rows : Z
}.

Definition live_row (t : LiveTick) : OutRow :=
  mkOut (lt_symbol t) (lt_chetime t) (lt_price t) (lt_volume t) (lt_cum t) "live" None (Some (lt_recv_ns t)).

Definition live_step (batch_rows : Z) (ranges : list (string * list (Z * Z))) (s : LiveState) (t : LiveTick) : option LiveState :=
  let key := (lt_symbol t, lt_cum t) in
  late ← if negb (bool_decide (key ∈ ls_counters s)) && inside_gap ranges (lt_symbol t) (lt_cum t)
         then c ← chetime_int (lt_chetime t); Some (ls_late s ++ [(lt_symbol t, lt_cum t, (c, lt_price t, lt_volume t))])
         else Some (ls_late s);
  Some (mkLS ({[key]} ∪ ls_counters s) late (emit batch_rows (live_row t) (ls_out s)) (ls_rows s + 1)).

Fixpoint live_pass (batch_rows : Z) (ranges : list (string * list (Z * Z))) (ticks : list LiveTick) (s : LiveState) : option LiveState :=
  match ticks with
  | [] => Some s
  | t :: ticks' => s' ← live_step batch_rows ranges s t; live_pass batch_rows ranges ticks' s'
  end.

(** ** The fill pass *)

Abbreviation fill_key := (string * Z)%type.

Record FillState := mkFS {
  fi_counters : gset (string * Z); fi_out : out_file; fi_next : list (fill_key * Z);
  fi_pools : list (fill_key * list ((Z * Z * Z) * Z)); fi_filled : Z; fi_deduped : Z; fi_overfill : Z
}.

(** [INSERT OR IGNORE] at the slots from [slot] on, [n] of them. *)
Fixpoint find_slot (n : nat) (counters : gset (string * Z)) (symbol : string) (slot : Z) : Z :=
  match n with
  | O => slot
  | S n' => if bool_decide ((symbol, slot) ∈ counters) then find_slot n' counters symbol (slot + 1) else slot
  end.

(** The late trades of a gap. *)
Definition late_between (late : list late_row) (symbol : string) (lo hi : Z) : list (Z * Z * Z) :=
  map snd (List.filter (fun e => bool_decide (fst (fst e) = symbol) && (lo <? snd (fst e)) && (snd (fst e) <? hi)) late).

Definition filled_row (r : GapRow) (slot : Z) : OutRow :=
  mkOut (gr_symbol r) (gr_chetime r) (gr_price r) (gr_volume r) slot (gr_provenance r) (Some (gr_interval r)) None.

Definition fill_step (batch_rows : Z) (late : list late_row) (s : FillState) (r : GapRow) : option FillState :=
  let key := (gr_symbol r, gr_interval r) in
  let pool := default (counter (late_between late (gr_symbol r) (gr_cum_prev r) (gr_cum_next r))) (dget (fi_pools s) key) in
  c ← chetime_int (gr_chetime r);
  let twin := (c, gr_price r, gr_volume r) in
  if 0 <? count_of pool twin
  then Some (mkFS (fi_counters s) (fi_out s) (fi_next s) (dset (fi_pools s) key (dset pool twin (count_of pool twin - 1)))
               (fi_filled s) (fi_deduped s + 1) (fi_overfill s))
  else
    let pools := dset (fi_pools s) key pool in
    let start := default (gr_cum_prev r + 1) (dget (fi_next s) key) in
    let slot := find_slot (Z.to_nat (gr_cum_next r - start)) (fi_counters s) (gr_symbol r) start in
    let counters := if slot <? gr_cum_next r then {[(gr_symbol r, slot)]} ∪ fi_counters s else fi_counters s in
    if (gr_cum_prev r <? slot) && (slot <? gr_cum_next r)
    then Some (mkFS counters (emit batch_rows (filled_row r slot) (fi_out s))
                 (dset (fi_next s) key (slot + 1)) pools (fi_filled s + 1) (fi_deduped s) (fi_overfill s))
    else Some (mkFS counters (fi_out s) (fi_next s) pools (fi_filled s) (fi_deduped s) (fi_overfill s + 1)).

Fixpoint fill_pass (batch_rows : Z) (late : list late_row) (rows : list GapRow) (s : FillState) : option FillState :=
  match rows with
  | [] => Some s
  | r :: rows' => s' ← fill_step batch_rows late s r; fill_pass batch_rows late rows' s'
  end.

(** [n > f] of an integer and a float. *)
Definition int_gt_float (n : Z) (f : pyfloat) : bool :=
  match f with
  | S754_zero _ => 0 <? n
  | S754_infinity neg => neg
  | S754_nan => false
  | S754_finite neg m e =>
      let v := if neg then Z.neg m else Z.pos m in
      if 0 <=? e then v * 2 ^ e <? n else v <? n * 2 ^ (- e)
  end.

(** [overfill_dropped > overfill_tolerance_ratio * filled.height]; [None] is an [OverflowError]. *)
Definition over_tolerance (ratio : pyfloat) (overfill height : Z) : option bool :=
  match float_of_int height with Ok h => Some (int_gt_float overfill (fmul ratio h)) | Raise _ => None end.

(** ** The top-up from the tape *)

(** A row of the tape's Parquet files. *)
Record TapeRec := mkTapeRec { tr_symbol : string; tr_s : Z; tr_price : Z; tr_volume : Z; tr_seq : Z; tr_run : string }.

(** The rows of a symbol's longest run, of the smallest run id among equals. *)
Definition run_length (tape : list TapeRec) (symbol run : string) : Z :=
  zlen (List.filter (fun r => bool_decide (tr_symbol r = symbol) && bool_decide (tr_run r = run)) tape).

Definition longest_runs (tape : list TapeRec) : list TapeRec :=
  List.filter (fun r => forallb (fun q => negb (bool_decide (tr_symbol q = tr_symbol r))
                                          || (run_length tape (tr_symbol q) (tr_run q) <=? run_length tape (tr_symbol r) (tr_run r))) tape) tape.

Definition smallest_run (tape : list TapeRec) : list TapeRec :=
  List.filter (fun r => forallb (fun q => negb (bool_decide (tr_symbol q = tr_symbol r)) || negb (str_ltb (tr_run q) (tr_run r))) tape) tape.

Definition load_tape_rows (tape : list TapeRec) (symbols : list string) : list TapeRec :=
  smallest_run (longest_runs (List.filter (fun r => bool_decide (tr_symbol r ∈ symbols)) tape)).

(** A row of the merged table with its second as a number. *)
Record TimedRow := mkTR { tm_symbol : string; tm_s : Z; tm_price : Z; tm_volume : Z; tm_cum : Z }.

Definition timed_row (r : OutRow) : option TimedRow :=
  s ← chetime_int (or_chetime r); Some (mkTR (or_symbol r) s (or_price r) (or_volume r) (or_cum r)).

Abbreviation trade_key := (string * Z * Z * Z)%type.
Definition tape_key (r : TapeRec) : trade_key := (tr_symbol r, tr_s r, tr_price r, tr_volume r).
Definition table_key (r : TimedRow) : trade_key := (tm_symbol r, tm_s r, tm_price r, tm_volume r).

(** The trades of one key the table has too few of: second, sequence number, price, volume. *)
Abbreviation topup_trade := (Z * Z * Z * Z)%type.

Definition absent (tape : list TapeRec) (table : list TimedRow) (k : trade_key) : list (string * topup_trade) :=
  let seqs := py_sorted Z.leb (map tr_seq (List.filter (fun r => bool_decide (tape_key r = k)) tape)) in
  let have := zlen (List.filter (fun r => bool_decide (table_key r = k)) table) in
  let '(symbol, s, price, volume) := k in
  map (fun seq => (symbol, (s, seq, price, volume))) (take (Z.to_nat (zlen seqs - have)) seqs).

Definition absent_trades (tape : list TapeRec) (table : list TimedRow) : list (string * topup_trade) :=
  concat (map (absent tape table) (fromkeys (map tape_key tape))).

(** The table's rows of a symbol by counter, the first of each counter. *)
Definition cum_leb (a b : TimedRow) : bool := tm_cum a <=? tm_cum b.

Fixpoint unique_cum (seen : list Z) (rows : list TimedRow) : list TimedRow :=
  match rows with
  | [] => []
  | r :: rows' => if decide (tm_cum r ∈ seen) then unique_cum seen rows' else r :: unique_cum (tm_cum r :: seen) rows'
  end.

(** A free range of counters: its bounds and the seconds of the rows around it. *)
Record Gap := mkGap { gp_lo : Z; gp_hi : Z; gp_t_prev : Z; gp_t_next : Z }.

Fixpoint gaps_from (lo t_prev : Z) (rows : list TimedRow) : list Gap :=
  match rows with
  | [] => []
  | r :: rows' =>
      (if 1 <? tm_cum r - lo then [mkGap lo (tm_cum r) t_prev (tm_s r)] else []) ++ gaps_from (tm_cum r) (tm_s r) rows'
  end.

Definition gap_lo_leb (a b : Gap) : bool := gp_lo a <=? gp_lo b.

Definition gaps_of (table : list TimedRow) (symbol : string) : list Gap :=
  py_sorted gap_lo_leb
    (gaps_from 0 0 (unique_cum [] (py_sorted cum_leb (List.filter (fun r => bool_decide (tm_symbol r = symbol)) table)))).

Definition topup_leb (a b : topup_trade) : bool :=
  let '(s, q, p, v) := a in let '(s', q', p', v') := b in
  (s <? s') || ((s =? s') && ((q <? q') || ((q =? q') && ((p <? p') || ((p =? p') && (v <=? v')))))).

Definition topup_second (t : topup_trade) : Z := fst (fst (fst t)).

(** [used[i]]. *)
Definition is_used (used : list bool) (i : nat) : bool := default false (used !! i).

Fixpoint skip_trades (n : nat) (trades : list topup_trade) (used : list bool) (t_prev : Z) (pointer : nat) : nat :=
  match n with
  | O => pointer
  | S n' =>
      match trades !! pointer with
      | None => pointer
      | Some t => if is_used used pointer || (topup_second t <? t_prev) then skip_trades n' trades used t_prev (S pointer) else pointer
      end
  end.

(** Trades from [index] on take the slots below [hi]. *)
Fixpoint place_trades (n : nat) (trades : list topup_trade) (hi t_next : Z) (index : nat) (slot : Z) (used : list bool)
    : list bool * list (topup_trade * Z) :=
  match n with
  | O => (used, [])
  | S n' =>
      match trades !! index with
      | None => (used, [])
      | Some t =>
          if (slot <? hi) && (topup_second t <=? t_next) then
            if is_used used index then place_trades n' trades hi t_next (S index) slot used
            else
              let '(used', placed) := place_trades n' trades hi t_next (S index) (slot + 1) (<[index := true]> used) in
              (used', (t, slot) :: placed)
          else (used, [])
      end
  end.

Fixpoint place_gaps (trades : list topup_trade) (gaps : list Gap) (pointer : nat) (used : list bool)
    : list bool * list (topup_trade * Z) :=
  match gaps with
  | [] => (used, [])
  | g :: gaps' =>
      let pointer := skip_trades (length trades) trades used (gp_t_prev g) pointer in
      let '(used, placed) := place_trades (length trades) trades (gp_hi g) (gp_t_next g) pointer (gp_lo g + 1) used in
      let '(used, placed') := place_gaps trades gaps' pointer used in
      (used, placed ++ placed')
  end.

Definition topup_row (symbol : string) (e : topup_trade * Z) : OutRow :=
  let '(s, _, price, volume) := fst e in
  mkOut symbol (str_pad 6 s) price volume (snd e) "tape_topup" None None.

(** The rows placed for a symbol and the trades left over. *)
Definition place_symbol (table : list TimedRow) (e : string * list topup_trade) : list OutRow * Z :=
  let trades := py_sorted topup_leb (snd e) in
  let '(used, placed) := place_gaps trades (gaps_of table (fst e)) 0 (replicate (length trades) false) in
  (map (topup_row (fst e)) placed, zlen (List.filter negb used)).

(** Rows added and trades left unplaced; [None] is an error of the data frames. *)
Definition apply_tape_topup (tape : list TapeRec) (merged : list OutRow) : option (list OutRow * Z) :=
  match load_tape_rows tape (fromkeys (map or_symbol merged)) with
  | [] => Some ([], 0)
  | rows =>
      table ← mapM timed_row (List.filter (fun r => bool_decide (or_symbol r ∈ map tr_symbol rows)) merged);
      let parts := map (place_symbol table) (group (absent_trades rows table)) in
      Some (concat (map fst parts), zsum (map snd parts))
  end.

(** ** The build *)

Inductive MismatchReason := gapfill_rows_ne_recovered | live_rows_ne_received | overfill_over_tolerance.

#[global] Instance mismatch_eq : EqDecision MismatchReason.
Proof. solve_decision. Defined.

Record RepairedTicksSummary := mkSummary {
  sm_day : Z; sm_vendor : string; sm_live_rows : Z; sm_filled_rows : Z; sm_residual : Z; sm_observed : Z; sm_audit_sha256 : string;
  sm_ok : bool; sm_report_sha256 : option string; sm_count_note : option string; sm_received : option Z; sm_deduped : Z;
  sm_overfill : Z; sm_topup : Z; sm_unplaced : Z; sm_reason : option MismatchReason; sm_recovered : option Z
}.

(** What the build reads. [None] of the audit, its mtime, the report or the tape is an [OSError]. *)
Record MergeInput := mkInput {
  in_audit : option string; in_audit_mtime : option Z; in_report : option string; in_report_mtime : option Z;
  in_rows_exist : bool; in_rows : option (list GapRow); in_ticks : list LiveTick; in_tape : option (list TapeRec)
}.

(** The two files the build writes, and the calls of a run that raise an [OSError]. *)
Record TicksDisk := mkDisk { td_ticks : option (list OutRow); td_summary : option json }.
Record MergeFaults := mkFaults { mf_write : bool; mf_replace : bool; mf_mkdir : bool; mf_summary : bool; mf_unlink : bool }.

(** What precedes the writer. *)
Record Prepared := mkPrepared {
  pp_sha : string; pp_observed : Z; pp_received : Z; pp_basis : string; pp_confirmed : Z; pp_report_sha : option string;
  pp_recovered : Z; pp_residual : Z; pp_fills : list GapRow
}.

(** The table written before the top-up, or a mismatch. *)
Inductive merged :=
| M_mismatch (reason : MismatchReason) (live_rows deduped overfill : Z)
| M_table (rows : list OutRow) (live_rows filled_rows deduped overfill : Z).

Section Build.
Context (json_loads : string -> option json) (sha256 : string -> string).
Context (day : Z) (vendor : string) (batch_rows : Z) (tolerance : pyfloat) (stamp : Z).

Definition prepare (i : MergeInput) : option Prepared :=
  raw ← in_audit i;
  audit ← read_audit (json_loads raw) day vendor;
  mtime ← in_audit_mtime i;
  '(received, basis) ← audit_received_count audit;
  '(report, report_sha) ← read_report sha256 (option_map (fun b => (b, json_loads b)) (in_report i)) (in_report_mtime i) raw mtime (au_confirmed audit);
  let '(recovered, residual) := default (0, 0) report in
  fills ← if (recovered =? 0) && negb (in_rows_exist i) then Some [] else in_rows i;
  Some (mkPrepared (sha256 raw) (au_observed audit) received basis (au_confirmed audit) report_sha recovered residual
          (py_sorted row_leb fills)).

Definition merge_rows (p : Prepared) (ticks : list LiveTick) : option merged :=
  if negb (zlen (pp_fills p) =? pp_recovered p) then Some (M_mismatch gapfill_rows_ne_recovered 0 0 0)
  else
    live ← live_pass batch_rows (gap_ranges (pp_fills p)) ticks (mkLS ∅ [] ([], []) 0);
    if negb (ls_rows live =? pp_received p) then Some (M_mismatch live_rows_ne_received (ls_rows live) 0 0)
    else
      f ← fill_pass batch_rows (ls_late live) (pp_fills p) (mkFS (ls_counters live) (ls_out live) [] [] 0 0 0);
      over ← over_tolerance tolerance (fi_overfill f) (zlen (pp_fills p));
      if over : bool then Some (M_mismatch overfill_over_tolerance (ls_rows live) (fi_deduped f) (fi_overfill f))
      else Some (M_table (fst (fi_out f) ++ snd (fi_out f)) (ls_rows live) (fi_filled f) (fi_deduped f) (fi_overfill f)).

Definition mismatch_summary (p : Prepared) (reason : MismatchReason) (live_rows deduped overfill : Z) : RepairedTicksSummary :=
  mkSummary day vendor live_rows (zlen (pp_fills p)) (pp_residual p) (pp_observed p) (pp_sha p) false (pp_report_sha p) None
    (Some (pp_received p)) deduped overfill 0 0 (Some reason) (Some (pp_recovered p)).

Definition ok_summary (p : Prepared) (live_rows filled_rows deduped overfill topup unplaced : Z) : RepairedTicksSummary :=
  mkSummary day vendor live_rows filled_rows (pp_residual p) (pp_observed p) (pp_sha p) true (pp_report_sha p)
    (if pp_confirmed p =? filled_rows + pp_residual p then None else Some "gapfill_counts_intervals")
    (Some (pp_received p)) deduped overfill topup unplaced None None.

(** The document of [repair_summary_path]. *)
Definition summary_payload (p : Prepared) (s : RepairedTicksSummary) : json :=
  JObj [("day", JStr (date_isoformat (sm_day s))); ("vendor", JStr (sm_vendor s)); ("live_rows", JInt (sm_live_rows s));
    ("filled_rows", JInt (sm_filled_rows s)); ("residual", JInt (sm_residual s)); ("audit_trades_observed", JInt (sm_observed s));
    ("audit_trades_received", JInt (pp_received p)); ("live_count_basis", JStr (pp_basis p)); ("audit_sha256", JStr (sm_audit_sha256 s));
    ("gapfill_report_sha256", jopt (sm_report_sha256 s)); ("status", JStr "OK"); ("count_note", jopt (sm_count_note s));
    ("deduped_late_live", JInt (sm_deduped s)); ("overfill_dropped", JInt (sm_overfill s)); ("tape_topup_rows", JInt (sm_topup s));
    ("tape_topup_unplaced", JInt (sm_unplaced s)); ("generated_at", JInt stamp)].

(** The table is replaced first, then the summary; when the summary fails the table is removed. *)
Definition publish (f : MergeFaults) (p : Prepared) (table : list OutRow) (s : RepairedTicksSummary) (d : TicksDisk)
    : TicksDisk * option RepairedTicksSummary :=
  if mf_replace f then (d, None)
  else if mf_mkdir f then (mkDisk (Some table) (td_summary d), None)
  else if mf_summary f then (mkDisk (if mf_unlink f then Some table else None) (td_summary d), None)
  else (mkDisk (Some table) (Some (summary_payload p s)), Some s).

Definition topup_of (i : MergeInput) (rows : list OutRow) : list OutRow * Z :=
  default ([], 0) (tape ← in_tape i; apply_tape_topup tape rows).

Definition build_repaired_ticks (f : MergeFaults) (i : MergeInput) (d : TicksDisk) : TicksDisk * option RepairedTicksSummary :=
  if negb (bool_decide (vendor = "ls")) || (batch_rows <=? 0) then (d, None)
  else
    match prepare i with
    | None => (d, None)
    | Some p =>
        match merge_rows p (in_ticks i) with
        | None => (d, None)
        | Some (M_mismatch reason live deduped overfill) =>
            if mf_write f && negb (bool_decide (reason = gapfill_rows_ne_recovered)) then (d, None)
            else (d, Some (mismatch_summary p reason live deduped overfill))
        | Some (M_table rows live filled deduped overfill) =>
            if mf_write f then (d, None)
            else
              let '(extra, unplaced) := topup_of i rows in
              publish f p (rows ++ extra) (ok_summary p live filled deduped overfill (zlen extra) unplaced) d
        end
    end.

(** [repaired_ticks_valid] against the audit's bytes. *)
Definition repaired_ticks_valid (audit_raw : option string) (d : TicksDisk) : bool :=
  match td_ticks d, td_summary d, audit_raw with
  | Some table, Some (JObj doc), Some raw =>
      jis (dget doc "status") "OK" && jis (dget doc "day") (date_isoformat day) && jis (dget doc "vendor") vendor
      && match jcount (dget doc "live_rows"), jcount (dget doc "filled_rows"), jcount (dget doc "audit_trades_received"),
               match dget doc "tape_topup_rows" with None => Some 0 | v => jcount v end with
         | Some live, Some filled, Some received, Some topup => (live =? received) && (zlen table =? live + filled + topup)
         | _, _, _, _ => false
         end
      && jis (dget doc "audit_sha256") (sha256 raw)
  | _, _, _ => false
  end.
End Build.
