(* ===== verification/RepairMergeFacts.v ===== *)
(** * The merge of live trades and gap-fill rows

    What the two passes write, whatever the rows: the live trades, then gap-fill rows
    on counters no live trade has, each counter once and inside its gap; and that a gap
    with as many rows as free counters is closed. *)
From stdpp Require Import gmap.
From Stdlib Require Import SpecFloat.
From S2P Require Import Prelude PyStr PyTime PyFloat ExecJournal MarketPhase SeqSet L0Decode LossLedger PyColl Gapfill GapfillFacts GapfillProps RepairMerge.

(** ** The writer *)

Definition rows_of (w : out_file) : list OutRow := fst w ++ snd w.

Lemma emit_rows b r w : rows_of (emit b r w) = rows_of w ++ [r].
Proof. unfold emit, rows_of. destruct (_ <=? _); cbn; by rewrite ?app_nil_r, app_assoc. Qed.

(** ** The live pass *)

Definition tick_key (t : LiveTick) : string * Z := (lt_symbol t, lt_cum t).
Definition out_key (r : OutRow) : string * Z := (or_symbol r, or_cum r).

(** A late row is a live trade inside a gap. *)
Definition late_of (ticks : list LiveTick) (e : late_row) : Prop :=
  exists t, t ∈ ticks /\ fst e = tick_key t /\ chetime_int (lt_chetime t) = Some (fst (fst (snd e))) /\
    snd (fst (snd e)) = lt_price t /\ snd (snd e) = lt_volume t.

Lemma live_pass_ok b ranges ticks : Forall (fun t => is_Some (chetime_int (lt_chetime t))) ticks -> forall s,
  exists s' late, live_pass b ranges ticks s = Some s' /\ rows_of (ls_out s') = rows_of (ls_out s) ++ map live_row ticks /\
    ls_rows s' = ls_rows s + zlen ticks /\ ls_counters s' = list_to_set (map tick_key ticks) ∪ ls_counters s /\
    ls_late s' = ls_late s ++ late /\ Forall (late_of ticks) late.
Proof.
  induction 1 as [|t ticks [c Hc] _ IH]; intros s.
  - exists s, []. cbn. rewrite !app_nil_r. split_and!; [done|done|unfold zlen; cbn; lia|set_solver|done|constructor].
  - cbn [live_pass].
    assert (Hstep : exists l, live_step b ranges s t = Some (mkLS ({[tick_key t]} ∪ ls_counters s) (ls_late s ++ l) (emit b (live_row t) (ls_out s)) (ls_rows s + 1))
      /\ Forall (late_of (t :: ticks)) l).
    { unfold live_step. cbv zeta. destruct (_ && _).
      - rewrite Hc, bind_some, bind_some. eexists [_]. split; [reflexivity|]. constructor; [|constructor]. exists t. split_and!; by (left || done).
      - rewrite bind_some. exists []. rewrite app_nil_r. split; [reflexivity|constructor]. }
    destruct Hstep as (l & -> & Hl). rewrite bind_some. destruct (IH (mkLS ({[tick_key t]} ∪ ls_counters s) (ls_late s ++ l) (emit b (live_row t) (ls_out s)) (ls_rows s + 1)))
      as (s' & late & -> & H1 & H2 & H3 & H4 & H5). cbn in H1, H2, H3, H4.
    exists s', (l ++ late). split_and!; [done| | | | |].
    + rewrite H1, emit_rows, <- app_assoc. done.
    + rewrite H2. unfold zlen. cbn [length]. lia.
    + rewrite H3. cbn [map list_to_set]. set_solver.
    + by rewrite H4, app_assoc.
    + apply Forall_app. split; [done|]. eapply Forall_impl; [exact H5|]. intros e (u & ? & ?). exists u. split; [by right|done].
Qed.

(** ** Slots *)

Lemma find_slot_ok n C y : forall start, let slot := find_slot n C y start in
  start <= slot <= start + Z.of_nat n /\ (forall c, start <= c < slot -> (y, c) ∈ C) /\ (slot < start + Z.of_nat n -> (y, slot) ∉ C).
Proof.
  induction n as [|n IH]; intros start; cbn [find_slot]; cbv zeta; [split_and!; intros; lia|].
  destruct (decide ((y, start) ∈ C)) as [Hin|Hni].
  - rewrite bool_decide_true by done. destruct (IH (start + 1)) as (H1 & H2 & H3). split_and!; [lia|lia| |].
    + intros c Hc. destruct (decide (c = start)) as [->|]; [done|]. apply H2. lia.
    + intros Hlt. apply H3. lia.
  - rewrite bool_decide_false by done. split_and!; [lia|lia|intros; lia|done].
Qed.

Lemma search_slot C y lo hi start : lo < start -> (forall c, lo < c < start -> (y, c) ∈ C) ->
  let slot := find_slot (Z.to_nat (hi - start)) C y start in
  start <= slot /\ (forall c, lo < c < slot -> (y, c) ∈ C) /\
  (slot < hi -> (y, slot) ∉ C) /\ (hi <= slot -> forall c, lo < c < hi -> (y, c) ∈ C).
Proof.
  intros Hlo Hbelow slot. destruct (find_slot_ok (Z.to_nat (hi - start)) C y start) as (H1 & H2 & H3). fold slot in H1, H2, H3.
  assert (Hall : forall c, lo < c < slot -> (y, c) ∈ C).
  { intros c Hc. destruct (decide (c < start)); [apply Hbelow; lia|apply H2; lia]. }
  split_and!; [lia|done|intros; apply H3; lia|]. intros Hge c Hc. apply Hall. lia.
Qed.

(** ** The fill pass *)

Definition gap_key (r : GapRow) : fill_key := (gr_symbol r, gr_interval r).
Definition out_gap (e : OutRow) : fill_key := (or_symbol e, default 0 (or_interval e)).

(** A gap-fill row on a counter of its gap. *)
Definition placed_at (r : GapRow) (e : OutRow) : Prop := exists slot, e = filled_row r slot /\ gr_cum_prev r < slot < gr_cum_next r.

Definition of_gap {A} (key : A -> fill_key) (k : fill_key) (l : list A) : Z := zlen (List.filter (fun x => bool_decide (key x = k)) l).

Lemma of_gap_snoc {A} (key : A -> fill_key) k l x : of_gap key k (l ++ [x]) = of_gap key k l + (if decide (key x = k) then 1 else 0).
Proof.
  unfold of_gap, zlen. rewrite List.filter_app, length_app. cbn [List.filter].
  case_decide; [rewrite bool_decide_true by done|rewrite bool_decide_false by done]; cbn [length]; lia.
Qed.

Section Fill.
Context (b : Z) (late : list late_row) (bounds : fill_key -> Z * Z) (C0 : gset (string * Z)) (out0 : list OutRow).

Definition row_bounded (r : GapRow) : Prop := bounds (gap_key r) = (gr_cum_prev r, gr_cum_next r).

Definition late_in (k : fill_key) : list (Z * Z * Z) := late_between late (fst k) (fst (bounds k)) (snd (bounds k)).

(** No row of the gap repeats one of its late trades. *)
Definition no_twin (k : fill_key) (rows : list GapRow) : Prop :=
  forall r c, r ∈ rows -> gap_key r = k -> chetime_int (gr_chetime r) = Some c -> (c, gr_price r, gr_volume r) ∉ late_in k.

Definition has_room (C : gset (string * Z)) (k : fill_key) : Prop := exists c, fst (bounds k) < c < snd (bounds k) /\ (fst k, c) ∉ C.

Record fill_inv (rows kept : list GapRow) (E : list OutRow) (s : FillState) : Prop := {
  fv_sub : kept `sublist_of` rows;
  fv_out : rows_of (fi_out s) = out0 ++ E;
  fv_placed : Forall2 placed_at kept E;
  fv_filled : zlen E = fi_filled s;
  fv_nodup : NoDup (map out_key E);
  fv_fresh : Forall (fun e => out_key e ∉ C0) E;
  fv_counters : fi_counters s = list_to_set (map out_key E) ∪ C0;
  fv_total : fi_filled s + fi_deduped s + fi_overfill s = zlen rows;
  fv_next : forall k n, dget (fi_next s) k = Some n -> fst (bounds k) < n /\ forall c, fst (bounds k) < c < n -> (fst k, c) ∈ fi_counters s;
  fv_pools : forall k pool t, dget (fi_pools s) k = Some pool -> count_of pool t <= occurrences t (late_in k);
  fv_room : forall k, has_room (fi_counters s) k -> no_twin k rows -> of_gap gap_key k rows = of_gap out_gap k E
}.

Lemma no_twin_app k rows rows' : no_twin k (rows ++ rows') -> no_twin k rows.
Proof. intros H r c Hr. apply H. apply elem_of_app. by left. Qed.

(** The pool a row meets. *)
Definition pool_of (s : FillState) (r : GapRow) : list ((Z * Z * Z) * Z) :=
  default (counter (late_between late (gr_symbol r) (gr_cum_prev r) (gr_cum_next r))) (dget (fi_pools s) (gap_key r)).

Lemma late_pool_bound rows kept E s r t : fill_inv rows kept E s -> row_bounded r -> count_of (pool_of s r) t <= occurrences t (late_in (gap_key r)).
Proof.
  intros Hi Hb. unfold pool_of. destruct (dget (fi_pools s) (gap_key r)) as [pool|] eqn:Ep; cbn [default from_option id].
  - unfold id. by apply (fv_pools _ _ _ _ Hi).
  - unfold late_in. rewrite Hb. unfold id. rewrite counter_count. done.
Qed.

Lemma occurrences_not_in (t : Z * Z * Z) l : t ∉ l -> occurrences t l = 0.
Proof.
  intros Hn. induction l as [|x l IH]; [done|]. apply not_elem_of_cons in Hn as [Hx Hl]. rewrite occurrences_cons, decide_False, IH by congruence. done.
Qed.

(** A row that repeats a late trade. *)
Lemma twin_step rows kept E s r c : fill_inv rows kept E s -> row_bounded r -> chetime_int (gr_chetime r) = Some c ->
  0 < count_of (pool_of s r) (c, gr_price r, gr_volume r) ->
  fill_inv (rows ++ [r]) kept E (mkFS (fi_counters s) (fi_out s) (fi_next s)
    (dset (fi_pools s) (gap_key r) (dset (pool_of s r) (c, gr_price r, gr_volume r) (count_of (pool_of s r) (c, gr_price r, gr_volume r) - 1)))
    (fi_filled s) (fi_deduped s + 1) (fi_overfill s)).
Proof.
  intros Hi Hb Hc Hpos. pose proof (fun t => late_pool_bound rows kept E s r t Hi Hb) as Hpool. split; cbn; try apply Hi.
  - apply sublist_inserts_r, Hi.
  - pose proof (fv_total _ _ _ _ Hi). unfold zlen in *. rewrite length_app. cbn. lia.
  - intros k pool t. destruct (decide (gap_key r = k)) as [<-|Hne].
    + rewrite dget_dset_eq. intros [= <-]. rewrite count_of_dset. pose proof (Hpool t). case_decide; [subst t|]; lia.
    + rewrite dget_dset_ne by done. apply Hi.
  - intros k Hroom Hno. rewrite of_gap_snoc. rewrite (fv_room _ _ _ _ Hi k Hroom (no_twin_app k rows [r] Hno)).
    rewrite decide_False; [lia|]. intros E1.
    assert (Hni : (c, gr_price r, gr_volume r) ∉ late_in k) by (apply (Hno r); [apply elem_of_app; right; left|done|done]).
    pose proof (Hpool (c, gr_price r, gr_volume r)) as Hle. rewrite E1, (occurrences_not_in _ _ Hni) in Hle. lia.
Qed.

Definition slot_of (s : FillState) (r : GapRow) : Z :=
  let start := default (gr_cum_prev r + 1) (dget (fi_next s) (gap_key r)) in
  find_slot (Z.to_nat (gr_cum_next r - start)) (fi_counters s) (gr_symbol r) start.

Lemma slot_of_ok rows kept E s r : fill_inv rows kept E s -> row_bounded r ->
  gr_cum_prev r < slot_of s r /\ (forall c, gr_cum_prev r < c < slot_of s r -> (gr_symbol r, c) ∈ fi_counters s) /\
  (slot_of s r < gr_cum_next r -> (gr_symbol r, slot_of s r) ∉ fi_counters s) /\
  (gr_cum_next r <= slot_of s r -> ~ has_room (fi_counters s) (gap_key r)).
Proof.
  intros Hi Hb. unfold slot_of. set (start := default (gr_cum_prev r + 1) (dget (fi_next s) (gap_key r))).
  assert (gr_cum_prev r < start /\ forall c, gr_cum_prev r < c < start -> (gr_symbol r, c) ∈ fi_counters s) as [Hs1 Hs2].
  { unfold start. destruct (dget (fi_next s) (gap_key r)) as [n|] eqn:En; cbn [default from_option]; [|split; [lia|intros; lia]].
    pose proof (fv_next _ _ _ _ Hi _ _ En) as [H1 H2]. rewrite Hb in H1, H2. done. }
  clearbody start. destruct (search_slot (fi_counters s) (gr_symbol r) (gr_cum_prev r) (gr_cum_next r) start Hs1 Hs2) as (H1 & H2 & H3 & H4).
  split_and!; [lia|done|done|]. intros Hge (c & Hc & Hni). rewrite Hb in Hc. apply Hni, H4; done.
Qed.

Lemma pools_kept rows kept E s r : fill_inv rows kept E s -> row_bounded r -> forall k pool t,
  dget (dset (fi_pools s) (gap_key r) (pool_of s r)) k = Some pool -> count_of pool t <= occurrences t (late_in k).
Proof.
  intros Hi Hb k pool t. destruct (decide (gap_key r = k)) as [<-|Hne].
  - rewrite dget_dset_eq. intros [= <-]. by eapply late_pool_bound.
  - rewrite dget_dset_ne by done. apply Hi.
Qed.

(** A row that finds a free counter. *)
Lemma place_step rows kept E s r : fill_inv rows kept E s -> row_bounded r -> slot_of s r < gr_cum_next r ->
  fill_inv (rows ++ [r]) (kept ++ [r]) (E ++ [filled_row r (slot_of s r)]) (mkFS ({[(gr_symbol r, slot_of s r)]} ∪ fi_counters s)
    (emit b (filled_row r (slot_of s r)) (fi_out s)) (dset (fi_next s) (gap_key r) (slot_of s r + 1))
    (dset (fi_pools s) (gap_key r) (pool_of s r)) (fi_filled s + 1) (fi_deduped s) (fi_overfill s)).
Proof.
  intros Hi Hb Hlt. destruct (slot_of_ok rows kept E s r Hi Hb) as (H1 & H2 & H3 & _). specialize (H3 Hlt).
  pose proof (fv_counters _ _ _ _ Hi) as Hc. split; cbn [fi_counters fi_out fi_next fi_pools fi_filled fi_deduped fi_overfill].
  - apply sublist_app; [apply Hi|done].
  - by rewrite emit_rows, (fv_out _ _ _ _ Hi), app_assoc.
  - apply Forall2_app; [apply Hi|]. constructor; [|constructor]. by exists (slot_of s r).
  - pose proof (fv_filled _ _ _ _ Hi). unfold zlen in *. rewrite length_app. cbn. lia.
  - rewrite map_app. apply NoDup_app. split_and!; [apply Hi| |apply NoDup_singleton].
    intros e He [= ->]%list_elem_of_singleton. apply H3. rewrite Hc. apply elem_of_union_l, elem_of_list_to_set. done.
  - apply Forall_app. split; [apply Hi|]. constructor; [|constructor]. intros Hin. apply H3. rewrite Hc. by apply elem_of_union_r.
  - rewrite map_app, list_to_set_app_L, Hc. cbn [map list_to_set out_key filled_row or_symbol or_cum]. set_solver.
  - pose proof (fv_total _ _ _ _ Hi). unfold zlen in *. rewrite length_app. cbn. lia.
  - intros k n. destruct (decide (gap_key r = k)) as [<-|Hne].
    + rewrite dget_dset_eq. intros [= <-]. rewrite Hb. cbn [fst snd gap_key]. split; [lia|]. intros c Hcr.
      destruct (decide (c = slot_of s r)) as [->|]; [by apply elem_of_union_l, elem_of_singleton|]. apply elem_of_union_r, H2. lia.
    + rewrite dget_dset_ne by done. intros Hn. destruct (fv_next _ _ _ _ Hi k n Hn) as [Hl Hin]. split; [done|].
      intros c Hcr. apply elem_of_union_r. by apply Hin.
  - by eapply pools_kept.
  - intros k (c & Hcr & Hni) Hno. rewrite !of_gap_snoc, (fv_room _ _ _ _ Hi k); [done| |by eapply no_twin_app].
    exists c. split; [done|]. set_solver.
Qed.

(** A row whose gap has no free counter left. *)
Lemma drop_step rows kept E s r : fill_inv rows kept E s -> row_bounded r -> gr_cum_next r <= slot_of s r ->
  fill_inv (rows ++ [r]) kept E (mkFS (fi_counters s) (fi_out s) (fi_next s)
    (dset (fi_pools s) (gap_key r) (pool_of s r)) (fi_filled s) (fi_deduped s) (fi_overfill s + 1)).
Proof.
  intros Hi Hb Hge. destruct (slot_of_ok rows kept E s r Hi Hb) as (_ & _ & _ & Hfull). specialize (Hfull Hge).
  split; cbn [fi_counters fi_out fi_next fi_pools fi_filled fi_deduped fi_overfill]; try apply Hi.
  - apply sublist_inserts_r, Hi.
  - pose proof (fv_total _ _ _ _ Hi). unfold zlen in *. rewrite length_app. cbn. lia.
  - by eapply pools_kept.
  - intros k Hroom Hno. rewrite of_gap_snoc, (fv_room _ _ _ _ Hi k Hroom) by (by eapply no_twin_app).
    rewrite decide_False; [lia|]. intros <-. done.
Qed.

Lemma fill_step_ok rows kept E s r : fill_inv rows kept E s -> row_bounded r -> is_Some (chetime_int (gr_chetime r)) ->
  exists kept' E' s', fill_step b late s r = Some s' /\ fill_inv (rows ++ [r]) kept' E' s'.
Proof.
  intros Hi Hb [c Hc]. unfold fill_step. cbv zeta. rewrite Hc, bind_some. fold (gap_key r). fold (pool_of s r). fold (slot_of s r).
  destruct (0 <? _) eqn:E1; bprop; [eexists _, _, _; split; [reflexivity|by apply twin_step]|].
  destruct (slot_of_ok rows kept E s r Hi Hb) as (H1 & _). rewrite (proj2 (Z.ltb_lt _ _) H1). cbn [andb].
  destruct (slot_of s r <? gr_cum_next r) eqn:E2; bprop.
  - eexists _, _, _. split; [reflexivity|]. by apply place_step.
  - eexists _, _, _. split; [reflexivity|]. by apply drop_step.
Qed.

Lemma fill_pass_ok rows' : Forall row_bounded rows' -> Forall (fun r => is_Some (chetime_int (gr_chetime r))) rows' ->
  forall rows kept E s, fill_inv rows kept E s -> exists kept' E' s', fill_pass b late rows' s = Some s' /\ fill_inv (rows ++ rows') kept' E' s'.
Proof.
  induction 1 as [|r rows' Hb _ IH]; intros Hc rows kept E s Hi; [rewrite app_nil_r; cbn; eauto|].
  apply Forall_cons in Hc as [Hr Hc]. destruct (fill_step_ok rows kept E s r Hi Hb Hr) as (kept' & E' & s' & Hs & Hi').
  cbn [fill_pass]. rewrite Hs, bind_some. destruct (IH Hc _ _ _ _ Hi') as (k2 & E2 & s2 & H2 & Hi2). rewrite <- app_assoc in Hi2. eauto.
Qed.

Lemma fill_start out : rows_of out = out0 -> fill_inv [] [] [] (mkFS C0 out [] [] 0 0 0).
Proof. intros <-. split; cbn; try done; [by rewrite app_nil_r|constructor|set_solver]. Qed.
End Fill.

(** ** The merged table *)

(** The rows of one interval carry its counters. *)
Definition consistent (fills : list GapRow) : Prop :=
  forall r r', r ∈ fills -> r' ∈ fills -> gap_key r = gap_key r' -> (gr_cum_prev r, gr_cum_next r) = (gr_cum_prev r', gr_cum_next r').

Definition bounds_in (fills : list GapRow) (k : fill_key) : Z * Z :=
  match List.filter (fun r => bool_decide (gap_key r = k)) fills with
  | r :: _ => (gr_cum_prev r, gr_cum_next r)
  | [] => (0, 0)
  end.

Lemma consistent_bounds fills : consistent fills -> Forall (row_bounded (bounds_in fills)) fills.
Proof.
  intros Hc. apply Forall_forall. intros r Hr. unfold row_bounded, bounds_in.
  destruct (List.filter (fun r' => bool_decide (gap_key r' = gap_key r)) fills) as [|r' l] eqn:E.
  - assert (Hin : r ∈ List.filter (fun r' => bool_decide (gap_key r' = gap_key r)) fills) by (apply filter_elem; split; [done|by apply bool_decide_eq_true]).
    rewrite E in Hin. by apply elem_of_nil in Hin.
  - assert (Hin : r' ∈ List.filter (fun r' => bool_decide (gap_key r' = gap_key r)) fills) by (rewrite E; left).
    apply filter_elem in Hin as [Hin Hk%bool_decide_eq_true]. by apply Hc.
Qed.

Record merge_sound (p : Prepared) (ticks : list LiveTick) (rows : list OutRow) (live filled deduped overfill : Z)
    (kept : list GapRow) (E : list OutRow) : Prop := {
  mo_rows : rows = map live_row ticks ++ E;
  mo_live : live = zlen ticks /\ live = pp_received p;
  mo_kept : kept `sublist_of` pp_fills p;
  mo_placed : Forall2 placed_at kept E;
  mo_once : NoDup (map out_key E);
  mo_fresh : Forall (fun e => out_key e ∉ map tick_key ticks) E;
  mo_total : zlen E = filled /\ filled + deduped + overfill = pp_recovered p
}.

Definition readable (p : Prepared) (ticks : list LiveTick) : Prop :=
  Forall (fun t => is_Some (chetime_int (lt_chetime t))) ticks /\
  Forall (fun r => is_Some (chetime_int (gr_chetime r))) (pp_fills p) /\ consistent (pp_fills p).

(** What the passes leave behind, next to what the table holds. *)
Lemma passes_ok b p ticks : readable p ticks -> zlen (pp_fills p) = pp_recovered p ->
  exists live f kept E, live_pass b (gap_ranges (pp_fills p)) ticks (mkLS ∅ [] ([], []) 0) = Some live /\
    fill_pass b (ls_late live) (pp_fills p) (mkFS (ls_counters live) (ls_out live) [] [] 0 0 0) = Some f /\
    Forall (late_of ticks) (ls_late live) /\ ls_rows live = zlen ticks /\ ls_counters live = list_to_set (map tick_key ticks) /\
    fill_inv (ls_late live) (bounds_in (pp_fills p)) (list_to_set (map tick_key ticks)) (map live_row ticks) (pp_fills p) kept E f /\
    (zlen ticks = pp_received p -> merge_sound p ticks (rows_of (fi_out f)) (zlen ticks) (fi_filled f) (fi_deduped f) (fi_overfill f) kept E).
Proof.
  intros (Ht & Hf & Hc) Hlen. destruct (live_pass_ok b (gap_ranges (pp_fills p)) ticks Ht (mkLS ∅ [] ([], []) 0))
    as (live & late & Hl & Hout & Hrows & Hcnt & Hlate & Hof). cbn in Hout, Hrows, Hcnt, Hlate. rewrite union_empty_r_L in Hcnt.
  destruct (fill_pass_ok b (ls_late live) (bounds_in (pp_fills p)) (list_to_set (map tick_key ticks)) (map live_row ticks) (pp_fills p)
    (consistent_bounds _ Hc) Hf [] [] [] (mkFS (ls_counters live) (ls_out live) [] [] 0 0 0)) as (kept & E & f & Hfp & Hi).
  { rewrite Hcnt. by apply fill_start. }
  exists live, f, kept, E. cbn [app] in Hi. split_and!; try done; [by rewrite Hlate|]. intros Hrec. split.
  - apply Hi.
  - done.
  - apply Hi.
  - apply Hi.
  - apply Hi.
  - eapply Forall_impl; [apply Hi|]. intros e He Hin. apply He. by apply elem_of_list_to_set.
  - split; [apply Hi|]. rewrite (fv_total _ _ _ _ _ _ _ _ Hi). done.
Qed.

(** C15. The merge of readable rows always ends. It refuses when the rows are not as
    many as the report says, when the live trades are not as many as the audit says,
    or when too many rows found no counter; otherwise the table is every live trade in
    journal order followed by gap-fill rows in order, each on a counter strictly inside
    its gap that no live trade and no other row has, and every row it leaves out is
    counted as a repetition of a late trade or as one too many. *)
Theorem merge_sound_table b tolerance p ticks h : readable p ticks -> float_of_int (zlen (pp_fills p)) = Ok h ->
  exists m, merge_rows b tolerance p ticks = Some m /\
  match m with
  | M_mismatch gapfill_rows_ne_recovered _ _ _ => zlen (pp_fills p) <> pp_recovered p
  | M_mismatch live_rows_ne_received live _ _ => live = zlen ticks /\ live <> pp_received p
  | M_mismatch overfill_over_tolerance live deduped overfill =>
      live = pp_received p /\ int_gt_float overfill (fmul tolerance h) = true /\ deduped + overfill <= pp_recovered p
  | M_table rows live filled deduped overfill =>
      (exists kept E, merge_sound p ticks rows live filled deduped overfill kept E) /\ int_gt_float overfill (fmul tolerance h) = false
  end.
Proof.
  intros Hr Hh. unfold merge_rows. destruct (zlen (pp_fills p) =? pp_recovered p) eqn:E1; bprop; cbn [negb]; [|eexists; split; [reflexivity|done]].
  destruct (passes_ok b p ticks Hr E1) as (live & f & kept & E & Hl & Hf & _ & Hn & _ & Hi & Hs). rewrite Hl, bind_some, Hn.
  destruct (zlen ticks =? pp_received p) eqn:E2; bprop; cbn [negb]; [|eexists; split; [reflexivity|by split]].
  rewrite Hf, bind_some. unfold over_tolerance. rewrite Hh, bind_some. specialize (Hs E2). pose proof (mo_total _ _ _ _ _ _ _ _ _ Hs) as [Hz Ht].
  destruct (int_gt_float _ _) eqn:E3; eexists; (split; [reflexivity|]).
  - split_and!; [done|done|]. unfold zlen in *. lia.
  - split; [|done]. exists kept, E. done.
Qed.

(** ** Closed gaps *)

(** The counters of the gap of [r] that no live trade has. *)
Definition free_counters (ticks : list LiveTick) (r : GapRow) : list Z :=
  List.filter (fun c => negb (bool_decide ((gr_symbol r, c) ∈ map tick_key ticks))) (seqZ (gr_cum_prev r + 1) (gr_cum_next r - gr_cum_prev r - 1)).

(** A live trade with the second, price and volume of a row. *)
Definition twins (t : LiveTick) (r : GapRow) : Prop :=
  chetime_int (lt_chetime t) = chetime_int (gr_chetime r) /\ lt_price t = gr_price r /\ lt_volume t = gr_volume r.

Definition in_gap_of (r : GapRow) (t : LiveTick) : Prop := lt_symbol t = gr_symbol r /\ gr_cum_prev r < lt_cum t < gr_cum_next r.

Lemma late_in_ticks ticks late bounds k x : Forall (late_of ticks) late -> x ∈ late_in late bounds k ->
  exists t, t ∈ ticks /\ lt_symbol t = fst k /\ fst (bounds k) < lt_cum t < snd (bounds k) /\
    chetime_int (lt_chetime t) = Some (fst (fst x)) /\ lt_price t = snd (fst x) /\ lt_volume t = snd x.
Proof.
  intros Hl (e & -> & [He Hf]%filter_elem)%list_elem_of_fmap. rewrite Forall_forall in Hl.
  destruct (Hl e He) as (t & Ht & Hk & Hc & Hp & Hv). bprop. rewrite Hk in *. unfold tick_key in *. cbn [fst snd] in *. exists t. by split_and!.
Qed.

Lemma placed_gap kept E e : Forall2 placed_at kept E -> e ∈ E ->
  exists r, r ∈ kept /\ out_gap e = gap_key r /\ or_symbol e = gr_symbol r /\ gr_cum_prev r < or_cum e < gr_cum_next r.
Proof.
  intros HF [i Hi]%list_elem_of_lookup. destruct (Forall2_lookup_r _ _ _ _ _ HF Hi) as (r & Hr & slot & -> & Hs).
  exists r. split_and!; [by eapply list_elem_of_lookup_2|done|done|apply Hs|apply Hs].
Qed.

Lemma NoDup_subset_length {A} `{EqDecision A} (l k : list A) : NoDup l -> (forall x, x ∈ l -> x ∈ k) -> (length l <= length k)%nat.
Proof. intros Hn Hs. apply submseteq_length. by apply NoDup_submseteq. Qed.

(** The rows placed in a gap leave a counter free that is not in the table. *)
Lemma placed_leave_free p ticks rows live filled deduped overfill kept E r c :
  merge_sound p ticks rows live filled deduped overfill kept E -> consistent (pp_fills p) -> r ∈ pp_fills p ->
  gr_cum_prev r < c < gr_cum_next r -> (gr_symbol r, c) ∉ map tick_key ticks -> (gr_symbol r, c) ∉ map out_key E ->
  (length (List.filter (fun e => bool_decide (out_gap e = gap_key r)) E) < length (free_counters ticks r))%nat.
Proof.
  intros Hs Hcons Hin Hc Hy1 Hy2. set (k := gap_key r).
  set (mine := List.filter (fun e => bool_decide (out_gap e = k)) E).
  enough (length (c :: map or_cum mine) <= length (free_counters ticks r))%nat as Hlen by (cbn [length] in Hlen; rewrite length_map in Hlen; lia).
  apply NoDup_subset_length.
  - assert (Hsym : forall e, e ∈ mine -> or_symbol e = gr_symbol r).
    { intros e [_ He%bool_decide_eq_true]%filter_elem. by injection He. }
    apply NoDup_cons. split.
    + intros (e & -> & He)%list_elem_of_fmap. apply Hy2. apply list_elem_of_fmap. exists e. split; [unfold out_key; by rewrite (Hsym e He)|].
      by apply filter_elem in He as [? _].
    + eapply NoDup_fmap_1 with (f := pair (gr_symbol r)). change (pair (gr_symbol r) <$> map or_cum mine) with (map (pair (gr_symbol r)) (map or_cum mine)).
      rewrite map_map. assert (map (fun e => (gr_symbol r, or_cum e)) mine = map out_key mine) as ->.
      { apply map_ext_in. intros e He%list_elem_of_In. unfold out_key. by rewrite (Hsym e He). }
      eapply sublist_NoDup; [apply Hs|]. apply sublist_map, filter_sublist.
  - intros x Hx. unfold free_counters. apply filter_elem. rewrite elem_of_seqZ. apply elem_of_cons in Hx as [->|Hx].
    + split; [lia|]. by rewrite bool_decide_false.
    + apply list_elem_of_fmap in Hx as (e & -> & [He Hk%bool_decide_eq_true]%filter_elem).
      destruct (placed_gap kept E e (mo_placed _ _ _ _ _ _ _ _ _ Hs) He) as (r' & Hr' & Hk' & Hsym & Hcr).
      assert (Hr'' : r' ∈ pp_fills p) by (eapply elem_of_sublist; [exact Hr'|apply Hs]).
      assert (Heq : gap_key r' = gap_key r) by (by rewrite <- Hk', Hk). injection (Hcons r' r Hr'' Hin Heq) as Hb1 Hb2. split; [lia|].
      rewrite bool_decide_false; [done|]. pose proof (mo_fresh _ _ _ _ _ _ _ _ _ Hs) as Hfr. rewrite Forall_forall in Hfr.
      intros Hbad. apply (Hfr e He). unfold out_key. rewrite Hsym. by injection Heq as -> _.
Qed.

(** A gap with at least as many gap-fill rows as counters that no live trade has
    is closed by the merge, provided no row of it repeats a live trade inside it: every
    counter of the gap is in the table. *)
Theorem gap_closed b tolerance p ticks rows live filled deduped overfill r c :
  readable p ticks -> merge_rows b tolerance p ticks = Some (M_table rows live filled deduped overfill) ->
  r ∈ pp_fills p ->
  (forall t r', t ∈ ticks -> r' ∈ pp_fills p -> gap_key r' = gap_key r -> in_gap_of r' t -> ~ twins t r') ->
  zlen (free_counters ticks r) <= of_gap gap_key (gap_key r) (pp_fills p) ->
  gr_cum_prev r < c < gr_cum_next r -> (gr_symbol r, c) ∈ map out_key rows.
Proof.
  intros Hr Hm Hin Hno Hmany Hc. pose proof Hr as (_ & Hparse & Hcons). pose proof (consistent_bounds _ Hcons) as Hb. rewrite Forall_forall in Hb.
  unfold merge_rows in Hm. destruct (zlen (pp_fills p) =? pp_recovered p) eqn:E1; bprop; cbn [negb] in Hm; [|done].
  destruct (passes_ok b p ticks Hr E1) as (ls & f & kept & E & Hl & Hf & Hlate & Hn & Hcnt & Hi & Hs). rewrite Hl, bind_some, Hn in Hm.
  destruct (zlen ticks =? pp_received p) eqn:E2; bprop; cbn [negb] in Hm; [|done]. rewrite Hf, bind_some in Hm.
  destruct (over_tolerance _ _ _) as [over|]; [rewrite bind_some in Hm|done]. destruct over; [done|]. injection Hm as <- <- <- <- <-.
  specialize (Hs E2). fold (rows_of (fi_out f)). rewrite (mo_rows _ _ _ _ _ _ _ _ _ Hs), map_app. set (k := gap_key r) in *.
  destruct (decide ((gr_symbol r, c) ∈ map tick_key ticks ++ map out_key E)) as [Hy|Hy].
  { assert (map out_key (map live_row ticks) = map tick_key ticks) as ->; [|done]. rewrite map_map. by apply map_ext. }
  exfalso. apply not_elem_of_app in Hy as [Hy1 Hy2].
  assert (Hall : of_gap gap_key k (pp_fills p) = of_gap out_gap k E).
  { apply (fv_room _ _ _ _ _ _ _ _ Hi).
    - exists c. unfold k. rewrite (Hb r Hin). split; [done|]. rewrite (fv_counters _ _ _ _ _ _ _ _ Hi). cbn [fst gap_key]. set_solver.
    - intros r' c' Hr' Hk' Hc' Hlat. destruct (late_in_ticks ticks _ _ _ _ Hlate Hlat) as (t & Ht & Hsym & Hcum & Hch & Hpr & Hv).
      apply (Hno t r' Ht Hr' Hk'); [|by split_and!; [rewrite Hch, Hc'|..]]. rewrite <- Hk', (Hb r' Hr') in Hcum. split; [|done].
      rewrite Hsym, <- Hk'. done. }
  pose proof (placed_leave_free p ticks _ _ _ _ _ kept E r c Hs Hcons Hin Hc Hy1 Hy2) as Hlen. fold k in Hlen.
  unfold of_gap in Hall, Hmany. unfold zlen in *. lia.
Qed.

(** ** A gap of three counters, one of them filled late *)

Definition demo_tick (second : string) (price volume cum : Z) : LiveTick := mkLive "005930" second price volume cum 0.
Definition demo_ticks : list LiveTick := [demo_tick "090000" 100 1 10; demo_tick "090003" 100 1 14; demo_tick "090002" 103 4 12].
Definition demo_fill (second : string) (price volume seq : Z) : GapRow := mkRow "005930" second price volume seq 0 10 14 "kiwoom" "gapfill:kiwoom_tape".
Definition demo_prepared : Prepared :=
  mkPrepared "sha" 5 3 "trades_received" 2 None 2 0 [demo_fill "090001" 101 2 1; demo_fill "090002" 102 3 2].

Lemma demo_readable : readable demo_prepared demo_ticks.
Proof.
  split_and!; [repeat constructor; by eexists|repeat constructor; by eexists|]. intros r r' Hr Hr' _.
  cbn [pp_fills demo_prepared] in Hr, Hr'. rewrite !elem_of_cons, elem_of_nil in Hr. rewrite !elem_of_cons, elem_of_nil in Hr'.
  by destruct Hr as [->|[->|[]]], Hr' as [->|[->|[]]].
Qed.

Lemma merge_sound_table_witness : exists rows kept E, merge_rows 2 (float_lit 2 2) demo_prepared demo_ticks = Some (M_table rows 3 2 0 0) /\
  merge_sound demo_prepared demo_ticks rows 3 2 0 0 kept E /\ map out_key E = [("005930", 11); ("005930", 13)].
Proof.
  destruct (merge_sound_table 2 (float_lit 2 2) demo_prepared demo_ticks (round_z 2 0 false) demo_readable eq_refl) as (m & Hm & Hs).
  assert (E : exists rows, merge_rows 2 (float_lit 2 2) demo_prepared demo_ticks = Some (M_table rows 3 2 0 0) /\ map out_key rows = [("005930", 10); ("005930", 14); ("005930", 12); ("005930", 11); ("005930", 13)])
    by (eexists; split; vm_compute; reflexivity).
  destruct E as (rows & Er & Ek). rewrite Er in Hm. injection Hm as <-. destruct Hs as [(kept & E & Hs) _]. exists rows, kept, E. split; [exact Er|]. split; [exact Hs|].
  rewrite (mo_rows _ _ _ _ _ _ _ _ _ Hs), map_app in Ek. cbn in Ek. by injection Ek.
Defined.

Lemma gap_closed_witness : exists rows, merge_rows 2 (float_lit 2 2) demo_prepared demo_ticks = Some (M_table rows 3 2 0 0) /\
  ("005930", 13) ∈ map out_key rows.
Proof.
  destruct (merge_rows 2 (float_lit 2 2) demo_prepared demo_ticks) as [[reason live deduped overfill|rows live filled deduped overfill]|] eqn:Em;
    [exfalso; vm_compute in Em; discriminate Em| |exfalso; vm_compute in Em; discriminate Em].
  exists rows. split.
  - assert (H : live = 3 /\ filled = 2 /\ deduped = 0 /\ overfill = 0) by (vm_compute in Em; injection Em as <- <- <- <- <-; split_and!; reflexivity).
    destruct H as (-> & -> & -> & ->). reflexivity.
  - refine (gap_closed 2 (float_lit 2 2) demo_prepared demo_ticks rows live filled deduped overfill (demo_fill "090001" 101 2 1) 13 demo_readable Em _ _ _ _).
    + left.
    + intros t r' Ht Hr' _ Hin (Htw & Hp & Hv). unfold demo_ticks in Ht. rewrite !elem_of_cons, elem_of_nil in Ht.
      cbn [pp_fills demo_prepared] in Hr'. rewrite !elem_of_cons, elem_of_nil in Hr'. destruct Hr' as [->|[->|[]]], Ht as [->|[->|[->|[]]]]; cbn in Hp, Hv; discriminate.
    + apply Z.leb_le. vm_compute. reflexivity.
    + cbn. lia.
Defined.
