(* ===== verification/RepairTopup.v ===== *)
(** * The top-up of the repaired table

    Which tape trades the top-up adds: trades the table has too few of, each on a
    counter the table does not use, between rows whose seconds bracket the trade's. *)
From stdpp Require Import gmap.
From Stdlib Require Import SpecFloat.
From S2P Require Import Prelude PyStr PyTime PyFloat ExecJournal MarketPhase SeqSet L0Decode LossLedger PyColl Gapfill GapfillFacts GapfillProps GapfillPeers FillDay RepairMerge RepairMergeFacts.

(** ** Trades not used yet *)

Definition left_over (trades : list topup_trade) (used : list bool) : list topup_trade :=
  map fst (List.filter (fun e => negb (snd e)) (zip trades used)).

Lemma left_over_take trades : forall used i t, trades !! i = Some t -> used !! i = Some false ->
  left_over trades used ≡ₚ t :: left_over trades (<[i := true]> used).
Proof.
  induction trades as [|x trades IH]; intros [|u used] [|i] t Ht Hu; try done.
  - injection Ht as ->. injection Hu as ->. done.
  - cbn in Ht, Hu. cbn [list_insert insert]. unfold left_over in *. cbn [zip zip_with List.filter snd map fst]. specialize (IH used i t Ht Hu).
    destruct (negb u); cbn [map fst]; [|done]. rewrite IH. apply perm_swap.
Qed.

Lemma left_over_count trades : forall used, length used = length trades -> zlen (left_over trades used) = zlen (List.filter negb used).
Proof.
  unfold left_over, zlen. induction trades as [|x trades IH]; intros [|u used] Hl; try done.
  cbn [zip zip_with List.filter snd]. injection Hl as Hl. specialize (IH used Hl). rewrite length_map in *. destruct u; cbn [negb length]; lia.
Qed.

Lemma left_over_all trades : left_over trades (replicate (length trades) false) = trades.
Proof. unfold left_over. induction trades as [|x trades IH]; [done|]. cbn. by rewrite IH. Qed.

(** ** One gap *)

Record placing (trades : list topup_trade) (used used' : list bool) (placed : list (topup_trade * Z)) : Prop := {
  pl_length : length used' = length used;
  pl_split : left_over trades used ≡ₚ map fst placed ++ left_over trades used'
}.

Lemma place_trades_ok n trades hi t_next : forall index slot used, length used = length trades ->
  let '(used', placed) := place_trades n trades hi t_next index slot used in
  placing trades used used' placed /\ map snd placed = seqZ slot (zlen placed) /\
  Forall (fun e => snd e < hi /\ topup_second (fst e) <= t_next /\ exists i, (index <= i)%nat /\ trades !! i = Some (fst e)) placed.
Proof.
  assert (Hnone : forall slot used, placing trades used used [] /\ map snd ([] : list (topup_trade * Z)) = seqZ slot (zlen ([] : list (topup_trade * Z))) /\
    forall P : topup_trade * Z -> Prop, Forall P []).
  { intros slot used. split_and!; [by split|done|constructor]. }
  induction n as [|n IH]; intros index slot used Hl; cbn [place_trades].
  { destruct (Hnone slot used) as (H1 & H2 & H3). split_and!; auto. }
  destruct (trades !! index) as [t|] eqn:Et; [|destruct (Hnone slot used) as (H1 & H2 & H3); split_and!; auto].
  destruct ((slot <? hi) && _) eqn:Eb; [|destruct (Hnone slot used) as (H1 & H2 & H3); split_and!; auto]. bprop.
  destruct (is_used used index) eqn:Eu.
  - specialize (IH (S index) slot used Hl). destruct (place_trades n trades hi t_next (S index) slot used) as [used' placed].
    destruct IH as (H1 & H2 & H3). split_and!; [done|done|]. eapply Forall_impl; [exact H3|].
    intros e (Ha & Hb & i & Hi & He). split_and!; [done|done|]. exists i. split; [lia|done].
  - assert (Hu : used !! index = Some false).
    { destruct (lookup_lt_is_Some_2 used index) as [u Hu]; [rewrite Hl; by eapply lookup_lt_Some|]. unfold is_used in Eu. rewrite Hu in Eu |- *.
      cbn in Eu. unfold id in Eu. by rewrite Eu. }
    assert (Hl' : length (<[index := true]> used) = length trades) by (by rewrite length_insert).
    specialize (IH (S index) (slot + 1) _ Hl'). destruct (place_trades n trades hi t_next (S index) (slot + 1) (<[index := true]> used)) as [used' placed].
    destruct IH as ([H1 H1'] & H2 & H3). split_and!.
    + split; [by rewrite H1, length_insert|]. cbn [map fst app]. rewrite (left_over_take trades used index t Et Hu). by rewrite H1'.
    + cbn [map snd]. rewrite H2. unfold zlen. cbn [length]. rewrite Nat2Z.inj_succ, (seqZ_cons slot) by lia. f_equal. f_equal; lia.
    + constructor; [cbn; split_and!; [lia|lia|by exists index]|]. eapply Forall_impl; [exact H3|].
      intros e (Ha & Hb & i & Hi & He). split_and!; [done|done|]. exists i. split; [lia|done].
Qed.

Lemma skip_trades_ok n trades used t_prev : forall pointer, (length trades <= n + pointer)%nat ->
  let p := skip_trades n trades used t_prev pointer in forall t, trades !! p = Some t -> t_prev <= topup_second t.
Proof.
  induction n as [|n IH]; intros pointer Hn; cbn [skip_trades]; cbv zeta.
  { intros t Ht%lookup_lt_Some. lia. }
  destruct (trades !! pointer) as [t|] eqn:Et; [|intros t Ht; congruence].
  destruct (is_used used pointer || _) eqn:Eb; [apply IH; lia|]. intros t' Ht'. rewrite Et in Ht'. injection Ht' as <-.
  apply orb_false_iff in Eb as [_ Eb]. lia.
Qed.

(** ** All gaps of a symbol *)

Definition gap_before (g g' : Gap) : Prop := gp_hi g <= gp_lo g'.
Definition in_time (t t' : topup_trade) : Prop := topup_second t <= topup_second t'.

(** The trade on a counter of the gap, between the seconds around it. *)
Definition fits (g : Gap) (e : topup_trade * Z) : Prop :=
  gp_lo g < snd e < gp_hi g /\ gp_t_prev g <= topup_second (fst e) <= gp_t_next g.

Lemma place_gaps_ok trades gaps : StronglySorted in_time trades -> StronglySorted gap_before gaps -> forall pointer used, length used = length trades ->
  let '(used', placed) := place_gaps trades gaps pointer used in
  placing trades used used' placed /\ NoDup (map snd placed) /\ Forall (fun e => exists g, g ∈ gaps /\ fits g e) placed.
Proof.
  intros Hs. induction 1 as [|g gaps Hss IH Hg]; intros pointer used Hl; cbn [place_gaps].
  { split_and!; [by split|constructor|constructor]. }
  pose proof (skip_trades_ok (length trades) trades used (gp_t_prev g) pointer ltac:(lia)) as Hskip.
  set (p := skip_trades (length trades) trades used (gp_t_prev g) pointer) in *. clearbody p. cbv zeta in Hskip.
  pose proof (place_trades_ok (length trades) trades (gp_hi g) (gp_t_next g) p (gp_lo g + 1) used Hl) as H1.
  destruct (place_trades (length trades) trades (gp_hi g) (gp_t_next g) p (gp_lo g + 1) used) as [used1 placed1]. destruct H1 as ([Hl1 Hp1] & Hseq & Hf1).
  specialize (IH p used1 ltac:(by rewrite Hl1)). destruct (place_gaps trades gaps p used1) as [used2 placed2]. destruct IH as ([Hl2 Hp2] & Hn2 & Hf2).
  assert (Hfit : Forall (fun e => fits g e) placed1).
  { apply Forall_forall. intros e He. rewrite Forall_forall in Hf1. destruct (Hf1 e He) as (Hhi & Ht & i & Hi & Hti).
    assert (Hlo : snd e ∈ seqZ (gp_lo g + 1) (zlen placed1)) by (rewrite <- Hseq; apply list_elem_of_fmap; eauto).
    apply elem_of_seqZ in Hlo. split; [lia|]. split; [|done].
    destruct (lookup_lt_is_Some_2 trades p) as [t0 Ht0]; [apply lookup_lt_Some in Hti; lia|]. specialize (Hskip t0 Ht0).
    destruct (decide (p = i)) as [->|]; [rewrite Hti in Ht0; injection Ht0 as <-; lia|].
    pose proof (strongly_sorted_lookup in_time trades p i t0 (fst e) Hs ltac:(lia) Ht0 Hti) as Hle. unfold in_time in Hle. lia. }
  split_and!.
  - split; [by rewrite Hl2|]. rewrite map_app, <- app_assoc, Hp1. by rewrite Hp2.
  - rewrite map_app. apply NoDup_app. split_and!; [rewrite Hseq; apply NoDup_seqZ| |done].
    intros x (e & -> & He)%list_elem_of_fmap (e' & Ee & He')%list_elem_of_fmap. rewrite Forall_forall in Hfit. rewrite Forall_forall in Hf2. rewrite Forall_forall in Hg.
    destruct (Hfit e He) as [Hr _]. destruct (Hf2 e' He') as (g' & Hg' & Hr' & _). specialize (Hg g' Hg'). unfold gap_before in Hg. lia.
  - apply Forall_app. split; [eapply Forall_impl; [exact Hfit|]|eapply Forall_impl; [exact Hf2|]].
    + intros e He. exists g. split; [by left|done].
    + intros e (g' & Hg' & He). exists g'. split; [by right|done].
Qed.

(** ** The gaps of a table *)

Lemma unique_cum_sublist rows : forall seen, unique_cum seen rows `sublist_of` rows.
Proof. induction rows as [|r rows IH]; intros seen; cbn; [done|]. case_decide; by constructor. Qed.

Lemma unique_cum_nodup rows : forall seen, NoDup (map tm_cum (unique_cum seen rows)) /\ Forall (fun r => tm_cum r ∉ seen) (unique_cum seen rows).
Proof.
  induction rows as [|r rows IH]; intros seen; cbn [unique_cum]; [split; constructor|]. case_decide as Hd; [apply IH|].
  destruct (IH (tm_cum r :: seen)) as [H1 H2]. split.
  - cbn [map]. apply NoDup_cons. split; [|done]. intros (q & Eq & Hq)%list_elem_of_fmap. rewrite Forall_forall in H2. apply (H2 q Hq).
    rewrite Eq. by left.
  - constructor; [done|]. eapply Forall_impl; [exact H2|]. intros q Hq Hin. apply Hq. by right.
Qed.

Lemma unique_cum_all rows r : forall seen, r ∈ rows -> tm_cum r ∈ seen \/ tm_cum r ∈ map tm_cum (unique_cum seen rows).
Proof.
  induction rows as [|q rows IH]; intros seen Hin; [by apply elem_of_nil in Hin|]. cbn [unique_cum]. case_decide as Hd.
  - apply elem_of_cons in Hin as [->|Hin]; [by left|by apply IH].
  - cbn [map]. rewrite elem_of_cons. apply elem_of_cons in Hin as [->|Hin]; [right; by left|].
    destruct (IH (tm_cum q :: seen) Hin) as [[->|?]%elem_of_cons|?]; auto.
Qed.

Definition cum_lt (a b : TimedRow) : Prop := tm_cum a < tm_cum b.

Lemma strict_sorted rows : StronglySorted (fun a b => tm_cum a <= tm_cum b) rows -> NoDup (map tm_cum rows) -> StronglySorted cum_lt rows.
Proof.
  induction 1 as [|r rows _ IH Hf]; intros Hn; [constructor|]. cbn [map] in Hn. apply NoDup_cons in Hn as [Hni Hn]. constructor; [by apply IH|].
  apply Forall_forall. intros q Hq. rewrite Forall_forall in Hf. specialize (Hf q Hq). unfold cum_lt.
  destruct (decide (tm_cum r = tm_cum q)) as [E|]; [|lia]. exfalso. apply Hni. rewrite E. apply list_elem_of_fmap. eauto.
Qed.

Record gap_of (rows : list TimedRow) (lo t : Z) (g : Gap) : Prop := {
  go_free : forall c, gp_lo g < c < gp_hi g -> c ∉ map tm_cum rows;
  go_above : exists r, r ∈ rows /\ tm_cum r = gp_hi g /\ tm_s r = gp_t_next g;
  go_below : (gp_lo g = lo /\ gp_t_prev g = t) \/ exists r, r ∈ rows /\ tm_cum r = gp_lo g /\ tm_s r = gp_t_prev g
}.

Lemma gaps_from_ge rows : StronglySorted cum_lt rows -> forall lo t, Forall (fun r => lo < tm_cum r) rows ->
  Forall (fun g => lo <= gp_lo g) (gaps_from lo t rows).
Proof.
  induction 1 as [|r rows _ IH Hf]; intros lo t Hlo; cbn [gaps_from]; [constructor|]. apply Forall_cons in Hlo as [Hr Hlo].
  apply Forall_app. split; [destruct (_ <? _); repeat constructor; cbn; lia|].
  eapply Forall_impl; [apply IH; exact Hf|]. intros g Hg. cbn in Hg. lia.
Qed.

Lemma gaps_from_ok rows : StronglySorted cum_lt rows -> forall lo t,
  StronglySorted gap_before (gaps_from lo t rows) /\ Forall (gap_of rows lo t) (gaps_from lo t rows).
Proof.
  induction 1 as [|r rows Hs IH Hf]; intros lo t; cbn [gaps_from]; [split; constructor|].
  destruct (IH (tm_cum r) (tm_s r)) as [H1 H2]. pose proof (gaps_from_ge rows Hs (tm_cum r) (tm_s r) Hf) as Hge. split.
  - destruct (_ <? _); [|done]. cbn [app]. constructor; [done|]. eapply Forall_impl; [exact Hge|]. intros g Hg. cbn in Hg. unfold gap_before. cbn. lia.
  - apply Forall_app. split.
    + destruct (_ <? _); [|constructor]. constructor; [|constructor]. split; cbn.
      * intros c Hc [->|(q & -> & Hq)%list_elem_of_fmap]%elem_of_cons; [lia|]. rewrite Forall_forall in Hf. specialize (Hf q Hq). unfold cum_lt in Hf. lia.
      * exists r. split_and!; [by left|done|done].
      * by left.
    + rewrite Forall_forall in H2, Hge. apply Forall_forall. intros g Hg. specialize (Hge g Hg). destruct (H2 g Hg) as [G1 (q & Hq & Hq') G3]. split.
      * intros c Hc [->|Hin]%elem_of_cons; [lia|]. by apply (G1 c).
      * exists q. split; [by right|done].
      * right. destruct G3 as [[-> ->]|(q' & Hq1 & Hq2)]; [exists r; split_and!; [by left|done|done]|exists q'; split; [by right|done]].
Qed.

Lemma py_sorted_id {A} (leb : A -> A -> bool) l : StronglySorted (fun a b => leb a b = true) l -> py_sorted leb l = l.
Proof.
  induction 1 as [|x l _ IH Hf]; [done|]. cbn [py_sorted fold_right]. fold (py_sorted leb l). rewrite IH. destruct l as [|y l]; [done|]. cbn.
  apply Forall_cons in Hf as [-> _]. done.
Qed.

(** The rows of a symbol. *)
Definition of_symbol (table : list TimedRow) (y : string) : list TimedRow := List.filter (fun r => bool_decide (tm_symbol r = y)) table.

Lemma ss_impl {A} (R S : A -> A -> Prop) l : (forall a b, R a b -> S a b) -> StronglySorted R l -> StronglySorted S l.
Proof. intros Hi H. rewrite <- (map_id l). by apply (strongly_sorted_map R S). Qed.

Lemma cum_sorted l : StronglySorted (fun a b => tm_cum a <= tm_cum b) (py_sorted cum_leb l).
Proof.
  apply (ss_impl (fun a b => cum_leb a b = true)); [intros a b; apply Z.leb_le|]. apply py_sorted_strong; unfold cum_leb; intros; rewrite ?Z.leb_le in *; lia.
Qed.

Lemma gaps_of_ok table y : StronglySorted gap_before (gaps_of table y) /\ Forall (gap_of (of_symbol table y) 0 0) (gaps_of table y).
Proof.
  unfold gaps_of. fold (of_symbol table y). set (sorted := py_sorted cum_leb (of_symbol table y)). set (rows := unique_cum [] sorted).
  assert (Hs : StronglySorted cum_lt rows).
  { apply strict_sorted; [|apply unique_cum_nodup]. eapply strongly_sorted_sublist; [apply unique_cum_sublist|apply cum_sorted]. }
  destruct (gaps_from_ok rows Hs 0 0) as [H1 H2].
  assert (Hlt : Forall (fun g => gp_lo g <= gp_hi g) (gaps_from 0 0 rows)).
  { clear. generalize 0 at 1 as lo. generalize 0 as t. induction rows as [|r l IH]; intros t lo; cbn [gaps_from]; [constructor|].
    apply Forall_app. split; [|apply IH]. destruct (_ <? _) eqn:E; repeat constructor. cbn. bprop. lia. }
  rewrite py_sorted_id.
  - split; [done|]. eapply Forall_impl; [exact H2|]. intros g [G1 (r & Hr & Hr') G3].
    assert (Hsub : forall q, q ∈ rows -> q ∈ of_symbol table y).
    { intros q Hq. apply (py_sorted_elem cum_leb). eapply elem_of_sublist; [exact Hq|apply unique_cum_sublist]. }
    split; [|exists r; split; [by apply Hsub|done]|destruct G3 as [G3|(q & Hq & Hq')]; [by left|right; exists q; split; [by apply Hsub|done]]].
    intros c Hc (q & -> & Hq)%list_elem_of_fmap. apply (G1 _ Hc). apply (py_sorted_elem cum_leb) in Hq.
    destruct (unique_cum_all sorted q [] Hq) as [Hn|Hn]; [by apply elem_of_nil in Hn|done].
  - clear -H1 Hlt. induction H1 as [|g l _ IH Hf]; [constructor|]. apply Forall_cons in Hlt as [Hg Hlt]. constructor; [by apply IH|].
    eapply Forall_impl; [exact Hf|]. intros g' Hg'. unfold gap_before in Hg'. apply Z.leb_le. lia.
Qed.

(** ** One symbol *)

Lemma topup_leb_total a b : topup_leb a b = true \/ topup_leb b a = true.
Proof. destruct a as [[[s q] p] v], b as [[[s' q'] p'] v']. cbn. rewrite !orb_true_iff, !andb_true_iff, !orb_true_iff, !andb_true_iff, !orb_true_iff, !andb_true_iff, !Z.ltb_lt, !Z.eqb_eq, !Z.leb_le. lia. Qed.

Lemma topup_leb_trans a b c : topup_leb a b = true -> topup_leb b c = true -> topup_leb a c = true.
Proof.
  destruct a as [[[s q] p] v], b as [[[s' q'] p'] v'], c as [[[s2 q2] p2] v2]. cbn.
  rewrite !orb_true_iff, !andb_true_iff, !orb_true_iff, !andb_true_iff, !orb_true_iff, !andb_true_iff, !Z.ltb_lt, !Z.eqb_eq, !Z.leb_le. lia.
Qed.

Lemma topup_sorted l : StronglySorted in_time (py_sorted topup_leb l).
Proof.
  apply (ss_impl (fun a b => topup_leb a b = true)); [|apply py_sorted_strong; [apply topup_leb_total|apply topup_leb_trans]].
  intros [[[s q] p] v] [[[s' q'] p'] v']. unfold in_time, topup_second. cbn. rewrite orb_true_iff, andb_true_iff, Z.ltb_lt, Z.eqb_eq. lia.
Qed.

(** A symbol and the placing of one of its trades. *)
Abbreviation placement := (string * (topup_trade * Z))%type.

(** Where a trade is placed: a counter the table does not use, between a row before it
    (or the start) and a row after it, in time too. *)
Definition well_placed (table : list TimedRow) (e : placement) : Prop :=
  exists g, gap_of (of_symbol table (fst e)) 0 0 g /\ fits g (snd e).

Record symbol_placed (table : list TimedRow) (y : string) (trades : list topup_trade) (rows : list OutRow) (unplaced : Z)
    (placed : list (topup_trade * Z)) (left : list topup_trade) : Prop := {
  sp_rows : rows = map (topup_row y) placed;
  sp_split : trades ≡ₚ map fst placed ++ left;
  sp_left : unplaced = zlen left;
  sp_once : NoDup (map snd placed);
  sp_well : Forall (fun e => well_placed table (y, e)) placed
}.

Lemma place_symbol_ok table y trades : exists placed left,
  symbol_placed table y trades (fst (place_symbol table (y, trades))) (snd (place_symbol table (y, trades))) placed left.
Proof.
  unfold place_symbol. cbn [fst snd]. set (sorted := py_sorted topup_leb trades). destruct (gaps_of_ok table y) as [Hg Hgo].
  pose proof (place_gaps_ok sorted (gaps_of table y) (topup_sorted trades) Hg 0 (replicate (length sorted) false) (length_replicate _ _)) as H.
  destruct (place_gaps sorted (gaps_of table y) 0 (replicate (length sorted) false)) as [used placed]. destruct H as ([Hl Hsp] & Hn & Hf).
  exists placed, (left_over sorted used). rewrite left_over_all in Hsp. cbn [fst snd]. split; [done| |by rewrite left_over_count by (by rewrite Hl, length_replicate)|done|].
  - rewrite <- Hsp. unfold sorted. by rewrite py_sorted_perm.
  - eapply Forall_impl; [exact Hf|]. intros e (g & Hgin & He). exists g. split; [|done]. rewrite Forall_forall in Hgo. by apply Hgo.
Qed.

(** ** All symbols *)

Definition flat {V} (d : list (string * list V)) : list (string * V) := concat (map (fun e => map (pair (fst e)) (snd e)) d).

Lemma flat_dpush {V} (d : list (string * list V)) k v : flat (dpush d k v) ≡ₚ flat d ++ [(k, v)].
Proof.
  unfold dpush. induction d as [|[k' l] d IH]; [done|]. cbn [dget]. unfold flat in *. cbn [dset map concat fst snd].
  destruct (decide (k = k')) as [->|Hne].
  - cbn [map concat fst snd default from_option]. unfold id. rewrite map_app. cbn [map]. rewrite <- !app_assoc.
    apply Permutation_app_head. cbn [app]. apply Permutation_cons_append.
  - cbn [map concat fst snd]. by rewrite IH, app_assoc.
Qed.

Lemma group_ok {V} (entries : list (string * V)) : NoDup (dkeys (group entries)) /\ flat (group entries) ≡ₚ entries.
Proof.
  enough (H : forall l d, NoDup (dkeys d) -> NoDup (dkeys (fold_left (fun d e => dpush d (fst e) (snd e)) l d)) /\
    flat (fold_left (fun d e => dpush d (fst e) (snd e)) l d) ≡ₚ flat d ++ l) by (apply (H entries []); constructor).
  induction l as [|e l IH]; intros d Hd; cbn [fold_left]; [by rewrite app_nil_r|].
  destruct (IH (dpush d (fst e) (snd e))) as [H1 H2]; [by apply dkeys_dset_nodup|]. split; [done|]. rewrite H2, flat_dpush, <- app_assoc.
  by destruct e.
Qed.

Record topup_sound (rows : list TapeRec) (table : list TimedRow) (extra : list OutRow) (unplaced : Z)
    (placed : list placement) (left : list (string * topup_trade)) : Prop := {
  tu_rows : extra = map (fun e => topup_row (fst e) (snd e)) placed;
  tu_split : absent_trades rows table ≡ₚ map (fun e => (fst e, fst (snd e))) placed ++ left;
  tu_left : unplaced = zlen left;
  tu_once : NoDup (map (fun e => (fst e, snd (snd e))) placed);
  tu_well : Forall (well_placed table) placed
}.

Lemma place_all_ok table d : NoDup (dkeys d) -> let parts := map (place_symbol table) d in exists placed left,
  concat (map fst parts) = map (fun e : placement => topup_row (fst e) (snd e)) placed /\ zsum (map snd parts) = zlen left /\
  flat d ≡ₚ map (fun e : placement => (fst e, fst (snd e))) placed ++ left /\
  NoDup (map (fun e : placement => (fst e, snd (snd e))) placed) /\ Forall (well_placed table) placed /\ Forall (fun e => fst e ∈ dkeys d) placed.
Proof.
  induction d as [|[y trades] d IH]; intros Hnd; cbv zeta; cbn [map concat].
  { exists [], []. cbn. split_and!; constructor. }
  cbn [dkeys map fst] in Hnd. apply NoDup_cons in Hnd as [Hni Hnd]. destruct (IH Hnd) as (placed & left & H1 & H2 & H3 & H4 & H5 & H6).
  destruct (place_symbol_ok table y trades) as (pl & lf & [E1 E2 E3 E4 E5]).
  exists (map (pair y) pl ++ placed), (map (pair y) lf ++ left). cbn [map concat] in *. split_and!.
  - rewrite E1, H1, map_app, map_map. done.
  - unfold zsum in *. cbn [map fold_right]. rewrite E3, H2. unfold zlen. rewrite length_app, length_map. lia.
  - unfold flat in *. cbn [map concat fst snd]. rewrite H3, E2, !map_app, !map_map. cbn. solve_Permutation.
  - rewrite map_app, map_map. cbn. apply NoDup_app. split_and!; [| |done].
    + rewrite <- (map_map snd (pair y)). apply NoDup_fmap_2; [by intros ? ? [=]|done].
    + intros x (e & -> & He)%list_elem_of_fmap (e' & Ee & He')%list_elem_of_fmap. injection Ee as Ey _. apply Hni.
      rewrite Forall_forall in H6. rewrite Ey. by apply H6.
  - apply Forall_app. split; [|done]. by apply Forall_fmap.
  - apply Forall_app. split; [apply Forall_fmap, Forall_forall; intros; cbn; left|]. eapply Forall_impl; [exact H6|]. intros e He. cbn. by right.
Qed.

(** ** How often a trade is absent *)

Definition entry_key (e : string * topup_trade) : trade_key := let '(s, _, price, volume) := snd e in (fst e, s, price, volume).

Lemma occurrences_map {A K} `{EqDecision K} (f : A -> K) k l : occurrences k (map f l) = zlen (List.filter (fun x => bool_decide (f x = k)) l).
Proof.
  induction l as [|x l IH]; cbn [map List.filter]; [done|]. rewrite occurrences_cons, IH. unfold zlen.
  case_decide; [rewrite bool_decide_true by done|rewrite bool_decide_false by done]; cbn [length]; lia.
Qed.

Lemma occurrences_const {A K} `{EqDecision K} (f : A -> K) k l : (forall x, x ∈ l -> f x = k) -> occurrences k (map f l) = zlen l.
Proof.
  induction l as [|x l IH]; intros H; cbn [map]; [done|]. rewrite occurrences_cons, decide_True by (apply H; left).
  rewrite IH by (intros; apply H; by right). unfold zlen. cbn [length]. lia.
Qed.

Lemma occurrences_none {K} `{EqDecision K} (k : K) l : k ∉ l -> occurrences k l = 0.
Proof.
  induction l as [|x l IH]; intros Hn; [done|]. apply not_elem_of_cons in Hn as [Hx Hl]. rewrite occurrences_cons, decide_False by congruence. by rewrite IH.
Qed.

Definition lacking (rows : list TapeRec) (table : list TimedRow) (k : trade_key) : Z :=
  Z.max 0 (occurrences k (map tape_key rows) - occurrences k (map table_key table)).

Lemma absent_ok rows table k : Forall (fun e => entry_key e = k) (absent rows table k) /\ zlen (absent rows table k) = lacking rows table k.
Proof.
  unfold absent, lacking. rewrite !occurrences_map. destruct k as [[[y s] p] v].
  set (seqs := py_sorted Z.leb _). set (have := zlen (List.filter _ table)). split.
  - apply Forall_fmap, Forall_forall. done.
  - assert (Hl : zlen seqs = zlen (List.filter (fun r => bool_decide (tape_key r = (y, s, p, v))) rows)).
    { unfold seqs, zlen. by rewrite py_sorted_length, length_map. }
    rewrite <- Hl. unfold zlen in *. rewrite length_map, length_take. assert (0 <= have) by (unfold have; lia). lia.
Qed.

Lemma absent_count rows table k : occurrences k (map entry_key (absent_trades rows table)) = lacking rows table k.
Proof.
  unfold absent_trades.
  assert (Hkeys : forall ks, NoDup ks -> occurrences k (map entry_key (concat (map (absent rows table) ks))) = if decide (k ∈ ks) then lacking rows table k else 0).
  { induction ks as [|k0 ks IH]; intros Hnd; [done|]. apply NoDup_cons in Hnd as [Hni Hnd]. cbn [map concat]. rewrite map_app, occurrences_app, IH by done.
    destruct (absent_ok rows table k0) as [Hf Hl]. rewrite Forall_forall in Hf. destruct (decide (k = k0)) as [->|Hne].
    - rewrite (decide_False (P := k0 ∈ ks)), decide_True, (occurrences_const entry_key) by (done || left). lia.
    - rewrite occurrences_none; [|intros (e & -> & He)%list_elem_of_fmap; by apply Hne, Hf].
      destruct (decide (k ∈ ks)); [rewrite decide_True by (by right); lia|rewrite decide_False; [lia|]]. by intros [->|?]%elem_of_cons. }
  rewrite Hkeys by apply fromkeys_nodup. case_decide as Hk; [done|]. rewrite fromkeys_elem in Hk. unfold lacking. rewrite (occurrences_none k (map tape_key rows)) by done.
  pose proof (occurrences_nonneg k (map table_key table)). lia.
Qed.

(** ** The top-up *)

(** The table's rows of the tape's symbols, with their seconds. *)
Definition timed_table (rows : list TapeRec) (merged : list OutRow) : option (list TimedRow) :=
  mapM timed_row (List.filter (fun r => bool_decide (or_symbol r ∈ map tr_symbol rows)) merged).

Lemma topup_ok tape merged table : let rows := load_tape_rows tape (fromkeys (map or_symbol merged)) in
  timed_table rows merged = Some table ->
  exists extra unplaced placed left, apply_tape_topup tape merged = Some (extra, unplaced) /\ topup_sound rows table extra unplaced placed left.
Proof.
  intros rows Ht. unfold apply_tape_topup. fold rows. destruct rows as [|r rows'] eqn:Er.
  { exists [], 0, [], []. split; [done|]. split; cbn; constructor. }
  rewrite <- Er in *. unfold timed_table in Ht. rewrite Ht, bind_some. destruct (group_ok (absent_trades rows table)) as [Hn Hflat].
  destruct (place_all_ok table (group (absent_trades rows table)) Hn) as (placed & left & H1 & H2 & H3 & H4 & H5 & _).
  eexists _, _, placed, left. split; [reflexivity|]. split; [done|by rewrite <- Hflat, H3|done|done|done].
Qed.

Lemma absent_from_tape rows table e : e ∈ absent_trades rows table -> exists r, r ∈ rows /\ tape_key r = entry_key e.
Proof.
  intros (l & Hl & He)%list_elem_of_In%in_concat. apply list_elem_of_In, list_elem_of_fmap in Hl as (k & -> & Hk). apply list_elem_of_In in He.
  destruct (absent_ok rows table k) as [Hf _]. rewrite Forall_forall in Hf. rewrite (Hf e He). apply (proj1 (fromkeys_elem _ _)), list_elem_of_fmap in Hk as (r & -> & Hr). eauto.
Qed.

Lemma timed_table_elem rows merged table m : timed_table rows merged = Some table -> m ∈ merged -> or_symbol m ∈ map tr_symbol rows ->
  exists q, q ∈ table /\ tm_symbol q = or_symbol m /\ tm_cum q = or_cum m.
Proof.
  intros Ht Hm Hs. apply mapM_Some in Ht.
  assert (Hin : m ∈ List.filter (fun r => bool_decide (or_symbol r ∈ map tr_symbol rows)) merged) by (apply filter_elem; split; [done|by apply bool_decide_eq_true]).
  apply list_elem_of_lookup in Hin as [i Hi]. destruct (Forall2_lookup_l _ _ _ _ _ Ht Hi) as (q & Hq & Hqm). apply bind_Some in Hqm as (s & _ & [= <-]).
  eexists. split; [by eapply list_elem_of_lookup_2|done].
Qed.

Definition placed_key (e : placement) : string * Z := (fst e, snd (snd e)).

Lemma topup_row_key e : out_key (topup_row (fst e) (snd e)) = placed_key e.
Proof. by destruct e as [y [[[[s q] p] v] slot]]. Qed.

Section TopupSound.
Context (tape : list TapeRec) (merged : list OutRow) (table : list TimedRow).
Let rows : list TapeRec := load_tape_rows tape (fromkeys (map or_symbol merged)).
Hypothesis (Htable : timed_table rows merged = Some table).
Context (extra : list OutRow) (unplaced : Z) (placed : list placement) (left : list (string * topup_trade)).
Hypothesis (Hsound : topup_sound rows table extra unplaced placed left).

Lemma placed_absent e : e ∈ placed -> (fst e, fst (snd e)) ∈ absent_trades rows table.
Proof using Hsound.
  intros He. rewrite (tu_split _ _ _ _ _ _ Hsound). apply elem_of_app. left. apply list_elem_of_fmap. eauto.
Qed.

Lemma topup_fresh : NoDup (map out_key extra) /\ Forall (fun e => out_key e ∉ map out_key merged) extra.
Proof using Hsound Htable.
  rewrite (tu_rows _ _ _ _ _ _ Hsound), map_map. rewrite (map_ext _ placed_key topup_row_key). split; [apply Hsound|].
  apply Forall_fmap, Forall_forall. intros e He. cbn beta. unfold compose. rewrite topup_row_key. intros (m & Em & Hm)%list_elem_of_fmap. injection Em as Ey Ec.
  destruct (absent_from_tape rows table _ (placed_absent e He)) as (r & Hr & Hrk).
  assert (Hsym : or_symbol m ∈ map tr_symbol rows).
  { rewrite <- Ey. apply list_elem_of_fmap. exists r. split; [|done]. destruct e as [y [[[[s q] p] v] slot]]. by injection Hrk. }
  destruct (timed_table_elem rows merged table m Htable Hm Hsym) as (q & Hq & Hqy & Hqc).
  pose proof (tu_well _ _ _ _ _ _ Hsound) as Hw. rewrite Forall_forall in Hw. destruct (Hw e He) as (g & Hg & Hfit & _).
  apply (go_free _ _ _ _ Hg (snd (snd e)) Hfit). rewrite Ec, <- Hqc. apply list_elem_of_fmap. exists q. split; [done|].
  apply filter_elem. split; [done|]. apply bool_decide_eq_true. by rewrite Hqy.
Qed.

Lemma topup_timed : Forall (fun r => 0 <= tr_s r) rows -> exists xs, mapM timed_row extra = Some xs /\
  map table_key xs = map (fun e => entry_key (fst e, fst (snd e))) placed.
Proof using Hsound.
  intros Hs. exists (map (fun e : placement => let '(s, _, p, v) := fst (snd e) in mkTR (fst e) s p v (snd (snd e))) placed). split.
  - rewrite (tu_rows _ _ _ _ _ _ Hsound). apply mapM_Some, Forall2_fmap, Forall2_same_length_lookup. split; [done|]. intros i x y Hx Hy. rewrite Hx in Hy. injection Hy as <-.
    apply list_elem_of_lookup_2 in Hx. destruct (absent_from_tape rows table _ (placed_absent x Hx)) as (r & Hr & Hrk). rewrite Forall_forall in Hs. specialize (Hs r Hr).
    destruct x as [y [[[[s q] p] v] slot]]. cbn in Hrk. injection Hrk as _ Es _ _. unfold timed_row. cbn [topup_row fst snd or_chetime or_symbol or_price or_volume or_cum].
    rewrite chetime_int_pad by lia. done.
  - rewrite map_map. apply map_ext. by intros [y [[[[s q] p] v] slot]].
Qed.

Lemma topup_counts k : occurrences k (map (fun e => entry_key (fst e, fst (snd e))) placed) + occurrences k (map entry_key left) = lacking rows table k.
Proof using Hsound.
  rewrite <- absent_count, <- occurrences_app. apply occurrences_perm. rewrite (tu_split _ _ _ _ _ _ Hsound), map_app, map_map. done.
Qed.
End TopupSound.
