(* ===== verification/RepairBuild.v ===== *)
(** * Properties of the repaired table

    The top-up against the tape, what a build leaves on disk in every outcome, and the
    whole table it publishes. *)
From stdpp Require Import gmap.
From Stdlib Require Import SpecFloat.
From S2P Require Import Prelude PyStr PyTime PyFloat ExecJournal MarketPhase SeqSet L0Decode LossLedger PyColl Gapfill GapfillFacts GapfillProps GapfillPeers FillDay RepairMerge RepairMergeFacts RepairTopup.

(** C16. The top-up adds only trades the table has fewer of than the tape, each on a
    counter the table does not use, between the rows around it in counter and in time;
    and when nothing is left unplaced the table with the added rows holds every trade
    of the tape as often as the tape does. *)
Theorem topup_covers_tape tape merged table : let rows := load_tape_rows tape (fromkeys (map or_symbol merged)) in
  timed_table rows merged = Some table -> Forall (fun r => 0 <= tr_s r) rows ->
  exists extra unplaced xs, apply_tape_topup tape merged = Some (extra, unplaced) /\ mapM timed_row extra = Some xs /\
    NoDup (map out_key extra) /\ Forall (fun e => out_key e ∉ map out_key merged) extra /\
    Forall (fun x => exists g, gap_of (of_symbol table (tm_symbol x)) 0 0 g /\ gp_lo g < tm_cum x < gp_hi g /\ gp_t_prev g <= tm_s x <= gp_t_next g) xs /\
    (forall k, occurrences k (map table_key xs) <= lacking rows table k) /\
    (unplaced = 0 -> forall k, occurrences k (map tape_key rows) <= occurrences k (map table_key (table ++ xs))).
Proof.
  intros rows Ht Hs. destruct (topup_ok tape merged table Ht) as (extra & unplaced & placed & left & Happ & Hsound). fold rows in Hsound.
  destruct (topup_timed tape merged table extra unplaced placed left Hsound Hs) as (xs & Hx & Hk).
  destruct (topup_fresh tape merged table Ht extra unplaced placed left Hsound) as [Hn Hf].
  pose proof (topup_counts tape merged table extra unplaced placed left Hsound) as Hc. fold rows in Hc.
  exists extra, unplaced, xs. split_and!; [done|done|done|done| | |].
  - rewrite (tu_rows _ _ _ _ _ _ Hsound) in Hx. apply mapM_Some in Hx. apply Forall_lookup. intros i x Hi.
    destruct (Forall2_lookup_r _ _ _ _ _ Hx Hi) as (o & Ho & Hox). apply list_lookup_fmap_Some in Ho as (e & -> & He).
    pose proof (tu_well _ _ _ _ _ _ Hsound) as Hw. rewrite Forall_forall in Hw. destruct (Hw e ltac:(by eapply list_elem_of_lookup_2)) as (g & Hg & Hfit & Htime).
    destruct e as [y [[[[s q] p] v] slot]]. unfold timed_row in Hox. apply bind_Some in Hox as (s' & Hs' & [= <-]). cbn in Hg, Hfit, Htime |- *.
    assert (E : s' = s); [|exists g; subst; done]. cbn [topup_row fst snd or_chetime] in Hs'.
    destruct (absent_from_tape rows table _ (placed_absent tape merged table extra unplaced placed left Hsound _ ltac:(by eapply list_elem_of_lookup_2))) as (r & Hr & Hrk).
    rewrite Forall_forall in Hs. specialize (Hs r Hr). cbn in Hrk. injection Hrk as _ Es _ _. rewrite chetime_int_pad in Hs' by lia. by injection Hs'.
  - intros k. rewrite Hk. specialize (Hc k). pose proof (occurrences_nonneg k (map entry_key left)). lia.
  - intros H0 k. specialize (Hc k). rewrite map_app, occurrences_app, Hk. rewrite (tu_left _ _ _ _ _ _ Hsound) in H0.
    destruct left; [|unfold zlen in H0; cbn in H0; lia]. unfold lacking in Hc. change (occurrences k (map entry_key [])) with 0 in Hc. lia.
Qed.

(** ** Lengths *)

Lemma live_pass_length b ranges ticks : forall s s', live_pass b ranges ticks s = Some s' ->
  zlen (rows_of (ls_out s')) - ls_rows s' = zlen (rows_of (ls_out s)) - ls_rows s /\ ls_rows s' = ls_rows s + zlen ticks.
Proof.
  induction ticks as [|t ticks IH]; intros s s'; cbn [live_pass].
  - intros [= <-]. unfold zlen. cbn. lia.
  - intros (s1 & H1 & H2)%bind_Some. destruct (IH _ _ H2) as [E1 E2]. unfold live_step in H1. cbv zeta in H1. apply bind_Some in H1 as (late & _ & [= <-]).
    cbn in E1, E2. rewrite emit_rows in E1. unfold zlen in *. rewrite length_app in E1. cbn [length] in *. lia.
Qed.

Lemma fill_pass_length b late rows : forall s s', fill_pass b late rows s = Some s' ->
  zlen (rows_of (fi_out s')) - fi_filled s' = zlen (rows_of (fi_out s)) - fi_filled s /\ fi_filled s <= fi_filled s'.
Proof.
  induction rows as [|r rows IH]; intros s s'; cbn [fill_pass].
  - intros [= <-]. lia.
  - intros (s1 & H1 & H2)%bind_Some. destruct (IH _ _ H2) as [E1 E2]. unfold fill_step in H1. cbv zeta in H1. apply bind_Some in H1 as (c & _ & H1).
    destruct (0 <? _); [injection H1 as <-; done|]. destruct ((_ <? _) && (_ <? _)); injection H1 as <-; [|done].
    cbn in E1, E2. rewrite emit_rows in E1. unfold zlen in *. rewrite length_app in E1. cbn [length] in *. lia.
Qed.

Lemma merge_rows_length b tolerance p ticks rows live filled deduped overfill :
  merge_rows b tolerance p ticks = Some (M_table rows live filled deduped overfill) ->
  live = pp_received p /\ live = zlen ticks /\ 0 <= filled /\ zlen rows = live + filled.
Proof.
  unfold merge_rows. destruct (negb _); [done|]. intros (ls & Hl & H)%bind_Some. destruct (negb _) eqn:E; [done|].
  apply bind_Some in H as (f & Hf & H). apply bind_Some in H as (over & _ & H). destruct over; [done|]. injection H as <- <- <- <- <-.
  apply live_pass_length in Hl as [L1 L2]. apply fill_pass_length in Hf as [F1 F2]. cbn in *. fold (rows_of (fi_out f)). bprop.
  unfold zlen in *. cbn in *. lia.
Qed.

(** ** The build *)

Lemma jis_same s : jis (Some (JStr s)) s = true.
Proof. by apply bool_decide_eq_true. Qed.

Section Build.
Context (json_loads : string -> option json) (sha256 : string -> string) (day batch_rows : Z) (tolerance : pyfloat) (stamp : Z).
Hypothesis (Hbatch : 0 < batch_rows).

Abbreviation valid := (repaired_ticks_valid sha256 day "ls").
Abbreviation build := (build_repaired_ticks json_loads sha256 day "ls" batch_rows tolerance stamp).

Lemma summary_valid p raw table live filled deduped overfill topup unplaced : pp_sha p = sha256 raw ->
  live = pp_received p -> 0 <= live -> 0 <= filled -> 0 <= topup -> zlen table = live + filled + topup ->
  valid (Some raw) (mkDisk (Some table) (Some (summary_payload stamp p (ok_summary day "ls" p live filled deduped overfill topup unplaced)))) = true.
Proof.
  intros Hsha Hl H1 H2 H3 Hlen. unfold repaired_ticks_valid, summary_payload. cbn [td_ticks td_summary ok_summary sm_day sm_vendor sm_live_rows sm_filled_rows sm_residual sm_observed sm_audit_sha256 sm_report_sha256 sm_count_note sm_deduped sm_overfill sm_topup sm_unplaced].
  match goal with |- context [dget ?d "status"] => set (doc := d) end.
  assert (dget doc "status" = Some (JStr "OK")) as -> by reflexivity. assert (dget doc "day" = Some (JStr (date_isoformat day))) as -> by reflexivity.
  assert (dget doc "vendor" = Some (JStr "ls")) as -> by reflexivity. assert (dget doc "live_rows" = Some (JInt live)) as -> by reflexivity.
  assert (dget doc "filled_rows" = Some (JInt filled)) as -> by reflexivity. assert (dget doc "audit_trades_received" = Some (JInt (pp_received p))) as -> by reflexivity.
  assert (dget doc "tape_topup_rows" = Some (JInt topup)) as -> by reflexivity. assert (dget doc "audit_sha256" = Some (JStr (pp_sha p))) as -> by reflexivity.
  rewrite Hsha, !jis_same. unfold jcount. rewrite <- Hl, !(proj2 (Z.ltb_ge _ 0)) by lia. rewrite Hlen, !Z.eqb_refl. done.
Qed.

Lemma prepare_sha p i : prepare json_loads sha256 day "ls" i = Some p -> exists raw, in_audit i = Some raw /\ pp_sha p = sha256 raw.
Proof.
  unfold prepare. intros (raw & Hraw & H)%bind_Some. exists raw. split; [done|].
  apply bind_Some in H as (a & _ & H). apply bind_Some in H as (m & _ & H). apply bind_Some in H as ([r bs] & _ & H).
  apply bind_Some in H as ([rep rs] & _ & H). destruct (default (0, 0) rep). apply bind_Some in H as (fl & _ & [= <-]). done.
Qed.

(** The cases of a build. *)
Lemma build_cases f i d : (build f i d = (d, None)) \/
  (exists s, build f i d = (d, Some s) /\ sm_ok s = false /\ is_Some (sm_reason s)) \/
  (exists p rows live filled deduped overfill, prepare json_loads sha256 day "ls" i = Some p /\
    merge_rows batch_rows tolerance p (in_ticks i) = Some (M_table rows live filled deduped overfill) /\
    build f i d = publish stamp f p (rows ++ fst (topup_of i rows))
      (ok_summary day "ls" p live filled deduped overfill (zlen (fst (topup_of i rows))) (snd (topup_of i rows))) d).
Proof using Hbatch.
  unfold build_repaired_ticks. rewrite bool_decide_true, (proj2 (Z.leb_gt _ _)) by done. cbn [negb orb].
  destruct (prepare _ _ _ _ _) as [p|] eqn:Ep; [|by left].
  destruct (merge_rows _ _ _ _) as [[reason live deduped overfill|rows live filled deduped overfill]|] eqn:Em; [| |by left].
  { destruct (_ && _); [by left|]. right. left. eexists. cbn. eauto. }
  destruct (mf_write f); [by left|]. right. right. exists p, rows, live, filled, deduped, overfill. split_and!; [done|done|]. by destruct (topup_of i rows).
Qed.

Lemma published_valid f i d p rows live filled deduped overfill d' s : prepare json_loads sha256 day "ls" i = Some p ->
  merge_rows batch_rows tolerance p (in_ticks i) = Some (M_table rows live filled deduped overfill) ->
  publish stamp f p (rows ++ fst (topup_of i rows))
    (ok_summary day "ls" p live filled deduped overfill (zlen (fst (topup_of i rows))) (snd (topup_of i rows))) d = (d', Some s) ->
  valid (in_audit i) d' = true.
Proof using .
  intros Ep Em. unfold publish. destruct (mf_replace f); [done|]. destruct (mf_mkdir f); [done|]. destruct (mf_summary f); [done|]. intros [= <- _].
  destruct (prepare_sha p i Ep) as (raw & Hraw & Hsha). destruct (merge_rows_length _ _ _ _ _ _ _ _ _ Em) as (E1 & E2 & E3 & E4).
  rewrite Hraw. apply summary_valid; [done|done|unfold zlen in *; lia|done|unfold zlen; lia|]. unfold zlen in *. rewrite length_app. lia.
Qed.

Lemma build_valid f i d d' s : build f i d = (d', Some s) -> sm_ok s = true -> valid (in_audit i) d' = true.
Proof using Hbatch.
  intros Hb Hok. destruct (build_cases f i d) as [E|[(s' & E & Hf & _)|(p & rows & live & filled & deduped & overfill & Ep & Em & E)]]; rewrite E in Hb; [done| |by eapply published_valid].
  injection Hb as _ <-. congruence.
Qed.

(** C17. What a build leaves on disk: when it reports success, the table is the merge of
    the live trades and gap-fill rows with the top-up and passes its own validation
    against the audit; a mismatch leaves both files as they were; and when a call fails,
    the files are as they were or the table does not validate, unless the failing call is
    the creation of the summary's directory or the removal of the table as well. *)
Theorem build_outcome f i d : let '(d', r) := build f i d in
  match r with
  | Some s =>
      if sm_ok s then
        valid (in_audit i) d' = true /\
        exists p rows, prepare json_loads sha256 day "ls" i = Some p /\
          merge_rows batch_rows tolerance p (in_ticks i) = Some (M_table rows (sm_live_rows s) (sm_filled_rows s) (sm_deduped s) (sm_overfill s)) /\
          td_ticks d' = Some (rows ++ fst (topup_of i rows)) /\ sm_topup s = zlen (fst (topup_of i rows))
      else d' = d /\ is_Some (sm_reason s)
  | None => d' = d \/ valid (in_audit i) d' = false \/ mf_mkdir f = true \/ (mf_summary f = true /\ mf_unlink f = true)
  end.
Proof using Hbatch.
  destruct (build_cases f i d) as [E|[(s & E & Hf & Hr)|(p & rows & live & filled & deduped & overfill & Ep & Em & E)]].
  - rewrite E. by left.
  - rewrite E, Hf. done.
  - pose proof (fun d' s => published_valid f i d p rows live filled deduped overfill d' s Ep Em) as Hv. rewrite E. unfold publish in *.
    destruct (mf_replace f); [by left|]. destruct (mf_mkdir f) eqn:Ek; [by right; right; left|].
    destruct (mf_summary f); [destruct (mf_unlink f) eqn:Eu; [by right; right; right|by right; left]|].
    cbn [ok_summary sm_ok sm_live_rows sm_filled_rows sm_deduped sm_overfill sm_topup td_ticks]. split; [by eapply Hv|]. exists p, rows. done.
Qed.
End Build.

(** ** A day on which a lost trade equals a late one *)

(** Counters 1 to 6: 2, 4 and 5 were lost, 3 arrived after 6; 2 and 3 are one second's
    trades of the same price and volume. *)
Definition twin_trade (second price volume cum : Z) : LiveTick := mkLive "005930" (str_pad 6 second) price volume cum 0.

Definition twin_live : list LiveTick := [twin_trade 90000 100 1 1; twin_trade 90004 100 1 6; twin_trade 90001 100 1 3].

Definition twin_ticks : list ReceivedTick := [mkTick "005930" 90000 1 100 1; mkTick "005930" 90004 6 100 1; mkTick "005930" 90001 3 100 1].

Definition twin_audit : list SymbolLedger :=
  [mkSymbolLedger "005930" false 3 6 3 0 3 6 0 0 0 0
     [mkInterval "005930" REGULAR CONFIRMED 3 6 1 6 "090000" "090004" 0 0 false None None] 0 None].

Definition twin_day : list (Z * (Z * Z)) :=
  [(90000, (100, 1)); (90001, (100, 1)); (90001, (100, 1)); (90002, (101, 2)); (90003, (102, 3)); (90004, (100, 1))].

Definition twin_tape : list TapeRow := map (fun e => mkTape "005930" (fst e) (fst (snd e)) (snd (snd e))) twin_day.
Definition twin_topup_tape : list TapeRec :=
  map (fun e => mkTapeRec "005930" (fst (snd e)) (fst (snd (snd e))) (snd (snd (snd e))) (fst e) "") (enumerate twin_day).

Definition twin_rows : list GapRow := match fill_gaps twin_audit twin_ticks [] twin_tape with Some (rows, _) => rows | None => [] end.

Definition twin_json (text : string) : option json :=
  if bool_decide (text = "audit") then
    Some (JObj [("status", JStr "OK"); ("session_date", JStr (date_isoformat 20759)); ("vendor", JStr "ls"); ("venue", JStr "krx"); ("session", JStr "regular");
      ("totals", JObj [("trades_observed", JInt 6); ("confirmed_missing", JInt 3); ("trades_received", JInt 3)])])
  else Some (JObj [("totals", JObj [("recovered", JInt 3); ("residual", JInt 0)]); ("intervals", JArr []); ("notes", JObj [("audit_sha256", JStr "audit")])]).

Definition twin_input : MergeInput := mkInput (Some "audit") (Some 0) (Some "report") (Some 1) true (Some twin_rows) twin_live (Some twin_topup_tape).

Definition twin_build : TicksDisk * option RepairedTicksSummary :=
  build_repaired_ticks twin_json id 20759 "ls" 250000 (float_lit 2 2) 0 (mkFaults false false false false false) twin_input (mkDisk None None).

(** A gap-fill row is dropped as the repetition of a late trade although it is
    another trade: on this day the gap fill recovers exactly the three lost trades, the
    merge drops one of them, the top-up cannot place it any more, and the table that is
    published as complete holds five of the day's six trades. *)
Example late_twin_drops_trade :
  map row_trade twin_rows = [(100, 1); (101, 2); (102, 3)] /\
  (exists s, snd twin_build = Some s /\ sm_ok s = true /\ sm_deduped s = 1 /\ sm_unplaced s = 1) /\
  (exists table, td_ticks (fst twin_build) = Some table /\
     map (fun r => (or_chetime r, (or_price r, or_volume r))) table
     = [("090000", (100, 1)); ("090004", (100, 1)); ("090001", (100, 1)); ("090002", (101, 2)); ("090003", (102, 3))]).
Proof.
  split; [vm_compute; reflexivity|]. split.
  - eexists. split; [vm_compute; reflexivity|]. split_and!; reflexivity.
  - eexists. split; [vm_compute; reflexivity|]. vm_compute. reflexivity.
Qed.

Lemma build_outcome_witness : repaired_ticks_valid id 20759 "ls" (Some "audit") (fst twin_build) = true.
Proof.
  pose proof (build_outcome twin_json id 20759 250000 (float_lit 2 2) 0 eq_refl (mkFaults false false false false false) twin_input (mkDisk None None)) as H.
  assert (Hok : match snd twin_build with Some s => sm_ok s | None => false end = true) by (vm_compute; reflexivity).
  unfold twin_build in *. destruct (build_repaired_ticks _ _ _ _ _ _ _ _ _ _) as [d' [s|]]; [|discriminate Hok]. cbn [snd] in Hok. rewrite Hok in H. apply H.
Defined.

(** A table that lacks one of the tape's trades, and room for it. *)
Definition short_table : list OutRow :=
  [mkOut "005930" "090000" 100 1 1 "live" None None; mkOut "005930" "090004" 100 1 6 "live" None None; mkOut "005930" "090001" 100 1 3 "live" None None;
   mkOut "005930" "090001" 100 1 2 "fill" None None; mkOut "005930" "090003" 102 3 5 "fill" None None].

Lemma topup_covers_tape_witness : exists extra xs, apply_tape_topup twin_topup_tape short_table = Some (extra, 0) /\
  map (fun x => (tm_s x, tm_cum x)) xs = [(90002, 4)] /\ NoDup (map out_key extra) /\
  forall k, occurrences k (map tape_key (load_tape_rows twin_topup_tape ["005930"]))
    <= occurrences k (map table_key (default [] (mapM timed_row short_table) ++ xs)).
Proof.
  destruct (topup_covers_tape twin_topup_tape short_table (default [] (mapM timed_row short_table))) as (extra & unplaced & xs & Ha & Hx & Hn & _ & _ & _ & Hc).
  - vm_compute. reflexivity.
  - apply (bool_decide_unpack _). vm_compute. exact I.
  - assert (E : apply_tape_topup twin_topup_tape short_table = Some ([mkOut "005930" "090002" 101 2 4 "tape_topup" None None], 0)) by (vm_compute; reflexivity).
    rewrite E in Ha. injection Ha as <- <-. exists [mkOut "005930" "090002" 101 2 4 "tape_topup" None None], xs. split; [exact E|]. vm_compute in Hx. injection Hx as <-.
    split; [reflexivity|]. split; [exact Hn|]. exact (Hc eq_refl).
Defined.
