(* ===== verification/RepairJob.v ===== *)
(** * The nightly repair run ([src/storage/l0_repair_job.py])

    The run over the candidate days and vendors: audit what is not audited, fill the
    gaps of what has a tape, merge what is filled, each day's failure isolated from the
    others. The run sees the audit, the gap fill and the merge through the interface
    [RepairOps]; [RepairLaws] says what it relies on. Time is the sequence of answers of
    [stopped()]; an error before the loop is [None] candidates. The heartbeat thread is not
    modelled. *)
From Stdlib Require Import Ascii.
From S2P Require Import Prelude PyStr PyTime MarketPhase Layout Calendar ExecJournal Retention Remote Eod Repair.

(** ** Candidates *)

(** The entries of a vendor's trade directory with whether they are directories;
    [None] when the directory does not exist. *)
Definition unit_leb (a b : Z * string) : bool := (fst a <? fst b) || ((fst a =? fst b) && str_leb (snd a) (snd b)).

(** A date in another ISO spelling is read as none. *)
Definition unit_day (e : string * bool) : option Z :=
  if snd e then text ← str_after "dt=" (fst e); iso_date (s2l text) else None.

Definition repair_candidate_units (listing : string -> option (list (string * bool))) (settings : RepairSettings)
    (window_date retain_days : Z) (only_day : option Z) : list (Z * string) :=
  let earliest := window_date - (retain_days + hold_max_extra_days settings + 1) in
  let wanted day := (earliest <=? day) && (day <=? window_date)
                    && match only_day with None => true | Some d => day =? d end in
  py_sorted unit_leb (fromkeys (concat (map (fun vendor =>
    map (fun day => (day, vendor)) (List.filter wanted (omap unit_day (default [] (listing vendor))))) (gate_vendors settings)))).

(** ** The interface to audit, gap fill and merge *)

(** [run_audit] derives and writes the audit and says whether it is available;
    [run_fill] writes the rows and the report; [run_merge] says whether the merge
    agreed with the audit. Each may raise. *)
Class RepairOps (St : Type) := {
  evidence : St -> Evidence;
  run_audit : Z -> string -> stx St unit bool;
  run_fill : Z -> string -> stx St unit unit;
  run_merge : Z -> string -> stx St unit bool
}.

Record Run (St : Type) := mkRun {
  rn_store : St; rn_clock : nat; rn_audited : Z; rn_gapfilled : Z; rn_waiting : Z; rn_failed : Z; rn_attempted : Z; rn_merged : Z
}.
Arguments mkRun {St}. Arguments rn_store {St}. Arguments rn_clock {St}. Arguments rn_audited {St}. Arguments rn_gapfilled {St}.
Arguments rn_waiting {St}. Arguments rn_failed {St}. Arguments rn_attempted {St}. Arguments rn_merged {St}.

Record RepairRunSummary := mkRunSummary {
  rs_status : string; rs_days : Z; rs_audited : Z; rs_gapfilled : Z; rs_waiting : Z; rs_failed : Z; rs_merged : Z
}.

Section Job.
Context {St : Type} `{RepairOps St}.
Context (decode_audit : string -> option RepairAudit) (decode_report : string -> option GapfillReport).
Context (json_loads : string -> option json) (sha256 : string -> string).
Context (settings : RepairSettings) (tape_done : list (string * Z)) (stopped_at : nat -> bool).

Abbreviation run := (Run St).

Definition set_store (st : St) (r : run) : run :=
  mkRun st (rn_clock r) (rn_audited r) (rn_gapfilled r) (rn_waiting r) (rn_failed r) (rn_attempted r) (rn_merged r).
Definition tick_clock (r : run) : run :=
  mkRun (rn_store r) (S (rn_clock r)) (rn_audited r) (rn_gapfilled r) (rn_waiting r) (rn_failed r) (rn_attempted r) (rn_merged r).
Definition add_audited (r : run) : run :=
  mkRun (rn_store r) (rn_clock r) (rn_audited r + 1) (rn_gapfilled r) (rn_waiting r) (rn_failed r) (rn_attempted r) (rn_merged r).
Definition add_gapfilled (r : run) : run :=
  mkRun (rn_store r) (rn_clock r) (rn_audited r) (rn_gapfilled r + 1) (rn_waiting r) (rn_failed r) (rn_attempted r) (rn_merged r).
Definition add_waiting (r : run) : run :=
  mkRun (rn_store r) (rn_clock r) (rn_audited r) (rn_gapfilled r) (rn_waiting r + 1) (rn_failed r) (rn_attempted r) (rn_merged r).
Definition add_failed (r : run) : run :=
  mkRun (rn_store r) (rn_clock r) (rn_audited r) (rn_gapfilled r) (rn_waiting r) (rn_failed r + 1) (rn_attempted r) (rn_merged r).
Definition add_attempted (r : run) : run :=
  mkRun (rn_store r) (rn_clock r) (rn_audited r) (rn_gapfilled r) (rn_waiting r) (rn_failed r) (rn_attempted r + 1) (rn_merged r).
Definition add_merged (r : run) : run :=
  mkRun (rn_store r) (rn_clock r) (rn_audited r) (rn_gapfilled r) (rn_waiting r) (rn_failed r) (rn_attempted r) (rn_merged r + 1).

Definition on_store {A} (c : stx St unit A) : stx run unit A :=
  fun r => let '(st, a) := c (rn_store r) in (set_store st r, a).

Definition stopped : stx run unit bool := fun r => (tick_clock r, Ok (stopped_at (rn_clock r))).

Definition state_of (ev : Evidence) (day : Z) (vendor : string) : RepairState :=
  dr_state (derive_day_repair decode_audit decode_report sha256 ev settings tape_done day vendor).

Definition day_state (day : Z) (vendor : string) : stx run unit RepairState :=
  fun r => (r, Ok (state_of (evidence (rn_store r)) day vendor)).

(** [_existing_audit_ok]. *)
Definition existing_audit_ok (ev : Evidence) (day : Z) (vendor : string) : bool :=
  match ev_audit ev day vendor with
  | None => false
  | Some (bytes, _) =>
      match json_loads bytes with
      | Some (JObj raw) =>
          (jis (dget raw "status") "OK" || jis (dget raw "status") "PARTIAL")
          && jis (dget raw "session_date") (date_isoformat day) && jis (dget raw "vendor") vendor
      | _ => false
      end
  end.

(** The audit of a day that has none. *)
Definition audit_stage (day : Z) (vendor : string) (state : RepairState) : stx run unit RepairState :=
  (r <- sget;;
   if bool_decide (state = UNAUDITED) && negb (existing_audit_ok (evidence (rn_store r)) day vendor) then
     available <- on_store (run_audit day vendor);;
     if available : bool then smod add_audited;;; day_state day vendor else sraise tt
   else sret state)%py.

Definition fill_stage (day : Z) (vendor : string) (state : RepairState) : stx run unit RepairState :=
  (if bool_decide (state = GAPFILL_PENDING) && bool_decide (vendor = "ls") then
     stop <- stopped;;
     if stop : bool then sret state
     else on_store (run_fill day vendor);;; smod add_gapfilled;;; day_state day vendor
   else sret state)%py.

(** An exception of the merge is caught at once. *)
Definition merge_stage (day : Z) (vendor : string) : stx run unit unit :=
  fun r => match on_store (run_merge day vendor) r with
           | (r', Ok true) => (add_merged r', Ok tt)
           | (r', _) => (add_failed r', Ok tt)
           end.

Definition unit_body (day : Z) (vendor : string) : stx run unit unit :=
  (state <- day_state day vendor;;
   state <- audit_stage day vendor state;;
   state <- fill_stage day vendor state;;
   r <- sget;;
   if bool_decide (state = TAPE_PENDING) then smod add_waiting
   else if bool_decide (state ∈ [MERGE_PENDING; REPAIRED; CLEAN]) && bool_decide (vendor = "ls")
           && bool_decide (vendor ∈ repair_vendors settings) && negb (ev_merged_valid (evidence (rn_store r)) day vendor)
   then stop <- stopped;; if stop : bool then sret tt else merge_stage day vendor
   else sret tt)%py.

Definition unit_step (day : Z) (vendor : string) (r : run) : run :=
  match unit_body day vendor (add_attempted r) with
  | (r', Ok _) => r'
  | (r', Raise _) => add_failed r'
  end.

Fixpoint unit_loop (units : list (Z * string)) (r : run) : run :=
  match units with
  | [] => r
  | (day, vendor) :: units' =>
      if stopped_at (rn_clock r) then tick_clock r
      else unit_loop units' (unit_step day vendor (tick_clock r))
  end.

Definition run_status (attempted failed : Z) (pending_unaudited : bool) : string :=
  if negb (attempted =? 0) && (failed =? attempted) then "FAIL"
  else if negb (failed =? 0) || pending_unaudited then "DEGRADED"
  else "OK".

Definition run_start (st : St) : run := mkRun st 0 0 0 0 0 0 0.

Definition run_locked (units : list (Z * string)) (st : St) : St * RepairRunSummary :=
  match units with
  | [] => (st, mkRunSummary "SKIP" 0 0 0 0 0 0)
  | _ =>
      let r := unit_loop units (run_start st) in
      let pending := existsb (fun u => bool_decide (state_of (evidence (rn_store r)) (fst u) (snd u) = UNAUDITED)) units in
      (rn_store r, mkRunSummary (run_status (rn_attempted r) (rn_failed r) pending) (zlen (fromkeys (map fst units)))
         (rn_audited r) (rn_gapfilled r) (rn_waiting r) (rn_failed r) (rn_merged r))
  end.

(** [run_repair]: an error of the setup or of the run itself is a failed summary, a
    lock held by another process a skipped one. *)
Inductive setup_result := Setup_error | Lock_busy | Lock_held.

Definition run_repair (setup : setup_result) (units : option (list (Z * string))) (st : St) : St * RepairRunSummary :=
  match setup, units with
  | Setup_error, _ => (st, mkRunSummary "FAIL" 0 0 0 0 1 0)
  | Lock_busy, _ => (st, mkRunSummary "SKIP" 0 0 0 0 0 0)
  | Lock_held, None => (st, mkRunSummary "FAIL" 0 0 0 0 1 0)
  | Lock_held, Some units => run_locked units st
  end.
End Job.
