(* ===== verification/RepairJobFacts.v ===== *)
(** * The repair run settles its days

    What the run relies on ([RepairLaws]), what it reports, and that without faults it
    settles every candidate. *)
From Stdlib Require Import Ascii.
From S2P Require Import Prelude PyStr PyTime MarketPhase Layout Calendar ExecJournal Retention Remote Eod Repair RepairJob.

(** The evidence of a day and vendor is the same. *)
Definition same_at (ev ev' : Evidence) (d : Z) (v : string) : Prop :=
  ev_audit ev' d v = ev_audit ev d v /\ ev_report ev' d v = ev_report ev d v /\ ev_report_mtime ev' d v = ev_report_mtime ev d v /\
  ev_merged_valid ev' d v = ev_merged_valid ev d v.

(** A call that touches the evidence of one day and vendor only. *)
Definition local_to {St A} `{RepairOps St} (d : Z) (v : string) (c : stx St unit A) : Prop :=
  forall s d' v', (d', v') <> (d, v) -> same_at (evidence s) (evidence (fst (c s))) d' v'.

(** What audit, gap fill and merge promise to the run. *)
Class RepairLaws (St : Type) `{RepairOps St} (decode_audit : string -> option RepairAudit) (decode_report : string -> option GapfillReport)
    (sha256 : string -> string) : Prop := {
  rl_audit_local : forall d v, local_to d v (run_audit d v);
  rl_fill_local : forall d v, local_to d v (run_fill d v);
  rl_merge_local : forall d v, local_to d v (run_merge d v);
  rl_audit : forall d v s s', run_audit d v s = (s', Ok true) -> exists bytes mtime audit,
    audit_of decode_audit (evidence s') d v bytes mtime audit /\ (ad_confirmed audit <> 0 -> gap_symbols audit <> []);
  rl_fill : forall d v s s', run_fill d v s = (s', Ok tt) -> ev_audit (evidence s') d v = ev_audit (evidence s) d v /\
    forall bytes mtime, ev_audit (evidence s) d v = Some (bytes, mtime) -> is_Some (report_valid decode_report sha256 (evidence s') d v bytes mtime);
  rl_merge : forall d v s s', run_merge d v s = (s', Ok true) -> ev_audit (evidence s') d v = ev_audit (evidence s) d v /\
    ev_report (evidence s') d v = ev_report (evidence s) d v /\ ev_report_mtime (evidence s') d v = ev_report_mtime (evidence s) d v /\
    ev_merged_valid (evidence s') d v = true
}.

(** ** The state of a day *)

Section States.
Context (decode_audit : string -> option RepairAudit) (decode_report : string -> option GapfillReport) (sha256 : string -> string).
Context (settings : RepairSettings) (tape_done : list (string * Z)).

Abbreviation state := (state_of decode_audit decode_report sha256 settings tape_done).

Lemma same_state ev ev' d v : same_at ev ev' d v -> state ev' d v = state ev d v.
Proof.
  intros (H1 & H2 & H3 & H4). unfold state_of, derive_day_repair, report_valid, merge_missing. by rewrite H1, H2, H3, H4.
Qed.

(** The state of a day with a readable audit. *)
Definition audited_state (ev : Evidence) (d : Z) (v bytes : string) (mtime : Z) (audit : RepairAudit) : RepairState :=
  let missing := merge_required settings && negb (ev_merged_valid ev d v) in
  if negb (bool_decide (v ∈ repair_vendors settings)) then CLEAN
  else if ad_confirmed audit =? 0 then if missing then MERGE_PENDING else CLEAN
  else if bool_decide (gap_symbols audit = []) then UNAUDITED
  else if 0 <? tape_pending tape_done d audit then TAPE_PENDING
  else match report_valid decode_report sha256 ev d v bytes mtime with
       | None => GAPFILL_PENDING
       | Some _ => if missing then MERGE_PENDING else REPAIRED
       end.

Lemma state_audited ev d v bytes mtime audit : audit_of decode_audit ev d v bytes mtime audit -> state ev d v = audited_state ev d v bytes mtime audit.
Proof.
  intros (H1 & H2 & H3 & H4). unfold state_of, derive_day_repair, audited_state, merge_missing. rewrite H1, H2, H3, Z.eqb_refl, bool_decide_true by done. cbn [negb orb].
  repeat (case_match; try done).
Qed.

Lemma state_unaudited ev d v : state ev d v <> UNAUDITED -> exists bytes mtime audit, audit_of decode_audit ev d v bytes mtime audit.
Proof.
  unfold state_of, derive_day_repair. destruct (ev_audit ev d v) as [[bytes mtime]|] eqn:E1; [|done]. destruct (decode_audit bytes) as [audit|] eqn:E2; [|done].
  destruct (negb _ || negb _) eqn:E3; [done|]. intros _. bprop. exists bytes, mtime, audit. by split_and!.
Qed.

(** The ways a day passes through its states. *)
Lemma audited_settles ev d v bytes mtime audit : audit_of decode_audit ev d v bytes mtime audit ->
  (ad_confirmed audit <> 0 -> gap_symbols audit <> []) -> state ev d v <> UNAUDITED.
Proof.
  intros Ha Hg. rewrite (state_audited _ _ _ _ _ _ Ha). unfold audited_state. repeat case_match; try done. bprop. tauto.
Qed.

Lemma gapfill_vendor ev d v : state ev d v = GAPFILL_PENDING -> v ∈ repair_vendors settings.
Proof.
  intros Hs. destruct (state_unaudited ev d v) as (bytes & mtime & audit & Ha); [by rewrite Hs|]. rewrite (state_audited _ _ _ _ _ _ Ha) in Hs.
  unfold audited_state in Hs. destruct (decide (v ∈ repair_vendors settings)); [done|]. by rewrite bool_decide_false in Hs.
Qed.

Lemma filled_state ev ev' d v : state ev d v = GAPFILL_PENDING -> ev_audit ev' d v = ev_audit ev d v ->
  (forall bytes mtime, ev_audit ev d v = Some (bytes, mtime) -> is_Some (report_valid decode_report sha256 ev' d v bytes mtime)) ->
  state ev' d v = MERGE_PENDING \/ state ev' d v = REPAIRED.
Proof.
  intros Hs He Hr. destruct (state_unaudited ev d v) as (bytes & mtime & audit & Ha); [by rewrite Hs|].
  assert (Ha' : audit_of decode_audit ev' d v bytes mtime audit) by (destruct Ha; split; congruence).
  rewrite (state_audited _ _ _ _ _ _ Ha) in Hs. rewrite (state_audited _ _ _ _ _ _ Ha'). unfold audited_state in *.
  destruct (Hr bytes mtime (proj1 Ha)) as [rep ->]. repeat case_match; try done; auto.
Qed.

Lemma merged_state ev ev' d v : state ev d v ∈ [MERGE_PENDING; REPAIRED; CLEAN] -> ev_audit ev' d v = ev_audit ev d v ->
  ev_report ev' d v = ev_report ev d v -> ev_report_mtime ev' d v = ev_report_mtime ev d v -> ev_merged_valid ev' d v = true ->
  settled (state ev' d v) = true.
Proof.
  intros Hs H1 H2 H3 H4. destruct (state_unaudited ev d v) as (bytes & mtime & audit & Ha); [intros E; rewrite E in Hs; set_solver|].
  assert (Ha' : audit_of decode_audit ev' d v bytes mtime audit) by (destruct Ha; split; congruence).
  rewrite (state_audited _ _ _ _ _ _ Ha) in Hs. rewrite (state_audited _ _ _ _ _ _ Ha'). unfold audited_state in *. rewrite H4, andb_false_r.
  assert (report_valid decode_report sha256 ev' d v bytes mtime = report_valid decode_report sha256 ev d v bytes mtime) as -> by (unfold report_valid; by rewrite H2, H3).
  repeat case_match; try done; set_solver.
Qed.

Lemma merge_pending_vendor ev d v : state ev d v = MERGE_PENDING -> v ∈ repair_vendors settings /\ ev_merged_valid ev d v = false.
Proof.
  intros Hs. destruct (state_unaudited ev d v) as (bytes & mtime & audit & Ha); [by rewrite Hs|]. rewrite (state_audited _ _ _ _ _ _ Ha) in Hs.
  unfold audited_state in Hs. destruct (decide (v ∈ repair_vendors settings)); [|by rewrite bool_decide_false in Hs]. split; [done|].
  destruct (ev_merged_valid ev d v); [|done]. rewrite andb_false_r in Hs. by repeat case_match.
Qed.
End States.

(** ** One unit of a run without faults *)

Section Settles.
Context {St : Type} `{Ops : RepairOps St}.
Context (decode_audit : string -> option RepairAudit) (decode_report : string -> option GapfillReport).
Context (json_loads : string -> option json) (sha256 : string -> string).
Context (settings : RepairSettings) (tape_done : list (string * Z)) (stopped_at : nat -> bool).
Context {Laws : RepairLaws St decode_audit decode_report sha256}.

Abbreviation state := (state_of decode_audit decode_report sha256 settings tape_done).
Abbreviation st_state s := (state (evidence s)) (only parsing).
Abbreviation exist_ok := (existing_audit_ok json_loads).

Context (all_units : list (Z * string)) (st0 : St).

(** The stores of a run over the units from [st0] in which every call so far succeeded:
    a call is made for a candidate in the state the stages check before it. *)
Inductive reached : St -> Prop :=
| reached_start : reached st0
| reached_audit s s' d v : reached s -> (d, v) ∈ all_units -> st_state s d v = UNAUDITED -> exist_ok (evidence s) d v = false ->
    run_audit d v s = (s', Ok true) -> reached s'
| reached_fill s s' d v : reached s -> (d, v) ∈ all_units -> v = "ls" -> st_state s d v = GAPFILL_PENDING ->
    run_fill d v s = (s', Ok tt) -> reached s'
| reached_merge s s' d v : reached s -> (d, v) ∈ all_units -> v = "ls" -> v ∈ repair_vendors settings ->
    st_state s d v ∈ [MERGE_PENDING; REPAIRED; CLEAN] -> ev_merged_valid (evidence s) d v = false ->
    run_merge d v s = (s', Ok true) -> reached s'.

(** Every call the run makes, in the store it makes it in, succeeds; an audit that looks
    usable is readable; and every symbol with a confirmed loss has its tape. *)
Record calm : Prop := {
  ca_audit : forall s d v, reached s -> (d, v) ∈ all_units -> st_state s d v = UNAUDITED -> exist_ok (evidence s) d v = false ->
    exists s', run_audit d v s = (s', Ok true);
  ca_fill : forall s d v, reached s -> (d, v) ∈ all_units -> v = "ls" -> st_state s d v = GAPFILL_PENDING ->
    exists s', run_fill d v s = (s', Ok tt);
  ca_merge : forall s d v, reached s -> (d, v) ∈ all_units -> v = "ls" -> v ∈ repair_vendors settings ->
    st_state s d v ∈ [MERGE_PENDING; REPAIRED; CLEAN] -> ev_merged_valid (evidence s) d v = false ->
    exists s', run_merge d v s = (s', Ok true);
  ca_readable : forall s d v, reached s -> (d, v) ∈ all_units -> exist_ok (evidence s) d v = true -> st_state s d v <> UNAUDITED;
  ca_tape : forall s d v bytes mtime audit, reached s -> (d, v) ∈ all_units ->
    audit_of decode_audit (evidence s) d v bytes mtime audit -> tape_pending tape_done d audit <= 0
}.

Hypothesis (Hnever : forall k, stopped_at k = false) (Hls : Forall (fun v => v = "ls") (repair_vendors settings)).

Lemma no_tape_wait d v s : calm -> reached s -> (d, v) ∈ all_units -> st_state s d v <> TAPE_PENDING.
Proof using .
  intros Hc Hr Hin Hs. destruct (state_unaudited decode_audit decode_report sha256 settings tape_done (evidence s) d v) as (bytes & mtime & audit & Ha); [by rewrite Hs|].
  pose proof (ca_tape Hc s d v bytes mtime audit Hr Hin Ha) as Ht. rewrite (state_audited _ _ _ _ _ _ _ _ _ _ _ Ha) in Hs. unfold audited_state in Hs.
  rewrite (proj2 (Z.ltb_ge 0 _)) in Hs by lia. by repeat case_match.
Qed.

(** What a stage of a calm unit does: it moves on without a failure, and other units
    keep their evidence. *)
Definition moved (d : Z) (v : string) (r r' : Run St) : Prop :=
  rn_failed r' = rn_failed r /\ rn_waiting r' = rn_waiting r /\ rn_attempted r' = rn_attempted r /\
  forall d' v', (d', v') <> (d, v) -> same_at (evidence (rn_store r)) (evidence (rn_store r')) d' v'.

Lemma moved_refl d v r : moved d v r r.
Proof using . by split_and!. Qed.

Lemma moved_trans d v r r' r'' : moved d v r r' -> moved d v r' r'' -> moved d v r r''.
Proof using .
  intros (A1 & A2 & A3 & A4) (B1 & B2 & B3 & B4). split_and!; [lia|lia|lia|]. intros d' v' Hne. destruct (A4 d' v' Hne) as (?&?&?&?), (B4 d' v' Hne) as (?&?&?&?).
  split_and!; congruence.
Qed.

Lemma local_moved {A} d v (c : stx St unit A) r s' (a : res unit A) : local_to d v c -> c (rn_store r) = (s', a) -> moved d v r (set_store s' r).
Proof using . intros Hl E. split_and!; [done|done|done|]. intros d' v' Hne. pose proof (Hl (rn_store r) d' v' Hne) as Hs. by rewrite E in Hs. Qed.

Lemma audit_stage_ok d v r : calm -> reached (rn_store r) -> (d, v) ∈ all_units -> exists r', audit_stage decode_audit decode_report json_loads sha256 settings tape_done d v (st_state (rn_store r) d v) r
  = (r', Ok (st_state (rn_store r') d v)) /\ moved d v r r' /\ reached (rn_store r') /\ st_state (rn_store r') d v <> UNAUDITED.
Proof using Laws.
  intros Hc Hre Hin. unfold audit_stage, sbind, sget. destruct (decide (st_state (rn_store r) d v = UNAUDITED)) as [Hu|Hu].
  - rewrite (bool_decide_true (_ = UNAUDITED)) by done. destruct (exist_ok (evidence (rn_store r)) d v) eqn:E; [exfalso; by apply (ca_readable Hc _ _ _ Hre Hin E)|].
    cbn [andb negb]. destruct (ca_audit Hc _ _ _ Hre Hin Hu E) as (s' & Hs'). unfold on_store. rewrite Hs'. cbn. exists (add_audited (set_store s' r)).
    destruct (rl_audit d v _ _ Hs') as (bytes & mtime & audit & Ha & Hg). split_and!; [done| |by eapply reached_audit|].
    + pose proof (local_moved d v _ r s' _ (rl_audit_local d v) Hs') as (M1 & M2 & M3 & M4). by split_and!.
    + by apply (audited_settles _ _ _ _ _ _ _ _ _ _ _ Ha Hg).
  - rewrite (bool_decide_false (_ = UNAUDITED)) by done. cbn [andb]. exists r. split_and!; [done|apply moved_refl|done|done].
Qed.

Lemma fill_stage_ok d v r : calm -> reached (rn_store r) -> (d, v) ∈ all_units -> st_state (rn_store r) d v <> UNAUDITED ->
  exists r', fill_stage decode_audit decode_report sha256 settings tape_done stopped_at d v (st_state (rn_store r) d v) r
  = (r', Ok (st_state (rn_store r') d v)) /\ moved d v r r' /\ reached (rn_store r') /\
    st_state (rn_store r') d v ∈ [MERGE_PENDING; REPAIRED; CLEAN].
Proof using Laws Hnever Hls.
  intros Hc Hre Hin Hu. unfold fill_stage, sbind. destruct (decide (st_state (rn_store r) d v = GAPFILL_PENDING)) as [Hg|Hg].
  - assert (v = "ls") as -> by (pose proof (gapfill_vendor _ _ _ _ _ _ _ _ Hg) as Hv; rewrite Forall_forall in Hls; by apply Hls).
    rewrite (bool_decide_true (_ = GAPFILL_PENDING)), bool_decide_true by done. cbn [andb]. unfold stopped. rewrite Hnever. cbn.
    destruct (ca_fill Hc _ _ _ Hre Hin eq_refl Hg) as (s' & Hs'). unfold on_store. cbn [rn_store tick_clock]. rewrite Hs'. cbn.
    exists (add_gapfilled (set_store s' (tick_clock r))). destruct (rl_fill d "ls" _ _ Hs') as [Ha Hr]. split_and!; [done| |by eapply reached_fill|].
    + pose proof (local_moved d "ls" _ r s' _ (rl_fill_local d "ls") Hs') as (M1 & M2 & M3 & M4). by split_and!.
    + destruct (filled_state _ _ _ _ _ _ _ _ _ Hg Ha Hr) as [E|E]; cbn; rewrite E; set_solver.
  - rewrite (bool_decide_false (_ = GAPFILL_PENDING)) by done. cbn [andb]. exists r. split_and!; [done|apply moved_refl|done|].
    pose proof (no_tape_wait d v (rn_store r) Hc Hre Hin) as Ht. destruct (st_state (rn_store r) d v); try done; set_solver.
Qed.

Lemma unit_step_ok d v r : calm -> reached (rn_store r) -> (d, v) ∈ all_units -> exists r', unit_step decode_audit decode_report json_loads sha256 settings tape_done stopped_at d v r = r' /\
  moved d v (add_attempted r) r' /\ reached (rn_store r') /\ settled (st_state (rn_store r') d v) = true.
Proof using Laws Hnever Hls.
  intros Hc Hre Hin. eexists. split; [reflexivity|]. unfold unit_step, unit_body, sbind, day_state. set (r0 := add_attempted r).
  destruct (audit_stage_ok d v r0 Hc Hre Hin) as (r1 & E1 & M1 & Re1 & U1). cbv beta in E1. rewrite E1.
  destruct (fill_stage_ok d v r1 Hc Re1 Hin U1) as (r2 & E2 & M2 & Re2 & U2). cbv beta in E2. rewrite E2. pose proof (moved_trans _ _ _ _ _ M1 M2) as M12. cbn [sget].
  rewrite bool_decide_false by (intros E; rewrite E in U2; set_solver). rewrite (bool_decide_true (_ ∈ [MERGE_PENDING; REPAIRED; CLEAN])) by done. cbn [andb].
  destruct (bool_decide (v = "ls") && bool_decide (v ∈ repair_vendors settings) && negb (ev_merged_valid (evidence (rn_store r2)) d v)) eqn:Em.
  - apply andb_true_iff in Em as [[Ev%bool_decide_eq_true Erv%bool_decide_eq_true]%andb_true_iff Emv%negb_true_iff].
    unfold stopped. rewrite Hnever. unfold merge_stage, on_store. cbn [rn_store tick_clock].
    destruct (ca_merge Hc _ _ _ Re2 Hin Ev Erv U2 Emv) as (s' & Hs'). rewrite Hs'.
    destruct (rl_merge d v _ _ Hs') as (A1 & A2 & A3 & A4). split_and!; [|by eapply reached_merge|by apply (merged_state _ _ _ _ _ _ _ _ _ U2)].
    eapply moved_trans; [exact M12|]. pose proof (local_moved d v _ r2 s' _ (rl_merge_local d v) Hs') as (B1 & B2 & B3 & B4). by split_and!.
  - cbn [sret]. split_and!; [exact M12|done|]. rewrite !elem_of_cons, elem_of_nil in U2. destruct U2 as [U2|[U2|[U2|[]]]]; [|by rewrite U2..].
    destruct (merge_pending_vendor _ _ _ _ _ _ _ _ U2) as [Hv Hmv]. rewrite Forall_forall in Hls.
    rewrite Hmv, (bool_decide_true (v ∈ _)), (bool_decide_true (v = "ls")) in Em by (done || by apply Hls). done.
Qed.

Abbreviation loop := (unit_loop decode_audit decode_report json_loads sha256 settings tape_done stopped_at).
Abbreviation locked := (run_locked decode_audit decode_report json_loads sha256 settings tape_done stopped_at).

Lemma unit_loop_ok units : calm -> Forall (fun u => u ∈ all_units) units -> forall r, reached (rn_store r) ->
  rn_failed (loop units r) = rn_failed r /\ rn_waiting (loop units r) = rn_waiting r /\ rn_attempted (loop units r) = rn_attempted r + zlen units /\
  forall d v, settled (st_state (rn_store r) d v) = true \/ (d, v) ∈ units -> settled (st_state (rn_store (loop units r)) d v) = true.
Proof using Laws Hnever Hls.
  intros Hc. induction 1 as [|[d v] units Hin _ IH]; intros r Hre; cbn [unit_loop].
  - split_and!; [done|done|unfold zlen; cbn; lia|]. intros d v [?|Hin]; [done|by apply elem_of_nil in Hin].
  - rewrite Hnever. destruct (unit_step_ok d v (tick_clock r) Hc Hre Hin) as (r1 & -> & (M1 & M2 & M3 & M4) & Hre1 & Hs). cbn in M1, M2, M3.
    destruct (IH r1 Hre1) as (F & W & A & G). split_and!; [lia|lia|unfold zlen in *; cbn [length]; lia|].
    intros d' v' Hd. apply G. destruct (decide ((d', v') = (d, v))) as [[= -> ->]|Hne]; [by left|].
    destruct Hd as [Hd|[?|Hd]%elem_of_cons]; [|done|by right]. left. rewrite (same_state _ _ _ _ _ _ _ _ _ (M4 d' v' Hne)). exact Hd.
Qed.

(** C14. A repair run without faults settles its days. For every implementation of
    audit, gap fill and merge that keeps the laws [RepairLaws] (the one on files does,
    [RepairStore.store_laws]): when none of the calls the run makes fails, in any store it
    can reach by its calls ([calm]), an audit that looks usable is readable, every
    symbol with a confirmed loss has its tape, the run is never told to stop and the
    vendors under repair are the supported one only, then after the run every
    candidate is clean or repaired, and the run reports success with nothing failed
    and nothing waiting. *)
Theorem repair_run_settles : all_units <> [] -> calm ->
  let '(st', summary) := locked all_units st0 in
  Forall (fun u => settled (st_state st' (fst u) (snd u)) = true) all_units /\
  rs_status summary = "OK" /\ rs_failed summary = 0 /\ rs_waiting summary = 0.
Proof using Laws Hnever Hls.
  intros Hne Hc. assert (Hself : Forall (fun u => u ∈ all_units) all_units) by (by apply Forall_forall).
  destruct (unit_loop_ok all_units Hc Hself (run_start st0) reached_start) as (F & W & A & G). cbn in F, W, A.
  assert (Hall : Forall (fun u => settled (st_state (rn_store (loop all_units (run_start st0))) (fst u) (snd u)) = true) all_units).
  { apply Forall_forall. intros [d v] Hu. apply G. by right. }
  unfold run_locked. clear Hself Hc. revert Hne F W A G Hall. generalize all_units. intros [|u units] Hne F W A G Hall; [done|].
  cbn [rs_status rs_failed rs_waiting]. split_and!; [done| |done|done].
  unfold run_status. rewrite F, A, ?Z.add_0_l. rewrite (proj2 (Z.eqb_neq _ _)) by (unfold zlen; cbn [length]; lia).
  assert (0 =? zlen (u :: units) = false) as -> by (apply Z.eqb_neq; unfold zlen; cbn [length]; lia). cbn [negb andb orb Z.eqb].
  match goal with |- context [existsb ?p ?l] => destruct (existsb p l) eqn:E; [|done] end.
  apply existsb_exists in E as (w & Hw%list_elem_of_In & Hu%bool_decide_eq_true). rewrite Forall_forall in Hall. specialize (Hall w Hw). rewrite Hu in Hall. done.
Qed.
End Settles.

(** ** Any run *)

Section Honest.
Context {St : Type} `{Ops : RepairOps St}.
Context (decode_audit : string -> option RepairAudit) (decode_report : string -> option GapfillReport).
Context (json_loads : string -> option json) (sha256 : string -> string).
Context (settings : RepairSettings) (tape_done : list (string * Z)) (stopped_at : nat -> bool).
Context {Laws : RepairLaws St decode_audit decode_report sha256}.

Abbreviation state := (state_of decode_audit decode_report sha256 settings tape_done).
Abbreviation body := (unit_body decode_audit decode_report json_loads sha256 settings tape_done stopped_at).
Abbreviation step := (unit_step decode_audit decode_report json_loads sha256 settings tape_done stopped_at).
Abbreviation loop := (unit_loop decode_audit decode_report json_loads sha256 settings tape_done stopped_at).
Abbreviation locked := (run_locked decode_audit decode_report json_loads sha256 settings tape_done stopped_at).

(** What every stage keeps, faults or not. *)
Definition kept_by (d : Z) (v : string) (r0 r : Run St) : Prop :=
  rn_failed r = rn_failed r0 /\ rn_attempted r = rn_attempted r0 /\
  forall d' v', (d', v') <> (d, v) -> same_at (evidence (rn_store r0)) (evidence (rn_store r)) d' v'.

Lemma on_store_kept {A} d v (c : stx St unit A) r0 : local_to d v c -> hoare (kept_by d v r0) (on_store c) (fun _ => kept_by d v r0) (kept_by d v r0).
Proof.
  intros Hl r (F & A' & H). unfold on_store. pose proof (Hl (rn_store r)) as Hs. destruct (c (rn_store r)) as [s' [a|e]]; cbn in *.
  all: split_and!; [done|done|]; intros d' v' Hne; destruct (H d' v' Hne) as (?&?&?&?), (Hs d' v' Hne) as (?&?&?&?); split_and!; cbn; congruence.
Qed.

Lemma mod_kept d v (f : Run St -> Run St) r0 :
  (forall r, rn_store (f r) = rn_store r /\ rn_failed (f r) = rn_failed r /\ rn_attempted (f r) = rn_attempted r) ->
  hoare (kept_by d v r0) (smod (E := unit) f) (fun _ => kept_by d v r0) (kept_by d v r0).
Proof.
  intros Hf r (F & A' & H). cbn. destruct (Hf r) as (E1 & E2 & E3). split_and!; [congruence|congruence|]. by rewrite E1.
Qed.

Lemma state_kept d v r0 : hoare (kept_by d v r0) (day_state decode_audit decode_report sha256 settings tape_done d v) (fun _ => kept_by d v r0) (kept_by d v r0).
Proof. by intros r H. Qed.

Lemma stopped_kept d v r0 : hoare (kept_by d v r0) (stopped stopped_at) (fun _ => kept_by d v r0) (kept_by d v r0).
Proof. by intros r H. Qed.

Lemma sret_kept {A} d v r0 (a : A) : hoare (kept_by d v r0) (sret (E := unit) a) (fun _ => kept_by d v r0) (kept_by d v r0).
Proof. by intros r H. Qed.

Lemma sget_kept d v r0 : hoare (kept_by d v r0) (sget (E := unit)) (fun _ => kept_by d v r0) (kept_by d v r0).
Proof. by intros r H. Qed.

Lemma audit_stage_kept d v r0 s : hoare (kept_by d v r0) (audit_stage decode_audit decode_report json_loads sha256 settings tape_done d v s) (fun _ => kept_by d v r0) (kept_by d v r0).
Proof using Laws.
  unfold audit_stage. eapply hoare_bind; [apply sget_kept|]. intros r. cbn beta. apply hoare_if; intros _; [|apply sret_kept].
  eapply hoare_bind; [apply on_store_kept, rl_audit_local|]. intros []; [|by apply hoare_raise].
  eapply hoare_bind; [by apply mod_kept|]. intros ?. apply state_kept.
Qed.

Lemma fill_stage_kept d v r0 s : hoare (kept_by d v r0) (fill_stage decode_audit decode_report sha256 settings tape_done stopped_at d v s) (fun _ => kept_by d v r0) (kept_by d v r0).
Proof using Laws.
  unfold fill_stage. apply hoare_if; intros _; [|apply sret_kept]. eapply hoare_bind; [apply stopped_kept|]. intros []; [apply sret_kept|].
  eapply hoare_bind; [apply on_store_kept, rl_fill_local|]. intros ?. eapply hoare_bind; [by apply mod_kept|]. intros ?. apply state_kept.
Qed.

(** A unit fails at most once, and nothing but its own evidence changes. *)
Lemma unit_step_kept d v r : rn_failed r <= rn_failed (step d v r) <= rn_failed r + 1 /\ rn_attempted (step d v r) = rn_attempted r + 1 /\
  forall d' v', (d', v') <> (d, v) -> same_at (evidence (rn_store r)) (evidence (rn_store (step d v r))) d' v'.
Proof using Laws.
  set (r0 := add_attempted r).
  assert (Hb : hoare (kept_by d v r0) (body d v) (fun _ r' => rn_failed r0 <= rn_failed r' <= rn_failed r0 + 1 /\ rn_attempted r' = rn_attempted r0 /\
      forall d' v', (d', v') <> (d, v) -> same_at (evidence (rn_store r0)) (evidence (rn_store r')) d' v') (kept_by d v r0)).
  { unfold unit_body. eapply hoare_bind; [apply state_kept|]. intros s0. eapply hoare_bind; [apply audit_stage_kept|]. intros s1.
    eapply hoare_bind; [apply fill_stage_kept|]. intros s2.
    assert (Hend : forall c : stx (Run St) unit unit, hoare (kept_by d v r0) c (fun _ => kept_by d v r0) (kept_by d v r0) -> hoare (kept_by d v r0) c
      (fun (_ : unit) r' => rn_failed r0 <= rn_failed r' <= rn_failed r0 + 1 /\ rn_attempted r' = rn_attempted r0 /\
        forall d' v', (d', v') <> (d, v) -> same_at (evidence (rn_store r0)) (evidence (rn_store r')) d' v') (kept_by d v r0)).
    { intros c Hc. eapply hoare_conseq; [exact Hc|done| |done]. intros _ r' (F & A & H). split_and!; [lia|lia|done|done]. }
    eapply hoare_bind; [apply sget_kept|]. intros r1. cbn beta. apply hoare_if; intros _; [apply Hend; by apply mod_kept|].
    apply hoare_if; intros _; [|apply Hend, sret_kept]. eapply hoare_bind; [apply stopped_kept|]. intros []; [apply Hend, sret_kept|].
    intros r2 H2. unfold merge_stage. pose proof (on_store_kept d v (run_merge d v) r0 (rl_merge_local d v) r2 H2) as Hk.
    destruct (on_store (run_merge d v) r2) as [r3 [[]|e]]; destruct Hk as (F & A & H); cbn.
    all: unfold r0 in F, A, H; cbn in F, A, H; split_and!; (lia || done). }
  specialize (Hb r0 ltac:(by split_and!)). unfold unit_step. fold r0. destruct (body d v r0) as [r' [a|e]].
  - destruct Hb as (F & A & H). cbn in F, A. split_and!; [lia|lia|lia|done].
  - destruct Hb as (F & A & H). cbn in F, A |- *. split_and!; [lia|lia|lia|done].
Qed.

Lemma unit_loop_kept units : forall r, rn_failed r <= rn_failed (loop units r) /\ rn_failed (loop units r) - rn_failed r <= rn_attempted (loop units r) - rn_attempted r <= zlen units /\
  forall d v, (d, v) ∉ units -> same_at (evidence (rn_store r)) (evidence (rn_store (loop units r))) d v.
Proof using Laws.
  induction units as [|[d v] units IH]; intros r; cbn [unit_loop]; [unfold zlen; cbn; split_and!; try lia; by intros|].
  destruct (stopped_at (rn_clock r)); [unfold zlen; cbn; split_and!; try lia; by intros|].
  destruct (unit_step_kept d v (tick_clock r)) as (F & A & H). cbn in F, A, H. destruct (IH (step d v (tick_clock r))) as (F' & A' & H').
  split_and!; [lia|lia|unfold zlen in *; cbn [length]; lia|]. intros d' v' Hni. apply not_elem_of_cons in Hni as [Hne Hni].
  destruct (H d' v' Hne) as (?&?&?&?), (H' d' v' Hni) as (?&?&?&?). split_and!; congruence.
Qed.

(** Whatever calls fail and whenever it is stopped, a repair run changes nothing
    but the evidence of its candidates, a failure of one day is counted once and keeps
    no other day from being tried, success is reported only when nothing failed and no
    candidate is left unaudited, and a failed run means that every day tried failed. *)
Theorem repair_run_honest units st : let '(st', summary) := locked units st in
  0 <= rs_failed summary <= zlen units /\
  (forall d v, (d, v) ∉ units -> same_at (evidence st) (evidence st') d v) /\
  (rs_status summary = "OK" -> rs_failed summary = 0 /\ Forall (fun u => state (evidence st') (fst u) (snd u) <> UNAUDITED) units) /\
  (rs_status summary = "FAIL" -> 0 < rs_failed summary /\ rs_failed summary = rn_attempted (loop units (run_start st))) /\
  (rs_status summary = "SKIP" <-> units = []).
Proof using Laws.
  unfold run_locked. destruct (unit_loop_kept units (run_start st)) as (F & A & H). cbn in F, A.
  destruct units as [|u units]; [cbn; split_and!; try lia; try done; by intros|]. cbn [rs_failed rs_status].
  set (r := loop (u :: units) (run_start st)) in *. set (pending := existsb _ _). unfold run_status.
  split_and!; [lia|lia|done| | |].
  - destruct (negb _ && _) eqn:E1; [done|]. destruct (negb (rn_failed r =? 0) || pending) eqn:E2; [done|]. intros _. apply orb_false_iff in E2 as [E2 E3]. bprop. split; [done|].
    apply Forall_forall. intros w Hw Hu. unfold pending in E3. apply Bool.not_true_iff_false in E3. apply E3, existsb_exists. exists w. split; [by apply list_elem_of_In|by apply bool_decide_eq_true].
  - destruct (negb _ && _) eqn:E1; [|destruct (_ || _); done]. intros _. bprop. lia.
  - split; [|done]. destruct (negb _ && _); [done|]. by destruct (_ || _).
Qed.

(** ** What a success means *)

Hypothesis (Hnever : forall k, stopped_at k = false) (Hls : Forall (fun v => v = "ls") (repair_vendors settings)).

(** Through with the unit: settled, or its audit is not usable. *)
Definition through (s : RepairState) : Prop := settled s = true \/ s = UNAUDITED.

Lemma merge_end d v r : state (evidence (rn_store r)) d v ∈ [MERGE_PENDING; REPAIRED; CLEAN] ->
  let r' := fst (if bool_decide (v = "ls") && bool_decide (v ∈ repair_vendors settings) && negb (ev_merged_valid (evidence (rn_store r)) d v)
                 then merge_stage d v (tick_clock r) else (r, Ok tt)) in
  rn_failed r' = rn_failed r -> settled (state (evidence (rn_store r')) d v) = true.
Proof using Laws Hls.
  intros Hs. cbv zeta. destruct (_ && _ && _) eqn:Em.
  - unfold merge_stage, on_store. cbn [rn_store tick_clock]. destruct (run_merge d v (rn_store r)) as [s' [[]|e]] eqn:E; cbn; [|lia|lia]. intros _.
    destruct (rl_merge d v _ _ E) as (A1 & A2 & A3 & A4). by apply (merged_state _ _ _ _ _ _ _ _ _ Hs).
  - intros _. cbn [fst]. rewrite !elem_of_cons, elem_of_nil in Hs. destruct Hs as [Hs|[Hs|[Hs|[]]]]; [|by rewrite Hs..].
    destruct (merge_pending_vendor _ _ _ _ _ _ _ _ Hs) as [Hv Hmv]. rewrite Forall_forall in Hls.
    rewrite Hmv, (bool_decide_true (v ∈ _)), (bool_decide_true (v = "ls")) in Em by (done || by apply Hls). done.
Qed.

Lemma merge_stage_returns d v (r : Run St) : exists r', merge_stage d v r = (r', Ok tt).
Proof using . unfold merge_stage. destruct (on_store (run_merge d v) r) as [r' [[]|e]]; eauto. Qed.

(** From a state after the audit stage to the end of the unit. *)
Lemma after_audit d v r : let s := state (evidence (rn_store r)) d v in
  match (state <- fill_stage decode_audit decode_report sha256 settings tape_done stopped_at d v s;;
         r <- sget;;
         if bool_decide (state = TAPE_PENDING) then smod add_waiting
         else if bool_decide (state ∈ [MERGE_PENDING; REPAIRED; CLEAN]) && bool_decide (v = "ls")
                 && bool_decide (v ∈ repair_vendors settings) && negb (ev_merged_valid (evidence (rn_store r)) d v)
         then stop <- stopped stopped_at;; if stop : bool then sret tt else merge_stage d v
         else sret tt)%py r with
  | (r', Ok _) => rn_failed r' = rn_failed r -> rn_waiting r' = rn_waiting r -> through (state (evidence (rn_store r')) d v)
  | (r', Raise _) => rn_failed r' = rn_failed r
  end.
Proof using Laws Hls Hnever json_loads.
  cbv zeta. assert (Hend : forall r1, state (evidence (rn_store r1)) d v <> GAPFILL_PENDING ->
    match (if bool_decide (state (evidence (rn_store r1)) d v = TAPE_PENDING) then smod add_waiting
           else if bool_decide (state (evidence (rn_store r1)) d v ∈ [MERGE_PENDING; REPAIRED; CLEAN]) && bool_decide (v = "ls")
                   && bool_decide (v ∈ repair_vendors settings) && negb (ev_merged_valid (evidence (rn_store r1)) d v)
           then (stop <- stopped stopped_at;; if stop : bool then sret tt else merge_stage d v)%py else sret tt) r1 with
    | (r', Ok _) => rn_failed r' = rn_failed r1 -> rn_waiting r' = rn_waiting r1 -> through (state (evidence (rn_store r')) d v)
    | (r', Raise _) => rn_failed r' = rn_failed r1
    end).
  { intros r1 Hg. destruct (decide (state (evidence (rn_store r1)) d v = TAPE_PENDING)) as [Ht|Ht].
    - rewrite bool_decide_true by done. cbn. lia.
    - rewrite bool_decide_false by done. destruct (decide (state (evidence (rn_store r1)) d v ∈ [MERGE_PENDING; REPAIRED; CLEAN])) as [Hs|Hs].
      + rewrite (bool_decide_true (_ ∈ [MERGE_PENDING; REPAIRED; CLEAN])) by done. cbn [andb]. pose proof (merge_end d v r1 Hs) as Hm. cbv zeta in Hm.
        destruct (_ && _ && _); [|cbn; intros _ _; left; by apply Hm]. unfold sbind, stopped. rewrite Hnever.
        destruct (merge_stage_returns d v (tick_clock r1)) as [r' Er]. rewrite Er in Hm |- *. cbn [fst] in Hm. intros F _. left. by apply Hm.
      + rewrite (bool_decide_false (_ ∈ [MERGE_PENDING; REPAIRED; CLEAN])) by done. cbn. intros _ _. right.
        destruct (state (evidence (rn_store r1)) d v); try done; exfalso; apply Hs; set_solver. }
  unfold fill_stage. destruct (decide (state (evidence (rn_store r)) d v = GAPFILL_PENDING)) as [Hg|Hg].
  - assert (v = "ls") as -> by (pose proof (gapfill_vendor _ _ _ _ _ _ _ _ Hg) as Hv; rewrite Forall_forall in Hls; by apply Hls).
    rewrite (bool_decide_true (_ = GAPFILL_PENDING)), (bool_decide_true ("ls" = "ls")) by done. cbn [andb]. unfold sbind at 1 2, stopped at 1. rewrite Hnever.
    unfold sbind at 1, on_store. cbn [rn_store tick_clock]. destruct (run_fill d "ls" (rn_store r)) as [s' [[]|e]] eqn:E; [|done].
    destruct (rl_fill d "ls" _ _ E) as [Ha Hr]. unfold sbind at 1, smod, day_state.
    set (r1 := add_gapfilled (set_store s' (tick_clock r))). unfold sbind at 1, sget. apply (Hend r1).
    destruct (filled_state _ _ _ _ _ _ _ _ _ Hg Ha Hr) as [Es|Es]; cbn; rewrite Es; done.
  - rewrite (bool_decide_false (_ = GAPFILL_PENDING)) by done. cbn [andb]. unfold sbind at 1, sret at 1. unfold sbind at 1, sget. by apply Hend.
Qed.

Lemma unit_step_through d v r : rn_failed (step d v r) = rn_failed r -> rn_waiting (step d v r) = rn_waiting r ->
  through (state (evidence (rn_store (step d v r))) d v).
Proof using Laws Hls Hnever.
  assert (Hst : let r0 := add_attempted r in
    match audit_stage decode_audit decode_report json_loads sha256 settings tape_done d v (state (evidence (rn_store r0)) d v) r0 with
    | (r1, Ok s) => s = state (evidence (rn_store r1)) d v /\ rn_failed r1 = rn_failed r /\ rn_waiting r1 = rn_waiting r
    | (r1, Raise _) => rn_failed r1 = rn_failed r
    end).
  { cbv zeta. unfold audit_stage, sbind, sget. destruct (_ && _); [|done]. unfold on_store. destruct (run_audit d v (rn_store (add_attempted r))) as [s' [[]|e]]; done. }
  assert (Hb : match body d v (add_attempted r) with
    | (r', Ok _) => rn_failed r' = rn_failed r -> rn_waiting r' = rn_waiting r -> through (state (evidence (rn_store r')) d v)
    | (r', Raise _) => rn_failed r' = rn_failed r
    end).
  { unfold unit_body. unfold sbind at 1, day_state at 1. unfold sbind at 1. cbv zeta in Hst.
    destruct (audit_stage _ _ _ _ _ _ d v _ (add_attempted r)) as [r1 [s|e]]; [|exact Hst]. destruct Hst as (-> & F & W).
    pose proof (after_audit d v r1) as Ha. cbv zeta in Ha. match goal with |- match ?c with _ => _ end => destruct c as [r' [a|e]] end; rewrite F in Ha; [by rewrite W in Ha|done]. }
  unfold unit_step. destruct (body d v (add_attempted r)) as [r' [a|e]]; [exact Hb|]. cbn. lia.
Qed.

(** A property of the counters that every update keeps holds after the unit. *)
Lemma body_counters (P : Run St -> Prop) d v : (forall r s, P r -> P (set_store s r)) -> (forall r, P r -> P (tick_clock r)) ->
  (forall r, P r -> P (add_audited r)) -> (forall r, P r -> P (add_gapfilled r)) -> (forall r, P r -> P (add_waiting r)) ->
  (forall r, P r -> P (add_failed r)) -> (forall r, P r -> P (add_merged r)) -> hoare P (body d v) (fun _ => P) P.
Proof using .
  intros Hs Ht Ha Hg Hw Hf Hm.
  assert (Hst : forall A (c : stx St unit A), hoare P (on_store c) (fun _ => P) P).
  { intros A c r Hr. unfold on_store. destruct (c (rn_store r)) as [s' [a|e]]; by apply Hs. }
  assert (Hget : hoare P (sget (E := unit)) (fun _ => P) P) by (intros r Hr; exact Hr).
  assert (Hday : hoare P (day_state decode_audit decode_report sha256 settings tape_done d v) (fun _ => P) P) by (intros r Hr; exact Hr).
  assert (Hstop : hoare P (stopped stopped_at) (fun _ => P) P) by (intros r Hr; by apply Ht).
  assert (Hret : forall A (a : A), hoare P (sret (E := unit) a) (fun _ => P) P) by (intros A a r Hr; exact Hr).
  assert (Hmod : forall f, (forall r, P r -> P (f r)) -> hoare P (smod (E := unit) f) (fun _ => P) P) by (intros f Hf' r Hr; by apply Hf').
  unfold unit_body. eapply hoare_bind; [exact Hday|]. intros s0. eapply hoare_bind.
  { unfold audit_stage. eapply hoare_bind; [exact Hget|]. intros r. apply hoare_if; intros _; [|apply Hret].
    eapply hoare_bind; [apply Hst|]. intros []; [|by apply hoare_raise]. eapply hoare_bind; [by apply Hmod|]. intros ?. exact Hday. }
  intros s1. eapply hoare_bind.
  { unfold fill_stage. apply hoare_if; intros _; [|apply Hret]. eapply hoare_bind; [exact Hstop|]. intros []; [apply Hret|].
    eapply hoare_bind; [apply Hst|]. intros ?. eapply hoare_bind; [by apply Hmod|]. intros ?. exact Hday. }
  intros s2. eapply hoare_bind; [exact Hget|]. intros r. apply hoare_if; intros _; [by apply Hmod|]. apply hoare_if; intros _; [|apply Hret].
  eapply hoare_bind; [exact Hstop|]. intros []; [apply Hret|]. intros r1 Hr1. unfold merge_stage. pose proof (Hst _ (run_merge d v) r1 Hr1) as Hk.
  destruct (on_store (run_merge d v) r1) as [r2 [[]|e]]; auto.
Qed.

Lemma waiting_mono d v r : rn_waiting r <= rn_waiting (step d v r).
Proof using .
  pose proof (body_counters (fun r' => rn_waiting r <= rn_waiting r') d v) as Hb. unfold unit_step.
  specialize (Hb ltac:(done) ltac:(done) ltac:(done) ltac:(done) ltac:(intros ? Hx; cbn in *; lia) ltac:(done) ltac:(done) (add_attempted r) ltac:(cbn; lia)).
  destruct (body d v (add_attempted r)) as [r' [a|e]]; done.
Qed.

Lemma loop_waiting units : forall r, rn_waiting r <= rn_waiting (loop units r).
Proof using .
  induction units as [|[d v] units IH]; intros r; cbn [unit_loop]; [lia|]. destruct (stopped_at _); [cbn; lia|].
  pose proof (waiting_mono d v (tick_clock r)). pose proof (IH (step d v (tick_clock r))). cbn in *. lia.
Qed.

Lemma loop_through units : forall r, rn_failed (loop units r) = rn_failed r -> rn_waiting (loop units r) = rn_waiting r ->
  forall d v, through (state (evidence (rn_store r)) d v) \/ (d, v) ∈ units -> through (state (evidence (rn_store (loop units r))) d v).
Proof using Laws Hls Hnever.
  induction units as [|[d v] units IH]; intros r; cbn [unit_loop]; [intros _ _ d v [?|Hin]; [done|by apply elem_of_nil in Hin]|]. rewrite Hnever. intros F W d' v' Hd.
  destruct (unit_step_kept d v (tick_clock r)) as (F1 & _ & H1). cbn in F1, H1. pose proof (waiting_mono d v (tick_clock r)) as W1. cbn in W1.
  destruct (unit_loop_kept units (step d v (tick_clock r))) as (F2 & _ & _). pose proof (loop_waiting units (step d v (tick_clock r))) as W2.
  apply IH; [lia|lia|]. destruct (decide ((d', v') = (d, v))) as [[= -> ->]|Hne]; [left; apply unit_step_through; cbn; lia|].
  destruct Hd as [Hd|[?|Hd]%elem_of_cons]; [|done|by right]. left. by rewrite (same_state _ _ _ _ _ _ _ _ _ (H1 d' v' Hne)).
Qed.

(** A run that was never told to stop and reports success with nothing waiting for
    a tape has settled every candidate: each is clean or repaired. *)
Theorem repair_run_success units st : let '(st', summary) := locked units st in
  rs_status summary = "OK" -> rs_waiting summary = 0 ->
  Forall (fun u => settled (state (evidence st') (fst u) (snd u)) = true) units.
Proof using Laws Hls Hnever.
  unfold run_locked. destruct units as [|u units]; [cbn; intros; constructor|]. cbn [rs_status rs_waiting]. set (r := loop (u :: units) (run_start st)).
  destruct (existsb _ _) eqn:Ep; unfold run_status; [rewrite orb_true_r; by destruct (negb _ && _)|]. rewrite orb_false_r.
  destruct (negb _ && _); [done|]. destruct (negb (rn_failed r =? 0)) eqn:Ef; [done|]. intros _ Hw. bprop.
  apply Forall_forall. intros [d v] Hin. cbn [fst snd].
  destruct (loop_through (u :: units) (run_start st) ltac:(done) ltac:(done) d v ltac:(by right)) as [Hs|Hs]; [exact Hs|]. exfalso.
  apply Bool.not_true_iff_false in Ep. apply Ep, existsb_exists. exists (d, v). split; [by apply list_elem_of_In|]. by apply bool_decide_eq_true.
Qed.
End Honest.
