(* ===== verification/RepairStore.v ===== *)
(** * The repair run on files

    The interface of the repair run implemented by the audit files, the gap-fill report
    and rows, and the merged table: the gap fill is [FillDay.fill_gaps], the merge
    [RepairMerge.build_repaired_ticks]. The derivation of the audit, the reading of its
    ledgers, the journal's trades and the text of the report are arguments. *)
From Stdlib Require Import Ascii SpecFloat.
From S2P Require Import Prelude PyStr PyTime PyFloat MarketPhase Layout Calendar ExecJournal Retention Remote Eod Repair L0Decode LossLedger PyColl Gapfill GapfillFacts GapfillProps GapfillPeers FillDay RepairMerge RepairMergeFacts RepairTopup RepairBuild RepairJob RepairJobFacts.

Abbreviation unit_key := (Z * string)%type.

(** Files by day and vendor: bytes and mtime of audit and report, rows, and the disk of the merge. *)
Record JobStore := mkStore {
  js_audit : list (unit_key * (string * Z)); js_report : list (unit_key * (string * Z));
  js_rows : list (unit_key * list GapRow); js_disk : list (unit_key * TicksDisk)
}.

Section Store.
Context (json_loads : string -> option json) (sha256 : string -> string) (settings : RepairSettings).
Context (derive_audit : Z -> string -> option (string * bool)) (ledgers_of : string -> option (list SymbolLedger)).
Context (encode_report : GapfillTotals -> string -> string).
Context (ticks : Z -> string -> list ReceivedTick) (live : Z -> string -> list LiveTick).
Context (peer_trades : list SymbolLedger -> string -> Z -> list (string * list PeerTrade)).
Context (tape : Z -> list TapeRow) (topup_tape : Z -> option (list TapeRec)).
Context (now batch_rows stamp : Z) (tolerance : pyfloat) (faults : Z -> string -> MergeFaults).

Definition disk_of (s : JobStore) (d : Z) (v : string) : TicksDisk := default (mkDisk None None) (dget (js_disk s) (d, v)).
Definition audit_raw (s : JobStore) (d : Z) (v : string) : option string := option_map fst (dget (js_audit s) (d, v)).

Definition store_evidence (s : JobStore) : Evidence :=
  mkEvidence (fun d v => dget (js_audit s) (d, v)) (fun d v => option_map fst (dget (js_report s) (d, v)))
    (fun d v => option_map snd (dget (js_report s) (d, v))) (fun _ _ => true) (fun d v => dmem (js_audit s) (d, v))
    (fun d v => repaired_ticks_valid sha256 d v (audit_raw s d v) (disk_of s d v)).

(** [derive_session_audit] and [write_session_audit]; [false] is an unavailable audit. *)
Definition store_audit (d : Z) (v : string) : stx JobStore unit bool :=
  fun s => match derive_audit d v with
           | None => (s, Raise tt)
           | Some (bytes, available) => (mkStore (dset (js_audit s) (d, v) (bytes, now)) (js_report s) (js_rows s) (js_disk s), Ok available)
           end.

(** The peers of a vendor and their trades in the gaps. *)
Definition peers_data (audit : list SymbolLedger) (d : Z) (v : string) : list peer_data :=
  map (fun peer => (peer, bool_decide (peer ∈ xvendor_conflating_peers settings), peer_trades audit peer d))
    (List.filter (fun peer => negb (bool_decide (peer = v))) (xvendor_peers settings)).

Definition store_fill (d : Z) (v : string) : stx JobStore unit unit :=
  fun s =>
    match (raw ← audit_raw s d v; audit ← ledgers_of raw;
           '(rows, outcomes) ← fill_gaps audit (ticks d v) (peers_data audit d v) (tape d);
           Some (raw, rows, outcomes)) with
    | None => (s, Raise tt)
    | Some (raw, rows, outcomes) =>
        (mkStore (js_audit s) (dset (js_report s) (d, v) (encode_report (summarize_gapfill outcomes) (sha256 raw), now))
           (dset (js_rows s) (d, v) rows) (js_disk s), Ok tt)
    end.

Definition merge_input (s : JobStore) (d : Z) (v : string) : MergeInput :=
  mkInput (audit_raw s d v) (option_map snd (dget (js_audit s) (d, v))) (option_map fst (dget (js_report s) (d, v)))
    (option_map snd (dget (js_report s) (d, v))) (dmem (js_rows s) (d, v)) (dget (js_rows s) (d, v)) (live d v) (topup_tape d).

Definition store_merge (d : Z) (v : string) : stx JobStore unit bool :=
  fun s =>
    let '(disk, result) := build_repaired_ticks json_loads sha256 d v batch_rows tolerance stamp (faults d v) (merge_input s d v) (disk_of s d v) in
    (mkStore (js_audit s) (js_report s) (js_rows s) (dset (js_disk s) (d, v) disk),
     match result with Some summary => Ok (sm_ok summary) | None => Raise tt end).

Definition store_ops : RepairOps JobStore := {|
  evidence := store_evidence; run_audit := store_audit; run_fill := store_fill; run_merge := store_merge
|}.

(** ** The laws *)

Context (decode_audit : string -> option RepairAudit) (decode_report : string -> option GapfillReport).
Hypothesis (Hbatch : 0 < batch_rows).
Hypothesis (Haudit : forall d v bytes, derive_audit d v = Some (bytes, true) -> exists audit, decode_audit bytes = Some audit /\
  ad_session_date audit = d /\ ad_vendor audit = v /\ (ad_confirmed audit <> 0 -> gap_symbols audit <> [])).
Hypothesis (Hreport : forall totals sha, exists body, decode_report (encode_report totals sha) = Some body /\ dget (rp_notes body) "audit_sha256" = Some (JStr sha)).

Lemma store_merge_ok d v s s' : store_merge d v s = (s', Ok true) ->
  js_audit s' = js_audit s /\ js_report s' = js_report s /\ repaired_ticks_valid sha256 d v (audit_raw s d v) (disk_of s' d v) = true.
Proof using Hbatch.
  unfold store_merge. destruct (decide (v = "ls")) as [->|Hne].
  - destruct (build_repaired_ticks _ _ _ _ _ _ _ _ _ _) as [disk [summary|]] eqn:Hb; [|done]. intros [= <- Hok].
    split_and!; [done|done|]. unfold disk_of. cbn [js_disk]. rewrite dget_dset_eq. by apply (build_valid _ _ _ _ _ _ Hbatch _ _ _ _ _ Hb).
  - unfold build_repaired_ticks. rewrite bool_decide_false by done. done.
Qed.

Ltac other_unit :=
  unfold same_at; cbn [evidence store_ops store_evidence ev_audit ev_report ev_report_mtime ev_merged_valid fst]; unfold audit_raw, disk_of;
  cbn [js_audit js_report js_disk]; rewrite ?dget_dset_ne by congruence; repeat split; reflexivity.

Lemma store_laws : RepairLaws JobStore (H := store_ops) decode_audit decode_report sha256.
Proof using Hbatch Haudit Hreport.
  split.
  - intros d v s d' v' Hne. cbn [run_audit store_ops]. unfold store_audit. destruct (derive_audit d v) as [[bytes ok]|]; [|by repeat split].
    other_unit.
  - intros d v s d' v' Hne. cbn [run_fill store_ops]. unfold store_fill. destruct (audit_raw s d v ≫= _) as [[[raw rows] outcomes]|]; [|by repeat split].
    other_unit.
  - intros d v s d' v' Hne. cbn [run_merge store_ops]. unfold store_merge. destruct (build_repaired_ticks _ _ _ _ _ _ _ _ _ _) as [disk result].
    other_unit.
  - intros d v s s'. cbn [run_audit store_ops]. unfold store_audit. destruct (derive_audit d v) as [[bytes ok]|] eqn:E; [|done]. intros [= <- ->].
    destruct (Haudit d v bytes E) as (audit & Hd & Hday & Hv & Hg). exists bytes, now, audit. split; [|done]. split_and!; [|done|done|done]. cbn. by rewrite dget_dset_eq.
  - intros d v s s'. cbn [run_fill store_ops]. unfold store_fill. destruct (audit_raw s d v ≫= _) as [[[raw rows] outcomes]|] eqn:E; [|done]. intros [= <-].
    apply bind_Some in E as (raw' & Hraw & E). apply bind_Some in E as (au & _ & E). apply bind_Some in E as ([rw oc] & _ & [= -> -> ->]).
    split; [done|]. intros bytes mtime Hb. cbn in Hb. unfold audit_raw in Hraw. rewrite Hb in Hraw. injection Hraw as <-.
    destruct (Hreport (summarize_gapfill outcomes) (sha256 bytes)) as (body & Hdec & Hn). apply report_valid_some. eexists _, body. cbn. rewrite dget_dset_eq. split_and!; [done|done|by left].
  - intros d v s s' E. apply store_merge_ok in E as (E1 & E2 & E3). cbn. rewrite E1, E2. split_and!; try done. unfold audit_raw. rewrite E1. exact E3.
Qed.
End Store.

(** ** A day repaired in one run *)

(** The day of [FillDay] with counters: trades 10 and 13 of its first gap's bounds,
    14 and 16 of its second's, as the audit saw them. *)
Definition job_live : list LiveTick :=
  [mkLive "005930" "090000" 100 1 1 0; mkLive "005930" "090002" 101 2 4 0; mkLive "005930" "090003" 100 1 6 0].
Definition job_ticks : list ReceivedTick :=
  [mkTick "005930" 90000 1 100 1; mkTick "005930" 90002 4 101 2; mkTick "005930" 90003 6 100 1].
Definition job_audit : list SymbolLedger :=
  [mkSymbolLedger "005930" false 3 6 3 0 3 15 0 0 0 0
     [day_interval 2 12 1 4 "090000" "090002" 1001 1013; day_interval 1 3 4 6 "090002" "090003" 1015 1018] 0 None].

Definition job_totals : json := JObj [("trades_observed", JInt 6); ("confirmed_missing", JInt 3); ("trades_received", JInt 3)].

Definition job_json (text : string) : option json :=
  if bool_decide (text = "audit") then
    Some (JObj [("status", JStr "OK"); ("session_date", JStr (date_isoformat 20759)); ("vendor", JStr "ls"); ("venue", JStr "krx"); ("session", JStr "regular"); ("totals", job_totals)])
  else sha ← str_after "report:" text;
       Some (JObj [("totals", JObj [("recovered", JInt 3); ("residual", JInt 0)]); ("intervals", JArr []); ("notes", JObj [("audit_sha256", JStr sha)])]).

Definition job_decode_audit (text : string) : option RepairAudit :=
  if bool_decide (text = "audit") then Some (mkAuditDoc 20759 "ls" 3 [("005930", 3)]) else None.
Definition job_decode_report (text : string) : option GapfillReport :=
  sha ← str_after "report:" text; Some (mkReport 0 [("audit_sha256", JStr sha)]).

Definition job_derive (d : Z) (v : string) : option (string * bool) :=
  if bool_decide (d = 20759) && bool_decide (v = "ls") then Some ("audit", true) else None.

Definition job_peers (audit : list SymbolLedger) (peer : string) (d : Z) : list (string * list PeerTrade) :=
  if bool_decide (peer = "kis") then [("005930", [mkPeer 1006 90001 100 5])] else [].

Definition job_settings : RepairSettings := mkRepairSettings true true 30 ["ls"; "kis"] ["ls"] ["ls"; "kis"] [].

Definition job_ops : RepairOps JobStore :=
  store_ops job_json id job_settings job_derive (fun _ => Some job_audit) (fun _ sha => String.append "report:" sha)
    (fun _ _ => job_ticks) (fun _ _ => job_live) job_peers (fun _ => demo_tape) (fun _ => None) 5 250000 7 (float_lit 2 2)
    (fun _ _ => mkFaults false false false false false).

Lemma job_laws : RepairLaws JobStore (H := job_ops) job_decode_audit job_decode_report id.
Proof.
  apply store_laws; [done| |].
  - intros d v bytes. unfold job_derive. destruct (_ && _) eqn:E; [|done]. intros [= <-]. bprop. subst. exists (mkAuditDoc 20759 "ls" 3 [("005930", 3)]). done.
  - intros totals sha. exists (mkReport 0 [("audit_sha256", JStr sha)]). split; [|done]. unfold job_decode_report. by rewrite str_after_app.
Qed.

Abbreviation job_run := (run_locked (H := job_ops) job_decode_audit job_decode_report job_json id job_settings [("005930", 20759)] (fun _ => false)
  [(20759, "ls")] (mkStore [] [] [] [])).

Lemma job_report : snd job_run = mkRunSummary "OK" 1 1 1 0 0 1.
Proof. vm_compute. reflexivity. Qed.

Lemma repair_run_success_witness :
  settled (state_of job_decode_audit job_decode_report id job_settings [("005930", 20759)] (store_evidence id (fst job_run)) 20759 "ls") = true.
Proof.
  pose proof (repair_run_success (Ops := job_ops) (Laws := job_laws) job_decode_audit job_decode_report job_json id job_settings [("005930", 20759)] (fun _ => false)
    (fun _ => eq_refl) ltac:(repeat constructor) [(20759, "ls")] (mkStore [] [] [] [])) as H.
  pose proof job_report as Hr. destruct job_run as [st' summary]. cbn [snd fst] in *. subst summary. specialize (H eq_refl eq_refl). by apply Forall_inv in H.
Defined.

Lemma repair_run_honest_witness : let '(st', summary) := job_run in
  rs_status summary = "OK" /\ rs_failed summary = 0 /\ rs_merged summary = 1 /\
  same_at (store_evidence id (mkStore [] [] [] [])) (store_evidence id st') 20758 "ls".
Proof.
  pose proof (repair_run_honest (Ops := job_ops) (Laws := job_laws) job_decode_audit job_decode_report job_json id job_settings [("005930", 20759)] (fun _ => false)
    [(20759, "ls")] (mkStore [] [] [] [])) as H.
  pose proof job_report as Hr. destruct job_run as [st' summary]. cbn [snd] in Hr. subst summary. destruct H as (_ & H & _). split_and!; [done|done|done|].
  apply H. rewrite list_elem_of_singleton. discriminate.
Defined.

(** ** The run on files meets the conditions of a calm run *)

Definition job_start : JobStore := mkStore [] [] [] [].
Definition job_audited : JobStore := fst (run_audit (RepairOps := job_ops) 20759 "ls" job_start).
Definition job_filled : JobStore := fst (run_fill (RepairOps := job_ops) 20759 "ls" job_audited).
Definition job_merged : JobStore := fst (run_merge (RepairOps := job_ops) 20759 "ls" job_filled).

Abbreviation job_state s := (state_of job_decode_audit job_decode_report id job_settings [("005930", 20759)] (evidence (RepairOps := job_ops) s) 20759 "ls").

(** The day's states: its loss of three trades is confirmed, filled and merged. *)
Lemma job_calls :
  (job_state job_start = UNAUDITED /\ run_audit (RepairOps := job_ops) 20759 "ls" job_start = (job_audited, Ok true)) /\
  (job_state job_audited = GAPFILL_PENDING /\ run_fill (RepairOps := job_ops) 20759 "ls" job_audited = (job_filled, Ok tt)) /\
  (job_state job_filled = MERGE_PENDING /\ run_merge (RepairOps := job_ops) 20759 "ls" job_filled = (job_merged, Ok true)) /\
  job_state job_merged = REPAIRED /\ existing_audit_ok job_json (evidence (RepairOps := job_ops) job_start) 20759 "ls" = false /\
  ev_merged_valid (evidence (RepairOps := job_ops) job_merged) 20759 "ls" = true.
Proof. vm_compute. auto 10. Qed.

#[local] Opaque job_start job_audited job_filled job_merged.

Abbreviation job_reached := (reached (Ops := job_ops) job_decode_audit job_decode_report job_json id job_settings [("005930", 20759)] [(20759, "ls")] job_start).

Lemma call_det {A B} {x : A * B} {a b a' b'} : x = (a, b) -> x = (a', b') -> a' = a.
Proof. intros ->. by intros [= ->]. Qed.

(** A store in one state is in no other. *)
Ltac job_absurd Hs S := exfalso; clear - Hs S; rewrite S in Hs; first [discriminate Hs | set_solver].

Lemma job_tape d bytes audit : job_decode_audit bytes = Some audit -> d = 20759 -> tape_pending [("005930", 20759)] d audit <= 0.
Proof. unfold job_decode_audit. destruct (bool_decide _); [|discriminate]. intros [= <-] ->. vm_compute. discriminate. Qed.

(** The stores of the run, in the order of its calls. *)
Lemma job_reached_stores s : job_reached s ->
  s = job_start \/ s = job_audited \/ s = job_filled \/ s = job_merged.
Proof.
  destruct job_calls as ((S0 & C0) & (S1 & C1) & (S2 & C2) & S3 & _ & V3).
  induction 1 as [|s s' d v _ IH Hin Hs _ Hc|s s' d v _ IH Hin _ Hs Hc|s s' d v _ IH Hin _ _ Hs Hv Hc]; [by left|..];
    apply list_elem_of_singleton in Hin; injection Hin as -> ->.
  - destruct IH as [->|[->|[->| ->]]]; [|job_absurd Hs S1|job_absurd Hs S2|job_absurd Hs S3].
    rewrite (call_det C0 Hc). auto.
  - destruct IH as [->|[->|[->| ->]]]; [job_absurd Hs S0| |job_absurd Hs S2|job_absurd Hs S3].
    rewrite (call_det C1 Hc). auto.
  - destruct IH as [->|[->|[->| ->]]]; [job_absurd Hs S0|job_absurd Hs S1| |rewrite V3 in Hv; discriminate Hv].
    rewrite (call_det C2 Hc). auto.
Qed.

Lemma job_calm : calm (Ops := job_ops) job_decode_audit job_decode_report job_json id job_settings [("005930", 20759)] [(20759, "ls")] job_start.
Proof.
  destruct job_calls as ((S0 & C0) & (S1 & C1) & (S2 & C2) & S3 & E0 & V3).
  split; intros s d v; [| | | |intros bytes mtime audit _ Hin (_ & Hd & _); apply list_elem_of_singleton in Hin; injection Hin as Hd' _; exact (job_tape d bytes audit Hd Hd')];
    intros Hr%job_reached_stores Hin; apply list_elem_of_singleton in Hin; injection Hin as -> ->.
  - intros Hs _. destruct Hr as [->|[->|[->| ->]]]; [exists job_audited; exact C0|job_absurd Hs S1|job_absurd Hs S2|job_absurd Hs S3].
  - intros _ Hs. destruct Hr as [->|[->|[->| ->]]]; [job_absurd Hs S0|exists job_filled; exact C1|job_absurd Hs S2|job_absurd Hs S3].
  - intros _ _ Hs Hv. destruct Hr as [->|[->|[->| ->]]];
      [job_absurd Hs S0|job_absurd Hs S1|exists job_merged; exact C2|rewrite V3 in Hv; discriminate Hv].
  - intros He Hs. destruct Hr as [->|[->|[->| ->]]]; [rewrite E0 in He; discriminate He|job_absurd Hs S1|job_absurd Hs S2|job_absurd Hs S3].
Qed.

Lemma repair_run_settles_witness : let '(st', summary) := job_run in
  settled (state_of job_decode_audit job_decode_report id job_settings [("005930", 20759)] (store_evidence id st') 20759 "ls") = true /\
  rs_status summary = "OK" /\ rs_gapfilled summary = 1 /\ rs_merged summary = 1.
Proof.
  pose proof (repair_run_settles (Ops := job_ops) (Laws := job_laws) job_decode_audit job_decode_report job_json id job_settings [("005930", 20759)] (fun _ => false)
    [(20759, "ls")] job_start (fun _ => eq_refl) ltac:(repeat constructor) ltac:(discriminate) job_calm) as H.
  pose proof job_report as Hr. change job_start with (mkStore [] [] [] []) in H. destruct job_run as [st' summary]. cbn [snd] in Hr. subst summary.
  destruct H as (Ha & Hs & _). apply Forall_inv in Ha. split_and!; [exact Ha|exact Hs|reflexivity|reflexivity].
Defined.
