(* ===== verification/Membership.v ===== *)
(** * The membership ledger ([src/universe/membership.py])

    Which symbols a session collects, since when and on which feed, as an
    append-only file of JSON lines that several processes write. A failing append
    can leave any part of its bytes in the file. The JSON text codec is an interface;
    [RowCodecLaws] says what the ledger relies on. Also the symbol shape of
    [src/core/symbols.py] and the security status of [src/universe/status_policy.py]. *)
From Stdlib Require Import Ascii.
From S2P Require Import Prelude PyStr PyFloat ExecContracts ExecJournal.

(** Exceptions of the universe components. *)
Inductive uni_exc := MembershipFileError | DynamicAdmissionsFileError | OsErr | ValueErr | OverflowErr.

(** ** Symbols *)

(** The pattern of a KRX short code: six digits or upper-case letters. *)
Definition code_char (c : ascii) : bool :=
  let n := nat_of_ascii c in ((48 <=? n)%nat && (n <=? 57)%nat) || ((65 <=? n)%nat && (n <=? 90)%nat).
Definition is_krx_short_code (code : string) : bool :=
  bool_decide (length (s2l code) = 6%nat) && forallb code_char (s2l code).

(** ** Security status *)

Inductive WarningLevel := WL_NONE | WL_CAUTION | WL_WARNING | WL_RISK | WL_UNKNOWN.
Definition warning_value (w : WarningLevel) : string :=
  match w with WL_NONE => "none" | WL_CAUTION => "caution" | WL_WARNING => "warning" | WL_RISK => "risk" | WL_UNKNOWN => "unknown" end.

Definition EXCLUSION_FLAG_SOURCES : list (string * string) :=
  [("managed", "managed"); ("halted", "trading_halted"); ("liquidation", "liquidation_trading");
   ("short_overheated", "short_overheated")].
Definition WARNING_CODE_LEVELS : list (string * WarningLevel) :=
  [("00", WL_NONE); ("01", WL_CAUTION); ("02", WL_WARNING); ("03", WL_RISK)].

Record StatusVerdict := mkVerdict { sv_exclude : bool; sv_level : WarningLevel; sv_flags : list string }.

(** [status.get(key) is True], [is False] and comparison with a text. *)
Definition jtrue (o : option json) : bool := match o with Some (JBool true) => true | _ => false end.
Definition jfalse (o : option json) : bool := match o with Some (JBool false) => true | _ => false end.

Definition classify_security_status (status : list (string * json)) : StatusVerdict :=
  let flags := map fst (List.filter (fun '(_, key) => jtrue (dget status key)) EXCLUSION_FLAG_SOURCES) in
  let more := (if jis (dget status "status_code") "57" then ["margin_100"] else [])
              ++ (if jfalse (dget status "credit_available") then ["credit_unavailable"] else []) in
  let level := match dget status "market_warning_code" with
               | Some (JStr code) => default WL_UNKNOWN (dget WARNING_CODE_LEVELS code)
               | _ => WL_UNKNOWN
               end in
  mkVerdict (negb (bool_decide (flags = []))) level (py_sorted str_leb (flags ++ more)).

(** ** Rows *)

Definition TIER_RANK : list (string * Z) := [("C", 0); ("B", 1); ("A", 2)].
Definition ACK_SOURCE : string := "ack".

Record MembershipRow := mkRow {
  m_symbol : string; m_tier : string; m_source : string; m_decided_at_ns : Z;
  m_direction : option string; m_warning_level : option string;
  m_ls_shard : option Z; m_kis_slot : option string; m_trade_value_krw : option Z; m_reason : option string
}.
#[global] Instance row_eq_dec : EqDecision MembershipRow.
Proof. solve_decision. Defined.

Definition FIELD_NAMES : list string :=
  ["symbol"; "tier"; "source"; "decided_at_ns"; "direction"; "warning_level"; "ls_shard"; "kis_slot";
   "trade_value_krw"; "reason"].

Definition is_int (v : json) : bool := match v with JInt _ => true | _ => false end.
Definition is_str (v : json) : bool := match v with JStr _ => true | _ => false end.
Definition is_optional_str (v : json) : bool := match v with JNull | JStr _ => true | _ => false end.
Definition is_optional_int (v : json) : bool := match v with JNull | JInt _ => true | _ => false end.
Definition is_tier (v : json) : bool := match v with JStr s => dmem TIER_RANK s | _ => false end.

Definition FIELD_VALIDATORS : list (string * (json -> bool)) :=
  [("symbol", is_str); ("tier", is_tier); ("source", is_str); ("decided_at_ns", is_int);
   ("direction", is_optional_str); ("warning_level", is_optional_str); ("ls_shard", is_optional_int);
   ("kis_slot", is_optional_str); ("trade_value_krw", is_optional_int); ("reason", is_optional_str)].

(** The typed value of a validated field. *)
Definition as_str (v : json) : string := match v with JStr s => s | _ => "" end.
Definition as_int (v : json) : Z := match v with JInt z => z | _ => 0 end.
Definition as_ostr (v : json) : option string := match v with JStr s => Some s | _ => None end.
Definition as_oint (v : json) : option Z := match v with JInt z => Some z | _ => None end.

(** [_parse_row]; [None] is [ValueError]. *)
Definition parse_row (obj : json) : option MembershipRow :=
  match obj with
  | JObj o =>
      if forallb (fun k => bool_decide (k ∈ FIELD_NAMES)) (dkeys o) && forallb (dmem o) FIELD_NAMES then
        let get k := default JNull (dget o k) in
        if forallb (fun '(name, valid) => valid (get name)) FIELD_VALIDATORS then
          Some (mkRow (as_str (get "symbol")) (as_str (get "tier")) (as_str (get "source")) (as_int (get "decided_at_ns"))
                  (as_ostr (get "direction")) (as_ostr (get "warning_level")) (as_oint (get "ls_shard"))
                  (as_ostr (get "kis_slot")) (as_oint (get "trade_value_krw")) (as_ostr (get "reason")))
        else None
      else None
  | _ => None
  end.

(** [dataclasses.asdict(row)]. *)
Definition asdict (r : MembershipRow) : list (string * json) :=
  [("symbol", JStr (m_symbol r)); ("tier", JStr (m_tier r)); ("source", JStr (m_source r));
   ("decided_at_ns", JInt (m_decided_at_ns r)); ("direction", jopt (m_direction r));
   ("warning_level", jopt (m_warning_level r)); ("ls_shard", jopt_int (m_ls_shard r));
   ("kis_slot", jopt (m_kis_slot r)); ("trade_value_krw", jopt_int (m_trade_value_krw r));
   ("reason", jopt (m_reason r))].

(** The object [json.dumps(obj, sort_keys=True)] prints. *)
Definition key_leb (a b : string * json) : bool := str_leb (fst a) (fst b).
Definition row_obj (r : MembershipRow) : list (string * json) := py_sorted key_leb (asdict r).

(** ** The file *)

Class RowCodec := { json_dumps : list (string * json) -> list ascii; json_loads : list ascii -> option json }.

(** What an append meets: nothing, or an [OSError] with this many bytes written. *)
Inductive append_fault := NoFault | WriteFault (written : nat).

Section File.
Context `{RowCodec}.

Definition row_text (r : MembershipRow) : list ascii := json_dumps (row_obj r).

(** [_encode_row]. *)
Definition encode_row (r : MembershipRow) : option (list ascii) :=
  match parse_row (JObj (asdict r)) with
  | None => None
  | Some _ => Some (row_text r ++ [nl])
  end.

(** [append_membership]: the file afterwards and the exception. *)
Definition append_membership (fault : append_fault) (file : option (list ascii)) (rows : list MembershipRow)
    : option (list ascii) * res uni_exc unit :=
  match rows with
  | [] => (file, Ok tt)
  | _ =>
      match mapM encode_row rows with
      | None => (file, Raise MembershipFileError)
      | Some texts =>
          let payload := concat texts in
          match fault with
          | NoFault => (Some (default [] file ++ payload), Ok tt)
          | WriteFault n => (Some (default [] file ++ take n payload), Raise OsErr)
          end
      end
  end.

(** The parts of [raw.split(nl)], without the last one when it is empty. *)
Definition file_lines (raw : list ascii) : list (list ascii) :=
  let lines := split_on nl raw in
  match List.last lines [] with [] => removelast lines | _ => lines end.

Definition parse_line (line : list ascii) : option MembershipRow := json_loads line ≫= parse_row.

(** [read_membership]; [None] is [MembershipFileError]. *)
Definition read_membership (file : option (list ascii)) : option (list MembershipRow) :=
  match file with
  | None => Some []
  | Some raw => mapM parse_line (file_lines raw)
  end.
End File.

(** [effective_tiers]: the latest row at the highest tier of each symbol. *)
Definition tier_rank (tier : string) : Z := default 0 (dget TIER_RANK tier).
Definition effective_step (current : list (string * MembershipRow)) (row : MembershipRow) : list (string * MembershipRow) :=
  if bool_decide (m_source row = ACK_SOURCE) then current
  else match dget current (m_symbol row) with
       | None => dset current (m_symbol row) row
       | Some existing =>
           if tier_rank (m_tier existing) <=? tier_rank (m_tier row) then dset current (m_symbol row) row else current
       end.
Definition effective_tiers (rows : list MembershipRow) : list (string * MembershipRow) := fold_left effective_step rows [].
