(* ===== verification/MembershipFacts.v ===== *)
(** * What the membership ledger keeps

    Rows read back as they were appended; whatever part of a failing append reaches
    the file, the ledger either stays readable with every acknowledged row or refuses
    to be read from then on. *)
From Stdlib Require Import Ascii.
From S2P Require Import Prelude PyStr PyFloat ExecContracts ExecJournal Membership.

(** What the ledger relies on of the JSON text: a row is one line and loads back, and
    pieces left by failed appends do not join to the text of an object unless the only
    piece is a whole row. *)
Class RowCodecLaws `{RowCodec} := {
  codec_line r : nl ∉ row_text r;
  codec_some r : row_text r <> [];
  codec_back r : json_loads (row_text r) = Some (JObj (row_obj r));
  codec_torn (ps : list (list ascii * MembershipRow)) :
    Forall (fun '(p, r) => p <> [] /\ p `prefix_of` row_text r) ps -> ps <> [] ->
    (exists r, ps = [(row_text r, r)]) \/ json_loads (concat (map fst ps)) = None
}.

(** A row the ledger accepts. *)
Definition valid_row (r : MembershipRow) : Prop := dmem TIER_RANK (m_tier r) = true.

Lemma row_obj_eq r : row_obj r =
  [("decided_at_ns", JInt (m_decided_at_ns r)); ("direction", jopt (m_direction r)); ("kis_slot", jopt (m_kis_slot r));
   ("ls_shard", jopt_int (m_ls_shard r)); ("reason", jopt (m_reason r)); ("source", JStr (m_source r));
   ("symbol", JStr (m_symbol r)); ("tier", JStr (m_tier r)); ("trade_value_krw", jopt_int (m_trade_value_krw r));
   ("warning_level", jopt (m_warning_level r))].
Proof. reflexivity. Qed.

Lemma asdict_fields r :
  dget (asdict r) "symbol" = Some (JStr (m_symbol r)) /\ dget (asdict r) "tier" = Some (JStr (m_tier r)) /\
  dget (asdict r) "source" = Some (JStr (m_source r)) /\ dget (asdict r) "decided_at_ns" = Some (JInt (m_decided_at_ns r)) /\
  dget (asdict r) "direction" = Some (jopt (m_direction r)) /\ dget (asdict r) "warning_level" = Some (jopt (m_warning_level r)) /\
  dget (asdict r) "ls_shard" = Some (jopt_int (m_ls_shard r)) /\ dget (asdict r) "kis_slot" = Some (jopt (m_kis_slot r)) /\
  dget (asdict r) "trade_value_krw" = Some (jopt_int (m_trade_value_krw r)) /\ dget (asdict r) "reason" = Some (jopt (m_reason r)).
Proof. repeat split; reflexivity. Qed.

Lemma parse_same o r : (forall k, dget o k = dget (asdict r) k) -> forallb (fun k => bool_decide (k ∈ FIELD_NAMES)) (dkeys o) = true ->
  parse_row (JObj o) = if dmem TIER_RANK (m_tier r) then Some r else None.
Proof.
  intros Hg Hk. unfold parse_row. rewrite Hk. cbn [andb].
  assert (forallb (dmem o) FIELD_NAMES = true) as ->.
  { unfold dmem. cbn [forallb FIELD_NAMES]. rewrite !Hg. reflexivity. }
  cbv zeta. cbn [FIELD_VALIDATORS forallb]. rewrite !Hg.
  destruct (asdict_fields r) as (-> & -> & -> & -> & -> & -> & -> & -> & -> & ->).
  cbn [default from_option id is_str is_tier is_int andb].
  destruct (dmem TIER_RANK (m_tier r)); [|done]. by destruct r as [s t so d [] [] [] [] [] []].
Qed.

Lemma parse_asdict r : parse_row (JObj (asdict r)) = if dmem TIER_RANK (m_tier r) then Some r else None.
Proof. by apply parse_same. Qed.

Lemma parse_row_obj r : valid_row r -> parse_row (JObj (row_obj r)) = Some r.
Proof.
  intros Hv. rewrite (parse_same _ r); [by rewrite Hv| |done]. intros k. rewrite row_obj_eq. unfold asdict. cbn [dget].
  repeat (case_decide; subst; [by rewrite ?decide_False by done|]). done.
Qed.

(** ** Lines *)

Lemma split_on_cut c a b : split_on c (a ++ c :: b) = split_on c a ++ split_on c b.
Proof.
  induction a as [|x a IH]; cbn [app split_on]; [by rewrite decide_True|]. rewrite IH. case_decide; [done|].
  destruct (split_on c a) as [|p ps] eqn:E; [|done]. destruct a as [|y a]; cbn in E; [done|].
  case_decide; [done|]. by destruct (split_on c a).
Qed.

Lemma file_lines_tail a t : nl ∉ t ->
  file_lines (concat (map (fun l => l ++ [nl]) a) ++ t) =
  concat (map (fun l => split_on nl l) a) ++ (if decide (t = []) then [] else [t]).
Proof.
  intros Ht. unfold file_lines.
  assert (Hs : split_on nl (concat (map (fun l => l ++ [nl]) a) ++ t) = concat (map (fun l => split_on nl l) a) ++ [t]).
  { induction a as [|l a IH]; cbn; [by apply split_on_parts|]. rewrite <- !app_assoc. cbn [app].
    by rewrite split_on_cut, IH. }
  rewrite Hs, last_last. destruct t as [|x t]; [|done]. by rewrite removelast_last, app_nil_r.
Qed.

Lemma mapM_app_some {A B} (f : A -> option B) l k a : mapM f l = Some a -> mapM f (l ++ k) = (b ← mapM f k; Some (a ++ b)).
Proof.
  revert a. induction l as [|x l IH]; cbn [mapM app]; intros a; [intros [= <-]; by destruct (mapM f k)|].
  destruct (f x); [|done]. rewrite !bind_some. destruct (mapM f l) as [y|] eqn:E; [|done]. cbn. intros [= <-].
  rewrite (IH y) by done. by destruct (mapM f k).
Qed.

Section Facts.
Context `{RowCodecLaws}.

Lemma parse_text r : valid_row r -> parse_line (row_text r) = Some r.
Proof. intros Hv. unfold parse_line. rewrite codec_back, bind_some. by apply parse_row_obj. Qed.

(** The bytes of appended rows. *)
Definition rows_bytes (rows : list MembershipRow) : list ascii := concat (map (fun r => row_text r ++ [nl]) rows).

Lemma rows_bytes_app a b : rows_bytes (a ++ b) = rows_bytes a ++ rows_bytes b.
Proof. unfold rows_bytes. by rewrite map_app, concat_app. Qed.

Lemma encode_one r : encode_row r = if dmem TIER_RANK (m_tier r) then Some (row_text r ++ [nl]) else None.
Proof. unfold encode_row. rewrite parse_asdict. by destruct (dmem TIER_RANK (m_tier r)). Qed.

Lemma encode_rows rows : mapM encode_row rows = if forallb (fun r => dmem TIER_RANK (m_tier r)) rows
  then Some (map (fun r => row_text r ++ [nl]) rows) else None.
Proof.
  induction rows as [|r rows IH]; [done|]. cbn [mapM forallb map]. rewrite encode_one.
  destruct (dmem TIER_RANK (m_tier r)); [|done]. cbn [andb]. rewrite bind_some, IH. by destruct (forallb _ rows).
Qed.

Lemma rows_lines rows t : nl ∉ t -> file_lines (rows_bytes rows ++ t) = map row_text rows ++ (if decide (t = []) then [] else [t]).
Proof using All.
  intros Ht. unfold rows_bytes. rewrite <- (map_map row_text (fun l => l ++ [nl])), file_lines_tail by done. f_equal.
  rewrite map_map. induction rows as [|r rows IH]; [done|]. cbn. rewrite IH, split_on_parts by apply codec_line. done.
Qed.

Lemma parse_rows rows : Forall valid_row rows -> mapM parse_line (map row_text rows) = Some rows.
Proof using All.
  induction 1 as [|r rows Hv HF IH]; [done|]. cbn [map mapM]. by rewrite parse_text, bind_some, IH.
Qed.

(** ** Torn appends

    The writers' rows satisfy [W]. The ledger holds rows followed by the pieces of
    failed appends, or a complete line that no longer parses. *)
Context (W : MembershipRow -> Prop) (W_valid : forall r, W r -> valid_row r).

Definition complete_lines (raw : list ascii) : list (list ascii) := removelast (split_on nl raw).
Definition poisoned (raw : list ascii) : Prop := Exists (fun l => parse_line l = None) (complete_lines raw).
Definition piece : list ascii * MembershipRow -> Prop := fun '(p, r) => (p <> [] /\ p `prefix_of` row_text r) /\ W r.

Definition ledger_inv (raw : list ascii) (acked : list MembershipRow) : Prop :=
  poisoned raw \/ exists rows ps, raw = rows_bytes rows ++ concat (map fst ps) /\
    Forall W rows /\ Forall piece ps /\ acked `sublist_of` rows.

Lemma split_on_some c l : exists ls t, split_on c l = ls ++ [t].
Proof.
  destruct (split_on c l) as [|x xs] eqn:E using rev_ind; [|eauto]. destruct l as [|y l]; cbn in E; [done|].
  case_decide; [done|]. by destruct (split_on c l).
Qed.

Lemma complete_lines_cut a b : complete_lines (a ++ nl :: b) = split_on nl a ++ complete_lines b.
Proof.
  unfold complete_lines. rewrite split_on_cut. destruct (split_on_some nl b) as (ls & t & ->).
  by rewrite app_assoc, !removelast_last.
Qed.

Lemma complete_lines_more a : forall b, complete_lines a `prefix_of` complete_lines (a ++ b).
Proof.
  induction a as [|x a IH]; intros b; [apply prefix_nil|]. specialize (IH b). revert IH. unfold complete_lines. cbn [app split_on].
  destruct (split_on_some nl a) as (ls & t & ->), (split_on_some nl (a ++ b)) as (ls' & t' & ->).
  rewrite !removelast_last. intros Hp. case_decide.
  - rewrite !app_comm_cons, !removelast_last. by apply prefix_cons.
  - destruct ls as [|l ls]; [apply prefix_nil|]. destruct ls' as [|l' ls']; [by apply prefix_nil_inv in Hp|].
    cbn [app]. rewrite !app_comm_cons, !removelast_last. apply prefix_cons_inv_1 in Hp as Hl. apply prefix_cons_inv_2 in Hp.
    subst. by apply prefix_cons.
Qed.

Lemma poisoned_more raw more : poisoned raw -> poisoned (raw ++ more).
Proof using All.
  unfold poisoned. intros Hp. destruct (complete_lines_more raw more) as [k ->]. apply Exists_app. by left.
Qed.

Lemma poisoned_unreadable raw : poisoned raw -> mapM parse_line (file_lines raw) = None.
Proof using All.
  unfold poisoned, complete_lines, file_lines. intros Hp.
  assert (Hx : Exists (fun l => parse_line l = None) (match List.last (split_on nl raw) [] with [] => removelast (split_on nl raw) | _ => split_on nl raw end)).
  { destruct (split_on_some nl raw) as (ls & t & E). rewrite E in *. rewrite removelast_last in Hp. rewrite last_last, removelast_last.
    destruct t; [done|]. apply Exists_app. by left. }
  induction Hx as [l ls Hl|l ls Hx IH]; cbn [mapM]; [by rewrite Hl|]. destruct (parse_line l); [|done]. by rewrite bind_some, IH.
Qed.

Lemma take_rows rows : forall n, exists a p, take n (rows_bytes rows) = rows_bytes a ++ p /\ a `prefix_of` rows /\
  (p = [] \/ exists r, r ∈ rows /\ p <> [] /\ p `prefix_of` row_text r).
Proof using All.
  induction rows as [|r rows IH]; intros n.
  - exists [], []. cbn. rewrite take_nil. split; [done|]. split; [done|by left].
  - change (rows_bytes (r :: rows)) with ((row_text r ++ [nl]) ++ rows_bytes rows).
    destruct (decide (n <= length (row_text r))%nat) as [Hn|Hn].
    + exists [], (take n (row_text r)). rewrite <- app_assoc, take_app_le by done. split; [done|]. split; [apply prefix_nil|].
      destruct (decide (take n (row_text r) = [])) as [->|Hne]; [by left|]. right. exists r. split; [set_solver|].
      split; [done|]. eexists. symmetry. apply take_drop.
    + destruct (IH (n - length (row_text r ++ [nl]))%nat) as (a & p & Ht & Ha & Hp). exists (r :: a), p.
      rewrite take_app_ge by (rewrite length_app; cbn; lia). rewrite Ht. split; [by rewrite app_assoc|].
      split; [by apply prefix_cons|]. destruct Hp as [->|(x & Hx & Hp)]; [by left|]. right. exists x. set_solver.
Qed.
Lemma pieces_no_nl ps : Forall piece ps -> nl ∉ concat (map fst ps).
Proof using All.
  induction 1 as [|[p r] ps [[_ [k Hk]] _] HF IH]; cbn; [apply not_elem_of_nil|]. rewrite not_elem_of_app. split; [|done].
  pose proof (codec_line r) as Hr. rewrite Hk, not_elem_of_app in Hr. apply Hr.
Qed.

Lemma pieces_plain ps : Forall piece ps -> Forall (fun '(p, r) => p <> [] /\ p `prefix_of` row_text r) ps.
Proof using All. intros HF. eapply Forall_impl; [exact HF|]. by intros [p r] [? _]. Qed.

Lemma torn_line ps r rest pre : Forall piece ps -> ps <> [] -> W r ->
  poisoned (rows_bytes pre ++ concat (map fst ps) ++ rows_bytes (r :: rest)).
Proof using All.
  intros Hps Hne Hr. set (t := concat (map fst ps)).
  change (rows_bytes (r :: rest)) with ((row_text r ++ [nl]) ++ rows_bytes rest). rewrite <- app_assoc. cbn [app].
  rewrite (app_assoc t), (app_assoc (rows_bytes pre)). unfold poisoned. rewrite complete_lines_cut.
  apply Exists_app. left. apply Exists_exists. exists (t ++ row_text r). split.
  - induction pre as [|x pre IH].
    + cbn [rows_bytes map concat app]. rewrite split_on_parts; [set_solver|]. rewrite not_elem_of_app. split; [by apply pieces_no_nl|apply codec_line].
    + change (rows_bytes (x :: pre)) with ((row_text x ++ [nl]) ++ rows_bytes pre). rewrite <- !app_assoc. cbn [app].
      rewrite split_on_cut. set_solver.
  - unfold parse_line. destruct (codec_torn (ps ++ [(row_text r, r)])) as [[x Hx]|Hl].
    + apply Forall_app. split; [by apply pieces_plain|]. repeat constructor; [apply codec_some|done].
    + by destruct ps.
    + destruct ps as [|a [|b ps]]; done.
    + rewrite map_app, concat_app in Hl. cbn in Hl. rewrite app_nil_r in Hl. fold t in Hl. by rewrite Hl.
Qed.
(** An append keeps the ledger; one that returns acknowledges its rows. *)
Lemma append_inv fault file rows acked : ledger_inv (default [] file) acked -> Forall W rows ->
  match append_membership fault file rows with
  | (file', Ok _) => ledger_inv (default [] file') (acked ++ rows)
  | (file', Raise _) => ledger_inv (default [] file') acked
  end.
Proof using All.
  intros Hi HW. unfold append_membership. destruct rows as [|r0 rows0] eqn:Er; [by rewrite app_nil_r|]. rewrite <- Er in *.
  rewrite encode_rows.
  assert (forallb (fun r => dmem TIER_RANK (m_tier r)) rows = true) as ->.
  { apply forallb_forall. intros r Hr%list_elem_of_In. apply W_valid. rewrite Forall_forall in HW. auto. }
  fold (rows_bytes rows). clear r0 rows0 Er.
  assert (Hgrow : forall a p, a `prefix_of` rows -> (p = [] \/ exists r, r ∈ rows /\ p <> [] /\ p `prefix_of` row_text r) ->
    ledger_inv (default [] file ++ rows_bytes a ++ p) (if decide (a = rows /\ p = []) then acked ++ rows else acked)).
  { intros a p [b Hb] Hp. assert (HWa : Forall W a) by (rewrite Hb in HW; by apply Forall_app in HW as [? _]).
    destruct Hi as [Hi|(pre & ps & Hraw & Hpre & Hps & Hsub)]; [left; by apply poisoned_more|]. rewrite Hraw.
    assert (Hp' : exists ps', concat (map fst ps') = p /\ Forall piece ps').
    { destruct Hp as [->|(r & Hr & Hne & Hpr)]; [by exists []|]. exists [(p, r)]. cbn. rewrite app_nil_r. split; [done|].
      repeat constructor; try done. rewrite Forall_forall in HW. auto. }
    destruct Hp' as (ps' & <- & Hps'). destruct a as [|r a].
    - right. exists pre, (ps ++ ps'). cbn [app]. rewrite map_app, concat_app, <- app_assoc. split; [done|]. split; [done|].
      split; [by apply Forall_app|]. case_decide as Hd; [|done]. destruct Hd as [<- _]. by rewrite app_nil_r.
    - destruct ps as [|x ps].
      + right. exists (pre ++ r :: a), ps'. rewrite rows_bytes_app. cbn [map concat]. rewrite app_nil_r, <- !app_assoc.
        split; [done|]. split; [by apply Forall_app|]. split; [done|]. case_decide as Hd.
        * destruct Hd as [<- _]. by apply sublist_app.
        * etrans; [exact Hsub|]. apply sublist_inserts_r. done.
      + left. rewrite app_assoc. apply poisoned_more. rewrite <- app_assoc.
        apply torn_line; [done|done|]. by apply Forall_cons in HWa as [? _]. }
  destruct fault as [|n]; cbn [default from_option id].
  - specialize (Hgrow rows [] (reflexivity _) ltac:(by left)). rewrite app_nil_r, decide_True in Hgrow by done. done.
  - destruct (take_rows rows n) as (a & p & -> & Ha & Hp). specialize (Hgrow a p Ha Hp). case_decide; [|done].
    destruct Hgrow as [Hg|(pre & ps & G1 & G2 & G3 & G4)]; [by left|]. right. exists pre, ps. repeat split; try done.
    etrans; [|exact G4]. by apply sublist_inserts_r.
Qed.

(** What a read of the ledger returns: rows of its writers, every acknowledged one among them in order. *)
Lemma read_inv file acked rows : ledger_inv (default [] file) acked -> read_membership file = Some rows ->
  Forall W rows /\ acked `sublist_of` rows.
Proof using All.
  intros Hi Hr. assert (Hr' : mapM parse_line (file_lines (default [] file)) = Some rows) by (destruct file; [done|exact Hr]).
  clear Hr. destruct Hi as [Hp|(pre & ps & Hraw & Hpre & Hps & Hsub)].
  - by rewrite (poisoned_unreadable _ Hp) in Hr'.
  - rewrite Hraw, rows_lines in Hr' by (by apply pieces_no_nl).
    assert (Hv : Forall valid_row pre) by (eapply Forall_impl; [exact Hpre|done]).
    rewrite (mapM_app_some _ _ _ pre) in Hr' by (by apply parse_rows).
    destruct ps as [|x ps]; [injection Hr' as <-; by rewrite app_nil_r|].
    destruct (codec_torn (x :: ps) (pieces_plain _ Hps)) as [[r Hx]|Hl]; [done| |].
    + rewrite Hx in *. cbn [map fst concat] in Hr'. rewrite app_nil_r, decide_False in Hr' by apply codec_some.
      apply Forall_cons in Hps as [[_ HWr] _]. cbn [mapM] in Hr'. rewrite parse_text in Hr' by auto. cbn in Hr'. simplify_eq.
      split; [apply Forall_app; by repeat constructor|]. by apply sublist_inserts_r.
    + rewrite decide_False in Hr'; [|destruct x as [p r]; apply Forall_cons in Hps as [[[Hne _] _] _]; by destruct p].
      cbn [mapM] in Hr'. unfold parse_line in Hr'. by rewrite Hl in Hr'.
Qed.
End Facts.
