(* ===== verification/Intraday.v ===== *)
(** * Intraday admission ([src/universe/intraday.py])

    Which symbols of a trade-amount ranking are taken into collection during the
    session, on which feed, and the file that tells the feeds. The file is absent,
    unreadable as JSON, or a JSON value, and is replaced atomically. Prices and
    percentages are binary64. Also the ranking rows of
    [src/marketdata/kiwoom_ranking.py]. *)
From Stdlib Require Import Ascii SpecFloat.
From S2P Require Import Prelude PyStr PyFloat ExecContracts ExecJournal KisTrading Membership.

Record KiwoomRankingRow := mkRank {
  kr_rank : Z; kr_symbol : string; kr_last_price : Z; kr_change_pct : pyfloat; kr_trade_value_krw : Z
}.

(** The settings the admission reads; times of day and durations in microseconds. *)
Record IntradayAdmissionSettings := mkIntraday {
  ia_poll_interval : Z; ia_start_after_open : Z; ia_admission_cutoff : Z; ia_post_close_screen_at : Z;
  ia_min_abs_change_pct : pyfloat; ia_min_trade_value_krw : Z
}.

Record AdmissionState := mkAdm { ad_collected : gset string; ad_ineligible : gset string; ad_capacity_left : list (string * Z) }.
Record Admission := mkAdmission {
  a_symbol : string; a_feed : string; a_change_pct : pyfloat; a_trade_value_krw : Z; a_direction : string
}.
Inductive Rejection := RIneligible | RCapacity.
#[global] Instance rejection_eq_dec : EqDecision Rejection.
Proof. solve_decision. Defined.
Record AdmissionDecision := mkDecision { de_admitted : list Admission; de_rejected : list (string * Rejection) }.
Record DynamicEntry := mkEntry { en_symbol : string; en_feed : string; en_decided_at_ns : Z }.
Record DynamicPlan := mkPlan { pl_rev : Z; pl_entries : list DynamicEntry }.

Definition symbols_for (p : DynamicPlan) (feed : string) : list string :=
  map en_symbol (List.filter (fun e => bool_decide (en_feed e = feed)) (pl_entries p)).

Definition qualifies (row : KiwoomRankingRow) (cfg : IntradayAdmissionSettings) : bool :=
  SFleb (ia_min_abs_change_pct cfg) (SFabs (kr_change_pct row)) && (ia_min_trade_value_krw cfg <=? kr_trade_value_krw row).

Definition direction_of (change : pyfloat) : string := if SFltb f_zero change then "up" else "down".

(** ** One decision *)

(** The first loop of [decide_admissions]: symbols seen, rejections and qualifiers so far. *)
Record Screen := mkScreen { sc_seen : list string; sc_rejected : list (string * Rejection); sc_qualifiers : list KiwoomRankingRow }.
Definition screen_row (state : AdmissionState) (cfg : IntradayAdmissionSettings) (s : Screen) (row : KiwoomRankingRow) : Screen :=
  if bool_decide (kr_symbol row ∈ sc_seen s) || bool_decide (kr_symbol row ∈ ad_collected state) || negb (qualifies row cfg) then s
  else
    let seen := kr_symbol row :: sc_seen s in
    if bool_decide (kr_symbol row ∈ ad_ineligible state)
    then mkScreen seen (sc_rejected s ++ [(kr_symbol row, RIneligible)]) (sc_qualifiers s)
    else mkScreen seen (sc_rejected s) (sc_qualifiers s ++ [row]).

(** The sort key: trade value descending, then symbol. *)
Definition qualifier_leb (a b : KiwoomRankingRow) : bool :=
  (- kr_trade_value_krw a <? - kr_trade_value_krw b)
  || ((- kr_trade_value_krw a =? - kr_trade_value_krw b) && str_leb (kr_symbol a) (kr_symbol b)).

(** The feed with room that comes first in the capacities. *)
Definition free_feed (remaining : list (string * Z)) : option string :=
  option_map fst (List.find (fun '(_, room) => 0 <? room) remaining).

Record Filling := mkFilling { fi_remaining : list (string * Z); fi_admitted : list Admission; fi_rejected : list (string * Rejection) }.
Definition admit_row (f : Filling) (row : KiwoomRankingRow) : Filling :=
  match free_feed (fi_remaining f) with
  | None => mkFilling (fi_remaining f) (fi_admitted f) (fi_rejected f ++ [(kr_symbol row, RCapacity)])
  | Some feed =>
      mkFilling (dset (fi_remaining f) feed (default 0 (dget (fi_remaining f) feed) - 1))
        (fi_admitted f ++ [mkAdmission (kr_symbol row) feed (kr_change_pct row) (kr_trade_value_krw row) (direction_of (kr_change_pct row))])
        (fi_rejected f)
  end.

Definition decide_admissions (rows : list KiwoomRankingRow) (state : AdmissionState) (cfg : IntradayAdmissionSettings) : AdmissionDecision :=
  let s := fold_left (screen_row state cfg) rows (mkScreen [] [] []) in
  let f := fold_left admit_row (py_sorted qualifier_leb (sc_qualifiers s)) (mkFilling (ad_capacity_left state) [] (sc_rejected s)) in
  mkDecision (fi_admitted f) (fi_rejected f).

(** ** State from the ledger *)

Definition feed_capacities (ls_reserve_symbols kis_slot_symbols : Z) (kis_slot : option string) : list (string * Z) :=
  let capacity := ("ls:1", ls_reserve_symbols) ::
    match kis_slot with Some slot => [(String.append "kis:" slot, kis_slot_symbols)] | None => [] end in
  map (fun '(feed, count) => (feed, Z.max 0 count)) capacity.

(** [_feed_of]. *)
Definition feed_of (row : MembershipRow) : res uni_exc string :=
  match m_ls_shard row with
  | Some n => Ok (String.append "ls:" (str_of_Z n))
  | None => match m_kis_slot row with
            | Some slot => Ok (String.append "kis:" slot)
            | None => Raise DynamicAdmissionsFileError
            end
  end.

Fixpoint use_capacity (room : list (string * Z)) (rows : list MembershipRow) : res uni_exc (list (string * Z)) :=
  match rows with
  | [] => Ok room
  | row :: rows =>
      if negb (bool_decide (m_source row = "dynamic")) then use_capacity room rows
      else (feed <~ feed_of row;;
            use_capacity (match dget room feed with Some n => dset room feed (Z.max 0 (n - 1)) | None => room end) rows)%py
  end.

Definition collected_row (row : MembershipRow) : bool :=
  bool_decide (m_tier row ∈ ["A"; "B"]) && bool_decide (m_source row ∈ ["static"; "dynamic"]).

Definition state_from_ledger (rows : list MembershipRow) (ineligible : gset string) (capacity : list (string * Z))
    : res uni_exc AdmissionState :=
  (room <~ use_capacity capacity rows;;
   Ok (mkAdm (list_to_set (map fst (List.filter (fun '(_, row) => collected_row row) (effective_tiers rows)))) ineligible room))%py.

(** ** The admissions file *)

Abbreviation plan_file := (option (option json)).

Section PlanFile.
Variable repr : json -> string.

(** [int(value)] of a JSON value. *)
Definition int_of_json (v : json) : res uni_exc Z :=
  match v with
  | JInt z => Ok z
  | JBool b => Ok (if b then 1 else 0)
  | JFloat f => match int_of_float f with Ok z => Ok z | Raise FOverflow => Raise OverflowErr | Raise FNan => Raise DynamicAdmissionsFileError end
  | JStr s => match py_int (s2l s) with Some z => Ok z | None => Raise DynamicAdmissionsFileError end
  | _ => Raise DynamicAdmissionsFileError
  end.

Definition field (item : json) (k : string) : res uni_exc json :=
  match item with
  | JObj o => match dget o k with Some v => Ok v | None => Raise DynamicAdmissionsFileError end
  | _ => Raise DynamicAdmissionsFileError
  end.

Definition read_entry (item : json) : res uni_exc DynamicEntry :=
  (symbol <~ field item "symbol";;
   feed <~ field item "feed";;
   decided <~ field item "decided_at_ns";;
   ns <~ int_of_json decided;;
   Ok (mkEntry (py_str repr symbol) (py_str repr feed) ns))%py.

Fixpoint read_entries (items : list json) : res uni_exc (list DynamicEntry) :=
  match items with
  | [] => Ok []
  | item :: items => (e <~ read_entry item;; es <~ read_entries items;; Ok (e :: es))%py
  end.

Definition read_dynamic_admissions (file : plan_file) : res uni_exc DynamicPlan :=
  match file with
  | None => Ok (mkPlan 0 [])
  | Some None => Raise DynamicAdmissionsFileError
  | Some (Some payload) =>
      (rev <~ field payload "rev";;
       raw_entries <~ field payload "entries";;
       match rev, raw_entries with
       | JInt rev, JArr items =>
           if rev <? 0 then Raise DynamicAdmissionsFileError
           else (entries <~ read_entries items;;
                 if existsb (fun e => negb (is_krx_short_code (en_symbol e))) entries then Raise DynamicAdmissionsFileError
                 else Ok (mkPlan rev entries))
       | _, _ => Raise DynamicAdmissionsFileError
       end)%py
  end.

Definition entry_json (e : DynamicEntry) : json :=
  JObj [("decided_at_ns", JInt (en_decided_at_ns e)); ("feed", JStr (en_feed e)); ("symbol", JStr (en_symbol e))].
Definition plan_json (p : DynamicPlan) : json := JObj [("entries", JArr (map entry_json (pl_entries p))); ("rev", JInt (pl_rev p))].

(** [write_dynamic_admissions]; [fault] is an [OSError] before the file is replaced. *)
Definition write_dynamic_admissions (fault : bool) (file : plan_file) (plan : DynamicPlan) : plan_file * res uni_exc unit :=
  match read_dynamic_admissions file with
  | Raise e => (file, Raise e)
  | Ok current =>
      if pl_rev plan <=? pl_rev current then (file, Raise DynamicAdmissionsFileError)
      else if fault then (file, Raise OsErr)
      else (Some (Some (plan_json plan)), Ok tt)
  end.
End PlanFile.
