(* ===== verification/Discovery.v ===== *)
(** * The discovery process ([src/cli/collect_intraday_discovery.py])

    The scheduled polls of the ranking, the status lookups, the ledger rows and the
    admissions file of the [IntradayDiscovery] loop, and its restart from the ledger.
    What a poll meets (the ranking, the statuses, file faults) is its [PollEnv]; the
    snapshot store that keeps the raw rankings and statuses is not modelled. Times are
    microseconds. *)
From Stdlib Require Import Ascii SpecFloat.
From S2P Require Import Prelude PyStr PyFloat ExecContracts ExecJournal KisTrading Membership Intraday.

Record DiscoveryState := mkDisc {
  di_admission : AdmissionState; di_reject_once : gset string; di_capacity_once : gset string;
  di_warning_levels : list (string * string); di_failures : Z; di_polls : Z
}.
Definition new_discovery (a : AdmissionState) : DiscoveryState := mkDisc a ∅ ∅ [] 0 0.

(** The process and the two files. *)
Record Sys := mkSys { sy_state : DiscoveryState; sy_ledger : option (list ascii); sy_plan : plan_file }.
Abbreviation dio := (stx Sys uni_exc).

(** What one poll meets. [pe_fetch]: the ranking, or a vendor or transport error.
    [pe_status]: the status lookup when one is configured, [None] its failure.
    [pe_ipc]: an [OSError] while reading or replacing the admissions file. *)
Record PollEnv := mkPollEnv {
  pe_fetch : option (list KiwoomRankingRow); pe_status : option (string -> option (list (string * json)));
  pe_wall : Z; pe_append : append_fault; pe_ipc : bool
}.

Definition set_admission (s : DiscoveryState) (a : AdmissionState) : DiscoveryState :=
  mkDisc a (di_reject_once s) (di_capacity_once s) (di_warning_levels s) (di_failures s) (di_polls s).
Definition set_reject_once (s : DiscoveryState) (x : gset string) : DiscoveryState :=
  mkDisc (di_admission s) x (di_capacity_once s) (di_warning_levels s) (di_failures s) (di_polls s).
Definition set_capacity_once (s : DiscoveryState) (x : gset string) : DiscoveryState :=
  mkDisc (di_admission s) (di_reject_once s) x (di_warning_levels s) (di_failures s) (di_polls s).
Definition set_warning_levels (s : DiscoveryState) (x : list (string * string)) : DiscoveryState :=
  mkDisc (di_admission s) (di_reject_once s) (di_capacity_once s) x (di_failures s) (di_polls s).
Definition set_failures (s : DiscoveryState) (n : Z) : DiscoveryState :=
  mkDisc (di_admission s) (di_reject_once s) (di_capacity_once s) (di_warning_levels s) n (di_polls s).
Definition set_polls (s : DiscoveryState) (n : Z) : DiscoveryState :=
  mkDisc (di_admission s) (di_reject_once s) (di_capacity_once s) (di_warning_levels s) (di_failures s) n.

Definition on_state (f : DiscoveryState -> DiscoveryState) : dio unit :=
  smod (fun s => mkSys (f (sy_state s)) (sy_ledger s) (sy_plan s)).

(** [_feed_fields]. *)
Fixpoint partition_at (c : ascii) (l : list ascii) : list ascii * list ascii :=
  match l with
  | [] => ([], [])
  | x :: l' => if decide (x = c) then ([], l') else let '(a, b) := partition_at c l' in (x :: a, b)
  end.
Definition feed_fields (feed : string) : res uni_exc (option Z * option string) :=
  let '(kind, index) := partition_at ":"%char (s2l feed) in
  if bool_decide (l2s kind = "ls") then
    match py_int index with Some n => Ok (Some n, None) | None => Raise ValueErr end
  else Ok (None, Some (l2s index)).

(** [_admitted_row] and [_tier_c]. *)
Definition admitted_row (a : Admission) (decided : Z) (levels : list (string * string)) : res uni_exc MembershipRow :=
  (feed <~ feed_fields (a_feed a);;
   Ok (mkRow (a_symbol a) "B" "dynamic" decided (Some (a_direction a)) (dget levels (a_symbol a)) (fst feed) (snd feed)
         (Some (a_trade_value_krw a)) None))%py.
Definition tier_c (row : KiwoomRankingRow) (source : string) (decided : Z) : MembershipRow :=
  mkRow (kr_symbol row) "C" source decided (Some (direction_of (kr_change_pct row))) None None None (Some (kr_trade_value_krw row)) None.

Fixpoint admitted_rows (l : list Admission) (decided : Z) (levels : list (string * string)) : res uni_exc (list MembershipRow) :=
  match l with
  | [] => Ok []
  | a :: l => (r <~ admitted_row a decided levels;; rs <~ admitted_rows l decided levels;; Ok (r :: rs))%py
  end.

Section Loop.
Context `{RowCodec} (repr : json -> string) (cfg : IntradayAdmissionSettings).

(** [_poll]. *)
Definition poll (env : PollEnv) : dio (option (list KiwoomRankingRow)) :=
  match pe_fetch env with
  | None => (on_state (fun s => set_failures s (di_failures s + 1));;; sret None)%py
  | Some rows => (on_state (fun s => set_failures s 0);;; sret (Some rows))%py
  end.

(** [_check_status]. *)
Definition check_status (status_of : string -> option (list (string * json))) (symbol : string) : bool * string :=
  match status_of symbol with
  | None => (false, "unknown")
  | Some status => let v := classify_security_status status in (sv_exclude v, warning_value (sv_level v))
  end.

(** One row of the first loop of [_admission_poll], with the fresh rows so far. *)
Definition fresh_row (env : PollEnv) (acc : DiscoveryState * list KiwoomRankingRow) (row : KiwoomRankingRow)
    : DiscoveryState * list KiwoomRankingRow :=
  let '(s, fresh) := acc in
  let sym := kr_symbol row in
  let a := di_admission s in
  if bool_decide (sym ∈ ad_collected a) || bool_decide (sym ∈ di_reject_once s) then acc
  else if negb (qualifies row cfg) then acc
  else if bool_decide (sym ∈ ad_ineligible a) then (set_reject_once s ({[sym]} ∪ di_reject_once s), fresh)
  else match pe_status env with
       | Some status_of =>
           if dmem (di_warning_levels s) sym then (s, fresh ++ [row])
           else let '(excluded, level) := check_status status_of sym in
                if excluded
                then (set_admission (set_reject_once s ({[sym]} ∪ di_reject_once s))
                        (mkAdm (ad_collected a) (ad_ineligible a ∪ {[sym]}) (ad_capacity_left a)), fresh)
                else (set_warning_levels s (dset (di_warning_levels s) sym level), fresh ++ [row])
       | None => (s, fresh ++ [row])
       end.

(** [_publish_ipc]: the process counts the admissions before it tells the feeds. *)
Definition spend (left : list (string * Z)) (a : Admission) : list (string * Z) :=
  dset left (a_feed a) (default 0 (dget left (a_feed a)) - 1).
Definition publish_ipc (env : PollEnv) (admitted : list Admission) (decided : Z) : dio unit :=
  (on_state (fun s => let a := di_admission s in
     set_admission s (mkAdm (ad_collected a ∪ list_to_set (map a_symbol admitted)) (ad_ineligible a)
                        (fold_left spend admitted (ad_capacity_left a))));;;
   s <- sget;;
   let written :=
     if pe_ipc env then (sy_plan s, Raise OsErr)
     else match read_dynamic_admissions repr (sy_plan s) with
          | Raise e => (sy_plan s, Raise e)
          | Ok current =>
              write_dynamic_admissions repr false (sy_plan s)
                (mkPlan (pl_rev current + 1)
                   (pl_entries current ++ map (fun a => mkEntry (a_symbol a) (a_feed a) decided) admitted))
          end in
   smod (fun s => mkSys (sy_state s) (sy_ledger s) (fst written));;;
   match snd written with
   | Raise OverflowErr => sraise OverflowErr
   | _ => sret tt
   end)%py.

(** [_publish]. *)
Definition publish (env : PollEnv) (d : AdmissionDecision) (capacity_rows : list KiwoomRankingRow) : dio unit :=
  match de_admitted d, capacity_rows with
  | [], [] => sret tt
  | _, _ =>
      (s <- sget;;
       rows <- slift (admitted_rows (de_admitted d) (pe_wall env) (di_warning_levels (sy_state s)));;
       let '(file, r) := append_membership (pe_append env) (sy_ledger s)
                           (rows ++ map (fun row => tier_c row "intraday_capacity" (pe_wall env)) capacity_rows) in
       smod (fun s => mkSys (sy_state s) file (sy_plan s));;;
       match r with
       | Raise _ => sret tt
       | Ok _ => match de_admitted d with [] => sret tt | _ => publish_ipc env (de_admitted d) (pe_wall env) end
       end)%py
  end.

(** [_admission_poll]. *)
Definition admission_poll (env : PollEnv) : dio unit :=
  (polled <- poll env;;
   match polled with
   | None => sret tt
   | Some rows =>
       s <- sget;;
       let '(st, fresh) := fold_left (fresh_row env) rows (sy_state s, []) in
       on_state (fun _ => st);;;
       let d := decide_admissions fresh (di_admission st) cfg in
       let by_symbol := fold_left (fun m row => dset m (kr_symbol row) row) fresh [] in
       let capacity_rows := omap (fun '(symbol, reason) =>
         if bool_decide (reason = RCapacity) && negb (bool_decide (symbol ∈ di_capacity_once st)) then dget by_symbol symbol else None)
         (de_rejected d) in
       on_state (fun s => set_capacity_once s (di_capacity_once s ∪ list_to_set (map kr_symbol capacity_rows)));;;
       publish env d capacity_rows
   end)%py.

(** [_post_close_poll]. *)
Definition post_close_poll (env : PollEnv) : dio unit :=
  (polled <- poll env;;
   match polled with
   | None => sret tt
   | Some rows =>
       s <- sget;;
       match read_membership (sy_ledger s) with
       | None => sraise MembershipFileError
       | Some members =>
           let ledger := effective_tiers members in
           let screen := map (fun row => tier_c row "post_close_screen" (pe_wall env))
             (List.filter (fun row => qualifies row cfg && negb (dmem ledger (kr_symbol row))) rows) in
           match screen with
           | [] => sret tt
           | _ => smod (fun s => mkSys (sy_state s) (fst (append_membership (pe_append env) (sy_ledger s) screen)) (sy_plan s))
           end
       end
   end)%py.

(** The polling loop of [run]: the n-th iteration meets the clock reading before its poll
    and the poll's environment. *)
Fixpoint poll_loop (fuel : nat) (cutoff scheduled : Z) (envs : nat -> Z * PollEnv) (n : nat) : dio nat :=
  if cutoff <? scheduled then sret n
  else match fuel with
       | O => sret n
       | S fuel =>
           let '(now, env) := envs n in
           if cutoff <? now then sret n
           else (on_state (fun s => set_polls s (di_polls s + 1));;;
                 admission_poll env;;;
                 poll_loop fuel cutoff (scheduled + ia_poll_interval cfg) envs (S n))%py
       end.

(** [run], for a session that starts at [midnight] and opens [open] after it. *)
Definition poll_fuel (cutoff scheduled : Z) : nat := Z.to_nat (1 + (cutoff - scheduled) / ia_poll_interval cfg).
Definition run (midnight open : Z) (envs : nat -> Z * PollEnv) (post : PollEnv) : dio unit :=
  let cutoff := midnight + ia_admission_cutoff cfg in
  let scheduled := midnight + open + ia_start_after_open cfg in
  (poll_loop (poll_fuel cutoff scheduled) cutoff scheduled envs 0;;;
   post_close_poll post)%py.

(** The start of the process in [build_discovery]: the state read from the ledger. *)
Definition restart (ineligible : gset string) (capacity : list (string * Z)) (s : Sys) : res uni_exc Sys :=
  match read_membership (sy_ledger s) with
  | None => Raise MembershipFileError
  | Some rows =>
      (a <~ state_from_ledger rows ineligible capacity;;
       Ok (mkSys (new_discovery a) (sy_ledger s) (sy_plan s)))%py
  end.
End Loop.
