(* ===== verification/DiscoveryFacts.v ===== *)
(** * Lemmas on intraday discovery

    What one decision admits, what the ledger says of a symbol, the admissions file
    read back, and the invariant of the discovery process over polls, restarts and
    the appends of other processes. *)
From Stdlib Require Import Ascii SpecFloat.
From S2P Require Import Prelude PyStr PyFloat ExecContracts ExecJournal KisTrading Membership MembershipFacts Intraday Discovery.

(** ** The sort key *)

Lemma str_leb_total a b : str_leb a b = true \/ str_leb b a = true.
Proof. unfold str_leb. destruct (String.leb_total a b); auto. Qed.

Lemma str_leb_trans a : forall b c, str_leb a b = true -> str_leb b c = true -> str_leb a c = true.
Proof.
  unfold str_leb, String.leb. induction a as [|x a IH]; intros [|y b] [|z c]; cbn [String.compare]; try done.
  unfold Ascii.compare. destruct (N.compare_spec (N_of_ascii x) (N_of_ascii y)) as [Hxy|Hxy|Hxy],
    (N.compare_spec (N_of_ascii y) (N_of_ascii z)) as [Hyz|Hyz|Hyz]; try done; intros Hab Hbc.
  all: destruct (N.compare_spec (N_of_ascii x) (N_of_ascii z)) as [Hxz|Hxz|Hxz]; try done; try lia.
  by apply (IH b c).
Qed.

Lemma qualifier_total a b : qualifier_leb a b = true \/ qualifier_leb b a = true.
Proof.
  unfold qualifier_leb. destruct (str_leb_total (kr_symbol a) (kr_symbol b)) as [-> | ->]; rewrite ?andb_true_r; lia.
Qed.

Lemma qualifier_trans a b c : qualifier_leb a b = true -> qualifier_leb b c = true -> qualifier_leb a c = true.
Proof.
  unfold qualifier_leb. rewrite !orb_true_iff, !andb_true_iff, !Z.ltb_lt, !Z.eqb_eq.
  intros [?|[? ?]] [?|[? ?]]; try (left; lia). right. split; [lia|]. by eapply str_leb_trans.
Qed.

(** ** The decision *)

Definition feed_count (f : string) (feeds : list string) : Z := zlen (List.filter (fun g => bool_decide (g = f)) feeds).

Lemma feed_count_app f a b : feed_count f (a ++ b) = feed_count f a + feed_count f b.
Proof. unfold feed_count, zlen. rewrite List.filter_app, length_app. lia. Qed.

Lemma feed_count_cons f g l : feed_count f (g :: l) = (if decide (g = f) then 1 else 0) + feed_count f l.
Proof.
  unfold feed_count, zlen. cbn [List.filter]. case_decide; [rewrite bool_decide_true by done|rewrite bool_decide_false by done]; cbn [length]; lia.
Qed.

Lemma feed_count_nonneg f l : 0 <= feed_count f l.
Proof. unfold feed_count, zlen. lia. Qed.

Lemma symbols_for_count p f : feed_count f (map en_feed (pl_entries p)) = zlen (symbols_for p f).
Proof.
  unfold symbols_for, zlen. rewrite length_map. induction (pl_entries p) as [|e es IH]; [done|]. cbn [map]. rewrite feed_count_cons, IH.
  cbn [List.filter]. case_decide; [rewrite bool_decide_true by done|rewrite bool_decide_false by done]; cbn [length]; lia.
Qed.

Lemma spend_get l : forall room f n, dget room f = Some n -> dget (fold_left spend l room) f = Some (n - feed_count f (map a_feed l)).
Proof.
  induction l as [|a l IH]; intros room f n Hn; [cbn; rewrite Hn; f_equal; unfold feed_count, zlen; cbn; lia|].
  cbn [fold_left map]. rewrite feed_count_cons. unfold spend at 2. case_decide as Hd.
  - subst f. rewrite (IH _ _ (n - 1)); [f_equal; lia|]. rewrite dget_dset_eq, Hn. done.
  - rewrite (IH _ _ n); [f_equal; lia|]. by rewrite dget_dset_ne.
Qed.

Lemma spend_keys l : forall room, Forall (fun a => a_feed a ∈ dkeys room) l -> dkeys (fold_left spend l room) = dkeys room.
Proof.
  induction l as [|a l IH]; intros room HF; [done|]. apply Forall_cons in HF as [Ha HF]. cbn [fold_left].
  assert (Hk : dkeys (spend room a) = dkeys room).
  { unfold spend. destruct (dget room (a_feed a)) as [v|] eqn:E; [by eapply dkeys_dset_bound|]. by apply dget_None_keys in E. }
  rewrite IH; [done|]. eapply Forall_impl; [exact HF|]. cbn. by rewrite Hk.
Qed.

(** A free feed has room. *)
Lemma free_feed_some room f : NoDup (dkeys room) -> free_feed room = Some f -> exists n, dget room f = Some n /\ 0 < n.
Proof.
  unfold free_feed. intros Hnd. destruct (List.find _ room) as [[g n]|] eqn:E; [|done]. cbn. intros [= <-].
  apply List.find_some in E as [Hin Hn]. apply Z.ltb_lt in Hn. exists n. split; [|done]. apply elem_dget; [done|].
  by apply list_elem_of_In.
Qed.

Lemma free_feed_none room : free_feed room = None -> Forall (fun '(_, n) => n <= 0) room.
Proof.
  unfold free_feed. destruct (List.find _ room) as [p|] eqn:E; [done|]. intros _. apply Forall_forall. intros [f n] Hx.
  apply list_elem_of_In in Hx. pose proof (List.find_none _ _ E _ Hx) as Hn. apply Z.ltb_ge in Hn. lia.
Qed.

(** The filling loop, in terms of the admissions it makes. *)
Record filled (room0 : list (string * Z)) (done : list KiwoomRankingRow) (rej0 : list (string * Rejection)) (f : Filling) : Prop := {
  fl_room : fi_remaining f = fold_left spend (fi_admitted f) room0;
  fl_feeds : Forall (fun a => a_feed a ∈ dkeys room0) (fi_admitted f);
  fl_nonneg : Forall (fun '(_, n) => 0 <= n) (fi_remaining f);
  fl_split : exists k, map a_symbol (fi_admitted f) = map kr_symbol (take k done) /\
    fi_rejected f = rej0 ++ map (fun r => (kr_symbol r, RCapacity)) (drop k done) /\
    (k < length done -> free_feed (fi_remaining f) = None)%nat
}.

Lemma dset_forall {K V} `{EqDecision K} (P : K * V -> Prop) (d : list (K * V)) k v : Forall P d -> P (k, v) -> Forall P (dset d k v).
Proof.
  intros HF Hp. induction HF as [|[k' v'] d Hx HF IH]; cbn [dset]; [by repeat constructor|].
  case_decide as Hd; [subst k'|]; by constructor.
Qed.

Lemma filling_step room0 done rej0 f row : NoDup (dkeys room0) -> filled room0 done rej0 f -> filled room0 (done ++ [row]) rej0 (admit_row f row).
Proof.
  intros Hnd [Hr Hf Hn (k & Ha & Hj & Hk)]. unfold admit_row.
  assert (Hkeys : dkeys (fi_remaining f) = dkeys room0) by (rewrite Hr; by apply spend_keys).
  destruct (free_feed (fi_remaining f)) as [feed|] eqn:E.
  - destruct (free_feed_some _ _ ltac:(by rewrite Hkeys) E) as (n & Hd & Hpos).
    assert (Hkl : (length done <= k)%nat) by (destruct (decide (k < length done)%nat) as [Hlt|]; [by specialize (Hk Hlt)|lia]).
    split; cbn [fi_remaining fi_admitted fi_rejected].
    + rewrite fold_left_app. cbn. rewrite <- Hr. done.
    + apply Forall_app. split; [done|]. repeat constructor. cbn. rewrite <- Hkeys.
      destruct (decide (feed ∈ dkeys (fi_remaining f))) as [|Hx]; [done|]. apply dget_None_keys in Hx. congruence.
    + apply dset_forall; [done|]. rewrite Hd. cbn. lia.
    + exists (length (done ++ [row])). rewrite take_ge, drop_ge by lia. rewrite !map_app, Ha, Hj, (take_ge done), (drop_ge done) by lia.
      split; [done|]. split; [done|lia].
  - split; cbn [fi_remaining fi_admitted fi_rejected]; [done|done|done|].
    destruct (decide (k <= length done)%nat) as [Hle|Hgt].
    + exists k. rewrite take_app_le, drop_app_le by done. split; [done|]. split; [|done]. by rewrite Hj, map_app, app_assoc.
    + exists (length done). rewrite take_app_le, drop_app_le, (take_ge done), (drop_ge done) by lia. split; [rewrite Ha, take_ge by lia; done|].
      split; [|done]. rewrite Hj, drop_ge by lia. cbn. by rewrite app_nil_r.
Qed.

Lemma filling_all room0 rej0 rows : NoDup (dkeys room0) -> Forall (fun '(_, n) => 0 <= n) room0 ->
  filled room0 rows rej0 (fold_left admit_row rows (mkFilling room0 [] rej0)).
Proof.
  intros Hnd Hn. induction rows as [|row rows IH] using rev_ind.
  - split; cbn; [done|done|done|]. exists 0%nat. cbn. rewrite app_nil_r. split; [done|]. split; [done|lia].
  - rewrite fold_left_app. cbn [fold_left]. by apply filling_step.
Qed.

(** The places of the feeds in fill order. *)
Definition feed_seq (room : list (string * Z)) : list string := concat (map (fun '(f, n) => repeat f (Z.to_nat n)) room).

Lemma feed_seq_free room : free_feed room = head (feed_seq room).
Proof.
  unfold free_feed. induction room as [|[f n] room IH]; [done|]. cbn [List.find feed_seq map concat].
  destruct (0 <? n) eqn:E; bprop.
  - replace (Z.to_nat n) with (S (Z.to_nat (n - 1))) by lia. done.
  - replace (Z.to_nat n) with 0%nat by lia. cbn. apply IH.
Qed.

Lemma feed_seq_spend room feed : NoDup (dkeys room) -> free_feed room = Some feed ->
  feed_seq (dset room feed (default 0 (dget room feed) - 1)) = tail (feed_seq room).
Proof.
  unfold free_feed. induction room as [|[f n] room IH]; [done|]. intros [Hf Hnd]%NoDup_cons. cbn [List.find].
  destruct (0 <? n) eqn:E; bprop.
  - cbn. intros [= <-]. rewrite !decide_True by done. cbn [default from_option id]. unfold feed_seq. cbn [map concat].
    replace (Z.to_nat n) with (S (Z.to_nat (n - 1))) by lia. done.
  - intros Hff. assert (Hne : feed <> f).
    { intros ->. destruct (List.find _ room) as [[g m]|] eqn:Ef; [|done]. cbn in Hff. injection Hff as ->.
      apply List.find_some in Ef as [Hin _]. apply Hf. apply list_elem_of_fmap. exists (f, m). split; [done|]. by apply list_elem_of_In. }
    cbn [dget dset]. rewrite !decide_False by done. unfold feed_seq. cbn [map concat].
    replace (Z.to_nat n) with 0%nat by lia. cbn [repeat app]. by apply IH.
Qed.

Lemma filling_feeds room0 rej0 rows : NoDup (dkeys room0) -> Forall (fun '(_, n) => 0 <= n) room0 ->
  let f := fold_left admit_row rows (mkFilling room0 [] rej0) in
  map a_feed (fi_admitted f) = take (length (fi_admitted f)) (feed_seq room0) /\
  feed_seq (fi_remaining f) = drop (length (fi_admitted f)) (feed_seq room0).
Proof.
  intros Hnd Hn. induction rows as [|row rows [IH1 IH2]] using rev_ind; [by cbn; rewrite drop_0|]. cbv zeta.
  pose proof (filling_all room0 rej0 rows Hnd Hn) as Hf. rewrite fold_left_app. cbn [fold_left].
  set (f := fold_left admit_row rows _) in *. unfold admit_row.
  destruct (free_feed (fi_remaining f)) as [feed|] eqn:E; cbn [fi_admitted fi_remaining]; [|done].
  assert (Hk : NoDup (dkeys (fi_remaining f))) by (rewrite (fl_room _ _ _ _ Hf), spend_keys; [done|apply Hf]).
  rewrite feed_seq_spend by done. rewrite feed_seq_free, IH2 in E.
  rewrite length_app, map_app, IH1, IH2. cbn [length map a_feed].
  destruct (drop (length (fi_admitted f)) (feed_seq room0)) as [|x xs] eqn:Ed; [done|]. injection E as ->.
  assert (Hl : feed_seq room0 !! length (fi_admitted f) = Some feed) by (rewrite <- (Nat.add_0_r (length _)), <- lookup_drop, Ed; done).
  rewrite Nat.add_1_r. split; [symmetry; by apply take_S_r|]. cbn. apply drop_S in Hl. rewrite Hl in Ed. by injection Ed.
Qed.

(** ** The screening loop *)

Fixpoint firsts (seen : list string) (l : list KiwoomRankingRow) : list KiwoomRankingRow :=
  match l with
  | [] => []
  | r :: l => if bool_decide (kr_symbol r ∈ seen) then firsts seen l else r :: firsts (kr_symbol r :: seen) l
  end.

Lemma firsts_spec l : forall seen,
  NoDup (map kr_symbol (firsts seen l)) /\ (forall r, r ∈ firsts seen l -> r ∈ l /\ kr_symbol r ∉ seen) /\
  (forall s, s ∈ map kr_symbol (firsts seen l) <-> s ∈ map kr_symbol l /\ s ∉ seen).
Proof.
  induction l as [|r l IH]; intros seen; cbn [firsts]; [split; [constructor|]; split; set_solver|].
  case_bool_decide as Hb.
  - destruct (IH seen) as (H1 & H2 & H3). split; [done|]. split; [set_solver|]. intros s. rewrite H3. set_solver.
  - destruct (IH (kr_symbol r :: seen)) as (H1 & H2 & H3). cbn [map]. split.
    + constructor; [|done]. rewrite H3. set_solver.
    + split; [intros x [->|Hx]%elem_of_cons; [set_solver|]; apply H2 in Hx; set_solver|].
      intros s. rewrite elem_of_cons, H3. destruct (decide (s = kr_symbol r)) as [->|]; set_solver.
Qed.

Section Screen.
Context (state : AdmissionState) (cfg : IntradayAdmissionSettings).

(** The rows that qualify and are not yet collected; of these, the eligible ones. *)
Definition candidate (r : KiwoomRankingRow) : bool := negb (bool_decide (kr_symbol r ∈ ad_collected state)) && qualifies r cfg.
Definition eligible (r : KiwoomRankingRow) : bool := negb (bool_decide (kr_symbol r ∈ ad_ineligible state)).
Definition screened (rows : list KiwoomRankingRow) : list KiwoomRankingRow := firsts [] (List.filter candidate rows).

Lemma screen_row_eq s r : screen_row state cfg s r =
  if negb (candidate r) || bool_decide (kr_symbol r ∈ sc_seen s) then s
  else if eligible r then mkScreen (kr_symbol r :: sc_seen s) (sc_rejected s) (sc_qualifiers s ++ [r])
  else mkScreen (kr_symbol r :: sc_seen s) (sc_rejected s ++ [(kr_symbol r, RIneligible)]) (sc_qualifiers s).
Proof.
  unfold screen_row, candidate, eligible.
  by destruct (bool_decide (kr_symbol r ∈ ad_collected state)), (qualifies r cfg), (bool_decide (kr_symbol r ∈ sc_seen s)),
    (bool_decide (kr_symbol r ∈ ad_ineligible state)).
Qed.

Lemma screen_all rows : forall s,
  let fs := firsts (sc_seen s) (List.filter candidate rows) in
  let t := fold_left (screen_row state cfg) rows s in
  sc_qualifiers t = sc_qualifiers s ++ List.filter eligible fs /\
  sc_rejected t = sc_rejected s ++ map (fun r => (kr_symbol r, RIneligible)) (List.filter (fun r => negb (eligible r)) fs).
Proof.
  induction rows as [|r rows IH]; intros s; cbn [fold_left List.filter]; [by cbn; rewrite !app_nil_r|].
  rewrite screen_row_eq. destruct (candidate r); cbn [negb orb]; [|apply IH]. cbn [firsts].
  destruct (bool_decide (kr_symbol r ∈ sc_seen s)); [apply IH|]. cbn [List.filter].
  destruct (eligible r); cbn [negb map].
  all: match goal with |- context [fold_left _ _ ?t] => destruct (IH t) as [-> ->] end; cbn [sc_seen sc_qualifiers sc_rejected].
  all: by rewrite <- ?app_assoc.
Qed.

(** One decision: the first row of every eligible candidate, ranked, and cut at the places there are. *)
Lemma decide_shape rows : NoDup (dkeys (ad_capacity_left state)) -> Forall (fun '(_, n) => 0 <= n) (ad_capacity_left state) ->
  let ranked := py_sorted qualifier_leb (List.filter eligible (screened rows)) in
  let places := feed_seq (ad_capacity_left state) in
  let d := decide_admissions rows state cfg in
  map a_symbol (de_admitted d) = map kr_symbol (take (length places) ranked) /\
  map a_feed (de_admitted d) = take (length ranked) places /\
  de_rejected d = map (fun r => (kr_symbol r, RIneligible)) (List.filter (fun r => negb (eligible r)) (screened rows))
                  ++ map (fun r => (kr_symbol r, RCapacity)) (drop (length places) ranked) /\
  Forall (fun '(_, n) => 0 <= n) (fold_left spend (de_admitted d) (ad_capacity_left state)).
Proof.
  intros Hnd Hn. cbv zeta. unfold decide_admissions. destruct (screen_all rows (mkScreen [] [] [])) as [Hq Hr].
  cbn [sc_qualifiers sc_rejected sc_seen app] in Hq, Hr. fold (screened rows) in Hq, Hr. rewrite Hq, Hr.
  set (ranked := py_sorted qualifier_leb (List.filter eligible (screened rows))). set (rej := map (fun r => (kr_symbol r, RIneligible)) _).
  set (room := ad_capacity_left state) in *. destruct (filling_feeds room rej ranked Hnd Hn) as [Hf1 Hf2].
  destruct (filling_all room rej ranked Hnd Hn) as [G1 _ G3 (k & G4 & G5 & G6)].
  set (f := fold_left admit_row ranked _) in *. cbn [de_admitted de_rejected]. rewrite <- G1.
  assert (Hlen : length (fi_admitted f) = Nat.min k (length ranked)).
  { apply (f_equal length) in G4. rewrite !length_map, length_take in G4. lia. }
  assert (Hle : (length (fi_admitted f) <= length (feed_seq room))%nat).
  { apply (f_equal length) in Hf1. rewrite length_map, length_take in Hf1. lia. }
  assert (Hcut : (k < length ranked -> length (feed_seq room) = k)%nat).
  { intros Hk. specialize (G6 Hk). rewrite feed_seq_free, Hf2 in G6.
    assert (Hd : drop (length (fi_admitted f)) (feed_seq room) = []) by (by destruct (drop _ _)).
    apply (f_equal length) in Hd. rewrite length_drop in Hd. cbn in Hd. lia. }
  destruct (decide (k < length ranked)%nat) as [Hk|Hk].
  - rewrite (Hcut Hk) in *. rewrite G4, G5, Hf1, Hlen. split; [done|]. split; [|done].
    rewrite !take_ge; [done|lia|]. rewrite (Hcut Hk). lia.
  - rewrite (take_ge ranked), (drop_ge ranked) in * by lia. rewrite G4, G5, Hf1, Hlen. split; [done|].
    split; [f_equal; lia|]. done.
Qed.

(** The symbols of the screened rows, and of a selection of them by symbol. *)
Lemma screened_symbols rows s : s ∈ map kr_symbol (screened rows) <->
  s ∉ ad_collected state /\ exists r, r ∈ rows /\ kr_symbol r = s /\ qualifies r cfg = true.
Proof.
  destruct (firsts_spec (List.filter candidate rows) []) as (_ & _ & F3). unfold screened. rewrite F3. split.
  - intros [Hs _]. apply list_elem_of_fmap in Hs as (r & -> & Hr). apply filter_elem in Hr as [Hr Hc]. unfold candidate in Hc. bprop. eauto.
  - intros (Hs & r & Hr & <- & Hq). split; [|set_solver]. apply list_elem_of_fmap. exists r. split; [done|]. apply filter_elem. split; [done|].
    unfold candidate. by rewrite bool_decide_false, Hq.
Qed.

Lemma screened_sel (b : bool) rows s : s ∈ map kr_symbol (List.filter (fun r => Bool.eqb (eligible r) b) (screened rows)) <->
  s ∈ map kr_symbol (screened rows) /\ bool_decide (s ∉ ad_ineligible state) = b.
Proof.
  assert (He : forall r, eligible r = bool_decide (kr_symbol r ∉ ad_ineligible state)).
  { intros r. unfold eligible. destruct (decide (kr_symbol r ∈ ad_ineligible state)).
    - rewrite bool_decide_true by done. by rewrite bool_decide_false by naive_solver.
    - rewrite bool_decide_false by done. by rewrite bool_decide_true by done. }
  split.
  - intros Hs. apply list_elem_of_fmap in Hs as (r & -> & [Hr Hpr]%filter_elem). split; [apply list_elem_of_fmap; eauto|].
    rewrite <- He. by apply eqb_true_iff.
  - intros [Hs Hb]. apply list_elem_of_fmap in Hs as (r & -> & Hr). apply list_elem_of_fmap. exists r. split; [done|].
    apply filter_elem. split; [done|]. rewrite He, Hb. apply eqb_reflx.
Qed.

Lemma eligible_sel rows : List.filter eligible (screened rows) = List.filter (fun r => Bool.eqb (eligible r) true) (screened rows) /\
  List.filter (fun r => negb (eligible r)) (screened rows) = List.filter (fun r => Bool.eqb (eligible r) false) (screened rows).
Proof. split; apply List.filter_ext; intros r; by destruct (eligible r). Qed.
End Screen.
