(* ===== verification/DiscoveryInv.v ===== *)
(** * The invariant of intraday discovery

    Over any sequence of polls, restarts, failed writes and appends of other processes
    the admissions file stays readable, names a symbol once and keeps every feed within
    its capacity; the readable ledger holds a row for each of its entries. *)
From Stdlib Require Import Ascii SpecFloat.
From S2P Require Import Prelude PyStr PyFloat ExecContracts ExecJournal KisTrading Membership MembershipFacts Intraday Discovery DiscoveryFacts.

(** ** The ledger's view of a symbol *)

Lemma effective_app rows r : effective_tiers (rows ++ [r]) = effective_step (effective_tiers rows) r.
Proof. unfold effective_tiers. by rewrite fold_left_app. Qed.

(** Every row but an acknowledgement leaves its symbol a row of at least its tier. *)
Lemma effective_rank rows : forall r, r ∈ rows -> m_source r <> ACK_SOURCE ->
  exists e, dget (effective_tiers rows) (m_symbol r) = Some e /\ tier_rank (m_tier r) <= tier_rank (m_tier e).
Proof.
  induction rows as [|x rows IH] using rev_ind; intros r Hr Hs; [by apply elem_of_nil in Hr|].
  rewrite effective_app. unfold effective_step. apply elem_of_app in Hr as [Hr| ->%list_elem_of_singleton].
  - destruct (IH r Hr Hs) as (e & He & Hle). case_bool_decide; [eauto|].
    destruct (decide (m_symbol x = m_symbol r)) as [Hx|Hx].
    + rewrite Hx, He. destruct (_ <=? _) eqn:E; bprop; [|eauto]. exists x. rewrite dget_dset_eq. split; [done|lia].
    + destruct (dget (effective_tiers rows) (m_symbol x)) as [o|]; [|rewrite dget_dset_ne by done; eauto].
      destruct (_ <=? _); [rewrite dget_dset_ne by done|]; eauto.
  - rewrite bool_decide_false by done. destruct (dget (effective_tiers rows) (m_symbol x)) as [o|] eqn:E.
    + destruct (_ <=? _) eqn:Hl; bprop; [exists x; by rewrite dget_dset_eq|]. exists o. split; [done|lia].
    + exists x. by rewrite dget_dset_eq.
Qed.

Lemma effective_from rows k e : dget (effective_tiers rows) k = Some e -> e ∈ rows /\ m_source e <> ACK_SOURCE.
Proof.
  revert k e. induction rows as [|x rows IH] using rev_ind; intros k e; [done|]. rewrite effective_app. unfold effective_step.
  assert (Hold : dget (effective_tiers rows) k = Some e -> e ∈ rows ++ [x] /\ m_source e <> ACK_SOURCE).
  { intros He. destruct (IH _ _ He). split; [set_solver|done]. }
  case_bool_decide as Ha; [done|]. destruct (decide (m_symbol x = k)) as [<-|Hk].
  - assert (Hnew : Some x = Some e -> e ∈ rows ++ [x] /\ m_source e <> ACK_SOURCE) by (intros [= <-]; split; [set_solver|done]).
    destruct (dget (effective_tiers rows) (m_symbol x)) as [o|] eqn:E; [destruct (_ <=? _)|]; rewrite ?dget_dset_eq; auto.
    rewrite E. done.
  - destruct (dget (effective_tiers rows) (m_symbol x)) as [o|]; [destruct (_ <=? _)|]; rewrite ?dget_dset_ne by done; done.
Qed.

(** The rows the processes of a session write. *)
Definition writer_row (r : MembershipRow) : Prop :=
  valid_row r /\ (m_source r = "ack" \/ m_source r = "static" \/ (m_source r = "dynamic" /\ m_tier r = "B") \/
    (m_tier r = "C" /\ (m_source r = "intraday_capacity" \/ m_source r = "post_close_screen"))).

Lemma writer_valid r : writer_row r -> valid_row r.
Proof. by intros []. Qed.

Lemma effective_nodup rows : NoDup (dkeys (effective_tiers rows)).
Proof.
  induction rows as [|x rows IH] using rev_ind; [constructor|]. rewrite effective_app. unfold effective_step.
  case_bool_decide; [done|]. destruct (dget _ _); [destruct (_ <=? _)|]; auto using dkeys_dset_nodup.
Qed.

(** A symbol with a dynamic row counts as collected after a restart. *)
Lemma dynamic_collected rows r : Forall writer_row rows -> r ∈ rows -> m_source r = "dynamic" ->
  m_symbol r ∈ (list_to_set (map fst (List.filter (fun '(_, row) => collected_row row) (effective_tiers rows))) : gset string).
Proof.
  intros HW Hr Hd. rewrite Forall_forall in HW. destruct (HW r Hr) as [_ Hw].
  assert (Ht : m_tier r = "B") by (rewrite Hd in Hw; naive_solver).
  destruct (effective_rank rows r Hr) as (e & He & Hle); [by rewrite Hd|]. destruct (effective_from _ _ _ He) as [Hin Hack].
  apply elem_of_list_to_set, list_elem_of_fmap. exists (m_symbol r, e). split; [done|]. apply filter_elem.
  split; [by apply dget_elem|]. destruct (HW e Hin) as [Hv Hwe]. rewrite Ht in Hle. change (tier_rank "B") with 1 in Hle.
  unfold valid_row, dmem in Hv. unfold tier_rank in Hle. cbn [TIER_RANK dget] in Hv, Hle. unfold collected_row.
  repeat case_decide; try done; try (cbn in Hle; lia).
  all: rewrite (bool_decide_true (m_tier e ∈ _)) by set_solver.
  all: apply bool_decide_true; unfold ACK_SOURCE in Hack; set_solver.
Qed.

(** ** The admissions file *)

Definition codes_ok (entries : list DynamicEntry) : Prop := Forall (fun e => is_krx_short_code (en_symbol e) = true) entries.

Section PlanRead.
Variable repr : json -> string.

(** The file holds a plan: no file is the empty plan. *)
Definition plan_is (file : plan_file) (p : DynamicPlan) : Prop :=
  (file = None /\ p = mkPlan 0 []) \/ (file = Some (Some (plan_json p)) /\ 0 <= pl_rev p /\ codes_ok (pl_entries p)).

Lemma read_entry_json e : read_entry repr (entry_json e) = Ok e.
Proof. by destruct e. Qed.

Lemma plan_read file p : plan_is file p -> read_dynamic_admissions repr file = Ok p.
Proof.
  intros [[-> ->]|(-> & Hrev & Hc)]; [done|]. destruct p as [rev entries]. cbn [pl_rev pl_entries] in *.
  transitivity (if rev <? 0 then Raise DynamicAdmissionsFileError
    else (es <~ read_entries repr (map entry_json entries);;
          if existsb (fun e => negb (is_krx_short_code (en_symbol e))) es then Raise DynamicAdmissionsFileError
          else Ok (mkPlan rev es))%py); [done|]. rewrite (proj2 (Z.ltb_ge _ _) Hrev).
  assert (read_entries repr (map entry_json entries) = Ok entries) as ->.
  { induction entries as [|e es IH]; [done|]. apply Forall_cons in Hc as [_ Hc]. cbn [map read_entries]. rewrite read_entry_json. cbn [res_bind].
    by rewrite IH. }
  cbn [res_bind]. destruct (existsb _ _) eqn:Ex; [|done]. apply existsb_exists in Ex as (e & He & Hn).
  apply list_elem_of_In in He. unfold codes_ok in Hc. rewrite Forall_forall in Hc. rewrite Hc in Hn; done.
Qed.

(** A write of the next revision is read back; a failing one leaves the file. *)
Lemma plan_write file p es : plan_is file p -> codes_ok es ->
  let q := mkPlan (pl_rev p + 1) (pl_entries p ++ es) in
  write_dynamic_admissions repr false file q = (Some (Some (plan_json q)), Ok tt) /\ plan_is (Some (Some (plan_json q))) q.
Proof.
  intros Hp Hes q. unfold write_dynamic_admissions. rewrite (plan_read file p Hp). cbn [pl_rev q].
  rewrite (proj2 (Z.leb_gt _ _)) by lia. split; [done|]. right. split; [done|]. cbn [pl_rev pl_entries].
  destruct Hp as [[_ ->]|(_ & Hr & Hc)]; cbn; (split; [lia|]); [done|]. by apply Forall_app.
Qed.
End PlanRead.

(** ** Feeds *)

(** A feed whose fields name it again. *)
Definition feed_named (f : string) : Prop := exists l k, feed_fields f = Ok (l, k) /\
  forall s t so d di w v re, feed_of (mkRow s t so d di w l k v re) = Ok f.

Lemma capacities_named ls kis slot : Forall feed_named (dkeys (feed_capacities ls kis slot)).
Proof.
  assert (Hls : feed_named "ls:1") by (exists (Some 1), None; by split).
  unfold feed_capacities. destruct slot as [slot|]; [|by repeat constructor]. constructor; [done|]. repeat constructor.
  exists None, (Some slot). split; [|done]. transitivity (Ok (E := uni_exc) (@None Z, Some (l2s (s2l slot)))); [done|]. by rewrite l2s_s2l.
Qed.

(** ** The processes of a session *)

(** A row of the daemon's static plan or of a feed's acknowledgement. *)
Definition other_row (r : MembershipRow) : Prop := valid_row r /\ (m_source r = "static" \/ m_source r = "ack").

Definition ranking_codes (env : PollEnv) : Prop :=
  forall rows, pe_fetch env = Some rows -> Forall (fun r => is_krx_short_code (kr_symbol r) = true) rows.

Section Machine.
Context `{RowCodecLaws} (repr : json -> string) (cfg : IntradayAdmissionSettings) (ls_reserve kis_symbols : Z) (kis_slot : option string).
Let cap : list (string * Z) := feed_capacities ls_reserve kis_symbols kis_slot.

(** Polls, restarts and foreign appends in any order. A crash inside a poll is a poll
    with a failing write followed by a restart. *)
Inductive dstep : Sys -> Sys -> Prop :=
| d_poll env s : ranking_codes env -> dstep s (fst (admission_poll repr cfg env s))
| d_post env s : dstep s (fst (post_close_poll cfg env s))
| d_restart ineligible s s' : restart ineligible cap s = Ok s' -> dstep s s'
| d_other fault rows s : Forall other_row rows ->
    dstep s (mkSys (sy_state s) (fst (append_membership fault (sy_ledger s) rows)) (sy_plan s)).

Definition day_start (ineligible : gset string) : Sys := mkSys (new_discovery (mkAdm ∅ ineligible cap)) None None.

(** The state of the process against the entries of the plan. *)
Record mem_ok (a : AdmissionState) (es : list DynamicEntry) : Prop := {
  mo_keys : dkeys (ad_capacity_left a) = dkeys cap;
  mo_nonneg : Forall (fun '(_, n) => 0 <= n) (ad_capacity_left a);
  mo_collected e : e ∈ es -> en_symbol e ∈ ad_collected a;
  mo_room f n c : dget (ad_capacity_left a) f = Some n -> dget cap f = Some c -> n + feed_count f (map en_feed es) <= c
}.

(** The dynamic rows of the ledger by symbol and feed. *)
Definition dynamic_feeds (rows : list MembershipRow) : list (string * res uni_exc string) :=
  map (fun r => (m_symbol r, feed_of r)) (List.filter (fun r => bool_decide (m_source r = "dynamic")) rows).
Definition entry_feeds (es : list DynamicEntry) : list (string * res uni_exc string) :=
  map (fun e => (en_symbol e, Ok (en_feed e))) es.

Record files_ok (ledger : option (list ascii)) (plan : plan_file) (p : DynamicPlan) (acked : list MembershipRow) : Prop := {
  fo_plan : plan_is plan p;
  fo_ledger : ledger_inv writer_row (default [] ledger) acked;
  fo_rows : entry_feeds (pl_entries p) `sublist_of` dynamic_feeds acked;
  fo_once : NoDup (map en_symbol (pl_entries p));
  fo_feeds : Forall (fun e => en_feed e ∈ dkeys cap) (pl_entries p)
}.

Definition dinv (s : Sys) : Prop := exists p acked,
  files_ok (sy_ledger s) (sy_plan s) p acked /\ mem_ok (di_admission (sy_state s)) (pl_entries p).

Lemma cap_nodup : NoDup (dkeys cap).
Proof using.
  unfold cap, feed_capacities. destruct kis_slot; cbn; [|apply NoDup_singleton]. apply NoDup_cons. split; [|apply NoDup_singleton].
  intros Hx%list_elem_of_singleton. discriminate Hx.
Qed.

Lemma cap_nonneg : Forall (fun '(_, n) => 0 <= n) cap.
Proof using. unfold cap, feed_capacities. destruct kis_slot; repeat constructor; cbn; lia. Qed.

Lemma dynamic_feeds_app a b : dynamic_feeds (a ++ b) = dynamic_feeds a ++ dynamic_feeds b.
Proof using. unfold dynamic_feeds. by rewrite List.filter_app, map_app. Qed.

Lemma start_dinv ineligible : dinv (day_start ineligible).
Proof using All.
  exists (mkPlan 0 []), []. split; [split|split]; cbn; try done.
  - by left.
  - right. exists [], []. by repeat split.
  - constructor.
  - apply cap_nonneg.
  - set_solver.
  - intros f n c Hn Hc. rewrite Hn in Hc. injection Hc as ->. change (feed_count f []) with 0. lia.
Qed.

(** ** Appends and restarts *)

Lemma append_files fault ledger plan p acked rows : files_ok ledger plan p acked -> Forall writer_row rows ->
  match append_membership fault ledger rows with
  | (ledger', Ok _) => files_ok ledger' plan p (acked ++ rows)
  | (ledger', Raise _) => files_ok ledger' plan p acked
  end.
Proof using All.
  intros [H1 H2 H3 H4 H5] HW. pose proof (append_inv writer_row writer_valid fault ledger rows acked H2 HW) as Ha.
  destruct (append_membership fault ledger rows) as [ledger' [u|e]]; split; try done.
  rewrite dynamic_feeds_app. by apply sublist_inserts_r.
Qed.

Lemma other_writer r : other_row r -> writer_row r.
Proof using. intros [Hv Ho]. split; [done|]. naive_solver. Qed.

Lemma other_dinv fault rows s : dinv s -> Forall other_row rows ->
  dinv (mkSys (sy_state s) (fst (append_membership fault (sy_ledger s) rows)) (sy_plan s)).
Proof using All.
  intros (p & acked & Hf & Hm) Ho.
  pose proof (append_files fault _ _ _ _ rows Hf ltac:(eapply Forall_impl; [exact Ho|apply other_writer])) as Ha.
  destruct (append_membership fault (sy_ledger s) rows) as [ledger' [u|e]]; [exists p, (acked ++ rows)|exists p, acked]; done.
Qed.

Definition on_feed (f : string) (x : string * res uni_exc string) : bool :=
  match snd x with Ok g => bool_decide (g = f) | Raise _ => false end.

Lemma entry_feed_count f es : feed_count f (map en_feed es) = zlen (List.filter (on_feed f) (entry_feeds es)).
Proof using.
  induction es as [|e es IH]; [done|]. cbn [map]. rewrite feed_count_cons, IH. unfold entry_feeds. cbn [map List.filter on_feed snd].
  unfold zlen. 
  case_decide; [rewrite bool_decide_true by done|rewrite bool_decide_false by done]; cbn [length]; lia.
Qed.

Lemma use_capacity_spec rows : forall room out, use_capacity room rows = Ok out -> Forall (fun '(_, n) => 0 <= n) room ->
  dkeys out = dkeys room /\ Forall (fun '(_, n) => 0 <= n) out /\
  forall f n, dget room f = Some n -> dget out f = Some (Z.max 0 (n - zlen (List.filter (on_feed f) (dynamic_feeds rows)))).
Proof using.
  induction rows as [|r rows IH]; intros room out Hu Hn.
  { injection Hu as <-. split; [done|]. split; [done|]. intros f n Hf. rewrite Hf. f_equal. unfold zlen. cbn.
    rewrite Forall_forall in Hn. pose proof (Hn (f, n) (dget_elem _ _ _ Hf)) as Hx. cbn in Hx. lia. }
  cbn [use_capacity] in Hu. unfold dynamic_feeds. cbn [List.filter].
  destruct (bool_decide (m_source r = "dynamic")); cbn [negb] in Hu; [|by apply IH].
  destruct (feed_of r) as [feed|e] eqn:Ef; [|done]. cbn [res_bind] in Hu.
  set (room' := match dget room feed with Some n => dset room feed (Z.max 0 (n - 1)) | None => room end) in Hu.
  assert (Hk : dkeys room' = dkeys room) by (unfold room'; destruct (dget room feed) eqn:E; [by eapply dkeys_dset_bound|done]).
  assert (Hn' : Forall (fun '(_, n) => 0 <= n) room') by (unfold room'; destruct (dget room feed); [apply dset_forall; [done|lia]|done]).
  destruct (IH _ _ Hu Hn') as (Hok & Hon & Hget). split; [congruence|]. split; [done|]. intros f n Hf.
  cbn [map]. rewrite Ef. cbn [List.filter on_feed snd]. fold (dynamic_feeds rows). case_bool_decide as Hb.
  - subst feed. rewrite (Hget f (Z.max 0 (n - 1))); [|unfold room'; by rewrite Hf, dget_dset_eq]. f_equal. unfold zlen. cbn [length]. lia.
  - apply Hget. unfold room'. destruct (dget room feed); [by rewrite dget_dset_ne|done].
Qed.

Lemma restart_keeps ineligible s s' p acked : restart ineligible cap s = Ok s' ->
  files_ok (sy_ledger s) (sy_plan s) p acked -> mem_ok (di_admission (sy_state s)) (pl_entries p) ->
  files_ok (sy_ledger s') (sy_plan s') p acked /\ mem_ok (di_admission (sy_state s')) (pl_entries p).
Proof using All.
  intros Hr Hf Hm. unfold restart in Hr. destruct (read_membership (sy_ledger s)) as [rows|] eqn:Er; [|done].
  unfold state_from_ledger in Hr. destruct (use_capacity cap rows) as [room|e] eqn:Eu; [|done]. cbn in Hr. injection Hr as <-.
  destruct (read_inv writer_row writer_valid _ _ _ (fo_ledger _ _ _ _ Hf) Er) as [HW Hsub].
  destruct (use_capacity_spec _ _ _ Eu cap_nonneg) as (Hk & Hn & Hget).
  assert (Hin : entry_feeds (pl_entries p) `sublist_of` dynamic_feeds rows).
  { etrans; [apply Hf|]. by apply sublist_map, filter_sublist_mono. }
  split; [apply Hf|]. split; cbn [di_admission new_discovery sy_state ad_capacity_left ad_collected]; [done|done| |].
  - intros e He. assert (Hx : (en_symbol e, Ok (en_feed e)) ∈ dynamic_feeds rows).
    { eapply elem_of_sublist; [|exact Hin]. apply list_elem_of_fmap. eauto. }
    apply list_elem_of_fmap in Hx as (r & [= Hs _] & Hx). apply filter_elem in Hx as [Hx Hd]. apply bool_decide_eq_true in Hd.
    rewrite Hs. by apply dynamic_collected.
  - intros f n c Hgf Hc. rewrite (Hget f c Hc) in Hgf. injection Hgf as <-.
    assert (Hle : feed_count f (map en_feed (pl_entries p)) <= zlen (List.filter (on_feed f) (dynamic_feeds rows))).
    { rewrite entry_feed_count. by apply inj_le, sublist_length, filter_sublist_mono. }
    assert (Hmr : exists n, dget (ad_capacity_left (di_admission (sy_state s))) f = Some n /\ 0 <= n).
    { destruct (dget (ad_capacity_left (di_admission (sy_state s))) f) as [n|] eqn:E.
      - exists n. split; [done|]. pose proof (mo_nonneg _ _ Hm) as Hx. rewrite Forall_forall in Hx. exact (Hx _ (dget_elem _ _ _ E)).
      - apply dget_None_keys in E. rewrite (mo_keys _ _ Hm) in E. apply dget_None_keys in E. congruence. }
    destruct Hmr as (n & E & Hpos). pose proof (mo_room _ _ Hm f n c E Hc). lia.
Qed.

Lemma restart_dinv ineligible s s' : restart ineligible cap s = Ok s' -> dinv s -> dinv s'.
Proof using All. intros Hr (p & acked & Hf & Hm). exists p, acked. by eapply restart_keeps. Qed.

(** ** Polls *)

Lemma fresh_keep env rows : forall s fresh s' fresh', fold_left (fresh_row cfg env) rows (s, fresh) = (s', fresh') ->
  ad_collected (di_admission s') = ad_collected (di_admission s) /\
  ad_capacity_left (di_admission s') = ad_capacity_left (di_admission s) /\ forall r, r ∈ fresh' -> r ∈ fresh \/ r ∈ rows.
Proof using All.
  induction rows as [|row rows IH]; intros s fresh s' fresh' Hf; cbn [fold_left] in Hf; [injection Hf as <- <-; naive_solver|].
  destruct (fresh_row cfg env (s, fresh) row) as [s1 fresh1] eqn:E1. destruct (IH _ _ _ _ Hf) as (H1 & H2 & H3).
  assert (Hone : ad_collected (di_admission s1) = ad_collected (di_admission s) /\
    ad_capacity_left (di_admission s1) = ad_capacity_left (di_admission s) /\ (fresh1 = fresh \/ fresh1 = fresh ++ [row])).
  { unfold fresh_row in E1. destruct (_ || _); [by simplify_eq; auto|]. destruct (negb _); [by simplify_eq; auto|].
    destruct (bool_decide _); [simplify_eq; cbn; auto|]. destruct (pe_status env) as [st|]; [|simplify_eq; auto].
    destruct (dmem _ _); [simplify_eq; auto|]. destruct (check_status st _) as [[] l]; simplify_eq; cbn; auto. }
  destruct Hone as (G1 & G2 & G3). split; [congruence|]. split; [congruence|]. intros r Hr. apply H3 in Hr as [Hr|Hr]; [|set_solver].
  destruct G3 as [->| ->]; set_solver.
Qed.

Lemma admitted_rows_ok l decided levels : Forall feed_named (map a_feed l) -> exists rows,
  admitted_rows l decided levels = Ok rows /\ Forall writer_row rows /\
  dynamic_feeds rows = map (fun a => (a_symbol a, Ok (a_feed a))) l.
Proof using All.
  induction l as [|a l IH]; cbn [map]; [by exists []|]. intros [(ls & k & Hff & Hof) HF]%Forall_cons.
  destruct (IH HF) as (rows & Hr & HW & Hd). cbn [admitted_rows]. unfold admitted_row. rewrite Hff. cbn [res_bind fst snd].
  rewrite Hr. cbn [res_bind]. eexists. split; [done|]. split.
  - constructor; [|done]. split; [done|]. right. right. left. done.
  - unfold dynamic_feeds in *. cbn [List.filter m_source]. rewrite bool_decide_true by done. cbn [map m_symbol]. by rewrite Hof, Hd.
Qed.

Lemma decide_sound rows a es : mem_ok a es -> let d := decide_admissions rows a cfg in
  NoDup (map a_symbol (de_admitted d)) /\
  Forall (fun x => (exists r, r ∈ rows /\ kr_symbol r = a_symbol x) /\ a_symbol x ∉ ad_collected a /\ a_feed x ∈ dkeys cap) (de_admitted d) /\
  Forall (fun '(_, n) => 0 <= n) (fold_left spend (de_admitted d) (ad_capacity_left a)).
Proof using All.
  intros [Hk Hn _ _] d. destruct (decide_shape a cfg rows) as (Hs & Hf & _ & Hnn); [rewrite Hk; apply cap_nodup|done|].
  fold d in Hs, Hf, Hnn. set (ranked := py_sorted qualifier_leb _) in *. set (places := feed_seq _) in *.
  destruct (firsts_spec (List.filter (candidate a cfg) rows) []) as (F1 & F2 & _). fold (screened a cfg rows) in F1, F2.
  assert (Hrk : forall r, r ∈ ranked -> r ∈ rows /\ kr_symbol r ∉ ad_collected a).
  { intros r Hr. apply py_sorted_elem, filter_elem in Hr as [Hr _]. apply F2 in Hr as [Hr _]. apply filter_elem in Hr as [Hr Hc].
    split; [done|]. unfold candidate in Hc. bprop. done. }
  split; [|split; [|done]].
  - rewrite Hs. eapply sublist_NoDup; [|apply sublist_map, sublist_take].
    unfold ranked. rewrite py_sorted_perm. eapply sublist_NoDup; [exact F1|]. apply sublist_map, filter_sublist.
  - apply Forall_forall. intros x Hx.
    assert (Hxs : a_symbol x ∈ map kr_symbol (take (length places) ranked)) by (rewrite <- Hs; apply list_elem_of_fmap; eauto).
    apply list_elem_of_fmap in Hxs as (r & Hxr & Hr). eapply elem_of_sublist in Hr; [|apply (sublist_take ranked)].
    destruct (Hrk r Hr) as [Hr1 Hr2]. split; [eauto|]. split; [by rewrite Hxr|].
    assert (Hxf : a_feed x ∈ take (length ranked) places) by (rewrite <- Hf; apply list_elem_of_fmap; eauto).
    eapply elem_of_sublist in Hxf; [|apply (sublist_take places)]. rewrite <- Hk. unfold places, feed_seq in Hxf.
    apply list_elem_of_In, in_concat in Hxf as (l & Hl & Hxl). apply in_map_iff in Hl as ([f n] & <- & Hfn).
    apply repeat_spec in Hxl as ->. apply list_elem_of_fmap. exists (f, n). split; [done|]. by apply list_elem_of_In.
Qed.

Definition new_entries (l : list Admission) (decided : Z) : list DynamicEntry := map (fun a => mkEntry (a_symbol a) (a_feed a) decided) l.
Lemma new_entries_feeds l decided : map en_feed (new_entries l decided) = map a_feed l.
Proof using. unfold new_entries. by rewrite map_map. Qed.
Lemma new_entries_symbols l decided : map en_symbol (new_entries l decided) = map a_symbol l.
Proof using. unfold new_entries. by rewrite map_map. Qed.

(** The process's account after it spent places on [l], against a plan that may already hold [l]. *)
Lemma spend_mem a es l decided : mem_ok a es -> Forall (fun x => a_feed x ∈ dkeys cap) l ->
  Forall (fun '(_, n) => 0 <= n) (fold_left spend l (ad_capacity_left a)) ->
  let a' := mkAdm (ad_collected a ∪ list_to_set (map a_symbol l)) (ad_ineligible a) (fold_left spend l (ad_capacity_left a)) in
  mem_ok a' es /\ mem_ok a' (es ++ new_entries l decided).
Proof using All.
  intros [Hk Hn Hc Hr] Hl Hnn a'. assert (Hk' : dkeys (ad_capacity_left a') = dkeys cap).
  { unfold a'. cbn [ad_capacity_left]. rewrite spend_keys; [done|]. by rewrite Hk. }
  assert (Hget : forall f n, dget (ad_capacity_left a') f = Some n ->
    exists m, dget (ad_capacity_left a) f = Some m /\ n = m - feed_count f (map a_feed l)).
  { intros f n Hf. destruct (dget (ad_capacity_left a) f) as [m|] eqn:E.
    - exists m. split; [done|]. unfold a' in Hf. cbn [ad_capacity_left] in Hf. rewrite (spend_get _ _ _ _ E) in Hf. by injection Hf.
    - apply dget_None_keys in E. rewrite Hk, <- Hk' in E. apply dget_None_keys in E. congruence. }
  split; (split; [done|done|..]).
  - intros e He. apply elem_of_union_l. auto.
  - intros f n c Hf Hcap. destruct (Hget f n Hf) as (m & Hm & ->). pose proof (Hr f m c Hm Hcap). pose proof (feed_count_nonneg f (map a_feed l)). lia.
  - intros e [He|He]%elem_of_app; [apply elem_of_union_l; auto|]. apply elem_of_union_r, elem_of_list_to_set.
    apply list_elem_of_fmap in He as (x & -> & Hx). apply list_elem_of_fmap. eauto.
  - intros f n c Hf Hcap. destruct (Hget f n Hf) as (m & Hm & ->). pose proof (Hr f m c Hm Hcap).
    rewrite map_app, feed_count_app, new_entries_feeds. lia.
Qed.

Lemma publish_ipc_dinv env l decided s p acked : files_ok (sy_ledger s) (sy_plan s) p acked ->
  mem_ok (di_admission (sy_state s)) (pl_entries p) ->
  entry_feeds (pl_entries p ++ new_entries l decided) `sublist_of` dynamic_feeds acked ->
  NoDup (map a_symbol l) -> Forall (fun x => is_krx_short_code (a_symbol x) = true) l ->
  Forall (fun x => a_symbol x ∉ ad_collected (di_admission (sy_state s)) /\ a_feed x ∈ dkeys cap) l ->
  Forall (fun '(_, n) => 0 <= n) (fold_left spend l (ad_capacity_left (di_admission (sy_state s)))) ->
  dinv (fst (publish_ipc repr env l decided s)).
Proof using All.
  intros Hf Hm Hsub Hnd Hcode Hl Hnn. assert (Hlf : Forall (fun x => a_feed x ∈ dkeys cap) l) by (eapply Forall_impl; [exact Hl|by intros x []]).
  destruct (spend_mem _ _ l decided Hm Hlf Hnn) as [Hm1 Hm2].
  assert (Hsame : dinv (mkSys (set_admission (sy_state s) (mkAdm (ad_collected (di_admission (sy_state s)) ∪ list_to_set (map a_symbol l))
    (ad_ineligible (di_admission (sy_state s))) (fold_left spend l (ad_capacity_left (di_admission (sy_state s)))))) (sy_ledger s) (sy_plan s))).
  { exists p, acked. done. }
  unfold publish_ipc, on_state, smod, sget, sbind. cbn [fst snd sy_state sy_ledger sy_plan].
  destruct (pe_ipc env); [exact Hsame|]. rewrite (plan_read repr _ _ (fo_plan _ _ _ _ Hf)).
  destruct (plan_write repr (sy_plan s) p (new_entries l decided) (fo_plan _ _ _ _ Hf)) as [Hw Hp].
  { unfold codes_ok, new_entries. apply Forall_map. exact Hcode. }
  fold (new_entries l decided). rewrite Hw. cbn [fst snd sy_state sy_ledger sy_plan sret].
  set (q := mkPlan _ _) in *. exists q, acked. split; [split|exact Hm2]; cbn [sy_ledger sy_plan pl_entries q]; [done|apply Hf|done| |].
  - rewrite map_app. apply NoDup_app. split; [apply Hf|]. rewrite new_entries_symbols. split; [|done].
    intros x Hx1 Hx2. apply list_elem_of_fmap in Hx1 as (e & -> & He). apply list_elem_of_fmap in Hx2 as (a & Hea & Ha).
    rewrite Forall_forall in Hl. destruct (Hl a Ha) as [Hno _]. apply Hno. rewrite <- Hea. by apply Hm.
  - apply Forall_app. split; [apply Hf|]. unfold new_entries. by apply Forall_map.
Qed.

Lemma tier_c_writer row source decided : source = "intraday_capacity" \/ source = "post_close_screen" -> writer_row (tier_c row source decided).
Proof using. intros Hs. split; [done|]. naive_solver. Qed.

(** A state change that keeps the admission state keeps the invariant. *)
Lemma dinv_same s s' : dinv s -> sy_ledger s' = sy_ledger s -> sy_plan s' = sy_plan s ->
  ad_collected (di_admission (sy_state s')) = ad_collected (di_admission (sy_state s)) ->
  ad_capacity_left (di_admission (sy_state s')) = ad_capacity_left (di_admission (sy_state s)) -> dinv s'.
Proof using All.
  intros (p & acked & Hf & [G1 G2 G3 G4]) E1 E2 E3 E4. exists p, acked. rewrite E1, E2. split; [done|]. split; rewrite ?E3, ?E4; done.
Qed.

Lemma publish_dinv env rows caps s : dinv s -> Forall (fun r => is_krx_short_code (kr_symbol r) = true) rows ->
  dinv (fst (publish repr env (decide_admissions rows (di_admission (sy_state s)) cfg) caps s)).
Proof using All.
  intros (p & acked & Hf & Hm) Hcodes. set (d := decide_admissions _ _ _).
  assert (Hsame : dinv s) by (by exists p, acked). destruct (decide_sound rows _ _ Hm) as (Hnd & Hall & Hnn). fold d in Hnd, Hall, Hnn.
  assert (Hnamed : Forall feed_named (map a_feed (de_admitted d))).
  { apply Forall_map. eapply Forall_impl; [exact Hall|]. intros x (_ & _ & Hx). pose proof (capacities_named ls_reserve kis_symbols kis_slot) as Hc.
    rewrite Forall_forall in Hc. by apply Hc. }
  unfold publish. destruct (de_admitted d) as [|a0 l0] eqn:Ed; [destruct caps as [|c0 caps]; [exact Hsame|]|].
  all: rewrite <- ?Ed in *; unfold sbind, sget, slift.
  all: match goal with |- context [admitted_rows ?l ?w ?lv] => destruct (admitted_rows_ok l w lv) as (rs & -> & HWr & Hdr) end;
    [first [by constructor|done]|].
  all: match goal with |- context [append_membership ?f ?g ?r] => pose proof (append_files f g (sy_plan s) p acked r Hf) as Ha;
    destruct (append_membership f g r) as [ledger' [u|e]] end; cbn [smod sret fst snd].
  all: lapply Ha; [clear Ha; intros Ha|apply Forall_app; split; [done|]; apply Forall_map, Forall_forall; intros; apply tier_c_writer; auto].
  all: try (eexists p, _; split; [exact Ha|exact Hm]).
  rewrite Ed. rewrite <- Ed. eapply publish_ipc_dinv; cbn [sy_ledger sy_plan sy_state]; [exact Ha|exact Hm| |done| | |done].
  - unfold entry_feeds. rewrite map_app, !dynamic_feeds_app, app_assoc. apply sublist_inserts_r. apply sublist_app; [apply Hf|].
    rewrite Hdr. unfold new_entries. by rewrite map_map.
  - eapply Forall_impl; [exact Hall|]. intros x ((r & Hr & Hrx) & _ & _). rewrite <- Hrx. rewrite Forall_forall in Hcodes. auto.
  - eapply Forall_impl; [exact Hall|]. by intros x (_ & ? & ?).
Qed.

Lemma poll_dinv env s : dinv s -> ranking_codes env -> dinv (fst (admission_poll repr cfg env s)).
Proof using All.
  intros Hi Hcodes. unfold admission_poll, poll. unfold sbind at 1. destruct (pe_fetch env) as [rows|] eqn:Ef.
  2: { by apply (dinv_same s). }
  cbn [on_state smod sbind sret]. unfold sbind at 1. cbn [sget fst snd sy_state].
  destruct (fold_left (fresh_row cfg env) rows _) as [st fresh] eqn:Efr. destruct (fresh_keep _ _ _ _ _ _ Efr) as (K1 & K2 & K3).
  unfold sbind, on_state, smod. cbn [fst snd sy_state sy_ledger sy_plan]. set (caps := omap _ _).
  match goal with |- dinv (fst (publish _ _ _ _ ?s2)) => set (s2' := s2) end.
  change (di_admission st) with (di_admission (sy_state s2')) at 1. apply publish_dinv.
  - apply (dinv_same s); done.
  - specialize (Hcodes rows Ef). apply Forall_forall. intros r Hr. destruct (K3 r Hr) as [Hr'|Hr']; [by apply elem_of_nil in Hr'|].
    rewrite Forall_forall in Hcodes. auto.
Qed.

Lemma post_dinv env s : dinv s -> dinv (fst (post_close_poll cfg env s)).
Proof using All.
  intros Hi. assert (Hpoll : forall s', fst (poll env s) = s' -> dinv s').
  { intros s' <-. unfold poll. destruct (pe_fetch env); by apply (dinv_same s). }
  unfold post_close_poll. unfold sbind at 1. unfold poll in *. destruct (pe_fetch env) as [rows|]; [|by apply Hpoll].
  cbn [on_state smod sbind sret] in *. specialize (Hpoll _ eq_refl). cbn [fst] in Hpoll.
  unfold sbind, sget. cbn [fst snd sy_state sy_ledger sy_plan]. destruct (read_membership (sy_ledger s)) as [members|]; [|done].
  match goal with |- context [map ?f ?l] => set (screen := map f l) end.
  destruct screen as [|x xs] eqn:Es; [done|]. rewrite <- Es. cbn [smod fst sy_state sy_ledger sy_plan].
  destruct Hpoll as (p & acked & Hf & Hm). cbn [sy_ledger sy_plan sy_state] in Hf, Hm.
  pose proof (append_files (pe_append env) _ _ _ _ screen Hf) as Ha. lapply Ha.
  - clear Ha. intros Ha. destruct (append_membership _ _ screen) as [ledger' [u|e]]; eexists p, _; split; try exact Ha; exact Hm.
  - apply Forall_map, Forall_forall. intros; apply tier_c_writer; auto.
Qed.

Lemma reach_dinv ineligible s : rtc dstep (day_start ineligible) s -> dinv s.
Proof using All.
  intros Hr. pose proof (start_dinv ineligible) as Hi. induction Hr as [|x y z Hxy Hyz IH]; [done|]. apply IH.
  destruct Hxy; eauto using poll_dinv, post_dinv, restart_dinv, other_dinv.
Qed.

(** ** What the invariant says of the plan *)

Lemma plan_within p acked s : files_ok (sy_ledger s) (sy_plan s) p acked -> mem_ok (di_admission (sy_state s)) (pl_entries p) ->
  forall f, feed_count f (map en_feed (pl_entries p)) <= default 0 (dget cap f).
Proof using All.
  intros Hf Hm f. destruct (dget cap f) as [c|] eqn:E; cbn [default from_option id].
  - destruct (dget (ad_capacity_left (di_admission (sy_state s))) f) as [n|] eqn:En.
    + pose proof (mo_room _ _ Hm f n c En E). pose proof (mo_nonneg _ _ Hm) as Hn. rewrite Forall_forall in Hn.
      specialize (Hn _ (dget_elem _ _ _ En)). cbn in Hn. lia.
    + apply dget_None_keys in En. rewrite (mo_keys _ _ Hm) in En. apply dget_None_keys in En. congruence.
  - assert (feed_count f (map en_feed (pl_entries p)) = 0); [|lia]. unfold feed_count, zlen.
    destruct (List.filter _ _) as [|g l] eqn:Ef; [done|]. assert (Hg : g ∈ g :: l) by set_solver. rewrite <- Ef in Hg.
    apply filter_elem in Hg as [Hg ->%bool_decide_eq_true]. apply list_elem_of_fmap in Hg as (e & -> & He).
    pose proof (fo_feeds _ _ _ _ Hf) as Hx. rewrite Forall_forall in Hx. apply dget_None_keys in E. by destruct (E (Hx e He)).
Qed.

Lemma entry_row p acked s rows e : files_ok (sy_ledger s) (sy_plan s) p acked -> read_membership (sy_ledger s) = Some rows ->
  e ∈ pl_entries p -> exists r, r ∈ rows /\ m_source r = "dynamic" /\ m_symbol r = en_symbol e /\ feed_of r = Ok (en_feed e).
Proof using All.
  intros Hf Hr He. destruct (read_inv writer_row writer_valid _ _ _ (fo_ledger _ _ _ _ Hf) Hr) as [_ Hsub].
  assert (Hx : (en_symbol e, Ok (en_feed e)) ∈ dynamic_feeds acked).
  { eapply elem_of_sublist; [|apply Hf]. apply list_elem_of_fmap. eauto. }
  apply list_elem_of_fmap in Hx as (r & [= Hs Hfe] & [Hx Hd]%filter_elem). apply bool_decide_eq_true in Hd.
  exists r. split; [by eapply elem_of_sublist|]. done.
Qed.
End Machine.
