(* ===== verification/DiscoveryProps.v ===== *)
(** * Properties of intraday discovery

    The ledger under failing appends, the exact decision of a poll, the safety of the
    admissions file over a day of polls and restarts, and the end of the polling loop;
    with a row codec that satisfies the laws. *)
From Stdlib Require Import Ascii SpecFloat.
From S2P Require Import Prelude PyStr PyFloat ExecContracts ExecJournal KisTrading Membership MembershipFacts Intraday Discovery DiscoveryFacts DiscoveryInv.

(** ** A row codec *)

Definition row_tuple (r : MembershipRow) :=
  (m_symbol r, m_tier r, m_source r, m_decided_at_ns r, m_direction r, (m_warning_level r, m_ls_shard r, m_kis_slot r, m_trade_value_krw r, m_reason r)).
Definition tuple_row t : MembershipRow :=
  let '(s, ti, so, d, di, (w, l, k, v, re)) := t in mkRow s ti so d di w l k v re.
Lemma row_tuple_back r : tuple_row (row_tuple r) = r.
Proof. by destruct r. Qed.
#[global] Instance row_countable : Countable MembershipRow := inj_countable' row_tuple tuple_row row_tuple_back.

Fixpoint pos_text (p : positive) : list ascii :=
  match p with xH => [] | xO p => "0"%char :: pos_text p | xI p => "1"%char :: pos_text p end.
Fixpoint text_pos (l : list ascii) : option positive :=
  match l with
  | [] => Some xH
  | c :: l => if decide (c = "0"%char) then xO <$> text_pos l else if decide (c = "1"%char) then xI <$> text_pos l else None
  end.
Lemma text_pos_back p : text_pos (pos_text p) = Some p.
Proof. induction p as [p IH|p IH|]; cbn [pos_text text_pos]; [..|done]; by rewrite IH. Qed.

(** An object as its row's number between braces. *)
Definition obj_row (o : list (string * json)) : MembershipRow :=
  let get k := default JNull (dget o k) in
  mkRow (as_str (get "symbol")) (as_str (get "tier")) (as_str (get "source")) (as_int (get "decided_at_ns"))
    (as_ostr (get "direction")) (as_ostr (get "warning_level")) (as_oint (get "ls_shard"))
    (as_ostr (get "kis_slot")) (as_oint (get "trade_value_krw")) (as_ostr (get "reason")).
Lemma obj_row_back r : obj_row (row_obj r) = r.
Proof. rewrite row_obj_eq. by destruct r as [s t so d [] [] [] [] [] []]. Qed.

Definition demo_dumps (o : list (string * json)) : list ascii := "{"%char :: pos_text (encode (obj_row o)) ++ ["}"%char].
Definition demo_loads (l : list ascii) : option json :=
  match l with
  | c :: rest =>
      if decide (c = "{"%char /\ List.last rest c = "}"%char)
      then p ← text_pos (removelast rest); r ← (decode p : option MembershipRow); Some (JObj (row_obj r))
      else None
  | [] => None
  end.
#[global] Instance demo_codec : RowCodec := {| json_dumps := demo_dumps; json_loads := demo_loads |}.

Lemma demo_text r : row_text r = "{"%char :: pos_text (encode r) ++ ["}"%char].
Proof. unfold row_text. cbn [json_dumps demo_codec]. unfold demo_dumps. by rewrite obj_row_back. Qed.

Lemma pos_text_chars p c : c ∈ pos_text p -> c = "0"%char \/ c = "1"%char.
Proof. induction p; cbn; rewrite ?elem_of_cons, ?elem_of_nil; naive_solver. Qed.

(** A brace inside makes a text unreadable. *)
Lemma text_pos_brace l : "{"%char ∈ l -> text_pos l = None.
Proof.
  induction l as [|c l IH]; cbn [text_pos]; [by intros ?%elem_of_nil|]. intros [<-|Hl]%elem_of_cons; [by rewrite !decide_False|].
  rewrite IH by done. by repeat case_decide.
Qed.

Lemma demo_prefix p r : p <> [] -> p `prefix_of` row_text r ->
  exists q, p = "{"%char :: q /\ (p = row_text r \/ forall c, List.last q c = c \/ List.last q c = "0"%char \/ List.last q c = "1"%char).
Proof.
  rewrite demo_text. intros Hne [k Hk]. destruct p as [|x p]; [done|]. cbn in Hk. injection Hk as <- Hk. exists p. split; [done|].
  destruct k as [|y k] using rev_ind; [left; by rewrite app_nil_r in Hk; subst|]. right. clear IHk.
  rewrite app_assoc in Hk. apply app_inj_tail in Hk as [Hk _]. intros c.
  destruct p as [|z p] using rev_ind; [by left|]. clear IHp. rewrite last_last. right. apply (pos_text_chars (encode r)). rewrite Hk. set_solver.
Qed.

#[global] Instance demo_laws : RowCodecLaws.
Proof.
  split.
  - intros r. rewrite demo_text. intros [Hx|[Hx|Hx]%elem_of_app]%elem_of_cons; [done| |].
    + apply pos_text_chars in Hx as [Hx|Hx]; done.
    + apply list_elem_of_singleton in Hx. done.
  - intros r. by rewrite demo_text.
  - intros r. rewrite demo_text. cbn [json_loads demo_codec demo_loads]. rewrite last_last, removelast_last, decide_True by done.
    rewrite text_pos_back, bind_some, decode_encode, bind_some. done.
  - intros ps HF Hne. destruct ps as [|[p r] ps]; [done|]. apply Forall_cons in HF as [[Hp Hpr] HF].
    destruct (demo_prefix p r Hp Hpr) as (q & -> & Hq). destruct ps as [|[p' r'] ps].
    + destruct Hq as [Hq|Hq]; [left; exists r; by rewrite Hq|]. right. cbn [map fst concat]. rewrite app_nil_r.
      cbn [json_loads demo_codec demo_loads]. rewrite decide_False; [done|]. intros [_ Hl]. specialize (Hq "{"%char).
      rewrite Hl in Hq. naive_solver.
    + right. apply Forall_cons in HF as [[Hp' Hpr'] _]. destruct (demo_prefix p' r' Hp' Hpr') as (q' & -> & _).
      cbn [map fst concat app]. cbn [json_loads demo_codec demo_loads]. case_decide as Hd; [|done]. destruct Hd as [_ Hl].
      generalize dependent (q' ++ concat (map fst ps)). intros rest Hl.
      destruct rest as [|z tl _] using rev_ind; [by rewrite last_last in Hl|].
      rewrite app_comm_cons, app_assoc, removelast_last. rewrite text_pos_brace; [done|]. set_solver.
Qed.

(** ** The ledger under failing appends *)

(** A sequence of appends to one file, with the rows of those that returned. *)
Fixpoint append_all `{RowCodec} (file : option (list ascii)) (acked : list MembershipRow) (calls : list (append_fault * list MembershipRow))
    : option (list ascii) * list MembershipRow :=
  match calls with
  | [] => (file, acked)
  | (fault, rows) :: calls =>
      match append_membership fault file rows with
      | (file', Ok _) => append_all file' (acked ++ rows) calls
      | (file', Raise _) => append_all file' acked calls
      end
  end.

Section Ledger.
Context `{RowCodecLaws}.

Lemma append_all_inv W calls : (forall r, W r -> valid_row r) -> Forall (fun c => Forall W (snd c)) calls -> forall file acked,
  ledger_inv W (default [] file) acked ->
  ledger_inv W (default [] (fst (append_all file acked calls))) (snd (append_all file acked calls)).
Proof using All.
  intros HW. induction 1 as [|[fault rows] calls Hr HF IH]; intros file acked Hi; [done|]. cbn [append_all].
  pose proof (append_inv W HW fault file rows acked Hi Hr) as Ha. destruct (append_membership fault file rows) as [f [u|e]]; by apply IH.
Qed.

Lemma append_ok file rows : Forall valid_row rows -> exists f, append_membership NoFault file rows = (f, Ok tt) /\
  default [] f = default [] file ++ rows_bytes rows.
Proof using.
  intros Hr. destruct rows as [|r rows]; [exists file; cbn; by rewrite app_nil_r|]. unfold append_membership. rewrite encode_rows.
  assert (forallb (fun r => dmem TIER_RANK (m_tier r)) (r :: rows) = true) as ->; [|by eexists].
  apply forallb_forall. intros x Hx%list_elem_of_In. rewrite Forall_forall in Hr. by apply Hr.
Qed.

Lemma append_all_ok calls : Forall (fun c => fst c = NoFault /\ Forall valid_row (snd c)) calls -> forall acked file,
  default [] file = rows_bytes acked -> default [] (fst (append_all file acked calls)) = rows_bytes (acked ++ concat (map snd calls)) /\
  snd (append_all file acked calls) = acked ++ concat (map snd calls).
Proof using All.
  induction 1 as [|[fault rows] calls [Hf Hr] HF IH]; intros acked file Hfile; cbn [append_all map concat]; [by rewrite app_nil_r|].
  cbn in Hf, Hr. subst fault. destruct (append_ok file rows Hr) as (f & -> & Hd). rewrite app_assoc. apply IH.
  by rewrite Hd, Hfile, rows_bytes_app.
Qed.
End Ledger.

(** Whatever part of a failing append reaches the file, a ledger that can still be read
    returns every row whose append returned, in order, and nothing that was not handed to an
    append; without failures it returns exactly the rows appended. *)
Theorem ledger_keeps_acked `{RowCodecLaws} calls : Forall (fun c => Forall valid_row (snd c)) calls ->
  let '(file, acked) := append_all None [] calls in
  (forall rows, read_membership file = Some rows ->
     acked `sublist_of` rows /\ forall r, r ∈ rows -> r ∈ concat (map snd calls)) /\
  (Forall (fun c => fst c = NoFault) calls -> acked = concat (map snd calls) /\ read_membership file = Some acked).
Proof.
  intros HF. destruct (append_all None [] calls) as [file acked] eqn:E. split.
  - intros rows Hr. set (W := fun r => valid_row r /\ r ∈ concat (map snd calls)).
    assert (HW : forall r, W r -> valid_row r) by (by intros r []).
    assert (HFW : Forall (fun c => Forall W (snd c)) calls).
    { apply Forall_forall. intros c Hc. apply Forall_forall. intros r Hrc. rewrite Forall_forall in HF. split.
      - specialize (HF c Hc). rewrite Forall_forall in HF. auto.
      - apply list_elem_of_In, in_concat. exists (snd c). split; [apply in_map|]; by apply list_elem_of_In. }
    pose proof (append_all_inv W calls HW HFW None []) as Hi. rewrite E in Hi. cbn [fst snd] in Hi.
    destruct (read_inv W HW file acked rows) as [HWr Hsub]; [apply Hi; right; by exists [], []|done|]. split; [done|].
    intros r Hx. rewrite Forall_forall in HWr. by apply HWr.
  - intros Hno. destruct (append_all_ok calls) with (acked := @nil MembershipRow) (file := @None (list ascii)) as [Hb Ha]; [|done|].
    { apply Forall_forall. intros c Hc. rewrite Forall_forall in HF, Hno. auto. }
    rewrite E in Hb, Ha. cbn [fst snd app] in Hb, Ha. split; [done|]. rewrite Ha.
    assert (Hv : Forall valid_row (concat (map snd calls))).
    { apply Forall_forall. intros r Hx%list_elem_of_In%in_concat. destruct Hx as (l & Hl & Hx). apply in_map_iff in Hl as (c & <- & Hc).
      rewrite Forall_forall in HF. apply list_elem_of_In in Hc, Hx. specialize (HF c Hc). rewrite Forall_forall in HF. auto. }
    transitivity (mapM parse_line (file_lines (default [] file))); [by destruct file|].
    rewrite Hb, <- (app_nil_r (rows_bytes _)), rows_lines by apply not_elem_of_nil. rewrite decide_True, app_nil_r by done. by apply parse_rows.
Qed.

Definition demo_row (symbol : string) : MembershipRow :=
  mkRow symbol "B" "dynamic" 7 (Some "up") None (Some 1) None (Some 20000000000) None.
Definition demo_calls : list (append_fault * list MembershipRow) :=
  [(NoFault, [demo_row "005930"]); (WriteFault 0, [demo_row "000660"]); (NoFault, [demo_row "035420"])].

Lemma ledger_keeps_acked_witness :
  read_membership (fst (append_all None [] demo_calls)) = Some [demo_row "005930"; demo_row "035420"] /\
  let '(file, acked) := append_all None [] demo_calls in
  forall rows, read_membership file = Some rows -> acked `sublist_of` rows.
Proof.
  split; [vm_compute; reflexivity|]. pose proof (ledger_keeps_acked demo_calls) as Hk.
  destruct (append_all None [] demo_calls) as [file acked]. intros rows Hr. apply Hk; [repeat constructor|done].
Defined.

(** ** The decision of a poll *)

(** C25. One poll admits exactly the best candidates there is room for: the rows that qualify,
    are not collected and not ineligible, one per symbol, ordered by trade value and symbol,
    as many as there are places, the places handed out feed by feed in the order of the
    capacities; the others are reported as rejected for capacity, and the qualifying
    ineligible symbols as ineligible. *)
Theorem decide_admissions_exact rows state cfg :
  NoDup (dkeys (ad_capacity_left state)) -> Forall (fun '(_, n) => 0 <= n) (ad_capacity_left state) ->
  let d := decide_admissions rows state cfg in
  let places := feed_seq (ad_capacity_left state) in
  exists ranked, StronglySorted (fun a b => qualifier_leb a b = true) ranked /\ NoDup (map kr_symbol ranked) /\
    (forall r, r ∈ ranked -> r ∈ rows /\ qualifies r cfg = true) /\
    (forall s, s ∈ map kr_symbol ranked <->
       s ∉ ad_collected state /\ s ∉ ad_ineligible state /\ exists r, r ∈ rows /\ kr_symbol r = s /\ qualifies r cfg = true) /\
    map a_symbol (de_admitted d) = map kr_symbol (take (length places) ranked) /\
    map a_feed (de_admitted d) = take (length ranked) places /\
    (forall s, (s, RCapacity) ∈ de_rejected d <-> s ∈ map kr_symbol (drop (length places) ranked)) /\
    (forall s, (s, RIneligible) ∈ de_rejected d <->
       s ∉ ad_collected state /\ s ∈ ad_ineligible state /\ exists r, r ∈ rows /\ kr_symbol r = s /\ qualifies r cfg = true).
Proof.
  intros Hnd Hn d places. set (scr := screened state cfg rows). exists (py_sorted qualifier_leb (List.filter (eligible state) scr)).
  destruct (decide_shape state cfg rows Hnd Hn) as (D1 & D2 & D3 & _). fold d scr places in D1, D2, D3.
  set (ranked := py_sorted qualifier_leb _) in *. destruct (eligible_sel state cfg rows) as [E1 E2]. fold scr in E1, E2.
  destruct (firsts_spec (List.filter (candidate state cfg) rows) []) as (F1 & F2 & _). fold (screened state cfg rows) scr in F1, F2.
  assert (Hrej : forall s x, (s, x) ∈ de_rejected d <-> s ∈ map kr_symbol (if decide (x = RCapacity) then drop (length places) ranked
    else List.filter (fun r => negb (eligible state r)) scr)).
  { intros s x. rewrite D3, elem_of_app. split.
    - intros [Hx|Hx]; apply list_elem_of_fmap in Hx as (r & [= -> ->] & Hr); [rewrite decide_False by done|rewrite decide_True by done];
        apply list_elem_of_fmap; eauto.
    - intros Hx. destruct x; [rewrite decide_False in Hx by done; left|rewrite decide_True in Hx by done; right];
        apply list_elem_of_fmap in Hx as (r & -> & Hr); apply list_elem_of_fmap; eauto. }
  split; [apply py_sorted_strong; [apply qualifier_total|apply qualifier_trans]|]. split.
  { unfold ranked. rewrite py_sorted_perm. eapply sublist_NoDup; [exact F1|]. apply sublist_map, filter_sublist. }
  split; [|split; [|split; [done|split; [done|split]]]].
  - intros r Hr. apply py_sorted_elem, filter_elem in Hr as [Hr _]. apply F2 in Hr as [Hr _]. apply filter_elem in Hr as [Hr Hc].
    unfold candidate in Hc. by bprop.
  - intros s. unfold ranked. rewrite (py_sorted_perm qualifier_leb), E1. unfold scr. rewrite screened_sel, screened_symbols, bool_decide_eq_true. tauto.
  - intros s. by rewrite Hrej, decide_True.
  - intros s. rewrite Hrej, decide_False, E2 by done. unfold scr. rewrite screened_sel, screened_symbols, bool_decide_eq_false.
    destruct (decide (s ∈ ad_ineligible state)); tauto.
Qed.

Definition demo_cfg : IntradayAdmissionSettings :=
  mkIntraday 60000000 30000000 54900000000 55860000000 (round_z 5 0 false) 10000000000.
Definition demo_rank (rank : Z) (symbol : string) (change value : Z) : KiwoomRankingRow :=
  mkRank rank symbol 10000 (round_z change 0 false) (value * 1000000000).
Definition demo_ranking : list KiwoomRankingRow :=
  [demo_rank 1 "000100" 6 20; demo_rank 2 "000200" (-7) 40; demo_rank 3 "000300" 2 50; demo_rank 4 "000100" 9 90;
   demo_rank 5 "000400" 8 30; demo_rank 6 "000500" 9 60].
Definition demo_state : AdmissionState := mkAdm ∅ {["000500"]} (feed_capacities 1 1 (Some "5")).

Lemma decide_admissions_exact_witness :
  map (fun a => (a_symbol a, a_feed a)) (de_admitted (decide_admissions demo_ranking demo_state demo_cfg)) =
    [("000200", "ls:1"); ("000400", "kis:5")] /\
  exists ranked, map a_symbol (de_admitted (decide_admissions demo_ranking demo_state demo_cfg)) =
    map kr_symbol (take (length (feed_seq (ad_capacity_left demo_state))) ranked) /\ NoDup (map kr_symbol ranked).
Proof.
  split; [vm_compute; reflexivity|].
  destruct (decide_admissions_exact demo_ranking demo_state demo_cfg) as (ranked & H1 & H2 & H3 & H4 & H5 & _).
  - apply (cap_nodup 1 1 (Some "5")).
  - apply (cap_nonneg 1 1 (Some "5")).
  - exists ranked. done.
Defined.

(** ** A day of discovery *)

(** C24. However polls, failed and torn writes, crashes and restarts of the discovery process and
    the appends of the daemon and of the feeds follow each other, the admissions file can be
    read, names no symbol twice and never holds more symbols of a feed than its capacity; as long as the
    ledger can be read it has a dynamic row for every entry of the file, and a restarted
    process counts every entry as collected. *)
Theorem discovery_plan_safe `{RowCodecLaws} repr cfg ls_reserve kis_symbols kis_slot ineligible s :
  rtc (dstep repr cfg ls_reserve kis_symbols kis_slot) (day_start ls_reserve kis_symbols kis_slot ineligible) s ->
  exists p, read_dynamic_admissions repr (sy_plan s) = Ok p /\ NoDup (map en_symbol (pl_entries p)) /\
    (forall feed, zlen (symbols_for p feed) <= default 0 (dget (feed_capacities ls_reserve kis_symbols kis_slot) feed)) /\
    (forall rows, read_membership (sy_ledger s) = Some rows -> forall e, e ∈ pl_entries p ->
       exists r, r ∈ rows /\ m_source r = "dynamic" /\ m_symbol r = en_symbol e /\ feed_of r = Ok (en_feed e)) /\
    (forall inel s', restart inel (feed_capacities ls_reserve kis_symbols kis_slot) s = Ok s' ->
       forall e, e ∈ pl_entries p -> en_symbol e ∈ ad_collected (di_admission (sy_state s'))).
Proof.
  intros Hr. pose proof (reach_dinv repr cfg ls_reserve kis_symbols kis_slot ineligible s Hr) as Hi. pose proof Hi as (p & acked & Hf & Hm).
  exists p. split; [apply plan_read, Hf|]. split; [apply Hf|]. split; [|split].
  - intros feed. rewrite <- symbols_for_count. by eapply plan_within.
  - intros rows Hrd e He. by eapply entry_row.
  - intros inel s' Hs e He. destruct (restart_keeps repr cfg _ _ _ inel s s' p acked Hs Hf Hm) as [_ Hm']. by apply Hm'.
Qed.

(** A day: a poll whose append fails, a poll that admits one symbol, a restart, static rows of
    the daemon, and a poll that admits two more. *)
Definition demo_repr (_ : json) : string := "?".
Definition demo_env (rows : list KiwoomRankingRow) (fault : append_fault) (ipc : bool) : PollEnv := mkPollEnv (Some rows) None 9 fault ipc.
Definition demo_static : list MembershipRow := [mkRow "777770" "A" "static" 8 None None (Some 0) None None None].
Definition demo_s1 : Sys := fst (admission_poll demo_repr demo_cfg (demo_env demo_ranking (WriteFault 0) false) (day_start 2 1 (Some "5") ∅)).
Definition demo_s2 : Sys := fst (admission_poll demo_repr demo_cfg (demo_env [demo_rank 1 "000200" 7 40] NoFault false) demo_s1).
Definition demo_s3 : Sys := match restart ∅ (feed_capacities 2 1 (Some "5")) demo_s2 with Ok s => s | Raise _ => demo_s2 end.
Definition demo_s4 : Sys := mkSys (sy_state demo_s3) (fst (append_membership NoFault (sy_ledger demo_s3) demo_static)) (sy_plan demo_s3).
Definition demo_s5 : Sys := fst (admission_poll demo_repr demo_cfg (demo_env demo_ranking NoFault false) demo_s4).

Lemma demo_codes fault ipc rows : forallb (fun r => is_krx_short_code (kr_symbol r)) rows = true -> ranking_codes (demo_env rows fault ipc).
Proof. intros Hr rs [= <-]. apply Forall_forall. intros r Hx%list_elem_of_In. rewrite forallb_forall in Hr. auto. Qed.

Lemma demo_day : rtc (dstep demo_repr demo_cfg 2 1 (Some "5")) (day_start 2 1 (Some "5") ∅) demo_s5.
Proof.
  apply (rtc_l _ _ demo_s1); [unfold demo_s1; apply d_poll; by apply demo_codes|].
  apply (rtc_l _ _ demo_s2); [unfold demo_s2; apply d_poll; by apply demo_codes|].
  apply (rtc_l _ _ demo_s3); [apply (d_restart _ _ _ _ _ ∅); vm_compute; reflexivity|].
  apply (rtc_l _ _ demo_s4); [unfold demo_s4; apply d_other; repeat constructor; by left|].
  apply rtc_once. unfold demo_s5. apply d_poll. by apply demo_codes.
Qed.

Lemma discovery_plan_safe_witness :
  option_map (map (fun e => (en_symbol e, en_feed e)))
    (match read_dynamic_admissions demo_repr (sy_plan demo_s5) with Ok p => Some (pl_entries p) | Raise _ => None end) =
    Some [("000200", "ls:1"); ("000500", "ls:1"); ("000400", "kis:5")] /\
  exists p, read_dynamic_admissions demo_repr (sy_plan demo_s5) = Ok p /\ NoDup (map en_symbol (pl_entries p)).
Proof.
  split; [vm_compute; reflexivity|].
  destruct (discovery_plan_safe demo_repr demo_cfg 2 1 (Some "5") ∅ demo_s5 demo_day) as (p & Hp & Hn & _). exists p. exact (conj Hp Hn).
Defined.

(** ** The polling loop *)

Section LoopFacts.
Context `{RowCodec} (repr : json -> string) (cfg : IntradayAdmissionSettings) (cutoff : Z) (envs : nat -> Z * PollEnv).

Lemma poll_loop_shape fuel : forall scheduled n s s' m, poll_loop repr cfg fuel cutoff scheduled envs n s = (s', Ok m) ->
  (n <= m)%nat /\ (m <= n + fuel)%nat /\
  (forall k, (n <= k < m)%nat -> fst (envs k) <= cutoff /\ scheduled + Z.of_nat (k - n) * ia_poll_interval cfg <= cutoff) /\
  ((m < n + fuel)%nat -> cutoff < fst (envs m) \/ cutoff < scheduled + Z.of_nat (m - n) * ia_poll_interval cfg).
Proof using.
  induction fuel as [|fuel IH]; intros scheduled n s s' m Hl; cbn [poll_loop] in Hl.
  { destruct (cutoff <? scheduled); injection Hl as _ <-; repeat split; lia. }
  destruct (cutoff <? scheduled) eqn:Hc; [injection Hl as _ <-; bprop; repeat split; try lia; intros _; right; lia|].
  destruct (envs n) as [now env] eqn:En. destruct (cutoff <? now) eqn:Hnow.
  { injection Hl as _ <-. bprop. repeat split; try lia. intros _. left. rewrite En. done. }
  bprop. unfold sbind in Hl. cbn [on_state smod] in Hl.
  destruct (admission_poll repr cfg env _) as [s1 [u|e]]; [|done]. apply IH in Hl as (G1 & G2 & G3 & G4).
  split; [lia|]. split; [lia|]. split.
  - intros k Hk. destruct (decide (k = n)) as [->|Hne].
    + rewrite En. cbn [fst]. split; [lia|]. rewrite Nat.sub_diag. lia.
    + destruct (G3 k) as [G5 G6]; [lia|]. split; [done|]. replace (k - n)%nat with (S (k - S n)) by lia. lia.
  - intros Hm. destruct G4 as [G4|G4]; [lia|by left|]. right. replace (m - n)%nat with (S (m - S n)) by lia. lia.
Qed.

(** Fuel beyond the number of scheduled polls changes nothing. *)
Lemma poll_loop_more fuel : forall scheduled n s, 0 < ia_poll_interval cfg -> (poll_fuel cfg cutoff scheduled <= fuel)%nat ->
  poll_loop repr cfg fuel cutoff scheduled envs n s = poll_loop repr cfg (poll_fuel cfg cutoff scheduled) cutoff scheduled envs n s.
Proof using.
  induction fuel as [|fuel IH]; intros scheduled n s Hi Hf.
  { by replace (poll_fuel cfg cutoff scheduled) with 0%nat by lia. }
  cbn [poll_loop]. destruct (cutoff <? scheduled) eqn:Hc.
  { destruct (poll_fuel cfg cutoff scheduled); cbn [poll_loop]; by rewrite Hc. }
  bprop. pose proof (Z.div_pos (cutoff - scheduled) (ia_poll_interval cfg) ltac:(lia) Hi) as Hd.
  assert (Hs : poll_fuel cfg cutoff scheduled = S (poll_fuel cfg cutoff (scheduled + ia_poll_interval cfg))).
  { unfold poll_fuel. replace (cutoff - (scheduled + ia_poll_interval cfg)) with ((cutoff - scheduled) + -1 * ia_poll_interval cfg) by lia.
    rewrite Z.div_add by lia. lia. }
  rewrite Hs. cbn [poll_loop]. rewrite (proj2 (Z.ltb_ge _ _) Hc). destruct (envs n) as [now env]. destruct (cutoff <? now); [done|].
  unfold sbind. cbn [on_state smod]. destruct (admission_poll repr cfg env _) as [s1 [u|e]]; [|done]. apply IH; [done|]. lia.
Qed.
End LoopFacts.

(** C26. The polling loop of a day ends: it makes at most one poll per interval between the start
    and the cutoff, none that is scheduled or starts after the cutoff, and stops only when the next
    one would be; more iterations than scheduled polls change nothing. *)
Theorem discovery_loop_ends `{RowCodec} repr cfg cutoff scheduled envs s :
  0 < ia_poll_interval cfg ->
  let fuel := poll_fuel cfg cutoff scheduled in
  (forall more, (fuel <= more)%nat ->
     poll_loop repr cfg more cutoff scheduled envs 0 s = poll_loop repr cfg fuel cutoff scheduled envs 0 s) /\
  forall s' polls, poll_loop repr cfg fuel cutoff scheduled envs 0 s = (s', Ok polls) ->
    (polls <= fuel)%nat /\
    (forall k, (k < polls)%nat -> fst (envs k) <= cutoff /\ scheduled + Z.of_nat k * ia_poll_interval cfg <= cutoff) /\
    (cutoff < fst (envs polls) \/ cutoff < scheduled + Z.of_nat polls * ia_poll_interval cfg).
Proof.
  intros Hi fuel. split; [intros more Hm; by apply poll_loop_more|]. intros s' polls Hl.
  destruct (poll_loop_shape repr cfg cutoff envs (S fuel) scheduled 0 s s' polls) as (G1 & G2 & G3 & G4).
  { rewrite poll_loop_more by (done || (unfold fuel; lia)). exact Hl. }
  destruct (poll_loop_shape repr cfg cutoff envs fuel scheduled 0 s s' polls Hl) as (_ & F2 & _ & _).
  split; [lia|]. split.
  - intros k Hk. destruct (G3 k) as [A B]; [lia|]. by rewrite Nat.sub_0_r in B.
  - destruct G4 as [G4|G4]; [lia|by left|]. right. by rewrite Nat.sub_0_r in G4.
Qed.

(** Three polls a minute apart, the third one late. *)
Definition demo_envs (n : nat) : Z * PollEnv := (60000000 * Z.of_nat n, mkPollEnv (Some demo_ranking) None (Z.of_nat n) NoFault false).

Lemma discovery_loop_ends_witness :
  snd (poll_loop demo_repr demo_cfg (poll_fuel demo_cfg 100000000 0) 100000000 0 demo_envs 0 demo_s1) = Ok 2%nat /\
  (poll_fuel demo_cfg 100000000 0 = 2)%nat /\
  poll_loop demo_repr demo_cfg 50 100000000 0 demo_envs 0 demo_s1 =
  poll_loop demo_repr demo_cfg (poll_fuel demo_cfg 100000000 0) 100000000 0 demo_envs 0 demo_s1.
Proof.
  split; [vm_compute; reflexivity|]. split; [reflexivity|].
  apply (discovery_loop_ends demo_repr demo_cfg 100000000 0 demo_envs demo_s1); [reflexivity|]. vm_compute. lia.
Defined.
