(* ===== verification/Feeds.v ===== *)
(** * The feeds of admitted symbols ([src/realtime/session.py], class [DynamicPairWatcher])

    A feed polls the admissions file and subscribes the pairs it does not hold on the
    live connection; the acknowledgements go to the ledger. The live subscriptions are
    those of [src/realtime/adapters/kis.py] and [src/realtime/adapters/json_ws.py] over the
    vendor's answers. Connections are numbered; the session manifest that also notes the
    acknowledgements is not modelled. Also the static ledger rows of
    [src/orchestration/daemon.py]. *)
From Stdlib Require Import Ascii.
From S2P Require Import Prelude PyStr PyFloat ExecContracts ExecJournal KisTrading ShardPlan Membership MembershipFacts Intraday Discovery DiscoveryFacts DiscoveryInv DiscoveryProps.

Abbreviation pair := (string * string)%type.

Record VendorAck := mkAck { ak_symbol : string; ak_stream : string; ak_accepted : bool; ak_code : string }.
Definition ack_pair (a : VendorAck) : pair := (ak_symbol a, ak_stream a).

(** ** Live subscription *)

(** What the vendor does with one subscription: the send or the wait raises, or an
    acknowledgement arrives, or the wait times out. *)
Inductive live_answer := LiveRaise | LiveAck (accepted : bool) (code : string) | LiveTimeout.

(** The loop over the pairs: the pairs held afterwards and the acks, [None] for an exception. *)
Fixpoint live_loop (allowed : string -> bool) (answer : pair -> live_answer) (held : list pair) (acks : list VendorAck) (pairs : list pair)
    : list pair * option (list VendorAck) :=
  match pairs with
  | [] => (held, Some acks)
  | (symbol, stream) :: pairs =>
      if negb (allowed stream) then (held, None)
      else match answer (symbol, stream) with
           | LiveRaise => (held, None)
           | LiveTimeout => live_loop allowed answer held (acks ++ [mkAck symbol stream false "timeout"]) pairs
           | LiveAck accepted code =>
               live_loop allowed answer (if accepted then held ++ [(symbol, stream)] else held)
                 (acks ++ [mkAck symbol stream accepted code]) pairs
           end
  end.

(** [subscribe_live] of the KIS adapter. *)
Definition kis_subscribe_live (capacity_pairs : Z) (allowed : list string) (answer : pair -> live_answer) (held pairs : list pair)
    : list pair * option (list VendorAck) :=
  if capacity_pairs <? zlen held + zlen pairs then (held, None)
  else live_loop (fun stream => bool_decide (stream ∈ allowed)) answer held [] pairs.

(** [subscribe_live] of the JSON adapters: every answered pair rejected counts as an auth
    rejection where the vendor says so. *)
Definition json_subscribe_live (capacity_pairs : Z) (all_rejected_is_auth : list VendorAck -> bool) (answer : pair -> live_answer)
    (held pairs : list pair) : list pair * option (list VendorAck) :=
  if capacity_pairs <? zlen held + zlen pairs then (held, None)
  else match live_loop (fun _ => true) answer held [] pairs with
       | (held', None) => (held', None)
       | (held', Some acks) =>
           let answered := List.filter (fun a => negb (bool_decide (ak_code a = "timeout"))) acks in
           if negb (bool_decide (length answered = 0%nat)) && negb (existsb ak_accepted answered) && all_rejected_is_auth answered
           then (held', None) else (held', Some acks)
       end.

(** ** The watcher *)

Record DynamicFeed := mkFeed { fd_feed : string; fd_streams : list string; fd_ls_shard : option Z; fd_kis_slot : option string }.
Record Watcher := mkWatcher {
  wa_accepted : list pair; wa_rejected : list pair; wa_bound : option Z; wa_rev : option Z
}.
Definition new_watcher (initial_dynamic : list pair) : Watcher := mkWatcher (fromkeys initial_dynamic) [] None None.
Definition watcher_pairs (static : list pair) (w : Watcher) : list pair := fromkeys (static ++ wa_accepted w).

Definition wanted_pairs (feed : DynamicFeed) (plan : DynamicPlan) : list pair :=
  fromkeys (flat_map (fun symbol => map (fun stream => (symbol, stream)) (fd_streams feed)) (symbols_for plan (fd_feed feed))).

(** [_record]: the rows for the ledger and the watcher's lists. *)
Definition ack_row (feed : DynamicFeed) (decided : Z) (a : VendorAck) : MembershipRow :=
  mkRow (ak_symbol a) "B" "ack" decided None None (fd_ls_shard feed) (fd_kis_slot feed) None
    (Some (String.append (if ak_accepted a then "accepted:" else "rejected:") (ak_code a))).
Definition record_ack (w : Watcher) (a : VendorAck) : Watcher :=
  if ak_accepted a then mkWatcher (wa_accepted w ++ [ack_pair a]) (wa_rejected w) (wa_bound w) (wa_rev w)
  else if bool_decide (ak_code a = "timeout") then w
  else mkWatcher (wa_accepted w) (set_add (ack_pair a) (wa_rejected w)) (wa_bound w) (wa_rev w).

Definition set_rev (w : Watcher) (rev : option Z) : Watcher := mkWatcher (wa_accepted w) (wa_rejected w) (wa_bound w) rev.

(** [tick] on connection [conn] that holds [held], with what its live subscription does; the
    watcher, the pairs held, the acknowledgements recorded and the number sent, or an exception. *)
Record TickOut := mkTick { to_watcher : Watcher; to_held : list pair; to_acks : list VendorAck; to_sent : res uni_exc Z }.

Section Watch.
Context (repr : json -> string) (feed : DynamicFeed).

Definition tick (plan : plan_file) (conn : Z) (held : list pair) (subscribe : list pair -> list pair -> list pair * option (list VendorAck))
    (w : Watcher) : TickOut :=
  let w := if bool_decide (wa_bound w = Some conn) then w else mkWatcher (wa_accepted w) (wa_rejected w) (Some conn) None in
  match read_dynamic_admissions repr plan with
  | Raise e => mkTick w held [] (Raise e)
  | Ok plan =>
      if bool_decide (wa_rev w = Some (pl_rev plan)) then mkTick w held [] (Ok 0)
      else
        let w := set_rev w (Some (pl_rev plan)) in
        let new := List.filter (fun p => negb (bool_decide (p ∈ held)) && negb (bool_decide (p ∈ wa_rejected w))) (wanted_pairs feed plan) in
        match new with
        | [] => mkTick w held [] (Ok 0)
        | _ =>
            match subscribe held new with
            | (held', None) => mkTick (set_rev w None) held' [] (Raise OsErr)
            | (held', Some acks) =>
                mkTick (fold_left record_ack acks w) held' acks (Ok (zlen new))
            end
        end
  end.

(** One round of [run]: no connection, or a tick whose exception is swallowed. *)
Definition watch_round (plan : plan_file) (conn : option (Z * list pair)) subscribe (w : Watcher) : Watcher * list pair * list VendorAck :=
  match conn with
  | None => (w, [], [])
  | Some (c, held) =>
      let t := tick plan c held subscribe w in
      (match to_sent t with Ok _ => to_watcher t | Raise _ => set_rev (to_watcher t) None end, to_held t, to_acks t)
  end.

(** The ledger after [_record] of the round's acknowledgements; a failing append is logged. *)
Definition record_rows `{RowCodec} (fault : append_fault) (ledger : option (list ascii)) (decided : Z) (acks : list VendorAck)
    : option (list ascii) :=
  fst (append_membership fault ledger (map (ack_row feed decided) acks)).
End Watch.

(** ** The daemon's static rows *)

(** [_policy_drop_reason] with [row.get(reasons)] a text or not. *)
Definition policy_drop_reason (reasons : option string) : string :=
  match reasons with Some r => if bool_decide (r = "") then "policy_dropped" else r | None => "policy_dropped" end.

Record DroppedRow := mkDropped { dr_symbol : string; dr_direction : option string; dr_value : option Z; dr_reasons : option string }.

(** [_static_membership_rows], with the columns of the universe by symbol. *)
Definition static_membership_rows (decided : Z) (krw : string -> option Z) (direction warning : string -> option string)
    (shards : list LsShard) (overflow : list string) (dropped : list DroppedRow) : list MembershipRow :=
  flat_map (fun shard => map (fun symbol =>
      mkRow symbol (if lsh_index shard =? 0 then "A" else "B") "static" decided (direction symbol) (warning symbol)
        (Some (lsh_index shard)) None (krw symbol) None) (lsh_symbols shard)) shards
  ++ map (fun symbol => mkRow symbol "C" "static" decided (direction symbol) (warning symbol) None None (krw symbol) (Some "overflow")) overflow
  ++ map (fun row => mkRow (dr_symbol row) "C" "static" decided (dr_direction row) None None None (dr_value row)
       (Some (policy_drop_reason (dr_reasons row)))) dropped.

(** [_record_static_membership]: once per day; every exception is swallowed. *)
Definition record_static_membership `{RowCodec} (fault : append_fault) (ledger : option (list ascii)) (rows : list MembershipRow)
    : option (list ascii) :=
  match read_membership ledger with
  | None => ledger
  | Some members =>
      if existsb (fun r => bool_decide (m_source r = "static")) members then ledger
      else fst (append_membership fault ledger rows)
  end.

(** ** Lemmas *)

(** What the watcher relies on of a live subscription: pairs are not given up, every pair is
    acknowledged, and the accepted ones are held. *)
Definition live_ok (subscribe : list pair -> list pair -> list pair * option (list VendorAck)) : Prop :=
  forall held pairs held' r, subscribe held pairs = (held', r) -> held ⊆ held' /\
    forall acks, r = Some acks -> map ack_pair acks = pairs /\ forall a, a ∈ acks -> ak_accepted a = true -> ack_pair a ∈ held'.

Lemma live_loop_ok allowed answer pairs : forall held acks held' r, live_loop allowed answer held acks pairs = (held', r) ->
  held ⊆ held' /\ forall out, r = Some out -> exists more, out = acks ++ more /\ map ack_pair more = pairs /\
    forall a, a ∈ more -> ak_accepted a = true -> ack_pair a ∈ held'.
Proof.
  induction pairs as [|[symbol stream] pairs IH]; intros held acks held' r Hl; cbn [live_loop] in Hl.
  { injection Hl as <- <-. split; [done|]. intros out [= <-]. exists []. rewrite app_nil_r. split; [done|]. split; [done|]. set_solver. }
  destruct (negb (allowed stream)); [injection Hl as <- <-; by split|].
  destruct (answer (symbol, stream)) as [|accepted code|]; [injection Hl as <- <-; by split| |]; apply IH in Hl as [Hh Ho].
  - split; [destruct accepted; set_solver|]. intros out Hr. destruct (Ho out Hr) as (more & -> & Hm & Ha).
    exists (mkAck symbol stream accepted code :: more). rewrite <- app_assoc. split; [done|]. split; [cbn; by rewrite Hm|].
    intros a [->|Hx]%elem_of_cons Hacc; [|by apply Ha]. cbn in Hacc. subst accepted. cbn. set_solver.
  - split; [done|]. intros out Hr. destruct (Ho out Hr) as (more & -> & Hm & Ha).
    exists (mkAck symbol stream false "timeout" :: more). rewrite <- app_assoc. split; [done|]. split; [cbn; by rewrite Hm|].
    intros a [->|Hx]%elem_of_cons Hacc; [done|by apply Ha].
Qed.

Lemma kis_live_ok cap allowed answer : live_ok (kis_subscribe_live cap allowed answer).
Proof.
  intros held pairs held' r Hs. unfold kis_subscribe_live in Hs. destruct (_ <? _); [injection Hs as <- <-; by split|].
  apply live_loop_ok in Hs as [Hh Ho]. split; [done|]. intros acks Hr. destruct (Ho acks Hr) as (more & -> & H1 & H2). by split.
Qed.

Lemma json_live_ok cap auth answer : live_ok (json_subscribe_live cap auth answer).
Proof.
  intros held pairs held' r Hs. unfold json_subscribe_live in Hs. destruct (_ <? _); [injection Hs as <- <-; by split|].
  destruct (live_loop _ _ _ _ _) as [h [acks|]] eqn:El; apply live_loop_ok in El as [Hh Ho].
  - destruct (_ && _); injection Hs as <- <-; (split; [done|]); [done|]. intros acks' Hr. destruct (Ho acks' Hr) as (more & -> & H1 & H2). by split.
  - injection Hs as <- <-. by split.
Qed.

(** The rows of the feeds and of the daemon are those the discovery expects of others. *)
Lemma ack_rows_other feed decided acks : Forall other_row (map (ack_row feed decided) acks).
Proof. apply Forall_map, Forall_forall. intros a _. split; [done|]. by right. Qed.

Lemma static_rows_other decided krw direction warning shards overflow dropped :
  Forall other_row (static_membership_rows decided krw direction warning shards overflow dropped).
Proof.
  unfold static_membership_rows. rewrite !Forall_app. split; [|split]; apply Forall_forall; intros r Hr; (split; [|left]).
  all: first [apply list_elem_of_In, in_flat_map in Hr as (sh & _ & Hr); apply in_map_iff in Hr as (x & <- & _)
             |apply list_elem_of_fmap in Hr as (x & -> & _)]; try done.
  unfold valid_row. cbn [m_tier]. by destruct (lsh_index sh =? 0).
Qed.

(** ** A feed over a day *)

Section FeedDay.
Context (repr : json -> string) (feed : DynamicFeed).

(** The watcher, the pairs each connection holds, the admissions file, and the pairs whose
    acknowledgement has timed out. *)
Record FeedSys := mkFeedSys { fs_watcher : Watcher; fs_held : list (Z * list pair); fs_plan : plan_file; fs_timeouts : list pair }.

Definition timed_out (acks : list VendorAck) : list pair :=
  map ack_pair (List.filter (fun a => negb (ak_accepted a) && bool_decide (ak_code a = "timeout")) acks).

Inductive fstep : FeedSys -> FeedSys -> Prop :=
| f_round c held subscribe w' held' acks s :
    dget (fs_held s) c = Some held -> live_ok subscribe ->
    watch_round repr feed (fs_plan s) (Some (c, held)) subscribe (fs_watcher s) = (w', held', acks) ->
    fstep s (mkFeedSys w' (dset (fs_held s) c held') (fs_plan s) (fs_timeouts s ++ timed_out acks))
| f_connect c held s : dget (fs_held s) c = None ->
    fstep s (mkFeedSys (fs_watcher s) (dset (fs_held s) c held) (fs_plan s) (fs_timeouts s))
| f_plan p q s : plan_is (fs_plan s) p -> plan_is (Some (Some (plan_json q))) q -> pl_rev p < pl_rev q ->
    fstep s (mkFeedSys (fs_watcher s) (fs_held s) (Some (Some (plan_json q))) (fs_timeouts s))
| f_run s : (** [run] starts again *)
    fstep s (mkFeedSys (mkWatcher (wa_accepted (fs_watcher s)) (wa_rejected (fs_watcher s)) None (wa_rev (fs_watcher s)))
               (fs_held s) (fs_plan s) (fs_timeouts s)).

Definition settled (s : FeedSys) (c : Z) (p : DynamicPlan) : Prop :=
  forall x, x ∈ wanted_pairs feed p ->
    (exists held, dget (fs_held s) c = Some held /\ x ∈ held) \/ x ∈ wa_rejected (fs_watcher s) \/ x ∈ fs_timeouts s.

Definition finv (s : FeedSys) : Prop := exists p, plan_is (fs_plan s) p /\
  forall c r, wa_bound (fs_watcher s) = Some c -> wa_rev (fs_watcher s) = Some r ->
    (exists held, dget (fs_held s) c = Some held) /\ r <= pl_rev p /\ (r = pl_rev p -> settled s c p).

Lemma plan_unique file p q : plan_is file p -> plan_is file q -> p = q.
Proof using repr. intros Hp Hq. apply (plan_read repr) in Hp, Hq. congruence. Qed.

Lemma record_acks acks : forall w, let w' := fold_left record_ack acks w in
  wa_bound w' = wa_bound w /\ wa_rev w' = wa_rev w /\ wa_rejected w ⊆ wa_rejected w' /\
  forall a, a ∈ acks -> ak_accepted a = true \/ ack_pair a ∈ wa_rejected w' \/ ack_pair a ∈ timed_out acks.
Proof using.
  induction acks as [|a acks IH]; intros w; cbn [fold_left]; [repeat split; set_solver|].
  destruct (IH (record_ack w a)) as (H1 & H2 & H3 & H4). cbv zeta. rewrite H1, H2.
  assert (Hone : wa_bound (record_ack w a) = wa_bound w /\ wa_rev (record_ack w a) = wa_rev w /\ wa_rejected w ⊆ wa_rejected (record_ack w a) /\
    (ak_accepted a = true \/ ack_pair a ∈ wa_rejected (record_ack w a) \/ ack_pair a ∈ timed_out [a])).
  { unfold record_ack, timed_out. destruct (ak_accepted a) eqn:Ea; [by auto|]. cbn [List.filter]. rewrite Ea. cbn [negb andb].
    case_bool_decide; cbn; [set_solver|]. unfold set_add. case_decide; set_solver. }
  destruct Hone as (G1 & G2 & G3 & G4). split; [done|]. split; [done|]. split; [by etrans|].
  assert (Ht : timed_out (a :: acks) = timed_out [a] ++ timed_out acks).
  { unfold timed_out. rewrite <- map_app, <- List.filter_app. done. }
  intros b [->|Hb]%elem_of_cons; rewrite Ht.
  - destruct G4 as [?|[?|?]]; [by left|right; left; by apply H3|right; right; apply elem_of_app; by left].
  - destruct (H4 b Hb) as [?|[?|?]]; [by left|by right; left|right; right; apply elem_of_app; by right].
Qed.

(** A pair is held, rejected, or among the new ones. *)
Lemma new_covers (held rejected wanted : list pair) x : x ∈ wanted -> x ∈ held \/ x ∈ rejected \/
  x ∈ List.filter (fun p => negb (bool_decide (p ∈ held)) && negb (bool_decide (p ∈ rejected))) wanted.
Proof using.
  intros Hx. destruct (decide (x ∈ held)); [auto|]. destruct (decide (x ∈ rejected)); [auto|].
  right. right. apply filter_elem. split; [done|]. by rewrite !bool_decide_false.
Qed.

(** A tick that returns leaves the plan's pairs settled on its connection. *)
Lemma tick_settles s c held subscribe p : finv s -> dget (fs_held s) c = Some held -> live_ok subscribe -> plan_is (fs_plan s) p ->
  let t := tick repr feed (fs_plan s) c held subscribe (fs_watcher s) in
  wa_bound (to_watcher t) = Some c /\
  forall n, to_sent t = Ok n -> wa_rev (to_watcher t) = Some (pl_rev p) /\
    settled (mkFeedSys (to_watcher t) (dset (fs_held s) c (to_held t)) (fs_plan s) (fs_timeouts s ++ timed_out (to_acks t))) c p.
Proof using All.
  intros (p0 & Hp0 & Hinv) Hc Hlive Hp. assert (p0 = p) as -> by (by eapply plan_unique).
  unfold tick. rewrite (plan_read repr _ _ Hp). set (w0 := if bool_decide (wa_bound (fs_watcher s) = Some c) then _ else _).
  assert (Hb0 : wa_bound w0 = Some c /\ wa_rejected w0 = wa_rejected (fs_watcher s) /\
    (wa_rev w0 = Some (pl_rev p) -> wa_bound (fs_watcher s) = Some c /\ wa_rev (fs_watcher s) = Some (pl_rev p) /\ w0 = fs_watcher s)).
  { unfold w0. destruct (bool_decide (wa_bound (fs_watcher s) = Some c)) eqn:E; bprop; naive_solver. }
  clearbody w0. destruct Hb0 as (B1 & B2 & B3). case_bool_decide as Hrev; cbv zeta.
  { split; [done|]. intros n _. split; [done|]. destruct (B3 Hrev) as (E1 & E2 & ->).
    destruct (Hinv c (pl_rev p) E1 E2) as (_ & _ & Hset). intros x Hx. destruct (Hset eq_refl x Hx) as [(h & Hh & Hxh)|[?|?]].
    - left. exists h. cbn. rewrite dget_dset_eq. rewrite Hc in Hh. injection Hh as <-. done.
    - by right; left.
    - right. right. apply elem_of_app. by left. }
  match goal with |- context [List.filter ?f ?l] => set (new := List.filter f l) end.
  assert (Hnew : forall x, x ∈ wanted_pairs feed p -> x ∈ held \/ x ∈ wa_rejected (fs_watcher s) \/ x ∈ new).
  { intros x Hx. rewrite <- B2. by apply (new_covers held (wa_rejected w0)). }
  destruct new as [|x0 new0] eqn:En.
  { split; [done|]. intros n _. split; [done|]. intros x Hx. destruct (Hnew x Hx) as [Hh|[Hh|Hh]].
    - left. exists held. cbn. by rewrite dget_dset_eq.
    - right. left. cbn. by rewrite B2.
    - by apply elem_of_nil in Hh. }
  rewrite <- En in *. destruct (subscribe held new) as [h [ak|]] eqn:Es; [|done]. cbn [to_sent to_watcher to_held to_acks].
  destruct (Hlive held new h (Some ak) Es) as [Hsub Hacks]. destruct (Hacks ak eq_refl) as [Hm Hacc].
  destruct (record_acks ak (set_rev w0 (Some (pl_rev p)))) as (R1 & R2 & R3 & R4). rewrite R1, R2. split; [done|]. intros n _. split; [done|].
  intros x Hx. cbn [fs_held fs_watcher fs_timeouts]. destruct (Hnew x Hx) as [Hh|[Hh|Hh]].
  - left. exists h. rewrite dget_dset_eq. split; [done|]. by apply Hsub.
  - right. left. apply R3. cbn. by rewrite B2.
  - rewrite <- Hm in Hh. apply list_elem_of_fmap in Hh as (a & -> & Ha). destruct (R4 a Ha) as [Hok|[Hok|Hok]].
    + left. exists h. rewrite dget_dset_eq. split; [done|]. by apply Hacc.
    + by right; left.
    + right. right. apply elem_of_app. by right.
Qed.

Lemma fstep_inv s s' : fstep s s' -> finv s -> finv s'.
Proof using All.
  intros Hs Hi. destruct Hs as [c held subscribe w' held' acks s Hc Hlive Hr|c held s Hc|p q s Hp Hq Hlt|s].
  - pose proof Hi as (p & Hp & _). exists p. split; [done|]. intros c' r Hb Hrev. cbn [fs_watcher fs_held] in *.
    destruct (tick_settles s c held subscribe p Hi Hc Hlive Hp) as [B Hset]. unfold watch_round in Hr. injection Hr as <- <- <-.
    destruct (to_sent _) as [n|e] eqn:Es; [|done]. destruct (Hset n eq_refl) as [R Hs].
    assert (c' = c) as -> by congruence. assert (r = pl_rev p) as -> by congruence.
    split; [eexists; by rewrite dget_dset_eq|]. split; [lia|done].
  - destruct Hi as (p & Hp & Hinv). exists p. split; [done|]. intros c' r Hb Hr. cbn [fs_watcher fs_held] in *.
    destruct (Hinv c' r Hb Hr) as ((h & Hh) & Hle & Hset). assert (Hne : c <> c') by congruence. split.
    + exists h. by rewrite dget_dset_ne.
    + split; [done|]. intros Hrp x Hx. destruct (Hset Hrp x Hx) as [(h' & Hh' & Hx')|[?|?]]; [left; exists h'; cbn; by rewrite dget_dset_ne|by right; left|by right; right].
  - destruct Hi as (p0 & Hp0 & Hinv). assert (p0 = p) as -> by (by eapply plan_unique). exists q. split; [done|]. intros c r Hb Hr. cbn [fs_watcher fs_held] in *.
    destruct (Hinv c r Hb Hr) as (Hh & Hle & _). split; [done|]. split; [lia|]. intros ->. lia.
  - destruct Hi as (p & Hp & _). exists p. split; [done|]. intros c r Hb. discriminate Hb.
Qed.

Definition feed_start (initial : list pair) : FeedSys := mkFeedSys (new_watcher initial) [] None [].

Lemma feed_reach_inv initial s : rtc fstep (feed_start initial) s -> finv s.
Proof using All.
  intros Hr. assert (Hi : finv (feed_start initial)) by (exists (mkPlan 0 []); split; [by left|done]).
  induction Hr as [|x y z Hxy _ IH]; [done|]. apply IH. by eapply fstep_inv.
Qed.
End FeedDay.

(** C29. However revisions of the admissions file, reconnects, failing subscriptions and polls of a
    feed follow each other, whenever its watcher considers the current revision done every pair the file gives the
    feed is held by the connection, was rejected by the vendor, or had its acknowledgement time
    out; and any tick that returns makes it so on its connection. *)
Theorem feed_settles repr feed initial s : rtc (fstep repr feed) (feed_start initial) s ->
  exists p, read_dynamic_admissions repr (fs_plan s) = Ok p /\
    (forall c, wa_bound (fs_watcher s) = Some c -> wa_rev (fs_watcher s) = Some (pl_rev p) -> settled feed s c p) /\
    (forall c held subscribe n, dget (fs_held s) c = Some held -> live_ok subscribe ->
       let t := tick repr feed (fs_plan s) c held subscribe (fs_watcher s) in
       to_sent t = Ok n ->
       settled feed (mkFeedSys (to_watcher t) (dset (fs_held s) c (to_held t)) (fs_plan s) (fs_timeouts s ++ timed_out (to_acks t))) c p).
Proof.
  intros Hr. pose proof (feed_reach_inv repr feed initial s Hr) as Hi. pose proof Hi as (p & Hp & Hinv). exists p.
  split; [by apply plan_read|]. split.
  - intros c Hb Hrev. by apply (Hinv c (pl_rev p)).
  - intros c held subscribe n Hc Hl t Ht. destruct (tick_settles repr feed s c held subscribe p Hi Hc Hl Hp) as [_ Hs]. exact (proj2 (Hs n Ht)).
Qed.

Definition demo_feed : DynamicFeed := mkFeed "kis:5" ["H0STCNT0"; "H0STASP0"] None (Some "5").
Definition demo_answer (p : pair) : live_answer := if bool_decide (snd p = "H0STCNT0") then LiveAck true "0" else LiveAck false "OPSP0008".
Definition demo_subscribe := kis_subscribe_live 40 ["H0STCNT0"; "H0STASP0"] demo_answer.
Definition demo_plan : DynamicPlan := mkPlan 1 [mkEntry "000400" "kis:5" 9; mkEntry "000200" "ls:1" 9].
Definition demo_f2 : FeedSys := mkFeedSys (new_watcher []) [(1, [("005930", "H0STCNT0")])] (Some (Some (plan_json demo_plan))) [].

Lemma feed_settles_witness :
  let t := tick demo_repr demo_feed (fs_plan demo_f2) 1 [("005930", "H0STCNT0")] demo_subscribe (fs_watcher demo_f2) in
  to_held t = [("005930", "H0STCNT0"); ("000400", "H0STCNT0")] /\ wa_rejected (to_watcher t) = [("000400", "H0STASP0")] /\
  exists p, read_dynamic_admissions demo_repr (fs_plan demo_f2) = Ok p.
Proof.
  split; [vm_compute; reflexivity|]. split; [vm_compute; reflexivity|].
  destruct (feed_settles demo_repr demo_feed [] demo_f2) as (p & Hp & _).
  - apply (rtc_l _ _ (mkFeedSys (new_watcher []) [] (Some (Some (plan_json demo_plan))) [])).
    + apply (f_plan _ _ (mkPlan 0 []) demo_plan (feed_start [])); [by left| |reflexivity]. right. split; [done|]. split; [done|]. by repeat constructor.
    + apply rtc_once. apply (f_connect _ _ 1 [("005930", "H0STCNT0")] (mkFeedSys (new_watcher []) [] (Some (Some (plan_json demo_plan))) [])). done.
  - exists p. exact Hp.
Defined.
