(* ===== verification/KiwoomPages.v ===== *)
(** * Pages of the Kiwoom service ([src/marketdata/kiwoom_ticks.py], [src/marketdata/kiwoom_ranking.py])

    The classification of a response, the rows of a tick-chart page and of a ranking
    page, and the ranking over its pages. The HTTP session is what it answers; text is
    ASCII. *)
From Stdlib Require Import Ascii SpecFloat.
From S2P Require Import Prelude PyStr PyTime PyFloat PyColl ExecContracts ExecJournal KisTrading Layout Membership Intraday Discovery DiscoveryInv.

(** [KiwoomTickTapeError] and its subclasses, and the [AttributeError] of a ranking row that is no object. *)
Inductive kiwoom_exc := TapeError | TransientError | AuthRejected | Throttled | AttributeErr.
#[global] Instance kiwoom_exc_eq_dec : EqDecision kiwoom_exc.
Proof. solve_decision. Defined.

(** A response; [None] for a body that is no JSON. *)
Record Response := mkResponse { rs_status : Z; rs_headers : list (string * string); rs_body : option json }.
(** What [session.post] does. *)
Inductive posted := Answered (r : Response) | NetworkFault | OtherFault.

(** ** [float(text)] of decimal text *)

Definition split_sign (l : list ascii) : bool * list ascii :=
  match l with "-"%char :: r => (true, r) | "+"%char :: r => (false, r) | r => (false, r) end.

(** [n * 10 ** e] rounded to nearest even: an exact quotient with a sticky bit. *)
Definition float_of_decimal (neg : bool) (n e : Z) : pyfloat :=
  let sign z := if neg then - z else z in
  if n =? 0 then S754_zero neg
  else if 0 <=? e then round_z (sign (n * 10 ^ e)) 0 neg
  else
    let k := 1200 + 4 * - e in
    let q := n * 2 ^ k / 10 ^ (- e) in
    let sticky := if n * 2 ^ k mod 10 ^ (- e) =? 0 then 0 else 1 in
    round_z (sign (2 * q + sticky)) (- (k + 1)) neg.

Definition digits_or_empty (l : list ascii) : option (Z * Z) :=
  match l with
  | [] => Some (0, 0)
  | _ => match drop_underscores false l with
         | Some ds => v ← parse_nat ds; Some (v, zlen ds)
         | None => None
         end
  end.

Definition py_float (s : string) : option pyfloat :=
  let '(neg, body) := split_sign (map lower_char (strip (s2l s))) in
  if bool_decide (l2s body = "nan") then Some S754_nan
  else if bool_decide (l2s body = "inf") || bool_decide (l2s body = "infinity") then Some (S754_infinity neg)
  else
    let '(mantissa, exponent) := match split_on "e"%char body with
                                 | [m] => (m, Some 0)
                                 | [m; x] => (m, py_int x)
                                 | _ => (body, None)
                                 end in
    match split_on "."%char mantissa, exponent with
    | [whole], Some x => '(v, n) ← digits_or_empty whole; if n =? 0 then None else Some (float_of_decimal neg v x)
    | [whole; frac], Some x =>
        '(v, n) ← digits_or_empty whole; '(f, k) ← digits_or_empty frac;
        if n + k =? 0 then None else Some (float_of_decimal neg (v * 10 ^ k + f) (x - k))
    | _, _ => None
    end.

Example float_five : py_float " +5.25 " = Some (round_z 21 (-2) false).
Proof. vm_compute. reflexivity. Qed.
Example float_tenth : py_float "-0.1" = Some (fneg (fdiv f_one (round_z 10 0 false))).
Proof. vm_compute. reflexivity. Qed.
Example float_bad : py_float "1.2.3" = None.
Proof. vm_compute. reflexivity. Qed.

(** ** Responses *)

Section Pages.
Variable repr : json -> string.

(** [_headers_case_insensitive]. *)
Fixpoint header (headers : list (string * string)) (name : string) : option string :=
  match headers with
  | [] => None
  | (k, v) :: headers =>
      if bool_decide (str_lower k = name) then (if bool_decide (str_strip v = "") then None else Some (str_strip v))
      else header headers name
  end.

(** [_return_code]. *)
Definition return_code (body : json) : option Z :=
  match body with
  | JObj o => match default JNull (dget o "return_code") with
              | JBool _ => None
              | JInt z => Some z
              | v => py_int (s2l (py_str repr v))
              end
  | _ => None
  end.

Definition status_of_response (r : Response) : Z := if rs_status r =? 0 then 200 else rs_status r.

(** The error of a return code that is not zero. *)
Definition code_error (code : Z) : kiwoom_exc := if code =? 3 then AuthRejected else if code =? 7 then TransientError else TapeError.

(** The continuation key of a page. *)
Definition continuation (r : Response) : res kiwoom_exc (option string) :=
  if bool_decide (header (rs_headers r) "cont-yn" = Some "Y")
  then match header (rs_headers r) "next-key" with Some k => Ok (Some k) | None => Raise TapeError end
  else Ok None.

Fixpoint parse_all {A} (parse : json -> res kiwoom_exc A) (rows : list json) : res kiwoom_exc (list A) :=
  match rows with
  | [] => Ok []
  | r :: rows => (x <~ parse r;; xs <~ parse_all parse rows;; Ok (x :: xs))%py
  end.

(** ** The tick chart *)

Record TapeTick := mkTapeTick { tk_day : Z; tk_hms : Z; tk_price : Z; tk_volume : Z }.
Record TickPage := mkPage { pg_ticks : list TapeTick; pg_next : option string }.

Definition sub (a b : nat) (l : list ascii) : Z := chars_val (take (b - a) (drop a l)).
Fixpoint lstrip_signs (l : list ascii) : list ascii :=
  match l with
  | c :: l' => if decide (c = "+"%char \/ c = "-"%char) then lstrip_signs l' else l
  | [] => []
  end.

(** [_parse_tick]. *)
Definition parse_tick (row : json) : res kiwoom_exc TapeTick :=
  match row with
  | JObj o =>
      let get k := py_str repr (default (JStr "") (dget o k)) in
      let tm := s2l (get "cntr_tm") in
      if negb (bool_decide (length tm = 14%nat) && all_digits tm) then Raise TapeError
      else
        let '(y, m, d) := (sub 0 4 tm, sub 4 6 tm, sub 6 8 tm) in
        if negb ((1 <=? y) && (1 <=? m) && (m <=? 12) && (1 <=? d) && (d <=? days_in_month y m)) then Raise TapeError
        else if negb ((sub 8 10 tm <? 24) && (sub 10 12 tm <? 60) && (sub 12 14 tm <? 60)) then Raise TapeError
        else match py_int (lstrip_signs (strip (s2l (get "cur_prc")))) with
             | None => Raise TapeError
             | Some price =>
                 if Z.abs price =? 0 then Raise TapeError
                 else match py_int (strip (s2l (get "trde_qty"))) with
                      | None => Raise TapeError
                      | Some volume =>
                          if volume <=? 0 then Raise TapeError
                          else Ok (mkTapeTick (days_of_civil y m d) (sub 8 14 tm) (Z.abs price) volume)
                      end
             end
  | _ => Raise TapeError
  end.

(** [fetch_tick_page] on a symbol. *)
Definition fetch_tick_page (answer : posted) : res kiwoom_exc TickPage :=
  match answer with
  | NetworkFault => Raise TransientError
  | OtherFault => Raise TapeError
  | Answered r =>
      let status := status_of_response r in
      if 500 <=? status then Raise TransientError
      else match rs_body r with
           | None => Raise TapeError
           | Some body =>
               let code := return_code body in
               if (status =? 429) && bool_decide (code = Some 5) then Raise Throttled
               else if status =? 401 then Raise AuthRejected
               else match code with
                    | None => Raise TapeError
                    | Some code =>
                        if negb (code =? 0) then Raise (code_error code)
                        else if 400 <=? status then Raise TapeError
                        else match body with
                             | JObj o =>
                                 match dget o "stk_tic_chart_qry" with
                                 | Some (JArr rows) =>
                                     (ticks <~ parse_all parse_tick rows;; next <~ continuation r;; Ok (mkPage ticks next))%py
                                 | _ => Raise TapeError
                                 end
                             | _ => Raise TapeError
                             end
                    end
           end
  end.

(** ** The ranking *)

(** [_parse_row]: [None] for a row whose symbol is no short code. *)
Definition parse_ranking_row (raw : json) : res kiwoom_exc (option KiwoomRankingRow) :=
  match raw with
  | JObj o =>
      let code := zfill 6 (str_strip (match str_split "_"%char (py_str repr (default (JStr "") (dget o "stk_cd"))) with x :: _ => x | [] => "" end)) in
      if negb (is_krx_short_code code) then Ok None
      else
        let int_field k := v ← dget o k; py_int (strip (s2l (py_str repr v))) in
        match int_field "now_rank", int_field "cur_prc", (v ← dget o "flu_rt"; py_float (str_strip (py_str repr v))), int_field "trde_prica" with
        | Some rank, Some price, Some change, Some value => Ok (Some (mkRank rank code (Z.abs price) change (value * 1000000)))
        | _, _, _, _ => Raise TapeError
        end
  | _ => Raise AttributeErr
  end.

Record RankingPage := mkRankingPage { rp_rows : list KiwoomRankingRow; rp_next : option string }.

(** [_post_page]. *)
Definition post_page (answer : posted) : res kiwoom_exc RankingPage :=
  match answer with
  | NetworkFault | OtherFault => Raise TransientError
  | Answered r =>
      let status := status_of_response r in
      if 500 <=? status then Raise TransientError
      else if status =? 401 then Raise AuthRejected
      else match rs_body r with
           | None => Raise TapeError
           | Some body =>
               let code := return_code body in
               if (status =? 429) && bool_decide (code = Some 5) then Raise Throttled
               else match code with
                    | None => Raise TapeError
                    | Some code =>
                        if negb (code =? 0) then Raise (code_error code)
                        else match body with
                             | JObj o =>
                                 match dget o "trde_prica_upper" with
                                 | Some (JArr rows) =>
                                     (parsed <~ parse_all parse_ranking_row rows;; next <~ continuation r;;
                                      Ok (mkRankingPage (omap id parsed) next))%py
                                 | _ => Raise TapeError
                                 end
                             | _ => Raise TapeError
                             end
                    end
           end
  end.

(** [_post_page_with_throttle_retry]: the answers still to come and the page; no further answer is
    a request that fails. *)
Fixpoint post_page_retry (retries_left : nat) (answers : list posted) {struct answers} : list posted * res kiwoom_exc RankingPage :=
  match answers with
  | [] => ([], Raise TransientError)
  | a :: answers =>
      match post_page a with
      | Raise Throttled => match retries_left with O => (answers, Raise Throttled) | S n => post_page_retry n answers end
      | r => (answers, r)
      end
  end.

(** The rows of one page: strictly increasing ranks, the first row of every symbol. *)
Fixpoint take_page (last_rank : Z) (collected : list KiwoomRankingRow) (rows : list KiwoomRankingRow)
    : res kiwoom_exc (Z * list KiwoomRankingRow) :=
  match rows with
  | [] => Ok (last_rank, collected)
  | row :: rows =>
      if kr_rank row <=? last_rank then Raise TapeError
      else take_page (kr_rank row)
             (if bool_decide (kr_symbol row ∈ map kr_symbol collected) then collected else collected ++ [row]) rows
  end.

(** The loop of [fetch_trade_amount_ranking] over at most [pages] pages. *)
Fixpoint ranking_loop (pages : nat) (min_value last_rank : Z) (collected : list KiwoomRankingRow) (answers : list posted)
    : res kiwoom_exc (list KiwoomRankingRow) :=
  match pages with
  | O => Ok collected
  | S pages =>
      match post_page_retry 3 answers with
      | (_, Raise e) => Raise e
      | (answers, Ok page) =>
          (taken <~ take_page last_rank collected (rp_rows page);;
           let '(last_rank, collected) := taken in
           let tail_below := match List.rev (rp_rows page) with [] => true | r :: _ => kr_trade_value_krw r <? min_value end in
           match rp_next page with
           | Some _ => if tail_below then Ok collected else ranking_loop pages min_value last_rank collected answers
           | None => Ok collected
           end)%py
      end
  end.

(** [fetch_trade_amount_ranking]; [None] is [ValueError]. *)
Definition fetch_trade_amount_ranking (max_pages min_value : Z) (answers : list posted) : option (res kiwoom_exc (list KiwoomRankingRow)) :=
  if max_pages <? 1 then None else Some (ranking_loop (Z.to_nat max_pages) min_value 0 [] answers).
End Pages.

(** ** What the ranking returns *)

Section RankingFacts.
Variable repr : json -> string.

Lemma parse_all_elem {A} (parse : json -> res kiwoom_exc A) rows : forall out, parse_all parse rows = Ok out ->
  forall x, x ∈ out -> exists r, r ∈ rows /\ parse r = Ok x.
Proof.
  induction rows as [|r rows IH]; cbn [parse_all]; intros out Ho x Hx; [injection Ho as <-; by apply elem_of_nil in Hx|].
  destruct (parse r) as [y|e] eqn:Ep; [|done]. cbn [res_bind] in Ho. destruct (parse_all parse rows) as [ys|e] eqn:Ea; [|done].
  injection Ho as <-. apply elem_of_cons in Hx as [->|Hx]; [exists r; split; [set_solver|done]|].
  destruct (IH ys eq_refl x Hx) as (r' & Hr' & Hp). exists r'. split; [set_solver|done].
Qed.

Lemma parse_ranking_code raw row : parse_ranking_row repr raw = Ok (Some row) -> is_krx_short_code (kr_symbol row) = true.
Proof.
  unfold parse_ranking_row. destruct raw as [| | | | | |o]; try done. cbv zeta. set (code := zfill _ _).
  destruct (is_krx_short_code code) eqn:Ec; cbn [negb]; [|done]. repeat (case_match; try done). intros [= <-]. exact Ec.
Qed.

Lemma post_page_codes a page : post_page repr a = Ok page -> Forall (fun r => is_krx_short_code (kr_symbol r) = true) (rp_rows page).
Proof.
  unfold post_page. destruct a as [r| |]; try done. cbv zeta. destruct (500 <=? _); [done|]. destruct (_ =? 401); [done|].
  destruct (rs_body r) as [body|]; [|done]. destruct (_ && _); [done|]. destruct (return_code repr body) as [code|]; [|done].
  destruct (negb _); [done|]. destruct body as [| | | | | |o]; try done. destruct (dget o _) as [[| | | | |rows|]|]; try done.
  destruct (parse_all (parse_ranking_row repr) rows) as [parsed|e] eqn:Ep; [|done]. cbn [res_bind].
  destruct (continuation r) as [next|e]; [|done]. intros [= <-]. cbn [rp_rows]. apply Forall_forall. intros row Hr.
  apply list_elem_of_omap in Hr as (x & Hx & Hid). destruct (parse_all_elem _ _ _ Ep x Hx) as (raw & _ & Hraw). cbn in Hid. subst x.
  by apply parse_ranking_code in Hraw.
Qed.

Lemma take_page_ok rows : forall last coll last' coll', take_page last coll rows = Ok (last', coll') ->
  Forall (fun r => is_krx_short_code (kr_symbol r) = true) (coll ++ rows) -> NoDup (map kr_symbol coll) ->
  Forall (fun r => is_krx_short_code (kr_symbol r) = true) coll' /\ NoDup (map kr_symbol coll').
Proof.
  induction rows as [|row rows IH]; cbn [take_page]; intros last coll last' coll' Ht Hc Hn.
  { injection Ht as _ <-. rewrite app_nil_r in Hc. done. }
  destruct (_ <=? _); [done|]. apply IH in Ht; [done| |].
  - apply Forall_app in Hc as [Hc1 Hc2]. apply Forall_cons in Hc2 as [Hr Hc2]. case_bool_decide; [by apply Forall_app|].
    by rewrite !Forall_app, Forall_singleton.
  - case_bool_decide as Hb; [done|]. rewrite map_app. apply NoDup_app. split; [done|]. split; [|apply NoDup_singleton].
    intros x Hx ->%list_elem_of_singleton. done.
Qed.

(** The ranking names valid codes, each once. *)
Lemma ranking_rows_ok pages min_value : forall last coll answers rows, ranking_loop repr pages min_value last coll answers = Ok rows ->
  Forall (fun r => is_krx_short_code (kr_symbol r) = true) coll -> NoDup (map kr_symbol coll) ->
  Forall (fun r => is_krx_short_code (kr_symbol r) = true) rows /\ NoDup (map kr_symbol rows).
Proof.
  induction pages as [|pages IH]; cbn [ranking_loop]; intros last coll answers rows Hl Hc Hn; [injection Hl as <-; done|].
  destruct (post_page_retry repr 3 answers) as [answers' [page|e]] eqn:Ep; [|done].
  assert (Hp : Forall (fun r => is_krx_short_code (kr_symbol r) = true) (rp_rows page)).
  { clear -Ep. revert Ep. generalize 3%nat. induction answers as [|a answers IH]; intros n Ep; cbn [post_page_retry] in Ep; [done|].
    destruct (post_page repr a) as [p|e] eqn:Ea; [injection Ep as _ <-; by apply (post_page_codes a)|].
    destruct e; try done. destruct n; [done|]. by apply (IH n). }
  destruct (take_page last coll (rp_rows page)) as [[last' coll']|e] eqn:Et; [|done]. cbn [res_bind] in Hl.
  destruct (take_page_ok _ _ _ _ _ Et) as [H1 H2]; [by apply Forall_app|done|].
  destruct (rp_next page); [|injection Hl as <-; done]. cbv zeta in Hl. destruct (match rev (rp_rows page) with [] => _ | _ => _ end); [injection Hl as <-; done|].
  by eapply IH.
Qed.

(** So what discovery is handed satisfies what it expects of a ranking. *)
Lemma fetched_codes max_pages min_value answers rows status wall fault ipc :
  fetch_trade_amount_ranking repr max_pages min_value answers = Some (Ok rows) ->
  ranking_codes (mkPollEnv (Some rows) status wall fault ipc) /\ NoDup (map kr_symbol rows).
Proof.
  unfold fetch_trade_amount_ranking. destruct (max_pages <? 1); [done|]. intros [= Hl].
  destruct (ranking_rows_ok _ _ _ _ _ _ Hl) as [Hc Hn]; [constructor|constructor|]. split; [|done]. by intros rs [= <-].
Qed.
End RankingFacts.
