(* ===== verification/TapeWalk.v ===== *)
(** * Walking a trade tape ([src/marketdata/kiwoom_ticks.py], [walk_symbol_tape])

    The tape of a symbol comes newest first in pages. The walk collects the trades of the
    wanted days, certifies a day once an older trade proves it whole, and stops when it is
    past the oldest wanted day, at the end of the tape, at a day that is too large, or at
    its page budget. [fetch_page] and [on_day_complete] are the caller's, over a state of
    the caller's, and may raise; a frozenset is a list without repetitions. The repair of a
    day relies on its tape being complete. *)
From Stdlib Require Import Ascii.
From S2P Require Import Prelude PyStr PyColl KiwoomPages.

Inductive Termination := crossed | tape_end | page_budget | oversize.
#[global] Instance termination_eq_dec : EqDecision Termination.
Proof. solve_decision. Defined.

Record TapeWalk := mkTapeWalk {
  tw_complete : list (Z * list TapeTick); tw_vendor_empty : list Z; tw_edge_partial : list Z; tw_pages : Z;
  tw_termination : Termination; tw_emitted : list Z; tw_oversize_day : option Z
}.

(** The exceptions of a walk: its own two, and those of the caller's functions. *)
Inductive walk_exc (E : Type) := WValueError | WTapeError | WRaised (e : E).
Arguments WValueError {E}.
Arguments WTapeError {E}.
Arguments WRaised {E} e.
(** What a call of [fetch_page] does; [FBoundary] is [TapeBoundaryError]. *)
Inductive fetched (E : Type) := FPage (p : TickPage) | FBoundary | FFail (e : E).
Arguments FPage {E} p.
Arguments FBoundary {E}.
Arguments FFail {E} e.

(** The variables of the walk; [wk_log] is what [on_day_complete] was called with. *)
Record WalkState := mkWalk {
  wk_per_day : list (Z * list TapeTick); wk_newest : option Z; wk_oldest : option Z; wk_previous : option (Z * Z);
  wk_cursors : list string; wk_emitted : list Z; wk_log : list (Z * list TapeTick); wk_pages : Z
}.

Definition stamp (t : TapeTick) : Z * Z := (tk_day t, tk_hms t).
Definition stamp_ltb (a b : Z * Z) : bool := (fst a <? fst b) || ((fst a =? fst b) && (snd a <? snd b)).

(** One trade of a page; [None] when the tape is not newest first. *)
Definition walk_tick (s : WalkState) (t : TapeTick) : option WalkState :=
  if match wk_previous s with Some p => stamp_ltb p (stamp t) | None => false end then None
  else Some (mkWalk
    (match dget (wk_per_day s) (tk_day t) with Some ts => dset (wk_per_day s) (tk_day t) (ts ++ [t]) | None => wk_per_day s end)
    (Some (match wk_newest s with None => tk_day t | Some n => Z.max n (tk_day t) end))
    (Some (match wk_oldest s with None => tk_day t | Some o => Z.min o (tk_day t) end))
    (Some (stamp t)) (wk_cursors s) (wk_emitted s) (wk_log s) (wk_pages s)).
Fixpoint walk_ticks (s : WalkState) (ts : list TapeTick) : option WalkState :=
  match ts with
  | [] => Some s
  | t :: ts => s ← walk_tick s t; walk_ticks s ts
  end.

(** The delivery of the days an older trade proves whole. *)
Definition emit_day (s : WalkState) (day : Z) : WalkState :=
  mkWalk (dset (wk_per_day s) day []) (wk_newest s) (wk_oldest s) (wk_previous s) (wk_cursors s) (set_add day (wk_emitted s))
    (wk_log s ++ [(day, rev (default [] (dget (wk_per_day s) day)))]) (wk_pages s).
Definition ready_days (s : WalkState) (oldest : Z) : list Z :=
  py_sorted Z.leb (map fst (List.filter (fun '(d, ticks) => negb (bool_decide (length (A := TapeTick) ticks = 0%nat)) && (oldest <? d)) (wk_per_day s))).
Definition zmin_list (l : list Z) (x : Z) : Z := fold_right Z.min x l.
Definition zmax_list (l : list Z) (x : Z) : Z := fold_right Z.max x l.

Section Walk.
Context {W E : Type} (wanted_days : list Z) (max_ticks_per_day : option Z).
Context (fetch_page : option string -> W -> W * fetched E) (on_day_complete : option (Z -> list TapeTick -> W -> W * option E)).

Fixpoint deliver_days (deliver : Z -> list TapeTick -> W -> W * option E) (days : list Z) (w : W) (s : WalkState)
    : W * WalkState * option E :=
  match days with
  | [] => (w, s, None)
  | day :: days =>
      match deliver day (rev (default [] (dget (wk_per_day s) day))) w with
      | (w, Some e) => (w, s, Some e)
      | (w, None) => deliver_days deliver days w (emit_day s day)
      end
  end.
Definition emit_days (w : W) (s : WalkState) : W * WalkState * option E :=
  match on_day_complete, wk_oldest s with
  | Some deliver, Some oldest => deliver_days deliver (ready_days s oldest) w s
  | _, _ => (w, s, None)
  end.

(** The largest day over the limit. *)
Definition breached_day (s : WalkState) : option Z :=
  match max_ticks_per_day with
  | None => None
  | Some limit =>
      match List.filter (fun day => limit <? zlen (default [] (dget (wk_per_day s) day))) wanted_days with
      | [] => None
      | d :: ds => Some (zmax_list ds d)
      end
  end.

Definition add_page (s : WalkState) : WalkState :=
  mkWalk (wk_per_day s) (wk_newest s) (wk_oldest s) (wk_previous s) (wk_cursors s) (wk_emitted s) (wk_log s) (wk_pages s + 1).
Definition add_cursor (s : WalkState) (key : string) : WalkState :=
  mkWalk (wk_per_day s) (wk_newest s) (wk_oldest s) (wk_previous s) (set_add key (wk_cursors s)) (wk_emitted s) (wk_log s) (wk_pages s).

Fixpoint walk_loop (fuel : nat) (floor : Z) (next_key : option string) (w : W) (s : WalkState)
    : W * WalkState * res (walk_exc E) (Termination * option Z) :=
  match fuel with
  | O => (w, s, Ok (page_budget, None))
  | S fuel =>
      match fetch_page next_key w with
      | (w, FBoundary) => (w, s, Ok (page_budget, None))
      | (w, FFail e) => (w, s, Raise (WRaised e))
      | (w, FPage page) =>
          match walk_ticks (add_page s) (pg_ticks page) with
          | None => (w, s, Raise WTapeError)
          | Some s =>
              match emit_days w s with
              | (w, s, Some e) => (w, s, Raise (WRaised e))
              | (w, s, None) =>
                  match breached_day s with
                  | Some day => (w, s, Ok (oversize, Some day))
                  | None =>
                      if match wk_oldest s with Some o => o <? floor | None => false end then (w, s, Ok (crossed, None))
                      else match pg_next page with
                           | None => (w, s, Ok (tape_end, None))
                           | Some key =>
                               if bool_decide (length (pg_ticks page) = 0%nat) || bool_decide (key ∈ wk_cursors s)
                               then (w, s, Raise WTapeError)
                               else walk_loop fuel floor (Some key) w (add_cursor s key)
                           end
                  end
              end
          end
      end
  end.

(** The certification after the loop. *)
Definition certify (s : WalkState) (termination : Termination) (oversize_day : option Z) : TapeWalk :=
  let unsent := List.filter (fun d => negb (bool_decide (d ∈ wk_emitted s))) wanted_days in
  let eligible := List.filter (fun d => match oversize_day with None => true | Some o => o <? d end) unsent in
  let rows d := default [] (dget (wk_per_day s) d) in
  let older d := match wk_oldest s with Some o => o <? d | None => false end in
  let newer d := match wk_newest s with Some n => d <? n | None => false end in
  let has d := negb (bool_decide (length (rows d) = 0%nat)) in
  let complete := map (fun d => (d, rev (rows d))) (List.filter (fun d => has d && older d) eligible) in
  let vendor_empty := List.filter (fun d => negb (has d) && newer d && older d) eligible in
  match termination, wk_oldest s with
  | tape_end, Some edge =>
      mkTapeWalk (List.filter (fun '(d, _) => negb (d =? edge)) complete)
        (List.filter (fun d => negb (d =? edge)) vendor_empty
         ++ List.filter (fun d => negb (has d) && (d <? edge)) unsent)
        [edge] (wk_pages s) termination (wk_emitted s) oversize_day
  | _, _ => mkTapeWalk complete vendor_empty [] (wk_pages s) termination (wk_emitted s) oversize_day
  end.

(** [walk_symbol_tape]: the caller's state, the deliveries made and the walk. *)
Definition walk_start : WalkState := mkWalk (map (fun d => (d, [])) wanted_days) None None None [] [] [] 0.
Definition walk_symbol_tape (max_pages : Z) (w : W) : W * list (Z * list TapeTick) * res (walk_exc E) TapeWalk :=
  if max_pages <? 1 then (w, [], Raise WValueError)
  else match wanted_days with
       | [] => (w, [], Ok (mkTapeWalk [] [] [] 0 crossed [] None))
       | d :: ds =>
           match walk_loop (Z.to_nat max_pages) (zmin_list ds d) None w walk_start with
           | (w, s, Ok (termination, oversize_day)) => (w, wk_log s, Ok (certify s termination oversize_day))
           | (w, s, Raise e) => (w, wk_log s, Raise e)
           end
       end.
End Walk.

(** ** What a walk has read *)

(** Newest first. *)
Definition newest_first (ts : list TapeTick) : Prop := StronglySorted (fun a b => stamp_ltb (stamp a) (stamp b) = false) ts.
Definition on_day (d : Z) (ts : list TapeTick) : list TapeTick := List.filter (fun t => tk_day t =? d) ts.

Lemma newest_days a b : stamp_ltb (stamp a) (stamp b) = false -> tk_day b <= tk_day a.
Proof. unfold stamp_ltb, stamp. cbn. intros H. bprop. done. Qed.

Lemma newest_suffix l t k : newest_first (l ++ t :: k) -> forall x, x ∈ k -> stamp_ltb (stamp t) (stamp x) = false.
Proof.
  induction l as [|y l IH]; intros Hs x Hx; apply StronglySorted_inv in Hs as [Hs HF]; [|by apply IH].
  rewrite Forall_forall in HF. by apply HF.
Qed.

(** Once a trade older than a day is read, the rest of the tape has none of the day. *)
Lemma passed read rest d t : newest_first (read ++ rest) -> t ∈ read -> tk_day t < d -> on_day d (read ++ rest) = on_day d read.
Proof.
  intros Hs Ht Hd. unfold on_day. rewrite List.filter_app.
  assert (List.filter (fun t => tk_day t =? d) rest = []) as ->; [|by rewrite app_nil_r].
  destruct (List.filter _ rest) as [|x xs] eqn:E; [done|]. assert (Hx : x ∈ x :: xs) by set_solver. rewrite <- E in Hx.
  apply filter_elem in Hx as [Hx Hdx]. apply Z.eqb_eq in Hdx.
  apply list_elem_of_split in Ht as (l1 & l2 & ->). rewrite <- app_assoc in Hs. cbn in Hs.
  pose proof (newest_days _ _ (newest_suffix _ _ _ Hs x ltac:(set_solver))). lia.
Qed.

(** The state of a walk that has read [read] of the tape. *)
Record walk_inv (wanted : list Z) (tape read : list TapeTick) (s : WalkState) : Prop := {
  wi_prefix : read `prefix_of` tape;
  wi_keys : dkeys (wk_per_day s) = wanted;
  wi_rows d ts : dget (wk_per_day s) d = Some ts -> ts = if decide (d ∈ wk_emitted s) then [] else on_day d read;
  wi_oldest : match wk_oldest s with
              | None => read = []
              | Some o => (exists t, t ∈ read /\ tk_day t = o) /\ forall t, t ∈ read -> o <= tk_day t
              end;
  wi_newest : match wk_newest s with
              | None => read = []
              | Some n => (exists t, t ∈ read /\ tk_day t = n) /\ forall t, t ∈ read -> tk_day t <= n
              end;
  wi_emitted d : d ∈ wk_emitted s <-> d ∈ map fst (wk_log s);
  wi_log d ts : (d, ts) ∈ wk_log s -> d ∈ wanted /\ ts = rev (on_day d tape) /\ ts <> [] /\
    match wk_oldest s with Some o => o < d | None => False end;
  wi_once : NoDup (map fst (wk_log s))
}.

Section WalkFacts.
Context (wanted : list Z) (tape : list TapeTick) (wanted_nodup : NoDup wanted) (tape_sorted : newest_first tape).

Lemma start_inv : walk_inv wanted tape [] (walk_start wanted).
Proof using All.
  split; cbn [walk_start wk_per_day wk_oldest wk_newest wk_emitted wk_log]; try done.
  - apply prefix_nil.
  - unfold dkeys. rewrite map_map. apply map_id.
  - intros d ts Hd. apply dget_elem in Hd. apply list_elem_of_fmap in Hd as (x & [= -> ->] & _). by case_decide.
  - set_solver.
  - constructor.
Qed.

Lemma on_day_snoc d read t : on_day d (read ++ [t]) = if tk_day t =? d then on_day d read ++ [t] else on_day d read.
Proof using All. unfold on_day. rewrite List.filter_app. cbn. destruct (tk_day t =? d); [done|by rewrite app_nil_r]. Qed.

(** A trade is read without an exception. *)
Lemma tick_inv read t s : walk_inv wanted tape read s -> (read ++ [t]) `prefix_of` tape ->
  wk_previous s = option_map stamp (last read) -> exists s', walk_tick s t = Some s' /\ walk_inv wanted tape (read ++ [t]) s' /\
    wk_previous s' = option_map stamp (last (read ++ [t])) /\ wk_emitted s' = wk_emitted s /\ wk_log s' = wk_log s /\
    wk_pages s' = wk_pages s.
Proof using All.
  intros [H1 H2 H3 H4 H5 H6 H7 H8] Hp Hprev. unfold walk_tick. destruct (match wk_previous s with Some p => _ | None => _ end) eqn:Eb.
  { exfalso. rewrite Hprev in Eb. destruct (last read) as [u|] eqn:El; [|done]. cbn in Eb. apply last_Some in El as [l' ->].
    destruct Hp as [k Hk]. rewrite Hk, <- !app_assoc in tape_sorted. cbn in tape_sorted.
    rewrite (newest_suffix _ _ _ tape_sorted t) in Eb; [done|set_solver]. }
  eexists. split; [done|]. split; [|by rewrite last_snoc].
  assert (Hold : forall o, (match wk_oldest s with None => tk_day t | Some x => Z.min x (tk_day t) end) = o ->
    (exists u, u ∈ read ++ [t] /\ tk_day u = o) /\ forall u, u ∈ read ++ [t] -> o <= tk_day u).
  { intros o <-. destruct (wk_oldest s) as [x|].
    - destruct H4 as [(u & Hu & Hux) Hall]. split.
      + destruct (Z.min_spec x (tk_day t)) as [[_ ->]|[_ ->]]; [exists u|exists t]; set_solver.
      + intros v [Hv| ->%list_elem_of_singleton]%elem_of_app; [specialize (Hall v Hv)|]; lia.
    - subst read. cbn. split; [exists t; set_solver|]. intros u ->%list_elem_of_singleton. lia. }
  assert (Hnew : forall o, (match wk_newest s with None => tk_day t | Some x => Z.max x (tk_day t) end) = o ->
    (exists u, u ∈ read ++ [t] /\ tk_day u = o) /\ forall u, u ∈ read ++ [t] -> tk_day u <= o).
  { intros o <-. destruct (wk_newest s) as [x|].
    - destruct H5 as [(u & Hu & Hux) Hall]. split.
      + destruct (Z.max_spec x (tk_day t)) as [[_ ->]|[_ ->]]; [exists t|exists u]; set_solver.
      + intros v [Hv| ->%list_elem_of_singleton]%elem_of_app; [specialize (Hall v Hv)|]; lia.
    - subst read. cbn. split; [exists t; set_solver|]. intros u ->%list_elem_of_singleton. lia. }
  split; cbn [wk_per_day wk_oldest wk_newest wk_emitted wk_log]; try done; [| |by apply Hold|by apply Hnew|].
  - destruct (dget (wk_per_day s) (tk_day t)) eqn:E; [by erewrite dkeys_dset_bound|done].
  - intros d ts Hd. rewrite on_day_snoc. destruct (Z.eqb_spec (tk_day t) d) as [Ht|Ht].
    + subst d. destruct (dget (wk_per_day s) (tk_day t)) as [ts0|] eqn:E; [|congruence]. rewrite dget_dset_eq in Hd. injection Hd as <-.
      rewrite (H3 _ _ E). case_decide as Hem; [|done]. exfalso. apply H6, list_elem_of_fmap in Hem as ([d' rows] & Hd' & Hl).
      cbn in Hd'. subst d'. destruct (H7 _ _ Hl) as (_ & _ & _ & Ho). destruct (wk_oldest s) as [o|]; [|done].
      destruct H4 as [(u & Hu & Huo) _]. destruct Hp as [k Hk]. rewrite Hk in tape_sorted.
      assert (Hle : tk_day t <= tk_day u); [|lia]. apply newest_days. rewrite <- app_assoc in tape_sorted.
      apply list_elem_of_split in Hu as (l1 & l2 & ->). rewrite <- app_assoc in tape_sorted. cbn in tape_sorted.
      apply (newest_suffix _ _ _ tape_sorted). set_solver.
    + apply H3. destruct (dget (wk_per_day s) (tk_day t)); [by rewrite dget_dset_ne in Hd|done].
  - intros d ts Hl. destruct (H7 d ts Hl) as (? & ? & ? & Ho). repeat split; try done. destruct (wk_oldest s); [lia|done].
Qed.

Definition previous_ok (read : list TapeTick) (s : WalkState) : Prop := wk_previous s = option_map stamp (last read).

Lemma ticks_inv ts : forall read s, walk_inv wanted tape read s -> previous_ok read s -> (read ++ ts) `prefix_of` tape ->
  exists s', walk_ticks s ts = Some s' /\ walk_inv wanted tape (read ++ ts) s' /\ previous_ok (read ++ ts) s'.
Proof using All.
  induction ts as [|t ts IH]; intros read s Hi Hp Hpre; cbn [walk_ticks]; [exists s; by rewrite app_nil_r|].
  rewrite cons_middle, app_assoc in Hpre |- *.
  destruct (tick_inv read t s Hi) as (s1 & -> & Hi1 & Hp1 & _); [by eapply prefix_app_l|done|]. rewrite bind_some. by apply IH.
Qed.

Lemma page_inv read s : walk_inv wanted tape read s -> walk_inv wanted tape read (add_page s).
Proof using. by intros []. Qed.
Lemma cursor_inv read s key : walk_inv wanted tape read s -> walk_inv wanted tape read (add_cursor s key).
Proof using. by intros []. Qed.

(** A day ready for delivery is delivered whole. *)
Definition ready (s : WalkState) (d : Z) : Prop := exists ts o, dget (wk_per_day s) d = Some ts /\ ts <> [] /\ wk_oldest s = Some o /\ o < d.

Lemma emit_inv read s d : walk_inv wanted tape read s -> ready s d -> walk_inv wanted tape read (emit_day s d).
Proof using All.
  intros [H1 H2 H3 H4 H5 H6 H7 H8] (ts & o & Hd & Hne & Ho & Hod). pose proof (H3 d ts Hd) as Hts. case_decide as Hem; [done|].
  assert (Hadd : set_add d (wk_emitted s) = d :: wk_emitted s) by (unfold set_add; by rewrite decide_False).
  split; cbn [emit_day wk_per_day wk_oldest wk_newest wk_emitted wk_log]; try done.
  - by erewrite dkeys_dset_bound.
  - intros d' ts' Hd'. rewrite Hadd. destruct (decide (d' = d)) as [->|Hdd].
    + rewrite dget_dset_eq in Hd'. injection Hd' as <-. rewrite decide_True by set_solver. done.
    + rewrite dget_dset_ne in Hd' by done. rewrite (H3 _ _ Hd'). repeat case_decide; set_solver.
  - intros d'. rewrite map_app, elem_of_app, <- H6, Hadd. cbn. set_solver.
  - intros d' ts' [Hl|Hl]%elem_of_app; [by apply H7|]. apply list_elem_of_singleton in Hl. injection Hl as -> ->. rewrite Hd, Ho.
    cbn [default from_option id]. split; [rewrite <- H2; apply list_elem_of_fmap; exists (d, ts); split; [done|by apply dget_elem]|].
    rewrite Ho in H4. destruct H4 as [(u & Hu & Huo) _]. destruct H1 as [rest Hrest].
    split; [|split; [by intros Hr; apply (f_equal (@rev _)) in Hr; rewrite rev_involutive in Hr|done]].
    rewrite Hrest, (passed read rest d u), Hts; [done|by rewrite <- Hrest|done|lia].
  - rewrite map_app. apply NoDup_app. split; [done|]. split; [|by apply NoDup_singleton]. intros x Hx ->%list_elem_of_singleton.
    by apply Hem, H6.
Qed.

Section Loop.
Context {W E : Type} (fetch : option string -> W -> W * fetched E) (deliver : option (Z -> list TapeTick -> W -> W * option E)).

Lemma deliver_inv (f : Z -> list TapeTick -> W -> W * option E) read days : forall w s w' s' e, NoDup days -> Forall (ready s) days -> walk_inv wanted tape read s ->
  deliver_days f days w s = (w', s', e) ->
  walk_inv wanted tape read s' /\ wk_oldest s' = wk_oldest s /\ wk_previous s' = wk_previous s.
Proof using All.
  induction days as [|d days IH]; intros w s w' s' e Hnd HF Hi Hd; cbn [deliver_days] in Hd; [by injection Hd as <- <- <-|].
  apply NoDup_cons in Hnd as [Hni Hnd]. apply Forall_cons in HF as [Hr HF].
  destruct (f d _ w) as [w1 [e1|]]; [by injection Hd as <- <- <-|].
  apply (IH w1 (emit_day s d) w' s' e); [done| |by apply emit_inv|done]. apply Forall_forall. intros x Hx. rewrite Forall_forall in HF.
  destruct (HF x Hx) as (ts & o & G1 & G2 & G3 & G4). exists ts, o. cbn. rewrite dget_dset_ne by set_solver. done.
Qed.

Lemma emit_days_inv read w s w' s' e : walk_inv wanted tape read s -> previous_ok read s -> emit_days deliver w s = (w', s', e) ->
  walk_inv wanted tape read s' /\ previous_ok read s'.
Proof using All.
  intros Hi Hp. unfold emit_days. destruct deliver as [f|]; [|by intros [= <- <- <-]].
  destruct (wk_oldest s) as [o|] eqn:Eo; [|by intros [= <- <- <-]]. intros Hd.
  unfold previous_ok. destruct (deliver_inv f read (ready_days s o) w s w' s' e) as (G1 & _ & G3); [| |done|done|by rewrite G3].
  - unfold ready_days. rewrite py_sorted_perm. eapply sublist_NoDup; [|apply sublist_map, filter_sublist].
    change (NoDup (dkeys (wk_per_day s))). by rewrite (wi_keys _ _ _ _ Hi).
  - apply Forall_forall. intros d Hx. apply py_sorted_elem, list_elem_of_fmap in Hx as ([d' ts] & -> & [Hx Hc]%filter_elem).
    bprop. exists ts, o. split; [|split; [by destruct ts|done]]. apply elem_dget; [by rewrite (wi_keys _ _ _ _ Hi)|done].
Qed.

(** ** The loop *)

(** The pages follow the tape: what comes before a cursor is fixed, each page continues there,
    and a page without a continuation ends the tape. *)
Definition serves : Prop := exists before : option string -> list TapeTick, before None = [] /\
  forall key w w' page, fetch key w = (w', FPage page) -> (before key ++ pg_ticks page) `prefix_of` tape /\
    match pg_next page with
    | Some k => before (Some k) = before key ++ pg_ticks page
    | None => before key ++ pg_ticks page = tape
    end.

Lemma loop_inv limit : serves -> forall fuel floor w w' s' r,
  walk_loop wanted limit fetch deliver fuel floor None w (walk_start wanted) = (w', s', r) ->
  exists read, walk_inv wanted tape read s' /\
    match r with
    | Ok (tape_end, _) => read = tape
    | Ok (crossed, over) => over = None /\ match wk_oldest s' with Some o => o < floor | None => False end
    | _ => True
    end.
Proof using All.
  intros (before & Hb0 & Hserve) fuel floor w w' s' r. pose proof start_inv as Hi0.
  assert (Hp0 : previous_ok [] (walk_start wanted)) by done. rewrite <- Hb0 in Hi0, Hp0. revert Hi0 Hp0.
  generalize (walk_start wanted), (@None string), w.
  induction fuel as [|fuel IH]; intros s key w0 Hi Hp Hl; cbn [walk_loop] in Hl.
  { injection Hl as <- <- <-. eauto. }
  destruct (fetch key w0) as [w1 [page| |e]] eqn:Ef; [|injection Hl as <- <- <-; eauto..].
  destruct (Hserve key w0 w1 page Ef) as [Hpre Hnext].
  destruct (ticks_inv (pg_ticks page) (before key) (add_page s)) as (s1 & Ht & Hi1 & Hp1); [by apply page_inv|done|done|].
  rewrite Ht in Hl. destruct (emit_days deliver w1 s1) as [[w2 s2] e] eqn:Ee.
  destruct (emit_days_inv _ _ _ _ _ _ Hi1 Hp1 Ee) as [Hi2 Hp2]. destruct e as [e|]; [injection Hl as <- <- <-; eauto|].
  destruct (breached_day wanted limit s2); [injection Hl as <- <- <-; eauto|].
  destruct (match wk_oldest s2 with Some o => o <? floor | None => false end) eqn:Eo.
  { injection Hl as <- <- <-. eexists. split; [exact Hi2|]. split; [done|]. destruct (wk_oldest s2); [by bprop|done]. }
  destruct (pg_next page) as [k|] eqn:En.
  - destruct (_ || _); [injection Hl as <- <- <-; eauto|]. rewrite <- Hnext in Hi2, Hp2. apply (IH (add_cursor s2 k) (Some k) w2); [by apply cursor_inv|exact Hp2|exact Hl].
  - injection Hl as <- <- <-. eexists. split; [exact Hi2|done].
Qed.
End Loop.

(** ** Certification *)

Section Certify.
Context (read : list TapeTick) (s : WalkState) (Hi : walk_inv wanted tape read s).
Let rows (d : Z) : list TapeTick := default [] (dget (wk_per_day s) d).

Lemma rows_read d : d ∈ wanted -> d ∉ wk_emitted s -> rows d = on_day d read.
Proof using All.
  intros Hd He. unfold rows. destruct (dget (wk_per_day s) d) as [ts|] eqn:E.
  - cbn. rewrite (wi_rows _ _ _ _ Hi _ _ E). by rewrite decide_False.
  - apply dget_None_keys in E. by rewrite (wi_keys _ _ _ _ Hi) in E.
Qed.

(** With an older trade read, the day's rows are the tape's. *)
Lemma older_whole d o : d ∈ wanted -> d ∉ wk_emitted s -> wk_oldest s = Some o -> o < d -> rows d = on_day d tape.
Proof using All.
  intros Hd He Ho Hod. rewrite rows_read by done. pose proof (wi_oldest _ _ _ _ Hi) as Hx. rewrite Ho in Hx. destruct Hx as [(u & Hu & Huo) _].
  destruct (wi_prefix _ _ _ _ Hi) as [rest Hrest]. rewrite Hrest. symmetry. apply (passed read rest d u); [by rewrite <- Hrest|done|lia].
Qed.

Lemma certify_complete term over d ts : (d, ts) ∈ tw_complete (certify wanted s term over) ->
  d ∈ wanted /\ d ∉ wk_emitted s /\ ts = rev (on_day d tape) /\ ts <> [].
Proof using All.
  intros Hx. assert (Hy : (d, ts) ∈ map (fun d => (d, rev (rows d))) (List.filter (fun d => negb (bool_decide (length (rows d) = 0%nat)) &&
      match wk_oldest s with Some o => o <? d | None => false end) (List.filter (fun d => match over with None => true | Some o => o <? d end)
      (List.filter (fun d => negb (bool_decide (d ∈ wk_emitted s))) wanted)))).
  { unfold certify in Hx. destruct term, (wk_oldest s); cbn [tw_complete] in Hx; try exact Hx. by apply filter_elem in Hx as [Hx _]. }
  apply list_elem_of_fmap in Hy as (d' & [= -> ->] & [Hf Hc]%filter_elem). apply filter_elem in Hf as [Hf _]. apply filter_elem in Hf as [Hw He].
  destruct (wk_oldest s) as [o|] eqn:Eo; bprop; [|done]. split; [done|]. split; [done|].
  rewrite (older_whole d' o) by done. split; [done|]. rewrite <- (older_whole d' o) by done. intros Hr. apply (f_equal (@rev _)) in Hr.
  rewrite rev_involutive in Hr. match goal with H : length (rows d') <> _ |- _ => apply H end. by rewrite Hr.
Qed.

Lemma certify_empty term over d : (term = tape_end -> read = tape) -> d ∈ tw_vendor_empty (certify wanted s term over) ->
  d ∈ wanted /\ d ∉ wk_emitted s /\ on_day d tape = [].
Proof using All.
  intros Hend Hx. assert (Hy : (d ∈ wanted /\ d ∉ wk_emitted s /\ length (rows d) = 0%nat) /\
    ((exists o, wk_oldest s = Some o /\ o < d) \/ read = tape)).
  { unfold certify in Hx. destruct term, (wk_oldest s) as [o|] eqn:Eo; cbn [tw_vendor_empty] in Hx;
      try (apply filter_elem in Hx as [Hx Hc]; apply filter_elem in Hx as [Hx _]; apply filter_elem in Hx as [Hx He]; bprop; naive_solver).
    apply elem_of_app in Hx as [Hx|Hx].
    - apply filter_elem in Hx as [Hx _]. apply filter_elem in Hx as [Hx Hc]. apply filter_elem in Hx as [Hx _]. apply filter_elem in Hx as [Hx He].
      bprop. naive_solver.
    - apply filter_elem in Hx as [Hx Hc]. apply filter_elem in Hx as [Hx He]. bprop. auto. }
  destruct Hy as ((Hw & He & Hl) & [(o & Ho & Hod)|Hread]); (split; [done|]; split; [done|]).
  - rewrite <- (older_whole d o) by done. by apply nil_length_inv.
  - rewrite <- Hread, <- rows_read by done. by apply nil_length_inv.
Qed.

Lemma newest_bound n t : wk_newest s = Some n -> t ∈ tape -> tk_day t <= n.
Proof using All.
  intros Hn Ht. pose proof (wi_newest _ _ _ _ Hi) as Hx. rewrite Hn in Hx. destruct Hx as [(u & Hu & Hun) Hall].
  destruct (wi_prefix _ _ _ _ Hi) as [rest Hrest]. rewrite Hrest in Ht. apply elem_of_app in Ht as [Ht|Ht]; [by apply Hall|].
  apply list_elem_of_split in Hu as (l1 & l2 & ->). rewrite Hrest, <- app_assoc in tape_sorted. cbn in tape_sorted.
  pose proof (newest_days _ _ (newest_suffix _ _ _ tape_sorted t ltac:(set_solver))). lia.
Qed.

Lemma certify_settles d o t : d ∈ wanted -> wk_oldest s = Some o -> o < d -> t ∈ tape -> d <= tk_day t ->
  let w := certify wanted s crossed None in d ∈ tw_emitted w \/ d ∈ map fst (tw_complete w) \/ d ∈ tw_vendor_empty w.
Proof using All.
  intros Hd Ho Hod Ht Hdt. unfold certify. cbn [tw_emitted tw_complete tw_vendor_empty]. rewrite Ho.
  destruct (decide (d ∈ wk_emitted s)) as [|He]; [by left|]. right.
  assert (Hel : d ∈ List.filter (fun d => true) (List.filter (fun d => negb (bool_decide (d ∈ wk_emitted s))) wanted)).
  { rewrite !filter_elem. by rewrite bool_decide_false. }
  assert (Hn : exists n, wk_newest s = Some n).
  { destruct (wk_newest s) as [n|] eqn:E; [eauto|]. pose proof (wi_newest _ _ _ _ Hi) as Hx. pose proof (wi_oldest _ _ _ _ Hi) as Hy.
    rewrite E in Hx. rewrite Ho in Hy. destruct Hy as [(u & Hu & _) _]. rewrite Hx in Hu. by apply elem_of_nil in Hu. }
  destruct Hn as [n Hn]. pose proof (newest_bound n t Hn Ht) as Hle. rewrite Hn. fold (rows d).
  destruct (decide (length (rows d) = 0%nat)) as [Hl|Hl].
  - right. apply filter_elem. split; [done|]. fold (rows d). rewrite (bool_decide_true _ Hl). cbn [negb andb].
    apply andb_true_iff. split; [|by apply Z.ltb_lt]. apply Z.ltb_lt. destruct (decide (d = n)) as [->|]; [|lia]. exfalso.
    pose proof (wi_newest _ _ _ _ Hi) as Hx. rewrite Hn in Hx. destruct Hx as [(u & Hu & Hun) _].
    rewrite rows_read in Hl by done. apply nil_length_inv in Hl. assert (Hin : u ∈ on_day n read) by (apply filter_elem; split; [done|lia]).
    rewrite Hl in Hin. by apply elem_of_nil in Hin.
  - left. rewrite map_map. apply list_elem_of_fmap. exists d. split; [done|]. apply filter_elem. split; [done|]. fold (rows d).
    rewrite (bool_decide_false _ Hl). cbn [negb andb]. by apply Z.ltb_lt.
Qed.
End Certify.
End WalkFacts.

Lemma zmin_list_le l x y : y ∈ x :: l -> zmin_list l x <= y.
Proof.
  induction l as [|z l IH]; intros Hy; [apply list_elem_of_singleton in Hy; cbn; lia|].
  change (zmin_list (z :: l) x) with (Z.min z (zmin_list l x)). destruct (decide (y = z)) as [->|]; [lia|].
  assert (y ∈ x :: l) by set_solver. specialize (IH ltac:(done)). lia.
Qed.

(** What a walk keeps of the caller's state along its deliveries, and what is left when it raises. *)
Section World.
Context {W E : Type} (I : list (Z * list TapeTick) -> W -> Prop) (F : W -> Prop).
Context (fetch : option string -> W -> W * fetched E) (deliver : option (Z -> list TapeTick -> W -> W * option E)).
Context (keeps_left : forall log w, I log w -> F w).
Context (fetch_keeps : forall log key w, I log w -> I log (fst (fetch key w))).
Context (deliver_keeps : forall f log d ts w, deliver = Some f -> I log w ->
  match f d ts w with (w', None) => I (log ++ [(d, ts)]) w' | (w', Some _) => F w' end).

Lemma walk_ticks_log ts : forall s s', walk_ticks s ts = Some s' -> wk_log s' = wk_log s.
Proof.
  induction ts as [|t ts IH]; intros s s'; cbn [walk_ticks]; [by intros [= <-]|]. unfold walk_tick.
  destruct (match wk_previous s with Some p => _ | None => _ end); [done|]. rewrite bind_some. intros Hw. by rewrite (IH _ _ Hw).
Qed.

Lemma deliver_world f days : deliver = Some f -> forall w s w' s' e, I (wk_log s) w -> deliver_days f days w s = (w', s', e) ->
  match e with None => I (wk_log s') w' | Some _ => F w' end.
Proof using deliver_keeps.
  intros Hf. induction days as [|d days IH]; intros w s w' s' e Hi; cbn [deliver_days]; [by intros [= <- <- <-]|].
  pose proof (deliver_keeps f (wk_log s) d (rev (default [] (dget (wk_per_day s) d))) w Hf Hi) as Hd.
  destruct (f d _ w) as [w1 [e1|]]; [by intros [= <- <- <-]|]. apply IH. exact Hd.
Qed.

Lemma loop_world wanted limit fuel : forall floor key w s w' s' r, I (wk_log s) w ->
  walk_loop wanted limit fetch deliver fuel floor key w s = (w', s', r) -> match r with Ok _ => I (wk_log s') w' | Raise _ => F w' end.
Proof using All.
  induction fuel as [|fuel IH]; intros floor key w s w' s' r Hi; cbn [walk_loop]; [by intros [= <- <- <-]|].
  pose proof (fetch_keeps (wk_log s) key w Hi) as Hf. destruct (fetch key w) as [w1 [page| |e]]; cbn [fst] in Hf;
    [|intros [= <- <- <-]; by try eapply keeps_left..].
  destruct (walk_ticks (add_page s) (pg_ticks page)) as [s1|] eqn:Et; [|intros [= <- <- <-]; by eapply keeps_left].
  apply walk_ticks_log in Et. cbn in Et. rewrite <- Et in Hf. destruct (emit_days deliver w1 s1) as [[w2 s2] e] eqn:Ee.
  assert (H2 : match e with None => I (wk_log s2) w2 | Some _ => F w2 end).
  { unfold emit_days in Ee. assert (Hd : forall f days, deliver = Some f -> deliver_days f days w1 s1 = (w2, s2, e) ->
      match e with None => I (wk_log s2) w2 | Some _ => F w2 end) by (intros; by eapply deliver_world).
    destruct deliver as [f|]; [|by injection Ee as <- <- <-].
    destruct (wk_oldest s1); [by eapply Hd|by injection Ee as <- <- <-]. }
  destruct e; [by intros [= <- <- <-]|]. destruct (breached_day wanted limit s2); [by intros [= <- <- <-]|].
  destruct (match wk_oldest s2 with Some o => o <? floor | None => false end); [by intros [= <- <- <-]|].
  destruct (pg_next page); [|by intros [= <- <- <-]]. destruct (_ || _); [intros [= <- <- <-]; by eapply keeps_left|]. apply IH. exact H2.
Qed.

Lemma walk_world wanted limit max_pages w w' log r : I [] w ->
  walk_symbol_tape wanted limit fetch deliver max_pages w = (w', log, r) -> match r with Ok _ => I log w' | Raise _ => F w' end.
Proof using All.
  intros Hi. unfold walk_symbol_tape. destruct (max_pages <? 1); [intros [= <- <- <-]; by eapply keeps_left|].
  destruct wanted as [|d ds]; [by intros [= <- <- <-]|]. destruct (walk_loop _ _ _ _ _ _ _ _ _) as [[w1 s1] r1] eqn:El.
  apply loop_world in El; [|exact Hi]. destruct r1 as [[te ov]|e]; intros [= <- <- <-]; exact El.
Qed.
End World.

(** What a walk shows of the tape, whatever stops it, whatever calls fail and whether or not
    days are delivered on the way. *)
Lemma walk_facts {W E} wanted limit (fetch : option string -> W -> W * fetched E) deliver max_pages tape w w' log r :
  NoDup wanted -> newest_first tape -> serves tape fetch ->
  walk_symbol_tape wanted limit fetch deliver max_pages w = (w', log, r) ->
  (forall d ts, (d, ts) ∈ log -> d ∈ wanted /\ ts = rev (on_day d tape) /\ ts <> []) /\ NoDup (map fst log) /\
  forall walk, r = Ok walk ->
    (forall d ts, (d, ts) ∈ tw_complete walk -> d ∈ wanted /\ d ∉ tw_emitted walk /\ ts = rev (on_day d tape) /\ ts <> []) /\
    (forall d, d ∈ tw_vendor_empty walk -> d ∈ wanted /\ d ∉ tw_emitted walk /\ on_day d tape = []) /\
    (forall d, d ∈ tw_emitted walk <-> d ∈ map fst log) /\
    (tw_termination walk = crossed -> forall d t, d ∈ wanted -> t ∈ tape -> d <= tk_day t ->
       d ∈ tw_emitted walk \/ d ∈ map fst (tw_complete walk) \/ d ∈ tw_vendor_empty walk).
Proof.
  intros Hnd Hsort Hserve. unfold walk_symbol_tape. destruct (max_pages <? 1); [intros [= <- <- <-]; split; [set_solver|split; [constructor|done]]|].
  destruct wanted as [|d0 ds] eqn:Ew.
  { intros [= <- <- <-]. split; [set_solver|]. split; [constructor|]. intros walk [= <-]. cbn. repeat split; set_solver. }
  rewrite <- Ew in *. destruct (walk_loop _ _ _ _ _ _ _ _ _) as [[w1 s] r1] eqn:El. intros Hres.
  destruct (loop_inv wanted tape Hnd Hsort fetch deliver limit Hserve _ _ _ _ _ _ El) as (read & Hi & Hr).
  assert (Hlog : forall d ts, (d, ts) ∈ wk_log s -> d ∈ wanted /\ ts = rev (on_day d tape) /\ ts <> []).
  { intros d ts Hx. destruct (wi_log _ _ _ _ Hi d ts Hx) as (H1 & H2 & H3 & _). done. }
  destruct r1 as [[term over]|e]; injection Hres as <- <- <-; (split; [exact Hlog|]; split; [exact (wi_once _ _ _ _ Hi)|]); [|done]. intros walk [= <-].
  assert (Hem : tw_emitted (certify wanted s term over) = wk_emitted s) by (unfold certify; by destruct term, (wk_oldest s)).
  rewrite Hem. split; [|split; [|split]].
  - intros d ts Hx. by eapply certify_complete.
  - intros d Hx. apply (certify_empty wanted tape Hnd Hsort read s Hi term over d); [by intros ->|done].
  - intros d. apply (wi_emitted _ _ _ _ Hi).
  - intros Hterm d t Hd Ht Hdt. assert (term = crossed) as -> by (unfold certify in Hterm; by destruct term, (wk_oldest s)).
    destruct Hr as [-> Hr]. destruct (wk_oldest s) as [o|] eqn:Eo; [|done]. rewrite <- Hem.
    assert (Hfloor : zmin_list ds d0 <= d) by (apply zmin_list_le; by rewrite <- Ew).
    apply (certify_settles wanted tape Hnd Hsort read s Hi d o t); (done || lia).
Qed.

(** C31. When the pages follow a tape that is newest first, every day the walk delivers or returns as
    complete is one of the wanted days with all of its trades in chronological order, and every
    day it returns as empty has none on the tape, whatever stops the walk, whatever calls fail
    and whether or not days are delivered on the way; a day is in one class only; and a walk that went past the oldest
    wanted day has settled every wanted day up to the newest trade. *)
Theorem walk_exact {W E} wanted limit (fetch : option string -> W -> W * fetched E) deliver max_pages tape w :
  NoDup wanted -> newest_first tape -> serves tape fetch ->
  let '(_, log, r) := walk_symbol_tape wanted limit fetch deliver max_pages w in
  (forall d ts, (d, ts) ∈ log -> d ∈ wanted /\ ts = rev (on_day d tape) /\ ts <> []) /\
  forall walk, r = Ok walk ->
    (forall d ts, (d, ts) ∈ tw_complete walk -> d ∈ wanted /\ d ∉ tw_emitted walk /\ ts = rev (on_day d tape) /\ ts <> []) /\
    (forall d, d ∈ tw_vendor_empty walk -> d ∈ wanted /\ d ∉ tw_emitted walk /\ on_day d tape = []) /\
    (forall d, d ∈ tw_emitted walk <-> d ∈ map fst log) /\
    (tw_termination walk = crossed -> forall d t, d ∈ wanted -> t ∈ tape -> d <= tk_day t ->
       d ∈ tw_emitted walk \/ d ∈ map fst (tw_complete walk) \/ d ∈ tw_vendor_empty walk).
Proof.
  intros Hnd Hsort Hserve. destruct (walk_symbol_tape _ _ _ _ _ _) as [[w1 log] r] eqn:Ew. destruct (walk_facts wanted limit fetch deliver max_pages tape w w1 log r Hnd Hsort Hserve Ew) as (H1 & _ & H2). done.
Qed.

(** Two pages of a tape over three days: the newest day is cut, the second is whole, the third is left. *)
Definition demo_tape : list TapeTick :=
  [mkTapeTick 12 93000 100 5; mkTapeTick 11 152959 99 1; mkTapeTick 11 90001 98 2; mkTapeTick 9 151000 97 4].
Definition demo_fetch (key : option string) (calls : nat) : nat * fetched unit :=
  (S calls,
   match key with
   | None => FPage (mkPage (take 2 demo_tape) (Some "k1"))
   | Some k => if bool_decide (k = "k1") then FPage (mkPage (drop 2 demo_tape) (Some "k2")) else FBoundary
   end).
Definition demo_deliver (_ : Z) (_ : list TapeTick) (calls : nat) : nat * option unit := (calls, None).

Lemma walk_exact_witness :
  walk_symbol_tape [11; 10] (Some 10) demo_fetch (Some demo_deliver) 5 0%nat =
    (2%nat, [(11, [mkTapeTick 11 90001 98 2; mkTapeTick 11 152959 99 1])], Ok (mkTapeWalk [] [10] [] 2 crossed [11] None)) /\
  forall d ts, (d, ts) ∈ snd (fst (walk_symbol_tape [11; 10] (Some 10) demo_fetch (Some demo_deliver) 5 0%nat)) ->
    ts = rev (on_day d demo_tape).
Proof.
  split; [vm_compute; reflexivity|]. pose proof (walk_exact [11; 10] (Some 10) demo_fetch (Some demo_deliver) 5 demo_tape 0%nat) as Hw.
  destruct (walk_symbol_tape [11; 10] (Some 10) demo_fetch (Some demo_deliver) 5 0%nat) as [[w log] r]. intros d ts Hx.
  apply Hw; [| | |exact Hx].
  - repeat constructor; set_solver.
  - repeat constructor.
  - exists (fun key => match key with None => [] | Some k => if bool_decide (k = "k1") then take 2 demo_tape else demo_tape end).
    split; [done|]. intros key w1 w2 page. unfold demo_fetch. destruct key as [k|].
    + destruct (bool_decide (k = "k1")) eqn:Ek; [|done]. intros [= <- <-]. split; [by exists []|done].
    + intros [= <- <-]. split; [by exists (drop 2 demo_tape)|done].
Defined.
