(* ===== verification/TapeLedger.v ===== *)
(** * The tape ledger ([src/marketdata/tick_tape_backfill.py])

    One JSON object per line for every symbol and day the backfill settled, gave up or
    failed. The readers tolerate a torn last line; an append first repairs one. Text is
    ASCII, [json] is a codec with laws. *)
From Stdlib Require Import Ascii.
From S2P Require Import Prelude PyStr PyTime ExecJournal KisTrading.

Definition TAPE_VENDOR : string := "kiwoom".
Definition LEDGER_OK_STATUSES : list string := ["complete"; "vendor_empty"].
Definition LEDGER_ATTEMPT_STATUSES : list string := ["failed"; "edge_partial"].
Definition LEDGER_ABANDONED_STATUSES : list string := ["abandoned"].

(** A record the backfill writes; the vendor is constant. *)
Record LedgerRec := mkRec {
  lr_date : Z; lr_symbol : string; lr_status : string; lr_rows : Z; lr_run_id : string; lr_tier : string; lr_reason : option string
}.
#[global] Instance ledger_rec_eq_dec : EqDecision LedgerRec.
Proof. solve_decision. Defined.

Definition record_obj (r : LedgerRec) : list (string * json) :=
  [("date", JStr (date_isoformat (lr_date r))); ("symbol", JStr (lr_symbol r)); ("status", JStr (lr_status r));
   ("rows", JInt (lr_rows r)); ("run_id", JStr (lr_run_id r)); ("vendor", JStr TAPE_VENDOR); ("tier", JStr (lr_tier r))]
  ++ match lr_reason r with Some s => [("reason", JStr s)] | None => [] end.

(** [json.dumps(record, ensure_ascii=False)] and [json.loads]; [None] is [ValueError]. *)
Class LedgerCodec := { rec_dumps : list (string * json) -> list ascii; rec_loads : list ascii -> option json }.

(** What an append meets: nothing, an error before the file changes, or one with this many bytes written. *)
Inductive ledger_fault := LNone | LOpen | LWrite (written : nat).

Section Ledger.
Context `{LedgerCodec} (repr : json -> string) (fromisoformat : string -> option Z).

(** ** Readers *)

(** The objects of the file; [None] is the [ValueError] of a corrupt ledger. [ended]: the file ends
    with a newline. *)
Fixpoint ledger_objs (ended : bool) (lines : list (list ascii)) : option (list (list (string * json))) :=
  match lines with
  | [] => Some []
  | line :: rest =>
      match strip line with
      | [] => ledger_objs ended rest
      | stripped =>
          match rec_loads stripped with
          | None => match rest with [] => if ended then None else Some [] | _ => None end
          | Some (JObj o) => cons o <$> ledger_objs ended rest
          | Some _ => ledger_objs ended rest
          end
      end
  end.
Definition read_objs (file : option (list ascii)) : option (list (list (string * json))) :=
  match file with
  | None => Some []
  | Some contents => ledger_objs (ends_with_nl contents) (splitlines contents)
  end.

(** [str(record.get("status")) in statuses], and the symbol and date of the record. *)
Definition status_in (statuses : list string) (o : list (string * json)) : bool :=
  bool_decide (py_str repr (default JNull (dget o "status")) ∈ statuses).
Definition record_key (o : list (string * json)) : option (string * Z) :=
  s ← dget o "symbol"; d ← dget o "date"; day ← fromisoformat (py_str repr d); Some (py_str repr s, day).

(** [_read_ledger_pairs]; sets are lists without repetitions. *)
Definition read_ledger_pairs (file : option (list ascii)) (statuses : list string) : option (list (string * Z)) :=
  objs ← read_objs file; Some (fromkeys (omap record_key (List.filter (status_in statuses) objs))).
Definition read_ledger_done (file : option (list ascii)) := read_ledger_pairs file LEDGER_OK_STATUSES.
Definition read_ledger_abandoned (file : option (list ascii)) := read_ledger_pairs file LEDGER_ABANDONED_STATUSES.

(** [re.sub(r"-\d+$", "", run_id)]; the dollar also matches before a final newline. *)
Fixpoint drop_digits (l : list ascii) : list ascii :=
  match l with c :: r => if char_digit c then drop_digits r else l | [] => [] end.
Definition sub_suffix (l : list ascii) : list ascii :=
  let back := rev l in
  match back, drop_digits back with
  | c :: _, "-"%char :: r => if char_digit c then rev r else l
  | _, _ => l
  end.
Definition base_run (run_id : string) : string :=
  let l := s2l run_id in
  match rev l with
  | c :: r => if decide (c = nl) then l2s (sub_suffix (rev r) ++ [nl]) else l2s (sub_suffix l)
  | [] => ""
  end.

(** [read_ledger_attempts]: the distinct base runs of each failed symbol and day. *)
Definition count_attempt (counts : list ((string * Z) * list string)) (o : list (string * json)) : list ((string * Z) * list string) :=
  match record_key o with
  | None => counts
  | Some key =>
      let base := base_run (match dget o "run_id" with Some v => py_str repr v | None => "" end) in
      dset counts key (set_add base (default [] (dget counts key)))
  end.
Definition read_ledger_attempts (file : option (list ascii)) : option (list ((string * Z) * Z)) :=
  objs ← read_objs file;
  Some (map (fun '(key, bases) => (key, zlen bases)) (fold_left count_attempt (List.filter (status_in LEDGER_ATTEMPT_STATUSES) objs) [])).

(** ** Append *)

Definition rec_text (r : LedgerRec) : list ascii := rec_dumps (record_obj r).
Definition rec_line (r : LedgerRec) : list ascii := rec_text r ++ [nl].

(** The contents kept and what is written before the records: a tail that does not parse is cut,
    one that does is ended. *)
Definition repair_tail (contents : list ascii) : list ascii * list ascii :=
  match contents with
  | [] => ([], [])
  | _ =>
      if ends_with_nl contents then (contents, [])
      else
        let tail := default contents (after_last nl contents) in
        match rec_loads tail with
        | None => (take (length contents - length tail) contents, [])
        | Some _ => (contents, [nl])
        end
  end.

(** [_append_ledger_lines]: the file afterwards, and whether it returned. *)
Definition append_ledger_lines (fault : ledger_fault) (file : option (list ascii)) (records : list LedgerRec)
    : option (list ascii) * bool :=
  match records with
  | [] => (file, true)
  | _ =>
      let '(kept, first) := repair_tail (default [] file) in
      let payload := first ++ concat (map rec_line records) in
      match fault with
      | LNone => (Some (kept ++ payload), true)
      | LOpen => (file, false)
      | LWrite n => (Some (kept ++ take n payload), false)
      end
  end.
End Ledger.

(** ** What the ledger keeps *)

(** The text of a record is one line of JSON; no part of it but the whole is. *)
Class LedgerLaws `{LedgerCodec} := {
  rec_one_line r : one_line (rec_text r);
  rec_some r : rec_text r <> [];
  rec_strip r p : p `prefix_of` rec_text r -> p <> [] -> strip p <> [] /\ rec_loads (strip p) = rec_loads p;
  rec_back r : rec_loads (rec_text r) = Some (JObj (record_obj r));
  rec_torn r p : p `prefix_of` rec_text r -> p <> rec_text r -> rec_loads p = None
}.

Section Facts.
Context `{LedgerLaws}.

Definition recs_bytes (rs : list LedgerRec) : list ascii := concat (map rec_line rs).

(** The file holds these records: whole lines, the last one perhaps without its newline, or
    followed by a part of another. *)
Inductive ledger_holds : list ascii -> list LedgerRec -> Prop :=
| holds_lines rs : ledger_holds (recs_bytes rs) rs
| holds_last rs r : ledger_holds (recs_bytes rs ++ rec_text r) (rs ++ [r])
| holds_torn rs r p : p `prefix_of` rec_text r -> p <> [] -> p <> rec_text r -> ledger_holds (recs_bytes rs ++ p) rs.

Lemma recs_bytes_app a b : recs_bytes (a ++ b) = recs_bytes a ++ recs_bytes b.
Proof. unfold recs_bytes. by rewrite map_app, concat_app. Qed.

Lemma prefix_one_line p r : p `prefix_of` rec_text r -> one_line p.
Proof using All. intros [k Hk]. pose proof (rec_one_line r) as [H1 H2]. rewrite Hk in H1, H2. split; set_solver. Qed.

Lemma splitlines_recs rs tl : splitlines (recs_bytes rs ++ tl) = map rec_text rs ++ splitlines tl.
Proof using All.
  induction rs as [|r rs IH]; [done|]. unfold recs_bytes, rec_line. cbn [map concat]. rewrite <- !app_assoc. cbn [app].
  rewrite splitlines_line by apply rec_one_line. f_equal. apply IH.
Qed.

Lemma objs_recs ended rs rest : ledger_objs ended (map rec_text rs ++ rest) = app (map record_obj rs) <$> ledger_objs ended rest.
Proof using All.
  induction rs as [|r rs IH]; [cbn; by destruct (ledger_objs ended rest)|]. cbn [map app ledger_objs].
  destruct (rec_strip r (rec_text r)) as [Hs Hl]; [done|apply rec_some|]. destruct (strip (rec_text r)) as [|c l] eqn:E; [done|].
  rewrite Hl, rec_back, IH. by destruct (ledger_objs ended rest).
Qed.

Lemma ends_recs rs : ends_with_nl (recs_bytes rs) = true.
Proof.
  unfold ends_with_nl. destruct rs as [|r rs _] using rev_ind; [by apply bool_decide_true|].
  rewrite recs_bytes_app. unfold recs_bytes, rec_line. cbn [map concat]. rewrite app_nil_r, app_assoc, last_last. by apply bool_decide_true.
Qed.

Lemma ends_part rs p : one_line p -> p <> [] -> ends_with_nl (recs_bytes rs ++ p) = false.
Proof.
  intros [Hn _] Hp. destruct p as [|c p _] using rev_ind; [done|]. unfold ends_with_nl. rewrite app_assoc, last_last.
  apply bool_decide_false. intros ->. set_solver.
Qed.

Lemma splitlines_part p : one_line p -> p <> [] -> splitlines p = [p].
Proof. intros Hl Hp. unfold splitlines. by rewrite splitlines_go_tail by naive_solver. Qed.

(** A ledger is readable and its readers see the records it holds. *)
Lemma holds_read contents rs : ledger_holds contents rs -> read_objs (Some contents) = Some (map record_obj rs).
Proof using All.
  intros Hh. unfold read_objs. destruct Hh as [rs|rs r|rs r p Hp Hne Hpt].
  - rewrite <- (app_nil_r (recs_bytes rs)) at 2. rewrite splitlines_recs, objs_recs. cbn. by rewrite app_nil_r.
  - rewrite splitlines_recs, splitlines_part by (apply rec_one_line || apply rec_some).
    change [rec_text r] with (map rec_text [r]). rewrite <- map_app, <- (app_nil_r (map rec_text _)), objs_recs. cbn. by rewrite app_nil_r.
  - pose proof (prefix_one_line p r Hp). rewrite splitlines_recs, splitlines_part, ends_part, objs_recs by done. cbn [ledger_objs].
    destruct (rec_strip r p Hp Hne) as [Hs Hl]. destruct (strip p) as [|c l] eqn:E; [done|]. rewrite Hl, rec_torn with (r := r) by done.
    cbn. by rewrite app_nil_r.
Qed.

Lemma after_recs rs p : one_line p -> p <> [] -> default (recs_bytes rs ++ p) (after_last nl (recs_bytes rs ++ p)) = p.
Proof.
  intros [Hn _] Hp. destruct rs as [|r rs _] using rev_ind; [cbn; by rewrite after_last_none|].
  rewrite recs_bytes_app. unfold recs_bytes at 2 4, rec_line. cbn [map concat]. rewrite app_nil_r.
  replace ((recs_bytes rs ++ rec_text r ++ [nl]) ++ p) with ((recs_bytes rs ++ rec_text r) ++ nl :: p) by (by rewrite <- !app_assoc).
  by rewrite after_last_app.
Qed.

(** The repair keeps whole lines of the records, up to the newline it writes. *)
Lemma repair_holds contents rs : ledger_holds contents rs -> exists kept first, repair_tail contents = (kept, first) /\
  kept ++ first = recs_bytes rs /\ ledger_holds kept rs /\ (length first <= 1)%nat.
Proof using All.
  intros Hh. unfold repair_tail. assert (Hnil : contents = [] -> rs = []).
  { destruct Hh as [rs|rs r|rs r p Hp Hne Hpt]; [|intros [_ Hx]%app_nil; by destruct (rec_some r)|by intros [_ Hx]%app_nil].
    destruct rs as [|r rs]; [done|]. unfold recs_bytes, rec_line. cbn. intros [[_ Hx]%app_nil _]%app_nil. done. }
  destruct contents as [|c0 c1] eqn:Ec; [rewrite Hnil in * by done; exists [], []; split; [done|]; split; [done|]; split; [exact (holds_lines [])|cbn; lia]|].
  rewrite <- Ec in *. destruct Hh as [rs|rs r|rs r p Hp Hne Hpt].
  - rewrite ends_recs. eexists _, _. split; [done|]. rewrite app_nil_r. split; [done|]. split; [constructor|cbn; lia].
  - rewrite ends_part, after_recs, rec_back by (apply rec_one_line || apply rec_some). eexists _, _. split; [done|].
    split; [|split; [by apply holds_last|cbn; lia]]. rewrite recs_bytes_app. unfold recs_bytes at 3, rec_line. cbn. by rewrite app_nil_r, <- app_assoc.
  - pose proof (prefix_one_line p r Hp). rewrite ends_part, after_recs, (rec_torn r) by done. eexists _, _. split; [done|].
    rewrite length_app, Nat.add_sub, take_app_length, app_nil_r. split; [done|]. split; [constructor|cbn; lia].
Qed.

(** A part of the bytes of records after whole lines. *)
Lemma take_recs rs new : forall n, exists k, ledger_holds (recs_bytes rs ++ take n (recs_bytes new)) (rs ++ take k new).
Proof using All.
  revert rs. induction new as [|r new IH]; intros rs n.
  { exists 0%nat. unfold recs_bytes at 2. cbn. rewrite take_nil, !app_nil_r. constructor. }
  replace (recs_bytes (r :: new)) with (rec_line r ++ recs_bytes new) by done.
  destruct (decide (length (rec_line r) <= n)%nat) as [Hn|Hn].
  - destruct (IH (rs ++ [r]) (n - length (rec_line r))%nat) as [k Hk]. exists (S k).
    rewrite take_app_ge by done. cbn [take]. rewrite app_assoc. rewrite recs_bytes_app in Hk.
    replace (recs_bytes [r]) with (rec_line r) in Hk by (unfold recs_bytes; cbn; by rewrite app_nil_r).
    by rewrite (cons_middle r), (app_assoc rs).
  - rewrite take_app_le by lia. unfold rec_line in Hn |- *. rewrite length_app in Hn. cbn in Hn.
    rewrite take_app_le by lia. destruct (decide (n = length (rec_text r))) as [->|].
    + exists 1%nat. rewrite firstn_all. cbn. rewrite take_0. constructor.
    + exists 0%nat. rewrite app_nil_r. destruct n as [|n]; [rewrite take_0, app_nil_r; constructor|].
      apply (holds_torn rs r); [apply prefix_take| |].
      * destruct (rec_text r) eqn:E; [by destruct (rec_some r)|done].
      * intros Hx. apply (f_equal length) in Hx. rewrite length_take in Hx. lia.
Qed.

(** The records a ledger holds after an append: all of the new ones when it returned, and a prefix of
    them when it failed. *)
Lemma append_holds fault file rs new file' ok : ledger_holds (default [] file) rs -> append_ledger_lines fault file new = (file', ok) ->
  exists k, ledger_holds (default [] file') (rs ++ take k new) /\ (ok = true -> take k new = new).
Proof using All.
  intros Hh. unfold append_ledger_lines. destruct new as [|r0 rest] eqn:En.
  { intros [= <- <-]. exists 0%nat. by rewrite take_0, app_nil_r. }
  rewrite <- En. clear En r0 rest. destruct (repair_holds _ _ Hh) as (kept & first & -> & Hb & Hk & Hf). fold (recs_bytes new).
  destruct fault as [| |n]; intros [= <- <-]; cbn [default from_option id].
  - exists (length new). rewrite firstn_all, app_assoc, Hb, <- recs_bytes_app. split; [constructor|done].
  - exists 0%nat. rewrite take_0, app_nil_r. by split.
  - destruct (decide (n <= length first)%nat) as [Hn|Hn].
    + exists 0%nat. rewrite take_0, app_nil_r. split; [|done]. rewrite take_app_le by lia.
      destruct (decide (n = length first)) as [->|]; [rewrite firstn_all, Hb; constructor|].
      assert (n = 0%nat) as -> by lia. by rewrite take_0, app_nil_r.
    + destruct (take_recs rs new (n - length first)) as [k Hk']. exists k. split; [|done].
      by rewrite take_app_ge, app_assoc, Hb by lia.
Qed.
End Facts.
