(* ===== verification/TapeBackfill.v ===== *)
(** * The tape backfill ([src/marketdata/tick_tape_backfill.py], [run_tick_tape_backfill])

    A run walks the tapes of its targets page by page, stages the days an older trade
    proves whole as files, and publishes them at checkpoints: first the partitions of the
    days, then the records of the ledger. The clock, the stop flag, the token store, the
    pacer, the vendor and the disk are the run's environment; a killed run is an exception
    nothing catches, met at a disk operation. Log lines, sleeping and request timeouts are
    left out. *)
From Stdlib Require Import Ascii.
From S2P Require Import Prelude PyStr PyTime ExecJournal KisTrading KiwoomPages RepairMerge TapeWalk TapeLedger.

Record TickTapeTarget := mkTarget { tg_symbol : string; tg_days : list Z; tg_tier : string }.
Record TickTapeSettings := mkTapeSettings {
  ts_enabled : bool; ts_max_pages : Z; ts_window_start : Z; ts_window_end : Z; ts_max_ticks : Z; ts_transient_retries : nat; ts_retry_passes : nat
}.
Record TickTapeOverflow := mkOverflow { ov_enabled : bool; ov_max_symbols : Z; ov_deadline : Z }.
Record TickTapeRunSummary := mkTapeSummary {
  su_status : string; su_reason : option string; su_symbols : Z; su_symbol_days : Z; su_pages : Z; su_edge_partial : Z;
  su_failed : Z; su_oversize : Z; su_retried : Z
}.

(** The exceptions of a run; [EKilled] ends the process at once. *)
Inductive run_exc :=
| EBoundary | ERunAuth | EThrottle | ETransient | EPersist | ECDeadline
| EVendor | EDisk (name : string) | EOther (name : string) | EKilled.
#[global] Instance run_exc_eq_dec : EqDecision run_exc.
Proof. solve_decision. Defined.
Definition exc_name (e : run_exc) : string :=
  match e with
  | EBoundary => "TapeBoundaryError" | ERunAuth => "_RunAuthError" | EThrottle => "_SymbolThrottleError"
  | ETransient => "_SymbolTransientError" | EPersist => "_PersistenceError" | ECDeadline => "_CDeadlineError"
  | EVendor => "KiwoomTickTapeError" | EDisk name => name | EOther name => name | EKilled => "KILLED"
  end.

(** What a disk operation meets: an error or the end of the process, with nothing done or with the
    operation done (for an append: nothing touched, or this many bytes less one written). *)
Inductive disk_fault := DNone | DFail (done : nat) (name : string) | DKill (done : nat).
(** What the token store does: answer, fail, or ask the vendor for a token. *)
Inductive token_step := TStored (token : string) | TStoreFail | TIssue (answer : option string).

Record RunEnv := mkEnv {
  ev_clock : nat -> bool * datetime;                        (* should_stop() and now() *)
  ev_token : nat -> token_step;
  ev_pace : nat -> option string;                           (* an exception of limiter.acquire() *)
  ev_post : nat -> string -> option string -> posted;       (* the n-th request: symbol and cursor *)
  ev_disk : nat -> disk_fault
}.

Abbreviation chunk_key := (Z * string)%type.
Record RunState := mkRun {
  (* the environment so far *)
  r_clock : nat; r_tokens : nat; r_paces : nat; r_posts : nat; r_ops : nat;
  (* the disk *)
  r_chunks : list (chunk_key * list TapeRec); r_parts : list ((Z * string) * list TapeRec); r_ledger : option (list ascii);
  (* the variables of the run *)
  r_token : option string; r_auth_retried : bool; r_pages : Z; r_stop : bool;
  r_queue : list LedgerRec; r_staged : list (Z * list chunk_key); r_staged_rows : Z; r_checkpoint : Z;
  r_started : Z; r_committed : Z; r_edge : Z; r_oversize : Z; r_retried : Z; r_abort_failed : Z;
  r_failures : list (string * run_exc); r_pending : list string
}.
Abbreviation runm := (stx RunState run_exc).

Definition set_env s a b c d e := mkRun a b c d e (r_chunks s) (r_parts s) (r_ledger s) (r_token s) (r_auth_retried s) (r_pages s) (r_stop s)
  (r_queue s) (r_staged s) (r_staged_rows s) (r_checkpoint s) (r_started s) (r_committed s) (r_edge s) (r_oversize s) (r_retried s) (r_abort_failed s) (r_failures s) (r_pending s).
Definition set_disk s ch p l := mkRun (r_clock s) (r_tokens s) (r_paces s) (r_posts s) (r_ops s) ch p l (r_token s) (r_auth_retried s) (r_pages s) (r_stop s)
  (r_queue s) (r_staged s) (r_staged_rows s) (r_checkpoint s) (r_started s) (r_committed s) (r_edge s) (r_oversize s) (r_retried s) (r_abort_failed s) (r_failures s) (r_pending s).
Definition set_auth s t a pages stop := mkRun (r_clock s) (r_tokens s) (r_paces s) (r_posts s) (r_ops s) (r_chunks s) (r_parts s) (r_ledger s) t a pages stop
  (r_queue s) (r_staged s) (r_staged_rows s) (r_checkpoint s) (r_started s) (r_committed s) (r_edge s) (r_oversize s) (r_retried s) (r_abort_failed s) (r_failures s) (r_pending s).
Definition set_stage s q st rows cp := mkRun (r_clock s) (r_tokens s) (r_paces s) (r_posts s) (r_ops s) (r_chunks s) (r_parts s) (r_ledger s) (r_token s) (r_auth_retried s) (r_pages s) (r_stop s)
  q st rows cp (r_started s) (r_committed s) (r_edge s) (r_oversize s) (r_retried s) (r_abort_failed s) (r_failures s) (r_pending s).
Definition set_counts s a b c d e f := mkRun (r_clock s) (r_tokens s) (r_paces s) (r_posts s) (r_ops s) (r_chunks s) (r_parts s) (r_ledger s) (r_token s) (r_auth_retried s) (r_pages s) (r_stop s)
  (r_queue s) (r_staged s) (r_staged_rows s) (r_checkpoint s) a b c d e f (r_failures s) (r_pending s).
Definition set_failures s f p := mkRun (r_clock s) (r_tokens s) (r_paces s) (r_posts s) (r_ops s) (r_chunks s) (r_parts s) (r_ledger s) (r_token s) (r_auth_retried s) (r_pages s) (r_stop s)
  (r_queue s) (r_staged s) (r_staged_rows s) (r_checkpoint s) (r_started s) (r_committed s) (r_edge s) (r_oversize s) (r_retried s) (r_abort_failed s) f p.

(** [try]: the exception as a value, unless the process is gone. *)
Definition attempt {A} (c : runm A) : runm (res run_exc A) :=
  fun s => match c s with
           | (s, Raise EKilled) => (s, Raise EKilled)
           | (s, r) => (s, Ok r)
           end.

(** [wall_time] in the window, which may cross midnight. *)
Definition in_window (start end_ wall : Z) : bool :=
  if start <? end_ then (start <=? wall) && (wall <? end_) else (start <=? wall) || (wall <? end_).
(** [_seconds_since]. *)
Definition seconds_since (moment origin : Z) : Z := (moment - origin) mod day_us.

(** The rows of a staged day. *)
Fixpoint day_rows (symbol label : string) (n : Z) (ticks : list TapeTick) : list TapeRec :=
  match ticks with
  | [] => []
  | t :: ticks => mkTapeRec symbol (tk_hms t) (tk_price t) (tk_volume t) n label :: day_rows symbol label (n + 1) ticks
  end.

Section Run.
Context `{LedgerCodec} (repr : json -> string) (settings : TickTapeSettings) (overflow : option TickTapeOverflow)
  (deadline : datetime) (run_id : string) (env : RunEnv).

(** ** Time and requests *)

Definition now_reading : runm (bool * datetime) :=
  fun s => (set_env s (S (r_clock s)) (r_tokens s) (r_paces s) (r_posts s) (r_ops s), Ok (ev_clock env (r_clock s))).

(** [_boundary]. *)
Definition boundary : runm unit :=
  (reading <- now_reading;;
   let '(stop, now) := reading in
   if (stop : bool) then smod (fun s => set_auth s (r_token s) (r_auth_retried s) (r_pages s) true);;; sraise EBoundary
   else
     s <- sget;;
     if (ts_max_pages settings <=? r_pages s) || (instant deadline <=? instant now)
        || negb (in_window (ts_window_start settings) (ts_window_end settings) (time_of (astimezone_kst now)))
     then sraise EBoundary else sret tt)%py.
(** [_sleep_bounded]. *)
Definition sleep_bounded : runm unit := (boundary;;; boundary)%py.

(** [_c_deadline_reached]. *)
Definition c_deadline_reached : runm bool :=
  match overflow with
  | Some ov =>
      if ov_enabled ov then
        (reading <- now_reading;;
         sret (seconds_since (ov_deadline ov) (ts_window_start settings)
               <=? seconds_since (time_of (astimezone_kst (snd reading))) (ts_window_start settings)))%py
      else sret false
  | None => sret false
  end.

(** [token_store.get_or_issue] and [replace_rejected] over [_issue_bounded]. *)
Definition ask_token : runm unit :=
  (s <- sget;;
   smod (fun s => set_env s (r_clock s) (S (r_tokens s)) (r_paces s) (r_posts s) (r_ops s));;;
   t <- match ev_token env (r_tokens s) with
        | TStored t => sret t
        | TStoreFail => sraise ERunAuth
        | TIssue answer => boundary;;; match answer with Some t => sret t | None => sraise ERunAuth end
        end;;
   smod (fun s => set_auth s (Some t) (r_auth_retried s) (r_pages s) (r_stop s)))%py.

Definition pace : runm unit :=
  (s <- sget;;
   smod (fun s => set_env s (r_clock s) (r_tokens s) (S (r_paces s)) (r_posts s) (r_ops s));;;
   match ev_pace env (r_paces s) with Some name => sraise (EOther name) | None => sret tt end)%py.

Definition post (symbol : string) (key : option string) : runm (res kiwoom_exc TickPage) :=
  fun s => (set_auth (set_env s (r_clock s) (r_tokens s) (r_paces s) (S (r_posts s)) (r_ops s))
              (r_token s) (r_auth_retried s) (r_pages s + 1) (r_stop s),
            Ok (fetch_tick_page repr (ev_post env (r_posts s) symbol key))).

(** [_fetch]; the fuel is never used up ([fetch_fuel]). *)
Fixpoint fetch (fuel : nat) (symbol : string) (key : option string) (throttles transients : nat) : runm TickPage :=
  match fuel with
  | O => sraise (EOther "RecursionError")
  | S fuel =>
      (boundary;;;
       s <- sget;;
       (match r_token s with None => ask_token | Some _ => sret tt end);;;
       pace;;;
       boundary;;;
       r <- post symbol key;;
       match r with
       | Ok page => sret page
       | Raise Throttled =>
           if (3 <? S throttles)%nat then sraise EThrottle
           else sleep_bounded;;; fetch fuel symbol key (S throttles) transients
       | Raise AuthRejected =>
           s <- sget;;
           if r_auth_retried s then sraise ERunAuth
           else smod (fun s => set_auth s (r_token s) true (r_pages s) (r_stop s));;; ask_token;;; fetch fuel symbol key throttles transients
       | Raise TransientError =>
           if (ts_transient_retries settings <? S transients)%nat then sraise ETransient
           else sleep_bounded;;; fetch fuel symbol key throttles (S transients)
       | Raise _ => sraise EVendor
       end)%py
  end.
Definition fetch_fuel : nat := 6 + ts_transient_retries settings.

(** ** Disk *)

(** A disk operation with effect [eff], unless the disk refuses it by an exception of its own. *)
Definition disk_op (refused : RunState -> option string) (eff : RunState -> RunState) : runm unit :=
  fun s =>
    let s1 := set_env s (r_clock s) (r_tokens s) (r_paces s) (r_posts s) (S (r_ops s)) in
    let done n := match n with O => s1 | S _ => match refused s1 with None => eff s1 | Some _ => s1 end end in
    match ev_disk env (r_ops s) with
    | DKill n => (done n, Raise EKilled)
    | DFail n name => (done n, Raise (EDisk name))
    | DNone => match refused s1 with None => (eff s1, Ok tt) | Some name => (s1, Raise (EDisk name)) end
    end.

Definition label (s : RunState) : string :=
  if r_checkpoint s =? 0 then run_id else String.append run_id (String.append "-" (str_of_Z (r_checkpoint s))).

(** [_write_day_chunk]: the file is replaced at once. *)
Definition write_day_chunk (symbol lbl : string) (day : Z) (ticks : list TapeTick) : runm unit :=
  disk_op (fun _ => None) (fun s => set_disk s (dset (r_chunks s) (day, symbol) (day_rows symbol lbl 0 ticks)) (r_parts s) (r_ledger s)).
(** [chunk.unlink(missing_ok=True)] and [part.unlink()]. *)
Definition unlink (missing_ok : bool) (k : chunk_key) : runm unit :=
  disk_op (fun s => if missing_ok || dmem (r_chunks s) k then None else Some "FileNotFoundError") (fun s => set_disk s (ddel (r_chunks s) k) (r_parts s) (r_ledger s)).

(** [pl.scan_parquet(parts).sink_parquet(tmp)] and [_publish_partition]: the link refuses an existing name. *)
Definition publish_day (lbl : string) (e : Z * list chunk_key) : runm unit :=
  disk_op (fun s => if negb (forallb (dmem (r_chunks s)) (snd e)) then Some "FileNotFoundError"
                    else if dmem (r_parts s) (fst e, lbl) then Some "FileExistsError" else None)
    (fun s => set_disk s (r_chunks s)
       (dset (r_parts s) (fst e, lbl) (concat (map (fun k => default [] (dget (r_chunks s) k)) (snd e)))) (r_ledger s)).

(** The append of the queue to the ledger. *)
Definition append_queue : runm unit :=
  fun s =>
    let s1 := set_env s (r_clock s) (r_tokens s) (r_paces s) (r_posts s) (S (r_ops s)) in
    match r_queue s with
    | [] => (s, Ok tt)
    | _ =>
        let file fault := set_disk s1 (r_chunks s) (r_parts s) (fst (append_ledger_lines fault (r_ledger s) (r_queue s))) in
        let partial n := match n with O => LOpen | S n => LWrite n end in
        match ev_disk env (r_ops s) with
        | DNone => (file LNone, Ok tt)
        | DFail n name => (file (partial n), Raise (EDisk name))
        | DKill n => (file (partial n), Raise EKilled)
        end
    end.

Definition day_leb (a b : Z * list chunk_key) : bool := fst a <=? fst b.
Definition ok_record (r : LedgerRec) : bool := bool_decide (lr_status r ∈ LEDGER_OK_STATUSES).

(** [_checkpoint]. *)
Definition checkpoint : runm unit :=
  (s <- sget;;
   match r_staged s, r_queue s with
   | [], [] => sret tt
   | _, _ =>
       each (publish_day (label s)) (py_sorted day_leb (r_staged s));;;
       each (unlink false) (concat (map snd (r_staged s)));;;
       append_queue;;;
       smod (fun s => set_stage (set_counts s (r_started s) (r_committed s + zlen (List.filter ok_record (r_queue s))) (r_edge s) (r_oversize s) (r_retried s) (r_abort_failed s))
                        [] [] 0 (r_checkpoint s + 1))
   end)%py.

(** ** One target *)

Definition enqueue (rs : list LedgerRec) : runm unit :=
  smod (fun s => set_stage s (r_queue s ++ rs) (r_staged s) (r_staged_rows s) (r_checkpoint s)).
(** [_abandon_tier_c]. *)
Definition abandon_tier_c (t : TickTapeTarget) (reason : string) : runm unit :=
  enqueue (map (fun day => mkRec day (tg_symbol t) "abandoned" 0 run_id (tg_tier t) (Some reason)) (tg_days t)).

(** The callbacks of the walk; its state is the run and the days staged so far. *)
Abbreviation walk_world := (RunState * list (Z * Z))%type.
Definition fetch_page (t : TickTapeTarget) (key : option string) (w : walk_world) : walk_world * fetched run_exc :=
  let call : runm TickPage :=
    (late <- (if bool_decide (tg_tier t = "C") then c_deadline_reached else sret false);;
     if (late : bool) then sraise ECDeadline else fetch fetch_fuel (tg_symbol t) key 0 0)%py in
  match call (fst w) with
  | (s, Ok page) => ((s, snd w), FPage page)
  | (s, Raise EBoundary) => ((s, snd w), FBoundary)
  | (s, Raise e) => ((s, snd w), FFail e)
  end.
Definition stage_day (t : TickTapeTarget) (lbl : string) (day : Z) (ticks : list TapeTick) (w : walk_world) : walk_world * option run_exc :=
  match write_day_chunk (tg_symbol t) lbl day ticks (fst w) with
  | (s, Ok _) => ((s, snd w ++ [(day, zlen ticks)]), None)
  | (s, Raise EKilled) => ((s, snd w), Some EKilled)
  | (s, Raise _) => ((s, snd w), Some EPersist)
  end.

Definition stage_chunk (t : TickTapeTarget) (lbl : string) (s : RunState) (c : Z * Z) : RunState :=
  set_stage s (r_queue s ++ [mkRec (fst c) (tg_symbol t) "complete" (snd c) lbl (tg_tier t) None])
    (dset (r_staged s) (fst c) (default [] (dget (r_staged s) (fst c)) ++ [(fst c, tg_symbol t)])) (r_staged_rows s + snd c) (r_checkpoint s).
Definition day_records (t : TickTapeTarget) (lbl status : string) (days : list Z) : list LedgerRec :=
  map (fun day => mkRec day (tg_symbol t) status 0 lbl (tg_tier t) None) (py_sorted Z.leb days).

Definition walk_exception (e : walk_exc run_exc) : run_exc :=
  match e with WValueError => EOther "ValueError" | WTapeError => EVendor | WRaised e => e end.

(** [_process_target]. *)
Definition process_target (t : TickTapeTarget) : runm TapeWalk :=
  fun s =>
    let lbl := label s in
    match walk_symbol_tape (fromkeys (tg_days t)) (Some (ts_max_ticks settings)) (fetch_page t) (Some (stage_day t lbl))
            (ts_max_pages settings - r_pages s) (s, []) with
    | ((s, chunks), _, Ok walk) =>
        (smod (fun s => fold_left (stage_chunk t lbl) chunks s);;;
         enqueue (day_records t lbl "vendor_empty" (tw_vendor_empty walk));;;
         enqueue (day_records t lbl "edge_partial" (List.filter (fun d => bool_decide (d ∈ tg_days t)) (tw_edge_partial walk)));;;
         sret walk)%py s
    | ((s, chunks), _, Raise e) =>
        let e := walk_exception e in
        if decide (e = EKilled) then (s, Raise EKilled)
        else (each (unlink true) (map (fun c => (fst c, tg_symbol t)) chunks);;; sraise e)%py s
    end.

(** ** The run *)

(** [_settle_success]. *)
Definition settle_success (walk : TapeWalk) : runm unit :=
  smod (fun s => set_counts s (r_started s) (r_committed s) (r_edge s + zlen (tw_edge_partial walk))
                   (r_oversize s + if decide (tw_termination walk = oversize) then 1 else 0) (r_retried s) (r_abort_failed s)).
Definition is_retryable (e : run_exc) : bool := match e with ETransient | EThrottle => true | _ => false end.

Definition FLUSH_ROW_LIMIT : Z := 2000000.
Definition add_abort_failed : runm unit :=
  smod (fun s => set_counts s (r_started s) (r_committed s) (r_edge s) (r_oversize s) (r_retried s) (r_abort_failed s + 1)).
(** [_flush_if_needed]: whether the run must end. *)
Definition flush_if_needed : runm bool :=
  (s <- sget;;
   if r_staged_rows s <=? FLUSH_ROW_LIMIT then sret false
   else
     r <- attempt checkpoint;;
     match r with
     | Ok _ => sret false
     | Raise _ => add_abort_failed;;; sret true
     end)%py.

(** How the loops end: through, at a boundary, or with the run aborted. *)
Inductive ending := Through | Stopped | AbortAuth | AbortPersist.

(** [pending_retry.remove(symbol)] where it is there. *)
Fixpoint remove_one (symbol : string) (l : list string) : list string :=
  match l with
  | [] => []
  | x :: l => if decide (x = symbol) then l else x :: remove_one symbol l
  end.
Definition drop_failure (symbol : string) : runm unit :=
  smod (fun s => set_failures s (ddel (r_failures s) symbol) (remove_one symbol (r_pending s))).
Definition put_failure (symbol : string) (e : run_exc) : runm unit :=
  smod (fun s => set_failures s (dset (r_failures s) symbol e) (r_pending s)).
Definition set_pending (f : list string -> list string) : runm unit := smod (fun s => set_failures s (r_failures s) (f (r_pending s))).

(** The loop over the targets. *)
Fixpoint first_pass (targets : list TickTapeTarget) : runm ending :=
  match targets with
  | [] => sret Through
  | t :: targets =>
      (b <- attempt boundary;;
       match b with
       | Raise _ => sret Stopped
       | Ok _ =>
           late <- (if bool_decide (tg_tier t = "C") then c_deadline_reached else sret false);;
           if (late : bool) then abandon_tier_c t "deadline";;; first_pass targets
           else
             smod (fun s => set_counts s (r_started s + 1) (r_committed s) (r_edge s) (r_oversize s) (r_retried s) (r_abort_failed s));;;
             r <- attempt (process_target t);;
             match r with
             | Raise ECDeadline => abandon_tier_c t "deadline";;; first_pass targets
             | Raise ERunAuth => add_abort_failed;;; sret AbortAuth
             | Raise EPersist => add_abort_failed;;; sret AbortPersist
             | Raise e =>
                 put_failure (tg_symbol t) e;;;
                 (if is_retryable e then set_pending (fun p => p ++ [tg_symbol t]) else sret tt);;;
                 first_pass targets
             | Ok walk =>
                 settle_success walk;;;
                 full <- flush_if_needed;;
                 if (full : bool) then sret AbortPersist else first_pass targets
             end
       end)%py
  end.

(** One pass over the targets to retry. *)
Fixpoint retry_pass (targets : list TickTapeTarget) : runm ending :=
  match targets with
  | [] => sret Through
  | t :: targets =>
      (b <- attempt boundary;;
       match b with
       | Raise _ => sret Stopped
       | Ok _ =>
           late <- (if bool_decide (tg_tier t = "C") then c_deadline_reached else sret false);;
           if (late : bool) then drop_failure (tg_symbol t);;; abandon_tier_c t "deadline";;; retry_pass targets
           else
             r <- attempt (process_target t);;
             match r with
             | Raise ECDeadline => drop_failure (tg_symbol t);;; abandon_tier_c t "deadline";;; retry_pass targets
             | Raise ERunAuth => smod (fun s => set_failures s (ddel (r_failures s) (tg_symbol t)) (r_pending s));;; add_abort_failed;;; sret AbortAuth
             | Raise EPersist => smod (fun s => set_failures s (ddel (r_failures s) (tg_symbol t)) (r_pending s));;; add_abort_failed;;; sret AbortPersist
             | Raise e =>
                 put_failure (tg_symbol t) e;;;
                 (if is_retryable e then sret tt else set_pending (remove_one (tg_symbol t)));;;
                 retry_pass targets
             | Ok walk =>
                 settle_success walk;;;
                 drop_failure (tg_symbol t);;;
                 smod (fun s => set_counts s (r_started s) (r_committed s) (r_edge s) (r_oversize s)
                                  (r_retried s + if decide (tw_termination walk = page_budget) then 0 else 1) (r_abort_failed s));;;
                 full <- flush_if_needed;;
                 if (full : bool) then sret AbortPersist else retry_pass targets
             end
       end)%py
  end.

Fixpoint retry_passes (n : nat) (targets : list TickTapeTarget) : runm ending :=
  match n with
  | O => sret Through
  | S n =>
      (s <- sget;;
       match r_pending s with
       | [] => sret Through
       | pending =>
           b <- attempt sleep_bounded;;
           match b with
           | Raise _ => sret Stopped
           | Ok _ =>
               e <- retry_pass (List.filter (fun t => bool_decide (tg_symbol t ∈ pending)) targets);;
               match e with Through => retry_passes n targets | _ => sret e end
           end
       end)%py
  end.

(** The records of the symbols that failed for good. *)
Definition record_failure (t : TickTapeTarget) : runm unit :=
  (s <- sget;;
   match dget (r_failures s) (tg_symbol t) with
   | None => sret tt
   | Some e =>
       if bool_decide (tg_tier t = "C") then abandon_tier_c t (exc_name e)
       else enqueue (map (fun day => mkRec day (tg_symbol t) "failed" 0 run_id (tg_tier t) (Some (exc_name e))) (tg_days t))
   end)%py.

Definition aborted (e : ending) : bool := match e with AbortAuth | AbortPersist => true | _ => false end.
Definition ending_status (e : ending) : string * option string :=
  match e with AbortAuth => ("FAIL", Some "auth") | AbortPersist => ("FAIL", Some "persistence") | _ => ("OK", None) end.

(** The loops and the records of a run, before its last checkpoint. *)
Definition run_targets (targets : list TickTapeTarget) : runm ending :=
  (e <- first_pass targets;;
   e <- (if aborted e then sret e else retry_passes (ts_retry_passes settings) targets);;
   (if aborted e then sret tt else each record_failure targets);;;
   sret e)%py.

Definition finish (e : ending) : runm TickTapeRunSummary :=
  (s <- sget;;
   let failed := r_abort_failed s + zlen (r_failures s) in
   let '(status, reason) := ending_status e in
   r <- (if bool_decide (reason = Some "persistence") then sret (Ok tt) else attempt checkpoint);;
   let '(status, reason, failed) :=
     match r with
     | Ok _ => (status, reason, failed)
     | Raise x => if bool_decide (status = "OK") then ("FAIL", Some (exc_name x), failed + 1) else (status, reason, failed + 1)
     end in
   s <- sget;;
   let reason := if bool_decide (status = "OK") && r_stop s then Some "stop_requested" else reason in
   sret (mkTapeSummary status reason (r_started s) (r_committed s) (r_pages s) (r_edge s) failed (r_oversize s) (r_retried s)))%py.

Definition run_id_char (c : ascii) : bool :=
  let n := nat_of_ascii c in
  ((48 <=? n) && (n <=? 57) || (65 <=? n) && (n <=? 90) || (97 <=? n) && (n <=? 122) || (n =? 95) || (n =? 45))%nat.

(** The state a run starts in, on the disk it finds. *)
Definition new_run (parts : list ((Z * string) * list TapeRec)) (ledger : option (list ascii)) : RunState :=
  mkRun 0 0 0 0 0 [] parts ledger None false 0 false [] [] 0 0 0 0 0 0 0 0 [] [].

(** [run_tick_tape_backfill]; [marker_free]: no run of this id has left its marker. *)
Definition run_tick_tape_backfill (marker_free aware : bool) (targets : list TickTapeTarget) : runm TickTapeRunSummary :=
  if negb (negb (bool_decide (s2l run_id = [])) && forallb run_id_char (s2l run_id)) then sraise (EOther "ValueError")
  else if negb aware then sraise (EOther "ValueError")
  else if negb (ts_enabled settings) then sret (mkTapeSummary "OK" (Some "disabled") 0 0 0 0 0 0 0)
  else if negb marker_free then sraise (EOther "FileExistsError")
  else (e <- run_targets targets;; finish e)%py.
End Run.
