(* ===== verification/TapeRunFacts.v ===== *)
(** * What a backfill run does to the disk

    A run adds partitions and ledger records, never touches what is there, and records a
    day only after its trades are in a partition; whatever fails and wherever it is killed. *)
From Stdlib Require Import Ascii.
From S2P Require Import Prelude PyStr PyTime ExecJournal KisTrading KiwoomPages RepairMerge TapeWalk TapeLedger TapeBackfill.

(** ** Triples and quiet computations *)

(** From a state with [P] a computation ends in [Q] with its value, or raises in [R]. *)
Definition triple {A} (P : RunState -> Prop) (c : runm A) (Q : A -> RunState -> Prop) (R : run_exc -> RunState -> Prop) : Prop :=
  forall s, P s -> match c s with (s', Ok a) => Q a s' | (s', Raise e) => R e s' end.

Section Triple.
Context {A B : Type}.
Implicit Types (P : RunState -> Prop) (R : run_exc -> RunState -> Prop).

Lemma triple_bind P (c : runm A) (k : A -> runm B) Q R Q' : triple P c Q R -> (forall a, triple (Q a) (k a) Q' R) -> triple P (sbind c k) Q' R.
Proof. intros Hc Hk s Hs. unfold sbind. specialize (Hc s Hs). destruct (c s) as [s1 [a|e]]; [by apply Hk|done]. Qed.

Lemma triple_conseq P P' (c : runm A) (Q Q' : A -> RunState -> Prop) R R' : triple P c Q R -> (forall s, P' s -> P s) ->
  (forall a s, Q a s -> Q' a s) -> (forall e s, R e s -> R' e s) -> triple P' c Q' R'.
Proof. intros Hc HP HQ HR s Hs. specialize (Hc s (HP s Hs)). destruct (c s) as [s1 [a|e]]; auto. Qed.

Lemma triple_ret P (a : A) R : triple P (sret a) (fun x s => x = a /\ P s) R.
Proof. by intros s Hs. Qed.
Lemma triple_raise P e (Q : A -> RunState -> Prop) R : (forall s, P s -> R e s) -> triple P (sraise e) Q R.
Proof. intros HR s Hs. by apply HR. Qed.
Lemma triple_mod P f R : triple P (smod f) (fun _ s' => exists s, P s /\ s' = f s) R.
Proof. intros s Hs. by exists s. Qed.
Lemma triple_get P (k : RunState -> runm A) Q R : (forall s0, triple (fun s => s = s0 /\ P s) (k s0) Q R) -> triple P (sbind sget k) Q R.
Proof. intros Hk s Hs. unfold sbind, sget. by apply (Hk s s). Qed.
Lemma triple_attempt P (c : runm A) Q R : triple P c Q R -> (forall s, R EKilled s -> R EKilled s) ->
  triple P (attempt c) (fun r s => match r with Ok a => Q a s | Raise e => e <> EKilled /\ R e s end) R.
Proof. intros Hc _ s Hs. unfold attempt. specialize (Hc s Hs). destruct (c s) as [s1 [a|[]]]; done. Qed.
Lemma triple_exists {X} (P : X -> RunState -> Prop) (c : runm A) Q R : (forall x, triple (P x) c Q R) -> triple (fun s => exists x, P x s) c Q R.
Proof. intros Hc s [x Hx]. by apply (Hc x). Qed.
Lemma triple_pure (p : Prop) P (c : runm A) Q R : (p -> triple P c Q R) -> triple (fun s => p /\ P s) c Q R.
Proof. intros Hc s [Hp Hs]. by apply Hc. Qed.
End Triple.

(** What the files, the stage and the retries consist of. *)
Definition work (s : RunState) := (r_chunks s, r_parts s, r_ledger s, r_queue s, r_staged s, r_checkpoint s, r_pending s).
Definition quiet {A} (c : runm A) : Prop := forall s, work (fst (c s)) = work s.

Section Quiet.
Context {A B : Type}.
Lemma quiet_ret (a : A) : quiet (sret a).
Proof. done. Qed.
Lemma quiet_raise e : quiet (sraise (A := A) e).
Proof. done. Qed.
Lemma quiet_bind (c : runm A) (k : A -> runm B) : quiet c -> (forall a, quiet (k a)) -> quiet (sbind c k).
Proof. intros Hc Hk s. unfold sbind. specialize (Hc s). destruct (c s) as [s1 [a|e]]; [|done]. by rewrite Hk. Qed.
Lemma quiet_get (k : RunState -> runm A) : (forall s, quiet (k s)) -> quiet (sbind sget k).
Proof. intros Hk s. apply Hk. Qed.
Lemma quiet_mod f : (forall s, work (f s) = work s) -> quiet (smod f).
Proof. intros Hf s. apply Hf. Qed.
Lemma quiet_attempt (c : runm A) : quiet c -> quiet (attempt c).
Proof. intros Hc s. unfold attempt. specialize (Hc s). destruct (c s) as [s1 [a|[]]]; done. Qed.
Lemma quiet_triple (P : RunState -> Prop) (c : runm A) : quiet c -> (forall s s', work s = work s' -> P s -> P s') -> triple P c (fun _ => P) (fun _ => P).
Proof. intros Hc HP s Hs. specialize (Hc s). destruct (c s) as [s1 [a|e]]; cbn in Hc; by apply (HP s). Qed.
End Quiet.
Ltac quiet_go := repeat match goal with
  | H : ?g |- ?g => exact H
  | |- forall _ : _, quiet _ => intro
  | |- quiet (sbind sget _) => apply quiet_get
  | |- quiet (sbind _ _) => apply quiet_bind
  | |- quiet (sret _) => apply quiet_ret
  | |- quiet (sraise _) => apply quiet_raise
  | |- quiet (attempt _) => apply quiet_attempt
  | |- quiet (smod _) => apply quiet_mod; reflexivity
  | |- quiet (match ?x with _ => _ end) => destruct x
  end.

Section Requests.
Context (repr : json -> string) (settings : TickTapeSettings) (overflow : option TickTapeOverflow) (deadline : datetime) (env : RunEnv).

Lemma now_quiet : quiet (now_reading env).
Proof. done. Qed.
Lemma boundary_quiet : quiet (boundary settings deadline env).
Proof. unfold boundary. apply quiet_bind; [apply now_quiet|]. quiet_go. Qed.
Lemma c_deadline_quiet : quiet (c_deadline_reached settings overflow env).
Proof. unfold c_deadline_reached. destruct overflow as [ov|]; [|quiet_go]. destruct (ov_enabled ov); [|quiet_go]. apply quiet_bind; [apply now_quiet|]. quiet_go. Qed.
Lemma ask_token_quiet : quiet (ask_token settings deadline env).
Proof. pose proof boundary_quiet. unfold ask_token. quiet_go. Qed.
Lemma pace_quiet : quiet (pace env).
Proof. unfold pace. quiet_go. Qed.
Lemma post_quiet symbol key : quiet (post repr env symbol key).
Proof. done. Qed.

Lemma fetch_quiet fuel symbol key : forall th tr, quiet (fetch repr settings deadline env fuel symbol key th tr).
Proof.
  pose proof boundary_quiet. pose proof ask_token_quiet. pose proof pace_quiet. pose proof (post_quiet symbol key).
  induction fuel as [|fuel IH]; intros th tr; cbn [fetch]; [quiet_go|]. unfold sleep_bounded. quiet_go; try apply IH.
Qed.

(** A page read is one the vendor served. *)
Lemma fetch_served fuel symbol key : forall th tr s s' page, fetch repr settings deadline env fuel symbol key th tr s = (s', Ok page) ->
  exists n, fetch_tick_page repr (ev_post env n symbol key) = Ok page.
Proof.
  induction fuel as [|fuel IH]; intros th tr s s' page; cbn [fetch]; [done|]. unfold sbind, sget.
  destruct (boundary settings deadline env s) as [s1 [u1|]]; [|done].
  destruct (match r_token s1 with None => ask_token settings deadline env | Some _ => sret tt end s1) as [s2 [u2|]]; [|done].
  destruct (pace env s2) as [s3 [u3|]]; [|done]. destruct (boundary settings deadline env s3) as [s4 [u4|]]; [|done].
  unfold post. destruct (fetch_tick_page repr (ev_post env (r_posts s4) symbol key)) as [p|[]] eqn:Ep; [intros [= <- <-]; eauto|done| | | |done].
  - destruct (_ <? _)%nat; [done|]. unfold sbind. destruct (sleep_bounded settings deadline env _) as [s5 [u5|]]; [apply IH|done].
  - destruct (r_auth_retried _); [done|]. unfold smod. cbn [fst snd]. destruct (ask_token _ _ _ _) as [s5 [u5|]]; [apply IH|done].
  - destruct (_ <? _)%nat; [done|]. unfold sbind. destruct (sleep_bounded settings deadline env _) as [s5 [u5|]]; [apply IH|done].
Qed.
End Requests.
