(* ===== verification/TapeRunSound.v ===== *)
(** * The disk over a backfill run

    The invariant of a run and its preservation by every step, down to the disk left by a
    killed run. *)
From Stdlib Require Import Ascii.
From S2P Require Import Prelude PyStr PyTime ExecJournal KisTrading KiwoomPages RepairMerge TapeWalk TapeLedger TapeBackfill TapeRunFacts.

(** The vendor serves one tape per symbol, newest first, in pages that follow it. *)
Definition serves_tapes (repr : json -> string) (post : nat -> string -> option string -> posted) (tapes : string -> list TapeTick) : Prop :=
  forall symbol, newest_first (tapes symbol) /\ exists before : option string -> list TapeTick, before None = [] /\
    forall n key page, fetch_tick_page repr (post n symbol key) = Ok page ->
      (before key ++ pg_ticks page) `prefix_of` tapes symbol /\
      match pg_next page with
      | Some k => before (Some k) = before key ++ pg_ticks page
      | None => before key ++ pg_ticks page = tapes symbol
      end.

(** The trades of a day on a tape, in order of time. *)
Definition day_of (tapes : string -> list TapeTick) (symbol : string) (day : Z) : list TapeTick := rev (on_day day (tapes symbol)).
Definition of_symbol (symbol : string) (rows : list TapeRec) : list TapeRec := List.filter (fun r => bool_decide (tr_symbol r = symbol)) rows.

(** A record tells the truth: the partition it names holds exactly the day's trades of its symbol,
    or the tape has none. *)
Definition rec_sound (tapes : string -> list TapeTick) (parts : list ((Z * string) * list TapeRec)) (r : LedgerRec) : Prop :=
  (lr_status r = "complete" -> exists rows, dget parts (lr_date r, lr_run_id r) = Some rows /\
     of_symbol (lr_symbol r) rows = day_rows (lr_symbol r) (lr_run_id r) 0 (day_of tapes (lr_symbol r) (lr_date r)) /\
     lr_rows r = zlen (day_of tapes (lr_symbol r) (lr_date r)) /\ day_of tapes (lr_symbol r) (lr_date r) <> []) /\
  (lr_status r = "vendor_empty" -> day_of tapes (lr_symbol r) (lr_date r) = []).

Definition parts_grow (p q : list ((Z * string) * list TapeRec)) : Prop := forall k rows, dget p k = Some rows -> dget q k = Some rows.

Lemma rec_sound_grow tapes p q r : parts_grow p q -> rec_sound tapes p r -> rec_sound tapes q r.
Proof. intros Hg [H1 H2]. split; [|done]. intros Hs. destruct (H1 Hs) as (rows & Hr & Hx). exists rows. split; [by apply Hg|done]. Qed.

Lemma day_rows_symbol symbol lbl ts : forall n r, r ∈ day_rows symbol lbl n ts -> tr_symbol r = symbol.
Proof. induction ts as [|t ts IH]; intros n r; cbn [day_rows]; [by intros ?%elem_of_nil|]. intros [->|Hr]%elem_of_cons; [done|by eapply IH]. Qed.

Lemma of_symbol_same symbol rows : (forall r, r ∈ rows -> tr_symbol r = symbol) -> of_symbol symbol rows = rows.
Proof.
  induction rows as [|r rows IH]; intros Hr; [done|]. unfold of_symbol. cbn. rewrite bool_decide_true by (apply Hr; set_solver).
  f_equal. apply IH. set_solver.
Qed.
Lemma of_symbol_other symbol rows : (forall r, r ∈ rows -> tr_symbol r <> symbol) -> of_symbol symbol rows = [].
Proof.
  induction rows as [|r rows IH]; intros Hr; [done|]. unfold of_symbol. cbn. rewrite bool_decide_false by (apply Hr; set_solver).
  apply IH. set_solver.
Qed.

Section Sound.
Context `{LedgerLaws} (repr : json -> string) (settings : TickTapeSettings) (overflow : option TickTapeOverflow)
  (deadline : datetime) (run_id : string) (env : RunEnv) (tapes : string -> list TapeTick).
Context (parts0 : list ((Z * string) * list TapeRec)) (old : list LedgerRec).
Context (honest : serves_tapes repr (ev_post env) tapes).

(** The disk: nothing old is lost, and what is new is sound. *)
Definition disk_ok (s : RunState) : Prop := parts_grow parts0 (r_parts s) /\
  exists new, ledger_holds (default [] (r_ledger s)) (old ++ new) /\ Forall (rec_sound tapes (r_parts s)) new.

Definition chunk_ok (s : RunState) (k : chunk_key) : Prop :=
  dget (r_chunks s) k = Some (day_rows (snd k) (label run_id s) 0 (day_of tapes (snd k) (fst k))).
(** A queued record is sound once the stage is published. *)
Definition queued (s : RunState) (r : LedgerRec) : Prop :=
  (lr_status r = "complete" -> lr_run_id r = label run_id s /\
     (exists ks, dget (r_staged s) (lr_date r) = Some ks /\ (lr_date r, lr_symbol r) ∈ ks) /\
     lr_rows r = zlen (day_of tapes (lr_symbol r) (lr_date r)) /\ day_of tapes (lr_symbol r) (lr_date r) <> []) /\
  (lr_status r = "vendor_empty" -> day_of tapes (lr_symbol r) (lr_date r) = []).

(** The run between two disk operations; none of the symbols of [todo] is staged. *)
Record run_ok (todo : list string) (s : RunState) : Prop := {
  ro_disk : disk_ok s;
  ro_days : NoDup (dkeys (r_staged s));
  ro_staged day ks : dget (r_staged s) day = Some ks -> NoDup ks /\ forall k, k ∈ ks -> fst k = day /\ snd k ∉ todo /\ chunk_ok s k;
  ro_queue : Forall (queued s) (r_queue s)
}.

Lemma run_ok_sub todo todo' s : (forall x, x ∈ todo' -> x ∈ todo) -> run_ok todo s -> run_ok todo' s.
Proof using.
  intros Hs [H1 H2 H3 H4]. split; try done. intros day ks Hk. destruct (H3 day ks Hk) as [Hn Hf]. split; [done|].
  intros k Hin. destruct (Hf k Hin) as (? & Hn' & ?). split; [done|]. split; [|done]. intros Hx. by apply Hn', Hs.
Qed.

Lemma run_ok_work todo s s' : work s = work s' -> run_ok todo s -> run_ok todo s'.
Proof using.
  unfold work. intros [= E1 E2 E3 E4 E5 E6 E7] [H1 H2 H3 H4]. unfold disk_ok, chunk_ok, queued, label in *.
  split; unfold disk_ok, chunk_ok, queued, label in *; rewrite <- ?E1, <- ?E2, <- ?E3, <- ?E4, <- ?E5, <- ?E6 in *; try done.
Qed.

Lemma quiet_ok {A} todo (c : runm A) : quiet c -> triple (run_ok todo) c (fun _ => run_ok todo) (fun _ => run_ok todo).
Proof using. intros Hc. apply quiet_triple; [done|]. intros s s'. apply run_ok_work. Qed.

(** ** Disk operations *)

Definition bump (s : RunState) : RunState := set_env s (r_clock s) (r_tokens s) (r_paces s) (r_posts s) (S (r_ops s)).

Lemma disk_op_spec refused eff s s' r : disk_op env refused eff s = (s', r) ->
  (s' = bump s \/ (refused (bump s) = None /\ s' = eff (bump s))) /\ (r = Ok tt -> refused (bump s) = None /\ s' = eff (bump s)).
Proof using.
  unfold disk_op. fold (bump s). destruct (ev_disk env (r_ops s)) as [|n nm|n]; [destruct (refused (bump s)) eqn:Er|destruct n; [|destruct (refused (bump s)) eqn:Er]..];
    intros [= <- <-]; naive_solver.
Qed.

(** The rows of one symbol in a published day are those of its file. *)
Lemma published_rows s day ks symbol : (forall k, k ∈ ks -> fst k = day /\ chunk_ok s k) -> NoDup ks -> (day, symbol) ∈ ks ->
  of_symbol symbol (concat (map (fun k => default [] (dget (r_chunks s) k)) ks)) = day_rows symbol (label run_id s) 0 (day_of tapes symbol day).
Proof using All.
  intros Hk Hnd Hin. apply list_elem_of_split in Hin as (l1 & l2 & ->). apply NoDup_app in Hnd as (_ & Hd & Hnd). apply NoDup_cons in Hnd as [Hn2 _].
  assert (Hnone : forall l, (forall k, k ∈ l -> k <> (day, symbol) /\ fst k = day /\ chunk_ok s k) ->
    of_symbol symbol (concat (map (fun k => default [] (dget (r_chunks s) k)) l)) = []).
  { intros l Hl. apply of_symbol_other. intros r Hr. apply list_elem_of_In, in_concat in Hr as (rows & Hrows & Hr%list_elem_of_In).
    apply in_map_iff in Hrows as (k & <- & Hkl%list_elem_of_In). destruct (Hl k Hkl) as (Hne & Hday & Hc). rewrite Hc in Hr. cbn in Hr.
    apply day_rows_symbol in Hr. rewrite Hr. intros Hs. apply Hne. destruct k as [d y]. cbn in *. congruence. }
  unfold of_symbol in *. rewrite map_app, concat_app, List.filter_app, Hnone; cbn [map concat app].
  - rewrite List.filter_app, Hnone.
    + rewrite app_nil_r. destruct (Hk (day, symbol)) as [_ Hc]; [set_solver|]. rewrite Hc. cbn. fold (of_symbol symbol).
      apply of_symbol_same. intros r. apply day_rows_symbol.
    + intros k Hkl. split; [by intros ->|apply Hk; set_solver].
  - intros k Hkl. split; [intros ->; apply (Hd (day, symbol)); set_solver|apply Hk; set_solver].
Qed.

(** ** The checkpoint *)

(** The parts that publishing and deleting staged files leave alone. *)
Definition stage_of (s : RunState) := (r_queue s, r_staged s, r_checkpoint s, r_pending s).

Lemma disk_ok_ledger s s' : r_parts s = r_parts s' -> r_ledger s = r_ledger s' -> disk_ok s -> disk_ok s'.
Proof using. unfold disk_ok. intros -> ->. done. Qed.

Lemma publish_one lbl e s s' r : disk_ok s -> publish_day env lbl e s = (s', r) ->
  disk_ok s' /\ parts_grow (r_parts s) (r_parts s') /\ r_chunks s' = r_chunks s /\ stage_of s' = stage_of s /\
  (r = Ok tt -> dget (r_parts s') (fst e, lbl) = Some (concat (map (fun k => default [] (dget (r_chunks s) k)) (snd e)))).
Proof using.
  intros Hd Hp. apply disk_op_spec in Hp as [[->|[Hr ->]] Hok].
  - split; [done|]. split; [by intros k|]. split; [done|]. split; [done|]. intros ->. destruct (Hok eq_refl) as [_ Hs].
    rewrite Hs. cbn. by rewrite dget_dset_eq.
  - cbn in Hr. destruct (negb _); [done|]. destruct (dmem (r_parts s) (fst e, lbl)) eqn:Em; [done|].
    assert (Hg : parts_grow (r_parts s) (r_parts (set_disk (bump s) (r_chunks (bump s)) (dset (r_parts (bump s)) (fst e, lbl)
      (concat (map (fun k => default [] (dget (r_chunks (bump s)) k)) (snd e)))) (r_ledger (bump s))))).
    { intros k rows Hk. cbn. rewrite dget_dset_ne; [done|]. intros <-. unfold dmem in Em. by rewrite Hk in Em. }
    split; [|split; [exact Hg|split; [done|split; [done|]]]].
    + destruct Hd as [Hd1 (new & Hl & HF)]. split; [intros k rows Hk; by apply Hg, Hd1|]. exists new. split; [done|].
      eapply Forall_impl; [exact HF|]. intros x. by apply rec_sound_grow.
    + intros _. cbn. by rewrite dget_dset_eq.
Qed.

Lemma publish_all lbl l : forall s s' r, disk_ok s -> each (publish_day env lbl) l s = (s', r) ->
  disk_ok s' /\ parts_grow (r_parts s) (r_parts s') /\ r_chunks s' = r_chunks s /\ stage_of s' = stage_of s /\
  (r = Ok tt -> forall e, e ∈ l -> dget (r_parts s') (fst e, lbl) = Some (concat (map (fun k => default [] (dget (r_chunks s) k)) (snd e)))).
Proof using.
  induction l as [|e l IH]; intros s s' r Hd; cbn [each]; [intros [= <- <-]; split; [done|]; split; [by intros k|]; split; [done|]; split; [done|]; by intros _ e ?%elem_of_nil|].
  unfold sbind. destruct (publish_day env lbl e s) as [s1 r1] eqn:E1. destruct (publish_one _ _ _ _ _ Hd E1) as (D1 & G1 & C1 & S1 & K1).
  destruct r1 as [u|x]; [|intros [= <- <-]; by repeat (split; [done|])]. intros He. destruct (IH _ _ _ D1 He) as (D2 & G2 & C2 & S2 & K2).
  rewrite C1 in *. rewrite S1 in S2. split; [done|]. split; [intros k rows Hk; by apply G2, G1|]. split; [done|]. split; [done|].
  intros Hr e' [->|Hin]%elem_of_cons; [|by apply K2]. apply G2. destruct u. by apply K1.
Qed.

Lemma unlink_all ok l : forall s s' r, disk_ok s -> each (unlink env ok) l s = (s', r) ->
  disk_ok s' /\ r_parts s' = r_parts s /\ stage_of s' = stage_of s /\
  (forall k, k ∉ l -> dget (r_chunks s') k = dget (r_chunks s) k).
Proof using.
  induction l as [|k l IH]; intros s s' r Hd; cbn [each]; [by intros [= <- <-]|]. unfold sbind.
  destruct (unlink env ok k s) as [s1 r1] eqn:E1.
  assert (H1 : disk_ok s1 /\ r_parts s1 = r_parts s /\ stage_of s1 = stage_of s /\ (forall k', k' <> k -> dget (r_chunks s1) k' = dget (r_chunks s) k')).
  { apply disk_op_spec in E1 as [[->|[_ ->]] _]; [done|]. split; [done|]. split; [done|]. split; [done|].
    intros k' Hk'. cbn. rewrite dget_ddel_ne; [done|]. by intros ->. }
  destruct H1 as (D1 & P1 & S1 & C1). destruct r1 as [u|x]; [|intros [= <- <-]; repeat (split; [done|]); intros k' [Hk' _]%not_elem_of_cons; by apply C1].
  intros He. destruct (IH _ _ _ D1 He) as (D2 & P2 & S2 & C2). rewrite P1 in P2. rewrite S1 in S2. repeat (split; [done|]).
  intros k' [Hk1 Hk2]%not_elem_of_cons. by rewrite C2, C1.
Qed.

Lemma append_queue_spec s s' r : disk_ok s -> Forall (rec_sound tapes (r_parts s)) (r_queue s) -> append_queue env s = (s', r) ->
  disk_ok s' /\ stage_of s' = stage_of s.
Proof using H0.
  intros [Hg (new & Hl & HF)] Hq. unfold append_queue. fold (bump s).
  assert (Happ : forall fault, disk_ok (set_disk (bump s) (r_chunks s) (r_parts s) (fst (append_ledger_lines fault (r_ledger s) (r_queue s))))).
  { intros fault. destruct (append_ledger_lines fault (r_ledger s) (r_queue s)) as [f ok] eqn:Ea.
    destruct (append_holds _ _ _ _ _ _ Hl Ea) as (k & Hk & _). split; [done|]. exists (new ++ take k (r_queue s)). cbn [r_ledger set_disk].
    rewrite app_assoc. split; [done|]. apply Forall_app. split; [done|]. by apply Forall_take. }
  destruct (r_queue s) as [|q0 qs] eqn:Eq; [intros [= <- <-]; split; [split; [done|by exists new]|done]|].
  rewrite <- Eq in *. destruct (ev_disk env (r_ops s)); intros [= <- <-]; by split.
Qed.

Lemma checkpoint_ok todo : triple (run_ok todo) (checkpoint run_id env) (fun _ => run_ok todo) (fun _ => disk_ok).
Proof using All.
  intros s Hs. unfold checkpoint, sbind, sget. pose proof Hs as [H1 H2 H3 H4].
  assert (Hgo : match (each (publish_day env (label run_id s)) (py_sorted day_leb (r_staged s));;;
       each (unlink env false) (concat (map snd (r_staged s)));;; append_queue env;;;
       smod (fun s => set_stage (set_counts s (r_started s) (r_committed s + zlen (List.filter ok_record (r_queue s))) (r_edge s) (r_oversize s) (r_retried s) (r_abort_failed s))
                        [] [] 0 (r_checkpoint s + 1)))%py s with (s', Ok _) => run_ok todo s' | (s', Raise _) => disk_ok s' end).
  { unfold sbind. destruct (each (publish_day env (label run_id s)) _ s) as [s1 r1] eqn:E1.
    destruct (publish_all _ _ _ _ _ H1 E1) as (D1 & G1 & C1 & S1 & K1). destruct r1 as [[]|x]; [|done].
    destruct (each (unlink env false) _ s1) as [s2 r2] eqn:E2. destruct (unlink_all _ _ _ _ _ D1 E2) as (D2 & P2 & S2 & _).
    destruct r2 as [[]|x]; [|done]. assert (Hq : r_queue s2 = r_queue s) by (unfold stage_of in *; congruence).
    destruct (append_queue env s2) as [s3 r3] eqn:E3. apply append_queue_spec in E3 as [D3 S3]; [|done|].
    { destruct r3; [|done]. split; [exact D3|constructor|by intros day ks|constructor]. }
    rewrite Hq, P2. eapply Forall_impl; [exact H4|]. intros r [Hc Hv]. split; [|done]. intros Hst.
    destruct (Hc Hst) as (Hlbl & (ks & Hks & Hin) & Hrows & Hne). destruct (H3 _ _ Hks) as [Hnd Hk].
    eexists. rewrite Hlbl. split; [apply (K1 eq_refl (lr_date r, ks)); by apply py_sorted_elem, dget_elem|]. split; [|done].
    cbn [snd]. apply published_rows; [|done|done]. intros k Hkin. destruct (Hk k Hkin) as (? & _ & ?). done. }
  destruct (r_staged s) eqn:Es, (r_queue s) eqn:Eq; [exact Hs|exact Hgo..].
Qed.
End Sound.
