(* ===== verification/TapeRunSafe.v ===== *)
(** * A backfill run is safe

    The invariant of the disk through a target, the loops and the end of a run. *)
From Stdlib Require Import Ascii.
From S2P Require Import Prelude PyStr PyTime ExecJournal KisTrading KiwoomPages RepairMerge TapeWalk TapeLedger TapeBackfill TapeRunFacts TapeRunSound.

Section Safe.
Context `{LedgerLaws} (repr : json -> string) (settings : TickTapeSettings) (overflow : option TickTapeOverflow)
  (deadline : datetime) (run_id : string) (env : RunEnv) (tapes : string -> list TapeTick).
Context (parts0 : list ((Z * string) * list TapeRec)) (old : list LedgerRec).
Context (honest : serves_tapes repr (ev_post env) tapes).

Let ok := run_ok run_id tapes parts0 old.
Let disk := disk_ok tapes parts0 old.

(** ** One target *)

Lemma fetch_page_quiet t key w : work (fst (fst (fetch_page repr settings overflow deadline env t key w))) = work (fst w) /\
  snd (fst (fetch_page repr settings overflow deadline env t key w)) = snd w.
Proof.
  unfold fetch_page. match goal with |- context [?c (fst w)] => assert (Hq : quiet c) end.
  { pose proof (c_deadline_quiet settings overflow env). pose proof (fetch_quiet repr settings deadline env (fetch_fuel settings) (tg_symbol t) key 0 0). quiet_go. }
  specialize (Hq (fst w)). match goal with |- context [?c (fst w)] => destruct (c (fst w)) as [s [p|[]]] end; by split.
Qed.

Lemma fetch_page_serves t : serves (tapes (tg_symbol t)) (fetch_page repr settings overflow deadline env t).
Proof using All.
  destruct (honest (tg_symbol t)) as [_ (before & Hb & Hp)]. exists before. split; [done|]. intros key w w' page Hf.
  assert (exists n, fetch_tick_page repr (ev_post env n (tg_symbol t) key) = Ok page) as [n Hn]; [|by apply (Hp n)].
  unfold fetch_page, sbind in Hf.
  destruct ((if bool_decide (tg_tier t = "C") then c_deadline_reached settings overflow env else sret false) (fst w)) as [s1 [late|e]];
    [|by destruct e].
  destruct late; [done|]. destruct (fetch repr settings deadline env _ _ _ _ _ s1) as [s2 [p|e]] eqn:Ef; [|by destruct e].
  injection Hf as <- <-. by eapply fetch_served.
Qed.

(** A staged day. *)
Lemma stage_one todo t s d n : ok todo s -> tg_symbol t ∉ todo -> chunk_ok run_id tapes s (d, tg_symbol t) ->
  (forall ks, dget (r_staged s) d = Some ks -> (d, tg_symbol t) ∉ ks) -> n = zlen (day_of tapes (tg_symbol t) d) ->
  day_of tapes (tg_symbol t) d <> [] -> ok todo (stage_chunk t (label run_id s) s (d, n)).
Proof using All.
  intros [H1 H2 H3 H4] Hn Hc Hf Hz Hne. split; cbn [stage_chunk set_stage r_staged r_queue fst snd].
  - exact H1.
  - by apply dkeys_dset_nodup.
  - intros day ks. destruct (decide (day = d)) as [->|Hd]; [rewrite dget_dset_eq|rewrite dget_dset_ne by done; apply H3]. intros [= <-].
    destruct (dget (r_staged s) d) as [ks0|] eqn:Ek; cbn [default from_option id].
    + destruct (H3 d ks0 Ek) as [Hnd Hk]. split.
      * apply NoDup_app. split; [done|]. split; [|apply NoDup_singleton]. intros x Hx ->%list_elem_of_singleton. by apply (Hf ks0).
      * intros k [Hk0| ->%list_elem_of_singleton]%elem_of_app; [by apply Hk|]. done.
    + split; [apply NoDup_singleton|]. intros k ->%list_elem_of_singleton. done.
  - apply Forall_app. split.
    + eapply Forall_impl; [exact H4|]. intros r [Hr1 Hr2]. split; [|done]. intros Hs. destruct (Hr1 Hs) as (Hl & (ks & Hks & Hin) & Hr). split; [done|].
      split; [|done]. cbn [r_staged set_stage stage_chunk fst snd]. destruct (decide (lr_date r = d)) as [Hd|Hd].
      * subst d. rewrite dget_dset_eq, Hks. eexists. split; [done|]. cbn. set_solver.
      * rewrite dget_dset_ne by done. by exists ks.
    + apply Forall_singleton. split; [|done]. intros _. cbn [lr_run_id lr_date lr_symbol lr_rows]. split; [done|]. split; [|done].
      cbn [r_staged set_stage stage_chunk fst snd]. rewrite dget_dset_eq. eexists. split; [done|]. set_solver.
Qed.

Lemma stage_all todo t log : tg_symbol t ∉ todo -> forall s, ok todo s -> NoDup (map fst log) ->
  (forall d ts, (d, ts) ∈ log -> ts = day_of tapes (tg_symbol t) d /\ ts <> [] /\ chunk_ok run_id tapes s (d, tg_symbol t) /\
     forall ks, dget (r_staged s) d = Some ks -> (d, tg_symbol t) ∉ ks) ->
  ok todo (fold_left (stage_chunk t (label run_id s)) (map (fun '(d, ts) => (d, zlen ts)) log) s).
Proof using All.
  intros Hn. induction log as [|[d ts] log IH]; intros s Hs Hnd Hl; cbn [map fold_left]; [done|].
  apply NoDup_cons in Hnd as [Hd Hnd]. destruct (Hl d ts) as (-> & Hne & Hc & Hk); [set_solver|].
  apply (IH (stage_chunk t (label run_id s) s (d, zlen (day_of tapes (tg_symbol t) d)))); [by apply stage_one|done|].
  intros d' ts' Hin. destruct (Hl d' ts') as (-> & Hne' & Hc' & Hk'); [set_solver|]. split; [done|]. split; [done|]. split; [done|].
  intros ks. cbn [r_staged set_stage stage_chunk fst snd]. rewrite dget_dset_ne; [apply Hk'|]. intros <-. apply Hd.
  apply list_elem_of_fmap. by exists (d, day_of tapes (tg_symbol t) d).
Qed.

Lemma enqueue_ok todo rs s : ok todo s -> Forall (queued run_id tapes s) rs ->
  ok todo (set_stage s (r_queue s ++ rs) (r_staged s) (r_staged_rows s) (r_checkpoint s)).
Proof using. intros [H1 H2 H3 H4] Hr. split; [exact H1|exact H2|exact H3|]. by apply Forall_app. Qed.

(** Records of other outcomes promise nothing of the disk. *)
Lemma queued_other s rs : Forall (fun r => lr_status r <> "complete" /\ lr_status r <> "vendor_empty") rs -> Forall (queued run_id tapes s) rs.
Proof using. intros Hr. eapply Forall_impl; [exact Hr|]. intros r [H1 H2]. by split. Qed.

(** What the walk of a target leaves in the run: its staged files hold its deliveries. *)
Definition walked (todo : list string) (t : TickTapeTarget) (s0 : RunState) (log : list (Z * list TapeTick)) (w : RunState * list (Z * Z)) : Prop :=
  ok todo (fst w) /\ stage_of (fst w) = stage_of s0 /\ snd w = map (fun '(d, ts) => (d, zlen ts)) log /\
  forall d ts, dget (rev log) d = Some ts -> dget (r_chunks (fst w)) (d, tg_symbol t) = Some (day_rows (tg_symbol t) (label run_id s0) 0 ts).

Lemma write_chunk_ok todo t lbl day ticks s s' r : tg_symbol t ∈ todo -> ok todo s ->
  write_day_chunk env (tg_symbol t) lbl day ticks s = (s', r) -> ok todo s' /\ stage_of s' = stage_of s /\
  (r = Ok tt -> r_chunks s' = dset (r_chunks s) (day, tg_symbol t) (day_rows (tg_symbol t) lbl 0 ticks)).
Proof using All.
  intros Ht Hs Hw. apply (disk_op_spec env) in Hw as [Hw Hr].
  assert (Hok : s' = bump s \/ s' = set_disk (bump s) (dset (r_chunks s) (day, tg_symbol t) (day_rows (tg_symbol t) lbl 0 ticks)) (r_parts s) (r_ledger s)) by naive_solver.
  split; [|split; [by destruct Hok as [-> | ->]|by intros ->; destruct (Hr eq_refl) as [_ ->]]].
  destruct Hs as [H1 H2 H3 H4]. destruct Hok as [-> | ->]; [by split|]. split; [exact H1|exact H2| |exact H4].
  intros d ks Hk. destruct (H3 d ks Hk) as [Hnd Hf]. split; [done|]. intros k Hin. destruct (Hf k Hin) as (Hd & Hn & Hc).
  split; [done|]. split; [done|]. unfold chunk_ok. cbn [r_chunks set_disk]. rewrite dget_dset_ne; [exact Hc|]. intros <-. by apply Hn.
Qed.

Lemma process_ok todo t : tg_symbol t ∈ todo ->
  triple (ok todo) (process_target repr settings overflow deadline run_id env t)
    (fun _ => ok (List.filter (fun x => negb (bool_decide (x = tg_symbol t))) todo)) (fun _ => ok todo).
Proof using All.
  intros Ht s Hs. unfold process_target.
  set (wanted := fromkeys (tg_days t)). set (fp := fetch_page repr settings overflow deadline env t). set (sd := stage_day env t (label run_id s)).
  destruct (walk_symbol_tape wanted _ fp (Some sd) _ (s, [])) as [[[s1 chunks] log] r] eqn:Ew.
  destruct (walk_facts _ _ _ _ _ _ _ _ _ _ (fromkeys_nodup (tg_days t)) (proj1 (honest (tg_symbol t))) (fetch_page_serves t) Ew) as (Hlog & Hnd & Hwalk).
  assert (Hworld : match r with Ok _ => walked todo t s log (s1, chunks) | Raise _ => ok todo s1 end).
  { apply (walk_world (walked todo t s) (fun w => ok todo (fst w)) fp (Some sd)) in Ew; [exact Ew| | | |].
    - by intros l w [Hw _].
    - intros l key w (W1 & W2 & W3 & W4). destruct (fetch_page_quiet t key w) as [Hq Hc]. fold fp in Hq, Hc. pose proof Hq as Hq'.
      unfold work in Hq'. injection Hq' as E1 E2 E3 E4 E5 E6 E7. split; [by eapply run_ok_work|].
      split; [unfold stage_of in *; congruence|]. split; [congruence|]. by rewrite E1.
    - intros f l d ts [s0 ch] [= <-] (W1 & W2 & W3 & W4). unfold sd, stage_day. cbn [fst snd] in *.
      destruct (write_day_chunk env (tg_symbol t) (label run_id s) d ts s0) as [s2 [[]|e]] eqn:Ewr;
        apply (write_chunk_ok todo) in Ewr as (G1 & G2 & G3); try done; [|by destruct e].
      split; [done|]. split; [cbn; congruence|]. split; [by rewrite map_app, W3|]. cbn [fst]. intros d' ts'. rewrite rev_app_distr. cbn [rev app dget].
      rewrite (G3 eq_refl). case_decide as Hd; [subst d'; intros [= <-]; by rewrite dget_dset_eq|]. intros Hg. rewrite dget_dset_ne; [by apply W4|]. congruence.
    - split; [done|]. split; [done|]. split; [done|]. by intros d ts. }
  destruct r as [walk|e].
  - destruct Hworld as (W1 & W2 & W3 & W4). cbn [fst snd] in *. unfold sbind, smod, enqueue, sret. cbn.
    destruct (Hwalk walk eq_refl) as (_ & Hempty & _).
    assert (Hlbl : label run_id s = label run_id s1) by (assert (r_checkpoint s = r_checkpoint s1) as E by (unfold stage_of in *; congruence); unfold label; by rewrite E).
    set (todo' := List.filter _ todo). assert (Hn : tg_symbol t ∉ todo').
    { intros [_ Hx]%filter_elem. by rewrite bool_decide_true in Hx. }
    assert (Hs1 : ok todo' s1) by (eapply run_ok_sub; [|exact W1]; intros x [Hx _]%filter_elem; exact Hx).
    assert (Hf : ok todo' (fold_left (stage_chunk t (label run_id s)) chunks s1)).
    { rewrite Hlbl, W3. apply stage_all; [done|done|done|]. intros d ts Hin. destruct (Hlog d ts Hin) as (_ & -> & Hne). split; [done|]. split; [done|]. split.
      - unfold chunk_ok. cbn [fst snd]. rewrite <- Hlbl. rewrite (W4 d (rev (on_day d (tapes (tg_symbol t))))); [done|].
        apply elem_dget; [unfold dkeys; rewrite map_rev; by rewrite NoDup_ListNoDup in *; apply NoDup_rev|].
        by apply list_elem_of_In, in_rev; rewrite rev_involutive; apply list_elem_of_In.
      - intros ks Hk Hx. destruct (ro_staged _ _ _ _ _ _ W1 d ks Hk) as [_ Hf]. by destruct (Hf _ Hx) as (_ & ? & _). }
    set (sf := fold_left _ chunks s1) in *. clearbody sf.
    refine (enqueue_ok todo' _ (set_stage sf _ (r_staged sf) (r_staged_rows sf) (r_checkpoint sf)) (enqueue_ok todo' _ sf Hf _) _).
    + unfold day_records. apply Forall_map, Forall_forall. intros d Hd%py_sorted_elem. split; [done|]. intros _. cbn [lr_symbol lr_date].
      unfold day_of. by rewrite (proj2 (proj2 (Hempty d Hd))).
    + unfold day_records. apply queued_other, Forall_map, Forall_forall. done.
  - cbn. destruct (decide (walk_exception e = EKilled)); [done|]. unfold sbind.
    destruct (each (unlink env true) _ s1) as [s2 r2] eqn:Eu. assert (ok todo s2); [|by destruct r2].
    destruct (unlink_all env tapes parts0 old _ _ _ _ _ (ro_disk _ _ _ _ _ _ Hworld) Eu) as (D2 & P2 & S2 & C2).
    unfold stage_of in S2. injection S2 as E4 E5 E6 E7. destruct Hworld as [H1 H2 H3 H4]. split; [done|by rewrite E5| |].
    + rewrite E5. intros d ks Hk. destruct (H3 d ks Hk) as [Hnd' Hf]. split; [done|]. intros k Hin. destruct (Hf k Hin) as (Hd & Hn & Hc).
      split; [done|]. split; [done|]. unfold chunk_ok, label in *. rewrite E6, C2; [exact Hc|]. intros (c & -> & _)%list_elem_of_fmap. by apply Hn.
    + rewrite E4. eapply Forall_impl; [exact H4|]. intros q. unfold queued, label. by rewrite E5, E6.
Qed.

(** ** The loops *)

(** Changes of the counters and of the failures leave the disk and the stage. *)
Lemma counts_ok todo s a b c d e f : ok todo s -> ok todo (set_counts s a b c d e f).
Proof using. by intros []. Qed.
Lemma failures_ok todo s f p : ok todo s -> ok todo (set_failures s f p).
Proof using. by intros []. Qed.

(** The rest of the work: these symbols and the ones to retry are not staged. *)
Definition ready_for (symbols : list string) (s : RunState) : Prop := ok (symbols ++ r_pending s) s /\ NoDup (r_pending s).
Definition left_by (e : ending) (s : RunState) : Prop := match e with AbortPersist => disk s | _ => ready_for [] s end.

Lemma ready_work symbols s s' : work s = work s' -> ready_for symbols s -> ready_for symbols s'.
Proof using. intros Hw [H1 H2]. pose proof Hw as Hw'. unfold work in Hw'. injection Hw' as _ _ _ _ _ _ Hp. unfold ready_for. rewrite <- Hp. split; [by eapply run_ok_work|done]. Qed.
Lemma ready_disk symbols s : ready_for symbols s -> disk s.
Proof using. intros [Hs _]. apply (ro_disk _ _ _ _ _ _ Hs). Qed.
Lemma ready_sub symbols symbols' s : (forall x, x ∈ symbols' -> x ∈ symbols \/ x ∈ r_pending s) -> ready_for symbols s -> ready_for symbols' s.
Proof using.
  intros Hx [H1 H2]. split; [|done]. eapply run_ok_sub; [|exact H1]. intros x [Hs|Hs]%elem_of_app; apply elem_of_app; [by apply Hx|by right].
Qed.

Lemma ready_nil symbols s : ready_for symbols s -> ready_for [] s.
Proof using. apply ready_sub. intros x Hx. by apply elem_of_nil in Hx. Qed.

Lemma quiet_ready {A} symbols (c : runm A) : quiet c -> triple (ready_for symbols) c (fun _ => ready_for symbols) (fun _ => disk).
Proof using.
  intros Hc. eapply triple_conseq; [apply (quiet_triple (ready_for symbols)); [exact Hc|intros s s'; apply ready_work]|done|done|].
  intros e s. apply ready_disk.
Qed.
Lemma quiet_attempt_ready {A} symbols (c : runm A) : quiet c -> triple (ready_for symbols) (attempt c) (fun _ => ready_for symbols) (fun _ => disk).
Proof using. intros Hc. by apply quiet_ready, quiet_attempt. Qed.

Lemma abandon_ready symbols t reason : triple (ready_for symbols) (abandon_tier_c run_id t reason) (fun _ => ready_for symbols) (fun _ => disk).
Proof using.
  intros s [H1 H2]. split; [|done]. apply enqueue_ok; [exact H1|]. apply queued_other, Forall_map, Forall_forall. done.
Qed.

Lemma checkpoint_pending s : r_pending (fst (checkpoint run_id env s)) = r_pending s.
Proof using.
  assert (Hd : forall refused eff, (forall s, r_pending (eff s) = r_pending s) -> forall s, r_pending (fst (disk_op env refused eff s)) = r_pending s).
  { intros refused eff He s0. destruct (disk_op env refused eff s0) as [s1 r] eqn:Ed. apply disk_op_spec in Ed as [[-> |[_ ->]] _]; cbn; by rewrite ?He. }
  assert (Heach : forall (B : Type) (f : B -> runm unit) l, (forall x s, r_pending (fst (f x s)) = r_pending s) -> forall s, r_pending (fst (each f l s)) = r_pending s).
  { intros B f l Hf. induction l as [|x l IH]; intros s0; cbn; [done|]. unfold sbind. specialize (Hf x s0).
    destruct (f x s0) as [s1 [u|e]]; cbn in *; [by rewrite IH|done]. }
  unfold checkpoint, sbind, sget.
  assert (Hgo : forall l1 l2, r_pending (fst ((each (publish_day env (label run_id s)) l1;;; each (unlink env false) l2;;; append_queue env;;;
       smod (fun s => set_stage (set_counts s (r_started s) (r_committed s + zlen (List.filter ok_record (r_queue s))) (r_edge s) (r_oversize s) (r_retried s) (r_abort_failed s))
                        [] [] 0 (r_checkpoint s + 1)))%py s)) = r_pending s).
  { intros l1 l2. unfold sbind. pose proof (Heach _ (publish_day env (label run_id s)) l1 ltac:(intros; by apply Hd) s) as H1.
    destruct (each (publish_day env (label run_id s)) l1 s) as [s1 [u|e]]; [|done]. pose proof (Heach _ (unlink env false) l2 ltac:(intros; by apply Hd) s1) as H2.
    destruct (each (unlink env false) l2 s1) as [s2 [u2|e]]; cbn in *; [|congruence].
    assert (H3 : r_pending (fst (append_queue env s2)) = r_pending s2) by (unfold append_queue; destruct (r_queue s2); [done|by destruct (ev_disk env (r_ops s2))]).
    destruct (append_queue env s2) as [s3 [u3|e]]; cbn in *; congruence. }
  destruct (r_staged s), (r_queue s); [done|apply Hgo..].
Qed.

Lemma flush_ready symbols : triple (ready_for symbols) (flush_if_needed run_id env)
  (fun full s => if full then disk s else ready_for symbols s) (fun _ => disk).
Proof using All.
  intros s Hs. unfold flush_if_needed, sbind, sget. destruct (r_staged_rows s <=? FLUSH_ROW_LIMIT); [done|].
  unfold attempt. pose proof (checkpoint_ok repr settings overflow deadline run_id env tapes parts0 old honest (symbols ++ r_pending s) s (proj1 Hs)) as Hc.
  pose proof (checkpoint_pending s) as Hp.
  destruct (checkpoint run_id env s) as [s1 [u|e]]; [|by destruct e]. cbn in Hp. unfold sret, ready_for. rewrite Hp. by split; [|apply Hs].
Qed.

Lemma flush_pending s : r_pending (fst (flush_if_needed run_id env s)) = r_pending s.
Proof using.
  unfold flush_if_needed, sbind, sget. destruct (_ <=? _); [done|]. unfold attempt. pose proof (checkpoint_pending s) as Hp.
  destruct (checkpoint run_id env s) as [s1 [u|[]]]; exact Hp.
Qed.

(** The targets still to come, none of which is to be retried yet. *)
Definition before_pass (targets : list TickTapeTarget) (s : RunState) : Prop :=
  ready_for (map tg_symbol targets) s /\ forall t, t ∈ targets -> tg_symbol t ∉ r_pending s.

Lemma quiet_any {A} (P : RunState -> Prop) (c : runm A) : quiet c -> (forall s s', work s = work s' -> P s -> P s') ->
  (forall s, P s -> disk s) -> triple P c (fun _ => P) (fun _ => disk).
Proof using. intros Hc HP Hd. eapply triple_conseq; [by apply (quiet_triple P)|done|done|]. intros e s. apply Hd. Qed.

Lemma before_work targets s s' : work s = work s' -> before_pass targets s -> before_pass targets s'.
Proof using.
  intros Hw [H1 H2]. split; [by eapply ready_work|]. unfold work in Hw. injection Hw as _ _ _ _ _ _ Hp. by rewrite <- Hp.
Qed.
Lemma before_disk targets s : before_pass targets s -> disk s.
Proof using. intros [Hs _]. by eapply ready_disk. Qed.
Lemma before_tail t targets s : before_pass (t :: targets) s -> before_pass targets s.
Proof using. intros [H1 H2]. split; [|intros x Hx; apply H2; by right]. eapply ready_sub; [|exact H1]. intros x Hx. left. by right. Qed.

Lemma deadline_quiet t : quiet (if bool_decide (tg_tier t = "C") then c_deadline_reached settings overflow env else sret false).
Proof using. destruct (bool_decide _); [apply c_deadline_quiet|apply quiet_ret]. Qed.

Lemma process_pending t s : r_pending (fst (process_target repr settings overflow deadline run_id env t s)) = r_pending s.
Proof using.
  unfold process_target. destruct (walk_symbol_tape _ _ _ _ _ _) as [[[s1 chunks] log] r] eqn:Ew.
  assert (Hp : r_pending s1 = r_pending s).
  { apply (walk_world (fun _ w => r_pending (fst w) = r_pending s) (fun w => r_pending (fst w) = r_pending s)) in Ew; [by destruct r| | | |].
    - done.
    - intros log' key w Hw. destruct (fetch_page_quiet t key w) as [Hq _]. unfold work in Hq. injection Hq as _ _ _ _ _ _ Hq. congruence.
    - intros f log' d ts [s0 ch] [= <-] Hw. unfold stage_day. cbn [fst snd] in *. destruct (write_day_chunk _ _ _ _ _ _) as [s2 r2] eqn:E2.
      apply disk_op_spec in E2 as [[-> |[_ ->]] _]; destruct r2 as [u|[]]; exact Hw.
    - done. }
  destruct r as [walk|e]; cbn.
  - rewrite <- Hp. clear. generalize s1. induction chunks as [|c chunks IH]; intros s0; [done|]. cbn. by rewrite IH.
  - destruct (decide (walk_exception e = EKilled)); [done|]. unfold sbind. destruct (each (unlink env true) _ s1) as [s2 r2] eqn:Eu.
    assert (Hs2 : r_pending s2 = r_pending s1); [|destruct r2; cbn; congruence]. clear -Eu. revert s1 Eu.
    induction (map (fun c => (fst c, tg_symbol t)) chunks) as [|k l IH]; intros s1; cbn [each]; [by intros [= <- <-]|]. unfold sbind.
    destruct (unlink env true k s1) as [s3 r3] eqn:E3. apply disk_op_spec in E3 as [[-> |[_ ->]] _]; destruct r3; intros He;
      (injection He as <- <-; done) || (by rewrite (IH _ He)).
Qed.

(** A target is processed: done, its symbol is staged; failed, it is not. *)
Lemma process_ready symbols t : triple (ready_for (tg_symbol t :: symbols)) (process_target repr settings overflow deadline run_id env t)
  (fun _ s => ok (List.filter (fun x => negb (bool_decide (x = tg_symbol t))) (symbols ++ r_pending s)) s /\ NoDup (r_pending s))
  (fun _ => ready_for (tg_symbol t :: symbols)).
Proof using All.
  intros s [Hs Hn]. pose proof (process_ok ((tg_symbol t :: symbols) ++ r_pending s) t ltac:(by left) s Hs) as Hp.
  pose proof (process_pending t s) as Hpend.
  destruct (process_target repr settings overflow deadline run_id env t s) as [s1 [w|e]]; cbn in Hpend; unfold ready_for; rewrite Hpend; [|done].
  split; [|done]. eapply run_ok_sub; [|exact Hp]. intros x [Hx Hne]%filter_elem. apply filter_elem. split; [by right|done].
Qed.

Lemma before_mod targets (f : RunState -> RunState) : (forall s, work (f s) = work s) ->
  triple (before_pass targets) (smod f) (fun _ => before_pass targets) (fun _ => disk).
Proof using. intros Hf s Hs. cbn. by apply (before_work targets s). Qed.

Lemma first_pass_ok targets : NoDup (map tg_symbol targets) ->
  triple (before_pass targets) (first_pass repr settings overflow deadline run_id env targets) left_by (fun _ => disk).
Proof using All.
  induction targets as [|t targets IH]; intros Hnd; cbn [first_pass].
  { intros s [Hs _]. exact Hs. }
  cbn [map] in Hnd. apply NoDup_cons in Hnd as [Hnt Hnd]. specialize (IH Hnd).
  assert (Hnext : triple (before_pass (t :: targets)) (first_pass repr settings overflow deadline run_id env targets) left_by (fun _ => disk)).
  { eapply triple_conseq; [exact IH| |done|done]. intros s. apply before_tail. }
  assert (Hlate : triple (before_pass (t :: targets)) (abandon_tier_c run_id t "deadline";;; first_pass repr settings overflow deadline run_id env targets)%py left_by (fun _ => disk)).
  { eapply triple_bind; [|intros a; exact Hnext]. intros s [H1 H2]. pose proof (abandon_ready _ t "deadline" s H1) as Ha. by split. }
  eapply triple_bind; [apply (quiet_any (before_pass (t :: targets))); [apply quiet_attempt, boundary_quiet|intros; by eapply before_work|intros s; apply before_disk]|].
  intros [[]|x]; [|intros s [Hs _]; exact (ready_nil _ _ Hs)].
  eapply triple_bind; [apply (quiet_any (before_pass (t :: targets))); [apply deadline_quiet|intros; by eapply before_work|intros s; apply before_disk]|].
  intros []; [exact Hlate|]. eapply triple_bind; [by apply before_mod|]. intros ?.
  eapply (triple_bind _ _ _ (fun r s => match r with
    | Ok _ => before_pass targets s | Raise e => before_pass (t :: targets) s end)).
  { intros s [H1 H2]. pose proof (process_ready (map tg_symbol targets) t s H1) as Hp. pose proof (process_pending t s) as Hpend. unfold attempt.
    assert (Hfresh : tg_symbol t ∉ r_pending s) by (apply H2; by left).
    destruct (process_target repr settings overflow deadline run_id env t s) as [s1 [w|e]]; cbn in Hpend.
    - destruct Hp as [Hp Hn]. split; [split; [|done]|intros x Hx; rewrite Hpend; apply H2; by right].
      eapply run_ok_sub; [|exact Hp]. intros x Hx. apply filter_elem. split; [done|]. rewrite bool_decide_false; [done|]. intros ->.
      apply elem_of_app in Hx as [Hx|Hx]; [done|]. by rewrite Hpend in Hx.
    - assert (before_pass (t :: targets) s1) by (split; [done|by rewrite Hpend]). destruct e; try done. by eapply before_disk. }
  intros [walk|e].
  - eapply triple_bind; [by apply before_mod|]. intros ?.
    eapply (triple_bind _ _ _ (fun full s => if (full : bool) then disk s else before_pass targets s)).
    + intros s [H1 H2]. pose proof (flush_ready _ s H1) as Hf. pose proof (flush_pending s) as Hp.
      destruct (flush_if_needed run_id env s) as [s1 [[]|e]]; [done| |done]. cbn in Hp. split; [done|by rewrite Hp].
    + intros []; [by intros s Hs|exact IH].
  - assert (Hother : triple (before_pass (t :: targets)) (put_failure (tg_symbol t) e;;;
        (if is_retryable e then set_pending (fun p => p ++ [tg_symbol t]) else sret tt);;; first_pass repr settings overflow deadline run_id env targets)%py left_by (fun _ => disk)).
    { eapply triple_bind; [by apply before_mod|]. intros ?. destruct (is_retryable e); [|exact Hnext].
      eapply triple_bind; [|intros ?; exact IH]. intros s [[H1 H2] H3]. cbn. split; [split|].
      - apply failures_ok. cbn [r_pending set_failures]. eapply run_ok_sub; [|exact H1]. intros x Hx. rewrite !elem_of_app, list_elem_of_singleton in Hx.
        rewrite elem_of_app. cbn [map]. rewrite elem_of_cons. naive_solver.
      - cbn. apply NoDup_app. split; [done|]. split; [|apply NoDup_singleton]. intros x Hx ->%list_elem_of_singleton. apply (H3 t); [by left|done].
      - intros x Hx. cbn. intros [Hp| Hp%list_elem_of_singleton]%elem_of_app; [apply (H3 x); [by right|done]|]. apply Hnt. rewrite <- Hp.
        by apply (list_elem_of_fmap_2 tg_symbol). }
    assert (Habort : forall en, en <> AbortPersist -> triple (before_pass (t :: targets)) (add_abort_failed;;; sret en)%py left_by (fun _ => disk)).
    { intros en He s Hs. apply (before_mod (t :: targets) (fun s => set_counts s (r_started s) (r_committed s) (r_edge s) (r_oversize s) (r_retried s) (r_abort_failed s + 1)) (fun _ => eq_refl)) in Hs.
      cbn in Hs |- *. destruct en; try done; exact (ready_nil _ _ (proj1 Hs)). }
    destruct e; try exact Hother; [by apply Habort| |exact Hlate].
    intros s Hs. cbn. exact (before_disk _ _ Hs).
Qed.

(** ** Retries *)

Lemma remove_one_spec x l : NoDup l -> NoDup (remove_one x l) /\ forall y, y ∈ remove_one x l -> y ∈ l /\ y <> x.
Proof using.
  induction l as [|z l IH]; cbn [remove_one]; intros Hn; [split; [done|by intros y ?%elem_of_nil]|]. apply NoDup_cons in Hn as [Hz Hn].
  destruct (IH Hn) as [H1 H2]. case_decide as Hx.
  - subst z. split; [done|]. intros y Hy. split; [by right|]. by intros ->.
  - split; [apply NoDup_cons; split; [|done]; intros Hy; by destruct (H2 _ Hy)|].
    intros y [->|Hy]%elem_of_cons; [split; [by left|done]|]. destruct (H2 y Hy). split; [by right|done].
Qed.

(** A symbol was staged and still waits to be dropped from the retries. *)
Definition half_done (t : TickTapeTarget) (symbols : list string) (s : RunState) : Prop :=
  ok (List.filter (fun x => negb (bool_decide (x = tg_symbol t))) (symbols ++ r_pending s)) s /\ NoDup (r_pending s).

Lemma drop_done t symbols : tg_symbol t ∉ symbols -> triple (half_done t symbols) (drop_failure (tg_symbol t)) (fun _ => ready_for symbols) (fun _ => disk).
Proof using.
  intros Hn s [H1 H2]. cbn. destruct (remove_one_spec (tg_symbol t) (r_pending s) H2) as [H3 H4]. split; [|done].
  apply failures_ok. cbn [r_pending set_failures]. eapply run_ok_sub; [|exact H1]. intros x Hx. apply filter_elem.
  rewrite elem_of_app in Hx |- *. destruct Hx as [Hx|Hx]; [|destruct (H4 x Hx)]; (split; [by auto|]); rewrite bool_decide_false by (by intros -> || done); done.
Qed.
Lemma remove_ready x symbols s f : ready_for symbols s -> ready_for symbols (set_failures s f (remove_one x (r_pending s))).
Proof using.
  intros [H1 H2]. destruct (remove_one_spec x (r_pending s) H2) as [H3 H4]. split; [|done].
  apply failures_ok. cbn [r_pending set_failures]. eapply run_ok_sub; [|exact H1]. intros y. rewrite !elem_of_app. intros [Hy|Hy]; [by left|right; by apply H4].
Qed.
Lemma drop_ready t symbols : triple (ready_for symbols) (drop_failure (tg_symbol t)) (fun _ => ready_for symbols) (fun _ => disk).
Proof using. intros s Hs. by apply remove_ready. Qed.

Lemma ready_mod symbols (f : RunState -> RunState) : (forall s, work (f s) = work s) ->
  triple (ready_for symbols) (smod f) (fun _ => ready_for symbols) (fun _ => disk).
Proof using. intros Hf s Hs. cbn. by apply (ready_work symbols s). Qed.

Lemma process_half symbols t : triple (ready_for (tg_symbol t :: symbols)) (attempt (process_target repr settings overflow deadline run_id env t))
  (fun r s => match r with Ok _ => half_done t symbols s | Raise _ => ready_for (tg_symbol t :: symbols) s end) (fun _ => disk).
Proof using All.
  intros s Hs. pose proof (process_ready symbols t s Hs) as Hp. unfold attempt.
  destruct (process_target repr settings overflow deadline run_id env t s) as [s1 [w|e]]; [exact Hp|]. destruct e; try exact Hp. by eapply ready_disk.
Qed.

Lemma half_settle t symbols walk : triple (half_done t symbols) (settle_success walk) (fun _ => half_done t symbols) (fun _ => disk).
Proof using. intros s [H1 H2]. split; [|exact H2]. by apply counts_ok. Qed.

Lemma retry_pass_ok targets : NoDup (map tg_symbol targets) ->
  triple (ready_for (map tg_symbol targets)) (retry_pass repr settings overflow deadline run_id env targets) left_by (fun _ => disk).
Proof using All.
  induction targets as [|t targets IH]; intros Hnd; cbn [retry_pass map]; [by intros s Hs|].
  cbn [map] in Hnd. apply NoDup_cons in Hnd as [Hnt Hnd]. specialize (IH Hnd). set (symbols := map tg_symbol targets) in *.
  assert (Hnext : triple (ready_for (tg_symbol t :: symbols)) (retry_pass repr settings overflow deadline run_id env targets) left_by (fun _ => disk)).
  { eapply triple_conseq; [exact IH| |done|done]. intros s. apply ready_sub. intros x Hx. left. by right. }
  assert (Hlate : triple (ready_for (tg_symbol t :: symbols)) (drop_failure (tg_symbol t);;; abandon_tier_c run_id t "deadline";;;
      retry_pass repr settings overflow deadline run_id env targets)%py left_by (fun _ => disk)).
  { eapply triple_bind; [apply drop_ready|]. intros ?. eapply triple_bind; [apply abandon_ready|]. intros ?. exact Hnext. }
  eapply triple_bind; [apply quiet_attempt_ready, boundary_quiet|]. intros [[]|x]; [|intros s Hs; exact (ready_nil _ _ Hs)].
  eapply triple_bind; [apply quiet_ready, deadline_quiet|]. intros []; [exact Hlate|].
  eapply triple_bind; [apply process_half|]. intros [walk|e].
  - eapply triple_bind; [apply half_settle|]. intros ?.
    eapply triple_bind; [by apply drop_done|]. intros ?. eapply triple_bind; [by apply ready_mod|]. intros ?.
    eapply triple_bind; [apply flush_ready|]. intros []; [by intros s Hs|exact IH].
  - assert (Hother : triple (ready_for (tg_symbol t :: symbols)) (put_failure (tg_symbol t) e;;;
        (if is_retryable e then sret tt else set_pending (remove_one (tg_symbol t)));;; retry_pass repr settings overflow deadline run_id env targets)%py left_by (fun _ => disk)).
    { eapply triple_bind; [by apply ready_mod|]. intros ?. destruct (is_retryable e); [exact Hnext|].
      eapply triple_bind; [|intros ?; exact Hnext]. intros s Hs. by apply remove_ready. }
    assert (Habort : forall en, en <> AbortPersist -> triple (ready_for (tg_symbol t :: symbols))
        (smod (fun s => set_failures s (ddel (r_failures s) (tg_symbol t)) (r_pending s));;; add_abort_failed;;; sret en)%py left_by (fun _ => disk)).
    { intros en He. eapply triple_bind; [by apply ready_mod|]. intros ?. eapply triple_bind; [by apply ready_mod|]. intros ? s Hs.
      destruct en; try done; exact (ready_nil _ _ Hs). }
    destruct e; try exact Hother; [by apply Habort| |exact Hlate].
    eapply triple_bind; [by apply ready_mod|]. intros ?. eapply triple_bind; [by apply ready_mod|]. intros ? s Hs. exact (ready_disk _ _ Hs).
Qed.

Lemma retry_passes_ok targets n : NoDup (map tg_symbol targets) ->
  triple (ready_for []) (retry_passes repr settings overflow deadline run_id env n targets) left_by (fun _ => disk).
Proof using All.
  intros Hnd. induction n as [|n IH]; cbn [retry_passes]; [by intros s Hs|]. apply triple_get. intros s0.
  destruct (r_pending s0) as [|x0 xs] eqn:Ep; [intros s [-> Hs]; exact Hs|]. rewrite <- Ep. clear Ep x0 xs.
  eapply (triple_bind _ _ _ (fun _ s => r_pending s = r_pending s0 /\ ready_for [] s)).
  { eapply triple_conseq; [apply (quiet_any (fun s => r_pending s = r_pending s0 /\ ready_for [] s)); [|intros s s' Hw [H1 H2]|intros s [_ Hs]; by eapply ready_disk]|intros s [-> Hs]; done|done|done].
    - unfold sleep_bounded. apply quiet_attempt, quiet_bind; [|intros ?]; apply boundary_quiet.
    - split; [|by eapply ready_work]. unfold work in Hw. injection Hw as _ _ _ _ _ _ Hp. congruence. }
  intros [u|e]; [|intros s [_ Hs]; exact Hs].
  eapply triple_bind.
  { eapply triple_conseq; [apply retry_pass_ok| |done|done].
    - eapply sublist_NoDup; [exact Hnd|apply sublist_map, filter_sublist].
    - intros s [Hp Hs]. eapply ready_sub; [|exact Hs]. intros x (t & -> & [_ Ht]%filter_elem)%list_elem_of_fmap. bprop. right. by rewrite Hp. }
  intros []; [exact IH|by intros s Hs..].
Qed.
End Safe.
