(* ===== verification/TapeNights.v ===== *)
(** * Nights of the backfill

    A run as a whole, the runs of many nights on one disk, and what the ledger's readers
    and the gap fill ([load_tape_for_symbols] of [src/storage/l0_gapfill.py]) make of it. *)
From Stdlib Require Import Ascii.
From S2P Require Import Prelude PyStr PyTime PyColl ExecJournal KisTrading KiwoomPages Gapfill RepairMerge TapeWalk TapeLedger TapeBackfill TapeRunFacts TapeRunSound TapeRunSafe.

Section Night.
Context `{LedgerLaws} (repr : json -> string) (settings : TickTapeSettings) (overflow : option TickTapeOverflow)
  (deadline : datetime) (run_id : string) (env : RunEnv) (tapes : string -> list TapeTick).
Context (parts0 : list ((Z * string) * list TapeRec)) (old : list LedgerRec).
Context (honest : serves_tapes repr (ev_post env) tapes).
Let disk := disk_ok tapes parts0 old.
Let ready := ready_for run_id tapes parts0 old.
Let left_at := left_by run_id tapes parts0 old.

Lemma record_failures_ok targets : triple (ready []) (each (record_failure run_id) targets) (fun _ => ready []) (fun _ => disk).
Proof using All.
  induction targets as [|t targets IH]; cbn [each]; [by intros s Hs|]. eapply triple_bind; [|intros ?; exact IH].
  unfold record_failure. apply triple_get. intros s0. destruct (dget (r_failures s0) (tg_symbol t)) as [e|]; [|intros s [_ Hs]; exact Hs].
  destruct (bool_decide (tg_tier t = "C")); [eapply triple_conseq; [apply abandon_ready|by intros s [_ Hs]|done|done]|].
  intros s [_ [H1 H2]]. split; [|exact H2]. apply (enqueue_ok run_id tapes parts0 old); [exact H1|]. apply queued_other, Forall_map, Forall_forall. done.
Qed.

Lemma run_targets_ok targets : NoDup (map tg_symbol targets) ->
  triple (fun s => ready (map tg_symbol targets) s /\ r_pending s = []) (run_targets repr settings overflow deadline run_id env targets) left_at (fun _ => disk).
Proof using All.
  intros Hnd. unfold run_targets.
  eapply triple_bind; [eapply triple_conseq; [apply (first_pass_ok repr settings overflow deadline run_id env tapes parts0 old honest targets Hnd)| |done|done]|].
  { intros s [Hs Hp]. split; [done|]. intros t Ht. rewrite Hp. by intros ?%elem_of_nil. }
  intros e. eapply (triple_bind _ _ _ left_at).
  - destruct e; cbn [aborted]; [| |by intros s Hs..]; apply (retry_passes_ok repr settings overflow deadline run_id env tapes parts0 old honest targets _ Hnd).
  - intros e'. eapply (triple_bind _ _ _ (fun _ => left_at e')); [|by intros ? s Hs].
    destruct e'; cbn [aborted]; [| |by intros s Hs..]; apply record_failures_ok.
Qed.

Lemma finish_ok e : triple (left_at e) (finish run_id env e) (fun _ => disk) (fun _ => disk).
Proof using All.
  unfold finish. apply triple_get. intros s0. destruct (ending_status e) as [status reason] eqn:Ee.
  eapply (triple_bind _ _ _ (fun _ => disk)).
  - destruct (bool_decide (reason = Some "persistence")) eqn:Er.
    + intros s [_ Hs]. cbn. destruct e; [exact (ready_disk _ _ _ _ _ _ Hs)..|exact Hs].
    + assert (He : e <> AbortPersist) by (intros ->; injection Ee as <- <-; by rewrite bool_decide_true in Er).
      intros s [_ Hs]. assert (Hr : ready [] s) by (destruct e; done). unfold attempt.
      pose proof (checkpoint_ok repr settings overflow deadline run_id env tapes parts0 old honest _ s (proj1 Hr)) as Hc.
      destruct (checkpoint run_id env s) as [s1 [u|[]]]; try exact Hc. apply (ro_disk _ _ _ _ _ _ Hc).
  - intros r s Hs. destruct r as [u|x]; [exact Hs|]. by destruct (bool_decide (status = "OK")).
Qed.

Lemma run_disk marker aware targets ledger s' r : NoDup (map tg_symbol targets) -> ledger_holds (default [] ledger) old ->
  run_tick_tape_backfill repr settings overflow deadline run_id env marker aware targets (new_run parts0 ledger) = (s', r) -> disk s'.
Proof using All.
  intros Hnd Hl. assert (H0' : disk (new_run parts0 ledger)).
  { split; [by intros k rows|]. exists []. rewrite app_nil_r. split; [exact Hl|constructor]. }
  unfold run_tick_tape_backfill. destruct (negb _); [by intros [= <- <-]|]. destruct (negb aware); [by intros [= <- <-]|].
  destruct (negb (ts_enabled settings)); [by intros [= <- <-]|]. destruct (negb marker); [by intros [= <- <-]|].
  intros Hr. assert (Ht : triple (fun s => ready (map tg_symbol targets) s /\ r_pending s = [])
    (e <- run_targets repr settings overflow deadline run_id env targets;; finish run_id env e)%py (fun _ => disk) (fun _ => disk)).
  { eapply triple_bind; [by apply run_targets_ok|]. intros e. apply finish_ok. }
  specialize (Ht (new_run parts0 ledger)). rewrite Hr in Ht. destruct r; apply Ht; (split; [|done]); (split; [|constructor]);
    (split; [exact H0'|constructor|by intros day ks|constructor]).
Qed.
End Night.

(** ** Many nights *)

Record Night := mkNight {
  ni_settings : TickTapeSettings; ni_overflow : option TickTapeOverflow; ni_deadline : datetime; ni_run_id : string; ni_env : RunEnv;
  ni_marker_free : bool; ni_targets : list TickTapeTarget; ni_tapes : string -> list TapeTick
}.
Definition tape_disk : Type := list ((Z * string) * list TapeRec) * option (list ascii).
Definition run_night `{LedgerCodec} (repr : json -> string) (d : tape_disk) (n : Night) : tape_disk :=
  let s := fst (run_tick_tape_backfill repr (ni_settings n) (ni_overflow n) (ni_deadline n) (ni_run_id n) (ni_env n) (ni_marker_free n) true
                  (ni_targets n) (new_run (fst d) (snd d))) in
  (r_parts s, r_ledger s).
Definition night_ok (repr : json -> string) (n : Night) : Prop :=
  NoDup (map tg_symbol (ni_targets n)) /\ serves_tapes repr (ev_post (ni_env n)) (ni_tapes n).

Lemma nights_sound `{LedgerLaws} repr nights : Forall (night_ok repr) nights -> forall d old, ledger_holds (default [] (snd d)) old ->
  let d' := fold_left (run_night repr) nights d in parts_grow (fst d) (fst d') /\
  exists new, ledger_holds (default [] (snd d')) (old ++ new) /\ Forall (fun r => exists n, n ∈ nights /\ rec_sound (ni_tapes n) (fst d') r) new.
Proof.
  induction 1 as [|n nights [Hn1 Hn2] HF IH]; intros d old Hl; cbn [fold_left]; [split; [by intros k|]; exists []; rewrite app_nil_r; by split|].
  destruct (run_tick_tape_backfill repr (ni_settings n) (ni_overflow n) (ni_deadline n) (ni_run_id n) (ni_env n) (ni_marker_free n) true
    (ni_targets n) (new_run (fst d) (snd d))) as [s r] eqn:Er.
  pose proof (run_disk repr _ _ _ _ _ _ _ _ Hn2 _ _ _ _ _ _ Hn1 Hl Er) as (Hg & new & Hh & Hs).
  assert (Hd : run_night repr d n = (r_parts s, r_ledger s)) by (unfold run_night; by rewrite Er). rewrite Hd.
  destruct (IH (r_parts s, r_ledger s) (old ++ new) Hh) as (Hg2 & new2 & Hh2 & Hs2). split; [intros k rows Hk; by apply Hg2, Hg|].
  exists (new ++ new2). rewrite app_assoc. split; [done|]. apply Forall_app. split.
  - eapply Forall_impl; [exact Hs|]. intros x Hx. exists n. split; [by left|]. by eapply rec_sound_grow.
  - eapply Forall_impl; [exact Hs2|]. intros x (m & Hm & Hx). exists m. split; [by right|done].
Qed.

(** What the readers make of it. *)
Lemma pairs_records `{LedgerLaws} repr fromisoformat contents recs statuses : ledger_holds (default [] contents) recs ->
  exists pairs, read_ledger_pairs repr fromisoformat contents statuses = Some pairs /\
    forall symbol day, (symbol, day) ∈ pairs <-> exists r, r ∈ recs /\ lr_status r ∈ statuses /\ lr_symbol r = symbol /\
      fromisoformat (date_isoformat (lr_date r)) = Some day.
Proof.
  intros Hh. unfold read_ledger_pairs.
  assert (read_objs contents = Some (map record_obj recs)) as ->.
  { destruct contents as [c|]; [by apply holds_read|]. cbn in Hh. by rewrite <- (holds_read [] recs Hh). }
  assert (Hst : forall r, status_in repr statuses (record_obj r) = bool_decide (lr_status r ∈ statuses)) by done.
  assert (Hk : forall r, record_key repr fromisoformat (record_obj r) = day ← fromisoformat (date_isoformat (lr_date r)); Some (lr_symbol r, day)) by done.
  eexists. split; [done|]. intros symbol day. rewrite fromkeys_elem, list_elem_of_omap. split.
  - intros (o & Ho & Hkey). apply filter_elem in Ho as [Ho Hs]. apply list_elem_of_fmap in Ho as (r & -> & Hr). rewrite Hst in Hs. rewrite Hk in Hkey. bprop.
    exists r. destruct (fromisoformat (date_isoformat (lr_date r))) as [d|]; [|done]. rewrite bind_some in Hkey. by injection Hkey as <- <-.
  - intros (r & Hr & Hs & <- & Hd). exists (record_obj r). split.
    + apply filter_elem. split; [apply list_elem_of_fmap; by exists r|]. rewrite Hst. by apply bool_decide_true.
    + by rewrite Hk, Hd, bind_some.
Qed.

(** ** The tape of a day, as the gap fill loads it *)

(** The files of the day in the order of their names. *)
Definition partition_name (label : string) : string := String.append "run-" (String.append label ".parquet").
Definition file_leb (a b : (Z * string) * list TapeRec) : bool := str_leb (partition_name (snd (fst a))) (partition_name (snd (fst b))).
Definition day_files (parts : list ((Z * string) * list TapeRec)) (day : Z) : list ((Z * string) * list TapeRec) :=
  py_sorted file_leb (List.filter (fun p => fst (fst p) =? day) parts).

(** [load_tape_for_symbols]: every row of every file. *)
Definition load_tape_for_symbols (parts : list ((Z * string) * list TapeRec)) (day : Z) (symbols : list string) : list TapeRow :=
  let wanted := map (zfill 6) (List.filter (fun s => negb (bool_decide (s = ""))) symbols) in
  List.filter (fun r => bool_decide (tp_symbol r ∈ wanted))
    (map (fun r => mkTape (zfill 6 (tr_symbol r)) (tr_s r) (tr_price r) (tr_volume r)) (concat (map snd (day_files parts day)))).
