(* ===== verification/TapeRequests.v ===== *)
(** * The requests of a backfill run

    A run sends at most its page budget, and the retries of a page always end. *)
From Stdlib Require Import Ascii.
From S2P Require Import Prelude PyStr PyTime ExecJournal KisTrading KiwoomPages RepairMerge TapeWalk TapeLedger TapeBackfill TapeRunFacts TapeRunSound.

Section Budget.
Context `{LedgerCodec} (repr : json -> string) (settings : TickTapeSettings) (overflow : option TickTapeOverflow)
  (deadline : datetime) (run_id : string) (env : RunEnv).

(** Every request is paid for by a page of the budget. *)
Definition paid (s : RunState) : Prop := Z.of_nat (r_posts s) = r_pages s /\ r_pages s <= ts_max_pages settings.
Definition keeps {A} (c : runm A) : Prop := forall s, paid s -> paid (fst (c s)).

Lemma keeps_ret {A} (a : A) : keeps (sret a).
Proof using. by intros s. Qed.
Lemma keeps_raise {A} e : keeps (sraise (A := A) e).
Proof using. by intros s. Qed.
Lemma keeps_bind {A B} (c : runm A) (k : A -> runm B) : keeps c -> (forall a, keeps (k a)) -> keeps (sbind c k).
Proof using. intros Hc Hk s Hs. unfold sbind. specialize (Hc s Hs). destruct (c s) as [s1 [a|e]]; [by apply Hk|done]. Qed.
Lemma keeps_get {A} (k : RunState -> runm A) : (forall s, keeps (k s)) -> keeps (sbind sget k).
Proof using. intros Hk s. apply Hk. Qed.
Lemma keeps_mod f : (forall s, r_posts (f s) = r_posts s /\ r_pages (f s) = r_pages s) -> keeps (smod f).
Proof using. intros Hf s Hs. cbn. unfold paid. destruct (Hf s) as [-> ->]. exact Hs. Qed.
Lemma keeps_attempt {A} (c : runm A) : keeps c -> keeps (attempt c).
Proof using. intros Hc s Hs. unfold attempt. specialize (Hc s Hs). destruct (c s) as [s1 [a|[]]]; done. Qed.
Lemma keeps_each {A} (f : A -> runm unit) l : (forall a, keeps (f a)) -> keeps (each f l).
Proof using. intros Hf. induction l as [|a l IH]; [apply keeps_ret|]. apply keeps_bind; [apply Hf|done]. Qed.
Lemma keeps_disk refused eff : (forall s, r_posts (eff s) = r_posts s /\ r_pages (eff s) = r_pages s) -> keeps (disk_op env refused eff).
Proof using.
  intros Hf s Hs. destruct (disk_op env refused eff s) as [s1 r] eqn:E. apply disk_op_spec in E as [[-> |[_ ->]] _]; cbn [fst]; [exact Hs|].
  unfold paid. destruct (Hf (bump s)) as [-> ->]. exact Hs.
Qed.

Ltac keeps_go := repeat match goal with
  | H : ?g |- ?g => exact H
  | |- forall _ : _, keeps _ => intro
  | |- keeps (sbind sget _) => apply keeps_get
  | |- keeps (sbind _ _) => apply keeps_bind
  | |- keeps (sret _) => apply keeps_ret
  | |- keeps (sraise _) => apply keeps_raise
  | |- keeps (attempt _) => apply keeps_attempt
  | |- keeps (each _ _) => apply keeps_each
  | |- keeps (smod _) => apply keeps_mod; by intros
  | |- keeps (match ?x with _ => _ end) => destruct x
  end.

Lemma now_keeps : keeps (now_reading env).
Proof using. by intros s. Qed.
Lemma boundary_keeps : keeps (boundary settings deadline env).
Proof using. pose proof now_keeps. unfold boundary. keeps_go. Qed.
Lemma c_deadline_keeps : keeps (c_deadline_reached settings overflow env).
Proof using. pose proof now_keeps. unfold c_deadline_reached. keeps_go. Qed.
Lemma ask_token_keeps : keeps (ask_token settings deadline env).
Proof using. pose proof boundary_keeps. unfold ask_token. keeps_go. Qed.
Lemma pace_keeps : keeps (pace env).
Proof using. unfold pace. keeps_go. Qed.

(** A boundary passed leaves a page in the budget. *)
Lemma boundary_room s s' : boundary settings deadline env s = (s', Ok tt) -> r_pages s' < ts_max_pages settings.
Proof using.
  unfold boundary, sbind, now_reading. destruct (ev_clock env (r_clock s)) as [[] now]; [done|]. unfold sget.
  destruct (_ || _) eqn:Eb; [done|]. intros [= <-]. bprop. done.
Qed.

Lemma fetch_keeps fuel symbol key : forall th tr, keeps (fetch repr settings deadline env fuel symbol key th tr).
Proof using.
  pose proof boundary_keeps as Hb. pose proof ask_token_keeps as Ha. pose proof pace_keeps as Hp.
  induction fuel as [|fuel IH]; intros th tr; cbn [fetch]; [keeps_go|]. apply keeps_bind; [done|]. intros ?. apply keeps_get. intros s0.
  apply keeps_bind; [keeps_go|]. intros ?. apply keeps_bind; [done|]. intros ? s Hs. unfold sbind at 1.
  pose proof (Hb s Hs) as Hs1. destruct (boundary settings deadline env s) as [s1 [[]|e]] eqn:Eb; [|exact Hs1]. apply boundary_room in Eb. cbn [fst] in Hs1.
  unfold sbind at 1, post. match goal with |- paid (fst (?c ?s2)) => assert (Hk : keeps c); [|apply Hk] end.
  - unfold sleep_bounded. keeps_go; apply IH.
  - destruct Hs1 as [H1 H2]. unfold paid. cbn. lia.
Qed.

Lemma append_keeps : keeps (append_queue env).
Proof using. intros s Hs. unfold append_queue. destruct (r_queue s); [exact Hs|]. by destruct (ev_disk env (r_ops s)). Qed.
Lemma checkpoint_keeps : keeps (checkpoint run_id env).
Proof using. pose proof append_keeps. unfold checkpoint. keeps_go; apply keeps_disk; by intros. Qed.

Lemma process_keeps t : keeps (process_target repr settings overflow deadline run_id env t).
Proof using.
  intros s Hs. unfold process_target. destruct (walk_symbol_tape _ _ _ _ _ _) as [[[s1 chunks] log] r] eqn:Ew.
  assert (Hp : paid s1).
  { apply (walk_world (fun _ w => paid (fst w)) (fun w => paid (fst w))) in Ew; [by destruct r|done| | |exact Hs].
    - intros l key w Hw. unfold fetch_page. match goal with |- context [?c (fst w)] => assert (Hk : keeps c) end.
      { pose proof c_deadline_keeps. pose proof (fetch_keeps (fetch_fuel settings) (tg_symbol t) key 0 0). keeps_go. }
      specialize (Hk (fst w) Hw). match goal with |- context [?c (fst w)] => destruct (c (fst w)) as [s2 [p|[]]] end; exact Hk.
    - intros f l d ts [s0 ch] [= <-] Hw. unfold stage_day. cbn [fst snd] in *.
      assert (Hk : keeps (write_day_chunk env (tg_symbol t) (label run_id s) d ts)) by (apply keeps_disk; by intros).
      specialize (Hk s0 Hw). destruct (write_day_chunk env (tg_symbol t) (label run_id s) d ts s0) as [s2 [u|[]]]; exact Hk. }
  destruct r as [walk|e].
  - assert (Hf : forall chunks s, paid s -> paid (fold_left (stage_chunk t (label run_id s)) chunks s)).
    { intros cs s0 H0. generalize (label run_id s0). intros lbl. revert s0 H0. induction cs as [|c cs IH]; intros s0 H0; [done|]. by apply IH. }
    unfold enqueue. match goal with |- paid (fst (?c s1)) => assert (Hk : keeps c); [|by apply Hk] end.
    apply keeps_bind; [|keeps_go]. intros s0 H0. cbn. clear -H0. generalize (label run_id s). intros lbl. revert s0 H0.
    induction chunks as [|c cs IH]; intros s0 H0; [done|]. by apply IH.
  - cbn. destruct (decide (walk_exception e = EKilled)); [exact Hp|].
    match goal with |- paid (fst (?c s1)) => assert (Hk : keeps c); [|by apply Hk] end. keeps_go. apply keeps_disk. by intros.
Qed.

Lemma flush_keeps : keeps (flush_if_needed run_id env).
Proof using. pose proof checkpoint_keeps. unfold flush_if_needed, add_abort_failed. keeps_go. Qed.

Lemma first_pass_keeps targets : keeps (first_pass repr settings overflow deadline run_id env targets).
Proof using.
  pose proof boundary_keeps. pose proof c_deadline_keeps. pose proof flush_keeps. pose proof process_keeps.
  induction targets as [|t targets IH]; cbn [first_pass]; unfold add_abort_failed, abandon_tier_c, enqueue, put_failure, set_pending, settle_success; [keeps_go|].
  keeps_go; auto.
Qed.
Lemma retry_pass_keeps targets : keeps (retry_pass repr settings overflow deadline run_id env targets).
Proof using.
  pose proof boundary_keeps. pose proof c_deadline_keeps. pose proof flush_keeps. pose proof process_keeps.
  induction targets as [|t targets IH]; cbn [retry_pass]; unfold add_abort_failed, abandon_tier_c, enqueue, put_failure, set_pending, settle_success, drop_failure; [keeps_go|].
  keeps_go; auto.
Qed.
Lemma retry_passes_keeps targets n : keeps (retry_passes repr settings overflow deadline run_id env n targets).
Proof using.
  pose proof boundary_keeps. induction n as [|n IH]; cbn [retry_passes]; unfold sleep_bounded; [keeps_go|]. keeps_go; apply retry_pass_keeps.
Qed.

Lemma run_keeps marker aware targets : keeps (run_tick_tape_backfill repr settings overflow deadline run_id env marker aware targets).
Proof using.
  pose proof (first_pass_keeps targets). pose proof (retry_passes_keeps targets (ts_retry_passes settings)). pose proof checkpoint_keeps.
  unfold run_tick_tape_backfill, run_targets, finish, record_failure, abandon_tier_c, enqueue. keeps_go.
Qed.

(** ** The retries of a page *)

(** Steps that leave the retry of the token alone. *)
Definition auth_same {A} (c : runm A) : Prop := forall s, r_auth_retried (fst (c s)) = r_auth_retried s.
Lemma auth_bind {A B} (c : runm A) (k : A -> runm B) : auth_same c -> (forall a, auth_same (k a)) -> auth_same (sbind c k).
Proof using. intros Hc Hk s. unfold sbind. specialize (Hc s). destruct (c s) as [s1 [a|e]]; [|done]. by rewrite Hk. Qed.
Lemma boundary_auth : auth_same (boundary settings deadline env).
Proof using.
  intros s. unfold boundary, sbind, now_reading. destruct (ev_clock env (r_clock s)) as [[] now]; [done|]. unfold sget. by destruct (_ || _).
Qed.
Lemma ask_token_auth : auth_same (ask_token settings deadline env).
Proof using.
  intros s. unfold ask_token, sbind, sget, smod. destruct (ev_token env (r_tokens s)) as [t| |[t|]]; try done; unfold sbind;
    match goal with |- context [boundary settings deadline env ?x] => pose proof (boundary_auth x) as Hb; destruct (boundary settings deadline env x) as [s1 [u|e]] end; exact Hb.
Qed.
Lemma pace_auth : auth_same (pace env).
Proof using. intros s. unfold pace, sbind, sget, smod. by destruct (ev_pace env (r_paces s)). Qed.

(** The retries a page has left. *)
Definition retries_left (th tr : nat) (s : RunState) : nat := (3 - th) + (ts_transient_retries settings - tr) + (if r_auth_retried s then 0 else 1) + 1.

Lemma sbind_ext {A B} (c : runm A) (k k' : A -> runm B) s : (forall s' a, c s = (s', Ok a) -> k a s' = k' a s') -> sbind c k s = sbind c k' s.
Proof using. intros Hk. unfold sbind. destruct (c s) as [s1 [a|e]]; [by apply Hk|done]. Qed.
Lemma auth_step {A} (c : runm A) s s' a : auth_same c -> c s = (s', Ok a) -> r_auth_retried s' = r_auth_retried s.
Proof using. intros Hc Hs. specialize (Hc s). by rewrite Hs in Hc. Qed.
Lemma sleep_auth : auth_same (sleep_bounded settings deadline env).
Proof using. apply auth_bind; [|intros ?]; apply boundary_auth. Qed.

Lemma fetch_enough symbol key fuel : forall more th tr s, (retries_left th tr s <= fuel)%nat ->
  fetch repr settings deadline env (fuel + more) symbol key th tr s = fetch repr settings deadline env fuel symbol key th tr s.
Proof using.
  induction fuel as [|fuel IH]; intros more th tr s Hle; [unfold retries_left in Hle; lia|]. cbn [fetch Nat.add].
  apply sbind_ext. intros s1 u1 E1. apply (auth_step _ _ _ _ boundary_auth) in E1. apply sbind_ext. intros s1' s0 [= <- <-].
  apply sbind_ext. intros s2 u2 E2. assert (A2 : r_auth_retried s2 = r_auth_retried s1).
  { destruct (r_token s1); [by injection E2 as <-|exact (auth_step _ _ _ _ ask_token_auth E2)]. }
  apply sbind_ext. intros s3 u3 E3. apply (auth_step _ _ _ _ pace_auth) in E3.
  apply sbind_ext. intros s4 u4 E4. apply (auth_step _ _ _ _ boundary_auth) in E4.
  apply sbind_ext. intros s5 r [= <- <-]. assert (Hs : r_auth_retried s4 = r_auth_retried s) by congruence. unfold retries_left in Hle.
  destruct (fetch_tick_page repr (ev_post env (r_posts s4) symbol key)) as [p|[]]; try done.
  - destruct (Nat.ltb_spec (ts_transient_retries settings) (S tr)); [done|]. apply sbind_ext. intros s6 u6 E6.
    apply (auth_step _ _ _ _ sleep_auth) in E6. cbn in E6. apply IH. unfold retries_left. rewrite E6, Hs. lia.
  - apply sbind_ext. intros s6 s7 [= <- <-]. cbn [r_auth_retried set_auth set_env]. destruct (r_auth_retried s4) eqn:Ea; [done|].
    apply sbind_ext. intros s6 u6 [= <-]. apply sbind_ext. intros s7 u7 E7. apply (auth_step _ _ _ _ ask_token_auth) in E7. cbn in E7.
    apply IH. unfold retries_left. rewrite E7. rewrite <- Hs in Hle. lia.
  - destruct (Nat.ltb_spec 3 (S th)); [done|]. apply sbind_ext. intros s6 u6 E6.
    apply (auth_step _ _ _ _ sleep_auth) in E6. cbn in E6. apply IH. unfold retries_left. rewrite E6, Hs. lia.
Qed.
End Budget.
