(* ===== verification/TapeProps.v ===== *)
(** * Properties of the tape backfill

    The ledger under failing appends, the nights of the backfill, the requests of a run,
    and the tape left by a failed append; with a record codec that satisfies the laws. *)
From Stdlib Require Import Ascii.
From S2P Require Import Prelude PyStr PyTime PyColl Layout Calendar ExecJournal KisTrading KiwoomPages LossLedger L0Decode Gapfill FillDay RepairMerge Membership DiscoveryProps TapeWalk TapeLedger TapeBackfill TapeRunFacts TapeRunSound TapeRunSafe TapeNights TapeRequests.

(** ** A record codec *)

Definition tape_fields : Type := string * string * string * Z * string * string * option string.
Definition obj_fields (o : list (string * json)) : tape_fields :=
  let get k := default JNull (dget o k) in
  (as_str (get "date"), as_str (get "symbol"), as_str (get "status"), as_int (get "rows"), as_str (get "run_id"), as_str (get "tier"), as_ostr (get "reason")).
Definition fields_obj (f : tape_fields) : list (string * json) :=
  let '(d, sy, st, n, run, ti, re) := f in
  [("date", JStr d); ("symbol", JStr sy); ("status", JStr st); ("rows", JInt n); ("run_id", JStr run); ("vendor", JStr TAPE_VENDOR); ("tier", JStr ti)]
  ++ match re with Some s => [("reason", JStr s)] | None => [] end.
Lemma fields_back r : fields_obj (obj_fields (record_obj r)) = record_obj r.
Proof. by destruct r as [d sy st n run ti [re|]]. Qed.

Definition tape_dumps (o : list (string * json)) : list ascii := "{"%char :: pos_text (encode (obj_fields o)) ++ ["}"%char].
Definition tape_loads (l : list ascii) : option json :=
  match l with
  | c :: rest =>
      if decide (c = "{"%char /\ List.last rest c = "}"%char)
      then p ← text_pos (removelast rest); f ← (decode p : option tape_fields); Some (JObj (fields_obj f))
      else None
  | [] => None
  end.
#[global] Instance tape_codec : LedgerCodec := {| rec_dumps := tape_dumps; rec_loads := tape_loads |}.

Lemma tape_text_chars r c : c ∈ rec_text r -> c = "{"%char \/ c = "0"%char \/ c = "1"%char \/ c = "}"%char.
Proof.
  intros [->|[Hx|Hx]%elem_of_app]%elem_of_cons; [by left| |].
  - apply pos_text_chars in Hx. tauto.
  - apply list_elem_of_singleton in Hx. tauto.
Qed.

(** A text without white space is its own strip. *)
Lemma lstrip_none l : (forall c, c ∈ l -> is_space c = false) -> lstrip l = l.
Proof. destruct l as [|c l]; [done|]. intros Hl. cbn. by rewrite Hl by set_solver. Qed.
Lemma strip_none l : (forall c, c ∈ l -> is_space c = false) -> strip l = l.
Proof.
  intros Hl. unfold strip. rewrite (lstrip_none l) by done. rewrite (lstrip_none (rev l)), rev_involutive; [done|].
  intros c Hc. by apply Hl, list_elem_of_In, in_rev, list_elem_of_In.
Qed.

Lemma braces_torn t p : (forall c, c ∈ t -> c = "0"%char \/ c = "1"%char) -> p `prefix_of` "{"%char :: t ++ ["}"%char] -> p <> "{"%char :: t ++ ["}"%char] ->
  tape_loads p = None.
Proof.
  intros Ht [k Hk] Hne. destruct k as [|y k _] using rev_ind; [by rewrite app_nil_r in Hk|]. rewrite app_comm_cons, app_assoc in Hk.
  apply app_inj_tail in Hk as [Hk _]. destruct p as [|x p]; [done|]. cbn [app] in Hk. injection Hk as <- Hk. unfold tape_loads.
  rewrite decide_False; [done|]. intros [_ Hl]. destruct p as [|z p _] using rev_ind; [done|]. rewrite last_last in Hl. subst z.
  destruct (Ht "}"%char); [rewrite Hk; set_solver|done..].
Qed.

#[global] Instance tape_laws : LedgerLaws.
Proof.
  assert (Hsp : forall r p c, p `prefix_of` rec_text r -> c ∈ p -> is_space c = false).
  { intros r p c [k Hk] Hc. assert (c ∈ rec_text r) as Hr by (rewrite Hk; set_solver). apply tape_text_chars in Hr. by destruct Hr as [->|[->|[->| ->]]]. }
  split.
  - intros r. split; intros [?|[?|[?|?]]]%tape_text_chars; done.
  - done.
  - intros r p Hp Hne. rewrite strip_none; [done|]. intros c. by apply Hsp with (r := r).
  - intros r. unfold rec_text. cbn [rec_dumps rec_loads tape_codec]. unfold tape_dumps, tape_loads. rewrite last_last, removelast_last, decide_True by done.
    rewrite text_pos_back, bind_some, decode_encode, bind_some, fields_back. done.
  - intros r p. apply (braces_torn (pos_text (encode (obj_fields (record_obj r))))). apply pos_text_chars.
Qed.

(** ** The ledger under failing appends *)

(** Appends to one ledger, with the records of those that returned. *)
Definition append_run `{LedgerCodec} (st : option (list ascii) * list LedgerRec) (call : ledger_fault * list LedgerRec) : option (list ascii) * list LedgerRec :=
  let '(file, ok) := append_ledger_lines (fst call) (fst st) (snd call) in
  (file, if (ok : bool) then snd st ++ snd call else snd st).

Lemma append_runs_hold `{LedgerLaws} calls : forall st rs all, ledger_holds (default [] (fst st)) rs -> snd st `sublist_of` rs -> rs `sublist_of` all ->
  let st' := fold_left append_run calls st in
  exists rs', ledger_holds (default [] (fst st')) rs' /\ snd st' `sublist_of` rs' /\ rs' `sublist_of` all ++ concat (map snd calls).
Proof.
  induction calls as [|[fault new] calls IH]; intros [file acked] rs all Hh Ha Hs; cbn [fold_left map concat fst snd].
  { exists rs. by rewrite app_nil_r. }
  destruct (append_ledger_lines fault file new) as [file' ok] eqn:Ea.
  assert (append_run (file, acked) (fault, new) = (file', if ok then acked ++ new else acked)) as -> by (unfold append_run; cbn [fst snd]; by rewrite Ea).
  destruct (append_holds fault file rs new file' ok Hh Ea) as (k & Hk & Hok). rewrite app_assoc. apply (IH _ (rs ++ take k new)); cbn [fst snd].
  - exact Hk.
  - destruct ok; [rewrite Hok by done; by apply sublist_app|by apply sublist_inserts_r].
  - apply sublist_app; [done|]. apply sublist_take.
Qed.

(** C19. However appends to the ledger fail, before the file is touched or after any number of
    bytes, the ledger stays readable: its readers see all the records of the appends that
    returned, in order, and nothing but records that were to be appended. *)
Theorem tape_ledger_never_corrupt `{LedgerLaws} calls :
  let '(file, acked) := fold_left append_run calls (None, []) in
  exists recs, read_objs file = Some (map record_obj recs) /\ acked `sublist_of` recs /\ recs `sublist_of` concat (map snd calls).
Proof.
  destruct (append_runs_hold calls (None, []) [] [] (holds_lines []) (sublist_nil_l _) (sublist_nil_l _)) as (rs & Hh & Ha & Hs).
  destruct (fold_left append_run calls (None, [])) as [file acked]. exists rs. split; [|by split].
  destruct file as [c|]; [by apply holds_read|]. cbn in Hh. by rewrite <- (holds_read [] rs Hh).
Qed.

Definition demo_rec (symbol : string) : LedgerRec := mkRec 20758 symbol "complete" 2 "n1" "gap" None.
Lemma tape_ledger_never_corrupt_witness :
  let calls := [(LNone, [demo_rec "000100"]); (LWrite 30, [demo_rec "000200"; demo_rec "000300"]); (LOpen, [demo_rec "000400"]); (LNone, [demo_rec "000500"])] in
  snd (fold_left append_run calls (None, [])) = [demo_rec "000100"; demo_rec "000500"] /\
  let '(file, acked) := fold_left append_run calls (None, []) in
  exists recs, read_objs file = Some (map record_obj recs) /\ acked `sublist_of` recs.
Proof.
  intros calls. split; [vm_compute; reflexivity|]. pose proof (tape_ledger_never_corrupt calls) as Hc.
  destruct (fold_left append_run calls (None, [])) as [file acked]. destruct Hc as (recs & H1 & H2 & _). exists recs. exact (conj H1 H2).
Defined.

(** ** The nights *)

(** What a settled symbol and day stand for: on one of the nights' tapes, a partition holds exactly
    the day's trades of the symbol, or there were none. *)
Definition settled_on (nights : list Night) (parts : list ((Z * string) * list TapeRec)) (symbol : string) (d : Z) : Prop :=
  exists n, n ∈ nights /\
    (day_of (ni_tapes n) symbol d = [] \/
     exists lbl rows, dget parts (d, lbl) = Some rows /\ of_symbol symbol rows = day_rows symbol lbl 0 (day_of (ni_tapes n) symbol d)).

(** C18. Over any nights, whatever the vendor answers beside the pages of its tapes, whatever fails
    on the disk, and wherever a run is killed: the ledger can be read after the last
    night; every symbol and day it counts as settled is a day whose trades are, in order and
    complete, in a partition, or a day without trades; and a partition once published keeps its
    rows. *)
Theorem tape_nights_truthful `{LedgerLaws} repr fromisoformat nights more :
  Forall (night_ok repr) nights -> Forall (night_ok repr) more ->
  let d1 := fold_left (run_night repr) nights ([], None) in
  let d2 := fold_left (run_night repr) more d1 in
  parts_grow (fst d1) (fst d2) /\
  exists settled, read_ledger_done repr fromisoformat (snd d2) = Some settled /\
    forall symbol day, (symbol, day) ∈ settled ->
      exists d, fromisoformat (date_isoformat d) = Some day /\ settled_on (nights ++ more) (fst d2) symbol d.
Proof.
  intros Hn Hm d1 d2.
  destruct (nights_sound repr nights Hn ([], None) [] (holds_lines [])) as (_ & new1 & Hh1 & _).
  destruct (nights_sound repr more Hm d1 new1 Hh1) as (Hg & _).
  destruct (nights_sound repr (nights ++ more) (proj2 (Forall_app _ _ _) (conj Hn Hm)) ([], None) [] (holds_lines [])) as (_ & new & Hh & Hs).
  rewrite fold_left_app in Hh, Hs. fold d1 in Hh, Hs. fold d2 in Hh, Hs. split; [exact Hg|].
  destruct (pairs_records repr fromisoformat (snd d2) new LEDGER_OK_STATUSES Hh) as (settled & Hr & Hd). exists settled. split; [exact Hr|].
  intros symbol day Hin. destruct (proj1 (Hd symbol day) Hin) as (r & Hr1 & Hst & <- & Hiso). exists (lr_date r). split; [exact Hiso|].
  rewrite Forall_forall in Hs. destruct (Hs r Hr1) as (n & Hn1 & Hc & Hv). exists n. split; [exact Hn1|].
  unfold LEDGER_OK_STATUSES in Hst. rewrite !elem_of_cons, elem_of_nil in Hst. destruct Hst as [Hst|[Hst|[]]]; [right|left; by apply Hv].
  destruct (Hc Hst) as (rows & H1 & H2 & _). exists (lr_run_id r), rows. by split.
Qed.

(** Three trades of a day and one of the day before, served as one page to a run at ten past
    midnight. *)
Definition tape_day : Z := days_of_civil 2026 11 2.
Definition tape_json (tm price volume : string) : json := JObj [("cntr_tm", JStr tm); ("cur_prc", JStr price); ("trde_qty", JStr volume)].
Definition tape_answer : posted :=
  Answered (mkResponse 200 [("cont-yn", "N")] (Some (JObj [("return_code", JInt 0);
    ("stk_tic_chart_qry", JArr [tape_json "20261102090003" "-102" "5"; tape_json "20261102090002" "+101" "1";
                                tape_json "20261102090001" "100" "5"; tape_json "20261030152959" "99" "4"])]))).
Definition tape_trades : list TapeTick :=
  [mkTapeTick tape_day 90003 102 5; mkTapeTick tape_day 90002 101 1; mkTapeTick tape_day 90001 100 5; mkTapeTick (tape_day - 3) 152959 99 4].
Definition tape_env (disk : nat -> disk_fault) : RunEnv :=
  mkEnv (fun _ => (false, combine_kst (tape_day + 1) 600000000)) (fun _ => TStored "t") (fun _ => None) (fun _ _ _ => tape_answer) disk.
Definition tape_settings : TickTapeSettings := mkTapeSettings true 100 (84600 * 1000000) (19800 * 1000000) 1000000 2 1.
Definition tape_night (run_id : string) (disk : nat -> disk_fault) : Night :=
  mkNight tape_settings None (combine_kst (tape_day + 1) 18000000000) run_id (tape_env disk) true [mkTarget "005930" [tape_day] "gap"] (fun _ => tape_trades).

Lemma tape_night_ok run_id disk : night_ok demo_repr (tape_night run_id disk).
Proof.
  split; [repeat constructor; set_solver|]. intros symbol. split.
  - cbn [ni_tapes tape_night]. repeat constructor; vm_compute; intuition congruence.
  - exists (fun _ => []). split; [done|]. intros n key page Hp.
    assert (fetch_tick_page demo_repr tape_answer = Ok (mkPage tape_trades None)) as Ha by (vm_compute; reflexivity).
    change (fetch_tick_page demo_repr tape_answer = Ok page) in Hp. rewrite Ha in Hp. injection Hp as <-. done.
Qed.

(** The ledger append of the first night fails; the second night runs through. *)
Definition append_fails (n : nat) : disk_fault := if decide (n = 3%nat) then DFail 0 "OSError" else DNone.
Definition two_nights : list Night := [tape_night "n1" append_fails; tape_night "n2" (fun _ => DNone)].
Definition tape_iso (s : string) : option Z := iso_date (s2l s).
Definition two_disk : tape_disk := fold_left (run_night demo_repr) two_nights ([], None).

Lemma two_nights_ok : Forall (night_ok demo_repr) two_nights.
Proof. constructor; [apply tape_night_ok|]. constructor; [apply tape_night_ok|constructor]. Qed.

Lemma tape_nights_truthful_witness :
  read_ledger_done demo_repr tape_iso (snd two_disk) = Some [("005930", tape_day)] /\
  let d1 := fold_left (run_night demo_repr) two_nights ([], None) in
  let d2 := fold_left (run_night demo_repr) [tape_night "n3" append_fails] d1 in
  parts_grow (fst d1) (fst d2) /\
  exists settled, read_ledger_done demo_repr tape_iso (snd d2) = Some settled /\
    forall symbol day, (symbol, day) ∈ settled ->
      exists d, tape_iso (date_isoformat d) = Some day /\ settled_on (two_nights ++ [tape_night "n3" append_fails]) (fst d2) symbol d.
Proof.
  split; [vm_compute; reflexivity|].
  exact (tape_nights_truthful demo_repr tape_iso two_nights [tape_night "n3" append_fails] two_nights_ok
           (Forall_cons_2 _ _ _ (tape_night_ok "n3" append_fails) (Forall_nil_2 _))).
Defined.

(** ** The requests *)

(** C23. A run sends no more requests than its page budget, counts every one of them, and the retries of a page
    always end: the recursion of [_fetch] never goes deeper than the retries of the
    settings allow. *)
Theorem tape_requests_bounded `{LedgerCodec} repr settings overflow deadline run_id env marker aware targets parts ledger :
  0 <= ts_max_pages settings ->
  let s' := fst (run_tick_tape_backfill repr settings overflow deadline run_id env marker aware targets (new_run parts ledger)) in
  Z.of_nat (r_posts s') = r_pages s' /\ r_pages s' <= ts_max_pages settings /\
  forall more symbol key s, fetch repr settings deadline env (fetch_fuel settings + more) symbol key 0 0 s =
    fetch repr settings deadline env (fetch_fuel settings) symbol key 0 0 s.
Proof.
  intros Hp s'. destruct (run_keeps repr settings overflow deadline run_id env marker aware targets (new_run parts ledger)) as [H1 H2].
  { split; [done|]. cbn. lia. }
  split; [exact H1|]. split; [exact H2|]. intros more symbol key s. apply fetch_enough. unfold retries_left, fetch_fuel. destruct (r_auth_retried s); lia.
Qed.

Lemma tape_requests_bounded_witness :
  let s' := fst (run_tick_tape_backfill demo_repr tape_settings None (combine_kst (tape_day + 1) 18000000000) "n1" (tape_env (fun _ => DNone)) true true
    [mkTarget "005930" [tape_day] "gap"; mkTarget "000660" [tape_day] "gap"] (new_run [] None)) in
  r_posts s' = 2%nat /\ r_pages s' <= 100.
Proof.
  intros s'. split; [vm_compute; reflexivity|].
  destruct (tape_requests_bounded demo_repr tape_settings None (combine_kst (tape_day + 1) 18000000000) "n1" (tape_env (fun _ => DNone)) true true
    [mkTarget "005930" [tape_day] "gap"; mkTarget "000660" [tape_day] "gap"] [] None) as (_ & H2 & _); [vm_compute; discriminate|exact H2].
Defined.

(** ** A failed append *)

(** The gap of one trade at 09:00:02, between two received ones. *)
Definition lost_audit : list SymbolLedger :=
  [mkSymbolLedger "5930" false 2 3 1 0 1 1 0 0 0 0 [day_interval 1 1 10 12 "090001" "090003" 1001 1007] 0 None].
Definition lost_ticks : list ReceivedTick := [mkTick "5930" 90001 10 100 5; mkTick "5930" 90003 12 102 5].
Definition refill (d : tape_disk) : option (list (string * Z * Z) * list GapfillStatus) :=
  '(rows, outcomes) ← fill_gaps lost_audit lost_ticks [] (load_tape_for_symbols (fst d) tape_day ["005930"]);
  Some (map (fun r => (gr_chetime r, gr_price r, gr_volume r)) rows, map go_status outcomes).

(** The gap fill then takes for the lost trade one that was received all along; with the
    second night alone it finds the lost trade. *)
Example doubled_tape_misfills :
  refill two_disk = Some ([("090001", 100, 5)], [G_OVER]) /\
  refill (run_night demo_repr ([], None) (tape_night "n2" (fun _ => DNone))) = Some ([("090002", 101, 1)], [G_FULL]).
Proof. split; vm_compute; reflexivity. Qed.

(** A symbol's trades as the gap fill should see them. *)
Definition tape_of (symbol : string) (trades : list TapeTick) : list TapeRow :=
  map (fun t => mkTape symbol (tk_hms t) (tk_price t) (tk_volume t)) trades.

Abbreviation as_tape := (fun r => mkTape (zfill 6 (tr_symbol r)) (tr_s r) (tr_price r) (tr_volume r)).
Abbreviation wanted_rows symbol := (List.filter (fun r => bool_decide (tp_symbol r ∈ [symbol : string]))).

Lemma day_rows_tape symbol lbl ts : zfill 6 symbol = symbol -> forall n,
  wanted_rows symbol (map as_tape (day_rows symbol lbl n ts)) = tape_of symbol ts.
Proof.
  intros Hz. induction ts as [|t ts IH]; intros n; [done|]. cbn [day_rows map tr_symbol tr_s tr_price tr_volume List.filter tp_symbol].
  rewrite Hz, bool_decide_true by set_solver. cbn [tape_of map]. by rewrite IH.
Qed.

(** The trades of a symbol in one partition. *)
Lemma partition_tape symbol lbl rows ts : zfill 6 symbol = symbol ->
  of_symbol symbol rows = day_rows symbol lbl 0 ts ->
  exists rest, wanted_rows symbol (map as_tape rows) ≡ₚ tape_of symbol ts ++ rest.
Proof.
  intros Hz Ho. rewrite <- (day_rows_tape symbol lbl ts Hz 0), <- Ho.
  exists (wanted_rows symbol (map as_tape (List.filter (fun r => negb (bool_decide (tr_symbol r = symbol))) rows))).
  rewrite <- List.filter_app, <- map_app. apply filter_perm, Permutation_map. clear Ho.
  unfold of_symbol. induction rows as [|r rows IH]; [done|]. cbn. destruct (bool_decide _); cbn; [by rewrite <- IH|].
  by rewrite <- Permutation_middle, <- IH.
Qed.

Lemma load_two parts day symbol l1 l2 rows1 rows2 : l1 <> l2 -> symbol <> "" -> zfill 6 symbol = symbol ->
  dget parts (day, l1) = Some rows1 -> dget parts (day, l2) = Some rows2 ->
  exists rest, load_tape_for_symbols parts day [symbol] ≡ₚ
    wanted_rows symbol (map as_tape rows1) ++ wanted_rows symbol (map as_tape rows2) ++ rest.
Proof.
  intros Hne Hs Hz H1%dget_elem H2%dget_elem. unfold load_tape_for_symbols, day_files.
  cbn [List.filter map]. rewrite bool_decide_false by done. cbn [negb map]. rewrite Hz.
  set (F := List.filter _ parts).
  assert (E1 : ((day, l1), rows1) ∈ F) by (apply filter_elem; split; [done|]; cbn; apply Z.eqb_refl).
  assert (E2 : ((day, l2), rows2) ∈ F) by (apply filter_elem; split; [done|]; cbn; apply Z.eqb_refl).
  apply elem_of_Permutation in E1 as [F1 P1].
  rewrite P1 in E2. apply elem_of_cons in E2 as [E2|E2]; [congruence|]. apply elem_of_Permutation in E2 as [F2 P2].
  exists (wanted_rows symbol (map as_tape (concat (map snd F2)))).
  rewrite <- !List.filter_app, <- !map_app. apply filter_perm, Permutation_map.
  rewrite py_sorted_perm, P1, P2. cbn. done.
Qed.


