(* ===== verification/TapePlan.v ===== *)
(** * The plan of a backfill night ([src/marketdata/tick_tape_backfill.py])

    Which days of which symbols a night fetches: the days of the window on which the live feed
    did not cover a symbol of the universe, symbols with a pending repair first, then,
    where the overflow is enabled, the symbols the last session admitted or left out. The
    parquet tables, the calendar and the membership file are read through [PlanDisk]; the cost
    of a symbol, a float that is no NaN, comes from the daily bars and only orders the plan. *)
From Stdlib Require Import Ascii.
From S2P Require Import Prelude PyStr PyTime PyFloat PyColl ExecJournal KisTrading Membership Repair TapeLedger TapeBackfill.

(** ** Documents *)

(** [int(value or 0)]: [Some None] is a [TypeError] or [ValueError], [None] an [OverflowError]. *)
Definition int_or_zero (v : json) : option (option Z) :=
  if negb (truthy v) then Some (Some 0)
  else match v with
       | JInt z => Some (Some z)
       | JBool _ => Some (Some 1)
       | JStr s => Some (py_int (s2l s))
       | JFloat f => match int_of_float f with Ok z => Some (Some z) | Raise FNan => Some None | Raise FOverflow => None end
       | _ => Some None
       end.

Section Documents.
Context (repr : json -> string).

Definition entry_symbol (e : list (string * json)) : string := py_str repr (default JNull (dget e "symbol")).

(** [_read_universe_symbols] of a table: unreadable, without the column, or its column. *)
Definition read_universe_symbols (table : option (option (list string))) : option (list string) :=
  match table with
  | Some (Some column) => Some (fromkeys (List.filter (fun s => negb (bool_decide (s = ""))) column))
  | _ => None
  end.

(** [_read_manifest_accepted]. *)
Definition accepted_entry (v : json) : option string :=
  match v with
  | JObj e =>
      match dget e "accepted" with
      | Some (JBool true) => if bool_decide (entry_symbol e = "") then None else Some (entry_symbol e)
      | _ => None
      end
  | _ => None
  end.
Definition read_manifest_accepted (doc : option json) : list string :=
  match doc with
  | Some (JObj o) => match default (JArr []) (dget o "subscription_acks") with JArr acks => fromkeys (omap accepted_entry acks) | _ => [] end
  | _ => []
  end.

(** [_read_audit_gap_symbols]. *)
Fixpoint gap_entries (entries : list json) : option (list string) :=
  match entries with
  | [] => Some []
  | JObj e :: entries =>
      missing ← int_or_zero (default (JInt 0) (dget e "confirmed_missing"));
      rest ← gap_entries entries;
      Some (match missing with
            | Some m => if (0 <? m) && negb (bool_decide (entry_symbol e = "")) then entry_symbol e :: rest else rest
            | None => rest
            end)
  | _ :: entries => gap_entries entries
  end.
Definition read_audit_gap_symbols (doc : option json) : option (list string) :=
  match doc with
  | Some (JObj o) => match default (JArr []) (dget o "symbols") with JArr entries => fromkeys <$> gap_entries entries | _ => Some [] end
  | _ => Some []
  end.
End Documents.

(** [_prev_business_day]: the calendar cache, or else the last session of the daily bars before the
    day; [None] is the [ValueError]. *)
Definition prev_business_day (cache : Z -> option Z) (sessions : Z -> list Z) (day : Z) : option Z :=
  match cache day with Some prev => Some prev | None => last (sessions (day - 1)) end.

(** ** The plan *)

(** Costs as Python orders floats. *)
Class HintOrder (hint : Type) := {
  hint_dec :: EqDecision hint;
  hint_leb : hint -> hint -> bool;
  hint_total a b : hint_leb a b = true \/ hint_leb b a = true;
  hint_trans a b c : hint_leb a b = true -> hint_leb b c = true -> hint_leb a c = true;
  hint_antisym a b : hint_leb a b = true -> hint_leb b a = true -> a = b
}.

Record PlanDisk (hint : Type) := mkPlanDisk {
  pd_cache : Z -> option Z;                              (* the previous business day of the calendar cache *)
  pd_sessions : Z -> list Z;                             (* the sessions of the daily bars up to a day *)
  pd_universe : Z -> option (option (list string)); pd_replay : Z -> option (option (list string));
  pd_manifests : Z -> list (option json); pd_audit : Z -> option json;
  pd_hint : string -> Z -> Z -> hint;                    (* _bars_value_sum *)
  pd_membership : Z -> option (list MembershipRow)       (* None: MembershipFileError or OSError *)
}.
Arguments pd_cache {hint}. Arguments pd_sessions {hint}. Arguments pd_universe {hint}. Arguments pd_replay {hint}.
Arguments pd_manifests {hint}. Arguments pd_audit {hint}. Arguments pd_hint {hint}. Arguments pd_membership {hint}.

(** [_membership_value_order]. *)
Definition value_leb (a b : MembershipRow) : bool :=
  match m_trade_value_krw a, m_trade_value_krw b with
  | Some _, None => true
  | None, Some _ => false
  | va, vb => (default 0 vb <? default 0 va) || ((default 0 va =? default 0 vb) && str_leb (m_symbol a) (m_symbol b))
  end.

Section Plan.
Context (repr : json -> string) {hint : Type} `{HintOrder hint} (disk : PlanDisk hint) (ledger_done : list (string * Z)).

Abbreviation planned_target := (TickTapeTarget * hint)%type.

(** The union of the live and the replayed universe of the decision day. *)
Definition universe_of (decision : Z) : option (list string) :=
  match read_universe_symbols (pd_universe disk decision), read_universe_symbols (pd_replay disk decision) with
  | None, None => None
  | live, replay => Some (fromkeys (default [] live ++ default [] replay))
  end.
Definition accepted_on (day : Z) : list string := fromkeys (concat (map (read_manifest_accepted repr) (pd_manifests disk day))).

(** The day of a symbol the feed did not cover. *)
Definition wants (accepted gaps : list string) (day : Z) (symbol : string) : bool :=
  negb (bool_decide ((symbol, day) ∈ ledger_done)) && negb (bool_decide (symbol ∈ accepted) && negb (bool_decide (symbol ∈ gaps))).
Definition add_day (accepted gaps : list string) (day : Z) (by_symbol : list (string * list Z)) (symbol : string) : list (string * list Z) :=
  if wants accepted gaps day symbol then dset by_symbol symbol (default [] (dget by_symbol symbol) ++ [day]) else by_symbol.
Definition plan_day (by_symbol : list (string * list Z)) (day : Z) : option (list (string * list Z)) :=
  decision ← prev_business_day (pd_cache disk) (pd_sessions disk) day;
  match universe_of decision with
  | None | Some [] => Some by_symbol
  | Some universe =>
      gaps ← read_audit_gap_symbols repr (pd_audit disk day);
      Some (fold_left (add_day (accepted_on day) gaps day) universe by_symbol)
  end.
Fixpoint plan_days (by_symbol : list (string * list Z)) (days : list Z) : option (list (string * list Z)) :=
  match days with
  | [] => Some by_symbol
  | day :: days => by_symbol ← plan_day by_symbol day; plan_days by_symbol days
  end.

Definition note_repair (sessions : list Z) (earliest : list (string * Z)) (pair : string * Z) : list (string * Z) :=
  if negb (bool_decide (snd pair ∈ sessions)) then earliest
  else match dget earliest (fst pair) with
       | None => dset earliest (fst pair) (snd pair)
       | Some prev => if snd pair <? prev then dset earliest (fst pair) (snd pair) else earliest
       end.

Definition plan_target (earliest : list (string * Z)) (last_session : Z) (e : string * list Z) : planned_target :=
  let ascending := py_sorted Z.leb (snd e) in
  (mkTarget (fst e) ascending (if dmem earliest (fst e) then "repair" else "gap"),
   pd_hint disk (fst e) (default 0 (head ascending)) last_session).

(** The sort key: repairs, the day, the cost, the symbol. *)
Definition target_leb (earliest : list (string * Z)) (a b : planned_target) : bool :=
  let rank (t : planned_target) := if dmem earliest (tg_symbol (fst t)) then 0 else 1 in
  let day (t : planned_target) := default (default 0 (head (tg_days (fst t)))) (dget earliest (tg_symbol (fst t))) in
  (rank a <? rank b) || ((rank a =? rank b) &&
    ((day a <? day b) || ((day a =? day b) &&
      (if decide (snd a = snd b) then str_leb (tg_symbol (fst a)) (tg_symbol (fst b)) else hint_leb (snd a) (snd b))))).

(** [_overflow_targets]. *)
Definition overflow_rows (last_session : Z) (planned : list string) (p : MembershipRow -> bool) (rows : list MembershipRow) : list MembershipRow :=
  py_sorted value_leb (List.filter p (map snd (List.filter
    (fun e => negb (bool_decide (fst e ∈ planned)) && negb (bool_decide ((fst e, last_session) ∈ ledger_done))) (effective_tiers rows)))).
Definition is_tier_c (r : MembershipRow) : bool := bool_decide (m_tier r = "C").
Definition is_dynamic_b (r : MembershipRow) : bool := bool_decide (m_tier r = "B") && bool_decide (m_source r = "dynamic").
Definition overflow_target (last_session : Z) (tier : string) (row : MembershipRow) : planned_target :=
  (mkTarget (m_symbol row) [last_session] tier, pd_hint disk (m_symbol row) last_session last_session).
Definition overflow_targets (last_session : Z) (planned : list string) (overflow : TickTapeOverflow) : list planned_target :=
  match pd_membership disk last_session with
  | None => []
  | Some rows =>
      map (overflow_target last_session "B_dynamic") (overflow_rows last_session planned is_dynamic_b rows)
      ++ map (overflow_target last_session "C") (take (Z.to_nat (ov_max_symbols overflow)) (overflow_rows last_session planned is_tier_c rows))
  end.

(** [plan_tick_tape_targets]; [None] is an exception. *)
Definition plan_tick_tape_targets (sessions : list Z) (repair_symbol_days : list (string * Z)) (overflow : option TickTapeOverflow)
    : option (list planned_target) :=
  let ordered := py_sorted Z.leb (fromkeys sessions) in
  match last ordered with
  | None => Some []
  | Some last_session =>
      by_symbol ← plan_days [] ordered;
      let earliest := fold_left (note_repair ordered) repair_symbol_days [] in
      let targets := py_sorted (target_leb earliest) (map (plan_target earliest last_session) by_symbol) in
      Some (match overflow with
            | Some ov => if ov_enabled ov then targets ++ overflow_targets last_session (dkeys by_symbol) ov else targets
            | None => targets
            end)
  end.

(** [abandon_stale_tier_c]: the records of the older sessions. *)
Definition entry_leb (a b : string * MembershipRow) : bool := str_leb (fst a) (fst b).
Definition stale_of (closed : list (string * Z)) (day : Z) : list LedgerRec :=
  match pd_membership disk day with
  | None => []
  | Some rows =>
      map (fun e => mkRec day (fst e) "abandoned" 0 "stale_tier_c" "C" (Some "same_night_only"))
        (List.filter (fun e => is_tier_c (snd e) && negb (bool_decide ((fst e, day) ∈ closed))) (py_sorted entry_leb (effective_tiers rows)))
  end.
Definition stale_records (sessions : list Z) (closed : list (string * Z)) : list LedgerRec :=
  concat (map (stale_of closed) (removelast (py_sorted Z.leb (fromkeys sessions)))).
End Plan.

(** The whole call on the ledger file: the file afterwards and the rows written; [None] is an exception. *)
Definition abandon_stale_tier_c `{LedgerCodec} {hint} (repr : json -> string) (fromisoformat : string -> option Z) (disk : PlanDisk hint)
    (fault : ledger_fault) (file : option (list ascii)) (sessions : list Z) (ledger_done : list (string * Z)) (overflow : option TickTapeOverflow)
    : option (list ascii) * option Z :=
  match overflow with
  | Some ov =>
      if negb (ov_enabled ov) || (zlen (fromkeys sessions) <? 2) then (file, Some 0)
      else match read_ledger_abandoned repr fromisoformat file with
           | None => (file, None)
           | Some abandoned =>
               let records := stale_records disk sessions (ledger_done ++ abandoned) in
               let '(file, ok) := append_ledger_lines fault file records in
               (file, if (ok : bool) then Some (zlen records) else None)
           end
  | None => (file, Some 0)
  end.

(** [pending_repair_symbol_days]; the audit documents are those of the vendor ls. *)
Section Pending.
Context (repr : json -> string) (audit : Z -> option json) (tape_done : list (string * Z)).

Fixpoint pending_days (days : list Z) : option (list (string * Z)) :=
  match days with
  | [] => Some []
  | day :: days =>
      gaps ← read_audit_gap_symbols repr (audit day);
      rest ← pending_days days;
      Some (List.filter (fun p => negb (bool_decide (p ∈ tape_done))) (map (fun s => (s, day)) gaps) ++ rest)
  end.
Definition pending_repair_symbol_days (settings : RepairSettings) (days : list Z) : option (list (string * Z)) :=
  if bool_decide ("ls" ∈ repair_vendors settings) then fromkeys <$> pending_days days else Some [].
End Pending.
