(* ===== verification/TapePlanProps.v ===== *)
(** * Properties of the backfill plan

    Which days are planned, in which order, and what a night after another plans. *)
From Stdlib Require Import Ascii.
From S2P Require Import Prelude PyStr PyTime PyFloat PyColl Layout Calendar ExecJournal KisTrading Membership DiscoveryFacts Repair TapeLedger TapeBackfill TapeNights TapeProps TapePlan.

(** ** Sorting *)

(** A sorted list whose order never goes back into [p] starts with all of [p]. *)
Lemma sorted_split {A} (R : A -> A -> Prop) (p : A -> bool) l : StronglySorted R l -> (forall a b, R a b -> p b = true -> p a = true) ->
  exists l1 l2, l = l1 ++ l2 /\ Forall (fun x => p x = true) l1 /\ Forall (fun x => p x = false) l2.
Proof.
  intros Hs Hp. induction Hs as [|x l Hs IH HF]; [by exists [], []|]. destruct (p x) eqn:Ex.
  - destruct IH as (l1 & l2 & -> & H1 & H2). exists (x :: l1), l2. split; [done|]. split; [by constructor|done].
  - exists [], (x :: l). split; [done|]. split; [constructor|]. constructor; [done|]. eapply Forall_impl; [exact HF|].
    intros y Hy. destruct (p y) eqn:Ey; [|done]. by rewrite (Hp x y Hy Ey) in Ex.
Qed.

Lemma filter_Forall_false {A} (p : A -> bool) l : Forall (fun x => p x = false) l -> List.filter p l = [].
Proof. induction 1 as [|x l Hx _ IH]; cbn; [done|]. by rewrite Hx. Qed.

Section Order.
Context {hint : Type} `{HintOrder hint} (earliest : list (string * Z)).
Abbreviation leb := (target_leb earliest).

Lemma target_total a b : leb a b = true \/ leb b a = true.
Proof using.
  unfold target_leb. destruct a as [a x], b as [b y]. cbn [fst snd].
  set (ra := if dmem earliest (tg_symbol a) then 0 else 1). set (rb := if dmem earliest (tg_symbol b) then 0 else 1).
  set (da := default _ (dget earliest (tg_symbol a))). set (db := default _ (dget earliest (tg_symbol b))).
  rewrite !orb_true_iff, !andb_true_iff, !orb_true_iff, !andb_true_iff, !Z.ltb_lt, !Z.eqb_eq.
  assert (Hc : (if decide (x = y) then str_leb (tg_symbol a) (tg_symbol b) else hint_leb x y) = true \/
    (if decide (y = x) then str_leb (tg_symbol b) (tg_symbol a) else hint_leb y x) = true).
  { destruct (decide (x = y)) as [->|Hne]; [rewrite decide_True by done; apply str_leb_total|rewrite decide_False by done; apply hint_total]. }
  destruct (Z.lt_total ra rb) as [?|[Er|?]]; [tauto| |tauto]. destruct (Z.lt_total da db) as [?|[Ed|?]]; [tauto| |right; right; split; [lia|tauto]].
  destruct Hc; [left|right]; right; (split; [lia|]); right; split; [lia|done|lia|done].
Qed.

Lemma target_trans a b c : leb a b = true -> leb b c = true -> leb a c = true.
Proof using.
  unfold target_leb. destruct a as [a x], b as [b y], c as [c z]. cbn [fst snd].
  set (ra := if dmem earliest (tg_symbol a) then 0 else 1). set (rb := if dmem earliest (tg_symbol b) then 0 else 1).
  set (rc := if dmem earliest (tg_symbol c) then 0 else 1).
  set (da := default _ (dget earliest (tg_symbol a))). set (db := default _ (dget earliest (tg_symbol b))). set (dc := default _ (dget earliest (tg_symbol c))).
  rewrite !orb_true_iff, !andb_true_iff, !orb_true_iff, !andb_true_iff, !Z.ltb_lt, !Z.eqb_eq.
  intros [?|[Hr1 [?|[Hd1 Hc1]]]] [?|[Hr2 [?|[Hd2 Hc2]]]]; try (left; lia); right; (split; [lia|]); try (left; lia). right. split; [lia|].
  destruct (decide (x = y)) as [->|Hxy]; [|destruct (decide (y = z)) as [->|Hyz]].
  - destruct (decide (y = z)); [by eapply str_leb_trans|done].
  - by rewrite decide_False.
  - pose proof (hint_trans _ _ _ Hc1 Hc2). destruct (decide (x = z)) as [->|]; [|done]. by destruct Hxy; apply hint_antisym.
Qed.

(** Symbols with a pending repair never come after another. *)
Lemma target_rank a b : leb a b = true -> dmem earliest (tg_symbol (fst b)) = true -> dmem earliest (tg_symbol (fst a)) = true.
Proof using.
  unfold target_leb. intros Hl Hb. rewrite Hb in Hl. destruct (dmem earliest (tg_symbol (fst a))); [done|].
  change ((1 <? 0) || ((1 =? 0) && _)) with false in Hl. done.
Qed.
End Order.

(** ** The days of a symbol *)

Definition days_of (by_symbol : list (string * list Z)) (symbol : string) : list Z := default [] (dget by_symbol symbol).

Section Days.
Context (repr : json -> string) {hint : Type} (disk : PlanDisk hint) (ledger_done : list (string * Z)).

(** The feed did not cover the symbol on the day, though the universe of the day has it, and its tape is not settled. *)
Definition uncovered (symbol : string) (day : Z) : Prop := (symbol, day) ∉ ledger_done /\
  exists decision universe gaps, prev_business_day (pd_cache disk) (pd_sessions disk) day = Some decision /\ universe_of disk decision = Some universe /\
    symbol ∈ universe /\ read_audit_gap_symbols repr (pd_audit disk day) = Some gaps /\ (symbol ∈ accepted_on repr disk day -> symbol ∈ gaps).

Record plan_ok (by_symbol : list (string * list Z)) : Prop := {
  po_keys : NoDup (dkeys by_symbol);
  po_some : Forall (fun e => snd e <> []) by_symbol
}.

Lemma add_day_ok accepted gaps day by_symbol symbol : plan_ok by_symbol -> plan_ok (add_day ledger_done accepted gaps day by_symbol symbol).
Proof using.
  intros [H1 H2]. unfold add_day. destruct (wants _ _ _ _ _); [|by split]. split; [by apply dkeys_dset_nodup|]. apply dset_forall; [done|].
  cbn. by intros [_ ?]%app_nil.
Qed.
Lemma add_day_days accepted gaps day by_symbol symbol s d :
  d ∈ days_of (add_day ledger_done accepted gaps day by_symbol symbol) s <->
  d ∈ days_of by_symbol s \/ (d = day /\ s = symbol /\ wants ledger_done accepted gaps day s = true).
Proof using.
  unfold add_day, days_of. destruct (wants ledger_done accepted gaps day symbol) eqn:Ew.
  - destruct (decide (symbol = s)) as [->|Hne].
    + rewrite dget_dset_eq. cbn [default from_option id]. rewrite elem_of_app, list_elem_of_singleton. naive_solver.
    + rewrite dget_dset_ne by done. naive_solver.
  - split; [by left|]. intros [?|(_ & -> & Hx)]; [done|congruence].
Qed.
Lemma add_days accepted gaps day universe : forall by_symbol, plan_ok by_symbol ->
  let by_symbol' := fold_left (add_day ledger_done accepted gaps day) universe by_symbol in plan_ok by_symbol' /\
  forall s d, d ∈ days_of by_symbol' s <-> d ∈ days_of by_symbol s \/ (d = day /\ s ∈ universe /\ wants ledger_done accepted gaps day s = true).
Proof using.
  induction universe as [|u universe IH]; intros by_symbol Hok; cbn [fold_left].
  { split; [done|]. intros s d. rewrite elem_of_nil. tauto. }
  destruct (IH _ (add_day_ok accepted gaps day by_symbol u Hok)) as [H1 H2]. split; [done|]. intros s d. rewrite H2, add_day_days, elem_of_cons. tauto.
Qed.

Lemma plan_day_spec by_symbol day by_symbol' : plan_ok by_symbol -> plan_day repr disk ledger_done by_symbol day = Some by_symbol' ->
  plan_ok by_symbol' /\ forall s d, d ∈ days_of by_symbol' s <-> d ∈ days_of by_symbol s \/ (d = day /\ uncovered s day).
Proof using.
  intros Hok. unfold plan_day. destruct (prev_business_day _ _ day) as [decision|] eqn:Ep; [|done]. rewrite bind_some.
  destruct (universe_of disk decision) as [universe|] eqn:Eu.
  - assert (Hnone : universe = [] -> by_symbol' = by_symbol -> plan_ok by_symbol' /\ forall s d, d ∈ days_of by_symbol' s <-> d ∈ days_of by_symbol s \/ (d = day /\ uncovered s day)).
    { intros -> ->. split; [done|]. intros s d. split; [by left|]. intros [?|(_ & _ & dec & u & g & H1 & H2 & H3 & _)]; [done|].
      rewrite Ep in H1. injection H1 as <-. rewrite Eu in H2. injection H2 as <-. by apply elem_of_nil in H3. }
    destruct universe as [|u0 rest] eqn:El; [intros [= <-]; by apply Hnone|]. rewrite <- El in *. clear Hnone.
    destruct (read_audit_gap_symbols repr (pd_audit disk day)) as [gaps|] eqn:Eg; [|done]. rewrite bind_some. intros [= <-].
    destruct (add_days (accepted_on repr disk day) gaps day universe by_symbol Hok) as [H1 H2]. split; [done|]. intros s d. rewrite H2.
    assert (Hw : (s ∈ universe /\ wants ledger_done (accepted_on repr disk day) gaps day s = true) <-> uncovered s day); [|tauto].
    unfold uncovered, wants. rewrite andb_true_iff, !negb_true_iff, andb_false_iff, negb_false_iff, !bool_decide_eq_false, bool_decide_eq_true. split.
    + intros (Hu & Hd & Ha). split; [done|]. exists decision, universe, gaps. split_and!; try done. by destruct Ha.
    + intros (Hd & dec & u & g & J1 & J2 & J3 & J4 & J5). rewrite Ep in J1. injection J1 as <-. rewrite Eu in J2. injection J2 as <-.
      rewrite Eg in J4. injection J4 as <-. split; [done|]. split; [done|]. destruct (decide (s ∈ accepted_on repr disk day)); [right; auto|by left].
  - intros [= <-]. split; [done|]. intros s d. split; [by left|]. intros [?|(_ & _ & dec & u & g & H1 & H2 & _)]; [done|]. congruence.
Qed.

Lemma plan_days_spec days : forall by_symbol by_symbol', plan_ok by_symbol -> plan_days repr disk ledger_done by_symbol days = Some by_symbol' ->
  plan_ok by_symbol' /\ forall s d, d ∈ days_of by_symbol' s <-> d ∈ days_of by_symbol s \/ (d ∈ days /\ uncovered s d).
Proof using.
  induction days as [|day days IH]; intros by_symbol by_symbol' Hok; cbn [plan_days].
  { intros [= <-]. split; [done|]. intros s d. rewrite elem_of_nil. tauto. }
  destruct (plan_day repr disk ledger_done by_symbol day) as [b1|] eqn:E1; [|done]. rewrite bind_some. intros E2.
  destruct (plan_day_spec _ _ _ Hok E1) as [H1 H2]. destruct (IH _ _ H1 E2) as [H3 H4]. split; [done|].
  intros s d. rewrite H4, H2, elem_of_cons. naive_solver.
Qed.
End Days.

(** ** Repairs and the overflow *)

Lemma dmem_dset {K V} `{EqDecision K} (d : list (K * V)) k v k' : dmem (dset d k v) k' = bool_decide (k = k') || dmem d k'.
Proof.
  unfold dmem. destruct (decide (k = k')) as [->|Hne]; [by rewrite dget_dset_eq, bool_decide_true|by rewrite dget_dset_ne, bool_decide_false].
Qed.

Lemma note_repairs sessions pairs s : forall earliest, dmem (fold_left (note_repair sessions) pairs earliest) s = true <->
  dmem earliest s = true \/ exists day, (s, day) ∈ pairs /\ day ∈ sessions.
Proof.
  induction pairs as [|[x day] pairs IH]; intros earliest; cbn [fold_left].
  { split; [by left|]. intros [?|(d & Hd & _)]; [done|]. by apply elem_of_nil in Hd. }
  rewrite IH. unfold note_repair. cbn [fst snd].
  assert (Hs : forall P, (P \/ exists d, (s, d) ∈ (x, day) :: pairs /\ d ∈ sessions) <-> (P \/ (s = x /\ day ∈ sessions)) \/ exists d, (s, d) ∈ pairs /\ d ∈ sessions).
  { intros P. setoid_rewrite elem_of_cons. naive_solver. }
  rewrite Hs. apply or_iff_compat_r. destruct (bool_decide (day ∈ sessions)) eqn:Eb; bprop; cbn [negb]; [|tauto].
  destruct (dget earliest x) as [prev|] eqn:Ee; [destruct (day <? prev)|]; rewrite ?dmem_dset, ?orb_true_iff, ?bool_decide_eq_true.
  - split; [intros [->|?]|intros [?|[-> _]]]; tauto.
  - split; [tauto|]. intros [?|[-> _]]; [done|]. unfold dmem. by rewrite Ee.
  - split; [intros [->|?]|intros [?|[-> _]]]; tauto.
Qed.

(** The table of the effective tiers names each symbol once. *)
Lemma effective_keys rows : NoDup (dkeys (effective_tiers rows)) /\ Forall (fun e => m_symbol (snd e) = fst e) (effective_tiers rows).
Proof.
  unfold effective_tiers. assert (Hf : forall cur, NoDup (dkeys cur) /\ Forall (fun e => m_symbol (snd e) = fst e) cur ->
    NoDup (dkeys (fold_left effective_step rows cur)) /\ Forall (fun e => m_symbol (snd e) = fst e) (fold_left effective_step rows cur)).
  { induction rows as [|r rows IH]; intros cur Hc; [done|]. cbn [fold_left]. apply IH. destruct Hc as [H1 H2]. unfold effective_step.
    destruct (bool_decide _); [done|].
    assert (Hset : NoDup (dkeys (dset cur (m_symbol r) r)) /\ Forall (fun e => m_symbol (snd e) = fst e) (dset cur (m_symbol r) r))
      by (split; [by apply dkeys_dset_nodup|by apply dset_forall]).
    destruct (dget cur (m_symbol r)) as [e|]; [by destruct (_ <=? _)|done]. }
  apply Hf. split; constructor.
Qed.

Section Overflow.
Context {hint : Type} (disk : PlanDisk hint) (ledger_done : list (string * Z)).

Lemma overflow_rows_spec last_session planned p rows r : r ∈ overflow_rows ledger_done last_session planned p rows <->
  p r = true /\ m_symbol r ∉ planned /\ (m_symbol r, last_session) ∉ ledger_done /\ (m_symbol r, r) ∈ effective_tiers rows.
Proof using.
  unfold overflow_rows. rewrite py_sorted_elem, filter_elem, list_elem_of_fmap. destruct (effective_keys rows) as [_ Hk]. rewrite Forall_forall in Hk. split.
  - intros [([k x] & -> & Hx) Hp]. apply filter_elem in Hx as [Hx Hb]. specialize (Hk _ Hx). cbn [fst snd] in *. subst k. by bprop.
  - intros (Hp & H1 & H2 & H3). split; [|done]. exists (m_symbol r, r). split; [done|]. apply filter_elem. split; [done|].
    cbn [fst]. by rewrite !bool_decide_false.
Qed.
Lemma overflow_rows_nodup last_session planned p rows : NoDup (map m_symbol (overflow_rows ledger_done last_session planned p rows)).
Proof using.
  unfold overflow_rows. rewrite py_sorted_perm. destruct (effective_keys rows) as [Hn Hk].
  set (g := fun e : string * MembershipRow => _). assert (Hm : map m_symbol (map snd (List.filter g (effective_tiers rows))) = map fst (List.filter g (effective_tiers rows))).
  { rewrite map_map. apply map_ext_in. intros e He. apply list_elem_of_In, filter_elem in He as [He _]. rewrite Forall_forall in Hk. auto. }
  eapply sublist_NoDup; [|apply sublist_map, filter_sublist]. rewrite Hm. eapply sublist_NoDup; [exact Hn|]. apply sublist_map, filter_sublist.
Qed.

Lemma overflow_symbols last_session planned ov : let ts := map fst (overflow_targets disk ledger_done last_session planned ov) in
  NoDup (map tg_symbol ts) /\
  (forall t, t ∈ ts -> tg_symbol t ∉ planned /\ (tg_symbol t, last_session) ∉ ledger_done /\ tg_days t = [last_session] /\ tg_tier t ∈ ["B_dynamic"; "C"]) /\
  (length (List.filter (fun t => bool_decide (tg_tier t = "C")) ts) <= Z.to_nat (ov_max_symbols ov))%nat.
Proof using.
  unfold overflow_targets. destruct (pd_membership disk last_session) as [rows|]; [|cbn; split; [constructor|]; split; [by intros t ?%elem_of_nil|lia]].
  set (target := overflow_target disk last_session). cbn zeta. set (dyn := overflow_rows ledger_done last_session planned is_dynamic_b rows).
  set (kept := take _ (overflow_rows ledger_done last_session planned is_tier_c rows)).
  assert (Hkept : forall r, r ∈ kept -> r ∈ overflow_rows ledger_done last_session planned is_tier_c rows).
  { intros r Hr. eapply elem_of_sublist; [exact Hr|apply sublist_take]. }
  assert (Hmap : forall tier l, map tg_symbol (map fst (map (target tier) l)) = map m_symbol l) by (intros; by rewrite !map_map).
  split; [|split].
  - rewrite !map_app, !Hmap. apply NoDup_app. split; [apply overflow_rows_nodup|]. split.
    + intros s Hd Hc. apply list_elem_of_fmap in Hd as (r & -> & Hr). apply list_elem_of_fmap in Hc as (r' & Hs & Hr'). apply Hkept in Hr'.
      apply overflow_rows_spec in Hr as (P1 & _ & _ & E1). apply overflow_rows_spec in Hr' as (P2 & _ & _ & E2). rewrite <- Hs in E2.
      destruct (effective_keys rows) as [Hn _]. assert (r = r') as ->.
      { apply elem_dget in E1, E2; [|done..]. congruence. }
      unfold is_dynamic_b, is_tier_c in *. bprop. congruence.
    + eapply sublist_NoDup; [apply overflow_rows_nodup|]. apply sublist_map, sublist_take.
  - intros t Ht. rewrite map_app, elem_of_app in Ht.
    assert (exists tier r p, t = fst (target tier r) /\ tier ∈ ["B_dynamic"; "C"] /\ r ∈ overflow_rows ledger_done last_session planned p rows) as (tier & r & p & -> & Ht' & Hr).
    { destruct Ht as [Ht|Ht]; apply list_elem_of_fmap in Ht as (x & -> & Hx); apply list_elem_of_fmap in Hx as (r & -> & Hr).
      - exists "B_dynamic", r, is_dynamic_b. split; [done|]. split; [left|done].
      - exists "C", r, is_tier_c. split; [done|]. split; [right; left|by apply Hkept]. }
    apply overflow_rows_spec in Hr as (_ & H1 & H2 & _). done.
  - rewrite map_app, List.filter_app, length_app.
    assert (Hb : forall tier l, tier <> "C" -> List.filter (fun t => bool_decide (tg_tier t = "C")) (map fst (map (target tier) l)) = []).
    { intros tier l Hne. induction l as [|r l IH]; [done|]. cbn. by rewrite bool_decide_false. }
    rewrite Hb by done. cbn [length Nat.add]. etransitivity; [apply List.filter_length_le|]. rewrite !length_map. unfold kept. rewrite length_take. lia.
Qed.
End Overflow.

(** ** The plan *)

Section Main.
Context {hint : Type} `{HintOrder hint} (disk : PlanDisk hint) (earliest : list (string * Z)) (last_session : Z).
Context (by_symbol : list (string * list Z)) (Hok : plan_ok by_symbol).
Let sorted := py_sorted (target_leb earliest) (map (plan_target disk earliest last_session) by_symbol).
Let main := map fst sorted.

Lemma main_symbols : map tg_symbol main ≡ₚ dkeys by_symbol.
Proof using. unfold main, sorted. rewrite py_sorted_perm. unfold dkeys. by rewrite !map_map. Qed.

Lemma main_elem t : t ∈ main -> tg_symbol t ∈ dkeys by_symbol /\ tg_days t = py_sorted Z.leb (days_of by_symbol (tg_symbol t)) /\
  tg_tier t = (if dmem earliest (tg_symbol t) then "repair" else "gap").
Proof using Hok.
  intros Ht. apply list_elem_of_fmap in Ht as (x & -> & Hx). unfold sorted in Hx. apply py_sorted_elem, list_elem_of_fmap in Hx as ([s days] & -> & Hx).
  cbn [fst plan_target tg_symbol tg_days tg_tier]. split; [apply list_elem_of_fmap; by exists (s, days)|]. split; [|done].
  unfold days_of. by rewrite (elem_dget by_symbol s days) by (done || apply Hok).
Qed.
Lemma main_find s : s ∈ dkeys by_symbol -> exists t, t ∈ main /\ tg_symbol t = s.
Proof using. intros Hs. rewrite <- main_symbols in Hs. apply list_elem_of_fmap in Hs as (t & -> & Ht). eauto. Qed.

Lemma main_split : exists first rest, main = first ++ rest /\ Forall (fun t => tg_tier t = "repair") first /\ Forall (fun t => tg_tier t <> "repair") rest.
Proof using Hok.
  destruct (sorted_split (fun a b => target_leb earliest a b = true) (fun t => dmem earliest (tg_symbol (fst t))) sorted) as (l1 & l2 & Hs & H1 & H2).
  - apply py_sorted_strong; [apply target_total|apply target_trans].
  - intros a b. apply target_rank.
  - exists (map fst l1), (map fst l2). assert (Hm : main = map fst l1 ++ map fst l2) by (unfold main; by rewrite Hs, map_app). split; [done|].
    rewrite !Forall_map, !Forall_forall in *. split; intros x Hx; [specialize (H1 x Hx)|specialize (H2 x Hx)]; cbn in *;
      (destruct (main_elem (fst x)) as (_ & _ & ->); [rewrite Hm, elem_of_app; rewrite !list_elem_of_fmap; eauto|]); [by rewrite H1|by rewrite H2].
Qed.
End Main.

(** What the overflow adds. *)
Definition extra_targets {hint} (disk : PlanDisk hint) ledger_done last_session planned (overflow : option TickTapeOverflow) : list (TickTapeTarget * hint) :=
  match overflow with Some ov => if ov_enabled ov then overflow_targets disk ledger_done last_session planned ov else [] | None => [] end.
Lemma extra_facts {hint} (disk : PlanDisk hint) ledger_done last_session planned overflow :
  let ts := map fst (extra_targets disk ledger_done last_session planned overflow) in
  NoDup (map tg_symbol ts) /\
  (forall t, t ∈ ts -> tg_symbol t ∉ planned /\ (tg_symbol t, last_session) ∉ ledger_done /\ tg_days t = [last_session] /\ tg_tier t ∈ ["B_dynamic"; "C"] /\
     exists ov, overflow = Some ov /\ ov_enabled ov = true) /\
  (forall ov, overflow = Some ov -> (length (List.filter (fun t => bool_decide (tg_tier t = "C")) ts) <= Z.to_nat (ov_max_symbols ov))%nat).
Proof.
  assert (Hnil : extra_targets disk ledger_done last_session planned overflow = [] -> let ts := map fst (extra_targets disk ledger_done last_session planned overflow) in
    NoDup (map tg_symbol ts) /\ (forall t, t ∈ ts -> False) /\ (length (List.filter (fun t => bool_decide (tg_tier t = "C")) ts) = 0)%nat).
  { intros ->. split; [constructor|]. by split; [intros t ?%elem_of_nil|]. }
  unfold extra_targets in *. destruct overflow as [ov|]; [destruct (ov_enabled ov) eqn:Ee|].
  - destruct (overflow_symbols disk ledger_done last_session planned ov) as (H1 & H2 & H3). split; [done|]. split; [|by intros ? [= <-]].
    intros t Ht. destruct (H2 t Ht) as (? & ? & ? & ?). eauto 10.
  - destruct (Hnil eq_refl) as (H1 & H2 & H3). split; [done|]. split; [by intros t ?%H2|]. intros ? _. rewrite H3. lia.
  - destruct (Hnil eq_refl) as (H1 & H2 & H3). split; [done|]. split; [by intros t ?%H2|done].
Qed.

Lemma extra_tier x : x ∈ ["B_dynamic"; "C"] -> x <> "repair" /\ x <> "gap".
Proof. rewrite !elem_of_cons, elem_of_nil. by intros [->|[->|[]]]. Qed.
Lemma main_tier (b : bool) : (if b then "repair" else "gap") ∈ ["repair"; "gap"].
Proof. destruct b; [left|right; left]. Qed.
Lemma other_tier x : x ∈ ["repair"; "gap"] -> x ∈ ["B_dynamic"; "C"] -> False.
Proof. intros Hx [H1 H2]%extra_tier. rewrite !elem_of_cons, elem_of_nil in Hx. naive_solver. Qed.

Lemma plan_empty {hint} `{HintOrder hint} repr (disk : PlanDisk hint) ledger_done sessions repairs overflow targets :
  plan_tick_tape_targets repr disk ledger_done sessions repairs overflow = Some targets -> last (py_sorted Z.leb (fromkeys sessions)) = None ->
  targets = [] /\ forall d, d ∉ sessions.
Proof.
  unfold plan_tick_tape_targets. intros Hp El. rewrite El in Hp. injection Hp as <-. split; [done|]. intros d Hd.
  apply last_None in El. apply fromkeys_elem, (py_sorted_elem Z.leb) in Hd. rewrite El in Hd. by apply elem_of_nil in Hd.
Qed.

(** The plan of sessions that are not empty, as its two parts. *)
Lemma plan_parts {hint} `{HintOrder hint} repr (disk : PlanDisk hint) ledger_done sessions repairs overflow targets last_session :
  plan_tick_tape_targets repr disk ledger_done sessions repairs overflow = Some targets -> last (py_sorted Z.leb (fromkeys sessions)) = Some last_session ->
  exists by_symbol, let earliest := fold_left (note_repair (py_sorted Z.leb (fromkeys sessions))) repairs [] in
    plan_ok by_symbol /\ (forall s d, d ∈ days_of by_symbol s <-> d ∈ sessions /\ uncovered repr disk ledger_done s d) /\
    targets = py_sorted (target_leb earliest) (map (plan_target disk earliest last_session) by_symbol) ++ extra_targets disk ledger_done last_session (dkeys by_symbol) overflow.
Proof.
  unfold plan_tick_tape_targets. set (ordered := py_sorted Z.leb (fromkeys sessions)). intros Hp El. rewrite El in Hp.
  destruct (plan_days repr disk ledger_done [] ordered) as [by_symbol|] eqn:Ed; [|done]. rewrite bind_some in Hp. injection Hp as <-.
  destruct (plan_days_spec repr disk ledger_done ordered [] by_symbol) as [Hok Hdays]; [split; constructor|done|].
  exists by_symbol. split; [done|]. split.
  - intros s d. rewrite Hdays. unfold ordered. rewrite py_sorted_elem, fromkeys_elem. unfold days_of. cbn. rewrite elem_of_nil. tauto.
  - unfold extra_targets. destruct overflow as [ov|]; [destruct (ov_enabled ov)|]; by rewrite ?app_nil_r.
Qed.

(** C20. The plan of a night is exact. It names no symbol twice; the days of its repair and gap targets are exactly the
    days of the sessions on which the feed did not cover a symbol of the day's universe and the ledger
    has not settled it; no planned day is settled; the symbols with a pending repair come
    first and are the ones marked as repairs; the rest is the last session's overflow, with no more symbols of
    tier C than allowed. *)
Theorem tape_plan_exact {hint} `{HintOrder hint} repr (disk : PlanDisk hint) ledger_done sessions repairs overflow targets :
  plan_tick_tape_targets repr disk ledger_done sessions repairs overflow = Some targets ->
  let ts := map fst targets in
  NoDup (map tg_symbol ts) /\
  (forall symbol day, (exists t, t ∈ ts /\ tg_symbol t = symbol /\ day ∈ tg_days t /\ tg_tier t ∈ ["repair"; "gap"]) <->
     day ∈ sessions /\ uncovered repr disk ledger_done symbol day) /\
  (forall t day, t ∈ ts -> day ∈ tg_days t -> day ∈ sessions /\ (tg_symbol t, day) ∉ ledger_done) /\
  (exists first rest, ts = first ++ rest /\ Forall (fun t => tg_tier t = "repair") first /\ Forall (fun t => tg_tier t <> "repair") rest) /\
  (forall t, t ∈ ts -> tg_tier t = "repair" -> exists day, (tg_symbol t, day) ∈ repairs /\ day ∈ sessions) /\
  (forall t, t ∈ ts -> tg_tier t ∈ ["B_dynamic"; "C"] -> exists ov, overflow = Some ov /\ ov_enabled ov = true /\ last (py_sorted Z.leb (fromkeys sessions)) = head (tg_days t)) /\
  (forall ov, overflow = Some ov -> (length (List.filter (fun t => bool_decide (tg_tier t = "C")) ts) <= Z.to_nat (ov_max_symbols ov))%nat).
Proof.
  intros Hp ts. destruct (last (py_sorted Z.leb (fromkeys sessions))) as [last_session|] eqn:El.
  2: { destruct (plan_empty _ _ _ _ _ _ _ Hp El) as [-> Hnil]. clear Hp. unfold ts. clear ts.
       split; [constructor|]. split; [intros s d; split; [intros (t & Ht & _); by apply elem_of_nil in Ht|intros [Hd _]; by destruct (Hnil d)]|].
       split; [by intros t d Ht%elem_of_nil|]. split; [by exists [], []|]. split; [by intros t Ht%elem_of_nil|]. split; [by intros t Ht%elem_of_nil|].
       intros ov _. cbn. lia. }
  assert (Hlast : last_session ∈ sessions) by (apply fromkeys_elem, (py_sorted_elem Z.leb), last_Some_elem_of, El).
  destruct (plan_parts _ _ _ _ _ _ _ _ Hp El) as (by_symbol & Hok & Hdays & Ht). cbn zeta in Ht.
  set (earliest := fold_left _ repairs []) in Ht. set (main := map fst (py_sorted (target_leb earliest) (map (plan_target disk earliest last_session) by_symbol))).
  destruct (extra_facts disk ledger_done last_session (dkeys by_symbol) overflow) as (X1 & X2 & X3). set (extra := map fst (extra_targets _ _ _ _ _)) in *.
  assert (Hts : ts = main ++ extra) by (unfold ts; by rewrite Ht, map_app). clearbody ts. subst ts. clear Ht Hp.
  pose proof (main_elem disk earliest last_session by_symbol Hok) as Me. pose proof (main_find disk earliest last_session by_symbol) as Mf.
  pose proof (main_symbols disk earliest last_session by_symbol) as Ms. fold main in Me, Mf, Ms.
  assert (Hmain : forall t d, t ∈ main -> d ∈ tg_days t <-> d ∈ sessions /\ uncovered repr disk ledger_done (tg_symbol t) d).
  { intros t d Ht. destruct (Me t Ht) as (_ & -> & _). by rewrite py_sorted_elem, Hdays. }
  split; [|split; [|split; [|split; [|split; [|split]]]]].
  - rewrite map_app. apply NoDup_app. rewrite Ms. split; [apply Hok|]. split; [|done]. intros s Hs Hx. rewrite Ms in Hs.
    apply list_elem_of_fmap in Hx as (t & -> & Hx). by apply X2 in Hx as [].
  - intros s d. split.
    + intros (t & Ht & <- & Hd & Htier). apply elem_of_app in Ht as [Ht|Ht]; [by apply Hmain|]. apply X2 in Ht as (_ & _ & _ & Hx & _). by destruct (other_tier _ Htier Hx).
    + intros Hd. assert (Hk : s ∈ dkeys by_symbol).
      { apply Hdays in Hd. unfold days_of in Hd. destruct (dget by_symbol s) as [l|] eqn:Eg; [|by apply elem_of_nil in Hd].
        apply dget_elem in Eg. apply list_elem_of_fmap. by exists (s, l). }
      destruct (Mf s Hk) as (t & Ht & <-). exists t. split; [apply elem_of_app; by left|]. split; [done|]. split; [by apply Hmain|].
      destruct (Me t Ht) as (_ & _ & ->). apply main_tier.
  - intros t d Ht Hd. apply elem_of_app in Ht as [Ht|Ht].
    + apply Hmain in Hd as [H1 [H2 _]]; done.
    + apply X2 in Ht as (_ & H2 & H3 & _). rewrite H3, list_elem_of_singleton in Hd. by subst d.
  - destruct (main_split disk earliest last_session by_symbol Hok) as (l1 & l2 & Hm & H1 & H2). fold main in Hm. exists l1, (l2 ++ extra).
    rewrite Hm, app_assoc. split; [done|]. split; [done|]. apply Forall_app. split; [done|]. apply Forall_forall. intros t Ht.
    apply X2 in Ht as (_ & _ & _ & Hx%extra_tier & _); by destruct Hx.
  - intros t Ht Htier. apply elem_of_app in Ht as [Ht|Ht]; [|apply X2 in Ht as (_ & _ & _ & Hx%extra_tier & _); by destruct Hx].
    destruct (Me t Ht) as (_ & _ & Hx). rewrite Htier in Hx. destruct (dmem earliest (tg_symbol t)) eqn:Em; [|done].
    apply note_repairs in Em as [Em|(d & Hd & Hs)]; [done|]. exists d. split; [done|]. by rewrite py_sorted_elem, fromkeys_elem in Hs.
  - intros t Ht Htier. apply elem_of_app in Ht as [Ht|Ht].
    + destruct (Me t Ht) as (_ & _ & Hx). rewrite Hx in Htier. destruct (other_tier _ (main_tier _) Htier).
    + apply X2 in Ht as (_ & _ & H3 & _ & ov & H4 & H5). exists ov. by rewrite H3.
  - intros ov Hov. rewrite List.filter_app, length_app. rewrite (filter_Forall_false _ main); [by apply X3|].
    apply Forall_forall. intros t Ht. destruct (Me t Ht) as (_ & _ & ->). by destruct (dmem _ _).
Qed.

#[global] Instance z_hint : HintOrder Z.
Proof. refine {| hint_leb := Z.leb |}; intros; lia. Defined.

(** Two sessions, three symbols of the universe and one admitted during the day. The feed accepted 000200 and lost
    trades of it on the second day; 000100 was never accepted, 000300 always. *)
Definition plan_ack (symbol : string) : json := JObj [("symbol", JStr symbol); ("accepted", JBool true)].
Definition plan_gap (symbol : string) (missing : Z) : json := JObj [("symbol", JStr symbol); ("confirmed_missing", JInt missing)].
Definition plan_disk : PlanDisk Z :=
  mkPlanDisk Z (fun day => Some (day - 1)) (fun _ => []) (fun _ => Some (Some ["000300"; "000100"; "000200"])) (fun _ => None)
    (fun _ => [Some (JObj [("subscription_acks", JArr [plan_ack "000300"; plan_ack "000200"; plan_ack "000900"])])])
    (fun day => if day =? 101 then Some (JObj [("symbols", JArr [plan_gap "000200" 2; plan_gap "000300" 0; plan_gap "000900" 1])]) else None)
    (fun _ _ _ => 5)
    (fun _ => Some [mkRow "000900" "B" "dynamic" 7 None None (Some 1) None (Some 9) None; mkRow "000800" "C" "static" 7 None None None None (Some 8) None]).
Definition plan_repr (_ : json) : string := "?".

Lemma tape_plan_exact_witness :
  option_map (map fst) (plan_tick_tape_targets plan_repr plan_disk [("000100", 100)] [100; 101] [("000200", 101)] (Some (mkOverflow true 5 0))) =
    Some [mkTarget "000200" [101] "repair"; mkTarget "000100" [101] "gap"; mkTarget "000900" [101] "B_dynamic"; mkTarget "000800" [101] "C"] /\
  exists targets, plan_tick_tape_targets plan_repr plan_disk [("000100", 100)] [100; 101] [("000200", 101)] (Some (mkOverflow true 5 0)) = Some targets /\
    NoDup (map tg_symbol (map fst targets)).
Proof.
  split; [vm_compute; reflexivity|].
  destruct (plan_tick_tape_targets plan_repr plan_disk [("000100", 100)] [100; 101] [("000200", 101)] (Some (mkOverflow true 5 0))) as [targets|] eqn:E;
    [|vm_compute in E; discriminate].
  exists targets. split; [reflexivity|]. apply (tape_plan_exact plan_repr plan_disk [("000100", 100)] [100; 101] [("000200", 101)] (Some (mkOverflow true 5 0)) targets E).
Defined.

(** ** A pending repair outside the universe *)

(** C39. A symbol the discovery admitted during the day is subscribed, and its losses are audited and await the
    tape; but no plan whose last session is another day has that day of it, whatever repairs are pending:
    only symbols of the day's universe are planned, and the overflow covers the last session alone. *)
Theorem dynamic_gap_never_planned {hint} `{HintOrder hint} repr (disk : PlanDisk hint) ledger_done sessions repairs overflow targets symbol day decision universe :
  prev_business_day (pd_cache disk) (pd_sessions disk) day = Some decision -> universe_of disk decision = Some universe -> symbol ∉ universe ->
  last (py_sorted Z.leb (fromkeys sessions)) <> Some day ->
  plan_tick_tape_targets repr disk ledger_done sessions repairs overflow = Some targets ->
  forall t, t ∈ map fst targets -> tg_symbol t = symbol -> day ∉ tg_days t.
Proof.
  intros Hd Hu Hs Hl Hp t Ht <- Hday. destruct (last (py_sorted Z.leb (fromkeys sessions))) as [last_session|] eqn:El.
  2: { destruct (plan_empty _ _ _ _ _ _ _ Hp El) as [-> _]. by apply elem_of_nil in Ht. }
  destruct (plan_parts _ _ _ _ _ _ _ _ Hp El) as (by_symbol & Hok & Hdays & Heq). cbn zeta in Heq. rewrite Heq, map_app, elem_of_app in Ht.
  destruct Ht as [Ht|Ht].
  - apply main_elem in Ht as (_ & Hx & _); [|done]. rewrite Hx, py_sorted_elem, Hdays in Hday. destruct Hday as (_ & _ & dec & u & g & J1 & J2 & J3 & _). congruence.
  - apply extra_facts in Ht as (_ & _ & Hx & _). rewrite Hx, list_elem_of_singleton in Hday. by subst day.
Qed.

(** The admitted symbol 000900 lost trades on day 101, its repair is pending, and the plan of the next
    session leaves it out. *)
Lemma dynamic_gap_never_planned_witness :
  pending_repair_symbol_days plan_repr (pd_audit plan_disk) [] (mkRepairSettings true true 30 ["ls"] ["ls"] [] []) [100; 101; 102] =
    Some [("000200", 101); ("000900", 101)] /\
  forall targets, plan_tick_tape_targets plan_repr plan_disk [] [100; 101; 102] [("000200", 101); ("000900", 101)] (Some (mkOverflow true 5 0)) = Some targets ->
    map tg_symbol (map fst targets) = ["000200"; "000100"; "000900"; "000800"] /\
    forall t, t ∈ map fst targets -> tg_symbol t = "000900" -> 101 ∉ tg_days t.
Proof.
  split; [vm_compute; reflexivity|]. intros targets Hp. split; [vm_compute in Hp; injection Hp as <-; reflexivity|].
  apply (dynamic_gap_never_planned plan_repr plan_disk [] [100; 101; 102] [("000200", 101); ("000900", 101)] (Some (mkOverflow true 5 0)) targets "000900" 101 100
    ["000300"; "000100"; "000200"]); [reflexivity|vm_compute; reflexivity| |vm_compute; discriminate|exact Hp].
  rewrite !elem_of_cons, elem_of_nil. intuition discriminate.
Defined.

(** ** Stale symbols of tier C *)

Section Stale.
Context {hint : Type} (disk : PlanDisk hint).

Lemma stale_elem sessions closed r : r ∈ stale_records disk sessions closed -> exists day, day ∈ sessions /\ r ∈ stale_of disk closed day /\
  lr_status r = "abandoned" /\ lr_date r = day /\ (lr_symbol r, day) ∉ closed.
Proof using.
  unfold stale_records. intros Hr. apply list_elem_of_In, in_concat in Hr as (l & Hl & Hr). apply in_map_iff in Hl as (day & <- & Hday).
  exists day. split.
  - apply fromkeys_elem, (py_sorted_elem Z.leb), list_elem_of_In. destruct (py_sorted Z.leb (fromkeys sessions)) as [|x l _] using rev_ind; [done|].
    rewrite removelast_last in Hday. apply in_or_app. by left.
  - apply list_elem_of_In in Hr. split; [done|]. unfold stale_of in Hr. destruct (pd_membership disk day) as [rows|]; [|by apply elem_of_nil in Hr].
    apply list_elem_of_fmap in Hr as (e & -> & He). apply filter_elem in He as [_ Hb]. by bprop.
Qed.

(** Closing the days of the records leaves none. *)
Lemma stale_closed sessions closed closed' : (forall p, p ∈ closed -> p ∈ closed') ->
  (forall r, r ∈ stale_records disk sessions closed -> (lr_symbol r, lr_date r) ∈ closed') -> stale_records disk sessions closed' = [].
Proof using.
  intros Hc Hr. unfold stale_records in *. set (days := removelast _) in *. clearbody days.
  induction days as [|day days IH]; [done|]. cbn [map concat] in *. rewrite IH; [|intros r Hx; apply Hr, elem_of_app; by right].
  rewrite app_nil_r. destruct (stale_of disk closed' day) as [|r l] eqn:Es; [done|].
  assert (Hin : r ∈ stale_of disk closed' day) by (rewrite Es; left). unfold stale_of in Hin. destruct (pd_membership disk day) as [rows|] eqn:Em; [|by apply elem_of_nil in Hin].
  apply list_elem_of_fmap in Hin as (e & -> & He). apply filter_elem in He as [He Hb]. bprop.
  assert ((fst e, day) ∈ closed') as Hx; [|done].
  apply (Hr (mkRec day (fst e) "abandoned" 0 "stale_tier_c" "C" (Some "same_night_only"))), elem_of_app. left. unfold stale_of. rewrite Em.
  apply list_elem_of_fmap. exists e. split; [done|]. apply filter_elem. split; [done|]. apply andb_true_iff. split; [done|].
  apply negb_true_iff, bool_decide_eq_false. intros Hin. by apply Hc in Hin.
Qed.
End Stale.

(** Symbols of tier C left over from older sessions are given up once: after a call that returned, a second call finds
    nothing to write and leaves the ledger as it is. *)
Theorem stale_abandoned_once `{LedgerLaws} {hint} repr fromisoformat (disk : PlanDisk hint) file recs sessions ledger_done overflow file' n :
  (forall day, day ∈ sessions -> fromisoformat (date_isoformat day) = Some day) ->
  ledger_holds (default [] file) recs ->
  abandon_stale_tier_c repr fromisoformat disk LNone file sessions ledger_done overflow = (file', Some n) ->
  abandon_stale_tier_c repr fromisoformat disk LNone file' sessions ledger_done overflow = (file', Some 0).
Proof.
  intros Hiso Hh. unfold abandon_stale_tier_c. destruct overflow as [ov|]; [|by intros [= <- <-]].
  destruct (negb (ov_enabled ov) || (zlen (fromkeys sessions) <? 2)); [by intros [= <- <-]|].
  destruct (pairs_records repr fromisoformat file recs LEDGER_ABANDONED_STATUSES Hh) as (ab & Hab & Hin). unfold read_ledger_abandoned. rewrite Hab.
  set (records := stale_records disk sessions (ledger_done ++ ab)). destruct (append_ledger_lines LNone file records) as [f ok] eqn:Ea. intros [= <- Hn].
  destruct ok; [|done]. destruct (append_holds LNone file recs records f true Hh Ea) as (k & Hk & Hall). rewrite (Hall eq_refl) in Hk.
  destruct (pairs_records repr fromisoformat f (recs ++ records) LEDGER_ABANDONED_STATUSES Hk) as (ab' & Hab' & Hin'). rewrite Hab'.
  rewrite (stale_closed disk sessions (ledger_done ++ ab)); [done| |].
  - intros [s d]. rewrite !elem_of_app. intros [?|Hx]; [by left|right]. apply Hin in Hx as (r & Hr & Hs). apply Hin'. exists r. split; [apply elem_of_app; by left|done].
  - intros r Hr. apply elem_of_app. right. destruct (stale_elem disk sessions _ r Hr) as (day & Hd & _ & Hst & Hdate & _). apply Hin'. exists r.
    split; [apply elem_of_app; by right|]. split; [rewrite Hst; left|]. split; [done|]. rewrite Hdate. by apply Hiso.
Qed.

Lemma stale_abandoned_once_witness :
  let days := [20757; 20758] in
  let first := abandon_stale_tier_c plan_repr tape_iso plan_disk LNone None days [] (Some (mkOverflow true 5 0)) in
  snd first = Some 1 /\
  abandon_stale_tier_c plan_repr tape_iso plan_disk LNone (fst first) days [] (Some (mkOverflow true 5 0)) = (fst first, Some 0).
Proof.
  intros days first. split; [vm_compute; reflexivity|].
  apply (stale_abandoned_once plan_repr tape_iso plan_disk None [] days [] (Some (mkOverflow true 5 0)) (fst first) 1).
  - intros day Hd. apply iso_date_isoformat. unfold days in Hd. rewrite !elem_of_cons, elem_of_nil in Hd. destruct Hd as [->|[->|[]]]; vm_compute; reflexivity.
  - exact (holds_lines []).
  - unfold first. vm_compute. reflexivity.
Defined.
