(* ===== verification/RepairAlerts.v ===== *)
(** * Repair alerts of the daemon ([src/orchestration/daemon.py])

    At the end of a day the daemon lists the days whose repair is not done
    ([_repair_days_summary]), pages for the days the tape was tried for in vain
    ([_repair_exhausted]) and for the days that are late for another reason
    ([_repair_overdue]). The state of a day is that of the repair gate; the tape ledger is
    read from its file, and an unreadable one counts as empty. *)
From Stdlib Require Import Ascii.
From S2P Require Import Prelude PyStr PyTime PyColl ExecJournal KisTrading Repair TapeLedger TapeBackfill TapePlan TapePlanProps TapeProps.

Record AlertSettings := mkAlertSettings { as_repair : RepairSettings; as_overdue_days : Z; as_overdue_attempts : Z; as_retain_days : Z; as_lead_days : Z }.

Section Alerts.
Context `{LedgerCodec} (repr : json -> string) (fromisoformat : string -> option Z).
Context (decode_audit : string -> option RepairAudit) (decode_report : string -> option GapfillReport) (sha256 : string -> string).
Context (ev : Evidence) (audit : Z -> option json) (ledger : option (list ascii)) (cfg : AlertSettings).

Definition tape_done : list (string * Z) := default [] (read_ledger_done repr fromisoformat ledger).
(** [_load_repair_attempts]. *)
Definition load_repair_attempts : list ((string * Z) * Z) := default [] (read_ledger_attempts repr fromisoformat ledger).

Definition state_on (day : Z) (vendor : string) : RepairState :=
  dr_state (derive_day_repair decode_audit decode_report sha256 ev (as_repair cfg) tape_done day vendor).

(** The days from the horizon up to the reference day. *)
Definition horizon (ref_day : Z) : list Z :=
  let span := as_retain_days cfg + hold_max_extra_days (as_repair cfg) + 1 in
  map (fun k => ref_day - span + Z.of_nat k) (seq 0 (Z.to_nat (span + 1))).

(** [_day_tape_attempts]; [None] is an exception. *)
Definition day_tape_attempts (day : Z) : option Z :=
  pending ← pending_repair_symbol_days repr audit tape_done (as_repair cfg) [day];
  Some (fold_left (fun best pair => let count := default 0 (dget load_repair_attempts pair) in if best <? count then count else best) pending 0).

(** The pairs a scan visits: [vendors] with a trace of the day. *)
Definition visited (vendors : list string) (days : list Z) : list (Z * string) :=
  concat (map (fun day => map (fun v => (day, v)) (List.filter (traced ev day) vendors)) days).

Definition alert_text (day : Z) (vendor : string) (s : RepairState) : string :=
  String.append (date_isoformat day) (String.append ":" (String.append vendor (String.append ":" (repair_state_value s)))).

(** [_repair_days_summary]: the days and vendors, and the text. *)
Definition unfinished (ref_day : Z) : list (Z * string) :=
  List.filter (fun p => negb (settled (state_on (fst p) (snd p)))) (visited (gate_vendors (as_repair cfg)) (horizon ref_day)).
Definition repair_days_summary (ref_day : Z) : string :=
  match unfinished ref_day with
  | [] => "none"
  | l => String.concat "," (map (fun p => alert_text (fst p) (snd p) (state_on (fst p) (snd p))) l)
  end.

(** [_repair_exhausted]: the pairs with their attempts, and the texts. *)
Fixpoint exhausted_of (pairs : list (Z * string)) : option (list ((Z * string) * Z)) :=
  match pairs with
  | [] => Some []
  | (day, vendor) :: pairs =>
      if negb (bool_decide (state_on day vendor = TAPE_PENDING)) then exhausted_of pairs
      else
        count ← day_tape_attempts day;
        rest ← exhausted_of pairs;
        Some (if as_overdue_attempts cfg <=? count then ((day, vendor), count) :: rest else rest)
  end.
Definition exhausted (ref_day : Z) : option (list ((Z * string) * Z)) :=
  exhausted_of (visited (repair_vendors (as_repair cfg)) (horizon ref_day)).
Definition repair_exhausted (ref_day : Z) : option (list string) :=
  map (fun e => String.append (alert_text (fst (fst e)) (snd (fst e)) (state_on (fst (fst e)) (snd (fst e))))
                  (String.append ":attempts=" (str_of_Z (snd e)))) <$> exhausted ref_day.

(** [_repair_overdue]. *)
Fixpoint overdue_of (pairs : list (Z * string)) : option (list (Z * string)) :=
  match pairs with
  | [] => Some []
  | (day, vendor) :: pairs =>
      if settled (state_on day vendor) then overdue_of pairs
      else
        skip ← (if bool_decide (state_on day vendor = TAPE_PENDING)
                then count ← day_tape_attempts day; Some (as_overdue_attempts cfg <=? count) else Some false);
        rest ← overdue_of pairs;
        Some (if (skip : bool) then rest else (day, vendor) :: rest)
  end.
Definition overdue (ref_day : Z) : option (list (Z * string)) :=
  overdue_of (visited (repair_vendors (as_repair cfg)) (List.filter (fun day => as_overdue_days cfg <=? ref_day - day) (horizon ref_day))).
Definition repair_overdue (ref_day : Z) : option (list string) :=
  map (fun p => alert_text (fst p) (snd p) (state_on (fst p) (snd p))) <$> overdue ref_day.

(** [_repair_expiring]: the pairs with the day whose housekeeping deletes them. *)
Definition expiring_days (ref_day : Z) : list Z :=
  let horizon := as_retain_days cfg + hold_max_extra_days (as_repair cfg) in
  let least := Z.max (horizon + 1 - as_lead_days cfg) 0 in
  map (fun k => ref_day - horizon + Z.of_nat k) (seq 0 (Z.to_nat (horizon - least + 1))).
Definition repair_expiring (ref_day : Z) : list ((Z * string) * Z) :=
  if negb (hold_enabled (as_repair cfg)) then []
  else
    map (fun p => (p, fst p + (as_retain_days cfg + hold_max_extra_days (as_repair cfg) + 1)))
      (List.filter (fun p => negb (settled (state_on (fst p) (snd p))))
         (concat (map (fun day => map (fun v => (day, v)) (List.filter (ev_partition ev day) (gate_vendors (as_repair cfg)))) (expiring_days ref_day)))).

(** ** What the alerts cover *)

Lemma horizon_elem ref_day day : day ∈ horizon ref_day <-> ref_day - (as_retain_days cfg + hold_max_extra_days (as_repair cfg) + 1) <= day <= ref_day.
Proof using.
  unfold horizon. rewrite list_elem_of_fmap. setoid_rewrite list_elem_of_In. setoid_rewrite in_seq. split.
  - intros (k & -> & Hk). lia.
  - intros Hd. eexists (Z.to_nat (day - (ref_day - (as_retain_days cfg + hold_max_extra_days (as_repair cfg) + 1)))). lia.
Qed.
Lemma visited_elem vendors days day vendor : (day, vendor) ∈ visited vendors days <-> day ∈ days /\ vendor ∈ vendors /\ traced ev day vendor = true.
Proof using.
  unfold visited. rewrite list_elem_of_In, in_concat. setoid_rewrite in_map_iff. split.
  - intros (l & (d & <- & Hd) & Hl). apply in_map_iff in Hl as (v & [= <- <-] & Hv). apply filter_In in Hv as [Hv Ht]. rewrite !list_elem_of_In. done.
  - intros (Hd & Hv & Ht). eexists. split; [exists day; split; [done|by apply list_elem_of_In]|]. apply in_map, filter_In. split; [by apply list_elem_of_In|done].
Qed.

(** The tape of the day was tried often enough in vain. *)
Definition tried_enough (day : Z) (vendor : string) : Prop :=
  state_on day vendor = TAPE_PENDING /\ exists count, day_tape_attempts day = Some count /\ as_overdue_attempts cfg <= count.

Lemma exhausted_spec pairs : forall l, exhausted_of pairs = Some l -> forall p, p ∈ map fst l <-> p ∈ pairs /\ tried_enough (fst p) (snd p).
Proof using.
  induction pairs as [|[d v] pairs IH]; intros l; cbn [exhausted_of]; [intros [= <-] p; cbn; rewrite elem_of_nil; tauto|].
  destruct (bool_decide (state_on d v = TAPE_PENDING)) eqn:Es; bprop; cbn [negb].
  - destruct (day_tape_attempts d) as [count|] eqn:Ec; [|done]. rewrite bind_some. destruct (exhausted_of pairs) as [rest|]; [|done]. rewrite bind_some.
    intros [= <-] p. specialize (IH rest eq_refl p). rewrite elem_of_cons. destruct (as_overdue_attempts cfg <=? count) eqn:Eo; bprop.
    + cbn [map fst]. rewrite elem_of_cons, IH. split; [|tauto]. intros [->|?]; [|tauto]. split; [by left|]. split; [done|]. eauto.
    + rewrite IH. split; [tauto|]. intros [[->|?] Ht]; [|done]. destruct Ht as (_ & c & Hc & Hle). cbn [fst] in Hc. rewrite Ec in Hc. injection Hc as <-. lia.
  - intros Hl p. rewrite (IH l Hl p), elem_of_cons. split; [tauto|]. intros [[->|?] Ht]; [by destruct Ht as [Ht _]|done].
Qed.

Lemma exhausted_counts pairs : forall l, exhausted_of pairs = Some l -> forall day vendor count, ((day, vendor), count) ∈ l ->
  day_tape_attempts day = Some count /\ as_overdue_attempts cfg <= count.
Proof using.
  induction pairs as [|[d v] pairs IH]; intros l; cbn [exhausted_of]; [intros [= <-] day vendor count Hin; by apply elem_of_nil in Hin|].
  destruct (negb _); [apply IH|]. destruct (day_tape_attempts d) as [c|] eqn:Ec; [|done]. rewrite bind_some.
  destruct (exhausted_of pairs) as [rest|]; [|done]. rewrite bind_some. intros [= <-] day vendor count Hin. specialize (IH rest eq_refl day vendor count).
  destruct (as_overdue_attempts cfg <=? c) eqn:Eo; [|by apply IH]. bprop. apply elem_of_cons in Hin as [[= -> -> ->]|Hin]; [done|by apply IH].
Qed.

Lemma skip_spec day vendor skip :
  (if bool_decide (state_on day vendor = TAPE_PENDING) then count ← day_tape_attempts day; Some (as_overdue_attempts cfg <=? count) else Some false) = Some skip ->
  skip = true <-> tried_enough day vendor.
Proof using.
  unfold tried_enough. destruct (bool_decide _) eqn:Ep; bprop.
  - destruct (day_tape_attempts day) as [count|] eqn:Ec; [|done]. rewrite bind_some. intros [= <-]. rewrite Z.leb_le. split; [eauto|].
    intros (_ & c & [= <-] & Hc). done.
  - intros [= <-]. split; [done|tauto].
Qed.
Lemma overdue_spec pairs : forall l, overdue_of pairs = Some l -> forall p, p ∈ l <-> p ∈ pairs /\ settled (state_on (fst p) (snd p)) = false /\ ~ tried_enough (fst p) (snd p).
Proof using.
  induction pairs as [|[d v] pairs IH]; intros l; cbn [overdue_of]; [intros [= <-] p; rewrite elem_of_nil; tauto|].
  destruct (settled (state_on d v)) eqn:Es.
  { intros Hl p. rewrite (IH l Hl p), elem_of_cons. split; [tauto|]. intros [[->|?] Ht]; [cbn [fst snd] in Ht; destruct Ht; congruence|done]. }
  match goal with |- context [mbind _ ?c] => destruct c as [skip|] eqn:Ek end; [|done]. rewrite bind_some. apply skip_spec in Ek.
  destruct (overdue_of pairs) as [rest|]; [|done]. rewrite bind_some. intros [= <-] p. specialize (IH rest eq_refl p). rewrite elem_of_cons. destruct skip.
  - rewrite IH. split; [tauto|]. intros [[->|?] [? Ht]]; [destruct Ht; by apply Ek|tauto].
  - rewrite elem_of_cons, IH. split; [|tauto]. intros [->|?]; [|tauto]. split; [by left|]. split; [done|]. cbn [fst snd]. rewrite <- Ek. done.
Qed.
End Alerts.

(** C21. The alerts of a night name exactly the days they should, when computing them
    raises nothing. The exhausted list has exactly the pairs of a repair vendor and a day of
    the horizon (of any age) that left a trace, wait for their tape and were tried at
    least the configured number of times, each with its number of tries; the overdue list exactly the traced,
    unfinished pairs of a repair vendor and a day of the horizon at least the configured
    age that are not exhausted in that sense; so every traced, unfinished pair of a repair vendor and
    a day that old is in exactly one of the two; and the summary has exactly the traced,
    unfinished pairs of a gate vendor and a day of the horizon. *)
Theorem repair_alerts_complete `{LedgerCodec} repr fromisoformat decode_audit decode_report sha256 ev audit ledger cfg ref_day gone late :
  exhausted repr fromisoformat decode_audit decode_report sha256 ev audit ledger cfg ref_day = Some gone ->
  overdue repr fromisoformat decode_audit decode_report sha256 ev audit ledger cfg ref_day = Some late ->
  let state := state_on repr fromisoformat decode_audit decode_report sha256 ev ledger cfg in
  let attempts := day_tape_attempts repr fromisoformat audit ledger cfg in
  let span := as_retain_days cfg + hold_max_extra_days (as_repair cfg) + 1 in
  let in_horizon day := ref_day - span <= day <= ref_day in
  let waiting day vendor := vendor ∈ repair_vendors (as_repair cfg) /\ traced ev day vendor = true /\ state day vendor = TAPE_PENDING /\
    exists count, attempts day = Some count /\ as_overdue_attempts cfg <= count in
  (forall day vendor, (day, vendor) ∈ map fst gone <-> in_horizon day /\ waiting day vendor) /\
  (forall day vendor count, ((day, vendor), count) ∈ gone -> attempts day = Some count /\ as_overdue_attempts cfg <= count) /\
  (forall day vendor, (day, vendor) ∈ late <-> in_horizon day /\ as_overdue_days cfg <= ref_day - day /\
     vendor ∈ repair_vendors (as_repair cfg) /\ traced ev day vendor = true /\ settled (state day vendor) = false /\ ~ waiting day vendor) /\
  (forall day vendor, in_horizon day -> as_overdue_days cfg <= ref_day - day ->
     vendor ∈ repair_vendors (as_repair cfg) -> traced ev day vendor = true -> settled (state day vendor) = false ->
     ((day, vendor) ∈ map fst gone /\ (day, vendor) ∉ late) \/ ((day, vendor) ∉ map fst gone /\ (day, vendor) ∈ late)) /\
  (forall day vendor, (day, vendor) ∈ unfinished repr fromisoformat decode_audit decode_report sha256 ev ledger cfg ref_day <->
     in_horizon day /\ vendor ∈ gate_vendors (as_repair cfg) /\ traced ev day vendor = true /\ settled (state day vendor) = false).
Proof.
  intros Hg Hl state attempts span in_horizon waiting. pose proof (exhausted_spec _ _ _ _ _ _ _ _ _ _ _ Hg) as Gs.
  pose proof (overdue_spec _ _ _ _ _ _ _ _ _ _ _ Hl) as Ls. pose proof (exhausted_counts _ _ _ _ _ _ _ _ _ _ _ Hg) as Gc.
  assert (Gx : forall day vendor, (day, vendor) ∈ map fst gone <-> in_horizon day /\ waiting day vendor).
  { intros day vendor. rewrite (Gs (day, vendor)), visited_elem, horizon_elem. cbn [fst snd]. unfold tried_enough, waiting, in_horizon, span, state, attempts. tauto. }
  assert (Lx : forall day vendor, (day, vendor) ∈ late <-> in_horizon day /\ as_overdue_days cfg <= ref_day - day /\
     vendor ∈ repair_vendors (as_repair cfg) /\ traced ev day vendor = true /\ settled (state day vendor) = false /\ ~ waiting day vendor).
  { intros day vendor. rewrite (Ls (day, vendor)), visited_elem, filter_elem, horizon_elem, Z.leb_le. cbn [fst snd]. unfold tried_enough, waiting, in_horizon, span, state, attempts. tauto. }
  split_and!; [exact Gx|exact Gc|exact Lx| |].
  - intros day vendor Hd Ha Hv Ht Hs. rewrite Gx, Lx.
    assert (Hdec : waiting day vendor \/ ~ waiting day vendor).
    { unfold waiting. destruct (decide (state day vendor = TAPE_PENDING)); [|tauto].
      destruct (attempts day) as [count|]; [|right; intros (_ & _ & _ & c & ? & _); done].
      destruct (decide (as_overdue_attempts cfg <= count)); [left; eauto 10|right; intros (_ & _ & _ & c & [= <-] & ?); lia]. }
    tauto.
  - intros day vendor. unfold unfinished. rewrite filter_elem, visited_elem, horizon_elem, negb_true_iff. cbn [fst snd]. unfold in_horizon, span, state. tauto.
Qed.

Section Expiry.
Context `{LedgerCodec} (repr : json -> string) (fromisoformat : string -> option Z).
Context (decode_audit : string -> option RepairAudit) (decode_report : string -> option GapfillReport) (sha256 : string -> string).
Context (ev : Evidence) (ledger : option (list ascii)) (cfg : AlertSettings).
Let state := state_on repr fromisoformat decode_audit decode_report sha256 ev ledger cfg.
Let held := as_retain_days cfg + hold_max_extra_days (as_repair cfg).

Lemma expiring_elem ref_day day vendor delete_on : hold_enabled (as_repair cfg) = true ->
  ((day, vendor), delete_on) ∈ repair_expiring repr fromisoformat decode_audit decode_report sha256 ev ledger cfg ref_day <->
  delete_on = day + (held + 1) /\ Z.max (held + 1 - as_lead_days cfg) 0 <= ref_day - day <= held /\
  vendor ∈ gate_vendors (as_repair cfg) /\ ev_partition ev day vendor = true /\ settled (state day vendor) = false.
Proof using.
  intros He. unfold repair_expiring. rewrite He. cbn [negb]. rewrite list_elem_of_fmap. setoid_rewrite filter_elem. setoid_rewrite list_elem_of_In. setoid_rewrite in_concat. split.
  - intros (p & [= <- ->] & (l & Hl & Hin) & Hs). apply in_map_iff in Hl as (d & <- & Hd). apply in_map_iff in Hin as (v & [= <- <-] & Hv).
    apply filter_In in Hv as [Hv Hp]. unfold expiring_days in Hd. apply in_map_iff in Hd as (k & <- & Hk). apply in_seq in Hk. cbn [fst snd] in *. bprop.
    split; [done|]. split; [fold held in Hk |- *; lia|]. split; [done|]. by split.
  - intros (-> & Hd & Hv & Hp & Hs). exists (day, vendor). cbn [fst snd]. split; [done|]. split; [|unfold state in Hs; by rewrite Hs].
    exists (map (fun v => (day, v)) (List.filter (ev_partition ev day) (gate_vendors (as_repair cfg)))). split.
    + apply in_map_iff. exists day. split; [done|]. unfold expiring_days. fold held. apply in_map_iff. exists (Z.to_nat (day - (ref_day - held))).
      split; [lia|]. apply in_seq. lia.
    + apply in_map_iff. exists vendor. split; [done|]. apply filter_In. by split.
Qed.

(** The hold of an unfinished partition, day by day. *)
Lemma hold_until rel day vendor eod : hold_enabled (as_repair cfg) = true -> audited_tick_vendor (as_repair cfg) rel = Some vendor -> settled (state day vendor) = false ->
  l0_hold_reason decode_audit decode_report sha256 ev (as_repair cfg) (tape_done repr fromisoformat ledger) rel day (eod - as_retain_days cfg) = None <-> day + (held + 1) <= eod.
Proof using.
  intros He Hv Hs. unfold l0_hold_reason. rewrite He, Hv. cbn [negb]. rewrite bind_some. unfold pending_repair. unfold state, state_on in Hs. rewrite Hs. cbn [negb].
  rewrite bind_some. unfold held. destruct (Z.ltb_spec (hold_max_extra_days (as_repair cfg)) (eod - as_retain_days cfg - day)); split; intros; (done || lia).
Qed.
End Expiry.

(** C22. The pages before a deletion are right and in time: on each of the last days before it, every unfinished trade
    partition is announced with the day the hold ends, and only those; the day announced is exactly
    the first one whose housekeeping no longer holds the partition. *)
Theorem repair_expiry_announced `{LedgerCodec} repr fromisoformat decode_audit decode_report sha256 ev ledger cfg ref_day :
  hold_enabled (as_repair cfg) = true -> 0 <= as_retain_days cfg + hold_max_extra_days (as_repair cfg) ->
  let state := state_on repr fromisoformat decode_audit decode_report sha256 ev ledger cfg in
  let pages := repair_expiring repr fromisoformat decode_audit decode_report sha256 ev ledger cfg ref_day in
  let last_day day := day + (as_retain_days cfg + hold_max_extra_days (as_repair cfg) + 1) in
  (forall day vendor, vendor ∈ gate_vendors (as_repair cfg) -> ev_partition ev day vendor = true -> settled (state day vendor) = false ->
     day <= ref_day -> last_day day - as_lead_days cfg <= ref_day < last_day day -> ((day, vendor), last_day day) ∈ pages) /\
  (forall day vendor delete_on, ((day, vendor), delete_on) ∈ pages ->
     settled (state day vendor) = false /\ ref_day < delete_on <= ref_day + as_lead_days cfg /\
     forall rel eod, audited_tick_vendor (as_repair cfg) rel = Some vendor ->
       l0_hold_reason decode_audit decode_report sha256 ev (as_repair cfg) (tape_done repr fromisoformat ledger) rel day (eod - as_retain_days cfg) = None <-> delete_on <= eod).
Proof.
  intros He H0' state pages last_day. split.
  - intros day vendor Hv Hp Hs Hr Hd. unfold pages. rewrite expiring_elem by done. unfold last_day in *. repeat (split; [done || lia|]). done.
  - intros day vendor delete_on Hin. unfold pages in Hin. apply expiring_elem in Hin as (-> & Hr & Hv & Hp & Hs); [|done]. split; [done|].
    split; [lia|]. intros rel eod Ha. by apply hold_until with (vendor := vendor).
Qed.

(** Two days with losses; the tape of the first failed in two runs, that of the second was not tried. *)
Definition alert_day1 : Z := 20757.
Definition alert_day2 : Z := 20758.
Definition alert_decode (bytes : string) : option RepairAudit :=
  if bool_decide (bytes = "1") then Some (mkAuditDoc alert_day1 "ls" 2 [("000200", 2)])
  else if bool_decide (bytes = "2") then Some (mkAuditDoc alert_day2 "ls" 1 [("000300", 1)]) else None.
Definition alert_audit (day : Z) : option json :=
  if day =? alert_day1 then Some (JObj [("symbols", JArr [plan_gap "000200" 2])])
  else if day =? alert_day2 then Some (JObj [("symbols", JArr [plan_gap "000300" 1])]) else None.
Definition alert_ev : Evidence :=
  mkEvidence (fun day _ => if day =? alert_day1 then Some ("1", 0) else if day =? alert_day2 then Some ("2", 0) else None) (fun _ _ => None) (fun _ _ => None)
    (fun day v => bool_decide (v = "ls") && ((day =? alert_day1) || (day =? alert_day2))) (fun _ _ => false) (fun _ _ => false).
Definition alert_failed (run_id : string) : LedgerRec := mkRec alert_day1 "000200" "failed" 0 run_id "repair" (Some "_SymbolTransientError").
Definition alert_runs : list string := ["n1"; "n1-1"; "n2"].
(** A codec that writes a record as its run and finds it again. *)
Definition alert_codec : LedgerCodec := {|
  rec_dumps o := match dget o "run_id" with Some (JStr run_id) => s2l run_id | _ => [] end;
  rec_loads l := (fun run_id => JObj (record_obj (alert_failed run_id))) <$> List.find (fun run_id => bool_decide (s2l run_id = l)) alert_runs
|}.
#[local] Existing Instance alert_codec | 0.
Definition alert_ledger : option (list ascii) := fst (append_ledger_lines LNone None (map alert_failed alert_runs)).
Definition alert_cfg : AlertSettings := mkAlertSettings (mkRepairSettings true true 3 ["ls"; "kis"] ["ls"] [] []) 2 2 1 2.

Lemma repair_alerts_complete_witness :
  exhausted plan_repr tape_iso alert_decode (fun _ => None) (fun s => s) alert_ev alert_audit alert_ledger alert_cfg 20760 = Some [((alert_day1, "ls"), 2)] /\
  repair_overdue plan_repr tape_iso alert_decode (fun _ => None) (fun s => s) alert_ev alert_audit alert_ledger alert_cfg 20760 = Some ["2026-11-01:ls:tape_pending"] /\
  ((alert_day2, "ls") ∈ map fst [((alert_day1, "ls"), 2)] /\ (alert_day2, "ls") ∉ [(alert_day2, "ls")] \/
   (alert_day2, "ls") ∉ map fst [((alert_day1, "ls"), 2)] /\ (alert_day2, "ls") ∈ [(alert_day2, "ls")]).
Proof.
  split; [vm_compute; reflexivity|]. split; [vm_compute; reflexivity|].
  destruct (repair_alerts_complete plan_repr tape_iso alert_decode (fun _ => None) (fun s => s) alert_ev alert_audit alert_ledger alert_cfg 20760
    [((alert_day1, "ls"), 2)] [(alert_day2, "ls")]) as (_ & _ & _ & Hc & _); [vm_compute; reflexivity|vm_compute; reflexivity|].
  apply Hc; [cbn; unfold alert_day2; lia|cbn; unfold alert_day2; lia|cbn; left|vm_compute; reflexivity|vm_compute; reflexivity].
Defined.

Lemma repair_expiry_announced_witness :
  repair_expiring plan_repr tape_iso alert_decode (fun _ => None) (fun s => s) alert_ev alert_ledger alert_cfg 20760 =
    [((alert_day1, "ls"), 20762)] /\
  forall eod, l0_hold_reason alert_decode (fun _ => None) (fun s => s) alert_ev (as_repair alert_cfg) (tape_done plan_repr tape_iso alert_ledger)
    ["ls"; "krx"; "regular"; "H0STCNT0"; "dt=2026-10-31"] alert_day1 (eod - 1) = None <-> 20762 <= eod.
Proof.
  assert (Hx : repair_expiring plan_repr tape_iso alert_decode (fun _ => None) (fun s => s) alert_ev alert_ledger alert_cfg 20760 =
    [((alert_day1, "ls"), 20762)]) by (vm_compute; reflexivity).
  split; [exact Hx|]. intros eod.
  destruct (repair_expiry_announced plan_repr tape_iso alert_decode (fun _ => None) (fun s => s) alert_ev alert_ledger alert_cfg 20760) as [_ Hs];
    [reflexivity|cbn; lia|].
  refine (proj2 (proj2 (Hs alert_day1 "ls" 20762 _)) _ eod _); [rewrite Hx; left|vm_compute; reflexivity].
Defined.
