(* ===== verification/Universe.v ===== *)
(** * Selection of the static universe ([src/universe/policy.py])

    From the daily bars with their features the policy takes the symbols collected on the next
    session: a core panel by liquidity with hysteresis, the symbols of the day's
    events, and those that follow up an earlier event, in this order, within the slots of the feeds. A
    frame is the list of its rows, a null is [None], a missing optional column is all null; comparisons of
    columns are those of Polars, for which a NaN is the largest value. The rolling features are arguments. *)
From Stdlib Require Import Ascii SpecFloat.
From S2P Require Import Prelude PyStr PyFloat.

Definition lit (n : Z) : pyfloat := round_z n 0 false.
Definition LIMIT_UP_PCT : pyfloat := lit 29.
Definition SURGE_PCT : pyfloat := lit 10.
Definition VOLSURGE_RATIO : pyfloat := lit 5.
Definition VOLSURGE_MIN_CHANGE_PCT : pyfloat := lit 5.
Definition NEWHIGH_MIN_CHANGE_PCT : pyfloat := lit 5.
Definition LIQUIDITY_FLOOR_100M : pyfloat := lit 50.
Definition ELIGIBLE_STOCK_CERT_KIND : string := "보통주".
Definition EXCLUDED_SECTIONS : list string := ["관리종목(소속부없음)"; "SPAC(소속부없음)"; "투자주의환기종목(소속부없음)"].

Record FeatRow := mkFeat {
  fr_date : Z; fr_symbol : string; fr_cert : option string; fr_section : option string; fr_close : option pyfloat; fr_change : option pyfloat;
  fr_tv : option pyfloat; fr_ratio : option pyfloat; fr_max60 : option pyfloat; fr_min60 : option pyfloat; fr_median : option pyfloat
}.
Record SelRow := mkSel {
  sr_symbol : string; sr_reasons : list string; sr_change : option pyfloat; sr_tv : option pyfloat; sr_ratio : option pyfloat;
  sr_tier : option string; sr_rank : option Z; sr_direction : option string
}.
Record UniverseSelection := mkSelection { us_selected : list SelRow; us_dropped : list SelRow }.
Record UniverseTierSettings := mkTiers {
  core_enabled : bool; core_enter_rank : Z; core_exit_rank : Z; core_warmup_sessions : Z; follow_sessions : Z; downside_enabled : bool
}.
Inductive policy_exc := PolicyValueError | SlotBudgetExceededError.

(** ** Columns *)

(** Polars orders a NaN after every number; a comparison with null is null and counts as false. *)
Definition pl_leb (a b : pyfloat) : bool :=
  match a, b with _, S754_nan => true | S754_nan, _ => false | _, _ => SFleb a b end.
Definition pl_ge (a b : option pyfloat) : bool := match a, b with Some a, Some b => pl_leb b a | _, _ => false end.
Definition pl_le (a b : option pyfloat) : bool := match a, b with Some a, Some b => pl_leb a b | _, _ => false end.
Definition is_finite (f : pyfloat) : bool := match f with S754_zero _ | S754_finite _ _ _ => true | _ => false end.

(** The security-class filter. *)
Definition eligible_class (r : FeatRow) : bool :=
  (match fr_cert r with Some k => bool_decide (k = ELIGIBLE_STOCK_CERT_KIND) | None => true end)
  && (match fr_section r with Some s => negb (bool_decide (s ∈ EXCLUDED_SECTIONS)) | None => true end).
Definition on_date (day : Z) (featured : list FeatRow) : list FeatRow := List.filter (fun r => fr_date r =? day) featured.

(** ** Events *)

Definition up_conds (r : FeatRow) : list (string * bool) :=
  let change := fr_change r in
  [("limit_up", pl_ge change (Some LIMIT_UP_PCT)); ("surge10", pl_ge change (Some SURGE_PCT));
   ("volsurge", pl_ge (fr_ratio r) (Some VOLSURGE_RATIO) && pl_ge change (Some VOLSURGE_MIN_CHANGE_PCT));
   ("newhigh60", pl_ge (fr_close r) (fr_max60 r) && pl_ge change (Some NEWHIGH_MIN_CHANGE_PCT))].
Definition down_conds (downside : bool) (r : FeatRow) : list (string * bool) :=
  let change := fr_change r in
  if downside then
    [("limit_down", pl_le change (Some (fneg LIMIT_UP_PCT))); ("plunge10", pl_le change (Some (fneg SURGE_PCT)));
     ("volsurge_down", pl_ge (fr_ratio r) (Some VOLSURGE_RATIO) && pl_le change (Some (fneg VOLSURGE_MIN_CHANGE_PCT)));
     ("newlow60", pl_le (fr_close r) (fr_min60 r) && pl_le change (Some (fneg NEWHIGH_MIN_CHANGE_PCT)))]
  else [].
Definition any_cond (conds : list (string * bool)) : bool := existsb snd conds.

Record EventRow := mkEvent { er_row : FeatRow; er_reasons : list string; er_direction : option string }.
Definition event_of (downside : bool) (r : FeatRow) : EventRow :=
  mkEvent r (map fst (List.filter snd (up_conds r ++ down_conds downside r)))
    (if any_cond (up_conds r) then Some "up" else if any_cond (down_conds downside r) then Some "down" else None).
Definition qualifies_event (downside : bool) (r : FeatRow) : bool :=
  (any_cond (up_conds r) || any_cond (down_conds downside r)) && pl_ge (fr_tv r) (Some LIQUIDITY_FLOOR_100M).
(** [_event_qualifying]; [None] is the [ValueError]. *)
Definition event_qualifying (downside : bool) (cand : list FeatRow) : option (list EventRow) :=
  let filtered := List.filter eligible_class cand in
  if existsb (fun r => any_cond (up_conds r) && any_cond (down_conds downside r)) filtered then None
  else Some (map (event_of downside) (List.filter (qualifies_event downside) filtered)).

(** [max_date > decision_date]. *)
Definition lookahead (featured : list FeatRow) (decision : Z) : bool := existsb (fun r => decision <? fr_date r) featured.

(** [_rank_key_value], and the order by it, descending, then by symbol. *)
Definition rank_key_value (v : option pyfloat) : pyfloat :=
  match v with Some f => if is_finite f then f else S754_infinity true | None => S754_infinity true end.
Definition value_before (a b : SelRow) : bool :=
  let va := rank_key_value (sr_tv a) in
  let vb := rank_key_value (sr_tv b) in
  SFltb vb va || (SFeqb va vb && str_leb (sr_symbol a) (sr_symbol b)).
Definition symbol_before (a b : SelRow) : bool := str_leb (sr_symbol a) (sr_symbol b).
Definition plain_row (e : EventRow) : SelRow :=
  mkSel (fr_symbol (er_row e)) (er_reasons e) (fr_change (er_row e)) (fr_tv (er_row e)) (fr_ratio (er_row e)) None None (er_direction e).

(** [select_universe_detailed]. *)
Definition select_universe_detailed (featured : list FeatRow) (decision slot_budget : Z) (downside : bool) : res policy_exc UniverseSelection :=
  if slot_budget <? 1 then Raise PolicyValueError
  else if lookahead featured decision then Raise PolicyValueError
  else match event_qualifying downside (on_date decision featured) with
       | None => Raise PolicyValueError
       | Some qualifying =>
           let base := map plain_row qualifying in
           if zlen base <=? slot_budget then Ok (mkSelection (py_sorted symbol_before base) [])
           else
             let ranked := py_sorted value_before base in
             Ok (mkSelection (py_sorted symbol_before (take (Z.to_nat slot_budget) ranked)) (drop (Z.to_nat slot_budget) ranked))
       end.

(** ** The core panel *)

(** The last [n] of a list, for [n] that is positive: [l[-n:]]. *)
Definition last_n {A} (n : Z) (l : list A) : list A := drop (length l - Z.to_nat n) l.
Definition dates_of (p : Z -> bool) (featured : list FeatRow) : list Z := py_sorted Z.leb (fromkeys (List.filter p (map fr_date featured))).

(** [_eligible_core_rows]. *)
Definition eligible_core_rows (day_rows : list FeatRow) : list FeatRow :=
  List.filter (fun r => match fr_median r with Some _ => true | None => false end) (List.filter eligible_class day_rows).
Definition median_before (a b : FeatRow) : bool :=
  let va := default S754_nan (fr_median a) in
  let vb := default S754_nan (fr_median b) in
  negb (pl_leb va vb) || (pl_leb vb va && str_leb (fr_symbol a) (fr_symbol b)).
(** [{s: i + 1 for i, s in enumerate(ordered)}]. *)
Fixpoint number_from (i : Z) (symbols : list string) (ranks : list (string * Z)) : list (string * Z) :=
  match symbols with
  | [] => ranks
  | s :: symbols => number_from (i + 1) symbols (dset ranks s i)
  end.
Definition day_ranks (featured : list FeatRow) (day : Z) : list (string * Z) :=
  number_from 1 (map fr_symbol (py_sorted median_before (eligible_core_rows (on_date day featured)))) [].

Definition within (ranks : list (string * Z)) (bound : Z) (s : string) : bool := match dget ranks s with Some r => r <=? bound | None => false end.
(** The members after a session; the loop's first session only enters. *)
Definition core_step (enter exit : Z) (first : bool) (ranks : list (string * Z)) (members : list string) : list string :=
  let entering := List.filter (within ranks enter) (dkeys ranks) in
  if first then entering else fromkeys (entering ++ List.filter (within ranks exit) members).
Fixpoint core_members (featured : list FeatRow) (enter exit : Z) (first : bool) (window : list Z) (members : list string) : list string :=
  match window with
  | [] => members
  | day :: window =>
      match day_ranks featured day with
      | [] => core_members featured enter exit false window []
      | ranks => core_members featured enter exit false window (core_step enter exit first ranks members)
      end
  end.

Definition core_window (featured : list FeatRow) (decision warmup : Z) : list Z := last_n warmup (dates_of (fun d => d <=? decision) featured).
Definition rank_before (a b : string * Z) : bool := snd a <=? snd b.
(** [select_core_panel]: the symbols with their ranks. *)
Definition select_core_panel (featured : list FeatRow) (decision enter exit warmup : Z) : res policy_exc (list (string * Z)) :=
  if (enter <? 1) || (exit <? 1) || (exit <? enter) || (warmup <? 1) || lookahead featured decision then Raise PolicyValueError
  else
    let window := core_window featured decision warmup in
    let on_decision := if bool_decide (decision ∈ window) then day_ranks featured decision else [] in
    Ok (py_sorted rank_before (omap (fun s => r ← dget on_decision s; Some (s, r)) (core_members featured enter exit true window []))).

(** ** Follow-up *)

Definition note_event (order : Z) (ages : list (string * (Z * string))) (e : EventRow) : list (string * (Z * string)) :=
  let s := fr_symbol (er_row e) in
  match dget ages s with
  | Some (old, _) => if order <? old then dset ages s (order, default "None" (er_direction e)) else ages
  | None => dset ages s (order, default "None" (er_direction e))
  end.
(** The loop over the window; [order] counts the sessions still to come, this one included. *)
Fixpoint note_days (featured : list FeatRow) (downside : bool) (window : list Z) (ages : list (string * (Z * string)))
    : option (list (string * (Z * string))) :=
  match window with
  | [] => Some ages
  | day :: rest =>
      qualifying ← event_qualifying downside (on_date day featured);
      note_days featured downside rest (fold_left (note_event (zlen window)) qualifying ages)
  end.
Definition tradable (featured : list FeatRow) (decision : Z) : list string :=
  map fr_symbol (List.filter (fun r => pl_ge (fr_tv r) (Some LIQUIDITY_FLOOR_100M)) (List.filter eligible_class (on_date decision featured))).
Definition age_before (a b : string * (Z * string)) : bool :=
  (fst (snd a) <? fst (snd b)) || ((fst (snd a) =? fst (snd b)) && str_leb (fst a) (fst b)).
(** [select_follow_up]: symbol, age and direction. *)
Definition select_follow_up (featured : list FeatRow) (decision sessions : Z) (downside : bool) : res policy_exc (list (string * (Z * string))) :=
  if sessions <? 0 then Raise PolicyValueError
  else if sessions =? 0 then Ok []
  else if lookahead featured decision then Raise PolicyValueError
  else
    match note_days featured downside (last_n sessions (dates_of (fun d => d <? decision) featured)) [] with
    | None => Raise PolicyValueError
    | Some ages => Ok (py_sorted age_before (List.filter (fun e => bool_decide (fst e ∈ tradable featured decision)) ages))
    end.

(** ** The tiers together *)

Definition event_index (events : list EventRow) : list (string * EventRow) := fold_left (fun d e => dset d (fr_symbol (er_row e)) e) events [].
Definition row_index (rows : list FeatRow) : list (string * FeatRow) := fold_left (fun d r => dset d (fr_symbol r) r) rows [].
Definition follow_reason (age : Z) : string := String.append "follow:" (str_of_Z age).

(** The record of one symbol of the three layers. *)
Definition tier_row (core : list (string * Z)) (events : list (string * EventRow)) (follow : list (string * (Z * string)))
    (rows : list (string * FeatRow)) (s : string) : SelRow :=
  let in_event := dget events s in
  let follow_reasons := match dget follow s with Some (age, _) => [follow_reason age] | None => [] end in
  let reasons :=
    match dget core s, in_event with
    | Some _, Some e => er_reasons e ++ ["core"] ++ follow_reasons
    | Some _, None => ["core"]
    | None, Some e => er_reasons e ++ follow_reasons
    | None, None => follow_reasons
    end in
  let tier := match dget core s, in_event with Some _, _ => "core" | None, Some _ => "event" | None, None => "follow" end in
  let src := match in_event with Some e => Some (er_row e) | None => dget rows s end in
  let direction := match in_event with Some e => er_direction e | None => option_map snd (dget follow s) end in
  mkSel s reasons (src ≫= fr_change) (src ≫= fr_tv) (src ≫= fr_ratio) (Some tier) (dget core s) direction.

Definition core_before (a b : SelRow) : bool := default 0 (sr_rank a) <=? default 0 (sr_rank b).
Definition follow_before (follow : list (string * (Z * string))) (a b : SelRow) : bool :=
  let age r := fst (default (0, "") (dget follow (sr_symbol r))) in
  (age a <? age b) || ((age a =? age b) && value_before a b).
Definition of_tier (tier : string) (rows : list SelRow) : list SelRow := List.filter (fun r => bool_decide (sr_tier r = Some tier)) rows.

(** The records of all symbols in the order of priority. *)
Definition tier_order (core : list (string * Z)) (events : list EventRow) (follow : list (string * (Z * string))) (rows : list FeatRow) : list SelRow :=
  let by_symbol := event_index events in
  let symbols := fromkeys (dkeys core ++ dkeys by_symbol ++ dkeys follow) in
  let records := map (tier_row core by_symbol follow (row_index rows)) symbols in
  py_sorted core_before (of_tier "core" records) ++ py_sorted value_before (of_tier "event" records)
  ++ py_sorted (follow_before follow) (of_tier "follow" records).

(** [select_universe_tiered]. *)
Definition select_universe_tiered (featured : list FeatRow) (decision slot_budget : Z) (tiers : UniverseTierSettings) : res policy_exc UniverseSelection :=
  if negb (core_enabled tiers) then select_universe_detailed featured decision slot_budget (downside_enabled tiers)
  else if (slot_budget <? 1) || lookahead featured decision || (core_exit_rank tiers <? core_enter_rank tiers) then Raise PolicyValueError
  else if slot_budget <? core_exit_rank tiers then Raise SlotBudgetExceededError
  else
    (core <~ select_core_panel featured decision (core_enter_rank tiers) (core_exit_rank tiers) (core_warmup_sessions tiers);;
     follow <~ select_follow_up featured decision (follow_sessions tiers) (downside_enabled tiers);;
     match event_qualifying (downside_enabled tiers) (on_date decision featured) with
     | None => Raise PolicyValueError
     | Some events =>
         let ordered := tier_order core events follow (on_date decision featured) in
         Ok (mkSelection (take (Z.to_nat slot_budget) ordered) (drop (Z.to_nat slot_budget) ordered))
     end)%py.
