(* ===== verification/UniverseProps.v ===== *)
(** * Properties of the static universe

    The core panel with its hysteresis, and what a selection keeps and drops. *)
From Stdlib Require Import Ascii SpecFloat.
From S2P Require Import Prelude PyStr PyFloat Universe.

(** ** Ranks *)

Lemma number_from_spec symbols : forall i ranks s r, dget (number_from i symbols ranks) s = Some r ->
  dget ranks s = Some r \/ (i <= r /\ symbols !! Z.to_nat (r - i) = Some s).
Proof.
  induction symbols as [|x symbols IH]; intros i ranks s r; cbn [number_from]; [by left|]. intros Hr. apply IH in Hr as [Hr|[Hi Hr]].
  - destruct (decide (x = s)) as [->|Hne]; [|rewrite dget_dset_ne in Hr by done; by left]. rewrite dget_dset_eq in Hr. injection Hr as <-.
    right. split; [lia|]. by rewrite Z.sub_diag.
  - right. split; [lia|]. replace (Z.to_nat (r - i)) with (S (Z.to_nat (r - (i + 1)))) by lia. done.
Qed.

(** A rank is a place of the day, and two symbols never share one. *)
Lemma day_rank_pos featured day s r : dget (day_ranks featured day) s = Some r -> 1 <= r.
Proof. unfold day_ranks. intros Hr. by apply number_from_spec in Hr as [Hr|[Hi _]]. Qed.
Lemma day_rank_inj featured day s s' r : dget (day_ranks featured day) s = Some r -> dget (day_ranks featured day) s' = Some r -> s = s'.
Proof.
  unfold day_ranks. intros H1 H2. apply number_from_spec in H1 as [H1|[_ H1]]; [done|]. apply number_from_spec in H2 as [H2|[_ H2]]; [done|]. congruence.
Qed.
Lemma within_spec ranks bound s : within ranks bound s = true <-> exists r, dget ranks s = Some r /\ r <= bound.
Proof.
  unfold within. destruct (dget ranks s) as [r|]; [rewrite Z.leb_le|]; split; [eauto|by intros (? & [= <-] & ?)|done|by intros (? & ? & _)].
Qed.
Lemma within_key ranks bound s : within ranks bound s = true -> s ∈ dkeys ranks.
Proof. intros (r & Hr & _)%within_spec. apply dget_elem in Hr. apply list_elem_of_fmap. by exists (s, r). Qed.

(** ** The hysteresis *)

Section Core.
Context (featured : list FeatRow) (enter exit : Z).
Abbreviation rank_on day := (day_ranks featured day).

(** The symbol entered on a session of the window and stayed within the exit rank on all later ones. *)
Definition held_since (window : list Z) (s : string) : Prop := exists pre day post, window = pre ++ day :: post /\
  within (rank_on day) enter s = true /\ Forall (fun d => within (rank_on d) exit s = true) post.

Lemma core_step_elem first ranks members s : (first = true -> members = []) ->
  s ∈ core_step enter exit first ranks members <-> within ranks enter s = true \/ (s ∈ members /\ within ranks exit s = true).
Proof using.
  intros Hf. unfold core_step. assert (He : s ∈ List.filter (within ranks enter) (dkeys ranks) <-> within ranks enter s = true).
  { rewrite filter_elem. split; [tauto|]. intros Hw. split; [by eapply within_key|done]. }
  destruct first; [rewrite He, Hf, elem_of_nil by done; tauto|]. by rewrite fromkeys_elem, elem_of_app, He, filter_elem.
Qed.

Lemma core_members_elem window s : forall first members, (first = true -> members = []) ->
  s ∈ core_members featured enter exit first window members <->
  (s ∈ members /\ Forall (fun d => within (rank_on d) exit s = true) window) \/ held_since window s.
Proof using.
  induction window as [|day window IH]; intros first members Hf; cbn [core_members].
  { split; [intros Hs; left; by split|]. intros [[Hs _]|(pre & d & post & Hw & _)]; [done|]. by destruct pre. }
  assert (Hheld : held_since (day :: window) s <->
    (within (rank_on day) enter s = true /\ Forall (fun d => within (rank_on d) exit s = true) window) \/ held_since window s).
  { split.
    - intros ([|x pre] & d & post & [= <- Hw] & He & Hp); [left; by rewrite Hw|right; by exists pre, d, post].
    - intros [[He Hp]|(pre & d & post & -> & He & Hp)]; [by exists [], day, window|by exists (day :: pre), d, post]. }
  rewrite Hheld, Forall_cons. destruct (rank_on day) as [|p rest] eqn:Er.
  - rewrite IH by done. rewrite elem_of_nil. unfold within. cbn. intuition congruence.
  - rewrite <- Er, IH by done. rewrite core_step_elem by done. tauto.
Qed.

Lemma core_members_nodup window : forall first members, NoDup members -> Forall (fun d => NoDup (dkeys (rank_on d))) window ->
  NoDup (core_members featured enter exit first window members).
Proof using.
  induction window as [|day window IH]; intros first members Hm HF; cbn [core_members]; [done|]. apply Forall_cons in HF as [Hd HF].
  destruct (rank_on day) as [|p rest] eqn:Er; [apply IH; [constructor|done]|]. apply IH; [|done]. rewrite <- Er. unfold core_step.
  destruct first; [|apply fromkeys_nodup]. eapply sublist_NoDup; [|apply filter_sublist]. by rewrite Er.
Qed.
End Core.

Lemma number_from_nodup symbols : forall i ranks, NoDup (dkeys ranks) -> NoDup (dkeys (number_from i symbols ranks)).
Proof. induction symbols as [|s symbols IH]; intros i ranks Hr; cbn [number_from]; [done|]. by apply IH, dkeys_dset_nodup. Qed.
Lemma day_ranks_nodup featured day : NoDup (dkeys (day_ranks featured day)).
Proof. apply number_from_nodup. constructor. Qed.

(** ** The panel *)

Lemma strong_impl {A} (P Q : A -> A -> Prop) l : (forall a b, P a b -> Q a b) -> StronglySorted P l -> StronglySorted Q l.
Proof. intros Hi. induction 1 as [|x l _ IH HF]; constructor; [done|]. eapply Forall_impl; [exact HF|]. intros y. apply Hi. Qed.

Lemma last_of_sorted (l : list Z) d : StronglySorted Z.le l -> NoDup l -> (forall x, x ∈ l -> x <= d) -> d ∈ l -> exists pre, l = pre ++ [d].
Proof.
  intros Hs Hn Hle Hd. destruct l as [|x l _] using rev_ind; [by apply elem_of_nil in Hd|]. exists l. f_equal. f_equal.
  apply elem_of_app in Hd as [Hd|Hd]; [|by apply list_elem_of_singleton in Hd].
  assert (d <= x); [|specialize (Hle x ltac:(set_solver)); lia]. clear Hle Hn. induction l as [|y l IH]; [by apply elem_of_nil in Hd|].
  inversion Hs as [|? ? Hs' HF]; subst. rewrite Forall_forall in HF. apply elem_of_cons in Hd as [->|Hd]; [apply HF; set_solver|by apply IH].
Qed.

Lemma last_n_sublist {A} n (l : list A) : last_n n l `sublist_of` l.
Proof. apply sublist_drop. Qed.

Lemma core_window_shape featured decision warmup : decision ∈ core_window featured decision warmup ->
  exists pre, core_window featured decision warmup = pre ++ [decision].
Proof.
  unfold core_window. set (dates := dates_of _ featured). assert (Hs : StronglySorted Z.le dates).
  { eapply strong_impl; [|apply (py_sorted_strong Z.leb); intros; lia]. intros a b Hab. by apply Z.leb_le. }
  apply last_of_sorted.
  - unfold last_n. clear -Hs. generalize (length dates - Z.to_nat warmup)%nat. intros k. revert k.
    induction Hs as [|x l Hs IH HF]; intros [|k]; cbn; [constructor..|by constructor|apply IH].
  - eapply sublist_NoDup; [|apply last_n_sublist]. unfold dates, dates_of. rewrite py_sorted_perm. apply fromkeys_nodup.
  - intros x Hx. assert (x ∈ dates) as Hd by (eapply elem_of_sublist; [exact Hx|apply last_n_sublist]).
    unfold dates, dates_of in Hd. rewrite py_sorted_elem, fromkeys_elem, filter_elem in Hd. destruct Hd as [_ Hd]. by apply Z.leb_le.
Qed.

Lemma bounded_places (l : list Z) n : NoDup l -> Forall (fun x => 1 <= x <= n) l -> (length l <= Z.to_nat n)%nat.
Proof.
  intros Hn HF. rewrite <- (length_seq (Z.to_nat n) 1), <- (length_map Z.of_nat). apply NoDup_incl_length; [by apply NoDup_ListNoDup|].
  intros x Hx. apply in_map_iff. exists (Z.to_nat x). rewrite Forall_forall in HF. apply list_elem_of_In in Hx. specialize (HF x Hx).
  split; [lia|]. apply in_seq. lia.
Qed.

Definition panel_of (featured : list FeatRow) (on_decision : list (string * Z)) (members : list string) : list (string * Z) :=
  omap (fun s => r ← dget on_decision s; Some (s, r)) members.
Lemma panel_elem featured on_decision members s r : (s, r) ∈ panel_of featured on_decision members <-> s ∈ members /\ dget on_decision s = Some r.
Proof.
  unfold panel_of. rewrite list_elem_of_omap. split.
  - intros (x & Hx & Hr). destruct (dget on_decision x) as [k|] eqn:E; [|done]. rewrite bind_some in Hr. by injection Hr as <- <-.
  - intros [Hs Hr]. exists s. by rewrite Hr, bind_some.
Qed.
Lemma panel_keys featured on_decision members : NoDup members -> NoDup (map fst (panel_of featured on_decision members)).
Proof.
  unfold panel_of. induction 1 as [|x l Hx Hn IH]; cbn; [constructor|]. destruct (dget on_decision x) as [r|] eqn:E; cbn [mbind option_bind]; [|done].
  cbn [map fst]. constructor; [|done]. intros Hin. apply list_elem_of_fmap in Hin as ([y k] & -> & Hy). by apply (panel_elem featured) in Hy as [Hy _].
Qed.

(** C28. The core panel is exactly the symbols that hold a place by liquidity on the decision date and entered it, at or above the enter rank, on
    a session of the window since which they have never fallen below the exit rank; each comes once, in
    the order of its rank, and there are no more of them than the exit rank allows. *)
Theorem core_panel_exact featured decision enter exit warmup core :
  select_core_panel featured decision enter exit warmup = Ok core ->
  let window := core_window featured decision warmup in
  (forall s r, (s, r) ∈ core <-> decision ∈ window /\ dget (day_ranks featured decision) s = Some r /\ held_since featured enter exit window s) /\
  NoDup (map fst core) /\ StronglySorted (fun a b => snd a <= snd b) core /\ Forall (fun e => 1 <= snd e <= exit) core /\ (length core <= Z.to_nat exit)%nat.
Proof.
  unfold select_core_panel. destruct (_ || _) eqn:Eb; [done|]. intros [= <-]. bprop. set (window := core_window featured decision warmup).
  set (on_decision := if bool_decide (decision ∈ window) then day_ranks featured decision else []).
  fold (panel_of featured on_decision (core_members featured enter exit true window [])). set (panel := panel_of _ _ _).
  assert (Hel : forall s r, (s, r) ∈ panel <-> decision ∈ window /\ dget (day_ranks featured decision) s = Some r /\ held_since featured enter exit window s).
  { intros s r. unfold panel. rewrite panel_elem, core_members_elem, elem_of_nil by done. unfold on_decision.
    destruct (bool_decide (decision ∈ window)) eqn:Ew; bprop; [tauto|]. split; [by intros [_ ?]|tauto]. }
  assert (Hb : Forall (fun e => 1 <= snd e <= exit) panel).
  { apply Forall_forall. intros [s r] Hin. apply Hel in Hin as (Hw & Hr & pre & day & post & Heq & He & Hp). cbn [snd]. split; [by eapply day_rank_pos|].
    destruct (core_window_shape featured decision warmup Hw) as [l Hl]. fold window in Hl. rewrite Hl in Heq.
    destruct post as [|x post _] using rev_ind.
    - apply app_inj_tail in Heq as [_ <-]. apply within_spec in He as (k & Hk & Hle). rewrite Hr in Hk. injection Hk as <-. lia.
    - rewrite app_comm_cons, app_assoc in Heq. apply app_inj_tail in Heq as [_ <-]. apply Forall_app in Hp as [_ Hp]. apply Forall_cons in Hp as [Hp _].
      apply within_spec in Hp as (k & Hk & Hle). rewrite Hr in Hk. by injection Hk as <-. }
  assert (Hkeys : NoDup (map fst panel)).
  { apply panel_keys, core_members_nodup; [constructor|]. apply Forall_forall. intros d _. apply day_ranks_nodup. }
  assert (Hranks : NoDup (map snd panel)).
  { apply NoDup_fmap_2_strong; [|by eapply NoDup_fmap_1]. intros [s r] [s' r'] J1 J2 Heq. cbn in Heq. subst r'.
    apply Hel in J1 as (_ & J1 & _). apply Hel in J2 as (_ & J2 & _). f_equal. by eapply day_rank_inj. }
  split; [intros s r; by rewrite py_sorted_elem|]. split; [by rewrite py_sorted_perm|]. split.
  { eapply strong_impl; [|apply (py_sorted_strong rank_before); unfold rank_before; intros; lia]. intros a b Hab. by apply Z.leb_le. }
  split; [rewrite py_sorted_perm; done|]. rewrite py_sorted_perm, <- (length_map snd). apply bounded_places; [done|]. by apply Forall_map.
Qed.

(** ** The tiers *)

Lemma symbol_keys {A} (f : A -> string) l : forall d s, s ∈ dkeys (fold_left (fun d x => dset d (f x) x) l d) <-> s ∈ dkeys d \/ s ∈ map f l.
Proof.
  induction l as [|x l IH]; intros d s; cbn [fold_left map]; [rewrite elem_of_nil; tauto|]. rewrite IH, elem_of_cons.
  assert (Hk : s ∈ dkeys (dset d (f x) x) <-> s = f x \/ s ∈ dkeys d); [|tauto].
  destruct (decide (s = f x)) as [->|Hne].
  - split; [by left|]. intros _. destruct (decide (f x ∈ dkeys (dset d (f x) x))) as [|Hn]; [done|]. apply dget_None_keys in Hn. by rewrite dget_dset_eq in Hn.
  - pose proof (dget_None_keys (dset d (f x) x) s) as H1. pose proof (dget_None_keys d s) as H2. rewrite dget_dset_ne in H1 by done.
    destruct (decide (s ∈ dkeys d)), (decide (s ∈ dkeys (dset d (f x) x))); tauto.
Qed.

Definition tier_no (r : SelRow) : nat :=
  if decide (sr_tier r = Some "core") then 0 else if decide (sr_tier r = Some "event") then 1 else 2.

Section Tiers.
Context (core : list (string * Z)) (events : list EventRow) (follow : list (string * (Z * string))) (rows : list FeatRow).
Let symbols := fromkeys (dkeys core ++ dkeys (event_index events) ++ dkeys follow).
Let record := tier_row core (event_index events) follow (row_index rows).
Let ordered := tier_order core events follow rows.

Lemma record_tier s : sr_tier (record s) = Some "core" \/ sr_tier (record s) = Some "event" \/ sr_tier (record s) = Some "follow".
Proof using. unfold record, tier_row. cbn. destruct (dget core s); [tauto|]. destruct (dget (event_index events) s); tauto. Qed.
Lemma record_core s : sr_tier (record s) = Some "core" <-> s ∈ dkeys core.
Proof using.
  unfold record, tier_row. cbn. pose proof (dget_None_keys core s) as Hk. destruct (dget core s); [|destruct (dget (event_index events) s)].
  - split; [|done]. intros _. destruct (decide (s ∈ dkeys core)); [done|]. by apply Hk in n.
  - split; [done|]. intros Hs. by apply Hk in Hs.
  - split; [done|]. intros Hs. by apply Hk in Hs.
Qed.

Lemma tier_split l : (forall r, r ∈ l -> sr_tier r = Some "core" \/ sr_tier r = Some "event" \/ sr_tier r = Some "follow") ->
  of_tier "core" l ++ of_tier "event" l ++ of_tier "follow" l ≡ₚ l.
Proof using.
  unfold of_tier. induction l as [|r l IH]; intros Hl; [done|]. cbn [List.filter]. specialize (IH ltac:(intros; apply Hl; by right)).
  destruct (Hl r ltac:(left)) as [->|[->| ->]]; repeat (case_bool_decide; simplify_eq); cbn [app].
  - by rewrite IH.
  - by rewrite <- Permutation_middle, IH.
  - by rewrite app_assoc, <- Permutation_middle, <- app_assoc, IH.
Qed.

Lemma ordered_perm : ordered ≡ₚ map record symbols.
Proof using.
  unfold ordered, tier_order. fold symbols record. rewrite !py_sorted_perm. apply tier_split. intros r Hr.
  apply list_elem_of_fmap in Hr as (s & -> & _). apply record_tier.
Qed.
Lemma ordered_symbols : map sr_symbol ordered ≡ₚ symbols.
Proof using. rewrite ordered_perm, map_map. unfold record, tier_row. cbn. by rewrite map_id. Qed.

Lemma ordered_tiers : exists first rest, ordered = first ++ rest /\ (length first <= length core)%nat /\
  (forall r, r ∈ rest -> sr_symbol r ∉ dkeys core) /\ StronglySorted (fun a b => (tier_no a <= tier_no b)%nat) ordered.
Proof using.
  set (records := map record symbols). set (C := py_sorted core_before (of_tier "core" records)).
  set (E := py_sorted value_before (of_tier "event" records)). set (F := py_sorted (follow_before follow) (of_tier "follow" records)).
  assert (Hin : forall tier r, r ∈ of_tier tier records -> sr_tier r = Some tier /\ exists s, r = record s /\ s ∈ symbols).
  { intros tier r Hr. unfold of_tier in Hr. apply filter_elem in Hr as [Hr Ht]. apply list_elem_of_fmap in Hr as (s & -> & Hs). bprop. eauto. }
  assert (HC : forall r, r ∈ C -> tier_no r = 0%nat).
  { intros r Hr. apply py_sorted_elem, Hin in Hr as [Ht _]. unfold tier_no. by rewrite decide_True. }
  assert (HE : forall r, r ∈ E -> tier_no r = 1%nat).
  { intros r Hr. apply py_sorted_elem, Hin in Hr as [Ht _]. unfold tier_no. by rewrite Ht. }
  assert (HF : forall r, r ∈ F -> tier_no r = 2%nat).
  { intros r Hr. apply py_sorted_elem, Hin in Hr as [Ht _]. unfold tier_no. by rewrite Ht. }
  exists C, (E ++ F). split; [done|]. split; [|split].
  - unfold C. rewrite py_sorted_perm. rewrite <- (length_map fst core). rewrite <- (length_map sr_symbol). apply NoDup_incl_length.
    + apply NoDup_ListNoDup. eapply sublist_NoDup; [|apply sublist_map, filter_sublist]. unfold records. rewrite map_map. unfold record, tier_row. cbn.
      rewrite map_id. apply fromkeys_nodup.
    + intros s Hs. apply list_elem_of_In, list_elem_of_fmap in Hs as (r & -> & Hr). apply Hin in Hr as [Ht (s & -> & _)]. apply list_elem_of_In. by apply record_core.
  - intros r Hr Hc. assert (exists s, r = record s /\ sr_tier r <> Some "core") as (s & -> & Ht).
    { apply elem_of_app in Hr as [Hr|Hr]; apply py_sorted_elem, Hin in Hr as [Ht (s & -> & _)]; exists s; by rewrite Ht. }
    apply Ht. by apply record_core.
  - assert (Hblock : forall n l, (forall r, r ∈ l -> tier_no r = n) -> StronglySorted (fun a b => (tier_no a <= tier_no b)%nat) l).
    { intros n l. induction l as [|r l IH]; intros Hl; constructor; [apply IH; intros; apply Hl; by right|]. apply Forall_forall. intros x Hx.
      rewrite (Hl r), (Hl x); [done|by right|by left]. }
    change ordered with (C ++ E ++ F). apply StronglySorted_app. split_and!; [|by eapply Hblock|apply StronglySorted_app; split_and!; [|by eapply Hblock|by eapply Hblock]].
    + intros a b Ha Hb. rewrite (HC a Ha). lia.
    + intros a b Ha Hb. rewrite (HE a Ha), (HF b Hb). lia.
Qed.
End Tiers.

(** C27. A tiered selection loses no core symbol and wastes no slot: it takes exactly the symbols of the core panel, of the day's
    events and of the follow-up, each once; at most as many as there are slots are kept, all of them while something
    is dropped; every symbol of the core panel is kept; what is dropped never has a
    higher tier than what is kept; bars after the decision date are refused. *)
Theorem tiered_selection_exact featured decision slot_budget tiers sel :
  core_enabled tiers = true -> select_universe_tiered featured decision slot_budget tiers = Ok sel ->
  exists core follow events,
    select_core_panel featured decision (core_enter_rank tiers) (core_exit_rank tiers) (core_warmup_sessions tiers) = Ok core /\
    select_follow_up featured decision (follow_sessions tiers) (downside_enabled tiers) = Ok follow /\
    event_qualifying (downside_enabled tiers) (on_date decision featured) = Some events /\
    let all := map sr_symbol (us_selected sel ++ us_dropped sel) in
    NoDup all /\
    (forall s, s ∈ all <-> s ∈ map fst core \/ s ∈ map (fun e => fr_symbol (er_row e)) events \/ s ∈ map fst follow) /\
    zlen (us_selected sel) <= slot_budget /\ (us_dropped sel <> [] -> zlen (us_selected sel) = slot_budget) /\
    (forall s, s ∈ map fst core -> s ∈ map sr_symbol (us_selected sel)) /\
    (forall a b, a ∈ us_selected sel -> b ∈ us_dropped sel -> (tier_no a <= tier_no b)%nat) /\
    Forall (fun r => fr_date r <= decision) featured.
Proof.
  intros Hc. unfold select_universe_tiered. rewrite Hc. cbn [negb]. destruct ((slot_budget <? 1) || _ || _) eqn:Eb; [done|].
  destruct (slot_budget <? core_exit_rank tiers) eqn:Ex; [done|]. bprop.
  destruct (select_core_panel _ _ _ _ _) as [core|] eqn:Ec; [|done]. cbn [res_bind]. destruct (select_follow_up _ _ _ _) as [follow|] eqn:Ef; [|done]. cbn [res_bind].
  destruct (event_qualifying _ _) as [events|] eqn:Ee; [|done]. intros [= <-]. exists core, follow, events. repeat (split; [done|]). cbn [us_selected us_dropped].
  set (ordered := tier_order core events follow (on_date decision featured)). set (n := Z.to_nat slot_budget).
  set (all := map sr_symbol (take n ordered ++ drop n ordered)).
  assert (Hall : all ≡ₚ fromkeys (dkeys core ++ dkeys (event_index events) ++ dkeys follow)).
  { unfold all. rewrite take_drop. apply ordered_symbols. }
  destruct (ordered_tiers core events follow (on_date decision featured)) as (first & rest & Ho & Hl & Hrest & Hs). fold ordered in Ho, Hs.
  destruct (core_panel_exact _ _ _ _ _ _ Ec) as (_ & _ & _ & _ & Hcl).
  split; [rewrite Hall; apply fromkeys_nodup|]. split.
  { intros s. rewrite Hall, fromkeys_elem, !elem_of_app. unfold event_index. rewrite symbol_keys. cbn [dkeys map]. rewrite elem_of_nil. tauto. }
  split; [unfold zlen; rewrite length_take; lia|]. split.
  { intros Hd. unfold zlen. rewrite length_take. assert ((n < length ordered)%nat); [|lia]. apply Nat.lt_nge. intros Hge. apply Hd. by apply drop_ge. }
  split; [|split].
  - intros s Hin. assert (Ha : s ∈ all) by (rewrite Hall, fromkeys_elem, elem_of_app; by left). unfold all in Ha. rewrite take_drop in Ha.
    rewrite Ho in Ha |- *. rewrite take_app_ge by lia. rewrite map_app, elem_of_app in Ha |- *. destruct Ha as [Ha|Ha]; [by left|].
    apply list_elem_of_fmap in Ha as (r & -> & Hr). by destruct (Hrest r Hr).
  - intros a b Ha Hb. rewrite <- (take_drop n ordered) in Hs. exact (StronglySorted_app_1_elem_of _ _ _ _ _ Hs Ha Hb).
  - apply Forall_forall. intros r Hr. destruct (Z.le_gt_cases (fr_date r) decision) as [|Hgt]; [done|]. exfalso.
    match goal with H : lookahead _ _ = false |- _ => unfold lookahead in H; apply not_true_iff_false in H; apply H end.
    apply existsb_exists. exists r. split; [by apply list_elem_of_In|]. by apply Z.ltb_lt.
Qed.

(** Three sessions of five stocks. On the first 000100 and 000200 lead; 000200 then falls to the third place, which still holds; 000300
    has an event on the second day and follows up; 000500 has one on the decision date. *)
Definition feat (day : Z) (symbol : string) (median change tv : Z) : FeatRow :=
  mkFeat day symbol (Some ELIGIBLE_STOCK_CERT_KIND) None (Some (lit 100)) (Some (lit change)) (Some (lit tv)) (Some f_one) None None (Some (lit median)).
Definition demo_feats : list FeatRow :=
  [feat 1 "000100" 90 0 90; feat 1 "000200" 80 1 80; feat 1 "000300" 70 2 70; feat 1 "000400" 60 0 60; feat 1 "000500" 10 0 10;
   feat 2 "000100" 90 0 90; feat 2 "000200" 70 1 80; feat 2 "000300" 60 15 75; feat 2 "000400" 80 0 60; feat 2 "000500" 10 0 10;
   feat 3 "000100" 90 0 90; feat 3 "000200" 70 1 80; feat 3 "000300" 60 2 70; feat 3 "000400" 80 0 60; feat 3 "000500" 10 12 55].
Definition demo_tiers : UniverseTierSettings := mkTiers true 2 3 3 2 false.

Lemma core_panel_exact_witness :
  select_core_panel demo_feats 3 2 3 3 = Ok [("000100", 1); ("000400", 2); ("000200", 3)] /\
  (length [("000100", 1); ("000400", 2); ("000200", 3)] <= 3)%nat.
Proof.
  assert (Hp : select_core_panel demo_feats 3 2 3 3 = Ok [("000100", 1); ("000400", 2); ("000200", 3)]) by (vm_compute; reflexivity).
  split; [exact Hp|]. exact (proj2 (proj2 (proj2 (proj2 (core_panel_exact demo_feats 3 2 3 3 _ Hp))))).
Defined.

Lemma tiered_selection_exact_witness :
  exists sel, select_universe_tiered demo_feats 3 4 demo_tiers = Ok sel /\
    map (fun r => (sr_symbol r, sr_tier r)) (us_selected sel) =
      [("000100", Some "core"); ("000400", Some "core"); ("000200", Some "core"); ("000500", Some "event")] /\
    map (fun r => (sr_symbol r, sr_reasons r)) (us_dropped sel) = [("000300", ["follow:1"])] /\ zlen (us_selected sel) <= 4.
Proof.
  destruct (select_universe_tiered demo_feats 3 4 demo_tiers) as [sel|e] eqn:E; [|vm_compute in E; discriminate]. exists sel. split; [reflexivity|].
  destruct (tiered_selection_exact demo_feats 3 4 demo_tiers sel eq_refl E) as (core & follow & events & _ & _ & _ & _ & _ & Hn & _).
  vm_compute in E. injection E as <-. split; [reflexivity|]. split; [reflexivity|exact Hn].
Defined.
